(* ===== verification/_CoqProject ===== *)
-Q . S2P
Prelude.v
Queue.v
Simulation.v
Utf8.v
Cursor.v
Core.v
Wire.v
Carrier.v
Bitchat.v
LinkBitchat.v
BridgeCore.v
Msgpack.v
Lxmf.v
LinkLxmf.v
BridgeBitchat.v
F64.v
BridgeLxmf.v
NostrHex.v
NostrJson.v
NostrParser.v
Text.v
Nostr.v
NostrMessages.v
NostrStored.v
NostrRelay.v
NostrRelayRefine.v
BridgeNostr.v
DomainHash.v
Fips.v
FipsControl.v
Link.v
Ring.v
BridgeRuntime.v
Store.v
Router.v
Kiss.v
RNode.v
HilProbe.v
HilManifest.v
RnsWire.v
RnsCrypto.v
RnsAnnounce.v
Ifac.v
Loopback.v
LinkRns.v
SerialLink.v
SerialDriver.v
Config.v
Gateway.v
Display.v
ErrorText.v
Fixtures.v
ConfReport.v
Captures.v
Profile1.v
Profile2.v
Profile0.v
Host.v
Oracle.v
Cli.v
GatewayNostr.v
GatewayRefine.v
GatewayFips.v
