(* ===== verification/Prelude.v ===== *)
(** * A verification development for hyf, a delay-tolerant mesh

    hyf is a no_std, no-alloc Rust workspace (src/crates/): nodes exchange
    envelopes over links of many kinds (loopback, RNode radio modems behind a
    serial port, Reticulum packets, Nostr relays, a FIPS sidecar), keep what they
    cannot deliver in a bounded store, route with a hop budget and a window of
    recently seen messages, and bridge rooms to the BitChat, LXMF and Nostr
    networks.  A tool with the standard library generates and validates reports of
    conformance with Reticulum.  This
    library models the workspace's protocol logic as executable definitions
    translated from the source, one file per crate or layer, and proves what
    makes each part correct.

    ** How the program fits together, and where each part is

    Foundations:
    - [Prelude] (this file): outcomes, effects, fixed-width integers, slices
      and arrays, with the lemmas and tactics the components share.
    - [Utf8], [F64]: UTF-8 as [str::from_utf8] and [chars] define it; the [f64]
      arithmetic of the LXMF bridge over the Standard Library's specification of
      IEEE 754.
    - [Cursor]: the read and write cursors that the codecs each carry a copy
      of; [rcur]/[writes] are the proof principles for reading and writing a
      known prefix.
    - [Queue]: arrays of optional slots used as lists; [Simulation]: operations
      that answer as operations on an abstract state.
    - [Text]: string functions of the standard library; [Display], [ErrorText]:
      the texts of the error types of every library crate.

    Envelopes and what carries them:
    - [Core] (hyf_core), [Wire] (hyf_wire): identifiers, foreign endpoints and
      the native envelope codec.
    - [Link] (hyf_link): link classes, commands, error kinds and the
      [LinkDriver] trait as a type class.
    - [Carrier]: the interface of the four crates that carry foreign payloads in
      envelopes; [LinkRns] (hyf_link_rns), [LinkBitchat] (hyf_link_bitchat),
      [LinkLxmf] (hyf_link_lxmf) and [BridgeCore] (hyf_bridge_core) are
      instances.

    The node:
    - [Store] (hyf_store): the bounded store; an array of optional records.
    - [Ring]: a window of recent keys in a circular array; [Router]
      (hyf_router): the link table, the seen window and the event handlers that
      write commands into the caller's slice.
    - [Gateway] (hyf_gateway): a router, a store and counters over any link
      executor, and the runtime over the loopback driver; [Config] (hyf_config):
      the configuration and its validation.
    - [GatewayRefine]: the gateway is monotone in its executor; [GatewayNostr] and
      [GatewayFips] (hyf_gateway): the executors over Nostr and over FIPS.

    Links:
    - [Loopback] (hyf_link_loopback): the in-memory pair of links.
    - [Kiss] (hyf_link_kiss), [RNode] (hyf_link_rnode): serial framing, the
      modem's command set, reports and flow control; [SerialLink]
      (hyf_link_rnode_serial): the modem link, which composes [Kiss], [RNode],
      [Wire] and [LinkRns] over the interface [SerialIo]; [SerialDriver]: that link
      and the raw-packet driver as link drivers.
    - [HilProbe], [HilManifest] (hil.rs of hyf_link_rnode): the readiness probe of the
      hardware test over any transport, and the report it writes.
    - [RnsWire] (hyf_rns_core and the packets of hyf_rns_wire), [RnsCrypto]
      (hyf_rns_crypto), [RnsAnnounce] and [Ifac] (hyf_rns_wire): Reticulum
      packets, hashes, tokens, identities, single packets, announces and
      interface access codes.
    - [NostrHex], [NostrJson], [NostrParser], [Nostr], [NostrMessages]
      (hyf_link_nostr): hexadecimal, the JSON writers and the JSON parser, events with
      their canonical form, identifiers and signatures, envelopes in events, and the
      messages exchanged with a relay.
    - [NostrStored], [NostrRelay] (hyf_link_nostr): events in fixed capacity, statuses
      of relays and the in-memory relay; [NostrRelayRefine] relates the relay to lists
      and maps.
    - [Fips], [FipsControl] (hyf_link_fips): endpoints, datagrams and the in-memory
      sidecar; the daemon's answer to a status request.
    - [DomainHash] (hyf_crypto): hashes with a domain.

    Bridges:
    - [Bitchat] (hyf_bitchat_core), [Msgpack] and [Lxmf] (hyf_lxmf_core): the
      foreign codecs.
    - [BridgeCore] (hyf_bridge_core): the messages the bridges exchange.
    - [BridgeBitchat], [BridgeLxmf], [BridgeNostr] (hyf_bridge_bitchat,
      hyf_bridge_lxmf, hyf_bridge_nostr): the converters in both directions.
    - [BridgeRuntime] (hyf_bridge_runtime): the duplicate window ([Ring] again),
      the route policy and the ingest operations that compose all of these.

    Conformance (hyf_rns_conformance):
    - [Fixtures] (fixtures.rs), [ConfReport] (report.rs, runner.rs, final_report.rs),
      [Captures]: files of recorded vectors and their manifest, the rows of a report and
      the rules of a final one, the captures of Reticulum that are evidence.
    - [Profile0], [Profile1], [Profile2] (profile0.rs, profile1.rs, profile2.rs): the
      checks of packets and announces, of KISS and RNode, and of cryptography and access
      codes, against the definitions of [RnsWire], [RnsAnnounce], [Kiss], [RNode],
      [RnsCrypto] and [Ifac].
    - [Host], [Oracle] (lib.rs, the feature python_oracle of profile0.rs): what is used
      of the host, and the Python oracle run on it.
    - [Cli] (bin/hyf-rns-conformance-report.rs): the command line that generates and
      validates reports.

    ** How the code is rendered

    A Rust [Result] is [outcome E A], with [Panic] as a third value, so that
    "does not panic" is a theorem.  A function that mutates is [io S E A], from
    the state to an outcome and the state after it, also when it fails: a
    half-written output buffer is visible.  Integers are [Z]; [usize] has 64
    bits, and [checked_add], [saturating_add], the bit masks and [as u8] are
    written out.  Bytes are [list Z] with [bytes_ok]; an array [[u8; N]] is a
    list of length [N] ([array_ok]), and [[Option<T>; N]] a list of options.
    Indexing, slicing and [copy_from_slice] panic as in Rust.  Operations keep
    the source's order of checks and effects; loops are structural recursions
    on the data they traverse, or have fuel.

    Code of other crates is a parameter: SHA-256, HMAC, HKDF, AES-CBC, X25519
    and Ed25519 are the class [RnsPrims] with the laws of [RnsPrimsLaws]
    (lengths, inverse pairs, agreement of the two sides of Diffie-Hellman),
    BIP-340 signatures and their hash the class [NostrPrims] with
    [NostrPrimsLaws], the generator is [Rng], the serial port [SerialIo].  A JSON
    document of serde_json is [JsonDoc], reading into and writing from a derived type
    [FromJson] and [ToJson]; the file system, the environment and processes are
    [Host], files written [Writer]; the fixture files that a profile includes are
    [Profile0Files], [Profile1Files] and [Profile2Files].  The witnesses instantiate
    them with concrete functions for which the laws are proved.

    ** What the theorems show

    - Codecs ([Wire], [RnsWire], [Kiss], [RNode], [Carrier] and its instances,
      [Bitchat], [Lxmf], [BridgeCore], [NostrHex]): the encoder writes exactly the
      format on every branch, decoding inverts encoding, the decoder accepts
      nothing else (canonicity, or equivalence with the format as a relation
      where several encodings are legal), what is cut short or extended is
      rejected with the error that says so, and no input panics.  The KISS
      decoder resynchronises from any state.
    - Refinement: the store's array refines a finite map under any sequence of
      operations, and its queues are the delivery order; the router's handlers
      refine the pure decision [route]; the loopback array refines a bounded
      queue, the in-memory relay a list of events with subscriptions and a queue of
      outputs, and the FIPS sidecar a set of peers and two queues.
    - Router safety, of what the handlers write: split horizon and no duplicate
      sends ([envelope_sends_safe]), the hop budget strictly decreases along a chain
      of handled frames ([relay_chain_bounded]), and a committed message is
      dropped while it is among the last [MAX_SEEN] committed ones.
    - The gateway: every operation ends without panicking for any executor that
      does not panic, a stored frame leaves only by expiry, acceptance or
      settlement, and a link that comes up is given every live stored frame.  Over
      Nostr an envelope reaches the relay and comes back unchanged; over FIPS frames
      are delivered in order, each once.
    - Cryptographic composition ([RnsCrypto], [RnsAnnounce], [Ifac]): padding,
      tokens, identities, single packets, announces and access codes accept
      exactly what the peer's operation produces for the same keys, and leave
      a cleared buffer on failure, for every lawful choice of primitives.
    - The modem link ([SerialLink]): polls deliver what was sent behind any
      reports, always end, and two modems back to back carry an envelope
      unchanged; a report that does not parse blocks the link for good.  The raw
      driver keeps a packet until its provider knows how to wrap it.
    - The hardware test: the probe answers with the first verdict of what it read and
      writes only its two requests; its report reads back from the JSON written.
    - Nostr: the canonical form is unambiguous, so that a verified event cannot
      be altered without a collision of the hash; envelopes survive the trip
      through a signed event; the JSON parser accepts exactly the texts of the grammar
      with the values it gives them; relay messages are read back as they were written;
      a subscription replays the newest matching events in order.
    - Bridging: conversions are exact in what they let in and invert each other
      up to the millisecond that LXMF's floating-point times can lose
      ([lxmf_time_truncated]); a dispatch either leaves no trace or writes the
      planned commands, each well-formed for its network, never back to the
      origin and never twice inside the duplicate window.

    - Error texts: a text says which error it is, with its numbers ([ErrorText]).
    - Conformance: the rows of a profile pass exactly when the files record what this
      repository's definitions compute; captures are evidence exactly when they agree
      with each other and the fixtures; a final report is one with the expected rows; a
      generated one is accepted by validation, provenance included.

    ** Bounds and fuel

    Definitions with fuel: the polling loops of [SerialLink]
    ([serial_poll_terminates]: more fuel than bytes in the port, and two turns
    more than bytes in the port, are always enough; running out is a result of
    its own); the flush loop of [Gateway], given one turn more than the store has
    slots ([gateway_safe] proves that it ends); the decimal digits of a [u64] in
    [NostrJson], at most twenty; the JSON parser of [NostrParser], given one level
    more than there are bytes of input ([json_parse_exact] shows that it does not run
    out); the replay loop of [NostrRelay], one turn more than the relay has slots for
    events.  The probe of [HilProbe] counts down the reads the source itself allows.
    [skip_value] of [Msgpack] is structural on the nesting depth the source itself
    limits, and [for_range] is a loop with a known bound.

    ** What is not modelled

    The benchmarks with their inputs and the fuzz targets drive what is modelled and
    have no logic of their own.  The operating system's serial port ([SerialPortIo] and
    opening the port of the hardware test), the two error texts that show an error of
    the operating system, and the [main] function of the report tool, which prints the
    error and exits, are input and output.  [Debug] implementations are left out. *)
From stdpp Require Export base list numbers option.
From Stdlib Require Export ZArith Lia.

Open Scope Z_scope.

(** ** Outcomes

    A Rust function that returns [Result<A, E>] either returns [Ok], returns
    [Err], or panics (slice index out of range, [copy_from_slice] on slices of
    different lengths).  Panics are a value of the model, so that their absence
    is a theorem and not an assumption. *)
Inductive outcome (E A : Type) : Type :=
| Ok (a : A)
| Err (e : E)
| Panic.
Arguments Ok {E A} a.
Arguments Err {E A} e.
Arguments Panic {E A}.

#[export] Instance outcome_ret E : MRet (outcome E) := fun A a => Ok a.
#[export] Instance outcome_bind E : MBind (outcome E) := fun A B f m =>
  match m with Ok a => f a | Err e => Err e | Panic => Panic end.
#[export] Instance outcome_fmap E : FMap (outcome E) := fun A B f m =>
  match m with Ok a => Ok (f a) | Err e => Err e | Panic => Panic end.

(** [Result::map_err], and the [From] conversion that [?] inserts. *)
Definition map_err {E E' A} (f : E -> E') (m : outcome E A) : outcome E' A :=
  match m with Ok a => Ok a | Err e => Err (f e) | Panic => Panic end.

(** [Option::ok_or]. *)
Definition ok_or {E A} (o : option A) (e : E) : outcome E A :=
  match o with Some a => Ok a | None => Err e end.

Definition is_ok {E A} (m : outcome E A) : bool :=
  match m with Ok _ => true | _ => false end.

(** [if c then Err e else Ok ()], the shape of every guard. *)
Definition guard_err {E} (c : bool) (e : E) : outcome E unit :=
  if c then Err e else Ok tt.

(** ** State and errors

    A method on [&mut self] (or a function on an [&mut [u8]] buffer) is a
    function from the old state to an outcome and the new state; the state is
    kept when the outcome is an error, as in the code. *)
Definition io (S E A : Type) : Type := S -> outcome E A * S.

#[export] Instance io_ret S E : MRet (io S E) := fun A a s => (Ok a, s).
#[export] Instance io_bind S E : MBind (io S E) := fun A B f m s =>
  match m s with
  | (Ok a, s') => f a s'
  | (Err e, s') => (Err e, s')
  | (Panic, s') => (Panic, s')
  end.

Definition get {S E} : io S E S := fun s => (Ok s, s).
Definition put {S E} (s : S) : io S E unit := fun _ => (Ok tt, s).
Definition lift {S E A} (m : outcome E A) : io S E A := fun s => (m, s).
Definition io_map_err {S E E' A} (f : E -> E') (m : io S E A) : io S E' A :=
  fun s => let '(r, s') := m s in (map_err f r, s').

(** [for _ in 0..n { body?; }]: [body] until it fails, at most [n] times.  The
    recursion is on the binary form of the bound, so that a bound near [2^32]
    costs nothing when the body fails early. *)
Fixpoint times_pos {S E} (p : positive) (body : io S E unit) : io S E unit :=
  match p with
  | xH => body
  | xO p => _ ← times_pos p body; times_pos p body
  | xI p => _ ← body; _ ← times_pos p body; times_pos p body
  end.
Definition for_range {S E} (n : Z) (body : io S E unit) : io S E unit :=
  match n with Zpos p => times_pos p body | _ => mret tt end.

Section io_lemmas.
Context {S E : Type}.
Implicit Types s : S.

Lemma io_bind_ok {A B} (m : io S E A) (f : A -> io S E B) s a s' :
  m s = (Ok a, s') -> (m ≫= f) s = f a s'.
Proof. intros H. unfold mbind, io_bind. by rewrite H. Qed.

Lemma io_bind_err {A B} (m : io S E A) (f : A -> io S E B) s e s' :
  m s = (Err e, s') -> (m ≫= f) s = (Err e, s').
Proof. intros H. unfold mbind, io_bind. by rewrite H. Qed.

Lemma io_bind_inv {A B} (m : io S E A) (f : A -> io S E B) s b s'' :
  (m ≫= f) s = (Ok b, s'') ->
  exists a s', m s = (Ok a, s') /\ f a s' = (Ok b, s'').
Proof.
  unfold mbind, io_bind. destruct (m s) as [[a|e|] s'] eqn:Hm; intros H; simplify_eq.
  eauto.
Qed.

Lemma lift_bind_ok {A B} (a : A) (f : A -> io S E B) s :
  (lift (Ok a) ≫= f) s = f a s.
Proof. reflexivity. Qed.

Lemma get_bind {A} (f : S -> io S E A) s : (get ≫= f) s = f s s.
Proof. reflexivity. Qed.
Lemma put_bind {A} (f : unit -> io S E A) s s' : (put s' ≫= f) s = f tt s'.
Proof. reflexivity. Qed.

Lemma ret_bind {A B} (a : A) (f : A -> io S E B) s : (mret a ≫= f) s = f a s.
Proof. reflexivity. Qed.

(** Absence of panics, with an invariant on the state: from a state
    satisfying [I], [m] does not panic, the new state satisfies [I] again
    whether it returns [Ok] or [Err], and an [Ok] value satisfies [P]. *)
Definition safe {A} (I : S -> Prop) (m : io S E A) (P : A -> Prop) : Prop :=
  forall s, I s ->
    match m s with
    | (Ok a, s') => I s' /\ P a
    | (Err _, s') => I s'
    | (Panic, _) => False
    end.

Lemma safe_ret {A} I (a : A) (P : A -> Prop) : P a -> safe I (mret a) P.
Proof. by intros H s Hs. Qed.

Lemma safe_bind {A B} I (m : io S E A) (f : A -> io S E B) P P' :
  safe I m P -> (forall a, P a -> safe I (f a) P') -> safe I (m ≫= f) P'.
Proof.
  intros Hm Hf s HI. specialize (Hm s HI). unfold mbind, io_bind.
  destruct (m s) as [[a|e|] s']; [destruct Hm; by apply Hf | done | done].
Qed.

Lemma safe_conseq {A} I (m : io S E A) (P P' : A -> Prop) :
  safe I m P -> (forall a, P a -> P' a) -> safe I m P'.
Proof.
  intros Hm HP s Hs. specialize (Hm s Hs). destruct (m s) as [[a|e|] s']; [destruct Hm; auto | done | done].
Qed.

Lemma safe_lift {A} I (o : outcome E A) (P : A -> Prop) :
  o <> Panic -> (forall a, o = Ok a -> P a) -> safe I (lift o) P.
Proof. intros Hp HP s HI. unfold lift. destruct o; eauto. Qed.

Lemma safe_guard I b (e : E) : safe I (lift (guard_err b e)) (fun _ => b = false).
Proof. intros s HI. by destruct b. Qed.

Lemma safe_get I : safe I (get (S:=S) (E:=E)) I.
Proof. by intros s HI. Qed.

Lemma safe_put I s : I s -> safe I (put (E:=E) s) (fun _ => True).
Proof. by intros H s' HI. Qed.
End io_lemmas.

Lemma map_err_safe {E E' A} (f : E -> E') (m : outcome E A) : m <> Panic -> map_err f m <> Panic.
Proof. by destruct m. Qed.
Lemma map_err_inv {E E' A} (f : E -> E') (m : outcome E A) a : map_err f m = Ok a -> m = Ok a.
Proof. by destruct m; intros; simplify_eq/=. Qed.

(** A bounded loop as iteration. *)
Section loops.
Context {S E : Type} (body : io S E unit).

Fixpoint iterate (n : nat) : io S E unit :=
  match n with O => mret tt | Datatypes.S n => _ ← body; iterate n end.

Lemma iterate_add n m s : iterate (n + m) s = (_ ← iterate n; iterate m) s.
Proof.
  revert s. induction n as [|n IH]; intros s; [done|]. cbn [iterate Nat.add]. unfold mbind, io_bind in *.
  destruct (body s) as [[a|e|] s']; [|done|done]. apply IH.
Qed.

Lemma times_pos_iterate p s : times_pos p body s = iterate (Pos.to_nat p) s.
Proof.
  revert s. induction p as [p IH|p IH|]; intros s.
  - rewrite Pos2Nat.inj_xI. replace (2 * Pos.to_nat p)%nat with (Pos.to_nat p + Pos.to_nat p)%nat by lia.
    cbn [times_pos iterate]. unfold mbind at 1 3, io_bind at 1 3. destruct (body s) as [[a|e|] s']; [|done|done].
    rewrite iterate_add. unfold mbind, io_bind. rewrite IH. destruct (iterate _ s') as [[b|e|] s'']; [apply IH|done|done].
  - rewrite Pos2Nat.inj_xO. replace (2 * Pos.to_nat p)%nat with (Pos.to_nat p + Pos.to_nat p)%nat by lia.
    rewrite iterate_add. cbn [times_pos]. unfold mbind, io_bind. rewrite IH.
    destruct (iterate _ s) as [[b|e|] s'']; [apply IH|done|done].
  - rewrite Pos2Nat.inj_1. cbn [times_pos iterate]. unfold mbind, io_bind. by destruct (body s) as [[[]|e|] s'].
Qed.

Lemma for_range_iterate n s : for_range n body s = iterate (Z.to_nat n) s.
Proof. destruct n; [done|apply times_pos_iterate|done]. Qed.

Lemma for_range_safe I n : safe I body (fun _ => True) -> safe I (for_range n body) (fun _ => True).
Proof.
  intros H s Hs. rewrite for_range_iterate. revert s Hs. induction (Z.to_nat n) as [|k IH]; intros s Hs; [done|].
  cbn [iterate]. specialize (H s Hs). unfold mbind, io_bind.
  destruct (body s) as [[a|e|] s']; [apply IH; by destruct H|done|done].
Qed.
End loops.

(** Absence of panics for outcomes without a state. *)
Lemma outcome_bind_safe {E A B} (m : outcome E A) (f : A -> outcome E B) :
  m <> Panic -> (forall a, m = Ok a -> f a <> Panic) -> (m ≫= f) <> Panic.
Proof. destruct m; intros Hm Hf; [by apply Hf|done|done]. Qed.
Lemma ok_or_safe {E A} (o : option A) (e : E) : ok_or o e <> Panic.
Proof. by destruct o. Qed.
Lemma guard_err_safe {E} b (e : E) : guard_err b e <> Panic.
Proof. by destruct b. Qed.

(** [safe] goals, one statement at a time: binds, values and guards here;
    each component adds its operations to the [safe] database. *)
Create HintDb safe.
#[export] Hint Resolve safe_guard safe_get map_err_safe : safe.

Ltac safe_step :=
  lazymatch goal with
  | |- safe _ (mret _) _ => apply safe_ret
  | |- safe _ (mbind _ _) _ =>
      eapply safe_bind; [solve [eauto with safe] | let v := fresh "v" in let Hv := fresh "Hv" in intros v Hv; simpl in Hv]
  | |- safe _ (lift (Err _)) _ => apply safe_lift; [done | done]
  end.

(** ** Machine integers

    [u8], [u16], [u32], [u64] and [usize] are [Z] with their range stated by a
    predicate; the target is a 64-bit one ([usize] = [u64]). *)
Definition u8_ok (z : Z) : Prop := 0 <= z < 256.
Definition u16_ok (z : Z) : Prop := 0 <= z < 2 ^ 16.
Definition u32_ok (z : Z) : Prop := 0 <= z < 2 ^ 32.
Definition u64_ok (z : Z) : Prop := 0 <= z < 2 ^ 64.
Definition usize_MAX : Z := 2 ^ 64 - 1.
Definition u64_MAX : Z := 2 ^ 64 - 1.

Definition checked_add (a b : Z) : option Z :=
  if a + b <=? usize_MAX then Some (a + b) else None.
Definition checked_mul (a b : Z) : option Z :=
  if a * b <=? usize_MAX then Some (a * b) else None.
(** [u64::saturating_add]. *)
Definition saturating_add (a b : Z) : Z := Z.min (a + b) u64_MAX.

(** [as u8], [as u16], [as u32]: truncating casts. *)
Definition as_u8 (z : Z) : Z := z mod 2 ^ 8.
Definition as_u16 (z : Z) : Z := z mod 2 ^ 16.
Definition as_u32 (z : Z) : Z := z mod 2 ^ 32.

(** The pattern [lo..=hi]. *)
Definition in_range (lo hi b : Z) : bool := (lo <=? b) && (b <=? hi).
Lemma in_range_spec lo hi b : in_range lo hi b = true <-> lo <= b <= hi.
Proof. unfold in_range. rewrite andb_true_iff, !Z.leb_le. done. Qed.

Lemma in_range_reflect lo hi b : in_range lo hi b = bool_decide (lo <= b <= hi).
Proof. apply eq_true_iff_eq. rewrite in_range_spec, bool_decide_eq_true. done. Qed.

(** ** Byte strings *)
Definition len {A} (l : list A) : Z := Z.of_nat (length l).
Definition bytes_ok (l : list Z) : Prop := Forall u8_ok l.
(** A value of the Rust type [[u8; n]]. *)
Definition array_ok (n : Z) (l : list Z) : Prop := len l = n /\ bytes_ok l.
(** [[0; n]]. *)
Definition zeros (n : Z) : list Z := replicate (Z.to_nat n) 0.

#[export] Instance u8_ok_dec z : Decision (u8_ok z).
Proof. unfold u8_ok. solve_decision. Defined.
#[export] Instance bytes_ok_dec l : Decision (bytes_ok l).
Proof. unfold bytes_ok. apply _. Defined.

(** [&l[a..b]]: panics unless [a <= b <= l.len()]. *)
Definition slice {E} (l : list Z) (a b : Z) : outcome E (list Z) :=
  if (0 <=? a) && (a <=? b) && (b <=? len l)
  then Ok (take (Z.to_nat (b - a)) (drop (Z.to_nat a) l)) else Panic.
(** [l[i]]. *)
Definition index {E A} (l : list A) (i : Z) : outcome E A :=
  match (if i <? 0 then None else l !! Z.to_nat i) with Some b => Ok b | None => Panic end.
(** [let mut a = [0; N]; a.copy_from_slice(l)]: panics unless [l.len() == N]. *)
Definition to_array {E} (n : Z) (l : list Z) : outcome E (list Z) :=
  if len l =? n then Ok l else Panic.
(** [l[i..i + v.len()].copy_from_slice(v)]. *)
Definition write_at {E} (l : list Z) (i : Z) (v : list Z) : outcome E (list Z) :=
  if (0 <=? i) && (i + len v <=? len l)
  then Ok (take (Z.to_nat i) l ++ v ++ drop (Z.to_nat (i + len v)) l) else Panic.

(** [l[i] = x], on an array or slice: panics out of range. *)
Definition set_at {E A} (l : list A) (i : Z) (x : A) : outcome E (list A) :=
  if (0 <=? i) && (i <? len l) then Ok (<[Z.to_nat i := x]> l) else Panic.

(** [u16/u32/u64::to_be_bytes] ([n] bytes, the low [8 * n] bits) and
    [from_be_bytes]. *)
Fixpoint to_be_bytes (n : nat) (z : Z) : list Z :=
  match n with
  | O => []
  | S n' => (z / 2 ^ (8 * Z.of_nat n')) mod 256 :: to_be_bytes n' z
  end.
Definition from_be_bytes (l : list Z) : Z := fold_left (fun acc b => acc * 256 + b) l 0.

(** The derived lexicographic order [<] on byte arrays. *)
Fixpoint lex_lt (l k : list Z) : bool :=
  match l, k with
  | [], [] => false
  | [], _ :: _ => true
  | _ :: _, [] => false
  | x :: l', y :: k' => if x <? y then true else if y <? x then false else lex_lt l' k'
  end.

(** ** Length lemmas *)
Section len_lemmas.
Context {A : Type}.
Implicit Types l k : list A.

Lemma len_nonneg l : 0 <= len l.
Proof. unfold len. lia. Qed.
Lemma len_nil : len (@nil A) = 0.
Proof. done. Qed.
Lemma len_cons x l : len (x :: l) = 1 + len l.
Proof. unfold len. simpl length. lia. Qed.
Lemma len_app l k : len (l ++ k) = len l + len k.
Proof. unfold len. rewrite length_app. lia. Qed.
Lemma len_take n l : len (take n l) = Z.min (Z.of_nat n) (len l).
Proof. unfold len. rewrite length_take. lia. Qed.
Lemma len_drop n l : len (drop n l) = Z.max 0 (len l - Z.of_nat n).
Proof. unfold len. rewrite length_drop. lia. Qed.
Lemma len_replicate n (x : A) : len (replicate n x) = Z.of_nat n.
Proof. unfold len. by rewrite length_replicate. Qed.
Lemma len_insert i x l : len (<[i:=x]> l) = len l.
Proof. unfold len. by rewrite length_insert. Qed.
Lemma len_0_nil l : len l = 0 -> l = [].
Proof. unfold len. destruct l; [done|]. simpl length. lia. Qed.
Lemma to_nat_len l : Z.to_nat (len l) = length l.
Proof. unfold len. lia. Qed.

Lemma take_len_app l k : take (Z.to_nat (len l)) (l ++ k) = l.
Proof. rewrite to_nat_len. by rewrite take_app_length. Qed.
Lemma drop_len_app l k : drop (Z.to_nat (len l)) (l ++ k) = k.
Proof. rewrite to_nat_len. by rewrite drop_app_length. Qed.

Lemma split_at n l : 0 <= n <= len l -> exists u v, l = u ++ v /\ len u = n.
Proof.
  intros H. exists (take (Z.to_nat n) l), (drop (Z.to_nat n) l).
  rewrite take_drop, len_take. split; [done | lia].
Qed.

Lemma app_inv_len l1 k1 l2 k2 : l1 ++ k1 = l2 ++ k2 -> len l1 = len l2 -> l1 = l2 /\ k1 = k2.
Proof. intros H Hl. apply app_inj_1 in H; [done |]. unfold len in Hl. lia. Qed.
End len_lemmas.

Lemma len_map {A B} (f : A -> B) l : len (f <$> l) = len l.
Proof. unfold len. by rewrite length_fmap. Qed.
Lemma len_zeros n : 0 <= n -> len (zeros n) = n.
Proof. intros. unfold zeros. rewrite len_replicate. lia. Qed.

Create Rewrite HintDb len.
#[export] Hint Rewrite @len_nil @len_cons @len_app @len_take @len_drop @len_replicate
  @len_insert @len_map @to_nat_len : len.

(** [omap id] lists what the occupied slots of an array of options hold. *)
Definition occupied {A} (l : list (option A)) : list A := omap id l.
#[global] Arguments occupied : simpl never.

Section occupied.
Context {A : Type}.
Implicit Types l : list (option A).

Lemma occupied_some x l : occupied (Some x :: l) = x :: occupied l.
Proof. done. Qed.
Lemma occupied_none l : occupied (None :: l) = occupied l.
Proof. done. Qed.

Lemma occupied_nones n : occupied (replicate n (@None A)) = [].
Proof. by induction n. Qed.

Lemma occupied_app l k : occupied (l ++ k) = occupied l ++ occupied k.
Proof. apply omap_app. Qed.

Lemma elem_of_occupied l x : x ∈ occupied l <-> Some x ∈ l.
Proof.
  unfold occupied. rewrite list_elem_of_omap. unfold id. split; [|eauto].
  by intros (y & ? & ->).
Qed.

Lemma length_occupied l : (length (occupied l) <= length l)%nat.
Proof.
  induction l as [|[x|] l IH]; [done| |];
    rewrite ?occupied_some, ?occupied_none; simpl; lia.
Qed.

(** Filling a free slot, and clearing an occupied one. *)
Lemma occupied_fill l i x : l !! i = Some None -> occupied (<[i := Some x]> l) ≡ₚ x :: occupied l.
Proof.
  intros Hi. rewrite <- (take_drop_middle l i None Hi) at 2.
  rewrite insert_take_drop by (by eapply lookup_lt_Some).
  rewrite !occupied_app. cbn. by rewrite Permutation_middle.
Qed.

Lemma occupied_clear l i x : l !! i = Some (Some x) -> occupied l ≡ₚ x :: occupied (<[i := None]> l).
Proof.
  intros Hi. rewrite <- (take_drop_middle l i (Some x) Hi) at 1.
  rewrite insert_take_drop by (by eapply lookup_lt_Some).
  rewrite !occupied_app. cbn. by rewrite Permutation_middle.
Qed.

Lemma occupied_full l : (forall i, l !! i <> Some None) -> length (occupied l) = length l.
Proof.
  induction l as [|[x|] l IH]; intros H; [done| |by destruct (H 0%nat)].
  rewrite occupied_some. simpl. f_equal. apply IH. intros i. apply (H (S i)).
Qed.
End occupied.

Lemma NoDup_fmap_inj_on {A B} (f : A -> B) (l : list A) x y :
  NoDup (f <$> l) -> x ∈ l -> y ∈ l -> f x = f y -> x = y.
Proof.
  induction l as [|z l IH]; [by intros _ ?%not_elem_of_nil|].
  rewrite fmap_cons, list.NoDup_cons. intros [Hz Hl] [->|Hx]%elem_of_cons [->|Hy]%elem_of_cons Hf; auto.
  - destruct Hz. rewrite Hf. by apply list_elem_of_fmap_2.
  - destruct Hz. rewrite <- Hf. by apply list_elem_of_fmap_2.
Qed.

Lemma NoDup_fmap_filter {A B} (f : A -> B) (P : A -> Prop) `{!forall x, Decision (P x)} (l : list A) :
  NoDup (f <$> l) -> NoDup (f <$> filter P l).
Proof.
  induction l as [|x l IH]; [done|]. rewrite fmap_cons, list.NoDup_cons, filter_cons.
  intros [Hx Hl]. case_decide; [|auto]. rewrite fmap_cons, list.NoDup_cons. split; [|auto].
  intros (y & Heq & [_ Hy]%list_elem_of_filter)%list_elem_of_fmap. apply Hx.
  rewrite Heq. by apply list_elem_of_fmap_2.
Qed.

(** ** Searching an array of optional slots *)
(** [iter().position(Option::is_none)], counting from [k]. *)
Fixpoint position_none_from {A} (k : Z) (l : list (option A)) : option Z :=
  match l with
  | [] => None
  | None :: _ => Some k
  | Some _ :: l' => position_none_from (k + 1) l'
  end.
Definition position_none {A} (l : list (option A)) : option Z := position_none_from 0 l.

(** The loop [for (index, slot) in iter().enumerate()] that returns the first
    index whose content satisfies [f]. *)
Fixpoint position_some_from {A} (f : A -> bool) (k : Z) (l : list (option A)) : option Z :=
  match l with
  | [] => None
  | Some x :: l' => if f x then Some k else position_some_from f (k + 1) l'
  | None :: l' => position_some_from f (k + 1) l'
  end.
Definition position_some {A} (f : A -> bool) (l : list (option A)) : option Z := position_some_from f 0 l.

Lemma position_none_from_spec {A} k (l : list (option A)) :
  match position_none_from k l with
  | Some i => k <= i /\ exists pre rest, l = (Some <$> pre) ++ None :: rest /\ i = k + len pre
  | None => forall i, l !! i <> Some None
  end.
Proof.
  revert k. induction l as [|[x|] l IH]; intros k; simpl.
  - done.
  - specialize (IH (k + 1)). destruct (position_none_from (k + 1) l) as [i|].
    + destruct IH as (Hk & pre & rest & -> & ->). split; [lia|]. exists (x :: pre), rest.
      rewrite len_cons. split; [done | lia].
    + intros [|i]; [done | apply IH].
  - split; [lia|]. exists [], l. split; [done|]. rewrite len_nil. lia.
Qed.

Lemma position_none_spec {A} (l : list (option A)) :
  match position_none l with
  | Some i => 0 <= i < len l /\ l !! Z.to_nat i = Some None /\
      exists pre rest, l = (Some <$> pre) ++ None :: rest /\ i = len pre
  | None => length (occupied l) = length l
  end.
Proof.
  pose proof (position_none_from_spec 0 l) as H. unfold position_none.
  destruct (position_none_from 0 l) as [i|]; [|by apply occupied_full].
  destruct H as (Hi & pre & rest & -> & ->). pose proof (len_nonneg pre). pose proof (len_nonneg rest).
  split_and!; [lia | rewrite len_app, len_map, len_cons; lia | |].
  - rewrite Z.add_0_l, to_nat_len, lookup_app_r by (by rewrite length_fmap).
    by rewrite length_fmap, Nat.sub_diag.
  - exists pre, rest. split; [done | lia].
Qed.

Lemma position_none_room {A} (l : list (option A)) i :
  position_none l = Some i -> len (occupied l) < len l.
Proof.
  intros H. pose proof (position_none_spec l) as Hs. rewrite H in Hs.
  destruct Hs as (_ & _ & pre & rest & -> & _).
  rewrite occupied_app, occupied_none. unfold len. rewrite !length_app. cbn [length].
  pose proof (length_occupied (Some <$> pre)). pose proof (length_occupied rest). lia.
Qed.

Lemma position_some_from_spec {A} (f : A -> bool) k (l : list (option A)) :
  match position_some_from f k l with
  | Some i => k <= i /\ exists x, l !! Z.to_nat (i - k) = Some (Some x) /\ f x = true
  | None => forall x, x ∈ occupied l -> f x = false
  end.
Proof.
  revert k. induction l as [|[x|] l IH]; intros k; cbn [position_some_from].
  - intros x Hx. by apply not_elem_of_nil in Hx.
  - destruct (f x) eqn:Hf.
    + split; [lia|]. rewrite Z.sub_diag. by exists x.
    + specialize (IH (k + 1)). destruct (position_some_from f (k + 1) l) as [i|].
      * destruct IH as (Hk & y & Hy & ?). split; [lia|]. exists y.
        by replace (Z.to_nat (i - k)) with (S (Z.to_nat (i - (k + 1)))) by lia.
      * rewrite occupied_some. intros y [->|Hy]%elem_of_cons; auto.
  - specialize (IH (k + 1)). destruct (position_some_from f (k + 1) l) as [i|]; [|done].
    destruct IH as (Hk & y & Hy & ?). split; [lia|]. exists y.
    by replace (Z.to_nat (i - k)) with (S (Z.to_nat (i - (k + 1)))) by lia.
Qed.

Lemma position_some_spec {A} (f : A -> bool) (l : list (option A)) :
  match position_some f l with
  | Some i => 0 <= i < len l /\ exists x, l !! Z.to_nat i = Some (Some x) /\ f x = true /\ x ∈ occupied l
  | None => forall x, x ∈ occupied l -> f x = false
  end.
Proof.
  pose proof (position_some_from_spec f 0 l) as H. unfold position_some.
  destruct (position_some_from f 0 l) as [i|]; [|done].
  destruct H as (Hi & x & Hx & Hf). rewrite Z.sub_0_r in Hx. split.
  - apply lookup_lt_Some in Hx. unfold len. lia.
  - exists x. split_and!; [done..|]. apply elem_of_occupied. by eapply list_elem_of_lookup_2.
Qed.

(** Normalise list lengths and finish with linear arithmetic. *)
Ltac len_simpl := autorewrite with len in *.
Ltac solve_len := solve [done | assumption | unfold usize_MAX in *; len_simpl; lia].

(** ** Byte-string lemmas *)
Lemma bytes_ok_app l k : bytes_ok (l ++ k) <-> bytes_ok l /\ bytes_ok k.
Proof. apply Forall_app. Qed.
Lemma bytes_ok_cons x l : bytes_ok (x :: l) <-> u8_ok x /\ bytes_ok l.
Proof. apply List.Forall_cons_iff. Qed.
Lemma bytes_ok_nil : bytes_ok [].
Proof. constructor. Qed.
Lemma bytes_ok_take n l : bytes_ok l -> bytes_ok (take n l).
Proof. apply Forall_take. Qed.
Lemma bytes_ok_drop n l : bytes_ok l -> bytes_ok (drop n l).
Proof. apply Forall_drop. Qed.
Lemma bytes_ok_zeros n : bytes_ok (zeros n).
Proof. apply Forall_replicate. unfold u8_ok. lia. Qed.

Create HintDb bytes.
#[export] Hint Resolve bytes_ok_nil bytes_ok_take bytes_ok_drop bytes_ok_zeros : bytes.

Lemma slice_app {E} (pre v rest : list Z) n :
  len v = n -> slice (E:=E) (pre ++ v ++ rest) (len pre) (len pre + n) = Ok v.
Proof.
  intros Hn. unfold slice.
  pose proof (len_nonneg pre). pose proof (len_nonneg v). pose proof (len_nonneg rest).
  replace ((0 <=? len pre) && (len pre <=? len pre + n) && (len pre + n <=? len (pre ++ v ++ rest)))
    with true by (symmetry; rewrite !len_app, !andb_true_iff, !Z.leb_le; lia).
  replace (len pre + n - len pre) with (len v) by lia.
  by rewrite drop_len_app, take_len_app.
Qed.

Lemma slice_ok {E} l a b :
  0 <= a <= b -> b <= len l ->
  slice (E:=E) l a b = Ok (take (Z.to_nat (b - a)) (drop (Z.to_nat a) l)).
Proof.
  intros H1 H2. unfold slice.
  replace ((0 <=? a) && (a <=? b) && (b <=? len l)) with true; [done|].
  symmetry. rewrite !andb_true_iff, !Z.leb_le. lia.
Qed.

Lemma slice_prefix {E} l n : 0 <= n <= len l -> slice (E:=E) l 0 n = Ok (take (Z.to_nat n) l).
Proof. intros. rewrite slice_ok by lia. rewrite drop_0. f_equal. f_equal. lia. Qed.

Lemma index_app {E A} (pre : list A) x rest i : i = len pre -> index (E:=E) (pre ++ x :: rest) i = Ok x.
Proof.
  intros ->. unfold index. pose proof (len_nonneg pre).
  destruct (Z.ltb_spec (len pre) 0); [lia|]. rewrite to_nat_len.
  by rewrite list_lookup_middle.
Qed.

Lemma index_0 {E A} (x : A) l : index (E:=E) (x :: l) 0 = Ok x.
Proof. done. Qed.

Lemma index_1 {E A} (x y : A) l : index (E:=E) (x :: y :: l) 1 = Ok y.
Proof. done. Qed.

Lemma index_ok {E A} (l : list A) i x :
  0 <= i -> l !! Z.to_nat i = Some x -> index (E:=E) l i = Ok x.
Proof. intros H1 H2. unfold index. destruct (Z.ltb_spec i 0); [lia|]. by rewrite H2. Qed.

Lemma index_in_range {E A} (l : list A) i :
  0 <= i < len l -> exists x, index (E:=E) l i = Ok x /\ l !! Z.to_nat i = Some x.
Proof.
  intros H. destruct (lookup_lt_is_Some_2 l (Z.to_nat i)) as [x Hx].
  { unfold len in H. lia. }
  exists x. split; [|done]. apply index_ok; [lia | done].
Qed.

Lemma write_at_app {E} (pre v old rest : list Z) i :
  i = len pre -> len old = len v ->
  write_at (E:=E) (pre ++ old ++ rest) i v = Ok (pre ++ v ++ rest).
Proof.
  intros -> Ho. unfold write_at.
  pose proof (len_nonneg pre). pose proof (len_nonneg rest). pose proof (len_nonneg v).
  replace ((0 <=? len pre) && (len pre + len v <=? len (pre ++ old ++ rest)))
    with true by (symmetry; rewrite !len_app, andb_true_iff, !Z.leb_le; lia).
  rewrite take_len_app. do 3 f_equal.
  rewrite app_assoc, <- Ho, <- len_app. by rewrite drop_len_app.
Qed.

Lemma to_array_ok {E} n l : len l = n -> to_array (E:=E) n l = Ok l.
Proof. intros <-. unfold to_array. by rewrite Z.eqb_refl. Qed.

Lemma set_at_ok {E A} (l : list A) i x :
  0 <= i < len l -> set_at (E:=E) l i x = Ok (<[Z.to_nat i := x]> l).
Proof.
  intros H. unfold set_at.
  replace ((0 <=? i) && (i <? len l)) with true; [done|].
  symmetry. rewrite andb_true_iff, Z.leb_le, Z.ltb_lt. lia.
Qed.

Lemma write_at_0 {E} (old v : list Z) :
  len v <= len old -> write_at (E:=E) old 0 v = Ok (v ++ drop (length v) old).
Proof.
  intros H. unfold write_at. pose proof (len_nonneg v).
  replace ((0 <=? 0) && (0 + len v <=? len old)) with true
    by (symmetry; rewrite andb_true_iff, !Z.leb_le; lia).
  by rewrite Z.add_0_l, to_nat_len, take_0.
Qed.

(** ** Big-endian integers *)
Lemma length_to_be_bytes n z : length (to_be_bytes n z) = n.
Proof. induction n as [|n IH]; [done|]. simpl. by rewrite IH. Qed.
Lemma len_to_be_bytes n z : len (to_be_bytes n z) = Z.of_nat n.
Proof. unfold len. by rewrite length_to_be_bytes. Qed.
#[export] Hint Rewrite len_to_be_bytes : len.

Lemma to_be_bytes_ok n z : bytes_ok (to_be_bytes n z).
Proof.
  induction n as [|n IH]; [constructor|]. simpl. constructor; [|done].
  unfold u8_ok. apply Z.mod_pos_bound. lia.
Qed.
#[export] Hint Resolve to_be_bytes_ok : bytes.

Lemma fold_be_acc l acc :
  fold_left (fun acc b => acc * 256 + b) l acc = acc * 2 ^ (8 * len l) + from_be_bytes l.
Proof.
  unfold from_be_bytes. revert acc. induction l as [|b l IH]; intros acc; cbn [fold_left].
  - rewrite (@len_nil Z). lia.
  - rewrite IH, (IH (0 * 256 + b)), len_cons.
    replace (8 * (1 + len l)) with (8 + 8 * len l) by lia.
    rewrite Z.pow_add_r by (pose proof (len_nonneg l); lia). lia.
Qed.

Lemma from_be_bytes_cons b l : from_be_bytes (b :: l) = b * 2 ^ (8 * len l) + from_be_bytes l.
Proof. unfold from_be_bytes at 1. cbn [fold_left]. rewrite fold_be_acc. lia. Qed.

Lemma from_be_bytes_bound l : bytes_ok l -> 0 <= from_be_bytes l < 2 ^ (8 * len l).
Proof.
  induction 1 as [|b l Hb Hl IH]; [done|].
  rewrite from_be_bytes_cons, len_cons.
  replace (8 * (1 + len l)) with (8 + 8 * len l) by lia.
  rewrite Z.pow_add_r by (pose proof (len_nonneg l); lia). unfold u8_ok in Hb. nia.
Qed.

Lemma from_to_be_bytes_mod n z : from_be_bytes (to_be_bytes n z) = z mod 2 ^ (8 * Z.of_nat n).
Proof.
  induction n as [|n IH].
  - simpl. by rewrite Z.mod_1_r.
  - cbn [to_be_bytes]. rewrite from_be_bytes_cons, len_to_be_bytes, IH.
    replace (8 * Z.of_nat (S n)) with (8 * Z.of_nat n + 8) by lia.
    rewrite Z.pow_add_r by lia. change (2 ^ 8) with 256.
    rewrite Z.rem_mul_r by (try apply Z.pow_nonzero; lia). lia.
Qed.

Lemma from_to_be_bytes n z : 0 <= z < 2 ^ (8 * Z.of_nat n) -> from_be_bytes (to_be_bytes n z) = z.
Proof. intros H. rewrite from_to_be_bytes_mod. by apply Z.mod_small. Qed.

Lemma to_be_bytes_high n m a r :
  (n <= m)%nat -> to_be_bytes n (a * 2 ^ (8 * Z.of_nat m) + r) = to_be_bytes n r.
Proof.
  induction n as [|n IH]; intros Hnm; [done|]. cbn [to_be_bytes]. rewrite IH by lia. f_equal.
  replace (8 * Z.of_nat m) with (8 * (Z.of_nat m - Z.of_nat n - 1) + 8 + 8 * Z.of_nat n) by lia.
  rewrite !Z.pow_add_r by lia. change (2 ^ 8) with 256.
  set (k := 2 ^ (8 * (Z.of_nat m - Z.of_nat n - 1))).
  replace (a * (k * 256 * 2 ^ (8 * Z.of_nat n)) + r)
    with (r + a * k * 256 * 2 ^ (8 * Z.of_nat n)) by lia.
  rewrite Z.div_add by (apply Z.pow_nonzero; lia).
  by rewrite Z.mod_add by lia.
Qed.

Lemma to_from_be_bytes l : bytes_ok l -> to_be_bytes (length l) (from_be_bytes l) = l.
Proof.
  induction 1 as [|b l Hb Hl IH]; [done|]. cbn [length to_be_bytes].
  rewrite from_be_bytes_cons. unfold len. rewrite to_be_bytes_high, IH by lia. f_equal.
  pose proof (from_be_bytes_bound l Hl) as Hr. unfold len in Hr.
  rewrite Z.div_add_l by (apply Z.pow_nonzero; lia).
  rewrite (Z.div_small (from_be_bytes l)) by lia. rewrite Z.add_0_r.
  apply Z.mod_small. exact Hb.
Qed.

Lemma to_from_be_bytes_n n l : len l = Z.of_nat n -> bytes_ok l -> to_be_bytes n (from_be_bytes l) = l.
Proof. intros Hn Hl. replace n with (length l) by (unfold len in Hn; lia). by apply to_from_be_bytes. Qed.

#[global] Arguments to_be_bytes : simpl never.
#[global] Arguments from_be_bytes : simpl never.

(** ** Lexicographic order *)
Lemma lex_lt_irrefl l : lex_lt l l = false.
Proof. induction l as [|x l IH]; [done|]. simpl. by rewrite Z.ltb_irrefl. Qed.

Lemma lex_lt_trans l k m : lex_lt l k = true -> lex_lt k m = true -> lex_lt l m = true.
Proof.
  revert k m. induction l as [|x l IH]; intros [|y k] [|z m]; simpl; try done.
  destruct (Z.ltb_spec x y), (Z.ltb_spec y x), (Z.ltb_spec y z), (Z.ltb_spec z y),
    (Z.ltb_spec x z), (Z.ltb_spec z x); try done; try lia. apply IH.
Qed.

Lemma lex_lt_total l k : lex_lt l k = false -> lex_lt k l = false -> l = k.
Proof.
  revert k. induction l as [|x l IH]; intros [|y k]; simpl; try done.
  destruct (Z.ltb_spec x y), (Z.ltb_spec y x); try done; try lia.
  intros H1 H2. f_equal; [lia | by apply IH].
Qed.

Lemma lex_lt_asym l k : lex_lt l k = true -> lex_lt k l = false.
Proof.
  intros H. destruct (lex_lt k l) eqn:E; [|done].
  pose proof (lex_lt_trans _ _ _ H E) as C. by rewrite lex_lt_irrefl in C.
Qed.

Lemma lex_lt_false_trans l k m : lex_lt k l = false -> lex_lt m k = false -> lex_lt m l = false.
Proof.
  intros H1 H2. destruct (lex_lt m l) eqn:E; [|done]. destruct (lex_lt k m) eqn:E'.
  - by rewrite (lex_lt_trans _ _ _ E' E) in H1.
  - rewrite (lex_lt_total k m E' H2) in H1. congruence.
Qed.

(** ** Writing one element of an output slice *)
(** [out[i] = x] on the slice that is the state. *)
Definition poke {A E} (i : Z) (x : A) : io (list A) E unit := fun out =>
  match set_at (E:=E) out i x with
  | Ok out' => (Ok tt, out')
  | Err e => (Err e, out)
  | Panic => (Panic, out)
  end.

Lemma set_at_app {A E} (pre : list A) x rest y :
  set_at (E:=E) (pre ++ x :: rest) (len pre) y = Ok (pre ++ y :: rest).
Proof.
  pose proof (len_nonneg pre). pose proof (len_nonneg rest).
  rewrite set_at_ok by (rewrite len_app, len_cons; lia). rewrite to_nat_len.
  by rewrite insert_app_r_alt, Nat.sub_diag by lia.
Qed.

Lemma poke_app {A E} (pre : list A) x rest y i :
  i = len pre -> poke (E:=E) i y (pre ++ x :: rest) = (Ok tt, (pre ++ [y]) ++ rest).
Proof. intros ->. unfold poke. by rewrite set_at_app, <- app_assoc. Qed.

(** [out[i..i + v.len()].copy_from_slice(v)] on the slice that is the state. *)
Definition put_slice {E} (i : Z) (v : list Z) : io (list Z) E unit := fun out =>
  match write_at (E:=E) out i v with
  | Ok out' => (Ok tt, out')
  | Err e => (Err e, out)
  | Panic => (Panic, out)
  end.

Lemma put_slice_app {E} pre rest v i :
  i = len pre -> len v <= len rest ->
  put_slice (E:=E) i v (pre ++ rest) = (Ok tt, (pre ++ v) ++ drop (length v) rest).
Proof.
  intros -> H. unfold put_slice. pose proof (len_nonneg v).
  destruct (split_at (len v) rest) as (old & r & -> & Ho); [lia|].
  rewrite write_at_app by done. replace (length v) with (length old) by (unfold len in Ho; lia).
  by rewrite drop_app_length, <- app_assoc.
Qed.

Lemma poke_app_drop {A E} (pre rest : list A) y i :
  i = len pre -> 1 <= len rest ->
  poke (E:=E) i y (pre ++ rest) = (Ok tt, (pre ++ [y]) ++ drop 1 rest).
Proof.
  intros Hi H. destruct rest as [|x rest]; [rewrite len_nil in H; lia|]. by apply poke_app.
Qed.

(** The tail slice [&l[a..]] and slices of a list with a known prefix. *)
Lemma slice_app_at {E} (pre v rest : list Z) a b :
  a = len pre -> b = len pre + len v -> slice (E:=E) (pre ++ v ++ rest) a b = Ok v.
Proof. intros -> ->. by apply slice_app. Qed.

Lemma slice_app_first {E} (v rest : list Z) a b :
  a = 0 -> b = len v -> slice (E:=E) (v ++ rest) a b = Ok v.
Proof. intros -> ->. by apply (slice_app_at []). Qed.

Lemma slice_tail {E} (pre v : list Z) a b :
  a = len pre -> b = len (pre ++ v) -> slice (E:=E) (pre ++ v) a b = Ok v.
Proof.
  intros -> ->. rewrite len_app. pose proof (slice_app (E:=E) pre v [] (len v) eq_refl) as H.
  by rewrite app_nil_r in H.
Qed.

(** A list cut into an initial piece of a given length and the rest. *)
Lemma cut {A} (l : list A) n : 0 <= n <= len l -> exists u v, l = u ++ v /\ len u = n /\ len v = len l - n.
Proof.
  intros H. destruct (split_at n l H) as (u & v & -> & Hu). exists u, v. rewrite len_app. split_and!; lia || done.
Qed.

(** A property of all bytes, checked one byte at a time. *)
Lemma u8_forall (P : Z -> bool) :
  forallb P (seqZ 0 256) = true -> forall b, u8_ok b -> P b = true.
Proof.
  intros H b Hb. rewrite forallb_forall in H. apply H, list_elem_of_In, elem_of_seqZ.
  unfold u8_ok in Hb. lia.
Qed.

(** ** Contiguous writes
    [fills k m a v]: on a slice whose first [k] elements are done, [m] writes
    [v] from position [k] on, leaves the rest alone and returns [a]. *)
Definition fills {X E A} (k : Z) (m : io (list X) E A) (a : A) (v : list X) : Prop :=
  forall pre rest, len pre = k -> len v <= len rest ->
    m (pre ++ rest) = (Ok a, (pre ++ v) ++ drop (length v) rest).

Lemma fills_ret {X E A} k (a : A) : fills (X:=X) (E:=E) k (mret a) a [].
Proof. intros pre rest _ _. by rewrite app_nil_r, drop_0. Qed.

Lemma fills_poke {X E} k (y : X) : fills (E:=E) k (poke k y) tt [y].
Proof. intros pre rest Hk Hl. by apply poke_app_drop. Qed.

Lemma fills_put_slice {E} k v : fills (E:=E) k (put_slice k v) tt v.
Proof. intros pre rest Hk Hl. by apply put_slice_app. Qed.

Lemma fills_bind {X E A B} k (m : io (list X) E A) (f : A -> io (list X) E B) a b v u :
  fills k m a v -> fills (k + len v) (f a) b u -> fills k (m ≫= f) b (v ++ u).
Proof.
  intros Hm Hf pre rest Hk Hl. rewrite len_app in Hl. pose proof (len_nonneg u).
  erewrite io_bind_ok by (apply Hm; [done | lia]).
  rewrite Hf; [|by rewrite len_app, Hk | rewrite len_drop; unfold len in *; lia].
  by rewrite length_app, drop_drop, app_assoc.
Qed.

Lemma fills_at {X E A} k k' (m : io (list X) E A) a v : fills k m a v -> k = k' -> fills k' m a v.
Proof. by intros ? <-. Qed.

Lemma fills_run {X E A} (m : io (list X) E A) a v out :
  fills 0 m a v -> len v <= len out -> m out = (Ok a, v ++ drop (length v) out).
Proof. intros Hm Hl. by apply (Hm []). Qed.

Create HintDb fills.
#[export] Hint Resolve fills_ret fills_poke fills_put_slice : fills.
(** One write of a sequence whose offsets are literals. *)
Ltac fills_step :=
  eapply fills_bind; [eapply fills_at; [solve [eauto with fills] | len_simpl; try lia; try done] |].
