(* ===== verification/Queue.v ===== *)
(** Arrays of optional slots used as lists: the first slots hold the elements and
    the rest are free.  The queues and tables of several components are such
    arrays. *)
From S2P Require Import Prelude.

Open Scope Z_scope.

Definition queue_of {A} (N : Z) (l : list A) : list (option A) := (Some <$> l) ++ replicate (Z.to_nat (N - len l)) None.

Section queues.
Context {A : Type}.
Implicit Types l : list A.

Lemma queue_nil N : queue_of N (@nil A) = replicate (Z.to_nat N) None.
Proof. unfold queue_of. by rewrite (@len_nil A), Z.sub_0_r. Qed.

Lemma queue_full N l : N <= len l -> queue_of N l = Some <$> l.
Proof. intros H. unfold queue_of. replace (Z.to_nat (N - len l)) with 0%nat by lia. apply app_nil_r. Qed.

Lemma queue_room N l : len l < N -> queue_of N l = (Some <$> l) ++ None :: replicate (Z.to_nat (N - len l - 1)) None.
Proof. intros H. unfold queue_of. by replace (Z.to_nat (N - len l)) with (S (Z.to_nat (N - len l - 1))) by lia. Qed.

Lemma len_queue N l : len l <= N -> len (queue_of N l) = N.
Proof. intros H. unfold queue_of. rewrite len_app, len_map, len_replicate. pose proof (len_nonneg l). lia. Qed.

Lemma occupied_queue N l : occupied (queue_of N l) = l.
Proof. unfold queue_of. rewrite occupied_app, occupied_nones, app_nil_r. induction l as [|x l IH]; [done|]. rewrite fmap_cons, occupied_some. by f_equal. Qed.

Lemma position_none_some k l (rest : list (option A)) : position_none_from k ((Some <$> l) ++ None :: rest) = Some (k + len l).
Proof.
  revert k. induction l as [|x l IH]; intros k; cbn [fmap list_fmap app position_none_from]; [by rewrite (@len_nil A), Z.add_0_r|].
  change (list_fmap A (option A) Some l) with (Some <$> l). rewrite IH, len_cons. f_equal. lia.
Qed.

Lemma position_none_all k l : position_none_from k (Some <$> l) = None.
Proof. revert k. induction l as [|x l IH]; intros k; [done|]. apply IH. Qed.

Lemma queue_position N l : len l <= N -> position_none (queue_of N l) = if len l <? N then Some (len l) else None.
Proof.
  intros H. destruct (Z.ltb_spec (len l) N); [rewrite queue_room by done; apply (position_none_some 0)|].
  rewrite queue_full by done. apply position_none_all.
Qed.

Lemma queue_push {E} N l x : len l < N -> set_at (E:=E) (queue_of N l) (len l) (Some x) = Ok (queue_of N (l ++ [x])).
Proof.
  intros H. rewrite queue_room by done. rewrite <- (len_map Some l) at 2. rewrite set_at_app. unfold queue_of. rewrite fmap_app, <- app_assoc.
  rewrite len_app. change (len [x]) with 1. by replace (N - (len l + 1)) with (N - len l - 1) by lia.
Qed.

End queues.
