(* ===== verification/Simulation.v ===== *)
(** Simulation of stateful operations by operations on an abstract state: the
    same result, and related states afterwards, whether the operation succeeds,
    fails or panics. *)
From S2P Require Import Prelude.

Open Scope Z_scope.

Section refinement.
Context {S S' E : Type} (R : S -> S' -> Prop).

Definition refines_at {A} (m : io S E A) (n : io S' E A) (s : S) (a : S') : Prop :=
  fst (m s) = fst (n a) /\ R (snd (m s)) (snd (n a)).
Definition refines {A} (m : io S E A) (n : io S' E A) : Prop := forall s a, R s a -> refines_at m n s a.

Lemma refines_at_eq {A} (m : io S E A) n s a o s' a' : m s = (o, s') -> n a = (o, a') -> R s' a' -> refines_at m n s a.
Proof. intros Hm Hn HR. unfold refines_at. by rewrite Hm, Hn. Qed.

Lemma refines_at_bind {A B} (m : io S E A) n (f : A -> io S E B) g s a :
  refines_at m n s a -> (forall x s' a', m s = (Ok x, s') -> n a = (Ok x, a') -> R s' a' -> refines_at (f x) (g x) s' a') ->
  refines_at (m ≫= f) (n ≫= g) s a.
Proof.
  intros [H1 H2] Hf. unfold refines_at, mbind, io_bind. destruct (m s) as [o s'], (n a) as [o' a']. cbn [fst snd] in H1, H2. subst o'.
  destruct o as [x|e|]; [by apply Hf|done..].
Qed.

Lemma refines_bind {A B} (m : io S E A) n (f : A -> io S E B) g :
  refines m n -> (forall x, refines (f x) (g x)) -> refines (m ≫= f) (n ≫= g).
Proof. intros Hm Hf s a HR. apply refines_at_bind; [by apply Hm|]. intros x s' a' _ _ HR'. by apply Hf. Qed.

Lemma refines_ret {A} (x : A) : refines (mret x) (mret x).
Proof. by intros s a HR. Qed.
Lemma refines_lift {A} (o : outcome E A) : refines (lift o) (lift o).
Proof. by intros s a HR. Qed.

Lemma refines_get {A} (f : S -> io S E A) g : (forall s a, R s a -> refines_at (f s) (g a) s a) -> refines (get ≫= f) (get ≫= g).
Proof. intros H s a HR. exact (H s a HR). Qed.
Lemma refines_at_put {A} (f : unit -> io S E A) g s a s' a' :
  refines_at (f tt) (g tt) s' a' -> refines_at (put s' ≫= f) (put a' ≫= g) s a.
Proof. exact id. Qed.
Lemma refines_at_lift_l {A B} (x : B) (f : B -> io S E A) n s a : refines_at (f x) n s a -> refines_at (lift (Ok x) ≫= f) n s a.
Proof. exact id. Qed.
End refinement.

(** ** Sequences of operations *)
(** Every operation is run, whether those before it succeeded or not. *)
Fixpoint run_steps {Op St E Reply} (step : Op -> io St E Reply) (ops : list Op) (s : St) : list (outcome E Reply) * St :=
  match ops with
  | [] => ([], s)
  | op :: ops => let '(r, s') := step op s in let '(rs, s'') := run_steps step ops s' in (r :: rs, s'')
  end.

Lemma run_steps_refines {Op S S' E Reply} (R : S -> S' -> Prop) (ok : Op -> Prop) (step : Op -> io S E Reply) (step' : Op -> io S' E Reply) ops s a :
  (forall op, ok op -> refines R (step op) (step' op)) -> Forall ok ops -> R s a ->
  fst (run_steps step ops s) = fst (run_steps step' ops a) /\ R (snd (run_steps step ops s)) (snd (run_steps step' ops a)).
Proof.
  intros Hstep Hops. revert s a. induction Hops as [|op ops Hop _ IH]; intros s a HR; [done|]. cbn [run_steps].
  destruct (Hstep op Hop s a HR) as [H1 H2]. destruct (step op s) as [o s'], (step' op a) as [o' a']. cbn [fst snd] in H1, H2. subst o'.
  destruct (IH s' a' H2) as [H3 H4]. destruct (run_steps step ops s') as [os s''], (run_steps step' ops a') as [os' a'']. cbn [fst snd] in *. by subst os'.
Qed.
