(* ===== verification/Utf8.v ===== *)
(** UTF-8, as the standard library's [str::from_utf8], [str::chars] and
    [char::encode_utf8] define it.

    The bridge crates accept text payloads only when [str::from_utf8] does, and
    the Nostr crates walk strings by [chars] and write characters back by
    [encode_utf8].  A [&str] is its list of bytes; [utf8_decode] is both the
    validation and the iteration, and [utf8_decode_exact] relates it to the
    encoding of the scalar values. *)
From S2P Require Import Prelude.
From stdpp Require Import strings.

Open Scope Z_scope.

(** The bytes of a string literal of the source. *)
Definition str (s : string) : list Z := map (fun a => Z.of_N (Ascii.N_of_ascii a)) (String.list_ascii_of_string s).

(** A Unicode scalar value: the range of [char]. *)
Definition scalar_ok (c : Z) : Prop := 0 <= c < 0xD800 \/ 0xE000 <= c <= 0x10FFFF.

(** [char::encode_utf8] *)
Definition encode_utf8 (c : Z) : list Z :=
  if c <? 0x80 then [c]
  else if c <? 0x800 then [0xC0 + c / 64; 0x80 + c mod 64]
  else if c <? 0x10000 then [0xE0 + c / 4096; 0x80 + c / 64 mod 64; 0x80 + c mod 64]
  else [0xF0 + c / 262144; 0x80 + c / 4096 mod 64; 0x80 + c / 64 mod 64; 0x80 + c mod 64].

Definition is_continuation : Z -> bool := in_range 0x80 0xBF.

(** The legal second bytes after a three- and a four-byte lead: no overlong
    form, no surrogate, nothing above U+10FFFF. *)
Definition second_of_three (b0 b1 : Z) : bool :=
  if b0 =? 0xE0 then in_range 0xA0 0xBF b1
  else if b0 =? 0xED then in_range 0x80 0x9F b1
  else in_range 0xE1 0xEF b0 && is_continuation b1.
Definition second_of_four (b0 b1 : Z) : bool :=
  if b0 =? 0xF0 then in_range 0x90 0xBF b1
  else if b0 =? 0xF4 then in_range 0x80 0x8F b1
  else in_range 0xF1 0xF3 b0 && is_continuation b1.

(** The scalar values of a valid string, [None] where [from_utf8] fails. *)
Fixpoint utf8_decode (l : list Z) : option (list Z) :=
  match l with
  | [] => Some []
  | b0 :: r0 =>
      if b0 <? 0x80 then cons b0 <$> utf8_decode r0
      else
        match r0 with
        | [] => None
        | b1 :: r1 =>
            if in_range 0xC2 0xDF b0 then
              if is_continuation b1 then cons ((b0 - 0xC0) * 64 + (b1 - 0x80)) <$> utf8_decode r1 else None
            else
              match r1 with
              | [] => None
              | b2 :: r2 =>
                  if in_range 0xE0 0xEF b0 then
                    if second_of_three b0 b1 && is_continuation b2
                    then cons ((b0 - 0xE0) * 4096 + (b1 - 0x80) * 64 + (b2 - 0x80)) <$> utf8_decode r2 else None
                  else
                    match r2 with
                    | [] => None
                    | b3 :: r3 =>
                        if second_of_four b0 b1 && is_continuation b2 && is_continuation b3
                        then cons ((b0 - 0xF0) * 262144 + (b1 - 0x80) * 4096 + (b2 - 0x80) * 64 + (b3 - 0x80))
                               <$> utf8_decode r3
                        else None
                    end
              end
        end
  end.

(** [str::from_utf8(bytes).is_ok()] *)
Definition utf8_ok (l : list Z) : bool := bool_decide (is_Some (utf8_decode l)).

(** ** Lemmas *)
(** The base-64 digits of a scalar value. *)
Lemma utf8_digits_spec c :
  exists a b d e, c mod 64 = a /\ c / 64 mod 64 = b /\ c / 4096 mod 64 = d /\ c / 262144 = e /\
    c / 4096 = e * 64 + d /\ c / 64 = (e * 64 + d) * 64 + b /\ c = ((e * 64 + d) * 64 + b) * 64 + a /\
    0 <= a < 64 /\ 0 <= b < 64 /\ 0 <= d < 64.
Proof.
  exists (c mod 64), (c / 64 mod 64), (c / 4096 mod 64), (c / 262144).
  Z.to_euclidean_division_equations. lia.
Qed.

Ltac utf8_digits c :=
  let a := fresh "a" in let b := fresh "b" in let d := fresh "d" in let e := fresh "e" in
  destruct (utf8_digits_spec c) as (a & b & d & e & -> & -> & -> & -> & -> & -> & ? & ? & ? & ?).

Lemma encode_utf8_bytes c : scalar_ok c -> bytes_ok (encode_utf8 c).
Proof.
  intros H. unfold encode_utf8, scalar_ok in *. utf8_digits c.
  repeat case_match; rewrite ?Z.ltb_lt, ?Z.ltb_ge in *;
    repeat (apply list.Forall_cons; split; [unfold u8_ok; lia|]); by apply list.Forall_nil.
Qed.

Ltac in_range_decide :=
  rewrite ?in_range_reflect;
  repeat match goal with
    | |- context [bool_decide ?P] =>
        first [rewrite (bool_decide_eq_true_2 P) by lia | rewrite (bool_decide_eq_false_2 P) by lia]
    | |- context [Z.eqb ?x ?y] => destruct (Z.eqb_spec x y)
    end; try lia; cbn [andb].

(** Decoding one encoded character. *)
Lemma utf8_decode_encode c rest :
  scalar_ok c -> utf8_decode (encode_utf8 c ++ rest) = cons c <$> utf8_decode rest.
Proof.
  intros H. unfold encode_utf8, scalar_ok in *. utf8_digits c.
  destruct (Z.ltb_spec c 128); [|destruct (Z.ltb_spec c 2048); [|destruct (Z.ltb_spec c 65536)]];
    cbn [app utf8_decode];
    match goal with |- context [?x <? 128] => destruct (Z.ltb_spec x 128); [try lia; try done|] end; try lia;
    unfold second_of_three, second_of_four, is_continuation; in_range_decide;
    do 2 f_equal; lia.
Qed.

Lemma utf8_decode_concat cs :
  Forall scalar_ok cs -> utf8_decode (concat (map encode_utf8 cs)) = Some cs.
Proof.
  induction 1 as [|c cs Hc Hcs IH]; [done|]. cbn [map concat]. by rewrite utf8_decode_encode, IH.
Qed.

(** What the checks on the second byte establish. *)
Lemma second_of_three_true b0 b1 :
  second_of_three b0 b1 = true ->
  128 <= b1 <= 191 /\ (b0 = 224 -> 160 <= b1) /\ (b0 = 237 -> b1 <= 159).
Proof.
  unfold second_of_three, is_continuation. rewrite !in_range_reflect.
  destruct (Z.eqb_spec b0 224), (Z.eqb_spec b0 237); rewrite ?andb_true_iff, ?bool_decide_eq_true; lia.
Qed.

Lemma second_of_four_true b0 b1 :
  second_of_four b0 b1 = true ->
  128 <= b1 <= 191 /\ 240 <= b0 <= 244 /\ (b0 = 240 -> 144 <= b1) /\ (b0 = 244 -> b1 <= 143).
Proof.
  unfold second_of_four, is_continuation. rewrite !in_range_reflect.
  destruct (Z.eqb_spec b0 240), (Z.eqb_spec b0 244); rewrite ?andb_true_iff, ?bool_decide_eq_true; lia.
Qed.

(** The encoding of a scalar value given by its digits. *)
Ltac encode_digits :=
  unfold scalar_ok, encode_utf8;
  repeat match goal with |- context [?x <? ?y] => destruct (Z.ltb_spec x y); [try lia|] end; try lia;
  split_and!;
  [lia | cbn [app]; repeat (apply (f_equal2 cons); [Z.to_euclidean_division_equations; lia|]); done | done].

(** One step of decoding: a valid string is empty or starts with the encoding
    of a scalar value, followed by a valid string. *)
Lemma utf8_decode_step l cs :
  bytes_ok l -> utf8_decode l = Some cs ->
  l = [] /\ cs = [] \/
  exists c cs' rest, cs = c :: cs' /\ scalar_ok c /\ l = encode_utf8 c ++ rest /\ utf8_decode rest = Some cs'.
Proof.
  intros Hb H. destruct l as [|b0 r0]; [left; by simplify_eq/=|right].
  apply bytes_ok_cons in Hb as [H0 Hb]. unfold u8_ok in H0. cbn [utf8_decode] in H.
  unfold is_continuation in H. rewrite ?in_range_reflect in H.
  destruct (Z.ltb_spec b0 128).
  { destruct (utf8_decode r0) as [cs'|] eqn:Hr; simplify_eq/=. exists b0, cs', r0.
    unfold encode_utf8. destruct (Z.ltb_spec b0 128); [|lia]. split_and!; try done. unfold scalar_ok. lia. }
  destruct r0 as [|b1 r1]; [done|]. rewrite ?in_range_reflect in H. case_bool_decide.
  { case_bool_decide; [|done]. destruct (utf8_decode r1) as [cs'|] eqn:Hr; simplify_eq/=.
    eexists _, cs', r1. split; [done|]. encode_digits. }
  destruct r1 as [|b2 r2]; [done|]. rewrite ?in_range_reflect in H. case_bool_decide.
  { match type of H with (if ?b then _ else _) = _ => destruct b eqn:Hc; [|done] end.
    apply andb_true_iff in Hc as [(? & ? & ?)%second_of_three_true Hc]. apply bool_decide_eq_true in Hc.
    destruct (utf8_decode r2) as [cs'|] eqn:Hr; simplify_eq/=. eexists _, cs', r2. split; [done|]. encode_digits. }
  destruct r2 as [|b3 r3]; [done|]. rewrite ?in_range_reflect in H.
  match type of H with (if ?b then _ else _) = _ => destruct b eqn:Hc; [|done] end.
  rewrite !andb_true_iff, !bool_decide_eq_true in Hc. destruct Hc as [[(? & ? & ? & ?)%second_of_four_true ?] ?].
  destruct (utf8_decode r3) as [cs'|] eqn:Hr; simplify_eq/=. eexists _, cs', r3. split; [done|]. encode_digits.
Qed.

Lemma encode_utf8_nonempty c : (0 < length (encode_utf8 c))%nat.
Proof. unfold encode_utf8. repeat case_match; simpl; lia. Qed.

(** Validation accepts exactly the encodings of sequences of scalar values,
    and the sequence it decodes is the one encoded. *)
Lemma utf8_decode_exact l cs :
  bytes_ok l -> utf8_decode l = Some cs <-> Forall scalar_ok cs /\ l = concat (map encode_utf8 cs).
Proof.
  intros Hb. split; [|by intros [? ->]; apply utf8_decode_concat].
  remember (length l) as n eqn:Hn. revert l cs Hb Hn. induction (lt_wf n) as [n _ IH]. intros l cs Hb Hn H.
  destruct (utf8_decode_step l cs Hb H) as [[-> ->]|(c & cs' & rest & -> & Hc & -> & Hr)]; [done|].
  apply bytes_ok_app in Hb as [_ Hb]. rewrite length_app in Hn. pose proof (encode_utf8_nonempty c).
  destruct (IH (length rest) ltac:(lia) rest cs' Hb eq_refl Hr) as [Hcs ->].
  split; [by apply list.Forall_cons|done].
Qed.

Lemma utf8_ok_spec l :
  bytes_ok l -> utf8_ok l = true <-> exists cs, Forall scalar_ok cs /\ l = concat (map encode_utf8 cs).
Proof.
  intros Hb. unfold utf8_ok. rewrite bool_decide_eq_true. split.
  - intros [cs H]. exists cs. by apply utf8_decode_exact.
  - intros [cs H]. exists cs. by apply utf8_decode_exact.
Qed.

(** A valid string followed by a valid string is valid. *)
Lemma utf8_decode_app l k cs ds :
  bytes_ok l -> utf8_decode l = Some cs -> utf8_decode k = Some ds -> utf8_decode (l ++ k) = Some (cs ++ ds).
Proof.
  intros Hb Hl Hk. apply utf8_decode_exact in Hl as [Hcs ->]; [|done]. clear Hb.
  induction Hcs as [|c cs Hc Hcs IH]; [done|]. cbn [map concat app].
  by rewrite <- app_assoc, utf8_decode_encode, IH.
Qed.

(** ASCII strings are valid and decode to themselves. *)
Lemma utf8_decode_ascii l : Forall (fun b => 0 <= b < 128) l -> utf8_decode l = Some l.
Proof.
  induction 1 as [|b l Hb Hl IH]; [done|]. cbn [utf8_decode]. destruct (Z.ltb_spec b 128); [|lia]. by rewrite IH.
Qed.
