(* ===== verification/Cursor.v ===== *)
(** Byte cursors.

    Four crates carry their own copy of a read cursor (an input slice and an
    index that only moves forward) and a write cursor (an output slice and an
    index); the copies differ in the error they raise.  This file has the
    shared core with the errors as parameters; the component files
    instantiate it and the codec proofs use the lemmas proved here once.

    The proofs describe a read cursor as [rcur pre rest]: [pre] is consumed and
    [rest] is not.  Reading a known prefix is then a rewrite rule, and reading
    an unknown one an inversion lemma.  Then come the cursors that check the
    room themselves and return errors, buffers written in place, and [focus]
    and [with_local], operations on one field of a state and on a local
    variable. *)
From S2P Require Import Prelude.

(** ** Read cursors *)
Record read_cursor := ReadCursor { rc_input : list Z; rc_index : Z }.

Definition rc_new (input : list Z) : read_cursor := ReadCursor input 0.

Section reader.
Context {E : Type}.
(** The error for an index overflow and the error for a short input; both
    are given the cursor and the requested length. *)
Variables (overflow short : read_cursor -> Z -> E).

Definition read_slice (n : Z) : io read_cursor E (list Z) := fun c =>
  match checked_add (rc_index c) n with
  | None => (Err (overflow c n), c)
  | Some e =>
      if e >? len (rc_input c) then (Err (short c n), c)
      else (slice (rc_input c) (rc_index c) e, ReadCursor (rc_input c) e)
  end.

(** [Ok(self.read_slice(1)?[0])] *)
Definition read_u8 : io read_cursor E Z :=
  s ← read_slice 1; lift (index s 0).

(** [let slice = self.read_slice(N)?; output.copy_from_slice(slice)] *)
Definition read_array (n : Z) : io read_cursor E (list Z) :=
  s ← read_slice n; lift (to_array n s).

(** [from_be_bytes(self.read_array::<N>()?)] *)
Definition read_be (n : Z) : io read_cursor E Z :=
  s ← read_array n; mret (from_be_bytes s).
End reader.

Definition rcur (pre rest : list Z) : read_cursor := ReadCursor (pre ++ rest) (len pre).

Lemma rc_new_rcur input : rc_new input = rcur [] input.
Proof. done. Qed.

Lemma rcur_assoc pre v rest : ReadCursor (pre ++ v ++ rest) (len pre + len v) = rcur (pre ++ v) rest.
Proof. unfold rcur. by rewrite len_app, app_assoc. Qed.

Lemma rcur_index pre rest : rc_index (rcur pre rest) = len pre.
Proof. done. Qed.
Lemma rcur_len pre rest : len (rc_input (rcur pre rest)) = len pre + len rest.
Proof. unfold rcur. simpl. by rewrite len_app. Qed.
#[export] Hint Rewrite rcur_index rcur_len : len.
Lemma rcur_end pre rest : (rc_index (rcur pre rest) =? len (rc_input (rcur pre rest))) = true <-> rest = [].
Proof.
  rewrite rcur_index, rcur_len, Z.eqb_eq. split; [intros; apply len_0_nil; lia|].
  intros ->. rewrite len_nil. lia.
Qed.
Lemma rcur_not_end pre rest : negb (rc_index (rcur pre rest) =? len (rc_input (rcur pre rest))) = false <-> rest = [].
Proof. rewrite negb_false_iff. apply rcur_end. Qed.

Section reader_lemmas.
Context {E : Type} (overflow short : read_cursor -> Z -> E).
Abbreviation read_slice := (read_slice overflow short).
Abbreviation read_u8 := (read_u8 overflow short).
Abbreviation read_array := (read_array overflow short).
Abbreviation read_be := (read_be overflow short).

(** Reading a known prefix. *)
Lemma read_slice_app pre v rest n :
  len v = n -> len (pre ++ v ++ rest) <= usize_MAX ->
  read_slice n (rcur pre (v ++ rest)) = (Ok v, rcur (pre ++ v) rest).
Proof.
  intros Hn Hmax. rewrite <- rcur_assoc. unfold Cursor.read_slice, rcur, checked_add. simpl.
  pose proof (len_nonneg rest). rewrite !len_app in *. rewrite Hn in *.
  destruct (Z.leb_spec (len pre + n) usize_MAX); [|lia].
  rewrite Z.gtb_ltb. destruct (Z.ltb_spec (len pre + (n + len rest)) (len pre + n)); [lia|].
  by rewrite slice_app.
Qed.

Lemma read_u8_app pre x rest :
  len (pre ++ x :: rest) <= usize_MAX ->
  read_u8 (rcur pre (x :: rest)) = (Ok x, rcur (pre ++ [x]) rest).
Proof.
  intros H. unfold Cursor.read_u8. erewrite io_bind_ok.
  2: { change (x :: rest) with ([x] ++ rest). by apply read_slice_app. }
  done.
Qed.

Lemma read_array_app pre v rest n :
  len v = n -> len (pre ++ v ++ rest) <= usize_MAX ->
  read_array n (rcur pre (v ++ rest)) = (Ok v, rcur (pre ++ v) rest).
Proof.
  intros Hn H. unfold Cursor.read_array. erewrite io_bind_ok; [|by apply read_slice_app].
  by rewrite to_array_ok.
Qed.

Lemma read_be_app pre v rest n :
  len v = n -> len (pre ++ v ++ rest) <= usize_MAX ->
  read_be n (rcur pre (v ++ rest)) = (Ok (from_be_bytes v), rcur (pre ++ v) rest).
Proof. intros Hn H. unfold Cursor.read_be. by erewrite io_bind_ok; [|by apply read_array_app]. Qed.

(** Reading all that is left, and being at the end. *)
Lemma read_slice_end pre v n :
  len v = n -> len (pre ++ v) <= usize_MAX ->
  read_slice n (rcur pre v) = (Ok v, rcur (pre ++ v) []).
Proof.
  intros Hn H. pose proof (read_slice_app pre v [] n Hn) as Hr. rewrite !app_nil_r in Hr. auto.
Qed.

(** Reading an unknown prefix: every successful read consumes exactly the
    bytes it returns. *)
Lemma read_slice_inv pre rest n v c :
  read_slice n (rcur pre rest) = (Ok v, c) ->
  exists rest', rest = v ++ rest' /\ len v = n /\ c = rcur (pre ++ v) rest'.
Proof.
  unfold Cursor.read_slice, rcur, checked_add. simpl.
  destruct (Z.leb_spec (len pre + n) usize_MAX); [|done].
  rewrite Z.gtb_ltb. destruct (Z.ltb_spec (len (pre ++ rest)) (len pre + n)); [done|].
  intros Hs. injection Hs as Hs Hc. unfold slice in Hs.
  destruct ((0 <=? len pre) && (len pre <=? len pre + n) && (len pre + n <=? len (pre ++ rest)))
    eqn:Hr; [|done].
  rewrite !andb_true_iff, !Z.leb_le in Hr. rewrite len_app in *.
  destruct (split_at n rest) as (u & w & -> & Hu); [lia|].
  replace (len pre + n - len pre) with (len u) in Hs by lia.
  rewrite drop_len_app, take_len_app in Hs. simplify_eq.
  exists w. split_and!; [done | lia |]. by rewrite <- app_assoc.
Qed.

Lemma read_array_inv pre rest n v c :
  read_array n (rcur pre rest) = (Ok v, c) ->
  exists rest', rest = v ++ rest' /\ len v = n /\ c = rcur (pre ++ v) rest'.
Proof.
  intros H. apply io_bind_inv in H as (s & c1 & H1 & H2).
  apply read_slice_inv in H1 as (r & -> & Hl & ->).
  rewrite to_array_ok in H2 by done. unfold lift in H2. simplify_eq. eauto.
Qed.

Lemma read_u8_inv pre rest x c :
  read_u8 (rcur pre rest) = (Ok x, c) ->
  exists rest', rest = x :: rest' /\ c = rcur (pre ++ [x]) rest'.
Proof.
  intros H. apply io_bind_inv in H as (s & c1 & H1 & H2).
  apply read_slice_inv in H1 as (r & -> & Hl & ->).
  destruct s as [|y s]; [done|]. rewrite len_cons in Hl.
  assert (s = []) as -> by (apply len_0_nil; lia).
  unfold lift in H2. rewrite index_0 in H2. simplify_eq. by exists r.
Qed.

Lemma read_be_inv pre rest n z c :
  read_be n (rcur pre rest) = (Ok z, c) ->
  exists v rest', rest = v ++ rest' /\ len v = n /\ z = from_be_bytes v /\ c = rcur (pre ++ v) rest'.
Proof.
  intros H. apply io_bind_inv in H as (s & c1 & H1 & H2).
  apply read_array_inv in H1 as (r & -> & Hl & ->).
  unfold mret, io_ret in H2. simplify_eq. eauto 6.
Qed.

(** Reads never panic, whatever the input; the cursor keeps its shape. *)
Definition rc_ok (c : read_cursor) : Prop :=
  0 <= rc_index c <= len (rc_input c) /\ bytes_ok (rc_input c).

Lemma rc_ok_new input : bytes_ok input -> rc_ok (rc_new input).
Proof. unfold rc_ok. simpl. pose proof (len_nonneg input). by split; [lia|]. Qed.

Lemma read_slice_safe n : 0 <= n -> safe rc_ok (read_slice n) (array_ok n).
Proof.
  intros Hn c [Hc Hb]. unfold Cursor.read_slice, checked_add, rc_ok, array_ok.
  destruct (Z.leb_spec (rc_index c + n) usize_MAX); [|done].
  rewrite Z.gtb_ltb. destruct (Z.ltb_spec (len (rc_input c)) (rc_index c + n)); [done|].
  rewrite slice_ok by lia. simpl. rewrite len_take, len_drop.
  split_and!; auto with bytes; lia.
Qed.

Lemma read_array_safe n : 0 <= n -> safe rc_ok (read_array n) (array_ok n).
Proof.
  intros Hn. eapply safe_bind; [by apply read_slice_safe|]. intros a Ha.
  apply safe_lift; rewrite to_array_ok by apply Ha; [done|]. intros ? [= <-]. done.
Qed.

Lemma read_u8_safe : safe rc_ok read_u8 u8_ok.
Proof.
  eapply safe_bind; [by apply read_slice_safe|]. intros a [Hl Hb].
  destruct a as [|x a]; [done|]. apply safe_lift; [done|].
  rewrite index_0. intros ? [= <-]. by inversion Hb.
Qed.

Lemma read_be_safe n : 0 <= n -> safe rc_ok (read_be n) (fun z => 0 <= z < 2 ^ (8 * n)).
Proof.
  intros Hn. eapply safe_bind; [by apply read_array_safe|]. intros a [Hl Hb].
  apply safe_ret. rewrite <- Hl. by apply from_be_bytes_bound.
Qed.
End reader_lemmas.

Create HintDb cursor.
#[export] Hint Extern 0 (0 <= _) => solve [done | unfold u8_ok in *; lia] : safe.
#[export] Hint Resolve read_slice_safe read_array_safe read_u8_safe read_be_safe : safe.

(** A function that owns a read cursor over [input]. *)
Definition run_reader {E A} (m : io read_cursor E A) (input : list Z) : outcome E A :=
  fst (m (rc_new input)).

(** ** Truncated input
    [reads P m a v]: [m] consumes exactly [v] and returns [a]; on a proper
    prefix of [v] it returns an error that satisfies [P].  [truncated P m v] is
    the second half alone, for the tail of a decoder, which need not leave
    anything behind [v] to be read. *)
Section reads.
Context {E : Type} (P : E -> Prop).

Definition truncated {A} (m : io read_cursor E A) (v : list Z) : Prop :=
  forall pre u w, v = u ++ w -> w <> [] -> len (pre ++ v) <= usize_MAX ->
    exists e c, m (rcur pre u) = (Err e, c) /\ P e.

Definition reads {A} (m : io read_cursor E A) (a : A) (v : list Z) : Prop :=
  (forall pre rest, len (pre ++ v ++ rest) <= usize_MAX -> m (rcur pre (v ++ rest)) = (Ok a, rcur (pre ++ v) rest)) /\
  truncated m v.

Lemma truncated_nil {A} (m : io read_cursor E A) : truncated m [].
Proof. intros pre u w H Hw _. by destruct u, w. Qed.

(** A proper prefix of [v ++ t] is a proper prefix of [v], or [v] followed by
    a proper prefix of [t]. *)
Lemma prefix_app_cases {X} (v t u w : list X) :
  v ++ t = u ++ w -> w <> [] ->
  (exists w', v = u ++ w' /\ w' <> []) \/ (exists u', u = v ++ u' /\ t = u' ++ w).
Proof.
  intros H Hw. apply app_eq_inv in H as [(k & -> & ->)|(k & -> & ->)].
  - destruct k as [|x k]; [|left; by exists (x :: k)]. right. exists []. by rewrite !app_nil_r.
  - right. by exists k.
Qed.

Lemma truncated_bind {A B} (m : io read_cursor E A) (f : A -> io read_cursor E B) a v t :
  reads m a v -> truncated (f a) t -> truncated (m ≫= f) (v ++ t).
Proof.
  intros [Hm Hv] Ht pre u w H Hw Hmax. pose proof (len_nonneg t).
  destruct (prefix_app_cases v t u w H Hw) as [(w' & E1 & Hw')|(u' & -> & E2)].
  - destruct (Hv pre u w' E1 Hw') as (e & c & He & HP); [rewrite !len_app in *; lia|].
    exists e, c. by erewrite io_bind_err.
  - destruct (Ht (pre ++ v) u' w E2 Hw) as (e & c & He & HP); [by rewrite <- app_assoc|].
    exists e, c. split; [|done]. erewrite io_bind_ok; [exact He|]. apply Hm.
    subst t. rewrite !len_app in *. pose proof (len_nonneg w). lia.
Qed.

Lemma truncated_lift {A B} (o : outcome E A) (f : A -> io read_cursor E B) a v :
  o = Ok a -> truncated (f a) v -> truncated (lift o ≫= f) v.
Proof. intros -> H pre u w Hv Hw Hmax. by apply (H pre u w). Qed.

Lemma truncated_last {A B} (m : io read_cursor E A) (f : A -> io read_cursor E B) v :
  truncated m v -> truncated (m ≫= f) v.
Proof.
  intros H pre u w Hv Hw Hmax. destruct (H pre u w Hv Hw Hmax) as (e & c & He & HP). exists e, c. by erewrite io_bind_err.
Qed.

Lemma reads_bind {A B} (m : io read_cursor E A) (f : A -> io read_cursor E B) a b v t :
  reads m a v -> reads (f a) b t -> reads (m ≫= f) b (v ++ t).
Proof.
  intros Hm Hf. split; [|by eapply truncated_bind; [|apply Hf]].
  destruct Hm as [Hm _], Hf as [Hf _]. intros pre rest Hmax. rewrite <- app_assoc in *.
  erewrite io_bind_ok by (by apply Hm). rewrite Hf by (by rewrite <- app_assoc). by rewrite <- app_assoc.
Qed.

Lemma reads_last {A B} (m : io read_cursor E A) (f : A -> io read_cursor E B) a b v :
  reads m a v -> reads (f a) b [] -> reads (m ≫= f) b v.
Proof. intros Hm Hf. rewrite <- (app_nil_r v). by eapply reads_bind. Qed.

Lemma reads_ret {A} (a : A) : reads (mret a) a [].
Proof. split; [|apply truncated_nil]. intros pre rest _. simpl. by rewrite app_nil_r. Qed.

Lemma reads_lift {A B} (o : outcome E A) (f : A -> io read_cursor E B) a b v :
  o = Ok a -> reads (f a) b v -> reads (lift o ≫= f) b v.
Proof. intros -> H. exact H. Qed.

Section base.
Variables (overflow short : read_cursor -> Z -> E).
Hypothesis Hshort : forall c n, P (short c n).

Lemma reads_slice v n : len v = n -> reads (read_slice overflow short n) v v.
Proof.
  intros Hn. split; [intros; by apply read_slice_app|].
  intros pre u w Hv Hw Hmax. exists (short (rcur pre u) n), (rcur pre u). split; [|done].
  unfold read_slice, checked_add, rcur. cbn [rc_index rc_input]. subst v. rewrite !len_app in *.
  assert (0 < len w) by (destruct w; [done|rewrite len_cons; pose proof (len_nonneg w); lia]).
  destruct (Z.leb_spec (len pre + n) usize_MAX); [|lia].
  rewrite Z.gtb_ltb. by destruct (Z.ltb_spec (len pre + len u) (len pre + n)); [|lia].
Qed.

Lemma reads_array v n : len v = n -> reads (read_array overflow short n) v v.
Proof.
  intros Hn. eapply reads_last; [by apply reads_slice|]. rewrite to_array_ok by done. apply reads_ret.
Qed.

Lemma reads_u8 x : reads (read_u8 overflow short) x [x].
Proof. eapply reads_last; [by apply reads_slice|]. apply reads_ret. Qed.

Lemma reads_be v n : len v = n -> reads (read_be overflow short n) (from_be_bytes v) v.
Proof. intros Hn. eapply reads_last; [by apply reads_array|]. apply reads_ret. Qed.

(** An integer in big-endian form. *)
Lemma reads_int k n z :
  n = Z.of_nat k -> 0 <= z < 2 ^ (8 * Z.of_nat k) -> reads (read_be overflow short n) z (to_be_bytes k z).
Proof.
  intros -> Hz. rewrite <- (from_to_be_bytes k z) at 1 by done. apply reads_be, len_to_be_bytes.
Qed.
End base.

(** [decodes Q m a v]: a decoder that must be at the end of its input when it
    is done.  On [v] it returns [a], on a proper prefix an error in [P], on [v]
    followed by [x] an error in [Q x]. *)
Variable Q : list Z -> E -> Prop.

Definition decodes {A} (m : io read_cursor E A) (a : A) (v : list Z) : Prop :=
  (forall pre, len (pre ++ v) <= usize_MAX -> m (rcur pre v) = (Ok a, rcur (pre ++ v) [])) /\
  truncated m v /\
  (forall pre x, x <> [] -> len (pre ++ v ++ x) <= usize_MAX ->
     exists e c, m (rcur pre (v ++ x)) = (Err e, c) /\ Q x e).

Lemma decodes_bind {A B} (m : io read_cursor E A) (f : A -> io read_cursor E B) a b v t :
  reads m a v -> decodes (f a) b t -> decodes (m ≫= f) b (v ++ t).
Proof.
  intros Hm (Hf & Ht & Hx). split_and!.
  - intros pre Hmax. erewrite io_bind_ok by (by apply Hm). rewrite app_assoc. apply Hf. by rewrite <- app_assoc.
  - by eapply truncated_bind.
  - intros pre x Hne Hmax. rewrite <- app_assoc in *. erewrite io_bind_ok by (by apply Hm).
    apply Hx; [done|]. by rewrite <- app_assoc.
Qed.

Lemma decodes_lift {A B} (o : outcome E A) (f : A -> io read_cursor E B) a b v :
  o = Ok a -> decodes (f a) b v -> decodes (lift o ≫= f) b v.
Proof. intros -> H. exact H. Qed.

(** The last read of a decoder, when the check of the end follows it. *)
Lemma decodes_last {A B} (m : io read_cursor E A) (f : A -> io read_cursor E B) a b v :
  reads m a v -> decodes (f a) b [] -> decodes (m ≫= f) b v.
Proof. intros Hm Hf. rewrite <- (app_nil_r v). by eapply decodes_bind. Qed.

(** From a decoder's body to the decoder. *)
Lemma decodes_run {A} (m : io read_cursor E A) a v :
  decodes m a v -> len v <= usize_MAX -> run_reader m v = Ok a.
Proof. intros (H & _ & _) Hmax. unfold run_reader. by rewrite rc_new_rcur, H. Qed.

Lemma decodes_run_prefix {A} (m : io read_cursor E A) a v u w :
  decodes m a v -> v = u ++ w -> w <> [] -> len v <= usize_MAX -> exists e, run_reader m u = Err e /\ P e.
Proof.
  intros (_ & H & _) Hv Hw Hmax. destruct (H [] u w Hv Hw Hmax) as (e & c & He & HP).
  exists e. unfold run_reader. by rewrite rc_new_rcur, He.
Qed.

Lemma decodes_run_extra {A} (m : io read_cursor E A) a v x :
  decodes m a v -> x <> [] -> len (v ++ x) <= usize_MAX -> exists e, run_reader m (v ++ x) = Err e /\ Q x e.
Proof.
  intros (_ & _ & H) Hx Hmax. destruct (H [] x Hx Hmax) as (e & c & He & HQ).
  exists e. unfold run_reader. by rewrite rc_new_rcur, He.
Qed.
End reads.

(** ** Write cursors that panic when the output is too short *)
Record write_cursor := WriteCursor { wc_output : list Z; wc_index : Z }.

Definition wc_new (output : list Z) : write_cursor := WriteCursor output 0.

(** A function that owns a write cursor over an output buffer. *)
Definition with_writer {E A} (m : io write_cursor E A) : io (list Z) E A := fun out =>
  let '(r, c) := m (wc_new out) in (r, wc_output c).

Section writer.
Context {E : Type}.

(** [self.output[self.index..end].copy_from_slice(value); self.index = end] *)
Definition write_array (v : list Z) : io write_cursor E unit := fun c =>
  match write_at (E:=E) (wc_output c) (wc_index c) v with
  | Ok o => (Ok tt, WriteCursor o (wc_index c + len v))
  | Err e => (Err e, c)
  | Panic => (Panic, c)
  end.

(** [self.output[self.index] = value; self.index += 1] *)
Definition write_u8 (b : Z) : io write_cursor E unit := write_array [b].

(** [self.write_array(&value.to_be_bytes())] *)
Definition write_be (n : nat) (z : Z) : io write_cursor E unit := write_array (to_be_bytes n z).
End writer.

Definition wcur (written rest : list Z) : write_cursor := WriteCursor (written ++ rest) (len written).

Lemma wc_new_wcur out : wc_new out = wcur [] out.
Proof. done. Qed.

Section writer_lemmas.
Context {E : Type}.
Abbreviation write_array := (write_array (E:=E)).
Abbreviation write_u8 := (write_u8 (E:=E)).
Abbreviation write_be := (write_be (E:=E)).

Lemma write_array_wcur w rest v :
  len v <= len rest ->
  write_array v (wcur w rest) = (Ok tt, wcur (w ++ v) (drop (length v) rest)).
Proof.
  intros H. pose proof (len_nonneg v).
  destruct (split_at (len v) rest) as (old & r & -> & Ho); [lia|].
  unfold Cursor.write_array, wcur. simpl. rewrite write_at_app by done.
  replace (length v) with (length old) by (unfold len in Ho; lia).
  by rewrite drop_app_length, len_app, app_assoc.
Qed.

Lemma write_u8_wcur w rest b :
  1 <= len rest -> write_u8 b (wcur w rest) = (Ok tt, wcur (w ++ [b]) (drop 1 rest)).
Proof. intros H. by apply write_array_wcur. Qed.

Lemma write_be_wcur w rest n z :
  Z.of_nat n <= len rest ->
  write_be n z (wcur w rest) = (Ok tt, wcur (w ++ to_be_bytes n z) (drop n rest)).
Proof.
  intros H. unfold Cursor.write_be. rewrite write_array_wcur by (by rewrite len_to_be_bytes).
  by rewrite length_to_be_bytes.
Qed.

(** The effect of a sequence of writes: [m] appends exactly [v]. *)
Definition writes {A} (m : io write_cursor E A) (a : A) (v : list Z) : Prop :=
  forall w rest, len v <= len rest -> m (wcur w rest) = (Ok a, wcur (w ++ v) (drop (length v) rest)).

Lemma writes_ret {A} (a : A) : writes (mret a) a [].
Proof. intros w rest _. simpl. by rewrite app_nil_r, drop_0. Qed.

Lemma writes_array v : writes (write_array v) tt v.
Proof. intros w rest H. by apply write_array_wcur. Qed.
Lemma writes_u8 b : writes (write_u8 b) tt [b].
Proof. intros w rest H. by apply write_array_wcur. Qed.
Lemma writes_be n z : writes (write_be n z) tt (to_be_bytes n z).
Proof. intros w rest H. by apply write_array_wcur. Qed.

Lemma writes_bind {A B} (m : io write_cursor E A) (f : A -> io write_cursor E B) a b v u :
  writes m a v -> writes (f a) b u -> writes (m ≫= f) b (v ++ u).
Proof.
  intros Hm Hf w rest H. rewrite len_app in H. pose proof (len_nonneg u).
  erewrite io_bind_ok by (apply Hm; lia). rewrite Hf by (rewrite len_drop; unfold len in *; lia).
  by rewrite length_app, drop_drop, app_assoc.
Qed.

(** Running a complete encoder on an output buffer. *)
Lemma writes_run {A} (m : io write_cursor E A) a v out :
  writes m a v -> len v <= len out ->
  with_writer m out = (Ok a, v ++ drop (length v) out).
Proof. intros Hm H. unfold with_writer. by rewrite wc_new_wcur, Hm. Qed.
End writer_lemmas.

#[export] Hint Resolve writes_ret writes_array writes_u8 writes_be writes_bind : cursor.

(** ** Write cursors that check the room that is left
    hyf_bitchat_core and the Nostr writers return an error instead of panicking
    when the output is too short.  The errors are given the cursor and the end
    of the write. *)
Section checked_writer.
Context {E : Type}.
Variables (overflow : write_cursor -> E) (short : write_cursor -> Z -> E).

Definition write_slice (v : list Z) : io write_cursor E unit := fun c =>
  match checked_add (wc_index c) (len v) with
  | None => (Err (overflow c), c)
  | Some e => if e >? len (wc_output c) then (Err (short c e), c) else write_array v c
  end.
End checked_writer.

Section checked_writer_lemmas.
Context {E : Type} (overflow : write_cursor -> E) (short : write_cursor -> Z -> E).
Abbreviation write_slice := (write_slice overflow short).

(** [m] appends exactly [v] to a buffer that has room for it. *)
Definition cwrites {A} (m : io write_cursor E A) (a : A) (v : list Z) : Prop :=
  forall w rest, len v <= len rest -> len w + len rest <= usize_MAX ->
    m (wcur w rest) = (Ok a, wcur (w ++ v) (drop (length v) rest)).

Lemma cwrites_ret {A} (a : A) : cwrites (mret a) a [].
Proof. intros w rest _ _. simpl. by rewrite app_nil_r, drop_0. Qed.

Lemma cwrites_slice v : cwrites (write_slice v) tt v.
Proof.
  intros w rest H Hmax. pose proof (len_nonneg v). pose proof (len_nonneg w).
  unfold Cursor.write_slice, checked_add. cbn [wc_index wc_output wcur]. rewrite len_app.
  destruct (Z.leb_spec (len w + len v) usize_MAX); [|lia].
  rewrite Z.gtb_ltb. destruct (Z.ltb_spec (len w + len rest) (len w + len v)); [lia|].
  by apply write_array_wcur.
Qed.

Lemma cwrites_bind {A B} (m : io write_cursor E A) (f : A -> io write_cursor E B) a b v u :
  cwrites m a v -> cwrites (f a) b u -> cwrites (m ≫= f) b (v ++ u).
Proof.
  intros Hm Hf w rest H Hmax. rewrite len_app in H. pose proof (len_nonneg u). pose proof (len_nonneg v).
  erewrite io_bind_ok by (apply Hm; lia).
  rewrite Hf by (rewrite ?len_app, ?len_drop; unfold len in *; lia).
  by rewrite length_app, drop_drop, app_assoc.
Qed.

Lemma cwrites_run {A} (m : io write_cursor E A) a v out :
  cwrites m a v -> len v <= len out -> len out <= usize_MAX ->
  m (wc_new out) = (Ok a, wcur v (drop (length v) out)).
Proof. intros Hm H Hmax. by rewrite wc_new_wcur, Hm. Qed.
End checked_writer_lemmas.

#[export] Hint Resolve cwrites_ret cwrites_slice cwrites_bind : cursor.

(** ** Buffers written in place *)
(** [output[i..i + v.len()].copy_from_slice(v)] *)
Definition copy_at {E} (i : Z) (v : list Z) : io (list Z) E unit := fun output =>
  match write_at (E:=E) output i v with
  | Ok o => (Ok tt, o)
  | Err e => (Err e, output)
  | Panic => (Panic, output)
  end.

(** A function of one field, [&mut s.field], in the state that holds it. *)
Definition focus {S T E A} (g : S -> T) (p : T -> S -> S) (m : io T E A) : io S E A := fun s =>
  let '(r, t) := m (g s) in (r, p t s).

(** A local variable of the function, beside the state. *)
Definition with_local {S T E A} (t : T) (m : io (T * S) E A) : io S E A := fun s =>
  let '(r, (_, s)) := m (t, s) in (r, s).

Lemma copy_at_app {E} (pre v old rest : list Z) i :
  i = len pre -> len old = len v ->
  copy_at (E:=E) i v (pre ++ old ++ rest) = (Ok tt, pre ++ v ++ rest).
Proof. intros -> H. unfold copy_at. by rewrite write_at_app. Qed.

(** A reader that never panics gives a decoder that never panics. *)
Lemma run_reader_safe {E A} (m : io read_cursor E A) P input :
  safe rc_ok m P -> bytes_ok input -> run_reader m input <> Panic.
Proof.
  intros H Hb. specialize (H (rc_new input) (rc_ok_new input Hb)). unfold run_reader.
  by destruct (m (rc_new input)) as [[a|e|] c].
Qed.

Lemma run_reader_inv {E A} (m : io read_cursor E A) input a :
  run_reader m input = Ok a -> exists c, m (rcur [] input) = (Ok a, c).
Proof.
  unfold run_reader. rewrite rc_new_rcur. destruct (m (rcur [] input)) as [r c].
  simpl. intros ->. eauto.
Qed.

(** One step of a decoder on known input, and one step of an inversion. *)
Ltac read_step :=
  first
    [ erewrite io_bind_ok; [| apply read_u8_app; solve_len]
    | erewrite io_bind_ok; [| apply read_array_app; solve_len]
    | erewrite io_bind_ok; [| apply read_be_app; solve_len]
    | erewrite io_bind_ok; [| apply read_slice_app; solve_len]
    | erewrite io_bind_ok; [| apply read_slice_end; solve_len] ].

Ltac read_inv H :=
  let c := fresh "c" in let x := fresh "x" in let r := fresh "r" in
  let Hc := fresh "Hc" in let Hl := fresh "Hl" in
  apply io_bind_inv in H as (x & c & Hc & H);
  first
    [ apply read_u8_inv in Hc as (r & ? & ->)
    | apply read_array_inv in Hc as (r & ? & Hl & ->)
    | let v := fresh "v" in apply read_be_inv in Hc as (v & r & ? & Hl & ? & ->)
    | apply read_slice_inv in Hc as (r & ? & Hl & ->) ].

(** A guard: [let () = ... in] that returned [Ok]. *)
Lemma guard_err_ok {E} b (e : E) : guard_err b e = Ok tt <-> b = false.
Proof. destruct b; simpl; split; congruence. Qed.

Lemma unit_bind_ok {E A} (m : outcome E unit) (f : unit -> outcome E A) a :
  (m ≫= f) = Ok a <-> m = Ok tt /\ f tt = Ok a.
Proof. destruct m as [[]|e|]; simpl; split; try done; by intros []. Qed.

Lemma leb_guard a b : (a >? b) = false <-> a <= b.
Proof. by rewrite Z.gtb_ltb, Z.ltb_ge. Qed.

Lemma guard_false {S E B} b (e : E) (f : unit -> io S E B) s :
  b = false -> (lift (guard_err b e) ≫= f) s = f tt s.
Proof. by intros ->. Qed.

Lemma guard_err_ltb {S E B} a b (e : E) (f : unit -> io S E B) s :
  b <= a -> (lift (guard_err (a <? b) e) ≫= f) s = f tt s.
Proof. intros H. by destruct (Z.ltb_spec a b); [lia|]. Qed.

Lemma guard_inv {S E B} b (e : E) (f : unit -> io S E B) s r s' :
  (lift (guard_err b e) ≫= f) s = (Ok r, s') -> b = false /\ f tt s = (Ok r, s').
Proof. by destruct b. Qed.

Lemma lift_inv {S E A B} (m : outcome E A) (f : A -> io S E B) s b s' :
  (lift m ≫= f) s = (Ok b, s') -> exists a, m = Ok a /\ f a s = (Ok b, s').
Proof. destruct m as [a|e|]; [|done|done]. intros H. by exists a. Qed.
