(* ===== verification/Core.v ===== *)
(** [hyf_core]: node, message and community identifiers, foreign network
    kinds and bounded foreign endpoint identifiers (src/crates/hyf_core/src/types.rs,
    role.rs, time.rs).

    The newtypes over byte arrays ([NodeId], [MessageId], [CommunityId]) are
    [list Z]; [node_id_ok] and its siblings state the array type.  The private
    fields of [ForeignEndpointId] are kept, with the padding its constructors
    write, so that its representation invariant is stated and proved here. *)
From S2P Require Import Prelude.

(** ** Identifiers *)
Definition node_id_ok (id : list Z) : Prop := array_ok 32 id.
Definition message_id_ok (id : list Z) : Prop := array_ok 32 id.
Definition community_id_ok (id : list Z) : Prop := array_ok 16 id.
(** [TimestampMs(pub u64)] *)
Definition timestamp_ok (t : Z) : Prop := u64_ok t.

Inductive NodeRole := PersonalNode | AnchorNode | GatewayNode.

(** ** Foreign networks *)
Inductive ForeignNetworkKind := Fips | Rns | Nostr | Lxmf | BitChat.
#[export] Instance ForeignNetworkKind_eq_dec : EqDecision ForeignNetworkKind.
Proof. solve_decision. Defined.

Inductive ForeignEndpointError :=
| Empty
| TooLong (actual maximum : Z)
| InvalidNetworkTag (tag : Z).

Definition FOREIGN_ENDPOINT_MAX_LEN : Z := 32.

Definition wire_tag (k : ForeignNetworkKind) : Z :=
  match k with Fips => 0 | Rns => 1 | Nostr => 2 | Lxmf => 3 | BitChat => 4 end.

Definition from_wire_tag (tag : Z) : outcome ForeignEndpointError ForeignNetworkKind :=
  match tag with
  | 0 => Ok Fips
  | 1 => Ok Rns
  | 2 => Ok Nostr
  | 3 => Ok Lxmf
  | 4 => Ok BitChat
  | _ => Err (InvalidNetworkTag tag)
  end.

(** ** Foreign endpoints *)
Record ForeignEndpointId := mk_endpoint {
  fe_network : ForeignNetworkKind;
  fe_bytes : list Z;  (* [u8; FOREIGN_ENDPOINT_MAX_LEN] *)
  fe_len : Z;         (* u8 *)
}.
#[export] Instance ForeignEndpointId_eq_dec : EqDecision ForeignEndpointId.
Proof. solve_decision. Defined.

(** [ForeignEndpointId::new] *)
Definition endpoint_new (network : ForeignNetworkKind) (bytes : list Z)
  : outcome ForeignEndpointError ForeignEndpointId :=
  let n := len bytes in
  if n =? 0 then Err Empty
  else if n >? FOREIGN_ENDPOINT_MAX_LEN then Err (TooLong n FOREIGN_ENDPOINT_MAX_LEN)
  else
    fixed ← write_at (zeros FOREIGN_ENDPOINT_MAX_LEN) 0 bytes;
    Ok (mk_endpoint network fixed (as_u8 n)).

Definition from_fixed_16 (network : ForeignNetworkKind) (bytes : list Z)
  : outcome ForeignEndpointError ForeignEndpointId :=
  fixed ← write_at (zeros FOREIGN_ENDPOINT_MAX_LEN) 0 bytes;
  Ok (mk_endpoint network fixed 16).

Definition from_fixed_32 (network : ForeignNetworkKind) (bytes : list Z) : ForeignEndpointId :=
  mk_endpoint network bytes 32.

Definition is_empty (e : ForeignEndpointId) : bool := fe_len e =? 0.

(** [&self.bytes[..self.len()]] *)
Definition as_bytes {E} (e : ForeignEndpointId) : outcome E (list Z) := slice (fe_bytes e) 0 (fe_len e).

(** ** Representation invariant *)
Definition endpoint_ok (e : ForeignEndpointId) : Prop :=
  array_ok FOREIGN_ENDPOINT_MAX_LEN (fe_bytes e) /\
  1 <= fe_len e <= FOREIGN_ENDPOINT_MAX_LEN /\
  drop (Z.to_nat (fe_len e)) (fe_bytes e) = zeros (FOREIGN_ENDPOINT_MAX_LEN - fe_len e).

(** The bytes an endpoint stands for. *)
Definition endpoint_id (e : ForeignEndpointId) : list Z := take (Z.to_nat (fe_len e)) (fe_bytes e).

Lemma wire_tag_u8 k : u8_ok (wire_tag k).
Proof. destruct k; unfold u8_ok; simpl; lia. Qed.

Lemma from_wire_tag_wire_tag k : from_wire_tag (wire_tag k) = Ok k.
Proof. by destruct k. Qed.

Lemma from_wire_tag_inv t k : from_wire_tag t = Ok k -> t = wire_tag k.
Proof.
  unfold from_wire_tag. intros H.
  repeat (let t' := fresh in destruct t as [|t'|t']; try (destruct t' as [t''|t''|]); simplify_eq; try done).
  all: repeat match goal with
    | H : context [match ?p with xI _ => _ | xO _ => _ | xH => _ end] |- _ => destruct p; simplify_eq; try done
    end.
Qed.

Lemma from_wire_tag_safe t : from_wire_tag t <> Panic.
Proof.
  unfold from_wire_tag. destruct t as [|p|p]; [done| |done].
  destruct p as [[|[]|]|[|[]|]|]; done.
Qed.

(** [endpoint_new] on a buffer of legal length writes it in front of the
    zero padding. *)
Lemma write_zeros {E} n v :
  len v <= n -> write_at (E:=E) (zeros n) 0 v = Ok (v ++ zeros (n - len v)).
Proof.
  intros H. pose proof (len_nonneg v).
  assert (zeros n = [] ++ zeros (len v) ++ zeros (n - len v)) as ->.
  { unfold zeros. simpl. rewrite <- replicate_add. f_equal. lia. }
  rewrite write_at_app; [done | done |]. by rewrite len_zeros.
Qed.

Lemma endpoint_new_ok network bytes :
  1 <= len bytes <= 32 ->
  endpoint_new network bytes =
    Ok (mk_endpoint network (bytes ++ zeros (32 - len bytes)) (len bytes)).
Proof.
  intros H. unfold endpoint_new, FOREIGN_ENDPOINT_MAX_LEN.
  rewrite Z.gtb_ltb. destruct (Z.eqb_spec (len bytes) 0); [lia|].
  destruct (Z.ltb_spec 32 (len bytes)); [lia|].
  rewrite write_zeros by lia. simpl. unfold as_u8. rewrite Z.mod_small by lia. done.
Qed.

Lemma endpoint_new_safe network bytes : endpoint_new network bytes <> Panic.
Proof.
  unfold endpoint_new. rewrite Z.gtb_ltb. unfold FOREIGN_ENDPOINT_MAX_LEN.
  destruct (Z.eqb_spec (len bytes) 0); [done|]. destruct (Z.ltb_spec 32 (len bytes)); [done|].
  by rewrite write_zeros by lia.
Qed.

Lemma endpoint_padded_ok network bytes :
  1 <= len bytes <= 32 -> bytes_ok bytes ->
  endpoint_ok (mk_endpoint network (bytes ++ zeros (32 - len bytes)) (len bytes)).
Proof.
  intros H Hb. unfold endpoint_ok, array_ok, FOREIGN_ENDPOINT_MAX_LEN. simpl.
  rewrite len_app, len_zeros, bytes_ok_app, drop_len_app by lia.
  split_and!; auto with bytes; lia.
Qed.

(** Every constructor establishes the invariant. *)
Lemma endpoint_new_inv network bytes e :
  bytes_ok bytes -> endpoint_new network bytes = Ok e ->
  endpoint_ok e /\ endpoint_id e = bytes /\ fe_network e = network /\ fe_len e = len bytes.
Proof.
  intros Hb He. assert (1 <= len bytes <= 32) as Hl.
  { unfold endpoint_new, FOREIGN_ENDPOINT_MAX_LEN in He. rewrite Z.gtb_ltb in He.
    pose proof (len_nonneg bytes).
    destruct (Z.eqb_spec (len bytes) 0); [done|].
    destruct (Z.ltb_spec 32 (len bytes)); [done|]. lia. }
  rewrite endpoint_new_ok in He by done. simplify_eq.
  split; [by apply endpoint_padded_ok|].
  unfold endpoint_id. simpl. by rewrite take_len_app.
Qed.

Lemma from_fixed_16_ok network bytes :
  array_ok 16 bytes ->
  exists e, from_fixed_16 network bytes = Ok e /\ endpoint_ok e /\ endpoint_id e = bytes.
Proof.
  intros [Hl Hb]. unfold from_fixed_16. rewrite write_zeros by (rewrite Hl; done). simpl.
  eexists; split; [done|]. rewrite <- Hl. split.
  - apply endpoint_padded_ok; [lia | done].
  - unfold endpoint_id. simpl. by rewrite take_len_app.
Qed.

Lemma from_fixed_32_ok network bytes : array_ok 32 bytes -> endpoint_ok (from_fixed_32 network bytes).
Proof.
  intros [Hl Hb]. unfold endpoint_ok, from_fixed_32. simpl. split_and!; try done.
  rewrite drop_ge; [done | unfold len in Hl; lia].
Qed.

(** An endpoint satisfying the invariant is rebuilt from its bytes. *)
Lemma endpoint_new_id e : endpoint_ok e -> endpoint_new (fe_network e) (endpoint_id e) = Ok e.
Proof.
  intros (Ha & Hl & Hd). destruct Ha as [Hlen Hb]. unfold FOREIGN_ENDPOINT_MAX_LEN in *.
  assert (len (endpoint_id e) = fe_len e) as He.
  { unfold endpoint_id. rewrite len_take. lia. }
  rewrite endpoint_new_ok by lia. destruct e as [net bs n]. unfold endpoint_id in *. simpl in *.
  rewrite He, <- Hd, take_drop. done.
Qed.

Lemma endpoint_id_len e : endpoint_ok e -> len (endpoint_id e) = fe_len e.
Proof. intros ((Hl & _) & H & _). unfold endpoint_id, FOREIGN_ENDPOINT_MAX_LEN in *. rewrite len_take. lia. Qed.

Lemma endpoint_id_bytes e : endpoint_ok e -> bytes_ok (endpoint_id e).
Proof. intros ((_ & Hb) & _). by apply bytes_ok_take. Qed.

Lemma as_bytes_ok {E} e : endpoint_ok e -> as_bytes (E:=E) e = Ok (endpoint_id e).
Proof.
  intros ((Hl & _) & H & _). unfold as_bytes, FOREIGN_ENDPOINT_MAX_LEN in *.
  rewrite slice_prefix by lia. done.
Qed.
