(* ===== verification/Wire.v ===== *)
(** [hyf_wire]: the native HYF envelope codec (src/crates/hyf_wire/src/envelope.rs,
    destination.rs, payload.rs, error.rs).

    Operations are translated with the cursors of [Cursor], instantiated with
    the errors this crate raises.  [envelope_bytes] is the abstract wire
    format; the theorems say that the encoder writes exactly it, that the
    decoder accepts exactly it, and that neither panics. *)
From S2P Require Import Prelude Cursor Core.

Definition HYF_WIRE_VERSION_0 : Z := 0.
Definition HYF_ENVELOPE_MAX_PAYLOAD_LEN : Z := 65535.
Definition MESSAGE_ID_LEN : Z := 32.
Definition NODE_ID_LEN : Z := 32.
Definition COMMUNITY_ID_LEN : Z := 16.
Definition U64_LEN : Z := 8.
Definition U16_LEN : Z := 2.

(** ** Errors, destinations, payload kinds *)
Inductive HyfWireError :=
| InvalidVersion (actual : Z)
| InvalidDestinationTag (tag : Z)
| InvalidPayloadKind (tag : Z)
| InputTooShort (actual minimum : Z)
| TrailingBytes (actual expected : Z)
| EnvelopeTooLarge (actual maximum : Z)
| OutputBufferTooShort (actual required : Z)
| InvalidExpiry
| InvalidForeignEndpoint (e : ForeignEndpointError).

Inductive HyfDestination :=
| Node (node : list Z)
| Community (community : list Z)
| Foreign (endpoint : ForeignEndpointId).
#[export] Instance HyfDestination_eq_dec : EqDecision HyfDestination.
Proof. solve_decision. Defined.

Definition destination_wire_tag (d : HyfDestination) : Z :=
  match d with Node _ => 0 | Community _ => 1 | Foreign _ => 2 end.

Inductive PayloadKind :=
| HyfNativeV0 | HyfBridgeMessageV0 | ForeignRnsPacket | ForeignLxmfMessage | ForeignBitChatPacket.
#[export] Instance PayloadKind_eq_dec : EqDecision PayloadKind.
Proof. solve_decision. Defined.

Definition payload_wire_tag (k : PayloadKind) : Z :=
  match k with
  | HyfNativeV0 => 0
  | HyfBridgeMessageV0 => 1
  | ForeignRnsPacket => 16
  | ForeignLxmfMessage => 17
  | ForeignBitChatPacket => 18
  end.

Definition payload_from_wire_tag (tag : Z) : outcome HyfWireError PayloadKind :=
  match tag with
  | 0 => Ok HyfNativeV0
  | 1 => Ok HyfBridgeMessageV0
  | 16 => Ok ForeignRnsPacket
  | 17 => Ok ForeignLxmfMessage
  | 18 => Ok ForeignBitChatPacket
  | _ => Err (InvalidPayloadKind tag)
  end.

(** ** Envelopes *)
Record HyfEnvelopeRef := mk_envelope {
  version : Z;
  message_id : list Z;
  source : list Z;
  destination : HyfDestination;
  created_at_ms : Z;
  expires_at_ms : Z;
  hop_limit : Z;
  payload_kind : PayloadKind;
  payload : list Z;
}.
#[export] Instance HyfEnvelopeRef_eq_dec : EqDecision HyfEnvelopeRef.
Proof. solve_decision. Defined.

Definition validate_envelope (e : HyfEnvelopeRef) : outcome HyfWireError unit :=
  if negb (version e =? HYF_WIRE_VERSION_0) then Err (InvalidVersion (version e))
  else if expires_at_ms e <=? created_at_ms e then Err InvalidExpiry
  else if len (payload e) >? HYF_ENVELOPE_MAX_PAYLOAD_LEN
  then Err (EnvelopeTooLarge (len (payload e)) HYF_ENVELOPE_MAX_PAYLOAD_LEN)
  else Ok tt.

Definition fixed_encoded_len (d : HyfDestination) : outcome HyfWireError Z :=
  let destination_len :=
    match d with
    | Node _ => 1 + NODE_ID_LEN
    | Community _ => 1 + COMMUNITY_ID_LEN
    | Foreign endpoint => 1 + 1 + 1 + fe_len endpoint
    end in
  ok_or (checked_add destination_len
           (1 + MESSAGE_ID_LEN + NODE_ID_LEN + U64_LEN + U64_LEN + 1 + 1 + U16_LEN))
    (EnvelopeTooLarge destination_len HYF_ENVELOPE_MAX_PAYLOAD_LEN).

Definition envelope_encoded_len (e : HyfEnvelopeRef) : outcome HyfWireError Z :=
  _ ← validate_envelope e;
  fixed ← fixed_encoded_len (destination e);
  ok_or (checked_add fixed (len (payload e)))
    (EnvelopeTooLarge (len (payload e)) HYF_ENVELOPE_MAX_PAYLOAD_LEN).

(** ** Encoding *)
Definition write_u16 (z : Z) : io write_cursor HyfWireError unit := write_be 2 z.
Definition write_u64 (z : Z) : io write_cursor HyfWireError unit := write_be 8 z.

Definition encode_destination (d : HyfDestination) : io write_cursor HyfWireError unit :=
  _ ← write_u8 (destination_wire_tag d);
  match d with
  | Node node => write_array node
  | Community community => write_array community
  | Foreign endpoint =>
      _ ← write_u8 (wire_tag (fe_network endpoint));
      _ ← write_u8 (as_u8 (fe_len endpoint));
      bytes ← lift (as_bytes endpoint);
      write_array bytes
  end.

Definition encode_envelope (e : HyfEnvelopeRef) : io (list Z) HyfWireError Z :=
  required ← lift (envelope_encoded_len e);
  output ← get;
  _ ← lift (guard_err (len output <? required) (OutputBufferTooShort (len output) required));
  _ ← with_writer (
    _ ← write_u8 (version e);
    _ ← write_array (message_id e);
    _ ← write_array (source e);
    _ ← encode_destination (destination e);
    _ ← write_u64 (created_at_ms e);
    _ ← write_u64 (expires_at_ms e);
    _ ← write_u8 (hop_limit e);
    _ ← write_u8 (payload_wire_tag (payload_kind e));
    _ ← write_u16 (as_u16 (len (payload e)));
    write_array (payload e));
  mret required.

(** ** Decoding *)
Definition read_overflow (_ : read_cursor) (n : Z) : HyfWireError :=
  EnvelopeTooLarge n HYF_ENVELOPE_MAX_PAYLOAD_LEN.
Definition read_short (c : read_cursor) (n : Z) : HyfWireError :=
  InputTooShort (len (rc_input c)) (rc_index c + n).
Definition read_slice := Cursor.read_slice read_overflow read_short.
Definition read_u8 := Cursor.read_u8 read_overflow read_short.
Definition read_array := Cursor.read_array read_overflow read_short.
Definition read_u16 := Cursor.read_be read_overflow read_short U16_LEN.
Definition read_u64 := Cursor.read_be read_overflow read_short U64_LEN.

Definition decode_destination : io read_cursor HyfWireError HyfDestination :=
  tag ← read_u8;
  match tag with
  | 0 => id ← read_array NODE_ID_LEN; mret (Node id)
  | 1 => id ← read_array COMMUNITY_ID_LEN; mret (Community id)
  | 2 =>
      net ← read_u8;
      network ← lift (map_err InvalidForeignEndpoint (from_wire_tag net));
      endpoint_len ← read_u8;
      bytes ← read_slice endpoint_len;
      endpoint ← lift (map_err InvalidForeignEndpoint (endpoint_new network bytes));
      mret (Foreign endpoint)
  | tag => lift (Err (InvalidDestinationTag tag))
  end.

Definition decode_envelope_body : io read_cursor HyfWireError HyfEnvelopeRef :=
  version ← read_u8;
  _ ← lift (guard_err (negb (version =? HYF_WIRE_VERSION_0)) (InvalidVersion version));
  message_id ← read_array MESSAGE_ID_LEN;
  source ← read_array NODE_ID_LEN;
  destination ← decode_destination;
  created_at_ms ← read_u64;
  expires_at_ms ← read_u64;
  hop_limit ← read_u8;
  kind ← read_u8;
  payload_kind ← lift (payload_from_wire_tag kind);
  payload_len ← read_u16;
  payload ← read_slice payload_len;
  c ← get;
  _ ← lift (guard_err (negb (rc_index c =? len (rc_input c)))
              (TrailingBytes (len (rc_input c)) (rc_index c)));
  let envelope :=
    mk_envelope version message_id source destination created_at_ms expires_at_ms
      hop_limit payload_kind payload in
  _ ← lift (validate_envelope envelope);
  mret envelope.

Definition decode_envelope (input : list Z) : outcome HyfWireError HyfEnvelopeRef :=
  run_reader decode_envelope_body input.

(** ** The wire format *)
Definition destination_bytes (d : HyfDestination) : list Z :=
  match d with
  | Node id => 0 :: id
  | Community id => 1 :: id
  | Foreign e => 2 :: wire_tag (fe_network e) :: fe_len e :: endpoint_id e
  end.

Definition envelope_bytes (e : HyfEnvelopeRef) : list Z :=
  [version e] ++ message_id e ++ source e ++ destination_bytes (destination e)
  ++ to_be_bytes 8 (created_at_ms e) ++ to_be_bytes 8 (expires_at_ms e)
  ++ [hop_limit e] ++ [payload_wire_tag (payload_kind e)]
  ++ to_be_bytes 2 (len (payload e)) ++ payload e.

(** What the Rust types guarantee of an envelope value. *)
Definition destination_ok (d : HyfDestination) : Prop :=
  match d with
  | Node id => node_id_ok id
  | Community id => community_id_ok id
  | Foreign e => endpoint_ok e
  end.

Record envelope_ok (e : HyfEnvelopeRef) : Prop := {
  eo_version : u8_ok (version e);
  eo_message_id : message_id_ok (message_id e);
  eo_source : node_id_ok (source e);
  eo_destination : destination_ok (destination e);
  eo_created : timestamp_ok (created_at_ms e);
  eo_expires : timestamp_ok (expires_at_ms e);
  eo_hop_limit : u8_ok (hop_limit e);
  eo_payload : bytes_ok (payload e);
}.

(** ** Lemmas *)
Lemma payload_from_wire_tag_inv t k : payload_from_wire_tag t = Ok k -> t = payload_wire_tag k.
Proof. unfold payload_from_wire_tag. intros H. by repeat case_match; simplify_eq. Qed.

Lemma payload_from_wire_tag_ok k : payload_from_wire_tag (payload_wire_tag k) = Ok k.
Proof. by destruct k. Qed.

Lemma payload_from_wire_tag_safe t : payload_from_wire_tag t <> Panic.
Proof. unfold payload_from_wire_tag. by repeat case_match. Qed.

Lemma validate_envelope_ok e :
  validate_envelope e = Ok tt <->
  version e = 0 /\ created_at_ms e < expires_at_ms e /\ len (payload e) <= 65535.
Proof.
  unfold validate_envelope, HYF_WIRE_VERSION_0, HYF_ENVELOPE_MAX_PAYLOAD_LEN. rewrite Z.gtb_ltb.
  destruct (Z.eqb_spec (version e) 0), (Z.leb_spec (expires_at_ms e) (created_at_ms e)),
    (Z.ltb_spec 65535 (len (payload e))); simpl; split; try done; lia.
Qed.

Lemma validate_envelope_safe e : validate_envelope e <> Panic.
Proof. unfold validate_envelope. by repeat case_match. Qed.

Lemma destination_bytes_len d :
  destination_ok d ->
  fixed_encoded_len d = Ok (len (destination_bytes d) + 85).
Proof.
  unfold fixed_encoded_len, checked_add, usize_MAX, NODE_ID_LEN, COMMUNITY_ID_LEN,
    MESSAGE_ID_LEN, U64_LEN, U16_LEN.
  destruct d as [id|id|e]; cbn [destination_bytes destination_ok]; intros H.
  - destruct H as [Hl _]. rewrite len_cons, Hl. reflexivity.
  - destruct H as [Hl _]. rewrite len_cons, Hl. reflexivity.
  - rewrite !len_cons, endpoint_id_len by done. destruct H as (_ & H & _).
    unfold FOREIGN_ENDPOINT_MAX_LEN in H.
    case_match eqn:Hm; simpl; [f_equal; lia | rewrite Z.leb_gt in Hm; lia].
Qed.

Lemma destination_len_bound d : destination_ok d -> len (destination_bytes d) <= 35.
Proof.
  destruct d as [id|id|e]; simpl; intros H.
  - destruct H as [Hl _]. rewrite len_cons. lia.
  - destruct H as [Hl _]. rewrite len_cons. lia.
  - rewrite !len_cons, endpoint_id_len by done. destruct H as (_ & H & _).
    unfold FOREIGN_ENDPOINT_MAX_LEN in H. lia.
Qed.

Lemma envelope_bytes_len e :
  envelope_ok e ->
  len (envelope_bytes e) = len (destination_bytes (destination e)) + 85 + len (payload e).
Proof.
  intros [? [Hm _] [Hs _] ? ? ? ? ?]. unfold envelope_bytes. len_simpl. lia.
Qed.

Lemma envelope_encoded_len_spec e :
  envelope_ok e ->
  envelope_encoded_len e =
    match validate_envelope e with
    | Ok _ => Ok (len (envelope_bytes e))
    | Err err => Err err
    | Panic => Panic
    end.
Proof.
  intros He. unfold envelope_encoded_len. destruct (validate_envelope e) as [[]|err|] eqn:Hv; try done.
  apply validate_envelope_ok in Hv as (_ & _ & Hp).
  rewrite envelope_bytes_len by done. destruct He as [_ _ _ Hd _ _ _ _]. simpl.
  rewrite destination_bytes_len by done. simpl. unfold checked_add, usize_MAX.
  pose proof (destination_len_bound _ Hd).
  destruct (Z.leb_spec (len (destination_bytes (destination e)) + 85 + len (payload e)) (2 ^ 64 - 1));
    [done | lia].
Qed.

Lemma writes_destination d : destination_ok d -> writes (encode_destination d) tt (destination_bytes d).
Proof.
  intros H. unfold encode_destination.
  destruct d as [id|id|e]; simpl in *.
  - change (0 :: id) with ([0] ++ id). eauto with cursor.
  - change (1 :: id) with ([1] ++ id). eauto with cursor.
  - rewrite as_bytes_ok by done. unfold as_u8.
    rewrite Z.mod_small by (destruct H as (_ & H & _); unfold FOREIGN_ENDPOINT_MAX_LEN in H; lia).
    change (2 :: ?a :: ?b :: ?c) with ([2] ++ [a] ++ [b] ++ c).
    eapply writes_bind; [eauto with cursor|]. eapply writes_bind; [eauto with cursor|].
    eapply writes_bind; [eauto with cursor|]. apply writes_array.
Qed.

Lemma envelope_writes e :
  envelope_ok e -> len (payload e) <= 65535 ->
  writes (E:=HyfWireError)
    (_ ← write_u8 (version e);
     _ ← write_array (message_id e);
     _ ← write_array (source e);
     _ ← encode_destination (destination e);
     _ ← write_u64 (created_at_ms e);
     _ ← write_u64 (expires_at_ms e);
     _ ← write_u8 (hop_limit e);
     _ ← write_u8 (payload_wire_tag (payload_kind e));
     _ ← write_u16 (as_u16 (len (payload e)));
     write_array (payload e)) tt (envelope_bytes e).
Proof.
  intros [] Hp. pose proof (len_nonneg (payload e)). unfold envelope_bytes, as_u16.
  rewrite (Z.mod_small (len (payload e))) by lia.
  repeat (eapply writes_bind; [first [by apply writes_destination | eauto with cursor]|]).
  apply writes_array.
Qed.

(** The encoder on an envelope that validates. *)
Lemma encode_envelope_valid e out :
  envelope_ok e -> validate_envelope e = Ok tt ->
  encode_envelope e out =
    if len out <? len (envelope_bytes e)
    then (Err (OutputBufferTooShort (len out) (len (envelope_bytes e))), out)
    else (Ok (len (envelope_bytes e)), envelope_bytes e ++ drop (length (envelope_bytes e)) out).
Proof.
  intros He Hv. unfold encode_envelope. rewrite envelope_encoded_len_spec, Hv by done.
  apply validate_envelope_ok in Hv as (_ & _ & Hp). rewrite lift_bind_ok.
  unfold get at 1, mbind at 1, io_bind at 1.
  destruct (Z.ltb_spec (len out) (len (envelope_bytes e))) as [Hs|Hs]; [done|].
  rewrite guard_false by done.
  by erewrite io_bind_ok; [|apply writes_run; [by apply envelope_writes | lia]].
Qed.

Lemma encode_envelope_invalid e out err :
  envelope_ok e -> validate_envelope e = Err err -> encode_envelope e out = (Err err, out).
Proof.
  intros He Hv. unfold encode_envelope. by rewrite envelope_encoded_len_spec, Hv by done.
Qed.

Lemma encode_envelope_ok_inv e out n out' :
  envelope_ok e -> encode_envelope e out = (Ok n, out') ->
  validate_envelope e = Ok tt /\ n = len (envelope_bytes e) /\
  out' = envelope_bytes e ++ drop (length (envelope_bytes e)) out.
Proof.
  intros He H. destruct (validate_envelope e) as [[]|err|] eqn:Hv.
  - rewrite encode_envelope_valid in H by done. by case_match; simplify_eq.
  - by rewrite (encode_envelope_invalid e out err) in H.
  - by destruct (validate_envelope_safe e).
Qed.

#[export] Hint Extern 1 (safe _ (lift (payload_from_wire_tag _)) _) =>
  eapply safe_lift; [apply payload_from_wire_tag_safe | intros; exact I] : safe.
#[export] Hint Extern 1 (safe _ (lift (map_err _ (from_wire_tag _))) _) =>
  eapply safe_lift; [apply map_err_safe, from_wire_tag_safe | intros; exact I] : safe.
#[export] Hint Extern 1 (safe _ (lift (map_err _ (endpoint_new _ _))) _) =>
  eapply safe_lift; [apply map_err_safe, endpoint_new_safe | intros; exact I] : safe.
#[export] Hint Extern 1 (safe _ (lift (validate_envelope _)) _) =>
  eapply safe_lift; [apply validate_envelope_safe | intros; exact I] : safe.

(** Decoding the destination of a known encoding, and conversely. *)
Lemma decode_destination_bytes pre d rest :
  destination_ok d -> len (pre ++ destination_bytes d ++ rest) <= usize_MAX ->
  decode_destination (rcur pre (destination_bytes d ++ rest)) =
    (Ok d, rcur (pre ++ destination_bytes d) rest).
Proof.
  intros Hd Hmax. unfold decode_destination. destruct d as [id|id|e]; simpl in *.
  - destruct Hd as [Hl _]. do 2 (read_step; simpl). by rewrite <- app_assoc.
  - destruct Hd as [Hl _]. do 2 (read_step; simpl). by rewrite <- app_assoc.
  - pose proof (endpoint_id_len e Hd) as Hl. do 2 (read_step; simpl).
    rewrite from_wire_tag_wire_tag. cbn [map_err]. rewrite lift_bind_ok. do 2 (read_step; simpl).
    rewrite endpoint_new_id by done. cbn [map_err]. by rewrite lift_bind_ok, <- !app_assoc.
Qed.

Lemma decode_destination_inv pre rest d c :
  bytes_ok rest ->
  decode_destination (rcur pre rest) = (Ok d, c) ->
  exists rest', rest = destination_bytes d ++ rest' /\ destination_ok d /\
    c = rcur (pre ++ destination_bytes d) rest'.
Proof.
  intros Hb H. unfold decode_destination in H. read_inv H. subst.
  apply bytes_ok_cons in Hb as [Hx Hb].
  assert (x = 0 \/ x = 1 \/ x = 2) as [->|[->| ->]].
  { repeat case_match; try done; auto. }
  - read_inv H. unfold mret, io_ret in H. simplify_eq. apply bytes_ok_app in Hb as [Hb1 Hb2].
    exists r0. rewrite <- app_assoc. by split_and!.
  - read_inv H. unfold mret, io_ret in H. simplify_eq. apply bytes_ok_app in Hb as [Hb1 Hb2].
    exists r0. rewrite <- app_assoc. by split_and!.
  - read_inv H. subst. apply lift_inv in H as (k & Hk & H).
    apply bytes_ok_cons in Hb as [Hx1 Hb].
    apply map_err_inv, from_wire_tag_inv in Hk as ->.
    do 2 read_inv H. subst. apply bytes_ok_cons in Hb as [Hx2 Hb].
    apply bytes_ok_app in Hb as [Hb1 Hb2].
    apply lift_inv in H as (e & He & H).
    apply map_err_inv, endpoint_new_inv in He as (Hok & Hid & Hnet & Hlen); [|done].
    unfold mret, io_ret in H. simplify_eq/=. rewrite Hlen.
    eexists. rewrite <- !app_assoc. by split_and!.
Qed.

(** Decoding an encoding gives the envelope back. *)
Lemma decode_envelope_bytes e :
  envelope_ok e -> validate_envelope e = Ok tt ->
  decode_envelope (envelope_bytes e) = Ok e.
Proof.
  intros He Hv. pose proof (envelope_bytes_len e He) as Hlen.
  pose proof (proj1 (validate_envelope_ok e) Hv) as (Hver & _ & Hp).
  destruct He as [_ [Hm _] [Hs _] Hd Hc Hx Hh Hpb].
  pose proof (destination_len_bound _ Hd) as Hdb.
  assert (len (envelope_bytes e) <= usize_MAX) as Hmax by (unfold usize_MAX; lia). clear Hlen.
  unfold decode_envelope, run_reader. rewrite rc_new_rcur.
  unfold envelope_bytes, decode_envelope_body in *. rewrite Hver in *.
  read_step. rewrite guard_false by done. do 2 read_step.
  erewrite io_bind_ok; [|apply decode_destination_bytes; [done | solve_len]].
  do 4 read_step. rewrite payload_from_wire_tag_ok, lift_bind_ok. read_step.
  pose proof (len_nonneg (payload e)).
  rewrite (from_to_be_bytes 2) by (len_simpl; lia). read_step.
  unfold get at 1, mbind at 1, io_bind at 1. rewrite guard_false by (by apply rcur_not_end).
  rewrite !(from_to_be_bytes 8) by (unfold timestamp_ok, u64_ok in *; simpl; lia).
  destruct e as [ver mid src dst cr ex hop kind pl]; simpl in *. subst ver.
  by rewrite Hv.
Qed.

(** Functional correctness of the envelope encoder on every branch: an
    envelope that does not validate gives that error, a buffer shorter than
    the encoding gives [OutputBufferTooShort] with the exact length, both
    leaving the buffer alone; otherwise the encoder writes the wire format at
    the front of the buffer, leaves the rest alone and returns its length. *)
Theorem encode_envelope_spec e out :
  envelope_ok e ->
  encode_envelope e out =
    match validate_envelope e with
    | Ok _ =>
        let v := envelope_bytes e in
        if len out <? len v then (Err (OutputBufferTooShort (len out) (len v)), out)
        else (Ok (len v), v ++ drop (length v) out)
    | Err err => (Err err, out)
    | Panic => (Panic, out)
    end.
Proof.
  intros He. destruct (validate_envelope e) as [[]|err|] eqn:Hv.
  - by apply encode_envelope_valid.
  - by apply encode_envelope_invalid.
  - by destruct (validate_envelope_safe e).
Qed.

(** C19. Round trip through a buffer: whatever the encoder wrote (and reported
    as its length) decodes to the envelope that was encoded. *)
Theorem decode_encode_envelope e out n out' :
  envelope_ok e -> encode_envelope e out = (Ok n, out') ->
  decode_envelope (take (Z.to_nat n) out') = Ok e.
Proof.
  intros He H. apply encode_envelope_ok_inv in H as (Hv & -> & ->); [|done].
  rewrite take_len_app. by apply decode_envelope_bytes.
Qed.

(** Inverting a successful decoding. *)
Lemma decode_envelope_inv input e :
  bytes_ok input -> decode_envelope input = Ok e ->
  envelope_ok e /\ validate_envelope e = Ok tt /\ input = envelope_bytes e.
Proof.
  intros Hb H. apply run_reader_inv in H as [c H]. unfold decode_envelope_body in H.
  read_inv H. subst. apply guard_inv in H as [Hver H]. do 2 read_inv H. subst.
  apply bytes_ok_cons in Hb as [Hx Hb]. rewrite !bytes_ok_app in Hb. destruct Hb as (Hb1 & Hb2 & Hb).
  apply io_bind_inv in H as (d & c' & Hd & H).
  apply decode_destination_inv in Hd as (r2 & -> & Hd & ->); [|done].
  do 4 read_inv H. subst. apply lift_inv in H as (k & Hk & H).
  apply payload_from_wire_tag_inv in Hk as ->. do 2 read_inv H. subst.
  unfold get at 1, mbind at 1, io_bind at 1 in H. apply guard_inv in H as [Hend H].
  apply lift_inv in H as ([] & Hv & H). unfold mret, io_ret in H. simplify_eq.
  rewrite bytes_ok_app, !bytes_ok_app in Hb. destruct Hb as (Hbd & Hb4 & Hb5 & Hb).
  apply bytes_ok_cons in Hb as [Hh Hb]. apply bytes_ok_cons in Hb as [Hkk Hb].
  rewrite !bytes_ok_app in Hb. destruct Hb as (Hb6 & Hb7 & Hb8).
  split; [|split; [done|]].
  - constructor; simpl; try done; unfold timestamp_ok, u64_ok.
    all: match goal with |- context [from_be_bytes ?v] =>
      pose proof (from_be_bytes_bound v) as Hbd'; unfold U64_LEN in *; replace (len v) with 8 in Hbd' end.
    all: by apply Hbd'.
  - unfold envelope_bytes.
    cbn [version message_id source destination created_at_ms expires_at_ms hop_limit payload_kind payload].
    unfold U16_LEN, U64_LEN in *.
    rewrite !to_from_be_bytes_n by done.
    rewrite Hl4, to_from_be_bytes_n by done.
    apply rcur_not_end in Hend as ->. by rewrite app_nil_r.
Qed.

(** The decoder is canonical: the accepted inputs are exactly the wire
    formats of the well-formed envelopes that validate, each with the envelope
    it encodes; so no two byte strings decode to the same envelope. *)
Theorem decode_envelope_canonical input e :
  bytes_ok input ->
  decode_envelope input = Ok e <->
  envelope_ok e /\ validate_envelope e = Ok tt /\ input = envelope_bytes e.
Proof.
  intros Hb. split; [by apply decode_envelope_inv|].
  intros (He & Hv & ->). by apply decode_envelope_bytes.
Qed.

Lemma decode_destination_safe : safe rc_ok decode_destination (fun _ => True).
Proof.
  unfold decode_destination, read_u8, read_array, read_slice. safe_step.
  repeat case_match; try safe_step; repeat safe_step; done.
Qed.
#[export] Hint Resolve decode_destination_safe : safe.

Lemma decode_envelope_safe input : bytes_ok input -> decode_envelope input <> Panic.
Proof.
  apply run_reader_safe with (P := fun _ => True). unfold decode_envelope_body.
  unfold read_u8, read_array, read_slice, read_u16, read_u64.
  repeat safe_step. done.
Qed.

(** Robustness: on any byte string the decoder returns, with an envelope
    or an error and never a panic; and it returns an error exactly when the
    string is not the wire format of an envelope that validates. *)
Theorem decode_envelope_no_panic input :
  bytes_ok input ->
  decode_envelope input <> Panic /\
  ((exists err, decode_envelope input = Err err) <->
   ~ exists e, envelope_ok e /\ validate_envelope e = Ok tt /\ input = envelope_bytes e).
Proof.
  intros Hb. pose proof (decode_envelope_safe input Hb) as Hs. split; [done|].
  split.
  - intros [err Herr] (e & He & Hv & ->). by rewrite decode_envelope_bytes in Herr.
  - intros Hno. destruct (decode_envelope input) as [e|err|] eqn:Hd; [|by exists err | done].
    destruct Hno. exists e. by apply decode_envelope_inv.
Qed.

(** ** Witnesses: a foreign-destination envelope and its encoding *)
Definition sample_endpoint : ForeignEndpointId := mk_endpoint Lxmf ([7; 8; 9] ++ zeros 29) 3.
Definition sample_envelope : HyfEnvelopeRef :=
  mk_envelope 0 (replicate 32 1) (replicate 32 2) (Foreign sample_endpoint) 1000 5000 3
    ForeignLxmfMessage [10; 20; 30].

Lemma sample_envelope_ok : envelope_ok sample_envelope.
Proof.
  constructor; vm_compute; repeat (split || constructor); try done; apply (bool_decide_unpack _); vm_compute; done.
Defined.

Lemma encode_envelope_spec_witness :
  envelope_ok sample_envelope /\
  encode_envelope sample_envelope (zeros 100) =
    (Ok 94, envelope_bytes sample_envelope ++ zeros 6).
Proof.
  split; [exact sample_envelope_ok|].
  rewrite (encode_envelope_spec sample_envelope (zeros 100) sample_envelope_ok). vm_compute. reflexivity.
Defined.

Lemma decode_encode_envelope_witness :
  decode_envelope (take 94 (envelope_bytes sample_envelope ++ zeros 6)) = Ok sample_envelope.
Proof.
  apply (decode_encode_envelope sample_envelope (zeros 100) 94); [exact sample_envelope_ok|].
  vm_compute. reflexivity.
Defined.

Lemma decode_envelope_canonical_witness :
  envelope_ok sample_envelope /\ validate_envelope sample_envelope = Ok tt /\
  envelope_bytes sample_envelope = envelope_bytes sample_envelope.
Proof.
  apply (decode_envelope_canonical (envelope_bytes sample_envelope));
    [apply (bool_decide_unpack _); vm_compute; exact I | vm_compute; reflexivity].
Defined.

Lemma decode_envelope_no_panic_witness :
  bytes_ok [0; 1; 255] /\ decode_envelope [0; 1; 255] <> Panic.
Proof.
  assert (bytes_ok [0; 1; 255]) as Hb by (apply (bool_decide_unpack _); vm_compute; exact I).
  split; [exact Hb | exact (proj1 (decode_envelope_no_panic [0; 1; 255] Hb))].
Defined.
