(* ===== verification/Carrier.v ===== *)
(** Foreign payloads in envelopes, as an interface.

    Four crates carry messages of another network in HYF envelopes
    (hyf_link_rns, hyf_link_bitchat, hyf_link_lxmf and hyf_bridge_core): each
    validates the raw bytes, builds an envelope around them, and on the other
    side checks the envelope, its kind and the payload again.  [carrier] is
    what such a crate supplies, [carrier_laws] what it promises of it, and
    [carries] what follows for the pair of operations; the crates' files define
    their operations as in the source and are instances. *)
From S2P Require Import Prelude Cursor Core Wire.

Record carrier (E A P : Type) := mk_carrier {
  c_validate : list Z -> outcome E A;
  c_kind : PayloadKind;
  c_wire_error : HyfWireError -> E;
  c_wrong_kind : PayloadKind -> E;
  c_envelope : P -> list Z -> A -> outcome E HyfEnvelopeRef;
  c_check : HyfEnvelopeRef -> A -> outcome E unit;
}.
Arguments mk_carrier {E A P}.
Arguments c_validate {E A P}.
Arguments c_kind {E A P}.
Arguments c_wire_error {E A P}.
Arguments c_wrong_kind {E A P}.
Arguments c_envelope {E A P}.
Arguments c_check {E A P}.

Section carrier.
Context {E A P : Type} (c : carrier E A P).

Definition carrier_wrap (raw : list Z) (params : P) : outcome E HyfEnvelopeRef :=
  a ← c_validate c raw;
  envelope ← c_envelope c params raw a;
  _ ← map_err (c_wire_error c) (validate_envelope envelope);
  Ok envelope.

Definition carrier_unwrap (envelope : HyfEnvelopeRef) : outcome E (list Z) :=
  _ ← map_err (c_wire_error c) (validate_envelope envelope);
  if negb (bool_decide (payload_kind envelope = c_kind c)) then Err (c_wrong_kind c (payload_kind envelope))
  else
    a ← c_validate c (payload envelope);
    _ ← c_check c envelope a;
    Ok (payload envelope).

(** The envelope around [raw] for given parameters. *)
Definition carries_raw (params : P) (lifetime : P -> Z * Z) (raw : list Z) (a : A) (e : HyfEnvelopeRef) : Prop :=
  envelope_ok e /\ version e = HYF_WIRE_VERSION_0 /\ payload_kind e = c_kind c /\ payload e = raw /\
  created_at_ms e = fst (lifetime params) /\ expires_at_ms e = snd (lifetime params) /\ c_check c e a = Ok tt.

Record carrier_laws (params_ok : P -> Prop) (lifetime : P -> Z * Z) : Prop := {
  cl_safe : forall raw, bytes_ok raw -> c_validate c raw <> Panic;
  cl_len : forall raw a, bytes_ok raw -> c_validate c raw = Ok a -> len raw <= 65535;
  cl_check : forall e a, c_check c e a <> Panic;
  cl_envelope : forall params raw a, params_ok params -> bytes_ok raw -> c_validate c raw = Ok a ->
    exists e, c_envelope c params raw a = Ok e /\ carries_raw params lifetime raw a e;
}.

(** What a lawful carrier guarantees: wrapping succeeds exactly on valid
    payloads with a positive lifetime; a wrapped payload goes through the
    envelope codec and unwraps to itself; what unwraps is a valid payload of
    the right kind that passes the crate's check; nothing panics. *)
Record carries (params_ok : P -> Prop) (lifetime : P -> Z * Z) : Prop := {
  ca_wrap_safe : forall raw params, bytes_ok raw -> params_ok params -> carrier_wrap raw params <> Panic;
  ca_unwrap_safe : forall e, envelope_ok e -> carrier_unwrap e <> Panic;
  ca_wrap : forall raw params, bytes_ok raw -> params_ok params ->
    is_ok (carrier_wrap raw params) = true <->
    is_ok (c_validate c raw) = true /\ fst (lifetime params) < snd (lifetime params);
  ca_roundtrip : forall raw params e out, bytes_ok raw -> params_ok params ->
    carrier_wrap raw params = Ok e -> len (envelope_bytes e) <= len out ->
    payload e = raw /\ carrier_unwrap e = Ok raw /\
    exists n out', encode_envelope e out = (Ok n, out') /\ decode_envelope (take (Z.to_nat n) out') = Ok e;
  ca_unwrap : forall e raw, carrier_unwrap e = Ok raw ->
    raw = payload e /\ payload_kind e = c_kind c /\ validate_envelope e = Ok tt /\
    exists a, c_validate c raw = Ok a /\ c_check c e a = Ok tt;
}.

Section proofs.
Context (params_ok : P -> Prop) (lifetime : P -> Z * Z) (L : carrier_laws params_ok lifetime).

(** Wrapping a payload that validates. *)
Lemma carrier_wrap_valid raw params a :
  params_ok params -> bytes_ok raw -> c_validate c raw = Ok a ->
  exists e, carries_raw params lifetime raw a e /\
    carrier_wrap raw params = match validate_envelope e with
      | Ok _ => Ok e | Err err => Err (c_wire_error c err) | Panic => Panic end /\
    (validate_envelope e = Ok tt <-> fst (lifetime params) < snd (lifetime params)).
Proof.
  intros Hp Hb Ha. destruct (cl_envelope _ _ L params raw a Hp Hb Ha) as (e & He & Hc). exists e. split; [done|].
  destruct Hc as (_ & Hv & _ & Hpl & Hcr & Hex & _). split.
  - unfold carrier_wrap. rewrite Ha. cbn [mbind outcome_bind]. rewrite He. cbn [mbind outcome_bind].
    by destruct (validate_envelope e).
  - rewrite validate_envelope_ok, Hv, Hcr, Hex, Hpl. pose proof (cl_len _ _ L raw a Hb Ha). unfold HYF_WIRE_VERSION_0. tauto.
Qed.

Lemma carrier_unwrap_inv e raw :
  carrier_unwrap e = Ok raw ->
  raw = payload e /\ payload_kind e = c_kind c /\ validate_envelope e = Ok tt /\
  exists a, c_validate c raw = Ok a /\ c_check c e a = Ok tt.
Proof.
  unfold carrier_unwrap. destruct (validate_envelope e) as [[]|err|] eqn:Hv; [|done..]. cbn [map_err mbind outcome_bind].
  case_bool_decide as Hk; [|done]. cbn [negb]. destruct (c_validate c (payload e)) as [a|err|] eqn:Ha; [|done..].
  cbn [mbind outcome_bind]. destruct (c_check c e a) as [[]|err|] eqn:Hc; [|done..]. intros [= <-]. eauto 6.
Qed.

Lemma carrier_unwrap_carried params raw a e :
  carries_raw params lifetime raw a e -> c_validate c raw = Ok a -> validate_envelope e = Ok tt ->
  carrier_unwrap e = Ok raw.
Proof.
  intros (_ & _ & Hk & Hpl & _ & _ & Hc) Ha Hv. unfold carrier_unwrap. rewrite Hv. cbn [map_err mbind outcome_bind].
  rewrite bool_decide_eq_true_2 by done. cbn [negb]. rewrite Hpl, Ha. cbn [mbind outcome_bind]. by rewrite Hc.
Qed.

Lemma lawful_carries : carries params_ok lifetime.
Proof.
  split.
  - intros raw params Hb Hp. pose proof (cl_safe _ _ L raw Hb). destruct (c_validate c raw) as [a|err|] eqn:Ha; [| |done].
    + destruct (carrier_wrap_valid raw params a Hp Hb Ha) as (e & _ & -> & _). pose proof (validate_envelope_safe e).
      by destruct (validate_envelope e).
    + unfold carrier_wrap. by rewrite Ha.
  - intros e He. unfold carrier_unwrap.
    apply outcome_bind_safe; [apply map_err_safe, validate_envelope_safe|intros _ _]. destruct (negb _); [done|].
    apply outcome_bind_safe; [apply (cl_safe _ _ L), He|intros a _].
    apply outcome_bind_safe; [apply (cl_check _ _ L)|done].
  - intros raw params Hb Hp. destruct (c_validate c raw) as [a|err|] eqn:Ha.
    + destruct (carrier_wrap_valid raw params a Hp Hb Ha) as (e & _ & -> & Hv).
      pose proof (validate_envelope_safe e) as Hs. destruct (validate_envelope e) as [[]|err|]; simpl; [| |done].
      * split; [|done]. intros _. split; [done|]. by apply Hv.
      * split; [done|]. intros [_ Hlt]. by apply Hv in Hlt.
    + unfold carrier_wrap. rewrite Ha. simpl. split; [done|by intros []].
    + unfold carrier_wrap. rewrite Ha. simpl. split; [done|by intros []].
  - intros raw params e out Hb Hp Hw Hl. destruct (c_validate c raw) as [a|err|] eqn:Ha; [|unfold carrier_wrap in Hw; by rewrite Ha in Hw..].
    destruct (carrier_wrap_valid raw params a Hp Hb Ha) as (e' & Hc & Hw' & _). rewrite Hw' in Hw.
    destruct (validate_envelope e') as [[]|err|] eqn:Hv; [|done..]. injection Hw as ->.
    pose proof Hc as (He & _ & _ & Hpl & _). split; [done|]. split; [by eapply carrier_unwrap_carried|].
    rewrite encode_envelope_valid by done. destruct (Z.ltb_spec (len out) (len (envelope_bytes e))); [lia|].
    do 2 eexists. split; [done|]. by rewrite take_len_app, decode_envelope_bytes.
  - exact carrier_unwrap_inv.
Qed.
End proofs.
End carrier.
