(* ===== verification/Bitchat.v ===== *)
(** [hyf_bitchat_core]: the BitChat packet codec
    (src/crates/hyf_bitchat_core/src/constants.rs, types.rs, flags.rs,
    packet.rs, error.rs, codec.rs).

    Versions 1 and 2 are decoded, version 2 with a plain payload is encoded.
    The crate's cursors return errors where those of [Wire] panic: reads name
    the missing field, writes check the room.  [packet_bytes] is the format of
    both versions; [packet_valid] is what the flags, the route and the payload
    of a packet must satisfy for it to have one. *)
From S2P Require Import Prelude Cursor.
From stdpp Require Import strings.

Open Scope Z_scope.

Definition BITCHAT_V1_HEADER_LEN : Z := 14.
Definition BITCHAT_V2_HEADER_LEN : Z := 16.
Definition BITCHAT_PEER_ID_LEN : Z := 8.
Definition BITCHAT_SIGNATURE_LEN : Z := 64.
Definition BITCHAT_ROUTE_MAX_HOPS : Z := 16.
Definition BITCHAT_CORE_PACKET_MAX_LEN : Z := 2048.
Definition BITCHAT_CARRIER_PACKET_MAX_LEN : Z := 1536.
Definition BITCHAT_PAYLOAD_MAX_LEN : Z := 1536.

Inductive BitchatError :=
| PacketTooShort (actual minimum : Z)
| PacketTooLarge (actual maximum : Z)
| UnknownVersion (version : Z)
| ReservedFlags (flags : Z)
| V1RouteFlag
| PayloadTooLarge (actual maximum : Z)
| RouteTooManyHops (actual maximum : Z)
| MissingField (field : string) (needed remaining : Z)
| TrailingBytes (remaining : Z)
| CompressedOriginalLenMissing (actual minimum : Z)
| CompressedOriginalLenZero
| CompressedOriginalLenTooLarge (actual maximum : Z)
| CompressedBodyEmpty
| UnsupportedEncodeVersion (version : Z)
| UnsupportedCompressedEncode
| InvalidRouteByteLength (hop_count actual expected : Z)
| LengthOverflow
| OutputTooSmall (needed available : Z).

(** ** Versions and flags *)
Inductive BitchatVersion := V1 | V2.
#[export] Instance BitchatVersion_eq_dec : EqDecision BitchatVersion.
Proof. solve_decision. Defined.

Definition from_wire_value (version : Z) : outcome BitchatError BitchatVersion :=
  match version with 1 => Ok V1 | 2 => Ok V2 | _ => Err (UnknownVersion version) end.
Definition wire_value (v : BitchatVersion) : Z := match v with V1 => 1 | V2 => 2 end.

Definition FLAG_HAS_RECIPIENT : Z := 0x01.
Definition FLAG_HAS_SIGNATURE : Z := 0x02.
Definition FLAG_IS_COMPRESSED : Z := 0x04.
Definition FLAG_HAS_ROUTE : Z := 0x08.
Definition FLAG_IS_RSR : Z := 0x10.
Definition FLAG_RESERVED_MASK : Z := 0xe0.

Record BitchatFlags := mk_flags {
  has_recipient : bool;
  has_signature : bool;
  is_compressed : bool;
  has_route : bool;
  is_rsr : bool;
}.
#[export] Instance BitchatFlags_eq_dec : EqDecision BitchatFlags.
Proof. solve_decision. Defined.

Definition flags_empty : BitchatFlags := mk_flags false false false false false.

Definition from_wire_byte (flags : Z) : outcome BitchatError BitchatFlags :=
  if negb (Z.land flags FLAG_RESERVED_MASK =? 0) then Err (ReservedFlags flags)
  else Ok (mk_flags
    (negb (Z.land flags FLAG_HAS_RECIPIENT =? 0))
    (negb (Z.land flags FLAG_HAS_SIGNATURE =? 0))
    (negb (Z.land flags FLAG_IS_COMPRESSED =? 0))
    (negb (Z.land flags FLAG_HAS_ROUTE =? 0))
    (negb (Z.land flags FLAG_IS_RSR =? 0))).

Definition bool_flag (value : bool) (flag : Z) : Z := if value then flag else 0.
Definition to_wire_byte (f : BitchatFlags) : Z :=
  Z.lor (Z.lor (Z.lor (Z.lor
    (bool_flag (has_recipient f) FLAG_HAS_RECIPIENT)
    (bool_flag (has_signature f) FLAG_HAS_SIGNATURE))
    (bool_flag (is_compressed f) FLAG_IS_COMPRESSED))
    (bool_flag (has_route f) FLAG_HAS_ROUTE))
    (bool_flag (is_rsr f) FLAG_IS_RSR).

(** ** Packets *)
Record BitchatRouteRef := mk_route { hop_count : Z; raw_hops : list Z }.
#[export] Instance BitchatRouteRef_eq_dec : EqDecision BitchatRouteRef.
Proof. solve_decision. Defined.

Inductive BitchatPayloadRef :=
| Plain (bytes : list Z)
| Compressed (original_len : Z) (compressed_bytes : list Z).
#[export] Instance BitchatPayloadRef_eq_dec : EqDecision BitchatPayloadRef.
Proof. solve_decision. Defined.

Record BitchatPacketRef := mk_packet {
  version : BitchatVersion;
  packet_type : Z;
  ttl : Z;
  timestamp : Z;
  flags : BitchatFlags;
  sender_id : list Z;
  recipient_id : option (list Z);
  route : option BitchatRouteRef;
  payload : BitchatPayloadRef;
  signature : option (list Z);
}.
#[export] Instance BitchatPacketRef_eq_dec : EqDecision BitchatPacketRef.
Proof. solve_decision. Defined.

(** ** The cursors *)
Definition read_overflow (_ : read_cursor) (_ : Z) : BitchatError := LengthOverflow.
Definition remaining (c : read_cursor) : Z := Z.max 0 (len (rc_input c) - rc_index c).
Definition read_short (field : string) (c : read_cursor) (n : Z) : BitchatError :=
  MissingField field n (remaining c).
Definition read_slice (field : string) := Cursor.read_slice read_overflow (read_short field).
Definition read_u8 (field : string) := Cursor.read_u8 read_overflow (read_short field).
Definition read_u16 (field : string) := Cursor.read_be read_overflow (read_short field) 2.
Definition read_u32 (field : string) := Cursor.read_be read_overflow (read_short field) 4.
Definition read_u64 (field : string) := Cursor.read_be read_overflow (read_short field) 8.
Definition read_array (field : string) := Cursor.read_array read_overflow (read_short field).
Definition finish : io read_cursor BitchatError unit :=
  c ← get;
  if remaining c =? 0 then mret tt else lift (Err (TrailingBytes (remaining c))).

Definition write_slice : list Z -> io write_cursor BitchatError unit :=
  Cursor.write_slice (fun _ => LengthOverflow) (fun c e => OutputTooSmall e (len (wc_output c))).
Definition write_u8 (b : Z) : io write_cursor BitchatError unit := write_slice [b].

(** ** Decoding *)
Definition decode_version (input : list Z) : outcome BitchatError BitchatVersion :=
  match head input with
  | None => Err (PacketTooShort 0 1)
  | Some version => from_wire_value version
  end.

Definition fixed_header_len (v : BitchatVersion) : Z :=
  match v with V1 => BITCHAT_V1_HEADER_LEN | V2 => BITCHAT_V2_HEADER_LEN end.

Definition decode_route (version : BitchatVersion) (flags : BitchatFlags)
  : io read_cursor BitchatError (option BitchatRouteRef) :=
  if negb (has_route flags) then mret None
  else if bool_decide (version = V1) then lift (Err V1RouteFlag)
  else
    hop_count ← read_u8 "route hop count";
    _ ← lift (guard_err (hop_count >? BITCHAT_ROUTE_MAX_HOPS) (RouteTooManyHops hop_count BITCHAT_ROUTE_MAX_HOPS));
    route_len ← lift (ok_or (checked_mul hop_count BITCHAT_PEER_ID_LEN) LengthOverflow);
    raw_hops ← read_slice "route hops" route_len;
    mret (Some (mk_route hop_count raw_hops)).

Definition compressed_preamble_len (v : BitchatVersion) : Z := match v with V1 => 2 | V2 => 4 end.

(** [u16::from_be_bytes([payload[0], payload[1]])], or four bytes *)
Definition original_len_of (version : BitchatVersion) (payload_bytes : list Z) : outcome BitchatError Z :=
  b0 ← index payload_bytes 0;
  b1 ← index payload_bytes 1;
  match version with
  | V1 => Ok (from_be_bytes [b0; b1])
  | V2 =>
      b2 ← index payload_bytes 2;
      b3 ← index payload_bytes 3;
      Ok (from_be_bytes [b0; b1; b2; b3])
  end.

Definition decode_payload (version : BitchatVersion) (flags : BitchatFlags) (payload_bytes : list Z)
  : outcome BitchatError BitchatPayloadRef :=
  if negb (is_compressed flags) then Ok (Plain payload_bytes)
  else
    let preamble_len := compressed_preamble_len version in
    if len payload_bytes <? preamble_len then Err (CompressedOriginalLenMissing (len payload_bytes) preamble_len)
    else
      original_len ← original_len_of version payload_bytes;
      if original_len =? 0 then Err CompressedOriginalLenZero
      else if original_len >? BITCHAT_PAYLOAD_MAX_LEN
      then Err (CompressedOriginalLenTooLarge original_len BITCHAT_PAYLOAD_MAX_LEN)
      else
        compressed_bytes ← slice payload_bytes preamble_len (len payload_bytes);
        if bool_decide (compressed_bytes = []) then Err CompressedBodyEmpty
        else Ok (Compressed original_len compressed_bytes).

(** [if c { Some(f(read_array(n)?)) } else { None }] *)
Definition read_optional (c : bool) (field : string) (n : Z) : io read_cursor BitchatError (option (list Z)) :=
  if c then v ← read_array field n; mret (Some v) else mret None.

(** [decode_bitchat_packet] from the cursor on. *)
Definition decode_packet_body (version : BitchatVersion) : io read_cursor BitchatError BitchatPacketRef :=
  _ ← read_u8 "version";
  packet_type ← read_u8 "packet type";
  ttl ← read_u8 "ttl";
  timestamp ← read_u64 "timestamp";
  flags_byte ← read_u8 "flags";
  flags ← lift (from_wire_byte flags_byte);
  _ ← lift (guard_err (bool_decide (version = V1) && has_route flags) V1RouteFlag);
  payload_len ← match version with V1 => read_u16 "payload length" | V2 => read_u32 "payload length" end;
  _ ← lift (guard_err (payload_len >? BITCHAT_PAYLOAD_MAX_LEN) (PayloadTooLarge payload_len BITCHAT_PAYLOAD_MAX_LEN));
  sender_id ← read_array "sender ID" BITCHAT_PEER_ID_LEN;
  recipient_id ← read_optional (has_recipient flags) "recipient ID" BITCHAT_PEER_ID_LEN;
  route ← decode_route version flags;
  payload_bytes ← read_slice "payload" payload_len;
  payload ← lift (decode_payload version flags payload_bytes);
  signature ← read_optional (has_signature flags) "signature" BITCHAT_SIGNATURE_LEN;
  _ ← finish;
  mret (mk_packet version packet_type ttl timestamp flags sender_id recipient_id route payload signature).

Definition decode_bitchat_packet (input : list Z) : outcome BitchatError BitchatPacketRef :=
  _ ← guard_err (len input >? BITCHAT_CORE_PACKET_MAX_LEN) (PacketTooLarge (len input) BITCHAT_CORE_PACKET_MAX_LEN);
  version ← decode_version input;
  let minimum_header_len := fixed_header_len version in
  _ ← guard_err (len input <? minimum_header_len) (PacketTooShort (len input) minimum_header_len);
  run_reader (decode_packet_body version) input.

(** ** Encoding *)
Definition encode_plain_payload_len (p : BitchatPacketRef) : outcome BitchatError Z :=
  if negb (bool_decide (version p = V2)) then Err (UnsupportedEncodeVersion (wire_value (version p)))
  else
    match payload p with
    | Compressed _ _ => Err UnsupportedCompressedEncode
    | Plain payload =>
        if len payload >? BITCHAT_PAYLOAD_MAX_LEN then Err (PayloadTooLarge (len payload) BITCHAT_PAYLOAD_MAX_LEN)
        else Ok (len payload)
    end.

Definition encoded_route_len (route : option BitchatRouteRef) : outcome BitchatError Z :=
  match route with
  | None => Ok 0
  | Some route =>
      if hop_count route >? BITCHAT_ROUTE_MAX_HOPS
      then Err (RouteTooManyHops (hop_count route) BITCHAT_ROUTE_MAX_HOPS)
      else
        expected ← ok_or (checked_mul (hop_count route) BITCHAT_PEER_ID_LEN) LengthOverflow;
        if negb (len (raw_hops route) =? expected)
        then Err (InvalidRouteByteLength (hop_count route) (len (raw_hops route)) expected)
        else ok_or (checked_add expected 1) LengthOverflow
  end.

Definition add_len (a b : Z) : outcome BitchatError Z := ok_or (checked_add a b) LengthOverflow.

Definition bitchat_packet_encoded_len_v2 (p : BitchatPacketRef) : outcome BitchatError Z :=
  payload_len ← encode_plain_payload_len p;
  route_len ← encoded_route_len (route p);
  len0 ← add_len BITCHAT_V2_HEADER_LEN BITCHAT_PEER_ID_LEN;
  len1 ← (if bool_decide (is_Some (recipient_id p)) then add_len len0 BITCHAT_PEER_ID_LEN else Ok len0);
  len2 ← add_len len1 route_len;
  len3 ← add_len len2 payload_len;
  len4 ← (if bool_decide (is_Some (signature p)) then add_len len3 BITCHAT_SIGNATURE_LEN else Ok len3);
  if len4 >? BITCHAT_CORE_PACKET_MAX_LEN then Err (PacketTooLarge len4 BITCHAT_CORE_PACKET_MAX_LEN)
  else Ok len4.

Definition canonical_encode_flags (p : BitchatPacketRef) : BitchatFlags :=
  mk_flags (bool_decide (is_Some (recipient_id p))) (bool_decide (is_Some (signature p))) false
    (bool_decide (is_Some (route p))) (is_rsr (flags p)).

(** [encode_bitchat_packet_v2] from the cursor on. *)
Definition encode_packet_body (p : BitchatPacketRef) (payload : list Z) : io write_cursor BitchatError unit :=
  _ ← write_u8 2;
  _ ← write_u8 (packet_type p);
  _ ← write_u8 (ttl p);
  _ ← write_slice (to_be_bytes 8 (timestamp p));
  _ ← write_u8 (to_wire_byte (canonical_encode_flags p));
  _ ← write_slice (to_be_bytes 4 (as_u32 (len payload)));
  _ ← write_slice (sender_id p);
  _ ← match recipient_id p with Some recipient_id => write_slice recipient_id | None => mret tt end;
  _ ← match route p with
      | Some route => _ ← write_u8 (hop_count route); write_slice (raw_hops route)
      | None => mret tt
      end;
  _ ← write_slice payload;
  match signature p with Some signature => write_slice signature | None => mret tt end.

(** The cursor's position at the end is the result. *)
Definition encode_bitchat_packet_v2 (p : BitchatPacketRef) : io (list Z) BitchatError Z :=
  needed ← lift (bitchat_packet_encoded_len_v2 p);
  output ← get;
  _ ← lift (guard_err (len output <? needed) (OutputTooSmall needed (len output)));
  match payload p with
  | Compressed _ _ => lift (Err UnsupportedCompressedEncode)
  | Plain payload => with_writer (_ ← encode_packet_body p payload; c ← get; mret (wc_index c))
  end.

(** ** The wire format *)
Definition length_bytes (v : BitchatVersion) (n : Z) : list Z :=
  to_be_bytes (match v with V1 => 2 | V2 => 4 end) n.
Definition payload_wire (v : BitchatVersion) (p : BitchatPayloadRef) : list Z :=
  match p with
  | Plain bytes => bytes
  | Compressed original_len compressed_bytes => length_bytes v original_len ++ compressed_bytes
  end.
Definition optional_bytes (o : option (list Z)) : list Z := default [] o.
Definition route_bytes (r : option BitchatRouteRef) : list Z :=
  match r with Some r => hop_count r :: raw_hops r | None => [] end.

Definition packet_bytes (p : BitchatPacketRef) : list Z :=
  [wire_value (version p)] ++ [packet_type p] ++ [ttl p] ++ to_be_bytes 8 (timestamp p)
  ++ [to_wire_byte (flags p)] ++ length_bytes (version p) (len (payload_wire (version p) (payload p)))
  ++ sender_id p ++ optional_bytes (recipient_id p) ++ route_bytes (route p)
  ++ payload_wire (version p) (payload p) ++ optional_bytes (signature p).

(** What the Rust types guarantee of a packet value. *)
Definition optional_ok (n : Z) (o : option (list Z)) : Prop :=
  match o with Some b => array_ok n b | None => True end.
Definition route_ok (r : option BitchatRouteRef) : Prop :=
  match r with Some r => u8_ok (hop_count r) /\ bytes_ok (raw_hops r) | None => True end.
Definition payload_ok (p : BitchatPayloadRef) : Prop :=
  match p with Plain b => bytes_ok b | Compressed n b => 0 <= n <= usize_MAX /\ bytes_ok b end.

Record packet_ok (p : BitchatPacketRef) : Prop := {
  po_packet_type : u8_ok (packet_type p);
  po_ttl : u8_ok (ttl p);
  po_timestamp : u64_ok (timestamp p);
  po_sender_id : array_ok BITCHAT_PEER_ID_LEN (sender_id p);
  po_recipient_id : optional_ok BITCHAT_PEER_ID_LEN (recipient_id p);
  po_route : route_ok (route p);
  po_payload : payload_ok (payload p);
  po_signature : optional_ok BITCHAT_SIGNATURE_LEN (signature p);
}.

(** What a packet must satisfy to have a wire form: the flags say what is
    there, the route is whole and short, and the sizes are within limits. *)
Definition route_fits (r : option BitchatRouteRef) : Prop :=
  match r with
  | Some r => hop_count r <= BITCHAT_ROUTE_MAX_HOPS /\ len (raw_hops r) = hop_count r * BITCHAT_PEER_ID_LEN
  | None => True
  end.
Definition payload_fits (v : BitchatVersion) (p : BitchatPayloadRef) : Prop :=
  len (payload_wire v p) <= BITCHAT_PAYLOAD_MAX_LEN /\
  match p with
  | Plain _ => True
  | Compressed n b => 1 <= n <= BITCHAT_PAYLOAD_MAX_LEN /\ b <> []
  end.
Definition is_compressed_payload (p : BitchatPayloadRef) : bool :=
  match p with Plain _ => false | Compressed _ _ => true end.
Definition flags_of (p : BitchatPacketRef) : BitchatFlags :=
  mk_flags (bool_decide (is_Some (recipient_id p))) (bool_decide (is_Some (signature p)))
    (is_compressed_payload (payload p))
    (bool_decide (is_Some (route p))) (is_rsr (flags p)).

Record packet_valid (p : BitchatPacketRef) : Prop := {
  pv_flags : flags p = flags_of p;
  pv_version : version p = V1 -> route p = None;
  pv_route : route_fits (route p);
  pv_payload : payload_fits (version p) (payload p);
  pv_len : len (packet_bytes p) <= BITCHAT_CORE_PACKET_MAX_LEN;
}.

(** ** Lemmas *)
Lemma from_wire_value_wire_value v : from_wire_value (wire_value v) = Ok v.
Proof. by destruct v. Qed.

Lemma from_wire_value_inv b v : from_wire_value b = Ok v -> b = wire_value v.
Proof. unfold from_wire_value. intros H. by repeat case_match; simplify_eq. Qed.

Lemma from_wire_byte_to_wire_byte f : from_wire_byte (to_wire_byte f) = Ok f.
Proof. by destruct f as [[] [] [] [] []]. Qed.

Lemma from_wire_byte_inv b f : u8_ok b -> from_wire_byte b = Ok f -> b = to_wire_byte f.
Proof.
  intros Hb H.
  pose proof (u8_forall (fun b => match from_wire_byte b with Ok f => b =? to_wire_byte f | _ => true end)
    ltac:(vm_compute; reflexivity) b Hb) as Hf. simpl in Hf. rewrite H in Hf. by apply Z.eqb_eq.
Qed.

Lemma from_wire_byte_safe b : from_wire_byte b <> Panic.
Proof. unfold from_wire_byte. by case_match. Qed.

Lemma len_length_bytes v n : len (length_bytes v n) = compressed_preamble_len v.
Proof. unfold length_bytes. rewrite len_to_be_bytes. by destruct v. Qed.
#[export] Hint Rewrite len_length_bytes : len.

Lemma preamble_cases v b : compressed_preamble_len v <= len b ->
  exists u r, b = u ++ r /\ len u = compressed_preamble_len v /\ original_len_of v b = Ok (from_be_bytes u).
Proof.
  intros H. destruct (cut b (compressed_preamble_len v)) as (u & r & -> & Hu & _); [destruct v; simpl in *; lia|].
  exists u, r. split_and!; [done..|]. unfold original_len_of.
  unfold len in Hu. destruct v; cbn [compressed_preamble_len] in Hu.
  - destruct u as [|x0 [|x1 [|]]]; simpl in Hu; [lia..|reflexivity|lia].
  - destruct u as [|x0 [|x1 [|x2 [|x3 [|]]]]]; simpl in Hu; [lia..|reflexivity|lia].
Qed.

Lemma length_bytes_from v u : bytes_ok u -> len u = compressed_preamble_len v -> length_bytes v (from_be_bytes u) = u.
Proof. intros Hb Hu. unfold length_bytes. destruct v; by apply to_from_be_bytes_n. Qed.

Lemma length_bytes_to v n : 0 <= n <= BITCHAT_PAYLOAD_MAX_LEN -> from_be_bytes (length_bytes v n) = n.
Proof. unfold length_bytes, BITCHAT_PAYLOAD_MAX_LEN. intros H. destruct v; apply from_to_be_bytes; simpl; lia. Qed.

(** The payload's decoder accepts exactly the payloads that fit. *)
Lemma decode_payload_wire v fl p :
  is_compressed fl = is_compressed_payload p -> payload_fits v p -> decode_payload v fl (payload_wire v p) = Ok p.
Proof.
  unfold decode_payload. intros -> [_ Hp]. destruct p as [b|n b]; [done|].
  destruct Hp as [Hn Hb]. cbn [negb is_compressed_payload payload_wire].
  pose proof (len_nonneg b). destruct (Z.ltb_spec (len (length_bytes v n ++ b)) (compressed_preamble_len v)) as [Hs|Hs].
  { rewrite len_app, len_length_bytes in Hs. lia. }
  destruct (preamble_cases v _ Hs) as (u & r & Heq & Hu & ->).
  apply app_inj_1 in Heq as [<- <-]; [|apply Nat2Z.inj; fold (len (length_bytes v n)) (len u); by rewrite len_length_bytes].
  cbn [mbind outcome_bind]. rewrite length_bytes_to by (unfold BITCHAT_PAYLOAD_MAX_LEN in *; lia).
  rewrite Z.gtb_ltb. destruct (Z.eqb_spec n 0); [lia|]. destruct (Z.ltb_spec BITCHAT_PAYLOAD_MAX_LEN n); [lia|].
  rewrite slice_tail by (by rewrite ?len_length_bytes). cbn [mbind outcome_bind].
  by rewrite bool_decide_eq_false_2.
Qed.

Lemma decode_payload_inv v fl b p :
  bytes_ok b -> len b <= BITCHAT_PAYLOAD_MAX_LEN -> decode_payload v fl b = Ok p ->
  is_compressed fl = is_compressed_payload p /\ payload_fits v p /\ payload_ok p /\ b = payload_wire v p.
Proof.
  intros Hb Hl. unfold decode_payload. destruct (is_compressed fl); simpl; [|intros; by simplify_eq/=].
  destruct (Z.ltb_spec (len b) (compressed_preamble_len v)) as [|Hs]; [done|].
  destruct (preamble_cases v b Hs) as (u & r & -> & Hu & ->). cbn [mbind outcome_bind].
  apply bytes_ok_app in Hb as [Hbu Hbr]. pose proof (from_be_bytes_bound u Hbu) as Hn.
  rewrite Z.gtb_ltb. destruct (Z.eqb_spec (from_be_bytes u) 0); [done|].
  destruct (Z.ltb_spec BITCHAT_PAYLOAD_MAX_LEN (from_be_bytes u)); [done|].
  rewrite slice_tail by (by rewrite ?Hu). cbn [mbind outcome_bind]. case_bool_decide; [done|]. intros [= <-].
  unfold payload_fits, payload_ok. cbn [payload_wire]. rewrite length_bytes_from by done.
  unfold BITCHAT_PAYLOAD_MAX_LEN, usize_MAX in *. split_and!; done || lia.
Qed.

Lemma decode_payload_safe v fl b : decode_payload v fl b <> Panic.
Proof.
  unfold decode_payload. destruct (is_compressed fl); simpl; [|done].
  destruct (Z.ltb_spec (len b) (compressed_preamble_len v)) as [|Hs]; [done|].
  destruct (preamble_cases v b Hs) as (u & r & -> & Hu & ->). cbn [mbind outcome_bind].
  destruct (from_be_bytes u =? 0); [done|]. destruct (from_be_bytes u >? BITCHAT_PAYLOAD_MAX_LEN); [done|]. rewrite slice_tail by (by rewrite ?Hu).
  cbn [mbind outcome_bind]. by case_bool_decide.
Qed.

(** *** Optional fields and routes *)
(** The errors of a packet cut short. *)
Definition is_missing_field (e : BitchatError) : Prop :=
  match e with MissingField _ _ _ => True | _ => False end.
Abbreviation reads := (reads is_missing_field).
Abbreviation truncated := (truncated is_missing_field).

Lemma bitchat_reads_u8 field x : reads (read_u8 field) x [x].
Proof. by apply Cursor.reads_u8. Qed.
Lemma bitchat_reads_array field n v : len v = n -> reads (read_array field n) v v.
Proof. by apply Cursor.reads_array. Qed.
Lemma bitchat_reads_slice field n v : len v = n -> reads (read_slice field n) v v.
Proof. by apply Cursor.reads_slice. Qed.
Lemma bitchat_reads_u64 field z : u64_ok z -> reads (read_u64 field) z (to_be_bytes 8 z).
Proof.
  intros H. rewrite <- (from_to_be_bytes 8 z) at 1 by (unfold u64_ok in *; simpl; lia). by apply Cursor.reads_be.
Qed.

Lemma optional_len n o : optional_ok n o -> match o with Some b => len b = n | None => True end.
Proof. destruct o; [by intros []|done]. Qed.

Lemma reads_optional o field n :
  optional_ok n o -> reads (read_optional (bool_decide (is_Some o)) field n) o (optional_bytes o).
Proof.
  intros Hn%optional_len. unfold read_optional. destruct o as [b|]; simpl; [|apply reads_ret].
  eapply reads_last; [by apply bitchat_reads_array|apply reads_ret].
Qed.

Lemma read_optional_inv c pre rest field n o c' :
  bytes_ok rest -> read_optional c field n (rcur pre rest) = (Ok o, c') ->
  exists rest', rest = optional_bytes o ++ rest' /\ c' = rcur (pre ++ optional_bytes o) rest' /\
    c = bool_decide (is_Some o) /\ optional_ok n o.
Proof.
  intros Hb H. unfold read_optional in H. destruct c.
  - read_inv H. unfold mret, io_ret in H. simplify_eq. apply bytes_ok_app in Hb as [Hb _].
    eexists. by split_and!.
  - unfold mret, io_ret in H. simplify_eq. exists rest. simpl. by rewrite app_nil_r.
Qed.

Lemma checked_mul_hops n : u8_ok n -> checked_mul n BITCHAT_PEER_ID_LEN = Some (n * BITCHAT_PEER_ID_LEN).
Proof.
  unfold u8_ok, checked_mul, BITCHAT_PEER_ID_LEN, usize_MAX. intros.
  destruct (Z.leb_spec (n * 8) (2 ^ 64 - 1)); [done|lia].
Qed.

Lemma reads_route v fl r :
  has_route fl = bool_decide (is_Some r) -> (v = V1 -> r = None) -> route_fits r -> route_ok r ->
  reads (decode_route v fl) r (route_bytes r).
Proof.
  intros Hf Hv Hfit Hok. unfold decode_route. rewrite Hf. destruct r as [[n hops]|]; simpl in *; [|apply reads_ret].
  destruct Hok as [Hn Hb], Hfit as [Hle Hl]. destruct (decide (v = V1)) as [Hv1|]; [by specialize (Hv Hv1)|].
  rewrite bool_decide_eq_false_2 by done. change (n :: hops) with ([n] ++ hops).
  eapply reads_bind; [apply bitchat_reads_u8|]. eapply reads_lift; [apply guard_err_ok; rewrite Z.gtb_ltb; apply Z.ltb_ge; lia|].
  eapply reads_lift; [by rewrite checked_mul_hops|]. eapply reads_last; [by apply bitchat_reads_slice|apply reads_ret].
Qed.

Lemma decode_route_inv pre v fl r rest c' :
  bytes_ok rest -> decode_route v fl (rcur pre rest) = (Ok r, c') ->
  exists rest', rest = route_bytes r ++ rest' /\ c' = rcur (pre ++ route_bytes r) rest' /\
    has_route fl = bool_decide (is_Some r) /\ (v = V1 -> r = None) /\ route_fits r /\ route_ok r.
Proof.
  intros Hb H. unfold decode_route in H. destruct (has_route fl); simpl in H.
  - case_bool_decide; [done|]. read_inv H. apply guard_inv in H as [Hle H]. subst rest.
    apply bytes_ok_cons in Hb as [Hx Hb]. rewrite checked_mul_hops in H by done. cbn [ok_or] in H.
    rewrite lift_bind_ok in H. read_inv H. unfold mret, io_ret in H. simplify_eq.
    apply bytes_ok_app in Hb as [Hb _]. rewrite Z.gtb_ltb, Z.ltb_ge in Hle.
    eexists. cbn [route_bytes hop_count raw_hops app]. rewrite <- !app_assoc. by split_and!.
  - unfold mret, io_ret in H. simplify_eq. exists rest. simpl. by rewrite app_nil_r.
Qed.

(** The length field of either version. *)
Lemma reads_length v n :
  0 <= n <= BITCHAT_PAYLOAD_MAX_LEN ->
  reads match v with V1 => read_u16 "payload length" | V2 => read_u32 "payload length" end n (length_bytes v n).
Proof.
  intros Hn. rewrite <- (length_bytes_to v n Hn) at 1.
  destruct v; (apply Cursor.reads_be; [done|apply len_length_bytes]).
Qed.

Lemma read_length_inv v pre rest n c :
  bytes_ok rest ->
  match v with V1 => read_u16 "payload length" | V2 => read_u32 "payload length" end (rcur pre rest) = (Ok n, c) ->
  exists rest', rest = length_bytes v n ++ rest' /\ c = rcur (pre ++ length_bytes v n) rest'.
Proof.
  intros Hb H.
  assert (exists u rest', rest = u ++ rest' /\ len u = compressed_preamble_len v /\ n = from_be_bytes u /\ c = rcur (pre ++ u) rest')
    as (u & rest' & -> & Hu & -> & ->) by (destruct v; by apply read_be_inv in H).
  apply bytes_ok_app in Hb as [Hb _]. rewrite length_bytes_from by done. by exists rest'.
Qed.

Lemma bitchat_finish_end pre : finish (rcur pre []) = (Ok tt, rcur pre []).
Proof.
  unfold finish. rewrite get_bind. unfold remaining. rewrite rcur_len, rcur_index.
  change (len (@nil Z)) with 0. by destruct (Z.eqb_spec (Z.max 0 (len pre + 0 - len pre)) 0); [|lia].
Qed.

Lemma bitchat_finish_inv pre rest c : finish (rcur pre rest) = (Ok tt, c) -> rest = [].
Proof.
  unfold finish. rewrite get_bind. unfold remaining. rewrite rcur_len, rcur_index.
  destruct (Z.eqb_spec (Z.max 0 (len pre + len rest - len pre)) 0); [|done]. intros _.
  apply len_0_nil. pose proof (len_nonneg rest). lia.
Qed.

Lemma bitchat_bytes_len p :
  packet_ok p ->
  len (packet_bytes p) = fixed_header_len (version p) + BITCHAT_PEER_ID_LEN + len (optional_bytes (recipient_id p))
    + len (route_bytes (route p)) + len (payload_wire (version p) (payload p)) + len (optional_bytes (signature p)).
Proof.
  intros [_ _ _ [Hs _] _ _ _ _]. unfold packet_bytes. len_simpl. rewrite Hs.
  unfold fixed_header_len, compressed_preamble_len, BITCHAT_V1_HEADER_LEN, BITCHAT_V2_HEADER_LEN. destruct (version p); lia.
Qed.

(** The flags of a valid packet. *)
Lemma valid_flags p :
  packet_valid p ->
  has_recipient (flags p) = bool_decide (is_Some (recipient_id p)) /\
  has_signature (flags p) = bool_decide (is_Some (signature p)) /\
  is_compressed (flags p) = is_compressed_payload (payload p) /\
  has_route (flags p) = bool_decide (is_Some (route p)) /\
  guard_err (bool_decide (version p = V1) && has_route (flags p)) V1RouteFlag = Ok tt.
Proof.
  intros [Hfl Hv1 _ _ _]. unfold flags_of in Hfl.
  assert (has_route (flags p) = bool_decide (is_Some (route p))) as Hr by (by rewrite Hfl).
  split_and!; [by rewrite Hfl..|]. rewrite Hr. destruct (decide (version p = V1)) as [E|E].
  - by rewrite (Hv1 E), andb_false_r.
  - by rewrite (bool_decide_eq_false_2 (version p = V1)).
Qed.

(** The errors of bytes after the end of a packet. *)
Definition is_trailing (x : list Z) (e : BitchatError) : Prop := e = TrailingBytes (len x).
Abbreviation decodes := (decodes is_missing_field is_trailing).

Lemma bitchat_decodes_finish {A} (a : A) : decodes (_ ← finish; mret a) a [].
Proof.
  split_and!.
  - intros pre Hmax. rewrite app_nil_r. by erewrite io_bind_ok by apply bitchat_finish_end.
  - apply truncated_nil.
  - intros pre x Hx Hmax. exists (TrailingBytes (len x)), (rcur pre x). split; [|done]. simpl.
    assert (0 < len x) by (destruct x; [done|rewrite len_cons; pose proof (len_nonneg x); lia]).
    erewrite io_bind_err; [done|]. unfold finish. rewrite get_bind. unfold remaining. rewrite rcur_len, rcur_index.
    replace (Z.max 0 (len pre + len x - len pre)) with (len x) by lia. by destruct (Z.eqb_spec (len x) 0); [lia|].
Qed.

(** The body of the decoder on the format of a packet, on its proper prefixes
    and on its extensions. *)
Lemma decodes_packet p :
  packet_ok p -> packet_valid p -> decodes (decode_packet_body (version p)) p (packet_bytes p).
Proof.
  intros Hok Hval. destruct (valid_flags p Hval) as (E1 & E2 & E3 & E4 & E5).
  destruct Hval as [_ Hv Hr [Hl Hp] _], Hok as [_ _ Hts [Hs _] Hrc Hro Hpo Hsg].
  unfold decode_packet_body, packet_bytes. pose proof (len_nonneg (payload_wire (version p) (payload p))).
  eapply decodes_bind; [apply bitchat_reads_u8|]. eapply decodes_bind; [apply bitchat_reads_u8|]. eapply decodes_bind; [apply bitchat_reads_u8|].
  eapply decodes_bind; [by apply bitchat_reads_u64|]. eapply decodes_bind; [apply bitchat_reads_u8|].
  eapply decodes_lift; [apply from_wire_byte_to_wire_byte|]. eapply decodes_lift; [exact E5|].
  eapply decodes_bind; [by apply reads_length|].
  eapply decodes_lift; [apply guard_err_ok; rewrite Z.gtb_ltb; by apply Z.ltb_ge|].
  eapply decodes_bind; [by apply bitchat_reads_array|]. rewrite E1.
  eapply decodes_bind; [by apply reads_optional|]. eapply decodes_bind; [by apply reads_route|].
  eapply decodes_bind; [by apply bitchat_reads_slice|]. eapply decodes_lift; [by apply decode_payload_wire|]. rewrite E2.
  eapply decodes_last; [by apply reads_optional|]. destruct p. apply bitchat_decodes_finish.
Qed.

(** *** The decoder *)
Lemma packet_bytes_head p : decode_version (packet_bytes p) = Ok (version p).
Proof. apply from_wire_value_wire_value. Qed.

Lemma valid_usize p : packet_valid p -> len (packet_bytes p) <= usize_MAX.
Proof. intros [_ _ _ _ H]. unfold BITCHAT_CORE_PACKET_MAX_LEN, usize_MAX in *. lia. Qed.

Lemma bitchat_decode_bytes p :
  packet_ok p -> packet_valid p -> decode_bitchat_packet (packet_bytes p) = Ok p.
Proof.
  intros Hok Hval. unfold decode_bitchat_packet. pose proof (pv_len p Hval) as Hl.
  rewrite Z.gtb_ltb. destruct (Z.ltb_spec BITCHAT_CORE_PACKET_MAX_LEN (len (packet_bytes p))); [lia|].
  cbn [guard_err mbind outcome_bind]. rewrite packet_bytes_head. cbn [mbind outcome_bind].
  pose proof (bitchat_bytes_len p Hok) as Hlen. pose proof (len_nonneg (optional_bytes (recipient_id p))).
  pose proof (len_nonneg (route_bytes (route p))). pose proof (len_nonneg (payload_wire (version p) (payload p))).
  pose proof (len_nonneg (optional_bytes (signature p))). unfold BITCHAT_PEER_ID_LEN in *.
  destruct (Z.ltb_spec (len (packet_bytes p)) (fixed_header_len (version p))); [lia|].
  cbn [guard_err mbind outcome_bind]. eapply decodes_run; [by apply decodes_packet|by apply valid_usize].
Qed.

Lemma decode_body_inv v input p :
  bytes_ok input -> run_reader (decode_packet_body v) input = Ok p -> from_wire_value (hd 0 input) = Ok v ->
  len input <= BITCHAT_CORE_PACKET_MAX_LEN ->
  packet_ok p /\ packet_valid p /\ input = packet_bytes p.
Proof.
  intros Hb H Hhd Hle. apply run_reader_inv in H as [c H]. unfold decode_packet_body in H.
  do 5 read_inv H. apply lift_inv in H as (fl & Hfl & H). apply guard_inv in H as [Hv1 H]. subst. cbn [hd] in Hhd.
  apply bytes_ok_cons in Hb as [_ Hb]. apply bytes_ok_cons in Hb as [Hty Hb]. apply bytes_ok_cons in Hb as [Htt Hb].
  apply bytes_ok_app in Hb as [Hbt Hb]. apply bytes_ok_cons in Hb as [Hbf Hb].
  apply from_wire_value_inv in Hhd as ->. apply from_wire_byte_inv in Hfl as ->; [|done].
  apply io_bind_inv in H as (n & c1 & Hn & H). apply read_length_inv in Hn as (r5 & -> & ->); [|done].
  apply bytes_ok_app in Hb as [_ Hb]. apply guard_inv in H as [Hnm H]. rewrite Z.gtb_ltb, Z.ltb_ge in Hnm.
  read_inv H. subst. apply bytes_ok_app in Hb as [Hbs Hb].
  apply io_bind_inv in H as (rc & c2 & Hr & H). apply read_optional_inv in Hr as (r7 & -> & -> & Hfrc & Hrc); [|done].
  apply bytes_ok_app in Hb as [_ Hb].
  apply io_bind_inv in H as (ro & c3 & Hr & H). apply decode_route_inv in Hr as (r8 & -> & -> & Hfro & Hv & Hfit & Hro); [|done].
  apply bytes_ok_app in Hb as [_ Hb]. read_inv H. subst. apply bytes_ok_app in Hb as [Hbp Hb].
  apply lift_inv in H as (pl & Hpl & H). apply decode_payload_inv in Hpl as (Hfc & Hpf & Hpo & ->); [|done|done].
  apply io_bind_inv in H as (sg & c4 & Hs & H). apply read_optional_inv in Hs as (r10 & -> & -> & Hfs & Hsg); [|done].
  apply io_bind_inv in H as ([] & c5 & Hend & H). apply bitchat_finish_inv in Hend as ->. unfold mret, io_ret in H. simplify_eq.
  match goal with |- packet_ok ?q /\ _ => set (p := q) end.
  match goal with |- _ /\ _ /\ ?i = _ => assert (i = packet_bytes p) as Heq end.
  { unfold packet_bytes, p. cbn [version packet_type ttl timestamp flags sender_id recipient_id route payload signature].
    by rewrite app_nil_r, to_from_be_bytes_n by done. }
  split; [|split; [|exact Heq]].
  - split; try done. pose proof (from_be_bytes_bound v0 Hbt) as Hbd. rewrite Hl in Hbd. exact Hbd.
  - split; [|done..|by rewrite <- Heq]. unfold flags_of, p. cbn [flags recipient_id signature payload route].
    rewrite <- Hfrc, <- Hfs, <- Hfro, <- Hfc. by destruct fl.
Qed.

Lemma bitchat_decode_inv input p :
  bytes_ok input -> decode_bitchat_packet input = Ok p -> packet_ok p /\ packet_valid p /\ input = packet_bytes p.
Proof.
  intros Hb. unfold decode_bitchat_packet. rewrite Z.gtb_ltb.
  destruct (Z.ltb_spec BITCHAT_CORE_PACKET_MAX_LEN (len input)) as [|Hl]; [done|]. cbn [guard_err mbind outcome_bind].
  unfold decode_version. destruct input as [|b0 r]; [done|]. cbn [head].
  destruct (from_wire_value b0) as [v|e|] eqn:Hv; [|done..]. cbn [mbind outcome_bind].
  destruct (Z.ltb_spec (len (b0 :: r)) (fixed_header_len v)) as [|_]; [done|]. cbn [guard_err mbind outcome_bind].
  intros H. by apply (decode_body_inv v).
Qed.

Lemma read_optional_safe c field n : 0 <= n -> safe rc_ok (read_optional c field n) (fun _ => True).
Proof. intros Hn. unfold read_optional, read_array. destruct c; repeat safe_step; done. Qed.

Lemma decode_route_safe v fl : safe rc_ok (decode_route v fl) (fun _ => True).
Proof.
  unfold decode_route, read_u8, read_slice. destruct (negb _); [by apply safe_ret|].
  case_bool_decide; [by apply safe_lift|]. safe_step. safe_step. rewrite checked_mul_hops by done. cbn [ok_or].
  eapply safe_bind; [apply (safe_lift _ _ (fun n => n = v0 * BITCHAT_PEER_ID_LEN)); [done|by intros ? [= <-]]|].
  intros n ->. eapply safe_bind; [apply read_slice_safe; unfold u8_ok, BITCHAT_PEER_ID_LEN in *; lia|].
  intros. by apply safe_ret.
Qed.

Lemma bitchat_finish_safe : safe rc_ok finish (fun _ => True).
Proof. intros c Hc. unfold finish. rewrite get_bind. by destruct (remaining c =? 0). Qed.

#[export] Hint Resolve decode_route_safe bitchat_finish_safe : safe.
#[export] Hint Extern 1 (safe _ (read_optional _ _ _) _) => apply read_optional_safe; done : safe.
#[export] Hint Extern 1 (safe _ (lift (from_wire_byte _)) _) =>
  eapply safe_lift; [apply from_wire_byte_safe | intros; exact I] : safe.
#[export] Hint Extern 1 (safe _ (lift (decode_payload _ _ _)) _) =>
  eapply safe_lift; [apply decode_payload_safe | intros; exact I] : safe.

Lemma decode_body_safe v : safe rc_ok (decode_packet_body v) (fun _ => True).
Proof.
  unfold decode_packet_body, read_u8, read_u64, read_array. do 7 safe_step.
  eapply (safe_bind _ _ _ (fun n => 0 <= n)).
  { unfold read_u16, read_u32. destruct v; (eapply safe_conseq; [apply read_be_safe; done|simpl; lia]). }
  intros n Hn. unfold read_slice. repeat safe_step. done.
Qed.

Lemma bitchat_decode_safe input : bytes_ok input -> decode_bitchat_packet input <> Panic.
Proof.
  intros Hb. unfold decode_bitchat_packet. destruct (_ >? _); [done|]. cbn [guard_err mbind outcome_bind].
  unfold decode_version, from_wire_value. destruct (head input) as [b|]; [|done].
  assert (forall v, (_ ← guard_err (len input <? fixed_header_len v) (PacketTooShort (len input) (fixed_header_len v));
    run_reader (decode_packet_body v) input) <> Panic) as H.
  { intros v. destruct (len input <? fixed_header_len v); [done|]. eapply run_reader_safe; [apply decode_body_safe|done]. }
  repeat case_match; try done; apply H.
Qed.

(** C22. The BitChat decoder accepts exactly the wire formats of valid packets:
    on any bytes it returns without a panic, and it returns a packet iff the
    packet's flags, route and sizes are consistent and the bytes are its
    encoding.  So the format is unambiguous: no two packets share an encoding
    and no packet has two. *)
Theorem bitchat_decode_exact input p :
  bytes_ok input ->
  decode_bitchat_packet input <> Panic /\
  (decode_bitchat_packet input = Ok p <-> packet_ok p /\ packet_valid p /\ input = packet_bytes p).
Proof.
  intros Hb. split; [by apply bitchat_decode_safe|]. split; [by apply bitchat_decode_inv|].
  intros (Hok & Hval & ->). by apply bitchat_decode_bytes.
Qed.

(** *** Packets cut short or followed by other bytes *)
Definition is_cut_short (e : BitchatError) : Prop :=
  match e with MissingField _ _ _ | PacketTooShort _ _ => True | _ => False end.

Lemma bitchat_decode_prefix p u w :
  packet_ok p -> packet_valid p -> packet_bytes p = u ++ w -> w <> [] ->
  exists e, decode_bitchat_packet u = Err e /\ is_cut_short e.
Proof.
  intros Hok Hval Hu Hw. unfold decode_bitchat_packet.
  assert (len (packet_bytes p) = len u + len w) as Hlen by (rewrite Hu; apply len_app).
  pose proof (pv_len p Hval). pose proof (len_nonneg w). rewrite Z.gtb_ltb.
  destruct (Z.ltb_spec BITCHAT_CORE_PACKET_MAX_LEN (len u)); [lia|]. cbn [guard_err mbind outcome_bind].
  destruct u as [|b0 r]; [by eexists|]. pose proof (packet_bytes_head p) as Hhd. rewrite Hu in Hhd.
  unfold decode_version in *. cbn [head app] in *. rewrite Hhd. cbn [mbind outcome_bind].
  destruct (_ <? _); [by eexists|]. cbn [guard_err mbind outcome_bind].
  destruct (decodes_run_prefix _ _ _ _ _ (b0 :: r) w (decodes_packet p Hok Hval) Hu Hw (valid_usize p Hval))
    as (e & He & Hm). exists e. split; [done|]. by destruct e.
Qed.

Lemma bitchat_decode_extra p x :
  packet_ok p -> packet_valid p -> x <> [] -> len (packet_bytes p ++ x) <= usize_MAX ->
  decode_bitchat_packet (packet_bytes p ++ x) =
    (if len (packet_bytes p ++ x) >? BITCHAT_CORE_PACKET_MAX_LEN
     then Err (PacketTooLarge (len (packet_bytes p ++ x)) BITCHAT_CORE_PACKET_MAX_LEN)
     else Err (TrailingBytes (len x))).
Proof.
  intros Hok Hval Hx Hmax. unfold decode_bitchat_packet. case_match eqn:Hg; [done|]. cbn [guard_err mbind outcome_bind].
  assert (decode_version (packet_bytes p ++ x) = Ok (version p)) as -> by apply from_wire_value_wire_value.
  cbn [mbind outcome_bind]. assert ((len (packet_bytes p ++ x) <? fixed_header_len (version p)) = false) as ->.
  { apply Z.ltb_ge. rewrite len_app, bitchat_bytes_len by done.
    repeat match goal with |- context [len ?l] => pose proof (len_nonneg l); generalize dependent (len l); intros end.
    unfold BITCHAT_PEER_ID_LEN. lia. }
  cbn [guard_err mbind outcome_bind].
  by destruct (decodes_run_extra _ _ _ _ _ x (decodes_packet p Hok Hval) Hx Hmax) as (e & -> & ->).
Qed.

(** Framing errors: a packet cut at any byte is reported as too short or as
    missing a field, and bytes after the end of a packet are reported as
    trailing with their number, unless they make the input too large.  The
    decoder never takes a prefix or an extension of a packet for a packet. *)
Theorem bitchat_framing_errors p u w x :
  packet_ok p -> packet_valid p -> packet_bytes p = u ++ w -> w <> [] ->
  x <> [] -> len (packet_bytes p ++ x) <= usize_MAX ->
  (exists e, decode_bitchat_packet u = Err e /\ is_cut_short e) /\
  decode_bitchat_packet (packet_bytes p ++ x) =
    (if len (packet_bytes p ++ x) >? BITCHAT_CORE_PACKET_MAX_LEN
     then Err (PacketTooLarge (len (packet_bytes p ++ x)) BITCHAT_CORE_PACKET_MAX_LEN)
     else Err (TrailingBytes (len x))).
Proof. intros Hok Hval Hu Hw Hx Hmax. split; [by eapply bitchat_decode_prefix|by apply bitchat_decode_extra]. Qed.

(** *** The encoder *)
(** The packet that the encoder writes: the flags are recomputed. *)
Definition canonical (p : BitchatPacketRef) : BitchatPacketRef :=
  mk_packet (version p) (packet_type p) (ttl p) (timestamp p) (canonical_encode_flags p) (sender_id p)
    (recipient_id p) (route p) (payload p) (signature p).

(** What the encoder can encode. *)
Definition encodable (p : BitchatPacketRef) : Prop :=
  version p = V2 /\ is_compressed_payload (payload p) = false /\
  len (payload_wire V2 (payload p)) <= BITCHAT_PAYLOAD_MAX_LEN /\ route_fits (route p) /\
  len (packet_bytes (canonical p)) <= BITCHAT_CORE_PACKET_MAX_LEN.

Lemma canonical_ok p : packet_ok p -> packet_ok (canonical p).
Proof. by intros []. Qed.

Lemma canonical_valid p : encodable p -> packet_valid (canonical p).
Proof.
  intros (Hv & Hp & Hl & Hr & Hm). split; try done.
  - unfold flags_of, canonical, canonical_encode_flags. cbn [flags recipient_id signature payload route is_rsr]. by rewrite Hp.
  - simpl. by rewrite Hv.
  - simpl. rewrite Hv. by destruct (payload p).
Qed.

Lemma canonical_encodable p : encodable p -> flags p = flags_of p -> canonical p = p.
Proof.
  intros (_ & Hp & _) Hf. unfold canonical, canonical_encode_flags. unfold flags_of in Hf. rewrite Hp in Hf.
  destruct p; simpl in *. by rewrite <- Hf.
Qed.

Lemma add_len_ok a b : a + b <= usize_MAX -> add_len a b = Ok (a + b).
Proof. intros H. unfold add_len, checked_add. by destruct (Z.leb_spec (a + b) usize_MAX); [|lia]. Qed.

Lemma optional_add_len n o (a : Z) :
  optional_ok n o -> a + n <= usize_MAX ->
  (if bool_decide (is_Some o) then add_len a n else Ok a) = Ok (a + len (optional_bytes o)).
Proof.
  intros Ho Ha. destruct o as [b|]; simpl.
  - destruct Ho as [Hl _]. by rewrite Hl, add_len_ok.
  - change (len (@nil Z)) with 0. by rewrite Z.add_0_r.
Qed.

Lemma encoded_route_len_ok r :
  route_ok r -> route_fits r -> encoded_route_len r = Ok (len (route_bytes r)) /\ len (route_bytes r) <= 129.
Proof.
  destruct r as [[n hops]|]; [|done]. intros [Hn Hb] [Hle Hl]. unfold encoded_route_len.
  cbn [hop_count raw_hops route_bytes] in *. rewrite Z.gtb_ltb. destruct (Z.ltb_spec BITCHAT_ROUTE_MAX_HOPS n); [lia|].
  rewrite (checked_mul_hops n Hn). cbn [ok_or mbind outcome_bind]. rewrite Hl, Z.eqb_refl. cbn [negb].
  unfold BITCHAT_PEER_ID_LEN, BITCHAT_ROUTE_MAX_HOPS in *.
  rewrite len_cons, Hl. unfold checked_add, usize_MAX. destruct (Z.leb_spec (n * 8 + 1) (2 ^ 64 - 1)); [|unfold u8_ok in Hn; lia].
  cbn [ok_or]. split; [f_equal; lia|lia].
Qed.

Lemma encoded_route_len_inv r n : route_ok r -> encoded_route_len r = Ok n -> route_fits r.
Proof.
  destruct r as [[k hops]|]; [|done]. intros [Hn Hb]. unfold encoded_route_len. cbn [hop_count raw_hops] in *.
  rewrite Z.gtb_ltb. destruct (Z.ltb_spec BITCHAT_ROUTE_MAX_HOPS k); [done|].
  rewrite checked_mul_hops by done. cbn [ok_or mbind outcome_bind].
  by destruct (Z.eqb_spec (len hops) (k * BITCHAT_PEER_ID_LEN)).
Qed.

Lemma len_optional_bound n o : optional_ok n o -> 0 <= n -> 0 <= len (optional_bytes o) <= n.
Proof. destruct o; simpl; [intros [-> _]|intros _]; unfold len; simpl; lia. Qed.

(** The length computation on a packet whose payload and route fit. *)
Lemma encoded_len_fits p :
  packet_ok p -> version p = V2 -> is_compressed_payload (payload p) = false ->
  len (payload_wire V2 (payload p)) <= BITCHAT_PAYLOAD_MAX_LEN -> route_fits (route p) ->
  bitchat_packet_encoded_len_v2 p =
    (let n := len (packet_bytes (canonical p)) in
     if n >? BITCHAT_CORE_PACKET_MAX_LEN then Err (PacketTooLarge n BITCHAT_CORE_PACKET_MAX_LEN) else Ok n).
Proof.
  intros Hok Hv Hp Hl Hr. rewrite (bitchat_bytes_len (canonical p)) by (by apply canonical_ok).
  cbn [canonical version recipient_id route payload signature]. destruct Hok as [_ _ _ _ Hrc Hro _ Hsg].
  unfold bitchat_packet_encoded_len_v2, encode_plain_payload_len. rewrite Hv, (bool_decide_eq_true_2 (V2 = V2)) by done. cbn [negb].
  destruct (payload p) as [b|]; [|done]. cbn [payload_wire] in *. rewrite Z.gtb_ltb.
  destruct (Z.ltb_spec BITCHAT_PAYLOAD_MAX_LEN (len b)); [lia|]. cbn [mbind outcome_bind].
  destruct (encoded_route_len_ok _ Hro Hr) as [-> Hrl]. cbn [mbind outcome_bind].
  pose proof (len_optional_bound _ _ Hrc). pose proof (len_optional_bound _ _ Hsg).
  unfold fixed_header_len, BITCHAT_V2_HEADER_LEN, BITCHAT_PEER_ID_LEN, BITCHAT_SIGNATURE_LEN, BITCHAT_PAYLOAD_MAX_LEN in *.
  rewrite (add_len_ok 16 8) by done. cbn [mbind outcome_bind].
  rewrite (optional_add_len 8) by (done || unfold usize_MAX; lia). cbn [mbind outcome_bind].
  rewrite add_len_ok by (unfold usize_MAX; lia). cbn [mbind outcome_bind].
  rewrite add_len_ok by (unfold usize_MAX; lia). cbn [mbind outcome_bind].
  by rewrite (optional_add_len 64) by (done || unfold usize_MAX; lia).
Qed.

Lemma encoded_len_exact p n :
  packet_ok p -> bitchat_packet_encoded_len_v2 p = Ok n <-> encodable p /\ n = len (packet_bytes (canonical p)).
Proof.
  intros Hok. split.
  - intros H. assert (version p = V2 /\ is_compressed_payload (payload p) = false /\
      len (payload_wire V2 (payload p)) <= BITCHAT_PAYLOAD_MAX_LEN /\ route_fits (route p)) as (Hv & Hp & Hl & Hr).
    { unfold bitchat_packet_encoded_len_v2, encode_plain_payload_len in H.
      destruct (version p); [done|]. rewrite (bool_decide_eq_true_2 (V2 = V2)) in H by done. cbn [negb] in H.
      destruct (payload p) as [b|]; [|done]. rewrite Z.gtb_ltb in H.
      destruct (Z.ltb_spec BITCHAT_PAYLOAD_MAX_LEN (len b)); [done|]. cbn [mbind outcome_bind] in H.
      destruct (encoded_route_len (route p)) as [rl| |] eqn:Hr; [|done..]. split_and!; try done.
      by eapply encoded_route_len_inv; [apply Hok|]. }
    rewrite encoded_len_fits in H by done. cbv zeta in H. rewrite Z.gtb_ltb in H.
    destruct (Z.ltb_spec BITCHAT_CORE_PACKET_MAX_LEN (len (packet_bytes (canonical p)))); simplify_eq. done.
  - intros [(Hv & Hp & Hl & Hr & Hm) ->]. rewrite encoded_len_fits by done. cbv zeta. rewrite Z.gtb_ltb.
    by destruct (Z.ltb_spec BITCHAT_CORE_PACKET_MAX_LEN (len (packet_bytes (canonical p)))); [lia|].
Qed.

Lemma bitchat_cwrites_slice v : cwrites (write_slice v) tt v.
Proof. apply Cursor.cwrites_slice. Qed.
Lemma bitchat_cwrites_u8 b : cwrites (write_u8 b) tt [b].
Proof. apply Cursor.cwrites_slice. Qed.

Lemma cwrites_packet p payload_bytes :
  packet_ok p -> encodable p -> payload p = Plain payload_bytes ->
  cwrites (encode_packet_body p payload_bytes) tt (packet_bytes (canonical p)).
Proof.
  intros Hok (Hv & _ & Hl & _) Hp. rewrite Hp in Hl. cbn [payload_wire] in Hl. unfold encode_packet_body, packet_bytes, as_u32.
  cbn [canonical version packet_type ttl timestamp flags sender_id recipient_id route payload signature].
  rewrite Hv, Hp. cbn [payload_wire wire_value length_bytes]. pose proof (len_nonneg payload_bytes).
  rewrite Z.mod_small by (unfold BITCHAT_PAYLOAD_MAX_LEN in Hl; lia).
  do 7 (eapply cwrites_bind; [first [apply bitchat_cwrites_u8|apply bitchat_cwrites_slice]|]).
  eapply cwrites_bind; [destruct (recipient_id p); [apply bitchat_cwrites_slice|apply cwrites_ret]|].
  eapply cwrites_bind.
  { destruct (route p) as [[n hops]|]; [|apply cwrites_ret]. cbn [route_bytes hop_count raw_hops].
    change (n :: hops) with ([n] ++ hops). eapply cwrites_bind; [apply bitchat_cwrites_u8|apply bitchat_cwrites_slice]. }
  eapply cwrites_bind; [apply bitchat_cwrites_slice|]. destruct (signature p); [apply bitchat_cwrites_slice|apply cwrites_ret].
Qed.

(** The encoder on a packet and a buffer, in terms of the length computation. *)
Lemma bitchat_encode_spec p out :
  packet_ok p -> len out <= usize_MAX ->
  encode_bitchat_packet_v2 p out =
    match bitchat_packet_encoded_len_v2 p with
    | Ok n => if len out <? n then (Err (OutputTooSmall n (len out)), out)
              else (Ok n, packet_bytes (canonical p) ++ drop (Z.to_nat n) out)
    | Err e => (Err e, out)
    | Panic => (Panic, out)
    end.
Proof.
  intros Hok Hmax. unfold encode_bitchat_packet_v2. destruct (bitchat_packet_encoded_len_v2 p) as [n|e|] eqn:Hn; [|done..].
  apply encoded_len_exact in Hn as [Henc ->]; [|done]. rewrite lift_bind_ok, get_bind.
  destruct (Z.ltb_spec (len out) (len (packet_bytes (canonical p)))); [done|]. rewrite guard_false by done.
  destruct (payload p) as [b|] eqn:Hp; [|by destruct Henc as (_ & Hc & _); rewrite Hp in Hc].
  unfold with_writer. erewrite io_bind_ok by (apply cwrites_run; [by apply cwrites_packet|done..]).
  rewrite get_bind. unfold mret, io_ret, wcur. cbn [wc_index wc_output]. by rewrite to_nat_len.
Qed.

Lemma encoded_len_safe p : bitchat_packet_encoded_len_v2 p <> Panic.
Proof.
  unfold bitchat_packet_encoded_len_v2, add_len.
  apply outcome_bind_safe; [unfold encode_plain_payload_len; by repeat case_match|intros n _].
  apply outcome_bind_safe.
  { unfold encoded_route_len. destruct (route p); [|done]. case_match; [done|].
    apply outcome_bind_safe; [apply ok_or_safe|intros k _]. case_match; [done|apply ok_or_safe]. }
  intros k _. repeat (apply outcome_bind_safe; [first [apply ok_or_safe|case_match; [apply ok_or_safe|done]]|intros ? _]).
  by case_match.
Qed.

(** The version-2 encoder: it succeeds exactly on the packets that have a
    version-2 form with a plain payload and fit the limits and the buffer; it
    writes the format of the packet with recomputed flags at the front of the
    buffer and nothing else, and decoding what it wrote gives that packet back
    (the packet itself when its flags were right).  On an error the buffer is
    untouched. *)
Theorem bitchat_encode_exact p out :
  packet_ok p -> len out <= usize_MAX ->
  match encode_bitchat_packet_v2 p out with
  | (Ok n, out') =>
      encodable p /\ n = len (packet_bytes (canonical p)) /\
      out' = packet_bytes (canonical p) ++ drop (Z.to_nat n) out /\
      decode_bitchat_packet (take (Z.to_nat n) out') = Ok (canonical p) /\
      (flags p = flags_of p -> canonical p = p)
  | (Err e, out') =>
      out' = out /\ (encodable p -> e = OutputTooSmall (len (packet_bytes (canonical p))) (len out) /\
                                    len out < len (packet_bytes (canonical p)))
  | (Panic, _) => False
  end.
Proof.
  intros Hok Hmax. rewrite bitchat_encode_spec by done.
  pose proof (encoded_len_exact p) as Hx. destruct (bitchat_packet_encoded_len_v2 p) as [n|e|] eqn:Hn.
  - destruct (proj1 (Hx n Hok) eq_refl) as [Henc ->].
    destruct (Z.ltb_spec (len out) (len (packet_bytes (canonical p)))); [done|].
    rewrite take_len_app. split_and!; try done.
    + apply bitchat_decode_bytes; [by apply canonical_ok|by apply canonical_valid].
    + by apply canonical_encodable.
  - split; [done|]. intros Henc. pose proof (proj2 (Hx _ Hok) (conj Henc eq_refl)) as Habs. done.
  - by apply (encoded_len_safe p).
Qed.

(** ** Witnesses: a routed and signed packet, a compressed one *)
Definition sample_bitchat : BitchatPacketRef :=
  mk_packet V2 2 7 1700000000000 (mk_flags true true false true false) (replicate 8 1) (Some (replicate 8 2))
    (Some (mk_route 2 (replicate 16 3))) (Plain [104; 105]) (Some (replicate 64 4)).
Definition sample_compressed : BitchatPacketRef :=
  mk_packet V1 4 3 99 (mk_flags false false true false true) (replicate 8 9) None None (Compressed 500 [1; 2; 3]) None.

Lemma sample_bitchat_ok : packet_ok sample_bitchat /\ packet_valid sample_bitchat.
Proof.
  split; (split; try done; try (vm_compute; done);
    try (split; [vm_compute; done|]); apply (bool_decide_unpack _); vm_compute; exact I).
Defined.
Lemma sample_compressed_ok : packet_ok sample_compressed /\ packet_valid sample_compressed.
Proof.
  split; (split; try done; try (vm_compute; done);
    try (split; [vm_compute; done|]); apply (bool_decide_unpack _); vm_compute; exact I).
Defined.

Lemma bitchat_decode_exact_witness : decode_bitchat_packet (packet_bytes sample_compressed) = Ok sample_compressed.
Proof.
  destruct sample_compressed_ok as [Hok Hval].
  assert (bytes_ok (packet_bytes sample_compressed)) as Hb by (apply (bool_decide_unpack _); vm_compute; exact I).
  apply (proj2 (proj2 (bitchat_decode_exact (packet_bytes sample_compressed) sample_compressed Hb))).
  split; [exact Hok|split; [exact Hval|reflexivity]].
Defined.

Lemma bitchat_framing_errors_witness :
  decode_bitchat_packet (packet_bytes sample_compressed ++ [0; 0]) = Err (TrailingBytes 2).
Proof.
  destruct sample_compressed_ok as [Hok Hval].
  apply (bitchat_framing_errors sample_compressed (take 9 (packet_bytes sample_compressed))
    (drop 9 (packet_bytes sample_compressed)) [0; 0] Hok Hval); try done; vm_compute; done.
Defined.

Lemma bitchat_encode_exact_witness :
  exists out', encode_bitchat_packet_v2 sample_bitchat (zeros 200) = (Ok 115, out') /\
    decode_bitchat_packet (take 115 out') = Ok sample_bitchat.
Proof.
  destruct sample_bitchat_ok as [Hok Hval].
  assert (len (zeros 200) <= usize_MAX) as Hl by (vm_compute; done).
  pose proof (bitchat_encode_exact sample_bitchat (zeros 200) Hok Hl) as H.
  destruct (encode_bitchat_packet_v2 sample_bitchat (zeros 200)) as [r out'] eqn:He.
  assert (r = Ok 115) as -> by (change r with (fst (r, out')); rewrite <- He; vm_compute; reflexivity).
  exists out'. split; [reflexivity|]. destruct H as (_ & _ & _ & H & Hc). rewrite Hc in H; [exact H|exact (pv_flags _ Hval)].
Defined.
