(* ===== verification/LinkBitchat.v ===== *)
(** [hyf_link_bitchat]: BitChat packets carried in HYF envelopes
    (src/crates/hyf_link_bitchat/src/wrap.rs, params.rs, error.rs), an instance
    of [Carrier]. *)
From S2P Require Import Prelude Cursor Core Wire Carrier Bitchat.

Inductive HyfLinkBitchatError :=
| Bitchat (error : BitchatError)
| HyfWire (error : HyfWireError)
| PacketTooLargeForCarrier (actual maximum : Z)
| WrongPayloadKind (actual : PayloadKind).

Record BitchatWrapParams := mk_wrap_params {
  wp_message_id : list Z;
  wp_source_node : list Z;
  wp_destination : HyfDestination;
  wp_created_at_ms : Z;
  wp_expires_at_ms : Z;
  wp_hop_limit : Z;
}.

Definition enforce_carrier_packet_len (raw : list Z) : outcome HyfLinkBitchatError unit :=
  if len raw >? BITCHAT_CARRIER_PACKET_MAX_LEN
  then Err (PacketTooLargeForCarrier (len raw) BITCHAT_CARRIER_PACKET_MAX_LEN)
  else Ok tt.

Definition validate_bitchat_packet (raw : list Z) : outcome HyfLinkBitchatError BitchatPacketRef :=
  _ ← enforce_carrier_packet_len raw;
  map_err Bitchat (decode_bitchat_packet raw).

Definition wrap_bitchat_packet (raw : list Z) (params : BitchatWrapParams)
  : outcome HyfLinkBitchatError HyfEnvelopeRef :=
  _ ← validate_bitchat_packet raw;
  let envelope :=
    mk_envelope HYF_WIRE_VERSION_0 (wp_message_id params) (wp_source_node params) (wp_destination params)
      (wp_created_at_ms params) (wp_expires_at_ms params) (wp_hop_limit params) ForeignBitChatPacket raw in
  _ ← map_err HyfWire (validate_envelope envelope);
  Ok envelope.

Definition unwrap_bitchat_packet (envelope : HyfEnvelopeRef) : outcome HyfLinkBitchatError (list Z) :=
  _ ← map_err HyfWire (validate_envelope envelope);
  if negb (bool_decide (payload_kind envelope = ForeignBitChatPacket))
  then Err (WrongPayloadKind (payload_kind envelope))
  else
    _ ← validate_bitchat_packet (Wire.payload envelope);
    Ok (Wire.payload envelope).

(** What the Rust types guarantee of the parameters. *)
Definition wrap_params_ok (p : BitchatWrapParams) : Prop :=
  message_id_ok (wp_message_id p) /\ node_id_ok (wp_source_node p) /\ destination_ok (wp_destination p) /\
  timestamp_ok (wp_created_at_ms p) /\ timestamp_ok (wp_expires_at_ms p) /\ u8_ok (wp_hop_limit p).
Definition lifetime (p : BitchatWrapParams) : Z * Z := (wp_created_at_ms p, wp_expires_at_ms p).

(** ** The instance *)
Definition bitchat_carrier : carrier HyfLinkBitchatError BitchatPacketRef BitchatWrapParams :=
  mk_carrier validate_bitchat_packet ForeignBitChatPacket HyfWire WrongPayloadKind
    (fun params raw _ => Ok (mk_envelope HYF_WIRE_VERSION_0 (wp_message_id params) (wp_source_node params)
       (wp_destination params) (wp_created_at_ms params) (wp_expires_at_ms params) (wp_hop_limit params)
       ForeignBitChatPacket raw))
    (fun _ _ => Ok tt).

Lemma bitchat_wrap_is_carrier raw params : wrap_bitchat_packet raw params = carrier_wrap bitchat_carrier raw params.
Proof. done. Qed.
Lemma bitchat_unwrap_is_carrier e : unwrap_bitchat_packet e = carrier_unwrap bitchat_carrier e.
Proof. done. Qed.

Lemma validate_bitchat_packet_ok raw p :
  validate_bitchat_packet raw = Ok p <-> len raw <= BITCHAT_CARRIER_PACKET_MAX_LEN /\ decode_bitchat_packet raw = Ok p.
Proof.
  unfold validate_bitchat_packet, enforce_carrier_packet_len. rewrite Z.gtb_ltb.
  destruct (Z.ltb_spec BITCHAT_CARRIER_PACKET_MAX_LEN (len raw)); cbn [mbind outcome_bind]; [split; [done|lia]|].
  destruct (decode_bitchat_packet raw) as [q|err|]; simpl; (split; [|intros [_ H']; by simplify_eq]); intros; by simplify_eq.
Qed.

Lemma bitchat_carrier_laws : carrier_laws bitchat_carrier wrap_params_ok lifetime.
Proof.
  split.
  - intros raw Hb. apply outcome_bind_safe; [unfold enforce_carrier_packet_len; by case_match|intros _ _].
    by apply map_err_safe, bitchat_decode_safe.
  - intros raw p Hb H. apply validate_bitchat_packet_ok in H as [H _]. unfold BITCHAT_CARRIER_PACKET_MAX_LEN in H. lia.
  - done.
  - intros params raw p (? & ? & ? & ? & ? & ?) Hb Hv. eexists. split; [done|]. by split.
Qed.

(** Carrying BitChat packets: a packet is wrapped exactly when it decodes,
    is within the carrier's own limit (1536 bytes, below the codec's 2048) and
    gets a positive lifetime; the envelope goes through the envelope codec and
    unwraps to the packet, byte for byte; and what unwraps is a packet that
    could have been wrapped.  Nothing panics. *)
Theorem bitchat_wrap_exact raw params e out :
  bytes_ok raw -> wrap_params_ok params -> envelope_ok e ->
  wrap_bitchat_packet raw params <> Panic /\ unwrap_bitchat_packet e <> Panic /\
  (is_ok (wrap_bitchat_packet raw params) = true <->
     len raw <= BITCHAT_CARRIER_PACKET_MAX_LEN /\ is_ok (decode_bitchat_packet raw) = true /\
     wp_created_at_ms params < wp_expires_at_ms params) /\
  (wrap_bitchat_packet raw params = Ok e -> len (envelope_bytes e) <= len out ->
     unwrap_bitchat_packet e = Ok raw /\
     exists n out', encode_envelope e out = (Ok n, out') /\ decode_envelope (take (Z.to_nat n) out') = Ok e) /\
  (forall p, unwrap_bitchat_packet e = Ok p ->
     p = Wire.payload e /\ payload_kind e = ForeignBitChatPacket /\ len p <= BITCHAT_CARRIER_PACKET_MAX_LEN /\
     is_ok (decode_bitchat_packet p) = true).
Proof.
  intros Hb Hp He. rewrite bitchat_wrap_is_carrier, bitchat_unwrap_is_carrier.
  destruct (lawful_carries _ _ _ bitchat_carrier_laws) as [Hs1 Hs2 Hw Hr Hu]. split_and!; [by apply Hs1|by apply Hs2| | |].
  - rewrite Hw by done. cbn [bitchat_carrier c_validate lifetime fst snd].
    assert (is_ok (validate_bitchat_packet raw) = true <->
      len raw <= BITCHAT_CARRIER_PACKET_MAX_LEN /\ is_ok (decode_bitchat_packet raw) = true) as ->; [|tauto].
    pose proof (validate_bitchat_packet_ok raw) as Hv. split.
    + destruct (validate_bitchat_packet raw) as [p| |] eqn:E; [|done..]. intros _. destruct (proj1 (Hv p) eq_refl) as [? ->]. done.
    + intros [Hl H]. destruct (decode_bitchat_packet raw) as [p| |]; [|done..]. by rewrite (proj2 (Hv p)).
  - intros H Hl. destruct (Hr raw params e out Hb Hp H Hl) as (_ & H1 & H2). done.
  - intros p H. destruct (Hu e p H) as (-> & Hk & _ & a & Ha & _). apply validate_bitchat_packet_ok in Ha as [Hl ->]. done.
Qed.

(** ** Witness *)
Definition sample_raw : list Z := packet_bytes sample_bitchat.
Definition sample_wrap_params : BitchatWrapParams :=
  mk_wrap_params (replicate 32 1) (replicate 32 2) (Community (replicate 16 3)) 1000 2000 4.

Lemma bitchat_sample_wrap_params_ok : wrap_params_ok sample_wrap_params.
Proof.
  repeat split; try reflexivity; try (vm_compute; discriminate); apply (bool_decide_unpack _); vm_compute; exact I.
Defined.
Definition sample_wrapped : HyfEnvelopeRef :=
  mk_envelope 0 (replicate 32 1) (replicate 32 2) (Community (replicate 16 3)) 1000 2000 4 ForeignBitChatPacket sample_raw.

Lemma bitchat_wrap_exact_witness : unwrap_bitchat_packet sample_wrapped = Ok sample_raw.
Proof.
  assert (bytes_ok sample_raw) as Hb by (apply (bool_decide_unpack _); vm_compute; exact I).
  assert (envelope_ok sample_wrapped) as He.
  { split; try (vm_compute; done); try (split; [vm_compute; done|]); apply (bool_decide_unpack _); vm_compute; exact I. }
  destruct (bitchat_wrap_exact sample_raw sample_wrap_params sample_wrapped (zeros 400) Hb bitchat_sample_wrap_params_ok He)
    as (_ & _ & _ & H & _).
  apply H; vm_compute; done.
Defined.
