(* ===== verification/BridgeCore.v ===== *)
(** [hyf_bridge_core]: bridge messages, their codec and their envelopes
    (src/crates/hyf_bridge_core/src/constants.rs, types.rs, error.rs, codec.rs,
    wrap.rs).

    A bridge message is what the bridges to BitChat, LXMF and Nostr exchange: a
    room, a message id, an author on one of the networks, a time and a payload
    that is UTF-8 text or opaque.  Text is checked with [Utf8]; the envelope
    part is an instance of [Carrier] whose check ties the envelope's message id
    and destination to the message. *)
From S2P Require Import Prelude Utf8 Cursor Core Wire Carrier.

Definition HYF_BRIDGE_MESSAGE_VERSION_0 : Z := 0.
Definition HYF_BRIDGE_HYF_NODE_AUTHOR_ID_LEN : Z := 32.
Definition HYF_BRIDGE_BITCHAT_AUTHOR_ID_LEN : Z := 8.
Definition HYF_BRIDGE_LXMF_AUTHOR_ID_LEN : Z := 16.
Definition HYF_BRIDGE_NOSTR_AUTHOR_ID_LEN : Z := 32.
Definition HYF_BRIDGE_PAYLOAD_MAX_LEN : Z := 1024.
Definition HYF_BRIDGE_MESSAGE_MAX_LEN : Z := 1536.

Inductive BridgeError :=
| InvalidVersion (actual : Z)
| ZeroRoomId
| ZeroMessageId
| UnknownAuthorKind (tag : Z)
| UnexpectedHyfAuthorNetworkTag (tag : Z)
| InvalidForeignNetworkTag (tag : Z)
| UnsupportedAuthorNetwork (network : ForeignNetworkKind)
| InvalidAuthorIdLen (len : Z)
| UnknownPayloadKind (tag : Z)
| InvalidTextUtf8
| PayloadTooLarge (actual maximum : Z)
| MessageTooLarge (actual maximum : Z)
| InputTooShort (actual minimum : Z)
| TrailingBytes (actual expected : Z)
| OutputTooSmall (actual required : Z)
| WrongPayloadKind (actual : PayloadKind)
| EnvelopeMessageIdMismatch
| EnvelopeRoomMismatch
| HyfWire (error : HyfWireError).

(** ** Messages *)
Inductive BridgeEndpointKind := HyfNode | BridgeForeign (network : ForeignNetworkKind).
#[export] Instance BridgeEndpointKind_eq_dec : EqDecision BridgeEndpointKind.
Proof. solve_decision. Defined.

Record BridgeEndpointRef := mk_author { author_kind : BridgeEndpointKind; author_id : list Z }.
#[export] Instance BridgeEndpointRef_eq_dec : EqDecision BridgeEndpointRef.
Proof. solve_decision. Defined.

Inductive BridgePayloadKind := TextUtf8 | OpaqueBytes.
#[export] Instance BridgePayloadKind_eq_dec : EqDecision BridgePayloadKind.
Proof. solve_decision. Defined.
Definition payload_kind_tag (k : BridgePayloadKind) : Z := match k with TextUtf8 => 1 | OpaqueBytes => 255 end.

Record BridgeMessageRef := mk_message {
  bm_version : Z;
  bm_room_id : list Z;
  bm_message_id : list Z;
  bm_author : BridgeEndpointRef;
  bm_created_at_ms : Z;
  bm_payload_kind : BridgePayloadKind;
  bm_payload : list Z;
}.
#[export] Instance BridgeMessageRef_eq_dec : EqDecision BridgeMessageRef.
Proof. solve_decision. Defined.

Inductive BridgeProtocol := Hyf | PBitChat | PLxmf | PNostr.
#[export] Instance BridgeProtocol_eq_dec : EqDecision BridgeProtocol.
Proof. solve_decision. Defined.

Inductive BridgeVerificationState := Unverified | TransportSigned | PolicyVerified.
Record BridgeIngressMeta := mk_ingress_meta {
  origin_protocol : BridgeProtocol;
  verification_state : BridgeVerificationState;
}.

Record BridgeMessageKey := mk_key { key_room_id : list Z; key_message_id : list Z }.
#[export] Instance BridgeMessageKey_eq_dec : EqDecision BridgeMessageKey.
Proof. solve_decision. Defined.

Definition ROOM_ID_LEN : Z := 16.
Definition MESSAGE_ID_LEN : Z := 32.
Definition U64_LEN : Z := 8.
Definition U16_LEN : Z := 2.
Definition FIXED_PREFIX_LEN : Z := 1 + ROOM_ID_LEN + MESSAGE_ID_LEN + 1 + 1 + 1.
Definition FIXED_SUFFIX_LEN : Z := U64_LEN + 1 + U16_LEN.
Definition AUTHOR_KIND_HYF_NODE : Z := 0.
Definition AUTHOR_KIND_FOREIGN : Z := 1.
Definition HYF_AUTHOR_NETWORK_TAG : Z := 0.

(** ** Validation *)
Definition expected_author_id_len (kind : BridgeEndpointKind) : outcome BridgeError Z :=
  match kind with
  | HyfNode => Ok HYF_BRIDGE_HYF_NODE_AUTHOR_ID_LEN
  | BridgeForeign BitChat => Ok HYF_BRIDGE_BITCHAT_AUTHOR_ID_LEN
  | BridgeForeign Lxmf => Ok HYF_BRIDGE_LXMF_AUTHOR_ID_LEN
  | BridgeForeign Nostr => Ok HYF_BRIDGE_NOSTR_AUTHOR_ID_LEN
  | BridgeForeign network => Err (UnsupportedAuthorNetwork network)
  end.

Definition validate_author_id_len (kind : BridgeEndpointKind) (n : Z) : outcome BridgeError unit :=
  expected ← expected_author_id_len kind;
  guard_err (negb (n =? expected)) (InvalidAuthorIdLen n).

Definition validate_payload (kind : BridgePayloadKind) (payload : list Z) : outcome BridgeError unit :=
  guard_err (bool_decide (kind = TextUtf8) && negb (utf8_ok payload)) InvalidTextUtf8.

Definition validate_bridge_message_ref (m : BridgeMessageRef) : outcome BridgeError unit :=
  _ ← guard_err (negb (bm_version m =? HYF_BRIDGE_MESSAGE_VERSION_0)) (InvalidVersion (bm_version m));
  _ ← guard_err (bool_decide (bm_room_id m = zeros ROOM_ID_LEN)) ZeroRoomId;
  _ ← guard_err (bool_decide (bm_message_id m = zeros MESSAGE_ID_LEN)) ZeroMessageId;
  _ ← validate_author_id_len (author_kind (bm_author m)) (len (author_id (bm_author m)));
  _ ← guard_err (len (bm_payload m) >? HYF_BRIDGE_PAYLOAD_MAX_LEN)
        (PayloadTooLarge (len (bm_payload m)) HYF_BRIDGE_PAYLOAD_MAX_LEN);
  validate_payload (bm_payload_kind m) (bm_payload m).

(** ** Encoding *)
Definition bridge_message_encoded_len (m : BridgeMessageRef) : outcome BridgeError Z :=
  _ ← validate_bridge_message_ref m;
  ok_or
    (n ← (n ← (n ← checked_add FIXED_PREFIX_LEN (len (author_id (bm_author m)));
               checked_add n FIXED_SUFFIX_LEN);
          checked_add n (len (bm_payload m)));
     if n <=? HYF_BRIDGE_MESSAGE_MAX_LEN then Some n else None)
    (MessageTooLarge (len (bm_payload m)) HYF_BRIDGE_MESSAGE_MAX_LEN).

Definition write_u16 (z : Z) : io write_cursor BridgeError unit := write_be 2 z.
Definition write_u64 (z : Z) : io write_cursor BridgeError unit := write_be 8 z.

Definition encode_message_body (m : BridgeMessageRef) : io write_cursor BridgeError unit :=
  _ ← write_u8 (bm_version m);
  _ ← write_array (bm_room_id m);
  _ ← write_array (bm_message_id m);
  _ ← match author_kind (bm_author m) with
      | HyfNode => _ ← write_u8 AUTHOR_KIND_HYF_NODE; write_u8 HYF_AUTHOR_NETWORK_TAG
      | BridgeForeign network => _ ← write_u8 AUTHOR_KIND_FOREIGN; write_u8 (wire_tag network)
      end;
  _ ← write_u8 (as_u8 (len (author_id (bm_author m))));
  _ ← write_array (author_id (bm_author m));
  _ ← write_u64 (bm_created_at_ms m);
  _ ← write_u8 (payload_kind_tag (bm_payload_kind m));
  _ ← write_u16 (as_u16 (len (bm_payload m)));
  write_array (bm_payload m).

Definition encode_bridge_message (m : BridgeMessageRef) : io (list Z) BridgeError Z :=
  required ← lift (bridge_message_encoded_len m);
  output ← get;
  _ ← lift (guard_err (len output <? required) (OutputTooSmall (len output) required));
  _ ← with_writer (encode_message_body m);
  mret required.

(** ** Decoding *)
Definition read_overflow (c : read_cursor) (_ : Z) : BridgeError := InputTooShort (len (rc_input c)) (rc_index c).
Definition read_short (c : read_cursor) (n : Z) : BridgeError := InputTooShort (len (rc_input c)) (rc_index c + n).
Definition read_slice := Cursor.read_slice read_overflow read_short.
Definition read_u8 := Cursor.read_u8 read_overflow read_short.
Definition read_array := Cursor.read_array read_overflow read_short.
Definition read_u16 := Cursor.read_be read_overflow read_short U16_LEN.
Definition read_u64 := Cursor.read_be read_overflow read_short U64_LEN.
Definition finish : io read_cursor BridgeError unit :=
  c ← get;
  lift (guard_err (negb (rc_index c =? len (rc_input c))) (TrailingBytes (len (rc_input c)) (rc_index c))).

Definition decode_author_kind (author_kind_tag author_network_tag : Z) : outcome BridgeError BridgeEndpointKind :=
  match author_kind_tag with
  | 0 =>
      if negb (author_network_tag =? HYF_AUTHOR_NETWORK_TAG)
      then Err (UnexpectedHyfAuthorNetworkTag author_network_tag) else Ok HyfNode
  | 1 =>
      network ← map_err (fun _ => InvalidForeignNetworkTag author_network_tag) (from_wire_tag author_network_tag);
      if bool_decide (network = Fips) || bool_decide (network = Rns)
      then Err (UnsupportedAuthorNetwork network) else Ok (BridgeForeign network)
  | tag => Err (UnknownAuthorKind tag)
  end.

Definition decode_payload_kind (tag : Z) : outcome BridgeError BridgePayloadKind :=
  match tag with 1 => Ok TextUtf8 | 255 => Ok OpaqueBytes | _ => Err (UnknownPayloadKind tag) end.

Definition decode_message_body : io read_cursor BridgeError BridgeMessageRef :=
  version ← read_u8;
  _ ← lift (guard_err (negb (version =? HYF_BRIDGE_MESSAGE_VERSION_0)) (InvalidVersion version));
  room_id ← read_array ROOM_ID_LEN;
  _ ← lift (guard_err (bool_decide (room_id = zeros ROOM_ID_LEN)) ZeroRoomId);
  message_id ← read_array MESSAGE_ID_LEN;
  _ ← lift (guard_err (bool_decide (message_id = zeros MESSAGE_ID_LEN)) ZeroMessageId);
  author_kind_tag ← read_u8;
  author_network_tag ← read_u8;
  author_id_len ← read_u8;
  author_kind ← lift (decode_author_kind author_kind_tag author_network_tag);
  _ ← lift (validate_author_id_len author_kind author_id_len);
  author_id ← read_slice author_id_len;
  created_at_ms ← read_u64;
  kind_tag ← read_u8;
  payload_kind ← lift (decode_payload_kind kind_tag);
  payload_len ← read_u16;
  _ ← lift (guard_err (payload_len >? HYF_BRIDGE_PAYLOAD_MAX_LEN) (PayloadTooLarge payload_len HYF_BRIDGE_PAYLOAD_MAX_LEN));
  payload ← read_slice payload_len;
  _ ← lift (validate_payload payload_kind payload);
  _ ← finish;
  mret (mk_message version room_id message_id (mk_author author_kind author_id) created_at_ms payload_kind payload).

Definition decode_bridge_message (input : list Z) : outcome BridgeError BridgeMessageRef :=
  _ ← guard_err (len input >? HYF_BRIDGE_MESSAGE_MAX_LEN) (MessageTooLarge (len input) HYF_BRIDGE_MESSAGE_MAX_LEN);
  run_reader decode_message_body input.

(** ** Envelopes *)
Record BridgeWrapParams := mk_wrap_params {
  wp_source_node : list Z;
  wp_created_at_ms : Z;
  wp_expires_at_ms : Z;
  wp_hop_limit : Z;
}.

Definition validate_bridge_message (raw : list Z) : outcome BridgeError BridgeMessageRef := decode_bridge_message raw.

Definition wrap_bridge_message (raw : list Z) (params : BridgeWrapParams) : outcome BridgeError HyfEnvelopeRef :=
  message ← validate_bridge_message raw;
  let envelope :=
    mk_envelope HYF_WIRE_VERSION_0 (bm_message_id message) (wp_source_node params) (Community (bm_room_id message))
      (wp_created_at_ms params) (wp_expires_at_ms params) (wp_hop_limit params) HyfBridgeMessageV0 raw in
  _ ← map_err HyfWire (validate_envelope envelope);
  Ok envelope.

Definition unwrap_bridge_message (envelope : HyfEnvelopeRef) : outcome BridgeError (list Z) :=
  _ ← map_err HyfWire (validate_envelope envelope);
  _ ← guard_err (negb (bool_decide (payload_kind envelope = HyfBridgeMessageV0))) (WrongPayloadKind (payload_kind envelope));
  message ← validate_bridge_message (payload envelope);
  _ ← guard_err (negb (bool_decide (message_id envelope = bm_message_id message))) EnvelopeMessageIdMismatch;
  _ ← guard_err (negb (bool_decide (destination envelope = Community (bm_room_id message)))) EnvelopeRoomMismatch;
  Ok (payload envelope).

(** ** The wire format *)
Definition author_tags (k : BridgeEndpointKind) : list Z :=
  match k with
  | HyfNode => [AUTHOR_KIND_HYF_NODE; HYF_AUTHOR_NETWORK_TAG]
  | BridgeForeign network => [AUTHOR_KIND_FOREIGN; wire_tag network]
  end.

Definition message_bytes (m : BridgeMessageRef) : list Z :=
  [bm_version m] ++ bm_room_id m ++ bm_message_id m ++ author_tags (author_kind (bm_author m))
  ++ [len (author_id (bm_author m))] ++ author_id (bm_author m) ++ to_be_bytes 8 (bm_created_at_ms m)
  ++ [payload_kind_tag (bm_payload_kind m)] ++ to_be_bytes 2 (len (bm_payload m)) ++ bm_payload m.

(** What the Rust types guarantee of a message. *)
Record message_ok (m : BridgeMessageRef) : Prop := {
  mo_version : u8_ok (bm_version m);
  mo_room_id : community_id_ok (bm_room_id m);
  mo_message_id : message_id_ok (bm_message_id m);
  mo_author_id : bytes_ok (author_id (bm_author m));
  mo_created : timestamp_ok (bm_created_at_ms m);
  mo_payload : bytes_ok (bm_payload m);
}.

(** What the validation asks for: version 0, a room and an id that are not
    zero, an author of a supported network with that network's id length, and
    a payload within the limit that is UTF-8 when it claims to be text. *)
Definition author_len (k : BridgeEndpointKind) : option Z :=
  match k with
  | HyfNode => Some 32
  | BridgeForeign BitChat => Some 8
  | BridgeForeign Lxmf => Some 16
  | BridgeForeign Nostr => Some 32
  | BridgeForeign _ => None
  end.

Record message_valid (m : BridgeMessageRef) : Prop := {
  mv_version : bm_version m = 0;
  mv_room_id : bm_room_id m <> zeros 16;
  mv_message_id : bm_message_id m <> zeros 32;
  mv_author : author_len (author_kind (bm_author m)) = Some (len (author_id (bm_author m)));
  mv_payload_len : len (bm_payload m) <= 1024;
  mv_text : bm_payload_kind m = TextUtf8 ->
    exists cs, Forall scalar_ok cs /\ bm_payload m = concat (map encode_utf8 cs);
}.

(** ** Lemmas *)
Lemma validate_author_id_len_ok k n : validate_author_id_len k n = Ok tt <-> author_len k = Some n.
Proof.
  unfold validate_author_id_len, expected_author_id_len.
  destruct k as [|[]]; cbn [mbind outcome_bind author_len]; unfold HYF_BRIDGE_HYF_NODE_AUTHOR_ID_LEN,
    HYF_BRIDGE_BITCHAT_AUTHOR_ID_LEN, HYF_BRIDGE_LXMF_AUTHOR_ID_LEN, HYF_BRIDGE_NOSTR_AUTHOR_ID_LEN;
    try (split; done);
    rewrite guard_err_ok, negb_false_iff, Z.eqb_eq; (split; [by intros ->|by intros [= <-]]).
Qed.

Lemma author_len_bound k n : author_len k = Some n -> 8 <= n <= 32.
Proof. destruct k as [|[]]; simpl; intros; simplify_eq; lia. Qed.

Lemma validate_payload_ok k p :
  bytes_ok p ->
  validate_payload k p = Ok tt <->
  (k = TextUtf8 -> exists cs, Forall scalar_ok cs /\ p = concat (map encode_utf8 cs)).
Proof.
  intros Hb. unfold validate_payload. rewrite guard_err_ok. rewrite <- (utf8_ok_spec p Hb).
  case_bool_decide; simpl; [|by split]. rewrite negb_false_iff. split; [done|by auto].
Qed.

Lemma guard_err_bind_ok {E A} b (e : E) (f : unit -> outcome E A) a :
  (guard_err b e ≫= f) = Ok a <-> b = false /\ f tt = Ok a.
Proof. destruct b; simpl; split; try done; by intros []. Qed.

Lemma validate_message_exact m :
  message_ok m -> validate_bridge_message_ref m = Ok tt <-> message_valid m.
Proof.
  intros Hok. unfold validate_bridge_message_ref.
  rewrite !unit_bind_ok, !guard_err_ok, validate_author_id_len_ok, (validate_payload_ok _ _ (mo_payload m Hok)).
  rewrite !negb_false_iff, !bool_decide_eq_false, Z.eqb_eq, Z.gtb_ltb, Z.ltb_ge.
  unfold HYF_BRIDGE_MESSAGE_VERSION_0, HYF_BRIDGE_PAYLOAD_MAX_LEN, ROOM_ID_LEN, MESSAGE_ID_LEN.
  split; [intros (? & ? & ? & ? & ? & ?); by split|by intros []].
Qed.

Lemma message_bytes_len m :
  message_ok m -> len (message_bytes m) = 63 + len (author_id (bm_author m)) + len (bm_payload m).
Proof.
  intros [_ [Hr _] [Hm _] _ _ _]. unfold message_bytes.
  assert (len (author_tags (author_kind (bm_author m))) = 2) as Ht by (by destruct (author_kind _)).
  len_simpl. rewrite Hr, Hm, Ht. lia.
Qed.

Lemma valid_len m : message_ok m -> message_valid m -> len (message_bytes m) <= 1119.
Proof.
  intros Hok [_ _ _ Ha Hp _]. rewrite message_bytes_len by done. apply author_len_bound in Ha. lia.
Qed.

(** The length of a valid message is below the limit, so that the last error
    of [bridge_message_encoded_len] does not occur. *)
Lemma bridge_encoded_len_spec m :
  message_ok m ->
  bridge_message_encoded_len m =
    match validate_bridge_message_ref m with
    | Ok _ => Ok (len (message_bytes m)) | Err e => Err e | Panic => Panic
    end.
Proof.
  intros Hok. unfold bridge_message_encoded_len. destruct (validate_bridge_message_ref m) as [[]|e|] eqn:Hv; [|done..].
  apply validate_message_exact in Hv; [|done]. pose proof (valid_len m Hok Hv). rewrite message_bytes_len in * by done.
  pose proof (len_nonneg (author_id (bm_author m))). pose proof (len_nonneg (bm_payload m)).
  unfold checked_add, usize_MAX, HYF_BRIDGE_MESSAGE_MAX_LEN. change FIXED_PREFIX_LEN with 52. change FIXED_SUFFIX_LEN with 11.
  repeat (cbn [mbind option_bind]; match goal with |- context [?a <=? ?b] => destruct (Z.leb_spec a b); [|lia] end).
  cbn [ok_or mbind outcome_bind]. f_equal. lia.
Qed.

Lemma validate_message_safe m : validate_bridge_message_ref m <> Panic.
Proof.
  unfold validate_bridge_message_ref. repeat (apply outcome_bind_safe; [|intros ? _]); try apply guard_err_safe.
  unfold expected_author_id_len. by repeat case_match.
Qed.

Lemma writes_message m :
  message_ok m -> message_valid m -> writes (encode_message_body m) tt (message_bytes m).
Proof.
  intros Hok [_ _ _ Ha Hp _]. apply author_len_bound in Ha. unfold encode_message_body, message_bytes, as_u8, as_u16.
  pose proof (len_nonneg (bm_payload m)). rewrite !Z.mod_small by lia.
  do 3 (eapply writes_bind; [eauto with cursor|]).
  eapply writes_bind.
  { destruct (author_kind (bm_author m)); cbn [author_tags];
      (change [?a; ?b] with ([a] ++ [b]); eapply writes_bind; eauto with cursor). }
  repeat (eapply writes_bind; [eauto with cursor|]). eauto with cursor.
Qed.

Lemma encode_message_valid m out :
  message_ok m -> message_valid m ->
  encode_bridge_message m out =
    if len out <? len (message_bytes m) then (Err (OutputTooSmall (len out) (len (message_bytes m))), out)
    else (Ok (len (message_bytes m)), message_bytes m ++ drop (length (message_bytes m)) out).
Proof.
  intros Hok Hval. unfold encode_bridge_message. rewrite bridge_encoded_len_spec by done.
  rewrite (proj2 (validate_message_exact m Hok) Hval). rewrite lift_bind_ok, get_bind.
  destruct (Z.ltb_spec (len out) (len (message_bytes m))); [done|]. rewrite guard_false by done.
  by erewrite io_bind_ok; [|apply writes_run; [by apply writes_message|lia]].
Qed.

(** ** The decoder on the format, its prefixes and its extensions *)
Definition is_short (e : BridgeError) : Prop := match e with InputTooShort _ _ => True | _ => False end.
Definition is_trailing (x : list Z) (e : BridgeError) : Prop := exists n, e = TrailingBytes (n + len x) n.
Abbreviation reads := (reads is_short).
Abbreviation decodes := (decodes is_short is_trailing).

Lemma bridge_reads_u64 z : u64_ok z -> reads read_u64 z (to_be_bytes 8 z).
Proof. intros H. by apply Cursor.reads_int. Qed.
Lemma bridge_reads_u16 z : 0 <= z < 65536 -> reads read_u16 z (to_be_bytes 2 z).
Proof. intros H. by apply Cursor.reads_int. Qed.

Lemma decode_author_kind_tags k n :
  author_len k = Some n ->
  exists a b, author_tags k = [a; b] /\ decode_author_kind a b = Ok k.
Proof.
  destruct k as [|net]; simpl; intros H.
  - by exists 0, 0.
  - exists 1, (wire_tag net). split; [done|]. by destruct net.
Qed.

Lemma decode_author_kind_inv a b k :
  decode_author_kind a b = Ok k -> author_tags k = [a; b].
Proof.
  unfold decode_author_kind. intros H. repeat case_match; simplify_eq/=.
  - apply negb_false_iff, Z.eqb_eq in H1. by subst.
  - destruct (from_wire_tag b) as [net|e|] eqn:Hn; [|done..]. cbn [map_err mbind outcome_bind] in H.
    apply from_wire_tag_inv in Hn as ->. case_match; by simplify_eq.
Qed.

Lemma decode_payload_kind_tag k : decode_payload_kind (payload_kind_tag k) = Ok k.
Proof. by destruct k. Qed.
Lemma decode_payload_kind_inv t k : decode_payload_kind t = Ok k -> t = payload_kind_tag k.
Proof. unfold decode_payload_kind. intros H. by repeat case_match; simplify_eq. Qed.

Lemma bridge_decodes_finish {A} (a : A) : decodes (_ ← finish; mret a) a [].
Proof.
  split_and!.
  - intros pre _. rewrite app_nil_r. erewrite io_bind_ok; [done|]. unfold finish. rewrite get_bind.
    by rewrite (proj2 (rcur_not_end pre []) eq_refl).
  - apply truncated_nil.
  - intros pre x Hx _. exists (TrailingBytes (len pre + len x) (len pre)), (rcur pre x). split; [|by eexists].
    change ([] ++ x) with x.
    erewrite io_bind_err; [done|]. unfold finish. rewrite get_bind, rcur_len, rcur_index.
    assert (0 < len x) by (destruct x; [done|rewrite len_cons; pose proof (len_nonneg x); lia]).
    destruct (Z.eqb_spec (len pre) (len pre + len x)); [lia|done].
Qed.

Lemma decodes_message m : message_ok m -> message_valid m -> decodes decode_message_body m (message_bytes m).
Proof.
  intros Hok Hval. pose proof (proj2 (validate_payload_ok _ _ (mo_payload m Hok)) (mv_text m Hval)) as Htext.
  destruct Hval as [Hv Hr Hi Ha Hp _], Hok as [_ [Hrl _] [Hml _] _ Hc _]. unfold timestamp_ok, u64_ok in Hc.
  pose proof (len_nonneg (bm_payload m)). unfold decode_message_body, message_bytes. rewrite Hv.
  destruct (decode_author_kind_tags _ _ Ha) as (a & b & -> & Hk). change ([a; b] ++ ?l) with ([a] ++ [b] ++ l).
  eapply decodes_bind; [by apply reads_u8|]. eapply decodes_lift; [done|].
  eapply decodes_bind; [by apply reads_array|]. eapply decodes_lift; [by rewrite bool_decide_eq_false_2|].
  eapply decodes_bind; [by apply reads_array|]. eapply decodes_lift; [by rewrite bool_decide_eq_false_2|].
  eapply decodes_bind; [by apply reads_u8|]. eapply decodes_bind; [by apply reads_u8|]. eapply decodes_bind; [by apply reads_u8|].
  eapply decodes_lift; [exact Hk|]. eapply decodes_lift; [by apply validate_author_id_len_ok|].
  eapply decodes_bind; [by apply reads_slice|].
  eapply decodes_bind; [by apply bridge_reads_u64|].
  eapply decodes_bind; [by apply reads_u8|].
  eapply decodes_lift; [apply decode_payload_kind_tag|].
  eapply decodes_bind; [apply bridge_reads_u16; lia|].
  eapply decodes_lift; [apply guard_err_ok; rewrite Z.gtb_ltb; by apply Z.ltb_ge|].
  eapply decodes_last; [by apply reads_slice|]. eapply decodes_lift; [exact Htext|].
  rewrite <- Hv. destruct m as [v r i [ak aid] c k p]. apply bridge_decodes_finish.
Qed.

Lemma message_usize m : message_ok m -> message_valid m -> len (message_bytes m) <= usize_MAX.
Proof. intros Hok Hval. pose proof (valid_len m Hok Hval). unfold usize_MAX. lia. Qed.

Lemma decode_message_bytes m : message_ok m -> message_valid m -> decode_bridge_message (message_bytes m) = Ok m.
Proof.
  intros Hok Hval. unfold decode_bridge_message. pose proof (valid_len m Hok Hval). rewrite Z.gtb_ltb.
  destruct (Z.ltb_spec HYF_BRIDGE_MESSAGE_MAX_LEN (len (message_bytes m))); [unfold HYF_BRIDGE_MESSAGE_MAX_LEN in *; lia|].
  eapply decodes_run; [by apply decodes_message|by apply message_usize].
Qed.

Lemma bridge_finish_inv pre rest c : finish (rcur pre rest) = (Ok tt, c) -> rest = [].
Proof.
  unfold finish. rewrite get_bind. intros H. apply (f_equal fst) in H. by apply guard_err_ok, rcur_not_end in H.
Qed.

Lemma decode_message_inv input m :
  bytes_ok input -> decode_bridge_message input = Ok m -> message_ok m /\ message_valid m /\ input = message_bytes m.
Proof.
  intros Hb H. unfold decode_bridge_message in H. apply guard_err_bind_ok in H as [_ H].
  apply run_reader_inv in H as [c H]. unfold decode_message_body in H.
  read_inv H. apply guard_inv in H as [Hv H]. read_inv H. apply guard_inv in H as [Hr H]. read_inv H.
  apply guard_inv in H as [Hi H]. do 3 read_inv H. apply lift_inv in H as (k & Hk & H). apply lift_inv in H as ([] & Ha & H).
  do 3 read_inv H. apply lift_inv in H as (pk & Hpk & H). read_inv H. apply guard_inv in H as [Hpl H]. read_inv H.
  apply lift_inv in H as ([] & Ht & H). apply io_bind_inv in H as ([] & c' & Hf & H).
  unfold mret, io_ret in H. simplify_eq. apply bridge_finish_inv in Hf. subst.
  repeat (apply bytes_ok_cons in Hb as [? Hb] || (rewrite bytes_ok_app in Hb; destruct Hb as [? Hb])).
  apply decode_author_kind_inv in Hk. apply decode_payload_kind_inv in Hpk as ->.
  apply negb_false_iff, Z.eqb_eq in Hv as ->. rewrite bool_decide_eq_false in Hr, Hi.
  rewrite Z.gtb_ltb, Z.ltb_ge in Hpl. apply validate_author_id_len_ok in Ha.
  split; [|split].
  - split; try done. simpl. unfold timestamp_ok, u64_ok. match goal with |- context [from_be_bytes ?u] =>
      pose proof (from_be_bytes_bound u); replace (len u) with 8 in * by done end. auto.
  - split; try done; cbn [bm_payload bm_payload_kind].
    + match goal with H : len x9 = _ |- _ => rewrite H end. exact Hpl.
    + by apply validate_payload_ok.
  - unfold message_bytes. cbn [bm_version bm_room_id bm_message_id bm_author author_kind author_id bm_created_at_ms bm_payload_kind bm_payload].
    match goal with H : len x9 = _ |- _ => rewrite H end. rewrite Hk, !to_from_be_bytes_n by done. by rewrite app_nil_r.
Qed.

#[export] Hint Extern 1 (safe _ (lift (decode_author_kind _ _)) _) =>
  eapply (safe_lift _ _ (fun _ => True)); [unfold decode_author_kind; repeat case_match; try done;
    apply outcome_bind_safe; [apply map_err_safe, from_wire_tag_safe|intros ? _; by case_match] | intros; exact I] : safe.
#[export] Hint Extern 1 (safe _ (lift (validate_author_id_len _ _)) _) =>
  eapply (safe_lift _ _ (fun _ => True)); [apply outcome_bind_safe;
    [unfold expected_author_id_len; by repeat case_match|intros ? _; apply guard_err_safe] | intros; exact I] : safe.
#[export] Hint Extern 1 (safe _ (lift (decode_payload_kind _)) _) =>
  eapply (safe_lift _ _ (fun _ => True)); [unfold decode_payload_kind; by repeat case_match | intros; exact I] : safe.
#[export] Hint Extern 1 (safe _ (lift (validate_payload _ _)) _) =>
  eapply (safe_lift _ _ (fun _ => True)); [apply guard_err_safe | intros; exact I] : safe.

Lemma bridge_finish_safe : safe rc_ok finish (fun _ => True).
Proof. intros c Hc. unfold finish. rewrite get_bind. by destruct (negb _). Qed.
#[export] Hint Resolve bridge_finish_safe : safe.

Lemma decode_message_safe input : bytes_ok input -> decode_bridge_message input <> Panic.
Proof.
  intros Hb. apply outcome_bind_safe; [apply guard_err_safe|intros _ _]. eapply run_reader_safe; [|done].
  unfold decode_message_body, read_u8, read_array, read_slice, read_u16, read_u64. repeat safe_step.
  instantiate (1 := fun _ => True). done.
Qed.

(** The bridge message codec is exact: decoding any bytes returns without a
    panic, and returns a message iff that message is valid (version 0, nonzero
    room and id, an author id of its network's length, a payload in bounds that
    is UTF-8 when it is text) and the bytes are its encoding. *)
Theorem bridge_decode_exact input m :
  bytes_ok input ->
  decode_bridge_message input <> Panic /\
  (decode_bridge_message input = Ok m <-> message_ok m /\ message_valid m /\ input = message_bytes m).
Proof.
  intros Hb. split; [by apply decode_message_safe|]. split; [by apply decode_message_inv|].
  intros (Hok & Hval & ->). by apply decode_message_bytes.
Qed.

(** The bridge message encoder on every branch: a message that is not valid
    gives the error of its validation and a buffer that is too short the exact
    length it needs, both leaving the buffer alone; otherwise the encoding is
    written at the front of the buffer, and decodes to the message.  The
    encoder's own size limit is never reached. *)
Theorem bridge_encode_exact m out :
  message_ok m ->
  match validate_bridge_message_ref m with
  | Ok _ =>
      message_valid m /\ len (message_bytes m) <= 1119 /\
      (if len out <? len (message_bytes m)
       then encode_bridge_message m out = (Err (OutputTooSmall (len out) (len (message_bytes m))), out)
       else encode_bridge_message m out =
              (Ok (len (message_bytes m)), message_bytes m ++ drop (length (message_bytes m)) out) /\
            decode_bridge_message (take (length (message_bytes m)) (snd (encode_bridge_message m out))) = Ok m)
  | Err e => ~ message_valid m /\ encode_bridge_message m out = (Err e, out)
  | Panic => False
  end.
Proof.
  intros Hok. pose proof (validate_message_safe m) as Hs. pose proof (validate_message_exact m Hok) as Hx.
  destruct (validate_bridge_message_ref m) as [[]|e|] eqn:Hv; [| |done].
  - assert (message_valid m) as Hval by (by apply Hx). split; [done|]. split; [by apply valid_len|].
    rewrite encode_message_valid by done. destruct (len out <? len (message_bytes m)); [done|]. split; [done|].
    cbn [snd]. rewrite take_app_length. by apply decode_message_bytes.
  - split; [by intros Hval%Hx|]. unfold encode_bridge_message. rewrite bridge_encoded_len_spec by done. by rewrite Hv.
Qed.

(** Framing errors of bridge messages: a message cut at any byte is
    reported as too short; bytes after its end are reported as trailing, or as
    a message that is too large. *)
Theorem bridge_framing_errors m u w x :
  message_ok m -> message_valid m -> message_bytes m = u ++ w -> w <> [] ->
  x <> [] -> len (message_bytes m ++ x) <= usize_MAX ->
  (exists a b, decode_bridge_message u = Err (InputTooShort a b)) /\
  (exists n, decode_bridge_message (message_bytes m ++ x) =
     (if len (message_bytes m ++ x) >? HYF_BRIDGE_MESSAGE_MAX_LEN
      then Err (MessageTooLarge (len (message_bytes m ++ x)) HYF_BRIDGE_MESSAGE_MAX_LEN)
      else Err (TrailingBytes (n + len x) n))).
Proof.
  intros Hok Hval Hu Hw Hx Hmax. pose proof (decodes_message m Hok Hval) as Hd. unfold decode_bridge_message. split.
  - destruct (decodes_run_prefix _ _ _ _ _ u w Hd Hu Hw (message_usize m Hok Hval)) as (e & He & Hs).
    pose proof (valid_len m Hok Hval) as Hl. rewrite Hu, len_app in Hl. pose proof (len_nonneg w). rewrite Z.gtb_ltb.
    destruct (Z.ltb_spec HYF_BRIDGE_MESSAGE_MAX_LEN (len u)); [unfold HYF_BRIDGE_MESSAGE_MAX_LEN in *; lia|].
    cbn [guard_err mbind outcome_bind]. rewrite He. destruct e; try done. eauto.
  - destruct (decodes_run_extra _ _ _ _ _ x Hd Hx Hmax) as (e & He & n & ->). exists n.
    case_match; [done|]. cbn [guard_err mbind outcome_bind]. by rewrite He.
Qed.

(** ** Envelopes: the instance of [Carrier] *)
Definition wrap_params_ok (p : BridgeWrapParams) : Prop :=
  node_id_ok (wp_source_node p) /\ timestamp_ok (wp_created_at_ms p) /\ timestamp_ok (wp_expires_at_ms p) /\
  u8_ok (wp_hop_limit p).
Definition lifetime (p : BridgeWrapParams) : Z * Z := (wp_created_at_ms p, wp_expires_at_ms p).

Definition bridge_carrier : carrier BridgeError BridgeMessageRef BridgeWrapParams :=
  mk_carrier validate_bridge_message HyfBridgeMessageV0 HyfWire WrongPayloadKind
    (fun params raw message => Ok (mk_envelope HYF_WIRE_VERSION_0 (bm_message_id message) (wp_source_node params)
       (Community (bm_room_id message)) (wp_created_at_ms params) (wp_expires_at_ms params) (wp_hop_limit params)
       HyfBridgeMessageV0 raw))
    (fun envelope message =>
       _ ← guard_err (negb (bool_decide (message_id envelope = bm_message_id message))) EnvelopeMessageIdMismatch;
       guard_err (negb (bool_decide (destination envelope = Community (bm_room_id message)))) EnvelopeRoomMismatch).

Lemma bridge_wrap_is_carrier raw params : wrap_bridge_message raw params = carrier_wrap bridge_carrier raw params.
Proof. done. Qed.
Lemma bridge_unwrap_is_carrier e : unwrap_bridge_message e = carrier_unwrap bridge_carrier e.
Proof.
  unfold unwrap_bridge_message, carrier_unwrap. cbn [bridge_carrier c_validate c_kind c_wire_error c_wrong_kind c_check].
  destruct (map_err HyfWire (validate_envelope e)); [|done..]. cbn [mbind outcome_bind].
  destruct (negb (bool_decide (payload_kind e = HyfBridgeMessageV0))); [done|]. cbn [guard_err mbind outcome_bind].
  destruct (validate_bridge_message (payload e)) as [m| |]; [|done..]. cbn [mbind outcome_bind].
  by destruct (negb (bool_decide (message_id e = bm_message_id m))).
Qed.

Lemma bridge_carrier_laws : carrier_laws bridge_carrier wrap_params_ok lifetime.
Proof.
  split.
  - exact decode_message_safe.
  - intros raw m Hb H. apply guard_err_bind_ok in H as [H _]. rewrite Z.gtb_ltb, Z.ltb_ge in H.
    unfold HYF_BRIDGE_MESSAGE_MAX_LEN in H. lia.
  - intros e m. apply outcome_bind_safe; [apply guard_err_safe|intros; apply guard_err_safe].
  - intros params raw m (? & ? & ? & ?) Hb Hv. eexists. split; [done|].
    apply decode_message_inv in Hv as (Hok & _ & _); [|done].
    split; [|split_and!; try done; cbn; by rewrite !bool_decide_eq_true_2].
    split; simpl; try done; apply Hok.
Qed.

(** Bridge messages in envelopes: wrapping succeeds exactly on valid
    messages with a positive lifetime; the envelope carries the message's own
    id, is addressed to its room, goes through the envelope codec and unwraps
    to the message; and unwrapping accepts only envelopes whose id and
    destination are those of the message inside, so that an envelope cannot
    relabel a message.  Nothing panics. *)
Theorem bridge_wrap_exact raw params e out :
  bytes_ok raw -> wrap_params_ok params -> envelope_ok e ->
  wrap_bridge_message raw params <> Panic /\ unwrap_bridge_message e <> Panic /\
  (is_ok (wrap_bridge_message raw params) = true <->
     is_ok (decode_bridge_message raw) = true /\ wp_created_at_ms params < wp_expires_at_ms params) /\
  (wrap_bridge_message raw params = Ok e -> len (envelope_bytes e) <= len out ->
     unwrap_bridge_message e = Ok raw /\
     exists n out', encode_envelope e out = (Ok n, out') /\ decode_envelope (take (Z.to_nat n) out') = Ok e) /\
  (forall p, unwrap_bridge_message e = Ok p ->
     p = payload e /\ payload_kind e = HyfBridgeMessageV0 /\
     exists m, decode_bridge_message p = Ok m /\ message_id e = bm_message_id m /\
       destination e = Community (bm_room_id m)).
Proof.
  intros Hb Hp He. rewrite bridge_wrap_is_carrier, bridge_unwrap_is_carrier.
  destruct (lawful_carries _ _ _ bridge_carrier_laws) as [Hs1 Hs2 Hw Hr Hu]. split_and!; [by apply Hs1|by apply Hs2| | |].
  - by rewrite Hw.
  - intros H Hl. destruct (Hr raw params e out Hb Hp H Hl) as (_ & H1 & H2). done.
  - intros p H. destruct (Hu e p H) as (-> & Hk & _ & m & Hm & Hc). split_and!; [done..|]. exists m. split; [done|].
    cbn in Hc. apply guard_err_bind_ok in Hc as [H1 H2]. apply guard_err_ok in H2.
    rewrite negb_false_iff, bool_decide_eq_true in H1, H2. done.
Qed.

(** ** Witnesses *)
Definition sample_message : BridgeMessageRef :=
  mk_message 0 (replicate 16 5) (replicate 32 6) (mk_author (BridgeForeign BitChat) (replicate 8 7)) 1700000000123
    TextUtf8 [104; 0xC3; 0xA9; 0xE2; 0x82; 0xAC; 0xF0; 0x9F; 0x98; 0x80].
Definition sample_params : BridgeWrapParams := mk_wrap_params (replicate 32 2) 1000 5000 3.
Definition sample_envelope : HyfEnvelopeRef :=
  mk_envelope 0 (replicate 32 6) (replicate 32 2) (Community (replicate 16 5)) 1000 5000 3 HyfBridgeMessageV0
    (message_bytes sample_message).

Lemma sample_message_ok : message_ok sample_message.
Proof.
  split; try (vm_compute; done); try (split; [vm_compute; done|]); apply (bool_decide_unpack _); vm_compute; exact I.
Defined.
Lemma sample_message_valid : message_valid sample_message.
Proof.
  apply validate_message_exact; [exact sample_message_ok|vm_compute; reflexivity].
Defined.
Lemma sample_bytes_ok : bytes_ok (message_bytes sample_message).
Proof. apply (bool_decide_unpack _); vm_compute; exact I. Defined.

Lemma bridge_decode_exact_witness : decode_bridge_message (message_bytes sample_message) = Ok sample_message.
Proof.
  apply (proj2 (proj2 (bridge_decode_exact (message_bytes sample_message) sample_message sample_bytes_ok))).
  split; [exact sample_message_ok|split; [exact sample_message_valid|reflexivity]].
Defined.

Lemma bridge_encode_exact_witness :
  decode_bridge_message (take 81 (snd (encode_bridge_message sample_message (zeros 100)))) = Ok sample_message.
Proof.
  pose proof (bridge_encode_exact sample_message (zeros 100) sample_message_ok) as H.
  assert (validate_bridge_message_ref sample_message = Ok tt) as Hv by (vm_compute; reflexivity). rewrite Hv in H.
  assert ((len (zeros 100) <? len (message_bytes sample_message)) = false) as Hl by (vm_compute; reflexivity).
  rewrite Hl in H. destruct H as (_ & _ & _ & H). exact H.
Defined.

Lemma bridge_framing_errors_witness :
  exists a b, decode_bridge_message (take 60 (message_bytes sample_message)) = Err (InputTooShort a b).
Proof.
  apply (bridge_framing_errors sample_message (take 60 (message_bytes sample_message))
    (drop 60 (message_bytes sample_message)) [1] sample_message_ok sample_message_valid); try done; vm_compute; done.
Defined.

Lemma bridge_wrap_exact_witness : unwrap_bridge_message sample_envelope = Ok (message_bytes sample_message).
Proof.
  assert (wrap_params_ok sample_params) as Hp.
  { repeat split; try reflexivity; try (vm_compute; discriminate); apply (bool_decide_unpack _); vm_compute; exact I. }
  assert (envelope_ok sample_envelope) as He.
  { split; try (vm_compute; done); try (split; [vm_compute; done|]); apply (bool_decide_unpack _); vm_compute; exact I. }
  destruct (bridge_wrap_exact (message_bytes sample_message) sample_params sample_envelope (zeros 400)
    sample_bytes_ok Hp He) as (_ & _ & _ & H & _).
  apply H; vm_compute; done.
Defined.
