(* ===== verification/Msgpack.v ===== *)
(** [hyf_lxmf_core::msgpack]: the MessagePack cursor
    (src/crates/hyf_lxmf_core/src/msgpack.rs, error.rs, constants.rs).

    The cursor reads the few types a payload needs and skips any other value,
    nested up to a depth.  [value n v] is the grammar of MessagePack: [v] is the
    encoding of one value nested at most [n] deep.  The main lemma,
    [skip_value_exact], says that skipping a value consumes exactly an encoding
    of that grammar. *)
From S2P Require Import Prelude Cursor.

(** ** Constants and errors *)
Definition LXMF_DESTINATION_HASH_LEN : Z := 16.
Definition LXMF_SOURCE_HASH_LEN : Z := 16.
Definition LXMF_SIGNATURE_LEN : Z := 64.
Definition LXMF_MESSAGE_ID_LEN : Z := 32.
Definition LXMF_FIXED_HEADER_LEN : Z := LXMF_DESTINATION_HASH_LEN + LXMF_SOURCE_HASH_LEN + LXMF_SIGNATURE_LEN.
Definition LXMF_MESSAGE_MAX_LEN : Z := 4096.
Definition LXMF_PAYLOAD_MAX_LEN : Z := LXMF_MESSAGE_MAX_LEN - LXMF_FIXED_HEADER_LEN.
Definition LXMF_MSGPACK_MAX_DEPTH : Z := 16.
Definition LXMF_TITLE_MAX_LEN : Z := 2048.
Definition LXMF_CONTENT_MAX_LEN : Z := 2048.
Definition LXMF_FIELDS_MAX_LEN : Z := 1024.
Definition LXMF_STAMP_MAX_LEN : Z := 128.

Inductive LxmfError :=
| MessageTooShort (actual minimum : Z)
| MessageTooLarge (actual maximum : Z)
| PayloadTooLarge (actual maximum : Z)
| InvalidPayloadArrayLen (actual : Z)
| UnsupportedMsgpackType (marker : Z)
| MsgpackTruncated
| MsgpackTrailingBytes
| MsgpackDepthExceeded (maximum : Z)
| InvalidTimestamp
| TitleTooLarge (actual maximum : Z)
| ContentTooLarge (actual maximum : Z)
| FieldsTooLarge (actual maximum : Z)
| StampTooLarge (actual maximum : Z)
| OutputTooSmall (needed available : Z).

Definition MARKER_NIL : Z := 0xc0.
Definition MARKER_FALSE : Z := 0xc2.
Definition MARKER_TRUE : Z := 0xc3.
Definition MARKER_FLOAT64 : Z := 0xcb.
Definition MARKER_ARRAY16 : Z := 0xdc.
Definition MARKER_ARRAY32 : Z := 0xdd.
Definition MARKER_MAP16 : Z := 0xde.
Definition MARKER_MAP32 : Z := 0xdf.

(** ** The cursor *)
Definition read_overflow (_ : read_cursor) (n : Z) : LxmfError := PayloadTooLarge n LXMF_PAYLOAD_MAX_LEN.
Definition read_short (_ : read_cursor) (_ : Z) : LxmfError := MsgpackTruncated.
Definition read_slice := Cursor.read_slice read_overflow read_short.
Definition read_u8 := Cursor.read_u8 read_overflow read_short.
Definition read_u16 := Cursor.read_be read_overflow read_short 2.
Definition read_u32 := Cursor.read_be read_overflow read_short 4.
Definition read_u64 := Cursor.read_be read_overflow read_short 8.
Definition read_u32_as_usize : io read_cursor LxmfError Z :=
  value ← read_u32;
  if value >? usize_MAX then lift (Err (PayloadTooLarge usize_MAX LXMF_PAYLOAD_MAX_LEN)) else mret value.

Definition peek_u8 : io read_cursor LxmfError Z :=
  c ← get; lift (ok_or (rc_input c !! Z.to_nat (rc_index c)) MsgpackTruncated).

Definition finish : io read_cursor LxmfError unit :=
  c ← get;
  if rc_index c =? len (rc_input c) then mret tt else lift (Err MsgpackTrailingBytes).

Definition read_array_len : io read_cursor LxmfError Z :=
  marker ← read_u8;
  if in_range 0x90 0x9f marker then mret (Z.land marker 0x0f)
  else if marker =? MARKER_ARRAY16 then read_u16
  else if marker =? MARKER_ARRAY32 then read_u32_as_usize
  else lift (Err (UnsupportedMsgpackType marker)).

(** A float is its 64 bits: [f64::from_bits] and [f64::to_bits] keep them. *)
Definition read_float64 : io read_cursor LxmfError Z :=
  marker ← read_u8;
  _ ← lift (guard_err (negb (marker =? MARKER_FLOAT64)) (UnsupportedMsgpackType marker));
  read_u64.

Definition read_bin_or_str_bytes : io read_cursor LxmfError (list Z) :=
  marker ← read_u8;
  n ← (if in_range 0xa0 0xbf marker then mret (Z.land marker 0x1f)
       else match marker with
       | 0xc4 | 0xd9 => read_u8
       | 0xc5 | 0xda => read_u16
       | 0xc6 | 0xdb => read_u32_as_usize
       | _ => lift (Err (UnsupportedMsgpackType marker))
       end);
  read_slice n.

Definition skip_len (n : Z) : io read_cursor LxmfError unit := _ ← read_slice n; mret tt.
Definition skip_ext (n : Z) : io read_cursor LxmfError unit := _ ← skip_len 1; skip_len n.
Definition skip_array (skip_value : io read_cursor LxmfError unit) (n : Z) : io read_cursor LxmfError unit :=
  for_range n skip_value.
Definition skip_map (skip_value : io read_cursor LxmfError unit) (n : Z) : io read_cursor LxmfError unit :=
  for_range n (_ ← skip_value; skip_value).

(** [skip_value] after the marker; [skip] skips one value a level deeper. *)
Definition skip_marker (skip : io read_cursor LxmfError unit) (marker : Z) : io read_cursor LxmfError unit :=
  if in_range 0x00 0x7f marker || in_range 0xe0 0xff marker
     || (marker =? MARKER_NIL) || (marker =? MARKER_FALSE) || (marker =? MARKER_TRUE) then mret tt
  else if in_range 0x80 0x8f marker then skip_map skip (Z.land marker 0x0f)
  else if in_range 0x90 0x9f marker then skip_array skip (Z.land marker 0x0f)
  else if in_range 0xa0 0xbf marker then skip_len (Z.land marker 0x1f)
  else match marker with
  | 0xc4 | 0xd9 => n ← read_u8; skip_len n
  | 0xc5 | 0xda => n ← read_u16; skip_len n
  | 0xc6 | 0xdb => n ← read_u32_as_usize; skip_len n
  | 0xc7 => n ← read_u8; skip_ext n
  | 0xc8 => n ← read_u16; skip_ext n
  | 0xc9 => n ← read_u32_as_usize; skip_ext n
  | 0xca | 0xce | 0xd2 => skip_len 4
  | 0xcb | 0xcf | 0xd3 => skip_len 8
  | 0xcc | 0xd0 => skip_len 1
  | 0xcd | 0xd1 => skip_len 2
  | 0xd4 => skip_ext 1
  | 0xd5 => skip_ext 2
  | 0xd6 => skip_ext 4
  | 0xd7 => skip_ext 8
  | 0xd8 => skip_ext 16
  | 0xdc => n ← read_u16; skip_array skip n
  | 0xdd => n ← read_u32_as_usize; skip_array skip n
  | 0xde => n ← read_u16; skip_map skip n
  | 0xdf => n ← read_u32_as_usize; skip_map skip n
  | _ => lift (Err (UnsupportedMsgpackType marker))
  end.

(** [self.skip_value(depth)]; [levels] is the number of levels that are still
    allowed, [LXMF_MSGPACK_MAX_DEPTH + 1 - depth], so that the recursion is
    structural and [depth > LXMF_MSGPACK_MAX_DEPTH] is the case [O]. *)
Fixpoint skip_value (levels : nat) : io read_cursor LxmfError unit :=
  match levels with
  | O => lift (Err (MsgpackDepthExceeded LXMF_MSGPACK_MAX_DEPTH))
  | S levels => marker ← read_u8; skip_marker (skip_value levels) marker
  end.

(** [self.skip_value(1)] *)
Definition skip_top : io read_cursor LxmfError unit := skip_value (Z.to_nat LXMF_MSGPACK_MAX_DEPTH).

Definition is_map_marker (marker : Z) : bool :=
  in_range 0x80 0x8f marker || (marker =? MARKER_MAP16) || (marker =? MARKER_MAP32).

Definition read_raw_value : io read_cursor LxmfError (list Z) :=
  c ← get;
  _ ← skip_top;
  c' ← get;
  lift (slice (rc_input c') (rc_index c) (rc_index c')).

Definition read_raw_map : io read_cursor LxmfError (list Z) :=
  c ← get;
  marker ← peek_u8;
  _ ← lift (guard_err (negb (is_map_marker marker)) (UnsupportedMsgpackType marker));
  _ ← skip_top;
  c' ← get;
  lift (slice (rc_input c') (rc_index c) (rc_index c')).

(** ** The grammar
    The layout of what follows a marker: a number of bytes; a length of [h]
    bytes, then as many bytes as it says and [extra]; a count of [h] bytes, then
    [per] values for each of [k] plus as many entries as it says. *)
Inductive layout :=
| Bytes (k : Z)
| Sized (h : nat) (extra : Z)
| Items (h : nat) (k per : Z)
| Reserved.

Definition layout_of (marker : Z) : layout :=
  if in_range 0x00 0x7f marker || in_range 0xe0 0xff marker
     || (marker =? MARKER_NIL) || (marker =? MARKER_FALSE) || (marker =? MARKER_TRUE) then Bytes 0
  else if in_range 0x80 0x8f marker then Items 0 (Z.land marker 0x0f) 2
  else if in_range 0x90 0x9f marker then Items 0 (Z.land marker 0x0f) 1
  else if in_range 0xa0 0xbf marker then Bytes (Z.land marker 0x1f)
  else match marker with
  | 0xc4 | 0xd9 => Sized 1 0
  | 0xc5 | 0xda => Sized 2 0
  | 0xc6 | 0xdb => Sized 4 0
  | 0xc7 => Sized 1 1
  | 0xc8 => Sized 2 1
  | 0xc9 => Sized 4 1
  | 0xca | 0xce | 0xd2 => Bytes 4
  | 0xcb | 0xcf | 0xd3 => Bytes 8
  | 0xcc | 0xd0 => Bytes 1
  | 0xcd | 0xd1 => Bytes 2
  | 0xd4 => Bytes 2
  | 0xd5 => Bytes 3
  | 0xd6 => Bytes 5
  | 0xd7 => Bytes 9
  | 0xd8 => Bytes 17
  | 0xdc => Items 2 0 1
  | 0xdd => Items 4 0 1
  | 0xde => Items 2 0 2
  | 0xdf => Items 4 0 2
  | _ => Reserved
  end.

(** What fits a layout, when [R] is what the entries are. *)
Definition fits (R : list Z -> Prop) (l : layout) (body : list Z) : Prop :=
  match l with
  | Bytes k => len body = k
  | Sized h extra => exists hd d, body = hd ++ d /\ len hd = Z.of_nat h /\ len d = from_be_bytes hd + extra
  | Items h k per => exists hd vs, body = hd ++ concat vs /\ len hd = Z.of_nat h /\
      len vs = per * (k + from_be_bytes hd) /\ Forall R vs
  | Reserved => False
  end.

(** The encodings of one value nested at most [n] deep. *)
Fixpoint value (n : nat) (v : list Z) : Prop :=
  match n with
  | O => False
  | S n => exists marker body, v = marker :: body /\ fits (value n) (layout_of marker) body
  end.

(** ** Lemmas *)
Definition is_truncated (e : LxmfError) : Prop := e = MsgpackTruncated.
Abbreviation reads := (reads is_truncated).

(** [m] consumes exactly the byte strings in [R]. *)
Record consumes (m : io read_cursor LxmfError unit) (R : list Z -> Prop) : Prop := {
  co_sound : forall pre rest c, bytes_ok rest -> m (rcur pre rest) = (Ok tt, c) ->
    exists v rest', rest = v ++ rest' /\ R v /\ c = rcur (pre ++ v) rest';
  co_complete : forall v, bytes_ok v -> R v -> reads m tt v;
}.

Lemma consumes_iff m R R' : (forall v, bytes_ok v -> R v <-> R' v) -> consumes m R -> consumes m R'.
Proof.
  intros H [Hs Hc]. split; [|intros v Hb Hv; by apply Hc, H].
  intros pre rest c Hb Hm. destruct (Hs pre rest c Hb Hm) as (v & rest' & -> & Hv & ->).
  exists v, rest'. split_and!; [done| |done]. apply H; [by apply bytes_ok_app in Hb as [? _]|done].
Qed.

Lemma consumes_ret : consumes (mret tt) (fun v => len v = 0).
Proof.
  split.
  - intros pre rest c _ H. unfold mret, io_ret in H. simplify_eq. exists [], rest. by rewrite app_nil_r.
  - intros v _ ->%len_0_nil. apply reads_ret.
Qed.

Lemma consumes_fail e : consumes (lift (Err e)) (fun _ => False).
Proof. by split. Qed.

Lemma consumes_len k : consumes (skip_len k) (fun v => len v = k).
Proof.
  split.
  - intros pre rest c _ H. apply io_bind_inv in H as (s & c1 & H1 & H2).
    apply read_slice_inv in H1 as (r & -> & Hl & ->). unfold mret, io_ret in H2. simplify_eq. by exists s, r.
  - intros v _ Hv. eapply reads_last; [by apply reads_slice|]. apply reads_ret.
Qed.

Lemma consumes_seq m1 m2 R1 R2 :
  consumes m1 R1 -> consumes m2 R2 ->
  consumes (_ ← m1; m2) (fun v => exists v1 v2, v = v1 ++ v2 /\ R1 v1 /\ R2 v2).
Proof.
  intros [Hs1 Hc1] [Hs2 Hc2]. split.
  - intros pre rest c Hb H. apply io_bind_inv in H as ([] & c1 & H1 & H2).
    destruct (Hs1 _ _ _ Hb H1) as (v1 & r1 & -> & Hv1 & ->). apply bytes_ok_app in Hb as [_ Hb].
    destruct (Hs2 _ _ _ Hb H2) as (v2 & r2 & -> & Hv2 & ->). exists (v1 ++ v2), r2. rewrite <- !app_assoc. eauto 8.
  - intros v Hb (v1 & v2 & -> & H1 & H2). apply bytes_ok_app in Hb as [Hb1 Hb2]. eapply reads_bind; auto.
Qed.

Lemma consumes_ext k : 0 <= k -> consumes (skip_ext k) (fun v => len v = k + 1).
Proof.
  intros Hk. eapply consumes_iff; [|apply consumes_seq; apply consumes_len]. intros v _. simpl. split.
  - intros (v1 & v2 & -> & H1 & H2). rewrite len_app. lia.
  - intros Hv. destruct (cut v 1) as (a & b & -> & Ha & Hb); [lia|]. rewrite len_app in Hb, Hv. exists a, b. split_and!; [done|done|lia].
Qed.

Lemma consumes_range m R n :
  0 <= n -> consumes m R ->
  consumes (for_range n m) (fun v => exists vs, v = concat vs /\ len vs = n /\ Forall R vs).
Proof.
  intros Hn Hm.
  assert (consumes (iterate m (Z.to_nat n)) (fun v => exists vs, v = concat vs /\ len vs = Z.of_nat (Z.to_nat n) /\ Forall R vs)) as H.
  { clear Hn. induction (Z.to_nat n) as [|k IH].
    - eapply consumes_iff; [|apply consumes_ret]. intros v _. simpl. split.
      + intros ->%len_0_nil. by exists [].
      + by intros (vs & -> & ->%len_0_nil & _).
    - cbn [iterate]. eapply consumes_iff; [|apply consumes_seq; [exact Hm|exact IH]]. intros v _. simpl. split.
      + intros (v1 & v2 & -> & H1 & vs & -> & Hl & Hvs). exists (v1 :: vs). rewrite len_cons, Hl.
        split_and!; [done|lia|by apply list.Forall_cons].
      + intros (vs & -> & Hl & Hvs). destruct vs as [|w vs]; [rewrite len_nil in Hl; lia|].
        rewrite len_cons in Hl. apply list.Forall_cons in Hvs as [Hw Hvs]. exists w, (concat vs).
        split_and!; [done|done|]. exists vs. split_and!; [done|lia|done]. }
  rewrite Z2Nat.id in H by done. destruct H as [Hs Hc]. split.
  - intros pre rest c Hb. rewrite for_range_iterate. by apply Hs.
  - intros v Hb Hv. destruct (Hc v Hb Hv) as [H1 H2]. split.
    + intros pre r Hmax. rewrite for_range_iterate. by apply H1.
    + intros pre u w E Hw Hmax. rewrite for_range_iterate. by apply (H2 pre u w).
Qed.

(** A length or count of [h] bytes. *)
Record header (h : nat) (m : io read_cursor LxmfError Z) : Prop := {
  he_sound : forall pre rest k c, bytes_ok rest -> m (rcur pre rest) = (Ok k, c) ->
    exists hd rest', rest = hd ++ rest' /\ len hd = Z.of_nat h /\ k = from_be_bytes hd /\ c = rcur (pre ++ hd) rest';
  he_complete : forall hd, bytes_ok hd -> len hd = Z.of_nat h -> reads m (from_be_bytes hd) hd;
}.

Lemma header_be n h : n = Z.of_nat h -> header h (Cursor.read_be read_overflow read_short n).
Proof.
  intros ->. split.
  - intros pre rest k c _ H. apply read_be_inv in H as (v & r & -> & Hl & -> & ->). by exists v, r.
  - intros hd _ Hl. by apply reads_be.
Qed.

Lemma header_u8 : header 1 read_u8.
Proof.
  split.
  - intros pre rest k c Hb H. apply read_u8_inv in H as (r & -> & ->). exists [k], r.
    split_and!; [done..| |done]. unfold from_be_bytes. simpl. lia.
  - intros hd Hb Hl. unfold len in Hl. destruct hd as [|b [|]]; simpl in Hl; [lia| |lia].
    replace (from_be_bytes [b]) with b by (unfold from_be_bytes; simpl; lia). by apply reads_u8.
Qed.

Lemma header_u32 : header 4 read_u32_as_usize.
Proof.
  assert (header 4 read_u32) as [Hs Hc] by (by apply header_be). split.
  - intros pre rest k c Hb H. apply io_bind_inv in H as (v & c1 & H1 & H2). apply Hs in H1; [|done].
    case_match; [done|]. unfold mret, io_ret in H2. by simplify_eq.
  - intros hd Hb Hl. eapply reads_last; [by apply Hc|]. pose proof (from_be_bytes_bound hd Hb) as Hbd. rewrite Hl in Hbd.
    rewrite Z.gtb_ltb. destruct (Z.ltb_spec usize_MAX (from_be_bytes hd)); [unfold usize_MAX in *; simpl in Hbd; lia|].
    apply reads_ret.
Qed.

Lemma consumes_header h m f R :
  header h m -> (forall k, 0 <= k -> consumes (f k) (R k)) ->
  consumes (k ← m; f k) (fun v => exists hd d, v = hd ++ d /\ len hd = Z.of_nat h /\ R (from_be_bytes hd) d).
Proof.
  intros [Hs Hc] Hf. split.
  - intros pre rest c Hb H. apply io_bind_inv in H as (k & c1 & H1 & H2).
    destruct (Hs _ _ _ _ Hb H1) as (hd & r & -> & Hl & -> & ->). apply bytes_ok_app in Hb as [Hb1 Hb2].
    destruct (Hf _ (proj1 (from_be_bytes_bound hd Hb1))) as [Hfs _].
    destruct (Hfs _ _ _ Hb2 H2) as (d & r2 & -> & Hd & ->). exists (hd ++ d), r2. rewrite <- !app_assoc. eauto 8.
  - intros v Hb (hd & d & -> & Hl & Hd). apply bytes_ok_app in Hb as [Hb1 Hb2].
    eapply reads_bind; [by apply Hc|]. apply Hf; [apply (from_be_bytes_bound hd Hb1)|done|done].
Qed.

(** *** The body of a value, by its marker *)
Section body.
Context (skip : io read_cursor LxmfError unit) (R : list Z -> Prop) (HR : consumes skip R).

Lemma consumes_items per k :
  0 <= k -> per = 1 \/ per = 2 ->
  consumes (if per =? 1 then skip_array skip k else skip_map skip k)
    (fun v => exists vs, v = concat vs /\ len vs = per * k /\ Forall R vs).
Proof.
  intros Hk [-> | ->]; simpl.
  - eapply consumes_iff; [|by apply consumes_range]. intros v _. simpl. by setoid_rewrite Z.mul_1_l.
  - eapply consumes_iff; [|apply consumes_range; [exact Hk|apply consumes_seq; exact HR]]. intros v _. simpl. split.
    + intros (vs & -> & <- & Hvs). clear Hk. induction Hvs as [|w vs (v1 & v2 & -> & H1 & H2) Hvs (us & E & Hl & Hus)].
      * by exists [].
      * exists (v1 :: v2 :: us). rewrite !len_cons in *. cbn [concat]. rewrite E, <- app_assoc.
        split_and!; [reflexivity|lia|by rewrite !list.Forall_cons].
    + intros (vs & -> & Hl & Hvs). remember (Z.to_nat k) as j eqn:Hj. revert k Hk vs Hl Hvs Hj.
      induction j as [|j IH]; intros k Hk vs Hl Hvs Hj.
      * replace k with 0 in * by lia. apply len_0_nil in Hl as ->. by exists [].
      * destruct vs as [|v1 [|v2 vs]]; [rewrite len_nil in Hl; lia|rewrite len_cons, len_nil in Hl; lia|].
        rewrite !len_cons in Hl. rewrite !list.Forall_cons in Hvs. destruct Hvs as (H1 & H2 & Hvs).
        destruct (IH (k - 1) ltac:(lia) vs ltac:(lia) Hvs ltac:(lia)) as (ws & E & Hws & Fws).
        exists ((v1 ++ v2) :: ws). rewrite len_cons. split_and!; [|lia|rewrite list.Forall_cons; split; [by exists v1, v2|done]].
        cbn [concat]. by rewrite E, <- app_assoc.
Qed.

Lemma consumes_items_header h m per :
  header h m -> per = 1 \/ per = 2 ->
  consumes (k ← m; if per =? 1 then skip_array skip k else skip_map skip k) (fits R (Items h 0 per)).
Proof.
  intros Hm Hper. eapply consumes_iff; [|apply (consumes_header h m _ _ Hm (fun k Hk => consumes_items per k Hk Hper))].
  intros v _. simpl. split.
  - intros (hd & d & -> & Hl & vs & -> & Hvs & F). by exists hd, vs.
  - intros (hd & vs & -> & Hl & Hvs & F). exists hd, (concat vs). eauto 8.
Qed.

Lemma consumes_items_fixed k per :
  0 <= k -> per = 1 \/ per = 2 ->
  consumes (if per =? 1 then skip_array skip k else skip_map skip k) (fits R (Items 0 k per)).
Proof.
  intros Hk Hper. eapply consumes_iff; [|by apply consumes_items]. intros v _. simpl. split.
  - intros (vs & -> & Hvs & F). exists [], vs. split_and!; [done|done| |done]. change (from_be_bytes []) with 0. lia.
  - intros (hd & vs & -> & ->%len_0_nil & Hvs & F). exists vs. split_and!; [done| |done].
    change (from_be_bytes []) with 0 in Hvs. lia.
Qed.

Lemma consumes_sized h m extra :
  header h m -> extra = 0 \/ extra = 1 ->
  consumes (k ← m; if extra =? 0 then skip_len k else skip_ext k) (fits R (Sized h extra)).
Proof.
  intros Hm Hx. eapply consumes_iff; [|apply (consumes_header h m _ (fun k v => len v = k + extra) Hm)].
  - intros v _. simpl. split; intros (hd & d & -> & ? & ?); eauto.
  - intros k Hk. destruct Hx as [-> | ->]; simpl; [rewrite Z.add_0_r; apply consumes_len|by apply consumes_ext].
Qed.

Lemma land_mask_nonneg a b : 0 <= b -> 0 <= Z.land a b.
Proof. intros H. rewrite Z.land_nonneg. by right. Qed.

(** Each marker skips what its layout says. *)
Lemma consumes_marker marker : u8_ok marker -> consumes (skip_marker skip marker) (fits R (layout_of marker)).
Proof.
  intros Hm. unfold skip_marker, layout_of. destruct (_ || _); [apply consumes_ret|].
  destruct (in_range 0x80 0x8f marker) eqn:E1; [apply (consumes_items_fixed _ 2); [by apply land_mask_nonneg|by right]|].
  destruct (in_range 0x90 0x9f marker) eqn:E2; [apply (consumes_items_fixed _ 1); [by apply land_mask_nonneg|by left]|].
  destruct (in_range 0xa0 0xbf marker) eqn:E3; [apply consumes_len|]. clear Hm E1 E2 E3.
  assert (header 2 read_u16) as H2 by (by apply header_be). pose proof header_u8. pose proof header_u32.
  repeat match goal with
    | |- consumes (match ?x with _ => _ end) _ => destruct x; try apply consumes_fail
    end.
  all: match goal with
    | |- consumes (skip_len ?k) _ => exact (consumes_len k)
    | |- consumes (skip_ext ?k) _ => exact (consumes_ext k ltac:(done))
    | |- consumes (mbind _ ?m) (fits R (Sized ?h 0)) => exact (consumes_sized h m 0 ltac:(done) (or_introl eq_refl))
    | |- consumes (mbind _ ?m) (fits R (Sized ?h 1)) => exact (consumes_sized h m 1 ltac:(done) (or_intror eq_refl))
    | |- consumes (mbind _ ?m) (fits R (Items ?h 0 1)) => exact (consumes_items_header h m 1 ltac:(done) (or_introl eq_refl))
    | |- consumes (mbind _ ?m) (fits R (Items ?h 0 2)) => exact (consumes_items_header h m 2 ltac:(done) (or_intror eq_refl))
    end.
Qed.
End body.

(** Skipping a value consumes exactly the encodings of the grammar. *)
Lemma skip_value_consumes n : consumes (skip_value n) (value n).
Proof.
  induction n as [|n IH]; [apply consumes_fail|]. cbn [skip_value value]. split.
  - intros pre rest c Hb H. read_inv H. subst. apply bytes_ok_cons in Hb as [Hx Hb].
    destruct (co_sound _ _ (consumes_marker _ _ IH x Hx) _ _ _ Hb H) as (v & r' & -> & Hv & ->).
    exists (x :: v), r'. rewrite <- app_assoc. eauto 6.
  - intros v Hb (marker & body & -> & Hf). apply bytes_ok_cons in Hb as [Hx Hb].
    change (marker :: body) with ([marker] ++ body). eapply reads_bind; [by apply Cursor.reads_u8|].
    by apply (co_complete _ _ (consumes_marker _ _ IH marker Hx)).
Qed.

Definition depth_limit : nat := Z.to_nat LXMF_MSGPACK_MAX_DEPTH.

Lemma skip_value_exact pre rest c :
  bytes_ok rest -> len (pre ++ rest) <= usize_MAX ->
  skip_top (rcur pre rest) = (Ok tt, c) <->
  exists v rest', rest = v ++ rest' /\ value depth_limit v /\ c = rcur (pre ++ v) rest'.
Proof.
  intros Hb Hmax. split; [by apply (co_sound _ _ (skip_value_consumes _))|].
  intros (v & rest' & -> & Hv & ->). apply bytes_ok_app in Hb as [Hb _].
  by apply (co_complete _ _ (skip_value_consumes depth_limit) v Hb Hv).
Qed.

(** The grammar is prefix-free: one way to split the input. *)
Lemma value_prefix_free n v v' r r' :
  bytes_ok v -> bytes_ok v' -> value n v -> value n v' -> v ++ r = v' ++ r' -> len (v ++ r) <= usize_MAX -> v = v' /\ r = r'.
Proof.
  intros Hb Hb' Hv Hv' E Hmax.
  pose proof (proj1 (co_complete _ _ (skip_value_consumes n) v Hb Hv) [] r Hmax) as H1.
  pose proof (proj1 (co_complete _ _ (skip_value_consumes n) v' Hb' Hv') [] r') as H2.
  simpl in H1, H2. rewrite <- E in H2. specialize (H2 Hmax). rewrite H1 in H2. injection H2 as H2 Hl.
  apply app_inj_1 in E; [done|unfold len in Hl; lia].
Qed.

Lemma msgpack_header_safe : safe rc_ok read_u32_as_usize (fun k => 0 <= k) /\ safe rc_ok read_u16 (fun k => 0 <= k) /\
  safe rc_ok read_u8 (fun k => 0 <= k).
Proof.
  split_and!.
  - unfold read_u32_as_usize, read_u32. eapply safe_bind; [by apply read_be_safe|]. intros k Hk. case_match; [by apply safe_lift|].
    apply safe_ret. simpl in Hk. lia.
  - eapply safe_conseq; [by apply read_be_safe|]. simpl. lia.
  - eapply safe_conseq; [by apply read_u8_safe|]. unfold u8_ok. lia.
Qed.

(** Skipping never panics: neither the depth nor the lengths in the input can
    make it. *)
Lemma skip_value_safe n : safe rc_ok (skip_value n) (fun _ => True).
Proof.
  assert (forall k, 0 <= k -> safe rc_ok (skip_len k) (fun _ => True)) as Hlen.
  { intros k Hk. unfold skip_len, read_slice. repeat safe_step. done. }
  assert (forall k, 0 <= k -> safe rc_ok (skip_ext k) (fun _ => True)) as Hext.
  { intros k Hk. unfold skip_ext. eapply safe_bind; [by apply Hlen|]. intros _ _. by apply Hlen. }
  destruct msgpack_header_safe as (H32 & H16 & H8).
  induction n as [|n IH]; [by apply safe_lift|]. cbn [skip_value]. eapply safe_bind; [exact H8|]. intros marker Hm.
  assert (forall k, safe rc_ok (skip_array (skip_value n) k) (fun _ => True)) as Harr by (intros; by apply for_range_safe).
  assert (forall k, safe rc_ok (skip_map (skip_value n) k) (fun _ => True)) as Hmap.
  { intros k. apply for_range_safe. by eapply safe_bind; [exact IH|]. }
  unfold skip_marker. repeat case_match; try (by apply safe_ret); try (by apply safe_lift);
    first [by apply Hmap | by apply Harr | apply Hlen; by (done || apply land_mask_nonneg) | by apply Hext
      | eapply safe_bind; [first [exact H8|exact H16|exact H32]|]; intros k Hk;
        first [by apply Hmap | by apply Harr | by apply Hlen | by apply Hext] ].
Qed.

(** ** The values a payload is made of *)
(** [m] parses exactly the byte strings related to a result by [R]. *)
Record parses {A} (m : io read_cursor LxmfError A) (R : list Z -> A -> Prop) : Prop := {
  pa_sound : forall pre rest a c, bytes_ok rest -> m (rcur pre rest) = (Ok a, c) ->
    exists v rest', rest = v ++ rest' /\ R v a /\ c = rcur (pre ++ v) rest';
  pa_complete : forall v a, bytes_ok v -> R v a -> reads m a v;
}.

(** The header of an array of [k] values; a byte string or a string of bytes
    [d]; a 64-bit float; any value, kept raw; a raw map. *)
Definition array_header (v : list Z) (k : Z) : Prop :=
  exists marker hd h k0, v = marker :: hd /\ layout_of marker = Items h k0 1 /\ len hd = Z.of_nat h /\ k = k0 + from_be_bytes hd.
Definition bin_or_str (v d : list Z) : Prop :=
  exists marker hd, v = marker :: hd ++ d /\
    (in_range 0xa0 0xbf marker = true /\ hd = [] /\ len d = Z.land marker 0x1f \/
     exists h, layout_of marker = Sized h 0 /\ len hd = Z.of_nat h /\ len d = from_be_bytes hd).
Definition float64 (v : list Z) (bits : Z) : Prop := u64_ok bits /\ v = MARKER_FLOAT64 :: to_be_bytes 8 bits.
Definition raw_value (v w : list Z) : Prop := w = v /\ value depth_limit v.
Definition raw_map (v w : list Z) : Prop :=
  w = v /\ value depth_limit v /\ exists marker body, v = marker :: body /\ is_map_marker marker = true.

Lemma parses_header h m : header h m -> parses m (fun v k => len v = Z.of_nat h /\ k = from_be_bytes v).
Proof.
  intros [Hs Hc]. split; [|by intros v ? Hb [Hl ->]; apply Hc].
  intros pre rest k c Hb H. destruct (Hs _ _ _ _ Hb H) as (hd & r & -> & Hl & -> & ->). by exists hd, r.
Qed.

(** A marker, then what depends on it. *)
Lemma parses_marker {A} (f : Z -> io read_cursor LxmfError A) R :
  (forall marker, u8_ok marker -> parses (f marker) (R marker)) ->
  parses (marker ← read_u8; f marker) (fun v a => exists marker body, v = marker :: body /\ R marker body a).
Proof.
  intros Hf. split.
  - intros pre rest a c Hb H. read_inv H. subst. apply bytes_ok_cons in Hb as [Hx Hb].
    destruct (pa_sound _ _ (Hf x Hx) _ _ _ _ Hb H) as (v & r' & -> & Hv & ->).
    exists (x :: v), r'. rewrite <- app_assoc. eauto 6.
  - intros v a Hb (marker & body & -> & HR). apply bytes_ok_cons in Hb as [Hx Hb].
    change (marker :: body) with ([marker] ++ body). eapply reads_bind; [by apply Cursor.reads_u8|].
    by apply (pa_complete _ _ (Hf marker Hx)).
Qed.

Lemma parses_bind {A B} (m : io read_cursor LxmfError A) (f : A -> io read_cursor LxmfError B) R Q :
  parses m R -> (forall v a, bytes_ok v -> R v a -> parses (f a) (Q a)) ->
  parses (a ← m; f a) (fun v b => exists v1 v2 a, v = v1 ++ v2 /\ R v1 a /\ Q a v2 b).
Proof.
  intros [Hs Hc] Hf. split.
  - intros pre rest b c Hb H. apply io_bind_inv in H as (a & c1 & H1 & H2).
    destruct (Hs _ _ _ _ Hb H1) as (v1 & r1 & -> & Hv1 & ->). apply bytes_ok_app in Hb as [Hb1 Hb].
    destruct (pa_sound _ _ (Hf v1 a Hb1 Hv1) _ _ _ _ Hb H2) as (v2 & r2 & -> & Hv2 & ->).
    exists (v1 ++ v2), r2. rewrite <- !app_assoc. eauto 10.
  - intros v b Hb (v1 & v2 & a & -> & H1 & H2). apply bytes_ok_app in Hb as [Hb1 Hb2].
    eapply reads_bind; [by apply Hc|]. by apply (pa_complete _ _ (Hf v1 a Hb1 H1)).
Qed.

Lemma parses_ret {A} (a : A) : parses (mret a) (fun v b => v = [] /\ b = a).
Proof.
  split; [|intros v b _ [-> ->]; apply reads_ret].
  intros pre rest b c _ H. unfold mret, io_ret in H. simplify_eq. exists [], rest. by rewrite app_nil_r.
Qed.

Lemma parses_fail {A} (e : LxmfError) : parses (lift (Err e)) (fun _ (_ : A) => False).
Proof. by split. Qed.

Lemma parses_slice n : parses (read_slice n) (fun v d => d = v /\ len v = n).
Proof.
  split; [|intros v d _ [-> Hl]; by apply Cursor.reads_slice].
  intros pre rest d c _ H. apply read_slice_inv in H as (r & -> & Hl & ->). by exists d, r.
Qed.

Lemma parses_iff {A} (m : io read_cursor LxmfError A) R R' :
  (forall v a, bytes_ok v -> R v a <-> R' v a) -> parses m R -> parses m R'.
Proof.
  intros H [Hs Hc]. split; [|intros v a Hb Hv; by apply Hc, H].
  intros pre rest a c Hb Hm. destruct (Hs pre rest a c Hb Hm) as (v & rest' & -> & Hv & ->).
  exists v, rest'. split_and!; [done| |done]. apply H; [by apply bytes_ok_app in Hb as [? _]|done].
Qed.

Lemma parses_guard {A} b (e : LxmfError) (m : io read_cursor LxmfError A) R :
  parses m R -> parses (_ ← lift (guard_err b e); m) (fun v a => b = false /\ R v a).
Proof.
  intros [Hs Hc]. destruct b; (split; [|intros v a Hb [? HR]; try done; by apply Hc]); [done|].
  intros pre rest a c Hb H. destruct (Hs _ _ _ _ Hb H) as (v & r & -> & Hv & ->). by exists v, r.
Qed.

(** *** Markers of the three kinds the payload reads *)
Lemma layout_items_inv marker h k per :
  u8_ok marker -> layout_of marker = Items h k per ->
  match h with
  | O => per = 1 /\ in_range 0x90 0x9f marker = true /\ k = Z.land marker 0x0f \/
         per = 2 /\ in_range 0x80 0x8f marker = true /\ k = Z.land marker 0x0f
  | 2%nat => k = 0 /\ (per = 1 /\ marker = MARKER_ARRAY16 \/ per = 2 /\ marker = MARKER_MAP16)
  | 4%nat => k = 0 /\ (per = 1 /\ marker = MARKER_ARRAY32 \/ per = 2 /\ marker = MARKER_MAP32)
  | _ => False
  end.
Proof.
  intros _ H. unfold layout_of in H. destruct (_ || _); [done|].
  destruct (in_range 0x80 0x8f marker) eqn:E1; [simplify_eq; auto|].
  destruct (in_range 0x90 0x9f marker) eqn:E2; [simplify_eq; auto|].
  destruct (in_range 0xa0 0xbf marker) eqn:E3; [done|]. clear E1 E2 E3.
  repeat match type of H with
    | (match ?x with _ => _ end) = _ => destruct x; try discriminate H
    end; simplify_eq; auto.
Qed.

Lemma layout_sized_inv marker h :
  layout_of marker = Sized h 0 ->
  in_range 0xa0 0xbf marker = false /\
  match h with
  | 1%nat => marker = 0xc4 \/ marker = 0xd9
  | 2%nat => marker = 0xc5 \/ marker = 0xda
  | 4%nat => marker = 0xc6 \/ marker = 0xdb
  | _ => False
  end.
Proof.
  intros H. unfold layout_of in H. destruct (_ || _); [done|].
  destruct (in_range 0x80 0x8f marker) eqn:E1; [done|].
  destruct (in_range 0x90 0x9f marker) eqn:E2; [done|].
  destruct (in_range 0xa0 0xbf marker) eqn:E3; [done|]. split; [done|]. clear E1 E2 E3.
  repeat match type of H with
    | (match ?x with _ => _ end) = _ => destruct x; try discriminate H
    end; simplify_eq; auto.
Qed.

Lemma header_u16 : header 2 read_u16.
Proof. by apply header_be. Qed.

Lemma parses_array_len : parses read_array_len array_header.
Proof.
  unfold read_array_len, array_header. eapply parses_iff; [|apply (parses_marker _ (fun marker hd k =>
    exists h k0, layout_of marker = Items h k0 1 /\ len hd = Z.of_nat h /\ k = k0 + from_be_bytes hd))].
  { intros v k _. split; [intros (m & hd & -> & h & k0 & H)|intros (m & hd & h & k0 & -> & H)]; eauto 8. }
  intros marker Hm. destruct (in_range 0x90 0x9f marker) eqn:E1.
  { eapply parses_iff; [|apply parses_ret]. intros v k _. simpl. split.
    - intros [-> ->]. exists 0%nat, (Z.land marker 15). unfold layout_of. rewrite E1.
      apply in_range_spec in E1. rewrite !in_range_reflect. unfold MARKER_NIL, MARKER_FALSE, MARKER_TRUE.
      rewrite !bool_decide_eq_false_2 by lia. destruct (Z.eqb_spec marker 192), (Z.eqb_spec marker 194), (Z.eqb_spec marker 195); try lia.
      split_and!; [done..|]. change (from_be_bytes []) with 0. lia.
    - intros (h & k0 & Hl & Hh & ->). apply layout_items_inv in Hl; [|done].
      destruct h as [|[|[|[|[|]]]]]; try done.
      + destruct Hl as [(_ & _ & ->)|(? & _)]; [|done]. apply len_0_nil in Hh as ->. split; [done|]. change (from_be_bytes []) with 0. lia.
      + by destruct Hl as (_ & [[_ ->]|[? _]]).
      + by destruct Hl as (_ & [[_ ->]|[? _]]). }
  destruct (Z.eqb_spec marker MARKER_ARRAY16) as [->|Hn1].
  { eapply parses_iff; [|apply (parses_header 2), header_u16]. intros v k _. simpl. split.
    - intros [Hl ->]. by exists 2%nat, 0.
    - intros (h & k0 & [= <- <-] & Hl & ->). done. }
  destruct (Z.eqb_spec marker MARKER_ARRAY32) as [->|Hn2].
  { eapply parses_iff; [|apply (parses_header 4), header_u32]. intros v k _. simpl. split.
    - intros [Hl ->]. by exists 4%nat, 0.
    - intros (h & k0 & [= <- <-] & Hl & ->). done. }
  eapply parses_iff; [|apply parses_fail]. intros v k _. simpl. split; [done|].
  intros (h & k0 & Hl & _). apply layout_items_inv in Hl; [|done].
  destruct h as [|[|[|[|[|]]]]]; try done.
  - destruct Hl as [(_ & ? & _)|(? & _)]; [congruence|done].
  - by destruct Hl as (_ & [[_ ->]|[? _]]).
  - by destruct Hl as (_ & [[_ ->]|[? _]]).
Qed.

Lemma parses_bin_or_str : parses read_bin_or_str_bytes bin_or_str.
Proof.
  unfold read_bin_or_str_bytes. eapply parses_iff; [|apply (parses_marker _ (fun marker b d => exists hd, b = hd ++ d /\
    (in_range 0xa0 0xbf marker = true /\ hd = [] /\ len d = Z.land marker 0x1f \/
     exists h, layout_of marker = Sized h 0 /\ len hd = Z.of_nat h /\ len d = from_be_bytes hd)))].
  { intros v d _. split; [intros (m & b & -> & hd & -> & H)|intros (m & hd & -> & H)]; unfold bin_or_str; eauto 8. }
  intros marker Hm. set (L := if in_range 0xa0 0xbf marker then _ else _).
  assert (parses L (fun hd n => in_range 0xa0 0xbf marker = true /\ hd = [] /\ n = Z.land marker 0x1f \/
     exists h, layout_of marker = Sized h 0 /\ len hd = Z.of_nat h /\ n = from_be_bytes hd)) as HL.
  { subst L. destruct (in_range 0xa0 0xbf marker) eqn:E1.
    - eapply parses_iff; [|apply parses_ret]. intros v n _. simpl. split; [intros [-> ->]; auto|].
      intros [(_ & -> & ->)|(h & Hl & _)]; [done|]. apply layout_sized_inv in Hl as [? _]. congruence.
    - assert (forall m h, layout_of marker = Sized h 0 -> header h m ->
        parses m (fun hd n => false = true /\ hd = [] /\ n = Z.land marker 31 \/
          exists h, layout_of marker = Sized h 0 /\ len hd = Z.of_nat h /\ n = from_be_bytes hd)) as Hh.
      { intros m h Hl Hh. eapply parses_iff; [|apply (parses_header h m Hh)]. intros v n _. simpl. split.
        - intros [? ->]. right. by exists h.
        - intros [[? _]|(h' & Hl' & ? & ->)]; [done|]. rewrite Hl in Hl'. by injection Hl' as <-. }
      assert (parses (lift (Err (UnsupportedMsgpackType marker)) : io read_cursor LxmfError Z) (fun _ _ => False)) as Hf by apply parses_fail.
      pose proof (layout_sized_inv marker) as Hinv. clear E1.
      repeat match goal with
        | |- parses (match ?x with _ => _ end) _ => destruct x
        end;
        first [ by apply (Hh _ 1%nat); [|apply header_u8] | by apply (Hh _ 2%nat); [|apply header_u16]
              | by apply (Hh _ 4%nat); [|apply header_u32]
              | eapply parses_iff; [|exact Hf]; intros v n _; simpl; split; [done|];
                intros [[? _]|(h & Hl & _)]; [done|]; destruct (Hinv h Hl) as [_ H];
                destruct h as [|[|[|[|[|]]]]]; try done; by destruct H ]. }
  eapply parses_iff; [|apply (parses_bind L read_slice _ _ HL (fun v n _ _ => parses_slice n))].
  intros v d _. simpl. split.
  - intros (hd & w & n & -> & H & -> & <-). eauto.
  - intros (hd & -> & H). exists hd, d, (len d). eauto.
Qed.

Lemma parses_float64 : parses read_float64 float64.
Proof.
  unfold read_float64. eapply parses_iff; [|apply (parses_marker _ (fun marker b bits =>
    negb (marker =? MARKER_FLOAT64) = false /\ len b = 8 /\ bits = from_be_bytes b))].
  - intros v bits Hb. split.
    + intros (m & b & -> & Hm & Hl & ->). apply negb_false_iff, Z.eqb_eq in Hm as ->. apply bytes_ok_cons in Hb as [_ Hb].
      split; [|by rewrite to_from_be_bytes_n]. pose proof (from_be_bytes_bound b Hb) as H. by rewrite Hl in H.
    + intros [Hu ->]. exists MARKER_FLOAT64, (to_be_bytes 8 bits). split_and!; [done|by rewrite Z.eqb_refl|done|].
      symmetry. apply from_to_be_bytes. done.
  - intros marker Hm. apply parses_guard. apply (parses_header 8). by apply header_be.
Qed.

(** Keeping the bytes of what was skipped. *)
Lemma parses_raw (m : io read_cursor LxmfError unit) R (K : io read_cursor LxmfError (list Z)) :
  consumes m R ->
  K = (c ← get; _ ← m; c' ← get; lift (slice (rc_input c') (rc_index c) (rc_index c'))) ->
  parses K (fun v w => w = v /\ R v).
Proof.
  intros [Hs Hc] ->.
  assert (forall pre v rest, lift (slice (rc_input (rcur (pre ++ v) rest)) (rc_index (rcur pre (v ++ rest))) (rc_index (rcur (pre ++ v) rest)))
    (rcur (pre ++ v) rest) = (Ok v, rcur (pre ++ v) rest) :> outcome LxmfError _ * _) as Hsl.
  { intros pre v rest. unfold lift. f_equal. unfold rcur. cbn [rc_input rc_index]. rewrite <- app_assoc, len_app. by apply slice_app. }
  split.
  - intros pre rest w c Hb H. rewrite get_bind in H. apply io_bind_inv in H as ([] & c1 & H1 & H2).
    destruct (Hs _ _ _ Hb H1) as (v & r & -> & Hv & ->). rewrite get_bind, Hsl in H2. simplify_eq. by exists w, r.
  - intros v w Hb [-> HR]. destruct (Hc v Hb HR) as [H1 H2]. split.
    + intros pre rest Hmax. rewrite get_bind. erewrite io_bind_ok by (by apply H1). by rewrite get_bind, Hsl.
    + intros pre u x E Hx Hmax. rewrite get_bind. destruct (H2 pre u x E Hx Hmax) as (e & c & He & HP).
      exists e, c. by erewrite io_bind_err.
Qed.

Lemma parses_raw_value : parses read_raw_value raw_value.
Proof. eapply parses_raw; [apply skip_value_consumes|done]. Qed.

Lemma parses_raw_map : parses read_raw_map raw_map.
Proof.
  pose proof parses_raw_value as [Hs Hc]. unfold read_raw_map. split.
  - intros pre rest w c Hb H. rewrite get_bind in H. apply io_bind_inv in H as (m & c1 & Hp & H).
    unfold peek_u8 in Hp. rewrite get_bind in Hp. unfold rcur in Hp. cbn [rc_input rc_index] in Hp.
    rewrite to_nat_len in Hp. rewrite lookup_app_r, Nat.sub_diag in Hp by lia.
    destruct rest as [|b rest]; [done|]. cbn [ok_or lookup list_lookup] in Hp. unfold lift in Hp. simplify_eq.
    apply guard_inv in H as [Hm H]. apply negb_false_iff in Hm.
    assert (read_raw_value (rcur pre (m :: rest)) = (Ok w, c)) as Hr by exact H.
    destruct (Hs _ _ _ _ Hb Hr) as (v & r & E & [-> Hv] & ->). exists v, r. split; [done|]. split; [|done]. split_and!; [done..|].
    destruct v as [|m' v]; [by unfold depth_limit in Hv; destruct Hv as (? & ? & ? & _)|]. injection E as <- _. by exists m, v.
  - intros v w Hb (-> & Hv & m & body & -> & Hm). destruct (Hc (m :: body) _ Hb (conj eq_refl Hv)) as [H1 H2].
    assert (forall pre rest, peek_u8 (rcur pre (m :: rest)) = (Ok m, rcur pre (m :: rest))) as Hpeek.
    { intros pre rest. unfold peek_u8. rewrite get_bind. unfold rcur. cbn [rc_input rc_index].
      by rewrite to_nat_len, lookup_app_r, Nat.sub_diag by lia. }
    split.
    + intros pre rest Hmax. rewrite get_bind. cbn [app]. erewrite io_bind_ok by apply Hpeek.
      rewrite guard_false by (by rewrite Hm). apply (H1 pre rest Hmax).
    + intros pre u x E Hx Hmax. destruct u as [|m' u].
      * exists MsgpackTruncated, (rcur pre []). split; [|done]. rewrite get_bind. erewrite io_bind_err; [done|].
        unfold peek_u8. rewrite get_bind. unfold rcur. cbn [rc_input rc_index]. rewrite to_nat_len, app_nil_r.
        by rewrite lookup_ge_None_2 by lia.
      * injection E as <- E. destruct (H2 pre (m :: u) x ltac:(by rewrite E) Hx Hmax) as (e & c & He & HP). exists e, c. split; [|done].
        rewrite get_bind. erewrite io_bind_ok by apply Hpeek. rewrite guard_false by (by rewrite Hm). exact He.
Qed.


(** *** Whole inputs
    [m] accepts exactly the inputs related to a result by [R]: a decoder that
    must be at the end of its input when it is done. *)
Definition is_trailing (_ : list Z) (e : LxmfError) : Prop := e = MsgpackTrailingBytes.

Record accepts {A} (m : io read_cursor LxmfError A) (R : list Z -> A -> Prop) : Prop := {
  ac_sound : forall pre rest a c, bytes_ok rest -> m (rcur pre rest) = (Ok a, c) -> R rest a;
  ac_complete : forall v a, bytes_ok v -> R v a -> decodes is_truncated is_trailing m a v;
}.

Lemma accepts_bind {A B} (m : io read_cursor LxmfError A) (f : A -> io read_cursor LxmfError B) R Q :
  parses m R -> (forall v a, bytes_ok v -> R v a -> accepts (f a) (Q a)) ->
  accepts (a ← m; f a) (fun v b => exists v1 v2 a, v = v1 ++ v2 /\ R v1 a /\ Q a v2 b).
Proof.
  intros [Hs Hc] Hf. split.
  - intros pre rest b c Hb H. apply io_bind_inv in H as (a & c1 & H1 & H2).
    destruct (Hs _ _ _ _ Hb H1) as (v1 & r1 & -> & Hv1 & ->). apply bytes_ok_app in Hb as [Hb1 Hb].
    pose proof (ac_sound _ _ (Hf v1 a Hb1 Hv1) _ _ _ _ Hb H2). eauto 8.
  - intros v b Hb (v1 & v2 & a & -> & H1 & H2). apply bytes_ok_app in Hb as [Hb1 Hb2].
    eapply decodes_bind; [by apply Hc|]. by apply (ac_complete _ _ (Hf v1 a Hb1 H1)).
Qed.

Lemma accepts_guard {A} b (e : LxmfError) (m : io read_cursor LxmfError A) R :
  (b = false -> accepts m R) -> accepts (_ ← lift (guard_err b e); m) (fun v a => b = false /\ R v a).
Proof.
  intros H. destruct b; [by split; [|intros ? ? ? []]|]. destruct (H eq_refl) as [Hs Hc].
  split; [|intros v a Hb [_ HR]; by apply Hc]. intros pre rest a c Hb Hm. split; [done|]. by eapply Hs.
Qed.

Lemma accepts_fail {A} (e : LxmfError) : accepts (lift (Err e)) (fun _ (_ : A) => False).
Proof. by split. Qed.

Lemma accepts_iff {A} (m : io read_cursor LxmfError A) R R' :
  (forall v a, bytes_ok v -> R v a <-> R' v a) -> accepts m R -> accepts m R'.
Proof.
  intros H [Hs Hc]. split; [|intros v a Hb Hv; by apply Hc, H].
  intros pre rest a c Hb Hm. apply H; [done|]. by eapply Hs.
Qed.

(** The end of the input, after which a value may be returned. *)
Lemma accepts_end : accepts finish (fun v _ => v = []).
Proof.
  split.
  - intros pre rest [] c _ H. unfold finish in H. rewrite get_bind in H. rewrite <- (rcur_end pre rest). by case_match.
  - intros v [] _ ->. unfold decodes. split_and!.
    + intros pre _. rewrite app_nil_r. unfold finish. rewrite get_bind. by rewrite (proj2 (rcur_end pre []) eq_refl).
    + apply truncated_nil.
    + intros pre x Hx _. exists MsgpackTrailingBytes, (rcur pre x). split; [|done]. change ([] ++ x) with x.
      unfold finish. rewrite get_bind. destruct (_ =? _) eqn:E; [|done]. by apply rcur_end in E.
Qed.

Lemma accepts_finish {A} (o : outcome LxmfError A) :
  accepts (_ ← finish; lift o) (fun v b => v = [] /\ o = Ok b).
Proof.
  destruct accepts_end as [Hs Hc]. split.
  - intros pre rest b c Hb H. apply io_bind_inv in H as ([] & c1 & H1 & H2). split; [by eapply Hs|].
    unfold lift in H2. by simplify_eq.
  - intros v b Hb [-> ->]. destruct (Hc [] tt Hb eq_refl) as (H1 & _ & H3). unfold decodes. split_and!.
    + intros pre Hmax. by erewrite io_bind_ok by (by apply H1).
    + apply truncated_nil.
    + intros pre x Hx Hmax. destruct (H3 pre x Hx Hmax) as (e & c & He & HQ). exists e, c. by erewrite io_bind_err.
Qed.

(** From the body of a decoder to the decoder. *)
Lemma accepts_run {A} (m : io read_cursor LxmfError A) R input a :
  accepts m R -> bytes_ok input -> len input <= usize_MAX -> run_reader m input = Ok a <-> R input a.
Proof.
  intros [Hs Hc] Hb Hmax. split.
  - intros H. apply run_reader_inv in H as [c H]. by eapply Hs.
  - intros H. by eapply decodes_run; [apply Hc|].
Qed.


(** Absence of panics of the reads of a payload. *)
Lemma read_raw_value_safe : safe rc_ok read_raw_value (fun _ => True).
Proof.
  intros c Hc. unfold read_raw_value. rewrite get_bind.
  destruct c as [input i]. destruct Hc as [Hi Hb]. cbn [rc_index rc_input] in Hi, Hb.
  destruct (split_at i input) as (pre & rest & -> & Hl); [done|]. replace (ReadCursor (pre ++ rest) i) with (rcur pre rest) by (unfold rcur; by f_equal).
  apply bytes_ok_app in Hb as [Hb1 Hb]. pose proof (skip_value_safe depth_limit (rcur pre rest)) as Hs. change (skip_value depth_limit) with skip_top in Hs. unfold mbind, io_bind.
  assert (rc_ok (rcur pre rest)) as Hrc. { split; [rewrite rcur_index, rcur_len; pose proof (len_nonneg rest); pose proof (len_nonneg pre); lia|]. by apply bytes_ok_app. }
  specialize (Hs Hrc).
  destruct (skip_top (rcur pre rest)) as [[[]|e|] c] eqn:E; [|done|done].
  apply (co_sound _ _ (skip_value_consumes _)) in E as (v & r & -> & _ & ->); [|done].
  destruct Hs as [Hs _]. unfold get, lift. cbn [rc_input rc_index rcur]. rewrite <- app_assoc, len_app, slice_app by done. by split.
Qed.

Lemma read_raw_map_safe : safe rc_ok read_raw_map (fun _ => True).
Proof.
  intros c Hc. pose proof (read_raw_value_safe c Hc) as H. unfold read_raw_map. rewrite get_bind.
  unfold mbind at 1, io_bind at 1, peek_u8. rewrite get_bind. unfold lift at 1.
  destruct (rc_input c !! Z.to_nat (rc_index c)) as [m|]; [|exact Hc]. cbn [ok_or].
  destruct (negb (is_map_marker m)) eqn:E; [|rewrite guard_false by done; exact H]. exact Hc.
Qed.

Lemma read_array_len_safe : safe rc_ok read_array_len (fun _ => True).
Proof.
  destruct msgpack_header_safe as (H32 & H16 & H8). unfold read_array_len. eapply safe_bind; [exact H8|]. intros marker _.
  repeat case_match; [by apply safe_ret|by eapply safe_conseq|by eapply safe_conseq|by apply safe_lift].
Qed.

Lemma read_float64_safe : safe rc_ok read_float64 (fun _ => True).
Proof.
  unfold read_float64, read_u64. eapply safe_bind; [apply msgpack_header_safe|]. intros marker _.
  eapply safe_bind; [apply safe_guard|]. intros _ _. eapply safe_conseq; [by apply read_be_safe|done].
Qed.

Lemma read_bin_or_str_safe : safe rc_ok read_bin_or_str_bytes (fun _ => True).
Proof.
  destruct msgpack_header_safe as (H32 & H16 & H8). unfold read_bin_or_str_bytes. eapply safe_bind; [exact H8|]. intros marker _.
  eapply (safe_bind _ _ _ (fun k => 0 <= k)).
  - repeat case_match; first [done | by apply safe_lift | by apply safe_ret, land_mask_nonneg].
  - intros n Hn. unfold read_slice. eapply safe_conseq; [by apply read_slice_safe|done].
Qed.

Lemma msgpack_finish_safe : safe rc_ok finish (fun _ => True).
Proof. intros c Hc. unfold finish. rewrite get_bind. destruct (_ =? _); [by split|exact Hc]. Qed.
#[export] Hint Resolve read_raw_value_safe read_raw_map_safe read_array_len_safe read_float64_safe read_bin_or_str_safe
  msgpack_finish_safe : safe.
