(* ===== verification/Lxmf.v ===== *)
(** [hyf_lxmf_core]: LXMF messages, their payloads, identifiers and signature
    inputs (src/crates/hyf_lxmf_core/src/types.rs, payload.rs, message.rs,
    hash.rs).

    A payload is a MessagePack array of a time, a title, a content, a map of
    fields and an optional stamp, read with the cursor of [Msgpack].  The
    decoder accepts more than the encoder writes: [payload_form] is what it
    accepts, [payload_bytes] what the encoder writes.  A float is its 64 bits.
    SHA-256 is a parameter: the hash of what was fed to the hasher. *)
From S2P Require Import Prelude Cursor Msgpack.

(** ** Data *)
Record LxmfPayloadRef := mk_payload {
  lp_timestamp_secs : Z;
  lp_title : list Z;
  lp_content : list Z;
  lp_fields : list Z;
  lp_stamp : option (list Z);
}.
#[export] Instance LxmfPayloadRef_eq_dec : EqDecision LxmfPayloadRef.
Proof. solve_decision. Defined.

Record LxmfMessageRef := mk_lxmf_message {
  lm_destination_hash : list Z;
  lm_source_hash : list Z;
  lm_signature : list Z;
  lm_packed_payload : list Z;
  lm_payload : LxmfPayloadRef;
}.
#[export] Instance LxmfMessageRef_eq_dec : EqDecision LxmfMessageRef.
Proof. solve_decision. Defined.

(** [f64::is_finite] on the bits: the exponent is not all ones. *)
Definition is_finite (bits : Z) : bool := negb (Z.land (Z.shiftr bits 52) 0x7ff =? 0x7ff).

Definition LXMF_PAYLOAD_ARRAY_LEN : Z := 4.
Definition LXMF_PAYLOAD_ARRAY_WITH_STAMP_LEN : Z := 5.

(** ** Payloads *)
Definition decode_payload_body : io read_cursor LxmfError LxmfPayloadRef :=
  array_len ← read_array_len;
  _ ← lift (guard_err (negb (array_len =? LXMF_PAYLOAD_ARRAY_LEN) && negb (array_len =? LXMF_PAYLOAD_ARRAY_WITH_STAMP_LEN))
        (InvalidPayloadArrayLen array_len));
  timestamp_secs ← read_float64;
  _ ← lift (guard_err (negb (is_finite timestamp_secs)) InvalidTimestamp);
  title ← read_bin_or_str_bytes;
  _ ← lift (guard_err (len title >? LXMF_TITLE_MAX_LEN) (TitleTooLarge (len title) LXMF_TITLE_MAX_LEN));
  content ← read_bin_or_str_bytes;
  _ ← lift (guard_err (len content >? LXMF_CONTENT_MAX_LEN) (ContentTooLarge (len content) LXMF_CONTENT_MAX_LEN));
  fields ← read_raw_map;
  _ ← lift (guard_err (len fields >? LXMF_FIELDS_MAX_LEN) (FieldsTooLarge (len fields) LXMF_FIELDS_MAX_LEN));
  stamp ← (if array_len =? LXMF_PAYLOAD_ARRAY_WITH_STAMP_LEN then
             bytes ← read_raw_value;
             _ ← lift (guard_err (len bytes >? LXMF_STAMP_MAX_LEN) (StampTooLarge (len bytes) LXMF_STAMP_MAX_LEN));
             mret (Some bytes)
           else mret None);
  _ ← finish;
  mret (mk_payload timestamp_secs title content fields stamp).

Definition decode_lxmf_payload (input : list Z) : outcome LxmfError LxmfPayloadRef :=
  _ ← guard_err (len input >? LXMF_PAYLOAD_MAX_LEN) (PayloadTooLarge (len input) LXMF_PAYLOAD_MAX_LEN);
  run_reader decode_payload_body input.

Definition validate_raw_map (input : list Z) : outcome LxmfError unit :=
  run_reader (_ ← read_raw_map; finish) input.

Definition validate_payload_for_encode (payload : LxmfPayloadRef) : outcome LxmfError unit :=
  _ ← guard_err (negb (is_finite (lp_timestamp_secs payload))) InvalidTimestamp;
  _ ← guard_err (len (lp_title payload) >? LXMF_TITLE_MAX_LEN) (TitleTooLarge (len (lp_title payload)) LXMF_TITLE_MAX_LEN);
  _ ← guard_err (len (lp_content payload) >? LXMF_CONTENT_MAX_LEN)
        (ContentTooLarge (len (lp_content payload)) LXMF_CONTENT_MAX_LEN);
  _ ← validate_raw_map (lp_fields payload);
  _ ← guard_err (len (lp_fields payload) >? LXMF_FIELDS_MAX_LEN)
        (FieldsTooLarge (len (lp_fields payload)) LXMF_FIELDS_MAX_LEN);
  match lp_stamp payload with
  | Some stamp => guard_err (len stamp >? LXMF_STAMP_MAX_LEN) (StampTooLarge (len stamp) LXMF_STAMP_MAX_LEN)
  | None => Ok tt
  end.

(** [2 + len] and [3 + len] of a slice's length, which do not overflow a [usize]. *)
Definition bin_encoded_len (n : Z) : Z := if n <=? 255 then 2 + n else 3 + n.

Definition lxmf_payload_encoded_len (payload : LxmfPayloadRef) : outcome LxmfError Z :=
  _ ← validate_payload_for_encode payload;
  required ← ok_or
    (n ← (n ← (n ← checked_add 1 9;
               checked_add n (bin_encoded_len (len (lp_title payload))));
          checked_add n (bin_encoded_len (len (lp_content payload))));
     checked_add n (len (lp_fields payload)))
    (PayloadTooLarge (len (lp_fields payload)) LXMF_PAYLOAD_MAX_LEN);
  if required >? LXMF_PAYLOAD_MAX_LEN then Err (PayloadTooLarge required LXMF_PAYLOAD_MAX_LEN) else Ok required.

Definition write_bin (bytes : list Z) : io write_cursor LxmfError unit :=
  _ ← (if len bytes <=? 255 then
         _ ← write_u8 0xc4; write_u8 (as_u8 (len bytes))
       else if len bytes <=? 65535 then
         _ ← write_u8 0xc5; write_be 2 (as_u16 (len bytes))
       else lift (Err (PayloadTooLarge (len bytes) LXMF_PAYLOAD_MAX_LEN)));
  write_array bytes.

Definition encode_payload_body (payload : LxmfPayloadRef) : io write_cursor LxmfError unit :=
  _ ← write_u8 (Z.lor 0x90 (as_u8 LXMF_PAYLOAD_ARRAY_LEN));
  _ ← write_u8 0xcb;
  _ ← write_be 8 (lp_timestamp_secs payload);
  _ ← write_bin (lp_title payload);
  _ ← write_bin (lp_content payload);
  write_array (lp_fields payload).

Definition encode_lxmf_payload (payload : LxmfPayloadRef) : io (list Z) LxmfError Z :=
  required ← lift (lxmf_payload_encoded_len payload);
  output ← get;
  _ ← lift (guard_err (len output <? required) (OutputTooSmall required (len output)));
  _ ← with_writer (encode_payload_body payload);
  mret required.

(** ** Messages *)
Definition decode_lxmf_message (input : list Z) : outcome LxmfError LxmfMessageRef :=
  _ ← guard_err (len input <? LXMF_FIXED_HEADER_LEN) (MessageTooShort (len input) LXMF_FIXED_HEADER_LEN);
  _ ← guard_err (len input >? LXMF_MESSAGE_MAX_LEN) (MessageTooLarge (len input) LXMF_MESSAGE_MAX_LEN);
  d ← slice input 0 LXMF_DESTINATION_HASH_LEN;
  destination_hash ← to_array LXMF_DESTINATION_HASH_LEN d;
  let source_end := LXMF_DESTINATION_HASH_LEN + LXMF_SOURCE_HASH_LEN in
  s ← slice input LXMF_DESTINATION_HASH_LEN source_end;
  source_hash ← to_array LXMF_SOURCE_HASH_LEN s;
  g ← slice input source_end (source_end + LXMF_SIGNATURE_LEN);
  signature ← to_array LXMF_SIGNATURE_LEN g;
  packed_payload ← slice input LXMF_FIXED_HEADER_LEN (len input);
  payload ← decode_lxmf_payload packed_payload;
  Ok (mk_lxmf_message destination_hash source_hash signature packed_payload payload).

(** [f] on [&mut output[a..b]]. *)
Definition on_slice {E A} (a b : Z) (f : io (list Z) E A) : io (list Z) E A := fun output =>
  match slice (E:=E) output a b with
  | Ok s => let '(r, s') := f s in (r, take (Z.to_nat a) output ++ s' ++ drop (Z.to_nat b) output)
  | Err e => (Err e, output)
  | Panic => (Panic, output)
  end.

Definition encode_lxmf_message (destination source signature : list Z) (payload : LxmfPayloadRef) : io (list Z) LxmfError Z :=
  payload_len ← lift (lxmf_payload_encoded_len payload);
  required ← lift (ok_or (checked_add LXMF_FIXED_HEADER_LEN payload_len) (MessageTooLarge payload_len LXMF_MESSAGE_MAX_LEN));
  _ ← lift (guard_err (required >? LXMF_MESSAGE_MAX_LEN) (MessageTooLarge required LXMF_MESSAGE_MAX_LEN));
  output ← get;
  _ ← lift (guard_err (len output <? required) (OutputTooSmall required (len output)));
  _ ← copy_at 0 destination;
  let source_end := LXMF_DESTINATION_HASH_LEN + LXMF_SOURCE_HASH_LEN in
  _ ← copy_at LXMF_DESTINATION_HASH_LEN source;
  _ ← copy_at source_end signature;
  written ← on_slice LXMF_FIXED_HEADER_LEN required (encode_lxmf_payload payload);
  mret (LXMF_FIXED_HEADER_LEN + written).

(** ** Identifiers and signature inputs *)
Definition FIXED_ARRAY4_MARKER : Z := Z.lor 0x90 (as_u8 LXMF_PAYLOAD_ARRAY_LEN).

Inductive SigningPayload :=
| Original (bytes : list Z)
| CanonicalArray4 (elements : list (list Z)) (n : Z).

(** [len] grows over the elements of the array. *)
Fixpoint add_element_lens (n : Z) (elements : list (list Z)) : outcome LxmfError Z :=
  match elements with
  | [] => Ok n
  | element :: elements =>
      n ← ok_or (checked_add n (len element)) (PayloadTooLarge usize_MAX LXMF_PAYLOAD_MAX_LEN);
      add_element_lens n elements
  end.
Definition canonical_array4_len (elements : list (list Z)) : outcome LxmfError Z := add_element_lens 1 elements.

(** [SigningPayload::parse] *)
Definition parse_signing_body (packed_payload : list Z) : io read_cursor LxmfError SigningPayload :=
  array_len ← read_array_len;
  match array_len with
  | 4 =>
      _ ← for_range LXMF_PAYLOAD_ARRAY_LEN (_ ← read_raw_value; mret tt);
      _ ← finish;
      lift (Ok (Original packed_payload))
  | 5 =>
      timestamp ← read_raw_value;
      title ← read_raw_value;
      content ← read_raw_value;
      fields ← read_raw_value;
      _ ← read_raw_value;
      _ ← finish;
      lift (
        let elements := [timestamp; title; content; fields] in
        n ← canonical_array4_len elements;
        Ok (CanonicalArray4 elements n))
  | actual => lift (Err (InvalidPayloadArrayLen actual))
  end.
Definition signing_parse (packed_payload : list Z) : outcome LxmfError SigningPayload :=
  run_reader (parse_signing_body packed_payload) packed_payload.

Definition signing_len (p : SigningPayload) : Z :=
  match p with Original bytes => len bytes | CanonicalArray4 _ n => n end.

(** The hasher is the bytes it was fed. *)
Definition signing_update_hasher (p : SigningPayload) (hasher : list Z) : list Z :=
  match p with
  | Original bytes => hasher ++ bytes
  | CanonicalArray4 elements _ => fold_left app elements (hasher ++ [FIXED_ARRAY4_MARKER])
  end.

Fixpoint write_elements (elements : list (list Z)) : io write_cursor LxmfError unit :=
  match elements with
  | [] => mret tt
  | element :: elements => _ ← write_array element; write_elements elements
  end.
Definition signing_write_to (p : SigningPayload) : io write_cursor LxmfError unit :=
  match p with
  | Original bytes => write_array bytes
  | CanonicalArray4 elements _ => _ ← write_array [FIXED_ARRAY4_MARKER]; write_elements elements
  end.

Section hash.
(** [Sha256]: what [finalize] returns for the bytes fed with [update]. *)
Context (sha256 : list Z -> list Z).

Definition message_id_hasher (message : LxmfMessageRef) : list Z :=
  ([] ++ lm_destination_hash message) ++ lm_source_hash message.
Definition finish_message_id (hasher : list Z) : list Z := sha256 hasher.
Definition message_id_with_signing_payload (message : LxmfMessageRef) (signing_payload : SigningPayload) : list Z :=
  finish_message_id (signing_update_hasher signing_payload (message_id_hasher message)).

Definition lxmf_message_id (message : LxmfMessageRef) : outcome LxmfError (list Z) :=
  signing_payload ← signing_parse (lm_packed_payload message);
  Ok (message_id_with_signing_payload message signing_payload).

Definition lxmf_signature_input_len (message : LxmfMessageRef) : outcome LxmfError Z :=
  signing_payload ← signing_parse (lm_packed_payload message);
  Ok (LXMF_DESTINATION_HASH_LEN + LXMF_SOURCE_HASH_LEN + signing_len signing_payload + LXMF_MESSAGE_ID_LEN).

Definition write_lxmf_signature_input (message : LxmfMessageRef) : io (list Z) LxmfError Z :=
  signing_payload ← lift (signing_parse (lm_packed_payload message));
  output ← get;
  required ← lift (ok_or
    (n ← (n ← checked_add LXMF_DESTINATION_HASH_LEN LXMF_SOURCE_HASH_LEN;
          checked_add n (signing_len signing_payload));
     checked_add n LXMF_MESSAGE_ID_LEN)
    (OutputTooSmall usize_MAX (len output)));
  _ ← lift (guard_err (len output <? required) (OutputTooSmall required (len output)));
  _ ← with_writer (
    _ ← write_array (lm_destination_hash message);
    _ ← write_array (lm_source_hash message);
    _ ← signing_write_to signing_payload;
    let message_id := message_id_with_signing_payload message signing_payload in
    write_array message_id);
  mret required.
End hash.

(** ** The format *)
(** What the decoder accepts: an array of 4, or of 5 with a stamp, in any of
    the encodings of MessagePack; the limits are inclusive. *)
Definition stamp_form (k : Z) (v : list Z) (stamp : option (list Z)) : Prop :=
  match stamp with
  | Some bytes => k = 5 /\ v = bytes /\ value depth_limit bytes /\ len bytes <= 128
  | None => k = 4 /\ v = []
  end.

Record payload_valid (p : LxmfPayloadRef) : Prop := {
  pv_timestamp : u64_ok (lp_timestamp_secs p) /\ is_finite (lp_timestamp_secs p) = true;
  pv_title : len (lp_title p) <= 2048;
  pv_content : len (lp_content p) <= 2048;
  pv_fields : raw_map (lp_fields p) (lp_fields p) /\ len (lp_fields p) <= 1024;
}.

Definition payload_form (input : list Z) (p : LxmfPayloadRef) : Prop :=
  exists k header title content stamp,
    input = header ++ (MARKER_FLOAT64 :: to_be_bytes 8 (lp_timestamp_secs p)) ++ title ++ content ++ lp_fields p ++ stamp /\
    array_header header k /\ bin_or_str title (lp_title p) /\ bin_or_str content (lp_content p) /\
    stamp_form k stamp (lp_stamp p) /\ payload_valid p.

(** What the encoder writes: the array of 4, binary strings with the shortest
    length that fits, and no stamp. *)
Definition bin_bytes (d : list Z) : list Z :=
  (if len d <=? 255 then [0xc4; len d] else 0xc5 :: to_be_bytes 2 (len d)) ++ d.
Definition payload_bytes (p : LxmfPayloadRef) : list Z :=
  [0x94; 0xcb] ++ to_be_bytes 8 (lp_timestamp_secs p) ++ bin_bytes (lp_title p) ++ bin_bytes (lp_content p) ++ lp_fields p.

Definition without_stamp (p : LxmfPayloadRef) : LxmfPayloadRef :=
  mk_payload (lp_timestamp_secs p) (lp_title p) (lp_content p) (lp_fields p) None.

(** What the Rust types guarantee. *)
Record payload_ok (p : LxmfPayloadRef) : Prop := {
  po_timestamp : u64_ok (lp_timestamp_secs p);
  po_title : bytes_ok (lp_title p);
  po_content : bytes_ok (lp_content p);
  po_fields : bytes_ok (lp_fields p);
}.

(** ** Decoding *)
Lemma accepts_stamp (k : Z) (g : option (list Z) -> LxmfPayloadRef) (Hg : forall o, lp_stamp (g o) = o) :
  k = 4 \/ k = 5 ->
  accepts
    (stamp ← (if k =? LXMF_PAYLOAD_ARRAY_WITH_STAMP_LEN then
              bytes ← read_raw_value;
              _ ← lift (guard_err (len bytes >? LXMF_STAMP_MAX_LEN) (StampTooLarge (len bytes) LXMF_STAMP_MAX_LEN));
              mret (Some bytes)
            else mret None);
     _ ← finish; mret (g stamp))
    (fun v p => p = g (lp_stamp p) /\ stamp_form k v (lp_stamp p)).
Proof.
  intros Hk.
  assert (parses (if k =? LXMF_PAYLOAD_ARRAY_WITH_STAMP_LEN then
              bytes ← read_raw_value;
              _ ← lift (guard_err (len bytes >? LXMF_STAMP_MAX_LEN) (StampTooLarge (len bytes) LXMF_STAMP_MAX_LEN));
              mret (Some bytes)
            else mret None) (stamp_form k)) as Hp.
  { destruct Hk as [-> | ->]; cbn [Z.eqb LXMF_PAYLOAD_ARRAY_WITH_STAMP_LEN Pos.eqb].
    - eapply parses_iff; [|apply parses_ret]. intros v o _. simpl. split; [by intros [-> ->]|].
      destruct o as [st|]; simpl; [by intros []|by intros [_ ->]].
    - eapply parses_iff; [|apply (parses_bind _ _ _ _ parses_raw_value (fun v w _ _ => parses_guard _ _ _ _ (parses_ret (Some w))))].
      intros v o _. simpl. split.
      + intros (v1 & v2 & w & -> & [-> Hv] & Hg1 & -> & ->). rewrite app_nil_r, Z.gtb_ltb in *. apply Z.ltb_ge in Hg1. done.
      + destruct o as [st|]; simpl; [|by intros [? _]]. intros (_ & -> & Hv & Hl).
        exists st, [], st. rewrite app_nil_r, Z.gtb_ltb. split_and!; [done..|by apply Z.ltb_ge|done|done]. }
  eapply accepts_iff; [|apply (accepts_bind _ _ _ _ Hp (fun v o _ _ => accepts_finish (Ok (g o))))].
  intros v p _. simpl. split.
  - intros (v1 & v2 & o & -> & Ho & -> & [= <-]). by rewrite app_nil_r, Hg.
  - intros [Hp' Hs]. exists v, [], (lp_stamp p). rewrite app_nil_r, <- Hp'. done.
Qed.

Lemma accepts_payload : accepts decode_payload_body payload_form.
Proof.
  unfold decode_payload_body. eapply accepts_iff; cycle 1.
  { eapply accepts_bind; [apply parses_array_len|]. intros h k _ Hh. apply accepts_guard. intros Hk.
    eapply accepts_bind; [apply parses_float64|]. intros v1 ts _ Hts. apply accepts_guard. intros Hfin.
    eapply accepts_bind; [apply parses_bin_or_str|]. intros v2 title _ Ht. apply accepts_guard. intros Hlt.
    eapply accepts_bind; [apply parses_bin_or_str|]. intros v3 content _ Hc. apply accepts_guard. intros Hlc.
    eapply accepts_bind; [apply parses_raw_map|]. intros v4 fields _ Hm. apply accepts_guard. intros Hlm.
    apply (accepts_stamp k (fun stamp => mk_payload ts title content fields stamp)); [done|].
    rewrite andb_false_iff, !negb_false_iff, !Z.eqb_eq in Hk. exact Hk. }
  intros v p _. cbv beta. split.
  - intros (h & ? & k & -> & Hh & _ & v1 & ? & ts & -> & [Hu ->] & Hf & t & ? & title & -> & Ht & Hlt & c & ? & content & -> & Hc & Hlc &
        fields & st & ? & -> & Hm & Hlm & Hp & Hs). pose proof Hm as [-> _].
    apply leb_guard in Hlt, Hlc, Hlm. apply negb_false_iff in Hf.
    exists k, h, t, c, st. rewrite Hp in Hs |- *. cbn [lp_timestamp_secs lp_title lp_content lp_fields lp_stamp] in *.
    split; [reflexivity|]. do 4 (split; [assumption|]). split; [split|..|split]; assumption.
  - intros (k & h & t & c & st & -> & Hh & Ht & Hc & Hs & [[Hu Hf] Hlt Hlc [Hm Hlm]]).
    eexists h, _, k. split; [reflexivity|]. split; [done|]. split.
    { destruct (lp_stamp p); simpl in Hs; by destruct Hs as [-> _]. }
    eexists _, _, (lp_timestamp_secs p). split; [reflexivity|]. split; [done|]. rewrite Hf. split; [done|].
    eexists t, _, (lp_title p). split; [reflexivity|]. split; [done|]. split; [by apply leb_guard|].
    eexists c, _, (lp_content p). split; [reflexivity|]. split; [done|]. split; [by apply leb_guard|].
    eexists (lp_fields p), st, _. split; [reflexivity|]. split; [done|]. split; [by apply leb_guard|]. split; [by destruct p|done].
Qed.

Lemma lxmf_decode_safe input : bytes_ok input -> decode_lxmf_payload input <> Panic.
Proof.
  intros Hb. unfold decode_lxmf_payload. apply outcome_bind_safe; [apply guard_err_safe|intros _ _].
  apply (run_reader_safe _ (fun _ => True)); [|done]. unfold decode_payload_body.
  eapply safe_bind; [apply read_array_len_safe|intros k _]. eapply safe_bind; [apply safe_guard|intros _ _].
  eapply safe_bind; [apply read_float64_safe|intros ts _]. eapply safe_bind; [apply safe_guard|intros _ _].
  eapply safe_bind; [apply read_bin_or_str_safe|intros t _]. eapply safe_bind; [apply safe_guard|intros _ _].
  eapply safe_bind; [apply read_bin_or_str_safe|intros c _]. eapply safe_bind; [apply safe_guard|intros _ _].
  eapply safe_bind; [apply read_raw_map_safe|intros f _]. eapply safe_bind; [apply safe_guard|intros _ _].
  eapply (safe_bind _ _ _ (fun _ => True)); [|intros st _; by eapply safe_bind; [apply msgpack_finish_safe|]].
  case_match; [|by apply safe_ret]. eapply safe_bind; [apply read_raw_value_safe|intros b _].
  by eapply safe_bind; [apply safe_guard|].
Qed.

Lemma lxmf_decode_payload_exact input p :
  bytes_ok input -> decode_lxmf_payload input = Ok p <-> len input <= LXMF_PAYLOAD_MAX_LEN /\ payload_form input p.
Proof.
  intros Hb. unfold decode_lxmf_payload. rewrite <- (leb_guard (len input)).
  destruct (len input >? LXMF_PAYLOAD_MAX_LEN) eqn:E; cbn [guard_err mbind outcome_bind]; [split; [done|by intros []]|].
  apply leb_guard in E. rewrite accepts_run; [split; [done|by intros []]|apply accepts_payload|done|].
  unfold usize_MAX. change LXMF_PAYLOAD_MAX_LEN with 4000 in E. lia.
Qed.

(** Every element of the payload is a value of the grammar. *)
Lemma bin_or_str_value v d : bin_or_str v d -> value depth_limit v.
Proof.
  intros (marker & hd & -> & H). change depth_limit with 16%nat. exists marker, (hd ++ d). split; [done|].
  destruct H as [(Hr & -> & Hd)|(h & -> & Hh & Hd)].
  - apply in_range_spec in Hr. unfold layout_of. rewrite !in_range_reflect.
    unfold MARKER_NIL, MARKER_FALSE, MARKER_TRUE.
    rewrite (bool_decide_eq_true_2 (0xa0 <= marker <= 0xbf)) by done. rewrite !bool_decide_eq_false_2 by lia.
    destruct (Z.eqb_spec marker 0xc0), (Z.eqb_spec marker 0xc2), (Z.eqb_spec marker 0xc3); try lia. done.
  - exists hd, d. rewrite Hd, Z.add_0_r. done.
Qed.

Lemma float64_value v bits : float64 v bits -> value depth_limit v.
Proof.
  intros [_ ->]. change depth_limit with 16%nat. exists MARKER_FLOAT64, (to_be_bytes 8 bits). split; [done|]. apply len_to_be_bytes.
Qed.

(** ** Encoding *)
Lemma bin_bytes_len d : len d <= 2048 -> len (bin_bytes d) = bin_encoded_len (len d).
Proof.
  intros H. unfold bin_bytes, bin_encoded_len. rewrite len_app.
  destruct (Z.leb_spec (len d) 255); rewrite !len_cons, ?len_to_be_bytes, ?len_nil; lia.
Qed.

Lemma bin_bytes_form d : len d <= 2048 -> bin_or_str (bin_bytes d) d.
Proof.
  intros H. pose proof (len_nonneg d). unfold bin_bytes. destruct (Z.leb_spec (len d) 255).
  - exists 0xc4, [len d]. split; [done|]. right. exists 1%nat. split_and!; [done|done|]. unfold from_be_bytes. simpl. lia.
  - exists 0xc5, (to_be_bytes 2 (len d)). split; [done|]. right. exists 2%nat. split_and!; [done|apply len_to_be_bytes|].
    rewrite from_to_be_bytes by (simpl; lia). done.
Qed.

Lemma bin_bytes_ok d : len d <= 2048 -> bytes_ok d -> bytes_ok (bin_bytes d).
Proof.
  intros H Hb. pose proof (len_nonneg d). unfold bin_bytes. rewrite bytes_ok_app. split; [|done].
  destruct (Z.leb_spec (len d) 255); rewrite ?bytes_ok_cons; unfold u8_ok.
  - split_and!; [lia..|apply bytes_ok_nil].
  - split; [lia|]. apply to_be_bytes_ok.
Qed.

Lemma payload_bytes_form p : payload_valid p -> payload_form (payload_bytes p) (without_stamp p).
Proof.
  intros Hv. pose proof Hv as [[Hu Hf] Ht Hc [Hm Hlm]].
  exists 4, [0x94], (bin_bytes (lp_title p)), (bin_bytes (lp_content p)), []. split; [by rewrite app_nil_r|].
  split; [by exists 0x94, [], 0%nat, 4|]. split; [by apply bin_bytes_form|]. split; [by apply bin_bytes_form|]. by destruct p.
Qed.

Lemma payload_bytes_len p :
  payload_valid p ->
  len (payload_bytes p) = 1 + 9 + bin_encoded_len (len (lp_title p)) + bin_encoded_len (len (lp_content p)) + len (lp_fields p).
Proof.
  intros [_ Ht Hc _]. unfold payload_bytes. rewrite !len_app, !bin_bytes_len, len_to_be_bytes by done.
  change (len [0x94; 0xcb]) with 2. lia.
Qed.

Lemma validate_raw_map_ok v : bytes_ok v -> len v <= usize_MAX -> validate_raw_map v = Ok tt <-> raw_map v v.
Proof.
  intros Hb Hmax. unfold validate_raw_map. rewrite accepts_run; [|apply (accepts_bind _ _ _ _ parses_raw_map (fun _ _ _ _ => accepts_end))|done|done].
  split.
  - intros (v1 & v2 & w & -> & [-> H] & ->). by rewrite app_nil_r in *.
  - intros H. exists v, [], v. by rewrite app_nil_r.
Qed.

Lemma validate_raw_map_safe v : bytes_ok v -> validate_raw_map v <> Panic.
Proof.
  intros Hb. apply (run_reader_safe _ (fun _ => True)); [|done].
  eapply safe_bind; [apply read_raw_map_safe|intros _ _; apply msgpack_finish_safe].
Qed.

(** Encoding succeeds for valid payloads whose stamp is within its limit and
    whose encoding is within the payload's. *)
Record encodable (p : LxmfPayloadRef) : Prop := {
  en_valid : payload_valid p;
  en_stamp : len (default [] (lp_stamp p)) <= 128;
  en_len : len (payload_bytes p) <= 4000;
}.

Lemma validate_for_encode_ok p :
  payload_ok p -> len (lp_fields p) <= usize_MAX ->
  validate_payload_for_encode p = Ok tt <-> payload_valid p /\ len (default [] (lp_stamp p)) <= 128.
Proof.
  intros [Hu _ _ Hb] Hmax. unfold validate_payload_for_encode.
  rewrite !unit_bind_ok, !guard_err_ok, !leb_guard, (validate_raw_map_ok _ Hb Hmax), negb_false_iff.
  assert (match lp_stamp p with
    | Some stamp => guard_err (len stamp >? LXMF_STAMP_MAX_LEN) (StampTooLarge (len stamp) LXMF_STAMP_MAX_LEN)
    | None => Ok tt end = Ok tt <-> len (default [] (lp_stamp p)) <= 128) as ->.
  { destruct (lp_stamp p) as [st|]; cbn [default id]; [by rewrite guard_err_ok, leb_guard|]. done. }
  split; [intros (? & ? & ? & ? & ? & ?); by split_and!|intros [[[] ? ? []] ?]; done].
Qed.

Lemma lxmf_encoded_len_ok p n :
  payload_ok p -> len (lp_fields p) <= usize_MAX ->
  lxmf_payload_encoded_len p = Ok n <-> encodable p /\ n = len (payload_bytes p).
Proof.
  intros Hok Hmax. unfold lxmf_payload_encoded_len. rewrite unit_bind_ok, (validate_for_encode_ok p Hok Hmax).
  assert (payload_valid p -> forall n,
    (ok_or (n ← (n ← (n ← checked_add 1 9; checked_add n (bin_encoded_len (len (lp_title p))));
               checked_add n (bin_encoded_len (len (lp_content p))));
           checked_add n (len (lp_fields p))) (PayloadTooLarge (len (lp_fields p)) LXMF_PAYLOAD_MAX_LEN)
     ≫= (fun required => if required >? LXMF_PAYLOAD_MAX_LEN then Err (PayloadTooLarge required LXMF_PAYLOAD_MAX_LEN) else Ok required)) = Ok n <->
    len (payload_bytes p) <= 4000 /\ n = len (payload_bytes p)) as H.
  { intros Hv m. rewrite (payload_bytes_len p Hv). destruct Hv as [_ Ht Hc [_ Hm]].
    assert (forall d : list Z, len d <= 2048 -> 0 <= bin_encoded_len (len d) <= 2051) as Hbl.
    { intros d Hd. pose proof (len_nonneg d). unfold bin_encoded_len. case_match; lia. }
    pose proof (Hbl _ Ht). pose proof (Hbl _ Hc). pose proof (len_nonneg (lp_fields p)).
    unfold checked_add, usize_MAX.
    repeat (cbn [mbind option_bind]; match goal with |- context [?a <=? ?b] => destruct (Z.leb_spec a b); [|lia] end).
    cbn [ok_or mbind outcome_bind option_bind]. rewrite Z.gtb_ltb. change LXMF_PAYLOAD_MAX_LEN with 4000.
    case_match eqn:E; rewrite ?Z.ltb_lt, ?Z.ltb_ge in E; (split; [intros; simplify_eq; lia|intros [? ->]]); [lia|]. f_equal; lia. }
  split.
  - intros ([Hv Hs] & Hn). apply H in Hn as [Hl ->]; [|done]. done.
  - intros ([Hv Hs Hl] & ->). split; [done|]. by apply H.
Qed.

Lemma writes_bin d : len d <= 2048 -> writes (write_bin d) tt (bin_bytes d).
Proof.
  intros H. pose proof (len_nonneg d). unfold write_bin, bin_bytes, as_u8, as_u16.
  eapply writes_bind; [|eauto with cursor].
  destruct (Z.leb_spec (len d) 255).
  - rewrite Z.mod_small by lia. change [0xc4; len d] with ([0xc4] ++ [len d]). eapply writes_bind; eauto with cursor.
  - rewrite Z.mod_small by lia. destruct (Z.leb_spec (len d) 65535); [|lia].
    change (0xc5 :: to_be_bytes 2 (len d)) with ([0xc5] ++ to_be_bytes 2 (len d)). eapply writes_bind; eauto with cursor.
Qed.

Lemma writes_payload p : payload_valid p -> writes (encode_payload_body p) tt (payload_bytes p).
Proof.
  intros [_ Ht Hc _]. unfold encode_payload_body, payload_bytes.
  change ([0x94; 0xcb] ++ ?l) with ([0x94] ++ [0xcb] ++ l). change (Z.lor 0x90 _) with 0x94.
  do 2 (eapply writes_bind; [apply writes_u8|]). eapply writes_bind; [apply writes_be|].
  do 2 (eapply writes_bind; [by apply writes_bin|]). apply writes_array.
Qed.

Lemma encode_payload_ok p out :
  payload_ok p -> len (lp_fields p) <= usize_MAX -> encodable p ->
  encode_lxmf_payload p out =
    if len out <? len (payload_bytes p) then (Err (OutputTooSmall (len (payload_bytes p)) (len out)), out)
    else (Ok (len (payload_bytes p)), payload_bytes p ++ drop (length (payload_bytes p)) out).
Proof.
  intros Hok Hmax He. unfold encode_lxmf_payload.
  rewrite (proj2 (lxmf_encoded_len_ok p _ Hok Hmax) (conj He eq_refl)), lift_bind_ok, get_bind.
  destruct (Z.ltb_spec (len out) (len (payload_bytes p))); [done|]. rewrite guard_false by done.
  by erewrite io_bind_ok; [|apply writes_run; [apply writes_payload, He|lia]].
Qed.

Lemma payload_encoded_len_safe p : payload_ok p -> lxmf_payload_encoded_len p <> Panic.
Proof.
  intros [_ _ _ Hb]. unfold lxmf_payload_encoded_len, validate_payload_for_encode.
  repeat (apply outcome_bind_safe; [|intros ? _]); try apply guard_err_safe; try apply ok_or_safe; [by apply validate_raw_map_safe|..].
  - by destruct (lp_stamp p); [apply guard_err_safe|].
  - by case_match.
Qed.

(** ** Messages *)
(** What the decoder accepts, and what the fields of the message are. *)
Record message_form (input : list Z) (m : LxmfMessageRef) : Prop := {
  mf_input : input = lm_destination_hash m ++ lm_source_hash m ++ lm_signature m ++ lm_packed_payload m;
  mf_destination : len (lm_destination_hash m) = 16;
  mf_source : len (lm_source_hash m) = 16;
  mf_signature : len (lm_signature m) = 64;
  mf_payload : payload_form (lm_packed_payload m) (lm_payload m);
  mf_len : len input <= 4096;
}.

Lemma lxmf_split (input : list Z) :
  96 <= len input ->
  exists d s g t, input = d ++ s ++ g ++ t /\ len d = 16 /\ len s = 16 /\ len g = 64.
Proof.
  intros H. destruct (split_at 16 input) as (d & r1 & -> & Hd); [lia|]. rewrite len_app in H.
  destruct (split_at 16 r1) as (s & r2 & -> & Hs); [lia|]. rewrite len_app in H.
  destruct (split_at 64 r2) as (g & t & -> & Hg); [lia|]. by exists d, s, g, t.
Qed.

Lemma bytes_ok_tail (d s g t : list Z) : bytes_ok (d ++ s ++ g ++ t) -> bytes_ok t.
Proof. rewrite !bytes_ok_app. tauto. Qed.

(** The decoder on an input of legal length. *)
Lemma decode_lxmf_split d s g t :
  len d = 16 -> len s = 16 -> len g = 64 -> len (d ++ s ++ g ++ t) <= 4096 ->
  decode_lxmf_message (d ++ s ++ g ++ t) =
    (payload ← decode_lxmf_payload t; Ok (mk_lxmf_message d s g t payload)).
Proof.
  intros Hd Hs Hg Hl. pose proof (len_nonneg t). unfold decode_lxmf_message.
  change LXMF_FIXED_HEADER_LEN with 96. change LXMF_MESSAGE_MAX_LEN with 4096. change LXMF_DESTINATION_HASH_LEN with 16.
  change LXMF_SOURCE_HASH_LEN with 16. change LXMF_SIGNATURE_LEN with 64.
  rewrite Z.gtb_ltb. rewrite !len_app in *.
  destruct (Z.ltb_spec (len d + (len s + (len g + len t))) 96); [lia|].
  destruct (Z.ltb_spec 4096 (len d + (len s + (len g + len t)))); [lia|]. cbn [guard_err mbind outcome_bind].
  pose proof (slice_app (E:=LxmfError) [] d (s ++ g ++ t) 16 Hd) as E1. change (slice (E:=LxmfError) (d ++ s ++ g ++ t) 0 16 = Ok d) in E1. rewrite E1.
  cbn [mbind outcome_bind]. rewrite to_array_ok by done. cbn [mbind outcome_bind].
  pose proof (slice_app (E:=LxmfError) d s (g ++ t) 16 Hs) as E2. rewrite Hd in E2. rewrite E2.
  cbn [mbind outcome_bind]. rewrite to_array_ok by done. cbn [mbind outcome_bind].
  pose proof (slice_app (E:=LxmfError) (d ++ s) g t 64 Hg) as E3. rewrite len_app, Hd, Hs, <- app_assoc in E3. rewrite E3.
  cbn [mbind outcome_bind]. rewrite to_array_ok by done. cbn [mbind outcome_bind].
  pose proof (slice_app (E:=LxmfError) (d ++ s ++ g) t [] (len t) eq_refl) as E4.
  rewrite !len_app, Hd, Hs, Hg, app_nil_r, <- !app_assoc in E4. rewrite Hd, Hs, Hg.
  replace (16 + (16 + (64 + len t))) with (16 + (16 + 64) + len t) by lia. change 96 with (16 + (16 + 64)). by rewrite E4.
Qed.

Lemma lxmf_decode_message_exact input m :
  bytes_ok input -> decode_lxmf_message input = Ok m <-> message_form input m.
Proof.
  intros Hb. split.
  - intros H. assert (96 <= len input /\ len input <= 4096) as [Hl Hu].
    { unfold decode_lxmf_message in H. change LXMF_FIXED_HEADER_LEN with 96 in H. change LXMF_MESSAGE_MAX_LEN with 4096 in H.
      rewrite Z.gtb_ltb in H. destruct (Z.ltb_spec (len input) 96); [done|]. destruct (Z.ltb_spec 4096 (len input)); [done|]. done. }
    destruct (lxmf_split input Hl) as (d & s & g & t & -> & Hd & Hs & Hg). rewrite decode_lxmf_split in H by done.
    destruct (decode_lxmf_payload t) as [p|e|] eqn:E; [|done..]. simplify_eq/=.
    apply lxmf_decode_payload_exact in E as [_ E]; [by split|]. by apply bytes_ok_tail in Hb.
  - intros [-> Hd Hs Hg Hp Hl]. rewrite decode_lxmf_split by done.
    rewrite (proj2 (lxmf_decode_payload_exact _ (lm_payload m) (bytes_ok_tail _ _ _ _ Hb))); [by destruct m|].
    split; [|done]. rewrite !len_app in Hl. change LXMF_PAYLOAD_MAX_LEN with 4000. lia.
Qed.

Lemma lxmf_decode_message_safe input : bytes_ok input -> decode_lxmf_message input <> Panic.
Proof.
  intros Hb. destruct (Z.le_gt_cases 96 (len input)) as [Hl|Hl].
  - destruct (Z.le_gt_cases (len input) 4096) as [Hu|Hu].
    + destruct (lxmf_split input Hl) as (d & s & g & t & -> & Hd & Hs & Hg). rewrite decode_lxmf_split by done.
      apply outcome_bind_safe; [|done]. by eapply lxmf_decode_safe, bytes_ok_tail.
    + unfold decode_lxmf_message. change LXMF_FIXED_HEADER_LEN with 96. change LXMF_MESSAGE_MAX_LEN with 4096.
      rewrite Z.gtb_ltb. destruct (Z.ltb_spec (len input) 96); [done|]. by destruct (Z.ltb_spec 4096 (len input)); [|lia].
  - unfold decode_lxmf_message. change LXMF_FIXED_HEADER_LEN with 96. by destruct (Z.ltb_spec (len input) 96); [|lia].
Qed.

(** *** Encoding a message *)
Lemma on_slice_app {E A} (f : io (list Z) E A) (pre mid rest mid' : list Z) r a b :
  a = len pre -> b = len pre + len mid -> f mid = (r, mid') ->
  on_slice a b f (pre ++ mid ++ rest) = (r, pre ++ mid' ++ rest).
Proof.
  intros -> -> H. unfold on_slice. rewrite slice_app by done. rewrite H.
  rewrite take_len_app. by rewrite <- len_app, (app_assoc pre mid rest), drop_len_app.
Qed.

Definition message_bytes (destination source signature : list Z) (p : LxmfPayloadRef) : list Z :=
  destination ++ source ++ signature ++ payload_bytes p.

Lemma encode_message_ok d s g p out :
  len d = 16 -> len s = 16 -> len g = 64 -> payload_ok p -> len (lp_fields p) <= usize_MAX -> encodable p ->
  encode_lxmf_message d s g p out =
    if len out <? len (message_bytes d s g p) then (Err (OutputTooSmall (len (message_bytes d s g p)) (len out)), out)
    else (Ok (len (message_bytes d s g p)), message_bytes d s g p ++ drop (length (message_bytes d s g p)) out).
Proof.
  intros Hd Hs Hg Hok Hmax He. pose proof (en_len _ He) as Hl. pose proof (len_nonneg (payload_bytes p)).
  assert (len (message_bytes d s g p) = 96 + len (payload_bytes p)) as Hn.
  { unfold message_bytes. rewrite !len_app. lia. }
  unfold encode_lxmf_message. rewrite (proj2 (lxmf_encoded_len_ok p _ Hok Hmax) (conj He eq_refl)), lift_bind_ok.
  change LXMF_FIXED_HEADER_LEN with 96. change LXMF_MESSAGE_MAX_LEN with 4096. change LXMF_DESTINATION_HASH_LEN with 16.
  change LXMF_SOURCE_HASH_LEN with 16. change LXMF_SIGNATURE_LEN with 64.
  unfold checked_add, usize_MAX. rewrite <- Hn. destruct (Z.leb_spec (len (message_bytes d s g p)) (2 ^ 64 - 1)); [|lia].
  cbn [ok_or]. rewrite lift_bind_ok, guard_false by (apply leb_guard; lia). rewrite get_bind.
  destruct (Z.ltb_spec (len out) (len (message_bytes d s g p))) as [|Ho]; [done|]. rewrite guard_false by done.
  destruct (split_at (len (message_bytes d s g p)) out) as (o & rest & -> & Hlo); [pose proof (len_nonneg (message_bytes d s g p)); lia|].
  replace (drop (length (message_bytes d s g p)) (o ++ rest)) with rest
    by (rewrite drop_app_length'; [done|unfold len in Hlo; lia]).
  destruct (lxmf_split o) as (o1 & o2 & o3 & o4 & -> & H1 & H2 & H3); [lia|]. clear Ho.
  rewrite !len_app in Hlo. assert (len o4 = len (payload_bytes p)) as H4 by lia.
  rewrite <- !app_assoc.
  erewrite io_bind_ok by (apply (copy_at_app [] d o1); [done|lia]). cbn [app].
  erewrite io_bind_ok by (apply (copy_at_app d s o2); lia).
  erewrite io_bind_ok by (rewrite app_assoc; apply (copy_at_app (d ++ s) g o3); rewrite ?len_app; lia).
  rewrite !app_assoc, <- !app_assoc, (app_assoc d s), (app_assoc (d ++ s) g).
  erewrite io_bind_ok.
  2: { apply (on_slice_app _ ((d ++ s) ++ g) o4 rest); [rewrite !len_app; lia|rewrite !len_app; lia|].
       rewrite encode_payload_ok by done. destruct (Z.ltb_spec (len o4) (len (payload_bytes p))); [lia|].
       rewrite drop_ge by (unfold len in H4; lia). by rewrite app_nil_r. }
  unfold mret, io_ret. rewrite Hn. f_equal. unfold message_bytes. by rewrite <- !app_assoc.
Qed.

(** ** Truncated and extended messages *)
Lemma lxmf_prefix_error input m u w :
  bytes_ok input -> message_form input m -> input = u ++ w -> w <> [] ->
  decode_lxmf_message u = Err (if len u <? 96 then MessageTooShort (len u) 96 else MsgpackTruncated).
Proof.
  intros Hb [Hi Hd Hs Hg Hp Hl] Hu Hw. destruct (Z.ltb_spec (len u) 96) as [H|H].
  - unfold decode_lxmf_message. change LXMF_FIXED_HEADER_LEN with 96. by destruct (Z.ltb_spec (len u) 96); [|lia].
  - destruct (lxmf_split u H) as (d & s & g & t & -> & Hd' & Hs' & Hg'). rewrite Hi in Hu. rewrite <- !app_assoc in Hu.
    apply app_inv_len in Hu as [<- Hu]; [|lia]. apply app_inv_len in Hu as [<- Hu]; [|lia].
    apply app_inv_len in Hu as [<- Hu]; [|lia]. subst input. rewrite Hu in *. apply bytes_ok_tail in Hb.
    rewrite !len_app in *. pose proof (len_nonneg w).
    rewrite decode_lxmf_split; [|done..|rewrite !len_app; lia].
    assert (decode_lxmf_payload t = Err MsgpackTruncated) as ->; [|done].
    unfold decode_lxmf_payload. rewrite (proj2 (leb_guard _ _)) by (change LXMF_PAYLOAD_MAX_LEN with 4000; lia).
    cbn [guard_err mbind outcome_bind].
    destruct (decodes_run_prefix _ _ _ _ _ _ _ (ac_complete _ _ accepts_payload _ _ Hb Hp) eq_refl Hw) as (e & -> & ->); [|done].
    rewrite len_app. unfold usize_MAX. lia.
Qed.

Lemma lxmf_extra_error input m x :
  bytes_ok input -> message_form input m -> x <> [] ->
  decode_lxmf_message (input ++ x) =
    Err (if len (input ++ x) <=? 4096 then MsgpackTrailingBytes else MessageTooLarge (len (input ++ x)) 4096).
Proof.
  intros Hb [-> Hd Hs Hg Hp Hl] Hx. destruct (Z.leb_spec (len ((lm_destination_hash m ++ lm_source_hash m ++ lm_signature m ++ lm_packed_payload m) ++ x)) 4096) as [H|H].
  - rewrite <- !app_assoc in *. apply bytes_ok_tail in Hb. rewrite decode_lxmf_split by done. rewrite !len_app in H.
    pose proof (len_nonneg x).
    assert (decode_lxmf_payload (lm_packed_payload m ++ x) = Err MsgpackTrailingBytes) as ->; [|done].
    unfold decode_lxmf_payload. rewrite (proj2 (leb_guard _ _)) by (rewrite len_app; change LXMF_PAYLOAD_MAX_LEN with 4000; lia).
    cbn [guard_err mbind outcome_bind].
    destruct (decodes_run_extra _ _ _ _ _ _ (ac_complete _ _ accepts_payload _ _ Hb Hp) Hx) as (e & -> & ->); [|done].
    rewrite len_app. unfold usize_MAX. lia.
  - unfold decode_lxmf_message. change LXMF_FIXED_HEADER_LEN with 96. change LXMF_MESSAGE_MAX_LEN with 4096.
    set (i := (_ ++ x)) in *. destruct (Z.ltb_spec (len i) 96); [lia|]. rewrite Z.gtb_ltb. by destruct (Z.ltb_spec 4096 (len i)); [|lia].
Qed.

(** ** Signing payloads *)
(** A time, a string or a binary, a map: each is one value, so that a payload
    that decodes can be signed. *)
Definition signing_bytes (p : SigningPayload) : list Z :=
  match p with Original bytes => bytes | CanonicalArray4 elements _ => FIXED_ARRAY4_MARKER :: concat elements end.

Definition signing_form (packed v : list Z) (sp : SigningPayload) : Prop :=
  exists h k body, v = h ++ body /\ array_header h k /\
    (k = 4 /\ sp = Original packed /\ (exists vs, body = concat vs /\ len vs = 4 /\ Forall (value depth_limit) vs) \/
     k = 5 /\ exists e1 e2 e3 e4 st n, body = e1 ++ e2 ++ e3 ++ e4 ++ st /\
       value depth_limit e1 /\ value depth_limit e2 /\ value depth_limit e3 /\ value depth_limit e4 /\ value depth_limit st /\
       canonical_array4_len [e1; e2; e3; e4] = Ok n /\ sp = CanonicalArray4 [e1; e2; e3; e4] n).

Lemma consumes_raw_unit : consumes (_ ← read_raw_value; mret tt) (value depth_limit).
Proof.
  split.
  - intros pre rest c Hb H. apply io_bind_inv in H as (w & c1 & H1 & H2).
    destruct (pa_sound _ _ parses_raw_value _ _ _ _ Hb H1) as (v & r & -> & [-> Hv] & ->).
    unfold mret, io_ret in H2. simplify_eq. by exists v, r.
  - intros v Hb Hv. eapply reads_last; [by apply (pa_complete _ _ parses_raw_value v v Hb)|apply reads_ret].
Qed.

Lemma parses_raw_four :
  parses (for_range LXMF_PAYLOAD_ARRAY_LEN (_ ← read_raw_value; mret tt))
    (fun v _ => exists vs, v = concat vs /\ len vs = 4 /\ Forall (value depth_limit) vs).
Proof.
  destruct (consumes_range _ _ LXMF_PAYLOAD_ARRAY_LEN ltac:(done) consumes_raw_unit) as [Hs Hc].
  split; [intros pre rest [] c Hb H; exact (Hs _ _ _ Hb H)|intros v [] Hb H; exact (Hc v Hb H)].
Qed.

Lemma accepts_signing packed : accepts (parse_signing_body packed) (signing_form packed).
Proof.
  unfold parse_signing_body. eapply accepts_iff; [|apply (accepts_bind _ _ _ (fun k v sp =>
    k = 4 /\ sp = Original packed /\ (exists vs, v = concat vs /\ len vs = 4 /\ Forall (value depth_limit) vs) \/
    k = 5 /\ exists e1 e2 e3 e4 st n, v = e1 ++ e2 ++ e3 ++ e4 ++ st /\
       value depth_limit e1 /\ value depth_limit e2 /\ value depth_limit e3 /\ value depth_limit e4 /\ value depth_limit st /\
       canonical_array4_len [e1; e2; e3; e4] = Ok n /\ sp = CanonicalArray4 [e1; e2; e3; e4] n) parses_array_len)].
  { intros v sp _. cbv beta. split; [intros (h & body & k & -> & Hh & H)|intros (h & k & body & -> & Hh & H)]; [by exists h, k, body|by exists h, body, k]. }
  intros h k _ _. destruct (decide (k = 4)) as [->|H4].
  { eapply accepts_iff; [|apply (accepts_bind _ _ _ _ parses_raw_four (fun _ _ _ _ => accepts_finish _))].
    intros v sp _. cbv beta. split.
    - intros (v1 & v2 & [] & -> & H & -> & [= <-]). left. by rewrite app_nil_r.
    - intros [(_ & -> & H)|[? _]]; [|done]. exists v, [], tt. by rewrite app_nil_r. }
  destruct (decide (k = 5)) as [->|H5].
  { eapply accepts_iff; cycle 1.
    { do 5 (eapply accepts_bind; [apply parses_raw_value|intros ? ? _ _]). apply accepts_finish. }
    intros v sp _. cbv beta. split.
    - intros (e1 & ? & ? & -> & [-> H1] & e2 & ? & ? & -> & [-> H2] & e3 & ? & ? & -> & [-> H3] & e4 & ? & ? & -> & [-> H4'] &
        st & ? & ? & -> & [-> H5] & -> & H).
      right. split; [done|]. destruct (canonical_array4_len _) as [n|err|] eqn:E; [|done..]. injection H as <-.
      exists e1, e2, e3, e4, st, n. rewrite app_nil_r. done.
    - intros [[? _]|(_ & e1 & e2 & e3 & e4 & st & n & -> & H1 & H2 & H3 & H4' & H5 & E & ->)]; [done|].
      eexists e1, _, e1. split; [reflexivity|]. split; [done|]. eexists e2, _, e2. split; [reflexivity|]. split; [done|].
      eexists e3, _, e3. split; [reflexivity|]. split; [done|]. eexists e4, _, e4. split; [reflexivity|]. split; [done|].
      exists st, [], st. rewrite app_nil_r. split; [reflexivity|]. split; [done|]. split; [done|]. by rewrite E. }
  assert (forall e, accepts (lift (Err e) : io read_cursor LxmfError SigningPayload) (fun v sp =>
    k = 4 /\ sp = Original packed /\ (exists vs, v = concat vs /\ len vs = 4 /\ Forall (value depth_limit) vs) \/
    k = 5 /\ exists e1 e2 e3 e4 st n, v = e1 ++ e2 ++ e3 ++ e4 ++ st /\
       value depth_limit e1 /\ value depth_limit e2 /\ value depth_limit e3 /\ value depth_limit e4 /\ value depth_limit st /\
       canonical_array4_len [e1; e2; e3; e4] = Ok n /\ sp = CanonicalArray4 [e1; e2; e3; e4] n)) as Hf.
  { intros e. eapply accepts_iff; [|apply accepts_fail]. intros v sp _. split; [done|]. by intros [[? _]|[? _]]. }
  clear h. repeat match goal with |- accepts (match ?x with _ => _ end) _ => destruct x end; done || apply Hf.
Qed.

(** Every payload that decodes parses again for signing. *)
Lemma element_lens_ok n l : n + len (concat l) <= usize_MAX -> add_element_lens n l = Ok (n + len (concat l)).
Proof.
  revert n. induction l as [|e l IH]; intros n H; cbn [add_element_lens concat] in *; [by rewrite Z.add_0_r|].
  rewrite len_app in *. pose proof (len_nonneg (concat l)). unfold checked_add.
  destruct (Z.leb_spec (n + len e) usize_MAX); [|lia]. cbn [ok_or mbind outcome_bind]. rewrite IH by lia. f_equal. lia.
Qed.

Lemma payload_form_values v p :
  payload_form v p ->
  exists h k e1 e2 e3 st, array_header h k /\ v = h ++ e1 ++ e2 ++ e3 ++ lp_fields p ++ st /\ stamp_form k st (lp_stamp p) /\
    value depth_limit e1 /\ value depth_limit e2 /\ value depth_limit e3 /\ value depth_limit (lp_fields p) /\
    float64 e1 (lp_timestamp_secs p) /\ bin_or_str e2 (lp_title p) /\ bin_or_str e3 (lp_content p) /\ payload_valid p.
Proof.
  intros (k & h & t & c & st & -> & Hh & Ht & Hc & Hs & Hv). pose proof Hv as [[Hu _] _ _ [[_ [Hm _]] _]].
  assert (float64 (MARKER_FLOAT64 :: to_be_bytes 8 (lp_timestamp_secs p)) (lp_timestamp_secs p)) as Hf by done.
  exists h, k, (MARKER_FLOAT64 :: to_be_bytes 8 (lp_timestamp_secs p)), t, c, st.
  split; [done|]. split; [done|]. split; [done|]. split; [by eapply float64_value|]. split; [by eapply bin_or_str_value|].
  split; [by eapply bin_or_str_value|]. done.
Qed.

(** What is signed and hashed: the packed payload itself without a stamp, and
    the payload with the stamp removed, under the canonical header, with one. *)
Definition signed (m : LxmfMessageRef) (bytes : list Z) : Prop :=
  match lp_stamp (lm_payload m) with
  | None => bytes = lm_packed_payload m
  | Some stamp => exists h body, lm_packed_payload m = h ++ body ++ stamp /\ array_header h 5 /\ bytes = 0x94 :: body
  end.

Lemma signing_parse_form v p :
  bytes_ok v -> len v <= 4000 -> payload_form v p ->
  exists sp, signing_parse v = Ok sp /\ signing_len sp = len (signing_bytes sp) /\ bytes_ok (signing_bytes sp) /\ len (signing_bytes sp) <= 4000 /\
    payload_form (signing_bytes sp) (without_stamp p) /\
    match lp_stamp p with
    | None => signing_bytes sp = v
    | Some stamp => exists h body, v = h ++ body ++ stamp /\ array_header h 5 /\ signing_bytes sp = 0x94 :: body
    end.
Proof.
  intros Hb Hl Hp. assert (len v <= usize_MAX) as Hmax by (unfold usize_MAX; lia).
  pose proof (payload_form_values v p Hp) as (h & k & e1 & e2 & e3 & st & Hh & Hv & Hs & H1 & H2 & H3 & H4 & Hf & Ht & Hc & Hval).
  destruct (lp_stamp p) as [stamp|] eqn:Est; simpl in Hs.
  - destruct Hs as (-> & -> & H5 & _). pose proof (len_nonneg h). pose proof (len_nonneg stamp).
    assert (len (concat [e1; e2; e3; lp_fields p]) = len v - len h - len stamp) as Hn.
    { rewrite Hv. cbn [concat]. rewrite !len_app. change (len (@nil Z)) with 0. lia. }
    assert (1 <= len h) by (destruct Hh as (mk & hd & ? & ? & -> & _); rewrite len_cons; pose proof (len_nonneg hd); lia).
    exists (CanonicalArray4 [e1; e2; e3; lp_fields p] (1 + len (concat [e1; e2; e3; lp_fields p]))).
    cbn [signing_len signing_bytes]. split.
    { apply (accepts_run _ _ _ _ (accepts_signing v) Hb Hmax). exists h, 5, (e1 ++ e2 ++ e3 ++ lp_fields p ++ stamp).
      split; [done|]. split; [done|]. right. split; [done|].
      exists e1, e2, e3, (lp_fields p), stamp, (1 + len (concat [e1; e2; e3; lp_fields p])). do 6 (split; [done|]). split; [|done].
      apply element_lens_ok. rewrite Hn. unfold usize_MAX. lia. }
    rewrite len_cons. split; [done|]. split.
    { rewrite Hv, !bytes_ok_app in Hb. apply bytes_ok_cons. split; [done|]. cbn [concat]. rewrite app_nil_r, !bytes_ok_app. tauto. }
    split; [lia|]. cbn [concat]. rewrite app_nil_r. split.
    + exists 4, [0x94], e2, e3, []. destruct Hf as [_ ->]. rewrite app_nil_r. split; [done|].
      split; [by exists 0x94, [], 0%nat, 4|]. do 2 (split; [done|]). split; [done|]. by destruct p, Hval.
    + exists h, (e1 ++ e2 ++ e3 ++ lp_fields p). rewrite <- !app_assoc. done.
  - destruct Hs as (-> & ->). exists (Original v). cbn [signing_len signing_bytes]. split.
    { apply (accepts_run _ _ _ _ (accepts_signing v) Hb Hmax). exists h, 4, (e1 ++ e2 ++ e3 ++ lp_fields p). rewrite app_nil_r in Hv.
      split; [done|]. split; [done|]. left. split; [done|]. split; [done|]. exists [e1; e2; e3; lp_fields p].
      cbn [concat]. rewrite app_nil_r. split; [done|]. split; [done|]. by rewrite !list.Forall_cons. }
    do 3 (split; [done|]). split; [|done]. destruct p; simpl in Est; by subst.
Qed.

(** ** Theorems *)
Lemma payload_bytes_ok p : payload_ok p -> payload_valid p -> bytes_ok (payload_bytes p).
Proof.
  intros [_ Ht Hc Hm] [_ Hlt Hlc _]. unfold payload_bytes. rewrite !bytes_ok_app.
  split_and!; [apply (bool_decide_unpack _); exact I|apply to_be_bytes_ok|by apply bin_bytes_ok|by apply bin_bytes_ok|done].
Qed.

(** The decoder on what the encoder writes. *)
Lemma lxmf_decode_bytes d s g p :
  array_ok 16 d -> array_ok 16 s -> array_ok 64 g -> payload_ok p -> encodable p ->
  decode_lxmf_message (message_bytes d s g p) = Ok (mk_lxmf_message d s g (payload_bytes p) (without_stamp p)).
Proof.
  intros [Hd Hbd] [Hs Hbs] [Hg Hbg] Hok [Hv _ Hl]. apply lxmf_decode_message_exact.
  - unfold message_bytes. rewrite !bytes_ok_app. split_and!; [done..|by apply payload_bytes_ok].
  - split; [done..|by apply payload_bytes_form|]. unfold message_bytes. rewrite !len_app. lia.
Qed.

Lemma encode_message_cases d s g p out :
  len d = 16 -> len s = 16 -> len g = 64 -> payload_ok p -> len (lp_fields p) <= usize_MAX ->
  (encodable p /\ encode_lxmf_message d s g p out =
    if len out <? len (message_bytes d s g p) then (Err (OutputTooSmall (len (message_bytes d s g p)) (len out)), out)
    else (Ok (len (message_bytes d s g p)), message_bytes d s g p ++ drop (length (message_bytes d s g p)) out)) \/
  (~ encodable p /\ exists e, lxmf_payload_encoded_len p = Err e /\ encode_lxmf_message d s g p out = (Err e, out)).
Proof.
  intros Hd Hs Hg Hok Hmax. pose proof (payload_encoded_len_safe p Hok) as Hsafe.
  destruct (lxmf_payload_encoded_len p) as [n|e|] eqn:E; [| |done].
  - left. pose proof E as E'. apply lxmf_encoded_len_ok in E' as [He _]; [|done..]. split; [done|]. by apply encode_message_ok.
  - right. split.
    + intros He. rewrite (proj2 (lxmf_encoded_len_ok p _ Hok Hmax) (conj He eq_refl)) in E. done.
    + exists e. split; [done|]. unfold encode_lxmf_message. by rewrite E.
Qed.

Section id.
Context (sha256 : list Z -> list Z) (Hsha : forall data, len (sha256 data) = 32).

Lemma update_hasher_bytes sp h : signing_update_hasher sp h = h ++ signing_bytes sp.
Proof.
  destruct sp as [bytes|elements n]; [done|]. cbn [signing_update_hasher signing_bytes].
  change (FIXED_ARRAY4_MARKER :: concat elements) with ([FIXED_ARRAY4_MARKER] ++ concat elements). rewrite app_assoc.
  generalize (h ++ [FIXED_ARRAY4_MARKER]). clear h. induction elements as [|e l IH]; intros h; cbn [fold_left concat].
  - by rewrite app_nil_r.
  - by rewrite IH, app_assoc.
Qed.

Lemma writes_signing sp : writes (signing_write_to sp) tt (signing_bytes sp).
Proof.
  destruct sp as [bytes|elements n]; [apply writes_array|]. cbn [signing_write_to signing_bytes].
  change (FIXED_ARRAY4_MARKER :: concat elements) with ([FIXED_ARRAY4_MARKER] ++ concat elements).
  eapply writes_bind; [apply writes_array|]. clear n. induction elements as [|e l IH]; cbn [write_elements concat].
  - apply writes_ret.
  - eapply writes_bind; [apply writes_array|done].
Qed.

Lemma message_id_signed m sp :
  signing_parse (lm_packed_payload m) = Ok sp ->
  lxmf_message_id sha256 m = Ok (sha256 (lm_destination_hash m ++ lm_source_hash m ++ signing_bytes sp)).
Proof.
  intros H. unfold lxmf_message_id. rewrite H. cbn [mbind outcome_bind]. unfold message_id_with_signing_payload, finish_message_id.
  rewrite update_hasher_bytes. unfold message_id_hasher. change ([] ++ ?l) with l. by rewrite <- app_assoc.
Qed.

Lemma write_signature_signed m sp out :
  signing_parse (lm_packed_payload m) = Ok sp -> signing_len sp = len (signing_bytes sp) -> len (signing_bytes sp) <= 4000 ->
  len (lm_destination_hash m) = 16 -> len (lm_source_hash m) = 16 ->
  write_lxmf_signature_input sha256 m out =
    if len out <? 64 + len (signing_bytes sp) then (Err (OutputTooSmall (64 + len (signing_bytes sp)) (len out)), out)
    else (Ok (64 + len (signing_bytes sp)),
          (lm_destination_hash m ++ lm_source_hash m ++ signing_bytes sp ++
           sha256 (lm_destination_hash m ++ lm_source_hash m ++ signing_bytes sp)) ++ drop (Z.to_nat (64 + len (signing_bytes sp))) out).
Proof.
  intros H Hn Hl Hd Hs. pose proof (len_nonneg (signing_bytes sp)). unfold write_lxmf_signature_input.
  rewrite H, lift_bind_ok, get_bind, Hn. change LXMF_DESTINATION_HASH_LEN with 16. change LXMF_SOURCE_HASH_LEN with 16.
  change LXMF_MESSAGE_ID_LEN with 32. unfold checked_add, usize_MAX. cbn [mbind option_bind Z.leb Z.compare].
  repeat (cbn [mbind option_bind]; match goal with |- context [?a <=? ?b] => destruct (Z.leb_spec a b); [|lia] end).
  replace (16 + 16 + len (signing_bytes sp) + 32) with (64 + len (signing_bytes sp)) by lia. cbn [ok_or]. rewrite lift_bind_ok.
  destruct (Z.ltb_spec (len out) (64 + len (signing_bytes sp))); [done|]. rewrite guard_false by done.
  set (id := sha256 (lm_destination_hash m ++ lm_source_hash m ++ signing_bytes sp)).
  set (v := lm_destination_hash m ++ lm_source_hash m ++ signing_bytes sp ++ id).
  assert (len v = 64 + len (signing_bytes sp)) as Hv. { subst v id. rewrite !len_app, Hsha. lia. }
  erewrite io_bind_ok; [|apply (writes_run _ tt v); [|lia]].
  - replace (Z.to_nat (64 + len (signing_bytes sp))) with (length v) by (unfold len in *; lia). done.
  - subst v. do 2 (eapply writes_bind; [apply writes_array|]). eapply writes_bind; [apply writes_signing|].
    unfold message_id_with_signing_payload, finish_message_id, message_id_hasher. rewrite update_hasher_bytes.
    change ([] ++ ?l) with l. rewrite <- app_assoc. apply writes_array.
Qed.
End id.

(** C21. Decoding LXMF messages: no input makes the decoder panic, and it
    accepts exactly the messages of the format: two hashes, a signature and a
    payload that is a MessagePack array of four values, or five with a stamp,
    in any of the encodings MessagePack has for them, within the limits. *)
Theorem lxmf_decode_exact input m :
  bytes_ok input ->
  decode_lxmf_message input <> Panic /\ (decode_lxmf_message input = Ok m <-> message_form input m).
Proof. intros Hb. split; [by apply lxmf_decode_message_safe|by apply lxmf_decode_message_exact]. Qed.

(** A message that is cut short or followed by more bytes is rejected with
    the error that says so: too short within the fixed header, truncated behind
    it, trailing bytes up to the largest message, too large beyond. *)
Theorem lxmf_framing_errors input m :
  bytes_ok input -> decode_lxmf_message input = Ok m ->
  (forall u w, input = u ++ w -> w <> [] ->
     decode_lxmf_message u = Err (if len u <? 96 then MessageTooShort (len u) 96 else MsgpackTruncated)) /\
  (forall x, x <> [] ->
     decode_lxmf_message (input ++ x) =
       Err (if len (input ++ x) <=? 4096 then MsgpackTrailingBytes else MessageTooLarge (len (input ++ x)) 4096)).
Proof.
  intros Hb H. apply lxmf_decode_message_exact in H; [|done].
  split; intros; [by eapply lxmf_prefix_error|by eapply lxmf_extra_error].
Qed.

(** Encoding LXMF messages: a message is written exactly when its payload
    is valid, its encoding fits and so does the output; the bytes are the
    canonical form, the output behind them and on failure all of it is
    unchanged, and decoding them gives the message back without its stamp, which
    the encoder does not write. *)
Theorem lxmf_encode_exact d s g p out :
  array_ok 16 d -> array_ok 16 s -> array_ok 64 g -> payload_ok p -> len (lp_fields p) <= usize_MAX ->
  match encode_lxmf_message d s g p out with
  | (Ok n, out') => encodable p /\ n = len (message_bytes d s g p) /\ n <= len out /\
      out' = message_bytes d s g p ++ drop (Z.to_nat n) out /\
      decode_lxmf_message (take (Z.to_nat n) out') = Ok (mk_lxmf_message d s g (payload_bytes p) (without_stamp p))
  | (Err _, out') => out' = out /\ (encodable p -> len out < len (message_bytes d s g p))
  | (Panic, _) => False
  end.
Proof.
  intros Hd Hs Hg Hok Hmax.
  destruct (encode_message_cases d s g p out (proj1 Hd) (proj1 Hs) (proj1 Hg) Hok Hmax) as [[He ->]|(Hn & e & _ & ->)]; [|done].
  destruct (Z.ltb_spec (len out) (len (message_bytes d s g p))); [done|].
  rewrite to_nat_len, take_app_length, lxmf_decode_bytes by done. done.
Qed.

(** Message identifiers do not depend on the stamp.  Every message that
    decodes has an identifier; it is the hash of the two destination and source
    hashes and of the payload without its stamp; the signature input is those
    bytes and the identifier; and the message that carries the payload without
    the stamp, under any signature, decodes, has the same content and the same
    identifier. *)
Theorem lxmf_message_id_stampless sha256 raw m :
  (forall data, len (sha256 data) = 32) -> bytes_ok raw -> decode_lxmf_message raw = Ok m ->
  exists bytes, signed m bytes /\
    let header := lm_destination_hash m ++ lm_source_hash m in
    let id := sha256 (header ++ bytes) in
    lxmf_message_id sha256 m = Ok id /\
    lxmf_signature_input_len m = Ok (len (header ++ bytes ++ id)) /\
    (forall out, len (header ++ bytes ++ id) <= len out ->
       write_lxmf_signature_input sha256 m out =
         (Ok (len (header ++ bytes ++ id)), (header ++ bytes ++ id) ++ drop (length (header ++ bytes ++ id)) out)) /\
    (forall g, array_ok 64 g -> exists m', decode_lxmf_message (header ++ g ++ bytes) = Ok m' /\
       lm_payload m' = without_stamp (lm_payload m) /\ lxmf_message_id sha256 m' = Ok id).
Proof.
  intros Hsha Hb H. apply lxmf_decode_message_exact in H as [-> Hd Hs Hg Hp Hl]; [|done].
  pose proof (bytes_ok_tail _ _ _ _ Hb) as Hbt. rewrite !len_app in Hl.
  destruct (signing_parse_form _ _ Hbt ltac:(lia) Hp) as (sp & Hsp & Hn & Hbs & Hls & Hps & Hcase).
  exists (signing_bytes sp). split; [unfold signed; by destruct (lp_stamp (lm_payload m))|].
  cbv zeta. rewrite <- !app_assoc. set (id := sha256 _).
  assert (len (lm_destination_hash m ++ lm_source_hash m ++ signing_bytes sp ++ id) = 64 + len (signing_bytes sp)) as Hlen.
  { subst id. rewrite !len_app, Hsha. lia. }
  split; [by apply message_id_signed|]. rewrite Hlen. split_and!.
  - unfold lxmf_signature_input_len. rewrite Hsp. cbn [mbind outcome_bind]. rewrite Hn. f_equal.
    change LXMF_DESTINATION_HASH_LEN with 16. change LXMF_SOURCE_HASH_LEN with 16. change LXMF_MESSAGE_ID_LEN with 32. lia.
  - intros out Ho. rewrite (write_signature_signed sha256 Hsha m sp out) by done.
    destruct (Z.ltb_spec (len out) (64 + len (signing_bytes sp))); [lia|]. fold id. rewrite <- Hlen, to_nat_len. by rewrite <- !app_assoc.
  - intros g [Hlg Hbg].
    set (m' := mk_lxmf_message (lm_destination_hash m) (lm_source_hash m) g (signing_bytes sp) (without_stamp (lm_payload m))).
    exists m'. rewrite <- app_assoc. rewrite !bytes_ok_app in Hb. destruct Hb as (Hb1 & Hb2 & _).
    split_and!; [|done|].
    + apply lxmf_decode_message_exact; [rewrite !bytes_ok_app; done|]. split; [done..|exact Hps|rewrite !len_app; lia].
    + destruct (signing_parse_form (signing_bytes sp) _ Hbs ltac:(lia) Hps) as (sp' & Hsp' & _ & _ & _ & _ & E). cbn [lp_stamp without_stamp] in E.
      rewrite (message_id_signed sha256 m' sp' Hsp'). by rewrite E.
Qed.

(** ** Witnesses *)
(** A message with the time 1.5, a binary title, a string content, no fields
    and a stamp. *)
Definition sample_payload : LxmfPayloadRef := mk_payload 0x3ff8000000000000 [104; 105] [120] [0x80] (Some [0xc4; 2; 7; 7]).
Definition sample_packed : list Z :=
  [0x95; 0xcb; 0x3f; 0xf8; 0; 0; 0; 0; 0; 0; 0xc4; 2; 104; 105; 0xa1; 120; 0x80; 0xc4; 2; 7; 7].
Definition sample_message : LxmfMessageRef :=
  mk_lxmf_message (replicate 16 1) (replicate 16 2) (replicate 64 3) sample_packed sample_payload.
Definition sample_lxmf : list Z := replicate 16 1 ++ replicate 16 2 ++ replicate 64 3 ++ sample_packed.

Lemma sample_lxmf_ok : bytes_ok sample_lxmf.
Proof. apply (bool_decide_unpack _); vm_compute; exact I. Qed.

Lemma sample_lxmf_decodes : decode_lxmf_message sample_lxmf = Ok sample_message.
Proof. vm_compute. reflexivity. Qed.

Lemma lxmf_decode_exact_witness : message_form sample_lxmf sample_message.
Proof. apply (lxmf_decode_exact sample_lxmf sample_message sample_lxmf_ok), sample_lxmf_decodes. Defined.

Lemma lxmf_framing_errors_witness :
  decode_lxmf_message (take 100 sample_lxmf) = Err MsgpackTruncated /\
  decode_lxmf_message (sample_lxmf ++ [0]) = Err MsgpackTrailingBytes.
Proof.
  destruct (lxmf_framing_errors sample_lxmf sample_message sample_lxmf_ok sample_lxmf_decodes) as [H1 H2]. split.
  - rewrite (H1 (take 100 sample_lxmf) (drop 100 sample_lxmf)); [done|by rewrite take_drop|done].
  - by rewrite (H2 [0]).
Defined.

Lemma sample_payload_ok : payload_ok sample_payload.
Proof. split; [vm_compute; split; [discriminate|reflexivity]|apply (bool_decide_unpack _); exact I..]. Qed.

Lemma lxmf_encode_exact_witness :
  exists out, encode_lxmf_message (replicate 16 1) (replicate 16 2) (replicate 64 3) sample_payload (zeros 200) = (Ok 114, out) /\
    decode_lxmf_message (take 114 out) =
      Ok (mk_lxmf_message (replicate 16 1) (replicate 16 2) (replicate 64 3) (payload_bytes sample_payload) (without_stamp sample_payload)).
Proof.
  pose proof (lxmf_encode_exact (replicate 16 1) (replicate 16 2) (replicate 64 3) sample_payload (zeros 200)
    ltac:(split; [done|apply (bool_decide_unpack _); exact I]) ltac:(split; [done|apply (bool_decide_unpack _); exact I])
    ltac:(split; [done|apply (bool_decide_unpack _); exact I]) sample_payload_ok ltac:(vm_compute; discriminate)) as H.
  destruct (encode_lxmf_message _ _ _ _ _) as [[n|e|] out] eqn:E.
  - assert (n = 114) as -> by (apply (f_equal fst) in E; vm_compute in E; by injection E as <-).
    exists out. split; [done|]. by destruct H as (_ & _ & _ & _ & H).
  - apply (f_equal fst) in E. vm_compute in E. discriminate E.
  - destruct H.
Defined.

Lemma lxmf_message_id_stampless_witness :
  exists bytes, signed sample_message bytes /\ lxmf_message_id (fun _ => zeros 32) sample_message = Ok (zeros 32).
Proof.
  destruct (lxmf_message_id_stampless (fun _ => zeros 32) sample_lxmf sample_message
    ltac:(done) sample_lxmf_ok sample_lxmf_decodes) as (bytes & Hs & H & _). by exists bytes.
Defined.
