(* ===== verification/LinkLxmf.v ===== *)
(** [hyf_link_lxmf]: LXMF messages carried in HYF envelopes
    (src/crates/hyf_link_lxmf/src/wrap.rs, params.rs, error.rs), an instance of
    [Carrier].  The envelope goes to the LXMF destination of the message. *)
From S2P Require Import Prelude Cursor Core Wire Carrier Msgpack Lxmf.

Inductive HyfLinkLxmfError :=
| LxmfFailed (error : LxmfError)
| HyfWire (error : HyfWireError)
| WrongPayloadKind (actual : PayloadKind).

Record LxmfWrapParams := mk_wrap_params {
  wp_message_id : list Z;
  wp_source_node : list Z;
  wp_created_at_ms : Z;
  wp_expires_at_ms : Z;
  wp_hop_limit : Z;
}.

Definition validate_lxmf_message (raw : list Z) : outcome HyfLinkLxmfError LxmfMessageRef :=
  map_err LxmfFailed (decode_lxmf_message raw).

(** [from_fixed_16] takes an array of 16 bytes and cannot fail: its error type
    is unused. *)
Definition lxmf_endpoint (hash : list Z) : outcome HyfLinkLxmfError ForeignEndpointId :=
  match from_fixed_16 Lxmf hash with Ok e => Ok e | Err _ | Panic => Panic end.

Definition wrap_lxmf_message (raw : list Z) (params : LxmfWrapParams) : outcome HyfLinkLxmfError HyfEnvelopeRef :=
  message ← validate_lxmf_message raw;
  let destination_hash := lm_destination_hash message in
  endpoint ← lxmf_endpoint destination_hash;
  let envelope :=
    mk_envelope HYF_WIRE_VERSION_0 (wp_message_id params) (wp_source_node params) (Foreign endpoint)
      (wp_created_at_ms params) (wp_expires_at_ms params) (wp_hop_limit params) ForeignLxmfMessage raw in
  _ ← map_err HyfWire (validate_envelope envelope);
  Ok envelope.

Definition unwrap_lxmf_message (envelope : HyfEnvelopeRef) : outcome HyfLinkLxmfError (list Z) :=
  _ ← map_err HyfWire (validate_envelope envelope);
  if negb (bool_decide (payload_kind envelope = ForeignLxmfMessage))
  then Err (WrongPayloadKind (payload_kind envelope))
  else
    _ ← validate_lxmf_message (Wire.payload envelope);
    Ok (Wire.payload envelope).

(** What the Rust types guarantee of the parameters. *)
Definition wrap_params_ok (p : LxmfWrapParams) : Prop :=
  message_id_ok (wp_message_id p) /\ node_id_ok (wp_source_node p) /\
  timestamp_ok (wp_created_at_ms p) /\ timestamp_ok (wp_expires_at_ms p) /\ u8_ok (wp_hop_limit p).
Definition lifetime (p : LxmfWrapParams) : Z * Z := (wp_created_at_ms p, wp_expires_at_ms p).

(** ** The instance *)
Definition lxmf_carrier : carrier HyfLinkLxmfError LxmfMessageRef LxmfWrapParams :=
  mk_carrier validate_lxmf_message ForeignLxmfMessage HyfWire WrongPayloadKind
    (fun params raw message =>
       endpoint ← lxmf_endpoint (lm_destination_hash message);
       Ok (mk_envelope HYF_WIRE_VERSION_0 (wp_message_id params) (wp_source_node params) (Foreign endpoint)
         (wp_created_at_ms params) (wp_expires_at_ms params) (wp_hop_limit params) ForeignLxmfMessage raw))
    (fun _ _ => Ok tt).

Lemma lxmf_wrap_is_carrier raw params : wrap_lxmf_message raw params = carrier_wrap lxmf_carrier raw params.
Proof.
  unfold wrap_lxmf_message, carrier_wrap. cbn [lxmf_carrier c_validate c_envelope c_wire_error].
  destruct (validate_lxmf_message raw) as [m|e|]; [|done..]. cbn [mbind outcome_bind].
  by destruct (lxmf_endpoint (lm_destination_hash m)).
Qed.
Lemma lxmf_unwrap_is_carrier e : unwrap_lxmf_message e = carrier_unwrap lxmf_carrier e.
Proof. done. Qed.

Lemma validate_lxmf_ok raw m : bytes_ok raw -> validate_lxmf_message raw = Ok m <-> message_form raw m.
Proof.
  intros Hb. rewrite <- lxmf_decode_message_exact by done. unfold validate_lxmf_message.
  destruct (decode_lxmf_message raw); simpl; split; intros; by simplify_eq.
Qed.

(** The destination of the message is in the envelope. *)
Lemma lxmf_endpoint_ok hash :
  array_ok 16 hash -> exists e, lxmf_endpoint hash = Ok e /\ endpoint_ok e /\ endpoint_id e = hash /\ fe_network e = Lxmf.
Proof.
  intros H. unfold lxmf_endpoint. destruct (from_fixed_16_ok Lxmf hash H) as (e & He & Hok & Hid). rewrite He. exists e.
  split_and!; [done..|]. unfold from_fixed_16 in He. destruct (write_at _ _ _); [|done..]. by simplify_eq/=.
Qed.

Lemma message_destination_ok raw m : bytes_ok raw -> message_form raw m -> array_ok 16 (lm_destination_hash m).
Proof. intros Hb [-> Hd _ _ _ _]. split; [done|]. by apply bytes_ok_app in Hb as [? _]. Qed.

Lemma lxmf_carrier_laws : carrier_laws lxmf_carrier wrap_params_ok lifetime.
Proof.
  split.
  - intros raw Hb. by apply map_err_safe, lxmf_decode_message_safe.
  - intros raw m Hb H. apply validate_lxmf_ok in H as [_ _ _ _ _ H]; [lia|done].
  - done.
  - intros params raw m (? & ? & ? & ? & ?) Hb Hv. apply validate_lxmf_ok in Hv; [|done].
    pose proof (message_destination_ok raw m Hb Hv) as Hd.
    destruct (lxmf_endpoint_ok _ Hd) as (e & He & Hok & _ & _). cbn [lxmf_carrier c_envelope]. rewrite He.
    eexists. split; [done|]. by split.
Qed.

(** Carrying LXMF messages: a message is wrapped exactly when it decodes
    and gets a positive lifetime; the envelope is addressed to the message's
    LXMF destination, goes through the envelope codec and unwraps to the
    message, byte for byte; and what unwraps is a message that decodes.
    Nothing panics. *)
Theorem lxmf_wrap_exact raw params e out :
  bytes_ok raw -> wrap_params_ok params -> envelope_ok e ->
  wrap_lxmf_message raw params <> Panic /\ unwrap_lxmf_message e <> Panic /\
  (is_ok (wrap_lxmf_message raw params) = true <->
     is_ok (decode_lxmf_message raw) = true /\ wp_created_at_ms params < wp_expires_at_ms params) /\
  (wrap_lxmf_message raw params = Ok e -> len (envelope_bytes e) <= len out ->
     unwrap_lxmf_message e = Ok raw /\
     (exists n out', encode_envelope e out = (Ok n, out') /\ decode_envelope (take (Z.to_nat n) out') = Ok e) /\
     exists m endpoint, decode_lxmf_message raw = Ok m /\ destination e = Foreign endpoint /\
       endpoint_id endpoint = lm_destination_hash m /\ fe_network endpoint = Lxmf) /\
  (forall p, unwrap_lxmf_message e = Ok p ->
     p = Wire.payload e /\ payload_kind e = ForeignLxmfMessage /\ is_ok (decode_lxmf_message p) = true).
Proof.
  intros Hb Hp He. rewrite lxmf_wrap_is_carrier, lxmf_unwrap_is_carrier.
  destruct (lawful_carries _ _ _ lxmf_carrier_laws) as [Hs1 Hs2 Hw Hr Hu]. split_and!; [by apply Hs1|by apply Hs2| | |].
  - rewrite Hw by done. cbn [lxmf_carrier c_validate lifetime fst snd]. unfold validate_lxmf_message.
    by destruct (decode_lxmf_message raw).
  - intros H Hl. destruct (Hr raw params e out Hb Hp H Hl) as (_ & H1 & H2). do 2 (split; [done|]).
    rewrite <- lxmf_wrap_is_carrier in H. unfold wrap_lxmf_message in H.
    destruct (validate_lxmf_message raw) as [m|err|] eqn:Hv; [|done..]. pose proof Hv as Hv'. apply validate_lxmf_ok in Hv; [|done].
    pose proof (message_destination_ok raw m Hb Hv) as Hd. apply lxmf_decode_message_exact in Hv; [|done].
    destruct (lxmf_endpoint_ok _ Hd) as (ep & Hep & _ & Hid & Hnet). cbn [mbind outcome_bind] in H. rewrite Hep in H.
    cbn [mbind outcome_bind] in H. destruct (map_err _ _) as [[]|err|]; [|done..]. cbn [mbind outcome_bind] in H. injection H as <-.
    by exists m, ep.
  - intros p H. destruct (Hu e p H) as (-> & Hk & _ & a & Ha & _). split; [done|]. split; [done|].
    cbn [lxmf_carrier c_validate] in Ha. unfold validate_lxmf_message in Ha. by destruct (decode_lxmf_message _).
Qed.

(** ** Witness *)
Definition sample_wrap_params : LxmfWrapParams := mk_wrap_params (replicate 32 1) (replicate 32 2) 1000 2000 4.

Lemma lxmf_sample_wrap_params_ok : wrap_params_ok sample_wrap_params.
Proof. repeat split; try reflexivity; try (vm_compute; discriminate); apply (bool_decide_unpack _); vm_compute; exact I. Defined.

Definition sample_wrapped : HyfEnvelopeRef :=
  mk_envelope 0 (replicate 32 1) (replicate 32 2) (Foreign (mk_endpoint Lxmf (replicate 16 1 ++ replicate 16 0) 16))
    1000 2000 4 ForeignLxmfMessage sample_lxmf.

Lemma lxmf_wrap_exact_witness : unwrap_lxmf_message sample_wrapped = Ok sample_lxmf.
Proof.
  assert (envelope_ok sample_wrapped) as He.
  { split; try (vm_compute; done); try (split; [vm_compute; done|]); try (apply (bool_decide_unpack _); vm_compute; exact I).
  }
  destruct (lxmf_wrap_exact sample_lxmf sample_wrap_params sample_wrapped (zeros 400) sample_lxmf_ok lxmf_sample_wrap_params_ok He)
    as (_ & _ & _ & H & _).
  apply H; vm_compute; done.
Defined.
