(* ===== verification/BridgeBitchat.v ===== *)
(** [hyf_bridge_bitchat]: BitChat packets to bridge messages and back
    (src/crates/hyf_bridge_bitchat/src/convert.rs, params.rs, error.rs), over
    the codecs of [Bitchat] and [BridgeCore].  A packet must be a plain public
    message of version 2 without a signature, a recipient or a route to enter
    the bridge; a text message leaves it as such a packet. *)
From S2P Require Import Prelude Utf8 Cursor Core Wire Bitchat BridgeCore.

Definition BITCHAT_BRIDGE_PACKET_TYPE_PUBLIC_MESSAGE : Z := 0x02.
Definition BITCHAT_BRIDGE_PACKET_MAX_LEN : Z := BITCHAT_CORE_PACKET_MAX_LEN.
Definition BITCHAT_BRIDGE_DEFAULT_TTL : Z := 7.

Inductive BitchatBridgeError :=
| BitchatFailed (error : BitchatError)
| BridgeFailed (error : BridgeError)
| UnsupportedVersion (version : BitchatVersion)
| UnsupportedPacketType (packet_type : Z)
| SignedPacket
| CompressedPacket
| DirectedPacket
| RoutedPacket
| RsrPacket
| EmptyPayload
| InvalidPayloadUtf8
| TimestampZero
| UnsupportedBridgePayloadKind (kind : BridgePayloadKind).

Record BitchatBridgeIngressParams := mk_ingress_params { bip_room_id : list Z; bip_message_id : list Z }.
Record BitchatBridgeEgressParams := mk_egress_params { bep_sender_id : list Z; bep_ttl : Z }.
Definition egress_params_new (sender_id : list Z) : BitchatBridgeEgressParams :=
  mk_egress_params sender_id BITCHAT_BRIDGE_DEFAULT_TTL.

Record BitchatBridgeIngress := mk_ingress {
  bi_packet : BitchatPacketRef;
  bi_params : BitchatBridgeIngressParams;
  bi_sender_id : list Z;
  bi_payload : list Z;
}.

Definition ingress_meta (_ : BitchatBridgeIngress) : BridgeIngressMeta := mk_ingress_meta PBitChat Unverified.

Definition bridge_message (i : BitchatBridgeIngress) : BridgeMessageRef :=
  mk_message HYF_BRIDGE_MESSAGE_VERSION_0 (bip_room_id (bi_params i)) (bip_message_id (bi_params i))
    (mk_author (BridgeForeign BitChat) (bi_sender_id i)) (timestamp (bi_packet i)) TextUtf8 (bi_payload i).

Definition validate_ingress_packet (p : BitchatPacketRef) : outcome BitchatBridgeError unit :=
  _ ← guard_err (negb (bool_decide (version p = V2))) (UnsupportedVersion (version p));
  _ ← guard_err (negb (packet_type p =? BITCHAT_BRIDGE_PACKET_TYPE_PUBLIC_MESSAGE)) (UnsupportedPacketType (packet_type p));
  _ ← guard_err (has_signature (flags p) || bool_decide (is_Some (signature p))) SignedPacket;
  _ ← guard_err (is_compressed (flags p) || match payload p with Compressed _ _ => true | Plain _ => false end) CompressedPacket;
  _ ← guard_err (has_recipient (flags p) || bool_decide (is_Some (recipient_id p))) DirectedPacket;
  _ ← guard_err (has_route (flags p) || bool_decide (is_Some (route p))) RoutedPacket;
  _ ← guard_err (is_rsr (flags p)) RsrPacket;
  _ ← guard_err (timestamp p =? 0) TimestampZero;
  Ok tt.

Definition bitchat_packet_to_bridge_message (raw : list Z) (params : BitchatBridgeIngressParams)
  : outcome BitchatBridgeError BitchatBridgeIngress :=
  packet ← map_err BitchatFailed (decode_bitchat_packet raw);
  _ ← validate_ingress_packet packet;
  match payload packet with
  | Plain payload =>
      _ ← guard_err (bool_decide (payload = [])) EmptyPayload;
      _ ← guard_err (negb (utf8_ok payload)) InvalidPayloadUtf8;
      Ok (mk_ingress packet params (sender_id packet) payload)
  | Compressed _ _ => Err CompressedPacket
  end.

Definition validate_egress_message (m : BridgeMessageRef) : outcome BitchatBridgeError unit :=
  _ ← guard_err (negb (bool_decide (bm_payload_kind m = TextUtf8))) (UnsupportedBridgePayloadKind (bm_payload_kind m));
  _ ← guard_err (bool_decide (bm_payload m = [])) EmptyPayload;
  _ ← guard_err (negb (utf8_ok (bm_payload m))) InvalidPayloadUtf8;
  _ ← guard_err (bm_created_at_ms m =? 0) TimestampZero;
  _ ← map_err BridgeFailed (bridge_message_encoded_len m);
  Ok tt.

Definition egress_packet (m : BridgeMessageRef) (params : BitchatBridgeEgressParams) : BitchatPacketRef :=
  mk_packet V2 BITCHAT_BRIDGE_PACKET_TYPE_PUBLIC_MESSAGE (bep_ttl params) (bm_created_at_ms m) flags_empty
    (bep_sender_id params) None None (Plain (bm_payload m)) None.

Definition bridge_message_to_bitchat_packet_v2 (m : BridgeMessageRef) (params : BitchatBridgeEgressParams)
  : io (list Z) BitchatBridgeError Z :=
  _ ← lift (validate_egress_message m);
  io_map_err BitchatFailed (encode_bitchat_packet_v2 (egress_packet m params)).

(** ** Lemmas *)
(** The packets that enter the bridge. *)
Record public_packet (p : BitchatPacketRef) (text : list Z) : Prop := {
  pp_version : version p = V2;
  pp_type : packet_type p = 2;
  pp_flags : flags p = flags_empty;
  pp_timestamp : timestamp p <> 0;
  pp_bare : signature p = None /\ recipient_id p = None /\ route p = None;
  pp_payload : payload p = Plain text;
  pp_text : text <> [] /\ utf8_ok text = true;
}.

Lemma validate_ingress_ok p text :
  packet_valid p -> payload p = Plain text ->
  validate_ingress_packet p = Ok tt <->
  version p = V2 /\ packet_type p = 2 /\ flags p = flags_empty /\ timestamp p <> 0 /\
  (signature p = None /\ recipient_id p = None /\ route p = None).
Proof.
  intros [Hf _ _ _ _] Hp. unfold validate_ingress_packet. rewrite Hf. unfold flags_of. rewrite Hp.
  cbn [has_signature is_compressed has_recipient has_route is_rsr is_compressed_payload].
  rewrite !unit_bind_ok, !guard_err_ok, !negb_false_iff, !orb_false_iff, Z.eqb_eq, Z.eqb_neq, bool_decide_eq_true.
  rewrite !bool_decide_eq_false, <- !eq_None_not_Some.
  unfold BITCHAT_BRIDGE_PACKET_TYPE_PUBLIC_MESSAGE, flags_empty. split.
  - intros (? & ? & [-> _] & _ & [-> _] & [-> _] & -> & ? & _). done.
  - intros (? & ? & [= Hr Hs Ht Hi] & ? & -> & -> & ->). done.
Qed.

Lemma ingress_public p text params :
  packet_ok p -> packet_valid p -> public_packet p text ->
  bitchat_packet_to_bridge_message (packet_bytes p) params = Ok (mk_ingress p params (sender_id p) text).
Proof.
  intros Hok Hval [Hv Ht Hf Hts Hbare Hp [Hne Hu]]. unfold bitchat_packet_to_bridge_message.
  rewrite bitchat_decode_bytes by done. cbn [map_err mbind outcome_bind].
  rewrite (proj2 (validate_ingress_ok p text Hval Hp)) by done. cbn [mbind outcome_bind]. rewrite Hp.
  rewrite bool_decide_eq_false_2 by done. by rewrite Hu.
Qed.

Lemma ingress_exact raw params i :
  bytes_ok raw ->
  bitchat_packet_to_bridge_message raw params = Ok i <->
  exists p text, packet_ok p /\ packet_valid p /\ raw = packet_bytes p /\ public_packet p text /\
    i = mk_ingress p params (sender_id p) text.
Proof.
  intros Hb. split; [|intros (p & text & Hok & Hval & -> & Hp & ->); by apply ingress_public].
  unfold bitchat_packet_to_bridge_message. intros H.
  destruct (decode_bitchat_packet raw) as [p|e|] eqn:Hd; [|done..].
  apply bitchat_decode_inv in Hd as (Hok & Hval & Hr); [|done]. cbn [map_err mbind outcome_bind] in H.
  apply unit_bind_ok in H as [Hv H]. destruct (payload p) as [text|] eqn:Hp; [|done].
  rewrite !unit_bind_ok, !guard_err_ok, bool_decide_eq_false, negb_false_iff in H. destruct H as (Hne & Hu & [= <-]).
  apply (validate_ingress_ok p text Hval Hp) in Hv as (? & ? & ? & ? & ?). exists p, text. split_and!; [done..| |done]. by split.
Qed.

(** The bridge message of a packet is a message the bridge can encode when the
    caller's identifiers are not zero and the text is within the bridge's
    limit, which is below the packet's. *)
Lemma ingress_message_valid raw params i :
  bytes_ok raw -> bitchat_packet_to_bridge_message raw params = Ok i ->
  community_id_ok (bip_room_id params) -> message_id_ok (bip_message_id params) ->
  message_ok (bridge_message i) /\
  (message_valid (bridge_message i) <->
   bip_room_id params <> zeros 16 /\ bip_message_id params <> zeros 32 /\ len (bi_payload i) <= 1024).
Proof.
  intros Hb H Hr Hm. apply ingress_exact in H as (p & text & Hok & Hval & _ & [_ _ _ _ _ Hp [Hne Hu]] & ->); [|done].
  assert (bytes_ok text) as Hbt by (pose proof (po_payload _ Hok) as H; by rewrite Hp in H).
  destruct (po_sender_id _ Hok) as [Hl Hbs]. split; [split; try done; apply (po_timestamp _ Hok)|].
  cbn [bridge_message bi_payload bi_params bip_room_id bip_message_id]. split; [by intros []|].
  intros (Hr0 & Hm0 & Hl1). split; [done..| |done|].
  - simpl. by rewrite Hl.
  - intros _. by apply utf8_ok_spec.
Qed.

Lemma egress_valid_exact m :
  message_ok m ->
  validate_egress_message m = Ok tt <->
  message_valid m /\ bm_payload_kind m = TextUtf8 /\ bm_payload m <> [] /\ bm_created_at_ms m <> 0.
Proof.
  intros Hok. unfold validate_egress_message.
  rewrite !unit_bind_ok, !guard_err_ok, !negb_false_iff, bool_decide_eq_true, bool_decide_eq_false, Z.eqb_neq.
  rewrite bridge_encoded_len_spec by done. rewrite <- (validate_message_exact m Hok).
  split.
  - intros (? & ? & ? & ? & H). destruct (validate_bridge_message_ref m) as [[]|e|]; [|done..]. done.
  - intros (H & Hk & ? & ?). rewrite H. split_and!; try done.
    apply (validate_message_exact m Hok) in H. apply utf8_ok_spec; [apply Hok|]. by apply H.
Qed.

Definition egress_params_ok (p : BitchatBridgeEgressParams) : Prop :=
  array_ok 8 (bep_sender_id p) /\ u8_ok (bep_ttl p).

Lemma egress_packet_ok m params : message_ok m -> egress_params_ok params -> packet_ok (egress_packet m params).
Proof. intros [_ _ _ _ Hc Hp] [Hs Ht]. by split. Qed.

Lemma egress_packet_encodable m params :
  message_ok m -> egress_params_ok params -> message_valid m ->
  encodable (egress_packet m params) /\ canonical (egress_packet m params) = egress_packet m params /\
  len (packet_bytes (egress_packet m params)) = 24 + len (bm_payload m).
Proof.
  intros Hok Hp Hv. assert (canonical (egress_packet m params) = egress_packet m params) as Hc by done.
  assert (len (packet_bytes (egress_packet m params)) = 24 + len (bm_payload m)) as Hl.
  { rewrite bitchat_bytes_len by (by apply egress_packet_ok). cbn. change (len (@nil Z)) with 0. unfold BITCHAT_V2_HEADER_LEN, BITCHAT_PEER_ID_LEN. lia. }
  pose proof (mv_payload_len _ Hv). split; [|done]. split_and!; try done.
  - cbn. unfold BITCHAT_PAYLOAD_MAX_LEN. lia.
  - rewrite Hc, Hl. unfold BITCHAT_CORE_PACKET_MAX_LEN. lia.
Qed.

Lemma egress_packet_public m params :
  message_valid m -> bytes_ok (bm_payload m) -> bm_payload_kind m = TextUtf8 -> bm_payload m <> [] -> bm_created_at_ms m <> 0 ->
  public_packet (egress_packet m params) (bm_payload m).
Proof. intros Hv Hb Hk Hne Hc. split; try done. split; [done|]. apply utf8_ok_spec; [done|]. by apply Hv. Qed.

(** The conversion on every branch. *)
Lemma egress_spec m params out :
  message_ok m -> egress_params_ok params -> len out <= usize_MAX ->
  bridge_message_to_bitchat_packet_v2 m params out =
    match validate_egress_message m with
    | Ok _ =>
        if len out <? 24 + len (bm_payload m)
        then (Err (BitchatFailed (Bitchat.OutputTooSmall (24 + len (bm_payload m)) (len out))), out)
        else (Ok (24 + len (bm_payload m)),
              packet_bytes (egress_packet m params) ++ drop (Z.to_nat (24 + len (bm_payload m))) out)
    | Err e => (Err e, out)
    | Panic => (Panic, out)
    end.
Proof.
  intros Hok Hp Hmax. unfold bridge_message_to_bitchat_packet_v2.
  destruct (validate_egress_message m) as [[]|e|] eqn:Hv; [|done..]. rewrite lift_bind_ok. unfold io_map_err.
  apply egress_valid_exact in Hv as (Hval & Hk & Hne & Hc); [|done].
  destruct (egress_packet_encodable m params Hok Hp Hval) as (He & Hcan & Hl).
  rewrite bitchat_encode_spec by (done || by apply egress_packet_ok).
  rewrite (proj2 (encoded_len_exact _ _ (egress_packet_ok m params Hok Hp)) (conj He eq_refl)), Hcan, Hl. by destruct (_ <? _).
Qed.

Lemma validate_egress_safe m : validate_egress_message m <> Panic.
Proof.
  unfold validate_egress_message. do 4 (apply outcome_bind_safe; [apply guard_err_safe|intros ? _]).
  apply outcome_bind_safe; [apply map_err_safe|done]. apply outcome_bind_safe; [apply validate_message_safe|intros ? _]. apply ok_or_safe.
Qed.

Lemma bitchat_ingress_safe raw params : bytes_ok raw -> bitchat_packet_to_bridge_message raw params <> Panic.
Proof.
  intros Hb. unfold bitchat_packet_to_bridge_message. apply outcome_bind_safe; [by apply map_err_safe, bitchat_decode_safe|intros p _].
  apply outcome_bind_safe.
  { unfold validate_ingress_packet. repeat (apply outcome_bind_safe; [apply guard_err_safe|intros ? _]). done. }
  intros _ _. destruct (payload p); [|done]. repeat (apply outcome_bind_safe; [apply guard_err_safe|intros ? _]). done.
Qed.

(** ** Theorems *)
(** What enters the bridge from BitChat: nothing panics; a packet is taken
    exactly when it is the encoding of a plain public message of version 2 with
    a time, no flags, no recipient, route or signature, and a text that is not
    empty and is UTF-8; its bridge message has the packet's sender, time and
    text and the caller's room and identifier, and is encodable exactly when
    those are not zero and the text is within the bridge's limit of 1024 bytes. *)
Theorem bitchat_ingress_exact raw params i :
  bytes_ok raw -> community_id_ok (bip_room_id params) -> message_id_ok (bip_message_id params) ->
  bitchat_packet_to_bridge_message raw params <> Panic /\
  (bitchat_packet_to_bridge_message raw params = Ok i <->
   exists p text, packet_ok p /\ packet_valid p /\ raw = packet_bytes p /\ public_packet p text /\
     i = mk_ingress p params (sender_id p) text) /\
  (bitchat_packet_to_bridge_message raw params = Ok i ->
   is_ok (bridge_message_encoded_len (bridge_message i)) = true <->
   bip_room_id params <> zeros 16 /\ bip_message_id params <> zeros 32 /\ len (bi_payload i) <= 1024).
Proof.
  intros Hb Hr Hm. split_and!.
  - by apply bitchat_ingress_safe.
  - by apply ingress_exact.
  - intros H. destruct (ingress_message_valid raw params i Hb H Hr Hm) as [Hok <-].
    rewrite bridge_encoded_len_spec by done. rewrite <- (validate_message_exact _ Hok).
    destruct (validate_bridge_message_ref (bridge_message i)) as [[]|e|]; done.
Qed.

(** From the bridge to BitChat and back: a valid text message with a time
    is written as a packet of 24 bytes and its text, into any output that has
    room; the packet enters the bridge again as the same text and time, under
    the packet's sender; every other message, and a short output, is an error
    that leaves the output alone. *)
Theorem bitchat_bridge_roundtrip m params ingress_params out :
  message_ok m -> egress_params_ok params -> len out <= usize_MAX ->
  match bridge_message_to_bitchat_packet_v2 m params out with
  | (Ok n, out') =>
      n = 24 + len (bm_payload m) /\ drop (Z.to_nat n) out' = drop (Z.to_nat n) out /\
      exists i, bitchat_packet_to_bridge_message (take (Z.to_nat n) out') ingress_params = Ok i /\
        bridge_message i = mk_message 0 (bip_room_id ingress_params) (bip_message_id ingress_params)
          (mk_author (BridgeForeign BitChat) (bep_sender_id params)) (bm_created_at_ms m) TextUtf8 (bm_payload m)
  | (Err _, out') =>
      out' = out /\
      (message_valid m -> bm_payload_kind m = TextUtf8 -> bm_payload m <> [] -> bm_created_at_ms m <> 0 ->
       len out < 24 + len (bm_payload m))
  | (Panic, _) => False
  end.
Proof.
  intros Hok Hp Hmax. rewrite egress_spec by done. pose proof (egress_valid_exact m Hok) as Hx.
  destruct (validate_egress_message m) as [[]|e|] eqn:Hv.
  - destruct (proj1 Hx eq_refl) as (Hval & Hk & Hne & Hc).
    destruct (Z.ltb_spec (len out) (24 + len (bm_payload m))); [done|]. split; [done|].
    destruct (egress_packet_encodable m params Hok Hp Hval) as (He & Hcan & Hl). rewrite <- Hl.
    rewrite drop_len_app, take_len_app. split; [done|].
    eexists. split; [apply ingress_public|reflexivity].
    + by apply egress_packet_ok.
    + rewrite <- Hcan. by apply canonical_valid.
    + apply egress_packet_public; try done. apply Hok.
  - split; [done|]. intros Hval Hk Hne Hc. by pose proof (proj2 Hx (conj Hval (conj Hk (conj Hne Hc)))).
  - by apply (validate_egress_safe m).
Qed.

(** ** Witnesses *)
Definition sample_ingress_params : BitchatBridgeIngressParams := mk_ingress_params (replicate 16 5) (replicate 32 6).
Definition sample_egress_params : BitchatBridgeEgressParams := egress_params_new (replicate 8 4).
Definition sample_text : BridgeMessageRef :=
  mk_message 0 (replicate 16 5) (replicate 32 6) (mk_author HyfNode (replicate 32 7)) 1700000000000 TextUtf8 [104; 105].

Lemma bitchat_sample_text_ok : message_ok sample_text.
Proof. split; try (split; [reflexivity|]); try (vm_compute; done); apply (bool_decide_unpack _); vm_compute; exact I. Qed.
Lemma bitchat_sample_egress_ok : egress_params_ok sample_egress_params.
Proof. split; [split; [reflexivity|]; apply (bool_decide_unpack _); vm_compute; exact I|vm_compute; done]. Qed.

Lemma bitchat_bridge_roundtrip_witness :
  exists out' i, bridge_message_to_bitchat_packet_v2 sample_text sample_egress_params (zeros 40) = (Ok 26, out') /\
    bitchat_packet_to_bridge_message (take 26 out') sample_ingress_params = Ok i /\ bi_payload i = [104; 105].
Proof.
  assert (len (zeros 40) <= usize_MAX) as Hl by (vm_compute; discriminate).
  pose proof (bitchat_bridge_roundtrip sample_text sample_egress_params sample_ingress_params (zeros 40)
    bitchat_sample_text_ok bitchat_sample_egress_ok Hl) as H.
  destruct (bridge_message_to_bitchat_packet_v2 sample_text sample_egress_params (zeros 40)) as [r out'] eqn:He.
  assert (r = Ok 26) as -> by (change r with (fst (r, out')); rewrite <- He; vm_compute; reflexivity).
  destruct H as (_ & _ & i & H1 & H2). exists out', i. split; [reflexivity|]. split; [exact H1|].
  exact (f_equal bm_payload H2).
Defined.

Definition sample_public : list Z := packet_bytes (egress_packet sample_text sample_egress_params).

Lemma bitchat_ingress_exact_witness :
  exists i, bitchat_packet_to_bridge_message sample_public sample_ingress_params = Ok i /\
    is_ok (bridge_message_encoded_len (bridge_message i)) = true.
Proof.
  assert (bytes_ok sample_public) as Hb by (apply (bool_decide_unpack _); vm_compute; exact I).
  destruct (bitchat_packet_to_bridge_message sample_public sample_ingress_params) as [i|e|] eqn:He;
    [|vm_compute in He; discriminate He..].
  exists i. split; [reflexivity|].
  assert (community_id_ok (bip_room_id sample_ingress_params)) as Hr
    by (split; [reflexivity|apply (bool_decide_unpack _); vm_compute; exact I]).
  assert (message_id_ok (bip_message_id sample_ingress_params)) as Hm
    by (split; [reflexivity|apply (bool_decide_unpack _); vm_compute; exact I]).
  destruct (bitchat_ingress_exact sample_public sample_ingress_params i Hb Hr Hm) as (_ & _ & H). apply (H He).
  split; [discriminate|]. split; [discriminate|]. vm_compute in He. injection He as <-. vm_compute. discriminate.
Defined.
