(* ===== verification/F64.v ===== *)
(** The [f64] arithmetic of the source, over the standard library's
    specification of IEEE 754 binary floating-point numbers.

    Rust's [f64] is binary64: 53 bits of precision, exponents below 1024,
    rounding to nearest even.  [f64_of_bits] and [bits_of_f64] are
    [f64::from_bits] and [f64::to_bits]; [f64_of_u64] and [u64_of_f64] the casts
    [as f64] (which rounds) and [as u64] (which truncates and saturates).  The
    lemmas bound the result of a rounding, which is what the bridge needs to
    know that the times it writes are finite. *)
From Stdlib Require Import SpecFloat.
From S2P Require Import Prelude.

Definition f64 : Type := spec_float.
Definition f64_prec : Z := 53.
Definition f64_emax : Z := 1024.

Definition f64_of_bits (bits : Z) : f64 :=
  let s := Z.testbit bits 63 in
  let e := Z.land (Z.shiftr bits 52) 0x7ff in
  let m := Z.land bits (2 ^ 52 - 1) in
  if e =? 0x7ff then (if m =? 0 then S754_infinity s else S754_nan)
  else if e =? 0 then match m with Zpos m => S754_finite s m (-1074) | _ => S754_zero s end
  else match m + 2 ^ 52 with Zpos m => S754_finite s m (e - 1075) | _ => S754_zero s end.

Definition sign_bit (s : bool) : Z := if s then 2 ^ 63 else 0.
(** The bits of a NaN are not specified; one of its encodings. *)
Definition bits_of_f64 (x : f64) : Z :=
  match x with
  | S754_zero s => sign_bit s
  | S754_infinity s => sign_bit s + 0x7ff * 2 ^ 52
  | S754_nan => 0x7ff8 * 2 ^ 48
  | S754_finite s m e =>
      sign_bit s + (if Zpos m <? 2 ^ 52 then Zpos m else (e + 1075) * 2 ^ 52 + (Zpos m - 2 ^ 52))
  end.

Definition f64_is_finite (x : f64) : bool :=
  match x with S754_infinity _ | S754_nan => false | _ => true end.
Definition f64_mul (x y : f64) : f64 := SFmul f64_prec f64_emax x y.
Definition f64_div (x y : f64) : f64 := SFdiv f64_prec f64_emax x y.
Definition f64_ltb (x y : f64) : bool := SFltb x y.
(** [n as f64] *)
Definition f64_of_u64 (n : Z) : f64 := binary_normalize f64_prec f64_emax n 0 false.
(** [x as u64] *)
Definition u64_of_f64 (x : f64) : Z :=
  match x with
  | S754_finite false m e => Z.min (Z.shiftl (Zpos m) e) u64_MAX
  | S754_infinity false => u64_MAX
  | _ => 0
  end.

(** ** Rounding *)
Lemma digits_spec p : 2 ^ (Zpos (digits2_pos p) - 1) <= Zpos p < 2 ^ Zpos (digits2_pos p).
Proof.
  induction p as [p IH|p IH|]; cbn [digits2_pos]; [| |done];
    rewrite Pos2Z.inj_succ; replace (Z.succ (Zpos (digits2_pos p)) - 1) with (Z.succ (Zpos (digits2_pos p) - 1)) by lia;
    rewrite !Z.pow_succ_r by lia; lia.
Qed.

(** The number of digits, from the power of two range. *)
Lemma digits_unique p k : 2 ^ (k - 1) <= Zpos p < 2 ^ k -> 1 <= k -> Zpos (digits2_pos p) = k.
Proof.
  intros [H1 H2] Hk. pose proof (digits_spec p) as [H3 H4].
  assert (k - 1 < Zpos (digits2_pos p)) by (apply (Z.pow_lt_mono_r_iff 2); lia).
  assert (Zpos (digits2_pos p) - 1 < k) by (apply (Z.pow_lt_mono_r_iff 2); lia). lia.
Qed.

Lemma shr_1_half mrs : 0 <= shr_m mrs -> shr_m (shr_1 mrs) = shr_m mrs / 2 /\ 0 <= shr_m (shr_1 mrs).
Proof.
  destruct mrs as [m r s]. intros H. cbn [shr_m] in H. destruct m as [|p|p]; [done| |lia].
  destruct p as [p|p|]; cbn [shr_1 shr_m]; [| |done]; (split; [|lia]).
  - change (Zpos p~1) with (1 + 2 * Zpos p). by rewrite Z.mul_comm, Z.div_add by lia.
  - change (Zpos p~0) with (2 * Zpos p). by rewrite Z.mul_comm, Z.div_mul by lia.
Qed.

Lemma iter_pos_nat {A} (f : A -> A) n x : SpecFloat.iter_pos f n x = Nat.iter (Pos.to_nat n) f x.
Proof.
  revert x. induction n as [n IH|n IH|]; intros x; cbn [SpecFloat.iter_pos]; [| |done].
  - rewrite !IH, Pos2Nat.inj_xI, <- Nat.iter_add. replace (2 * Pos.to_nat n)%nat with (Pos.to_nat n + Pos.to_nat n)%nat by lia.
    by rewrite Nat.iter_succ_r.
  - rewrite !IH, Pos2Nat.inj_xO, <- Nat.iter_add. f_equal. lia.
Qed.

Lemma shr_div mrs n :
  0 <= shr_m mrs -> shr_m (SpecFloat.iter_pos shr_1 n mrs) = shr_m mrs / 2 ^ Zpos n.
Proof.
  intros H. rewrite iter_pos_nat. rewrite <- (positive_nat_Z n). generalize (Pos.to_nat n). clear n. intros n.
  assert (shr_m (Nat.iter n shr_1 mrs) = shr_m mrs / 2 ^ Z.of_nat n /\ 0 <= shr_m (Nat.iter n shr_1 mrs)) as [? _]; [|done].
  induction n as [|n [IH1 IH2]]; [split; [|exact H]; symmetry; exact (Z.div_1_r (shr_m mrs))|].
  rewrite Nat2Z.inj_succ, Z.pow_succ_r, Z.mul_comm, <- Z.div_div by lia.
  destruct (shr_1_half _ IH2) as [H1 H2]. split; [|exact H2]. change (Nat.iter (S n) shr_1 mrs) with (shr_1 (Nat.iter n shr_1 mrs)). by rewrite H1, IH1.
Qed.

(** Rounding a mantissa of at least 53 digits gives a normal number: the
    exponent grows by the digits that are dropped, and by one more when the
    rounding carries. *)
Lemma round_normal s p e l (d := Zpos (digits2_pos p)) :
  53 <= d -> -1074 <= e -> d + e <= 1000 ->
  exists m' e', binary_round_aux f64_prec f64_emax s (Zpos p) e l = S754_finite s m' e' /\
    2 ^ 52 <= Zpos m' < 2 ^ 53 /\ d + e - 53 <= e' <= d + e - 52.
Proof.
  intros Hd He Hde. pose proof (digits_spec p) as Hp. fold d in Hp.
  unfold binary_round_aux. destruct (shr_fexp f64_prec f64_emax (Zpos p) e l) as [mrs e1] eqn:E1.
  assert (2 ^ 52 <= shr_m mrs < 2 ^ 53 /\ e1 = d + e - 53) as [Hm ->].
  { unfold shr_fexp in E1. cbn [Zdigits2] in E1. fold d in E1.
    assert (fexp f64_prec f64_emax (d + e) - e = d - 53) as Hf by (unfold fexp, emin, f64_prec, f64_emax; lia).
    rewrite Hf in E1. clear Hf.
    assert (shr_m (shr_record_of_loc (Zpos p) l) = Zpos p) as Hr by (by destruct l as [|[]]).
    unfold shr in E1. destruct (d - 53) as [|n|n] eqn:Hn; [| |lia].
    - simplify_eq. rewrite Hr. replace d with 53 in Hp by lia. split; [done|lia].
    - injection E1 as <- <-. rewrite shr_div by (rewrite Hr; lia). rewrite Hr. split; [|lia].
      replace (2 ^ 52) with (2 ^ (d - 1) / 2 ^ Zpos n) by (rewrite <- Z.pow_sub_r by lia; f_equal; lia).
      split; [apply Z.div_le_mono; lia|]. apply Z.div_lt_upper_bound; [lia|].
      rewrite <- Z.pow_add_r by lia. replace (Zpos n + 53) with d by lia. lia. }
  set (r := round_nearest_even _ _).
  assert (r = shr_m mrs \/ r = shr_m mrs + 1) as Hr.
  { subst r. unfold round_nearest_even. destruct (loc_of_shr_record mrs) as [|[]]; auto. destruct (Z.even (shr_m mrs)); auto. }
  assert (2 ^ 52 <= r < 2 ^ 53 \/ r = 2 ^ 53) as Hr2 by lia. clearbody r. clear Hr E1 Hm.
  assert (forall m e, e <= 971 -> (if e <=? f64_emax - f64_prec then S754_finite s m e else S754_infinity s) = S754_finite s m e) as Hb.
  { intros m e' H. unfold f64_emax, f64_prec. by destruct (Z.leb_spec e' (1024 - 53)); [|lia]. }
  unfold shr_fexp. destruct Hr2 as [Hr| ->].
  - destruct r as [|q|q]; [lia| |lia]. cbn [Zdigits2].
    rewrite (digits_unique q 53) by (done || lia).
    assert (fexp f64_prec f64_emax (53 + (d + e - 53)) - (d + e - 53) = 0) as -> by (unfold fexp, emin, f64_prec, f64_emax; lia).
    cbn [shr shr_record_of_loc shr_m]. rewrite Hb by lia. exists q, (d + e - 53). split_and!; [done|lia..].
  - change (Zdigits2 (2 ^ 53)) with 54.
    assert (fexp f64_prec f64_emax (54 + (d + e - 53)) - (d + e - 53) = 1) as -> by (unfold fexp, emin, f64_prec, f64_emax; lia).
    change (shr_record_of_loc (2 ^ 53) loc_Exact) with (Build_shr_record (2 ^ 53) false false).
    cbn [shr]. change (SpecFloat.iter_pos shr_1 1 (Build_shr_record (2 ^ 53) false false)) with (Build_shr_record (2 ^ 52) false false).
    cbn [shr_m]. change (2 ^ 52) with (Zpos 4503599627370496). cbv iota. rewrite Hb by lia.
    exists 4503599627370496%positive, (d + e - 53 + 1). split_and!; [done|lia..].
Qed.

(** ** The conversions the bridge uses *)
(** A positive [u64] becomes a normal number. *)
Lemma f64_of_u64_normal n :
  0 < n < 2 ^ 64 -> exists m e, f64_of_u64 n = S754_finite false m e /\ 2 ^ 52 <= Zpos m < 2 ^ 53 /\ -52 <= e <= 12.
Proof.
  intros Hn. destruct n as [|p|p]; [lia| |lia]. unfold f64_of_u64, binary_normalize, binary_round.
  pose proof (digits_spec p) as Hp. set (k := Zpos (digits2_pos p)) in *.
  assert (k <= 64) as Hk. { assert (k - 1 < 64) by (apply (Z.pow_lt_mono_r_iff 2); lia). lia. }
  assert (fexp f64_prec f64_emax (k + 0) = k - 53) as -> by (unfold fexp, emin, f64_prec, f64_emax; lia).
  unfold shl_align. rewrite Z.sub_0_r. destruct (k - 53) as [|j|j] eqn:Hj.
  - destruct (round_normal false p 0 loc_Exact) as (m & e & -> & Hm & He); fold k; try lia. exists m, e. fold k in He. split_and!; [done|lia..].
  - destruct (round_normal false p 0 loc_Exact) as (m & e & -> & Hm & He); fold k; try lia. exists m, e. fold k in He. split_and!; [done|lia..].
  - assert (Zpos (Pos.iter xO p j) = Zpos p * 2 ^ Zpos j) as Hs.
    { clear. rewrite <- (positive_nat_Z j), Pos2Nat.inj_iter. induction (Pos.to_nat j) as [|i IH]; [cbn; lia|].
      rewrite Nat2Z.inj_succ, Z.pow_succ_r by lia. change (2 * Zpos (Nat.iter i xO p) = Zpos p * (2 * 2 ^ Z.of_nat i)). unfold Nat.iter. rewrite IH. ring. }
    assert (Zpos (digits2_pos (Pos.iter xO p j)) = 53) as H53.
    { apply digits_unique; [|lia]. rewrite Hs. replace (53 - 1) with ((k - 1) + Zpos j) by lia. replace 53 with (k + Zpos j) by lia.
      rewrite !Z.pow_add_r by lia. nia. }
    destruct (round_normal false (Pos.iter xO p j) (Zneg j) loc_Exact) as (m & e & -> & Hm & He); rewrite ?H53; try lia.
    rewrite H53 in He. exists m, e. split_and!; [done|lia..].
Qed.

Lemma f64_of_1000 : f64_of_u64 1000 = S754_finite false 8796093022208000 (-43).
Proof. reflexivity. Qed.

(** A number of milliseconds in seconds: never infinite, never a NaN. *)
Lemma f64_millis_finite n :
  0 <= n < 2 ^ 64 ->
  f64_div (f64_of_u64 n) (f64_of_u64 1000) = S754_zero false \/
  exists m e, f64_div (f64_of_u64 n) (f64_of_u64 1000) = S754_finite false m e /\ 2 ^ 52 <= Zpos m < 2 ^ 53 /\ -63 <= e <= 4.
Proof.
  intros Hn. destruct (decide (n = 0)) as [->|Hn0]; [by left|right].
  destruct (f64_of_u64_normal n) as (m & e & -> & Hm & He); [lia|]. rewrite f64_of_1000.
  unfold f64_div, SFdiv, SFdiv_core_binary. cbn [Zdigits2 xorb].
  rewrite (digits_unique m 53) by (done || lia).
  change (Z.pos (digits2_pos 8796093022208000)) with 53.
  assert (Z.min (fexp f64_prec f64_emax (53 + e - (53 + -43))) (e - -43) = e - 10) as -> by (unfold fexp, emin, f64_prec, f64_emax; lia).
  replace (e - -43 - (e - 10)) with 53 by lia. rewrite Z.shiftl_mul_pow2 by lia.
  pose proof (Z.div_eucl_eq (Zpos m * 2 ^ 53) 8796093022208000 ltac:(done)) as Hq.
  pose proof (Z.mod_pos_bound (Zpos m * 2 ^ 53) 8796093022208000 ltac:(done)) as Hr. unfold Z.modulo in Hr.
  destruct (Z.div_eucl (Zpos m * 2 ^ 53) 8796093022208000) as [q r].
  assert (2 ^ 52 <= q < 2 ^ 54) as Hqb by lia.
  destruct q as [|p|p]; [lia| |lia]. pose proof (digits_spec p) as Hp.
  assert (53 <= Zpos (digits2_pos p) <= 54) as Hd.
  { assert (52 < Zpos (digits2_pos p)) by (apply (Z.pow_lt_mono_r_iff 2); lia). split; [lia|].
    assert (Zpos (digits2_pos p) - 1 < 54) by (apply (Z.pow_lt_mono_r_iff 2); lia). lia. }
  destruct (round_normal false p (e - 10) (new_location 8796093022208000 r)) as (m' & e' & -> & Hm' & He'); [lia..|].
  exists m', e'. split_and!; [done|lia..].
Qed.

Lemma bits_of_normal m e :
  2 ^ 52 <= Zpos m < 2 ^ 53 -> -1074 <= e <= 971 ->
  let bits := bits_of_f64 (S754_finite false m e) in
  0 <= bits < 2 ^ 63 /\ Z.land (Z.shiftr bits 52) 0x7ff = e + 1075 /\ f64_of_bits bits = S754_finite false m e.
Proof.
  intros Hm He. cbv zeta. cbn [bits_of_f64 sign_bit].
  assert ((Zpos m <? 2 ^ 52) = false) as -> by (apply Z.ltb_ge; lia).
  rewrite Z.add_0_l. set (f := Zpos m - 2 ^ 52). assert (0 <= f < 2 ^ 52) as Hf by lia.
  assert (Z.shiftr ((e + 1075) * 2 ^ 52 + f) 52 = e + 1075) as Hs.
  { rewrite Z.shiftr_div_pow2 by lia. rewrite Z.div_add_l by lia. rewrite Z.div_small by lia. lia. }
  assert (Z.land (e + 1075) 0x7ff = e + 1075) as Hl.
  { change 0x7ff with (Z.ones 11). rewrite Z.land_ones by lia. apply Z.mod_small. lia. }
  split; [lia|]. rewrite Hs, Hl. split; [done|]. unfold f64_of_bits. rewrite Hs, Hl.
  assert (Z.testbit ((e + 1075) * 2 ^ 52 + f) 63 = false) as ->.
  { rewrite Z.testbit_false by lia. rewrite Z.div_small by lia. done. }
  destruct (Z.eqb_spec (e + 1075) 0x7ff); [lia|]. destruct (Z.eqb_spec (e + 1075) 0); [lia|].
  assert (Z.land ((e + 1075) * 2 ^ 52 + f) (2 ^ 52 - 1) = f) as ->.
  { change (2 ^ 52 - 1) with (Z.ones 52). rewrite Z.land_ones by lia. rewrite Z.add_comm, Z.mod_add by lia. by apply Z.mod_small. }
  subst f. replace (Zpos m - 2 ^ 52 + 2 ^ 52) with (Zpos m) by lia. f_equal. lia.
Qed.
