(* ===== verification/BridgeLxmf.v ===== *)
(** [hyf_bridge_lxmf]: LXMF messages to bridge messages and back
    (src/crates/hyf_bridge_lxmf/src/convert.rs, params.rs, error.rs), over the
    codecs of [Lxmf] and [BridgeCore].  LXMF keeps the time as a float of
    seconds, the bridge as an integer of milliseconds; the conversions are the
    source's floating-point expressions, over [F64]. *)
From S2P Require Import Prelude Utf8 Cursor Core Wire Msgpack Lxmf F64 BridgeCore.

Definition EMPTY_FIELDS_MAP : list Z := [0x80].
Definition LXMF_BRIDGE_MESSAGE_MAX_LEN : Z := LXMF_MESSAGE_MAX_LEN.

Inductive LxmfBridgeError :=
| LxmfFailed (error : LxmfError)
| BridgeFailed (error : BridgeError)
| NonEmptyTitle
| NonEmptyFields
| StampPresent
| EmptyContent
| InvalidContentUtf8
| NegativeTimestamp
| TimestampOverflow
| UnsupportedBridgePayloadKind (kind : BridgePayloadKind).

Record LxmfBridgeIngressParams := mk_ingress_params { lip_room_id : list Z; lip_message_id : list Z }.
Record LxmfBridgeEgressParams := mk_egress_params {
  lep_destination_hash : list Z;
  lep_source_hash : list Z;
  lep_signature : list Z;
}.

Record LxmfBridgeIngress := mk_ingress {
  li_message : LxmfMessageRef;
  li_params : LxmfBridgeIngressParams;
  li_source_hash : list Z;
  li_created_at_ms : Z;
  li_content : list Z;
}.

Definition ingress_meta (_ : LxmfBridgeIngress) : BridgeIngressMeta := mk_ingress_meta PLxmf Unverified.

Definition bridge_message (i : LxmfBridgeIngress) : BridgeMessageRef :=
  mk_message HYF_BRIDGE_MESSAGE_VERSION_0 (lip_room_id (li_params i)) (lip_message_id (li_params i))
    (mk_author (BridgeForeign Lxmf) (li_source_hash i)) (li_created_at_ms i) TextUtf8 (li_content i).

Definition validate_content_only_payload (p : LxmfPayloadRef) : outcome LxmfBridgeError unit :=
  _ ← guard_err (negb (bool_decide (lp_title p = []))) NonEmptyTitle;
  _ ← guard_err (negb (bool_decide (lp_fields p = EMPTY_FIELDS_MAP))) NonEmptyFields;
  _ ← guard_err (bool_decide (is_Some (lp_stamp p))) StampPresent;
  _ ← guard_err (bool_decide (lp_content p = [])) EmptyContent;
  _ ← guard_err (negb (utf8_ok (lp_content p))) InvalidContentUtf8;
  Ok tt.

(** [0.0], [1000.0] and [u64::MAX as f64] *)
Definition f64_zero : f64 := f64_of_u64 0.
Definition f64_1000 : f64 := f64_of_u64 1000.

Definition timestamp_secs_to_ms (timestamp_secs : Z) : outcome LxmfBridgeError Z :=
  let secs := f64_of_bits timestamp_secs in
  if f64_ltb secs f64_zero then Err NegativeTimestamp
  else
    let millis := f64_mul secs f64_1000 in
    if negb (f64_is_finite millis) || f64_ltb (f64_of_u64 u64_MAX) millis then Err TimestampOverflow
    else Ok (u64_of_f64 millis).

Definition lxmf_message_to_bridge_message (raw : list Z) (params : LxmfBridgeIngressParams)
  : outcome LxmfBridgeError LxmfBridgeIngress :=
  message ← map_err LxmfFailed (decode_lxmf_message raw);
  let payload := lm_payload message in
  _ ← validate_content_only_payload payload;
  created_at_ms ← timestamp_secs_to_ms (lp_timestamp_secs payload);
  Ok (mk_ingress message params (lm_source_hash message) created_at_ms (lp_content payload)).

Definition validate_egress_message (m : BridgeMessageRef) : outcome LxmfBridgeError unit :=
  _ ← guard_err (negb (bool_decide (bm_payload_kind m = TextUtf8))) (UnsupportedBridgePayloadKind (bm_payload_kind m));
  _ ← guard_err (bool_decide (bm_payload m = [])) EmptyContent;
  _ ← guard_err (negb (utf8_ok (bm_payload m))) InvalidContentUtf8;
  _ ← map_err BridgeFailed (bridge_message_encoded_len m);
  Ok tt.

(** [created_at_ms as f64 / 1000.0] *)
Definition ms_to_timestamp_secs (created_at_ms : Z) : Z := bits_of_f64 (f64_div (f64_of_u64 created_at_ms) f64_1000).

Definition egress_payload (m : BridgeMessageRef) : LxmfPayloadRef :=
  mk_payload (ms_to_timestamp_secs (bm_created_at_ms m)) [] (bm_payload m) EMPTY_FIELDS_MAP None.

Definition bridge_message_to_lxmf_message_fixture (m : BridgeMessageRef) (params : LxmfBridgeEgressParams)
  : io (list Z) LxmfBridgeError Z :=
  _ ← lift (validate_egress_message m);
  io_map_err LxmfFailed
    (encode_lxmf_message (lep_destination_hash params) (lep_source_hash params) (lep_signature params) (egress_payload m)).

(** ** Times *)
Lemma ms_to_secs_finite n :
  0 <= n < 2 ^ 64 -> u64_ok (ms_to_timestamp_secs n) /\ is_finite (ms_to_timestamp_secs n) = true /\
  f64_of_bits (ms_to_timestamp_secs n) = f64_div (f64_of_u64 n) f64_1000.
Proof.
  intros Hn. unfold ms_to_timestamp_secs, f64_1000. destruct (f64_millis_finite n Hn) as [-> | (m & e & -> & Hm & He)].
  - split; [split; vm_compute; done|]. done.
  - destruct (bits_of_normal m e Hm ltac:(lia)) as (H1 & H2 & ->). split; [unfold u64_ok; lia|]. split; [|done].
    unfold is_finite. rewrite H2. apply negb_true_iff, Z.eqb_neq. lia.
Qed.

Lemma secs_to_ms_range bits ms : timestamp_secs_to_ms bits = Ok ms -> u64_ok ms.
Proof.
  unfold timestamp_secs_to_ms. cbv zeta. generalize (f64_mul (f64_of_bits bits) f64_1000), (f64_of_u64 u64_MAX).
  intros x y. destruct (f64_ltb (f64_of_bits bits) f64_zero); [discriminate|].
  destruct (negb (f64_is_finite x) || f64_ltb y x); [discriminate|]. intros [= <-]. unfold u64_of_f64, u64_ok, u64_MAX.
  destruct x as [s|[]| |[] m e]; try lia. pose proof (proj2 (Z.shiftl_nonneg (Zpos m) e) ltac:(done)). lia.
Qed.

Lemma timestamp_safe bits : timestamp_secs_to_ms bits <> Panic.
Proof.
  unfold timestamp_secs_to_ms. cbv zeta. generalize (f64_mul (f64_of_bits bits) f64_1000), (f64_of_u64 u64_MAX).
  intros x y. destruct (f64_ltb (f64_of_bits bits) f64_zero); [discriminate|].
  by destruct (negb (f64_is_finite x) || f64_ltb y x).
Qed.

(** ** Lemmas *)
(** The payloads that enter the bridge: nothing but a text. *)
Record content_only (p : LxmfPayloadRef) : Prop := {
  co_title : lp_title p = [];
  co_fields : lp_fields p = [0x80];
  co_stamp : lp_stamp p = None;
  co_content : lp_content p <> [] /\ utf8_ok (lp_content p) = true;
}.

Lemma validate_content_only_ok p : validate_content_only_payload p = Ok tt <-> content_only p.
Proof.
  unfold validate_content_only_payload.
  rewrite !unit_bind_ok, !guard_err_ok, !negb_false_iff, !bool_decide_eq_true, !bool_decide_eq_false, <- eq_None_not_Some.
  split; [intros (? & ? & ? & ? & ? & _); by split|intros [? ? ? []]; done].
Qed.

Lemma lxmf_ingress_spec raw params i :
  bytes_ok raw ->
  lxmf_message_to_bridge_message raw params = Ok i <->
  exists m ms, message_form raw m /\ content_only (lm_payload m) /\
    timestamp_secs_to_ms (lp_timestamp_secs (lm_payload m)) = Ok ms /\
    i = mk_ingress m params (lm_source_hash m) ms (lp_content (lm_payload m)).
Proof.
  intros Hb. unfold lxmf_message_to_bridge_message. split.
  - intros H. destruct (decode_lxmf_message raw) as [m|e|] eqn:Hd; [|done..]. cbn [map_err mbind outcome_bind] in H.
    apply lxmf_decode_message_exact in Hd; [|done]. apply unit_bind_ok in H as [Hc H]. apply validate_content_only_ok in Hc.
    destruct (timestamp_secs_to_ms _) as [ms|e|] eqn:Ht; [|done..]. injection H as <-. by exists m, ms.
  - intros (m & ms & Hm & Hc & Ht & ->). apply lxmf_decode_message_exact in Hm as ->; [|done]. cbn [map_err mbind outcome_bind].
    rewrite (proj2 (validate_content_only_ok _) Hc). cbn [mbind outcome_bind]. by rewrite Ht.
Qed.

Lemma bin_or_str_bytes v d : bytes_ok v -> bin_or_str v d -> bytes_ok d.
Proof. intros Hb (marker & hd & -> & _). apply bytes_ok_cons in Hb as [_ Hb]. by apply bytes_ok_app in Hb as [_ Hb]. Qed.

Lemma message_form_bytes raw m :
  bytes_ok raw -> message_form raw m -> array_ok 16 (lm_source_hash m) /\ bytes_ok (lp_content (lm_payload m)).
Proof.
  intros Hb [-> Hd Hs Hg Hp _]. rewrite !bytes_ok_app in Hb. destruct Hb as (_ & Hbs & _ & Hb). split; [done|].
  destruct Hp as (k & h & t & c & st & Hpk & _ & _ & Hc & _). rewrite Hpk, !bytes_ok_app in Hb.
  apply (bin_or_str_bytes c); [|done]. tauto.
Qed.

Lemma lxmf_ingress_valid raw params i :
  bytes_ok raw -> lxmf_message_to_bridge_message raw params = Ok i ->
  community_id_ok (lip_room_id params) -> message_id_ok (lip_message_id params) ->
  message_ok (bridge_message i) /\
  (message_valid (bridge_message i) <->
   lip_room_id params <> zeros 16 /\ lip_message_id params <> zeros 32 /\ len (li_content i) <= 1024).
Proof.
  intros Hb H Hr Hm. apply lxmf_ingress_spec in H as (m & ms & Hf & [_ _ _ [Hne Hu]] & Ht & ->); [|done].
  destruct (message_form_bytes raw m Hb Hf) as [[Hls Hbs] Hbc].
  split; [split; try done; by eapply secs_to_ms_range|].
  cbn [bridge_message li_content li_params lip_room_id lip_message_id]. split; [by intros []|].
  intros (Hr0 & Hm0 & Hl1). split; [done..| |done|].
  - simpl. by rewrite Hls.
  - intros _. by apply utf8_ok_spec.
Qed.

Lemma lxmf_egress_valid m :
  message_ok m ->
  validate_egress_message m = Ok tt <-> message_valid m /\ bm_payload_kind m = TextUtf8 /\ bm_payload m <> [].
Proof.
  intros Hok. unfold validate_egress_message.
  rewrite !unit_bind_ok, !guard_err_ok, !negb_false_iff, bool_decide_eq_true, bool_decide_eq_false.
  rewrite bridge_encoded_len_spec by done. rewrite <- (validate_message_exact m Hok).
  split.
  - intros (? & ? & ? & H). destruct (validate_bridge_message_ref m) as [[]|e|]; [|done..]. done.
  - intros (H & Hk & ?). rewrite H. split_and!; try done.
    apply (validate_message_exact m Hok) in H. apply utf8_ok_spec; [apply Hok|]. by apply H.
Qed.

Lemma lxmf_validate_egress_safe m : validate_egress_message m <> Panic.
Proof.
  unfold validate_egress_message. do 3 (apply outcome_bind_safe; [apply guard_err_safe|intros ? _]).
  apply outcome_bind_safe; [apply map_err_safe|done]. apply outcome_bind_safe; [apply validate_message_safe|intros ? _]. apply ok_or_safe.
Qed.

Definition egress_params_ok (p : LxmfBridgeEgressParams) : Prop :=
  array_ok 16 (lep_destination_hash p) /\ array_ok 16 (lep_source_hash p) /\ array_ok 64 (lep_signature p).

(** The payload that leaves the bridge can always be encoded. *)
Lemma egress_payload_encodable m :
  message_ok m -> message_valid m -> payload_ok (egress_payload m) /\ encodable (egress_payload m).
Proof.
  intros Hok Hv. pose proof (mv_payload_len _ Hv) as Hl. destruct (ms_to_secs_finite (bm_created_at_ms m) (mo_created _ Hok)) as (Hu & Hf & _).
  assert (payload_valid (egress_payload m)) as Hpv.
  { split; [done|done|cbn; lia|]. split; [|done]. split; [done|]. split; [|by exists 0x80, []]. exists 0x80, []. split; [done|].
    by exists [], []. }
  split; [split; [exact Hu|apply bytes_ok_nil|apply (mo_payload _ Hok)|apply (bool_decide_unpack _); exact I]|].
  split; [done|done|]. rewrite payload_bytes_len by done. cbn [egress_payload lp_title lp_content lp_fields].
  change (bin_encoded_len (len (@nil Z))) with 2. change (len EMPTY_FIELDS_MAP) with 1. unfold bin_encoded_len.
  destruct (Z.leb_spec (len (bm_payload m)) 255); lia.
Qed.

Definition egress_bytes (m : BridgeMessageRef) (params : LxmfBridgeEgressParams) : list Z :=
  Lxmf.message_bytes (lep_destination_hash params) (lep_source_hash params) (lep_signature params) (egress_payload m).

Lemma egress_bytes_len m params :
  message_valid m -> egress_params_ok params -> payload_valid (egress_payload m) ->
  len (egress_bytes m params) = 109 + bin_encoded_len (len (bm_payload m)).
Proof.
  intros Hv ([Hd _] & [Hs _] & [Hg _]) Hp. unfold egress_bytes, Lxmf.message_bytes. rewrite !len_app, Hd, Hs, Hg, payload_bytes_len by done.
  cbn [egress_payload lp_title lp_content lp_fields]. change (bin_encoded_len (len (@nil Z))) with 2. change (len EMPTY_FIELDS_MAP) with 1. lia.
Qed.

(** The conversion on every branch. *)
Lemma lxmf_egress_spec m params out :
  message_ok m -> egress_params_ok params ->
  bridge_message_to_lxmf_message_fixture m params out =
    match validate_egress_message m with
    | Ok _ =>
        let n := len (egress_bytes m params) in
        if len out <? n then (Err (LxmfFailed (Msgpack.OutputTooSmall n (len out))), out)
        else (Ok n, egress_bytes m params ++ drop (length (egress_bytes m params)) out)
    | Err e => (Err e, out)
    | Panic => (Panic, out)
    end.
Proof.
  intros Hok ([Hd _] & [Hs _] & [Hg _]). unfold bridge_message_to_lxmf_message_fixture.
  destruct (validate_egress_message m) as [[]|e|] eqn:Hv; [|done..]. rewrite lift_bind_ok. unfold io_map_err.
  apply lxmf_egress_valid in Hv as (Hval & Hk & Hne); [|done].
  destruct (egress_payload_encodable m Hok Hval) as [Hpo He].
  rewrite encode_message_ok by (done || (vm_compute; discriminate)). cbv zeta. fold (egress_bytes m params). by destruct (_ <? _).
Qed.

(** What leaves the bridge comes in again, with the time that the two
    conversions leave of it. *)
Lemma lxmf_egress_ingress m params ingress_params :
  message_ok m -> egress_params_ok params -> message_valid m -> bm_payload_kind m = TextUtf8 -> bm_payload m <> [] ->
  lxmf_message_to_bridge_message (egress_bytes m params) ingress_params =
    (ms ← timestamp_secs_to_ms (ms_to_timestamp_secs (bm_created_at_ms m));
     Ok (mk_ingress
       (mk_lxmf_message (lep_destination_hash params) (lep_source_hash params) (lep_signature params)
          (payload_bytes (egress_payload m)) (egress_payload m))
       ingress_params (lep_source_hash params) ms (bm_payload m))).
Proof.
  intros Hok (Hd & Hs & Hg) Hv Hk Hne. destruct (egress_payload_encodable m Hok Hv) as [Hpo He].
  unfold lxmf_message_to_bridge_message, egress_bytes. rewrite lxmf_decode_bytes by done. cbn [map_err mbind outcome_bind].
  change (without_stamp (egress_payload m)) with (egress_payload m). cbn [lm_payload lm_source_hash].
  rewrite (proj2 (validate_content_only_ok _)); [done|]. split; [done..|]. cbn [egress_payload lp_content]. split; [done|].
  apply utf8_ok_spec; [apply Hok|]. by apply Hv.
Qed.

Lemma lxmf_ingress_safe raw params : bytes_ok raw -> lxmf_message_to_bridge_message raw params <> Panic.
Proof.
  intros Hb. unfold lxmf_message_to_bridge_message. apply outcome_bind_safe; [by apply map_err_safe, lxmf_decode_message_safe|intros m _].
  apply outcome_bind_safe; [|intros _ _; apply outcome_bind_safe; [|done]].
  - unfold validate_content_only_payload. repeat (apply outcome_bind_safe; [apply guard_err_safe|intros ? _]). done.
  - apply timestamp_safe.
Qed.

(** ** Theorems *)
(** What enters the bridge from LXMF: nothing panics; a message is taken
    exactly when it decodes, has an empty title, the empty map of fields, no
    stamp, a text that is not empty and is UTF-8, and a time that converts to
    milliseconds; its bridge message has the source, the time and the text of
    the message and the caller's room and identifier, and is encodable exactly
    when those are not zero and the text has at most 1024 bytes. *)
Theorem lxmf_ingress_exact raw params i :
  bytes_ok raw -> community_id_ok (lip_room_id params) -> message_id_ok (lip_message_id params) ->
  lxmf_message_to_bridge_message raw params <> Panic /\
  (lxmf_message_to_bridge_message raw params = Ok i <->
   exists m ms, message_form raw m /\ content_only (lm_payload m) /\
     timestamp_secs_to_ms (lp_timestamp_secs (lm_payload m)) = Ok ms /\
     i = mk_ingress m params (lm_source_hash m) ms (lp_content (lm_payload m))) /\
  (lxmf_message_to_bridge_message raw params = Ok i ->
   is_ok (bridge_message_encoded_len (bridge_message i)) = true <->
   lip_room_id params <> zeros 16 /\ lip_message_id params <> zeros 32 /\ len (li_content i) <= 1024).
Proof.
  intros Hb Hr Hm. split_and!.
  - by apply lxmf_ingress_safe.
  - by apply lxmf_ingress_spec.
  - intros H. destruct (lxmf_ingress_valid raw params i Hb H Hr Hm) as [Hok <-].
    rewrite bridge_encoded_len_spec by done. rewrite <- (validate_message_exact _ Hok).
    destruct (validate_bridge_message_ref (bridge_message i)) as [[]|e|]; done.
Qed.

(** From the bridge to LXMF and back: a valid text message is written as an
    LXMF message with the configured hashes and signature and a finite time,
    whatever its time in milliseconds, into any output that has room; the
    message enters the bridge again as the same text, under the configured
    source, with the time that the two conversions leave; every other message,
    and a short output, is an error that leaves the output alone. *)
Theorem lxmf_bridge_roundtrip m params ingress_params out :
  message_ok m -> egress_params_ok params ->
  match bridge_message_to_lxmf_message_fixture m params out with
  | (Ok n, out') =>
      n = 109 + bin_encoded_len (len (bm_payload m)) /\ drop (Z.to_nat n) out' = drop (Z.to_nat n) out /\
      is_finite (ms_to_timestamp_secs (bm_created_at_ms m)) = true /\
      bridge_message <$> lxmf_message_to_bridge_message (take (Z.to_nat n) out') ingress_params =
        (ms ← timestamp_secs_to_ms (ms_to_timestamp_secs (bm_created_at_ms m));
         Ok (mk_message 0 (lip_room_id ingress_params) (lip_message_id ingress_params)
           (mk_author (BridgeForeign Lxmf) (lep_source_hash params)) ms TextUtf8 (bm_payload m)))
  | (Err _, out') =>
      out' = out /\
      (message_valid m -> bm_payload_kind m = TextUtf8 -> bm_payload m <> [] ->
       len out < 109 + bin_encoded_len (len (bm_payload m)))
  | (Panic, _) => False
  end.
Proof.
  intros Hok Hp. rewrite lxmf_egress_spec by done. pose proof (lxmf_egress_valid m Hok) as Hx.
  destruct (validate_egress_message m) as [[]|e|] eqn:Hv.
  - destruct (proj1 Hx eq_refl) as (Hval & Hk & Hne). destruct (egress_payload_encodable m Hok Hval) as [Hpo He]. cbv zeta.
    rewrite <- (egress_bytes_len m params Hval Hp (en_valid _ He)).
    destruct (Z.ltb_spec (len out) (len (egress_bytes m params))); [done|].
    rewrite to_nat_len, take_app_length, drop_app_length. split; [done|]. split; [done|].
    split; [apply ms_to_secs_finite, (mo_created _ Hok)|]. rewrite lxmf_egress_ingress by done.
    by destruct (timestamp_secs_to_ms _).
  - split; [done|]. intros Hval Hk Hne. by pose proof (proj2 Hx (conj Hval (conj Hk Hne))).
  - by apply (lxmf_validate_egress_safe m).
Qed.

(** The conversions lose a millisecond of some times: 1001 ms leave the
    bridge as the float 1.001, which times 1000 is just below 1001 and is
    truncated.  By the round trip, a message of that time that the bridge writes
    comes back with the time 1000. *)
Theorem lxmf_time_truncated :
  timestamp_secs_to_ms (ms_to_timestamp_secs 1001) = Ok 1000 /\
  timestamp_secs_to_ms (ms_to_timestamp_secs 1002) = Ok 1002 /\
  timestamp_secs_to_ms (ms_to_timestamp_secs 1700000000001) = Ok 1700000000001.
Proof. split_and!; vm_compute; reflexivity. Qed.

(** ** Witnesses *)
Definition lxmf_ingress_params : LxmfBridgeIngressParams := mk_ingress_params (replicate 16 5) (replicate 32 6).
Definition lxmf_egress_params : LxmfBridgeEgressParams := mk_egress_params (replicate 16 1) (replicate 16 2) (replicate 64 3).
Definition lxmf_text : BridgeMessageRef :=
  mk_message 0 (replicate 16 5) (replicate 32 6) (mk_author HyfNode (replicate 32 7)) 1500 TextUtf8 [104; 105].

Lemma lxmf_text_ok : message_ok lxmf_text.
Proof. split; try (split; [reflexivity|]); try (vm_compute; done); apply (bool_decide_unpack _); vm_compute; exact I. Qed.
Lemma lxmf_egress_params_ok : egress_params_ok lxmf_egress_params.
Proof. split_and!; (split; [reflexivity|]; apply (bool_decide_unpack _); vm_compute; exact I). Qed.

Lemma lxmf_bridge_roundtrip_witness :
  exists out', bridge_message_to_lxmf_message_fixture lxmf_text lxmf_egress_params (zeros 120) = (Ok 113, out') /\
    (bm_created_at_ms <$> (bridge_message <$> lxmf_message_to_bridge_message (take 113 out') lxmf_ingress_params)) = Ok 1500.
Proof.
  pose proof (lxmf_bridge_roundtrip lxmf_text lxmf_egress_params lxmf_ingress_params (zeros 120)
    lxmf_text_ok lxmf_egress_params_ok) as H.
  destruct (bridge_message_to_lxmf_message_fixture lxmf_text lxmf_egress_params (zeros 120)) as [r out'] eqn:He.
  assert (r = Ok 113) as -> by (change r with (fst (r, out')); rewrite <- He; vm_compute; reflexivity).
  destruct H as (_ & _ & _ & H). exists out'. split; [reflexivity|].
  change (Z.to_nat 113) with 113%nat in H. rewrite H. vm_compute. reflexivity.
Defined.

Definition lxmf_public : list Z := egress_bytes lxmf_text lxmf_egress_params.

Lemma lxmf_ingress_exact_witness :
  exists i, lxmf_message_to_bridge_message lxmf_public lxmf_ingress_params = Ok i /\
    is_ok (bridge_message_encoded_len (bridge_message i)) = true.
Proof.
  assert (bytes_ok lxmf_public) as Hb by (apply (bool_decide_unpack _); vm_compute; exact I).
  destruct (lxmf_message_to_bridge_message lxmf_public lxmf_ingress_params) as [i|e|] eqn:He;
    [|vm_compute in He; discriminate He..].
  exists i. split; [reflexivity|].
  assert (community_id_ok (lip_room_id lxmf_ingress_params)) as Hr
    by (split; [reflexivity|apply (bool_decide_unpack _); vm_compute; exact I]).
  assert (message_id_ok (lip_message_id lxmf_ingress_params)) as Hm
    by (split; [reflexivity|apply (bool_decide_unpack _); vm_compute; exact I]).
  destruct (lxmf_ingress_exact lxmf_public lxmf_ingress_params i Hb Hr Hm) as (_ & _ & H). apply (H He).
  split; [discriminate|]. split; [discriminate|]. vm_compute in He. injection He as <-. vm_compute. discriminate.
Defined.
