(* ===== verification/NostrHex.v ===== *)
(** [hyf_link_nostr::hex] and the constants and errors of the crate
    (src/crates/hyf_link_nostr/src/hex.rs, constants.rs, error.rs): lower-case
    hexadecimal, written into and read into the caller's buffer.

    A [&str] is its list of bytes.  [hex_bytes] is the encoding; the decoder is
    its exact inverse, and reports the first character that is not one of the
    sixteen. *)
From S2P Require Import Prelude Utf8 Cursor.
From stdpp Require Import strings.

Open Scope Z_scope.

Definition HYF_NOSTR_ENVELOPE_KIND : Z := 9775.
Definition HYF_NOSTR_MAX_ENVELOPE_BYTES : Z := 2048.
Definition HYF_NOSTR_MAX_CONTENT_CHARS : Z := HYF_NOSTR_MAX_ENVELOPE_BYTES * 2.
Definition HYF_NOSTR_MAX_TAGS : Z := 8.
Definition HYF_NOSTR_MAX_TAG_VALUES : Z := 4.
Definition HYF_NOSTR_MAX_TAG_VALUE_CHARS : Z := 128.
Definition HYF_NOSTR_MAX_P_TAGS : Z := 8.
Definition HYF_NOSTR_MAX_RELAY_STATUS_CHARS : Z := 256.

Inductive NostrError :=
| ContentTooLarge (actual maximum : Z)
| Crypto
| EnvelopeTooLarge (actual maximum : Z)
| EventIdMismatch
| HexLength (expected actual : Z)
| InvalidSignature
| InvalidHexChar (index byte : Z)
| InvalidSubscriptionId
| MalformedMessage
| MalformedEnvelope
| MissingRequiredTag (tag : string)
| NonCanonicalHex (index byte : Z)
| OddHexLength (n : Z)
| OutputTooSmall (needed available : Z)
| PublicKeyMismatch
| RelayEventStoreFull (capacity : Z)
| RelayOutputFull (capacity : Z)
| RelaySubscriptionFull (capacity : Z)
| StoredStringTooLarge (actual maximum : Z)
| SubscriptionIdTooLong (n maximum : Z)
| TagCountTooLarge (actual maximum : Z)
| TagEmpty
| TagValueCountTooLarge (actual maximum : Z)
| TagValueTooLarge (actual maximum : Z)
| UnexpectedKind (expected actual : Z)
| UnsupportedMessage
| Unsupported
| Utf8.

(** ** Encoding *)
(** [b"0123456789abcdef"] *)
Definition HEX_DIGITS : list Z := [48; 49; 50; 51; 52; 53; 54; 55; 56; 57; 97; 98; 99; 100; 101; 102].

(** The loop over the bytes, from [index]. *)
Fixpoint encode_hex_loop (index : Z) (bytes : list Z) : io (list Z) NostrError unit :=
  match bytes with
  | [] => mret tt
  | byte :: bytes =>
      high ← lift (Prelude.index HEX_DIGITS (Z.shiftr byte 4));
      _ ← copy_at (index * 2) [high];
      low ← lift (Prelude.index HEX_DIGITS (Z.land byte 0x0f));
      _ ← copy_at (index * 2 + 1) [low];
      encode_hex_loop (index + 1) bytes
  end.

Definition encode_lower_hex (bytes : list Z) : io (list Z) NostrError (list Z) :=
  out ← get;
  needed ← lift (ok_or (checked_mul (len bytes) 2) (OutputTooSmall usize_MAX (len out)));
  _ ← lift (guard_err (len out <? needed) (OutputTooSmall needed (len out)));
  _ ← encode_hex_loop 0 bytes;
  out ← get;
  s ← lift (slice out 0 needed);
  if utf8_ok s then mret s else lift (Err Utf8).

(** ** Decoding *)
Definition decode_nibble (byte index : Z) : outcome NostrError Z :=
  if in_range 48 57 byte then Ok (byte - 48)
  else if in_range 97 102 byte then Ok (byte - 97 + 10)
  else if in_range 65 70 byte then Err (NonCanonicalHex index byte)
  else Err (InvalidHexChar index byte).

(** [for index in 0..needed], when [count] rounds are left. *)
Fixpoint decode_hex_loop (bytes : list Z) (index : Z) (count : nat) : io (list Z) NostrError unit :=
  match count with
  | O => mret tt
  | S count =>
      b ← lift (Prelude.index bytes (index * 2));
      high ← lift (decode_nibble b (index * 2));
      b ← lift (Prelude.index bytes (index * 2 + 1));
      low ← lift (decode_nibble b (index * 2 + 1));
      _ ← copy_at index [Z.lor (Z.shiftl high 4) low];
      decode_hex_loop bytes (index + 1) count
  end.

Definition decode_lower_hex (input : list Z) : io (list Z) NostrError Z :=
  _ ← lift (guard_err (negb (len input mod 2 =? 0)) (OddHexLength (len input)));
  let needed := len input / 2 in
  out ← get;
  _ ← lift (guard_err (len out <? needed) (OutputTooSmall needed (len out)));
  _ ← decode_hex_loop input 0 (Z.to_nat needed);
  mret needed.

Definition decode_fixed_lower_hex (n : Z) (input : list Z) : outcome NostrError (list Z) :=
  let expected := n * 2 in
  _ ← guard_err (negb (len input =? expected)) (HexLength expected (len input));
  match decode_lower_hex input (zeros n) with
  | (Ok _, out) => Ok out
  | (Err e, _) => Err e
  | (Panic, _) => Panic
  end.

(** ** The encoding *)
Definition hex_digit (n : Z) : Z := if n <? 10 then 48 + n else 87 + n.
Definition hex_byte (b : Z) : list Z := [hex_digit (b / 16); hex_digit (b mod 16)].
Definition hex_bytes (l : list Z) : list Z := concat (map hex_byte l).

Definition is_lower_hex (b : Z) : bool := in_range 48 57 b || in_range 97 102 b.

Lemma hex_bytes_len l : len (hex_bytes l) = len l * 2.
Proof.
  induction l as [|b l IH]; [done|]. unfold hex_bytes in *. cbn [map concat]. rewrite len_app, IH, len_cons.
  change (len (hex_byte b)) with 2. lia.
Qed.

Lemma hex_bytes_app l k : hex_bytes (l ++ k) = hex_bytes l ++ hex_bytes k.
Proof. unfold hex_bytes. by rewrite map_app, concat_app. Qed.

Lemma hex_digit_lower n : 0 <= n < 16 -> is_lower_hex (hex_digit n) = true.
Proof.
  intros H. unfold is_lower_hex, hex_digit. rewrite !in_range_reflect, orb_true_iff, !bool_decide_eq_true.
  destruct (Z.ltb_spec n 10); lia.
Qed.

Lemma nibbles b : u8_ok b -> 0 <= b / 16 < 16 /\ 0 <= b mod 16 < 16.
Proof. unfold u8_ok. intros H. split; [|apply Z.mod_pos_bound; lia]. split; [apply Z.div_pos; lia|apply Z.div_lt_upper_bound; lia]. Qed.

Lemma hex_bytes_lower l : bytes_ok l -> Forall (fun b => is_lower_hex b = true) (hex_bytes l).
Proof.
  induction 1 as [|b l Hb Hl IH]; [by apply list.Forall_nil|]. unfold hex_bytes in *. cbn [map concat].
  apply Forall_app. split; [|exact IH]. destruct (nibbles b Hb). unfold hex_byte.
  apply list.Forall_cons; split; [by apply hex_digit_lower|]. apply list.Forall_cons; split; [by apply hex_digit_lower|by apply list.Forall_nil].
Qed.

Lemma lower_hex_ascii l : Forall (fun b => is_lower_hex b = true) l -> Forall (fun b => 0 <= b < 128) l.
Proof.
  intros H. eapply list.Forall_impl; [exact H|]. intros b Hb. unfold is_lower_hex in Hb. rewrite !in_range_reflect, orb_true_iff, !bool_decide_eq_true in Hb. lia.
Qed.

Lemma hex_bytes_utf8 l : bytes_ok l -> utf8_decode (hex_bytes l) = Some (hex_bytes l).
Proof. intros H. by apply utf8_decode_ascii, lower_hex_ascii, hex_bytes_lower. Qed.

Lemma hex_bytes_ok l : bytes_ok l -> bytes_ok (hex_bytes l).
Proof.
  intros H. pose proof (lower_hex_ascii _ (hex_bytes_lower l H)) as Ha. eapply list.Forall_impl; [exact Ha|]. unfold u8_ok. intros b ?. simpl in *. lia.
Qed.

Lemma hex_digits_index {E} n : 0 <= n < 16 -> Prelude.index (E:=E) HEX_DIGITS n = Ok (hex_digit n).
Proof.
  intros H. assert (Forall (fun k => Prelude.index (E:=E) HEX_DIGITS (Z.of_nat k) = Ok (hex_digit (Z.of_nat k))) (seq 0 16)) as Hall.
  { cbn [seq]. by repeat (apply list.Forall_cons; split; [reflexivity|]). }
  rewrite list.Forall_forall in Hall. specialize (Hall (Z.to_nat n)). rewrite Z2Nat.id in Hall by lia. apply Hall, elem_of_seq. lia.
Qed.

Lemma byte_nibbles b : u8_ok b -> Z.shiftr b 4 = b / 16 /\ Z.land b 0x0f = b mod 16.
Proof. intros _. split; [by rewrite Z.shiftr_div_pow2|]. change 0x0f with (Z.ones 4). by rewrite Z.land_ones. Qed.

Lemma encode_hex_loop_ok bytes pre rest :
  bytes_ok bytes -> len bytes * 2 <= len rest -> len pre mod 2 = 0 ->
  encode_hex_loop (len pre / 2) bytes (pre ++ rest) =
    (Ok tt, pre ++ hex_bytes bytes ++ drop (Z.to_nat (len bytes * 2)) rest).
Proof.
  intros Hb. revert pre rest. induction Hb as [|b l Hb Hl IH]; intros pre rest Hr Hp; [done|].
  rewrite len_cons in Hr. destruct rest as [|x [|y rest]]; [change (len (@nil Z)) with 0 in Hr|rewrite len_cons in Hr; change (len (@nil Z)) with 0 in Hr|];
    [pose proof (len_nonneg l); lia..|]. rewrite !len_cons in Hr. cbn [encode_hex_loop].
  destruct (nibbles b Hb) as [H1 H2]. destruct (byte_nibbles b Hb) as [-> ->].
  assert (len pre / 2 * 2 = len pre) as E by (Z.to_euclidean_division_equations; lia).
  rewrite (hex_digits_index _ H1), lift_bind_ok.
  erewrite io_bind_ok by (rewrite E; by apply (copy_at_app pre [hex_digit (b / 16)] [x])).
  rewrite (hex_digits_index _ H2), lift_bind_ok. rewrite app_assoc.
  erewrite io_bind_ok.
  2: { apply (copy_at_app (pre ++ [hex_digit (b / 16)]) [hex_digit (b mod 16)] [y]); [|done].
       rewrite E, len_app. reflexivity. }
  rewrite app_assoc. set (pre' := (pre ++ _) ++ _).
  assert (len pre' = len pre + 2) as Hl' by (subst pre'; rewrite !len_app; change (len [_]) with 1; lia).
  replace (len pre / 2 + 1) with (len pre' / 2) by (rewrite Hl'; Z.to_euclidean_division_equations; lia).
  rewrite IH by (rewrite ?Hl'; Z.to_euclidean_division_equations; lia).
  f_equal. subst pre'. unfold hex_bytes. cbn [map concat]. unfold hex_byte. rewrite <- !app_assoc. cbn [app]. do 4 f_equal.
  rewrite len_cons. replace (Z.to_nat ((1 + len l) * 2)) with (S (S (Z.to_nat (len l * 2)))) by (pose proof (len_nonneg l); lia). done.
Qed.

(** The encoder on every branch. *)
Lemma encode_lower_hex_spec bytes out :
  bytes_ok bytes -> len bytes * 2 <= usize_MAX ->
  encode_lower_hex bytes out =
    if len out <? len bytes * 2 then (Err (OutputTooSmall (len bytes * 2) (len out)), out)
    else (Ok (hex_bytes bytes), hex_bytes bytes ++ drop (Z.to_nat (len bytes * 2)) out).
Proof.
  intros Hb Hmax. unfold encode_lower_hex, checked_mul. rewrite get_bind.
  destruct (Z.leb_spec (len bytes * 2) usize_MAX); [|lia]. cbn [ok_or]. rewrite lift_bind_ok.
  destruct (Z.ltb_spec (len out) (len bytes * 2)); [done|]. rewrite guard_false by done.
  pose proof (encode_hex_loop_ok bytes [] out Hb) as Hl. change (len (@nil Z) / 2) with 0 in Hl. cbn [app] in Hl.
  erewrite io_bind_ok by (apply Hl; done || lia). rewrite get_bind, <- hex_bytes_len.
  pose proof (slice_app (E:=NostrError) [] (hex_bytes bytes) (drop (Z.to_nat (len (hex_bytes bytes))) out) _ eq_refl) as Hs.
  change (slice (E:=NostrError) (hex_bytes bytes ++ drop (Z.to_nat (len (hex_bytes bytes))) out) 0 (len (hex_bytes bytes)) = Ok (hex_bytes bytes)) in Hs.
  rewrite Hs, lift_bind_ok. unfold utf8_ok. rewrite bool_decide_eq_true_2; [done|]. rewrite hex_bytes_utf8 by done. done.
Qed.

(** *** Decoding *)
Lemma decode_nibble_digit n i : 0 <= n < 16 -> decode_nibble (hex_digit n) i = Ok n.
Proof.
  intros H. unfold decode_nibble, hex_digit. rewrite !in_range_reflect. destruct (Z.ltb_spec n 10).
  - rewrite bool_decide_eq_true_2 by lia. f_equal. lia.
  - rewrite bool_decide_eq_false_2, bool_decide_eq_true_2 by lia. f_equal. lia.
Qed.

(** The error for a character that is not a lower-case digit. *)
Definition hex_error (i b : Z) : NostrError := if in_range 65 70 b then NonCanonicalHex i b else InvalidHexChar i b.

Lemma decode_nibble_bad b i : is_lower_hex b = false -> decode_nibble b i = Err (hex_error i b).
Proof. unfold is_lower_hex, decode_nibble, hex_error. intros [-> ->]%orb_false_iff. by destruct (in_range 65 70 b). Qed.

Lemma lower_hex_digit b : is_lower_hex b = true -> exists n, 0 <= n < 16 /\ b = hex_digit n.
Proof.
  unfold is_lower_hex. rewrite !in_range_reflect, orb_true_iff, !bool_decide_eq_true. intros H.
  exists (if b <? 58 then b - 48 else b - 87). unfold hex_digit. destruct (Z.ltb_spec b 58); case_match eqn:E;
    rewrite ?Z.ltb_lt, ?Z.ltb_ge in E; split; lia.
Qed.

(** An even number of lower-case digits is an encoding. *)
Lemma lower_hex_inv u :
  Forall (fun b => is_lower_hex b = true) u -> len u mod 2 = 0 -> exists l, bytes_ok l /\ u = hex_bytes l.
Proof.
  remember (length u) as n eqn:Hn. revert u Hn. induction (lt_wf n) as [n _ IH]. intros u Hn Hu Hm.
  destruct u as [|a [|b u]]; [exists []; split; [apply bytes_ok_nil|done]|by (change (len [a]) with 1 in Hm)|].
  rewrite !list.Forall_cons in Hu. destruct Hu as (Ha & Hb & Hu).
  destruct (lower_hex_digit a Ha) as (x & Hx & ->). destruct (lower_hex_digit b Hb) as (y & Hy & ->).
  rewrite !len_cons in Hm. destruct (IH (length u) ltac:(simpl in Hn; lia) u eq_refl Hu) as (l & Hl & ->).
  { Z.to_euclidean_division_equations. lia. }
  exists (x * 16 + y :: l). split; [apply bytes_ok_cons; split; [unfold u8_ok; lia|done]|].
  unfold hex_bytes. cbn [map concat]. unfold hex_byte. rewrite Z.div_add_l, Z.div_small, Z.add_0_r by lia.
  rewrite (Z.add_comm (x * 16)), Z.mod_add, Z.mod_small by lia. done.
Qed.

Lemma nibbles_join b : u8_ok b -> Z.lor (Z.shiftl (b / 16) 4) (b mod 16) = b.
Proof.
  intros Hb. destruct (byte_nibbles b Hb) as [<- <-]. destruct (nibbles b Hb) as [Hh _].
  apply Z.bits_inj'. intros n Hn. rewrite Z.lor_spec, Z.land_spec. destruct (Z.lt_ge_cases n 4).
  - rewrite Z.shiftl_spec_low by done. change 0x0f with (Z.ones 4). rewrite Z.ones_spec_low by lia. by rewrite andb_true_r.
  - rewrite Z.shiftl_spec, Z.shiftr_spec by lia. replace (n - 4 + 4) with n by lia.
    change 0x0f with (Z.ones 4). rewrite Z.ones_spec_high by lia. by rewrite andb_false_r, orb_false_r.
Qed.

Lemma index_app_at (pre : list Z) x rest i : i = len pre -> Prelude.index (E:=NostrError) (pre ++ x :: rest) i = Ok x.
Proof. apply index_app. Qed.

(** The loop over a valid stretch of the input. *)
Lemma decode_hex_loop_app l : forall pre rest o1 o2 count index,
  bytes_ok l -> len pre = 2 * index -> len o1 = index -> len l <= len o2 ->
  decode_hex_loop (pre ++ hex_bytes l ++ rest) index (length l + count) (o1 ++ o2) =
  decode_hex_loop (pre ++ hex_bytes l ++ rest) (index + len l) count ((o1 ++ l) ++ drop (length l) o2).
Proof.
  induction l as [|b l IH]; intros pre rest o1 o2 count index Hb Hp Ho Hl.
  { rewrite app_nil_r. cbn [length Nat.add drop]. change (len (@nil Z)) with 0. by rewrite Z.add_0_r. }
  apply bytes_ok_cons in Hb as [Hx Hb]. destruct (nibbles b Hx) as [H1 H2]. rewrite len_cons in Hl. pose proof (len_nonneg l).
  destruct o2 as [|y o2]; [change (len (@nil Z)) with 0 in Hl; lia|]. rewrite len_cons in Hl.
  assert (pre ++ hex_bytes (b :: l) ++ rest = (pre ++ hex_byte b) ++ hex_bytes l ++ rest) as E.
  { unfold hex_bytes. cbn [map concat]. by rewrite <- !app_assoc. }
  cbn [length Nat.add decode_hex_loop]. rewrite E.
  assert (forall A (f : Z -> io (list Z) NostrError A) s,
    (b' ← lift (Prelude.index ((pre ++ hex_byte b) ++ hex_bytes l ++ rest) (index * 2)); f b') s = f (hex_digit (b / 16)) s) as R1.
  { intros A f s. unfold hex_byte. rewrite <- app_assoc. cbn [app]. by rewrite index_app by lia. }
  assert (forall A (f : Z -> io (list Z) NostrError A) s,
    (b' ← lift (Prelude.index ((pre ++ hex_byte b) ++ hex_bytes l ++ rest) (index * 2 + 1)); f b') s = f (hex_digit (b mod 16)) s) as R2.
  { intros A f s. replace ((pre ++ hex_byte b) ++ hex_bytes l ++ rest)
      with ((pre ++ [hex_digit (b / 16)]) ++ hex_digit (b mod 16) :: hex_bytes l ++ rest) by (unfold hex_byte; by rewrite <- !app_assoc).
    rewrite index_app; [done|]. rewrite len_app. change (len [hex_digit (b / 16)]) with 1. lia. }
  rewrite R1, decode_nibble_digit, lift_bind_ok by done. rewrite R2, decode_nibble_digit, lift_bind_ok by done.
  rewrite nibbles_join by done.
  erewrite io_bind_ok by (by apply (copy_at_app o1 [b] [y])). cbn [app].
  change (b :: o2) with ([b] ++ o2). rewrite (app_assoc o1 [b] o2).
  rewrite IH; [|done|rewrite len_app; change (len (hex_byte b)) with 2; lia|rewrite len_app; change (len [b]) with 1; lia|lia].
  rewrite len_cons. replace (index + 1 + len l) with (index + (1 + len l)) by lia. by rewrite <- (app_assoc o1).
Qed.

Lemma first_bad input :
  Forall (fun b => is_lower_hex b = true) input \/
  exists u b v, input = u ++ b :: v /\ Forall (fun b => is_lower_hex b = true) u /\ is_lower_hex b = false.
Proof.
  induction input as [|x l [IH|(u & b & v & -> & Hu & Hb)]]; [left; by apply list.Forall_nil| |].
  - destruct (is_lower_hex x) eqn:E; [left; by apply list.Forall_cons|]. right. exists [], x, l. split_and!; [done|by apply list.Forall_nil|done].
  - right. destruct (is_lower_hex x) eqn:E.
    + exists (x :: u), b, v. split_and!; [done|by apply list.Forall_cons|done].
    + exists [], x, (u ++ b :: v). split_and!; [done|by apply list.Forall_nil|done].
Qed.

Lemma decode_lower_hex_bytes l out :
  bytes_ok l ->
  decode_lower_hex (hex_bytes l) out =
    if len out <? len l then (Err (OutputTooSmall (len l) (len out)), out)
    else (Ok (len l), l ++ drop (length l) out).
Proof.
  intros Hb. unfold decode_lower_hex. rewrite hex_bytes_len, Z.mod_mul, Z.div_mul by done. cbn [Z.eqb negb guard_err].
  rewrite lift_bind_ok, get_bind. destruct (Z.ltb_spec (len out) (len l)); [done|]. rewrite guard_false by done.
  pose proof (decode_hex_loop_app l [] [] [] out 0 0 Hb eq_refl eq_refl ltac:(lia)) as H1. cbn [app] in H1.
  rewrite app_nil_r, Nat.add_0_r in H1. rewrite to_nat_len. by erewrite io_bind_ok by exact H1.
Qed.

(** The loop stops at the first character that is not a digit. *)
Lemma decode_hex_loop_bad l h lo rest out count :
  bytes_ok l -> len l <= len out -> is_lower_hex h = false \/ is_lower_hex h = true /\ is_lower_hex lo = false ->
  decode_hex_loop (hex_bytes l ++ h :: lo :: rest) 0 (length l + S count) out =
    (Err (if is_lower_hex h then hex_error (2 * len l + 1) lo else hex_error (2 * len l) h), l ++ drop (length l) out).
Proof.
  intros Hb Hl Hbad.
  pose proof (decode_hex_loop_app l [] (h :: lo :: rest) [] out (S count) 0 Hb eq_refl eq_refl ltac:(lia)) as H1.
  cbn [app] in H1. rewrite H1. clear H1. cbn [decode_hex_loop]. rewrite Z.add_0_l.
  rewrite (index_app_at (hex_bytes l) h (lo :: rest) (len l * 2)) by (by rewrite hex_bytes_len). rewrite lift_bind_ok.
  destruct Hbad as [Hh|[Hh Hlo]].
  - rewrite Hh, decode_nibble_bad by done. by rewrite Z.mul_comm.
  - destruct (lower_hex_digit h Hh) as (n & Hn & ->). rewrite Hh. rewrite decode_nibble_digit, lift_bind_ok by done.
    assert (Prelude.index (E:=NostrError) (hex_bytes l ++ hex_digit n :: lo :: rest) (len l * 2 + 1) = Ok lo) as ->.
    { change (hex_digit n :: lo :: rest) with ([hex_digit n] ++ lo :: rest). rewrite app_assoc.
      apply index_app_at. rewrite len_app, hex_bytes_len. done. }
    rewrite lift_bind_ok, decode_nibble_bad by done. by rewrite (Z.mul_comm (len l)).
Qed.

Lemma decode_lower_hex_bad u b v out :
  Forall (fun b => is_lower_hex b = true) u -> is_lower_hex b = false -> len (u ++ b :: v) mod 2 = 0 ->
  len (u ++ b :: v) / 2 <= len out ->
  exists out', decode_lower_hex (u ++ b :: v) out = (Err (hex_error (len u) b), out').
Proof.
  intros Hu Hbad Hm Ho. unfold decode_lower_hex. rewrite Hm. cbn [Z.eqb negb guard_err].
  rewrite lift_bind_ok, get_bind, guard_false by (apply Z.ltb_ge; lia).
  pose proof (len_nonneg u). pose proof (len_nonneg v).
  destruct (decide (len u mod 2 = 0)) as [He|He].
  - destruct (lower_hex_inv u Hu He) as (l & Hb & ->). rewrite len_app, len_cons, hex_bytes_len in *.
    destruct v as [|lo v]; [change (len (@nil Z)) with 0 in Hm; exfalso; Z.to_euclidean_division_equations; lia|].
    rewrite len_cons in *. pose proof (len_nonneg v).
    replace (Z.to_nat ((len l * 2 + (1 + (1 + len v))) / 2)) with (length l + S (Z.to_nat (len v / 2)))%nat
      by (unfold len in *; Z.to_euclidean_division_equations; lia).
    eexists. erewrite io_bind_err by (apply decode_hex_loop_bad; [done|Z.to_euclidean_division_equations; lia|by left]).
    rewrite Hbad. by rewrite Z.mul_comm.
  - destruct (exists_last (l := u)) as (u' & h & ->); [intros ->; by apply He|].
    apply Forall_app in Hu as [Hu Hh]. apply list.Forall_cons in Hh as [Hh _]. rewrite <- app_assoc in *. cbn [app] in *.
    rewrite !len_app, !len_cons in *. change (len (@nil Z)) with 0 in *.
    destruct (lower_hex_inv u' Hu) as (l & Hb & ->); [Z.to_euclidean_division_equations; lia|]. rewrite hex_bytes_len in *.
    replace (Z.to_nat ((len l * 2 + (1 + (1 + len v))) / 2)) with (length l + S (Z.to_nat (len v / 2)))%nat
      by (unfold len in *; Z.to_euclidean_division_equations; lia).
    eexists. erewrite io_bind_err by (apply decode_hex_loop_bad; [done|Z.to_euclidean_division_equations; lia|by right]).
    rewrite Hh. by replace (2 * len l + 1) with (len l * 2 + (1 + 0)) by lia.
Qed.

Lemma decode_fixed_hex_ok n l :
  array_ok n l -> decode_fixed_lower_hex n (hex_bytes l) = Ok l.
Proof.
  intros [<- Hb]. unfold decode_fixed_lower_hex. rewrite hex_bytes_len, Z.eqb_refl. cbn [negb guard_err mbind outcome_bind].
  rewrite decode_lower_hex_bytes by done. rewrite len_zeros by apply len_nonneg. rewrite Z.ltb_irrefl.
  rewrite drop_ge; [by rewrite app_nil_r|]. unfold zeros. rewrite length_replicate, to_nat_len. done.
Qed.

(** The decoder on every input. *)
Lemma hex_decode_spec input out :
  match decode_lower_hex input out with
  | (Ok n, out') => exists l, bytes_ok l /\ input = hex_bytes l /\ n = len l /\ out' = l ++ drop (length l) out
  | (Err e, out') =>
      len input mod 2 <> 0 /\ e = OddHexLength (len input) /\ out' = out \/
      len input mod 2 = 0 /\ len out < len input / 2 /\ e = OutputTooSmall (len input / 2) (len out) /\ out' = out \/
      exists u b v, input = u ++ b :: v /\ Forall (fun b => is_lower_hex b = true) u /\ is_lower_hex b = false /\
        e = hex_error (len u) b
  | (Panic, _) => False
  end.
Proof.
  destruct (decide (len input mod 2 = 0)) as [Hm|Hm].
  - destruct (Z.lt_ge_cases (len out) (len input / 2)) as [Ho|Ho].
    + unfold decode_lower_hex. rewrite Hm. cbn [Z.eqb negb guard_err]. rewrite lift_bind_ok, get_bind.
      destruct (Z.ltb_spec (len out) (len input / 2)); [|lia]. cbn [guard_err]. right. left. done.
    + destruct (first_bad input) as [Hl|(u & b & v & -> & Hu & Hb)].
      * destruct (lower_hex_inv input Hl Hm) as (l & Hb & ->). rewrite decode_lower_hex_bytes by done.
        rewrite hex_bytes_len, Z.div_mul in Ho by done. destruct (Z.ltb_spec (len out) (len l)); [lia|]. by exists l.
      * destruct (decode_lower_hex_bad u b v out Hu Hb Hm Ho) as [out' ->]. right. right. by exists u, b, v.
  - unfold decode_lower_hex. destruct (Z.eqb_spec (len input mod 2) 0); [done|]. cbn [negb guard_err]. left. done.
Qed.

Lemma hex_bytes_inj l k : bytes_ok l -> bytes_ok k -> hex_bytes l = hex_bytes k -> l = k.
Proof.
  intros Hl Hk H. pose proof (decode_fixed_hex_ok (len l) l) as H1. pose proof (decode_fixed_hex_ok (len k) k) as H2.
  assert (len l = len k) as Hlen by (apply (f_equal len) in H; rewrite !hex_bytes_len in H; lia).
  rewrite Hlen in H1. rewrite H in H1. rewrite H1 in H2 by done. specialize (H2 ltac:(done)). by injection H2.
Qed.

Lemma decode_fixed_hex_inv n s l : 0 <= n -> decode_fixed_lower_hex n s = Ok l -> array_ok n l /\ s = hex_bytes l.
Proof.
  intros Hn. unfold decode_fixed_lower_hex. destruct (Z.eqb_spec (len s) (n * 2)) as [Hl|]; [|done]. cbn [negb guard_err mbind outcome_bind].
  pose proof (hex_decode_spec s (zeros n)) as H. destruct (decode_lower_hex s (zeros n)) as [[k|e|] out'] eqn:E; [|done..].
  intros [= ->]. destruct H as (l' & Hb & -> & -> & ->). rewrite hex_bytes_len in Hl.
  rewrite drop_ge, app_nil_r; [split; [split; [lia|done]|done]|]. unfold zeros. rewrite length_replicate. unfold len in *. lia.
Qed.

Lemma fixed_hex_safe n s : decode_fixed_lower_hex n s <> Panic.
Proof.
  unfold decode_fixed_lower_hex. apply outcome_bind_safe; [apply guard_err_safe|]. intros _ _.
  pose proof (hex_decode_spec s (zeros n)) as H. by destruct (decode_lower_hex s (zeros n)) as [[k|e|] out'].
Qed.

(** The hexadecimal decoder on every input: what it accepts is exactly what
    the encoder writes, and it writes the decoded bytes and nothing behind them;
    an input of odd length, an output that is too short and the first character
    that is not a lower-case digit each give their error, the last with its
    position and with an error of its own for an upper-case digit. *)
Theorem hex_decode_exact input out :
  match decode_lower_hex input out with
  | (Ok n, out') => exists l, bytes_ok l /\ input = hex_bytes l /\ n = len l /\ out' = l ++ drop (length l) out
  | (Err e, out') =>
      len input mod 2 <> 0 /\ e = OddHexLength (len input) /\ out' = out \/
      len input mod 2 = 0 /\ len out < len input / 2 /\ e = OutputTooSmall (len input / 2) (len out) /\ out' = out \/
      exists u b v, input = u ++ b :: v /\ Forall (fun b => is_lower_hex b = true) u /\ is_lower_hex b = false /\
        e = hex_error (len u) b
  | (Panic, _) => False
  end.
Proof. exact (hex_decode_spec input out). Qed.
