(* ===== verification/NostrJson.v ===== *)
(** The JSON writers of the Nostr crates: sinks, strings, numbers and tags
    (src/crates/hyf_link_nostr/src/canonical.rs).

    The source writes to a trait object, a buffer or a hasher; [CanonicalSink]
    is that trait and [SinkLaws] what a writer relies on: writing two pieces is
    writing their concatenation.  [emits m v] says that a writer [m] does what
    writing [v] at once does, on every branch, so that one lemma per writer
    serves every sink.  The last part proves the form unambiguous: a string, a
    number and a list of tags can be read back from what was written. *)
From S2P Require Import Prelude Utf8 Cursor NostrHex.

(** ** Sinks *)
Class CanonicalSink (S E : Type) := sink_write : list Z -> io S E unit.

Class SinkLaws (S E : Type) `{CanonicalSink S E} := {
  sink_ok : S -> Prop;
  sink_pres : forall v s s', sink_ok s -> sink_write v s = (Ok tt, s') -> sink_ok s';
  sink_safe : forall v s, sink_ok s -> fst (sink_write v s) <> Panic;
  sink_nil : forall s, sink_ok s -> sink_write [] s = (Ok tt, s);
  sink_app : forall u v s, sink_ok s ->
    match sink_write (u ++ v) s with
    | (Ok _, s') => (_ ← sink_write u; sink_write v) s = (Ok tt, s')
    | (Err _, _) => exists e s', (_ ← sink_write u; sink_write v) s = (Err e, s')
    | (Panic, _) => False
    end;
}.

Section writers.
Context {S E : Type} `{CanonicalSink S E}.

Definition push_byte (byte : Z) : io S E unit := sink_write [byte].
Definition push_str (value : list Z) : io S E unit := sink_write value.

(** [value.chars()], for a [&str]. *)
Definition chars (value : list Z) : list Z := default [] (utf8_decode value).

Definition hex_nibble (value : Z) : Z := if in_range 0 9 value then 48 + value else 97 + (value - 10).

Definition write_control_escape (character : Z) : io S E unit :=
  let value := as_u8 character in
  sink_write [92; 117; 48; 48; hex_nibble (Z.shiftr value 4); hex_nibble (Z.land value 0x0f)].

Definition write_char (character : Z) : io S E unit :=
  match character with
  | 34 => push_str [92; 34]
  | 92 => push_str [92; 92]
  | 10 => push_str [92; 110]
  | 13 => push_str [92; 114]
  | 9 => push_str [92; 116]
  | 8 => push_str [92; 98]
  | 12 => push_str [92; 102]
  | _ => if in_range 0 0x1f character then write_control_escape character else push_str (encode_utf8 character)
  end.

Fixpoint write_chars (characters : list Z) : io S E unit :=
  match characters with
  | [] => mret tt
  | character :: characters => _ ← write_char character; write_chars characters
  end.

Definition write_json_string (value : list Z) : io S E unit :=
  _ ← push_byte 34;
  _ ← write_chars (chars value);
  push_byte 34.

(** The loop [while value > 0] that fills [scratch] from its end: [cursor] is
    what is left of the 20 bytes, [digits] is [scratch[cursor..]]. *)
Fixpoint digits_loop (cursor : nat) (value : Z) (digits : list Z) : outcome E (list Z) :=
  if value >? 0 then
    match cursor with
    | O => Panic
    | Datatypes.S cursor => digits_loop cursor (value / 10) (48 + as_u8 (value mod 10) :: digits)
    end
  else Ok digits.

Definition write_u64 (value : Z) : io S E unit :=
  if value =? 0 then push_byte 48
  else digits ← lift (digits_loop 20 value []); sink_write digits.

(** [for (index, value) in values.iter().enumerate()], with a comma before
    every value but the first. *)
Fixpoint write_separated {A} (write_item : A -> io S E unit) (index : Z) (values : list A) : io S E unit :=
  match values with
  | [] => mret tt
  | value :: values =>
      _ ← (if index >? 0 then push_byte 44 else mret tt);
      _ ← write_item value;
      write_separated write_item (index + 1) values
  end.

Definition write_tag (tag : list (list Z)) : io S E unit :=
  _ ← push_byte 91;
  _ ← write_separated write_json_string 0 tag;
  push_byte 93.

Definition write_tags (tags : list (list (list Z))) : io S E unit :=
  _ ← push_byte 91;
  _ ← write_separated write_tag 0 tags;
  push_byte 93.
End writers.

(** ** What is written *)
Definition json_char (c : Z) : list Z :=
  if c =? 34 then [92; 34]
  else if c =? 92 then [92; 92]
  else if c =? 10 then [92; 110]
  else if c =? 13 then [92; 114]
  else if c =? 9 then [92; 116]
  else if c =? 8 then [92; 98]
  else if c =? 12 then [92; 102]
  else if c <? 32 then [92; 117; 48; 48] ++ hex_byte c
  else encode_utf8 c.
Definition json_string (value : list Z) : list Z := [34] ++ concat (map json_char (chars value)) ++ [34].

Fixpoint decimal_digits (fuel : nat) (n : Z) : list Z :=
  match fuel with
  | O => []
  | S fuel => if n >? 0 then decimal_digits fuel (n / 10) ++ [48 + n mod 10] else []
  end.
Definition decimal (n : Z) : list Z := if n =? 0 then [48] else decimal_digits 20 n.

(** [x0, x1, ...] *)
Definition commas (l : list (list Z)) : list Z :=
  match l with [] => [] | x :: l => x ++ concat (map (cons 44) l) end.
Definition json_array (l : list (list Z)) : list Z := [91] ++ commas l ++ [93].
Definition json_tag (values : list (list Z)) : list Z := json_array (map json_string values).
Definition json_tags (tags : list (list (list Z))) : list Z := json_array (map json_tag tags).

(** ** Writers emit what they should *)
Section emits.
Context {S E : Type} `{SinkLaws S E}.

Definition emits_to {A} (m : io S E A) (a : A) (v : list Z) : Prop :=
  forall s, sink_ok s ->
    match sink_write v s with
    | (Ok _, s') => m s = (Ok a, s')
    | (Err _, _) => exists e s', m s = (Err e, s')
    | (Panic, _) => False
    end.
Definition emits (m : io S E unit) (v : list Z) : Prop := emits_to m tt v.

Lemma emits_write v : emits (sink_write v) v.
Proof.
  intros s Hs. pose proof (sink_safe v s Hs). destruct (sink_write v s) as [[[]|e|] s'] eqn:Hv; [done|by exists e, s'|done].
Qed.
Lemma emits_byte b : emits (push_byte b) [b].
Proof. apply emits_write. Qed.

Lemma emits_to_ret {A} (a : A) : emits_to (mret a) a [].
Proof. intros s Hs. by rewrite sink_nil. Qed.
Lemma emits_ret : emits (mret tt) [].
Proof. apply emits_to_ret. Qed.

Lemma emits_to_bind {A B} (m : io S E A) (f : A -> io S E B) a b u v :
  emits_to m a u -> emits_to (f a) b v -> emits_to (m ≫= f) b (u ++ v).
Proof.
  intros H1 H2 s Hs. specialize (H1 s Hs). pose proof (sink_app u v s Hs) as Ha.
  pose proof (sink_safe u s Hs) as Hsafe. unfold mbind, io_bind in *.
  destruct (sink_write u s) as [[[]|e|] s1] eqn:E1; [| |done].
  - specialize (H2 s1 (sink_pres u s s1 Hs E1)). rewrite H1.
    destruct (sink_write (u ++ v) s) as [[[]|e|] s2]; [|destruct Ha as (e' & s' & Ha)|done]; rewrite Ha in H2; done.
  - destruct H1 as (e' & s' & ->). destruct (sink_write (u ++ v) s) as [[[]|e2|] s2]; [done|by exists e', s'|done].
Qed.
Lemma emits_bind m1 m2 u v : emits m1 u -> emits m2 v -> emits (_ ← m1; m2) (u ++ v).
Proof. intros H1 H2. exact (emits_to_bind m1 (fun _ => m2) tt tt u v H1 H2). Qed.

Lemma emits_eq m u v : emits m u -> u = v -> emits m v.
Proof. by intros ? <-. Qed.

Lemma hex_nibble_digit n : 0 <= n < 16 -> hex_nibble n = hex_digit n.
Proof.
  intros Hn. unfold hex_nibble, hex_digit. rewrite in_range_reflect. destruct (Z.ltb_spec n 10).
  - by rewrite bool_decide_eq_true_2 by lia.
  - rewrite bool_decide_eq_false_2 by lia. lia.
Qed.

Lemma control_escape_bytes c : 0 <= c < 32 ->
  [92; 117; 48; 48; hex_nibble (Z.shiftr (as_u8 c) 4); hex_nibble (Z.land (as_u8 c) 0x0f)] = [92; 117; 48; 48] ++ hex_byte c.
Proof.
  intros Hc. unfold as_u8. rewrite Z.mod_small by lia. assert (u8_ok c) as Hb by (unfold u8_ok; lia).
  destruct (byte_nibbles c Hb) as [-> ->]. destruct (nibbles c Hb). by rewrite !hex_nibble_digit.
Qed.

(** [json_char] is the arms of the match, as tests. *)
Lemma emits_char c : scalar_ok c -> emits (write_char c) (json_char c).
Proof.
  intros Hc. unfold json_char.
  repeat match goal with |- emits _ (if ?c =? ?k then _ else _) => destruct (Z.eqb_spec c k) as [->|]; [apply emits_write|] end.
  assert (write_char c = if in_range 0 0x1f c then write_control_escape c else push_str (encode_utf8 c)) as ->.
  { unfold write_char. repeat (match goal with |- (match ?x with _ => _ end) = _ => destruct x end; try done). }
  rewrite in_range_reflect. destruct (Z.ltb_spec c 32).
  - rewrite bool_decide_eq_true_2 by (unfold scalar_ok in Hc; lia). unfold write_control_escape. cbv zeta.
    rewrite control_escape_bytes by (unfold scalar_ok in Hc; lia). apply emits_write.
  - rewrite bool_decide_eq_false_2 by lia. apply emits_write.
Qed.

Lemma emits_chars cs : Forall scalar_ok cs -> emits (write_chars cs) (concat (map json_char cs)).
Proof.
  induction 1 as [|c cs Hc Hcs IH]; [apply emits_ret|]. cbn [write_chars map concat].
  apply emits_bind; [by apply emits_char|exact IH].
Qed.

(** What the type [&str] guarantees. *)
Definition str_ok (s : list Z) : Prop := bytes_ok s /\ utf8_ok s = true.

Lemma chars_spec s : str_ok s -> Forall scalar_ok (chars s) /\ s = concat (map encode_utf8 (chars s)).
Proof.
  intros [Hb Hu]. unfold utf8_ok in Hu. apply bool_decide_eq_true in Hu as [cs Hcs]. unfold chars. rewrite Hcs.
  by apply utf8_decode_exact.
Qed.

Lemma emits_json_string s : str_ok s -> emits (write_json_string s) (json_string s).
Proof.
  intros Hs. unfold write_json_string, json_string. apply emits_bind; [apply emits_byte|].
  apply emits_bind; [by apply emits_chars, chars_spec|apply emits_byte].
Qed.

Lemma digits_loop_ok fuel n acc :
  0 <= n < 10 ^ Z.of_nat fuel -> digits_loop (E:=E) fuel n acc = Ok (decimal_digits fuel n ++ acc).
Proof.
  revert n acc. induction fuel as [|fuel IH]; intros n acc Hn.
  - change (10 ^ Z.of_nat 0) with 1 in Hn. replace n with 0 by lia. done.
  - cbn [digits_loop decimal_digits]. rewrite Z.gtb_ltb. destruct (Z.ltb_spec 0 n); [|done].
    rewrite Nat2Z.inj_succ, Z.pow_succ_r in Hn by lia. pose proof (Z.mod_pos_bound n 10 ltac:(lia)).
    rewrite IH. { unfold as_u8. rewrite (Z.mod_small (n mod 10)) by lia. by rewrite <- app_assoc. }
    split; [apply Z.div_pos; lia|apply Z.div_lt_upper_bound; lia].
Qed.

Lemma emits_u64 n : u64_ok n -> emits (write_u64 n) (decimal n).
Proof.
  intros Hn. unfold write_u64, decimal. destruct (n =? 0); [apply emits_byte|].
  rewrite digits_loop_ok, app_nil_r; [intros s Hs; rewrite lift_bind_ok; by apply emits_write|].
  unfold u64_ok in Hn. split; [lia|]. change (10 ^ Z.of_nat 20) with 100000000000000000000. lia.
Qed.

Section separated.
Context {A} (P : A -> Prop) (item : A -> io S E unit) (enc : A -> list Z).
Hypothesis Hitem : forall a, P a -> emits (item a) (enc a).

Lemma emits_separated l i :
  0 <= i -> Forall P l ->
  emits (write_separated item i l) (if i >? 0 then concat (map (cons 44) (map enc l)) else commas (map enc l)).
Proof.
  intros Hi Hl. revert i Hi. induction Hl as [|a l Ha Hl IH]; intros i Hi; [destruct (i >? 0); apply emits_ret|].
  assert (emits (write_separated item (i + 1) l) (concat (map (cons 44) (map enc l)))) as IH'.
  { specialize (IH (i + 1) ltac:(lia)). rewrite Z.gtb_ltb in IH. by destruct (Z.ltb_spec 0 (i + 1)); [|lia]. }
  assert (emits (_ ← item a; write_separated item (i + 1) l) (enc a ++ concat (map (cons 44) (map enc l)))) as Ht.
  { apply emits_bind; [by apply Hitem|exact IH']. }
  cbn [write_separated map concat commas]. destruct (i >? 0).
  - cbn [app]. change (44 :: enc a ++ ?l) with ([44] ++ enc a ++ l). apply emits_bind; [apply emits_byte|exact Ht].
  - intros s Hs. rewrite ret_bind. by apply Ht.
Qed.

(** ... between brackets. *)
Lemma emits_array l :
  Forall P l -> emits (_ ← push_byte 91; _ ← write_separated item 0 l; push_byte 93) (json_array (map enc l)).
Proof.
  intros Hl. unfold json_array. apply emits_bind; [apply emits_byte|].
  apply emits_bind; [by apply (emits_separated l 0)|apply emits_byte].
Qed.
End separated.

Lemma emits_tag tag : Forall str_ok tag -> emits (write_tag tag) (json_tag tag).
Proof. intros Ht. eapply emits_array; [apply emits_json_string|done]. Qed.

Lemma emits_tags tags : Forall (Forall str_ok) tags -> emits (write_tags tags) (json_tags tags).
Proof. intros Ht. eapply emits_array; [apply emits_tag|done]. Qed.
End emits.

(** ** Strings put together *)
Lemma str_ok_app u v : str_ok u -> str_ok v -> str_ok (u ++ v).
Proof.
  intros [Hu1 Hu2] [Hv1 Hv2]. split; [by apply bytes_ok_app|]. unfold utf8_ok in *. rewrite !bool_decide_eq_true in *.
  destruct Hu2 as [cs Hu2], Hv2 as [ds Hv2]. exists (cs ++ ds). by apply utf8_decode_app.
Qed.
Lemma str_ok_ascii l : Forall (fun b => 0 <= b < 128) l -> str_ok l.
Proof.
  intros H. split; [eapply list.Forall_impl; [exact H|unfold u8_ok; intros; simpl in *; lia]|].
  unfold utf8_ok. by rewrite utf8_decode_ascii.
Qed.
Lemma str_ok_concat l : Forall str_ok l -> str_ok (concat l).
Proof. induction 1 as [|x l Hx Hl IH]; [by apply str_ok_ascii, list.Forall_nil|]. by apply str_ok_app. Qed.
Lemma str_ok_encode c : scalar_ok c -> str_ok (encode_utf8 c).
Proof.
  intros H. split; [by apply encode_utf8_bytes|]. unfold utf8_ok. pose proof (utf8_decode_encode c [] H) as E.
  rewrite app_nil_r in E. by rewrite E.
Qed.

(** ** Reading back *)
(** An encoding whose end can be found: what follows it does not matter. *)
Definition self_delimiting {A} (P : A -> Prop) (enc : A -> list Z) : Prop :=
  forall a b u v, P a -> P b -> enc a ++ u = enc b ++ v -> a = b /\ u = v.

Lemma encode_utf8_head c : scalar_ok c ->
  exists b r, encode_utf8 c = b :: r /\ (c < 128 /\ b = c /\ r = [] \/ 128 <= c /\ 128 <= b).
Proof.
  intros H. unfold encode_utf8, scalar_ok in *. utf8_digits c.
  destruct (Z.ltb_spec c 128); [|destruct (Z.ltb_spec c 2048); [|destruct (Z.ltb_spec c 65536)]];
    eexists _, _; (split; [done|]); first [left; done | right; lia].
Qed.

Lemma encode_utf8_delimiting : self_delimiting scalar_ok encode_utf8.
Proof.
  intros a b u v Ha Hb E. unfold encode_utf8, scalar_ok in *. revert E. utf8_digits a. utf8_digits b. intros E.
  repeat match type of E with context [?x <? ?y] => destruct (Z.ltb_spec x y) end; cbn [app] in E;
    injection E; intros; subst; try lia; (split; [lia|done]).
Qed.

Lemma hex_byte_inj a b : u8_ok a -> u8_ok b -> hex_byte a = hex_byte b -> a = b.
Proof.
  intros Ha Hb E. destruct (nibbles a Ha), (nibbles b Hb). unfold hex_byte, hex_digit in E. injection E. intros E2 E1.
  assert (a / 16 = b / 16) by (repeat case_match; rewrite ?Z.ltb_lt, ?Z.ltb_ge in *; lia).
  assert (a mod 16 = b mod 16) by (repeat case_match; rewrite ?Z.ltb_lt, ?Z.ltb_ge in *; lia).
  Z.to_euclidean_division_equations. lia.
Qed.

(** The characters written as a backslash and something else, and the
    something else. *)
Definition escape (c : Z) : option (list Z) :=
  if c =? 34 then Some [34] else if c =? 92 then Some [92] else if c =? 10 then Some [110]
  else if c =? 13 then Some [114] else if c =? 9 then Some [116] else if c =? 8 then Some [98]
  else if c =? 12 then Some [102] else if c <? 32 then Some ([117; 48; 48] ++ hex_byte c) else None.

Lemma json_char_escape c : json_char c = match escape c with Some e => 92 :: e | None => encode_utf8 c end.
Proof. unfold json_char, escape. by repeat case_match. Qed.

Lemma escape_none c : escape c = None -> c <> 34 /\ c <> 92 /\ 32 <= c.
Proof. unfold escape. repeat case_match; rewrite ?Z.eqb_neq, ?Z.ltb_ge in *; try done; lia. Qed.

(** An escape, by the character behind the backslash. *)
Definition unescape (e : list Z) : Z :=
  match e with
  | 110 :: _ => 10 | 114 :: _ => 13 | 116 :: _ => 9 | 98 :: _ => 8 | 102 :: _ => 12
  | 117 :: _ => -1
  | x :: _ => x
  | [] => -2
  end.
Lemma escape_some c e : 0 <= c -> escape c = Some e ->
  (length e = if unescape e =? -1 then 5%nat else 1%nat) /\
  (unescape e = -1 /\ e = [117; 48; 48] ++ hex_byte c /\ c < 32 \/ unescape e = c).
Proof.
  unfold escape. intros Hc H.
  repeat match type of H with (if ?c =? ?k then _ else _) = _ => destruct (Z.eqb_spec c k) as [->|]; [injection H as <-; split; [done|by right]|] end.
  destruct (Z.ltb_spec c 32); [|done]. injection H as <-. split; [done|by left].
Qed.

Lemma unescape_app e u : e <> [] -> unescape (e ++ u) = unescape e.
Proof. by destruct e. Qed.

Lemma json_char_delimiting : self_delimiting scalar_ok json_char.
Proof.
  intros a b u v Ha Hb E. rewrite !json_char_escape in E. assert (0 <= a /\ 0 <= b) as [Ha0 Hb0] by (unfold scalar_ok in *; lia).
  destruct (escape a) as [e|] eqn:Ea, (escape b) as [f|] eqn:Eb.
  - cbn [app] in E. injection E as E. destruct (escape_some a e Ha0 Ea) as [Le He], (escape_some b f Hb0 Eb) as [Lf Hf].
    assert (unescape e = unescape f) as Eu.
    { rewrite <- (unescape_app e u), <- (unescape_app f v), E; [done| |]; intros ->; cbn in *; done. }
    apply app_inj_1 in E as [-> ->]; [|by rewrite Le, Lf, Eu]. split; [|done].
    destruct He as [(E1 & -> & ?)|E1], Hf as [(E2 & Ef & ?)|E2]; try lia.
    apply hex_byte_inj; [unfold u8_ok; lia..|]. by apply (app_inv_head [117; 48; 48]).
  - destruct (escape_none b Eb) as (? & ? & ?), (encode_utf8_head b Hb) as (x & r & Hx & ?). rewrite Hx in E. injection E. lia.
  - destruct (escape_none a Ea) as (? & ? & ?), (encode_utf8_head a Ha) as (x & r & Hx & ?). rewrite Hx in E. injection E. lia.
  - by apply encode_utf8_delimiting.
Qed.

Lemma json_char_head c : scalar_ok c -> exists b r, json_char c = b :: r /\ b <> 34.
Proof.
  intros Hc. rewrite json_char_escape. destruct (escape c) eqn:E; [by eexists _, _|].
  destruct (escape_none c E) as (? & ? & ?), (encode_utf8_head c Hc) as (x & r & -> & ?). eexists _, _. split; [done|]. lia.
Qed.

(** Characters up to the closing quote. *)
Lemma json_chars_delimiting cs ds u v :
  Forall scalar_ok cs -> Forall scalar_ok ds ->
  concat (map json_char cs) ++ [34] ++ u = concat (map json_char ds) ++ [34] ++ v -> cs = ds /\ u = v.
Proof.
  intros Hcs. revert ds. induction Hcs as [|c cs Hc Hcs IH]; intros ds Hds E; destruct Hds as [|d ds Hd Hds].
  - cbn in E. by injection E.
  - destruct (json_char_head d Hd) as (b & r & Hb & ?). cbn [map concat app] in E. rewrite Hb in E. cbn in E. by injection E.
  - destruct (json_char_head c Hc) as (b & r & Hb & ?). cbn [map concat app] in E. rewrite Hb in E. cbn in E. by injection E.
  - cbn [map concat] in E. rewrite <- !app_assoc in E. apply json_char_delimiting in E as [-> E]; [|done..].
    destruct (IH ds Hds E) as [-> ->]. done.
Qed.

Lemma json_string_delimiting : self_delimiting str_ok json_string.
Proof.
  intros a b u v Ha Hb E. unfold json_string in E. rewrite <- !app_assoc in E. cbn [app] in E. injection E as E.
  destruct (chars_spec a Ha) as [Ca Ea], (chars_spec b Hb) as [Cb Eb].
  destruct (json_chars_delimiting _ _ u v Ca Cb E) as [Ec ->]. split; [|done]. by rewrite Ea, Eb, Ec.
Qed.

(** *** Numbers *)
Definition is_digit (b : Z) : Prop := 48 <= b <= 57.

Lemma decimal_digits_ok fuel n : 0 <= n -> Forall is_digit (decimal_digits fuel n).
Proof.
  revert n. induction fuel as [|fuel IH]; intros n Hn; cbn [decimal_digits]; [by apply list.Forall_nil|].
  destruct (n >? 0); [|by apply list.Forall_nil]. apply Forall_app. split; [apply IH, Z.div_pos; lia|].
  apply list.Forall_cons. split; [|by apply list.Forall_nil]. unfold is_digit. pose proof (Z.mod_pos_bound n 10). lia.
Qed.

Lemma decimal_ok n : 0 <= n -> Forall is_digit (decimal n).
Proof.
  intros Hn. unfold decimal. destruct (n =? 0); [|by apply decimal_digits_ok].
  apply list.Forall_cons. split; [unfold is_digit; lia|by apply list.Forall_nil].
Qed.

(** The number a list of digits denotes. *)
Definition digits_value (l : list Z) : Z := fold_left (fun acc b => acc * 10 + (b - 48)) l 0.

Lemma decimal_digits_value fuel n : 0 <= n < 10 ^ Z.of_nat fuel -> digits_value (decimal_digits fuel n) = n.
Proof.
  revert n. induction fuel as [|fuel IH]; intros n Hn; cbn [decimal_digits].
  - change (10 ^ Z.of_nat 0) with 1 in Hn. unfold digits_value. cbn. lia.
  - rewrite Z.gtb_ltb. destruct (Z.ltb_spec 0 n); [|unfold digits_value; cbn; lia].
    rewrite Nat2Z.inj_succ, Z.pow_succ_r in Hn by lia.
    unfold digits_value in *. rewrite fold_left_app. cbn [fold_left]. rewrite IH; [Z.to_euclidean_division_equations; lia|].
    split; [apply Z.div_pos; lia|apply Z.div_lt_upper_bound; lia].
Qed.

Lemma decimal_value n : u64_ok n -> digits_value (decimal n) = n.
Proof.
  intros Hn. unfold decimal. destruct (Z.eqb_spec n 0) as [->|]; [done|]. apply decimal_digits_value.
  unfold u64_ok in Hn. change (10 ^ Z.of_nat 20) with 100000000000000000000. lia.
Qed.

Lemma decimal_cons n : u64_ok n -> exists b r, decimal n = b :: r /\ is_digit b /\ (b = 48 -> n = 0 /\ r = []).
Proof.
  intros Hn. unfold decimal. destruct (Z.eqb_spec n 0) as [->|Hnz]; [by exists 48, []|].
  assert (0 < n < 10 ^ Z.of_nat 20) as H.
  { unfold u64_ok in Hn. change (10 ^ Z.of_nat 20) with 100000000000000000000. lia. }
  clear Hn Hnz. revert n H. generalize 20%nat as fuel. induction fuel as [|fuel IH]; intros n H; [change (10 ^ Z.of_nat 0) with 1 in H; lia|].
  cbn [decimal_digits]. rewrite Z.gtb_ltb. destruct (Z.ltb_spec 0 n); [|lia].
  rewrite Nat2Z.inj_succ, Z.pow_succ_r in H by lia. pose proof (Z.mod_pos_bound n 10).
  destruct (decide (n / 10 = 0)) as [E|E].
  - rewrite E. replace (decimal_digits fuel 0) with (@nil Z) by (by destruct fuel).
    exists (48 + n mod 10), []. unfold is_digit. split_and!; [done|lia|lia|]. Z.to_euclidean_division_equations. lia.
  - destruct (IH (n / 10)) as (b & r & -> & Hb & Hr).
    { pose proof (Z.div_pos n 10). split; [lia|apply Z.div_lt_upper_bound; lia]. }
    exists b, (r ++ [48 + n mod 10]). split_and!; [done|done|]. intros Hb48. destruct (Hr Hb48). lia.
Qed.

(** A number ends where its digits do. *)
Lemma digits_span l k u v :
  Forall is_digit l -> Forall is_digit k ->
  (forall b r, u = b :: r -> ~ is_digit b) -> (forall b r, v = b :: r -> ~ is_digit b) ->
  l ++ u = k ++ v -> l = k /\ u = v.
Proof.
  intros Hl. revert k. induction Hl as [|b l Hb Hl IH]; intros k Hk Hu Hv E; destruct Hk as [|b' k Hb' Hk].
  - done.
  - cbn [app] in E. subst u. by destruct (Hu b' (k ++ v) eq_refl).
  - cbn [app] in E. subst v. by destruct (Hv b (l ++ u) eq_refl).
  - cbn [app] in E. injection E as -> E. by destruct (IH k Hk Hu Hv E) as [-> ->].
Qed.

Lemma decimal_span m n x y u v :
  u64_ok m -> u64_ok n -> ~ is_digit x -> ~ is_digit y -> decimal m ++ x :: u = decimal n ++ y :: v -> m = n /\ x = y /\ u = v.
Proof.
  intros Hm Hn Hx Hy E. apply digits_span in E as [E1 E2]; [|apply decimal_ok; unfold u64_ok in *; lia..|by intros ? ? [= <- <-]|by intros ? ? [= <- <-]].
  injection E2 as <- <-. split; [|done]. by rewrite <- (decimal_value m), <- (decimal_value n), E1.
Qed.

(** *** Arrays *)
Section arrays.
Context {A} (P : A -> Prop) (enc : A -> list Z).
Hypothesis enc_delimiting : self_delimiting P enc.
Hypothesis enc_head : forall a, P a -> exists b r, enc a = b :: r /\ b <> 93.

Lemma tail_delimiting l k u v :
  Forall P l -> Forall P k ->
  concat (map (cons 44) (map enc l)) ++ [93] ++ u = concat (map (cons 44) (map enc k)) ++ [93] ++ v -> l = k /\ u = v.
Proof.
  intros Hl. revert k. induction Hl as [|a l Ha Hl IH]; intros k Hk E; destruct Hk as [|b k Hb Hk]; cbn [map concat app] in E.
  - by injection E.
  - discriminate E.
  - discriminate E.
  - injection E as E. rewrite <- !app_assoc in E. apply enc_delimiting in E as [-> E]; [|done..].
    by destruct (IH k Hk E) as [-> ->].
Qed.

Lemma json_array_delimiting : self_delimiting (Forall P) (fun l => json_array (map enc l)).
Proof.
  intros l k u v Hl Hk E. unfold json_array, commas in E. rewrite <- !app_assoc in E. cbn [app] in E. injection E as E.
  destruct Hl as [|a l Ha Hl], Hk as [|b k Hb Hk]; cbn [map app] in E.
  - by injection E.
  - destruct (enc_head b Hb) as (x & r & Hx & ?). rewrite Hx in E. cbn in E. congruence.
  - destruct (enc_head a Ha) as (x & r & Hx & ?). rewrite Hx in E. cbn in E. congruence.
  - rewrite <- !app_assoc in E. apply enc_delimiting in E as [-> E]; [|done..].
    by destruct (tail_delimiting l k u v Hl Hk E) as [-> ->].
Qed.
End arrays.

Lemma json_tag_delimiting : self_delimiting (Forall str_ok) json_tag.
Proof. apply json_array_delimiting; [apply json_string_delimiting|]. intros a _. by eexists 34, _. Qed.

Lemma json_tags_delimiting : self_delimiting (Forall (Forall str_ok)) json_tags.
Proof. apply json_array_delimiting; [apply json_tag_delimiting|]. intros a _. by eexists 91, _. Qed.

(** ** The two sinks *)
Record BufferSink := mk_buffer_sink { bs_out : list Z; bs_len : Z }.
Definition BufferSink_new (out : list Z) : BufferSink := mk_buffer_sink out 0.

(** Writing behind what was written, for the crate's two such writers and the
    one of hyf_bridge_nostr: [too_small needed available] is the error. *)
Definition buffer_write {E} (too_small : Z -> Z -> E) (bytes : list Z) : io BufferSink E unit :=
  s ← get;
  needed ← lift (ok_or (checked_add (bs_len s) (len bytes)) (too_small usize_MAX (len (bs_out s))));
  _ ← lift (guard_err (needed >? len (bs_out s)) (too_small needed (len (bs_out s))));
  out ← lift (write_at (bs_out s) (bs_len s) bytes);
  put (mk_buffer_sink out needed).

Definition BufferSink_write : list Z -> io BufferSink NostrError unit := buffer_write OutputTooSmall.
#[export] Instance BufferSink_sink : CanonicalSink BufferSink NostrError := BufferSink_write.

Definition BufferSink_finish (s : BufferSink) : outcome NostrError (list Z) :=
  v ← slice (bs_out s) 0 (bs_len s);
  if utf8_ok v then Ok v else Err Utf8.

(** [Sha256], as the bytes it has absorbed: [update] appends, [finalize] is the
    digest of the concatenation. *)
Definition HashSink : Type := list Z.
Definition HashSink_new : HashSink := [].
Definition HashSink_write (bytes : list Z) : io HashSink NostrError unit := fun s => (Ok tt, s ++ bytes).
#[export] Instance HashSink_sink : CanonicalSink HashSink NostrError := HashSink_write.

#[export] Program Instance HashSink_laws : SinkLaws HashSink NostrError := {| sink_ok := fun _ => True |}.
Next Obligation. done. Qed.
Next Obligation. done. Qed.
Next Obligation. intros s _. unfold sink_write, HashSink_sink, HashSink_write. by rewrite app_nil_r. Qed.
Next Obligation. intros u v s _. unfold sink_write, HashSink_sink, HashSink_write. cbn. by rewrite app_assoc. Qed.

(** A sink is [pre] written, and room behind it. *)
Definition buffer_ok (s : BufferSink) : Prop := 0 <= bs_len s <= len (bs_out s) /\ len (bs_out s) <= usize_MAX.

Lemma buffer_write_spec {E} (f : Z -> Z -> E) v pre rest :
  len (pre ++ rest) <= usize_MAX ->
  buffer_write f v (mk_buffer_sink (pre ++ rest) (len pre)) =
    if len v <=? len rest
    then (Ok tt, mk_buffer_sink ((pre ++ v) ++ drop (length v) rest) (len (pre ++ v)))
    else (Err (if len pre + len v <=? usize_MAX then f (len pre + len v) (len (pre ++ rest)) else f usize_MAX (len (pre ++ rest))),
          mk_buffer_sink (pre ++ rest) (len pre)).
Proof.
  intros Hmax. unfold buffer_write. rewrite get_bind. cbn [bs_out bs_len]. unfold checked_add. rewrite len_app in *.
  pose proof (len_nonneg pre). pose proof (len_nonneg v). destruct (Z.leb_spec (len v) (len rest)) as [Hv|Hv].
  - destruct (Z.leb_spec (len pre + len v) usize_MAX); [|lia]. cbn [ok_or]. rewrite lift_bind_ok.
    rewrite guard_false by (rewrite Z.gtb_ltb; apply Z.ltb_ge; lia).
    destruct (cut rest (len v)) as (u & w & -> & Hu & _); [lia|]. rewrite (write_at_app pre v u w) by done.
    rewrite lift_bind_ok. unfold put. rewrite len_app, <- !app_assoc. do 4 f_equal.
    rewrite drop_app_length'; [done|]. unfold len in Hu. lia.
  - destruct (Z.leb_spec (len pre + len v) usize_MAX); [|done]. cbn [ok_or]. rewrite lift_bind_ok.
    rewrite Z.gtb_ltb. by destruct (Z.ltb_spec (len pre + len rest) (len pre + len v)); [|lia].
Qed.

Lemma buffer_view s : buffer_ok s -> exists pre rest, s = mk_buffer_sink (pre ++ rest) (len pre) /\ len (pre ++ rest) <= usize_MAX.
Proof.
  destruct s as [out n]. intros [Hn Hmax]. cbn [bs_len bs_out] in *.
  destruct (cut out n Hn) as (u & v & -> & <- & _). by exists u, v.
Qed.

Section buffer_laws.
Context {E : Type} (f : Z -> Z -> E).

Lemma buffer_write_ok v pre rest s' :
  len (pre ++ rest) <= usize_MAX ->
  buffer_write f v (mk_buffer_sink (pre ++ rest) (len pre)) = (Ok tt, s') ->
  len v <= len rest /\ s' = mk_buffer_sink ((pre ++ v) ++ drop (length v) rest) (len (pre ++ v)).
Proof. intros Hmax. rewrite buffer_write_spec by done. destruct (Z.leb_spec (len v) (len rest)); [|done]. by intros [= <-]. Qed.

Lemma buffer_rest (v pre rest : list Z) :
  len v <= len rest -> len ((pre ++ v) ++ drop (length v) rest) = len (pre ++ rest).
Proof. intros H. rewrite !len_app, len_drop. unfold len in *. lia. Qed.

Lemma buffer_laws : @SinkLaws BufferSink E (buffer_write f).
Proof.
  refine (@Build_SinkLaws BufferSink E (buffer_write f) buffer_ok _ _ _ _); unfold sink_write.
  - intros v s s' Hs H. destruct (buffer_view s Hs) as (pre & rest & -> & Hmax). apply buffer_write_ok in H as [Hv ->]; [|done].
    unfold buffer_ok. cbn [bs_out bs_len]. rewrite (buffer_rest v pre rest Hv), !len_app in *. pose proof (len_nonneg pre).
    pose proof (len_nonneg v). lia.
  - intros v s Hs. destruct (buffer_view s Hs) as (pre & rest & -> & Hmax). rewrite buffer_write_spec by done. by destruct (_ <=? _).
  - intros s Hs. destruct (buffer_view s Hs) as (pre & rest & -> & Hmax). rewrite buffer_write_spec by done.
    destruct (Z.leb_spec (len (@nil Z)) (len rest)); [|pose proof (len_nonneg rest); change (len (@nil Z)) with 0 in *; lia].
    by rewrite app_nil_r.
  - intros u v s Hs. destruct (buffer_view s Hs) as (pre & rest & -> & Hmax). pose proof (len_nonneg u). pose proof (len_nonneg v).
    rewrite buffer_write_spec by done. unfold mbind, io_bind. rewrite buffer_write_spec by done. rewrite len_app.
    destruct (Z.leb_spec (len u + len v) (len rest)) as [H1|H1].
    + destruct (Z.leb_spec (len u) (len rest)); [|lia].
      rewrite buffer_write_spec by (rewrite buffer_rest by done; done). rewrite len_drop.
      destruct (Z.leb_spec (len v) (Z.max 0 (len rest - Z.of_nat (length u)))); [|unfold len in *; lia].
      rewrite drop_drop, length_app. by rewrite <- (app_assoc pre u v).
    + destruct (Z.leb_spec (len u) (len rest)); [|by eexists _, _].
      rewrite buffer_write_spec by (rewrite buffer_rest by done; done). rewrite len_drop.
      destruct (Z.leb_spec (len v) (Z.max 0 (len rest - Z.of_nat (length u)))); [unfold len in *; lia|by eexists _, _].
Defined.
End buffer_laws.

#[export] Instance BufferSink_laws : SinkLaws BufferSink NostrError := buffer_laws OutputTooSmall.

(** What a writer leaves in a fresh buffer. *)
Lemma emits_buffer {E} (f : Z -> Z -> E) (m : io BufferSink E unit) v out :
  @emits BufferSink E (buffer_write f) (buffer_laws f) m v -> len out <= usize_MAX ->
  if len v <=? len out then m (BufferSink_new out) = (Ok tt, mk_buffer_sink (v ++ drop (length v) out) (len v))
  else exists e s', m (BufferSink_new out) = (Err e, s').
Proof.
  intros Hm Hmax. specialize (Hm (BufferSink_new out)). pose proof (len_nonneg out).
  assert (buffer_ok (BufferSink_new out)) as Hok by (unfold buffer_ok, BufferSink_new; cbn; lia).
  specialize (Hm Hok). unfold sink_write, BufferSink_new in Hm.
  pose proof (buffer_write_spec f v [] out Hmax) as Hw. cbn [app] in Hw. change (len (@nil Z)) with 0 in Hw. rewrite Hw in Hm.
  by destruct (len v <=? len out).
Qed.

Lemma BufferSink_finish_ok v rest : str_ok v -> BufferSink_finish (mk_buffer_sink (v ++ rest) (len v)) = Ok v.
Proof.
  intros [_ Hu]. unfold BufferSink_finish. cbn [bs_out bs_len].
  rewrite slice_app_first by done. cbn [mbind outcome_bind]. by rewrite Hu.
Qed.

(** ... and in the crate's own sink. *)
Lemma emits_sink (m : io BufferSink NostrError unit) v out :
  emits m v -> len out <= usize_MAX ->
  if len v <=? len out then m (BufferSink_new out) = (Ok tt, mk_buffer_sink (v ++ drop (length v) out) (len v))
  else exists e s', m (BufferSink_new out) = (Err e, s').
Proof. exact (emits_buffer OutputTooSmall m v out). Qed.

(** ** Lengths *)
Lemma len_decimal n : 0 <= len (decimal n) <= 20.
Proof.
  assert (forall fuel m, (length (decimal_digits fuel m) <= fuel)%nat) as H.
  { induction fuel as [|fuel IH]; intros m; cbn [decimal_digits]; [done|].
    destruct (m >? 0); [|simpl; lia]. rewrite length_app. specialize (IH (m / 10)). simpl. lia. }
  unfold decimal. destruct (n =? 0); [done|]. specialize (H 20%nat n). unfold len. lia.
Qed.

(** Hexadecimal needs no escapes. *)
Lemma json_string_hex l : bytes_ok l -> json_string (hex_bytes l) = [34] ++ hex_bytes l ++ [34].
Proof.
  intros H. unfold json_string, chars. rewrite hex_bytes_utf8 by done. cbn [from_option id]. f_equal. f_equal.
  pose proof (hex_bytes_lower l H) as Hl. induction Hl as [|b u Hb Hu IH]; [done|]. cbn [map concat]. rewrite IH.
  unfold is_lower_hex in Hb. rewrite !in_range_reflect, orb_true_iff, !bool_decide_eq_true in Hb. unfold json_char.
  repeat match goal with |- context [?x =? ?y] => destruct (Z.eqb_spec x y); [lia|] end.
  destruct (Z.ltb_spec b 32); [lia|]. unfold encode_utf8. destruct (Z.ltb_spec b 128); [done|lia].
Qed.

Lemma len_json_hex l : bytes_ok l -> len (json_string (hex_bytes l)) = len l * 2 + 2.
Proof. intros H. rewrite json_string_hex, !len_app, hex_bytes_len by done. change (len [34]) with 1. lia. Qed.
