(* ===== verification/NostrParser.v ===== *)
(** [hyf_link_nostr::messages], the JSON half: values and the parser
    (src/crates/hyf_link_nostr/src/messages.rs, [JsonValue] and [JsonParser]).

    The parser is a cursor over the bytes of a [&str].  [json_text v t] is the
    grammar: [t], blanks in front included, is one way to write the value [v].
    [json_parse_exact] says that the parser accepts exactly the texts of the
    grammar, that a text has one value, and that nothing else than
    [MalformedMessage] comes out of a refusal.  [json_print v] is the compact
    way to write a value, the one the writers use.

    The recursion of the source descends once per bracket; the loops turn once
    per byte at most.  Both have fuel, one more than the bytes of the input,
    and running out of it would be [Panic], which is proved not to happen. *)
From S2P Require Import Prelude Utf8 Cursor NostrHex NostrJson.
From stdpp Require Import strings.

Open Scope Z_scope.

Unset Elimination Schemes.
Inductive JsonValue :=
| JNull
| JBool (b : bool)
| JNumber (n : Z)
| JString (s : list Z)
| JArray (values : list JsonValue)
| JObject (fields : list (list Z * JsonValue)).
Set Elimination Schemes.

(** ** The cursor *)
Definition JsonParser : Type := read_cursor.
Definition JsonParser_new (input : list Z) : JsonParser := rc_new input.

Definition peek : io JsonParser NostrError (option Z) := fun c => (Ok (rc_input c !! Z.to_nat (rc_index c)), c).
(** [self.position += n] *)
Definition advance (n : Z) : io JsonParser NostrError unit := fun c => (Ok tt, ReadCursor (rc_input c) (rc_index c + n)).

Definition next_byte : io JsonParser NostrError (option Z) :=
  byte ← peek;
  match byte with
  | None => mret None
  | Some byte => _ ← advance 1; mret (Some byte)
  end.

Definition consume_byte (byte : Z) : io JsonParser NostrError bool :=
  next ← peek;
  if bool_decide (next = Some byte) then _ ← advance 1; mret true else mret false.

Definition expect_byte (byte : Z) : io JsonParser NostrError unit :=
  consumed ← consume_byte byte;
  lift (guard_err (negb consumed) MalformedMessage).

(** A loop that takes at least one byte a turn. *)
Definition with_fuel {A} (loop : nat -> io JsonParser NostrError A) : io JsonParser NostrError A :=
  c ← get; loop (S (length (rc_input c))).

(** [while matches!(self.peek(), Some(p)) { self.position += 1 }] *)
Fixpoint while_loop (p : Z -> bool) (fuel : nat) : io JsonParser NostrError unit :=
  match fuel with
  | O => lift Panic
  | S fuel =>
      next ← peek;
      match next with
      | Some byte => if p byte then _ ← advance 1; while_loop p fuel else mret tt
      | None => mret tt
      end
  end.
Definition while_peek (p : Z -> bool) : io JsonParser NostrError unit := with_fuel (while_loop p).

Definition is_ws (b : Z) : bool := (b =? 32) || (b =? 10) || (b =? 13) || (b =? 9).
Definition is_digitb : Z -> bool := in_range 48 57.
Definition skip_ws : io JsonParser NostrError unit := while_peek is_ws.

(** ** Strings *)
Definition hex_value (value : Z) : outcome NostrError Z :=
  if in_range 48 57 value then Ok (value - 48)
  else if in_range 97 102 value then Ok (value - 97 + 10)
  else if in_range 65 70 value then Ok (value - 65 + 10)
  else Err MalformedMessage.

(** [char::from_u32] *)
Definition char_from_u32 (value : Z) : option Z :=
  if in_range 0 0xD7FF value || in_range 0xE000 0x10FFFF value then Some value else None.

(** [for _ in 0..4] *)
Fixpoint unicode_loop (count : nat) (value : Z) : io JsonParser NostrError Z :=
  match count with
  | O => mret value
  | S count =>
      byte ← next_byte;
      byte ← lift (ok_or byte MalformedMessage);
      digit ← lift (hex_value byte);
      unicode_loop count (Z.lor (Z.shiftl value 4) digit)
  end.

Definition parse_unicode_escape : io JsonParser NostrError Z :=
  value ← unicode_loop 4 0;
  lift (ok_or (char_from_u32 value) MalformedMessage).

(** The character pushed. *)
Definition parse_escape : io JsonParser NostrError Z :=
  byte ← next_byte;
  byte ← lift (ok_or byte MalformedMessage);
  if byte =? 34 then mret 34
  else if byte =? 92 then mret 92
  else if byte =? 47 then mret 47
  else if byte =? 98 then mret 8
  else if byte =? 102 then mret 12
  else if byte =? 110 then mret 10
  else if byte =? 114 then mret 13
  else if byte =? 116 then mret 9
  else if byte =? 117 then parse_unicode_escape
  else lift (Err MalformedMessage).

(** [str::from_utf8(&self.input[self.position..])], and its first character *)
Definition next_char : io JsonParser NostrError Z :=
  c ← get;
  remaining ← lift (slice (rc_input c) (rc_index c) (len (rc_input c)));
  characters ← lift (ok_or (utf8_decode remaining) Utf8);
  lift (ok_or (head characters) MalformedMessage).

(** [out.push(character)] appends its encoding. *)
Fixpoint string_loop (out : list Z) (fuel : nat) : io JsonParser NostrError (list Z) :=
  match fuel with
  | O => lift Panic
  | S fuel =>
      byte ← peek;
      byte ← lift (ok_or byte MalformedMessage);
      if byte =? 34 then _ ← advance 1; mret out
      else if byte =? 92 then
        _ ← advance 1;
        character ← parse_escape;
        string_loop (out ++ encode_utf8 character) fuel
      else if in_range 0 0x1f byte then lift (Err MalformedMessage)
      else if in_range 0x20 0x7f byte then
        _ ← advance 1;
        string_loop (out ++ encode_utf8 byte) fuel
      else
        character ← next_char;
        _ ← advance (len (encode_utf8 character));
        string_loop (out ++ encode_utf8 character) fuel
  end.

Definition parse_string : io JsonParser NostrError (list Z) :=
  _ ← expect_byte 34;
  with_fuel (string_loop []).

(** ** Values *)
(** [slice.get(a..b)] *)
Definition get_range (l : list Z) (a b : Z) : option (list Z) :=
  match slice (E:=NostrError) l a b with Ok v => Some v | _ => None end.

Definition parse_literal (literal : list Z) (value : JsonValue) : io JsonParser NostrError JsonValue :=
  c ← get;
  if bool_decide (get_range (rc_input c) (rc_index c) (rc_index c + len literal) = Some literal)
  then _ ← advance (len literal); mret value
  else lift (Err MalformedMessage).

(** [str::parse::<u64>], on digits *)
Definition parse_u64 (digits : list Z) : option Z :=
  if (1 <=? len digits) && forallb is_digitb digits && (digits_value digits <=? u64_MAX)
  then Some (digits_value digits) else None.

Definition parse_number : io JsonParser NostrError JsonValue :=
  start ← get;
  _ ← while_peek is_digitb;
  c ← get;
  digits ← lift (slice (rc_input c) (rc_index start) (rc_index c));
  _ ← lift (guard_err (negb (utf8_ok digits)) Utf8);
  value ← lift (ok_or (parse_u64 digits) MalformedMessage);
  mret (JNumber value).

Section containers.
Context (parse_value : io JsonParser NostrError JsonValue).

Fixpoint array_loop (values : list JsonValue) (fuel : nat) : io JsonParser NostrError JsonValue :=
  match fuel with
  | O => lift Panic
  | S fuel =>
      value ← parse_value;
      let values := values ++ [value] in
      _ ← skip_ws;
      closed ← consume_byte 93;
      if closed : bool then mret (JArray values)
      else _ ← expect_byte 44; array_loop values fuel
  end.

Definition parse_array : io JsonParser NostrError JsonValue :=
  _ ← expect_byte 91;
  _ ← skip_ws;
  closed ← consume_byte 93;
  if closed : bool then mret (JArray []) else with_fuel (array_loop []).

Fixpoint object_loop (fields : list (list Z * JsonValue)) (fuel : nat) : io JsonParser NostrError JsonValue :=
  match fuel with
  | O => lift Panic
  | S fuel =>
      _ ← skip_ws;
      key ← parse_string;
      _ ← skip_ws;
      _ ← expect_byte 58;
      value ← parse_value;
      let fields := fields ++ [(key, value)] in
      _ ← skip_ws;
      closed ← consume_byte 125;
      if closed : bool then mret (JObject fields)
      else _ ← expect_byte 44; object_loop fields fuel
  end.

Definition parse_object : io JsonParser NostrError JsonValue :=
  _ ← expect_byte 123;
  _ ← skip_ws;
  closed ← consume_byte 125;
  if closed : bool then mret (JObject []) else with_fuel (object_loop []).
End containers.

Fixpoint parse_value (fuel : nat) : io JsonParser NostrError JsonValue :=
  match fuel with
  | O => lift Panic
  | S fuel =>
      _ ← skip_ws;
      next ← peek;
      byte ← lift (ok_or next MalformedMessage);
      if byte =? 110 then parse_literal (str "null") JNull
      else if byte =? 116 then parse_literal (str "true") (JBool true)
      else if byte =? 102 then parse_literal (str "false") (JBool false)
      else if byte =? 34 then s ← parse_string; mret (JString s)
      else if byte =? 91 then parse_array (parse_value fuel)
      else if byte =? 123 then parse_object (parse_value fuel)
      else if in_range 48 57 byte then parse_number
      else lift (Err MalformedMessage)
  end.

Definition parse (input : list Z) : outcome NostrError JsonValue :=
  fst ((value ← parse_value (S (length input));
        _ ← skip_ws;
        c ← get;
        _ ← lift (guard_err (negb (rc_index c =? len (rc_input c))) MalformedMessage);
        mret value) (JsonParser_new input)).

(** ** The grammar *)
Definition blank (ws : list Z) : Prop := Forall (fun b => is_ws b = true) ws.

Definition short_escape (e : Z) : option Z :=
  if e =? 34 then Some 34 else if e =? 92 then Some 92 else if e =? 47 then Some 47
  else if e =? 98 then Some 8 else if e =? 102 then Some 12 else if e =? 110 then Some 10
  else if e =? 114 then Some 13 else if e =? 116 then Some 9 else None.

(** Four hexadecimal digits and their value. *)
Inductive hex4 : list Z -> Z -> Prop :=
| hex4_intro a b c d w x y z :
    hex_value a = Ok w -> hex_value b = Ok x -> hex_value c = Ok y -> hex_value d = Ok z ->
    hex4 [a; b; c; d] (((w * 16 + x) * 16 + y) * 16 + z).

(** The ways to write one character in a string. *)
Inductive char_text : Z -> list Z -> Prop :=
| ct_plain c : scalar_ok c -> 32 <= c -> c <> 34 -> c <> 92 -> char_text c (encode_utf8 c)
| ct_short e c : short_escape e = Some c -> char_text c [92; e]
| ct_unicode h c : hex4 h c -> scalar_ok c -> char_text c ([92; 117] ++ h).

Inductive chars_text : list Z -> list Z -> Prop :=
| cts_nil : chars_text [] []
| cts_cons c p s t : char_text c p -> chars_text s t -> chars_text (encode_utf8 c ++ s) (p ++ t).

Definition string_text (s t : list Z) : Prop := exists body, chars_text s body /\ t = [34] ++ body ++ [34].

Inductive json_text : JsonValue -> list Z -> Prop :=
| jt_null ws : blank ws -> json_text JNull (ws ++ str "null")
| jt_true ws : blank ws -> json_text (JBool true) (ws ++ str "true")
| jt_false ws : blank ws -> json_text (JBool false) (ws ++ str "false")
| jt_number ws ds : blank ws -> ds <> [] -> Forall is_digit ds -> digits_value ds <= u64_MAX ->
    json_text (JNumber (digits_value ds)) (ws ++ ds)
| jt_string ws s t : blank ws -> string_text s t -> json_text (JString s) (ws ++ t)
| jt_array_empty ws ws' : blank ws -> blank ws' -> json_text (JArray []) (ws ++ [91] ++ ws' ++ [93])
| jt_array ws vs t : blank ws -> elements_text vs t -> json_text (JArray vs) (ws ++ [91] ++ t ++ [93])
| jt_object_empty ws ws' : blank ws -> blank ws' -> json_text (JObject []) (ws ++ [123] ++ ws' ++ [125])
| jt_object ws fs t : blank ws -> fields_text fs t -> json_text (JObject fs) (ws ++ [123] ++ t ++ [125])
with elements_text : list JsonValue -> list Z -> Prop :=
| et_one v t ws : json_text v t -> blank ws -> elements_text [v] (t ++ ws)
| et_cons v t ws vs u : json_text v t -> blank ws -> elements_text vs u -> elements_text (v :: vs) (t ++ ws ++ [44] ++ u)
with fields_text : list (list Z * JsonValue) -> list Z -> Prop :=
| ft_one w1 k kt w2 v t ws : blank w1 -> string_text k kt -> blank w2 -> json_text v t -> blank ws ->
    fields_text [(k, v)] (w1 ++ kt ++ w2 ++ [58] ++ t ++ ws)
| ft_cons w1 k kt w2 v t ws fs u : blank w1 -> string_text k kt -> blank w2 -> json_text v t -> blank ws ->
    fields_text fs u -> fields_text ((k, v) :: fs) (w1 ++ kt ++ w2 ++ [58] ++ t ++ ws ++ [44] ++ u).

Scheme json_text_rec := Induction for json_text Sort Prop
with elements_text_rec := Induction for elements_text Sort Prop
with fields_text_rec := Induction for fields_text Sort Prop.
Combined Scheme json_text_mutind from json_text_rec, elements_text_rec, fields_text_rec.

(** A whole input. *)
Definition json_document (v : JsonValue) (input : list Z) : Prop :=
  exists t ws, json_text v t /\ blank ws /\ input = t ++ ws.

(** ** What a parser does to what it reads
    [good Q pre rest r]: the result [r] of a parser that had [rest] in front of
    it is a value and the text it took, which satisfy [Q], or the one error. *)
Definition good {A} (Q : A -> list Z -> Prop) (pre rest : list Z) (r : outcome NostrError A * JsonParser) : Prop :=
  match r with
  | (Ok a, c) => exists v rest', rest = v ++ rest' /\ str_ok rest' /\ c = rcur (pre ++ v) rest' /\ Q a v
  | (Err e, _) => e = MalformedMessage
  | (Panic, _) => False
  end.

(** ... on every rest of at most [n] bytes. *)
Definition sound {A} (n : nat) (m : io JsonParser NostrError A) (Q : A -> list Z -> Prop) : Prop :=
  forall pre rest, str_ok rest -> (length rest <= n)%nat -> good Q pre rest (m (rcur pre rest)).

(** A parser takes [v] and gives [a], whatever follows that [k] allows. *)
Definition takes {A} (m : io JsonParser NostrError A) (a : A) (v : list Z) (k : list Z -> Prop) : Prop :=
  str_ok v /\ forall pre rest, str_ok rest -> k rest -> m (rcur pre (v ++ rest)) = (Ok a, rcur (pre ++ v) rest).

Definition anything (rest : list Z) : Prop := True.
Definition stops (p : Z -> bool) (rest : list Z) : Prop := match rest with [] => True | b :: _ => p b = false end.

Lemma str_ok_nil : str_ok [].
Proof. split; [apply bytes_ok_nil|done]. Qed.

Lemma str_ok_app_inv v w : str_ok v -> str_ok (v ++ w) -> str_ok w.
Proof.
  intros Hv [Hb Hu]. apply bytes_ok_app in Hb as [_ Hb]. split; [done|]. destruct (chars_spec v Hv) as [Hcs Ev].
  revert Hcs Ev. generalize (chars v). intros cs Hcs ->. unfold utf8_ok in *. apply bool_decide_eq_true in Hu. apply bool_decide_eq_true. revert Hu. clear Hv. induction Hcs as [|c cs Hc Hcs IH]; [done|].
  cbn [map concat]. rewrite <- app_assoc, utf8_decode_encode by done. intros [x Hx]. apply IH. apply fmap_Some in Hx as (y & Hy & _). by exists y.
Qed.

Lemma str_ok_byte b : 0 <= b < 128 -> str_ok [b].
Proof. intros. apply str_ok_ascii. apply list.Forall_cons. by split; [|apply list.Forall_nil]. Qed.

(** *** The base: one byte *)
Lemma peek_rcur pre rest : peek (rcur pre rest) = (Ok (head rest), rcur pre rest).
Proof.
  unfold peek, rcur. cbn [rc_input rc_index]. rewrite to_nat_len. do 2 f_equal.
  rewrite lookup_app_r by done. rewrite Nat.sub_diag. by destruct rest.
Qed.

Lemma peek_bind {A} (f : option Z -> io JsonParser NostrError A) pre rest : (peek ≫= f) (rcur pre rest) = f (head rest) (rcur pre rest).
Proof. by rewrite (io_bind_ok _ _ _ _ _ (peek_rcur pre rest)). Qed.

Lemma advance_bind {A} n (f : unit -> io JsonParser NostrError A) pre v rest :
  n = len v -> (advance n ≫= f) (rcur pre (v ++ rest)) = f tt (rcur (pre ++ v) rest).
Proof. intros ->. erewrite io_bind_ok; [done|]. unfold advance. f_equal. apply rcur_assoc. Qed.

Lemma advance_one {A} (f : unit -> io JsonParser NostrError A) pre b rest :
  (advance 1 ≫= f) (rcur pre (b :: rest)) = f tt (rcur (pre ++ [b]) rest).
Proof. by apply (advance_bind 1 f pre [b] rest). Qed.

Lemma consume_byte_rcur b pre rest :
  consume_byte b (rcur pre rest) =
    match rest with
    | x :: rest' => if bool_decide (x = b) then (Ok true, rcur (pre ++ [b]) rest') else (Ok false, rcur pre rest)
    | [] => (Ok false, rcur pre rest)
    end.
Proof.
  unfold consume_byte. rewrite peek_bind. destruct rest as [|x rest]; [done|]. cbn [head].
  destruct (decide (x = b)) as [->|Hx]; [|by rewrite !bool_decide_eq_false_2 by congruence].
  rewrite !bool_decide_eq_true_2 by done. by rewrite advance_one.
Qed.

Lemma next_byte_rcur pre rest :
  next_byte (rcur pre rest) = match rest with x :: rest' => (Ok (Some x), rcur (pre ++ [x]) rest') | [] => (Ok None, rcur pre rest) end.
Proof. unfold next_byte. rewrite peek_bind. destruct rest as [|x rest]; [done|]. cbn [head]. by rewrite advance_one. Qed.

(** *** Composition *)
Section composition.
Context {A B : Type}.
Implicit Types (m : io JsonParser NostrError A) (f : A -> io JsonParser NostrError B).

Lemma good_bind m f (R : A -> list Z -> Prop) Q pre rest :
  good R pre rest (m (rcur pre rest)) ->
  (forall a v rest', rest = v ++ rest' -> str_ok rest' -> R a v -> good (fun b u => Q b (v ++ u)) (pre ++ v) rest' (f a (rcur (pre ++ v) rest'))) ->
  good Q pre rest ((m ≫= f) (rcur pre rest)).
Proof.
  intros Hm Hf. unfold good in Hm. unfold mbind, io_bind. destruct (m (rcur pre rest)) as [[a|e|] c]; [|done..].
  destruct Hm as (v & rest' & -> & Hs & -> & HR). specialize (Hf a v rest' eq_refl Hs HR). unfold good in *.
  destruct (f a _) as [[b|e|] c]; [|done..]. destruct Hf as (u & rest'' & -> & Hs' & -> & HQ).
  exists (v ++ u), rest''. by rewrite !app_assoc.
Qed.

Lemma good_lift (o : outcome NostrError A) f Q pre rest :
  match o with Ok a => good Q pre rest (f a (rcur pre rest)) | Err e => e = MalformedMessage | Panic => False end ->
  good Q pre rest ((lift o ≫= f) (rcur pre rest)).
Proof. unfold mbind, io_bind, lift. by destruct o. Qed.

Lemma sound_bind n m f (R : A -> list Z -> Prop) Q :
  sound n m R ->
  (forall a v, R a v -> (length v <= n)%nat -> sound (n - length v) (f a) (fun b u => Q b (v ++ u))) ->
  sound n (m ≫= f) Q.
Proof.
  intros Hm Hf pre rest Hs Hn. eapply good_bind; [by apply Hm|]. intros a v rest' -> Hs' HR. rewrite length_app in Hn.
  apply Hf; [done|lia|done|lia].
Qed.

Lemma takes_bind m f a b v u k1 k :
  takes m a v k1 -> takes (f a) b u k -> (forall rest, k rest -> k1 (u ++ rest)) -> takes (m ≫= f) b (v ++ u) k.
Proof.
  intros [Hv Hm] [Hu Hf] Hk. split; [by apply str_ok_app|]. intros pre rest Hs Hr. rewrite <- app_assoc.
  erewrite io_bind_ok by (apply Hm; [by apply str_ok_app|by apply Hk]). by rewrite Hf, <- app_assoc.
Qed.
End composition.

Lemma good_ret {A} (a : A) (Q : A -> list Z -> Prop) pre rest : str_ok rest -> Q a [] -> good Q pre rest (mret (M:=io JsonParser NostrError) a (rcur pre rest)).
Proof. intros. exists [], rest. by rewrite app_nil_r. Qed.

Lemma good_conseq {A} (R Q : A -> list Z -> Prop) pre rest r : good R pre rest r -> (forall a v, R a v -> Q a v) -> good Q pre rest r.
Proof.
  intros H HRQ. unfold good in *. destruct r as [[a|e|] c]; [|done..]. destruct H as (v & rest' & ? & ? & ? & ?). exists v, rest'. auto.
Qed.

Lemma sound_conseq {A} n (m : io JsonParser NostrError A) (R Q : A -> list Z -> Prop) : sound n m R -> (forall a v, R a v -> Q a v) -> sound n m Q.
Proof. intros H HRQ pre rest Hs Hn. eapply good_conseq; [by apply H|done]. Qed.

Lemma takes_ret {A} (a : A) k : takes (mret a) a [] k.
Proof. split; [apply str_ok_nil|]. intros pre rest _ _. by rewrite app_nil_r. Qed.

Lemma takes_weaken {A} (m : io JsonParser NostrError A) a v (k k' : list Z -> Prop) :
  takes m a v k -> (forall rest, k' rest -> k rest) -> takes m a v k'.
Proof. intros [Hv Hm] Hk. split; [done|]. intros. apply Hm; auto. Qed.

Lemma takes_eq {A} (m : io JsonParser NostrError A) a v w k : takes m a v k -> v = w -> takes m a w k.
Proof. by intros ? <-. Qed.

(** A byte that is looked at stays, and the text still starts with it. *)
Lemma takes_peek {A} (f : option Z -> io JsonParser NostrError A) a b v k : takes (f (Some b)) a (b :: v) k -> takes (peek ≫= f) a (b :: v) k.
Proof. intros [Hv Hf]. split; [done|]. intros pre rest Hs Hk. rewrite peek_bind. by apply Hf. Qed.

Lemma takes_lift_ok {A B} (x : A) (f : A -> io JsonParser NostrError B) b v k : takes (f x) b v k -> takes (lift (Ok x) ≫= f) b v k.
Proof. intros [Hv Hf]. split; [done|]. intros. rewrite lift_bind_ok. by apply Hf. Qed.

Lemma takes_advance v : str_ok v -> takes (advance (len v)) tt v anything.
Proof. intros Hv. split; [done|]. intros pre rest _ _. unfold advance. f_equal. apply rcur_assoc. Qed.

Lemma takes_consume b : 0 <= b < 128 -> takes (consume_byte b) true [b] anything.
Proof. intros Hb. split; [by apply str_ok_byte|]. intros pre rest _ _. rewrite consume_byte_rcur. cbn [app]. by rewrite bool_decide_eq_true_2. Qed.

Lemma takes_no_consume b : takes (consume_byte b) false [] (stops (Z.eqb b)).
Proof.
  split; [apply str_ok_nil|]. intros pre rest _ Hk. rewrite consume_byte_rcur, app_nil_r. cbn [app]. destruct rest as [|x rest]; [done|].
  cbn in Hk. apply Z.eqb_neq in Hk. by rewrite bool_decide_eq_false_2 by congruence.
Qed.

Lemma takes_expect b : 0 <= b < 128 -> takes (expect_byte b) tt [b] anything.
Proof.
  intros Hb. unfold expect_byte. apply (takes_eq _ _ ([b] ++ [])); [|done].
  eapply takes_bind; [by apply takes_consume|apply (takes_ret tt)|done].
Qed.

Lemma sound_consume n b : 0 <= b < 128 -> sound n (consume_byte b) (fun c v => if c : bool then v = [b] else v = []).
Proof.
  intros Hb pre rest Hs Hn. rewrite consume_byte_rcur. destruct rest as [|x rest]; [by apply good_ret|].
  case_bool_decide as Hx; [subst x|by apply good_ret]. exists [b], rest. split; [done|]. split; [|done].
  by apply (str_ok_app_inv [b]); [apply str_ok_byte|].
Qed.

Lemma sound_expect n b : 0 <= b < 128 -> sound n (expect_byte b) (fun _ v => v = [b]).
Proof.
  intros Hb. eapply sound_bind; [by apply sound_consume|]. intros [] v -> Hv pre rest Hs _; cbn; [|done].
  exists [], rest. by rewrite app_nil_r.
Qed.

Lemma sound_fuel {A} (loop : nat -> io JsonParser NostrError A) Q n :
  (forall m fuel, (m <= n)%nat -> (m < fuel)%nat -> sound m (loop fuel) Q) -> sound n (with_fuel loop) Q.
Proof.
  intros H pre rest Hs Hn. unfold with_fuel. rewrite get_bind. apply (H (length rest)); [done| |done|done].
  unfold rcur. cbn [rc_input]. rewrite length_app. lia.
Qed.

Lemma takes_fuel {A} (loop : nat -> io JsonParser NostrError A) a v k :
  (forall fuel, (length v < fuel)%nat -> takes (loop fuel) a v k) -> takes (with_fuel loop) a v k.
Proof.
  intros H. split; [by apply (H (S (length v))); lia|]. intros pre rest Hs Hk. unfold with_fuel. rewrite get_bind.
  apply H; [|done|done]. unfold rcur. cbn [rc_input]. rewrite !length_app. lia.
Qed.

(** *** Blanks and digits *)
Section while_loops.
Context (p : Z -> bool).
Hypothesis p_ascii : forall b, p b = true -> 0 <= b < 128.

Lemma run_ascii v : Forall (fun b => p b = true) v -> str_ok v.
Proof. intros H. apply str_ok_ascii. eapply list.Forall_impl; [exact H|]. intros b Hb. by apply p_ascii. Qed.

Lemma takes_while v : Forall (fun b => p b = true) v -> takes (while_peek p) tt v (stops p).
Proof.
  intros Hv. apply takes_fuel. intros fuel Hf. split; [by apply run_ascii|]. revert fuel Hf.
  induction Hv as [|b v Hb Hv IH]; intros fuel Hf pre rest Hs Hk; (destruct fuel as [|fuel]; [cbn in Hf; lia|]); cbn [while_loop app].
  - rewrite peek_bind, app_nil_r. destruct rest as [|x rest]; [done|]. cbn [head]. cbn in Hk. by rewrite Hk.
  - rewrite peek_bind. cbn [head]. rewrite Hb, advance_one. rewrite IH by (done || (cbn in Hf; lia)). by rewrite <- app_assoc.
Qed.

Lemma sound_while n : sound n (while_peek p) (fun _ v => Forall (fun b => p b = true) v).
Proof.
  apply sound_fuel. intros m fuel _. clear n. revert m. induction fuel as [|fuel IH]; intros n Hf pre rest Hs Hn; [lia|].
  cbn [while_loop]. rewrite peek_bind. destruct rest as [|b rest]; [by apply good_ret; [|apply List.Forall_nil]|]. cbn [head].
  destruct (p b) eqn:Hb; [|by apply good_ret; [|apply List.Forall_nil]]. rewrite advance_one.
  assert (str_ok rest) as Hs' by (apply (str_ok_app_inv [b]); [by apply str_ok_byte, p_ascii|done]).
  cbn in Hn. specialize (IH (length rest) ltac:(lia) (pre ++ [b]) rest Hs' ltac:(lia)). unfold good in *.
  destruct (while_loop p fuel _) as [[a|e|] c]; [|done..]. destruct IH as (v & rest' & -> & ? & -> & Hv).
  exists (b :: v), rest'. rewrite <- app_assoc. split_and!; [done..|]. by apply list.Forall_cons.
Qed.
End while_loops.

Lemma ws_ascii b : is_ws b = true -> 0 <= b < 128.
Proof. unfold is_ws. rewrite !orb_true_iff, !Z.eqb_eq. lia. Qed.
Lemma digit_ascii b : is_digitb b = true -> 0 <= b < 128.
Proof. unfold is_digitb. rewrite in_range_spec. lia. Qed.
Lemma is_digitb_spec b : is_digitb b = true <-> is_digit b.
Proof. unfold is_digitb, is_digit. by rewrite in_range_spec. Qed.

Lemma takes_ws ws : blank ws -> takes skip_ws tt ws (stops is_ws).
Proof. apply takes_while, ws_ascii. Qed.
Lemma sound_ws n : sound n skip_ws (fun _ v => blank v).
Proof. apply sound_while, ws_ascii. Qed.
Lemma blank_ok ws : blank ws -> str_ok ws.
Proof. apply run_ascii, ws_ascii. Qed.

(** Blanks in front of a text that does not start with one. *)
Lemma takes_ws_then {A} (f : unit -> io JsonParser NostrError A) a ws b v k :
  blank ws -> is_ws b = false -> takes (f tt) a (b :: v) k -> takes (skip_ws ≫= f) a (ws ++ b :: v) k.
Proof. intros Hw Hb Hf. eapply takes_bind; [by apply takes_ws|exact Hf|]. intros rest _. exact Hb. Qed.

(** *** Strings *)
Lemma hex_value_range b d : hex_value b = Ok d -> 0 <= d < 16 /\ 0 <= b < 128.
Proof. unfold hex_value. rewrite !in_range_reflect. intros E. repeat case_bool_decide; simplify_eq; lia. Qed.

Lemma hex_value_error b e : hex_value b = Err e -> e = MalformedMessage.
Proof. unfold hex_value. repeat case_match; congruence. Qed.

Lemma shift_nibble v d : 0 <= d < 16 -> Z.lor (Z.shiftl v 4) d = v * 16 + d.
Proof.
  intros Hd. rewrite Z.shiftl_mul_pow2 by done. pose proof (Z.add_lor_land (v * 2 ^ 4) d) as E.
  assert (Z.land (v * 2 ^ 4) d = 0) as E0; [|rewrite E0, Z.add_0_r in E; exact E]. apply Z.bits_inj'. intros n Hn. rewrite Z.land_spec, Z.bits_0.
  destruct (Z.lt_ge_cases n 4).
  - rewrite Z.mul_pow2_bits_low by done. done.
  - rewrite (Z.bits_above_log2 d n); [by rewrite andb_false_r|lia|]. destruct (decide (d = 0)) as [->|]; [cbn; lia|].
    apply Z.log2_lt_pow2; [lia|]. apply Z.lt_le_trans with (2 ^ 4); [lia|]. apply Z.pow_le_mono_r; lia.
Qed.

Lemma sound_unicode_loop n count v :
  sound n (unicode_loop count v) (fun w t => length t = count /\ exists ds, Forall2 (fun b d => hex_value b = Ok d) t ds /\ w = fold_left (fun a d => a * 16 + d) ds v).
Proof.
  revert n v. induction count as [|count IH]; intros n v pre rest Hs Hn; cbn [unicode_loop].
  { apply good_ret; [done|]. split; [done|]. exists []. by split; [apply List.Forall2_nil|]. }
  unfold mbind, io_bind. rewrite next_byte_rcur. destruct rest as [|b rest]; cbn [ok_or lift]; [done|].
  destruct (hex_value b) as [d|e|] eqn:Hd; [|by eapply hex_value_error|by unfold hex_value in Hd; repeat case_match].
  destruct (hex_value_range b d Hd) as [Hr Hb]. rewrite shift_nibble by done.
  assert (str_ok rest) as Hs' by (apply (str_ok_app_inv [b]); [by apply str_ok_byte|done]). cbn in Hn.
  specialize (IH (length rest) (v * 16 + d) (pre ++ [b]) rest Hs' ltac:(lia)). unfold good in *.
  destruct (unicode_loop count _ _) as [[a|e|] c]; [|done..]. destruct IH as (t & rest' & -> & ? & -> & Ht & ds & Hds & ->).
  exists (b :: t), rest'. rewrite <- app_assoc. split_and!; [done..|cbn; by rewrite Ht|]. exists (d :: ds). split; [|done]. by apply List.Forall2_cons.
Qed.

Lemma char_from_u32_some v c : char_from_u32 v = Some c -> c = v /\ scalar_ok v.
Proof. unfold char_from_u32, scalar_ok. rewrite !in_range_reflect. repeat case_bool_decide; cbn; intros E; simplify_eq; split; lia || done. Qed.

Lemma sound_unicode_escape n : sound n parse_unicode_escape (fun c t => hex4 t c /\ scalar_ok c).
Proof.
  eapply sound_bind; [apply sound_unicode_loop|]. intros v t (Ht & ds & Hds & ->) _ pre rest Hs _.
  destruct (char_from_u32 _) as [c|] eqn:E; cbn [ok_or]; [|done]. exists [], rest. rewrite !app_nil_r.
  apply char_from_u32_some in E as [-> Hc]. split_and!; [done..| |done].
  destruct t as [|b0 [|b1 [|b2 [|b3 [|]]]]]; try discriminate Ht.
  repeat match goal with H : Forall2 _ (_ :: _) _ |- _ => apply Forall2_cons_inv_l in H as (? & ? & ? & H & ->) end.
  apply Forall2_nil_inv_l in Hds as ->. cbn [fold_left]. rewrite Z.mul_0_l, Z.add_0_l. by constructor.
Qed.

Lemma takes_unicode_escape h c : hex4 h c -> scalar_ok c -> takes parse_unicode_escape c h anything.
Proof.
  intros [b0 b1 b2 b3 w x y z H0 H1 H2 H3] Hc.
  destruct (hex_value_range _ _ H0), (hex_value_range _ _ H1), (hex_value_range _ _ H2), (hex_value_range _ _ H3). split.
  { apply str_ok_ascii. by repeat (apply list.Forall_cons; split; [done|]). }
  intros pre rest _ _. unfold parse_unicode_escape, mbind, io_bind, lift. cbn [unicode_loop app]. unfold mbind, io_bind, lift.
  repeat (rewrite next_byte_rcur; cbn [ok_or]; first [rewrite H0|rewrite H1|rewrite H2|rewrite H3]; rewrite shift_nibble by done).
  change (0 * 16) with 0. rewrite Z.add_0_l. cbn [mret io_ret].
  assert (char_from_u32 (((w * 16 + x) * 16 + y) * 16 + z) = Some (((w * 16 + x) * 16 + y) * 16 + z)) as ->.
  { unfold char_from_u32, scalar_ok in *. rewrite !in_range_reflect. by destruct Hc; [rewrite bool_decide_eq_true_2 by lia|rewrite orb_comm, bool_decide_eq_true_2 by lia]. }
  unfold io_ret. cbn [ok_or]. do 2 f_equal. by rewrite <- !app_assoc.
Qed.

(** What stands behind a backslash. *)
Definition escape_text (c : Z) (t : list Z) : Prop :=
  (exists e, short_escape e = Some c /\ t = [e]) \/ (exists h, hex4 h c /\ scalar_ok c /\ t = 117 :: h).

Lemma escape_char_text c t : escape_text c t -> char_text c (92 :: t).
Proof. intros [(e & He & ->)|(h & Hh & Hc & ->)]; [by apply ct_short|by apply (ct_unicode h)]. Qed.

Lemma sound_escape n : sound n parse_escape escape_text.
Proof.
  intros pre rest Hs Hn. unfold parse_escape, mbind, io_bind. rewrite next_byte_rcur. destruct rest as [|b rest]; cbn [ok_or lift]; [done|].
  assert (forall c : Z, short_escape b = Some c -> 0 <= b < 128 -> good escape_text pre (b :: rest) (mret (M:=io JsonParser NostrError) c (rcur (pre ++ [b]) rest))) as Hshort.
  { intros c Hc Hb. exists [b], rest. split_and!; [done|by apply (str_ok_app_inv [b]); [apply str_ok_byte|]|done|]. left. by exists b. }
  repeat match goal with
  | |- good _ _ _ ((if ?x =? 117 then _ else _) _) => destruct (Z.eqb_spec x 117) as [->|]
  | |- good _ _ _ ((if ?x =? ?k then _ else _) _) => destruct (Z.eqb_spec x k) as [->|]; [by apply Hshort|]
  end; [|done].
  assert (str_ok rest) as Hs' by (by apply (str_ok_app_inv [117]); [apply str_ok_byte|]).
  pose proof (sound_unicode_escape (length rest) (pre ++ [117]) rest Hs' (le_n _)) as H. unfold good in *.
  destruct (parse_unicode_escape _) as [[a|e|] c]; [|done..]. destruct H as (t & rest' & -> & ? & -> & Ht & Hc).
  exists (117 :: t), rest'. rewrite <- app_assoc. split_and!; [done..|]. right. by exists t.
Qed.

Lemma takes_escape c t : escape_text c t -> takes parse_escape c t anything.
Proof.
  intros [(e & He & ->)|(h & Hh & Hc & ->)].
  - assert (0 <= e < 128) as Hr.
    { unfold short_escape in He. repeat (case_match; [rewrite Z.eqb_eq in *; lia|]). done. }
    split; [by apply str_ok_byte|]. intros pre rest _ _. unfold parse_escape, mbind, io_bind. cbn [app]. rewrite next_byte_rcur. cbn [ok_or lift].
    unfold short_escape in He. clear Hr. revert He.
    repeat match goal with |- (if ?x =? ?k then _ else _) = _ -> _ => destruct (Z.eqb_spec x k) as [->|]; [by intros [= <-]|] end. done.
  - destruct (takes_unicode_escape h c Hh Hc) as [Hs H]. split; [by apply (str_ok_app [117]); [apply str_ok_byte|]|].
    intros pre rest Hr _. unfold parse_escape, mbind, io_bind. cbn [app]. rewrite next_byte_rcur. cbn [ok_or lift].
    change (117 =? 34) with false. cbn. rewrite H by done. by rewrite <- app_assoc.
Qed.

(** One character that is not ASCII. *)
Lemma str_ok_high b rest : str_ok (b :: rest) -> 128 <= b ->
  exists c rest', scalar_ok c /\ 128 <= c /\ b :: rest = encode_utf8 c ++ rest' /\ str_ok rest' /\ exists cs, utf8_decode (b :: rest) = Some (c :: cs).
Proof.
  intros Hs Hb. destruct Hs as [Hbytes Hu]. pose proof Hu as Hu'. unfold utf8_ok in Hu. apply bool_decide_eq_true in Hu as [cs Hcs].
  destruct (utf8_decode_step _ _ Hbytes Hcs) as [[? _]|(c & cs' & rest' & -> & Hc & E & Hr)]; [done|].
  exists c, rest'. split; [done|]. split.
  { destruct (encode_utf8_head c Hc) as (x & r & Hx & H). rewrite Hx in E. injection E as ->. lia. }
  split; [done|]. split; [|by exists cs']. rewrite E in Hbytes. apply bytes_ok_app in Hbytes as [_ ?]. split; [done|].
  unfold utf8_ok. apply bool_decide_eq_true. by exists cs'.
Qed.

Lemma next_char_run pre c rest : scalar_ok c -> str_ok rest -> next_char (rcur pre (encode_utf8 c ++ rest)) = (Ok c, rcur pre (encode_utf8 c ++ rest)).
Proof.
  intros Hc [_ Hu]. unfold next_char. rewrite get_bind. unfold utf8_ok in Hu. apply bool_decide_eq_true in Hu as [cs Hcs].
  unfold rcur at 1 2 3. cbn [rc_input rc_index]. rewrite slice_tail by (rewrite ?len_app; lia || done). rewrite lift_bind_ok.
  rewrite utf8_decode_encode, Hcs by done. reflexivity.
Qed.

Lemma sound_string_loop n out fuel : (n < fuel)%nat ->
  sound n (string_loop out fuel) (fun s t => exists s' body, s = out ++ s' /\ chars_text s' body /\ t = body ++ [34]).
Proof.
  revert n out. induction fuel as [|fuel IH]; intros n out Hf pre rest Hs Hn; [lia|]. cbn [string_loop].
  rewrite peek_bind. destruct rest as [|b rest]; [done|]. cbn [head ok_or]. rewrite lift_bind_ok. cbn in Hn.
  (* one character [c] written as [p], and the rest *)
  assert (forall c p rest', char_text c p -> str_ok rest' -> b :: rest = p ++ rest' -> (length rest' < length (b :: rest))%nat ->
    good (fun s t => exists s' body, s = out ++ s' /\ chars_text s' body /\ t = body ++ [34]) pre (b :: rest)
      (string_loop (out ++ encode_utf8 c) fuel (rcur (pre ++ p) rest'))) as Hstep.
  { intros c p rest' Hc Hs' E Hl. pose proof (IH (length rest') (out ++ encode_utf8 c) ltac:(cbn in Hl; lia) (pre ++ p) rest' Hs' (le_n _)) as H.
    unfold good in *. destruct (string_loop _ _ _) as [[a|e|] c']; [|done..].
    destruct H as (t & rest2 & -> & ? & -> & s' & body & -> & Hb & ->). exists (p ++ body ++ [34]), rest2.
    rewrite E, <- !app_assoc. split_and!; [done..|]. exists (encode_utf8 c ++ s'), (p ++ body).
    rewrite <- !app_assoc. split_and!; [done| |done]. by constructor. }
  destruct (Z.eqb_spec b 34) as [->|H34].
  { rewrite advance_one. exists [34], rest. split_and!; [done|by apply (str_ok_app_inv [34]); [apply str_ok_byte|]|done|].
    exists [], []. rewrite app_nil_r. split_and!; [done|constructor|done]. }
  destruct (Z.eqb_spec b 92) as [->|H92].
  { rewrite advance_one. assert (str_ok rest) as Hs' by (by apply (str_ok_app_inv [92]); [apply str_ok_byte|]).
    pose proof (sound_escape (length rest) (pre ++ [92]) rest Hs' (le_n _)) as H. unfold mbind, io_bind. unfold good in H.
    destruct (parse_escape _) as [[c|e|] c']; [|done..]. destruct H as (t & rest2 & -> & Hs2 & -> & Ht).
    rewrite <- app_assoc. apply Hstep; [by apply escape_char_text|done|done|]. cbn. rewrite length_app. lia. }
  rewrite !in_range_reflect. case_bool_decide; [done|]. assert (u8_ok b) as Hb by (by destruct Hs as [[? _]%bytes_ok_cons _]). unfold u8_ok in Hb.
  case_bool_decide.
  - rewrite advance_one. assert (encode_utf8 b = [b]) as E by (unfold encode_utf8; destruct (Z.ltb_spec b 128); [done|lia]).
    apply (Hstep b [b] rest); [|by apply (str_ok_app_inv [b]); [apply str_ok_byte; lia|]|done|cbn; lia].
    rewrite <- E. apply ct_plain; [unfold scalar_ok|..]; lia.
  - destruct (str_ok_high b rest Hs ltac:(lia)) as (c & rest' & Hc & Hge & E & Hs' & _). rewrite E.
    rewrite (io_bind_ok _ _ _ _ _ (next_char_run pre c rest' Hc Hs')), advance_bind by done. rewrite <- E.
    apply Hstep; [apply ct_plain; [done|lia..]|done|done|]. rewrite E, length_app. pose proof (encode_utf8_nonempty c). lia.
Qed.

Lemma sound_string n : sound n parse_string string_text.
Proof.
  eapply sound_bind; [by apply sound_expect|]. intros _ v -> _.
  eapply sound_conseq; [apply sound_fuel; intros ? ? _ Hf; apply sound_string_loop, Hf|].
  intros s t (s' & body & -> & Hb & ->). by exists body.
Qed.

Lemma char_text_head c p : char_text c p -> exists b r, p = b :: r /\ b <> 34.
Proof.
  intros [c' Hc H32 H34 H92|e c' He|h c' Hh Hc]; [|by eexists _, _|by eexists _, _].
  destruct (encode_utf8_head c' Hc) as (b & r & -> & H). exists b, r. split; [done|lia].
Qed.

Lemma takes_char out c p fuel s t :
  char_text c p -> takes (string_loop (out ++ encode_utf8 c) fuel) s t anything -> takes (string_loop out (S fuel)) s (p ++ t) anything.
Proof.
  intros Hc Ht. assert (forall e : list Z, escape_text c e -> takes (string_loop out (S fuel)) s ((92 :: e) ++ t) anything) as Hesc.
  { intros e He. cbn [string_loop app]. apply takes_peek, takes_lift_ok. change (92 =? 34) with false. change (92 =? 92) with true. cbv iota.
    change (92 :: e ++ t) with ([92] ++ e ++ t). eapply takes_bind; [by apply (takes_advance [92]), str_ok_byte| |done].
    eapply takes_bind; [by apply takes_escape|exact Ht|done]. }
  destruct Hc as [c Hc H32 H34 H92|e c He|h c Hh Hc].
  - split; [by apply str_ok_app; [apply str_ok_encode|apply Ht]|]. intros pre rest Hs Hk. rewrite <- app_assoc.
    destruct Ht as [Hts Ht]. cbn [string_loop]. rewrite peek_bind.
    destruct (encode_utf8_head c Hc) as (b & r & E & Hbr). rewrite E at 1. cbn [app head ok_or]. rewrite lift_bind_ok.
    destruct (Z.eqb_spec b 34); [lia|]. destruct (Z.eqb_spec b 92); [lia|]. rewrite !in_range_reflect. rewrite bool_decide_eq_false_2 by lia.
    assert (u8_ok b) as Hb by (pose proof (encode_utf8_bytes c Hc) as H; rewrite E in H; by apply bytes_ok_cons in H as [? _]). unfold u8_ok in Hb.
    case_bool_decide.
    + destruct Hbr as [(_ & -> & ->)|]; [|lia]. rewrite E. cbn [app]. rewrite advance_one. rewrite E in Ht. rewrite Ht by done. by rewrite <- app_assoc.
    + rewrite (io_bind_ok _ _ _ _ _ (next_char_run pre c (t ++ rest) Hc ltac:(by apply str_ok_app))), advance_bind by done.
      rewrite Ht by done. by rewrite <- app_assoc.
  - apply (Hesc [e]). left. by exists e.
  - apply (Hesc (117 :: h)). right. by exists h.
Qed.

Lemma takes_string_loop out s body fuel : chars_text s body -> (length body < fuel)%nat ->
  takes (string_loop out fuel) (out ++ s) (body ++ [34]) anything.
Proof.
  intros Hb. revert out fuel. induction Hb as [|c p s t Hc Hb IH]; intros out fuel Hf; (destruct fuel as [|fuel]; [lia|]).
  - cbn [string_loop app]. apply takes_peek, takes_lift_ok. change (34 =? 34) with true. cbv iota. rewrite app_nil_r.
    apply (takes_eq _ _ ([34] ++ [])); [|done]. eapply takes_bind; [by apply (takes_advance [34]), str_ok_byte|apply takes_ret|done].
  - rewrite <- app_assoc. apply takes_char with c; [done|]. rewrite app_assoc. apply IH.
    destruct (char_text_head c p Hc) as (b & r & -> & _). cbn in Hf. rewrite length_app in Hf. lia.
Qed.

Lemma takes_string s t : string_text s t -> takes parse_string s t anything.
Proof.
  intros (body & Hb & ->). eapply takes_bind; [by apply takes_expect| |done]. apply takes_fuel. intros fuel Hf.
  apply (takes_string_loop [] s body); [done|]. rewrite length_app in Hf. lia.
Qed.

(** *** Literals and numbers *)
Lemma get_range_app pre v rest : get_range (pre ++ v ++ rest) (len pre) (len pre + len v) = Some v.
Proof. unfold get_range. by rewrite slice_app_at by done. Qed.

Lemma get_range_some pre rest l : get_range (pre ++ rest) (len pre) (len pre + len l) = Some l -> exists w, rest = l ++ w.
Proof.
  unfold get_range, slice. pose proof (len_nonneg l). destruct ((_ && _) && _) eqn:E; [|done]. intros [= H1].
  rewrite !andb_true_iff, !Z.leb_le, len_app in E. destruct (cut rest (len l)) as (u & w & -> & Hu & _); [lia|]. exists w.
  rewrite drop_len_app in H1. replace (len pre + len l - len pre) with (len u) in H1 by lia. by rewrite take_len_app in H1; subst.
Qed.

Lemma takes_literal l v : str_ok l -> takes (parse_literal l v) v l anything.
Proof.
  intros Hl. split; [done|]. intros pre rest _ _. unfold parse_literal. rewrite get_bind. 
  rewrite bool_decide_eq_true_2 by apply get_range_app. by rewrite advance_bind.
Qed.

Lemma sound_literal n l v : str_ok l -> sound n (parse_literal l v) (fun w t => w = v /\ t = l).
Proof.
  intros Hl pre rest Hs Hn. unfold parse_literal. rewrite get_bind. case_bool_decide as H; [|done].
  apply get_range_some in H as [w ->].
  rewrite advance_bind by done. exists l, w. split_and!; [done|by apply (str_ok_app_inv l)|done|done|done].
Qed.

Lemma digits_forallb ds : forallb is_digitb ds = true <-> Forall is_digit ds.
Proof.
  rewrite forallb_forall, list.Forall_forall. split; intros H b Hb; [apply is_digitb_spec, H; by apply list_elem_of_In|apply is_digitb_spec, H; by apply list_elem_of_In].
Qed.

Lemma digits_are ds : Forall (fun b => is_digitb b = true) ds <-> Forall is_digit ds.
Proof. split; intros H; (eapply list.Forall_impl; [exact H|]); intros b; by rewrite is_digitb_spec. Qed.

Lemma parse_u64_digits ds : Forall is_digit ds -> ds <> [] ->
  parse_u64 ds = if digits_value ds <=? u64_MAX then Some (digits_value ds) else None.
Proof.
  intros Hd Hne. unfold parse_u64. rewrite (proj2 (digits_forallb ds) Hd). destruct ds as [|b ds]; [done|]. rewrite len_cons.
  pose proof (len_nonneg ds). by destruct (Z.leb_spec 1 (1 + len ds)); [|lia].
Qed.

Lemma digits_ascii ds : Forall is_digit ds -> str_ok ds.
Proof. intros H. apply str_ok_ascii. eapply list.Forall_impl; [exact H|]. intros b Hb. unfold is_digit in Hb. cbn in Hb. lia. Qed.


Lemma taken_slice {E} pre ds rest r :
  slice (E:=E) (rc_input (rcur (pre ++ ds) rest)) (rc_index (rcur pre r)) (rc_index (rcur (pre ++ ds) rest)) = Ok ds.
Proof. unfold rcur. cbn [rc_input rc_index]. rewrite <- app_assoc. apply slice_app_at; [done|]. by rewrite len_app. Qed.

Lemma takes_number ds : ds <> [] -> Forall is_digit ds -> digits_value ds <= u64_MAX ->
  takes parse_number (JNumber (digits_value ds)) ds (stops is_digitb).
Proof.
  intros Hne Hd Hv. split; [by apply digits_ascii|]. intros pre rest Hs Hk. unfold parse_number. rewrite get_bind.
  destruct (takes_while is_digitb digit_ascii ds) as [_ Hw]; [by apply digits_are|]. rewrite (io_bind_ok _ _ _ _ _ (Hw pre rest Hs Hk)).
  rewrite get_bind, taken_slice, lift_bind_ok. destruct (digits_ascii ds Hd) as [_ ->]. cbn [negb guard_err]. rewrite lift_bind_ok, parse_u64_digits by done.
  destruct (Z.leb_spec (digits_value ds) u64_MAX); [|lia]. done.
Qed.

Lemma sound_number n b : is_digit b -> forall pre rest, str_ok (b :: rest) -> (length (b :: rest) <= n)%nat ->
  good (fun v ds => ds <> [] /\ Forall is_digit ds /\ digits_value ds <= u64_MAX /\ v = JNumber (digits_value ds)) pre (b :: rest) (parse_number (rcur pre (b :: rest))).
Proof.
  intros Hb pre rest Hs Hn. unfold parse_number. rewrite get_bind.
  pose proof (sound_while is_digitb digit_ascii n pre (b :: rest) Hs Hn) as H. unfold good in H. unfold mbind at 1, io_bind at 1.
  destruct (while_peek is_digitb _) as [[[]|e|] c] eqn:Ew; [|done..]. destruct H as (ds & rest' & E & Hs' & -> & Hds).
  assert (ds <> []) as Hne.
  { intros ->. cbn [app] in E. subst rest'. rewrite app_nil_r in Ew. unfold while_peek, with_fuel in Ew. rewrite get_bind in Ew. cbn [while_loop] in Ew.
    rewrite peek_bind in Ew. cbn [head] in Ew. rewrite (proj2 (is_digitb_spec b) Hb), advance_one in Ew.
    assert (forall fuel p r c, while_loop is_digitb fuel (rcur p r) = (Ok tt, c) -> rc_index (rcur p r) <= rc_index c) as Hmono.
    { induction fuel as [|fuel IH]; intros p r c Hc; cbn [while_loop] in Hc; [done|]. rewrite peek_bind in Hc.
      destruct r as [|x r]; [injection Hc as <-; done|]. cbn [head] in Hc. destruct (is_digitb x); [|injection Hc as <-; done].
      rewrite advance_one in Hc. apply IH in Hc. unfold rcur in *. cbn [rc_index] in *. rewrite len_app in Hc. change (len [x]) with 1 in Hc. lia. }
    apply Hmono in Ew. unfold rcur in Ew. cbn [rc_index] in Ew. rewrite len_app in Ew. change (len [b]) with 1 in Ew. lia. }
  apply digits_are in Hds. rewrite E, get_bind. rewrite taken_slice, lift_bind_ok. destruct (digits_ascii ds Hds) as [_ ->]. cbn [negb guard_err]. rewrite lift_bind_ok, parse_u64_digits by done.
  destruct (Z.leb_spec (digits_value ds) u64_MAX); [|done]. by exists ds, rest'.
Qed.

(** *** Arrays, objects, values *)
(** A value starts, behind its blanks, with a byte that closes nothing. *)
Lemma json_text_head v t : json_text v t ->
  exists ws b r, blank ws /\ t = ws ++ b :: r /\ is_ws b = false /\ b <> 93 /\ b <> 125 /\ json_text v (b :: r).
Proof.
  pose proof (List.Forall_nil (fun b => is_ws b = true)) as Hnil.
  intros [].
  - eexists ws, _, _. split_and!; [done|reflexivity|done..|]. by apply (jt_null []).
  - eexists ws, _, _. split_and!; [done|reflexivity|done..|]. by apply (jt_true []).
  - eexists ws, _, _. split_and!; [done|reflexivity|done..|]. by apply (jt_false []).
  - destruct ds as [|b ds]; [done|]. exists ws, b, ds.
    assert (is_digit b) as Hb by (by match goal with H : Forall is_digit _ |- _ => apply list.Forall_cons in H as [? _] end).
    unfold is_digit in Hb. split_and!; [done|done| |lia|lia|by apply (jt_number [])]. unfold is_ws. rewrite !orb_false_iff, !Z.eqb_neq. lia.
  - match goal with H : string_text _ _ |- _ => pose proof H as (body & _ & ->) end. eexists ws, 34, _.
    split_and!; [done|reflexivity|done..|]. by apply (jt_string []).
  - eexists ws, 91, _. split_and!; [done|reflexivity|done..|]. by apply (jt_array_empty []).
  - eexists ws, 91, _. split_and!; [done|reflexivity|done..|]. by apply (jt_array []).
  - eexists ws, 123, _. split_and!; [done|reflexivity|done..|]. by apply (jt_object_empty []).
  - eexists ws, 123, _. split_and!; [done|reflexivity|done..|]. by apply (jt_object []).
Qed.

Lemma blank_app u v : blank u -> blank v -> blank (u ++ v).
Proof. intros. by apply Forall_app. Qed.

(** Blanks in front of a value belong to its text. *)
Lemma json_text_blank v t w : json_text v t -> blank w -> json_text v (w ++ t).
Proof.
  intros [] Hw; rewrite ?(app_assoc w ws); try (by constructor; [apply blank_app|..]).
Qed.

Lemma elements_blank vs t w : elements_text vs t -> blank w -> elements_text vs (w ++ t).
Proof. intros [v u ws Hv Hws|v u ws us x Hv Hws Hx] Hw; rewrite app_assoc; constructor; (done || by apply json_text_blank). Qed.

Lemma fields_blank fs t w : fields_text fs t -> blank w -> fields_text fs (w ++ t).
Proof. intros [w1 |w1] Hw; rewrite (app_assoc w w1); constructor; (done || by apply blank_app). Qed.

Section sound_containers.
Context (pv : io JsonParser NostrError JsonValue) (n : nat).
Hypothesis pv_sound : forall k, (k <= n)%nat -> sound k pv json_text.

Lemma sound_array_loop k vs fuel : (k <= n)%nat -> (k < fuel)%nat ->
  sound k (array_loop pv vs fuel) (fun v t => exists us t', v = JArray (vs ++ us) /\ elements_text us t' /\ t = t' ++ [93]).
Proof.
  revert k vs. induction fuel as [|fuel IH]; intros k vs Hk Hf; [lia|]. cbn [array_loop].
  eapply sound_bind; [by apply pv_sound|]. intros v t Hv Ht.
  destruct (json_text_head v t Hv) as (ws0 & b0 & r0 & _ & Et & _). assert (0 < length t)%nat as Hpos by (rewrite Et, length_app; cbn; lia).
  eapply sound_bind; [apply sound_ws|]. intros [] ws Hws Hl. eapply sound_bind; [by apply sound_consume|]. intros [] c Hc Hl2; cbv iota in *.
  - intros pre rest Hs Hn. apply good_ret; [done|]. subst c. exists [v], (t ++ ws). rewrite app_nil_r, <- app_assoc. split_and!; [done|by constructor|done].
  - subst c. eapply sound_bind; [by apply sound_expect|]. intros [] c -> Hl3. eapply sound_conseq; [apply IH; cbn; lia|].
    intros w u (us & t' & -> & Hus & ->). exists (v :: us), (t ++ ws ++ [44] ++ t'). rewrite <- !app_assoc. split_and!; [done|by constructor|done].
Qed.

Lemma sound_object_loop k fs fuel : (k <= n)%nat -> (k < fuel)%nat ->
  sound k (object_loop pv fs fuel) (fun v t => exists gs t', v = JObject (fs ++ gs) /\ fields_text gs t' /\ t = t' ++ [125]).
Proof.
  revert k fs. induction fuel as [|fuel IH]; intros k fs Hk Hf; [lia|]. cbn [object_loop].
  eapply sound_bind; [apply sound_ws|]. intros [] w1 Hw1 H1. eapply sound_bind; [apply sound_string|]. intros key kt Hkt H2.
  eapply sound_bind; [apply sound_ws|]. intros [] w2 Hw2 H3. eapply sound_bind; [by apply sound_expect|]. intros [] c -> H4. cbn [length] in H4.
  eapply sound_bind; [apply pv_sound; lia|]. intros v t Hv H5.
  eapply sound_bind; [apply sound_ws|]. intros [] ws Hws H6. eapply sound_bind; [by apply sound_consume|]. intros [] c Hc H7; cbv iota in *.
  - intros pre rest Hs Hn. apply good_ret; [done|]. subst c. exists [(key, v)], (w1 ++ kt ++ w2 ++ [58] ++ t ++ ws).
    rewrite app_nil_r, <- !app_assoc. split_and!; [done|by constructor|done].
  - subst c. eapply sound_bind; [by apply sound_expect|]. intros [] c -> H8. eapply sound_conseq; [apply IH; cbn [length] in *; lia|].
    intros w u (us & t' & -> & Hus & ->). exists ((key, v) :: us), (w1 ++ kt ++ w2 ++ [58] ++ t ++ ws ++ [44] ++ t').
    rewrite <- !app_assoc. split_and!; [done|by constructor|done].
Qed.

(** From the opening bracket. *)
Lemma sound_array k : (k <= S n)%nat ->
  sound k (parse_array pv) (fun v t => forall ws, blank ws -> json_text v (ws ++ t)).
Proof.
  intros Hk. eapply sound_bind; [by apply sound_expect|]. intros [] c -> H1. cbn [length] in H1.
  eapply sound_bind; [apply sound_ws|]. intros [] w Hw H2. eapply sound_bind; [by apply sound_consume|]. intros [] c Hc H3; cbv iota in *.
  - intros pre rest Hs Hn. apply good_ret; [done|]. subst c. intros ws Hws. rewrite app_nil_r. by constructor.
  - subst c. eapply sound_conseq; [apply sound_fuel; intros m fuel Hm Hf; apply sound_array_loop; cbn [length] in *; lia|].
    intros v t (us & t' & -> & Ht & ->) ws Hws. cbn [app]. rewrite app_assoc. apply (jt_array ws us (w ++ t')); [done|].
    by apply elements_blank.
Qed.

Lemma sound_object k : (k <= S n)%nat ->
  sound k (parse_object pv) (fun v t => forall ws, blank ws -> json_text v (ws ++ t)).
Proof.
  intros Hk. eapply sound_bind; [by apply sound_expect|]. intros [] c -> H1. cbn [length] in H1.
  eapply sound_bind; [apply sound_ws|]. intros [] w Hw H2. eapply sound_bind; [by apply sound_consume|]. intros [] c Hc H3; cbv iota in *.
  - intros pre rest Hs Hn. apply good_ret; [done|]. subst c. intros ws Hws. rewrite app_nil_r. by constructor.
  - subst c. eapply sound_conseq; [apply sound_fuel; intros m fuel Hm Hf; apply sound_object_loop; cbn [length] in *; lia|].
    intros v t (us & t' & -> & Ht & ->) ws Hws. cbn [app]. rewrite app_assoc. apply (jt_object ws us (w ++ t')); [done|].
    by apply fields_blank.
Qed.
End sound_containers.

(** The parser of values is sound, and its fuel suffices. *)
Lemma sound_value fuel n : (n < fuel)%nat -> sound n (parse_value fuel) json_text.
Proof.
  revert n. induction fuel as [|fuel IH]; intros n Hf; [lia|]. cbn [parse_value].
  eapply sound_bind; [apply sound_ws|]. intros [] ws Hws _ pre rest Hs Hn. rewrite peek_bind.
  destruct rest as [|b rest]; [done|]. cbn [head ok_or]. rewrite lift_bind_ok.
  repeat match goal with
  | |- good _ _ _ ((if ?x =? ?k then parse_literal ?l ?v else _) _) =>
      destruct (x =? k); [eapply good_conseq; [by apply (sound_literal (n - length ws)); [apply str_ok_ascii; by repeat (apply list.Forall_cons; split; [done|])|..]|
        cbv beta; intros ? ? [-> ->]; by constructor]|]
  end.
  destruct (b =? 34).
  { eapply good_bind; [by apply (sound_string (n - length ws))|]. intros s v rest' _ Hs' Hv. apply good_ret; [done|]. rewrite app_nil_r. by constructor. }
  destruct (b =? 91).
  { eapply good_conseq; [apply (sound_array (parse_value fuel) (Nat.pred fuel)) with (k := (n - length ws)%nat); [|lia|done|done]|cbv beta; auto].
    intros k Hk. destruct fuel; [|apply IH; cbn in Hk; lia]. intros pre' rest' _ Hl. cbn in *. lia. }
  destruct (b =? 123).
  { eapply good_conseq; [apply (sound_object (parse_value fuel) (Nat.pred fuel)) with (k := (n - length ws)%nat); [|lia|done|done]|cbv beta; auto].
    intros k Hk. destruct fuel; [|apply IH; cbn in Hk; lia]. intros pre' rest' _ Hl. cbn in *. lia. }
  destruct (in_range 48 57 b) eqn:Hd; [|done]. apply in_range_spec in Hd.
  eapply good_conseq; [by apply (sound_number (n - length ws))|]. cbv beta. intros v ds (? & ? & ? & ->). by constructor.
Qed.

(** *** Every text of the grammar is taken *)
Lemma stops_blank ws : blank ws -> stops is_digitb ws.
Proof.
  intros [|w u Hw _]; [done|]. cbn. unfold is_ws in Hw. unfold is_digitb. rewrite in_range_reflect. apply bool_decide_eq_false.
  rewrite !orb_true_iff, !Z.eqb_eq in Hw. lia.
Qed.

Lemma stops_digit ws b r : blank ws -> is_digitb b = false -> stops is_digitb (ws ++ b :: r).
Proof. intros Hws Hb. pose proof (stops_blank ws Hws) as H. by destruct ws. Qed.

Lemma stops_tail ws b r rest : blank ws -> is_digitb b = false -> stops is_digitb ((ws ++ b :: r) ++ rest).
Proof. intros. rewrite <- app_assoc. cbn [app]. by apply stops_digit. Qed.

(** The end of a list in brackets: closed, or a comma and more. *)
Lemma takes_close {A} (close : Z) (a : A) (more : io JsonParser NostrError A) ws :
  blank ws -> is_ws close = false -> 0 <= close < 128 ->
  takes (_ ← skip_ws; closed ← consume_byte close; if closed : bool then mret a else more) a (ws ++ [close]) anything.
Proof.
  intros Hw Hc Hr. eapply takes_ws_then; [done|done|]. apply (takes_eq _ _ ([close] ++ [])); [|done].
  eapply takes_bind; [by apply takes_consume|apply takes_ret|done].
Qed.

Lemma takes_comma {A} (close : Z) (x a : A) (more : io JsonParser NostrError A) ws t :
  blank ws -> close <> 44 -> takes more a t anything ->
  takes (_ ← skip_ws; closed ← consume_byte close; if closed : bool then mret x else _ ← expect_byte 44; more) a (ws ++ [44] ++ t) anything.
Proof.
  intros Hw Hc Ht. eapply takes_ws_then; [done|done|]. apply (takes_eq _ _ ([] ++ [44] ++ t)); [|done].
  eapply takes_bind; [apply takes_no_consume| |]; [|intros rest _; cbn; by apply Z.eqb_neq].
  eapply takes_bind; [by apply takes_expect|exact Ht|done].
Qed.

Lemma takes_key ws1 k kt ws2 {A} (f : list Z -> io JsonParser NostrError A) a t r :
  blank ws1 -> string_text k kt -> blank ws2 -> takes (f k) a t r ->
  takes (_ ← skip_ws; key ← parse_string; _ ← skip_ws; _ ← expect_byte 58; f key) a (ws1 ++ kt ++ ws2 ++ [58] ++ t) r.
Proof.
  intros H1 Hk H2 Hf. pose proof Hk as (body & _ & E).
  assert (takes (key ← parse_string; _ ← skip_ws; _ ← expect_byte 58; f key) a (kt ++ ws2 ++ [58] ++ t) r) as H.
  { eapply takes_bind; [by apply takes_string| |done]. eapply takes_ws_then; [done|done|].
    change (58 :: t) with ([58] ++ t). eapply takes_bind; [by apply takes_expect|exact Hf|done]. }
  rewrite E in H |- *. cbn [app] in *. eapply takes_ws_then; [done|done|exact H].
Qed.

(** Opening a list that is not empty. *)
Lemma takes_open {A} (open close : Z) (x a : A) (more : io JsonParser NostrError A) w b r :
  0 <= open < 128 -> blank w -> is_ws b = false -> b <> close -> takes more a (b :: r) anything ->
  takes (_ ← expect_byte open; _ ← skip_ws; closed ← consume_byte close; if closed : bool then mret x else more) a ([open] ++ w ++ b :: r) anything.
Proof.
  intros Ho Hw Hb Hc Hm. eapply takes_bind; [by apply takes_expect| |done]. eapply takes_ws_then; [done|done|].
  apply (takes_eq _ _ ([] ++ b :: r)); [|done]. eapply takes_bind; [apply takes_no_consume|exact Hm|].
  intros rest _. cbn. apply Z.eqb_neq. congruence.
Qed.

Lemma takes_open_close {A} (open close : Z) (a : A) (more : io JsonParser NostrError A) w :
  0 <= open < 128 -> 0 <= close < 128 -> is_ws close = false -> blank w ->
  takes (_ ← expect_byte open; _ ← skip_ws; closed ← consume_byte close; if closed : bool then mret a else more) a ([open] ++ w ++ [close]) anything.
Proof. intros Ho Hc Hcw Hw. eapply takes_bind; [by apply takes_expect| |done]. by apply takes_close. Qed.

Lemma takes_any_stop {A} (m : io JsonParser NostrError A) a v k : takes m a v anything -> takes m a v k.
Proof. intros H. by eapply takes_weaken. Qed.

(** Blanks moved to the front of the list. *)
Lemma elements_split vs t : elements_text vs t ->
  exists w b r, blank w /\ t = w ++ b :: r /\ is_ws b = false /\ b <> 93 /\ elements_text vs (b :: r).
Proof.
  intros [v u ws Hv Hws|v u ws us x Hv Hws Hx]; destruct (json_text_head v u Hv) as (w & b & r & Hw & -> & Hb & H1 & _ & Hr).
  - exists w, b, (r ++ ws). rewrite <- app_assoc. split_and!; [done..|]. by apply (et_one v (b :: r) ws).
  - exists w, b, (r ++ ws ++ [44] ++ x). rewrite <- app_assoc. split_and!; [done..|]. by apply (et_cons v (b :: r) ws us x).
Qed.

Lemma fields_split fs t : fields_text fs t -> exists w r, blank w /\ t = w ++ 34 :: r /\ fields_text fs (34 :: r).
Proof.
  pose proof (List.Forall_nil (fun b => is_ws b = true)) as Hnil.
  intros [w1 k kt w2 v u ws H1 Hk H2 Hv H3|w1 k kt w2 v u ws gs x H1 Hk H2 Hv H3 Hx]; pose proof Hk as (body & _ & E); exists w1; rewrite E; eexists; (split; [done|]; split; [reflexivity|]).
  - rewrite E in Hk. by apply (ft_one [] k ([34] ++ body ++ [34])).
  - rewrite E in Hk. by apply (ft_cons [] k ([34] ++ body ++ [34])).
Qed.

(** What is left of a text when some of the blanks in front are gone. *)
Definition behind (t t' : list Z) : Prop := exists w, blank w /\ t = w ++ t'.

Lemma behind_cut ws b r t' : behind (ws ++ b :: r) t' -> is_ws b = false -> blank ws -> exists ws', blank ws' /\ t' = ws' ++ b :: r.
Proof.
  intros (w & Hw & E) Hb Hws. revert w Hw E. induction Hws as [|x ws Hx Hws IH]; intros w Hw E; destruct Hw as [|y w Hy Hw].
  - exists []. by split; [apply List.Forall_nil|].
  - cbn in E. injection E as -> _. congruence.
  - exists (x :: ws). split; [by apply list.Forall_cons|done].
  - cbn in E. injection E as -> E. by apply (IH w).
Qed.

Lemma behind_refl t : behind t t.
Proof. exists []. by split; [apply List.Forall_nil|]. Qed.

Lemma behind_app t t' u : behind t t' -> behind (t ++ u) (t' ++ u).
Proof. intros (w & Hw & ->). exists w. by rewrite app_assoc. Qed.

Lemma behind_length t t' : behind t t' -> (length t' <= length t)%nat.
Proof. intros (w & _ & ->). rewrite length_app. lia. Qed.

Lemma behind_app_inv t u x : behind (t ++ u) x -> (exists b r w, t = w ++ b :: r /\ is_ws b = false) -> exists t', behind t t' /\ x = t' ++ u.
Proof.
  intros (w & Hw & E) (b & r & w0 & -> & Hb). revert w0 E. induction Hw as [|y w Hy Hw IH]; intros w0 E.
  - exists (w0 ++ b :: r). split; [apply behind_refl|done].
  - destruct w0 as [|z w0]; cbn in E; [injection E as -> _; congruence|]. injection E as -> E.
    destruct (IH w0 E) as (t' & (w' & Hw' & E') & ->). exists t'. split; [|done]. exists (y :: w'). cbn. rewrite <- E'.
    split; [by apply list.Forall_cons|done].
Qed.

Definition taken_value (v : JsonValue) (t : list Z) : Prop :=
  forall t' fuel, behind t t' -> (length t' < fuel)%nat -> takes (parse_value fuel) v t' (stops is_digitb).
Definition taken_elements (vs : list JsonValue) (t : list Z) : Prop :=
  forall t' fuel loop acc, behind t t' -> (length t' < fuel)%nat -> (length t' < loop)%nat ->
    takes (array_loop (parse_value fuel) acc loop) (JArray (acc ++ vs)) (t' ++ [93]) anything.
Definition taken_fields (fs : list (list Z * JsonValue)) (t : list Z) : Prop :=
  forall t' fuel loop acc, behind t t' -> (length t' < fuel)%nat -> (length t' < loop)%nat ->
    takes (object_loop (parse_value fuel) acc loop) (JObject (acc ++ fs)) (t' ++ [125]) anything.

(** Dispatch on the first byte of a value. *)
Lemma taken_dispatch v ws b r :
  blank ws -> is_ws b = false ->
  (forall fuel, (length r < fuel)%nat -> takes
    (if b =? 110 then parse_literal (str "null") JNull
     else if b =? 116 then parse_literal (str "true") (JBool true)
     else if b =? 102 then parse_literal (str "false") (JBool false)
     else if b =? 34 then s ← parse_string; mret (JString s)
     else if b =? 91 then parse_array (parse_value fuel)
     else if b =? 123 then parse_object (parse_value fuel)
     else if in_range 48 57 b then parse_number
     else lift (Err MalformedMessage)) v (b :: r) (stops is_digitb)) ->
  taken_value v (ws ++ b :: r).
Proof.
  intros Hw Hb H t' fuel Ht Hf. destruct (behind_cut ws b r t' Ht Hb Hw) as (ws' & Hw' & ->). rewrite length_app in Hf. cbn in Hf.
  destruct fuel as [|fuel]; [lia|]. cbn [parse_value]. eapply takes_ws_then; [done|done|]. apply takes_peek, takes_lift_ok. apply H. lia.
Qed.

Lemma taken_array ws vs t :
  blank ws -> elements_text vs t -> taken_elements vs t -> taken_value (JArray vs) (ws ++ [91] ++ t ++ [93]).
Proof.
  intros Hws Ht IH. apply taken_dispatch; [done|done|]. intros fuel Hf. apply takes_any_stop.
  change (takes (parse_array (parse_value fuel)) (JArray vs) ([91] ++ t ++ [93]) anything).
  destruct (elements_split vs t Ht) as (w & b & r & Hw & -> & Hb & Hc & Ht'). rewrite <- app_assoc. cbn [app].
  apply (takes_open 91 93 (JArray []) (JArray vs) _ w b (r ++ [93])); [done..|]. apply takes_fuel. intros loop Hl.
  apply (IH (b :: r) fuel loop []); [by exists w|rewrite !length_app in Hf; cbn in *; lia|cbn in *; rewrite length_app in Hl; cbn in *; lia].
Qed.

Lemma taken_object ws fs t :
  blank ws -> fields_text fs t -> taken_fields fs t -> taken_value (JObject fs) (ws ++ [123] ++ t ++ [125]).
Proof.
  intros Hws Ht IH. apply taken_dispatch; [done|done|]. intros fuel Hf. apply takes_any_stop.
  change (takes (parse_object (parse_value fuel)) (JObject fs) ([123] ++ t ++ [125]) anything).
  destruct (fields_split fs t Ht) as (w & r & Hw & -> & Ht'). rewrite <- app_assoc. cbn [app].
  apply (takes_open 123 125 (JObject []) (JObject fs) _ w 34 (r ++ [125])); [done..|]. apply takes_fuel. intros loop Hl.
  apply (IH (34 :: r) fuel loop []); [by exists w|rewrite !length_app in Hf; cbn in *; lia|cbn in *; rewrite length_app in Hl; cbn in *; lia].
Qed.

Lemma taken_literal v ws b r :
  blank ws -> is_ws b = false -> str_ok (b :: r) ->
  (forall fuel, (if b =? 110 then parse_literal (str "null") JNull
     else if b =? 116 then parse_literal (str "true") (JBool true)
     else if b =? 102 then parse_literal (str "false") (JBool false)
     else if b =? 34 then s ← parse_string; mret (JString s)
     else if b =? 91 then parse_array (parse_value fuel)
     else if b =? 123 then parse_object (parse_value fuel)
     else if in_range 48 57 b then parse_number
     else lift (Err MalformedMessage)) = parse_literal (b :: r) v) ->
  taken_value v (ws ++ b :: r).
Proof. intros Hw Hb Hs H. apply taken_dispatch; [done..|]. intros fuel _. rewrite H. apply takes_any_stop. by apply takes_literal. Qed.

Lemma literal_ok l : forallb (fun b => in_range 0 127 b) l = true -> str_ok l.
Proof.
  intros H. apply str_ok_ascii. rewrite forallb_forall in H. apply list.Forall_forall. intros b Hb%list_elem_of_In.
  specialize (H b Hb). apply in_range_spec in H. cbn. lia.
Qed.

Lemma taken_number ws ds : blank ws -> ds <> [] -> Forall is_digit ds -> digits_value ds <= u64_MAX ->
  taken_value (JNumber (digits_value ds)) (ws ++ ds).
Proof.
  intros Hw Hne Hd Hv. pose proof (takes_number ds Hne Hd Hv) as H. destruct ds as [|b ds]; [done|].
  apply list.Forall_cons in Hd as [Hb _]. unfold is_digit in Hb. apply taken_dispatch; [done| |].
  - unfold is_ws. rewrite !orb_false_iff, !Z.eqb_neq. lia.
  - intros fuel _. repeat match goal with |- context [b =? ?k] => destruct (Z.eqb_spec b k); [lia|] end.
    by rewrite (proj2 (in_range_spec 48 57 b) Hb).
Qed.

Lemma taken_one v t ws : json_text v t -> taken_value v t -> blank ws -> taken_elements [v] (t ++ ws).
Proof.
  intros Hv IH Hw t' fuel loop acc Ht Hf Hl. destruct (json_text_head v t Hv) as (w & b & r & _ & E & Hb & _).
  destruct (behind_app_inv t ws t' Ht) as (t1 & Ht1 & ->); [eauto|]. rewrite length_app in Hf, Hl.
  destruct loop as [|loop]; [lia|]. cbn [array_loop]. rewrite <- app_assoc.
  eapply takes_bind; [apply IH; [done|lia]|by apply takes_close|]. intros rest _. by apply stops_tail.
Qed.

Lemma taken_more v t ws vs u :
  json_text v t -> taken_value v t -> blank ws -> elements_text vs u -> taken_elements vs u -> taken_elements (v :: vs) (t ++ ws ++ [44] ++ u).
Proof.
  intros Hv IH Hw Hu IHu t' fuel loop acc Ht Hf Hl. destruct (json_text_head v t Hv) as (w & b & r & _ & E & Hb & _).
  destruct (behind_app_inv t _ t' Ht) as (t1 & Ht1 & ->); [eauto|]. rewrite !length_app in Hf, Hl. cbn [length] in Hf, Hl.
  destruct loop as [|loop]; [lia|]. cbn [array_loop]. rewrite <- !app_assoc.
  eapply takes_bind; [apply IH; [done|lia]| |]; [|intros rest _; by apply (stops_tail ws 44)].
  apply takes_comma; [done|done|]. change (v :: vs) with ([v] ++ vs). rewrite (app_assoc acc). apply IHu; [apply behind_refl|lia..].
Qed.

Lemma behind_key w1 k kt u t' : blank w1 -> string_text k kt -> behind (w1 ++ kt ++ u) t' -> exists w, blank w /\ t' = w ++ kt ++ u.
Proof. intros Hw (body & _ & ->) Ht. by apply behind_cut in Ht. Qed.

Lemma taken_field w1 k kt w2 v t ws : blank w1 -> string_text k kt -> blank w2 -> json_text v t -> taken_value v t -> blank ws ->
  taken_fields [(k, v)] (w1 ++ kt ++ w2 ++ [58] ++ t ++ ws).
Proof.
  intros H1 Hk H2 Hv IH H3 t' fuel loop acc Ht Hf Hl. destruct (behind_key _ _ _ _ _ H1 Hk Ht) as (w & Hw & ->).
  rewrite !length_app in Hf, Hl. cbn [length] in Hf, Hl. destruct loop as [|loop]; [lia|]. cbn [object_loop]. rewrite <- !app_assoc.
  apply (takes_key w k kt w2); [done..|].
  eapply takes_bind; [apply IH; [apply behind_refl|lia]|by apply takes_close|]. intros rest _. by apply stops_tail.
Qed.

Lemma taken_fields_more w1 k kt w2 v t ws fs u : blank w1 -> string_text k kt -> blank w2 -> json_text v t -> taken_value v t -> blank ws ->
  fields_text fs u -> taken_fields fs u ->
  taken_fields ((k, v) :: fs) (w1 ++ kt ++ w2 ++ [58] ++ t ++ ws ++ [44] ++ u).
Proof.
  intros H1 Hk H2 Hv IH H3 Hu IHu t' fuel loop acc Ht Hf Hl. destruct (behind_key _ _ _ _ _ H1 Hk Ht) as (w & Hw & ->).
  rewrite !length_app in Hf, Hl. cbn [length] in Hf, Hl. destruct loop as [|loop]; [lia|]. cbn [object_loop]. rewrite <- !app_assoc.
  apply (takes_key w k kt w2); [done..|].
  eapply takes_bind; [apply IH; [apply behind_refl|lia]| |]; [|intros rest _; by apply (stops_tail ws 44)].
  apply takes_comma; [done|done|]. change ((k, v) :: fs) with ([(k, v)] ++ fs). rewrite (app_assoc acc). apply IHu; [apply behind_refl|lia..].
Qed.

Lemma taken_string ws s t : blank ws -> string_text s t -> taken_value (JString s) (ws ++ t).
Proof.
  intros Hw Hs. pose proof (takes_string s t Hs) as H. destruct Hs as (body & Hb & ->). apply taken_dispatch; [done|done|].
  intros fuel _. apply takes_any_stop.
  change (takes (s ← parse_string; mret (JString s)) (JString s) ([34] ++ body ++ [34]) anything).
  rewrite <- (app_nil_r ([34] ++ body ++ [34])). eapply takes_bind; [exact H|apply takes_ret|done].
Qed.

Lemma every_text_taken :
  (forall v t, json_text v t -> taken_value v t) /\
  (forall vs t, elements_text vs t -> taken_elements vs t) /\
  (forall fs t, fields_text fs t -> taken_fields fs t).
Proof.
  apply (json_text_mutind (fun v t _ => taken_value v t) (fun vs t _ => taken_elements vs t) (fun fs t _ => taken_fields fs t)); intros.
  - by apply taken_literal; [| |apply literal_ok|].
  - by apply taken_literal; [| |apply literal_ok|].
  - by apply taken_literal; [| |apply literal_ok|].
  - by apply taken_number.
  - by apply taken_string.
  - apply taken_dispatch; [done|done|]. intros fuel _. apply takes_any_stop. by apply (takes_open_close 91 93).
  - by apply taken_array.
  - apply taken_dispatch; [done|done|]. intros fuel _. apply takes_any_stop. by apply (takes_open_close 123 125).
  - by apply taken_object.
  - by apply taken_one.
  - by apply taken_more.
  - by apply taken_field.
  - by apply taken_fields_more.
Qed.

(** *** The whole parser *)
Definition parse_document (fuel : nat) : io JsonParser NostrError JsonValue :=
  value ← parse_value fuel;
  _ ← skip_ws;
  c ← get;
  _ ← lift (guard_err (negb (rc_index c =? len (rc_input c))) MalformedMessage);
  mret value.

Lemma parse_sound input : str_ok input ->
  match parse input with Ok v => json_document v input | Err e => e = MalformedMessage | Panic => False end.
Proof.
  intros Hs. change (parse input) with (fst (parse_document (S (length input)) (rcur [] input))).
  assert (good (fun v t => json_document v input /\ t = input) [] input (parse_document (S (length input)) (rcur [] input))) as H.
  { eapply good_bind; [apply (sound_value _ (length input)); [lia|done|done]|]. intros v t rest E Hr Hv.
    eapply good_bind; [by apply (sound_ws (length rest))|]. intros [] ws rest' E' Hr' Hws. cbn in Hws. rewrite get_bind.
    destruct (rc_index _ =? len _) eqn:Hend; [|done]. cbn [negb guard_err]. rewrite lift_bind_ok. apply rcur_end in Hend. subst rest'.
    apply good_ret; [done|]. rewrite !app_nil_r in *. subst. split; [|done]. exists t, ws. done. }
  unfold good in H. destruct (parse_document _ _) as [[v|e|] c]; cbn; [|done..]. by destruct H as (? & ? & _ & _ & _ & ? & _).
Qed.

Lemma parse_complete input v : json_document v input -> parse input = Ok v.
Proof.
  intros (t & ws & Ht & Hws & ->). change (parse (t ++ ws)) with (fst (parse_document (S (length (t ++ ws))) (rcur [] (t ++ ws)))).
  destruct (proj1 every_text_taken v t Ht t (S (length (t ++ ws))) (behind_refl t)) as [Hts H]; [rewrite length_app; lia|].
  destruct (takes_ws ws Hws) as [Hwo Hw]. unfold parse_document.
  rewrite (io_bind_ok _ _ _ _ _ (H [] ws Hwo (stops_blank ws Hws))).
  pose proof (Hw ([] ++ t) [] str_ok_nil I) as Hw'. rewrite app_nil_r in Hw'. rewrite (io_bind_ok _ _ _ _ _ Hw'), get_bind.
  assert ((rc_index (rcur (([] ++ t) ++ ws) []) =? len (rc_input (rcur (([] ++ t) ++ ws) []))) = true) as -> by (by apply rcur_end).
  done.
Qed.

(** C28. The parser is the grammar: an input is accepted exactly when it is a
    document of the grammar, with the value the grammar gives it, which is the
    only one; anything else is refused as malformed, and the parser always ends
    without panicking. *)
Theorem json_parse_exact input :
  str_ok input ->
  (exists v, parse input = Ok v /\ forall w, json_document w input <-> w = v) \/
  (parse input = Err MalformedMessage /\ forall w, ~ json_document w input).
Proof.
  intros Hs. pose proof (parse_sound input Hs) as H. destruct (parse input) as [v|e|] eqn:E; [left; exists v|right; subst e|done].
  - split; [done|]. intros w. split; [intros Hw; apply parse_complete in Hw; congruence|by intros ->].
  - split; [done|]. intros w Hw. apply parse_complete in Hw. congruence.
Qed.

(** ** The compact form *)
Section value_ind.
Context (P : JsonValue -> Prop).
Hypothesis (Hnull : P JNull) (Hbool : forall b, P (JBool b)) (Hnumber : forall n, P (JNumber n)) (Hstring : forall s, P (JString s)).
Hypothesis Harray : forall l, Forall P l -> P (JArray l).
Hypothesis Hobject : forall l, Forall (fun f => P (snd f)) l -> P (JObject l).

Fixpoint JsonValue_ind (v : JsonValue) : P v :=
  match v with
  | JNull => Hnull
  | JBool b => Hbool b
  | JNumber n => Hnumber n
  | JString s => Hstring s
  | JArray l => Harray l ((fix values l : Forall P l :=
      match l with [] => List.Forall_nil _ | v :: l => @List.Forall_cons _ P v l (JsonValue_ind v) (values l) end) l)
  | JObject l => Hobject l ((fix fields l : Forall (fun f => P (snd f)) l :=
      match l with [] => List.Forall_nil _ | (k, v) :: l => @List.Forall_cons _ (fun f => P (snd f)) (k, v) l (JsonValue_ind v) (fields l) end) l)
  end.
End value_ind.

Definition json_object (l : list (list Z)) : list Z := [123] ++ commas l ++ [125].

Fixpoint json_print (v : JsonValue) : list Z :=
  match v with
  | JNull => str "null"
  | JBool true => str "true"
  | JBool false => str "false"
  | JNumber n => decimal n
  | JString s => json_string s
  | JArray l => json_array (map json_print l)
  | JObject l => json_object (map (fun f => json_string (fst f) ++ [58] ++ json_print (snd f)) l)
  end.

(** The values that have a compact form: strings are strings, numbers [u64]. *)
Fixpoint value_ok (v : JsonValue) : Prop :=
  match v with
  | JNull | JBool _ => True
  | JNumber n => u64_ok n
  | JString s => str_ok s
  | JArray l => fold_right (fun v P => value_ok v /\ P) True l
  | JObject l => fold_right (fun f P => (str_ok (fst f) /\ value_ok (snd f)) /\ P) True l
  end.

Lemma fold_and {A} (P : A -> Prop) l : fold_right (fun x Q => P x /\ Q) True l <-> Forall P l.
Proof.
  induction l as [|x l IH]; cbn [fold_right]; [split; [intros _; apply List.Forall_nil|done]|]. by rewrite IH, list.Forall_cons.
Qed.

Lemma escape_short c e : 0 <= c -> escape c = Some e -> char_text c (92 :: e).
Proof.
  unfold escape. intros Hc H. revert H.
  repeat match goal with |- (if ?x =? ?k then _ else _) = _ -> _ => destruct (Z.eqb_spec x k) as [->|]; [intros [= <-]; by apply ct_short|] end.
  destruct (Z.ltb_spec c 32); [|done]. intros [= <-]. destruct (nibbles c) as [H1 H2]; [unfold u8_ok; lia|].
  assert (forall n, 0 <= n < 16 -> hex_value (hex_digit n) = Ok n) as Hd.
  { intros m Hm. unfold hex_digit, hex_value. rewrite !in_range_reflect. destruct (Z.ltb_spec m 10).
    - rewrite bool_decide_eq_true_2 by lia. f_equal. lia.
    - rewrite bool_decide_eq_false_2, bool_decide_eq_true_2 by lia. f_equal. lia. }
  change (92 :: [117; 48; 48] ++ hex_byte c) with ([92; 117] ++ [48; 48; hex_digit (c / 16); hex_digit (c mod 16)]).
  apply ct_unicode; [|unfold scalar_ok; lia].
  pose proof (hex4_intro 48 48 _ _ 0 0 _ _ eq_refl eq_refl (Hd _ H1) (Hd _ H2)) as X.
  assert (((0 * 16 + 0) * 16 + c / 16) * 16 + c mod 16 = c) as E by (Z.to_euclidean_division_equations; lia). by rewrite E in X.
Qed.

Lemma json_char_text c : scalar_ok c -> char_text c (json_char c).
Proof.
  intros Hc. rewrite json_char_escape. destruct (escape c) as [e|] eqn:E; [apply escape_short; [unfold scalar_ok in Hc; lia|done]|].
  destruct (escape_none c E) as (? & ? & ?). by apply ct_plain.
Qed.

Lemma json_string_text s : str_ok s -> string_text s (json_string s).
Proof.
  intros Hs. destruct (chars_spec s Hs) as [Hcs Es]. exists (concat (map json_char (chars s))). split; [|done]. rewrite Es at 1.
  clear Es. induction Hcs as [|c cs Hc Hcs IH]; [constructor|]. cbn [map concat]. constructor; [by apply json_char_text|done].
Qed.

Lemma blank_nil : blank [].
Proof. apply List.Forall_nil. Qed.

Lemma commas_cons x l : commas (x :: l) = x ++ match l with [] => [] | _ => [44] ++ commas l end.
Proof. by destruct l. Qed.

Lemma elements_print l : l <> [] -> Forall (fun v => json_text v (json_print v)) l -> elements_text l (commas (map json_print l)).
Proof.
  intros Hne Hl. induction Hl as [|v l Hv Hl IH]; [done|]. cbn [map]. rewrite commas_cons. destruct l as [|w l].
  - by apply (et_one v _ []), blank_nil.
  - apply (et_cons v _ []); [done|apply blank_nil|]. by apply IH.
Qed.

Lemma fields_print l : l <> [] -> Forall (fun f => str_ok (fst f) /\ json_text (snd f) (json_print (snd f))) l ->
  fields_text l (commas (map (fun f => json_string (fst f) ++ [58] ++ json_print (snd f)) l)).
Proof.
  intros Hne Hl. induction Hl as [|[k v] l [Hk Hv] Hl IH]; [done|]. cbn [map fst snd] in *. rewrite commas_cons. destruct l as [|w l].
  - rewrite app_nil_r. rewrite <- (app_nil_r (json_print v)). apply (ft_one [] k _ []); try apply blank_nil; [by apply json_string_text|done].
  - rewrite <- !app_assoc. apply (ft_cons [] k _ [] v _ []); try apply blank_nil; [by apply json_string_text|done|by apply IH].
Qed.

(** The compact form is a text of the grammar. *)
Lemma json_print_text v : value_ok v -> json_text v (json_print v).
Proof.
  induction v as [|[]|n|s|l IH|l IH] using JsonValue_ind; cbn [value_ok json_print].
  - intros _. apply (jt_null []), blank_nil.
  - intros _. apply (jt_true []), blank_nil.
  - intros _. apply (jt_false []), blank_nil.
  - intros Hn. pose proof (decimal_value n Hn) as E. rewrite <- E at 1. apply (jt_number []); [apply blank_nil| | |].
    + destruct (decimal_cons n Hn) as (b & r & -> & _). done.
    + apply decimal_ok. unfold u64_ok in Hn. lia.
    + rewrite E. unfold u64_ok, u64_MAX in *. lia.
  - intros Hs. apply (jt_string []); [apply blank_nil|by apply json_string_text].
  - rewrite fold_and. intros Hl. destruct l as [|v l]; [apply (jt_array_empty [] []); apply blank_nil|].
    apply (jt_array [] (v :: l)); [apply blank_nil|]. apply elements_print; [done|].
    eapply Forall_impl; [apply Forall_and; split; [exact IH|exact Hl]|]. cbn. tauto.
  - rewrite fold_and. intros Hl. destruct l as [|f l]; [apply (jt_object_empty [] []); apply blank_nil|].
    apply (jt_object [] (f :: l)); [apply blank_nil|]. apply fields_print; [done|].
    eapply Forall_impl; [apply Forall_and; split; [exact IH|exact Hl]|]. cbn. tauto.
Qed.

Lemma json_print_str v : value_ok v -> str_ok (json_print v).
Proof.
  intros Hv. by destruct (proj1 every_text_taken v _ (json_print_text v Hv) _ (S (length (json_print v))) (behind_refl _) (Nat.lt_succ_diag_r _)).
Qed.

Lemma parse_print v : value_ok v -> parse (json_print v) = Ok v.
Proof.
  intros Hv. apply parse_complete. exists (json_print v), []. rewrite app_nil_r. split_and!; [by apply json_print_text|apply blank_nil|done].
Qed.

(** ** A witness *)
(** An input with blanks, escapes of three kinds, a number with a leading zero. *)
Definition sample_json : list Z := [91; 32; 123; 34; 97; 92; 117; 48; 48; 101; 57; 34; 32; 58; 91; 110; 117; 108; 108; 44; 116; 114; 117; 101; 93; 125; 32; 44; 48; 55; 44; 34; 92; 110; 195; 169; 34; 93; 10].
Definition sample_value : JsonValue :=
  JArray [JObject [([97; 195; 169], JArray [JNull; JBool true])]; JNumber 7; JString [10; 195; 169]].

Lemma sample_json_ok : str_ok sample_json.
Proof. split; [apply (bool_decide_unpack _); vm_compute; exact I|reflexivity]. Qed.

Lemma json_parse_exact_witness : json_document sample_value sample_json.
Proof.
  destruct (json_parse_exact sample_json sample_json_ok) as [(v & Hv & H)|[H _]].
  - apply H. assert (parse sample_json = Ok sample_value) as E by (vm_compute; reflexivity). congruence.
  - assert (parse sample_json = Ok sample_value) as E by (vm_compute; reflexivity). congruence.
Defined.
