(* ===== verification/Text.v ===== *)
(** The string functions of the standard library that the report of the hardware
    test and the conformance reports use: [split_once], [strip_suffix], [split],
    [trim], [join], [starts_with], with an ASCII character as separator.  A [&str] is its list of
    bytes, as in [Utf8]. *)
From S2P Require Import Prelude Utf8 Cursor NostrHex NostrJson NostrParser.
From stdpp Require Import strings.

Open Scope Z_scope.

(** [str::split_once] and [str::strip_suffix] with an ASCII character. *)
Fixpoint split_once (c : Z) (s : list Z) : option (list Z * list Z) :=
  match s with
  | [] => None
  | b :: s => if b =? c then Some ([], s) else match split_once c s with Some (u, v) => Some (b :: u, v) | None => None end
  end.
Definition strip_suffix (c : Z) (s : list Z) : option (list Z) :=
  match last s with Some b => if b =? c then Some (removelast s) else None | None => None end.

(** [str::split] with an ASCII character. *)
Fixpoint split (c : Z) (s : list Z) : list (list Z) :=
  match s with
  | [] => [[]]
  | b :: s =>
      if b =? c then [] :: split c s
      else match split c s with u :: l => (b :: u) :: l | [] => [[b]] end
  end.

(** [join] with an ASCII character. *)
Fixpoint join (c : Z) (l : list (list Z)) : list Z :=
  match l with [] => [] | [u] => u | u :: l => u ++ c :: join c l end.

(** [str::starts_with] *)
Definition starts_with (s prefix : list Z) : bool := bool_decide (take (length prefix) s = prefix).

(** [char::is_whitespace] *)
Definition is_whitespace (c : Z) : bool :=
  in_range 9 13 c || in_range 0x2000 0x200A c
  || existsb (Z.eqb c) [32; 0x85; 0xA0; 0x1680; 0x2028; 0x2029; 0x202F; 0x205F; 0x3000].
Fixpoint drop_white (cs : list Z) : list Z :=
  match cs with [] => [] | c :: cs' => if is_whitespace c then drop_white cs' else cs end.
(** [str::trim] *)
Definition trim (s : list Z) : list Z := concat (map encode_utf8 (rev (drop_white (rev (drop_white (chars s)))))).

(** ** Lemmas *)
Lemma split_once_some c s u v : split_once c s = Some (u, v) <-> s = u ++ c :: v /\ c ∉ u.
Proof.
  revert u. induction s as [|b s IH]; intros u; cbn [split_once].
  - split; [done|]. intros [H _]. by destruct u.
  - destruct (Z.eqb_spec b c) as [->|Hne].
    + split; [intros [= <- <-]; split; [done|apply not_elem_of_nil]|]. intros [H Hu]. destruct u as [|b u]; [by injection H as ->|].
      injection H as -> _. rewrite not_elem_of_cons in Hu. by destruct Hu.
    + destruct u as [|b' u].
      * split; [|intros [[= ? ?] _]; done]. by destruct (split_once c s) as [[? ?]|].
      * rewrite not_elem_of_cons. specialize (IH u). split.
        -- intros E. assert (b = b' /\ split_once c s = Some (u, v)) as [-> E'] by (destruct (split_once c s) as [[? ?]|]; [injection E as -> -> ->; done|done]).
           apply IH in E' as [-> Hu]. split; [done|]. auto.
        -- intros [[= -> H] [_ Hu]]. by rewrite (proj2 IH (conj H Hu)).
Qed.
Lemma split_once_none c s : c ∉ s -> split_once c s = None.
Proof.
  intros H. destruct (split_once c s) as [[u v]|] eqn:E; [|done]. apply split_once_some in E as [-> _]. rewrite elem_of_app in H.
  destruct H. right. apply list_elem_of_here.
Qed.
Lemma strip_suffix_some c s u : strip_suffix c s = Some u <-> s = u ++ [c].
Proof.
  unfold strip_suffix. destruct s as [|b s _] using rev_ind; [split; [done|]; by destruct u|]. rewrite last_snoc, removelast_last. destruct (Z.eqb_spec b c) as [->|Hne].
  - split; [by intros [= ->]|]. intros H. apply app_inj_tail in H as [-> _]. done.
  - split; [done|]. intros H. by apply app_inj_tail in H as [_ ?].
Qed.


Lemma split_here c u v : c ∉ u -> split c (u ++ c :: v) = u :: split c v.
Proof.
  induction u as [|b u IH]; cbn; intros Hu; [by rewrite Z.eqb_refl|]. rewrite not_elem_of_cons in Hu. destruct Hu as [Hb Hu].
  rewrite (proj2 (Z.eqb_neq b c)) by done. by rewrite IH.
Qed.
Lemma split_whole c u : c ∉ u -> split c u = [u].
Proof.
  induction u as [|b u IH]; cbn; intros Hu; [done|]. rewrite not_elem_of_cons in Hu. destruct Hu as [Hb Hu].
  rewrite (proj2 (Z.eqb_neq b c)) by done. by rewrite IH.
Qed.
Lemma split_join c l : l <> [] -> Forall (fun u => c ∉ u) l -> split c (join c l) = l.
Proof.
  intros Hne Hl. induction Hl as [|u l Hu Hl IH]; [done|]. destruct l as [|v l]; [by apply split_whole|].
  change (join c (u :: v :: l)) with (u ++ c :: join c (v :: l)). rewrite split_here by done. by rewrite IH.
Qed.

Lemma chars_app u v : str_ok u -> str_ok v -> chars (u ++ v) = chars u ++ chars v.
Proof.
  intros [Hu Hu'] [Hv Hv']. unfold chars, utf8_ok in *. apply bool_decide_eq_true in Hu' as [cs Eu], Hv' as [ds Ev].
  by rewrite (utf8_decode_app u v cs ds), Eu, Ev.
Qed.
Lemma chars_ascii u : Forall (fun b => 0 <= b < 128) u -> chars u = u.
Proof. intros Hu. unfold chars. by rewrite utf8_decode_ascii. Qed.

(** A text without white space at its ends. *)
Definition trimmed (s : list Z) : Prop := trim s = s.

Lemma drop_white_head cs : drop_white cs = cs \/ exists c r, cs = c :: r /\ is_whitespace c = true.
Proof. destruct cs as [|c cs]; [by left|]. cbn. destruct (is_whitespace c) eqn:E; [right; by exists c, cs|by left]. Qed.
Lemma drop_white_app u v : Forall (fun c => is_whitespace c = true) u -> drop_white (u ++ v) = drop_white v.
Proof. induction 1 as [|c u Hc _ IH]; [done|]. cbn. by rewrite Hc. Qed.
Lemma drop_white_length cs : (length (drop_white cs) <= length cs)%nat.
Proof. induction cs as [|c cs IH]; [done|]. cbn. destruct (is_whitespace c); cbn; lia. Qed.
Lemma drop_white_stop cs : drop_white cs = cs <-> match cs with [] => True | c :: _ => is_whitespace c = false end.
Proof.
  destruct cs as [|c cs]; [done|]. cbn. destruct (is_whitespace c); [|done]. split; [|done]. intros E. pose proof (drop_white_length cs) as H. rewrite E in H. cbn in H. lia.
Qed.

Lemma encode_chars_inj cs ds : Forall scalar_ok cs -> Forall scalar_ok ds -> concat (map encode_utf8 cs) = concat (map encode_utf8 ds) -> cs = ds.
Proof. intros Hc Hd E. apply (f_equal utf8_decode) in E. rewrite !utf8_decode_concat in E by done. by injection E. Qed.

Definition trim_chars (cs : list Z) : list Z := rev (drop_white (rev (drop_white cs))).
Lemma trim_chars_sub cs : Forall scalar_ok cs -> Forall scalar_ok (trim_chars cs).
Proof.
  assert (forall ds, Forall scalar_ok ds -> Forall scalar_ok (drop_white ds)) as Hd.
  { induction 1 as [|c ds Hc Hds IH]; [apply List.Forall_nil|]. cbn. destruct (is_whitespace c); [done|by constructor]. }
  intros Hc. unfold trim_chars. apply List.Forall_rev, Hd, List.Forall_rev, Hd, Hc.
Qed.

Lemma trimmed_chars s : str_ok s -> trimmed s <-> trim_chars (chars s) = chars s.
Proof.
  intros Hs. destruct (chars_spec s Hs) as [Hc Es]. unfold trimmed, trim. fold (trim_chars (chars s)). split.
  - intros E. rewrite Es in E at 2. apply encode_chars_inj in E; [done|by apply trim_chars_sub|done].
  - intros ->. by rewrite <- Es.
Qed.
Lemma trim_chars_fixed cs : trim_chars cs = cs <-> drop_white cs = cs /\ drop_white (rev cs) = rev cs.
Proof.
  unfold trim_chars. split.
  - intros E. assert (drop_white cs = cs) as E1.
    { destruct (drop_white_head cs) as [|(c & r & -> & Hc)]; [done|]. exfalso. apply (f_equal length) in E. rewrite length_rev in E.
      pose proof (drop_white_length (rev (drop_white (c :: r)))) as H. rewrite length_rev in H. cbn in H, E. rewrite Hc in H, E.
      pose proof (drop_white_length r). lia. }
    rewrite E1 in E. split; [done|]. rewrite <- E at 2. by rewrite rev_involutive.
  - intros [-> ->]. apply rev_involutive.
Qed.

(** White space before a text that has none at its ends, or starts with a letter
    and has none at its end, is all that is cut off. *)
Lemma trim_padded pad head tail :
  Forall (fun b => b = 32) pad -> Forall (fun b => 33 <= b < 127) head -> head <> [] -> str_ok tail -> trimmed tail ->
  trim (pad ++ head ++ tail) = head ++ tail /\ str_ok (head ++ tail).
Proof.
  intros Hp Hh Hne Ht Htr. assert (Forall (fun b => 0 <= b < 128) head) as Ha by (eapply Forall_impl; [exact Hh|]; cbn; lia).
  assert (Forall (fun b => 0 <= b < 128) pad) as Hpa by (eapply Forall_impl; [exact Hp|]; cbn; lia).
  assert (str_ok (head ++ tail)) as Hok by (apply str_ok_app; [by apply str_ok_ascii|done]). split; [|done].
  apply trimmed_chars, trim_chars_fixed in Htr as [_ Hend]; [|done].
  unfold trim. rewrite chars_app by (try done; by apply str_ok_ascii). rewrite (chars_ascii pad) by done.
  rewrite drop_white_app by (eapply Forall_impl; [exact Hp|]; by intros ? ->).
  fold (trim_chars (chars (head ++ tail))). assert (trim_chars (chars (head ++ tail)) = chars (head ++ tail)) as Hx.
  { apply trim_chars_fixed. assert (forall b, 33 <= b < 127 -> is_whitespace b = false) as Hw.
    { intros b Hb. pose proof (bool_decide_unpack (Forall (fun i => is_whitespace (33 + Z.of_nat i) = false) (seq 0 94)) I) as H. rewrite Forall_forall in H.
      specialize (H (Z.to_nat (b - 33))). replace b with (33 + Z.of_nat (Z.to_nat (b - 33))) by lia. apply H. apply elem_of_seq. lia. }
    rewrite chars_app by (try done; by apply str_ok_ascii). rewrite (chars_ascii head) by done. split.
    - apply drop_white_stop. destruct head as [|b head]; [done|]. cbn. apply Hw. by apply list.Forall_cons in Hh as [? _].
    - rewrite rev_app_distr. apply drop_white_stop. apply drop_white_stop in Hend. destruct (rev (chars tail)) as [|c r]; [|done]. cbn.
      destruct (rev head) as [|b r] eqn:E; [done|]. apply Hw. rewrite Forall_forall in Hh. apply Hh, list_elem_of_In, in_rev. rewrite E. by left. }
  rewrite Hx. destruct (chars_spec _ Hok) as [_ E]. by rewrite <- E.
Qed.

Lemma chars_nil u : str_ok u -> chars u = [] -> u = [].
Proof. intros Hu E. destruct (chars_spec u Hu) as [_ Eu]. by rewrite E in Eu. Qed.
