(* ===== verification/Nostr.v ===== *)
(** [hyf_link_nostr]: keys, events, their canonical form and identifier,
    signatures, filters, and HYF envelopes in signed events
    (src/crates/hyf_link_nostr/src/keys.rs, event.rs, filter.rs, canonical.rs,
    signing.rs, content.rs, hyf.rs).

    BIP-340 signatures and SHA-256 are other crates' code (k256, sha2): they are
    the operations of [NostrPrims], and [NostrPrimsLaws] is what their
    documentation promises.  The identifier of an event is the digest of its
    canonical form, and the form is unambiguous, so an identifier stands for one
    event up to collisions of the digest. *)
From S2P Require Import Prelude Utf8 Cursor Core Wire NostrHex NostrJson.
From stdpp Require Import strings.

Open Scope Z_scope.

(** ** Keys *)
(** The arrays behind the newtypes. *)
Definition NostrPublicKey : Type := list Z.
Definition NostrSecretKey : Type := list Z.
Definition NostrEventId : Type := list Z.
Definition NostrSignature : Type := list Z.

Definition NostrPublicKey_from_hex (hex : list Z) : outcome NostrError NostrPublicKey := decode_fixed_lower_hex 32 hex.
Definition NostrSecretKey_from_hex (hex : list Z) : outcome NostrError NostrSecretKey := decode_fixed_lower_hex 32 hex.
Definition NostrEventId_from_hex (hex : list Z) : outcome NostrError NostrEventId := decode_fixed_lower_hex 32 hex.
Definition NostrSignature_from_hex (hex : list Z) : outcome NostrError NostrSignature := decode_fixed_lower_hex 64 hex.

Definition NostrPublicKey_write_hex (k : NostrPublicKey) : io (list Z) NostrError (list Z) := encode_lower_hex k.
Definition NostrEventId_write_hex (i : NostrEventId) : io (list Z) NostrError (list Z) := encode_lower_hex i.
Definition NostrSignature_write_hex (s : NostrSignature) : io (list Z) NostrError (list Z) := encode_lower_hex s.

(** A write into a fresh array [[0; n]] of the caller. *)
Definition in_array {E A} (n : Z) (m : io (list Z) E A) : outcome E A := fst (m (zeros n)).

(** ** Tags, filters *)
Definition NOSTR_SUBSCRIPTION_ID_MAX_LEN : Z := 64.

Definition NostrTagRef : Type := list (list Z).
Definition NostrTagsRef : Type := list NostrTagRef.

Definition NostrTagRef_new (values : list (list Z)) : outcome NostrError NostrTagRef :=
  if len values =? 0 then Err TagEmpty else Ok values.
Definition tag_name (tag : NostrTagRef) : outcome NostrError (list Z) := Prelude.index tag 0.
Definition tag_value (tag : NostrTagRef) : option (list Z) := tag !! 1%nat.

Record NostrFilter := mk_filter {
  nf_kinds : list Z;
  nf_authors : list NostrPublicKey;
  nf_p_tags : list NostrPublicKey;
  nf_since : option Z;
  nf_until : option Z;
  nf_limit : option Z;
}.
#[export] Instance NostrFilter_eq_dec : EqDecision NostrFilter. Proof. solve_decision. Defined.

Record NostrFilterTarget := mk_target {
  ft_kind : Z;
  ft_author : NostrPublicKey;
  ft_p_tags : list NostrPublicKey;
  ft_created_at : Z;
}.

Definition NostrFilter_empty : NostrFilter := mk_filter [] [] [] None None None.

(** [slice.contains(&x)] *)
Definition contains {A} `{EqDecision A} (l : list A) (x : A) : bool := existsb (fun y => bool_decide (y = x)) l.
(** [Option::is_none_or] *)
Definition is_none_or {A} (o : option A) (f : A -> bool) : bool := match o with None => true | Some a => f a end.

Definition has_any_p_tag (event_p_tags filter_p_tags : list NostrPublicKey) : bool :=
  existsb (fun filter_tag => contains event_p_tags filter_tag) filter_p_tags.

Definition matches_target (filter : NostrFilter) (target : NostrFilterTarget) : bool :=
  ((len (nf_kinds filter) =? 0) || contains (nf_kinds filter) (ft_kind target))
  && ((len (nf_authors filter) =? 0) || contains (nf_authors filter) (ft_author target))
  && ((len (nf_p_tags filter) =? 0) || has_any_p_tag (ft_p_tags target) (nf_p_tags filter))
  && is_none_or (nf_since filter) (fun since => ft_created_at target >=? since)
  && is_none_or (nf_until filter) (fun until => ft_created_at target <=? until).

Definition matches_any_filter (filters : list NostrFilter) (target : NostrFilterTarget) : bool :=
  existsb (fun filter => matches_target filter target) filters.

Definition validate_subscription_id (subscription_id : list Z) : outcome NostrError unit :=
  let n := len subscription_id in
  if n =? 0 then Err InvalidSubscriptionId
  else if n >? NOSTR_SUBSCRIPTION_ID_MAX_LEN then Err (SubscriptionIdTooLong n NOSTR_SUBSCRIPTION_ID_MAX_LEN)
  else Ok tt.

(** ** Events *)
Record NostrUnsignedEvent := mk_unsigned {
  ue_pubkey : NostrPublicKey;
  ue_created_at : Z;
  ue_kind : Z;
  ue_tags : NostrTagsRef;
  ue_content : list Z;
}.

Record NostrEvent := mk_event {
  ne_id : NostrEventId;
  ne_pubkey : NostrPublicKey;
  ne_created_at : Z;
  ne_kind : Z;
  ne_tags : NostrTagsRef;
  ne_content : list Z;
  ne_sig : NostrSignature;
}.
#[export] Instance NostrEvent_eq_dec : EqDecision NostrEvent. Proof. solve_decision. Defined.

Definition validate_content_len (content : list Z) : outcome NostrError unit :=
  let actual := len content in
  if actual >? HYF_NOSTR_MAX_CONTENT_CHARS then Err (ContentTooLarge actual HYF_NOSTR_MAX_CONTENT_CHARS) else Ok tt.

Definition NostrUnsignedEvent_new (pubkey : NostrPublicKey) (created_at kind : Z) (tags : NostrTagsRef)
    (content : list Z) : outcome NostrError NostrUnsignedEvent :=
  _ ← validate_content_len content;
  Ok (mk_unsigned pubkey created_at kind tags content).

Definition NostrEvent_new (id : NostrEventId) (pubkey : NostrPublicKey) (created_at kind : Z) (tags : NostrTagsRef)
    (content : list Z) (sig : NostrSignature) : outcome NostrError NostrEvent :=
  _ ← validate_content_len content;
  Ok (mk_event id pubkey created_at kind tags content sig).

Definition unsigned (e : NostrEvent) : NostrUnsignedEvent :=
  mk_unsigned (ne_pubkey e) (ne_created_at e) (ne_kind e) (ne_tags e) (ne_content e).

(** ** The canonical form *)
Definition write_canonical_to {S} `{CanonicalSink S NostrError} (event : NostrUnsignedEvent) : io S NostrError unit :=
  pubkey_hex ← lift (in_array 64 (NostrPublicKey_write_hex (ue_pubkey event)));
  _ ← push_byte 91;
  _ ← push_byte 48;
  _ ← push_byte 44;
  _ ← write_json_string pubkey_hex;
  _ ← push_byte 44;
  _ ← write_u64 (ue_created_at event);
  _ ← push_byte 44;
  _ ← write_u64 (ue_kind event);
  _ ← push_byte 44;
  _ ← write_tags (ue_tags event);
  _ ← push_byte 44;
  _ ← write_json_string (ue_content event);
  push_byte 93.

Definition write_canonical_event (event : NostrUnsignedEvent) : io (list Z) NostrError (list Z) := fun out =>
  match write_canonical_to event (BufferSink_new out) with
  | (Ok _, sink) => (BufferSink_finish sink, bs_out sink)
  | (Err e, sink) => (Err e, bs_out sink)
  | (Panic, sink) => (Panic, bs_out sink)
  end.

(** ** The primitives *)
Class NostrPrims := {
  sha256 : list Z -> list Z;
  SigningKey : Type;
  VerifyingKey : Type;
  Signature : Type;
  SigningKey_from_slice : list Z -> option SigningKey;
  verifying_key : SigningKey -> VerifyingKey;
  VerifyingKey_to_bytes : VerifyingKey -> list Z;
  VerifyingKey_from_slice : list Z -> option VerifyingKey;
  sign_raw : SigningKey -> list Z -> list Z -> option Signature;
  Signature_to_bytes : Signature -> list Z;
  Signature_from_slice : list Z -> option Signature;
  verify_raw : VerifyingKey -> list Z -> Signature -> bool;
}.

Class NostrPrimsLaws (P : NostrPrims) : Prop := {
  sha256_len : forall l, array_ok 32 (sha256 l);
  verifying_key_len : forall vk, array_ok 32 (VerifyingKey_to_bytes vk);
  verifying_key_parses : forall vk, VerifyingKey_from_slice (VerifyingKey_to_bytes vk) = Some vk;
  signature_len : forall s, array_ok 64 (Signature_to_bytes s);
  signature_parses : forall s, Signature_from_slice (Signature_to_bytes s) = Some s;
  signature_verifies : forall sk m aux s, sign_raw sk m aux = Some s -> verify_raw (verifying_key sk) m s = true;
}.

Section signing.
Context {P : NostrPrims}.

(** [to_array]: [finalize] gives 32 bytes. *)
Definition HashSink_finish (s : HashSink) : outcome NostrError (list Z) := to_array 32 (sha256 s).

Definition event_id (event : NostrUnsignedEvent) : outcome NostrError NostrEventId :=
  match write_canonical_to event HashSink_new with
  | (Ok _, sink) => HashSink_finish sink
  | (Err e, _) => Err e
  | (Panic, _) => Panic
  end.

Definition DETERMINISTIC_AUX_RAND : list Z := zeros 32.

Definition signing_key (secret : NostrSecretKey) : outcome NostrError SigningKey :=
  ok_or (SigningKey_from_slice secret) Crypto.

Definition public_key_from_signing_key (key : SigningKey) : outcome NostrError NostrPublicKey :=
  to_array 32 (VerifyingKey_to_bytes (verifying_key key)).

Definition derive_nostr_public_key (secret : NostrSecretKey) : outcome NostrError NostrPublicKey :=
  key ← signing_key secret;
  public_key_from_signing_key key.

Definition sign_event (event : NostrUnsignedEvent) (secret : NostrSecretKey) : outcome NostrError NostrEvent :=
  key ← signing_key secret;
  pubkey ← public_key_from_signing_key key;
  _ ← guard_err (negb (bool_decide (ue_pubkey event = pubkey))) PublicKeyMismatch;
  id ← event_id event;
  signature ← ok_or (sign_raw key id DETERMINISTIC_AUX_RAND) Crypto;
  signature_bytes ← to_array 64 (Signature_to_bytes signature);
  NostrEvent_new id (ue_pubkey event) (ue_created_at event) (ue_kind event) (ue_tags event) (ue_content event)
    signature_bytes.

Definition verify_event (event : NostrEvent) : outcome NostrError unit :=
  expected_id ← event_id (unsigned event);
  _ ← guard_err (negb (bool_decide (ne_id event = expected_id))) EventIdMismatch;
  key ← ok_or (VerifyingKey_from_slice (ne_pubkey event)) Crypto;
  signature ← ok_or (Signature_from_slice (ne_sig event)) InvalidSignature;
  guard_err (negb (verify_raw key (ne_id event) signature)) InvalidSignature.

(** ** Envelopes in events *)
Definition encode_hyf_envelope_content (bytes : list Z) : io (list Z) NostrError (list Z) :=
  if len bytes >? HYF_NOSTR_MAX_ENVELOPE_BYTES
  then lift (Err (EnvelopeTooLarge (len bytes) HYF_NOSTR_MAX_ENVELOPE_BYTES))
  else encode_lower_hex bytes.

Definition decode_hyf_envelope_content (content : list Z) : io (list Z) NostrError Z :=
  _ ← lift (validate_content_len content);
  decode_lower_hex content.

Definition HYF_NOSTR_TOPIC_TAG : list Z := str "hyf".
Definition HYF_NOSTR_ALT_TAG : list Z := str "hyf gateway envelope".

Record HyfNostrEventScratch := mk_scratch { sc_content : list Z; sc_recipient_hex : list Z }.
Definition HyfNostrEventScratch_new : HyfNostrEventScratch :=
  mk_scratch (zeros HYF_NOSTR_MAX_CONTENT_CHARS) (zeros 64).

Definition on_content {A} (m : io (list Z) NostrError A) : io HyfNostrEventScratch NostrError A :=
  focus sc_content (fun b s => mk_scratch b (sc_recipient_hex s)) m.
Definition on_recipient_hex {A} (m : io (list Z) NostrError A) : io HyfNostrEventScratch NostrError A :=
  focus sc_recipient_hex (fun b s => mk_scratch (sc_content s) b) m.

Definition with_signed_hyf_nostr_event {T} (encoded_envelope : list Z) (author_secret : NostrSecretKey)
    (recipient_pubkey : NostrPublicKey) (created_at : Z) (f : NostrEvent -> T) :
    io HyfNostrEventScratch NostrError T :=
  content ← on_content (encode_hyf_envelope_content encoded_envelope);
  recipient_hex ← on_recipient_hex (NostrPublicKey_write_hex recipient_pubkey);
  p_tag ← lift (NostrTagRef_new [str "p"; recipient_hex]);
  t_tag ← lift (NostrTagRef_new [str "t"; HYF_NOSTR_TOPIC_TAG]);
  alt_tag ← lift (NostrTagRef_new [str "alt"; HYF_NOSTR_ALT_TAG]);
  author_pubkey ← lift (derive_nostr_public_key author_secret);
  unsigned ← lift (NostrUnsignedEvent_new author_pubkey created_at HYF_NOSTR_ENVELOPE_KIND [p_tag; t_tag; alt_tag] content);
  event ← lift (sign_event unsigned author_secret);
  mret (f event).

Fixpoint has_p_tag (tags : NostrTagsRef) : outcome NostrError bool :=
  match tags with
  | [] => Ok false
  | tag :: tags =>
      name ← tag_name tag;
      if bool_decide (name = str "p") && match tag_value tag with Some value => negb (len value =? 0) | None => false end
      then Ok true else has_p_tag tags
  end.

Definition verify_and_decode_hyf_nostr_event (event : NostrEvent) : io (list Z) NostrError HyfEnvelopeRef :=
  _ ← lift (verify_event event);
  _ ← lift (guard_err (negb (ne_kind event =? HYF_NOSTR_ENVELOPE_KIND)) (UnexpectedKind HYF_NOSTR_ENVELOPE_KIND (ne_kind event)));
  p ← lift (has_p_tag (ne_tags event));
  _ ← lift (guard_err (negb p) (MissingRequiredTag "p"));
  n ← decode_hyf_envelope_content (ne_content event);
  out ← get;
  raw ← lift (slice out 0 n);
  lift (map_err (fun _ => MalformedEnvelope) (decode_envelope raw)).
End signing.

(** ** The canonical form of an event *)
Definition canonical (e : NostrUnsignedEvent) : list Z :=
  [91] ++ [48] ++ [44] ++ json_string (hex_bytes (ue_pubkey e)) ++ [44] ++ decimal (ue_created_at e) ++ [44] ++
  decimal (ue_kind e) ++ [44] ++ json_tags (ue_tags e) ++ [44] ++ json_string (ue_content e) ++ [93].

(** What the types guarantee. *)
Record unsigned_ok (e : NostrUnsignedEvent) : Prop := {
  uo_pubkey : array_ok 32 (ue_pubkey e);
  uo_created_at : u64_ok (ue_created_at e);
  uo_kind : u16_ok (ue_kind e);
  uo_tags : Forall (Forall str_ok) (ue_tags e);
  uo_content : str_ok (ue_content e);
}.

Lemma u16_u64 n : u16_ok n -> u64_ok n.
Proof. unfold u16_ok, u64_ok. lia. Qed.

Lemma hex_str_ok l : bytes_ok l -> str_ok (hex_bytes l).
Proof. intros H. split; [by apply hex_bytes_ok|]. unfold utf8_ok. by rewrite hex_bytes_utf8. Qed.

(** Hexadecimal into an array of the right length. *)
Lemma in_array_hex n l : array_ok n l -> n * 2 <= usize_MAX -> in_array (n * 2) (encode_lower_hex l) = Ok (hex_bytes l).
Proof.
  intros [<- Hb] Hn. unfold in_array. rewrite encode_lower_hex_spec by done. pose proof (len_nonneg l).
  rewrite len_zeros by lia. by rewrite Z.ltb_irrefl.
Qed.

Lemma emits_lift {S E} `{SinkLaws S E} {A} (o : outcome E A) a (f : A -> io S E unit) v :
  o = Ok a -> emits (f a) v -> emits (x ← lift o; f x) v.
Proof. intros -> Hf s Hs. rewrite lift_bind_ok. by apply Hf. Qed.

Lemma emits_canonical {S} `{SinkLaws S NostrError} e : unsigned_ok e -> emits (write_canonical_to e) (canonical e).
Proof.
  intros [Hpk Hc Hk Ht Hs]. unfold write_canonical_to, canonical.
  eapply emits_lift; [by apply (in_array_hex 32)|].
  pose proof (hex_str_ok _ (proj2 Hpk)). pose proof (u16_u64 _ Hk).
  repeat first [apply emits_byte | by apply emits_json_string | by apply emits_u64 | by apply emits_tags | apply emits_bind].
Qed.

(** *** It is a string *)
Lemma decimal_str n : 0 <= n -> str_ok (decimal n).
Proof.
  intros H. apply str_ok_ascii. eapply list.Forall_impl; [by apply decimal_ok|]. unfold is_digit. intros; simpl in *; lia.
Qed.

Ltac ascii := apply str_ok_ascii; repeat (apply list.Forall_cons; split; [lia|]); apply list.Forall_nil; done.

Lemma json_char_str c : scalar_ok c -> str_ok (json_char c).
Proof.
  intros H. unfold json_char. repeat case_match; try ascii; [|by apply str_ok_encode].
  apply str_ok_app; [ascii|]. change (hex_byte c) with (hex_bytes [c]). apply hex_str_ok.
  apply bytes_ok_cons. split; [|apply bytes_ok_nil]. rewrite Z.ltb_lt in *. unfold scalar_ok, u8_ok in *. lia.
Qed.

Lemma json_string_str s : str_ok s -> str_ok (json_string s).
Proof.
  intros Hs. destruct (chars_spec s Hs) as [Hc _]. unfold json_string. apply str_ok_app; [ascii|]. apply str_ok_app; [|ascii].
  apply str_ok_concat. apply Forall_map. eapply list.Forall_impl; [exact Hc|]. apply json_char_str.
Qed.

Lemma json_array_str l : Forall str_ok l -> str_ok (json_array l).
Proof.
  intros H. unfold json_array. apply str_ok_app; [ascii|]. apply str_ok_app; [|ascii].
  destruct H as [|x l Hx Hl]; [ascii|]. apply str_ok_app; [done|]. apply str_ok_concat, Forall_map.
  eapply list.Forall_impl; [exact Hl|]. intros y Hy. apply (str_ok_app [44]); [ascii|done].
Qed.

Lemma json_tags_str tags : Forall (Forall str_ok) tags -> str_ok (json_tags tags).
Proof.
  intros H. apply json_array_str, Forall_map. eapply list.Forall_impl; [exact H|]. intros t Ht.
  apply json_array_str, Forall_map. eapply list.Forall_impl; [exact Ht|]. apply json_string_str.
Qed.

Lemma canonical_str e : unsigned_ok e -> str_ok (canonical e).
Proof.
  intros [[_ Hpk] Hc Hk Ht Hs]. unfold canonical, u64_ok, u16_ok in *.
  repeat first [apply str_ok_app; [first [ascii | by apply json_string_str, hex_str_ok | apply decimal_str; lia |
    by apply json_tags_str | by apply json_string_str]|]]; ascii.
Qed.

(** *** It is unambiguous *)
Lemma canonical_inj e e' : unsigned_ok e -> unsigned_ok e' -> canonical e = canonical e' -> e = e'.
Proof.
  intros He He' E. destruct e as [pk c k t s], e' as [pk' c' k' t' s'].
  destruct He as [Hpk Hc Hk Ht Hs], He' as [Hpk' Hc' Hk' Ht' Hs']. unfold canonical in E. cbn [ue_pubkey ue_created_at ue_kind ue_tags ue_content] in *.
  do 3 apply app_inv_head in E. apply json_string_delimiting in E as [E1 E]; [|by apply hex_str_ok, Hpk|by apply hex_str_ok, Hpk'].
  apply app_inv_head, decimal_span in E as (-> & _ & E); [|done|done|by unfold is_digit; lia..].
  apply decimal_span in E as (-> & _ & E); [|by apply u16_u64..|by unfold is_digit; lia|by unfold is_digit; lia].
  apply json_tags_delimiting in E as [-> E]; [|done..]. apply app_inv_head, json_string_delimiting in E as [-> _]; [|done..]. f_equal.
  pose proof (decode_fixed_hex_ok 32 pk Hpk) as D. rewrite E1, (decode_fixed_hex_ok 32 pk' Hpk') in D. by injection D.
Qed.

(** The canonical form in a buffer: all of it or an error. *)
Lemma write_canonical_event_spec e out :
  unsigned_ok e -> len out <= usize_MAX ->
  if len (canonical e) <=? len out
  then write_canonical_event e out = (Ok (canonical e), canonical e ++ drop (length (canonical e)) out)
  else exists err out', write_canonical_event e out = (Err err, out').
Proof.
  intros He Hmax. unfold write_canonical_event.
  pose proof (emits_sink (write_canonical_to e) (canonical e) out (emits_canonical e He) Hmax) as H.
  destruct (len (canonical e) <=? len out).
  - rewrite H. by rewrite BufferSink_finish_ok by by apply canonical_str.
  - destruct H as (err & s' & ->). by eexists _, _.
Qed.

(** ** Identifiers and signatures *)
Section signing_lemmas.
Context {P : NostrPrims} `{!NostrPrimsLaws P}.

Lemma event_id_ok e : unsigned_ok e -> event_id e = Ok (sha256 (canonical e)).
Proof.
  intros He. unfold event_id. pose proof (emits_canonical (S:=HashSink) e He HashSink_new I) as H.
  unfold sink_write, HashSink_sink, HashSink_write, HashSink_new in *. cbn [app] in H. rewrite H.
  apply to_array_ok, sha256_len.
Qed.

(** What signing gives, on every branch. *)
Lemma sign_event_spec e secret :
  unsigned_ok e ->
  match sign_event e secret with
  | Ok ev => exists sk s, SigningKey_from_slice secret = Some sk /\ ue_pubkey e = VerifyingKey_to_bytes (verifying_key sk) /\
      sign_raw sk (sha256 (canonical e)) DETERMINISTIC_AUX_RAND = Some s /\ len (ue_content e) <= HYF_NOSTR_MAX_CONTENT_CHARS /\
      ev = mk_event (sha256 (canonical e)) (ue_pubkey e) (ue_created_at e) (ue_kind e) (ue_tags e) (ue_content e) (Signature_to_bytes s)
  | Err err =>
      err = Crypto /\ SigningKey_from_slice secret = None \/
      exists sk, SigningKey_from_slice secret = Some sk /\
        (err = PublicKeyMismatch /\ ue_pubkey e <> VerifyingKey_to_bytes (verifying_key sk) \/
         err = Crypto /\ sign_raw sk (sha256 (canonical e)) DETERMINISTIC_AUX_RAND = None \/
         err = ContentTooLarge (len (ue_content e)) HYF_NOSTR_MAX_CONTENT_CHARS /\ HYF_NOSTR_MAX_CONTENT_CHARS < len (ue_content e))
  | Panic => False
  end.
Proof.
  intros He. unfold sign_event, signing_key. destruct (SigningKey_from_slice secret) as [sk|] eqn:Hsk; [|by left].
  cbn [ok_or mbind outcome_bind]. unfold public_key_from_signing_key. rewrite to_array_ok by apply verifying_key_len.
  cbn [mbind outcome_bind]. case_bool_decide as Hpk; cbn [negb guard_err mbind outcome_bind]; [|by right; exists sk; eauto].
  rewrite event_id_ok by done. cbn [mbind outcome_bind].
  destruct (sign_raw sk _ _) as [s|] eqn:Hs; cbn [ok_or mbind outcome_bind]; [|by right; exists sk; eauto].
  rewrite to_array_ok by apply signature_len. cbn [mbind outcome_bind]. unfold NostrEvent_new, validate_content_len. cbv zeta.
  rewrite Z.gtb_ltb. destruct (Z.ltb_spec HYF_NOSTR_MAX_CONTENT_CHARS (len (ue_content e))); cbn [mbind outcome_bind]; [right; exists sk; eauto 6|].
  by exists sk, s.
Qed.

Lemma verify_event_spec ev :
  unsigned_ok (unsigned ev) ->
  verify_event ev =
    if bool_decide (ne_id ev = sha256 (canonical (unsigned ev))) then
      match VerifyingKey_from_slice (ne_pubkey ev), Signature_from_slice (ne_sig ev) with
      | Some vk, Some s => if verify_raw vk (ne_id ev) s then Ok tt else Err InvalidSignature
      | Some _, None => Err InvalidSignature
      | None, _ => Err Crypto
      end
    else Err EventIdMismatch.
Proof.
  intros He. unfold verify_event. rewrite event_id_ok by done. cbn [mbind outcome_bind].
  case_bool_decide; cbn [negb guard_err mbind outcome_bind]; [|done].
  destruct (VerifyingKey_from_slice _); [|done]. cbn [ok_or mbind outcome_bind].
  destruct (Signature_from_slice _); [|done]. cbn [ok_or mbind outcome_bind]. by destruct (verify_raw _ _ _).
Qed.

Lemma unsigned_signed e i s :
  unsigned (mk_event i (ue_pubkey e) (ue_created_at e) (ue_kind e) (ue_tags e) (ue_content e) s) = e.
Proof. by destruct e. Qed.

Lemma sign_then_verify e secret ev : unsigned_ok e -> sign_event e secret = Ok ev -> unsigned ev = e /\ verify_event ev = Ok tt.
Proof.
  intros He H. pose proof (sign_event_spec e secret He) as Hs. rewrite H in Hs.
  destruct Hs as (sk & s & Hsk & Hpk & Hr & _ & ->). split; [apply unsigned_signed|].
  rewrite verify_event_spec; rewrite unsigned_signed; [|done]. cbn [ne_id ne_pubkey ne_sig].
  rewrite bool_decide_eq_true_2 by done. rewrite Hpk, verifying_key_parses, signature_parses.
  by erewrite signature_verifies.
Qed.

(** The canonical form of an event is unambiguous, and it is what its
    identifier is the digest of: the buffer writer gives exactly the form or an
    error, the identifier is the SHA-256 of the form, and two well-formed events
    with the same form are the same event, so that the same identifier for
    different events exhibits a collision of SHA-256. *)
Theorem event_id_binds e e' :
  unsigned_ok e -> unsigned_ok e' ->
  (forall out, len (canonical e) <= len out <= usize_MAX ->
     write_canonical_event e out = (Ok (canonical e), canonical e ++ drop (length (canonical e)) out)) /\
  event_id e = Ok (sha256 (canonical e)) /\
  (canonical e = canonical e' -> e = e') /\
  (event_id e = event_id e' -> e <> e' ->
     canonical e <> canonical e' /\ sha256 (canonical e) = sha256 (canonical e')).
Proof.
  intros He He'. split_and!.
  - intros out [Hl Hmax]. pose proof (write_canonical_event_spec e out He Hmax) as H. apply Z.leb_le in Hl. by rewrite Hl in H.
  - by apply event_id_ok.
  - by apply canonical_inj.
  - rewrite !event_id_ok by done. intros [= E] Hne. split; [|done]. intros H. by apply Hne, canonical_inj.
Qed.

(** Signing and verifying: signing fails only for a secret that is not a
    key, for a public key that is not the secret's, for content over the limit
    and where the signature scheme refuses; a signed event carries the fields it
    was made of and the digest of their canonical form, and it verifies. *)
Theorem sign_event_verifies e secret :
  unsigned_ok e ->
  match sign_event e secret with
  | Ok ev => unsigned ev = e /\ ne_id ev = sha256 (canonical e) /\ verify_event ev = Ok tt
  | Err err =>
      err = Crypto \/ err = PublicKeyMismatch \/
      err = ContentTooLarge (len (ue_content e)) HYF_NOSTR_MAX_CONTENT_CHARS
  | Panic => False
  end.
Proof.
  intros He. pose proof (sign_event_spec e secret He) as Hs. destruct (sign_event e secret) as [ev|err|] eqn:H; [| |done].
  - destruct (sign_then_verify e secret ev He H). destruct Hs as (sk & s & _ & _ & _ & _ & ->). done.
  - destruct Hs as [[-> _]|(sk & _ & [[-> _]|[[-> _]|[-> _]]])]; auto.
Qed.

(** C15. No altered event is accepted under an identifier: two events that
    verify and have the same identifier agree on every signed field, or their
    canonical forms are a collision of SHA-256. *)
Theorem verified_event_unaltered ev ev' :
  unsigned_ok (unsigned ev) -> unsigned_ok (unsigned ev') ->
  verify_event ev = Ok tt -> verify_event ev' = Ok tt -> ne_id ev = ne_id ev' ->
  unsigned ev = unsigned ev' \/
  canonical (unsigned ev) <> canonical (unsigned ev') /\ sha256 (canonical (unsigned ev)) = sha256 (canonical (unsigned ev')).
Proof.
  intros He He' H H' E. rewrite verify_event_spec in H, H' by done.
  case_bool_decide as Hi; [|done]. case_bool_decide as Hi'; [|done].
  destruct (decide (canonical (unsigned ev) = canonical (unsigned ev'))); [left; by apply canonical_inj|right; split; [done|congruence]].
Qed.
End signing_lemmas.

(** ** Envelopes in events *)
Lemma literal_str s : bool_decide (Forall (fun b => 0 <= b < 128) (str s)) = true -> str_ok (str s).
Proof. intros H. apply bool_decide_eq_true in H. by apply str_ok_ascii. Qed.

Lemma NostrTagRef_new_cons v vs : NostrTagRef_new (v :: vs) = Ok (v :: vs).
Proof. unfold NostrTagRef_new. rewrite len_cons. pose proof (len_nonneg vs). by destruct (Z.eqb_spec (1 + len vs) 0); [lia|]. Qed.

Lemma focus_eq {S T E A} (g : S -> T) (p : T -> S -> S) (m : io T E A) s r t :
  m (g s) = (r, t) -> focus g p m s = (r, p t s).
Proof. unfold focus. by intros ->. Qed.

Section hyf_lemmas.
Context {P : NostrPrims} `{!NostrPrimsLaws P}.

Lemma derive_spec secret :
  derive_nostr_public_key secret =
    match SigningKey_from_slice secret with
    | Some sk => Ok (VerifyingKey_to_bytes (verifying_key sk))
    | None => Err Crypto
    end.
Proof.
  unfold derive_nostr_public_key, signing_key. destruct (SigningKey_from_slice secret); [|done].
  cbn [ok_or mbind outcome_bind]. apply to_array_ok, verifying_key_len.
Qed.

(** The event made for an envelope, before it is signed. *)
Definition hyf_unsigned (raw pubkey recipient : list Z) (created_at : Z) : NostrUnsignedEvent :=
  mk_unsigned pubkey created_at HYF_NOSTR_ENVELOPE_KIND
    [[str "p"; hex_bytes recipient]; [str "t"; HYF_NOSTR_TOPIC_TAG]; [str "alt"; HYF_NOSTR_ALT_TAG]] (hex_bytes raw).

Lemma hyf_unsigned_ok raw pubkey recipient created_at :
  bytes_ok raw -> array_ok 32 pubkey -> array_ok 32 recipient -> u64_ok created_at ->
  unsigned_ok (hyf_unsigned raw pubkey recipient created_at).
Proof.
  intros Hr Hp [_ Hre] Hc. constructor; cbn [hyf_unsigned ue_pubkey ue_created_at ue_kind ue_tags ue_content].
  - done.
  - done.
  - unfold u16_ok, HYF_NOSTR_ENVELOPE_KIND. lia.
  - unfold HYF_NOSTR_TOPIC_TAG, HYF_NOSTR_ALT_TAG.
    repeat (apply list.Forall_cons; split); try apply list.Forall_nil; try done;
      first [by apply hex_str_ok | by apply literal_str; vm_compute].
  - by apply hex_str_ok.
Qed.

Lemma encode_content_spec raw out :
  bytes_ok raw -> len out = HYF_NOSTR_MAX_CONTENT_CHARS ->
  encode_hyf_envelope_content raw out =
    if len raw >? HYF_NOSTR_MAX_ENVELOPE_BYTES then (Err (EnvelopeTooLarge (len raw) HYF_NOSTR_MAX_ENVELOPE_BYTES), out)
    else (Ok (hex_bytes raw), hex_bytes raw ++ drop (Z.to_nat (len raw * 2)) out).
Proof.
  intros Hb Ho. unfold encode_hyf_envelope_content. destruct (len raw >? HYF_NOSTR_MAX_ENVELOPE_BYTES) eqn:E; [done|].
  rewrite Z.gtb_ltb, Z.ltb_ge in E. unfold HYF_NOSTR_MAX_CONTENT_CHARS, HYF_NOSTR_MAX_ENVELOPE_BYTES in *.
  rewrite encode_lower_hex_spec; [|done|unfold usize_MAX; lia]. by destruct (Z.ltb_spec (len out) (len raw * 2)); [lia|].
Qed.

Definition scratch_ok (s : HyfNostrEventScratch) : Prop :=
  len (sc_content s) = HYF_NOSTR_MAX_CONTENT_CHARS /\ len (sc_recipient_hex s) = 64.

(** Making the event is signing [hyf_unsigned]. *)
Lemma with_signed_spec {T} raw secret recipient created_at (f : NostrEvent -> T) s :
  bytes_ok raw -> array_ok 32 recipient -> scratch_ok s ->
  exists s', scratch_ok s' /\
  with_signed_hyf_nostr_event raw secret recipient created_at f s =
    (if len raw >? HYF_NOSTR_MAX_ENVELOPE_BYTES then Err (EnvelopeTooLarge (len raw) HYF_NOSTR_MAX_ENVELOPE_BYTES)
     else match SigningKey_from_slice secret with
          | None => Err Crypto
          | Some sk => ev ← sign_event (hyf_unsigned raw (VerifyingKey_to_bytes (verifying_key sk)) recipient created_at) secret; Ok (f ev)
          end, s').
Proof.
  intros Hb [Hl Hre] [Hc Hr]. unfold with_signed_hyf_nostr_event, on_content. pose proof (encode_content_spec raw _ Hb Hc) as He.
  destruct (len raw >? HYF_NOSTR_MAX_ENVELOPE_BYTES) eqn:E.
  { eexists. split; [|erewrite io_bind_err by (by apply focus_eq); reflexivity]. done. }
  rewrite Z.gtb_ltb, Z.ltb_ge in E. unfold HYF_NOSTR_MAX_CONTENT_CHARS, HYF_NOSTR_MAX_ENVELOPE_BYTES in *. pose proof (len_nonneg raw).
  erewrite io_bind_ok by (by apply focus_eq). unfold on_recipient_hex, NostrPublicKey_write_hex.
  erewrite io_bind_ok by (apply focus_eq; cbn [sc_recipient_hex]; rewrite encode_lower_hex_spec by (unfold usize_MAX; lia || done);
    rewrite Hl, Hr; reflexivity).
  rewrite !NostrTagRef_new_cons, !lift_bind_ok, derive_spec. eexists.
  destruct (SigningKey_from_slice secret) as [sk|]; [rewrite lift_bind_ok|]; (split; [|try reflexivity]).
  1, 3: unfold scratch_ok; cbn [sc_content sc_recipient_hex]; rewrite !len_app, !hex_bytes_len, !len_drop; unfold HYF_NOSTR_MAX_CONTENT_CHARS, HYF_NOSTR_MAX_ENVELOPE_BYTES; lia.
  unfold NostrUnsignedEvent_new, validate_content_len. cbv zeta. rewrite hex_bytes_len, Z.gtb_ltb.
  destruct (Z.ltb_spec HYF_NOSTR_MAX_CONTENT_CHARS (len raw * 2)); [unfold HYF_NOSTR_MAX_CONTENT_CHARS, HYF_NOSTR_MAX_ENVELOPE_BYTES in *; lia|].
  cbn [mbind outcome_bind]. rewrite lift_bind_ok. fold (hyf_unsigned raw (VerifyingKey_to_bytes (verifying_key sk)) recipient created_at).
  unfold lift, mbind, io_bind. cbn [outcome_bind mret io_ret]. by destruct (sign_event _ secret).
Qed.

Lemma has_p_tag_hyf recipient rest : array_ok 32 recipient -> has_p_tag ([str "p"; hex_bytes recipient] :: rest) = Ok true.
Proof.
  intros [Hl _]. cbn [has_p_tag]. unfold tag_name. rewrite index_0. cbn [mbind outcome_bind tag_value lookup list_lookup].
  rewrite bool_decide_eq_true_2 by done. rewrite hex_bytes_len, Hl. done.
Qed.

(** What the receiver makes of an event that verifies and carries [raw]. *)
Lemma verify_and_decode_hyf ev raw pubkey recipient created_at out :
  bytes_ok raw -> len raw <= HYF_NOSTR_MAX_ENVELOPE_BYTES -> array_ok 32 recipient -> len raw <= len out ->
  verify_event ev = Ok tt -> unsigned ev = hyf_unsigned raw pubkey recipient created_at ->
  verify_and_decode_hyf_nostr_event ev out =
    (map_err (fun _ => MalformedEnvelope) (decode_envelope raw), raw ++ drop (length raw) out).
Proof.
  intros Hb Hl Hre Ho Hv Hu. unfold hyf_unsigned in Hu.
  assert (ne_kind ev = HYF_NOSTR_ENVELOPE_KIND) as Hk by (by injection Hu).
  assert (ne_content ev = hex_bytes raw) as Hc by (by injection Hu).
  assert (exists rest, ne_tags ev = [str "p"; hex_bytes recipient] :: rest) as [rest Ht] by (eexists; by injection Hu).
  unfold verify_and_decode_hyf_nostr_event. rewrite Hv, Hk, Hc, Ht, lift_bind_ok, Z.eqb_refl. cbn [negb]. rewrite guard_false by done.
  rewrite has_p_tag_hyf by done. rewrite lift_bind_ok. cbn [negb]. rewrite guard_false by done.
  unfold decode_hyf_envelope_content, validate_content_len. cbv zeta. rewrite hex_bytes_len, Z.gtb_ltb.
  destruct (Z.ltb_spec HYF_NOSTR_MAX_CONTENT_CHARS (len raw * 2)); [unfold HYF_NOSTR_MAX_CONTENT_CHARS, HYF_NOSTR_MAX_ENVELOPE_BYTES in *; lia|].
  erewrite io_bind_ok.
  2: { rewrite lift_bind_ok, decode_lower_hex_bytes by done. destruct (Z.ltb_spec (len out) (len raw)); [lia|done]. }
  rewrite get_bind, slice_app_first by done. by rewrite lift_bind_ok.
Qed.

(** An envelope makes the journey: with a scratch of the declared sizes, an
    envelope of at most 2048 bytes becomes, unless the secret is not a key or the
    scheme refuses to sign, an event that verifies, and the receiver decodes from
    it what [decode_envelope] makes of the envelope's bytes, into a buffer just
    large enough; a larger envelope is refused with its size. *)
Theorem hyf_event_roundtrip {T} raw secret recipient created_at (f : NostrEvent -> T) s :
  bytes_ok raw -> array_ok 32 recipient -> u64_ok created_at -> scratch_ok s ->
  match fst (with_signed_hyf_nostr_event raw secret recipient created_at f s) with
  | Ok r => exists ev, r = f ev /\ ne_created_at ev = created_at /\ verify_event ev = Ok tt /\
      forall out, len raw <= len out ->
        verify_and_decode_hyf_nostr_event ev out =
          (map_err (fun _ => MalformedEnvelope) (decode_envelope raw), raw ++ drop (length raw) out)
  | Err e => e = EnvelopeTooLarge (len raw) HYF_NOSTR_MAX_ENVELOPE_BYTES /\ HYF_NOSTR_MAX_ENVELOPE_BYTES < len raw \/
      e = Crypto /\ len raw <= HYF_NOSTR_MAX_ENVELOPE_BYTES
  | Panic => False
  end.
Proof.
  intros Hb Hre Hc Hs. destruct (with_signed_spec raw secret recipient created_at f s Hb Hre Hs) as (s' & _ & ->). cbn [fst].
  rewrite Z.gtb_ltb. destruct (Z.ltb_spec HYF_NOSTR_MAX_ENVELOPE_BYTES (len raw)) as [Hl|Hl]; [by left|].
  destruct (SigningKey_from_slice secret) as [sk|] eqn:Hsk; [|by right].
  set (e := hyf_unsigned _ _ _ _). assert (unsigned_ok e) as He by (by apply hyf_unsigned_ok; [|apply verifying_key_len|..]).
  pose proof (sign_event_spec e secret He) as Hspec. destruct (sign_event e secret) as [ev|err|] eqn:Hev; cbn [mbind outcome_bind]; [| |done].
  - destruct (sign_then_verify e secret ev He Hev) as [Hu Hv]. exists ev. split_and!; [done| |done|].
    + subst e. unfold hyf_unsigned in Hu. by injection Hu.
    + intros out Ho. by eapply verify_and_decode_hyf.
  - destruct Hspec as [[-> _]|(sk' & E & Hx)]; [by right|]. rewrite Hsk in E. injection E as <-.
    destruct Hx as [[_ H]|[[-> _]|[_ H]]]; [|by right|].
    + by destruct H.
    + subst e. cbn [hyf_unsigned ue_content] in H. rewrite hex_bytes_len in H.
      unfold HYF_NOSTR_MAX_CONTENT_CHARS, HYF_NOSTR_MAX_ENVELOPE_BYTES in *. lia.
Qed.
End hyf_lemmas.

(** ** Witnesses *)
(** A scheme with two keys, for evaluation only. *)
Definition toy_sha (l : list Z) : list Z := to_be_bytes 32 (fold_left (fun acc b => acc * 31 + b) l 7).
Definition toy_bytes (n : nat) (b : bool) : list Z := replicate n (Z.b2z b).
Definition toy_parse (n : nat) (l : list Z) : option bool :=
  if bool_decide (l = toy_bytes n true) then Some true else if bool_decide (l = toy_bytes n false) then Some false else None.

#[export] Instance toy_nostr : NostrPrims := {|
  sha256 := toy_sha;
  SigningKey := bool;
  VerifyingKey := bool;
  Signature := bool;
  SigningKey_from_slice l := toy_parse 32 l;
  verifying_key sk := negb sk;
  VerifyingKey_to_bytes := toy_bytes 32;
  VerifyingKey_from_slice := toy_parse 32;
  sign_raw sk m aux := Some (xorb sk (Z.odd (fold_left Z.add m 0)));
  Signature_to_bytes := toy_bytes 64;
  Signature_from_slice := toy_parse 64;
  verify_raw vk m s := eqb s (xorb (negb vk) (Z.odd (fold_left Z.add m 0)));
|}.

Lemma toy_bytes_ok n b : array_ok (Z.of_nat n) (toy_bytes n b).
Proof.
  unfold toy_bytes. split; [by rewrite len_replicate|]. apply Forall_replicate. destruct b; unfold u8_ok; cbn; lia.
Qed.
Lemma toy_parse_ok n b : (0 < n)%nat -> toy_parse n (toy_bytes n b) = Some b.
Proof.
  intros Hn. unfold toy_parse, toy_bytes. destruct n as [|n]; [lia|]. cbn [replicate].
  destruct b; [by rewrite bool_decide_eq_true_2|]. rewrite bool_decide_eq_false_2 by done. by rewrite bool_decide_eq_true_2.
Qed.
#[export] Instance toy_nostr_laws : NostrPrimsLaws toy_nostr.
Proof.
  split; cbn [sha256 toy_nostr VerifyingKey_to_bytes VerifyingKey_from_slice Signature_to_bytes Signature_from_slice VerifyingKey Signature].
  - intros l. split; [apply len_to_be_bytes|apply to_be_bytes_ok].
  - intros vk. apply (toy_bytes_ok 32).
  - intros vk. by apply toy_parse_ok; lia.
  - intros s. apply (toy_bytes_ok 64).
  - intros s. by apply toy_parse_ok; lia.
  - intros sk m aux s. cbn. intros [= <-]. rewrite negb_involutive. by apply eqb_true_iff.
Qed.

Definition sample_secret : NostrSecretKey := toy_bytes 32 true.
Definition sample_unsigned (content : string) : NostrUnsignedEvent :=
  mk_unsigned (toy_bytes 32 false) 1700000000 1 [[str "t"; str "hyf"]; [str "p"]] (str content).

Lemma sample_unsigned_ok : unsigned_ok (sample_unsigned "a b").
Proof.
  constructor; [apply (toy_bytes_ok 32)|unfold u64_ok; cbn; lia|unfold u16_ok; cbn; lia| |by apply literal_str; vm_compute].
  repeat (apply list.Forall_cons; split); try apply list.Forall_nil; try done; by apply literal_str; vm_compute.
Qed.

(** The sample content holds a quote and a line feed. *)
Definition sample_event : NostrUnsignedEvent :=
  mk_unsigned (toy_bytes 32 false) 1700000000 1 [[str "t"; str "hyf"]; [str "p"]] [97; 34; 10].

Lemma sample_event_ok : unsigned_ok sample_event.
Proof.
  constructor; [apply (toy_bytes_ok 32)|unfold u64_ok; cbn; lia|unfold u16_ok; cbn; lia| |].
  - repeat (apply list.Forall_cons; split); try apply list.Forall_nil; try done; by apply literal_str; vm_compute.
  - apply str_ok_ascii. apply (bool_decide_unpack _). by vm_compute.
Qed.

Lemma event_id_binds_witness :
  exists i, event_id sample_event = Ok i /\ event_id (sample_unsigned "a b") <> Ok i.
Proof.
  pose proof (event_id_binds sample_event (sample_unsigned "a b") sample_event_ok sample_unsigned_ok) as H.
  eexists. split; [exact (proj1 (proj2 H))|]. vm_compute. intros [=].
Defined.

Definition sample_signed : NostrEvent :=
  match sign_event sample_event sample_secret with Ok ev => ev | _ => mk_event [] [] 0 0 [] [] [] end.

Lemma sign_event_verifies_witness : sign_event sample_event sample_secret = Ok sample_signed /\ verify_event sample_signed = Ok tt.
Proof.
  assert (sign_event sample_event sample_secret = Ok sample_signed) as E by (vm_compute; reflexivity).
  pose proof (sign_event_verifies sample_event sample_secret sample_event_ok) as H. rewrite E in H.
  split; [exact E|exact (proj2 (proj2 H))].
Defined.

Lemma verified_event_unaltered_witness :
  verify_event sample_signed = Ok tt /\
  (unsigned sample_signed = unsigned sample_signed \/ canonical (unsigned sample_signed) <> canonical (unsigned sample_signed) /\
   sha256 (canonical (unsigned sample_signed)) = sha256 (canonical (unsigned sample_signed))).
Proof.
  assert (verify_event sample_signed = Ok tt) as Hv by (vm_compute; reflexivity).
  assert (unsigned sample_signed = sample_event) as Hu by (vm_compute; reflexivity).
  assert (unsigned_ok (unsigned sample_signed)) as Ho by (rewrite Hu; exact sample_event_ok).
  split; [exact Hv|exact (verified_event_unaltered sample_signed sample_signed Ho Ho Hv Hv eq_refl)].
Defined.

Definition hyf_signed : NostrEvent :=
  match fst (with_signed_hyf_nostr_event (envelope_bytes sample_envelope) sample_secret (toy_bytes 32 true) 7 id HyfNostrEventScratch_new) with
  | Ok ev => ev
  | _ => sample_signed
  end.

Lemma hyf_event_roundtrip_witness : fst (verify_and_decode_hyf_nostr_event hyf_signed (zeros 200)) = Ok sample_envelope.
Proof.
  assert (bytes_ok (envelope_bytes sample_envelope)) as Hb by (apply (bool_decide_unpack _); vm_compute; exact I).
  assert (scratch_ok HyfNostrEventScratch_new) as Hs by (split; vm_compute; reflexivity).
  assert (u64_ok 7) as Ht by (unfold u64_ok; lia).
  pose proof (hyf_event_roundtrip (envelope_bytes sample_envelope) sample_secret (toy_bytes 32 true) 7 id HyfNostrEventScratch_new
    Hb (toy_bytes_ok 32 true) Ht Hs) as H.
  assert (fst (with_signed_hyf_nostr_event (envelope_bytes sample_envelope) sample_secret (toy_bytes 32 true) 7 id HyfNostrEventScratch_new) =
    Ok hyf_signed) as E by (vm_compute; reflexivity).
  rewrite E in H. destruct H as (ev & Hev & _ & _ & H). change (hyf_signed = ev) in Hev. subst ev.
  rewrite H by (vm_compute; discriminate). vm_compute. reflexivity.
Defined.
