(* ===== verification/NostrMessages.v ===== *)
(** [hyf_link_nostr::messages], the messages half: what clients and relays
    write to each other and how it is read back
    (src/crates/hyf_link_nostr/src/messages.rs).

    The file's [JsonWriter] is the buffer of the canonical form again
    ([NostrJson.BufferSink]); the reader is the parser of [NostrParser] followed
    by lookups in the value it returns.  The borrowed and the owned messages of
    the source hold the same data and are one type here.  [client_value] and
    [relay_value] are the JSON value a message stands for: the writers write its
    compact form, the decoders read the message back from any text of it. *)
From S2P Require Import Prelude Utf8 Cursor NostrHex NostrJson NostrParser Nostr.
From stdpp Require Import strings.

Open Scope Z_scope.

(** ** Messages *)
(** [String] and [Vec] for [&str] and slices. *)
Definition NostrOwnedEvent : Type := NostrEvent.
Definition NostrOwnedFilter : Type := NostrFilter.

Inductive NostrClientMessage :=
| ClientEvent (event : NostrEvent)
| ClientReq (subscription_id : list Z) (filters : list NostrFilter)
| ClientClose (subscription_id : list Z)
| ClientAuth (event : NostrEvent).
#[export] Instance NostrClientMessage_eq_dec : EqDecision NostrClientMessage. Proof. solve_decision. Defined.
Definition NostrOwnedClientMessage : Type := NostrClientMessage.

Inductive NostrRelayMessage :=
| RelayEvent (subscription_id : list Z) (event : NostrEvent)
| RelayOk (event_id : NostrEventId) (accepted : bool) (message : list Z)
| RelayEose (subscription_id : list Z)
| RelayClosed (subscription_id message : list Z)
| RelayNotice (message : list Z)
| RelayAuth (challenge : list Z).
#[export] Instance NostrRelayMessage_eq_dec : EqDecision NostrRelayMessage. Proof. solve_decision. Defined.
Definition NostrOwnedRelayMessage : Type := NostrRelayMessage.

(** ** Writing *)
Definition JsonWriter : Type := BufferSink.
Definition JsonWriter_new (out : list Z) : JsonWriter := BufferSink_new out.

Definition write_bytes (bytes : list Z) : io JsonWriter NostrError unit := BufferSink_write bytes.
Definition push_byte (byte : Z) : io JsonWriter NostrError unit := NostrJson.push_byte byte.
Definition write_str (value : list Z) : io JsonWriter NostrError unit := write_bytes value.
Definition write_bool (value : bool) : io JsonWriter NostrError unit :=
  if value then write_str (str "true") else write_str (str "false").
Definition write_json_string (value : list Z) : io JsonWriter NostrError unit := NostrJson.write_json_string value.
Definition write_control_escape (character : Z) : io JsonWriter NostrError unit := NostrJson.write_control_escape character.
Definition write_u64 (value : Z) : io JsonWriter NostrError unit := NostrJson.write_u64 value.
Definition write_tags (tags : NostrTagsRef) : io JsonWriter NostrError unit := NostrJson.write_tags tags.
Definition JsonWriter_finish (w : JsonWriter) : outcome NostrError (list Z) := BufferSink_finish w.

Definition write_event (event : NostrEvent) : io JsonWriter NostrError unit :=
  id ← lift (in_array 64 (NostrEventId_write_hex (ne_id event)));
  pubkey ← lift (in_array 64 (NostrPublicKey_write_hex (ne_pubkey event)));
  signature ← lift (in_array 128 (NostrSignature_write_hex (ne_sig event)));
  _ ← push_byte 123;
  _ ← write_json_string (str "id");
  _ ← push_byte 58;
  _ ← write_json_string id;
  _ ← push_byte 44;
  _ ← write_json_string (str "pubkey");
  _ ← push_byte 58;
  _ ← write_json_string pubkey;
  _ ← push_byte 44;
  _ ← write_json_string (str "created_at");
  _ ← push_byte 58;
  _ ← write_u64 (ne_created_at event);
  _ ← push_byte 44;
  _ ← write_json_string (str "kind");
  _ ← push_byte 58;
  _ ← write_u64 (ne_kind event);
  _ ← push_byte 44;
  _ ← write_json_string (str "tags");
  _ ← push_byte 58;
  _ ← write_tags (ne_tags event);
  _ ← push_byte 44;
  _ ← write_json_string (str "content");
  _ ← push_byte 58;
  _ ← write_json_string (ne_content event);
  _ ← push_byte 44;
  _ ← write_json_string (str "sig");
  _ ← push_byte 58;
  _ ← write_json_string signature;
  push_byte 125.

(** [wrote] is the flag behind the mutable reference: taken and returned. *)
Definition write_field_separator (wrote : bool) : io JsonWriter NostrError bool :=
  _ ← (if wrote then push_byte 44 else mret tt);
  mret true.

Definition write_number_array_field (name : list Z) (values : list Z) (wrote : bool) : io JsonWriter NostrError bool :=
  if len values =? 0 then mret wrote
  else
    wrote ← write_field_separator wrote;
    _ ← write_json_string name;
    _ ← push_byte 58;
    _ ← push_byte 91;
    _ ← write_separated write_u64 0 values;
    _ ← push_byte 93;
    mret wrote.

Definition write_key (value : NostrPublicKey) : io JsonWriter NostrError unit :=
  hex ← lift (in_array 64 (NostrPublicKey_write_hex value));
  write_json_string hex.

Definition write_key_array_field (name : list Z) (values : list NostrPublicKey) (wrote : bool) : io JsonWriter NostrError bool :=
  if len values =? 0 then mret wrote
  else
    wrote ← write_field_separator wrote;
    _ ← write_json_string name;
    _ ← push_byte 58;
    _ ← push_byte 91;
    _ ← write_separated write_key 0 values;
    _ ← push_byte 93;
    mret wrote.

Definition write_optional_u64_field (name : list Z) (value : option Z) (wrote : bool) : io JsonWriter NostrError bool :=
  match value with
  | None => mret wrote
  | Some value =>
      wrote ← write_field_separator wrote;
      _ ← write_json_string name;
      _ ← push_byte 58;
      _ ← write_u64 value;
      mret wrote
  end.

Definition write_filter (filter : NostrFilter) : io JsonWriter NostrError unit :=
  _ ← push_byte 123;
  wrote ← write_number_array_field (str "kinds") (nf_kinds filter) false;
  wrote ← write_key_array_field (str "authors") (nf_authors filter) wrote;
  wrote ← write_key_array_field (str "#p") (nf_p_tags filter) wrote;
  wrote ← write_optional_u64_field (str "since") (nf_since filter) wrote;
  wrote ← write_optional_u64_field (str "until") (nf_until filter) wrote;
  _ ← match nf_limit filter with
      | Some limit =>
          _ ← write_field_separator wrote;
          _ ← write_json_string (str "limit");
          _ ← push_byte 58;
          write_u64 limit
      | None => mret tt
      end;
  push_byte 125.

(** A comma and a filter, for each of them. *)
Fixpoint write_filters (filters : list NostrFilter) : io JsonWriter NostrError unit :=
  match filters with
  | [] => mret tt
  | filter :: filters =>
      _ ← push_byte 44;
      _ ← write_filter filter;
      write_filters filters
  end.

(** A message into the caller's buffer: what [finish] gives after [body]. *)
Definition with_json_writer (body : io JsonWriter NostrError unit) : io (list Z) NostrError (list Z) := fun out =>
  match body (JsonWriter_new out) with
  | (Ok _, w) => (JsonWriter_finish w, bs_out w)
  | (Err e, w) => (Err e, bs_out w)
  | (Panic, w) => (Panic, bs_out w)
  end.

Definition write_client_message (message : NostrClientMessage) : io (list Z) NostrError (list Z) := with_json_writer (
  _ ← push_byte 91;
  _ ← match message with
      | ClientEvent event =>
          _ ← write_json_string (str "EVENT");
          _ ← push_byte 44;
          write_event event
      | ClientReq subscription_id filters =>
          _ ← lift (validate_subscription_id subscription_id);
          _ ← write_json_string (str "REQ");
          _ ← push_byte 44;
          _ ← write_json_string subscription_id;
          write_filters filters
      | ClientClose subscription_id =>
          _ ← lift (validate_subscription_id subscription_id);
          _ ← write_json_string (str "CLOSE");
          _ ← push_byte 44;
          write_json_string subscription_id
      | ClientAuth event =>
          _ ← write_json_string (str "AUTH");
          _ ← push_byte 44;
          write_event event
      end;
  push_byte 93).

Definition write_relay_message (message : NostrRelayMessage) : io (list Z) NostrError (list Z) := with_json_writer (
  _ ← push_byte 91;
  _ ← match message with
      | RelayEvent subscription_id event =>
          _ ← lift (validate_subscription_id subscription_id);
          _ ← write_json_string (str "EVENT");
          _ ← push_byte 44;
          _ ← write_json_string subscription_id;
          _ ← push_byte 44;
          write_event event
      | RelayOk event_id accepted message =>
          _ ← write_json_string (str "OK");
          _ ← push_byte 44;
          id ← lift (in_array 64 (NostrEventId_write_hex event_id));
          _ ← write_json_string id;
          _ ← push_byte 44;
          _ ← write_bool accepted;
          _ ← push_byte 44;
          write_json_string message
      | RelayEose subscription_id =>
          _ ← lift (validate_subscription_id subscription_id);
          _ ← write_json_string (str "EOSE");
          _ ← push_byte 44;
          write_json_string subscription_id
      | RelayClosed subscription_id message =>
          _ ← lift (validate_subscription_id subscription_id);
          _ ← write_json_string (str "CLOSED");
          _ ← push_byte 44;
          _ ← write_json_string subscription_id;
          _ ← push_byte 44;
          write_json_string message
      | RelayNotice message =>
          _ ← write_json_string (str "NOTICE");
          _ ← push_byte 44;
          write_json_string message
      | RelayAuth challenge =>
          _ ← write_json_string (str "AUTH");
          _ ← push_byte 44;
          write_json_string challenge
      end;
  push_byte 93).

(** ** Reading *)
Definition expect_object (value : JsonValue) : outcome NostrError (list (list Z * JsonValue)) :=
  match value with JObject fields => Ok fields | _ => Err MalformedMessage end.
Definition expect_array (value : JsonValue) : outcome NostrError (list JsonValue) :=
  match value with JArray values => Ok values | _ => Err MalformedMessage end.
Definition expect_string (value : JsonValue) : outcome NostrError (list Z) :=
  match value with JString s => Ok s | _ => Err MalformedMessage end.
Definition expect_number (value : JsonValue) : outcome NostrError Z :=
  match value with JNumber n => Ok n | _ => Err MalformedMessage end.
Definition expect_bool (value : JsonValue) : outcome NostrError bool :=
  match value with JBool b => Ok b | _ => Err MalformedMessage end.

Definition optional_field (fields : list (list Z * JsonValue)) (name : list Z) : option JsonValue :=
  option_map snd (List.find (fun field => bool_decide (fst field = name)) fields).
Definition required_field (fields : list (list Z * JsonValue)) (name : list Z) : outcome NostrError JsonValue :=
  ok_or (optional_field fields name) MalformedMessage.

Definition number_to_u16 (value : Z) : outcome NostrError Z :=
  if value <=? 0xffff then Ok value else Err MalformedMessage.

(** One turn of the loop over the tags. *)
Definition parse_tag (tag : JsonValue) : outcome NostrError (list (list Z)) :=
  values ← expect_array tag;
  _ ← guard_err (len values =? 0) TagEmpty;
  mapM expect_string values.
Definition parse_tags (value : JsonValue) : outcome NostrError (list (list (list Z))) :=
  tags ← expect_array value;
  mapM parse_tag tags.

Definition optional_number_array (fields : list (list Z * JsonValue)) (name : list Z) : outcome NostrError (list Z) :=
  match optional_field fields name with
  | None => Ok []
  | Some value => values ← expect_array value; mapM (fun v => n ← expect_number v; number_to_u16 n) values
  end.

Definition optional_key_array (fields : list (list Z * JsonValue)) (name : list Z) : outcome NostrError (list NostrPublicKey) :=
  match optional_field fields name with
  | None => Ok []
  | Some value => values ← expect_array value; mapM (fun v => s ← expect_string v; NostrPublicKey_from_hex s) values
  end.

Definition optional_number (fields : list (list Z * JsonValue)) (name : list Z) : outcome NostrError (option Z) :=
  match optional_field fields name with
  | None => Ok None
  | Some value => n ← expect_number value; Ok (Some n)
  end.

(** [usize::try_from] does not fail for a [u64]. *)
Definition optional_usize (fields : list (list Z * JsonValue)) (name : list Z) : outcome NostrError (option Z) :=
  match optional_field fields name with
  | None => Ok None
  | Some value =>
      number ← expect_number value;
      if number <=? usize_MAX then Ok (Some number) else Err MalformedMessage
  end.

Definition parse_event (value : JsonValue) : outcome NostrError NostrOwnedEvent :=
  fields ← expect_object value;
  v ← required_field fields (str "id"); s ← expect_string v; id ← NostrEventId_from_hex s;
  v ← required_field fields (str "pubkey"); s ← expect_string v; pubkey ← NostrPublicKey_from_hex s;
  v ← required_field fields (str "created_at"); created_at ← expect_number v;
  v ← required_field fields (str "kind"); n ← expect_number v; kind ← number_to_u16 n;
  v ← required_field fields (str "tags"); tags ← parse_tags v;
  v ← required_field fields (str "content"); content ← expect_string v;
  v ← required_field fields (str "sig"); s ← expect_string v; sig ← NostrSignature_from_hex s;
  Ok (mk_event id pubkey created_at kind tags content sig).

Definition parse_filter (value : JsonValue) : outcome NostrError NostrOwnedFilter :=
  fields ← expect_object value;
  kinds ← optional_number_array fields (str "kinds");
  authors ← optional_key_array fields (str "authors");
  p_tags ← optional_key_array fields (str "#p");
  since ← optional_number fields (str "since");
  until ← optional_number fields (str "until");
  limit ← optional_usize fields (str "limit");
  Ok (mk_filter kinds authors p_tags since until limit).

(** [let Some(JsonValue::String(kind)) = items.first() else ...] *)
Definition first_string (items : list JsonValue) : outcome NostrError (list Z) :=
  match items with JString kind :: _ => Ok kind | _ => Err MalformedMessage end.

(** [expect_string(&items[1])?] and [validate_subscription_id] *)
Definition read_subscription_id (items : list JsonValue) : outcome NostrError (list Z) :=
  v ← Prelude.index items 1;
  subscription_id ← expect_string v;
  _ ← validate_subscription_id subscription_id;
  Ok subscription_id.

(** What stands behind [JsonParser::parse] in the two decoders. *)
Definition read_client_message (value : JsonValue) : outcome NostrError NostrOwnedClientMessage :=
  items ← expect_array value;
  kind ← first_string items;
  if bool_decide (kind = str "EVENT") then
    _ ← guard_err (negb (len items =? 2)) MalformedMessage;
    v ← Prelude.index items 1;
    event ← parse_event v;
    Ok (ClientEvent event)
  else if bool_decide (kind = str "REQ") then
    _ ← guard_err (len items <? 3) MalformedMessage;
    subscription_id ← read_subscription_id items;
    filters ← mapM parse_filter (drop 2 items);
    Ok (ClientReq subscription_id filters)
  else if bool_decide (kind = str "CLOSE") then
    _ ← guard_err (negb (len items =? 2)) MalformedMessage;
    subscription_id ← read_subscription_id items;
    Ok (ClientClose subscription_id)
  else if bool_decide (kind = str "AUTH") then
    _ ← guard_err (negb (len items =? 2)) MalformedMessage;
    v ← Prelude.index items 1;
    event ← parse_event v;
    Ok (ClientAuth event)
  else Err UnsupportedMessage.

Definition decode_client_message (input : list Z) : outcome NostrError NostrOwnedClientMessage :=
  value ← parse input;
  read_client_message value.

Definition read_relay_message (value : JsonValue) : outcome NostrError NostrOwnedRelayMessage :=
  items ← expect_array value;
  kind ← first_string items;
  if bool_decide (kind = str "EVENT") then
    _ ← guard_err (negb (len items =? 3)) MalformedMessage;
    subscription_id ← read_subscription_id items;
    v ← Prelude.index items 2;
    event ← parse_event v;
    Ok (RelayEvent subscription_id event)
  else if bool_decide (kind = str "OK") then
    _ ← guard_err (negb (len items =? 4)) MalformedMessage;
    v ← Prelude.index items 1; s ← expect_string v; event_id ← NostrEventId_from_hex s;
    v ← Prelude.index items 2; accepted ← expect_bool v;
    v ← Prelude.index items 3; message ← expect_string v;
    Ok (RelayOk event_id accepted message)
  else if bool_decide (kind = str "EOSE") then
    _ ← guard_err (negb (len items =? 2)) MalformedMessage;
    subscription_id ← read_subscription_id items;
    Ok (RelayEose subscription_id)
  else if bool_decide (kind = str "CLOSED") then
    _ ← guard_err (negb (len items =? 3)) MalformedMessage;
    subscription_id ← read_subscription_id items;
    v ← Prelude.index items 2; message ← expect_string v;
    Ok (RelayClosed subscription_id message)
  else if bool_decide (kind = str "NOTICE") then
    _ ← guard_err (negb (len items =? 2)) MalformedMessage;
    v ← Prelude.index items 1; message ← expect_string v;
    Ok (RelayNotice message)
  else if bool_decide (kind = str "AUTH") then
    _ ← guard_err (negb (len items =? 2)) MalformedMessage;
    v ← Prelude.index items 1; challenge ← expect_string v;
    Ok (RelayAuth challenge)
  else Err UnsupportedMessage.

Definition decode_relay_message (input : list Z) : outcome NostrError NostrOwnedRelayMessage :=
  value ← parse input;
  read_relay_message value.

(** ** The value of a message *)
Definition hex_json (l : list Z) : JsonValue := JString (hex_bytes l).
Definition tags_value (tags : NostrTagsRef) : JsonValue := JArray (map (fun tag => JArray (map JString tag)) tags).

Definition event_value (e : NostrEvent) : JsonValue :=
  JObject [(str "id", hex_json (ne_id e)); (str "pubkey", hex_json (ne_pubkey e)); (str "created_at", JNumber (ne_created_at e));
    (str "kind", JNumber (ne_kind e)); (str "tags", tags_value (ne_tags e)); (str "content", JString (ne_content e));
    (str "sig", hex_json (ne_sig e))].

(** A field that is left out when there is nothing to say. *)
Definition opt_field (name : list Z) (v : option JsonValue) : list (list Z * JsonValue) :=
  match v with Some v => [(name, v)] | None => [] end.
Definition array_value {A} (f : A -> JsonValue) (l : list A) : option JsonValue :=
  match l with [] => None | _ => Some (JArray (map f l)) end.

Definition filter_fields (f : NostrFilter) : list (list Z * JsonValue) :=
  opt_field (str "kinds") (array_value JNumber (nf_kinds f)) ++ opt_field (str "authors") (array_value hex_json (nf_authors f)) ++
  opt_field (str "#p") (array_value hex_json (nf_p_tags f)) ++ opt_field (str "since") (option_map JNumber (nf_since f)) ++
  opt_field (str "until") (option_map JNumber (nf_until f)) ++ opt_field (str "limit") (option_map JNumber (nf_limit f)).
Definition filter_value (f : NostrFilter) : JsonValue := JObject (filter_fields f).

Definition client_value (m : NostrClientMessage) : JsonValue :=
  match m with
  | ClientEvent e => JArray [JString (str "EVENT"); event_value e]
  | ClientReq s fs => JArray (JString (str "REQ") :: JString s :: map filter_value fs)
  | ClientClose s => JArray [JString (str "CLOSE"); JString s]
  | ClientAuth e => JArray [JString (str "AUTH"); event_value e]
  end.

Definition relay_value (m : NostrRelayMessage) : JsonValue :=
  match m with
  | RelayEvent s e => JArray [JString (str "EVENT"); JString s; event_value e]
  | RelayOk i a t => JArray [JString (str "OK"); hex_json i; JBool a; JString t]
  | RelayEose s => JArray [JString (str "EOSE"); JString s]
  | RelayClosed s t => JArray [JString (str "CLOSED"); JString s; JString t]
  | RelayNotice t => JArray [JString (str "NOTICE"); JString t]
  | RelayAuth c => JArray [JString (str "AUTH"); JString c]
  end.

(** *** What the types guarantee *)
Record event_ok (e : NostrEvent) : Prop := {
  eo_id : array_ok 32 (ne_id e);
  eo_pubkey : array_ok 32 (ne_pubkey e);
  eo_created_at : u64_ok (ne_created_at e);
  eo_kind : u16_ok (ne_kind e);
  eo_tags : Forall (fun tag => Forall str_ok tag /\ tag <> []) (ne_tags e);
  eo_content : str_ok (ne_content e);
  eo_sig : array_ok 64 (ne_sig e);
}.

Definition option_ok (P : Z -> Prop) (o : option Z) : Prop := match o with Some n => P n | None => True end.

Record filter_ok (f : NostrFilter) : Prop := {
  fo_kinds : Forall u16_ok (nf_kinds f);
  fo_authors : Forall (array_ok 32) (nf_authors f);
  fo_p_tags : Forall (array_ok 32) (nf_p_tags f);
  fo_since : option_ok u64_ok (nf_since f);
  fo_until : option_ok u64_ok (nf_until f);
  fo_limit : option_ok u64_ok (nf_limit f);
}.

Definition client_ok (m : NostrClientMessage) : Prop :=
  match m with
  | ClientEvent e | ClientAuth e => event_ok e
  | ClientReq s fs => str_ok s /\ Forall filter_ok fs
  | ClientClose s => str_ok s
  end.

Definition relay_ok (m : NostrRelayMessage) : Prop :=
  match m with
  | RelayEvent s e => str_ok s /\ event_ok e
  | RelayOk i _ t => array_ok 32 i /\ str_ok t
  | RelayEose s => str_ok s
  | RelayClosed s t => str_ok s /\ str_ok t
  | RelayNotice t => str_ok t
  | RelayAuth c => str_ok c
  end.

(** The subscription a message names. *)
Definition client_subscription (m : NostrClientMessage) : option (list Z) :=
  match m with ClientReq s _ | ClientClose s => Some s | _ => None end.
Definition relay_subscription (m : NostrRelayMessage) : option (list Z) :=
  match m with RelayEvent s _ | RelayEose s | RelayClosed s _ => Some s | _ => None end.
Definition subscription_check (s : option (list Z)) : outcome NostrError unit :=
  match s with Some s => validate_subscription_id s | None => Ok tt end.

(** ** The writers emit the compact form *)
Lemma emits_lift_to {A B} (o : outcome NostrError A) a (f : A -> io JsonWriter NostrError B) b v :
  o = Ok a -> emits_to (f a) b v -> emits_to (x ← lift o; f x) b v.
Proof. intros -> H s Hs. rewrite lift_bind_ok. by apply H. Qed.

Ltac str_lit := apply literal_ok; vm_compute; reflexivity.

(** One write of a known string. *)
Ltac emit_one :=
  first [ apply (emits_byte (S:=BufferSink)) | apply (emits_json_string (S:=BufferSink)); first [assumption | str_lit | by apply hex_str_ok]
        | apply (emits_u64 (S:=BufferSink)); assumption ].

Lemma emits_print_tags tags : Forall (fun tag => Forall str_ok tag /\ tag <> []) tags -> emits (write_tags tags) (json_print (tags_value tags)).
Proof.
  intros H. eapply emits_eq; [apply (emits_tags (S:=BufferSink)); eapply list.Forall_impl; [exact H|by intros ? []]|].
  unfold json_tags, json_tag, tags_value. cbn [json_print]. f_equal. rewrite map_map. apply map_ext. intros tag. cbn [json_print]. f_equal. by rewrite map_map.
Qed.

Lemma emits_event e : event_ok e -> emits (write_event e) (json_print (event_value e)).
Proof.
  intros [Hid Hpk Hc Hk Ht Hct Hsig]. unfold write_event.
  eapply emits_lift_to; [by apply (in_array_hex 32)|]. eapply emits_lift_to; [by apply (in_array_hex 32)|].
  eapply emits_lift_to; [by apply (in_array_hex 64)|]. pose proof (u16_u64 _ Hk).
  destruct Hid as [_ Hid], Hpk as [_ Hpk], Hsig as [_ Hsig].
  eapply emits_eq; [repeat (apply emits_bind; [first [emit_one | by apply emits_print_tags]|]); emit_one|].
  unfold event_value, hex_json. cbn [json_print]. unfold json_object, commas. cbn [map concat fst snd json_print]. rewrite <- !app_assoc. reflexivity.
Qed.

(** Fields behind [wrote]: separated from what is there already. *)
Definition print_field (f : list Z * JsonValue) : list Z := json_string (fst f) ++ [58] ++ json_print (snd f).
Definition after (wrote : bool) (fs : list (list Z * JsonValue)) : list Z :=
  if wrote then concat (map (cons 44) (map print_field fs)) else commas (map print_field fs).
Definition some_written (wrote : bool) (fs : list (list Z * JsonValue)) : bool := wrote || match fs with [] => false | _ => true end.

Lemma after_app wrote fs gs : after wrote (fs ++ gs) = after wrote fs ++ after (some_written wrote fs) gs.
Proof.
  unfold after, some_written. destruct wrote; cbn [orb]; [by rewrite !map_app, concat_app|]. destruct fs as [|f fs]; [done|].
  cbn [map app commas]. by rewrite !map_app, concat_app, app_assoc.
Qed.

Definition writes_fields (m : bool -> io JsonWriter NostrError bool) (fs : list (list Z * JsonValue)) : Prop :=
  forall wrote, emits_to (m wrote) (some_written wrote fs) (after wrote fs).

Lemma no_field m : (forall wrote, m wrote = mret wrote) -> writes_fields m [].
Proof.
  intros H wrote. rewrite H. replace (some_written wrote []) with wrote by (unfold some_written; by rewrite orb_false_r).
  unfold after. destruct wrote; apply (emits_to_ret (S:=BufferSink)).
Qed.

(** One field: a separator, the name, a colon and its value. *)
Lemma one_field name v (m : io JsonWriter NostrError unit) : str_ok name -> emits m (json_print v) ->
  writes_fields (fun wrote => wrote ← write_field_separator wrote; _ ← write_json_string name; _ ← push_byte 58; _ ← m; mret wrote) [(name, v)].
Proof.
  intros Hn Hm wrote. assert (after wrote [(name, v)] = (if wrote then [44] else []) ++ json_string name ++ [58] ++ json_print v ++ []) as ->.
  { unfold after, print_field. cbn [map concat commas fst snd]. destruct wrote; by rewrite ?app_nil_r. }
  eapply emits_to_bind with (a := true).
  { unfold write_field_separator. rewrite <- (app_nil_r (if wrote then [44] else [])). eapply emits_to_bind; [|apply (emits_to_ret (S:=BufferSink))].
    destruct wrote; [apply (emits_byte (S:=BufferSink))|apply (emits_ret (S:=BufferSink))]. }
  replace (some_written wrote [(name, v)]) with true by (by destruct wrote).
  eapply emits_to_bind; [by apply (emits_json_string (S:=BufferSink))|]. eapply emits_to_bind; [apply (emits_byte (S:=BufferSink))|].
  eapply emits_to_bind; [exact Hm|apply (emits_to_ret (S:=BufferSink))].
Qed.

Lemma writes_ext m m' fs : (forall wrote s, m wrote s = m' wrote s) -> writes_fields m fs -> writes_fields m' fs.
Proof.
  intros E H wrote s Hs. specialize (H wrote s Hs). by rewrite E in H.
Qed.

(** An array between its brackets, inside a longer chain. *)
Lemma chain_array {A B} (item : A -> io JsonWriter NostrError unit) l (k : io JsonWriter NostrError B) s :
  (_ ← (_ ← push_byte 91; _ ← write_separated item 0 l; push_byte 93); k) s =
  (_ ← push_byte 91; _ ← write_separated item 0 l; _ ← push_byte 93; k) s.
Proof.
  unfold mbind, io_bind. destruct (push_byte 91 s) as [[[]|e|] s1]; [|done..]. by destruct (write_separated item 0 l s1) as [[[]|e|] s2].
Qed.

Lemma io_bind_ext {A B} (m : io JsonWriter NostrError A) (f g : A -> io JsonWriter NostrError B) s : (forall a s', f a s' = g a s') -> (m ≫= f) s = (m ≫= g) s.
Proof. intros H. unfold mbind, io_bind. destruct (m s) as [[a|e|] s']; [apply H|done..]. Qed.

Lemma array_field {A} (P : A -> Prop) (item : A -> io JsonWriter NostrError unit) (f : A -> JsonValue) name x l :
  str_ok name -> (forall a, P a -> emits (item a) (json_print (f a))) -> Forall P (x :: l) ->
  writes_fields (fun wrote => wrote ← write_field_separator wrote; _ ← write_json_string name; _ ← push_byte 58; _ ← push_byte 91;
    _ ← write_separated item 0 (x :: l); _ ← push_byte 93; mret wrote) (opt_field name (array_value f (x :: l))).
Proof.
  intros Hn Hi Hl. eapply writes_ext; [|apply (one_field name (JArray (map f (x :: l))) (_ ← push_byte 91; _ ← write_separated item 0 (x :: l); push_byte 93)); [done|]].
  - intros wrote s. apply io_bind_ext. intros w s1. apply io_bind_ext. intros [] s2. apply io_bind_ext. intros [] s3. apply chain_array.
  - eapply emits_eq; [exact (emits_array (S:=BufferSink) P item (fun a => json_print (f a)) Hi (x :: l) Hl)|]. cbn [json_print]. by rewrite map_map.
Qed.

Lemma len_cons_nonzero {A} (x : A) l : (len (x :: l) =? 0) = false.
Proof. apply Z.eqb_neq. rewrite len_cons. pose proof (len_nonneg l). lia. Qed.

Lemma number_field name l : str_ok name -> Forall u16_ok l ->
  writes_fields (write_number_array_field name l) (opt_field name (array_value JNumber l)).
Proof.
  intros Hn Hl. destruct l as [|x l]; [by apply no_field|].
  apply (writes_ext (fun wrote => wrote ← write_field_separator wrote; _ ← write_json_string name; _ ← push_byte 58; _ ← push_byte 91;
    _ ← write_separated write_u64 0 (x :: l); _ ← push_byte 93; mret wrote)).
  { intros wrote s. unfold write_number_array_field. by rewrite len_cons_nonzero. }
  apply (array_field u16_ok); [done| |done]. intros n Hu. apply (emits_u64 (S:=BufferSink)), u16_u64, Hu.
Qed.

Lemma emits_key k : array_ok 32 k -> emits (write_key k) (json_print (hex_json k)).
Proof.
  intros Hk. unfold write_key. eapply emits_lift_to; [by apply (in_array_hex 32)|]. apply (emits_json_string (S:=BufferSink)), hex_str_ok, Hk.
Qed.

Lemma key_field name l : str_ok name -> Forall (array_ok 32) l ->
  writes_fields (write_key_array_field name l) (opt_field name (array_value hex_json l)).
Proof.
  intros Hn Hl. destruct l as [|x l]; [by apply no_field|].
  apply (writes_ext (fun wrote => wrote ← write_field_separator wrote; _ ← write_json_string name; _ ← push_byte 58; _ ← push_byte 91;
    _ ← write_separated write_key 0 (x :: l); _ ← push_byte 93; mret wrote)).
  { intros wrote s. unfold write_key_array_field. by rewrite len_cons_nonzero. }
  apply (array_field (array_ok 32)); [done|by apply emits_key|done].
Qed.

Lemma optional_field_writes name o : str_ok name -> option_ok u64_ok o ->
  writes_fields (write_optional_u64_field name o) (opt_field name (option_map JNumber o)).
Proof.
  intros Hn Ho. destruct o as [n|]; [|by apply no_field]. apply (one_field name (JNumber n)); [done|].
  by apply (emits_u64 (S:=BufferSink)).
Qed.

(** The limit is the last field, so its flag is not kept. *)
Definition limit_field (o : option Z) (wrote : bool) : io JsonWriter NostrError bool :=
  match o with
  | Some limit => w ← write_field_separator wrote; _ ← write_json_string (str "limit"); _ ← push_byte 58; _ ← write_u64 limit; mret w
  | None => mret wrote
  end.
Lemma limit_field_writes o : option_ok u64_ok o -> writes_fields (limit_field o) (opt_field (str "limit") (option_map JNumber o)).
Proof.
  intros Ho. destruct o as [n|]; [|by apply no_field]. apply (one_field (str "limit") (JNumber n)); [str_lit|]. by apply (emits_u64 (S:=BufferSink)).
Qed.

Lemma writes_fields_bind m1 fs (k : bool -> io JsonWriter NostrError unit) wrote gs v :
  writes_fields m1 fs -> emits (k (some_written wrote fs)) (after (some_written wrote fs) gs ++ v) ->
  emits (w ← m1 wrote; k w) (after wrote (fs ++ gs) ++ v).
Proof. intros H1 H2. rewrite after_app, <- app_assoc. eapply emits_to_bind; [apply H1|exact H2]. Qed.

Lemma emits_filter f : filter_ok f -> emits (write_filter f) (json_print (filter_value f)).
Proof.
  intros [Hk Ha Hp Hs Hu Hl]. unfold write_filter, filter_value. cbn [json_print]. unfold json_object.
  apply emits_bind; [apply (emits_byte (S:=BufferSink))|]. change (commas (map (fun f => json_string (fst f) ++ [58] ++ json_print (snd f)) (filter_fields f)))
    with (after false (filter_fields f)). unfold filter_fields.
  eapply writes_fields_bind; [by apply number_field; [str_lit|]|]. eapply writes_fields_bind; [by apply key_field; [str_lit|]|].
  eapply writes_fields_bind; [by apply key_field; [str_lit|]|]. eapply writes_fields_bind; [by apply optional_field_writes; [str_lit|]|].
  eapply writes_fields_bind; [by apply optional_field_writes; [str_lit|]|].
  match goal with |- context [after ?w _] => generalize w end. intros wrote.
  pose proof (limit_field_writes (nf_limit f) Hl wrote) as H.
  assert (emits (_ ← limit_field (nf_limit f) wrote; push_byte 125) (after wrote (opt_field (str "limit") (option_map JNumber (nf_limit f))) ++ [125])) as H'.
  { eapply emits_to_bind; [exact H|apply (emits_byte (S:=BufferSink))]. }
  intros s Hsink. specialize (H' s Hsink). revert H'. cut (forall s, (_ ← limit_field (nf_limit f) wrote; push_byte 125) s =
    (_ ← match nf_limit f with
      | Some limit =>
          _ ← write_field_separator wrote;
          _ ← write_json_string (str "limit");
          _ ← push_byte 58;
          write_u64 limit
      | None => mret tt
      end; push_byte 125) s); [by intros ->|].
  intros s0. destruct (nf_limit f) as [n|]; [|done]. cbn [limit_field]. unfold mbind, io_bind.
  destruct (write_field_separator wrote s0) as [[w|e|] s1]; [|done..]. destruct (write_json_string _ s1) as [[[]|e|] s2]; [|done..].
  destruct (push_byte 58 s2) as [[[]|e|] s3]; [|done..]. by destruct (write_u64 n s3) as [[[]|e|] s4].
Qed.

Lemma emits_filters fs : Forall filter_ok fs -> emits (write_filters fs) (concat (map (cons 44) (map json_print (map filter_value fs)))).
Proof.
  induction 1 as [|f fs Hf Hfs IH]; [apply (emits_ret (S:=BufferSink))|]. cbn [write_filters map concat].
  change ((44 :: json_print (filter_value f)) ++ ?x) with ([44] ++ json_print (filter_value f) ++ x).
  apply emits_bind; [apply (emits_byte (S:=BufferSink))|]. apply emits_bind; [by apply emits_filter|exact IH].
Qed.

(** ** Writing, on every branch *)
Lemma with_json_writer_spec body v out : emits body v -> str_ok v -> len out <= usize_MAX ->
  if len v <=? len out then with_json_writer body out = (Ok v, v ++ drop (length v) out)
  else exists e out', with_json_writer body out = (Err e, out').
Proof.
  intros Hb Hv Ho. pose proof (emits_sink body v out Hb Ho) as H. unfold with_json_writer, JsonWriter_new, JsonWriter_finish.
  destruct (len v <=? len out).
  - rewrite H. by rewrite BufferSink_finish_ok.
  - destruct H as (e & s' & ->). by eexists _, _.
Qed.

(** *** The values of messages have compact forms *)
Lemma forall_map {A B} (P : B -> Prop) (f : A -> B) l : Forall (fun a => P (f a)) l -> Forall P (map f l).
Proof. induction 1; [by apply List.Forall_nil|]. by apply list.Forall_cons. Qed.

Lemma array_value_ok l : Forall value_ok l -> value_ok (JArray l).
Proof. intros H. cbn [value_ok]. by apply fold_and. Qed.

Lemma hex_json_ok n l : array_ok n l -> value_ok (hex_json l).
Proof. intros [_ H]. by apply hex_str_ok. Qed.

Lemma tags_value_ok tags : Forall (fun tag => Forall str_ok tag /\ tag <> []) tags -> value_ok (tags_value tags).
Proof.
  intros H. apply array_value_ok, forall_map. eapply list.Forall_impl; [exact H|]. intros tag [Ht _]. by apply array_value_ok, forall_map.
Qed.

Lemma event_value_ok e : event_ok e -> value_ok (event_value e).
Proof.
  intros [Hid Hpk Hc Hk Ht Hct Hsig]. apply (proj2 (fold_and (fun f => str_ok (fst f) /\ value_ok (snd f)) _)).
  repeat (apply list.Forall_cons; split; [cbn [fst snd]; split; [str_lit|]|]); [by eapply hex_json_ok|by eapply hex_json_ok|done|by apply u16_u64|by apply tags_value_ok|done|by eapply hex_json_ok|by apply List.Forall_nil].
Qed.

Definition field_ok (f : list Z * JsonValue) : Prop := str_ok (fst f) /\ value_ok (snd f).

Lemma opt_field_ok name o : str_ok name -> (forall v, o = Some v -> value_ok v) -> Forall field_ok (opt_field name o).
Proof. intros Hn Ho. destruct o as [v|]; [|by apply List.Forall_nil]. apply list.Forall_cons. split; [by split; [|apply Ho]|by apply List.Forall_nil]. Qed.

Lemma array_opt_ok {A} (P : A -> Prop) (f : A -> JsonValue) l v : (forall a, P a -> value_ok (f a)) -> Forall P l -> array_value f l = Some v -> value_ok v.
Proof.
  intros Hf Hl E. assert (v = JArray (map f l)) as -> by (by destruct l; [|injection E as <-]). apply array_value_ok, forall_map.
  eapply list.Forall_impl; [exact Hl|done].
Qed.

Lemma number_opt_ok o v : option_ok u64_ok o -> option_map JNumber o = Some v -> value_ok v.
Proof. destruct o as [n|]; cbn; [|done]. by intros Hn [= <-]. Qed.

Lemma filter_value_ok f : filter_ok f -> value_ok (filter_value f).
Proof.
  intros [Hk Ha Hp Hs Hu Hl]. apply (proj2 (fold_and field_ok _)). unfold filter_fields. rewrite !Forall_app. split_and!; (apply opt_field_ok; [str_lit|]); intros v E.
  - eapply (array_opt_ok u16_ok); [|done|done]. intros n ?. by apply u16_u64.
  - exact (array_opt_ok _ _ _ v (hex_json_ok 32) Ha E).
  - exact (array_opt_ok _ _ _ v (hex_json_ok 32) Hp E).
  - exact (number_opt_ok _ v Hs E).
  - exact (number_opt_ok _ v Hu E).
  - exact (number_opt_ok _ v Hl E).
Qed.

Lemma client_value_ok m : client_ok m -> value_ok (client_value m).
Proof.
  destruct m as [e|s fs|s|e]; cbn [client_ok client_value]; intros H; apply array_value_ok.
  - repeat (apply list.Forall_cons; split; [first [str_lit|by apply event_value_ok]|]). apply List.Forall_nil.
  - destruct H as [Hs Hfs]. repeat (apply list.Forall_cons; split; [first [str_lit|done]|]). apply forall_map. eapply list.Forall_impl; [exact Hfs|apply filter_value_ok].
  - repeat (apply list.Forall_cons; split; [first [str_lit|done]|]). apply List.Forall_nil.
  - repeat (apply list.Forall_cons; split; [first [str_lit|by apply event_value_ok]|]). apply List.Forall_nil.
Qed.

Lemma relay_value_ok m : relay_ok m -> value_ok (relay_value m).
Proof.
  destruct m as [s e|i a t|s|s t|t|c]; cbn [relay_ok relay_value]; intros H; apply array_value_ok; try destruct H as [H1 H2];
    repeat (apply list.Forall_cons; split; [first [str_lit|by apply event_value_ok|by eapply hex_json_ok|done]|]); apply List.Forall_nil.
Qed.

(** *** The bodies of the two writers *)
Lemma emits_checked s (m : io JsonWriter NostrError unit) v :
  validate_subscription_id s = Ok tt -> emits m v -> emits (_ ← lift (validate_subscription_id s); m) v.
Proof. intros H Hm. by eapply emits_lift_to. Qed.

Lemma check_fails s e (m : io JsonWriter NostrError unit) out : len out <= usize_MAX -> validate_subscription_id s = Err e ->
  exists e' out', with_json_writer (_ ← push_byte 91; _ ← (_ ← lift (validate_subscription_id s); m); push_byte 93) out = (Err e', out').
Proof.
  intros Ho He. unfold with_json_writer, mbind, io_bind, lift. rewrite He.
  pose proof (emits_sink (push_byte 91) [91] out (emits_byte (S:=BufferSink) 91) Ho) as H. unfold JsonWriter_new.
  destruct (len [91] <=? len out); [rewrite H|destruct H as (e' & s' & ->)]; by eexists _, _.
Qed.

Ltac emit_part := first [emit_one | by apply emits_event | by apply emits_filters | apply emits_checked; [assumption|]; emit_chain]
with emit_chain :=
  lazymatch goal with
  | |- emits (mbind _ (lift _)) _ => emit_part
  | |- emits (mbind _ _) _ => apply emits_bind; [emit_part|emit_chain]
  | _ => emit_part
  end.

Lemma subscription_checked s : validate_subscription_id s = Ok tt \/ exists e, validate_subscription_id s = Err e.
Proof. unfold validate_subscription_id. repeat case_match; eauto. Qed.

(** A message body between its brackets. *)
Lemma array_message (m : io JsonWriter NostrError unit) vs out :
  value_ok (JArray vs) -> emits m (commas (map json_print vs)) -> len out <= usize_MAX ->
  let v := json_print (JArray vs) in
  if len v <=? len out then with_json_writer (_ ← push_byte 91; _ ← m; push_byte 93) out = (Ok v, v ++ drop (length v) out)
  else exists e out', with_json_writer (_ ← push_byte 91; _ ← m; push_byte 93) out = (Err e, out').
Proof.
  intros Hv Hm Ho. cbv zeta. apply with_json_writer_spec; [|by apply json_print_str|done].
  cbn [json_print]. unfold json_array. apply emits_bind; [apply (emits_byte (S:=BufferSink))|]. apply emits_bind; [done|apply (emits_byte (S:=BufferSink))].
Qed.

Ltac message_body := eapply emits_eq; [emit_chain|]; cbn [map commas concat json_print]; rewrite <- ?app_assoc, ?app_nil_r; reflexivity.

(** What a write gives: the compact form when the subscription is legal and
    there is room, and an error otherwise. *)
Definition written (check : outcome NostrError unit) (v : JsonValue) (out : list Z) (r : outcome NostrError (list Z) * list Z) : Prop :=
  if is_ok check && (len (json_print v) <=? len out) then r = (Ok (json_print v), json_print v ++ drop (length (json_print v)) out)
  else exists e out', r = (Err e, out').

Lemma checked_ok {A} (o : outcome NostrError A) {a} : o = Ok a -> is_ok o = true.
Proof. by intros ->. Qed.
Lemma checked_err {A} (o : outcome NostrError A) e : o = Err e -> is_ok o = false.
Proof. by intros ->. Qed.

Lemma write_client_spec m out : client_ok m -> len out <= usize_MAX ->
  written (subscription_check (client_subscription m)) (client_value m) out (write_client_message m out).
Proof.
  intros Hm Ho. pose proof (client_value_ok m Hm) as Hv. unfold written, write_client_message.
  destruct m as [e|s fs|s|e]; cbn [client_ok client_subscription subscription_check client_value] in *.
  - apply array_message; [done|message_body|done].
  - destruct Hm as [Hs Hfs]. destruct (subscription_checked s) as [Hc|[err Hc]].
    + rewrite (checked_ok _ Hc). apply array_message; [done|message_body|done].
    + rewrite (checked_err _ _ Hc). by eapply check_fails.
  - destruct (subscription_checked s) as [Hc|[err Hc]]; [rewrite (checked_ok _ Hc)|rewrite (checked_err _ _ Hc); by eapply check_fails].
    apply array_message; [done|message_body|done].
  - apply array_message; [done|message_body|done].
Qed.

Lemma write_relay_spec m out : relay_ok m -> len out <= usize_MAX ->
  written (subscription_check (relay_subscription m)) (relay_value m) out (write_relay_message m out).
Proof.
  intros Hm Ho. pose proof (relay_value_ok m Hm) as Hv. unfold written, write_relay_message.
  destruct m as [s e|i a t|s|s t|t|c]; cbn [relay_ok relay_subscription subscription_check relay_value] in *.
  - destruct Hm as [Hm1 Hm2]. destruct (subscription_checked s) as [Hc|[err Hc]]; [rewrite (checked_ok _ Hc)|rewrite (checked_err _ _ Hc); by eapply check_fails].
    apply array_message; [done|message_body|done].
  - apply array_message; [done| |done]. destruct Hm as [[Hlen Hi] Hm2].
    assert (emits (write_bool a) (json_print (JBool a))) as Hb by (destruct a; [exact (emits_write (S:=BufferSink) (str "true"))|exact (emits_write (S:=BufferSink) (str "false"))]).
    eapply emits_eq.
    { apply emits_bind; [emit_one|]. apply emits_bind; [emit_one|]. eapply emits_lift_to; [by apply (in_array_hex 32)|].
      do 4 (apply emits_bind; [first [exact Hb|emit_one]|]). emit_one. }
    cbn [map commas concat json_print]. rewrite <- ?app_assoc, ?app_nil_r. reflexivity.
  - destruct (subscription_checked s) as [Hc|[err Hc]]; [rewrite (checked_ok _ Hc)|rewrite (checked_err _ _ Hc); by eapply check_fails].
    apply array_message; [done|message_body|done].
  - destruct Hm as [Hm1 Hm2]. destruct (subscription_checked s) as [Hc|[err Hc]]; [rewrite (checked_ok _ Hc)|rewrite (checked_err _ _ Hc); by eapply check_fails].
    apply array_message; [done|message_body|done].
  - apply array_message; [done|message_body|done].
  - apply array_message; [done|message_body|done].
Qed.

(** ** Reading back *)
Lemma mapM_map {A B} (f : A -> B) (g : B -> outcome NostrError A) l : Forall (fun a => g (f a) = Ok a) l -> mapM g (map f l) = Ok l.
Proof. induction 1 as [|a l Ha Hl IH]; [done|]. cbn [map mapM]. rewrite Ha. cbn [mbind outcome_bind]. by rewrite IH. Qed.

Lemma key_read l : array_ok 32 l -> NostrPublicKey_from_hex (hex_bytes l) = Ok l.
Proof. apply decode_fixed_hex_ok. Qed.

Lemma tags_read tags : Forall (fun tag => Forall str_ok tag /\ tag <> []) tags -> parse_tags (tags_value tags) = Ok tags.
Proof.
  intros H. unfold parse_tags, tags_value. cbn [expect_array mbind outcome_bind]. apply mapM_map. eapply list.Forall_impl; [exact H|].
  intros tag [_ Hne]. unfold parse_tag. cbn [expect_array mbind outcome_bind]. destruct tag as [|x tag]; [done|].
  cbn [map]. rewrite len_cons_nonzero. cbn [guard_err]. apply (mapM_map JString expect_string (x :: tag)). by apply list.Forall_forall.
Qed.

Lemma u16_read n : u16_ok n -> number_to_u16 n = Ok n.
Proof. intros H. unfold number_to_u16, u16_ok in *. destruct (Z.leb_spec n 0xffff); [done|lia]. Qed.

Lemma field_at name v fs : optional_field ((name, v) :: fs) name = Some v.
Proof. unfold optional_field. cbn [List.find fst]. by rewrite bool_decide_eq_true_2. Qed.
Lemma field_skip name v fs n : bool_decide (name = n) = false -> optional_field ((name, v) :: fs) n = optional_field fs n.
Proof. intros H. unfold optional_field. cbn [List.find fst]. by rewrite H. Qed.

Lemma event_read e : event_ok e -> parse_event (event_value e) = Ok e.
Proof.
  intros [Hid Hpk Hc Hk Ht Hct Hsig]. unfold parse_event, event_value, hex_json, required_field. cbn [expect_object mbind outcome_bind].
  repeat first [rewrite field_at | rewrite field_skip by (vm_compute; reflexivity)]. cbn [ok_or mbind outcome_bind expect_string expect_number].
  unfold NostrEventId_from_hex, NostrSignature_from_hex, NostrPublicKey_from_hex.
  rewrite !decode_fixed_hex_ok by done. cbn [mbind outcome_bind]. rewrite u16_read by done. cbn [mbind outcome_bind].
  rewrite tags_read by done. by destruct e.
Qed.

Lemma optional_field_app fs gs n : optional_field (fs ++ gs) n = match optional_field fs n with Some v => Some v | None => optional_field gs n end.
Proof.
  unfold optional_field. induction fs as [|[k v] fs IH]; [done|]. cbn [app List.find fst]. by destruct (bool_decide (k = n)).
Qed.

Lemma optional_field_opt name o n : optional_field (opt_field name o) n = if bool_decide (name = n) then o else None.
Proof. unfold optional_field. destruct o as [v|]; cbn [opt_field List.find fst]; by destruct (bool_decide (name = n)). Qed.

Ltac decide_names :=
  repeat match goal with |- context [bool_decide (str ?a = str ?b)] =>
    let v := eval vm_compute in (bool_decide (str a = str b)) in
    replace (bool_decide (str a = str b)) with v by (vm_compute; reflexivity)
  end; cbv iota.

Lemma number_array_read fs name l : Forall u16_ok l -> optional_field fs name = array_value JNumber l -> optional_number_array fs name = Ok l.
Proof.
  intros Hl E. unfold optional_number_array. rewrite E. destruct l as [|x l]; [done|]. cbn [array_value expect_array mbind outcome_bind].
  apply (mapM_map JNumber). eapply list.Forall_impl; [exact Hl|]. intros n Hn. cbn. by apply u16_read.
Qed.

Lemma key_array_read fs name l : Forall (array_ok 32) l -> optional_field fs name = array_value hex_json l -> optional_key_array fs name = Ok l.
Proof.
  intros Hl E. unfold optional_key_array. rewrite E. destruct l as [|x l]; [done|]. cbn [array_value expect_array mbind outcome_bind].
  apply (mapM_map hex_json). eapply list.Forall_impl; [exact Hl|]. intros k Hkey. cbn. by apply key_read.
Qed.

Lemma optional_number_read fs name o : optional_field fs name = option_map JNumber o -> optional_number fs name = Ok o.
Proof. intros E. unfold optional_number. rewrite E. by destruct o. Qed.

Lemma optional_usize_read fs name o : option_ok u64_ok o -> optional_field fs name = option_map JNumber o -> optional_usize fs name = Ok o.
Proof.
  intros Ho E. unfold optional_usize. rewrite E. destruct o as [n|]; [|done]. cbn. unfold option_ok, u64_ok in Ho.
  destruct (Z.leb_spec n usize_MAX); [done|unfold usize_MAX in *; lia].
Qed.

Ltac filter_field := unfold filter_fields; rewrite !optional_field_app, !optional_field_opt; decide_names.

Lemma filter_read f : filter_ok f -> parse_filter (filter_value f) = Ok f.
Proof.
  intros [Hk Ha Hp Hs Hu Hl]. unfold parse_filter, filter_value. cbn [expect_object mbind outcome_bind].
  rewrite (number_array_read _ (str "kinds") (nf_kinds f)) by (done || (filter_field; first [done | by case_match])). cbn [mbind outcome_bind].
  rewrite (key_array_read _ (str "authors") (nf_authors f)) by (done || (filter_field; first [done | by case_match])). cbn [mbind outcome_bind].
  rewrite (key_array_read _ (str "#p") (nf_p_tags f)) by (done || (filter_field; first [done | by case_match])). cbn [mbind outcome_bind].
  rewrite (optional_number_read _ (str "since") (nf_since f)) by (filter_field; first [done | by case_match]). cbn [mbind outcome_bind].
  rewrite (optional_number_read _ (str "until") (nf_until f)) by (filter_field; first [done | by case_match]). cbn [mbind outcome_bind].
  rewrite (optional_usize_read _ (str "limit") (nf_limit f)) by (done || (filter_field; first [done | by case_match])). cbn [mbind outcome_bind].
  by destruct f.
Qed.

Lemma subscription_read k s vs : validate_subscription_id s = Ok tt -> read_subscription_id (k :: JString s :: vs) = Ok s.
Proof. intros H. unfold read_subscription_id. rewrite index_1. cbn [mbind outcome_bind expect_string]. by rewrite H. Qed.

Ltac read_kind := cbn [expect_array first_string mbind outcome_bind]; decide_names.

Lemma client_read m :
  client_ok m -> subscription_check (client_subscription m) = Ok tt -> (forall s, m <> ClientReq s []) -> read_client_message (client_value m) = Ok m.
Proof.
  intros Hm Hs Hne. destruct m as [e|s fs|s|e]; cbn [client_ok client_subscription subscription_check] in *; unfold read_client_message, client_value; read_kind.
  - cbn [guard_err negb]. rewrite index_1. cbn [mbind outcome_bind]. by rewrite event_read.
  - destruct Hm as [_ Hfs]. destruct fs as [|f fs]; [by destruct (Hne s)|].
    assert ((len (JString (str "REQ") :: JString s :: map filter_value (f :: fs)) <? 3) = false) as ->.
    { apply Z.ltb_ge. cbn [map]. rewrite !len_cons. pose proof (len_nonneg (map filter_value fs)). lia. }
    cbn [guard_err]. rewrite subscription_read by done. cbn [mbind outcome_bind].
    change (drop 2 _) with (map filter_value (f :: fs)). rewrite (mapM_map filter_value parse_filter (f :: fs)); [done|]. eapply list.Forall_impl; [exact Hfs|]. apply filter_read.
  - cbn [guard_err negb]. by rewrite subscription_read.
  - cbn [guard_err negb]. rewrite index_1. cbn [mbind outcome_bind]. by rewrite event_read.
Qed.

Lemma relay_read m : relay_ok m -> subscription_check (relay_subscription m) = Ok tt -> read_relay_message (relay_value m) = Ok m.
Proof.
  intros Hm Hs. destruct m as [s e|i a t|s|s t|t|c]; cbn [relay_ok relay_subscription subscription_check] in *; unfold read_relay_message, relay_value; read_kind.
  - destruct Hm as [_ He]. cbn [guard_err negb]. rewrite subscription_read by done. cbn [mbind outcome_bind].
    assert (forall a b c : JsonValue, Prelude.index (E:=NostrError) [a; b; c] 2 = Ok c) as -> by reflexivity. cbn [mbind outcome_bind]. by rewrite event_read.
  - destruct Hm as [Hi _]. unfold hex_json, NostrEventId_from_hex. rewrite index_1. cbn [mbind outcome_bind expect_string].
    by rewrite decode_fixed_hex_ok.
  - cbn [guard_err negb]. by rewrite subscription_read.
  - destruct Hm as [Hs' _]. cbn [guard_err negb]. by rewrite subscription_read.
  - done.
  - done.
Qed.

(** ** Relays and clients understand each other *)
Definition legal (s : option (list Z)) : Prop := subscription_check s = Ok tt.

Lemma legal_ok s : legal s -> is_ok (subscription_check s) = true.
Proof. by intros ->. Qed.

(** C33. What a client writes, a relay reads: a client message with a legal
    subscription, and for a request at least one filter, is written when the
    buffer has room for its compact form, and [decode_client_message] reads the
    same message back from what was written, and from any other JSON text of the
    same value, with blanks and escapes as its author likes. *)
Theorem client_message_roundtrip m out :
  client_ok m -> legal (client_subscription m) -> (forall s, m <> ClientReq s []) -> len out <= usize_MAX ->
  len (json_print (client_value m)) <= len out ->
  exists text out', write_client_message m out = (Ok text, out') /\ decode_client_message text = Ok m /\
    forall input, json_document (client_value m) input -> decode_client_message input = Ok m.
Proof.
  intros Hm Hl Hne Ho Hroom. pose proof (write_client_spec m out Hm Ho) as Hw. unfold written in Hw. rewrite (legal_ok _ Hl) in Hw.
  destruct (Z.leb_spec (len (json_print (client_value m))) (len out)); [|lia]. cbn [andb] in Hw.
  assert (forall input, parse input = Ok (client_value m) -> decode_client_message input = Ok m) as Hread.
  { intros input Hi. unfold decode_client_message. rewrite Hi. cbn [mbind outcome_bind]. by apply client_read. }
  eexists _, _. split; [exact Hw|]. split; [apply Hread, parse_print, client_value_ok, Hm|]. intros input Hi. by apply Hread, parse_complete.
Qed.

(** The same for what a relay writes. *)
Theorem relay_message_roundtrip m out :
  relay_ok m -> legal (relay_subscription m) -> len out <= usize_MAX -> len (json_print (relay_value m)) <= len out ->
  exists text out', write_relay_message m out = (Ok text, out') /\ decode_relay_message text = Ok m /\
    forall input, json_document (relay_value m) input -> decode_relay_message input = Ok m.
Proof.
  intros Hm Hl Ho Hroom. pose proof (write_relay_spec m out Hm Ho) as Hw. unfold written in Hw. rewrite (legal_ok _ Hl) in Hw.
  destruct (Z.leb_spec (len (json_print (relay_value m))) (len out)); [|lia]. cbn [andb] in Hw.
  assert (forall input, parse input = Ok (relay_value m) -> decode_relay_message input = Ok m) as Hread.
  { intros input Hi. unfold decode_relay_message. rewrite Hi. cbn [mbind outcome_bind]. by apply relay_read. }
  eexists _, _. split; [exact Hw|]. split; [apply Hread, parse_print, relay_value_ok, Hm|]. intros input Hi. by apply Hread, parse_complete.
Qed.

(** *** No input panics *)
Lemma mapM_safe {A B} (f : A -> outcome NostrError B) l : (forall a, f a <> Panic) -> mapM f l <> Panic.
Proof.
  intros Hf. induction l as [|a l IH]; [done|]. cbn [mapM]. apply outcome_bind_safe; [apply Hf|]. intros b _. by apply outcome_bind_safe.
Qed.

Ltac read_safe_step :=
  lazymatch goal with
  | |- mbind _ _ <> Panic => apply outcome_bind_safe; [|intros ? ?]
  | |- mapM _ _ <> Panic => apply mapM_safe; intros ?
  | |- guard_err _ _ <> Panic => apply guard_err_safe
  | |- ok_or _ _ <> Panic => apply ok_or_safe
  | |- (if ?c then _ else _) <> Panic => destruct c
  | |- (match ?o with Some _ => _ | None => _ end) <> Panic => destruct o
  | |- (match ?v with JNull => _ | _ => _ end) <> Panic => destruct v
  | |- Ok _ <> Panic => discriminate
  | |- Err _ <> Panic => discriminate
  | |- decode_fixed_lower_hex _ _ <> Panic => apply fixed_hex_safe
  end.
Ltac read_safe := repeat read_safe_step.

Lemma expect_array_safe v : expect_array v <> Panic. Proof. unfold expect_array. read_safe. Qed.
Lemma expect_object_safe v : expect_object v <> Panic. Proof. unfold expect_object. read_safe. Qed.
Lemma expect_string_safe v : expect_string v <> Panic. Proof. unfold expect_string. read_safe. Qed.
Lemma expect_number_safe v : expect_number v <> Panic. Proof. unfold expect_number. read_safe. Qed.
Lemma expect_bool_safe v : expect_bool v <> Panic. Proof. unfold expect_bool. read_safe. Qed.

Ltac expects := read_safe; first [apply expect_array_safe | apply expect_object_safe | apply expect_string_safe | apply expect_number_safe | apply expect_bool_safe].

Lemma parse_tags_safe v : parse_tags v <> Panic.
Proof. unfold parse_tags. read_safe; [expects|]. unfold parse_tag. read_safe; expects. Qed.

Lemma parse_event_safe v : parse_event v <> Panic.
Proof.
  unfold parse_event, required_field, NostrEventId_from_hex, NostrPublicKey_from_hex, NostrSignature_from_hex, number_to_u16.
  read_safe; first [apply parse_tags_safe | expects].
Qed.

Lemma parse_filter_safe v : parse_filter v <> Panic.
Proof.
  unfold parse_filter, optional_number_array, optional_key_array, optional_number, optional_usize, NostrPublicKey_from_hex, number_to_u16.
  read_safe; expects.
Qed.

Lemma index_safe {A} (l : list A) i : 0 <= i < len l -> Prelude.index (E:=NostrError) l i <> Panic.
Proof. intros H. destruct (index_in_range (E:=NostrError) l i H) as (x & -> & _). done. Qed.

Lemma read_subscription_safe l : 2 <= len l -> read_subscription_id l <> Panic.
Proof.
  intros H. unfold read_subscription_id. apply outcome_bind_safe; [apply index_safe; lia|]. intros v _.
  apply outcome_bind_safe; [apply expect_string_safe|]. intros s _. apply outcome_bind_safe; [|done].
  by destruct (subscription_checked s) as [->|[e ->]].
Qed.

Lemma length_guard b e : guard_err (E:=NostrError) b e = Ok tt -> b = false.
Proof. by destruct b. Qed.

Ltac message_safe :=
  repeat lazymatch goal with
  | |- mbind _ (guard_err _ _) <> Panic => apply outcome_bind_safe; [apply guard_err_safe|];
      let H := fresh in intros [] H%length_guard; rewrite ?negb_false_iff, ?Z.eqb_eq, ?Z.ltb_ge in H
  | |- mbind _ (Prelude.index _ _) <> Panic => apply outcome_bind_safe; [apply index_safe; lia|intros ? _]
  | |- mbind _ (read_subscription_id _) <> Panic => apply outcome_bind_safe; [apply read_subscription_safe; lia|intros ? _]
  | |- mbind _ (mapM parse_filter _) <> Panic => apply outcome_bind_safe; [apply mapM_safe, parse_filter_safe|intros ? _]
  | |- mbind _ (parse_event _) <> Panic => apply outcome_bind_safe; [apply parse_event_safe|intros ? _]
  | |- mbind _ (NostrEventId_from_hex _) <> Panic => apply outcome_bind_safe; [apply fixed_hex_safe|intros ? _]
  | |- mbind _ (expect_string _) <> Panic => apply outcome_bind_safe; [apply expect_string_safe|intros ? _]
  | |- mbind _ (expect_bool _) <> Panic => apply outcome_bind_safe; [apply expect_bool_safe|intros ? _]
  | |- (if ?c then _ else _) <> Panic => destruct c
  | |- _ => discriminate
  end.

Lemma first_string_safe l : first_string l <> Panic.
Proof. unfold first_string. by repeat case_match. Qed.

Lemma read_client_safe v : read_client_message v <> Panic.
Proof.
  unfold read_client_message. apply outcome_bind_safe; [apply expect_array_safe|]. intros items _.
  apply outcome_bind_safe; [apply first_string_safe|]. intros kind _. message_safe.
Qed.

Lemma read_relay_safe v : read_relay_message v <> Panic.
Proof.
  unfold read_relay_message. apply outcome_bind_safe; [apply expect_array_safe|]. intros items _.
  apply outcome_bind_safe; [apply first_string_safe|]. intros kind _. message_safe.
Qed.

(** No string that reaches a client or a relay makes its decoder panic or
    run for ever, and a string that is not JSON is refused as malformed before
    anything of it is used. *)
Theorem nostr_decode_safe input :
  str_ok input ->
  decode_client_message input <> Panic /\ decode_relay_message input <> Panic /\
  ((forall v, ~ json_document v input) -> decode_client_message input = Err MalformedMessage /\ decode_relay_message input = Err MalformedMessage).
Proof.
  intros Hs. unfold decode_client_message, decode_relay_message. pose proof (parse_sound input Hs) as H.
  destruct (parse input) as [v|e|] eqn:E; cbn [mbind outcome_bind].
  - split_and!; [apply read_client_safe|apply read_relay_safe|]. intros Hn. by destruct (Hn v).
  - subst e. split_and!; done.
  - done.
Qed.

(** ** Witnesses *)
Definition sample_nostr_event : NostrEvent :=
  mk_event (replicate 32 1) (replicate 32 2) 1700000000 9775 [[str "p"; [34; 10; 195; 169]]] (str "hi") (replicate 64 3).
Definition sample_filter : NostrFilter := mk_filter [9775] [] [replicate 32 7] (Some 5) None (Some 10).
Definition sample_req : NostrClientMessage := ClientReq (str "sub") [sample_filter; NostrFilter_empty].

Lemma sample_filter_ok : filter_ok sample_filter.
Proof.
  split; cbn; try done; repeat (apply list.Forall_cons; split); try apply List.Forall_nil; try (unfold u16_ok, u64_ok; lia).
  split; [done|]. apply (bool_decide_unpack _); vm_compute; exact I.
Qed.
Lemma empty_filter_ok : filter_ok NostrFilter_empty.
Proof. split; cbn; try apply List.Forall_nil; done. Qed.

Lemma client_message_roundtrip_witness :
  exists text out', write_client_message sample_req (zeros 300) = (Ok text, out') /\ decode_client_message text = Ok sample_req.
Proof.
  destruct (client_message_roundtrip sample_req (zeros 300)) as (text & out' & H1 & H2 & _).
  - split; [str_lit|]. repeat (apply list.Forall_cons; split); [exact sample_filter_ok|exact empty_filter_ok|apply List.Forall_nil].
  - vm_compute. reflexivity.
  - intros s. discriminate.
  - vm_compute. discriminate.
  - vm_compute. discriminate.
  - exists text, out'. by split.
Defined.

Lemma sample_nostr_event_ok : event_ok sample_nostr_event.
Proof.
  split; cbn; try (unfold u16_ok, u64_ok; lia); try (split; [done|apply (bool_decide_unpack _); vm_compute; exact I]); [|str_lit].
  apply list.Forall_cons. split; [|apply List.Forall_nil]. split; [|done]. repeat (apply list.Forall_cons; split); try apply List.Forall_nil; [str_lit|].
  split; [apply (bool_decide_unpack _); vm_compute; exact I|reflexivity].
Qed.

Lemma relay_message_roundtrip_witness :
  exists text out', write_relay_message (RelayEvent (str "sub") sample_nostr_event) (zeros 600) = (Ok text, out') /\
    decode_relay_message text = Ok (RelayEvent (str "sub") sample_nostr_event).
Proof.
  destruct (relay_message_roundtrip (RelayEvent (str "sub") sample_nostr_event) (zeros 600)) as (text & out' & H1 & H2 & _).
  - split; [str_lit|exact sample_nostr_event_ok].
  - vm_compute. reflexivity.
  - vm_compute. discriminate.
  - vm_compute. discriminate.
  - exists text, out'. by split.
Defined.

(** A truncated message. *)
Lemma nostr_decode_safe_witness : decode_client_message [91; 34; 69] <> Panic.
Proof.
  apply (nostr_decode_safe [91; 34; 69]). split; [apply (bool_decide_unpack _); vm_compute; exact I|reflexivity].
Defined.
