(* ===== verification/NostrStored.v ===== *)
(** [hyf_link_nostr]: what the in-memory relay keeps of an event, and the
    statuses of relays (src/crates/hyf_link_nostr/src/stored.rs,
    stored_event.rs, status.rs).

    Strings and tags are stored in arrays of fixed capacity with a length
    beside them.  [storable] says which events fit; [stored_event] is the record
    of one that does, and [with_event_stored] that viewing the record gives the
    event back. *)
From S2P Require Import Prelude Utf8 Cursor NostrHex NostrJson Nostr.
From stdpp Require Import strings.

Open Scope Z_scope.

(** ** Strings *)
Record StoredString := mk_stored_string { ss_bytes : list Z; ss_len : Z }.
#[export] Instance StoredString_eq_dec : EqDecision StoredString. Proof. solve_decision. Defined.

Definition StoredString_empty (N : Z) : StoredString := mk_stored_string (zeros N) 0.

Definition StoredString_from_str (N : Z) (value : list Z) : outcome NostrError StoredString :=
  _ ← guard_err (len value >? N) (StoredStringTooLarge (len value) N);
  bytes ← write_at (ss_bytes (StoredString_empty N)) 0 value;
  Ok (mk_stored_string bytes (len value)).

Definition StoredString_as_str (s : StoredString) : outcome NostrError (list Z) :=
  v ← slice (ss_bytes s) 0 (ss_len s);
  if utf8_ok v then Ok v else Err Utf8.

(** ** Tags *)
Record StoredNostrTag := mk_stored_tag { stag_values : list StoredString; stag_len : Z }.
Record StoredNostrTags := mk_stored_tags { stags_tags : list StoredNostrTag; stags_len : Z }.

Section capacities.
Context (TAGS_MAX VALUES_MAX VALUE_MAX : Z).

Definition StoredNostrTag_empty : StoredNostrTag :=
  mk_stored_tag (replicate (Z.to_nat VALUES_MAX) (StoredString_empty VALUE_MAX)) 0.

(** The loop over the values; the state is [stored.values]. *)
Fixpoint store_values (index : Z) (values : list (list Z)) : io (list StoredString) NostrError unit :=
  match values with
  | [] => mret tt
  | value :: values =>
      _ ← lift (guard_err (len value >? VALUE_MAX) (TagValueTooLarge (len value) VALUE_MAX));
      stored ← lift (StoredString_from_str VALUE_MAX value);
      _ ← poke index stored;
      store_values (index + 1) values
  end.

Definition StoredNostrTag_from_ref (tag : list (list Z)) : outcome NostrError StoredNostrTag :=
  _ ← guard_err (len tag >? VALUES_MAX) (TagValueCountTooLarge (len tag) VALUES_MAX);
  match store_values 0 tag (stag_values StoredNostrTag_empty) with
  | (Ok _, values) => Ok (mk_stored_tag values (len tag))
  | (Err e, _) => Err e
  | (Panic, _) => Panic
  end.

Definition StoredNostrTags_empty : StoredNostrTags :=
  mk_stored_tags (replicate (Z.to_nat TAGS_MAX) StoredNostrTag_empty) 0.

Fixpoint store_tags (index : Z) (tags : list (list (list Z))) : io (list StoredNostrTag) NostrError unit :=
  match tags with
  | [] => mret tt
  | tag :: tags =>
      stored ← lift (StoredNostrTag_from_ref tag);
      _ ← poke index stored;
      store_tags (index + 1) tags
  end.

Definition StoredNostrTags_from_ref (tags : list (list (list Z))) : outcome NostrError StoredNostrTags :=
  _ ← guard_err (len tags >? TAGS_MAX) (TagCountTooLarge (len tags) TAGS_MAX);
  match store_tags 0 tags (stags_tags StoredNostrTags_empty) with
  | (Ok _, stored) => Ok (mk_stored_tags stored (len tags))
  | (Err e, _) => Err e
  | (Panic, _) => Panic
  end.
End capacities.

Definition stored_value (tag : StoredNostrTag) (index : Z) : outcome NostrError (option (list Z)) :=
  if index >=? stag_len tag then Ok None
  else
    s ← Prelude.index (stag_values tag) index;
    value ← StoredString_as_str s;
    Ok (Some value).

Definition stored_tag (tags : StoredNostrTags) (index : Z) : outcome NostrError (option StoredNostrTag) :=
  if index >=? stags_len tags then Ok None
  else tag ← Prelude.index (stags_tags tags) index; Ok (Some tag).

(** ** Events *)
Record FakeNostrEventRecord := mk_event_record {
  er_id : NostrEventId;
  er_pubkey : NostrPublicKey;
  er_created_at : Z;
  er_kind : Z;
  er_sig : NostrSignature;
  er_content : StoredString;
  er_tags : StoredNostrTags;
}.

Definition from_event (event : NostrEvent) : outcome NostrError FakeNostrEventRecord :=
  content ← StoredString_from_str HYF_NOSTR_MAX_CONTENT_CHARS (ne_content event);
  tags ← StoredNostrTags_from_ref HYF_NOSTR_MAX_TAGS HYF_NOSTR_MAX_TAG_VALUES HYF_NOSTR_MAX_TAG_VALUE_CHARS (ne_tags event);
  Ok (mk_event_record (ne_id event) (ne_pubkey event) (ne_created_at event) (ne_kind event) (ne_sig event) content tags).

(** The loop of [collect_p_tags] over what is left of the indices; the state is
    [out]. *)
Fixpoint collect_loop (tags : StoredNostrTags) (index : Z) (left_ : nat) (count : Z) : io (list NostrPublicKey) NostrError Z :=
  match left_ with
  | O => mret count
  | S left_ =>
      tag ← lift (stored_tag tags index);
      match tag with
      | None => mret count
      | Some tag =>
          out ← get;
          name ← lift (stored_value tag 0);
          if negb (bool_decide (name = Some (str "p"))) || (count =? len out) then collect_loop tags (index + 1) left_ count
          else
            value ← lift (stored_value tag 1);
            match value with
            | None => collect_loop tags (index + 1) left_ count
            | Some value =>
                match NostrPublicKey_from_hex value with
                | Ok public_key => _ ← poke count public_key; collect_loop tags (index + 1) left_ (count + 1)
                | Err _ => collect_loop tags (index + 1) left_ count
                | Panic => lift Panic
                end
            end
      end
  end.

Definition collect_p_tags (r : FakeNostrEventRecord) : io (list NostrPublicKey) NostrError Z :=
  collect_loop (er_tags r) 0 (Z.to_nat (stags_len (er_tags r))) 0.

(** [&slice[..n]] of any type. *)
Definition take_to {E A} (l : list A) (n : Z) : outcome E (list A) :=
  if (0 <=? n) && (n <=? len l) then Ok (take (Z.to_nat n) l) else Panic.

(** The values of one tag, into its row of the array of values. *)
Fixpoint row_loop (tag : StoredNostrTag) (value_index : Z) (left_ : nat) : io (list (list Z)) NostrError unit :=
  match left_ with
  | O => mret tt
  | S left_ =>
      value ← lift (stored_value tag value_index);
      match value with
      | None => mret tt
      | Some value => _ ← poke value_index value; row_loop tag (value_index + 1) left_
      end
  end.

(** The first loop: the state is [tag_values] and [tag_value_counts]. *)
Fixpoint values_loop (tags : StoredNostrTags) (tag_index : Z) (left_ : nat)
  : io (list (list (list Z)) * list Z) NostrError unit :=
  match left_ with
  | O => mret tt
  | S left_ =>
      tag ← lift (stored_tag tags tag_index);
      match tag with
      | None => mret tt
      | Some tag =>
          s ← get;
          row ← lift (Prelude.index (fst s) tag_index);
          row ← lift (let '(r, row') := row_loop tag 0 (Nat.min (length row) (Z.to_nat (stag_len tag))) row in
                      match r with Ok _ => Ok row' | Err e => Err e | Panic => Panic end);
          _ ← focus fst (fun x s => (x, snd s)) (poke tag_index row);
          _ ← focus snd (fun x s => (fst s, x)) (poke tag_index (stag_len tag));
          values_loop tags (tag_index + 1) left_
      end
  end.

(** The second loop: the state is [tag_refs]. *)
Fixpoint refs_loop (tag_values : list (list (list Z))) (tag_value_counts : list Z) (tag_index : Z) (left_ : nat)
  : io (list (list (list Z))) NostrError unit :=
  match left_ with
  | O => mret tt
  | S left_ =>
      row ← lift (Prelude.index tag_values tag_index);
      count ← lift (Prelude.index tag_value_counts tag_index);
      values ← lift (take_to row count);
      tag ← lift (NostrTagRef_new values);
      _ ← poke tag_index tag;
      refs_loop tag_values tag_value_counts (tag_index + 1) left_
  end.

Definition run_io {S E A} (m : io S E A) (s : S) : outcome E S :=
  match m s with (Ok _, s') => Ok s' | (Err e, _) => Err e | (Panic, _) => Panic end.

Definition DUMMY_TAG_VALUES : list (list Z) := [str "_"].

Definition with_event {T} (r : FakeNostrEventRecord) (f : NostrEvent -> outcome NostrError T) : outcome NostrError T :=
  dummy ← NostrTagRef_new DUMMY_TAG_VALUES;
  let n := Z.to_nat (stags_len (er_tags r)) in
  arrays ← run_io (values_loop (er_tags r) 0 n)
    (replicate (Z.to_nat HYF_NOSTR_MAX_TAGS) (replicate (Z.to_nat HYF_NOSTR_MAX_TAG_VALUES) []), replicate (Z.to_nat HYF_NOSTR_MAX_TAGS) 0);
  tag_refs ← run_io (refs_loop (fst arrays) (snd arrays) 0 n) (replicate (Z.to_nat HYF_NOSTR_MAX_TAGS) dummy);
  content ← StoredString_as_str (er_content r);
  tags ← take_to tag_refs (stags_len (er_tags r));
  event ← NostrEvent_new (er_id r) (er_pubkey r) (er_created_at r) (er_kind r) tags content (er_sig r);
  f event.

(** ** Statuses of relays *)
Inductive NostrRelayStatusPrefix :=
| PrefixDuplicate | PrefixPow | PrefixBlocked | PrefixRateLimited | PrefixInvalid | PrefixRestricted | PrefixMute | PrefixError
| PrefixAuthRequired | PrefixUnknown.
#[export] Instance NostrRelayStatusPrefix_eq_dec : EqDecision NostrRelayStatusPrefix. Proof. solve_decision. Defined.

Record NostrRelayStatus := mk_status { rs_prefix : NostrRelayStatusPrefix; rs_raw_prefix : list Z; rs_detail : list Z }.
#[export] Instance NostrRelayStatus_eq_dec : EqDecision NostrRelayStatus. Proof. solve_decision. Defined.

Inductive NostrPublishOutcome :=
| Accepted (message : list Z)
| AcceptedDuplicate (status : NostrRelayStatus)
| Rejected (status : NostrRelayStatus).

Definition status_prefix (prefix : list Z) : NostrRelayStatusPrefix :=
  if bool_decide (prefix = str "duplicate") then PrefixDuplicate
  else if bool_decide (prefix = str "pow") then PrefixPow
  else if bool_decide (prefix = str "blocked") then PrefixBlocked
  else if bool_decide (prefix = str "rate-limited") then PrefixRateLimited
  else if bool_decide (prefix = str "invalid") then PrefixInvalid
  else if bool_decide (prefix = str "restricted") then PrefixRestricted
  else if bool_decide (prefix = str "mute") then PrefixMute
  else if bool_decide (prefix = str "error") then PrefixError
  else if bool_decide (prefix = str "auth-required") then PrefixAuthRequired
  else PrefixUnknown.

(** [str::split_once(':')], on bytes: a colon is one byte. *)
Fixpoint split_colon (message : list Z) : option (list Z * list Z) :=
  match message with
  | [] => None
  | b :: rest => if b =? 58 then Some ([], rest)
                 else match split_colon rest with Some (prefix, detail) => Some (b :: prefix, detail) | None => None end
  end.

(** [detail.strip_prefix(' ').unwrap_or(detail)] *)
Definition strip_space (detail : list Z) : list Z := match detail with 32 :: rest => rest | _ => detail end.

Definition parse_relay_status (message : list Z) : NostrRelayStatus :=
  match split_colon message with
  | None => mk_status PrefixUnknown [] message
  | Some (prefix, detail) => mk_status (status_prefix prefix) prefix (strip_space detail)
  end.

Definition classify_ok_message (accepted : bool) (message : list Z) : NostrPublishOutcome :=
  let status := parse_relay_status message in
  if accepted then
    if bool_decide (rs_prefix status = PrefixDuplicate) then AcceptedDuplicate status else Accepted message
  else Rejected status.

Definition classify_closed_message (message : list Z) : NostrRelayStatus := parse_relay_status message.

(** ** What is stored *)
(** *** Prefixes *)
Lemma take_to_app {E A} (l r : list A) : take_to (E:=E) (l ++ r) (len l) = Ok l.
Proof.
  unfold take_to. rewrite len_app. pose proof (len_nonneg l). pose proof (len_nonneg r).
  destruct (Z.leb_spec 0 (len l)); [|lia]. destruct (Z.leb_spec (len l) (len l + len r)); [|lia]. cbn [andb]. by rewrite take_len_app.
Qed.

Definition stored_string (N : Z) (v : list Z) : StoredString := mk_stored_string (v ++ zeros (N - len v)) (len v).

Lemma from_str_spec N v : 0 <= N ->
  StoredString_from_str N v = if len v >? N then Err (StoredStringTooLarge (len v) N) else Ok (stored_string N v).
Proof.
  intros HN. unfold StoredString_from_str. rewrite Z.gtb_ltb. destruct (Z.ltb_spec N (len v)) as [Hl|Hl]; [done|].
  cbn [guard_err mbind outcome_bind StoredString_empty ss_bytes]. pose proof (len_nonneg v).
  assert (zeros N = zeros (len v) ++ zeros (N - len v)) as ->.
  { unfold zeros. rewrite <- replicate_add. f_equal. lia. }
  pose proof (write_at_app (E:=NostrError) [] v (zeros (len v)) (zeros (N - len v)) 0 eq_refl) as H1. cbn [app] in H1.
  by rewrite H1 by (by apply len_zeros).
Qed.

Lemma as_str_stored N v : str_ok v -> StoredString_as_str (stored_string N v) = Ok v.
Proof.
  intros [_ Hu]. unfold StoredString_as_str, stored_string. cbn [ss_bytes ss_len]. rewrite slice_app_first by done. cbn [mbind outcome_bind].
  by rewrite Hu.
Qed.

Section stored.
Context (TAGS_MAX VALUES_MAX VALUE_MAX : Z).
Hypotheses (tags_max : 0 <= TAGS_MAX) (values_max : 0 <= VALUES_MAX) (value_max : 0 <= VALUE_MAX).

Fixpoint check_values (values : list (list Z)) : outcome NostrError unit :=
  match values with
  | [] => Ok tt
  | v :: values => _ ← guard_err (len v >? VALUE_MAX) (TagValueTooLarge (len v) VALUE_MAX); check_values values
  end.
Definition check_tag (tag : list (list Z)) : outcome NostrError unit :=
  _ ← guard_err (len tag >? VALUES_MAX) (TagValueCountTooLarge (len tag) VALUES_MAX); check_values tag.
Fixpoint check_each (tags : list (list (list Z))) : outcome NostrError unit :=
  match tags with [] => Ok tt | tag :: tags => _ ← check_tag tag; check_each tags end.
Definition check_tags (tags : list (list (list Z))) : outcome NostrError unit :=
  _ ← guard_err (len tags >? TAGS_MAX) (TagCountTooLarge (len tags) TAGS_MAX); check_each tags.

Definition pad {A} (n : Z) (x : A) (l : list A) : list A := l ++ replicate (Z.to_nat n - length l) x.

Definition stored_tag_of (tag : list (list Z)) : StoredNostrTag :=
  mk_stored_tag (pad VALUES_MAX (StoredString_empty VALUE_MAX) (map (stored_string VALUE_MAX) tag)) (len tag).
Definition stored_tags_of (tags : list (list (list Z))) : StoredNostrTags :=
  mk_stored_tags (pad TAGS_MAX (StoredNostrTag_empty VALUES_MAX VALUE_MAX) (map stored_tag_of tags)) (len tags).

Lemma pad_map {A B} n (x : B) (f : A -> B) l : map f l ++ drop (length l) (replicate (Z.to_nat n) x) = pad n x (map f l).
Proof. unfold pad. by rewrite drop_replicate, length_map. Qed.

Lemma store_values_spec i values pre rest :
  len pre = i -> len values <= len rest ->
  match check_values values with
  | Ok _ => store_values VALUE_MAX i values (pre ++ rest) = (Ok tt, (pre ++ map (stored_string VALUE_MAX) values) ++ drop (length values) rest)
  | Err e => exists s, store_values VALUE_MAX i values (pre ++ rest) = (Err e, s)
  | Panic => False
  end.
Proof.
  revert i pre rest. induction values as [|v values IH]; intros i pre rest Hi Hl; cbn [check_values store_values map].
  { by rewrite app_nil_r, drop_0. }
  unfold guard_err. rewrite from_str_spec by done. destruct (len v >? VALUE_MAX); cbn [mbind outcome_bind].
  { by eexists. }
  rewrite lift_bind_ok, lift_bind_ok. rewrite len_cons in Hl. pose proof (len_nonneg values).
  rewrite (io_bind_ok _ _ _ _ _ (poke_app_drop pre rest (stored_string VALUE_MAX v) i ltac:(done) ltac:(lia))).
  specialize (IH (i + 1) (pre ++ [stored_string VALUE_MAX v]) (drop 1 rest)).
  rewrite len_app, len_drop in IH. specialize (IH ltac:(unfold len in *; cbn; lia) ltac:(lia)).
  destruct (check_values values); [|done..]. etransitivity; [exact IH|]. cbn [length]. by rewrite drop_drop, <- !app_assoc.
Qed.

Lemma tag_from_ref_spec tag :
  StoredNostrTag_from_ref VALUES_MAX VALUE_MAX tag = (_ ← check_tag tag; Ok (stored_tag_of tag)).
Proof.
  unfold StoredNostrTag_from_ref, check_tag, guard_err. rewrite Z.gtb_ltb. destruct (Z.ltb_spec VALUES_MAX (len tag)) as [|Hl]; [done|].
  cbn [mbind outcome_bind StoredNostrTag_empty stag_values].
  pose proof (store_values_spec 0 tag [] (replicate (Z.to_nat VALUES_MAX) (StoredString_empty VALUE_MAX)) eq_refl) as H.
  rewrite len_replicate in H. specialize (H ltac:(lia)). cbn [app] in H. destruct (check_values tag) as [[]|e|]; [|by destruct H as [s ->]|done].
  rewrite H. unfold stored_tag_of. by rewrite pad_map.
Qed.

Lemma store_tags_spec i tags pre rest :
  len pre = i -> len tags <= len rest ->
  match check_each tags with
  | Ok _ => store_tags VALUES_MAX VALUE_MAX i tags (pre ++ rest) = (Ok tt, (pre ++ map stored_tag_of tags) ++ drop (length tags) rest)
  | Err e => exists s, store_tags VALUES_MAX VALUE_MAX i tags (pre ++ rest) = (Err e, s)
  | Panic => False
  end.
Proof.
  revert i pre rest. induction tags as [|tag tags IH]; intros i pre rest Hi Hl; cbn [check_each store_tags map].
  { by rewrite app_nil_r, drop_0. }
  rewrite tag_from_ref_spec. rewrite len_cons in Hl. pose proof (len_nonneg tags).
  assert (check_tag tag <> Panic) as Hs.
  { unfold check_tag. apply outcome_bind_safe; [apply guard_err_safe|]. intros _ _. clear. induction tag as [|v tag IH]; [done|].
    cbn [check_values]. apply outcome_bind_safe; [apply guard_err_safe|done]. }
  destruct (check_tag tag) as [[]|e|]; cbn [mbind outcome_bind]; [|by eexists|done].
  rewrite lift_bind_ok. rewrite (io_bind_ok _ _ _ _ _ (poke_app_drop pre rest (stored_tag_of tag) i ltac:(done) ltac:(lia))).
  specialize (IH (i + 1) (pre ++ [stored_tag_of tag]) (drop 1 rest)).
  rewrite len_app, len_drop in IH. specialize (IH ltac:(unfold len in *; cbn; lia) ltac:(lia)).
  destruct (check_each tags); [|done..]. etransitivity; [exact IH|]. cbn [length]. by rewrite drop_drop, <- !app_assoc.
Qed.

Lemma tags_from_ref_spec tags :
  StoredNostrTags_from_ref TAGS_MAX VALUES_MAX VALUE_MAX tags = (_ ← check_tags tags; Ok (stored_tags_of tags)).
Proof.
  unfold StoredNostrTags_from_ref, check_tags, guard_err. rewrite Z.gtb_ltb. destruct (Z.ltb_spec TAGS_MAX (len tags)) as [|Hl]; [done|].
  cbn [mbind outcome_bind StoredNostrTags_empty stags_tags].
  pose proof (store_tags_spec 0 tags [] (replicate (Z.to_nat TAGS_MAX) (StoredNostrTag_empty VALUES_MAX VALUE_MAX)) eq_refl) as H.
  rewrite len_replicate in H. specialize (H ltac:(lia)). cbn [app] in H. destruct (check_each tags) as [[]|e|]; [|by destruct H as [s ->]|done].
  rewrite H. unfold stored_tags_of. by rewrite pad_map.
Qed.

(** *** Reading it again *)
Lemma index_pad {A} n (x : A) l i y : l !! Z.to_nat i = Some y -> 0 <= i -> Prelude.index (E:=NostrError) (pad n x l) i = Ok y.
Proof. intros H Hi. apply index_ok; [done|]. unfold pad. rewrite lookup_app_l; [done|]. by eapply lookup_lt_Some. Qed.

Lemma stored_value_of (tag : list (list Z)) i : Forall str_ok tag -> 0 <= i -> stored_value (stored_tag_of tag) i = Ok (tag !! Z.to_nat i).
Proof.
  intros Ht Hi. unfold stored_value. cbn [stag_len stag_values stored_tag_of]. rewrite Z.geb_leb. destruct (Z.leb_spec (len tag) i) as [H|H].
  - assert (tag !! Z.to_nat i = None) as -> by (apply lookup_ge_None_2; unfold len in H; lia). done.
  - destruct (lookup_lt_is_Some_2 tag (Z.to_nat i)) as [v Hv]; [unfold len in H; lia|]. rewrite Hv.
    rewrite (index_pad _ _ _ _ (stored_string VALUE_MAX v)); [|by rewrite list_lookup_fmap, Hv|done]. cbn [mbind outcome_bind].
    rewrite as_str_stored; [done|]. rewrite list.Forall_forall in Ht. apply Ht. by eapply list_elem_of_lookup_2.
Qed.

Lemma stored_tag_at (tags : list (list (list Z))) i : 0 <= i -> stored_tag (stored_tags_of tags) i = Ok (stored_tag_of <$> tags !! Z.to_nat i).
Proof.
  intros Hi. unfold stored_tag. cbn [stags_len stags_tags stored_tags_of]. rewrite Z.geb_leb. destruct (Z.leb_spec (len tags) i) as [H|H].
  - assert (tags !! Z.to_nat i = None) as -> by (apply lookup_ge_None_2; unfold len in H; lia). done.
  - assert (exists tag, tags !! Z.to_nat i = Some tag) as [tag Htag] by (apply lookup_lt_is_Some_2; unfold len in H; lia). rewrite Htag.
    by rewrite (index_pad _ _ _ _ (stored_tag_of tag)); [|by rewrite list_lookup_fmap, Htag|].
Qed.

Lemma row_loop_spec (tag done_ todo row : list (list Z)) :
  Forall str_ok tag -> tag = done_ ++ todo -> length row = length todo ->
  forall rest, row_loop (stored_tag_of tag) (len done_) (length todo) (done_ ++ row ++ rest) = (Ok tt, tag ++ rest).
Proof.
  intros Ht. revert done_ row. induction todo as [|v todo IH]; intros done_ row E Hl rest.
  - destruct row; [|done]. rewrite app_nil_r in E. by subst.
  - destruct row as [|x row]; [done|]. cbn [length row_loop]. pose proof (len_nonneg done_). rewrite stored_value_of by done.
    assert (tag !! Z.to_nat (len done_) = Some v) as Hv by (rewrite E, to_nat_len; by apply list_lookup_middle). rewrite Hv.
    rewrite lift_bind_ok. cbn [app]. rewrite (io_bind_ok _ _ _ _ _ (poke_app done_ x (row ++ rest) v _ eq_refl)).
    replace (len done_ + 1) with (len (done_ ++ [v])) by (by rewrite len_app). apply IH; [by rewrite <- app_assoc|by injection Hl].
Qed.

Definition blank_row : list (list Z) := replicate (Z.to_nat VALUES_MAX) [].

Lemma row_of_tag (tag : list (list Z)) : Forall str_ok tag -> len tag <= VALUES_MAX ->
  row_loop (stored_tag_of tag) 0 (Nat.min (length blank_row) (Z.to_nat (len tag))) blank_row = (Ok tt, pad VALUES_MAX [] tag).
Proof.
  intros Ht Hl. unfold blank_row. rewrite length_replicate, to_nat_len, Nat.min_r by (unfold len in Hl; lia).
  replace (Z.to_nat VALUES_MAX) with (length tag + (Z.to_nat VALUES_MAX - length tag))%nat at 1 by (unfold len in Hl; lia).
  rewrite replicate_add. apply (row_loop_spec tag [] tag (replicate (length tag) [])); [done|done|apply length_replicate].
Qed.

Lemma values_loop_spec (tags done_ todo : list (list (list Z))) k :
  Forall (fun tag => Forall str_ok tag /\ len tag <= VALUES_MAX) tags -> tags = done_ ++ todo -> (length todo <= k)%nat ->
  values_loop (stored_tags_of tags) (len done_) (length todo)
      (map (pad VALUES_MAX []) done_ ++ replicate k blank_row, map len done_ ++ replicate k 0) =
    (Ok tt, (map (pad VALUES_MAX []) tags ++ replicate (k - length todo) blank_row, map len tags ++ replicate (k - length todo) 0)).
Proof.
  intros Ht. revert done_ k. induction todo as [|tag todo IH]; intros done_ k E Hk.
  { rewrite app_nil_r in E. subst. by rewrite Nat.sub_0_r. }
  destruct k as [|k]; [cbn in Hk; lia|]. cbn [length values_loop replicate]. pose proof (len_nonneg done_).
  assert (tags !! Z.to_nat (len done_) = Some tag) as Htag by (rewrite E, to_nat_len; by apply list_lookup_middle).
  rewrite stored_tag_at, Htag by done. cbn [fmap option_fmap option_map]. rewrite lift_bind_ok. cbn [fst snd]. rewrite get_bind. cbn [fst snd].
  rewrite (index_app _ blank_row) by (unfold len; by rewrite length_map). rewrite lift_bind_ok. cbn [stag_len stored_tag_of].
  assert (Forall str_ok tag /\ len tag <= VALUES_MAX) as [Hs Hl].
  { rewrite list.Forall_forall in Ht. apply Ht. by eapply list_elem_of_lookup_2. }
  change (mk_stored_tag (pad VALUES_MAX (StoredString_empty VALUE_MAX) (map (stored_string VALUE_MAX) tag)) (len tag)) with (stored_tag_of tag).
  rewrite (row_of_tag tag Hs Hl). rewrite lift_bind_ok.
  erewrite io_bind_ok by (apply focus_eq; apply poke_app; unfold len; by rewrite length_map). cbn [fst snd].
  erewrite io_bind_ok by (apply focus_eq; apply poke_app; unfold len; by rewrite length_map). cbn [fst snd].
  replace (len done_ + 1) with (len (done_ ++ [tag])) by (by rewrite len_app).
  specialize (IH (done_ ++ [tag]) k). rewrite !map_app in IH. cbn [map] in IH. apply IH; [by rewrite <- app_assoc|cbn in Hk; lia].
Qed.

Lemma refs_loop_spec (tags done_ todo : list (list (list Z))) k d rows counts :
  Forall (fun tag => tag <> []) tags -> tags = done_ ++ todo -> (length todo <= k)%nat ->
  refs_loop (map (pad VALUES_MAX []) tags ++ rows) (map len tags ++ counts) (len done_) (length todo) (done_ ++ replicate k d) =
    (Ok tt, tags ++ replicate (k - length todo) d).
Proof.
  intros Ht. revert done_ k. induction todo as [|tag todo IH]; intros done_ k E Hk.
  { rewrite app_nil_r in E. subst. by rewrite Nat.sub_0_r. }
  destruct k as [|k]; [cbn in Hk; lia|]. cbn [length refs_loop replicate].
  assert (map (pad VALUES_MAX []) tags ++ rows = map (pad VALUES_MAX []) done_ ++ pad VALUES_MAX [] tag :: map (pad VALUES_MAX []) todo ++ rows) as ->
    by (rewrite E, map_app; cbn [map]; by rewrite <- app_assoc).
  assert (map len tags ++ counts = map len done_ ++ len tag :: map len todo ++ counts) as -> by (rewrite E, map_app; cbn [map]; by rewrite <- app_assoc).
  rewrite (index_app (map (pad VALUES_MAX []) done_)) by (unfold len; by rewrite length_map). rewrite lift_bind_ok.
  rewrite (index_app (map len done_)) by (unfold len; by rewrite length_map). rewrite lift_bind_ok.
  assert (take_to (E:=NostrError) (pad VALUES_MAX [] tag) (len tag) = Ok tag) as -> by apply take_to_app.
  rewrite lift_bind_ok. assert (tag <> []) as Hne by (rewrite list.Forall_forall in Ht; apply Ht; rewrite E; apply (list_elem_of_lookup_2 _ (length done_)); by apply list_lookup_middle).
  assert (NostrTagRef_new tag = Ok tag) as -> by (destruct tag; [done|apply NostrTagRef_new_cons]). rewrite lift_bind_ok.
  rewrite (io_bind_ok _ _ _ _ _ (poke_app done_ d (replicate k d) tag _ eq_refl)).
  replace (len done_ + 1) with (len (done_ ++ [tag])) by (by rewrite len_app).
  assert (map (pad VALUES_MAX []) done_ ++ pad VALUES_MAX [] tag :: map (pad VALUES_MAX []) todo ++ rows = map (pad VALUES_MAX []) tags ++ rows) as ->
    by (rewrite E, map_app; cbn [map]; by rewrite <- app_assoc).
  assert (map len done_ ++ len tag :: map len todo ++ counts = map len tags ++ counts) as -> by (rewrite E, map_app; cbn [map]; by rewrite <- app_assoc).
  apply IH; [by rewrite <- app_assoc|cbn in Hk; lia].
Qed.
End stored.

(** *** Events that fit *)
Definition check_event_tags : list (list (list Z)) -> outcome NostrError unit :=
  check_tags HYF_NOSTR_MAX_TAGS HYF_NOSTR_MAX_TAG_VALUES HYF_NOSTR_MAX_TAG_VALUE_CHARS.

(** The limits of the store, in the order in which they are checked. *)
Definition storable (e : NostrEvent) : outcome NostrError unit :=
  _ ← guard_err (len (ne_content e) >? HYF_NOSTR_MAX_CONTENT_CHARS) (StoredStringTooLarge (len (ne_content e)) HYF_NOSTR_MAX_CONTENT_CHARS);
  check_event_tags (ne_tags e).

Definition stored_event (e : NostrEvent) : FakeNostrEventRecord :=
  mk_event_record (ne_id e) (ne_pubkey e) (ne_created_at e) (ne_kind e) (ne_sig e)
    (stored_string HYF_NOSTR_MAX_CONTENT_CHARS (ne_content e))
    (stored_tags_of HYF_NOSTR_MAX_TAGS HYF_NOSTR_MAX_TAG_VALUES HYF_NOSTR_MAX_TAG_VALUE_CHARS (ne_tags e)).

Lemma from_event_spec e : from_event e = (_ ← storable e; Ok (stored_event e)).
Proof.
  unfold from_event, storable, check_event_tags, guard_err. rewrite from_str_spec by done. destruct (len (ne_content e) >? HYF_NOSTR_MAX_CONTENT_CHARS); [done|].
  cbn [mbind outcome_bind]. rewrite tags_from_ref_spec by done. by destruct (check_tags _ _ _ (ne_tags e)).
Qed.

Lemma check_values_fit M values : check_values M values = Ok tt -> Forall (fun v => len v <= M) values.
Proof.
  induction values as [|v values IH]; cbn [check_values]; [intros _; apply List.Forall_nil|]. unfold guard_err. rewrite Z.gtb_ltb.
  destruct (Z.ltb_spec M (len v)); [done|]. cbn [mbind outcome_bind]. intros H1. apply list.Forall_cons. split; [done|by apply IH].
Qed.

Lemma check_each_fit V M (tags : list (list (list Z))) : check_each V M tags = Ok tt -> Forall (fun tag => len tag <= V) tags.
Proof.
  induction tags as [|tag tags IH]; cbn [check_each]; [intros _; apply List.Forall_nil|]. unfold check_tag, guard_err. rewrite Z.gtb_ltb.
  destruct (Z.ltb_spec V (len tag)); [done|]. cbn [mbind outcome_bind]. destruct (check_values M tag) as [[]|e|]; [|done..]. cbn [mbind outcome_bind].
  intros H1. apply list.Forall_cons. split; [done|by apply IH].
Qed.

Lemma check_tags_fit T V M (tags : list (list (list Z))) :
  check_tags T V M tags = Ok tt -> len tags <= T /\ Forall (fun tag => len tag <= V) tags.
Proof.
  unfold check_tags, guard_err. rewrite Z.gtb_ltb. destruct (Z.ltb_spec T (len tags)); [done|]. cbn [mbind outcome_bind]. intros H1.
  split; [done|]. by eapply check_each_fit.
Qed.

Lemma storable_inv e : storable e = Ok tt ->
  len (ne_content e) <= HYF_NOSTR_MAX_CONTENT_CHARS /\ len (ne_tags e) <= HYF_NOSTR_MAX_TAGS /\ Forall (fun tag : list (list Z) => len tag <= HYF_NOSTR_MAX_TAG_VALUES) (ne_tags e).
Proof.
  unfold storable, check_event_tags, guard_err. rewrite Z.gtb_ltb. destruct (Z.ltb_spec HYF_NOSTR_MAX_CONTENT_CHARS (len (ne_content e))); [done|].
  cbn [mbind outcome_bind]. intros H1. split; [done|]. by eapply check_tags_fit.
Qed.

(** What the borrow checker and the constructors guarantee of an event's text. *)
Definition event_text_ok (e : NostrEvent) : Prop :=
  str_ok (ne_content e) /\ Forall (fun tag : list (list Z) => Forall str_ok tag /\ tag <> []) (ne_tags e).

Lemma run_io_ok {S E A} (m : io S E A) s a s' : m s = (Ok a, s') -> run_io m s = Ok s'.
Proof. unfold run_io. by intros ->. Qed.

(** Viewing what was stored is viewing the event. *)
Lemma with_event_stored {T} e (f : NostrEvent -> outcome NostrError T) :
  event_text_ok e -> storable e = Ok tt -> with_event (stored_event e) f = f e.
Proof.
  intros [Hc Ht] Hst. destruct (storable_inv e Hst) as (Hlc & Hlt & Hlv). unfold with_event, DUMMY_TAG_VALUES.
  rewrite NostrTagRef_new_cons. cbn [mbind outcome_bind stored_event er_tags er_content er_id er_pubkey er_created_at er_kind er_sig stags_len stored_tags_of].
  rewrite to_nat_len. assert (length (ne_tags e) <= Z.to_nat HYF_NOSTR_MAX_TAGS)%nat as Hln by (unfold len in Hlt; lia).
  assert (Forall (fun tag : list (list Z) => Forall str_ok tag /\ len tag <= HYF_NOSTR_MAX_TAG_VALUES) (ne_tags e)) as Hv.
  { apply list.Forall_forall. intros tag Hin. rewrite list.Forall_forall in Ht, Hlv. split; [by apply Ht|by apply Hlv]. }
  pose proof (values_loop_spec HYF_NOSTR_MAX_TAGS HYF_NOSTR_MAX_TAG_VALUES HYF_NOSTR_MAX_TAG_VALUE_CHARS (ne_tags e) [] (ne_tags e)
    (Z.to_nat HYF_NOSTR_MAX_TAGS) Hv eq_refl Hln) as H1.
  rewrite (run_io_ok _ _ _ _ H1 : run_io (values_loop _ 0 _) (replicate _ (replicate _ []), replicate _ 0) = Ok _). cbn [mbind outcome_bind fst snd].
  assert (Forall (fun tag : list (list Z) => tag <> []) (ne_tags e)) as Hne by (eapply list.Forall_impl; [exact Ht|by intros ? []]).
  pose proof (refs_loop_spec HYF_NOSTR_MAX_TAG_VALUES (ne_tags e) [] (ne_tags e) (Z.to_nat HYF_NOSTR_MAX_TAGS) [str "_"]
    (replicate (Z.to_nat HYF_NOSTR_MAX_TAGS - length (ne_tags e)) (blank_row HYF_NOSTR_MAX_TAG_VALUES)) (replicate (Z.to_nat HYF_NOSTR_MAX_TAGS - length (ne_tags e)) 0) Hne eq_refl Hln) as H2.
  lazymatch goal with |- context [run_io (refs_loop ?a ?b ?c ?d) ?s] =>
    let H := fresh in pose proof (run_io_ok _ _ _ _ H2 : run_io (refs_loop a b c d) s = Ok _) as H; rewrite H; clear H end.
  cbn [mbind outcome_bind].
  rewrite as_str_stored by done. cbn [mbind outcome_bind].
  assert (forall r, take_to (E:=NostrError) (ne_tags e ++ r) (len (ne_tags e)) = Ok (ne_tags e)) as -> by (intros r; apply take_to_app).
  cbn [mbind outcome_bind]. unfold NostrEvent_new, validate_content_len. rewrite Z.gtb_ltb. destruct (Z.ltb_spec HYF_NOSTR_MAX_CONTENT_CHARS (len (ne_content e))); [lia|].
  cbn [mbind outcome_bind]. by destruct e.
Qed.

(** *** Recipients *)
Definition p_key (tag : list (list Z)) : option NostrPublicKey :=
  match tag with
  | name :: value :: _ =>
      if bool_decide (name = str "p") then match NostrPublicKey_from_hex value with Ok k => Some k | _ => None end else None
  | _ => None
  end.
Definition p_keys (tags : list (list (list Z))) : list NostrPublicKey := omap p_key tags.

Lemma p_keys_cons tag tags : p_keys (tag :: tags) = match p_key tag with Some k => k :: p_keys tags | None => p_keys tags end.
Proof. unfold p_keys. cbn [omap list_omap]. by destruct (p_key tag). Qed.

Lemma collect_loop_spec T V M (tags done_ todo : list (list (list Z))) (keys rest : list (list Z)) :
  0 <= M -> Forall (Forall str_ok) tags -> tags = done_ ++ todo ->
  collect_loop (stored_tags_of T V M tags) (len done_) (length todo) (len keys) (keys ++ rest) =
    (Ok (len (keys ++ take (length rest) (p_keys todo))),
     (keys ++ take (length rest) (p_keys todo)) ++ drop (length (p_keys todo)) rest).
Proof.
  intros HM Ht. revert done_ keys rest. induction todo as [|tag todo IH]; intros done_ keys rest E.
  { cbn [length collect_loop p_keys omap list_omap]. by rewrite take_nil, app_nil_r, drop_0. }
  cbn [length collect_loop]. pose proof (len_nonneg done_). pose proof (len_nonneg rest).
  assert (tags !! Z.to_nat (len done_) = Some tag) as Htag by (rewrite E, to_nat_len; by apply list_lookup_middle).
  rewrite stored_tag_at, Htag by done. cbn [fmap option_fmap option_map]. rewrite lift_bind_ok, get_bind.
  assert (Forall str_ok tag) as Hs by (rewrite list.Forall_forall in Ht; apply Ht; by eapply list_elem_of_lookup_2).
  rewrite !stored_value_of by done. change (Z.to_nat 0) with 0%nat. change (Z.to_nat 1) with 1%nat. rewrite lift_bind_ok.
  specialize (IH (done_ ++ [tag])). rewrite len_app in IH. change (len [tag]) with 1 in IH. pose proof (p_keys_cons tag todo) as Hk.
  assert (tags = (done_ ++ [tag]) ++ todo) as E' by (by rewrite <- app_assoc).
  assert (forall keys', p_key tag = None \/ rest = [] /\ keys' = keys ->
    collect_loop (stored_tags_of T V M tags) (len done_ + 1) (length todo) (len keys) (keys ++ rest) =
      (Ok (len (keys ++ take (length rest) (p_keys (tag :: todo)))),
       (keys ++ take (length rest) (p_keys (tag :: todo))) ++ drop (length (p_keys (tag :: todo))) rest)) as Hskip.
  { intros keys' Hc. rewrite (IH keys rest E'), Hk. destruct Hc as [->|[-> _]]; [done|]. by rewrite !drop_nil. }
  change (@len NostrPublicKey) with (@len (list Z)). rewrite (len_app keys rest). destruct (Z.eqb_spec (len keys) (len keys + len rest)) as [Hfull|Hroom].
  { rewrite orb_true_r. apply (Hskip keys). right. destruct rest; [done|]. rewrite len_cons in Hfull. pose proof (len_nonneg rest). lia. }
  rewrite orb_false_r. destruct tag as [|name [|value tag]].
  - cbn [lookup list_lookup]. apply (Hskip keys). by left.
  - cbn [lookup list_lookup]. destruct (bool_decide (Some name = Some (str "p"))) eqn:Hb; cbn [negb]; [rewrite lift_bind_ok|]; apply (Hskip keys); by left.
  - cbn [lookup list_lookup]. unfold p_key in Hskip, Hk. pose proof (fixed_hex_safe 32 value) as Hsafe. unfold NostrPublicKey_from_hex in *.
    destruct (decide (name = str "p")) as [->|Hn].
    + rewrite !bool_decide_eq_true_2 in * by done. cbn [negb]. rewrite lift_bind_ok.
      destruct (decode_fixed_lower_hex 32 value) as [k|e|]; [|apply (Hskip keys); by left|done].
      destruct rest as [|x rest]; [unfold len in Hroom; cbn in Hroom; lia|].
      rewrite (io_bind_ok _ _ _ _ _ (poke_app keys x rest k _ eq_refl)).
      replace (len keys + 1) with (len (keys ++ [k])) by (by rewrite len_app). 
      assert (forall l : list (list Z), (keys ++ [k]) ++ l = keys ++ k :: l) as Ha by (intros l; by rewrite <- app_assoc).
      etransitivity; [exact (IH (keys ++ [k]) rest E')|]. rewrite Hk. cbn [length take drop]. f_equal; [f_equal; f_equal|f_equal]; apply Ha.
    + rewrite bool_decide_eq_false_2 by (intros [= ?]; done). rewrite bool_decide_eq_false_2 in Hskip by done. cbn [negb]. apply (Hskip keys). by left.
Qed.

(** The keys of the "p" tags, as many as the array holds. *)
Lemma collect_p_tags_stored e (out : list (list Z)) : event_text_ok e ->
  collect_p_tags (stored_event e) out =
    (Ok (len (take (length out) (p_keys (ne_tags e)))), take (length out) (p_keys (ne_tags e)) ++ drop (length (p_keys (ne_tags e))) out).
Proof.
  intros [_ Ht]. unfold collect_p_tags. cbn [stored_event er_tags stags_len stored_tags_of]. rewrite to_nat_len.
  apply (collect_loop_spec _ _ _ (ne_tags e) [] (ne_tags e) [] out); [done| |done].
  eapply list.Forall_impl; [exact Ht|by intros ? []].
Qed.

Lemma p_keys_le (tags : list (list (list Z))) : (length (p_keys tags) <= length tags)%nat.
Proof. induction tags as [|tag tags IH]; [done|]. rewrite p_keys_cons. destruct (p_key tag); cbn [length]; lia. Qed.

(** *** Statuses *)
Lemma split_colon_spec message :
  match split_colon message with
  | Some (prefix, detail) => message = prefix ++ 58 :: detail /\ 58 ∉ prefix
  | None => 58 ∉ message
  end.
Proof.
  induction message as [|b message IH]; cbn [split_colon]; [apply not_elem_of_nil|].
  destruct (Z.eqb_spec b 58) as [->|Hb]; [split; [done|apply not_elem_of_nil]|].
  destruct (split_colon message) as [[prefix detail]|]; [destruct IH as [-> Hp]; split; [done|]|]; rewrite not_elem_of_cons; by split.
Qed.

Lemma split_colon_app prefix detail : 58 ∉ prefix -> split_colon (prefix ++ 58 :: detail) = Some (prefix, detail).
Proof.
  induction prefix as [|b prefix IH]; intros Hp; cbn [app split_colon]; [done|]. apply not_elem_of_cons in Hp as [Hb Hp].
  destruct (Z.eqb_spec b 58); [done|]. by rewrite IH.
Qed.

(** ** Claims *)
Lemma check_values_safe M values : check_values M values <> Panic.
Proof. induction values as [|v values IH]; [done|]. cbn [check_values]. apply outcome_bind_safe; [apply guard_err_safe|done]. Qed.
Lemma check_tags_safe T V M tags : check_tags T V M tags <> Panic.
Proof.
  unfold check_tags. apply outcome_bind_safe; [apply guard_err_safe|]. intros _ _. induction tags as [|tag tags IH]; [done|]. cbn [check_each].
  apply outcome_bind_safe; [|done]. apply outcome_bind_safe; [apply guard_err_safe|]. intros _ _. apply check_values_safe.
Qed.

Lemma storable_safe e : storable e <> Panic.
Proof. apply outcome_bind_safe; [apply guard_err_safe|]. intros _ _. apply check_tags_safe. Qed.

(** Storing an event keeps it: an event within the limits is stored, whoever views
    the record is shown the event, and the record's recipients are the keys of the
    event's "p" tags; an event beyond a limit is refused with the first limit it
    exceeds, in the order content, number of tags, then tag by tag. *)
Theorem stored_event_roundtrip {T} e (f : NostrEvent -> outcome NostrError T) :
  event_text_ok e ->
  match from_event e with
  | Ok r => storable e = Ok tt /\ with_event r f = f e /\
      forall out, HYF_NOSTR_MAX_TAGS <= len out ->
        collect_p_tags r out = (Ok (len (p_keys (ne_tags e))), p_keys (ne_tags e) ++ drop (length (p_keys (ne_tags e))) out)
  | Err err => storable e = Err err
  | Panic => False
  end.
Proof.
  intros He. rewrite from_event_spec. pose proof (storable_safe e) as Hs. destruct (storable e) as [[]|err|] eqn:E; cbn [mbind outcome_bind]; [|done..].
  split; [done|]. split; [by apply with_event_stored|]. intros out Ho. rewrite collect_p_tags_stored by done.
  destruct (storable_inv e E) as (_ & Hl & _). pose proof (p_keys_le (ne_tags e)). rewrite take_ge; [done|]. unfold NostrTagsRef, NostrTagRef, NostrPublicKey, len in *. lia.
Qed.

Definition stored_sample : NostrEvent := mk_event (zeros 32) (zeros 32) 7 1 [[str "p"; hex_bytes (zeros 32)]; [str "e"]] (str "hi") (zeros 64).

Lemma stored_event_roundtrip_witness :
  storable stored_sample = Ok tt /\
  match from_event stored_sample with
  | Ok r => storable stored_sample = Ok tt /\ with_event r (fun e => Ok (ne_created_at e)) = Ok 7 /\
      forall out, HYF_NOSTR_MAX_TAGS <= len out ->
        collect_p_tags r out = (Ok (len (p_keys (ne_tags stored_sample))), p_keys (ne_tags stored_sample) ++ drop (length (p_keys (ne_tags stored_sample))) out)
  | Err err => storable stored_sample = Err err
  | Panic => False
  end.
Proof.
  split; [vm_compute; reflexivity|]. apply (stored_event_roundtrip stored_sample (fun e => Ok (ne_created_at e))).
  split; [apply str_ok_ascii; vm_compute; by repeat constructor|]. repeat (apply List.Forall_cons || apply List.Forall_nil); (split; [|done]);
    repeat (apply List.Forall_cons || apply List.Forall_nil); apply (bool_decide_unpack _); vm_compute; exact I.
Defined.

(** A message of the form "prefix: detail" is read as its parts: up to the first
    colon the prefix, with its meaning when it is one of the nine machine-readable
    ones, and behind it the detail, less one space; without a colon it is all
    detail.  A positive answer with the prefix "duplicate" is a duplicate. *)
Theorem relay_status_parse message :
  let s := parse_relay_status message in
  (58 ∉ message /\ s = mk_status PrefixUnknown [] message) \/
  (exists detail, message = rs_raw_prefix s ++ 58 :: detail /\ 58 ∉ rs_raw_prefix s /\ rs_prefix s = status_prefix (rs_raw_prefix s) /\
    (detail = 32 :: rs_detail s \/ detail = rs_detail s /\ head detail <> Some 32)) /\
  (rs_prefix s = PrefixDuplicate <-> rs_raw_prefix s = str "duplicate").
Proof.
  cbv zeta. unfold parse_relay_status. pose proof (split_colon_spec message) as H. destruct (split_colon message) as [[prefix detail]|]; [|by left].
  destruct H as [-> Hp]. right. cbn [rs_raw_prefix rs_prefix rs_detail]. split.
  - exists detail. split_and!; [done..|]. destruct (decide (head detail = Some 32)) as [Hd|Hd].
    + left. destruct detail as [|b detail]; [done|]. by injection Hd as ->.
    + right. split; [|done]. destruct detail as [|b detail]; [done|]. unfold strip_space. cbn [head] in Hd.
      destruct (decide (b = 32)) as [->|Hb]; [done|].
      repeat (match goal with |- context [match ?x with _ => _ end] => destruct x; try done end).
  - unfold status_prefix. split; [|by intros ->].
    repeat case_bool_decide; try done.
Qed.
