(* ===== verification/NostrRelay.v ===== *)
(** [hyf_link_nostr]: the in-memory relay
    (src/crates/hyf_link_nostr/src/fake_relay.rs).

    A relay keeps the events it accepted, the subscriptions of its client and a
    queue of outputs, each in an array with room for a fixed number.  Outputs that
    show an accepted event point into the array of events; outputs of events from
    elsewhere point into a heap of as many places as the queue has.

    [NostrRelayRefine] shows that these arrays behave as a list of events, a map
    of subscriptions and a queue. *)
From S2P Require Import Prelude Utf8 Cursor Core Wire NostrHex NostrJson Nostr NostrStored.
From stdpp Require Import strings.

Open Scope Z_scope.

Definition EVENT_P_TAG_SCAN_CAPACITY : Z := 8.

Definition StoredControlString_from_str (value : list Z) : outcome NostrError StoredString :=
  StoredString_from_str HYF_NOSTR_MAX_RELAY_STATUS_CHARS value.
Definition StoredSubscriptionId_from_str (value : list Z) : outcome NostrError StoredString :=
  StoredString_from_str NOSTR_SUBSCRIPTION_ID_MAX_LEN value.

Record FakeNostrRelayMetrics := mk_relay_metrics {
  rm_stored_events : Z;
  rm_active_subscriptions : Z;
  rm_queued_outputs : Z;
  rm_output_overflows : Z;
}.
#[export] Instance FakeNostrRelayMetrics_eq_dec : EqDecision FakeNostrRelayMetrics. Proof. solve_decision. Defined.

Record FakeNostrSubscription := mk_subscription { su_id : list Z; su_filters : list NostrFilter }.

Inductive FakeNostrRelayOutput :=
| OutOk (event_id : NostrEventId) (accepted : bool) (status : NostrRelayStatus)
| OutEvent (subscription_id : list Z) (event : NostrEvent)
| OutEose (subscription_id : list Z)
| OutClosed (subscription_id : list Z) (status : NostrRelayStatus)
| OutNotice (message : list Z)
| OutAuth (challenge : list Z).
#[export] Instance FakeNostrRelayOutput_eq_dec : EqDecision FakeNostrRelayOutput. Proof. solve_decision. Defined.

Inductive FakeNostrRelayControlOutput :=
| CtlOk (event_id : NostrEventId) (accepted : bool) (status : NostrRelayStatus)
| CtlEose (subscription_id : list Z)
| CtlClosed (subscription_id : list Z) (status : NostrRelayStatus)
| CtlNotice (message : list Z)
| CtlAuth (challenge : list Z).

Inductive FakeNostrPublishProfile := HyfEnvelopeProfile | SignedKind (kind : Z).

Record StoredRelayStatus := mk_stored_status { sr_prefix : NostrRelayStatusPrefix; sr_raw_prefix : StoredString; sr_detail : StoredString }.

Inductive FakeNostrRelayOutputRecord :=
| RecOk (event_id : NostrEventId) (accepted : bool) (status : StoredRelayStatus)
| RecStoredEvent (subscription_id : list Z) (event_index : Z)
| RecOwnedEvent (subscription_id : list Z) (output_event_index : Z)
| RecEose (subscription_id : StoredString)
| RecClosed (subscription_id : StoredString) (status : StoredRelayStatus)
| RecNotice (message : StoredString)
| RecAuth (challenge : StoredString).

Definition StoredRelayStatus_from_status (status : NostrRelayStatus) : outcome NostrError StoredRelayStatus :=
  raw_prefix ← StoredControlString_from_str (rs_raw_prefix status);
  detail ← StoredControlString_from_str (rs_detail status);
  Ok (mk_stored_status (rs_prefix status) raw_prefix detail).

Definition StoredRelayStatus_as_status (s : StoredRelayStatus) : outcome NostrError NostrRelayStatus :=
  raw_prefix ← StoredString_as_str (sr_raw_prefix s);
  detail ← StoredString_as_str (sr_detail s);
  Ok (mk_status (sr_prefix s) raw_prefix detail).

(** [slice.get(i).and_then(Option::as_ref)] *)
Definition get_slot {A} (l : list (option A)) (i : Z) : option A :=
  if i <? 0 then None else match l !! Z.to_nat i with Some slot => slot | None => None end.

Definition with_view {T} (record : FakeNostrRelayOutputRecord) (events output_events : list (option FakeNostrEventRecord))
    (f : FakeNostrRelayOutput -> T) : outcome NostrError T :=
  match record with
  | RecOk event_id accepted status => status ← StoredRelayStatus_as_status status; Ok (f (OutOk event_id accepted status))
  | RecStoredEvent subscription_id event_index =>
      event ← ok_or (get_slot events event_index) Unsupported;
      with_event event (fun event => Ok (f (OutEvent subscription_id event)))
  | RecOwnedEvent subscription_id output_event_index =>
      event ← ok_or (get_slot output_events output_event_index) Unsupported;
      with_event event (fun event => Ok (f (OutEvent subscription_id event)))
  | RecEose subscription_id => subscription_id ← StoredString_as_str subscription_id; Ok (f (OutEose subscription_id))
  | RecClosed subscription_id status =>
      subscription_id ← StoredString_as_str subscription_id;
      status ← StoredRelayStatus_as_status status;
      Ok (f (OutClosed subscription_id status))
  | RecNotice message => message ← StoredString_as_str message; Ok (f (OutNotice message))
  | RecAuth challenge => challenge ← StoredString_as_str challenge; Ok (f (OutAuth challenge))
  end.

Record FakeNostrRelay := mk_relay {
  fr_events : list (option FakeNostrEventRecord);
  fr_subscriptions : list (option FakeNostrSubscription);
  fr_outputs : list (option FakeNostrRelayOutputRecord);
  fr_output_events : list (option FakeNostrEventRecord);
  fr_next_publish_rejection : option StoredRelayStatus;
  fr_metrics : FakeNostrRelayMetrics;
}.

Definition with_events (l : list (option FakeNostrEventRecord)) (r : FakeNostrRelay) : FakeNostrRelay :=
  mk_relay l (fr_subscriptions r) (fr_outputs r) (fr_output_events r) (fr_next_publish_rejection r) (fr_metrics r).
Definition with_subscriptions (l : list (option FakeNostrSubscription)) (r : FakeNostrRelay) : FakeNostrRelay :=
  mk_relay (fr_events r) l (fr_outputs r) (fr_output_events r) (fr_next_publish_rejection r) (fr_metrics r).
Definition with_outputs (l : list (option FakeNostrRelayOutputRecord)) (r : FakeNostrRelay) : FakeNostrRelay :=
  mk_relay (fr_events r) (fr_subscriptions r) l (fr_output_events r) (fr_next_publish_rejection r) (fr_metrics r).
Definition with_output_events (l : list (option FakeNostrEventRecord)) (r : FakeNostrRelay) : FakeNostrRelay :=
  mk_relay (fr_events r) (fr_subscriptions r) (fr_outputs r) l (fr_next_publish_rejection r) (fr_metrics r).
Definition with_rejection (s : option StoredRelayStatus) (r : FakeNostrRelay) : FakeNostrRelay :=
  mk_relay (fr_events r) (fr_subscriptions r) (fr_outputs r) (fr_output_events r) s (fr_metrics r).
Definition with_metrics (m : FakeNostrRelayMetrics) (r : FakeNostrRelay) : FakeNostrRelay :=
  mk_relay (fr_events r) (fr_subscriptions r) (fr_outputs r) (fr_output_events r) (fr_next_publish_rejection r) m.

(** The counters, with the overflow check of [+= 1] and [-= 1]. *)
Definition count_stored (r : FakeNostrRelay) : outcome NostrError FakeNostrRelay :=
  let m := fr_metrics r in
  if rm_stored_events m =? usize_MAX then Panic
  else Ok (with_metrics (mk_relay_metrics (rm_stored_events m + 1) (rm_active_subscriptions m) (rm_queued_outputs m) (rm_output_overflows m)) r).
Definition count_active (r : FakeNostrRelay) : outcome NostrError FakeNostrRelay :=
  let m := fr_metrics r in
  if rm_active_subscriptions m =? usize_MAX then Panic
  else Ok (with_metrics (mk_relay_metrics (rm_stored_events m) (rm_active_subscriptions m + 1) (rm_queued_outputs m) (rm_output_overflows m)) r).
Definition uncount_active (r : FakeNostrRelay) : outcome NostrError FakeNostrRelay :=
  let m := fr_metrics r in
  if rm_active_subscriptions m =? 0 then Panic
  else Ok (with_metrics (mk_relay_metrics (rm_stored_events m) (rm_active_subscriptions m - 1) (rm_queued_outputs m) (rm_output_overflows m)) r).
Definition count_queued (r : FakeNostrRelay) : outcome NostrError FakeNostrRelay :=
  let m := fr_metrics r in
  if rm_queued_outputs m =? usize_MAX then Panic
  else Ok (with_metrics (mk_relay_metrics (rm_stored_events m) (rm_active_subscriptions m) (rm_queued_outputs m + 1) (rm_output_overflows m)) r).
Definition uncount_queued (r : FakeNostrRelay) : outcome NostrError FakeNostrRelay :=
  let m := fr_metrics r in
  if rm_queued_outputs m =? 0 then Panic
  else Ok (with_metrics (mk_relay_metrics (rm_stored_events m) (rm_active_subscriptions m) (rm_queued_outputs m - 1) (rm_output_overflows m)) r).
Definition count_overflow (r : FakeNostrRelay) : outcome NostrError FakeNostrRelay :=
  let m := fr_metrics r in
  if rm_output_overflows m =? usize_MAX then Panic
  else Ok (with_metrics (mk_relay_metrics (rm_stored_events m) (rm_active_subscriptions m) (rm_queued_outputs m) (rm_output_overflows m + 1)) r).

Definition update {S} (f : S -> outcome NostrError S) : io S NostrError unit := s ← get; s' ← lift (f s); put s'.
Definition modify {S E} (f : S -> S) : io S E unit := s ← get; put (f s).

Definition replay_limit_step (limit : option Z) (filter_limit : Z) : option Z :=
  match limit with Some total => Some (Z.min (total + filter_limit) usize_MAX) | None => None end.
(** The early return of [filter.limit?]: a filter without a limit lifts it. *)
Fixpoint replay_limit_loop (limit : option Z) (filters : list NostrFilter) : option Z :=
  match filters with
  | [] => limit
  | filter :: filters =>
      match nf_limit filter with
      | None => None
      | Some filter_limit => replay_limit_loop (replay_limit_step limit filter_limit) filters
      end
  end.
Definition replay_limit (filters : list NostrFilter) : option Z := replay_limit_loop (Some 0) filters.

Definition event_matches_filters (event : FakeNostrEventRecord) (filters : list NostrFilter) : outcome NostrError bool :=
  match collect_p_tags event (replicate (Z.to_nat EVENT_P_TAG_SCAN_CAPACITY) (zeros 32)) with
  | (Ok p_tag_count, p_tags) =>
      p_tags ← take_to p_tags p_tag_count;
      Ok (matches_any_filter filters (mk_target (er_kind event) (er_pubkey event) p_tags (er_created_at event)))
  | (Err e, _) => Err e
  | (Panic, _) => Panic
  end.

Definition event_sorts_before (candidate current : FakeNostrEventRecord) : bool :=
  (er_created_at candidate >? er_created_at current)
  || ((er_created_at candidate =? er_created_at current) && lex_lt (er_id candidate) (er_id current)).

Definition empty_status : NostrRelayStatus := mk_status PrefixUnknown [] [].
Definition duplicate_status : NostrRelayStatus := mk_status PrefixDuplicate (str "duplicate") (str "already stored").
Definition invalid_status : NostrRelayStatus := mk_status PrefixInvalid (str "invalid") (str "invalid event").

Section relay.
Context {P : NostrPrims}.
Context (EVENT_CAPACITY SUBSCRIPTION_CAPACITY OUTPUT_CAPACITY : Z).

Definition FakeNostrRelay_new : FakeNostrRelay :=
  mk_relay (replicate (Z.to_nat EVENT_CAPACITY) None) (replicate (Z.to_nat SUBSCRIPTION_CAPACITY) None)
    (replicate (Z.to_nat OUTPUT_CAPACITY) None) (replicate (Z.to_nat OUTPUT_CAPACITY) None) None (mk_relay_metrics 0 0 0 0).

Definition stored_event_count (r : FakeNostrRelay) : Z := len (occupied (fr_events r)).

Definition remember_subscription (subscription_id : list Z) (filters : list NostrFilter) : io FakeNostrRelay NostrError unit :=
  _ ← lift (validate_subscription_id subscription_id);
  r ← get;
  match position_some (fun subscription => bool_decide (su_id subscription = subscription_id)) (fr_subscriptions r) with
  | Some index =>
      subscriptions ← lift (set_at (fr_subscriptions r) index (Some (mk_subscription subscription_id filters)));
      put (with_subscriptions subscriptions r)
  | None =>
      slot ← lift (ok_or (position_none (fr_subscriptions r)) (RelaySubscriptionFull SUBSCRIPTION_CAPACITY));
      subscriptions ← lift (set_at (fr_subscriptions r) slot (Some (mk_subscription subscription_id filters)));
      _ ← put (with_subscriptions subscriptions r);
      update count_active
  end.

Definition enqueue_output_record_index (output : FakeNostrRelayOutputRecord) : io FakeNostrRelay NostrError Z :=
  r ← get;
  match position_none (fr_outputs r) with
  | None => _ ← update count_overflow; lift (Err (RelayOutputFull OUTPUT_CAPACITY))
  | Some index =>
      outputs ← lift (set_at (fr_outputs r) index (Some output));
      _ ← put (with_outputs outputs r);
      _ ← update count_queued;
      mret index
  end.
Definition enqueue_output_record (output : FakeNostrRelayOutputRecord) : io FakeNostrRelay NostrError unit :=
  _ ← enqueue_output_record_index output; mret tt.

(** The loop of [next_replay_event] over what is left of the array. *)
Fixpoint next_replay_loop (events : list (option FakeNostrEventRecord)) (filters : list NostrFilter) (emitted : list bool)
    (index : Z) (rest : list (option FakeNostrEventRecord)) (best : option Z) : outcome NostrError (option Z) :=
  match rest with
  | [] => Ok best
  | event :: rest =>
      done_ ← Prelude.index emitted index;
      if done_ : bool then next_replay_loop events filters emitted (index + 1) rest best
      else
        match event with
        | None => next_replay_loop events filters emitted (index + 1) rest best
        | Some event =>
            m ← event_matches_filters event filters;
            if negb m then next_replay_loop events filters emitted (index + 1) rest best
            else
              match best with
              | Some current_index =>
                  current ← Prelude.index events current_index;
                  current ← ok_or current Unsupported;
                  next_replay_loop events filters emitted (index + 1) rest (if event_sorts_before event current then Some index else best)
              | None => next_replay_loop events filters emitted (index + 1) rest (Some index)
              end
        end
  end.
Definition next_replay_event (r : FakeNostrRelay) (filters : list NostrFilter) (emitted : list bool) : outcome NostrError (option Z) :=
  next_replay_loop (fr_events r) filters emitted 0 (fr_events r) None.

(** The [while] loop of [replay_subscription]; every turn marks one more event, so
    one turn more than there are events is enough. *)
Fixpoint replay_loop (fuel : nat) (subscription_id : list Z) (filters : list NostrFilter) (emitted : list bool) (emitted_count : Z)
  : io FakeNostrRelay NostrError unit :=
  match fuel with
  | O => lift Panic
  | S fuel =>
      if is_none_or (replay_limit filters) (fun limit => emitted_count <? limit) then
        r ← get;
        index ← lift (next_replay_event r filters emitted);
        match index with
        | None => mret tt
        | Some index =>
            _ ← enqueue_output_record (RecStoredEvent subscription_id index);
            emitted ← lift (set_at emitted index true);
            replay_loop fuel subscription_id filters emitted (emitted_count + 1)
        end
      else mret tt
  end.
Definition replay_subscription (subscription_id : list Z) (filters : list NostrFilter) : io FakeNostrRelay NostrError unit :=
  _ ← replay_loop (S (Z.to_nat EVENT_CAPACITY)) subscription_id filters (replicate (Z.to_nat EVENT_CAPACITY) false) 0;
  subscription_id ← lift (StoredSubscriptionId_from_str subscription_id);
  enqueue_output_record (RecEose subscription_id).

Definition subscribe (subscription_id : list Z) (filters : list NostrFilter) : io FakeNostrRelay NostrError unit :=
  _ ← remember_subscription subscription_id filters;
  replay_subscription subscription_id filters.

Definition reject_next_publish (status : NostrRelayStatus) : io FakeNostrRelay NostrError unit :=
  status ← lift (StoredRelayStatus_from_status status);
  modify (with_rejection (Some status)).

Definition close_subscription (subscription_id : list Z) : io FakeNostrRelay NostrError bool :=
  _ ← lift (validate_subscription_id subscription_id);
  r ← get;
  match position_some (fun subscription => bool_decide (su_id subscription = subscription_id)) (fr_subscriptions r) with
  | Some index =>
      subscriptions ← lift (set_at (fr_subscriptions r) index None);
      _ ← put (with_subscriptions subscriptions r);
      _ ← update uncount_active;
      mret true
  | None => mret false
  end.

(** The state is [decode_buffer]. *)
Definition validate_publish_profile (event : NostrEvent) (profile : FakeNostrPublishProfile) : io (list Z) NostrError unit :=
  match profile with
  | HyfEnvelopeProfile => _ ← verify_and_decode_hyf_nostr_event event; mret tt
  | SignedKind kind =>
      _ ← lift (verify_event event);
      lift (guard_err (negb (ne_kind event =? kind)) (UnexpectedKind kind (ne_kind event)))
  end.

Definition contains_event (r : FakeNostrRelay) (event_id : NostrEventId) : bool :=
  existsb (fun event => bool_decide (er_id event = event_id)) (occupied (fr_events r)).

Definition store_event (event : NostrEvent) : io FakeNostrRelay NostrError unit :=
  record ← lift (from_event event);
  r ← get;
  slot ← lift (ok_or (position_none (fr_events r)) (RelayEventStoreFull EVENT_CAPACITY));
  events ← lift (set_at (fr_events r) slot (Some record));
  _ ← put (with_events events r);
  update count_stored.

Definition output_ok_status (r : FakeNostrRelay) (index : Z) : outcome NostrError NostrRelayStatus :=
  match get_slot (fr_outputs r) index with
  | Some (RecOk _ _ status) => StoredRelayStatus_as_status status
  | _ => Err Unsupported
  end.

(** [validate_publish_profile(..).is_err()]; the state is the relay and
    [decode_buffer]. *)
Definition invalid_for (event : NostrEvent) (profile : FakeNostrPublishProfile) : io (FakeNostrRelay * list Z) NostrError bool := fun s =>
  match validate_publish_profile event profile (snd s) with
  | (Ok _, buffer) => (Ok false, (fst s, buffer))
  | (Err _, buffer) => (Ok true, (fst s, buffer))
  | (Panic, buffer) => (Panic, (fst s, buffer))
  end.
Definition on_relay {A} (m : io FakeNostrRelay NostrError A) : io (FakeNostrRelay * list Z) NostrError A :=
  focus fst (fun r s => (r, snd s)) m.

Definition enqueue_ok (event_id : NostrEventId) (accepted : bool) (status : NostrRelayStatus) : io FakeNostrRelay NostrError unit :=
  status ← lift (StoredRelayStatus_from_status status);
  enqueue_output_record (RecOk event_id accepted status).

(** What follows the validation. *)
Definition publish_valid (event : NostrEvent) : io FakeNostrRelay NostrError NostrPublishOutcome :=
  r ← get;
  if contains_event r (ne_id event) then
    _ ← enqueue_ok (ne_id event) true duplicate_status;
    mret (AcceptedDuplicate duplicate_status)
  else
    match fr_next_publish_rejection r with
    | Some status =>
        _ ← put (with_rejection None r);
        output_index ← enqueue_output_record_index (RecOk (ne_id event) false status);
        r ← get;
        status ← lift (output_ok_status r output_index);
        mret (Rejected status)
    | None =>
        _ ← store_event event;
        _ ← enqueue_ok (ne_id event) true empty_status;
        mret (Accepted [])
    end.

Definition publish_with_profile (event : NostrEvent) (profile : FakeNostrPublishProfile)
  : io (FakeNostrRelay * list Z) NostrError NostrPublishOutcome :=
  invalid ← invalid_for event profile;
  if invalid : bool then
    _ ← on_relay (enqueue_ok (ne_id event) false invalid_status);
    mret (Rejected invalid_status)
  else on_relay (publish_valid event).

Definition publish (event : NostrEvent) : io (FakeNostrRelay * list Z) NostrError NostrPublishOutcome :=
  publish_with_profile event HyfEnvelopeProfile.

Definition enqueue_notice (message : list Z) : io FakeNostrRelay NostrError unit :=
  message ← lift (StoredControlString_from_str message);
  enqueue_output_record (RecNotice message).

Definition inject_closed (subscription_id : list Z) (status : NostrRelayStatus) : io FakeNostrRelay NostrError unit :=
  _ ← lift (validate_subscription_id subscription_id);
  subscription_id ← lift (StoredSubscriptionId_from_str subscription_id);
  status ← lift (StoredRelayStatus_from_status status);
  enqueue_output_record (RecClosed subscription_id status).

Definition inject_eose (subscription_id : list Z) : io FakeNostrRelay NostrError unit :=
  _ ← lift (validate_subscription_id subscription_id);
  subscription_id ← lift (StoredSubscriptionId_from_str subscription_id);
  enqueue_output_record (RecEose subscription_id).

Definition inject_auth_challenge (challenge : list Z) : io FakeNostrRelay NostrError unit :=
  challenge ← lift (StoredControlString_from_str challenge);
  enqueue_output_record (RecAuth challenge).

Definition enqueue_event_output (subscription_id : list Z) (event : NostrEvent) : io FakeNostrRelay NostrError unit :=
  record ← lift (from_event event);
  r ← get;
  match position_none (fr_output_events r) with
  | None => _ ← update count_overflow; lift (Err (RelayOutputFull OUTPUT_CAPACITY))
  | Some output_event_index =>
      _ ← enqueue_output_record (RecOwnedEvent subscription_id output_event_index);
      r ← get;
      output_events ← lift (set_at (fr_output_events r) output_event_index (Some record));
      put (with_output_events output_events r)
  end.

Definition enqueue_output (output : FakeNostrRelayOutput) : io FakeNostrRelay NostrError unit :=
  match output with
  | OutOk event_id accepted status => enqueue_ok event_id accepted status
  | OutEvent subscription_id event => enqueue_event_output subscription_id event
  | OutEose subscription_id => inject_eose subscription_id
  | OutClosed subscription_id status => inject_closed subscription_id status
  | OutNotice message => enqueue_notice message
  | OutAuth challenge => inject_auth_challenge challenge
  end.

Definition with_next_output {T} (r : FakeNostrRelay) (f : FakeNostrRelayOutput -> T) : outcome NostrError (option T) :=
  match get_slot (fr_outputs r) 0 with
  | None => Ok None
  | Some output => t ← with_view output (fr_events r) (fr_output_events r) f; Ok (Some t)
  end.

Definition next_control_output (r : FakeNostrRelay) : outcome NostrError (option FakeNostrRelayControlOutput) :=
  match get_slot (fr_outputs r) 0 with
  | None => Ok None
  | Some (RecOk event_id accepted status) =>
      status ← StoredRelayStatus_as_status status; Ok (Some (CtlOk event_id accepted status))
  | Some (RecStoredEvent _ _) | Some (RecOwnedEvent _ _) => Ok None
  | Some (RecEose subscription_id) => subscription_id ← StoredString_as_str subscription_id; Ok (Some (CtlEose subscription_id))
  | Some (RecClosed subscription_id status) =>
      subscription_id ← StoredString_as_str subscription_id;
      status ← StoredRelayStatus_as_status status;
      Ok (Some (CtlClosed subscription_id status))
  | Some (RecNotice message) => message ← StoredString_as_str message; Ok (Some (CtlNotice message))
  | Some (RecAuth challenge) => challenge ← StoredString_as_str challenge; Ok (Some (CtlAuth challenge))
  end.

(** [rotate_left(1)] *)
Definition rotate_left_1 {A} (l : list A) : list A := match l with [] => [] | x :: l => l ++ [x] end.

Definition consume_output : io FakeNostrRelay NostrError bool :=
  r ← get;
  match fr_outputs r with
  | [] | None :: _ => mret false
  | Some output :: _ =>
      output_events ← lift
        (match output with
         | RecOwnedEvent _ output_event_index => set_at (fr_output_events r) output_event_index None
         | _ => Ok (fr_output_events r)
         end);
      _ ← put (with_output_events output_events r);
      outputs ← lift (set_at (fr_outputs r) 0 None);
      outputs ← lift (if OUTPUT_CAPACITY >? 1 then set_at (rotate_left_1 outputs) (OUTPUT_CAPACITY - 1) None else Ok outputs);
      _ ← modify (with_outputs outputs);
      _ ← update uncount_queued;
      mret true
  end.

Definition pop_next_output {T} (f : FakeNostrRelayOutput -> T) : io FakeNostrRelay NostrError (option T) :=
  r ← get;
  output ← lift (with_next_output r f);
  _ ← (match output with Some _ => _ ← consume_output; mret tt | None => mret tt end);
  mret output.
End relay.
