(* ===== verification/NostrRelayRefine.v ===== *)
(** [hyf_link_nostr]: what the in-memory relay promises
    (src/crates/hyf_link_nostr/src/fake_relay.rs).

    The abstract relay [SpecRelay] is a list of events, a finite map of
    subscriptions, a queue of outputs, the rejection that waits for the next
    event and the number of outputs lost.  [represents] says which arrays stand
    for which abstract relay, the lemmas [.._refines] that every operation of
    [NostrRelay] is the operation of the abstract relay, and the claims what
    follows for sequences of operations from an empty relay. *)
From S2P Require Import Prelude Utf8 Cursor Core Wire NostrHex NostrJson Nostr NostrStored NostrRelay Queue Simulation.
From stdpp Require Import strings gmap sorting.

Open Scope Z_scope.

(** ** The queue of outputs *)
Section queues.
Context {A : Type}.
Implicit Types l : list A.

Lemma queue_get N l i : 0 <= i -> get_slot (queue_of N l) i = l !! Z.to_nat i.
Proof.
  intros Hi. unfold get_slot. destruct (Z.ltb_spec i 0); [lia|]. unfold queue_of. destruct (decide (Z.to_nat i < length l)%nat) as [Hl|Hl].
  - rewrite lookup_app_l by (by rewrite length_fmap). rewrite list_lookup_fmap. by destruct (l !! Z.to_nat i).
  - rewrite lookup_app_r by (rewrite length_fmap; lia). rewrite (lookup_ge_None_2 l) by lia. rewrite length_fmap.
    destruct (replicate _ None !! _) as [s|] eqn:E; [|done]. by apply lookup_replicate_1 in E as [-> _].
Qed.

Lemma queue_pop N x l : len (x :: l) <= N ->
  set_at (E:=NostrError) (queue_of N (x :: l)) 0 None = Ok (None :: queue_of (N - 1) l) /\
  (1 < N -> set_at (E:=NostrError) (rotate_left_1 (None :: queue_of (N - 1) l)) (N - 1) None = Ok (queue_of N l)) /\
  (N = 1 -> None :: queue_of (N - 1) l = queue_of N l).
Proof.
  rewrite len_cons. intros H. pose proof (len_nonneg l). assert (queue_of N (x :: l) = Some x :: queue_of (N - 1) l) as ->.
  { unfold queue_of. rewrite len_cons. by replace (N - (1 + len l)) with (N - 1 - len l) by lia. }
  assert (queue_of (N - 1) l ++ [None] = queue_of N l) as Hq.
  { unfold queue_of. rewrite <- app_assoc. f_equal. change [@None A] with (replicate 1 (@None A)). rewrite <- replicate_add. f_equal. lia. }
  split; [done|]. split.
  - intros HN. cbn [rotate_left_1]. pose proof (set_at_app (E:=NostrError) (queue_of (N - 1) l) None [] None) as Hs. rewrite len_queue in Hs by lia. by rewrite Hs, Hq.
  - intros ->. rewrite <- Hq. assert (l = []) as -> by (apply len_0_nil; lia). done.
Qed.
End queues.

(** ** The abstract relay *)
Definition status_check (s : NostrRelayStatus) : outcome NostrError unit :=
  _ ← guard_err (len (rs_raw_prefix s) >? HYF_NOSTR_MAX_RELAY_STATUS_CHARS) (StoredStringTooLarge (len (rs_raw_prefix s)) HYF_NOSTR_MAX_RELAY_STATUS_CHARS);
  guard_err (len (rs_detail s) >? HYF_NOSTR_MAX_RELAY_STATUS_CHARS) (StoredStringTooLarge (len (rs_detail s)) HYF_NOSTR_MAX_RELAY_STATUS_CHARS).
Definition text_check (t : list Z) : outcome NostrError unit :=
  guard_err (len t >? HYF_NOSTR_MAX_RELAY_STATUS_CHARS) (StoredStringTooLarge (len t) HYF_NOSTR_MAX_RELAY_STATUS_CHARS).

Record SpecRelay := mk_spec {
  sp_events : list NostrEvent;
  sp_subscriptions : gmap (list Z) (list NostrFilter);
  sp_outputs : list FakeNostrRelayOutput;
  sp_rejection : option NostrRelayStatus;
  sp_overflows : Z;
}.

(** An event matches on what it says of itself. *)
Definition event_target (e : NostrEvent) : NostrFilterTarget := mk_target (ne_kind e) (ne_pubkey e) (p_keys (ne_tags e)) (ne_created_at e).
Definition event_matches (filters : list NostrFilter) (e : NostrEvent) : bool := matches_any_filter filters (event_target e).

(** Newer events first, and among those of a second the smaller identifier. *)
Definition event_before (e e' : NostrEvent) : bool :=
  (ne_created_at e >? ne_created_at e') || ((ne_created_at e =? ne_created_at e') && lex_lt (ne_id e) (ne_id e')).
Definition event_le (e e' : NostrEvent) : Prop := event_before e' e = false.
#[export] Instance event_le_dec : RelDecision event_le.
Proof. intros e e'. unfold event_le. apply _. Defined.

Definition take_limit {A} (limit : option Z) (l : list A) : list A := match limit with None => l | Some n => take (Z.to_nat n) l end.

(** What a subscription replays: the matching events in order, as many as the sum
    of the filters' limits. *)
Definition replay_events (events : list NostrEvent) (filters : list NostrFilter) : list NostrEvent :=
  take_limit (replay_limit filters) (merge_sort event_le (List.filter (event_matches filters) events)).

Section spec.
Context {P : NostrPrims}.
Context (EVENT_CAPACITY SUBSCRIPTION_CAPACITY OUTPUT_CAPACITY : Z).

Definition spec_new : SpecRelay := mk_spec [] ∅ [] None 0.

Definition spec_with_outputs (l : list FakeNostrRelayOutput) (s : SpecRelay) : SpecRelay :=
  mk_spec (sp_events s) (sp_subscriptions s) l (sp_rejection s) (sp_overflows s).
Definition spec_with_events (l : list NostrEvent) (s : SpecRelay) : SpecRelay :=
  mk_spec l (sp_subscriptions s) (sp_outputs s) (sp_rejection s) (sp_overflows s).
Definition spec_with_subscriptions (m : gmap (list Z) (list NostrFilter)) (s : SpecRelay) : SpecRelay :=
  mk_spec (sp_events s) m (sp_outputs s) (sp_rejection s) (sp_overflows s).
Definition spec_with_rejection (o : option NostrRelayStatus) (s : SpecRelay) : SpecRelay :=
  mk_spec (sp_events s) (sp_subscriptions s) (sp_outputs s) o (sp_overflows s).
Definition spec_with_overflows (n : Z) (s : SpecRelay) : SpecRelay :=
  mk_spec (sp_events s) (sp_subscriptions s) (sp_outputs s) (sp_rejection s) n.

(** Outputs are kept until the queue is full; a lost output is counted, and the
    counter itself must not overflow. *)
Definition spec_enqueue (output : FakeNostrRelayOutput) : io SpecRelay NostrError unit :=
  s ← get;
  if len (sp_outputs s) <? OUTPUT_CAPACITY then put (spec_with_outputs (sp_outputs s ++ [output]) s)
  else if sp_overflows s =? usize_MAX then lift Panic
  else _ ← put (spec_with_overflows (sp_overflows s + 1) s); lift (Err (RelayOutputFull OUTPUT_CAPACITY)).

Fixpoint spec_enqueue_events (subscription_id : list Z) (events : list NostrEvent) : io SpecRelay NostrError unit :=
  match events with
  | [] => mret tt
  | e :: events => _ ← spec_enqueue (OutEvent subscription_id e); spec_enqueue_events subscription_id events
  end.

Definition spec_remember (subscription_id : list Z) (filters : list NostrFilter) : io SpecRelay NostrError unit :=
  _ ← lift (validate_subscription_id subscription_id);
  s ← get;
  if bool_decide (is_Some (sp_subscriptions s !! subscription_id)) || (Z.of_nat (size (sp_subscriptions s)) <? SUBSCRIPTION_CAPACITY)
  then put (spec_with_subscriptions (<[subscription_id := filters]> (sp_subscriptions s)) s)
  else lift (Err (RelaySubscriptionFull SUBSCRIPTION_CAPACITY)).

Definition spec_subscribe (subscription_id : list Z) (filters : list NostrFilter) : io SpecRelay NostrError unit :=
  _ ← spec_remember subscription_id filters;
  s ← get;
  _ ← spec_enqueue_events subscription_id (replay_events (sp_events s) filters);
  spec_enqueue (OutEose subscription_id).

Definition spec_reject (status : NostrRelayStatus) : io SpecRelay NostrError unit :=
  _ ← lift (status_check status);
  modify (spec_with_rejection (Some status)).

Definition spec_close (subscription_id : list Z) : io SpecRelay NostrError bool :=
  _ ← lift (validate_subscription_id subscription_id);
  s ← get;
  _ ← put (spec_with_subscriptions (delete subscription_id (sp_subscriptions s)) s);
  mret (bool_decide (is_Some (sp_subscriptions s !! subscription_id))).

Definition spec_publish_valid (event : NostrEvent) : io SpecRelay NostrError NostrPublishOutcome :=
  s ← get;
  if existsb (fun e => bool_decide (ne_id e = ne_id event)) (sp_events s) then
    _ ← spec_enqueue (OutOk (ne_id event) true duplicate_status);
    mret (AcceptedDuplicate duplicate_status)
  else
    match sp_rejection s with
    | Some status =>
        _ ← put (spec_with_rejection None s);
        _ ← spec_enqueue (OutOk (ne_id event) false status);
        mret (Rejected status)
    | None =>
        _ ← lift (storable event);
        _ ← lift (guard_err (negb (len (sp_events s) <? EVENT_CAPACITY)) (RelayEventStoreFull EVENT_CAPACITY));
        _ ← put (spec_with_events (sp_events s ++ [event]) s);
        _ ← spec_enqueue (OutOk (ne_id event) true empty_status);
        mret (Accepted [])
    end.

(** The verdict on the event, and the state is the relay and the buffer. *)
Definition spec_publish (event : NostrEvent) (profile : FakeNostrPublishProfile) : io (SpecRelay * list Z) NostrError NostrPublishOutcome := fun s =>
  let '(verdict, buffer) := validate_publish_profile event profile (snd s) in
  match verdict with
  | Ok _ => let '(r, a) := spec_publish_valid event (fst s) in (r, (a, buffer))
  | Err _ => let '(r, a) := (_ ← spec_enqueue (OutOk (ne_id event) false invalid_status); mret (Rejected invalid_status)) (fst s) in (r, (a, buffer))
  | Panic => (Panic, (fst s, buffer))
  end.

Definition spec_enqueue_output (output : FakeNostrRelayOutput) : io SpecRelay NostrError unit :=
  _ ← lift (match output with
            | OutOk _ _ status => status_check status
            | OutEvent _ event => storable event
            | OutEose subscription_id => validate_subscription_id subscription_id
            | OutClosed subscription_id status => _ ← validate_subscription_id subscription_id; status_check status
            | OutNotice text | OutAuth text => text_check text
            end);
  spec_enqueue output.

Definition spec_next (s : SpecRelay) : option FakeNostrRelayOutput := head (sp_outputs s).

Definition spec_consume : io SpecRelay NostrError bool :=
  s ← get;
  match sp_outputs s with
  | [] => mret false
  | _ :: outputs => _ ← put (spec_with_outputs outputs s); mret true
  end.

Definition control_of (output : FakeNostrRelayOutput) : option FakeNostrRelayControlOutput :=
  match output with
  | OutOk event_id accepted status => Some (CtlOk event_id accepted status)
  | OutEvent _ _ => None
  | OutEose subscription_id => Some (CtlEose subscription_id)
  | OutClosed subscription_id status => Some (CtlClosed subscription_id status)
  | OutNotice message => Some (CtlNotice message)
  | OutAuth challenge => Some (CtlAuth challenge)
  end.
End spec.

(** ** How the arrays represent the abstract relay *)
Definition stored_control (v : list Z) : StoredString := stored_string HYF_NOSTR_MAX_RELAY_STATUS_CHARS v.
Definition stored_subscription (v : list Z) : StoredString := stored_string NOSTR_SUBSCRIPTION_ID_MAX_LEN v.
Definition stored_status (s : NostrRelayStatus) : StoredRelayStatus :=
  mk_stored_status (rs_prefix s) (stored_control (rs_raw_prefix s)) (stored_control (rs_detail s)).

Definition status_ok (s : NostrRelayStatus) : Prop := str_ok (rs_raw_prefix s) /\ str_ok (rs_detail s).
Definition status_fits (s : NostrRelayStatus) : Prop := status_ok s /\ status_check s = Ok tt.
Definition text_fits (t : list Z) : Prop := str_ok t /\ text_check t = Ok tt.
Definition id_fits (id : list Z) : Prop := str_ok id /\ validate_subscription_id id = Ok tt.
Definition event_fits (e : NostrEvent) : Prop := event_text_ok e /\ storable e = Ok tt.

(** The output that a record of the queue stands for. *)
Definition shows (events heap : list (option FakeNostrEventRecord)) (rec : FakeNostrRelayOutputRecord) (output : FakeNostrRelayOutput) : Prop :=
  match rec, output with
  | RecOk id accepted s, OutOk id' accepted' s' => id = id' /\ accepted = accepted' /\ s = stored_status s' /\ status_fits s'
  | RecStoredEvent sid i, OutEvent sid' e => sid = sid' /\ get_slot events i = Some (stored_event e) /\ event_fits e
  | RecOwnedEvent sid i, OutEvent sid' e => sid = sid' /\ get_slot heap i = Some (stored_event e) /\ event_fits e
  | RecEose sid, OutEose sid' => sid = stored_subscription sid' /\ id_fits sid'
  | RecClosed sid s, OutClosed sid' s' => sid = stored_subscription sid' /\ id_fits sid' /\ s = stored_status s' /\ status_fits s'
  | RecNotice t, OutNotice t' | RecAuth t, OutAuth t' => t = stored_control t' /\ text_fits t'
  | _, _ => False
  end.

Definition owned (rec : FakeNostrRelayOutputRecord) : option Z := match rec with RecOwnedEvent _ i => Some i | _ => None end.

(** The places of the heap in use are those the queue owns, each once. *)
Record heap_ok (N : Z) (heap : list (option FakeNostrEventRecord)) (recs : list FakeNostrRelayOutputRecord) : Prop := {
  ho_len : len heap = N;
  ho_owned : NoDup (omap owned recs);
  ho_used : forall i, is_Some (get_slot heap i) -> i ∈ omap owned recs;
  ho_range : Forall (fun i => 0 <= i < N) (omap owned recs);
}.

Definition su_entry (s : FakeNostrSubscription) : list Z * list NostrFilter := (su_id s, su_filters s).

Record represents (E S N : Z) (r : FakeNostrRelay) (a : SpecRelay) : Prop := {
  rp_events : fr_events r = queue_of E (stored_event <$> sp_events a);
  rp_events_len : len (sp_events a) <= E;
  rp_events_fit : Forall event_fits (sp_events a);
  rp_events_ids : NoDup (ne_id <$> sp_events a);
  rp_subs_len : len (fr_subscriptions r) = S;
  rp_subs_ids : NoDup (su_id <$> occupied (fr_subscriptions r));
  rp_subs : sp_subscriptions a = list_to_map (su_entry <$> occupied (fr_subscriptions r));
  rp_outputs : exists recs, fr_outputs r = queue_of N recs /\ len recs <= N /\
    Forall2 (shows (fr_events r) (fr_output_events r)) recs (sp_outputs a) /\ heap_ok N (fr_output_events r) recs;
  rp_rejection : fr_next_publish_rejection r = stored_status <$> sp_rejection a;
  rp_rejection_ok : forall s, sp_rejection a = Some s -> status_fits s;
  rp_metrics : fr_metrics r = mk_relay_metrics (len (sp_events a)) (len (occupied (fr_subscriptions r))) (len (sp_outputs a)) (sp_overflows a);
}.

(** *** Strings and statuses *)
Lemma control_from_str v : StoredControlString_from_str v = (_ ← text_check v; Ok (stored_control v)).
Proof. unfold StoredControlString_from_str, text_check, guard_err. rewrite from_str_spec by done. by destruct (len v >? _). Qed.
Lemma control_as_str v : str_ok v -> StoredString_as_str (stored_control v) = Ok v.
Proof. apply as_str_stored. Qed.
Lemma subscription_as_str v : str_ok v -> StoredString_as_str (stored_subscription v) = Ok v.
Proof. apply as_str_stored. Qed.

Lemma validate_subscription_fits v : validate_subscription_id v = Ok tt -> StoredSubscriptionId_from_str v = Ok (stored_subscription v).
Proof.
  unfold validate_subscription_id, StoredSubscriptionId_from_str. cbv zeta. intros H. rewrite from_str_spec by done. destruct (len v =? 0); [done|]. by destruct (len v >? _).
Qed.

Lemma from_status_spec s : StoredRelayStatus_from_status s = (_ ← status_check s; Ok (stored_status s)).
Proof.
  unfold StoredRelayStatus_from_status, status_check. rewrite !control_from_str. unfold text_check, guard_err. destruct (len (rs_raw_prefix s) >? _); [done|].
  cbn [mbind outcome_bind]. by destruct (len (rs_detail s) >? _).
Qed.
Lemma as_status_stored s : status_ok s -> StoredRelayStatus_as_status (stored_status s) = Ok s.
Proof.
  intros [H1 H2]. unfold StoredRelayStatus_as_status, stored_status. cbn [sr_raw_prefix sr_detail sr_prefix]. rewrite !control_as_str by done.
  cbn [mbind outcome_bind]. by destruct s.
Qed.

(** *** Outputs *)
Lemma with_view_shows {T} events heap rec output (f : FakeNostrRelayOutput -> T) : shows events heap rec output -> with_view rec events heap f = Ok (f output).
Proof.
  destruct rec, output; try done; cbn [shows with_view].
  - intros (-> & -> & -> & [Hs _]). by rewrite as_status_stored.
  - intros (-> & -> & [Ht Hf]). cbn [ok_or mbind outcome_bind]. by rewrite with_event_stored.
  - intros (-> & -> & [Ht Hf]). cbn [ok_or mbind outcome_bind]. by rewrite with_event_stored.
  - intros (-> & [Hs _]). by rewrite subscription_as_str.
  - intros (-> & [Hs _] & -> & [Ht _]). rewrite subscription_as_str by done. cbn [mbind outcome_bind]. by rewrite as_status_stored.
  - intros (-> & [Hs _]). by rewrite control_as_str.
  - intros (-> & [Hs _]). by rewrite control_as_str.
Qed.

Lemma get_slot_range {A} (l : list (option A)) i : is_Some (get_slot l i) -> 0 <= i < len l.
Proof.
  unfold get_slot. destruct (Z.ltb_spec i 0); [by intros []|]. destruct (l !! Z.to_nat i) as [s|] eqn:E; [|by intros []]. apply lookup_lt_Some in E.
  unfold len. lia.
Qed.

Lemma get_slot_insert {A} (l : list (option A)) i j x : 0 <= i < len l -> 0 <= j -> get_slot (<[Z.to_nat i := x]> l) j = if i =? j then x else get_slot l j.
Proof.
  intros Hi Hj. unfold get_slot. destruct (Z.ltb_spec j 0); [lia|]. destruct (Z.eqb_spec i j) as [->|Hn].
  - rewrite list_lookup_insert_eq; [done|]. unfold len in Hi. lia.
  - by rewrite list_lookup_insert_ne by lia.
Qed.

(** Outputs stay what they are while events are added, and while the heap changes
    where they do not point. *)
Lemma shows_mono events events' heap heap' rec output :
  (forall i x, get_slot events i = Some x -> get_slot events' i = Some x) ->
  (forall i x, owned rec = Some i -> get_slot heap i = Some x -> get_slot heap' i = Some x) ->
  shows events heap rec output -> shows events' heap' rec output.
Proof. intros He Hh. destruct rec, output; cbn [shows]; try done; intros (-> & H & Hf); split_and!; eauto. Qed.

Lemma shows_list events events' heap heap' recs outputs :
  (forall i x, get_slot events i = Some x -> get_slot events' i = Some x) ->
  (forall i x, i ∈ omap owned recs -> get_slot heap i = Some x -> get_slot heap' i = Some x) ->
  Forall2 (shows events heap) recs outputs -> Forall2 (shows events' heap') recs outputs.
Proof.
  intros He Hh H. induction H as [|rec output recs outputs Hro H IH]; [by constructor|]. constructor.
  - eapply shows_mono; [exact He| |exact Hro]. intros i x Hi. apply Hh. cbn [omap list_omap]. rewrite Hi. by apply list_elem_of_here.
  - apply IH. intros i x Hi. apply Hh. cbn [omap list_omap]. destruct (owned rec); [by apply list_elem_of_further|done].
Qed.

(** *** The order of replay *)
Lemma before_irrefl e : event_before e e = false.
Proof. unfold event_before. rewrite lex_lt_irrefl, andb_false_r, orb_false_r, Z.gtb_ltb. apply Z.ltb_irrefl. Qed.

Lemma event_le_spec e e' : event_le e e' <->
  ne_created_at e' < ne_created_at e \/ (ne_created_at e' = ne_created_at e /\ lex_lt (ne_id e') (ne_id e) = false).
Proof.
  unfold event_le, event_before. rewrite Z.gtb_ltb. destruct (Z.ltb_spec (ne_created_at e) (ne_created_at e')); cbn [orb]; [split; [done|lia]|].
  destruct (Z.eqb_spec (ne_created_at e') (ne_created_at e)); cbn [andb]; [|split; [|done]; intros _; left; lia]. split; [by right|]. intros [?|[_ ?]]; [lia|done].
Qed.

#[export] Instance event_le_trans : Transitive event_le.
Proof.
  intros x y z. rewrite !event_le_spec. intros [|[]] [|[]]; try (left; lia). right. split; [lia|]. by eapply lex_lt_false_trans.
Qed.
#[export] Instance event_le_total : Total event_le.
Proof.
  intros x y. rewrite !event_le_spec. destruct (Z.lt_trichotomy (ne_created_at x) (ne_created_at y)) as [|[Heq|]]; [by right; left| |by left; left].
  destruct (lex_lt (ne_id y) (ne_id x)) eqn:H; [right; right; split; [done|]; by apply lex_lt_asym|]. left. by right.
Qed.
Lemma event_le_antisym e e' : event_le e e' -> event_le e' e -> ne_id e = ne_id e'.
Proof. rewrite !event_le_spec. intros [|[? H1]] [|[? H2]]; try lia. by apply lex_lt_total. Qed.

Lemma sort_cons (l l' : list NostrEvent) e :
  NoDup (ne_id <$> l) -> l ≡ₚ e :: l' -> (forall x, x ∈ l' -> event_le e x) -> merge_sort event_le l = e :: merge_sort event_le l'.
Proof.
  intros Hn Hp He. apply (StronglySorted_unique_strong event_le).
  - intros x y Hx Hy Hxy Hyx. rewrite merge_sort_Permutation in Hx. assert (y ∈ l) as Hy' by (by rewrite Hp, <- (merge_sort_Permutation event_le l')).
    eapply (NoDup_fmap_inj_on ne_id); [exact Hn|done|done|]. by apply event_le_antisym.
  - apply StronglySorted_merge_sort; apply _.
  - constructor; [apply StronglySorted_merge_sort; apply _|]. apply list.Forall_forall. intros x Hx. apply He. by rewrite <- (merge_sort_Permutation event_le l').
  - by rewrite !merge_sort_Permutation.
Qed.

(** *** Choosing the next event *)
Definition candidate (filters : list NostrFilter) (es : list NostrEvent) (emitted : list bool) (i : nat) (e : NostrEvent) : Prop :=
  es !! i = Some e /\ emitted !! i = Some false /\ event_matches filters e = true.

Definition remaining (filters : list NostrFilter) (es : list NostrEvent) (emitted : list bool) : list NostrEvent :=
  omap (fun eb : NostrEvent * bool => if negb (snd eb) && event_matches filters (fst eb) then Some (fst eb) else None) (zip es emitted).

Lemma elem_of_remaining filters es emitted e : e ∈ remaining filters es emitted <-> exists i, candidate filters es emitted i e.
Proof.
  unfold remaining. rewrite list_elem_of_omap. split.
  - intros ([e' b] & Hin & Heq). cbn [fst snd] in Heq. apply list_elem_of_lookup in Hin as [i Hi]. apply lookup_zip_Some in Hi as [H1 H2].
    destruct b; [done|]. cbn [negb andb] in Heq. destruct (event_matches filters e') eqn:Hm; [|done]. injection Heq as <-. by exists i.
  - intros (i & H1 & H2 & H3). exists (e, false). split; [|cbn; by rewrite H3]. apply (list_elem_of_lookup_2 _ i). by apply lookup_zip_Some.
Qed.

Lemma remaining_pick filters es emitted i e :
  candidate filters es emitted i e -> remaining filters es emitted ≡ₚ e :: remaining filters es (<[i := true]> emitted).
Proof.
  intros (H1 & H2 & H3). revert emitted i H1 H2. induction es as [|e' es IH]; intros emitted i H1 H2; [done|]. destruct emitted as [|b emitted]; [done|].
  destruct i as [|i].
  - injection H1 as ->. injection H2 as ->. unfold remaining. cbn. by rewrite H3.
  - cbn [lookup list_lookup] in H1, H2. specialize (IH emitted i H1 H2). unfold remaining in *. cbn [zip zip_with insert list_insert omap list_omap fst snd].
    destruct (negb b && event_matches filters e'); [|exact IH]. etransitivity; [apply perm_skip, IH|]. apply perm_swap.
Qed.

Lemma remaining_start filters es n : (length es <= n)%nat -> remaining filters es (replicate n false) = List.filter (event_matches filters) es.
Proof.
  revert n. induction es as [|e es IH]; intros n Hn; [done|]. destruct n as [|n]; [cbn in Hn; lia|]. cbn [length] in Hn. unfold remaining in *.
  cbn [replicate zip zip_with omap list_omap fst snd negb andb List.filter]. specialize (IH n ltac:(lia)). by destruct (event_matches filters e); [f_equal|].
Qed.

Lemma remaining_ids filters es emitted : NoDup (ne_id <$> es) -> NoDup (ne_id <$> remaining filters es emitted).
Proof.
  intros Hn. assert (sublist (remaining filters es emitted) es) as Hs.
  { clear. revert emitted. induction es as [|e es IH]; intros emitted; [constructor|]. destruct emitted as [|b emitted]; [apply sublist_nil_l|].
    unfold remaining in *. cbn [zip zip_with omap list_omap fst snd]. destruct (negb b && _); [apply sublist_skip|apply sublist_cons]; apply IH. }
  eapply sublist_NoDup; [exact Hn|]. by apply fmap_sublist.
Qed.

Lemma record_matches filters e : event_fits e -> event_matches_filters (stored_event e) filters = Ok (event_matches filters e).
Proof.
  intros [Ht Hs]. unfold event_matches_filters. rewrite collect_p_tags_stored by done. destruct (storable_inv e Hs) as (_ & Hl & _).
  pose proof (p_keys_le (ne_tags e)) as Hp. rewrite take_ge by (rewrite length_replicate; unfold NostrTagsRef, NostrTagRef, NostrPublicKey, len, HYF_NOSTR_MAX_TAGS, EVENT_P_TAG_SCAN_CAPACITY in *; lia).
  set (rest := drop _ _). assert (take_to (E:=NostrError) (p_keys (ne_tags e) ++ rest) (len (p_keys (ne_tags e))) = Ok (p_keys (ne_tags e))) as ->; [apply take_to_app|done].
Qed.

(** ** The operations *)
Section simulation.
Context {P : NostrPrims}.
Context (E S N : Z).
Hypotheses (events_cap : 0 <= E <= usize_MAX) (subscriptions_cap : 0 <= S <= usize_MAX) (outputs_cap : 0 <= N <= usize_MAX).

Notation rep := (represents E S N).

(** *** The queue *)
Definition pushed (recs : list FakeNostrRelayOutputRecord) (rec : FakeNostrRelayOutputRecord) (r : FakeNostrRelay) : FakeNostrRelay :=
  let m := fr_metrics r in
  with_metrics (mk_relay_metrics (rm_stored_events m) (rm_active_subscriptions m) (rm_queued_outputs m + 1) (rm_output_overflows m))
    (with_outputs (queue_of N (recs ++ [rec])) r).
Definition overflown (r : FakeNostrRelay) : FakeNostrRelay :=
  let m := fr_metrics r in
  with_metrics (mk_relay_metrics (rm_stored_events m) (rm_active_subscriptions m) (rm_queued_outputs m) (rm_output_overflows m + 1)) r.

Lemma enqueue_index_spec r recs rec :
  fr_outputs r = queue_of N recs -> len recs <= N -> rm_queued_outputs (fr_metrics r) = len recs ->
  enqueue_output_record_index N rec r =
    if len recs <? N then (Ok (len recs), pushed recs rec r)
    else if rm_output_overflows (fr_metrics r) =? usize_MAX then (Panic, r)
    else (Err (RelayOutputFull N), overflown r).
Proof.
  intros Ho Hl Hq. unfold enqueue_output_record_index. rewrite get_bind, Ho, queue_position by done. destruct (Z.ltb_spec (len recs) N) as [H|H].
  - rewrite queue_push by done. rewrite lift_bind_ok, put_bind. unfold update, count_queued, with_outputs, mbind, io_bind, get, lift. cbn [fr_metrics].
    cbv zeta. rewrite Hq. destruct (Z.eqb_spec (len recs) usize_MAX); [lia|]. cbn. by rewrite <- Hq.
  - unfold update, count_overflow, mbind, io_bind, get, lift. by destruct (rm_output_overflows (fr_metrics r) =? usize_MAX).
Qed.

Lemma enqueue_record_spec r recs rec :
  fr_outputs r = queue_of N recs -> len recs <= N -> rm_queued_outputs (fr_metrics r) = len recs ->
  enqueue_output_record N rec r =
    if len recs <? N then (Ok tt, pushed recs rec r)
    else if rm_output_overflows (fr_metrics r) =? usize_MAX then (Panic, r)
    else (Err (RelayOutputFull N), overflown r).
Proof.
  intros Ho Hl Hq. unfold enqueue_output_record, mbind, io_bind. rewrite (enqueue_index_spec r recs rec Ho Hl Hq).
  destruct (len recs <? N); [done|]. by destruct (rm_output_overflows (fr_metrics r) =? usize_MAX).
Qed.

Lemma rep_queue r a : rep r a -> exists recs, fr_outputs r = queue_of N recs /\ len recs <= N /\
  Forall2 (shows (fr_events r) (fr_output_events r)) recs (sp_outputs a) /\ heap_ok N (fr_output_events r) recs /\
  len recs = len (sp_outputs a) /\ rm_queued_outputs (fr_metrics r) = len recs /\ rm_output_overflows (fr_metrics r) = sp_overflows a.
Proof.
  intros []. destruct rp_outputs0 as (recs & H1 & H2 & H3 & H4). exists recs. pose proof (Forall2_length _ _ _ H3). rewrite rp_metrics0. cbn.
  split_and!; try done; unfold len; lia.
Qed.

Lemma owned_snoc recs rec : omap owned (recs ++ [rec]) = omap owned recs ++ match owned rec with Some i => [i] | None => [] end.
Proof. rewrite omap_app. cbn [omap list_omap]. by destruct (owned rec). Qed.

Lemma rep_pushed r a recs rec output :
  rep r a -> fr_outputs r = queue_of N recs -> len recs < N ->
  Forall2 (shows (fr_events r) (fr_output_events r)) recs (sp_outputs a) -> heap_ok N (fr_output_events r) recs ->
  shows (fr_events r) (fr_output_events r) rec output -> owned rec = None ->
  rep (pushed recs rec r) (spec_with_outputs (sp_outputs a ++ [output]) a).
Proof.
  intros [] Hq Hl Hs [] Hr Ho. constructor; cbn; try done.
  - exists (recs ++ [rec]). split_and!; [done|rewrite len_app; change (len [rec]) with 1; lia| |].
    + apply Forall2_app; [done|]. by constructor.
    + constructor; [done|..]; rewrite owned_snoc, Ho, app_nil_r; done.
  - rewrite rp_metrics0. cbn. by rewrite len_app.
Qed.

Lemma rep_overflown r a : rep r a -> rep (overflown r) (spec_with_overflows (sp_overflows a + 1) a).
Proof. intros []. constructor; cbn; try done. by rewrite rp_metrics0. Qed.

Lemma enqueue_refines r a rec output :
  rep r a -> shows (fr_events r) (fr_output_events r) rec output -> owned rec = None ->
  refines_at rep (enqueue_output_record N rec) (spec_enqueue N output) r a.
Proof.
  intros HR Hs Ho. destruct (rep_queue r a HR) as (recs & Hq & Hl & Hsh & Hh & Hlen & Hm & Hv).
  unfold spec_enqueue, refines_at. rewrite get_bind, (enqueue_record_spec r recs rec Hq Hl Hm), <- Hlen, Hv. destruct (Z.ltb_spec (len recs) N).
  - split; [done|]. by apply rep_pushed.
  - destruct (sp_overflows a =? usize_MAX); (split; [done|]); [done|]. by apply rep_overflown.
Qed.

Lemma refines_at_check {A B} (c : outcome NostrError unit) (x : B) (f : B -> io FakeNostrRelay NostrError A) (n : io SpecRelay NostrError A) r a :
  rep r a -> (c = Ok tt -> refines_at rep (f x) n r a) -> refines_at rep (lift (_ ← c; Ok x) ≫= f) (_ ← lift c; n) r a.
Proof. intros HR Hf. destruct c as [[]|e|]; [by apply Hf|done..]. Qed.

Lemma enqueue_ok_refines r a id accepted s :
  rep r a -> status_ok s -> refines_at rep (enqueue_ok N id accepted s) (_ ← lift (status_check s); spec_enqueue N (OutOk id accepted s)) r a.
Proof.
  intros HR Hs. unfold enqueue_ok. rewrite from_status_spec. apply refines_at_check; [done|]. intros Hc. by apply enqueue_refines.
Qed.

Lemma enqueue_notice_refines r a t :
  rep r a -> str_ok t -> refines_at rep (enqueue_notice N t) (_ ← lift (text_check t); spec_enqueue N (OutNotice t)) r a.
Proof. intros HR Hs. unfold enqueue_notice. rewrite control_from_str. apply refines_at_check; [done|]. intros Hc. by apply enqueue_refines. Qed.

Lemma enqueue_auth_refines r a t :
  rep r a -> str_ok t -> refines_at rep (inject_auth_challenge N t) (_ ← lift (text_check t); spec_enqueue N (OutAuth t)) r a.
Proof. intros HR Hs. unfold inject_auth_challenge. rewrite control_from_str. apply refines_at_check; [done|]. intros Hc. by apply enqueue_refines. Qed.

Lemma refines_at_guard {A} (c : outcome NostrError unit) (m : io FakeNostrRelay NostrError A) (n : io SpecRelay NostrError A) r a :
  rep r a -> (c = Ok tt -> refines_at rep m n r a) -> refines_at rep (_ ← lift c; m) (_ ← lift c; n) r a.
Proof. intros HR Hf. destruct c as [[]|e|]; [by apply Hf|done..]. Qed.

Lemma inject_eose_refines r a sid :
  rep r a -> str_ok sid -> refines_at rep (inject_eose N sid) (_ ← lift (validate_subscription_id sid); spec_enqueue N (OutEose sid)) r a.
Proof.
  intros HR Hs. unfold inject_eose. apply refines_at_guard; [done|]. intros Hv. rewrite validate_subscription_fits by done. apply refines_at_lift_l.
  by apply enqueue_refines.
Qed.

Lemma inject_closed_refines r a sid s :
  rep r a -> str_ok sid -> status_ok s ->
  refines_at rep (inject_closed N sid s) (_ ← lift (_ ← validate_subscription_id sid; status_check s); spec_enqueue N (OutClosed sid s)) r a.
Proof.
  intros HR Hs Ht. unfold inject_closed. destruct (validate_subscription_id sid) as [[]|e|] eqn:Hv; [|done..].
  rewrite validate_subscription_fits by done. do 2 apply refines_at_lift_l. cbn [mbind outcome_bind]. rewrite from_status_spec.
  apply refines_at_check; [done|]. intros Hc. by apply enqueue_refines.
Qed.

(** *** Events of elsewhere *)
Lemma length_owned recs : (length (omap owned recs) <= length recs)%nat.
Proof. induction recs as [|rec recs IH]; [done|]. cbn [omap list_omap length]. destruct (owned rec); [apply le_n_S, IH|apply le_S, IH]. Qed.

Lemma heap_full heap recs : heap_ok N heap recs -> position_none heap = None -> N <= len recs.
Proof.
  intros [] Hp. pose proof (position_none_spec heap) as H. rewrite Hp in H.
  assert (Forall (fun s => is_Some s) heap) as Hall.
  { clear -H. induction heap as [|[x|] heap IH]; [by constructor| |]; cbn [length] in H; rewrite ?occupied_some, ?occupied_none in H; cbn [length] in H.
    - constructor; [by eexists|]. apply IH. lia.
    - pose proof (length_occupied heap). lia. }
  assert (seqZ 0 N ⊆ omap owned recs) as Hsub.
  { intros i Hi. apply elem_of_seqZ in Hi. apply ho_used0. unfold get_slot. destruct (Z.ltb_spec i 0); [lia|].
    destruct (lookup_lt_is_Some_2 heap (Z.to_nat i)) as [s Hs]; [unfold len in ho_len0; lia|]. rewrite Hs. rewrite Forall_lookup in Hall. by eapply Hall. }
  assert (NoDup (seqZ 0 N)) as Hnd by apply NoDup_seqZ. pose proof (submseteq_length _ _ (NoDup_submseteq _ _ Hnd Hsub)) as Hle.
  rewrite length_seqZ in Hle. pose proof (length_owned recs). unfold len. lia.
Qed.

Lemma enqueue_event_refines r a sid e :
  rep r a -> event_text_ok e ->
  refines_at rep (enqueue_event_output N sid e) (_ ← lift (storable e); spec_enqueue N (OutEvent sid e)) r a.
Proof.
  intros HR He. unfold enqueue_event_output. rewrite from_event_spec. apply refines_at_check; [done|]. intros Hst.
  destruct (rep_queue r a HR) as (recs & Hq & Hl & Hsh & Hh & Hlen & Hm & Hv). pose proof (fun rec => enqueue_record_spec r recs rec Hq Hl Hm) as Hx.
  unfold refines_at, spec_enqueue. rewrite !get_bind, <- Hlen, <- Hv.
  pose proof (position_none_spec (fr_output_events r)) as Hp. destruct (position_none (fr_output_events r)) as [i|] eqn:Ei.
  - destruct Hp as (Hi & Hnone & _). specialize (Hx (RecOwnedEvent sid i)). destruct (Z.ltb_spec (len recs) N) as [Hr|Hr].
    + rewrite (io_bind_ok _ _ _ _ _ Hx), get_bind. cbn [pushed with_metrics with_outputs fr_output_events]. rewrite set_at_ok by done. rewrite lift_bind_ok.
      split; [done|].
      destruct HR. destruct Hh. constructor; cbn; try done.
      * exists (recs ++ [RecOwnedEvent sid i]). assert (i ∉ omap owned recs) as Hni.
        { intros Hin. assert (get_slot (fr_output_events r) i = None) as Hg by (unfold get_slot; destruct (i <? 0); [done|by rewrite Hnone]).
          clear -Hsh Hin Hg. induction Hsh as [|rec output recs outputs Hro Hsh IH]; [by apply not_elem_of_nil in Hin|]. cbn [omap list_omap] in Hin.
          destruct (owned rec) as [j|] eqn:Ho; [|by apply IH]. apply elem_of_cons in Hin as [<-|Hin]; [|by apply IH].
          destruct rec, output; try done. injection Ho as ->. destruct Hro as (_ & Hro & _). congruence. }
        split_and!; [done|rewrite len_app; change (len [_]) with 1; lia| |].
        -- apply Forall2_app.
           ++ eapply shows_list; [done| |exact Hsh]. intros j x Hj Hjx. destruct (get_slot_range (fr_output_events r) j) as [Hj0 _]; [by rewrite Hjx|].
              rewrite get_slot_insert by lia. destruct (Z.eqb_spec i j); [by subst|done].
           ++ constructor; [|by constructor]. cbn. split_and!; [done| |done..]. rewrite get_slot_insert by lia. by rewrite Z.eqb_refl.
        -- constructor; rewrite ?owned_snoc; cbn [owned].
           ++ by rewrite len_insert.
           ++ apply NoDup_app. split_and!; [done| |apply NoDup_singleton]. intros j Hj Hji. apply list_elem_of_singleton in Hji as ->. done.
           ++ intros j Hj. pose proof (get_slot_range _ _ Hj) as [Hj0 _]. rewrite get_slot_insert in Hj by lia. apply elem_of_app.
              destruct (Z.eqb_spec i j) as [->|]; [right; by apply list_elem_of_singleton|]. left. by apply ho_used0.
           ++ apply Forall_app. split; [done|]. constructor; [lia|by constructor].
      * rewrite rp_metrics0. cbn. by rewrite len_app.
    + unfold mbind, io_bind. rewrite Hx. destruct (rm_output_overflows (fr_metrics r) =? usize_MAX); cbn; (split; [done|]); [done|]. rewrite Hv. by apply rep_overflown.
  - pose proof (heap_full _ _ Hh Ei). destruct (Z.ltb_spec (len recs) N); [lia|]. pose proof (rep_overflown r a HR) as Ho. rewrite <- Hv in Ho.
    unfold update, count_overflow, mbind, io_bind, get, lift. cbn. by destruct (rm_output_overflows (fr_metrics r) =? usize_MAX).
Qed.

Lemma enqueue_output_refines r a output :
  rep r a ->
  match output with
  | OutOk _ _ s => status_ok s
  | OutEvent _ e => event_text_ok e
  | OutEose sid => str_ok sid
  | OutClosed sid s => str_ok sid /\ status_ok s
  | OutNotice t | OutAuth t => str_ok t
  end -> refines_at rep (enqueue_output N output) (spec_enqueue_output N output) r a.
Proof.
  intros HR. destruct output; cbn [enqueue_output spec_enqueue_output]; intros H.
  - by apply enqueue_ok_refines.
  - by apply enqueue_event_refines.
  - by apply inject_eose_refines.
  - destruct H. by apply inject_closed_refines.
  - by apply enqueue_notice_refines.
  - by apply enqueue_auth_refines.
Qed.

(** *** Subscriptions *)
Definition subs_map (l : list (option FakeNostrSubscription)) : gmap (list Z) (list NostrFilter) := list_to_map (su_entry <$> occupied l).

Lemma subs_keys (l : list (option FakeNostrSubscription)) : (su_entry <$> occupied l).*1 = su_id <$> occupied l.
Proof. by rewrite <- list_fmap_compose. Qed.

Lemma subs_perm k l : NoDup (su_id <$> k) -> k ≡ₚ l -> list_to_map (M := gmap (list Z) (list NostrFilter)) (su_entry <$> k) = list_to_map (su_entry <$> l).
Proof. intros Hn Hp. apply list_to_map_proper; [by rewrite <- list_fmap_compose|by rewrite Hp]. Qed.

Lemma subs_size l : NoDup (su_id <$> occupied l) -> Z.of_nat (size (subs_map l)) = len (occupied l).
Proof.
  intros Hn. unfold subs_map. rewrite <- size_dom, dom_list_to_map_L, subs_keys, size_list_to_set by done. by rewrite length_fmap.
Qed.

Lemma subs_lookup l s : NoDup (su_id <$> occupied l) -> s ∈ occupied l -> subs_map l !! su_id s = Some (su_filters s).
Proof. intros Hn Hs. apply elem_of_list_to_map_1; [by rewrite subs_keys|]. apply (list_elem_of_fmap_2 su_entry _ _ Hs). Qed.

Lemma subs_lookup_none l id : (forall s, s ∈ occupied l -> su_id s <> id) -> subs_map l !! id = None.
Proof. intros H. apply not_elem_of_list_to_map_1. rewrite subs_keys. intros (s & -> & Hs)%list_elem_of_fmap. by eapply H. Qed.

Lemma fresh_key l id : (forall s, s ∈ occupied l -> bool_decide (su_id s = id) = false) -> forall s, s ∈ occupied l -> su_id s <> id.
Proof. intros H s Hs. specialize (H s Hs). by apply bool_decide_eq_false in H. Qed.

(** The subscriptions of a relay are the map of the slots. *)
Lemma rep_subscriptions r a l (m : FakeNostrRelayMetrics) :
  rep r a -> len l = S -> NoDup (su_id <$> occupied l) ->
  m = mk_relay_metrics (len (sp_events a)) (len (occupied l)) (len (sp_outputs a)) (sp_overflows a) ->
  rep (with_metrics m (with_subscriptions l r)) (spec_with_subscriptions (subs_map l) a).
Proof. intros [] Hl Hn ->. by constructor. Qed.

Lemma metrics_id r m : m = fr_metrics r -> with_metrics m r = r.
Proof. intros ->. by destruct r. Qed.

Lemma remember_refines id filters : refines rep (remember_subscription S id filters) (spec_remember S id filters).
Proof.
  intros r a HR. unfold remember_subscription, spec_remember. apply refines_at_guard; [done|]. intros _. unfold refines_at. rewrite !get_bind.
  pose proof (position_some_spec (fun subscription => bool_decide (su_id subscription = id)) (fr_subscriptions r)) as Hp.
  pose proof (rp_subs_ids _ _ _ _ _ HR) as Hn. pose proof (rp_subs_len _ _ _ _ _ HR) as Hl. pose proof (rp_subs _ _ _ _ _ HR : _ = subs_map _) as Hm.
  pose proof (rp_metrics _ _ _ _ _ HR) as Hmt. rewrite Hm, subs_size by done.
  destruct (position_some _ (fr_subscriptions r)) as [i|].
  - destruct Hp as (Hi & s & Hs & Hid & Hin). apply bool_decide_eq_true in Hid as <-.
    rewrite bool_decide_eq_true_2 by (rewrite (subs_lookup _ _ Hn Hin); by eexists). cbn [orb]. rewrite set_at_ok by done. rewrite lift_bind_ok.
    split; [done|]. cbn [snd put]. set (l := <[Z.to_nat i := Some (mk_subscription (su_id s) filters)]> (fr_subscriptions r)).
    pose proof (occupied_clear _ _ _ Hs) as Hc.
    assert (occupied l ≡ₚ mk_subscription (su_id s) filters :: occupied (<[Z.to_nat i := None]> (fr_subscriptions r))) as Hf.
    { unfold l. rewrite <- (list_insert_insert_eq _ _ (Some (mk_subscription (su_id s) filters)) None). apply occupied_fill. apply list_lookup_insert_eq.
      unfold len in Hi. lia. }
    assert (NoDup (su_id <$> occupied l)) as Hnl by (rewrite Hf, fmap_cons; cbn [su_id]; rewrite Hc, fmap_cons in Hn; done).
    rewrite <- (metrics_id (with_subscriptions l r) (fr_metrics r)) by done.
    replace (<[su_id s := filters]> (subs_map (fr_subscriptions r))) with (subs_map l).
    + apply rep_subscriptions; [done|unfold l; by rewrite len_insert|done|]. rewrite Hmt. f_equal. unfold len.
      by rewrite (Permutation_length Hf), (Permutation_length Hc).
    + unfold subs_map. rewrite (subs_perm _ _ Hnl Hf), (subs_perm _ _ Hn Hc). cbn [fmap list_fmap list_to_map foldr su_entry su_id su_filters fst snd].
      by rewrite insert_insert_eq.
  - rewrite bool_decide_eq_false_2 by (rewrite subs_lookup_none; [by intros []|by apply fresh_key]). cbn [orb].
    pose proof (position_none_spec (fr_subscriptions r)) as Hq. destruct (position_none (fr_subscriptions r)) as [i|] eqn:Ei.
    + pose proof (position_none_room _ _ Ei) as Hr. destruct Hq as (Hi & Hnone & _). rewrite Hl in Hr.
      destruct (Z.ltb_spec (len (occupied (fr_subscriptions r))) S); [|lia]. cbn [ok_or]. rewrite lift_bind_ok, set_at_ok by done.
      rewrite lift_bind_ok, put_bind. set (l := <[Z.to_nat i := Some (mk_subscription id filters)]> (fr_subscriptions r)).
      unfold update, count_active, mbind, io_bind, get, lift. cbn [with_subscriptions fr_metrics]. cbv zeta. rewrite Hmt. cbn [rm_active_subscriptions].
      destruct (Z.eqb_spec (len (occupied (fr_subscriptions r))) usize_MAX); [lia|]. split; [done|].
      pose proof (occupied_fill _ _ (mk_subscription id filters) Hnone) as Hf.
      assert (NoDup (su_id <$> occupied l)) as Hnl.
      { unfold l. rewrite Hf, fmap_cons. apply list.NoDup_cons. split; [|done]. cbn [su_id]. intros (s & Heq & Hs)%list_elem_of_fmap.
        eapply fresh_key; [exact Hp|exact Hs|done]. }
      replace (<[id := filters]> (subs_map (fr_subscriptions r))) with (subs_map l).
      * apply rep_subscriptions; [done|unfold l; by rewrite len_insert|done|]. f_equal. unfold len, l. rewrite (Permutation_length Hf). cbn [length]. lia.
      * unfold subs_map. fold l in Hf. by rewrite (subs_perm _ _ Hnl Hf).
    + destruct (Z.ltb_spec (len (occupied (fr_subscriptions r))) S) as [Hlt|]; [unfold len in *; lia|]. done.
Qed.

Lemma close_refines id : refines rep (close_subscription id) (spec_close id).
Proof.
  intros r a HR. unfold close_subscription, spec_close. apply refines_at_guard; [done|]. intros _. unfold refines_at. rewrite !get_bind.
  pose proof (position_some_spec (fun subscription => bool_decide (su_id subscription = id)) (fr_subscriptions r)) as Hp.
  pose proof (rp_subs_ids _ _ _ _ _ HR) as Hn. pose proof (rp_subs_len _ _ _ _ _ HR) as Hl. pose proof (rp_subs _ _ _ _ _ HR : _ = subs_map _) as Hm.
  pose proof (rp_metrics _ _ _ _ _ HR) as Hmt. rewrite Hm, put_bind.
  destruct (position_some _ (fr_subscriptions r)) as [i|].
  - destruct Hp as (Hi & s & Hs & Hid & Hin). apply bool_decide_eq_true in Hid as <-.
    rewrite bool_decide_eq_true_2 by (rewrite (subs_lookup _ _ Hn Hin); by eexists). rewrite set_at_ok by done. rewrite lift_bind_ok, put_bind.
    set (l := <[Z.to_nat i := None]> (fr_subscriptions r)). pose proof (occupied_clear _ _ _ Hs) as Hc. fold l in Hc.
    pose proof (Permutation_length Hc) as Hcl. cbn [length] in Hcl.
    unfold update, uncount_active, mbind, io_bind, get, lift. cbn [with_subscriptions fr_metrics]. cbv zeta. rewrite Hmt. cbn [rm_active_subscriptions].
    destruct (Z.eqb_spec (len (occupied (fr_subscriptions r))) 0); [unfold len in *; lia|]. split; [done|].
    assert (NoDup (su_id <$> (s :: occupied l))) as Hnc by (by rewrite <- Hc). rewrite fmap_cons in Hnc. apply list.NoDup_cons in Hnc as [Hni Hnl].
    replace (delete (su_id s) (subs_map (fr_subscriptions r))) with (subs_map l).
    + apply rep_subscriptions; [done|unfold l; by rewrite len_insert|done|]. f_equal. unfold len. lia.
    + unfold subs_map at 2. rewrite (subs_perm _ _ Hn Hc). cbn [fmap list_fmap list_to_map foldr su_entry su_id su_filters fst snd].
      fold (subs_map l). rewrite delete_insert_id; [done|]. unfold subs_map. apply not_elem_of_list_to_map_1. by rewrite subs_keys.
  - assert (subs_map (fr_subscriptions r) !! id = None) as Hnone by (apply subs_lookup_none; by apply fresh_key).
    rewrite bool_decide_eq_false_2 by (rewrite Hnone; by intros []). rewrite delete_id by done. split; [done|]. rewrite <- Hm. cbn [snd mret io_ret].
    by destruct a, HR.
Qed.

(** *** Taking outputs *)
Lemma heap_pop events heap rec recs outputs :
  heap_ok N heap (rec :: recs) -> Forall2 (shows events heap) recs outputs ->
  exists heap', match rec with RecOwnedEvent _ i => set_at heap i None | _ => Ok heap end = Ok (E:=NostrError) heap' /\
    heap_ok N heap' recs /\ Forall2 (shows events heap') recs outputs.
Proof.
  intros Hh Hs. destruct (owned rec) as [i|] eqn:Ho.
  - destruct Hh as [Hl Hn Hu Hr]. cbn [omap list_omap] in *. rewrite Ho in *. apply list.NoDup_cons in Hn as [Hi Hn]. apply list.Forall_cons in Hr as [Hri Hr].
    exists (<[Z.to_nat i := None]> heap). split; [destruct rec; try done; injection Ho as ->; by apply set_at_ok; rewrite Hl|]. split.
    + constructor; [by rewrite len_insert|done| |done]. intros j Hj. pose proof (get_slot_range _ _ Hj) as [Hj0 _]. rewrite get_slot_insert in Hj by lia.
      destruct (Z.eqb_spec i j); [by destruct Hj|]. specialize (Hu j Hj). apply elem_of_cons in Hu as [->|Hu]; [done|exact Hu].
    + eapply shows_list; [done| |exact Hs]. intros j x Hj Hx. destruct (get_slot_range heap j) as [Hj0 _]; [by rewrite Hx|].
      rewrite get_slot_insert by lia. destruct (Z.eqb_spec i j); [by subst|done].
  - exists heap. split; [by destruct rec|]. split; [|done]. destruct Hh as [Hl Hn Hu Hr]. cbn [omap list_omap] in *. rewrite Ho in *. by constructor.
Qed.

Lemma consume_refines : refines rep (consume_output N) spec_consume.
Proof.
  intros r a HR. destruct (rep_queue r a HR) as (recs & Hq & Hl & Hsh & Hh & Hlen & Hm & Hv). unfold consume_output, spec_consume, refines_at. rewrite !get_bind, Hq.
  remember (sp_outputs a) as outs eqn:Hout. destruct Hsh as [|rec output recs outputs Hro Hsh].
  { cbn [queue_of fmap list_fmap app]. unfold queue_of. cbn [fmap list_fmap app]. by destruct (replicate _ None) as [|[]] eqn:Er; [|apply (f_equal (fun l => l !! 0%nat)) in Er; apply lookup_replicate_1 in Er as [? _]|]. }
  pose proof (queue_pop N rec recs Hl) as (Hp1 & Hp2 & Hp3). rewrite len_cons in Hl. pose proof (len_nonneg recs).
  assert (exists qs, queue_of N (rec :: recs) = Some rec :: qs) as [qs Hqs] by (unfold queue_of; by eexists). rewrite Hqs in *.
  destruct (heap_pop _ _ _ _ _ Hh Hsh) as (heap' & Hheap & Hh' & Hsh').
  assert ((match rec with RecOwnedEvent _ i => set_at (fr_output_events r) i None | _ => Ok (fr_output_events r) end : outcome NostrError _) = Ok heap') as -> by exact Hheap.
  rewrite lift_bind_ok, put_bind, Hp1, lift_bind_ok.
  assert ((if N >? 1 then set_at (rotate_left_1 (None :: queue_of (N - 1) recs)) (N - 1) None else Ok (None :: queue_of (N - 1) recs)) = Ok (E:=NostrError) (queue_of N recs)) as ->.
  { rewrite Z.gtb_ltb. destruct (Z.ltb_spec 1 N); [by apply Hp2|]. rewrite Hp3 by lia. done. }
  rewrite lift_bind_ok. destruct HR. unfold modify, update, uncount_queued, mbind, io_bind, get, lift, put. cbn. rewrite rp_metrics0 in *. cbn in *.
  rewrite <- Hout, len_cons. pose proof (len_nonneg outputs). destruct (Z.eqb_spec (1 + len outputs) 0); [lia|]. split; [done|]. cbn. constructor; cbn; try done.
  - exists recs. split_and!; [done|lia|done|done].
  - f_equal. lia.
Qed.

Lemma next_shows {T} r a (f : FakeNostrRelayOutput -> T) : rep r a -> with_next_output r f = Ok (f <$> spec_next a).
Proof.
  intros HR. destruct (rep_queue r a HR) as (recs & Hq & _ & Hsh & _). unfold with_next_output, spec_next. rewrite Hq, queue_get by done. change (Z.to_nat 0) with 0%nat.
  destruct Hsh as [|rec output recs outputs Hro Hsh]; [done|]. cbn [lookup list_lookup head]. by rewrite (with_view_shows _ _ _ _ f Hro).
Qed.

Lemma control_shows r a : rep r a -> next_control_output r = Ok (spec_next a ≫= control_of).
Proof.
  intros HR. destruct (rep_queue r a HR) as (recs & Hq & _ & Hsh & _). unfold next_control_output, spec_next. rewrite Hq, queue_get by done. change (Z.to_nat 0) with 0%nat.
  destruct Hsh as [|rec output recs outputs Hro Hsh]; [done|]. cbn [lookup list_lookup head]. destruct rec, output; try done; cbn [shows] in Hro.
  - destruct Hro as (-> & -> & -> & [Hs _]). by rewrite as_status_stored.
  - destruct Hro as (-> & [Hs _]). by rewrite subscription_as_str.
  - destruct Hro as (-> & [Hs _] & -> & [Ht _]). rewrite subscription_as_str by done. cbn [mbind outcome_bind]. by rewrite as_status_stored.
  - destruct Hro as (-> & [Hs _]). by rewrite control_as_str.
  - destruct Hro as (-> & [Hs _]). by rewrite control_as_str.
Qed.

Lemma pop_refines {T} (f : FakeNostrRelayOutput -> T) :
  refines rep (pop_next_output N f) (s ← get; _ ← (match spec_next s with Some _ => _ ← spec_consume; mret tt | None => mret tt end); mret (f <$> spec_next s)).
Proof.
  intros r a HR. unfold pop_next_output, refines_at. rewrite !get_bind, (next_shows r a f HR), lift_bind_ok.
  destruct (spec_next a) as [output|]; cbn [fmap option_fmap option_map]; [|by split].
  apply (refines_at_bind rep); [|intros [] s' a' _ _ HR'; by apply (refines_ret rep)].
  apply (refines_at_bind rep); [by apply consume_refines|]. intros b s' a' _ _ HR'. by apply (refines_ret rep).
Qed.

(** *** Publishing *)
Lemma reject_refines s : status_ok s -> refines rep (reject_next_publish s) (spec_reject s).
Proof.
  intros Hs r a HR. unfold reject_next_publish, spec_reject. rewrite from_status_spec. apply refines_at_check; [done|]. intros Hc.
  split; [done|]. destruct HR. constructor; cbn; try done. by intros ? [= <-].
Qed.

Lemma contains_event_spec r a id : rep r a -> contains_event r id = existsb (fun e => bool_decide (ne_id e = id)) (sp_events a).
Proof.
  intros []. unfold contains_event. rewrite rp_events0, occupied_queue. clear. induction (sp_events a) as [|e es IH]; [done|]. cbn [fmap list_fmap existsb].
  rewrite <- IH. done.
Qed.

Lemma not_existsb_id (es : list NostrEvent) id : existsb (fun e => bool_decide (ne_id e = id)) es = false -> id ∉ (ne_id <$> es).
Proof.
  intros H (e & -> & He)%list_elem_of_fmap. assert (existsb (fun e' => bool_decide (ne_id e' = ne_id e)) es = true) as Hx; [|by rewrite Hx in H].
  apply existsb_exists. exists e. split; [by apply list_elem_of_In|by apply bool_decide_eq_true].
Qed.

Lemma rep_stored r a e :
  rep r a -> event_fits e -> ne_id e ∉ (ne_id <$> sp_events a) -> len (sp_events a) < E ->
  let m := fr_metrics r in
  rep (with_metrics (mk_relay_metrics (rm_stored_events m + 1) (rm_active_subscriptions m) (rm_queued_outputs m) (rm_output_overflows m))
        (with_events (queue_of E ((stored_event <$> sp_events a) ++ [stored_event e])) r)) (spec_with_events (sp_events a ++ [e]) a).
Proof.
  intros [] Hf Hn Hl m. constructor; cbn; try done.
  - by rewrite fmap_app.
  - rewrite len_app. change (len [e]) with 1. lia.
  - apply Forall_app. split; [done|]. by constructor.
  - rewrite fmap_app. apply NoDup_app. split_and!; [done| |apply NoDup_singleton]. intros id Hid ->%list_elem_of_singleton. done.
  - destruct rp_outputs0 as (recs & H1 & H2 & H3 & H4). exists recs. split_and!; [done..| |done]. eapply shows_list; [|done|exact H3].
    intros i x Hx. destruct (get_slot_range (fr_events r) i) as [Hi _]; [by rewrite Hx|]. rewrite rp_events0 in Hx. rewrite queue_get in * by done.
    by apply lookup_app_l_Some.
  - subst m. rewrite rp_metrics0. cbn. by rewrite len_app.
Qed.

Lemma store_refines r a e :
  rep r a -> event_text_ok e -> ne_id e ∉ (ne_id <$> sp_events a) ->
  refines_at rep (store_event E e)
    (_ ← lift (storable e); _ ← lift (guard_err (negb (len (sp_events a) <? E)) (RelayEventStoreFull E)); put (spec_with_events (sp_events a ++ [e]) a)) r a.
Proof.
  intros HR Ht Hn. unfold store_event. rewrite from_event_spec. apply refines_at_check; [done|]. intros Hst. unfold refines_at. rewrite get_bind.
  pose proof (rp_events _ _ _ _ _ HR) as He. pose proof (rp_events_len _ _ _ _ _ HR) as Hl. pose proof (rp_metrics _ _ _ _ _ HR) as Hm.
  rewrite He, queue_position by (by rewrite len_map). rewrite len_map. destruct (Z.ltb_spec (len (sp_events a)) E); [|done]. cbn [ok_or negb guard_err]. rewrite lift_bind_ok.
  rewrite <- (len_map stored_event (sp_events a)). rewrite queue_push by (by rewrite len_map). rewrite !lift_bind_ok, put_bind.
  pose proof (rep_stored r a e HR (conj Ht Hst) Hn ltac:(done)) as Hr. unfold update, count_stored, mbind, io_bind, get, lift. cbn [with_events fr_metrics]. cbv zeta.
  cbv zeta in Hr. rewrite Hm in *. cbn [rm_stored_events] in *. destruct (Z.eqb_spec (len (sp_events a)) usize_MAX); [lia|]. split; [done|]. exact Hr.
Qed.

Lemma status_constants : status_fits empty_status /\ status_fits duplicate_status /\ status_fits invalid_status.
Proof. unfold status_fits, status_ok. split_and!; try (apply str_ok_ascii; vm_compute; by repeat constructor); vm_compute; reflexivity. Qed.

Lemma enqueue_checked r a id accepted s :
  rep r a -> status_fits s -> refines_at rep (enqueue_ok N id accepted s) (spec_enqueue N (OutOk id accepted s)) r a.
Proof. intros HR [Hs Hc]. unfold enqueue_ok. rewrite from_status_spec, Hc. cbn [mbind outcome_bind]. apply refines_at_lift_l. by apply enqueue_refines. Qed.

Lemma publish_rejected_refines r a e s :
  rep r a -> sp_rejection a = Some s ->
  refines_at rep
    (_ ← put (with_rejection None r);
     output_index ← enqueue_output_record_index N (RecOk (ne_id e) false (stored_status s));
     r ← get; status ← lift (output_ok_status r output_index); mret (Rejected status))
    (_ ← put (spec_with_rejection None a); _ ← spec_enqueue N (OutOk (ne_id e) false s); mret (Rejected s)) r a.
Proof.
  intros HR Hs. pose proof (rp_rejection_ok _ _ _ _ _ HR s Hs) as [Hok Hck].
  assert (rep (with_rejection None r) (spec_with_rejection None a)) as HR' by (destruct HR; by constructor).
  apply refines_at_put. pose proof (enqueue_refines _ _ (RecOk (ne_id e) false (stored_status s)) (OutOk (ne_id e) false s) HR') as He.
  specialize (He ltac:(cbn; done) eq_refl). destruct (rep_queue _ _ HR') as (recs & Hq & Hl & Hsh & Hh & Hlen & Hm & Hv).
  revert He. unfold refines_at. rewrite (enqueue_record_spec _ recs _ Hq Hl Hm).
  pose proof (enqueue_index_spec _ recs (RecOk (ne_id e) false (stored_status s)) Hq Hl Hm) as Hx. destruct (Z.ltb_spec (len recs) N).
  - intros [H1 H2]. rewrite (io_bind_ok _ _ _ _ _ Hx), get_bind. unfold output_ok_status. cbn [pushed with_metrics with_outputs fr_outputs].
    rewrite queue_get by apply len_nonneg. rewrite to_nat_len, list_lookup_middle by done. rewrite as_status_stored by done. rewrite lift_bind_ok.
    unfold mbind, io_bind. destruct (spec_enqueue N _ _) as [o a']. cbn [fst snd] in H1, H2. by subst o.
  - unfold mbind, io_bind. rewrite Hx. destruct (rm_output_overflows _ =? usize_MAX); intros [H1 H2]; destruct (spec_enqueue N _ _) as [o a']; cbn [fst snd] in H1, H2; by subst o.
Qed.

Lemma publish_valid_refines e : event_text_ok e -> refines rep (publish_valid E N e) (spec_publish_valid E N e).
Proof.
  intros Ht r a HR. destruct status_constants as (Hs1 & Hs2 & _). unfold publish_valid, spec_publish_valid. apply (refines_get rep); [|done]. clear r a HR. intros r a HR.
  rewrite (contains_event_spec r a _ HR). destruct (existsb _ (sp_events a)) eqn:Hx.
  { apply (refines_at_bind rep); [by apply enqueue_checked|]. intros [] r' a' _ _ HR'. by apply (refines_ret rep). }
  apply not_existsb_id in Hx. rewrite (rp_rejection _ _ _ _ _ HR). destruct (sp_rejection a) as [s|] eqn:Hs; cbn [fmap option_fmap option_map].
  { by apply publish_rejected_refines. }
  assert ((_ ← lift (storable e); _ ← lift (guard_err (negb (len (sp_events a) <? E)) (RelayEventStoreFull E));
           _ ← put (spec_with_events (sp_events a ++ [e]) a); _ ← spec_enqueue N (OutOk (ne_id e) true empty_status); mret (Accepted [])) a =
          (_ ← (_ ← lift (storable e); _ ← lift (guard_err (negb (len (sp_events a) <? E)) (RelayEventStoreFull E)); put (spec_with_events (sp_events a ++ [e]) a));
           _ ← spec_enqueue N (OutOk (ne_id e) true empty_status); mret (Accepted [])) a) as Heq.
  { unfold mbind, io_bind, lift. destruct (storable e) as [[]| |]; [|reflexivity..]. by destruct (guard_err _ _) as [[]| |]. }
  unfold refines_at. rewrite Heq. apply (refines_at_bind rep); [by apply store_refines|]. intros [] r' a' _ _ HR'.
  apply (refines_at_bind rep); [by apply enqueue_checked|]. intros [] r'' a'' _ _ HR''. by apply (refines_ret rep).
Qed.

Definition rep_buffer (s : FakeNostrRelay * list Z) (a : SpecRelay * list Z) : Prop := rep (fst s) (fst a) /\ snd s = snd a.

Lemma publish_refines e profile : event_text_ok e -> refines rep_buffer (publish_with_profile E N e profile) (spec_publish E N e profile).
Proof.
  intros Ht [r buffer] [a buffer'] [HR Hb]. cbn [fst snd] in HR, Hb. subst buffer'. unfold refines_at, publish_with_profile, spec_publish, invalid_for, on_relay, focus.
  unfold mbind, io_bind. cbn [fst snd]. destruct (validate_publish_profile e profile buffer) as [[[]|err|] buffer'] eqn:Hv.
  - destruct (publish_valid_refines e Ht r a HR) as [H1 H2]. cbn [fst snd]. destruct (publish_valid E N e r) as [o r'], (spec_publish_valid E N e a) as [o' a']. by split.
  - destruct status_constants as (_ & _ & Hs).
    pose proof (enqueue_checked r a (ne_id e) false invalid_status HR Hs) as [H1 H2].
    cbn [fst snd]. destruct (enqueue_ok N _ _ _ r) as [o r'], (spec_enqueue N _ a) as [o' a']. cbn [fst snd] in H1, H2. subst o'.
    by destruct o.
  - by split.
Qed.

(** *** Replaying *)
Definition best_of (filters : list NostrFilter) (es : list NostrEvent) (emitted : list bool) (k : Z) (best : option Z) : Prop :=
  match best with
  | None => forall j e, candidate filters es emitted j e -> k <= Z.of_nat j
  | Some i => 0 <= i /\ exists e, candidate filters es emitted (Z.to_nat i) e /\
      forall j e', candidate filters es emitted j e' -> Z.of_nat j < k -> event_le e e'
  end.

Lemma best_skip filters es emitted k best :
  (forall e, ~ candidate filters es emitted (Z.to_nat k) e) -> 0 <= k -> best_of filters es emitted k best -> best_of filters es emitted (k + 1) best.
Proof.
  intros Hn Hk. destruct best as [i|]; cbn [best_of].
  - intros (Hi & e & He & H). split; [done|]. exists e. split; [done|]. intros j e' Hj Hl. destruct (decide (Z.of_nat j = k)) as [<-|]; [|apply (H j e' Hj); lia].
    rewrite Nat2Z.id in Hn. by apply Hn in Hj.
  - intros H j e Hj. specialize (H j e Hj). destruct (decide (Z.of_nat j = k)) as [<-|]; [|lia]. rewrite Nat2Z.id in Hn. by apply Hn in Hj.
Qed.

Lemma best_take filters es emitted k e :
  candidate filters es emitted (Z.to_nat k) e -> 0 <= k ->
  (forall j e', candidate filters es emitted j e' -> Z.of_nat j < k -> event_le e e') -> best_of filters es emitted (k + 1) (Some k).
Proof.
  intros He Hk H. split; [done|]. exists e. split; [done|]. intros j e' Hj Hl. destruct (decide (Z.of_nat j = k)) as [<-|]; [|apply (H j e' Hj); lia].
  rewrite Nat2Z.id in He. destruct He as [He _], Hj as [Hj _]. rewrite He in Hj. injection Hj as <-. apply before_irrefl.
Qed.

Lemma next_replay_loop_spec filters es emitted pre rest best :
  Forall event_fits es -> queue_of E (stored_event <$> es) = pre ++ rest -> length emitted = length (pre ++ rest) ->
  best_of filters es emitted (len pre) best ->
  exists best', next_replay_loop (pre ++ rest) filters emitted (len pre) rest best = Ok best' /\ best_of filters es emitted (len (pre ++ rest)) best'.
Proof.
  intros Hf. revert pre best. induction rest as [|slot rest IH]; intros pre best Hq Hl Hb.
  { exists best. split; [done|]. by rewrite app_nil_r. }
  cbn [next_replay_loop]. specialize (IH (pre ++ [slot])). rewrite len_app in IH. change (len [slot]) with 1 in IH. rewrite <- app_assoc in IH. cbn [app] in IH.
  pose proof (len_nonneg pre) as Hp.
  destruct (lookup_lt_is_Some_2 emitted (Z.to_nat (len pre))) as [b Hemit]; [rewrite Hl, to_nat_len, length_app; cbn [length]; lia|].
  rewrite (index_ok emitted (len pre) b) by done. cbn [mbind outcome_bind].
  assert (queue_of E (stored_event <$> es) !! Z.to_nat (len pre) = Some slot) as Hslot by (rewrite Hq, to_nat_len; by apply list_lookup_middle).
  assert (get_slot (queue_of E (stored_event <$> es)) (len pre) = slot) as Hget by (unfold get_slot; destruct (Z.ltb_spec (len pre) 0); [lia|by rewrite Hslot]).
  rewrite queue_get in Hget by done. rewrite list_lookup_fmap in Hget.
  destruct b.
  { apply IH; [done|done|]. apply best_skip; [|done|done]. intros e (_ & He & _). congruence. }
  destruct (es !! Z.to_nat (len pre)) as [e|] eqn:He; cbn [fmap option_fmap option_map] in Hget; subst slot.
  2: { apply IH; [done|done|]. apply best_skip; [|done|done]. intros e (H & _). congruence. }
  assert (event_fits e) as Hfe by (rewrite list.Forall_forall in Hf; apply Hf; by eapply list_elem_of_lookup_2).
  rewrite record_matches by done. cbn [mbind outcome_bind]. destruct (event_matches filters e) eqn:Hm; cbn [negb].
  2: { apply IH; [done|done|]. apply best_skip; [|done|done]. intros e' (H & _ & H'). congruence. }
  assert (candidate filters es emitted (Z.to_nat (len pre)) e) as Hc by done.
  destruct best as [i|].
  2: { apply IH; [done|done|]. eapply best_take; [exact Hc|done|]. intros j e' Hj Hlt. specialize (Hb j e' Hj). lia. }
  destruct Hb as (Hi & ei & Hci & Hmin). pose proof Hci as (Hei & _ & _).
  assert (get_slot (queue_of E (stored_event <$> es)) i = Some (stored_event ei)) as Hgi by (rewrite queue_get, list_lookup_fmap, Hei by done; done).
  assert (index (E:=NostrError) (pre ++ Some (stored_event e) :: rest) i = Ok (Some (stored_event ei))) as ->.
  { rewrite <- Hq. apply index_ok; [done|]. unfold get_slot in Hgi. destruct (i <? 0); [done|]. destruct (queue_of E _ !! Z.to_nat i) as [s|]; [by subst|done]. }
  cbn [mbind outcome_bind ok_or]. change (event_sorts_before (stored_event e) (stored_event ei)) with (event_before e ei).
  destruct (event_before e ei) eqn:Hbef.
  - apply IH; [done|done|]. eapply best_take; [exact Hc|done|]. intros j e' Hj Hlt. transitivity ei; [|by apply (Hmin j)].
    destruct (event_le_total e ei) as [?|Hx]; [done|]. unfold event_le in Hx. congruence.
  - apply IH; [done|done|]. split; [done|]. exists ei. split; [done|]. intros j e' Hj Hlt. destruct (decide (Z.of_nat j = len pre)) as [Heq|]; [|apply (Hmin j e' Hj); lia].
    destruct Hj as [Hj _]. rewrite <- Heq, Nat2Z.id in He. rewrite He in Hj. by injection Hj as <-.
Qed.

Lemma next_replay_spec filters r a emitted :
  rep r a -> len emitted = E ->
  match next_replay_event r filters emitted with
  | Ok None => remaining filters (sp_events a) emitted = []
  | Ok (Some i) => exists e, 0 <= i /\ candidate filters (sp_events a) emitted (Z.to_nat i) e /\
      merge_sort event_le (remaining filters (sp_events a) emitted) = e :: merge_sort event_le (remaining filters (sp_events a) (<[Z.to_nat i := true]> emitted))
  | _ => False
  end.
Proof.
  intros HR Hl. pose proof (rp_events _ _ _ _ _ HR) as He. pose proof (rp_events_len _ _ _ _ _ HR) as Hlen. unfold next_replay_event. rewrite He.
  assert (len (queue_of E (stored_event <$> sp_events a)) = E) as Hq by (apply len_queue; by rewrite len_map).
  pose proof (next_replay_loop_spec filters (sp_events a) emitted [] (queue_of E (stored_event <$> sp_events a)) None (rp_events_fit _ _ _ _ _ HR) eq_refl) as Hloop.
  cbn [app] in Hloop. rewrite Hq in Hloop. destruct Hloop as (best & Hbest & Hb); [unfold len in *; lia|intros j e _; apply Nat2Z.is_nonneg|].
  change (len (@nil (option FakeNostrEventRecord))) with 0 in Hbest. rewrite Hbest. clear Hbest.
  assert (forall j e, candidate filters (sp_events a) emitted j e -> Z.of_nat j < E) as Hj.
  { intros j e [Hx _]. apply lookup_lt_Some in Hx. unfold len in Hlen. lia. }
  destruct best as [i|]; cbn [best_of] in Hb.
  - destruct Hb as (Hi & e & Hc & Hmin). exists e. split_and!; [done..|]. apply sort_cons.
    + apply remaining_ids, (rp_events_ids _ _ _ _ _ HR).
    + by apply remaining_pick.
    + intros x Hx. apply elem_of_remaining in Hx as (j & H1 & H2 & H3). destruct (decide (j = Z.to_nat i)) as [->|Hn].
      { rewrite list_lookup_insert_eq in H2; [done|]. destruct Hc as (_ & Hx & _). by apply lookup_lt_Some in Hx. }
      rewrite list_lookup_insert_ne in H2 by done. assert (candidate filters (sp_events a) emitted j x) as Hcx by done. apply (Hmin j x Hcx). by eapply Hj.
  - destruct (remaining filters (sp_events a) emitted) as [|x l] eqn:Hr; [done|]. assert (x ∈ remaining filters (sp_events a) emitted) as Hx by (rewrite Hr; apply list_elem_of_here).
    apply elem_of_remaining in Hx as (j & Hcx). pose proof (Hb j x Hcx). pose proof (Hj j x Hcx). lia.
Qed.

Lemma spec_enqueue_keeps output a o a' : spec_enqueue N output a = (o, a') -> sp_events a' = sp_events a.
Proof.
  unfold spec_enqueue. rewrite get_bind. destruct (_ <? _); [by intros [= _ <-]|]. destruct (_ =? _); [by intros [= _ <-]|]. by intros [= _ <-].
Qed.

Lemma take_limit_none {A} (l : list A) n : n <= 0 -> take_limit (Some n) l = [].
Proof. intros Hn. cbn [take_limit]. by replace (Z.to_nat n) with 0%nat by lia. Qed.

Lemma take_limit_cons {A} limit (x : A) l :
  is_none_or limit (fun n => 0 <? n) = true -> take_limit limit (x :: l) = x :: take_limit ((fun n => n - 1) <$> limit) l.
Proof.
  destruct limit as [n|]; [|done]. cbn. destruct (Z.ltb_spec 0 n); [|done]. intros _. by replace (Z.to_nat n) with (Datatypes.S (Z.to_nat (n - 1))) by lia.
Qed.

Lemma replay_loop_refines fuel sid filters emitted count r a :
  rep r a -> len emitted = E -> (length (remaining filters (sp_events a) emitted) < fuel)%nat ->
  refines_at rep (replay_loop N fuel sid filters emitted count)
    (spec_enqueue_events N sid (take_limit ((fun n => n - count) <$> replay_limit filters) (merge_sort event_le (remaining filters (sp_events a) emitted)))) r a.
Proof.
  revert emitted count r a. induction fuel as [|fuel IH]; intros emitted count r a HR Hl Hf; [lia|]. cbn [replay_loop].
  set (limit := (fun n => n - count) <$> replay_limit filters).
  assert (is_none_or (replay_limit filters) (fun limit => count <? limit) = is_none_or limit (fun n => 0 <? n)) as ->.
  { subst limit. destruct (replay_limit filters) as [n|]; [|done]. cbn. destruct (Z.ltb_spec count n), (Z.ltb_spec 0 (n - count)); lia || done. }
  destruct (is_none_or limit (fun n => 0 <? n)) eqn:Hlim.
  2: { destruct limit as [n|]; [|done]. cbn [is_none_or] in Hlim. rewrite take_limit_none by lia. by apply (refines_ret rep). }
  unfold refines_at. rewrite get_bind. pose proof (next_replay_spec filters r a emitted HR Hl) as Hnext. destruct (next_replay_event r filters emitted) as [[i|]|e|]; [| |done..].
  2: { rewrite lift_bind_ok, Hnext. change (merge_sort event_le []) with (@nil NostrEvent). assert (take_limit limit (@nil NostrEvent) = []) as -> by (destruct limit; [apply take_nil|done]). by split. }
  destruct Hnext as (e & Hi & Hc & Hsort). rewrite lift_bind_ok, Hsort, take_limit_cons by done. cbn [spec_enqueue_events].
  assert (event_fits e) as Hfe by (pose proof (rp_events_fit _ _ _ _ _ HR) as Hall; rewrite list.Forall_forall in Hall; apply Hall; destruct Hc as [Hc _]; by eapply list_elem_of_lookup_2).
  apply (refines_at_bind rep).
  { apply enqueue_refines; [done| |done]. cbn [shows]. split_and!; [done| |done..]. rewrite (rp_events _ _ _ _ _ HR), queue_get, list_lookup_fmap by done. by destruct Hc as [-> _]. }
  intros [] r' a' _ Ha HR'. apply spec_enqueue_keeps in Ha. pose proof Hc as (Hce & Hcm & _).
  assert (0 <= i < len emitted) as Hir by (apply lookup_lt_Some in Hcm; unfold len; lia). rewrite set_at_ok by done. apply refines_at_lift_l.
  pose proof (Permutation_length (remaining_pick _ _ _ _ _ Hc)) as Hpl. cbn [length] in Hpl.
  specialize (IH (<[Z.to_nat i := true]> emitted) (count + 1) r' a' HR'). rewrite len_insert, Ha in IH. specialize (IH Hl ltac:(lia)).
  replace ((fun n => n - 1) <$> limit) with ((fun n => n - (count + 1)) <$> replay_limit filters); [exact IH|].
  subst limit. destruct (replay_limit filters) as [n|]; [|done]. cbn. f_equal. lia.
Qed.

Lemma remember_valid id filters r u r' : remember_subscription S id filters r = (Ok u, r') -> validate_subscription_id id = Ok tt.
Proof. unfold remember_subscription. by destruct (validate_subscription_id id) as [[]|e|]. Qed.

Lemma subscribe_refines id filters : str_ok id -> refines rep (subscribe E S N id filters) (spec_subscribe S N id filters).
Proof.
  intros Hid r a HR. unfold subscribe, spec_subscribe. apply (refines_at_bind rep); [by apply remember_refines|]. intros [] r' a' Hv _ HR'. apply remember_valid in Hv.
  unfold replay_subscription. pose proof (rp_events_len _ _ _ _ _ HR') as Hlen.
  assert (refines_at rep (replay_loop N (Datatypes.S (Z.to_nat E)) id filters (replicate (Z.to_nat E) false) 0) (spec_enqueue_events N id (replay_events (sp_events a') filters)) r' a') as Hloop.
  { pose proof (replay_loop_refines (Datatypes.S (Z.to_nat E)) id filters (replicate (Z.to_nat E) false) 0 r' a' HR') as H. rewrite len_replicate in H.
    rewrite remaining_start in H by (unfold len in Hlen; lia). pose proof (List.filter_length_le (event_matches filters) (sp_events a')) as Hfl.
    specialize (H ltac:(lia) ltac:(unfold len in Hlen; lia)). unfold replay_events.
    replace ((fun n => n - 0) <$> replay_limit filters) with (replay_limit filters) in H; [exact H|]. destruct (replay_limit filters) as [n|]; [|done]. cbn. f_equal. lia. }
  unfold refines_at. rewrite get_bind. apply (refines_at_bind rep); [exact Hloop|]. intros [] r'' a'' _ _ HR''. rewrite validate_subscription_fits by done.
  apply refines_at_lift_l. by apply enqueue_refines.
Qed.
End simulation.

(** *** Verification cannot panic *)
Section verification.
Context {P : NostrPrims} `{!NostrPrimsLaws P}.

Lemma has_p_tag_safe (tags : list (list (list Z))) : Forall (fun tag => tag <> []) tags -> exists b, has_p_tag tags = Ok b.
Proof.
  induction 1 as [|tag tags Ht _ [b IH]]; [by exists false|]. destruct tag as [|name tag]; [done|]. cbn [has_p_tag]. unfold tag_name. rewrite index_0.
  cbn [mbind outcome_bind]. destruct (_ && _); eauto.
Qed.

(** What is accepted is signed, of the right kind, and its content is the encoding
    of an envelope, which is written to the buffer. *)
Lemma verify_and_decode_spec e out :
  unsigned_ok (unsigned e) -> event_text_ok e ->
  match verify_and_decode_hyf_nostr_event e out with
  | (Ok env, out') => verify_event e = Ok tt /\ ne_kind e = HYF_NOSTR_ENVELOPE_KIND /\
      exists raw, bytes_ok raw /\ ne_content e = hex_bytes raw /\ decode_envelope raw = Ok env /\ out' = raw ++ drop (length raw) out
  | (Err _, _) => True
  | (Panic, _) => False
  end.
Proof.
  intros Hu [_ Ht]. unfold verify_and_decode_hyf_nostr_event.
  assert (verify_event e <> Panic) as Hv.
  { rewrite verify_event_spec by done. case_bool_decide; [|done]. destruct (VerifyingKey_from_slice _); [|done]. destruct (Signature_from_slice _); [|done]. by destruct (verify_raw _ _ _). }
  destruct (verify_event e) as [[]|err|]; [|done..]. rewrite lift_bind_ok. destruct (Z.eqb_spec (ne_kind e) HYF_NOSTR_ENVELOPE_KIND) as [Hk|]; [|done].
  cbn [negb guard_err]. rewrite lift_bind_ok. destruct (has_p_tag_safe (ne_tags e)) as [b Hb]; [eapply list.Forall_impl; [exact Ht|by intros ? []]|].
  rewrite Hb, lift_bind_ok. destruct b; [|done]. cbn [negb guard_err]. rewrite lift_bind_ok.
  unfold decode_hyf_envelope_content, validate_content_len. cbv zeta. destruct (len (ne_content e) >? _); [done|].
  pose proof (hex_decode_spec (ne_content e) out) as Hx. unfold mbind, io_bind, lift. destruct (decode_lower_hex (ne_content e) out) as [[n|err|] out']; [|done..].
  destruct Hx as (raw & Hr & Hc & -> & ->). unfold get. rewrite slice_app_first by done. pose proof (decode_envelope_safe raw Hr) as Hs.
  destruct (decode_envelope raw) as [env|err|] eqn:He; [|done..]. cbn [map_err]. split_and!; [done..|]. by exists raw.
Qed.

Lemma validate_publish_safe e profile buffer : unsigned_ok (unsigned e) -> event_text_ok e -> fst (validate_publish_profile e profile buffer) <> Panic.
Proof.
  intros Hu Ht. destruct profile as [|kind]; cbn [validate_publish_profile].
  - pose proof (verify_and_decode_spec e buffer Hu Ht) as H. unfold mbind, io_bind. by destruct (verify_and_decode_hyf_nostr_event e buffer) as [[]].
  - unfold mbind, io_bind, lift. rewrite verify_event_spec by done. case_bool_decide; [|done]. destruct (VerifyingKey_from_slice _); [|done].
    destruct (Signature_from_slice _); [|done]. destruct (verify_raw _ _ _); [|done]. by destruct (negb _).
Qed.
End verification.

(** ** Sequences of operations *)
Inductive relay_op :=
| OpRemember (id : list Z) (filters : list NostrFilter)
| OpSubscribe (id : list Z) (filters : list NostrFilter)
| OpReject (status : NostrRelayStatus)
| OpClose (id : list Z)
| OpPublish (event : NostrEvent) (profile : FakeNostrPublishProfile) (decode_buffer : list Z)
| OpEnqueue (output : FakeNostrRelayOutput)
| OpConsume
| OpPop.

Inductive relay_reply :=
| ReplyUnit
| ReplyBool (b : bool)
| ReplyOutcome (outcome : NostrPublishOutcome) (decode_buffer : list Z)
| ReplyOutput (output : option FakeNostrRelayOutput).

Definition reply {S A} (f : A -> relay_reply) (m : io S NostrError A) : io S NostrError relay_reply := x ← m; mret (f x).
Definition reply_publish {S} (m : io (S * list Z) NostrError NostrPublishOutcome) (buffer : list Z) : io S NostrError relay_reply := fun s =>
  match m (s, buffer) with
  | (Ok o, (s', buffer')) => (Ok (ReplyOutcome o buffer'), s')
  | (Err e, (s', _)) => (Err e, s')
  | (Panic, (s', _)) => (Panic, s')
  end.

(** What the types guarantee of the arguments. *)
Definition output_ok (output : FakeNostrRelayOutput) : Prop :=
  match output with
  | OutOk _ _ s => status_ok s
  | OutEvent _ e => event_text_ok e
  | OutEose sid => str_ok sid
  | OutClosed sid s => str_ok sid /\ status_ok s
  | OutNotice t | OutAuth t => str_ok t
  end.
Definition op_ok (op : relay_op) : Prop :=
  match op with
  | OpRemember id _ | OpSubscribe id _ | OpClose id => str_ok id
  | OpReject s => status_ok s
  | OpPublish e _ _ => event_text_ok e /\ unsigned_ok (unsigned e)
  | OpEnqueue output => output_ok output
  | OpConsume | OpPop => True
  end.

Section runs.
Context {P : NostrPrims}.
Context (E S N : Z).

Definition relay_step (op : relay_op) : io FakeNostrRelay NostrError relay_reply :=
  match op with
  | OpRemember id filters => reply (fun _ => ReplyUnit) (remember_subscription S id filters)
  | OpSubscribe id filters => reply (fun _ => ReplyUnit) (subscribe E S N id filters)
  | OpReject status => reply (fun _ => ReplyUnit) (reject_next_publish status)
  | OpClose id => reply ReplyBool (close_subscription id)
  | OpPublish event profile buffer => reply_publish (publish_with_profile E N event profile) buffer
  | OpEnqueue output => reply (fun _ => ReplyUnit) (enqueue_output N output)
  | OpConsume => reply ReplyBool (consume_output N)
  | OpPop => reply ReplyOutput (pop_next_output N id)
  end.

Definition spec_step (op : relay_op) : io SpecRelay NostrError relay_reply :=
  match op with
  | OpRemember id filters => reply (fun _ => ReplyUnit) (spec_remember S id filters)
  | OpSubscribe id filters => reply (fun _ => ReplyUnit) (spec_subscribe S N id filters)
  | OpReject status => reply (fun _ => ReplyUnit) (spec_reject status)
  | OpClose id => reply ReplyBool (spec_close id)
  | OpPublish event profile buffer => reply_publish (spec_publish E N event profile) buffer
  | OpEnqueue output => reply (fun _ => ReplyUnit) (spec_enqueue_output N output)
  | OpConsume => reply ReplyBool spec_consume
  | OpPop => reply ReplyOutput (s ← get; _ ← (match spec_next s with Some _ => _ ← spec_consume; mret tt | None => mret tt end); mret (id <$> spec_next s))
  end.

Hypotheses (events_cap : 0 <= E <= usize_MAX) (subscriptions_cap : 0 <= S <= usize_MAX) (outputs_cap : 0 <= N <= usize_MAX).

Lemma reply_refines {A} (f : A -> relay_reply) (m : io FakeNostrRelay NostrError A) (n : io SpecRelay NostrError A) r a :
  refines_at (represents E S N) m n r a -> refines_at (represents E S N) (reply f m) (reply f n) r a.
Proof. intros H. apply refines_at_bind; [done|]. intros x r' a' _ _ HR. by apply refines_ret. Qed.

Lemma step_refines op : op_ok op -> refines (represents E S N) (relay_step op) (spec_step op).
Proof.
  intros Hop r a HR. destruct op; cbn [relay_step spec_step op_ok] in *.
  1: apply reply_refines, remember_refines; done.
  1: apply reply_refines, subscribe_refines; done.
  1: apply reply_refines, reject_refines; done.
  1: apply reply_refines, close_refines; done.
  2: apply reply_refines, enqueue_output_refines; done.
  2: apply reply_refines, consume_refines; done.
  2: apply reply_refines, pop_refines; done.
  destruct Hop as [Ht _]. destruct (publish_refines E S N events_cap outputs_cap event profile Ht (r, decode_buffer) (a, decode_buffer)) as [H1 [H2 H3]]; [by split|].
  unfold refines_at, reply_publish. destruct (publish_with_profile E N event profile (r, decode_buffer)) as [o [r' b]].
  destruct (spec_publish E N event profile (a, decode_buffer)) as [o' [a' b']]. cbn [fst snd] in *. subst o' b'. by destruct o.
Qed.

Lemma new_represents : represents E S N (FakeNostrRelay_new E S N) spec_new.
Proof.
  constructor; cbn; try done.
  - symmetry. apply queue_nil.
  - rewrite (@len_nil NostrEvent). lia.
  - constructor.
  - rewrite len_replicate. lia.
  - rewrite occupied_nones. constructor.
  - by rewrite occupied_nones.
  - exists []. split; [symmetry; apply queue_nil|]. split; [rewrite (@len_nil FakeNostrRelayOutputRecord); lia|]. split; [constructor|].
    constructor; [rewrite len_replicate; lia|constructor| |constructor]. intros i [x Hx]. unfold get_slot in Hx. destruct (i <? 0); [done|].
    destruct (replicate _ None !! _) as [s|] eqn:Es; [|done]. apply lookup_replicate_1 in Es as [-> _]. done.
  - by rewrite occupied_nones.
Qed.

Lemma run_refines ops r a :
  Forall op_ok ops -> represents E S N r a ->
  fst (run_steps relay_step ops r) = fst (run_steps spec_step ops a) /\ represents E S N (snd (run_steps relay_step ops r)) (snd (run_steps spec_step ops a)).
Proof. apply run_steps_refines. exact step_refines. Qed.
End runs.

(** *** No operation panics *)
Section spec_safety.
Context {P : NostrPrims} `{!NostrPrimsLaws P}.
Context (E S N : Z).

(** A step that loses at most one output. *)
Definition loses_one {A} (m : io SpecRelay NostrError A) : Prop := forall a,
  sp_overflows a < usize_MAX -> fst (m a) <> Panic /\ sp_overflows a <= sp_overflows (snd (m a)) <= sp_overflows a + 1 /\
  (forall x, fst (m a) = Ok x -> sp_overflows (snd (m a)) = sp_overflows a).

Definition quiet {A} (m : io SpecRelay NostrError A) : Prop := forall a, fst (m a) <> Panic /\ sp_overflows (snd (m a)) = sp_overflows a.

Lemma quiet_loses {A} (m : io SpecRelay NostrError A) : quiet m -> loses_one m.
Proof. intros H a _. destruct (H a) as [H1 H2]. split; [done|]. split; [lia|done]. Qed.

Lemma quiet_bind {A B} (m : io SpecRelay NostrError A) (f : A -> io SpecRelay NostrError B) : quiet m -> (forall x, quiet (f x)) -> quiet (m ≫= f).
Proof.
  intros Hm Hf a. destruct (Hm a) as [H1 H2]. unfold mbind, io_bind. destruct (m a) as [[x|e|] a']; cbn [fst snd] in *; [|done..].
  destruct (Hf x a'). split; [done|lia].
Qed.

Lemma loses_bind {A B} (m : io SpecRelay NostrError A) (f : A -> io SpecRelay NostrError B) : loses_one m -> (forall x, loses_one (f x)) -> loses_one (m ≫= f).
Proof.
  intros Hm Hf a Ha. destruct (Hm a Ha) as (H1 & H2 & H3). unfold mbind, io_bind. destruct (m a) as [[x|e|] a']; cbn [fst snd] in *; [|done..].
  specialize (H3 x eq_refl). destruct (Hf x a') as (H4 & H5 & H6); [lia|]. split; [done|]. split; [lia|]. intros y Hy. specialize (H6 y Hy). lia.
Qed.

Lemma loses_get {A} (f : SpecRelay -> io SpecRelay NostrError A) : (forall s, loses_one (f s)) -> loses_one (get ≫= f).
Proof. intros H a. exact (H a a). Qed.
Lemma quiet_get {A} (f : SpecRelay -> io SpecRelay NostrError A) : (forall s, fst (f s s) <> Panic /\ sp_overflows (snd (f s s)) = sp_overflows s) -> quiet (get ≫= f).
Proof. intros H a. exact (H a). Qed.
Lemma quiet_ret {A} (x : A) : quiet (mret x).
Proof. by intros a. Qed.
Lemma quiet_lift {A} (o : outcome NostrError A) : o <> Panic -> quiet (lift o).
Proof. by intros Ho a. Qed.
Lemma quiet_fail {A B} e (f : A -> io SpecRelay NostrError B) : quiet (lift (Err e) ≫= f).
Proof. by intros a. Qed.

Lemma enqueue_loses output : loses_one (spec_enqueue N output).
Proof.
  intros a Ha. unfold spec_enqueue. rewrite get_bind. destruct (_ <? N); [split; [done|]; split; [cbn; lia|done]|].
  destruct (Z.eqb_spec (sp_overflows a) usize_MAX); [lia|]. unfold mbind, io_bind, put, lift.
  cbn [fst snd sp_overflows spec_with_overflows]. split; [done|]. split; [lia|done].
Qed.

Lemma enqueue_events_loses id es : loses_one (spec_enqueue_events N id es).
Proof. induction es as [|e es IH]; [apply quiet_loses, quiet_ret|]. apply loses_bind; [apply enqueue_loses|done]. Qed.

Lemma validate_id_safe id : validate_subscription_id id <> Panic.
Proof. unfold validate_subscription_id. cbv zeta. destruct (len id =? 0); [done|]. by destruct (len id >? _). Qed.

Lemma status_check_safe s : status_check s <> Panic.
Proof. apply outcome_bind_safe; [apply guard_err_safe|]. intros _ _. apply guard_err_safe. Qed.

Lemma remember_quiet id filters : quiet (spec_remember S id filters).
Proof.
  apply quiet_bind; [apply quiet_lift, validate_id_safe|]. intros _. apply quiet_get. intros s. by destruct (_ || _).
Qed.

Lemma publish_valid_loses e : loses_one (spec_publish_valid E N e).
Proof.
  assert (forall o x, loses_one (_ ← spec_enqueue N o; mret (M := io SpecRelay NostrError) (x : NostrPublishOutcome))) as Ho.
  { intros o x. apply loses_bind; [apply enqueue_loses|]. intros _. apply quiet_loses, quiet_ret. }
  intros a Ha. unfold spec_publish_valid. rewrite get_bind. destruct (existsb _ _); [by apply Ho|].
  destruct (sp_rejection a) as [s|]; [rewrite put_bind; by apply (Ho _ _ (spec_with_rejection None a))|].
  pose proof (storable_safe e) as Hs. destruct (storable e) as [[]|err|]; [|by apply (quiet_loses _ (quiet_fail err _))|done]. rewrite lift_bind_ok.
  destruct (len (sp_events a) <? E); cbn [negb guard_err]; [|by apply (quiet_loses _ (quiet_fail _ _))]. rewrite lift_bind_ok, put_bind.
  by apply (Ho _ _ (spec_with_events (sp_events a ++ [e]) a)).
Qed.

Lemma publish_loses e profile buffer : op_ok (OpPublish e profile buffer) -> loses_one (reply_publish (spec_publish E N e profile) buffer).
Proof.
  intros [Ht Hu] a Ha. unfold reply_publish, spec_publish. cbn [fst snd]. pose proof (validate_publish_safe e profile buffer Hu Ht) as Hv.
  destruct (validate_publish_profile e profile buffer) as [[[]|err|] buffer']; [| |done].
  - destruct (publish_valid_loses e a Ha) as (H1 & H2 & H3). destruct (spec_publish_valid E N e a) as [[o|err|] a']; cbn [fst snd] in *; [|done..].
    split; [done|]. split; [done|]. intros _ _. by apply (H3 o).
  - destruct (enqueue_loses (OutOk (ne_id e) false invalid_status) a Ha) as (H1 & H2 & H3). unfold mbind, io_bind.
    destruct (spec_enqueue N _ a) as [[[]|err'|] a']; cbn [fst snd mret io_ret] in *; [|done..]. split; [done|]. split; [done|]. intros _ _. by apply (H3 tt).
Qed.

Lemma step_loses op : op_ok op -> loses_one (spec_step E S N op).
Proof.
  intros Hop. destruct op; cbn [spec_step].
  5: by apply publish_loses.
  all: apply loses_bind; [|intros ?; apply quiet_loses, quiet_ret].
  - apply quiet_loses, remember_quiet.
  - apply loses_bind; [apply quiet_loses, remember_quiet|]. intros _. apply loses_get. intros s. apply loses_bind; [apply enqueue_events_loses|].
    intros _. apply enqueue_loses.
  - apply quiet_loses, quiet_bind; [apply quiet_lift, status_check_safe|]. intros _. by intros a.
  - apply quiet_loses, quiet_bind; [apply quiet_lift, validate_id_safe|]. intros _. by apply quiet_get.
  - apply loses_bind; [|intros _; apply enqueue_loses]. apply quiet_loses, quiet_lift.
    destruct output; try apply status_check_safe; try apply storable_safe; try apply validate_id_safe; try apply guard_err_safe.
    apply outcome_bind_safe; [apply validate_id_safe|]. intros _ _. apply status_check_safe.
  - apply quiet_loses, quiet_get. intros s. by destruct (sp_outputs s).
  - apply quiet_loses, quiet_get. intros s. unfold spec_next. destruct (sp_outputs s) as [|o os] eqn:Ho; [done|]. cbn [head].
    unfold spec_consume, mbind, io_bind, get. by rewrite Ho.
Qed.

Lemma spec_run_safe ops a :
  Forall op_ok ops -> 0 <= sp_overflows a -> sp_overflows a + len ops <= usize_MAX ->
  Forall (fun r => r <> Panic) (fst (run_steps (spec_step E S N) ops a)) /\
  sp_overflows a <= sp_overflows (snd (run_steps (spec_step E S N) ops a)) <= sp_overflows a + len ops.
Proof.
  intros Hops. revert a. induction Hops as [|op ops Hop _ IH]; intros a Ha Hl; cbn [run_steps].
  { change (len (@nil relay_op)) with 0. cbn [fst snd]. split; [constructor|lia]. }
  rewrite len_cons in *. pose proof (len_nonneg ops). destruct (step_loses op Hop a) as (H1 & H2 & _); [lia|].
  destruct (spec_step E S N op a) as [o a']. cbn [fst snd] in *. destruct (IH a') as [H3 H4]; [lia..|].
  destruct (run_steps (spec_step E S N) ops a') as [os a'']. cbn [fst snd] in *. split; [by constructor|lia].
Qed.
End spec_safety.

(** ** Reading the outputs *)
Fixpoint drain (N : Z) (fuel : nat) (r : FakeNostrRelay) : list FakeNostrRelayOutput :=
  match fuel with
  | O => []
  | Datatypes.S fuel =>
      match pop_next_output N id r with
      | (Ok (Some output), r') => output :: drain N fuel r'
      | _ => []
      end
  end.

Lemma drain_spec E S N (events_cap : 0 <= E <= usize_MAX) (subscriptions_cap : 0 <= S <= usize_MAX) (outputs_cap : 0 <= N <= usize_MAX) r a fuel :
  represents E S N r a -> (length (sp_outputs a) <= fuel)%nat -> drain N fuel r = sp_outputs a.
Proof.
  intros HR. revert r a HR. induction fuel as [|fuel IH]; intros r a HR Hl; [destruct (sp_outputs a); [done|cbn in Hl; lia]|]. cbn [drain].
  destruct (pop_refines E S N ltac:(done) (@id FakeNostrRelayOutput) r a HR) as [H1 H2]. rewrite get_bind in H1, H2. unfold spec_next in H1, H2.
  destruct (pop_next_output N id r) as [o r']. cbn [fst snd] in H1, H2. destruct (sp_outputs a) as [|output outputs] eqn:Ho; cbn [head] in H1, H2.
  { by subst o. }
  unfold spec_consume, mbind, io_bind, get, put in H1, H2. rewrite Ho in H1, H2. cbn in H1, H2. subst o. f_equal. apply (IH r' _ H2). cbn in *. lia.
Qed.

(** ** Claims *)
Section claims.
Context {P : NostrPrims} `{!NostrPrimsLaws P}.
Context (E S N : Z).
Hypotheses (events_cap : 0 <= E <= usize_MAX) (subscriptions_cap : 0 <= S <= usize_MAX) (outputs_cap : 0 <= N <= usize_MAX).

Lemma represents_size r a : represents E S N r a -> len (occupied (fr_subscriptions r)) = Z.of_nat (size (sp_subscriptions a)).
Proof. intros []. rewrite rp_subs0. symmetry. by apply subs_size. Qed.

(** C6. The arrays behave as the abstract relay.  Whatever the operations, from an
    empty relay, in whatever order and whether they fail or not, every reply is
    the one of a relay that is a list of events, a map of subscriptions and a queue
    of outputs; afterwards the counters count what is there, the next control
    output is the one at the head of the queue, and taking the outputs one by one
    yields the queue. *)
Theorem relay_refines_queue ops :
  Forall op_ok ops ->
  let '(replies, r) := run_steps (relay_step E S N) ops (FakeNostrRelay_new E S N) in
  let '(expected, a) := run_steps (spec_step E S N) ops spec_new in
  replies = expected /\
  fr_metrics r = mk_relay_metrics (len (sp_events a)) (Z.of_nat (size (sp_subscriptions a))) (len (sp_outputs a)) (sp_overflows a) /\
  stored_event_count r = len (sp_events a) /\
  next_control_output r = Ok (spec_next a ≫= control_of) /\
  drain N (length (sp_outputs a)) r = sp_outputs a.
Proof.
  intros Hops. destruct (run_refines E S N events_cap subscriptions_cap outputs_cap ops _ _ Hops (new_represents E S N events_cap subscriptions_cap outputs_cap)) as [H HR].
  destruct (run_steps (relay_step E S N) ops _) as [replies r], (run_steps (spec_step E S N) ops _) as [expected a]. cbn [fst snd] in H, HR. split_and!.
  - done.
  - rewrite (rp_metrics _ _ _ _ _ HR). by rewrite (represents_size r a HR).
  - unfold stored_event_count. rewrite (rp_events _ _ _ _ _ HR), occupied_queue. apply len_map.
  - by eapply control_shows.
  - by eapply (drain_spec E S N).
Qed.

(** No sequence of operations makes the relay panic, as long as there are fewer of
    them than the counter of lost outputs can count. *)
Theorem relay_total ops :
  Forall op_ok ops -> len ops <= usize_MAX ->
  Forall (fun reply => reply <> Panic) (fst (run_steps (relay_step E S N) ops (FakeNostrRelay_new E S N))).
Proof.
  intros Hops Hl. destruct (run_refines E S N events_cap subscriptions_cap outputs_cap ops _ _ Hops (new_represents E S N events_cap subscriptions_cap outputs_cap)) as [-> _].
  by apply (spec_run_safe E S N ops spec_new Hops).
Qed.

Lemma spec_enqueue_events_room id es a :
  len (sp_outputs a) + len es <= N -> spec_enqueue_events N id es a = (Ok tt, spec_with_outputs (sp_outputs a ++ map (OutEvent id) es) a).
Proof.
  revert a. induction es as [|e es IH]; intros a Hl; cbn [spec_enqueue_events map].
  { rewrite app_nil_r. by destruct a. }
  rewrite len_cons in Hl. pose proof (len_nonneg es). unfold spec_enqueue, mbind, io_bind, get. destruct (Z.ltb_spec (len (sp_outputs a)) N); [|lia]. cbn [put].
  rewrite IH; cbn [sp_outputs spec_with_outputs]; [by rewrite <- app_assoc|]. rewrite len_app. change (len [OutEvent id e]) with 1. lia.
Qed.

Lemma elem_of_take_limit {A} limit (l : list A) x : x ∈ take_limit limit l -> x ∈ l.
Proof. destruct limit as [n|]; [|done]. cbn. intros H. rewrite <- (take_drop (Z.to_nat n) l). apply elem_of_app. by left. Qed.

Lemma replay_events_spec es filters :
  let replay := replay_events es filters in
  Sorted event_le replay /\ (forall e, e ∈ replay -> e ∈ es /\ event_matches filters e = true) /\
  (forall e, e ∈ es -> event_matches filters e = true -> e ∈ replay \/
     (exists n, replay_limit filters = Some n /\ length replay = Z.to_nat n) /\ forall e', e' ∈ replay -> event_le e' e).
Proof.
  cbv zeta. unfold replay_events. set (all := merge_sort event_le (List.filter (event_matches filters) es)).
  assert (StronglySorted event_le all) as Hs by (apply StronglySorted_merge_sort; apply _).
  assert (forall e, e ∈ all <-> e ∈ es /\ event_matches filters e = true) as Hin.
  { intros e. unfold all. rewrite merge_sort_Permutation, list_elem_of_In, List.filter_In, <- list_elem_of_In. done. }
  split_and!.
  - apply StronglySorted_Sorted. destruct (replay_limit filters) as [n|]; [|done]. cbn [take_limit]. rewrite <- (take_drop (Z.to_nat n) all) in Hs.
    by eapply StronglySorted_app_1_l.
  - intros e He. apply Hin. by eapply elem_of_take_limit.
  - intros e He Hm. assert (e ∈ all) as Ha by (by apply Hin). destruct (replay_limit filters) as [n|]; [|by left]. cbn [take_limit].
    rewrite <- (take_drop (Z.to_nat n) all) in Ha, Hs. apply elem_of_app in Ha as [?|Hd]; [by left|]. right. split.
    + exists n. split; [done|]. rewrite length_take. apply list_elem_of_lookup in Hd as [i Hi]. apply lookup_lt_Some in Hi. rewrite length_drop in Hi. lia.
    + intros e' He'. by eapply StronglySorted_app_1_elem_of.
Qed.

(** C27. What a new subscription brings: if the queue has room, the outputs are those
    that were waiting, then one event for each stored event that is replayed, then
    the end marker.  Replayed are stored events that match a filter, newest first
    and by identifier within a second; an event that matches and is not replayed
    is beyond the limit, and comes after all that are. *)
Theorem relay_replay ops id filters :
  Forall op_ok ops -> str_ok id -> validate_subscription_id id = Ok tt ->
  let r := snd (run_steps (relay_step E S N) ops (FakeNostrRelay_new E S N)) in
  let a := snd (run_steps (spec_step E S N) ops spec_new) in
  let replay := replay_events (sp_events a) filters in
  Z.of_nat (size (sp_subscriptions a)) < S -> len (sp_outputs a) + len replay < N ->
  (exists r', subscribe E S N id filters r = (Ok tt, r') /\ drain N (Z.to_nat N) r' = sp_outputs a ++ map (OutEvent id) replay ++ [OutEose id]) /\
  Sorted event_le replay /\ (forall e, e ∈ replay -> e ∈ sp_events a /\ event_matches filters e = true) /\
  (forall e, e ∈ sp_events a -> event_matches filters e = true -> e ∈ replay \/
     (exists n, replay_limit filters = Some n /\ length replay = Z.to_nat n) /\ forall e', e' ∈ replay -> event_le e' e).
Proof.
  intros Hops Hid Hv r a replay Hsub Hroom. split; [|apply replay_events_spec].
  destruct (run_refines E S N events_cap subscriptions_cap outputs_cap ops _ _ Hops (new_represents E S N events_cap subscriptions_cap outputs_cap)) as [_ HR].
  fold r a in HR. destruct (subscribe_refines E S N events_cap subscriptions_cap outputs_cap id filters Hid r a HR) as [H1 H2].
  assert (spec_subscribe S N id filters a =
    (Ok tt, spec_with_outputs (sp_outputs a ++ map (OutEvent id) replay ++ [OutEose id]) (spec_with_subscriptions (<[id := filters]> (sp_subscriptions a)) a))) as Hspec.
  { unfold spec_subscribe, spec_remember. rewrite Hv. unfold mbind, io_bind, lift, get. destruct (Z.ltb_spec (Z.of_nat (size (sp_subscriptions a))) S); [|lia].
    rewrite orb_true_r. cbn [put]. cbn [sp_events spec_with_subscriptions]. fold replay.
    rewrite (spec_enqueue_events_room id replay) by (cbn [sp_outputs spec_with_subscriptions]; lia). unfold spec_enqueue, mbind, io_bind, get.
    cbn [sp_outputs spec_with_outputs spec_with_subscriptions]. rewrite len_app.
    assert (len (map (OutEvent id) replay) = len replay) as -> by (unfold len; by rewrite length_map). destruct (Z.ltb_spec (len (sp_outputs a) + len replay) N); [|lia].
    cbn [put]. by rewrite <- app_assoc. }
  rewrite Hspec in H1, H2. destruct (subscribe E S N id filters r) as [o r']. cbn [fst snd] in H1, H2. subst o. exists r'. split; [done|].
  rewrite (drain_spec E S N events_cap subscriptions_cap outputs_cap r' _ (Z.to_nat N) H2); [done|]. cbn [sp_outputs spec_with_outputs]. rewrite !length_app, length_map. cbn [length]. unfold len in Hroom. lia.
Qed.
End claims.

(** ** Witnesses *)
Definition relay_filter : NostrFilter := mk_filter [HYF_NOSTR_ENVELOPE_KIND] [] [] None None (Some 2).
Definition relay_ops : list relay_op :=
  [OpSubscribe (str "a") [relay_filter]; OpPublish hyf_signed HyfEnvelopeProfile (zeros 200); OpPublish hyf_signed HyfEnvelopeProfile (zeros 200);
   OpConsume; OpEnqueue (OutEvent (str "a") hyf_signed); OpEnqueue (OutNotice (str "full")); OpPop; OpClose (str "a")].

Lemma hyf_signed_ok : event_text_ok hyf_signed /\ unsigned_ok (unsigned hyf_signed).
Proof.
  assert (event_text_ok hyf_signed) as H.
  { split; [apply str_ok_ascii; apply (bool_decide_unpack _); vm_compute; exact I|].
    assert (ne_tags hyf_signed = [[str "p"; hex_bytes (toy_bytes 32 true)]; [str "t"; HYF_NOSTR_TOPIC_TAG]; [str "alt"; HYF_NOSTR_ALT_TAG]]) as -> by (vm_compute; reflexivity).
    repeat (apply List.Forall_cons || apply List.Forall_nil); (split; [|done]);
      repeat (apply List.Forall_cons || apply List.Forall_nil); apply str_ok_ascii; apply (bool_decide_unpack _); vm_compute; exact I. }
  split; [done|]. destruct H as [Hc Ht]. constructor; [|unfold u64_ok; vm_compute; split; [discriminate|reflexivity]|unfold u16_ok; vm_compute; split; [discriminate|reflexivity]| |exact Hc].
  - assert (ue_pubkey (unsigned hyf_signed) = toy_bytes 32 (Z.eqb 1 1) \/ ue_pubkey (unsigned hyf_signed) = toy_bytes 32 false) as [->| ->]
      by (vm_compute; (left; reflexivity) || (right; reflexivity)); apply (toy_bytes_ok 32).
  - eapply list.Forall_impl; [exact Ht|by intros ? []].
Qed.

Lemma relay_ops_ok : Forall op_ok relay_ops.
Proof.
  destruct hyf_signed_ok as [Ht Hu]. assert (forall s : string, Forall (fun b => 0 <= b < 128) (str s) -> str_ok (str s)) as Hs by (intros; by apply str_ok_ascii).
  repeat (apply List.Forall_cons || apply List.Forall_nil); cbn [op_ok output_ok]; try done; apply Hs; vm_compute; by repeat constructor.
Qed.

Definition relay_final : FakeNostrRelay := snd (run_steps (relay_step 2 1 3) relay_ops (FakeNostrRelay_new 2 1 3)).

Lemma relay_refines_queue_witness :
  fst (run_steps (relay_step 2 1 3) relay_ops (FakeNostrRelay_new 2 1 3)) = fst (run_steps (spec_step 2 1 3) relay_ops spec_new) /\
  fr_metrics relay_final = mk_relay_metrics 1 0 2 1.
Proof.
  assert (forall n, 0 <= n <= 3 -> 0 <= n <= usize_MAX) as Hc by (unfold usize_MAX; lia).
  pose proof (relay_refines_queue 2 1 3 (Hc 2 ltac:(lia)) (Hc 1 ltac:(lia)) (Hc 3 ltac:(lia)) relay_ops relay_ops_ok) as H. unfold relay_final.
  destruct (run_steps (relay_step 2 1 3) relay_ops _) as [replies r]. destruct (run_steps (spec_step 2 1 3) relay_ops _) as [expected a] eqn:Ha. cbn [fst snd].
  destruct H as (H1 & H2 & _). split; [exact H1|]. rewrite H2. apply (f_equal snd) in Ha. cbn [snd] in Ha. rewrite <- Ha. vm_compute. reflexivity.
Defined.

Lemma relay_total_witness : Forall (fun reply => reply <> Panic) (fst (run_steps (relay_step 2 1 3) relay_ops (FakeNostrRelay_new 2 1 3))).
Proof.
  assert (forall n, 0 <= n <= 3 -> 0 <= n <= usize_MAX) as Hc by (unfold usize_MAX; lia).
  apply (relay_total 2 1 3 (Hc 2 ltac:(lia)) (Hc 1 ltac:(lia)) (Hc 3 ltac:(lia)) relay_ops relay_ops_ok). vm_compute. discriminate.
Defined.

Definition replay_ops : list relay_op := [OpPublish hyf_signed HyfEnvelopeProfile (zeros 200)].

Lemma relay_replay_witness :
  exists r', subscribe 2 1 3 (str "a") [relay_filter] (snd (run_steps (relay_step 2 1 3) replay_ops (FakeNostrRelay_new 2 1 3))) = (Ok tt, r') /\
    drain 3 3 r' = [OutOk (ne_id hyf_signed) true empty_status; OutEvent (str "a") hyf_signed; OutEose (str "a")].
Proof.
  assert (forall n, 0 <= n <= 3 -> 0 <= n <= usize_MAX) as Hc by (unfold usize_MAX; lia).
  assert (Forall op_ok replay_ops) as Hops by (apply List.Forall_cons; [exact hyf_signed_ok|apply List.Forall_nil]).
  assert (str_ok (str "a")) as Hid by (apply str_ok_ascii; apply (bool_decide_unpack _); vm_compute; exact I).
  pose proof (relay_replay 2 1 3 (Hc 2 ltac:(lia)) (Hc 1 ltac:(lia)) (Hc 3 ltac:(lia)) replay_ops (str "a") [relay_filter] Hops Hid eq_refl) as H.
  cbv zeta in H. destruct H as [(r' & H1 & H2) _]; [vm_compute; reflexivity|vm_compute; reflexivity|]. exists r'. split; [exact H1|].
  change (Z.to_nat 3) with 3%nat in H2. rewrite H2. vm_compute. reflexivity.
Defined.
