(* ===== verification/BridgeNostr.v ===== *)
(** [hyf_bridge_nostr]: bridge messages in signed Nostr events, and the events
    as JSON (src/crates/hyf_bridge_nostr/src/content.rs, event.rs, error.rs).

    A message travels as the lower-case hexadecimal content of an event of its
    own kind, with a community tag that must agree with the message's room; an
    author that claims to be a Nostr key must be the event's signer.  The JSON
    writer is the crate's own copy, over the same buffer as the canonical form's
    ([NostrJson.buffer_write]). *)
From S2P Require Import Prelude Utf8 Cursor Core Wire NostrHex NostrJson Nostr BridgeCore.
From stdpp Require Import strings.

Open Scope Z_scope.

Definition HYF_NOSTR_BRIDGE_EVENT_KIND : Z := 9109.
Definition HYF_NOSTR_BRIDGE_HYF_TAG : list Z := str "hyf".
Definition HYF_NOSTR_BRIDGE_VERSION_TAG : list Z := str "v0".
Definition HYF_NOSTR_BRIDGE_ALT_TAG : list Z := str "HYF bridge message".
Definition HYF_NOSTR_BRIDGE_EVENT_JSON_MAX_LEN : Z := 6144.

Inductive NostrBridgeError :=
| NostrFailed (error : NostrError)
| BridgeFailed (error : BridgeError)
| WrongKind (actual : Z)
| NostrTagMissing (tag : string)
| CommunityTagMismatch
| NostrAuthorPubkeyMismatch.

(** ** The content *)
Definition encode_bridge_nostr_content (raw_bridge_message : list Z) : io (list Z) NostrBridgeError (list Z) :=
  _ ← lift (map_err BridgeFailed (validate_bridge_message raw_bridge_message));
  io_map_err NostrFailed (encode_lower_hex raw_bridge_message).

Definition decode_bridge_nostr_content (content : list Z) : io (list Z) NostrBridgeError (list Z) :=
  n ← io_map_err NostrFailed (decode_lower_hex content);
  output ← get;
  raw ← lift (slice output 0 n);
  _ ← lift (map_err BridgeFailed (validate_bridge_message raw));
  mret raw.

(** ** The JSON writer *)
(** [JsonWriter] has the fields of [BufferSink]. *)
Definition JsonWriter : Type := BufferSink.
Definition JsonWriter_new : list Z -> JsonWriter := BufferSink_new.
Definition JsonWriter_write : list Z -> io JsonWriter NostrBridgeError unit :=
  buffer_write (fun needed available => NostrFailed (NostrHex.OutputTooSmall needed available)).
#[export] Instance JsonWriter_sink : CanonicalSink JsonWriter NostrBridgeError := JsonWriter_write.

Definition JsonWriter_control_escape (character : Z) : io JsonWriter NostrBridgeError unit :=
  let value := as_u8 character in
  _ ← JsonWriter_write [92; 117; 48; 48];
  high ← lift (Prelude.index HEX_DIGITS (Z.shiftr value 4));
  _ ← push_byte high;
  low ← lift (Prelude.index HEX_DIGITS (Z.land value 0x0f));
  push_byte low.

Definition JsonWriter_char (character : Z) : io JsonWriter NostrBridgeError unit :=
  match character with
  | 34 => push_str [92; 34]
  | 92 => push_str [92; 92]
  | 10 => push_str [92; 110]
  | 13 => push_str [92; 114]
  | 9 => push_str [92; 116]
  | 8 => push_str [92; 98]
  | 12 => push_str [92; 102]
  | _ => if in_range 0 0x1f character then JsonWriter_control_escape character else push_str (encode_utf8 character)
  end.

Fixpoint JsonWriter_chars (characters : list Z) : io JsonWriter NostrBridgeError unit :=
  match characters with
  | [] => mret tt
  | character :: characters => _ ← JsonWriter_char character; JsonWriter_chars characters
  end.

Definition JsonWriter_string (value : list Z) : io JsonWriter NostrBridgeError unit :=
  _ ← push_byte 34;
  _ ← JsonWriter_chars (chars value);
  push_byte 34.

(** The loop of [write_u64], which writes a digit before it looks at what
    remains. *)
Fixpoint JsonWriter_digits (index : nat) (remaining : Z) (digits : list Z) : outcome NostrBridgeError (list Z) :=
  match index with
  | O => Panic
  | S index =>
      let digits := 48 + as_u8 (remaining mod 10) :: digits in
      let remaining := remaining / 10 in
      if remaining =? 0 then Ok digits else JsonWriter_digits index remaining digits
  end.

Definition JsonWriter_u64 (value : Z) : io JsonWriter NostrBridgeError unit :=
  digits ← lift (JsonWriter_digits 20 value []);
  JsonWriter_write digits.

Definition JsonWriter_tags (tags : NostrTagsRef) : io JsonWriter NostrBridgeError unit :=
  _ ← push_byte 91;
  _ ← write_separated (fun tag =>
        _ ← push_byte 91;
        _ ← write_separated JsonWriter_string 0 tag;
        push_byte 93) 0 tags;
  push_byte 93.

(** [write_json_string(name)?; push_byte(b':')?] *)
Definition JsonWriter_key (name : string) : io JsonWriter NostrBridgeError unit :=
  _ ← JsonWriter_string (str name);
  push_byte 58.

Definition write_nostr_event_fields (event : NostrEvent) : io JsonWriter NostrBridgeError unit :=
  id_hex ← lift (map_err NostrFailed (in_array 64 (NostrEventId_write_hex (ne_id event))));
  pubkey_hex ← lift (map_err NostrFailed (in_array 64 (NostrPublicKey_write_hex (ne_pubkey event))));
  sig_hex ← lift (map_err NostrFailed (in_array 128 (NostrSignature_write_hex (ne_sig event))));
  _ ← push_byte 123;
  _ ← JsonWriter_key "id";
  _ ← JsonWriter_string id_hex;
  _ ← push_byte 44;
  _ ← JsonWriter_key "pubkey";
  _ ← JsonWriter_string pubkey_hex;
  _ ← push_byte 44;
  _ ← JsonWriter_key "created_at";
  _ ← JsonWriter_u64 (ne_created_at event);
  _ ← push_byte 44;
  _ ← JsonWriter_key "kind";
  _ ← JsonWriter_u64 (ne_kind event);
  _ ← push_byte 44;
  _ ← JsonWriter_key "tags";
  _ ← JsonWriter_tags (ne_tags event);
  _ ← push_byte 44;
  _ ← JsonWriter_key "content";
  _ ← JsonWriter_string (ne_content event);
  _ ← push_byte 44;
  _ ← JsonWriter_key "sig";
  _ ← JsonWriter_string sig_hex;
  push_byte 125.

Definition write_nostr_event_json (event : NostrEvent) : io (list Z) NostrBridgeError Z := fun output =>
  match write_nostr_event_fields event (JsonWriter_new output) with
  | (Ok _, writer) => (Ok (bs_len writer), bs_out writer)
  | (Err e, writer) => (Err e, bs_out writer)
  | (Panic, writer) => (Panic, bs_out writer)
  end.

(** ** Events *)
Record NostrBridgeEventScratch := mk_event_scratch { es_content : list Z; es_community_hex : list Z }.
Definition NostrBridgeEventScratch_new : NostrBridgeEventScratch :=
  mk_event_scratch (zeros (HYF_BRIDGE_MESSAGE_MAX_LEN * 2)) (zeros 32).

Record NostrBridgeEgressParams := mk_nostr_egress { nep_author_secret : NostrSecretKey; nep_created_at : Z }.

Record NostrBridgeIngress := mk_nostr_ingress {
  ni_raw_bridge_message : list Z;
  ni_bridge_message : BridgeMessageRef;
  ni_ingress_meta : BridgeIngressMeta;
}.

Definition on_event_content {A} (m : io (list Z) NostrBridgeError A) : io NostrBridgeEventScratch NostrBridgeError A :=
  focus es_content (fun b s => mk_event_scratch b (es_community_hex s)) m.
Definition on_community_hex {A} (m : io (list Z) NostrBridgeError A) : io NostrBridgeEventScratch NostrBridgeError A :=
  focus es_community_hex (fun b s => mk_event_scratch (es_content s) b) m.

(** [?] on a result of the Nostr crate. *)
Definition nostr {A} (m : outcome NostrError A) : outcome NostrBridgeError A := map_err NostrFailed m.

Section events.
Context {P : NostrPrims}.

Definition bridge_message_to_nostr_event {T} (raw_bridge_message : list Z) (author_secret : NostrSecretKey)
    (created_at : Z) (f : NostrEvent -> T) : io NostrBridgeEventScratch NostrBridgeError T :=
  bridge_message ← lift (map_err BridgeFailed (validate_bridge_message raw_bridge_message));
  content ← on_event_content (encode_bridge_nostr_content raw_bridge_message);
  community_hex ← on_community_hex (io_map_err NostrFailed (encode_lower_hex (bm_room_id bridge_message)));
  hyf_tag ← lift (nostr (NostrTagRef_new [HYF_NOSTR_BRIDGE_HYF_TAG; str "bridge"; HYF_NOSTR_BRIDGE_VERSION_TAG]));
  community_tag ← lift (nostr (NostrTagRef_new [str "community"; community_hex]));
  alt_tag ← lift (nostr (NostrTagRef_new [str "alt"; HYF_NOSTR_BRIDGE_ALT_TAG]));
  pubkey ← lift (nostr (derive_nostr_public_key author_secret));
  unsigned ← lift (nostr (NostrUnsignedEvent_new pubkey created_at HYF_NOSTR_BRIDGE_EVENT_KIND [hyf_tag; community_tag; alt_tag] content));
  event ← lift (nostr (sign_event unsigned author_secret));
  mret (f event).

(** The closure writes to [output], which nothing else uses: it is the action
    that the event is turned into, run on that buffer. *)
Definition bridge_message_to_nostr_event_json (raw_bridge_message : list Z) (params : NostrBridgeEgressParams)
  : io (NostrBridgeEventScratch * list Z) NostrBridgeError Z :=
  write ← focus fst (fun scratch s => (scratch, snd s))
    (bridge_message_to_nostr_event raw_bridge_message (nep_author_secret params) (nep_created_at params) write_nostr_event_json);
  focus snd (fun output s => (fst s, output)) write.

Definition require_static_tag (tags : NostrTagsRef) (expected : list (list Z)) (missing_name : string) : outcome NostrBridgeError unit :=
  if existsb (fun tag => bool_decide (tag = expected)) tags then Ok tt else Err (NostrTagMissing missing_name).

Fixpoint require_community_tag (tags : NostrTagsRef) : outcome NostrBridgeError (list Z) :=
  match tags with
  | [] => Err (NostrTagMissing "community")
  | values :: tags =>
      if negb (len values =? 2) then require_community_tag tags
      else
        name ← Prelude.index values 0;
        if bool_decide (name = str "community") then
          value ← Prelude.index values 1;
          nostr (decode_fixed_lower_hex 16 value)
        else require_community_tag tags
  end.

Definition validate_nostr_author_rule (pubkey : NostrPublicKey) (bridge_message : BridgeMessageRef) : outcome NostrBridgeError unit :=
  guard_err (bool_decide (author_kind (bm_author bridge_message) = BridgeForeign Nostr) &&
      negb (bool_decide (author_id (bm_author bridge_message) = pubkey)))
    NostrAuthorPubkeyMismatch.

Definition nostr_event_to_bridge_message (event : NostrEvent) : io (list Z) NostrBridgeError NostrBridgeIngress :=
  _ ← lift (nostr (verify_event event));
  _ ← lift (guard_err (negb (ne_kind event =? HYF_NOSTR_BRIDGE_EVENT_KIND)) (WrongKind (ne_kind event)));
  _ ← lift (require_static_tag (ne_tags event) [HYF_NOSTR_BRIDGE_HYF_TAG; str "bridge"; HYF_NOSTR_BRIDGE_VERSION_TAG] "hyf");
  _ ← lift (require_static_tag (ne_tags event) [str "alt"; HYF_NOSTR_BRIDGE_ALT_TAG] "alt");
  community_id ← lift (require_community_tag (ne_tags event));
  raw ← decode_bridge_nostr_content (ne_content event);
  bridge_message ← lift (map_err BridgeFailed (decode_bridge_message raw));
  _ ← lift (guard_err (negb (bool_decide (community_id = bm_room_id bridge_message))) CommunityTagMismatch);
  _ ← lift (validate_nostr_author_rule (ne_pubkey event) bridge_message);
  mret (mk_nostr_ingress raw bridge_message (mk_ingress_meta PNostr TransportSigned)).
End events.

(** ** The JSON of an event *)
Definition json_key (name : string) : list Z := json_string (str name) ++ [58].
Definition event_json (e : NostrEvent) : list Z :=
  [123] ++ json_key "id" ++ json_string (hex_bytes (ne_id e)) ++ [44] ++
  json_key "pubkey" ++ json_string (hex_bytes (ne_pubkey e)) ++ [44] ++
  json_key "created_at" ++ decimal (ne_created_at e) ++ [44] ++
  json_key "kind" ++ decimal (ne_kind e) ++ [44] ++
  json_key "tags" ++ json_tags (ne_tags e) ++ [44] ++
  json_key "content" ++ json_string (ne_content e) ++ [44] ++
  json_key "sig" ++ json_string (hex_bytes (ne_sig e)) ++ [125].

(** What the types guarantee of an event. *)
Record event_ok (e : NostrEvent) : Prop := {
  eo_id : array_ok 32 (ne_id e);
  eo_unsigned : unsigned_ok (unsigned e);
  eo_sig : array_ok 64 (ne_sig e);
}.

#[export] Instance JsonWriter_laws : SinkLaws JsonWriter NostrBridgeError :=
  buffer_laws (fun needed available => NostrFailed (NostrHex.OutputTooSmall needed available)).

Lemma JsonWriter_char_emits c : scalar_ok c -> emits (JsonWriter_char c) (json_char c).
Proof.
  intros Hc. unfold json_char.
  repeat match goal with |- emits _ (if ?c =? ?k then _ else _) => destruct (Z.eqb_spec c k) as [->|]; [match goal with |- emits _ ?v => apply (emits_write v) end|] end.
  assert (JsonWriter_char c = if in_range 0 0x1f c then JsonWriter_control_escape c else push_str (encode_utf8 c)) as ->.
  { unfold JsonWriter_char. repeat (match goal with |- (match ?x with _ => _ end) = _ => destruct x end; try done). }
  rewrite in_range_reflect. destruct (Z.ltb_spec c 32); [|rewrite bool_decide_eq_false_2 by lia; apply emits_write].
  assert (0 <= c < 32) as Hr by (unfold scalar_ok in Hc; lia). rewrite bool_decide_eq_true_2 by lia.
  unfold JsonWriter_control_escape, as_u8. cbv zeta. rewrite Z.mod_small by lia.
  assert (u8_ok c) as Hb by (unfold u8_ok; lia). destruct (byte_nibbles c Hb) as [-> ->]. destruct (nibbles c Hb) as [H1 H2].
  apply emits_bind; [apply emits_write|]. change (hex_byte c) with ([hex_digit (c / 16)] ++ [hex_digit (c mod 16)]).
  eapply emits_lift; [by apply hex_digits_index|]. apply emits_bind; [apply emits_byte|]. eapply emits_lift; [by apply hex_digits_index|apply emits_byte].
Qed.

Lemma JsonWriter_chars_emits cs : Forall scalar_ok cs -> emits (JsonWriter_chars cs) (concat (map json_char cs)).
Proof.
  induction 1 as [|c cs Hc Hcs IH]; [apply emits_ret|]. cbn [JsonWriter_chars map concat].
  apply emits_bind; [by apply JsonWriter_char_emits|exact IH].
Qed.

Lemma JsonWriter_string_emits s : str_ok s -> emits (JsonWriter_string s) (json_string s).
Proof.
  intros Hs. unfold JsonWriter_string, json_string. apply emits_bind; [apply emits_byte|].
  apply emits_bind; [by apply JsonWriter_chars_emits, chars_spec|apply emits_byte].
Qed.

Lemma JsonWriter_digits_ok fuel n acc :
  0 <= n < 10 ^ Z.of_nat fuel -> (0 < fuel)%nat ->
  JsonWriter_digits fuel n acc = Ok ((if n =? 0 then [48] else decimal_digits fuel n) ++ acc).
Proof.
  revert n acc. induction fuel as [|fuel IH]; intros n acc Hn Hf; [lia|].
  rewrite Nat2Z.inj_succ, Z.pow_succ_r in Hn by lia. pose proof (Z.mod_pos_bound n 10 ltac:(lia)).
  cbn [JsonWriter_digits decimal_digits]. cbv zeta. unfold as_u8. rewrite (Z.mod_small (n mod 10)) by lia. rewrite Z.gtb_ltb.
  destruct (Z.eqb_spec n 0) as [->|Hz]; [done|]. destruct (Z.ltb_spec 0 n); [|lia].
  destruct (Z.eqb_spec (n / 10) 0) as [E|E].
  - rewrite E. replace (decimal_digits fuel 0) with (@nil Z) by (by destruct fuel). done.
  - pose proof (Z.div_pos n 10). rewrite IH.
    + destruct (Z.eqb_spec (n / 10) 0); [lia|]. by rewrite <- app_assoc.
    + split; [lia|apply Z.div_lt_upper_bound; lia].
    + destruct fuel; [|lia]. change (10 ^ Z.of_nat 0) with 1 in Hn. Z.to_euclidean_division_equations. lia.
Qed.

Lemma JsonWriter_u64_emits n : u64_ok n -> emits (JsonWriter_u64 n) (decimal n).
Proof.
  intros Hn. unfold JsonWriter_u64, decimal. eapply emits_lift.
  - apply (JsonWriter_digits_ok 20); [|lia]. unfold u64_ok in Hn. change (10 ^ Z.of_nat 20) with 100000000000000000000. lia.
  - rewrite app_nil_r. apply emits_write.
Qed.

Lemma JsonWriter_tags_emits tags : Forall (Forall str_ok) tags -> emits (JsonWriter_tags tags) (json_tags tags).
Proof.
  intros Ht. eapply emits_array; [|done]. intros tag Htag. eapply emits_array; [apply JsonWriter_string_emits|done].
Qed.

Lemma JsonWriter_key_emits s :
  bool_decide (Forall (fun b => 0 <= b < 128) (str s)) = true -> emits (JsonWriter_key s) (json_key s).
Proof. intros Hs. apply emits_bind; [by apply JsonWriter_string_emits, literal_str|apply emits_byte]. Qed.

Lemma emits_event_fields e : event_ok e -> emits (write_nostr_event_fields e) (event_json e).
Proof.
  intros [Hid [Hpk Hc Hk Ht Hs] Hsig]. cbn [unsigned ue_pubkey ue_created_at ue_kind ue_tags ue_content] in *.
  pose proof (hex_str_ok _ (proj2 Hid)). pose proof (hex_str_ok _ (proj2 Hpk)). pose proof (hex_str_ok _ (proj2 Hsig)).
  pose proof (u16_u64 _ Hk). unfold write_nostr_event_fields, event_json.
  unfold NostrEventId_write_hex, NostrPublicKey_write_hex, NostrSignature_write_hex.
  eapply emits_lift; [by rewrite (in_array_hex 32)|]. eapply emits_lift; [by rewrite (in_array_hex 32)|].
  eapply emits_lift; [by rewrite (in_array_hex 64)|].
  repeat lazymatch goal with
    | |- emits (push_byte _) _ => apply emits_byte
    | |- emits (JsonWriter_key _) _ => apply JsonWriter_key_emits; vm_compute; reflexivity
    | |- emits (JsonWriter_string _) _ => apply JsonWriter_string_emits; assumption
    | |- emits (JsonWriter_u64 _) _ => apply JsonWriter_u64_emits; assumption
    | |- emits (JsonWriter_tags _) _ => apply JsonWriter_tags_emits; assumption
    | |- emits (_ ≫= _) _ => apply emits_bind
    end.
Qed.

Lemma write_nostr_event_json_spec e out :
  event_ok e -> len out <= usize_MAX ->
  if len (event_json e) <=? len out
  then write_nostr_event_json e out = (Ok (len (event_json e)), event_json e ++ drop (length (event_json e)) out)
  else exists err out', write_nostr_event_json e out = (Err err, out').
Proof.
  intros He Hmax. unfold write_nostr_event_json.
  pose proof (emits_buffer (fun n a => NostrFailed (NostrHex.OutputTooSmall n a)) _ _ out (emits_event_fields e He) Hmax) as H.
  change BufferSink_new with JsonWriter_new in H.
  destruct (len (event_json e) <=? len out); [by rewrite H|]. destruct H as (err & s' & ->). by eexists _, _.
Qed.

(** ** Messages in events *)
Section event_lemmas.
Context {P : NostrPrims} `{!NostrPrimsLaws P}.

(** The event made for a message, before it is signed. *)
Definition bridge_unsigned (raw pubkey room_id : list Z) (created_at : Z) : NostrUnsignedEvent :=
  mk_unsigned pubkey created_at HYF_NOSTR_BRIDGE_EVENT_KIND
    [[HYF_NOSTR_BRIDGE_HYF_TAG; str "bridge"; HYF_NOSTR_BRIDGE_VERSION_TAG]; [str "community"; hex_bytes room_id];
     [str "alt"; HYF_NOSTR_BRIDGE_ALT_TAG]] (hex_bytes raw).

Lemma bridge_unsigned_ok raw pubkey room_id created_at :
  bytes_ok raw -> array_ok 32 pubkey -> bytes_ok room_id -> u64_ok created_at ->
  unsigned_ok (bridge_unsigned raw pubkey room_id created_at).
Proof.
  intros Hr Hp Hro Hc. constructor; cbn [bridge_unsigned ue_pubkey ue_created_at ue_kind ue_tags ue_content];
    [done|done|unfold u16_ok, HYF_NOSTR_BRIDGE_EVENT_KIND; lia| |by apply hex_str_ok].
  unfold HYF_NOSTR_BRIDGE_HYF_TAG, HYF_NOSTR_BRIDGE_VERSION_TAG, HYF_NOSTR_BRIDGE_ALT_TAG.
  repeat (apply list.Forall_cons; split); try apply list.Forall_nil; try done;
    first [by apply hex_str_ok | by apply literal_str; vm_compute].
Qed.

Definition event_scratch_ok (s : NostrBridgeEventScratch) : Prop :=
  len (es_content s) = HYF_BRIDGE_MESSAGE_MAX_LEN * 2 /\ len (es_community_hex s) = 32.

Lemma message_bytes_ok m : message_ok m -> message_valid m -> bytes_ok (message_bytes m).
Proof.
  intros [? [_ Hr] [_ Hi] Ha ? Hp] Hv. pose proof (author_len_bound _ _ (mv_author m Hv)). unfold message_bytes.
  repeat (apply bytes_ok_app; split); try done; try apply to_be_bytes_ok;
    repeat (apply bytes_ok_cons; split); try apply bytes_ok_nil; try done; unfold u8_ok; [|lia|by destruct (bm_payload_kind m); simpl; lia].
  destruct (author_kind (bm_author m)) as [|n]; unfold author_tags; repeat (apply bytes_ok_cons; split);
    try apply bytes_ok_nil; unfold u8_ok, AUTHOR_KIND_HYF_NODE, HYF_AUTHOR_NETWORK_TAG, AUTHOR_KIND_FOREIGN; try lia; destruct n; simpl; lia.
Qed.

Lemma io_map_err_eq {S E E' A} (f : E -> E') (m : io S E A) s : io_map_err f m s = (map_err f (fst (m s)), snd (m s)).
Proof. unfold io_map_err. by destruct (m s). Qed.

Lemma bridge_event_spec {T} m secret created_at (f : NostrEvent -> T) s :
  message_ok m -> message_valid m -> event_scratch_ok s ->
  exists s', event_scratch_ok s' /\
  bridge_message_to_nostr_event (message_bytes m) secret created_at f s =
    (match SigningKey_from_slice secret with
     | None => Err (NostrFailed Crypto)
     | Some sk => nostr (ev ← sign_event (bridge_unsigned (message_bytes m) (VerifyingKey_to_bytes (verifying_key sk)) (bm_room_id m) created_at) secret; Ok (f ev))
     end, s').
Proof.
  intros Hok Hval [Hc Hh]. pose proof (message_bytes_ok m Hok Hval) as Hb. pose proof (valid_len m Hok Hval) as Hl.
  destruct (mo_room_id m Hok) as [Hrl Hrb]. pose proof (len_nonneg (message_bytes m)).
  unfold bridge_message_to_nostr_event, validate_bridge_message. rewrite decode_message_bytes by done. cbn [map_err]. rewrite lift_bind_ok.
  unfold HYF_BRIDGE_MESSAGE_MAX_LEN in Hc.
  erewrite io_bind_ok.
  2: { apply focus_eq. unfold encode_bridge_nostr_content, validate_bridge_message. rewrite decode_message_bytes by done. cbn [map_err].
       rewrite lift_bind_ok, io_map_err_eq, encode_lower_hex_spec by (unfold usize_MAX; lia || done).
       destruct (Z.ltb_spec (len (es_content s)) (len (message_bytes m) * 2)); [lia|]. reflexivity. }
  erewrite io_bind_ok.
  2: { apply focus_eq. cbn [es_community_hex]. rewrite io_map_err_eq, encode_lower_hex_spec by (unfold usize_MAX; lia || done).
       destruct (Z.ltb_spec (len (es_community_hex s)) (len (bm_room_id m) * 2)); [lia|]. reflexivity. }
  rewrite !NostrTagRef_new_cons, derive_spec. cbn [nostr map_err]. rewrite !lift_bind_ok. eexists. split.
  2: { destruct (SigningKey_from_slice secret) as [sk|]; [|reflexivity]. cbn [nostr map_err]. rewrite lift_bind_ok.
       unfold NostrUnsignedEvent_new, validate_content_len. cbv zeta. rewrite hex_bytes_len, Z.gtb_ltb.
       destruct (Z.ltb_spec HYF_NOSTR_MAX_CONTENT_CHARS (len (message_bytes m) * 2)) as [Hx|_];
         [unfold HYF_NOSTR_MAX_CONTENT_CHARS, HYF_NOSTR_MAX_ENVELOPE_BYTES in Hx; lia|].
       cbn [mbind outcome_bind nostr map_err]. rewrite lift_bind_ok.
       fold (bridge_unsigned (message_bytes m) (VerifyingKey_to_bytes (verifying_key sk)) (bm_room_id m) created_at).
       unfold lift, mbind, io_bind. cbn [outcome_bind mret io_ret]. by destruct (sign_event _ secret). }
  unfold event_scratch_ok, HYF_BRIDGE_MESSAGE_MAX_LEN. cbn [es_content es_community_hex snd].
  rewrite !len_app, !hex_bytes_len, !len_drop. lia.
Qed.

(** What signing an event for a message can give. *)
Lemma sign_bridge_event m secret sk created_at :
  message_ok m -> message_valid m -> u64_ok created_at -> SigningKey_from_slice secret = Some sk ->
  let e := bridge_unsigned (message_bytes m) (VerifyingKey_to_bytes (verifying_key sk)) (bm_room_id m) created_at in
  sign_event e secret = Err Crypto \/
  exists ev, sign_event e secret = Ok ev /\ unsigned ev = e /\ verify_event ev = Ok tt /\ event_ok ev.
Proof.
  intros Hok Hval Hc Hsk e. pose proof (message_bytes_ok m Hok Hval) as Hb. pose proof (valid_len m Hok Hval) as Hl.
  assert (unsigned_ok e) as He by (apply bridge_unsigned_ok; [done|apply verifying_key_len|apply (mo_room_id m Hok)|done]).
  pose proof (sign_event_spec e secret He) as Hs. destruct (sign_event e secret) as [ev|err|] eqn:Hev; [right|left|done].
  - destruct (sign_then_verify e secret ev He Hev) as [Hu Hv]. exists ev. split_and!; [done..|].
    destruct Hs as (? & s & _ & _ & _ & _ & ->). split; [apply sha256_len|by rewrite Hu|apply signature_len].
  - destruct Hs as [[-> _]|(sk' & E & Hx)]; [done|]. rewrite Hsk in E. injection E as <-.
    destruct Hx as [[_ Hx]|[[-> _]|[_ Hx]]]; [by destruct Hx|done|].
    subst e. cbn [bridge_unsigned ue_content] in Hx. rewrite hex_bytes_len in Hx.
    unfold HYF_NOSTR_MAX_CONTENT_CHARS, HYF_NOSTR_MAX_ENVELOPE_BYTES in Hx. lia.
Qed.

(** *** What enters the bridge *)
Definition is_community_tag (t : NostrTagRef) : Prop := exists v, t = [str "community"; v].

(** The events with [m] in them: signed, of the bridge's kind, with its tags and
    the first community tag naming the room. *)
Record event_carries (ev : NostrEvent) (m : BridgeMessageRef) : Prop := {
  cm_ok : message_ok m;
  cm_valid : message_valid m;
  cm_verified : verify_event ev = Ok tt;
  cm_kind : ne_kind ev = HYF_NOSTR_BRIDGE_EVENT_KIND;
  cm_hyf : [HYF_NOSTR_BRIDGE_HYF_TAG; str "bridge"; HYF_NOSTR_BRIDGE_VERSION_TAG] ∈ ne_tags ev;
  cm_alt : [str "alt"; HYF_NOSTR_BRIDGE_ALT_TAG] ∈ ne_tags ev;
  cm_community : exists pre post, ne_tags ev = pre ++ [str "community"; hex_bytes (bm_room_id m)] :: post /\
    Forall (fun t => ~ is_community_tag t) pre;
  cm_content : ne_content ev = hex_bytes (message_bytes m);
}.

(** ... by the author that [m] claims, where it claims a Nostr author. *)
Definition author_agrees (pubkey : NostrPublicKey) (m : BridgeMessageRef) : Prop :=
  author_kind (bm_author m) = BridgeForeign Nostr -> author_id (bm_author m) = pubkey.
Definition carries_message (ev : NostrEvent) (m : BridgeMessageRef) : Prop :=
  event_carries ev m /\ author_agrees (ne_pubkey ev) m.

Lemma require_static_tag_ok tags expected missing :
  require_static_tag tags expected missing = Ok tt <-> expected ∈ tags.
Proof.
  unfold require_static_tag. assert (existsb (fun tag => bool_decide (tag = expected)) tags = true <-> expected ∈ tags) as <-.
  { rewrite existsb_exists. split.
    - intros (t & Ht & Hb). apply bool_decide_eq_true in Hb as ->. by apply list_elem_of_In.
    - intros Ht. exists expected. split; [by apply list_elem_of_In|]. by apply bool_decide_eq_true. }
  by destruct (existsb (fun tag => bool_decide (tag = expected)) tags).
Qed.

Lemma require_static_tag_or tags expected missing :
  require_static_tag tags expected missing = Ok tt \/ require_static_tag tags expected missing = Err (NostrTagMissing missing).
Proof. unfold require_static_tag. case_match; auto. Qed.

Lemma require_community_skip t tags : ~ is_community_tag t -> require_community_tag (t :: tags) = require_community_tag tags.
Proof.
  intros H. cbn [require_community_tag]. destruct (Z.eqb_spec (len t) 2) as [E|]; [|done]. cbn [negb].
  unfold len in E. destruct t as [|a [|b [|]]]; simpl in E; try lia. rewrite index_0. cbn [mbind outcome_bind].
  case_bool_decide as Ha; [|done]. destruct H. exists b. by rewrite Ha.
Qed.

Lemma require_community_found v tags :
  require_community_tag ([str "community"; v] :: tags) = nostr (decode_fixed_lower_hex 16 v).
Proof.
  cbn [require_community_tag]. change (len [str "community"; v]) with 2. cbn [Z.eqb Pos.eqb negb]. rewrite index_0, index_1.
  cbn [mbind outcome_bind]. by rewrite bool_decide_eq_true_2.
Qed.

Lemma require_community_ok tags c :
  array_ok 16 c ->
  (exists pre post, tags = pre ++ [str "community"; hex_bytes c] :: post /\ Forall (fun t => ~ is_community_tag t) pre) ->
  require_community_tag tags = Ok c.
Proof.
  intros Hc (pre & post & -> & Hpre). induction Hpre as [|t pre Ht Hpre IH]; cbn [app].
  - rewrite require_community_found. unfold nostr. by rewrite decode_fixed_hex_ok.
  - by rewrite require_community_skip.
Qed.

Lemma is_community_dec t : is_community_tag t \/ ~ is_community_tag t.
Proof.
  destruct t as [|a [|b [|]]]; try (right; by intros [v [=]]).
  destruct (decide (a = str "community")) as [->|]; [left; by exists b|right; by intros [v [=]]].
Qed.

Lemma require_community_inv tags c :
  require_community_tag tags = Ok c -> array_ok 16 c /\
  exists pre post, tags = pre ++ [str "community"; hex_bytes c] :: post /\ Forall (fun t => ~ is_community_tag t) pre.
Proof.
  induction tags as [|t tags IH]; [done|]. destruct (is_community_dec t) as [[v ->]|Ht].
  - rewrite require_community_found. intros H%map_err_inv. apply decode_fixed_hex_inv in H as [Hc ->]; [|lia].
    split; [done|]. exists [], tags. split; [done|by apply list.Forall_nil].
  - rewrite require_community_skip by done. intros H. destruct (IH H) as (Hc & pre & post & -> & Hpre).
    split; [done|]. exists (t :: pre), post. split; [done|by apply list.Forall_cons].
Qed.

Lemma author_rule_ok pk m : validate_nostr_author_rule pk m = Ok tt <-> author_agrees pk m.
Proof.
  unfold author_agrees, validate_nostr_author_rule. rewrite guard_err_ok, andb_false_iff, negb_false_iff, bool_decide_eq_true, bool_decide_eq_false.
  destruct (decide (author_kind (bm_author m) = BridgeForeign Nostr)); tauto.
Qed.

Lemma decode_content_ok m out :
  message_ok m -> message_valid m -> len (message_bytes m) <= len out ->
  decode_bridge_nostr_content (hex_bytes (message_bytes m)) out =
    (Ok (message_bytes m), message_bytes m ++ drop (length (message_bytes m)) out).
Proof.
  intros Hok Hval Ho. unfold decode_bridge_nostr_content. pose proof (message_bytes_ok m Hok Hval).
  erewrite io_bind_ok.
  2: { rewrite io_map_err_eq, decode_lower_hex_bytes by done. destruct (Z.ltb_spec (len out) (len (message_bytes m))); [lia|]. reflexivity. }
  cbn [snd]. rewrite get_bind, slice_app_first by done. rewrite lift_bind_ok. unfold validate_bridge_message.
  rewrite decode_message_bytes by done. cbn [map_err]. by rewrite lift_bind_ok.
Qed.

Lemma decode_content_inv content out raw out' :
  decode_bridge_nostr_content content out = (Ok raw, out') ->
  exists m, message_ok m /\ message_valid m /\ raw = message_bytes m /\ content = hex_bytes raw /\ len raw <= len out /\
    out' = raw ++ drop (length raw) out.
Proof.
  unfold decode_bridge_nostr_content. intros H. apply io_bind_inv in H as (n & o1 & H1 & H). rewrite io_map_err_eq in H1.
  pose proof (hex_decode_spec content out) as Hx. destruct (decode_lower_hex content out) as [[k|e|] o] eqn:E; [|done..].
  cbn [fst snd map_err] in H1. injection H1 as <- <-. destruct Hx as (l & Hb & -> & -> & ->).
  rewrite decode_lower_hex_bytes in E by done. destruct (Z.ltb_spec (len out) (len l)) as [|Ho]; [done|].
  rewrite get_bind, slice_app_first, lift_bind_ok in H by done. unfold validate_bridge_message in H.
  destruct (decode_bridge_message l) as [m|e|] eqn:Em; cbn [map_err] in H; [|by unfold lift, mbind, io_bind in H..].
  rewrite lift_bind_ok in H. unfold mret, io_ret in H. injection H as <- <-. apply decode_message_inv in Em as (? & ? & ->); [|done].
  by exists m.
Qed.

Lemma ingress_run ev m out :
  event_carries ev m -> len (message_bytes m) <= len out ->
  nostr_event_to_bridge_message ev out =
    (_ ← validate_nostr_author_rule (ne_pubkey ev) m;
     Ok (mk_nostr_ingress (message_bytes m) m (mk_ingress_meta PNostr TransportSigned)),
     message_bytes m ++ drop (length (message_bytes m)) out).
Proof.
  intros [Hok Hval Hv Hk Hh Ha Hc Hcon] Ho. unfold nostr_event_to_bridge_message. rewrite Hv, Hk, Hcon. cbn [nostr map_err].
  rewrite lift_bind_ok, Z.eqb_refl. cbn [negb]. rewrite guard_false by done.
  rewrite (proj2 (require_static_tag_ok _ _ _) Hh), lift_bind_ok. rewrite (proj2 (require_static_tag_ok _ _ _) Ha), lift_bind_ok.
  rewrite (require_community_ok _ _ (mo_room_id m Hok) Hc), lift_bind_ok.
  erewrite io_bind_ok by (by apply decode_content_ok). rewrite decode_message_bytes by done. cbn [map_err]. rewrite lift_bind_ok.
  rewrite bool_decide_eq_true_2 by done. cbn [negb]. rewrite guard_false by done. unfold lift, mbind, io_bind.
  by destruct (validate_nostr_author_rule _ m).
Qed.

Lemma ingress_inv ev out i out' :
  nostr_event_to_bridge_message ev out = (Ok i, out') ->
  exists m, carries_message ev m /\ len (message_bytes m) <= len out /\
    i = mk_nostr_ingress (message_bytes m) m (mk_ingress_meta PNostr TransportSigned) /\
    out' = message_bytes m ++ drop (length (message_bytes m)) out.
Proof.
  unfold nostr_event_to_bridge_message. intros H. apply lift_inv in H as ([] & Hv%map_err_inv & H).
  apply guard_inv in H as [Hk%negb_false_iff%Z.eqb_eq H]. apply lift_inv in H as ([] & Hh%require_static_tag_ok & H).
  apply lift_inv in H as ([] & Ha%require_static_tag_ok & H). apply lift_inv in H as (c & [Hca Hc]%require_community_inv & H).
  apply io_bind_inv in H as (raw & o1 & Hd & H). apply decode_content_inv in Hd as (m & Hok & Hval & -> & Hcon & Hl & ->).
  rewrite decode_message_bytes in H by done. cbn [map_err] in H. rewrite lift_bind_ok in H.
  apply guard_inv in H as [Hroom H]. apply lift_inv in H as ([] & Hau & H). unfold mret, io_ret in H. injection H as <- <-.
  pose proof (proj1 (author_rule_ok _ _) Hau).
  apply negb_false_iff, bool_decide_eq_true in Hroom as ->. exists m. split_and!; [|done..]. split; [by split|done].
Qed.

Lemma verify_event_safe ev : unsigned_ok (unsigned ev) -> verify_event ev <> Panic.
Proof. intros He. rewrite verify_event_spec by done. by repeat case_match. Qed.

Lemma ingress_safe ev out : unsigned_ok (unsigned ev) -> fst (nostr_event_to_bridge_message ev out) <> Panic.
Proof.
  intros He. unfold nostr_event_to_bridge_message. pose proof (verify_event_safe ev He) as Hv.
  destruct (verify_event ev) as [[]|e|]; [|done..]. cbn [nostr map_err]. rewrite lift_bind_ok.
  destruct (negb (ne_kind ev =? HYF_NOSTR_BRIDGE_EVENT_KIND)); [done|]. rewrite guard_false by done.
  destruct (require_static_tag_or (ne_tags ev) [HYF_NOSTR_BRIDGE_HYF_TAG; str "bridge"; HYF_NOSTR_BRIDGE_VERSION_TAG] "hyf") as [-> | ->];
    [rewrite lift_bind_ok|done].
  destruct (require_static_tag_or (ne_tags ev) [str "alt"; HYF_NOSTR_BRIDGE_ALT_TAG] "alt") as [-> | ->]; [rewrite lift_bind_ok|done].
  assert (require_community_tag (ne_tags ev) <> Panic) as Hc.
  { induction (ne_tags ev) as [|t tags IH]; [done|]. destruct (is_community_dec t) as [[v ->]|Ht].
    - rewrite require_community_found. apply map_err_safe. unfold decode_fixed_lower_hex. apply outcome_bind_safe; [apply guard_err_safe|intros _ _].
      pose proof (hex_decode_spec v (zeros 16)) as H. by destruct (decode_lower_hex v (zeros 16)) as [[?|?|] ?].
    - by rewrite require_community_skip. }
  destruct (require_community_tag (ne_tags ev)) as [c|e|]; [rewrite lift_bind_ok|done..].
  unfold mbind at 1, io_bind at 1. destruct (decode_bridge_nostr_content (ne_content ev) out) as [[raw|e|] o] eqn:Hd; [|done|].
  - apply decode_content_inv in Hd as (m & Hok & Hval & -> & _). rewrite decode_message_bytes by done. cbn [map_err]. rewrite lift_bind_ok.
    destruct (negb _); [done|]. rewrite guard_false by done. unfold validate_nostr_author_rule. by destruct (_ && _).
  - exfalso. unfold decode_bridge_nostr_content, mbind, io_bind in Hd. rewrite io_map_err_eq in Hd.
    pose proof (hex_decode_spec (ne_content ev) out) as H.
    destruct (decode_lower_hex (ne_content ev) out) as [[n|e|] o'] eqn:Ex; [|done..]. cbn [fst snd map_err] in Hd.
    destruct H as (l & Hb & _ & -> & ->). unfold get in Hd. rewrite slice_app_first in Hd by done. unfold lift in Hd.
    pose proof (decode_message_safe l Hb) as Hs. unfold validate_bridge_message in Hd. by destruct (decode_bridge_message l).
Qed.

Lemma signed_carries ev m pubkey created_at :
  message_ok m -> message_valid m -> verify_event ev = Ok tt ->
  unsigned ev = bridge_unsigned (message_bytes m) pubkey (bm_room_id m) created_at -> event_carries ev m.
Proof.
  intros Hok Hval Hv Hu. destruct ev as [i pk c k t s sg]. unfold unsigned, bridge_unsigned in Hu.
  cbn [ne_pubkey ne_created_at ne_kind ne_tags ne_content] in Hu. injection Hu as -> -> -> -> ->.
  split; cbn [ne_pubkey ne_created_at ne_kind ne_tags ne_content]; try done.
  - by left.
  - right. right. by left.
  - exists [[HYF_NOSTR_BRIDGE_HYF_TAG; str "bridge"; HYF_NOSTR_BRIDGE_VERSION_TAG]], [[str "alt"; HYF_NOSTR_BRIDGE_ALT_TAG]].
    split; [done|]. apply list.Forall_cons. split; [by intros [v [=]]|by apply list.Forall_nil].
Qed.

(** C23. Which events enter the bridge, exactly: an event is accepted into a
    buffer iff it verifies, is of the bridge's kind, has its two fixed tags, its
    first community tag is the room of a valid message, its content is that
    message's lower-case hexadecimal, it fits the buffer, and a message that
    claims a Nostr author names the event's own key; the result is that message
    and the buffer holds its bytes. *)
Theorem nostr_ingress_exact ev out i out' :
  nostr_event_to_bridge_message ev out = (Ok i, out') <->
  exists m, carries_message ev m /\ len (message_bytes m) <= len out /\
    i = mk_nostr_ingress (message_bytes m) m (mk_ingress_meta PNostr TransportSigned) /\
    out' = message_bytes m ++ drop (length (message_bytes m)) out.
Proof.
  split; [apply ingress_inv|]. intros (m & [Hm Hau%author_rule_ok] & Hl & -> & ->).
  rewrite (ingress_run ev m) by done. by rewrite Hau.
Qed.

(** A bridge message survives the trip through Nostr: every valid message
    becomes a verifying event unless the secret is not a key or the scheme
    refuses to sign, and the receiving bridge gets the message back; only a
    message that claims a Nostr author other than the signer is sent without
    complaint and refused at the other end. *)
Theorem nostr_bridge_roundtrip {T} m secret created_at (f : NostrEvent -> T) s :
  message_ok m -> message_valid m -> u64_ok created_at -> event_scratch_ok s ->
  match fst (bridge_message_to_nostr_event (message_bytes m) secret created_at f s) with
  | Ok r => exists ev, r = f ev /\ verify_event ev = Ok tt /\ ne_created_at ev = created_at /\
      forall out, len (message_bytes m) <= len out ->
        (author_agrees (ne_pubkey ev) m ->
         fst (nostr_event_to_bridge_message ev out) = Ok (mk_nostr_ingress (message_bytes m) m (mk_ingress_meta PNostr TransportSigned))) /\
        (~ author_agrees (ne_pubkey ev) m -> fst (nostr_event_to_bridge_message ev out) = Err NostrAuthorPubkeyMismatch)
  | Err e => e = NostrFailed Crypto
  | Panic => False
  end.
Proof.
  intros Hok Hval Hc Hs. destruct (bridge_event_spec m secret created_at f s Hok Hval Hs) as (s' & _ & ->). cbn [fst].
  destruct (SigningKey_from_slice secret) as [sk|] eqn:Hsk; [|done].
  destruct (sign_bridge_event m secret sk created_at Hok Hval Hc Hsk) as [->|(ev & -> & Hu & Hv & _)]; [done|].
  cbn [mbind outcome_bind nostr map_err]. exists ev. split; [done|]. split; [done|]. split; [by injection Hu|]. intros out Ho.
  rewrite (ingress_run ev m) by (done || by eapply signed_carries). cbn [fst].
  split; [by intros ->%author_rule_ok|]. intros Hn. rewrite <- author_rule_ok in Hn. unfold validate_nostr_author_rule in *.
  by destruct (_ && _).
Qed.

(** *** The size of the JSON *)
Lemma bridge_event_json_len ev raw pubkey room_id created_at :
  event_ok ev -> unsigned ev = bridge_unsigned raw pubkey room_id created_at -> bytes_ok raw -> array_ok 16 room_id ->
  len (event_json ev) <= 2 * len raw + 512.
Proof.
  intros [[Hi1 Hi2] [[Hp1 Hp2] _ _ _ _] [Hs1 Hs2]] Hu Hr [Hl Hro]. destruct ev as [i pk c k t s sg]. unfold unsigned, bridge_unsigned in Hu.
  cbn [ne_id ne_sig unsigned ue_pubkey ne_pubkey ne_created_at ne_kind ne_tags ne_content] in *. injection Hu as <- <- -> -> ->.
  unfold event_json. cbn [ne_id ne_sig ne_pubkey ne_created_at ne_kind ne_tags ne_content].
  assert (len (json_tags [[HYF_NOSTR_BRIDGE_HYF_TAG; str "bridge"; HYF_NOSTR_BRIDGE_VERSION_TAG]; [str "community"; hex_bytes room_id]; [str "alt"; HYF_NOSTR_BRIDGE_ALT_TAG]]) <= 120) as Ht.
  { unfold json_tags, json_tag, json_array, commas. cbn [map concat]. repeat rewrite ?len_app, ?len_cons. rewrite !len_json_hex by done.
    change (len (json_string HYF_NOSTR_BRIDGE_HYF_TAG)) with 5. change (len (json_string (str "bridge"))) with 8.
    change (len (json_string HYF_NOSTR_BRIDGE_VERSION_TAG)) with 4. change (len (json_string (str "community"))) with 11.
    change (len (json_string (str "alt"))) with 5. change (len (json_string HYF_NOSTR_BRIDGE_ALT_TAG)) with 20.
    change (len (@nil Z)) with 0. lia. }
  rewrite !len_app, !len_json_hex by done. pose proof (len_decimal c). pose proof (len_decimal HYF_NOSTR_BRIDGE_EVENT_KIND).
  change (len (json_key "id")) with 5. change (len (json_key "pubkey")) with 9. change (len (json_key "created_at")) with 13.
  change (len (json_key "kind")) with 7. change (len (json_key "tags")) with 7. change (len (json_key "content")) with 10.
  change (len (json_key "sig")) with 6. change (len [123]) with 1. change (len [44]) with 1. change (len [125]) with 1. lia.
Qed.

(** The JSON of a message's event in a buffer of the declared size. *)
Lemma bridge_json_spec m params s out :
  message_ok m -> message_valid m -> u64_ok (nep_created_at params) -> event_scratch_ok s ->
  HYF_NOSTR_BRIDGE_EVENT_JSON_MAX_LEN <= len out -> len out <= usize_MAX ->
  exists s', event_scratch_ok s' /\
  ((exists ev, event_ok ev /\ event_carries ev m /\ ne_created_at ev = nep_created_at params /\
      len (event_json ev) <= 2 * len (message_bytes m) + 512 /\
      bridge_message_to_nostr_event_json (message_bytes m) params (s, out) =
        (Ok (len (event_json ev)), (s', event_json ev ++ drop (length (event_json ev)) out))) \/
   bridge_message_to_nostr_event_json (message_bytes m) params (s, out) = (Err (NostrFailed Crypto), (s', out))).
Proof.
  intros Hok Hval Hc Hs Hout Hmax. pose proof (valid_len m Hok Hval) as Hl. unfold HYF_NOSTR_BRIDGE_EVENT_JSON_MAX_LEN in *.
  destruct (bridge_event_spec m (nep_author_secret params) (nep_created_at params) write_nostr_event_json s Hok Hval Hs) as (s' & Hs' & He).
  exists s'. split; [done|]. unfold bridge_message_to_nostr_event_json.
  destruct (SigningKey_from_slice (nep_author_secret params)) as [sk|] eqn:Hsk.
  2: { right. by erewrite io_bind_err by (apply (focus_eq fst); exact He). }
  destruct (sign_bridge_event m _ sk _ Hok Hval Hc Hsk) as [E|(ev & E & Hu & Hv & Hev)]; rewrite E in He.
  { right. by erewrite io_bind_err by (apply (focus_eq fst); exact He). }
  left. exists ev. split; [done|]. split; [by eapply signed_carries|]. split; [by injection Hu|].
  assert (len (event_json ev) <= 2 * len (message_bytes m) + 512) as Hj.
  { eapply bridge_event_json_len; [done|exact Hu|by apply message_bytes_ok|apply (mo_room_id m Hok)]. }
  split; [done|]. erewrite io_bind_ok by (apply (focus_eq fst); exact He).
  pose proof (write_nostr_event_json_spec ev out Hev Hmax) as Hw. destruct (Z.leb_spec (len (event_json ev)) (len out)); [|lia].
  unfold focus. cbn [snd fst]. by rewrite Hw.
Qed.

(** The event's JSON always fits the space reserved for it: with an output
    of at least 6144 bytes the writer never runs out, whatever the valid
    message; it leaves the JSON of a verifying event that carries the message at
    the front of the output, at most 2750 bytes of it, and the only error left is
    the signature scheme's. *)
Theorem nostr_json_fits m params s out :
  message_ok m -> message_valid m -> u64_ok (nep_created_at params) -> event_scratch_ok s ->
  HYF_NOSTR_BRIDGE_EVENT_JSON_MAX_LEN <= len out <= usize_MAX ->
  match bridge_message_to_nostr_event_json (message_bytes m) params (s, out) with
  | (Ok n, (_, out')) => exists ev, event_carries ev m /\ n = len (event_json ev) /\ n <= 2750 /\
      out' = event_json ev ++ drop (length (event_json ev)) out
  | (Err e, (_, out')) => e = NostrFailed Crypto /\ out' = out
  | (Panic, _) => False
  end.
Proof.
  intros Hok Hval Hc Hs [Hout Hmax]. pose proof (valid_len m Hok Hval).
  destruct (bridge_json_spec m params s out Hok Hval Hc Hs Hout Hmax) as (s' & _ & [(ev & _ & Hcar & _ & Hl & ->)| ->]); [|done].
  exists ev. split_and!; [done..|lia|done].
Qed.
End event_lemmas.

(** ** Witnesses *)
Lemma nostr_bridge_roundtrip_witness :
  exists ev, fst (bridge_message_to_nostr_event (message_bytes sample_message) sample_secret 5 id NostrBridgeEventScratch_new) = Ok ev /\
    fst (nostr_event_to_bridge_message ev (zeros 200)) =
      Ok (mk_nostr_ingress (message_bytes sample_message) sample_message (mk_ingress_meta PNostr TransportSigned)).
Proof.
  assert (event_scratch_ok NostrBridgeEventScratch_new) as Hs by (split; vm_compute; reflexivity).
  assert (u64_ok 5) as Hc by (unfold u64_ok; lia).
  pose proof (nostr_bridge_roundtrip sample_message sample_secret 5 id NostrBridgeEventScratch_new sample_message_ok sample_message_valid Hc Hs) as H.
  remember (bridge_message_to_nostr_event (message_bytes sample_message) sample_secret 5 id NostrBridgeEventScratch_new) as r eqn:Er.
  assert (is_ok (fst r) = true) as Hr by (rewrite Er; vm_compute; reflexivity).
  destruct (fst r) as [r'|e|]; [|discriminate Hr|discriminate Hr].
  destruct H as (ev & -> & _ & _ & H). exists ev. split; [reflexivity|].
  apply H; [vm_compute; discriminate|]. unfold author_agrees. vm_compute. discriminate.
Defined.

Lemma nostr_json_fits_witness :
  exists n out', fst (bridge_message_to_nostr_event_json (message_bytes sample_message) (mk_nostr_egress sample_secret 5)
      (NostrBridgeEventScratch_new, out')) = Ok n /\ n <= 2750.
Proof.
  assert (event_scratch_ok NostrBridgeEventScratch_new) as Hs by (split; vm_compute; reflexivity).
  assert (u64_ok (nep_created_at (mk_nostr_egress sample_secret 5))) as Hc by (unfold u64_ok; cbn [nep_created_at]; lia).
  assert (HYF_NOSTR_BRIDGE_EVENT_JSON_MAX_LEN <= len (zeros 6144) <= usize_MAX) as Ho by (vm_compute; split; discriminate).
  pose proof (nostr_json_fits sample_message (mk_nostr_egress sample_secret 5) NostrBridgeEventScratch_new (zeros 6144)
    sample_message_ok sample_message_valid Hc Hs Ho) as H.
  remember (bridge_message_to_nostr_event_json (message_bytes sample_message) (mk_nostr_egress sample_secret 5)
    (NostrBridgeEventScratch_new, zeros 6144)) as r eqn:Er.
  assert (is_ok (fst r) = true) as Hr by (rewrite Er; vm_compute; reflexivity).
  destruct r as [[n|e|] [s' out']]; [|discriminate Hr|discriminate Hr].
  destruct H as (ev & _ & _ & H & _). exists n, (zeros 6144). rewrite <- Er. split; [reflexivity|exact H].
Defined.
