(* ===== verification/DomainHash.v ===== *)
(** [hyf_crypto]: hashes with a domain (src/crates/hyf_crypto/src/lib.rs).

    The hash is a parameter; the claim is that what is hashed determines the
    domain and the payload. *)
From S2P Require Import Prelude Utf8.
From stdpp Require Import strings.

Open Scope Z_scope.

(** SHA-256 *)
Class DomainDigest := domain_sha256 : list Z -> list Z.

(** The bytes of a domain. *)
Definition Domain : Type := list Z.
Definition HYF_MESSAGE_ID_V1 : Domain := str "hyf.message_id.v1".
Definition HYF_NODE_ANNOUNCE_V1 : Domain := str "hyf.node_announce.v1".

(** What the hasher is given, in three updates. *)
Definition domain_input (domain : Domain) (payload : list Z) : list Z := to_be_bytes 8 (len domain) ++ domain ++ payload.
Definition domain_hash `{DomainDigest} (domain : Domain) (payload : list Z) : list Z := domain_sha256 (domain_input domain payload).

Lemma domain_input_inj domain payload domain' payload' :
  len domain < 2 ^ 64 -> len domain' < 2 ^ 64 -> domain_input domain payload = domain_input domain' payload' -> domain = domain' /\ payload = payload'.
Proof.
  intros Hd Hd' H. pose proof (len_nonneg domain). pose proof (len_nonneg domain').
  unfold domain_input in H. apply app_inj_1 in H as [Hlen H]; [|by rewrite !length_to_be_bytes].
  apply (f_equal from_be_bytes) in Hlen. rewrite !from_to_be_bytes_mod in Hlen. change (8 * Z.of_nat 8) with 64 in Hlen. rewrite !Z.mod_small in Hlen by lia.
  apply app_inj_1 in H; [done|]. unfold len in Hlen. lia.
Qed.

(** Domains are separated: equal hashes of two payloads mean the same domain and
    the same payload, unless the hash collides. *)
Theorem domain_hash_separates `{DomainDigest} domain payload domain' payload' :
  len domain < 2 ^ 64 -> len domain' < 2 ^ 64 -> domain_hash domain payload = domain_hash domain' payload' ->
  (domain = domain' /\ payload = payload') \/
  (exists m m', m <> m' /\ domain_sha256 m = domain_sha256 m').
Proof.
  intros Hd Hd' Heqh. destruct (decide (domain_input domain payload = domain_input domain' payload')) as [Heq|Hne].
  - left. by apply domain_input_inj.
  - right. exists (domain_input domain payload), (domain_input domain' payload'). by split.
Qed.

(** A toy hash, the identity, under which nothing collides. *)
Lemma domain_hash_separates_witness :
  domain_hash (H:=fun m => m) HYF_MESSAGE_ID_V1 [1] <> domain_hash (H:=fun m => m) HYF_NODE_ANNOUNCE_V1 [1].
Proof.
  intros H. destruct (domain_hash_separates (H:=fun m => m) HYF_MESSAGE_ID_V1 [1] HYF_NODE_ANNOUNCE_V1 [1]) as [[Hd _]|(m & m' & Hne & Heq)].
  - vm_compute. reflexivity.
  - vm_compute. reflexivity.
  - exact H.
  - vm_compute in Hd. discriminate.
  - exact (Hne Heq).
Defined.
