(* ===== verification/Fips.v ===== *)
(** [hyf_link_fips]: endpoints, datagrams and the in-memory sidecar
    (src/crates/hyf_link_fips/src/identity.rs, datagram.rs, fake_sidecar.rs,
    error.rs).

    An endpoint is a public key with the addresses derived from it; the hash is a
    parameter.  The sidecar keeps its peers and two queues of datagrams in arrays;
    [sidecar_is] relates it to a set of peers and two lists, and every operation is
    shown to be the operation on those. *)
From S2P Require Import Prelude Cursor Queue Simulation.

Open Scope Z_scope.

Inductive FipsError :=
| FipsLinkDown
| UnknownPeer
| DuplicatePeer
| PeerTableFull (capacity : Z)
| InvalidEndpoint
| FipsFrameTooLarge (len mtu : Z)
| OutboundFull (capacity : Z)
| InboundFull (capacity : Z)
| FipsOutputTooSmall (needed available : Z)
| ControlResponseTooLarge (len maximum : Z)
| MalformedControlStatus
| FipsUtf8.
#[export] Instance FipsError_eq_dec : EqDecision FipsError. Proof. solve_decision. Defined.

(** ** Endpoints *)
Record FipsEndpoint := mk_endpoint { fe_public_key : list Z; fe_node_addr : list Z; fe_ipv6_addr : list Z }.
#[export] Instance FipsEndpoint_eq_dec : EqDecision FipsEndpoint. Proof. solve_decision. Defined.

(** SHA-256 *)
Class FipsHash := fips_sha256 : list Z -> list Z.
Class FipsHashLaws (FH : FipsHash) : Prop := fips_sha256_len : forall l, array_ok 32 (fips_sha256 l).

Section endpoints.
Context {FH : FipsHash}.

Definition derive_fips_node_addr {E} (public_key : list Z) : outcome E (list Z) :=
  head ← slice (fips_sha256 public_key) 0 16;
  write_at (zeros 16) 0 head.

Definition derive_fips_ipv6_addr {E} (node_addr : list Z) : outcome E (list Z) :=
  ipv6_addr ← set_at (zeros 16) 0 0xfd;
  head ← slice node_addr 0 15;
  write_at ipv6_addr 1 head.

Definition derive_fips_endpoint {E} (public_key : list Z) : outcome E FipsEndpoint :=
  node_addr ← derive_fips_node_addr public_key;
  ipv6_addr ← derive_fips_ipv6_addr node_addr;
  Ok (mk_endpoint public_key node_addr ipv6_addr).

Definition from_public_key {E} (public_key : list Z) : outcome E FipsEndpoint := derive_fips_endpoint public_key.

Definition FipsEndpoint_validate (e : FipsEndpoint) : outcome FipsError unit :=
  expected_node_addr ← derive_fips_node_addr (fe_public_key e);
  expected_ipv6_addr ← derive_fips_ipv6_addr expected_node_addr;
  if bool_decide (fe_node_addr e = expected_node_addr) && bool_decide (fe_ipv6_addr e = expected_ipv6_addr) then Ok tt
  else Err InvalidEndpoint.

Definition from_parts (public_key node_addr ipv6_addr : list Z) : outcome FipsError FipsEndpoint :=
  let endpoint := mk_endpoint public_key node_addr ipv6_addr in
  _ ← FipsEndpoint_validate endpoint;
  Ok endpoint.
End endpoints.

(** ** Datagrams *)
Record FipsDatagramRecord := mk_datagram { dr_source : FipsEndpoint; dr_destination : FipsEndpoint; dr_len : Z; dr_bytes : list Z }.
Record FipsDatagramRef := mk_datagram_ref { dg_source : FipsEndpoint; dg_destination : FipsEndpoint; dg_bytes : list Z }.
#[export] Instance FipsDatagramRef_eq_dec : EqDecision FipsDatagramRef. Proof. solve_decision. Defined.

Definition FipsDatagramRecord_new {FH : FipsHash} (FRAME_MAX : Z) (source destination : FipsEndpoint) (bytes : list Z)
  : outcome FipsError FipsDatagramRecord :=
  _ ← FipsEndpoint_validate source;
  _ ← FipsEndpoint_validate destination;
  _ ← guard_err (len bytes >? FRAME_MAX) (FipsFrameTooLarge (len bytes) FRAME_MAX);
  stored ← write_at (zeros FRAME_MAX) 0 bytes;
  Ok (mk_datagram source destination (len bytes) stored).

Definition record_bytes {E} (r : FipsDatagramRecord) : outcome E (list Z) := slice (dr_bytes r) 0 (dr_len r).

Definition datagram_as_ref {E} (r : FipsDatagramRecord) : outcome E FipsDatagramRef :=
  bytes ← record_bytes r;
  Ok (mk_datagram_ref (dr_source r) (dr_destination r) bytes).

(** ** The sidecar *)
Record FakeFipsSidecar := mk_sidecar {
  fs_local_endpoint : FipsEndpoint;
  fs_peers : list (option FipsEndpoint);
  fs_outbound : list (option FipsDatagramRecord);
  fs_inbound : list (option FipsDatagramRecord);
  fs_up : bool;
  fs_mtu : Z;
  fs_outbound_len : Z;
  fs_inbound_len : Z;
}.

Definition with_peers (l : list (option FipsEndpoint)) (s : FakeFipsSidecar) : FakeFipsSidecar :=
  mk_sidecar (fs_local_endpoint s) l (fs_outbound s) (fs_inbound s) (fs_up s) (fs_mtu s) (fs_outbound_len s) (fs_inbound_len s).
Definition with_outbound (q : list (option FipsDatagramRecord) * Z) (s : FakeFipsSidecar) : FakeFipsSidecar :=
  mk_sidecar (fs_local_endpoint s) (fs_peers s) (fst q) (fs_inbound s) (fs_up s) (fs_mtu s) (snd q) (fs_inbound_len s).
Definition with_inbound (q : list (option FipsDatagramRecord) * Z) (s : FakeFipsSidecar) : FakeFipsSidecar :=
  mk_sidecar (fs_local_endpoint s) (fs_peers s) (fs_outbound s) (fst q) (fs_up s) (fs_mtu s) (fs_outbound_len s) (snd q).

Definition endpoints_overlap (left right : FipsEndpoint) : bool :=
  bool_decide (fe_public_key left = fe_public_key right)
  || bool_decide (fe_node_addr left = fe_node_addr right)
  || bool_decide (fe_ipv6_addr left = fe_ipv6_addr right).

(** [enqueue]: the state is the queue and its length. *)
Definition enqueue (record : FipsDatagramRecord) : io (list (option FipsDatagramRecord) * Z) FipsError unit :=
  s ← get;
  queue ← lift (set_at (fst s) (snd s) (Some record));
  put (queue, snd s + 1).

(** [for index in 1..*len { queue[index - 1] = queue[index] }], with [left_] turns
    to go. *)
Fixpoint shift_loop (index : Z) (left_ : nat) : io (list (option FipsDatagramRecord)) FipsError unit :=
  match left_ with
  | O => mret tt
  | S left_ =>
      queue ← get;
      x ← lift (Prelude.index queue index);
      _ ← poke (index - 1) x;
      shift_loop (index + 1) left_
  end.

Definition shift_queue : io (list (option FipsDatagramRecord) * Z) FipsError unit :=
  s ← get;
  if snd s =? 0 then mret tt
  else
    _ ← focus fst (fun q s => (q, snd s)) (shift_loop 1 (Z.to_nat (snd s - 1)));
    s ← get;
    queue ← lift (set_at (fst s) (snd s - 1) None);
    put (queue, snd s - 1).

(** [poll_queue]: the state is the queue with its length, and [output]. *)
Definition poll_queue : io ((list (option FipsDatagramRecord) * Z) * list Z) FipsError (option FipsDatagramRef) :=
  s ← get;
  if snd (fst s) =? 0 then mret None
  else
    first ← lift (Prelude.index (fst (fst s)) 0);
    match first with
    | None => _ ← put ((fst (fst s), 0), snd s); mret None
    | Some record =>
        _ ← lift (guard_err (len (snd s) <? dr_len record) (FipsOutputTooSmall (dr_len record) (len (snd s))));
        bytes ← lift (record_bytes record);
        output ← lift (write_at (snd s) 0 bytes);
        _ ← put (fst s, output);
        _ ← focus fst (fun q s => (q, snd s)) shift_queue;
        bytes ← lift (slice output 0 (dr_len record));
        mret (Some (mk_datagram_ref (dr_source record) (dr_destination record) bytes))
    end.

Section sidecar.
Context {FH : FipsHash}.
Context (PEERS QUEUE FRAME_MAX : Z).

Definition FakeFipsSidecar_new (local_endpoint : FipsEndpoint) (mtu : Z) : outcome FipsError FakeFipsSidecar :=
  _ ← FipsEndpoint_validate local_endpoint;
  _ ← guard_err (mtu >? FRAME_MAX) (FipsFrameTooLarge mtu FRAME_MAX);
  Ok (mk_sidecar local_endpoint (replicate (Z.to_nat PEERS) None) (replicate (Z.to_nat QUEUE) None) (replicate (Z.to_nat QUEUE) None) true mtu 0 0).

Definition sidecar_set_up (up : bool) (s : FakeFipsSidecar) : FakeFipsSidecar :=
  mk_sidecar (fs_local_endpoint s) (fs_peers s) (fs_outbound s) (fs_inbound s) up (fs_mtu s) (fs_outbound_len s) (fs_inbound_len s).

Definition register_peer (endpoint : FipsEndpoint) : io FakeFipsSidecar FipsError unit :=
  _ ← lift (FipsEndpoint_validate endpoint);
  s ← get;
  _ ← lift (guard_err (endpoints_overlap (fs_local_endpoint s) endpoint
                       || existsb (fun registered => endpoints_overlap registered endpoint) (occupied (fs_peers s))) DuplicatePeer);
  slot ← lift (ok_or (position_none (fs_peers s)) (PeerTableFull PEERS));
  peers ← lift (set_at (fs_peers s) slot (Some endpoint));
  put (with_peers peers s).

Definition peer_count (s : FakeFipsSidecar) : Z := len (occupied (fs_peers s)).

Definition has_peer (s : FakeFipsSidecar) (endpoint : FipsEndpoint) : bool :=
  existsb (fun peer => bool_decide (peer = endpoint)) (occupied (fs_peers s)).

Definition validate_up (s : FakeFipsSidecar) : outcome FipsError unit := if fs_up s then Ok tt else Err FipsLinkDown.
Definition validate_frame_len (s : FakeFipsSidecar) (bytes : list Z) : outcome FipsError unit :=
  if len bytes >? fs_mtu s then Err (FipsFrameTooLarge (len bytes) (fs_mtu s)) else Ok tt.

Definition send_to (destination : FipsEndpoint) (bytes : list Z) : io FakeFipsSidecar FipsError unit :=
  s ← get;
  _ ← lift (validate_up s);
  _ ← lift (guard_err (negb (has_peer s destination)) UnknownPeer);
  _ ← lift (validate_frame_len s bytes);
  _ ← lift (guard_err (fs_outbound_len s >=? QUEUE) (OutboundFull QUEUE));
  record ← lift (FipsDatagramRecord_new FRAME_MAX (fs_local_endpoint s) destination bytes);
  focus (fun s => (fs_outbound s, fs_outbound_len s)) with_outbound (enqueue record).

Definition inject_from (source : FipsEndpoint) (bytes : list Z) : io FakeFipsSidecar FipsError unit :=
  s ← get;
  _ ← lift (validate_up s);
  _ ← lift (guard_err (negb (has_peer s source)) UnknownPeer);
  _ ← lift (validate_frame_len s bytes);
  _ ← lift (guard_err (fs_inbound_len s >=? QUEUE) (InboundFull QUEUE));
  record ← lift (FipsDatagramRecord_new FRAME_MAX source (fs_local_endpoint s) bytes);
  focus (fun s => (fs_inbound s, fs_inbound_len s)) with_inbound (enqueue record).

(** The state is the sidecar and [output]. *)
Definition poll_inbound : io (FakeFipsSidecar * list Z) FipsError (option FipsDatagramRef) :=
  focus (fun s => ((fs_inbound (fst s), fs_inbound_len (fst s)), snd s)) (fun q s => (with_inbound (fst q) (fst s), snd q)) poll_queue.
Definition poll_outbound : io (FakeFipsSidecar * list Z) FipsError (option FipsDatagramRef) :=
  focus (fun s => ((fs_outbound (fst s), fs_outbound_len (fst s)), snd s)) (fun q s => (with_outbound (fst q) (fst s), snd q)) poll_queue.
End sidecar.

(** ** Endpoints are derived *)
Section endpoint_lemmas.
Context {FH : FipsHash} `{!FipsHashLaws FH}.

Definition node_addr_of (public_key : list Z) : list Z := take 16 (fips_sha256 public_key).
Definition ipv6_addr_of (node_addr : list Z) : list Z := 0xfd :: take 15 node_addr.
Definition endpoint_of (public_key : list Z) : FipsEndpoint :=
  mk_endpoint public_key (node_addr_of public_key) (ipv6_addr_of (node_addr_of public_key)).

Lemma node_addr_ok public_key : array_ok 16 (node_addr_of public_key).
Proof.
  destruct (fips_sha256_len public_key) as [Hl Hb]. unfold node_addr_of. split; [|by apply bytes_ok_take]. rewrite len_take, Hl. done.
Qed.

Lemma derive_node_addr_spec {E} public_key : derive_fips_node_addr (E:=E) public_key = Ok (node_addr_of public_key).
Proof.
  destruct (fips_sha256_len public_key) as [Hl _]. unfold derive_fips_node_addr. rewrite slice_prefix by (rewrite Hl; lia). cbn [mbind outcome_bind].
  change (take (Z.to_nat 16) (fips_sha256 public_key)) with (node_addr_of public_key). destruct (node_addr_ok public_key) as [H16 _].
  rewrite write_at_0 by (rewrite H16; done). rewrite drop_ge, app_nil_r; [done|]. change (length (zeros 16)) with 16%nat. unfold len in H16. lia.
Qed.

Lemma derive_ipv6_addr_spec {E} node_addr : len node_addr = 16 -> derive_fips_ipv6_addr (E:=E) node_addr = Ok (ipv6_addr_of node_addr).
Proof.
  intros Hl. unfold derive_fips_ipv6_addr. rewrite slice_prefix by lia. change (Z.to_nat 15) with 15%nat.
  destruct (cut node_addr 15 ltac:(lia)) as (u & v & -> & Hu & _).
  unfold ipv6_addr_of. replace 15%nat with (length u) by (unfold len in Hu; lia). rewrite take_app_length. cbn [mbind outcome_bind].
  assert (set_at (E:=E) (zeros 16) 0 0xfd = Ok ([0xfd] ++ zeros 15 ++ [])) as -> by reflexivity. cbn [mbind outcome_bind].
  rewrite write_at_app; [by rewrite app_nil_r|done|by rewrite Hu].
Qed.

(** An endpoint is valid exactly when it is the one of its key. *)
Lemma validate_spec e : FipsEndpoint_validate e = if bool_decide (e = endpoint_of (fe_public_key e)) then Ok tt else Err InvalidEndpoint.
Proof.
  unfold FipsEndpoint_validate. rewrite derive_node_addr_spec. cbn [mbind outcome_bind]. destruct (node_addr_ok (fe_public_key e)) as [Hl _].
  rewrite derive_ipv6_addr_spec by done. cbn [mbind outcome_bind]. destruct e as [k n i]. unfold endpoint_of. cbn [fe_public_key fe_node_addr fe_ipv6_addr].
  destruct (decide (n = node_addr_of k)) as [->|Hn].
  - rewrite (bool_decide_eq_true_2 (node_addr_of k = _)) by done. destruct (decide (i = ipv6_addr_of (node_addr_of k))) as [->|Hi].
    + by rewrite !bool_decide_eq_true_2.
    + rewrite !bool_decide_eq_false_2; [done|congruence|done].
  - rewrite (bool_decide_eq_false_2 (n = _)) by done. cbn [andb]. rewrite bool_decide_eq_false_2; [done|congruence].
Qed.

Lemma derive_endpoint_spec {E} public_key : derive_fips_endpoint (E:=E) public_key = Ok (endpoint_of public_key).
Proof.
  unfold derive_fips_endpoint. rewrite derive_node_addr_spec. cbn [mbind outcome_bind]. destruct (node_addr_ok public_key) as [Hl _].
  by rewrite derive_ipv6_addr_spec.
Qed.

Definition endpoint_ok (e : FipsEndpoint) : Prop := e = endpoint_of (fe_public_key e).
Lemma validate_ok e : FipsEndpoint_validate e = Ok tt <-> endpoint_ok e.
Proof. rewrite validate_spec. unfold endpoint_ok. by case_bool_decide. Qed.
End endpoint_lemmas.

(** ** Queues of datagrams *)
Definition datagram_record (FRAME_MAX : Z) (d : FipsDatagramRef) : FipsDatagramRecord :=
  mk_datagram (dg_source d) (dg_destination d) (len (dg_bytes d)) (dg_bytes d ++ zeros (FRAME_MAX - len (dg_bytes d))).

Lemma record_bytes_spec {E} F d : record_bytes (E:=E) (datagram_record F d) = Ok (dg_bytes d).
Proof. unfold record_bytes, datagram_record. cbn [dr_bytes dr_len]. by apply slice_app_first. Qed.

Lemma record_new_spec {FH : FipsHash} `{!FipsHashLaws FH} F source destination bytes :
  endpoint_ok source -> endpoint_ok destination -> 0 <= F ->
  FipsDatagramRecord_new F source destination bytes =
    if len bytes >? F then Err (FipsFrameTooLarge (len bytes) F) else Ok (datagram_record F (mk_datagram_ref source destination bytes)).
Proof.
  intros Hs Hd HF. unfold FipsDatagramRecord_new. apply validate_ok in Hs as ->. apply validate_ok in Hd as ->. cbn [mbind outcome_bind].
  rewrite Z.gtb_ltb. destruct (Z.ltb_spec F (len bytes)) as [|Hl]; [done|]. cbn [guard_err mbind outcome_bind]. pose proof (len_nonneg bytes).
  assert (zeros F = zeros (len bytes) ++ zeros (F - len bytes)) as -> by (unfold zeros; rewrite <- replicate_add; f_equal; lia).
  pose proof (write_at_app (E:=FipsError) [] bytes (zeros (len bytes)) (zeros (F - len bytes)) 0 eq_refl) as H1. cbn [app] in H1.
  by rewrite H1 by (by apply len_zeros).
Qed.

Lemma sidecar_shift_loop_spec (l : list (option FipsDatagramRecord)) pre x rest :
  exists z, shift_loop (len pre + 1) (length l) (pre ++ x :: l ++ rest) = (Ok tt, pre ++ l ++ z :: rest).
Proof.
  revert pre x. induction l as [|y l IH]; intros pre x; [by exists x|]. cbn [length shift_loop app]. rewrite get_bind.
  assert (Prelude.index (E:=FipsError) (pre ++ x :: y :: l ++ rest) (len pre + 1) = Ok y) as ->.
  { change (x :: y :: l ++ rest) with ([x] ++ y :: l ++ rest). rewrite app_assoc. apply index_app. by rewrite len_app. }
  rewrite lift_bind_ok, (io_bind_ok _ _ _ _ _ (poke_app pre x (y :: l ++ rest) y (len pre + 1 - 1) ltac:(lia))).
  destruct (IH (pre ++ [y]) y) as [z Hz]. rewrite len_app in Hz. change (len [y]) with 1 in Hz. rewrite Hz. exists z. by rewrite <- app_assoc.
Qed.

Lemma sidecar_shift_queue_spec N (record : FipsDatagramRecord) recs :
  len (record :: recs) <= N -> shift_queue (queue_of N (record :: recs), len (record :: recs)) = (Ok tt, (queue_of N recs, len recs)).
Proof.
  intros Hl. unfold shift_queue. rewrite get_bind. cbn [snd]. rewrite len_cons in *. pose proof (len_nonneg recs).
  destruct (Z.eqb_spec (1 + len recs) 0); [lia|]. replace (1 + len recs - 1) with (len recs) by lia. rewrite to_nat_len.
  assert (queue_of N (record :: recs) = [] ++ Some record :: (Some <$> recs) ++ replicate (Z.to_nat (N - (1 + len recs))) None) as ->.
  { unfold queue_of. by rewrite len_cons. }
  destruct (sidecar_shift_loop_spec (Some <$> recs) [] (Some record) (replicate (Z.to_nat (N - (1 + len recs))) None)) as [z Hz].
  rewrite length_fmap in Hz. change (len [] + 1) with 1 in Hz. unfold mbind, io_bind, focus. cbn [fst snd]. rewrite Hz. unfold get, lift, put. cbn [fst snd app].
  replace (1 + len recs - 1) with (len (Some <$> recs)) by (rewrite len_map; lia). rewrite set_at_app. rewrite len_map. do 3 f_equal.
  unfold queue_of. f_equal. by replace (Z.to_nat (N - len recs)) with (S (Z.to_nat (N - (1 + len recs)))) by lia.
Qed.

Lemma sidecar_enqueue_spec N (record : FipsDatagramRecord) recs :
  len recs < N -> enqueue record (queue_of N recs, len recs) = (Ok tt, (queue_of N (recs ++ [record]), len (recs ++ [record]))).
Proof.
  intros Hl. unfold enqueue. rewrite get_bind. cbn [fst snd]. rewrite queue_push by done. rewrite lift_bind_ok. by rewrite len_app.
Qed.

(** Polling a queue is taking its head, if it fits. *)
Lemma poll_queue_spec N F ds output :
  len ds <= N ->
  poll_queue ((queue_of N (datagram_record F <$> ds), len ds), output) =
    match ds with
    | [] => (Ok None, ((queue_of N (datagram_record F <$> ds), len ds), output))
    | d :: ds' =>
        if len output <? len (dg_bytes d) then (Err (FipsOutputTooSmall (len (dg_bytes d)) (len output)), ((queue_of N (datagram_record F <$> ds), len ds), output))
        else (Ok (Some d), ((queue_of N (datagram_record F <$> ds'), len ds'), dg_bytes d ++ drop (length (dg_bytes d)) output))
    end.
Proof.
  intros Hl. unfold poll_queue. rewrite get_bind. cbn [fst snd]. destruct ds as [|d ds]; [done|]. rewrite len_cons in *. pose proof (len_nonneg ds).
  destruct (Z.eqb_spec (1 + len ds) 0); [lia|].
  assert (Prelude.index (E:=FipsError) (queue_of N (datagram_record F <$> d :: ds)) 0 = Ok (Some (datagram_record F d))) as -> by apply index_0.
  rewrite lift_bind_ok. change (dr_len (datagram_record F d)) with (len (dg_bytes d)). destruct (Z.ltb_spec (len output) (len (dg_bytes d))) as [|Ho]; [done|].
  cbn [guard_err]. rewrite lift_bind_ok, record_bytes_spec, lift_bind_ok. destruct (cut output (len (dg_bytes d))) as (u & v & -> & Hu & _); [pose proof (len_nonneg (dg_bytes d)); lia|].
  pose proof (write_at_app (E:=FipsError) [] (dg_bytes d) u v 0 eq_refl Hu) as Hw. cbn [app] in Hw. rewrite Hw, lift_bind_ok, put_bind.
  pose proof (sidecar_shift_queue_spec N (datagram_record F d) (datagram_record F <$> ds)) as Hshift. rewrite len_cons, len_map in Hshift. specialize (Hshift ltac:(lia)).
  erewrite io_bind_ok by (unfold focus; cbn [fst snd]; change (datagram_record F <$> d :: ds) with (datagram_record F d :: (datagram_record F <$> ds)); rewrite Hshift; reflexivity).
  rewrite slice_app_first by done. rewrite lift_bind_ok. rewrite drop_app_length' by (unfold len in *; lia). by destruct d.
Qed.

(** ** The abstract sidecar *)
Record SpecSidecar := mk_spec_sidecar {
  sv_local : FipsEndpoint;
  sv_peers : list FipsEndpoint;
  sv_outbound : list FipsDatagramRef;
  sv_inbound : list FipsDatagramRef;
  sv_up : bool;
  sv_mtu : Z;
}.

Inductive sidecar_op :=
| SetUp (up : bool)
| RegisterPeer (endpoint : FipsEndpoint)
| SendTo (destination : FipsEndpoint) (bytes : list Z)
| InjectFrom (source : FipsEndpoint) (bytes : list Z)
| PollInbound (output : list Z)
| PollOutbound (output : list Z).

(** What an operation returns; polls also show the buffer. *)
Inductive sidecar_reply := SidecarUnit | SidecarPolled (d : option FipsDatagramRef) (output : list Z).

(** Polling with a buffer of the caller, which is seen in the reply. *)
Definition polled {T} (m : io (T * list Z) FipsError (option FipsDatagramRef)) (output : list Z) : io T FipsError sidecar_reply := fun s =>
  match m (s, output) with
  | (Ok d, (s', output')) => (Ok (SidecarPolled d output'), s')
  | (Err e, (s', _)) => (Err e, s')
  | (Panic, (s', _)) => (Panic, s')
  end.
Definition unit_reply {T} (m : io T FipsError unit) : io T FipsError sidecar_reply := _ ← m; mret SidecarUnit.

Definition spec_with_up (up : bool) (s : SpecSidecar) : SpecSidecar := mk_spec_sidecar (sv_local s) (sv_peers s) (sv_outbound s) (sv_inbound s) up (sv_mtu s).
Definition spec_with_peers (l : list FipsEndpoint) (s : SpecSidecar) : SpecSidecar := mk_spec_sidecar (sv_local s) l (sv_outbound s) (sv_inbound s) (sv_up s) (sv_mtu s).
Definition spec_with_outbound (l : list FipsDatagramRef) (s : SpecSidecar) : SpecSidecar := mk_spec_sidecar (sv_local s) (sv_peers s) l (sv_inbound s) (sv_up s) (sv_mtu s).
Definition spec_with_inbound (l : list FipsDatagramRef) (s : SpecSidecar) : SpecSidecar := mk_spec_sidecar (sv_local s) (sv_peers s) (sv_outbound s) l (sv_up s) (sv_mtu s).

(** Why a datagram for a peer is refused, if it is. *)
Definition refusal (s : SpecSidecar) (peer : FipsEndpoint) (bytes : list Z) (full : option FipsError) : option FipsError :=
  if negb (sv_up s) then Some FipsLinkDown
  else if negb (bool_decide (peer ∈ sv_peers s)) then Some UnknownPeer
  else if len bytes >? sv_mtu s then Some (FipsFrameTooLarge (len bytes) (sv_mtu s))
  else full.

(** The state is the sidecar and the caller's buffer. *)
Definition spec_poll (queue : SpecSidecar -> list FipsDatagramRef) (set : list FipsDatagramRef -> SpecSidecar -> SpecSidecar)
  : io (SpecSidecar * list Z) FipsError (option FipsDatagramRef) := fun s =>
  match queue (fst s) with
  | [] => (Ok None, s)
  | d :: ds =>
      if len (snd s) <? len (dg_bytes d) then (Err (FipsOutputTooSmall (len (dg_bytes d)) (len (snd s))), s)
      else (Ok (Some d), (set ds (fst s), dg_bytes d ++ drop (length (dg_bytes d)) (snd s)))
  end.
Definition spec_poll_inbound := spec_poll sv_inbound spec_with_inbound.
Definition spec_poll_outbound := spec_poll sv_outbound spec_with_outbound.

Section spec.
Context {FH : FipsHash}.
Context (PEERS QUEUE FRAME_MAX : Z).

Definition spec_send_to (destination : FipsEndpoint) (bytes : list Z) : io SpecSidecar FipsError unit := fun s =>
  match refusal s destination bytes (if len (sv_outbound s) >=? QUEUE then Some (OutboundFull QUEUE) else None) with
  | Some e => (Err e, s)
  | None => (Ok tt, spec_with_outbound (sv_outbound s ++ [mk_datagram_ref (sv_local s) destination bytes]) s)
  end.

Definition spec_inject_from (source : FipsEndpoint) (bytes : list Z) : io SpecSidecar FipsError unit := fun s =>
  match refusal s source bytes (if len (sv_inbound s) >=? QUEUE then Some (InboundFull QUEUE) else None) with
  | Some e => (Err e, s)
  | None => (Ok tt, spec_with_inbound (sv_inbound s ++ [mk_datagram_ref source (sv_local s) bytes]) s)
  end.

Definition spec_register_peer (endpoint : FipsEndpoint) : io SpecSidecar FipsError unit := fun s =>
  if negb (bool_decide (endpoint = endpoint_of (fe_public_key endpoint))) then (Err InvalidEndpoint, s)
  else if existsb (fun registered => endpoints_overlap registered endpoint) (sv_local s :: sv_peers s) then (Err DuplicatePeer, s)
  else if len (sv_peers s) >=? PEERS then (Err (PeerTableFull PEERS), s)
  else (Ok tt, spec_with_peers (sv_peers s ++ [endpoint]) s).

Definition sidecar_step (op : sidecar_op) : io FakeFipsSidecar FipsError sidecar_reply :=
  match op with
  | SetUp up => fun s => (Ok SidecarUnit, sidecar_set_up up s)
  | RegisterPeer endpoint => unit_reply (register_peer PEERS endpoint)
  | SendTo destination bytes => unit_reply (send_to QUEUE FRAME_MAX destination bytes)
  | InjectFrom source bytes => unit_reply (inject_from QUEUE FRAME_MAX source bytes)
  | PollInbound output => polled poll_inbound output
  | PollOutbound output => polled poll_outbound output
  end.

Definition spec_sidecar_step (op : sidecar_op) : io SpecSidecar FipsError sidecar_reply :=
  match op with
  | SetUp up => fun s => (Ok SidecarUnit, spec_with_up up s)
  | RegisterPeer endpoint => unit_reply (spec_register_peer endpoint)
  | SendTo destination bytes => unit_reply (spec_send_to destination bytes)
  | InjectFrom source bytes => unit_reply (spec_inject_from source bytes)
  | PollInbound output => polled spec_poll_inbound output
  | PollOutbound output => polled spec_poll_outbound output
  end.

(** ** The arrays of the sidecar are the lists *)
Record sidecar_is (s : FakeFipsSidecar) (a : SpecSidecar) : Prop := {
  si_local : fs_local_endpoint s = sv_local a;
  si_local_ok : endpoint_ok (sv_local a);
  si_peers : fs_peers s = queue_of PEERS (sv_peers a);
  si_peers_len : len (sv_peers a) <= PEERS;
  si_peers_ok : Forall endpoint_ok (sv_peers a);
  si_outbound : fs_outbound s = queue_of QUEUE (datagram_record FRAME_MAX <$> sv_outbound a);
  si_outbound_len : fs_outbound_len s = len (sv_outbound a);
  si_outbound_max : len (sv_outbound a) <= QUEUE;
  si_inbound : fs_inbound s = queue_of QUEUE (datagram_record FRAME_MAX <$> sv_inbound a);
  si_inbound_len : fs_inbound_len s = len (sv_inbound a);
  si_inbound_max : len (sv_inbound a) <= QUEUE;
  si_up : fs_up s = sv_up a;
  si_mtu : fs_mtu s = sv_mtu a;
  si_mtu_max : sv_mtu a <= FRAME_MAX;
}.
End spec.

Section sidecar_lemmas.
Context {FH : FipsHash} `{!FipsHashLaws FH}.
Context (PEERS QUEUE FRAME_MAX : Z).
Hypotheses (peers_cap : 0 <= PEERS) (queue_cap : 0 <= QUEUE) (frame_max : 0 <= FRAME_MAX).

Notation rep := (sidecar_is PEERS QUEUE FRAME_MAX).

Lemma existsb_eq (l : list FipsEndpoint) endpoint : existsb (fun x => bool_decide (x = endpoint)) l = bool_decide (endpoint ∈ l).
Proof.
  induction l as [|x l IH]; cbn [existsb]; [by rewrite bool_decide_eq_false_2 by apply not_elem_of_nil|]. rewrite IH.
  destruct (decide (x = endpoint)) as [->|Hn]; [rewrite (bool_decide_eq_true_2 (endpoint = endpoint)) by done; cbn [orb]; symmetry; apply bool_decide_eq_true_2, list_elem_of_here|].
  rewrite (bool_decide_eq_false_2 (x = endpoint)) by done. cbn [orb]. apply bool_decide_ext. rewrite elem_of_cons. naive_solver.
Qed.

Lemma has_peer_spec s a endpoint : rep s a -> has_peer s endpoint = bool_decide (endpoint ∈ sv_peers a).
Proof. intros HR. unfold has_peer. by rewrite (si_peers _ _ _ _ _ HR), occupied_queue, existsb_eq. Qed.

Lemma register_refines endpoint : refines rep (register_peer PEERS endpoint) (spec_register_peer PEERS endpoint).
Proof.
  intros s a HR. unfold refines_at, register_peer, spec_register_peer. rewrite validate_spec.
  destruct (decide (endpoint = endpoint_of (fe_public_key endpoint))) as [He|He]; [|by rewrite bool_decide_eq_false_2].
  rewrite bool_decide_eq_true_2 by done. cbn [negb]. rewrite lift_bind_ok, get_bind. rewrite (si_peers _ _ _ _ _ HR), occupied_queue, (si_local _ _ _ _ _ HR).
  cbn [existsb]. destruct (_ || _); [done|]. cbn [guard_err]. rewrite lift_bind_ok. pose proof (si_peers_len _ _ _ _ _ HR) as Hl.
  rewrite queue_position by done. rewrite Z.geb_leb. destruct (Z.ltb_spec (len (sv_peers a)) PEERS), (Z.leb_spec PEERS (len (sv_peers a))); try lia; [|done].
  cbn [ok_or]. rewrite lift_bind_ok, queue_push by done. rewrite lift_bind_ok. split; [done|]. destruct HR. constructor; cbn; try done.
  - rewrite len_app. change (len [endpoint]) with 1. lia.
  - apply Forall_app. split; [done|]. by constructor.
Qed.

(** The guards that [send_to] and [inject_from] share refuse with [refusal]. *)
Lemma guards_spec s a peer bytes n full (k : io FakeFipsSidecar FipsError unit) :
  rep s a ->
  (_ ← lift (validate_up s); _ ← lift (guard_err (negb (has_peer s peer)) UnknownPeer); _ ← lift (validate_frame_len s bytes);
   _ ← lift (guard_err (n >=? QUEUE) full); k) s
  = match refusal a peer bytes (if n >=? QUEUE then Some full else None) with Some e => (Err e, s) | None => k s end.
Proof.
  intros HR. unfold refusal, validate_up, validate_frame_len. rewrite (has_peer_spec s a peer HR), (si_up _ _ _ _ _ HR), (si_mtu _ _ _ _ _ HR).
  destruct (sv_up a); [|done]. cbn [negb]. rewrite lift_bind_ok. case_bool_decide; [|done]. cbn [negb guard_err]. rewrite lift_bind_ok.
  destruct (len bytes >? sv_mtu a); [done|]. rewrite lift_bind_ok. by destruct (n >=? QUEUE).
Qed.

Lemma refusal_none a peer bytes full : refusal a peer bytes full = None -> sv_up a = true /\ peer ∈ sv_peers a /\ len bytes <= sv_mtu a /\ full = None.
Proof.
  unfold refusal. destruct (sv_up a); [|done]. cbn [negb]. case_bool_decide; [|done]. cbn [negb]. rewrite Z.gtb_ltb. by destruct (Z.ltb_spec (sv_mtu a) (len bytes)).
Qed.

Lemma accepted_record a s source destination bytes :
  rep s a -> endpoint_ok source -> endpoint_ok destination -> len bytes <= sv_mtu a ->
  FipsDatagramRecord_new FRAME_MAX source destination bytes = Ok (datagram_record FRAME_MAX (mk_datagram_ref source destination bytes)).
Proof.
  intros HR Hs Hd Hl. rewrite record_new_spec by done. pose proof (si_mtu_max _ _ _ _ _ HR). rewrite Z.gtb_ltb. by destruct (Z.ltb_spec FRAME_MAX (len bytes)); [lia|].
Qed.

Lemma peer_ok a s peer : rep s a -> peer ∈ sv_peers a -> endpoint_ok peer.
Proof. intros HR. pose proof (si_peers_ok _ _ _ _ _ HR) as H. rewrite list.Forall_forall in H. apply H. Qed.

Lemma enqueue_datagram ds d :
  len ds < QUEUE ->
  enqueue (datagram_record FRAME_MAX d) (queue_of QUEUE (datagram_record FRAME_MAX <$> ds), len ds)
  = (Ok tt, (queue_of QUEUE (datagram_record FRAME_MAX <$> ds ++ [d]), len (ds ++ [d]))).
Proof.
  intros Hl. rewrite <- (len_map (datagram_record FRAME_MAX) ds), sidecar_enqueue_spec by (by rewrite len_map). by rewrite fmap_app, !len_app, len_map.
Qed.

Lemma sidecar_send_refines destination bytes : refines rep (send_to QUEUE FRAME_MAX destination bytes) (spec_send_to QUEUE destination bytes).
Proof.
  intros s a HR. unfold refines_at, send_to, spec_send_to. rewrite get_bind, (guards_spec s a _ _ _ _ _ HR), (si_outbound_len _ _ _ _ _ HR), (si_local _ _ _ _ _ HR).
  destruct (refusal _ _ _ _) eqn:Hr; [done|]. apply refusal_none in Hr as (_ & Hp & Hl & Hq). rewrite Z.geb_leb in Hq. destruct (Z.leb_spec QUEUE (len (sv_outbound a))) as [|Hfree]; [done|].
  rewrite (accepted_record a s) by (done || apply (si_local_ok _ _ _ _ _ HR) || by apply (peer_ok a s)). rewrite lift_bind_ok. unfold focus.
  rewrite (si_outbound _ _ _ _ _ HR), (si_outbound_len _ _ _ _ _ HR), enqueue_datagram by done. split; [done|].
  destruct HR. constructor; cbn [fs_local_endpoint fs_peers fs_outbound fs_inbound fs_up fs_mtu fs_outbound_len fs_inbound_len with_outbound spec_with_outbound
    sv_local sv_peers sv_outbound sv_inbound sv_up sv_mtu fst snd]; try done. rewrite len_app, len_cons, len_nil. lia.
Qed.

Lemma inject_refines source bytes : refines rep (inject_from QUEUE FRAME_MAX source bytes) (spec_inject_from QUEUE source bytes).
Proof.
  intros s a HR. unfold refines_at, inject_from, spec_inject_from. rewrite get_bind, (guards_spec s a _ _ _ _ _ HR), (si_inbound_len _ _ _ _ _ HR), (si_local _ _ _ _ _ HR).
  destruct (refusal _ _ _ _) eqn:Hr; [done|]. apply refusal_none in Hr as (_ & Hp & Hl & Hq). rewrite Z.geb_leb in Hq. destruct (Z.leb_spec QUEUE (len (sv_inbound a))) as [|Hfree]; [done|].
  rewrite (accepted_record a s) by (done || apply (si_local_ok _ _ _ _ _ HR) || by apply (peer_ok a s)). rewrite lift_bind_ok. unfold focus.
  rewrite (si_inbound _ _ _ _ _ HR), (si_inbound_len _ _ _ _ _ HR), enqueue_datagram by done. split; [done|].
  destruct HR. constructor; cbn [fs_local_endpoint fs_peers fs_outbound fs_inbound fs_up fs_mtu fs_outbound_len fs_inbound_len with_inbound spec_with_inbound
    sv_local sv_peers sv_outbound sv_inbound sv_up sv_mtu fst snd]; try done. rewrite len_app, len_cons, len_nil. lia.
Qed.

(** Related sidecars, and the same buffer. *)
Definition same_buffer (s : FakeFipsSidecar * list Z) (t : SpecSidecar * list Z) : Prop := rep (fst s) (fst t) /\ snd s = snd t.

(** Polling through a lens of the sidecar onto one of its queues. *)
Lemma poll_refines (read : FakeFipsSidecar -> list (option FipsDatagramRecord) * Z) write (queue : SpecSidecar -> list FipsDatagramRef) set :
  (forall s a, rep s a -> read s = (queue_of QUEUE (datagram_record FRAME_MAX <$> queue a), len (queue a)) /\ len (queue a) <= QUEUE) ->
  (forall s, write (read s) s = s) ->
  (forall s a d ds, rep s a -> queue a = d :: ds -> rep (write (queue_of QUEUE (datagram_record FRAME_MAX <$> ds), len ds) s) (set ds a)) ->
  refines same_buffer (focus (fun s => (read (fst s), snd s)) (fun q s => (write (fst q) (fst s), snd q)) poll_queue) (spec_poll queue set).
Proof.
  intros Hread Hsame Hset [s output] [a output'] [HR Ho]. cbn [fst snd] in HR, Ho. subst output'. destruct (Hread s a HR) as [Hs Hl]. specialize (Hsame s).
  unfold refines_at, focus, spec_poll, same_buffer. cbn [fst snd]. rewrite Hs in Hsame |- *. rewrite poll_queue_spec by done. specialize (Hset s a).
  destruct (queue a) as [|d ds]; [cbn [fst snd]; rewrite Hsame; by split|].
  destruct (len output <? len (dg_bytes d)); cbn [fst snd]; [rewrite Hsame; by split|]. split; [done|]. split; [by apply (Hset d)|done].
Qed.

Lemma poll_inbound_refines : refines same_buffer poll_inbound spec_poll_inbound.
Proof.
  apply (poll_refines (fun s => (fs_inbound s, fs_inbound_len s)) with_inbound); [|by intros []|].
  - intros s a HR. rewrite (si_inbound _ _ _ _ _ HR), (si_inbound_len _ _ _ _ _ HR). split; [done|]. apply (si_inbound_max _ _ _ _ _ HR).
  - intros s a d ds HR Hd. pose proof (si_inbound_max _ _ _ _ _ HR) as Hl. rewrite Hd, len_cons in Hl. destruct HR. constructor; cbn; try done. lia.
Qed.

Lemma poll_outbound_refines : refines same_buffer poll_outbound spec_poll_outbound.
Proof.
  apply (poll_refines (fun s => (fs_outbound s, fs_outbound_len s)) with_outbound); [|by intros []|].
  - intros s a HR. rewrite (si_outbound _ _ _ _ _ HR), (si_outbound_len _ _ _ _ _ HR). split; [done|]. apply (si_outbound_max _ _ _ _ _ HR).
  - intros s a d ds HR Hd. pose proof (si_outbound_max _ _ _ _ _ HR) as Hl. rewrite Hd, len_cons in Hl. destruct HR. constructor; cbn; try done. lia.
Qed.

Lemma set_up_is s a up : rep s a -> rep (sidecar_set_up up s) (spec_with_up up a).
Proof. intros []. by constructor. Qed.

Lemma polled_refines m n output : refines same_buffer m n -> refines rep (polled m output) (polled n output).
Proof.
  intros Hm s a HR. destruct (Hm (s, output) (a, output)) as [H1 [H2 H3]]; [by split|]. unfold refines_at, polled.
  destruct (m (s, output)) as [o [s' o1]], (n (a, output)) as [o' [a' o2]]. cbn [fst snd] in *. subst. by destruct o'.
Qed.

Lemma unit_reply_refines m n : refines rep m n -> refines rep (unit_reply m) (unit_reply n).
Proof. intros H. apply refines_bind; [done|]. intros []. apply refines_ret. Qed.

Lemma sidecar_step_refines op : refines rep (sidecar_step PEERS QUEUE FRAME_MAX op) (spec_sidecar_step PEERS QUEUE op).
Proof.
  destruct op; cbn [sidecar_step spec_sidecar_step].
  - intros s a HR. split; [done|]. by apply set_up_is.
  - apply unit_reply_refines, register_refines.
  - apply unit_reply_refines, sidecar_send_refines.
  - apply unit_reply_refines, inject_refines.
  - apply polled_refines, poll_inbound_refines.
  - apply polled_refines, poll_outbound_refines.
Qed.

Lemma unit_reply_safe {T} (m : io T FipsError unit) a : fst (m a) <> Panic -> fst (unit_reply m a) <> Panic.
Proof. unfold unit_reply, mbind, io_bind. by destruct (m a) as [[]]. Qed.

Lemma spec_sidecar_step_safe op a : fst (spec_sidecar_step PEERS QUEUE op a) <> Panic.
Proof.
  destruct op; cbn [spec_sidecar_step]; [done|apply unit_reply_safe..| |].
  - unfold spec_register_peer. destruct (negb _); [done|]. destruct (existsb _ _); [done|]. by destruct (_ >=? _).
  - unfold spec_send_to. by destruct (refusal _ _ _ _).
  - unfold spec_inject_from. by destruct (refusal _ _ _ _).
  - unfold polled, spec_poll_inbound, spec_poll. cbn [fst snd]. destruct (sv_inbound a); [done|]. by destruct (_ <? _).
  - unfold polled, spec_poll_outbound, spec_poll. cbn [fst snd]. destruct (sv_outbound a); [done|]. by destruct (_ <? _).
Qed.

Lemma sidecar_new_is local mtu s : FakeFipsSidecar_new PEERS QUEUE FRAME_MAX local mtu = Ok s -> rep s (mk_spec_sidecar local [] [] [] true mtu).
Proof.
  unfold FakeFipsSidecar_new. rewrite validate_spec. case_bool_decide as Hl; [|done]. cbn [mbind outcome_bind]. rewrite Z.gtb_ltb.
  destruct (Z.ltb_spec FRAME_MAX mtu); [done|]. cbn [guard_err mbind outcome_bind]. intros [= <-].
  constructor; cbn; try done; rewrite ?(@len_nil FipsEndpoint), ?(@len_nil FipsDatagramRef); try lia; try by constructor.
  all: symmetry; apply queue_nil.
Qed.

(** ** Claims *)
(** C26. The sidecar is a set of peers and two queues: over any sequence of operations
    on a new sidecar every reply - acceptances, refusals with their reasons, and
    the datagrams polled, in the order in which they were accepted - is the one of
    two lists, and none panics. *)
Theorem sidecar_refines_queues local mtu s ops :
  FakeFipsSidecar_new PEERS QUEUE FRAME_MAX local mtu = Ok s ->
  let '(replies, s') := run_steps (sidecar_step PEERS QUEUE FRAME_MAX) ops s in
  let '(expected, a) := run_steps (spec_sidecar_step PEERS QUEUE) ops (mk_spec_sidecar local [] [] [] true mtu) in
  replies = expected /\ Forall (fun r => r <> Panic) replies /\
  peer_count s' = len (sv_peers a) /\ fs_outbound_len s' = len (sv_outbound a) /\ fs_inbound_len s' = len (sv_inbound a) /\
  len (sv_peers a) <= PEERS /\ len (sv_outbound a) <= QUEUE /\ len (sv_inbound a) <= QUEUE.
Proof.
  intros Hs. apply sidecar_new_is in Hs. assert (Forall (fun _ : sidecar_op => True) ops) as Hops by (by apply list.Forall_true).
  destruct (run_steps_refines rep (fun _ => True) _ _ ops s _ (fun op _ => sidecar_step_refines op) Hops Hs) as [H1 H2].
  assert (forall a, Forall (fun r => r <> Panic) (fst (run_steps (spec_sidecar_step PEERS QUEUE) ops a))) as Hsafe.
  { clear. induction ops as [|op ops IH]; intros a; cbn [run_steps]; [constructor|].
    pose proof (spec_sidecar_step_safe op a) as Hop.
    specialize (IH (snd (spec_sidecar_step PEERS QUEUE op a))). destruct (spec_sidecar_step PEERS QUEUE op a) as [o a']. cbn [fst snd] in *.
    destruct (run_steps (spec_sidecar_step PEERS QUEUE) ops a'). by constructor. }
  specialize (Hsafe (mk_spec_sidecar local [] [] [] true mtu)).
  destruct (run_steps (sidecar_step PEERS QUEUE FRAME_MAX) ops s) as [replies s'], (run_steps (spec_sidecar_step PEERS QUEUE) ops _) as [expected a].
  cbn [fst snd] in *. subst expected. destruct H2. split_and!; try done. unfold peer_count. by rewrite si_peers0, occupied_queue.
Qed.
End sidecar_lemmas.

(** ** Witnesses *)
(** Not a cryptographic hash: any function with 32-byte values does. *)
Definition toy_fips : FipsHash := fun l => to_be_bytes 32 (fold_left (fun acc b => acc * 31 + b) l 7).
Lemma toy_fips_laws : FipsHashLaws toy_fips.
Proof. intros l. split; [apply len_to_be_bytes | apply to_be_bytes_ok]. Qed.

Definition sample_endpoint (seed : Z) : FipsEndpoint := endpoint_of (FH:=toy_fips) (replicate 32 seed).
Definition sample_sidecar : FakeFipsSidecar := mk_sidecar (sample_endpoint 1) [None; None] [None; None] [None; None] true 8 0 0.

(** Two peers and a third for which there is no room; a frame that fills a
    datagram, one too large, a stranger; polling with a short buffer and again. *)
Definition sample_sidecar_ops : list sidecar_op :=
  [RegisterPeer (sample_endpoint 2); RegisterPeer (sample_endpoint 2); RegisterPeer (sample_endpoint 3); RegisterPeer (sample_endpoint 4);
   SendTo (sample_endpoint 2) [1; 2; 3]; SendTo (sample_endpoint 2) (zeros 9); SendTo (sample_endpoint 4) [1]; SendTo (sample_endpoint 3) [4];
   SendTo (sample_endpoint 3) [5]; PollOutbound (zeros 2); PollOutbound (zeros 4); PollOutbound (zeros 4); PollOutbound (zeros 4);
   InjectFrom (sample_endpoint 3) [9]; PollInbound (zeros 1); SetUp false; SendTo (sample_endpoint 2) [1]].

Definition sample_sidecar_replies : list (outcome FipsError sidecar_reply) :=
  [Ok SidecarUnit; Err DuplicatePeer; Ok SidecarUnit; Err (PeerTableFull 2);
   Ok SidecarUnit; Err (FipsFrameTooLarge 9 8); Err UnknownPeer; Ok SidecarUnit; Err (OutboundFull 2); Err (FipsOutputTooSmall 3 2);
   Ok (SidecarPolled (Some (mk_datagram_ref (sample_endpoint 1) (sample_endpoint 2) [1; 2; 3])) [1; 2; 3; 0]);
   Ok (SidecarPolled (Some (mk_datagram_ref (sample_endpoint 1) (sample_endpoint 3) [4])) [4; 0; 0; 0]);
   Ok (SidecarPolled None (zeros 4));
   Ok SidecarUnit; Ok (SidecarPolled (Some (mk_datagram_ref (sample_endpoint 3) (sample_endpoint 1) [9])) [9]);
   Ok SidecarUnit; Err FipsLinkDown].

Lemma sidecar_refines_queues_witness :
  let '(replies, s') := run_steps (sidecar_step (FH:=toy_fips) 2 2 8) sample_sidecar_ops sample_sidecar in
  replies = sample_sidecar_replies /\ peer_count s' = 2 /\ Forall (fun r => r <> Panic) replies.
Proof.
  pose proof (sidecar_refines_queues (FH:=toy_fips) (FipsHashLaws0:=toy_fips_laws) 2 2 8 ltac:(lia) ltac:(lia) ltac:(lia) (sample_endpoint 1) 8 sample_sidecar sample_sidecar_ops) as H.
  specialize (H ltac:(vm_compute; reflexivity)).
  assert (let '(replies, s') := run_steps (sidecar_step (FH:=toy_fips) 2 2 8) sample_sidecar_ops sample_sidecar in
    replies = sample_sidecar_replies /\ peer_count s' = 2) as Hrun by (vm_compute; split; reflexivity).
  destruct (run_steps (sidecar_step (FH:=toy_fips) 2 2 8) sample_sidecar_ops sample_sidecar) as [replies s'].
  destruct (run_steps (spec_sidecar_step (FH:=toy_fips) 2 2) sample_sidecar_ops (mk_spec_sidecar (sample_endpoint 1) [] [] [] true 8)) as [expected a].
  destruct Hrun as [Hr Hc]. destruct H as (_ & Hsafe & _). split; [exact Hr|]. split; [exact Hc | exact Hsafe].
Defined.
