(* ===== verification/FipsControl.v ===== *)
(** [hyf_link_fips]: the answer of the FIPS daemon to a status request
    (src/crates/hyf_link_fips/src/control.rs).

    The JSON reader is a parameter; the standard library's IPv6 address parser is
    modelled.  The claim says which answers are accepted, and with which status. *)
From S2P Require Import Prelude Cursor Utf8 NostrHex Queue Simulation Fips.
From stdpp Require Import strings.

Open Scope Z_scope.

(** ** IPv6 addresses as the standard library reads them
    ([Ipv6Addr::from_str], [core::net::parser]): a reader takes the text that is
    left and gives what it has read and the rest, or nothing. *)
Definition to_digit (radix c : Z) : option Z :=
  let d := if in_range 48 57 c then Some (c - 48)
           else if in_range 97 122 c then Some (c - 87)
           else if in_range 65 90 c then Some (c - 55) else None in
  match d with Some d => if d <? radix then Some d else None | None => None end.

(** The digits of a number: its value, how many there are, and the rest. *)
Fixpoint read_digits (radix max_digits result digit_count : Z) (s : list Z) : option (Z * Z * list Z) :=
  match s with
  | c :: rest =>
      match to_digit radix c with
      | Some digit =>
          if digit_count + 1 >? max_digits then None
          else read_digits radix max_digits (result * radix + digit) (digit_count + 1) rest
      | None => Some (result, digit_count, s)
      end
  | [] => Some (result, digit_count, [])
  end.

Definition read_number (radix max_digits maximum : Z) (allow_zero_prefix : bool) (s : list Z) : option (Z * list Z) :=
  let has_leading_zero := match s with c :: _ => c =? 48 | [] => false end in
  match read_digits radix max_digits 0 0 s with
  | Some (result, digit_count, rest) =>
      if digit_count =? 0 then None
      else if negb allow_zero_prefix && has_leading_zero && (digit_count >? 1) then None
      else if result >? maximum then None else Some (result, rest)
  | None => None
  end.

Definition read_given_char (target : Z) (s : list Z) : option (list Z) :=
  match s with c :: rest => if c =? target then Some rest else None | [] => None end.

Definition read_separator {A} (sep index : Z) (inner : list Z -> option (A * list Z)) (s : list Z) : option (A * list Z) :=
  if index >? 0 then match read_given_char sep s with Some s => inner s | None => None end else inner s.

(** [left_] of the four groups, from [index] on. *)
Fixpoint read_ipv4_groups (index : Z) (left_ : nat) (s : list Z) : option (list Z * list Z) :=
  match left_ with
  | O => Some ([], s)
  | S left_ =>
      match read_separator 46 index (read_number 10 3 255 false) s with
      | Some (g, s) => match read_ipv4_groups (index + 1) left_ s with Some (gs, s) => Some (g :: gs, s) | None => None end
      | None => None
      end
  end.
Definition read_ipv4_addr : list Z -> option (list Z * list Z) := read_ipv4_groups 0 4.

(** The groups that are read, whether the last two are an IPv4 address, and the rest; [left_] more fit. *)
Fixpoint read_groups (index : Z) (left_ : nat) (s : list Z) : list Z * bool * list Z :=
  match left_ with
  | O => ([], false, s)
  | S left_ =>
      match (if (1 <=? left_)%nat then read_separator 58 index read_ipv4_addr s else None) with
      | Some (v4_addr, s) => ([from_be_bytes (take 2 v4_addr); from_be_bytes (drop 2 v4_addr)], true, s)
      | None =>
          match read_separator 58 index (read_number 16 4 65535 true) s with
          | Some (g, s) => let '(gs, ipv4, s) := read_groups (index + 1) left_ s in (g :: gs, ipv4, s)
          | None => ([], false, s)
          end
      end
  end.

(** The eight groups. *)
Definition read_ipv6_addr (s : list Z) : option (list Z * list Z) :=
  let '(head, head_ipv4, s) := read_groups 0 8 s in
  if len head =? 8 then Some (head, s)
  else if head_ipv4 then None
  else
    match read_given_char 58 s with
    | None => None
    | Some s =>
        match read_given_char 58 s with
        | None => None
        | Some s =>
            let '(tail, _, s) := read_groups 0 (Z.to_nat (8 - (len head + 1))) s in
            Some (head ++ zeros (8 - len head - len tail) ++ tail, s)
        end
    end.

(** The octets of the address. *)
Definition Ipv6Addr_from_str (s : list Z) : option (list Z) :=
  match read_ipv6_addr s with Some (groups, []) => Some (concat (map (to_be_bytes 2) groups)) | _ => None end.

(** Compressed, with an embedded IPv4 address, and in full. *)
Example ipv6_localhost : Ipv6Addr_from_str [58; 58; 49] = Some (zeros 15 ++ [1]).
Proof. reflexivity. Qed.
Example ipv6_embedded :
  Ipv6Addr_from_str [58; 58; 102; 102; 102; 102; 58; 49; 57; 50; 46; 48; 46; 50; 46; 49] = Some (zeros 10 ++ [255; 255; 192; 0; 2; 1]).
Proof. reflexivity. Qed.
Example ipv6_too_long : Ipv6Addr_from_str [49; 50; 51; 52; 53; 58; 58] = None.
Proof. reflexivity. Qed.

(** ** The status *)
Definition HYF_FIPS_CONTROL_MAX_RESPONSE_BYTES : Z := 4096.

Inductive FipsTunState := TunUnknown | TunDisabled | TunConfigured | TunActive | TunFailed.

Record FipsStatus := mk_fips_status {
  st_node_addr : list Z;
  st_ipv6_addr : list Z;
  st_tun_state : FipsTunState;
  st_effective_ipv6_mtu : option Z;
  st_peer_count : option Z;
}.

Definition from_control_str (value : list Z) : FipsTunState :=
  if bool_decide (value = str "disabled") then TunDisabled
  else if bool_decide (value = str "configured") then TunConfigured
  else if bool_decide (value = str "active") then TunActive
  else if bool_decide (value = str "failed") then TunFailed
  else TunUnknown.

(** [serde_json]: values, objects, and what the source asks of them. *)
Class ControlJson := {
  jvalue : Type;
  jobject : Type;
  json_from_str : list Z -> option jvalue;
  as_object : jvalue -> option jobject;
  as_str : jvalue -> option (list Z);
  as_u64 : jvalue -> option Z;
  is_null : jvalue -> bool;
  object_get : jobject -> list Z -> option jvalue;
}.
Class ControlJsonLaws (J : ControlJson) : Prop := as_u64_ok : forall v n, as_u64 v = Some n -> u64_ok n.

Section control.
Context {FH : FipsHash} {J : ControlJson}.

Definition required_str (object : jobject) (field : list Z) : outcome FipsError (list Z) :=
  ok_or (object_get object field ≫= as_str) MalformedControlStatus.

Definition optional_u16 (object : jobject) (field : list Z) : outcome FipsError (option Z) :=
  match object_get object field with
  | None => Ok None
  | Some value =>
      if is_null value then Ok None
      else match as_u64 value with
      | None => Err MalformedControlStatus
      | Some number => if number <? 2 ^ 16 then Ok (Some number) else Err MalformedControlStatus
      end
  end.

Definition decode_lower_nibble (byte : Z) : outcome FipsError Z :=
  if in_range 48 57 byte then Ok (byte - 48)
  else if in_range 97 102 byte then Ok (byte - 97 + 10)
  else Err MalformedControlStatus.

(** [for index in 0..16], with [left_] turns to go; the state is [out]. *)
Fixpoint node_addr_loop (bytes : list Z) (index : Z) (left_ : nat) : io (list Z) FipsError unit :=
  match left_ with
  | O => mret tt
  | S left_ =>
      b ← lift (Prelude.index bytes (index * 2));
      high ← lift (decode_lower_nibble b);
      b ← lift (Prelude.index bytes (index * 2 + 1));
      low ← lift (decode_lower_nibble b);
      _ ← poke index (Z.lor (Z.shiftl high 4) low);
      node_addr_loop bytes (index + 1) left_
  end.

Definition parse_node_addr (input : list Z) : outcome FipsError (list Z) :=
  _ ← guard_err (negb (len input =? 32)) MalformedControlStatus;
  let '(r, out) := node_addr_loop input 0 16 (zeros 16) in
  _ ← r;
  Ok out.

Definition parse_ipv6_addr (input : list Z) : outcome FipsError (list Z) := ok_or (Ipv6Addr_from_str input) MalformedControlStatus.

Definition parse_show_status_response (input : list Z) : outcome FipsError FipsStatus :=
  _ ← guard_err (len input >? HYF_FIPS_CONTROL_MAX_RESPONSE_BYTES) (ControlResponseTooLarge (len input) HYF_FIPS_CONTROL_MAX_RESPONSE_BYTES);
  _ ← guard_err (negb (utf8_ok input)) FipsUtf8;
  value ← ok_or (json_from_str input) MalformedControlStatus;
  envelope ← ok_or (as_object value) MalformedControlStatus;
  status ← required_str envelope (str "status");
  _ ← guard_err (negb (bool_decide (status = str "ok"))) MalformedControlStatus;
  data ← ok_or (object_get envelope (str "data") ≫= as_object) MalformedControlStatus;
  node_addr ← required_str data (str "node_addr");
  node_addr ← parse_node_addr node_addr;
  ipv6_addr ← required_str data (str "ipv6_addr");
  ipv6_addr ← parse_ipv6_addr ipv6_addr;
  expected ← derive_fips_ipv6_addr node_addr;
  _ ← guard_err (negb (bool_decide (ipv6_addr = expected))) MalformedControlStatus;
  tun_state ← required_str data (str "tun_state");
  effective_ipv6_mtu ← optional_u16 data (str "effective_ipv6_mtu");
  peer_count ← optional_u16 data (str "peer_count");
  Ok (mk_fips_status node_addr ipv6_addr (from_control_str tun_state) effective_ipv6_mtu peer_count).
End control.

(** ** Node addresses *)
Lemma decode_nibble_inv b : match decode_lower_nibble b with Ok n => 0 <= n < 16 /\ b = hex_digit n | Err e => e = MalformedControlStatus /\ is_lower_hex b = false | Panic => False end.
Proof.
  unfold decode_lower_nibble, is_lower_hex, hex_digit. rewrite !in_range_reflect. repeat case_bool_decide; [..|done]; (split; [lia|]); case_match eqn:E;
    rewrite ?Z.ltb_lt, ?Z.ltb_ge in E; lia.
Qed.

Lemma hex_byte_join h l : 0 <= h < 16 -> 0 <= l < 16 -> u8_ok (Z.lor (Z.shiftl h 4) l) /\ hex_byte (Z.lor (Z.shiftl h 4) l) = [hex_digit h; hex_digit l].
Proof.
  intros Hh Hl. assert (u8_ok (h * 16 + l)) as Hb by (unfold u8_ok; lia). pose proof (nibbles_join _ Hb) as Hj.
  assert ((h * 16 + l) / 16 = h /\ (h * 16 + l) mod 16 = l) as [Hd Hm] by (Z.to_euclidean_division_equations; lia). rewrite Hd, Hm in Hj. rewrite Hj.
  split; [done|]. unfold hex_byte. by rewrite Hd, Hm.
Qed.

(** The loop decodes pairs of digits until one is bad. *)
Lemma node_addr_loop_spec left_ : forall v pre before rest index,
  len v = 2 * Z.of_nat left_ -> len pre = 2 * index -> len before = index -> len rest = Z.of_nat left_ ->
  match node_addr_loop (pre ++ v) index left_ (before ++ rest) with
  | (Ok _, out) => exists l, bytes_ok l /\ v = hex_bytes l /\ out = before ++ l
  | (Err e, _) => e = MalformedControlStatus /\ ~ Forall (fun b => is_lower_hex b = true) v
  | (Panic, _) => False
  end.
Proof.
  induction left_ as [|left_ IH]; intros v pre before rest index Hv Hpre Hb Hr.
  - destruct v as [|? v]; [|rewrite len_cons in Hv; pose proof (len_nonneg v); lia]. destruct rest as [|? rest]; [|rewrite len_cons in Hr; pose proof (len_nonneg rest); lia]. exists []. split; [apply bytes_ok_nil|by rewrite app_nil_r].
  - destruct v as [|h [|l v]]; [rewrite len_nil in Hv; lia|rewrite len_cons, len_nil in Hv; lia|]. rewrite !len_cons in Hv.
    destruct rest as [|x rest]; [rewrite len_nil in Hr; lia|]. rewrite len_cons in Hr. cbn [node_addr_loop].
    replace (pre ++ h :: l :: v) with ((pre ++ [h; l]) ++ v) by (by rewrite <- app_assoc).
    assert (Prelude.index (E:=FipsError) ((pre ++ [h; l]) ++ v) (index * 2) = Ok h) as -> by (rewrite <- app_assoc; apply index_app; lia). rewrite lift_bind_ok.
    assert (Prelude.index (E:=FipsError) ((pre ++ [h; l]) ++ v) (index * 2 + 1) = Ok l) as H1.
    { change [h; l] with ([h] ++ [l]). rewrite (app_assoc pre), <- app_assoc. apply index_app. rewrite len_app, len_cons, len_nil. lia. }
    pose proof (decode_nibble_inv h) as Hh. destruct (decode_lower_nibble h) as [hn|e|]; [destruct Hh as [Hhn ->]| |done].
    2: { destruct Hh as [-> Hh]. split; [done|]. rewrite list.Forall_cons, Hh. by intros [? _]. }
    rewrite lift_bind_ok, H1, lift_bind_ok. pose proof (decode_nibble_inv l) as Hl. destruct (decode_lower_nibble l) as [ln|e|]; [destruct Hl as [Hln ->]| |done].
    2: { destruct Hl as [-> Hl]. split; [done|]. rewrite !list.Forall_cons, Hl. by intros (_ & ? & _). }
    destruct (hex_byte_join hn ln Hhn Hln) as [Hu8 Hhex]. set (b := Z.lor (Z.shiftl hn 4) ln) in *.
    rewrite lift_bind_ok, (io_bind_ok _ _ _ _ _ (poke_app before x rest b index ltac:(lia))).
    replace (before ++ b :: rest) with ((before ++ [b]) ++ rest) by (by rewrite <- app_assoc).
    specialize (IH v (pre ++ [hex_digit hn; hex_digit ln]) (before ++ [b]) rest (index + 1)). rewrite !len_app, !len_cons, !len_nil in IH.
    specialize (IH ltac:(lia) ltac:(lia) ltac:(lia) ltac:(lia)). destruct (node_addr_loop _ (index + 1) left_ _) as [[[]|e|] out]; [| |done].
    + destruct IH as (k & Hk & -> & ->). exists (b :: k). split; [by apply bytes_ok_cons|]. split; [|by rewrite <- app_assoc].
      change (hex_bytes (b :: k)) with (hex_byte b ++ hex_bytes k). by rewrite Hhex.
    + destruct IH as [-> IH]. split; [done|]. rewrite !list.Forall_cons. by intros (_ & _ & ?).
Qed.

Lemma parse_node_addr_spec s :
  match parse_node_addr s with
  | Ok l => array_ok 16 l /\ s = hex_bytes l
  | Err e => e = MalformedControlStatus /\ forall l, array_ok 16 l -> s <> hex_bytes l
  | Panic => False
  end.
Proof.
  unfold parse_node_addr. destruct (Z.eqb_spec (len s) 32) as [Hl|Hl]; cbn [negb guard_err mbind outcome_bind].
  2: { split; [done|]. intros l [H16 _] ->. rewrite hex_bytes_len in Hl. lia. }
  pose proof (node_addr_loop_spec 16 s [] [] (zeros 16) 0 ltac:(lia) eq_refl eq_refl eq_refl) as H. cbn [app] in H.
  destruct (node_addr_loop s 0 16 (zeros 16)) as [[[]|e|] out]; cbn [mbind outcome_bind]; [| |done].
  - destruct H as (l & Hb & -> & ->). split; [|done]. split; [|done]. rewrite hex_bytes_len in Hl. lia.
  - destruct H as [-> H]. split; [done|]. intros l [_ Hb] ->. apply H. by apply hex_bytes_lower.
Qed.

Lemma parse_node_addr_hex l : array_ok 16 l -> parse_node_addr (hex_bytes l) = Ok l.
Proof.
  intros Hl. pose proof (parse_node_addr_spec (hex_bytes l)) as H. destruct (parse_node_addr (hex_bytes l)) as [k|e|]; [|by destruct (proj2 H l Hl)|done].
  destruct H as [[_ Hk] H]. destruct Hl as [_ Hl]. f_equal. symmetry. by apply hex_bytes_inj.
Qed.

(** ** IPv6 text
    A group is written with one to four lower-case digits, with or without
    leading zeros; an address in full is eight groups and the colons between. *)
Definition digits_value (ns : list Z) : Z := fold_left (fun acc n => acc * 16 + n) ns 0.
Definition group_ok (ns : list Z) : Prop := 1 <= len ns <= 4 /\ Forall (fun n => 0 <= n < 16) ns.
Fixpoint ipv6_text (index : Z) (groups : list (list Z)) : list Z :=
  match groups with
  | [] => []
  | ns :: groups => (if index >? 0 then [58] else []) ++ map hex_digit ns ++ ipv6_text (index + 1) groups
  end.

Lemma to_digit_hex n : 0 <= n < 16 -> to_digit 16 (hex_digit n) = Some n.
Proof.
  intros Hn. unfold to_digit, hex_digit. rewrite !in_range_reflect. destruct (Z.ltb_spec n 10).
  - rewrite bool_decide_eq_true_2 by lia. replace (48 + n - 48) with n by lia. by destruct (Z.ltb_spec n 16); [|lia].
  - rewrite bool_decide_eq_false_2, bool_decide_eq_true_2 by lia. replace (87 + n - 87) with n by lia. by destruct (Z.ltb_spec n 16); [|lia].
Qed.

(** Where a number ends. *)
Definition stops (s : list Z) : Prop := match s with c :: _ => c = 58 | [] => True end.

Lemma read_digits_hex ns s result count :
  Forall (fun n => 0 <= n < 16) ns -> stops s -> count + len ns <= 4 ->
  read_digits 16 4 result count (map hex_digit ns ++ s) = Some (fold_left (fun acc n => acc * 16 + n) ns result, count + len ns, s).
Proof.
  intros Hns Hs. revert result count. induction Hns as [|n ns Hn _ IH]; intros result count Hl.
  - change (len []) with 0. rewrite Z.add_0_r. destruct s as [|c s]; [done|]. cbn in Hs. subst c. done.
  - rewrite len_cons in *. pose proof (len_nonneg ns). cbn [map app read_digits]. rewrite to_digit_hex by done. rewrite Z.gtb_ltb. destruct (Z.ltb_spec 4 (count + 1)); [lia|].
    rewrite IH by lia. cbn [fold_left]. do 2 f_equal. f_equal. lia.
Qed.

Lemma digits_value_bound ns acc : Forall (fun n => 0 <= n < 16) ns -> 0 <= acc ->
  0 <= fold_left (fun acc n => acc * 16 + n) ns acc < (acc + 1) * 16 ^ len ns.
Proof.
  intros Hns. revert acc. induction Hns as [|n ns Hn _ IH]; intros acc Ha; [change (16 ^ len []) with 1; cbn [fold_left]; lia|]. cbn [fold_left].
  specialize (IH (acc * 16 + n) ltac:(lia)). rewrite len_cons, Z.pow_add_r by (try lia; apply len_nonneg). pose proof (Z.pow_pos_nonneg 16 (len ns) ltac:(lia) (len_nonneg ns)). nia.
Qed.

Lemma read_group ns s : group_ok ns -> stops s -> read_number 16 4 65535 true (map hex_digit ns ++ s) = Some (digits_value ns, s).
Proof.
  intros [Hl Hns] Hs. unfold read_number. rewrite read_digits_hex by (done || lia). rewrite Z.add_0_l. destruct (Z.eqb_spec (len ns) 0); [lia|]. cbn [negb andb].
  pose proof (digits_value_bound ns 0 Hns ltac:(lia)) as Hb. pose proof (Z.pow_le_mono_r 16 (len ns) 4 ltac:(lia) ltac:(lia)) as Hp. rewrite Z.gtb_ltb.
  unfold digits_value. destruct (Z.ltb_spec 65535 (fold_left (fun acc n => acc * 16 + n) ns 0)); [lia|done].
Qed.

(** *** No dots, no IPv4 *)
Lemma read_digits_suffix radix m s : forall r c v k s', read_digits radix m r c s = Some (v, k, s') -> exists u, s = u ++ s'.
Proof.
  induction s as [|x s IH]; intros r c v k s'; cbn [read_digits]; [intros [= _ _ <-]; by exists []|].
  destruct (to_digit radix x); [|intros [= _ _ <-]; by exists []]. destruct (_ >? m); [done|]. intros (u & ->)%IH. by exists (x :: u).
Qed.
Lemma read_number_suffix radix m maximum zp s v s' : read_number radix m maximum zp s = Some (v, s') -> exists u, s = u ++ s'.
Proof.
  unfold read_number. destruct (read_digits radix m 0 0 s) as [[[r k] s'']|] eqn:H; [|done]. apply read_digits_suffix in H.
  destruct (k =? 0); [done|]. destruct (_ && _ && _); [done|]. destruct (_ >? maximum); [done|]. by intros [= _ <-].
Qed.
Lemma no_dots_no_ipv4 s : 46 ∉ s -> read_ipv4_addr s = None.
Proof.
  intros Hs. unfold read_ipv4_addr. cbn [read_ipv4_groups]. unfold read_separator at 1. cbn [Z.gtb Z.compare].
  destruct (read_number 10 3 255 false s) as [[v s']|] eqn:H; [|done]. apply read_number_suffix in H as [u ->].
  change (0 + 1) with 1. unfold read_separator at 1. cbn [Z.gtb Z.compare]. unfold read_given_char. destruct s' as [|c s']; [done|].
  destruct (Z.eqb_spec c 46) as [->|]; [|done]. destruct Hs. apply elem_of_app. right. apply list_elem_of_here.
Qed.

Lemma hex_digit_no_dot n : 0 <= n < 16 -> hex_digit n <> 46.
Proof. unfold hex_digit. destruct (n <? 10); lia. Qed.

Lemma ipv6_text_no_dot groups index : Forall group_ok groups -> 46 ∉ ipv6_text index groups.
Proof.
  intros Hg. revert index. induction Hg as [|ns groups [_ Hns] _ IH]; intros index; [apply not_elem_of_nil|]. cbn [ipv6_text].
  rewrite !not_elem_of_app. split; [destruct (index >? 0); [by intros [|?%not_elem_of_nil]%elem_of_cons|apply not_elem_of_nil]|]. split; [|apply IH].
  intros (n & Hn & Hin)%list_elem_of_fmap. rewrite list.Forall_forall in Hns. symmetry in Hn. by apply hex_digit_no_dot in Hn; [|apply Hns].
Qed.

Lemma read_group_separator index ns s : group_ok ns -> stops s ->
  read_separator 58 index (read_number 16 4 65535 true) ((if index >? 0 then [58] else []) ++ map hex_digit ns ++ s) = Some (digits_value ns, s).
Proof. intros Hg Hs. unfold read_separator. destruct (index >? 0); by apply read_group. Qed.

Lemma ipv6_text_stops groups index : 0 < index -> stops (ipv6_text index groups).
Proof. intros Hi. destruct groups as [|ns groups]; [done|]. cbn [ipv6_text]. rewrite Z.gtb_ltb. by destruct (Z.ltb_spec 0 index); [|lia]. Qed.

Lemma read_groups_text groups index : Forall group_ok groups -> 0 <= index ->
  read_groups index (length groups) (ipv6_text index groups) = (digits_value <$> groups, false, []).
Proof.
  intros Hg. revert index. induction Hg as [|ns groups Hns Hg IH]; intros index Hi; [done|]. cbn [length read_groups].
  assert (46 ∉ ipv6_text index (ns :: groups)) as Hdot by (by apply ipv6_text_no_dot; constructor).
  assert (read_separator 58 index read_ipv4_addr (ipv6_text index (ns :: groups)) = None) as Hv4.
  { unfold read_separator. cbn [ipv6_text] in *. destruct (index >? 0); [|by apply no_dots_no_ipv4]. apply no_dots_no_ipv4. cbn [app] in Hdot. by apply not_elem_of_cons in Hdot as [_ ?]. }
  rewrite Hv4. assert ((if (1 <=? length groups)%nat then (None : option (list Z * list Z)) else None) = None) as -> by (by destruct (1 <=? length groups)%nat).
  cbn [ipv6_text]. rewrite read_group_separator by (done || apply ipv6_text_stops; lia). rewrite IH by lia. done.
Qed.

(** An address in full is read. *)
Lemma ipv6_from_text groups : Forall group_ok groups -> len groups = 8 ->
  Ipv6Addr_from_str (ipv6_text 0 groups) = Some (concat (map (to_be_bytes 2) (digits_value <$> groups))).
Proof.
  intros Hg Hl. unfold Ipv6Addr_from_str, read_ipv6_addr. pose proof (read_groups_text groups 0 Hg ltac:(lia)) as H.
  replace (length groups) with 8%nat in H by (unfold len in Hl; lia). rewrite H, len_map, Hl. done.
Qed.

(** ** Claims *)
Section claims.
Context {J : ControlJson}.

Lemma optional_u16_spec `{!ControlJsonLaws J} object field :
  match optional_u16 object field with Ok m => match m with Some n => u16_ok n | None => True end | Err e => e = MalformedControlStatus | Panic => False end.
Proof.
  unfold optional_u16. destruct (object_get object field) as [value|]; [|done]. destruct (is_null value); [done|]. destruct (as_u64 value) as [n|] eqn:Hn; [|done].
  apply as_u64_ok in Hn as [Hn _]. destruct (Z.ltb_spec n (2 ^ 16)); [by split|done].
Qed.

(** C34. The answer of the daemon is untrusted: whatever the bytes, and whatever the
    JSON reader makes of them, reading them does not panic; what is accepted is
    a text of at most 4096 bytes whose addresses belong together - the IPv6
    address is the one derived from the node address - and whose numbers fit
    16 bits; what is refused is refused for its length, its encoding, or as
    malformed. *)
Theorem control_status_sound `{!ControlJsonLaws J} input :
  match parse_show_status_response input with
  | Ok st => len input <= HYF_FIPS_CONTROL_MAX_RESPONSE_BYTES /\ utf8_ok input = true /\
      array_ok 16 (st_node_addr st) /\ st_ipv6_addr st = ipv6_addr_of (st_node_addr st) /\
      (forall n, st_effective_ipv6_mtu st = Some n \/ st_peer_count st = Some n -> u16_ok n)
  | Err e => if HYF_FIPS_CONTROL_MAX_RESPONSE_BYTES <? len input
             then e = ControlResponseTooLarge (len input) HYF_FIPS_CONTROL_MAX_RESPONSE_BYTES
             else if utf8_ok input then e = MalformedControlStatus else e = FipsUtf8
  | Panic => False
  end.
Proof.
  unfold parse_show_status_response. rewrite Z.gtb_ltb. destruct (Z.ltb_spec HYF_FIPS_CONTROL_MAX_RESPONSE_BYTES (len input)) as [|Hlen]; [done|].
  cbn [guard_err mbind outcome_bind]. destruct (utf8_ok input) eqn:Hu; [|done]. cbn [negb guard_err mbind outcome_bind].
  destruct (json_from_str input) as [value|]; [|done]. cbn [ok_or mbind outcome_bind]. destruct (as_object value) as [envelope|]; [|done]. cbn [ok_or mbind outcome_bind].
  unfold required_str. destruct (object_get envelope (str "status") ≫= as_str) as [status|]; [|done]. cbn [ok_or mbind outcome_bind]. destruct (negb (bool_decide _)); [done|]. cbn [guard_err mbind outcome_bind].
  destruct (object_get envelope (str "data") ≫= as_object) as [data|]; [|done]. cbn [ok_or mbind outcome_bind].
  destruct (object_get data (str "node_addr") ≫= as_str) as [node|]; [|done]. cbn [ok_or mbind outcome_bind].
  pose proof (parse_node_addr_spec node) as Hnode. destruct (parse_node_addr node) as [node_addr|e|]; [|by destruct Hnode as [-> _]|done]. cbn [mbind outcome_bind]. destruct Hnode as [Hnode _].
  destruct (object_get data (str "ipv6_addr") ≫= as_str) as [ipv6|]; [|done]. cbn [ok_or mbind outcome_bind].
  unfold parse_ipv6_addr. destruct (Ipv6Addr_from_str ipv6) as [ipv6_addr|]; [|done]. cbn [ok_or mbind outcome_bind].
  rewrite derive_ipv6_addr_spec by apply Hnode. cbn [mbind outcome_bind]. case_bool_decide as Hd; [|done]. cbn [negb guard_err mbind outcome_bind].
  destruct (object_get data (str "tun_state") ≫= as_str) as [tun|]; [|done]. cbn [ok_or mbind outcome_bind].
  pose proof (optional_u16_spec data (str "effective_ipv6_mtu")) as Hm. destruct (optional_u16 data (str "effective_ipv6_mtu")) as [mtu|e|]; [|by rewrite Hm|done]. cbn [mbind outcome_bind].
  pose proof (optional_u16_spec data (str "peer_count")) as Hp. destruct (optional_u16 data (str "peer_count")) as [peers|e|]; [|by rewrite Hp|done]. cbn [mbind outcome_bind].
  cbn. split_and!; try done. by intros n [->| ->].
Qed.

(** A field that holds a text. *)
Definition text_field (object : jobject) (field : string) (text : list Z) : Prop := object_get object (str field) ≫= as_str = Some text.

(** An answer that says what the daemon knows is understood: with the node
    address in lower-case digits and the address derived from it written in
    full - eight groups, with or without leading zeros - the status has these
    addresses, the state that is named ("unknown" if it is not one of the four)
    and the numbers, if they are given. *)
Theorem control_status_accepts input value envelope data node_addr groups tun mtu peers :
  len input <= HYF_FIPS_CONTROL_MAX_RESPONSE_BYTES -> utf8_ok input = true ->
  json_from_str input = Some value -> as_object value = Some envelope ->
  text_field envelope "status" (str "ok") -> object_get envelope (str "data") ≫= as_object = Some data ->
  array_ok 16 node_addr -> text_field data "node_addr" (hex_bytes node_addr) ->
  Forall group_ok groups -> len groups = 8 -> concat (map (to_be_bytes 2) (digits_value <$> groups)) = ipv6_addr_of node_addr ->
  text_field data "ipv6_addr" (ipv6_text 0 groups) -> text_field data "tun_state" tun ->
  optional_u16 data (str "effective_ipv6_mtu") = Ok mtu -> optional_u16 data (str "peer_count") = Ok peers ->
  parse_show_status_response input = Ok (mk_fips_status node_addr (ipv6_addr_of node_addr) (from_control_str tun) mtu peers).
Proof.
  unfold text_field. intros Hl Hu Hv He Hs Hd Hn Hnode Hg Hg8 Hgv Hipv6 Htun Hm Hp. unfold parse_show_status_response, required_str. rewrite Z.gtb_ltb.
  destruct (Z.ltb_spec HYF_FIPS_CONTROL_MAX_RESPONSE_BYTES (len input)); [lia|]. cbn [guard_err mbind outcome_bind]. rewrite Hu, Hv. cbn [negb guard_err ok_or mbind outcome_bind].
  rewrite He. cbn [ok_or mbind outcome_bind]. rewrite Hs. cbn [ok_or mbind outcome_bind]. rewrite bool_decide_eq_true_2 by done. cbn [negb guard_err mbind outcome_bind].
  rewrite Hd. cbn [ok_or mbind outcome_bind]. rewrite Hnode. cbn [ok_or mbind outcome_bind]. rewrite parse_node_addr_hex by done. cbn [mbind outcome_bind]. rewrite Hipv6. cbn [ok_or mbind outcome_bind].
  unfold parse_ipv6_addr. rewrite ipv6_from_text, Hgv by done. cbn [ok_or mbind outcome_bind]. rewrite derive_ipv6_addr_spec by apply Hn. cbn [mbind outcome_bind].
  rewrite bool_decide_eq_true_2 by done. cbn [negb guard_err mbind outcome_bind]. rewrite Htun. cbn [ok_or mbind outcome_bind]. by rewrite Hm, Hp.
Qed.
End claims.

(** ** Witnesses *)
(** A reader that knows one answer: values are objects, texts, numbers and null. *)
Inductive toy_value := ToyObject (fields : list (list Z * toy_value)) | ToyText (s : list Z) | ToyNumber (n : Z) | ToyNull.
Fixpoint toy_get (fields : list (list Z * toy_value)) (field : list Z) : option toy_value :=
  match fields with [] => None | (k, v) :: fields => if bool_decide (k = field) then Some v else toy_get fields field end.

Definition sample_node_addr : list Z := [27; 71; 136; 183; 171; 122; 67; 106; 97; 31; 197; 159; 177; 227; 76; 110].
(** fd1b:4788:b7ab:7a43:6a61:1fc5:9fb1:e34c *)
Definition sample_groups : list (list Z) :=
  [[15; 13; 1; 11]; [4; 7; 8; 8]; [11; 7; 10; 11]; [7; 10; 4; 3]; [6; 10; 6; 1]; [1; 15; 12; 5]; [9; 15; 11; 1]; [14; 3; 4; 12]].
Definition sample_data : list (list Z * toy_value) :=
  [(str "node_addr", ToyText (hex_bytes sample_node_addr)); (str "ipv6_addr", ToyText (ipv6_text 0 sample_groups));
   (str "tun_state", ToyText (str "warming")); (str "effective_ipv6_mtu", ToyNumber 1203); (str "peer_count", ToyNull)].
Definition toy_json : ControlJson := {|
  jvalue := toy_value;
  jobject := list (list Z * toy_value);
  json_from_str s := if bool_decide (s = [123; 125])
    then Some (ToyObject [(str "status", ToyText (str "ok")); (str "data", ToyObject sample_data)]) else None;
  as_object v := match v with ToyObject fields => Some fields | _ => None end;
  as_str v := match v with ToyText s => Some s | _ => None end;
  as_u64 v := match v with ToyNumber n => if (0 <=? n) && (n <? 2 ^ 64) then Some n else None | _ => None end;
  is_null v := match v with ToyNull => true | _ => false end;
  object_get := toy_get;
|}.

Lemma toy_json_laws : ControlJsonLaws toy_json.
Proof.
  intros v n Hn. destruct v as [| |m|]; [discriminate..| |discriminate]. change ((if (0 <=? m) && (m <? 2 ^ 64) then Some m else None) = Some n) in Hn.
  destruct ((0 <=? m) && (m <? 2 ^ 64)) eqn:E; [|discriminate]. injection Hn as <-. apply andb_true_iff in E as [H1%Z.leb_le H2%Z.ltb_lt]. by split.
Qed.

Lemma control_status_sound_witness :
  exists st, parse_show_status_response (J:=toy_json) [123; 125] = Ok st /\
    array_ok 16 (st_node_addr st) /\ st_ipv6_addr st = ipv6_addr_of (st_node_addr st).
Proof.
  pose proof (control_status_sound (J:=toy_json) (ControlJsonLaws0:=toy_json_laws) [123; 125]) as H.
  destruct (parse_show_status_response (J:=toy_json) [123; 125]) as [st|e|] eqn:Hp; [|vm_compute in Hp; discriminate..].
  exists st. destruct H as (_ & _ & Hn & Hi & _). split; [reflexivity|]. split; [exact Hn | exact Hi].
Defined.

Lemma control_status_accepts_witness :
  parse_show_status_response (J:=toy_json) [123; 125] =
    Ok (mk_fips_status sample_node_addr (0xfd :: take 15 sample_node_addr) TunUnknown (Some 1203) None).
Proof.
  apply (control_status_accepts (J:=toy_json) [123; 125] (ToyObject [(str "status", ToyText (str "ok")); (str "data", ToyObject sample_data)])
    [(str "status", ToyText (str "ok")); (str "data", ToyObject sample_data)] sample_data sample_node_addr sample_groups (str "warming") (Some 1203) None).
  all: try (vm_compute; reflexivity).
  - vm_compute; discriminate.
  - split; [vm_compute; reflexivity|]. apply (bool_decide_unpack _); vm_compute; exact I.
  - repeat (apply list.Forall_cons_2 || apply list.Forall_nil_2); (split; [split; vm_compute; discriminate|]);
      repeat (apply list.Forall_cons_2 || apply list.Forall_nil_2); lia.
Defined.
