(* ===== verification/Link.v ===== *)
(** [hyf_link]: link identities, classes, frames and commands, the recoverable
    error kinds, and the [LinkDriver] trait (src/crates/hyf_link/src/link.rs,
    frame.rs, driver.rs, error.rs).

    The trait is a type class.  The loopback endpoint of [Loopback] is the
    instance the runtime of [Gateway] drives; the gateway itself is proved
    against the narrower interface of its link executor. *)
From S2P Require Import Prelude.

(** [LinkId(pub [u8; 16])] *)
Definition link_id_ok (id : list Z) : Prop := array_ok 16 id.

Inductive LinkClass := RawLora | RNodeKiss | Serial | Wifi | Ble | Nostr | Fips | Loopback.
#[export] Instance LinkClass_eq_dec : EqDecision LinkClass.
Proof. solve_decision. Defined.

Inductive LinkError := FrameTooLarge (actual mtu : Z).

Record LinkFrameRef := mk_frame {
  lf_link_id : list Z;
  lf_received_at_ms : Z;
  lf_bytes : list Z;
}.

Inductive LinkEvent :=
| Frame (f : LinkFrameRef)
| Up (link_id : list Z)
| Down (link_id : list Z).

Inductive LinkCommand := Send (link_id : list Z) (bytes : list Z).

Definition command_link_id (c : LinkCommand) : list Z := match c with Send link_id _ => link_id end.
Definition command_bytes (c : LinkCommand) : list Z := match c with Send _ bytes => bytes end.

Definition validate_frame_mtu (bytes : list Z) (mtu : Z) : outcome LinkError unit :=
  if len bytes >? mtu then Err (FrameTooLarge (len bytes) mtu) else Ok tt.

(** ** Drivers *)
Inductive LinkDriverErrorKind :=
| LinkDown | Backpressure | TransientSend | TransientReceive | OutputTooSmall
| DriverFrameTooLarge | Protocol | Unsupported | Fatal.
#[export] Instance LinkDriverErrorKind_eq_dec : EqDecision LinkDriverErrorKind.
Proof. solve_decision. Defined.

Definition is_recoverable (k : LinkDriverErrorKind) : bool :=
  match k with
  | LinkDown | Backpressure | TransientSend | TransientReceive | OutputTooSmall => true
  | _ => false
  end.

Definition is_recoverable_send_failure (k : LinkDriverErrorKind) : bool :=
  match k with LinkDown | Backpressure | TransientSend => true | _ => false end.

(** [trait LinkDriver] for drivers of state [D] whose errors [E] implement
    [LinkDriverError]; [poll_frame] also owns the output buffer. *)
Class LinkDriver (D E : Type) := {
  driver_link_id : D -> list Z;
  driver_link_class : D -> LinkClass;
  driver_mtu : D -> Z;
  driver_is_up : D -> bool;
  send_bytes : list Z -> Z -> io D E unit;
  poll_frame : Z -> io (D * list Z) E (option LinkFrameRef);
  driver_error_kind : E -> LinkDriverErrorKind;
}.

(** Every failure the gateway retries is one it also survives. *)
Lemma recoverable_send_is_recoverable k :
  is_recoverable_send_failure k = true -> is_recoverable k = true.
Proof. by destruct k. Qed.

Lemma validate_frame_mtu_ok bytes mtu : validate_frame_mtu bytes mtu = Ok tt <-> len bytes <= mtu.
Proof.
  unfold validate_frame_mtu. rewrite Z.gtb_ltb.
  destruct (Z.ltb_spec mtu (len bytes)); split; try done; lia.
Qed.
