(* ===== verification/Ring.v ===== *)
(** Bounded windows of recently seen keys.

    The router and the bridge runtime each keep the keys they saw last in an
    array of [N] optional keys and a cursor to the slot the next key
    overwrites.  This file has what the two share: the abstraction of such an
    array as the list of its keys, newest first, and the proof that
    overwriting at the cursor pushes on that list and forgets the oldest key. *)
From S2P Require Import Prelude.

Section ring.
Context {K : Type} `{!EqDecision K}.
Implicit Types (slots : list (option K)) (win : list K).

(** [slots.iter().any(|slot| slot.is_some_and(|existing| existing == key))] *)
Definition ring_contains slots (key : K) : bool :=
  existsb (fun slot => match slot with Some existing => bool_decide (existing = key) | None => false end) slots.

(** [slots[next] = Some(key); next = (next + 1) % N] *)
Definition ring_push {E} (N : Z) slots (next : Z) (key : K) : outcome E (list (option K) * Z) :=
  slots' ← set_at slots next (Some key);
  Ok (slots', (next + 1) mod N).

(** The array read from the cursor on: the free slots, then the keys from the
    oldest to the newest; while there are free slots the cursor is the number
    of keys. *)
Record ring_shape (N : Z) slots (next : Z) win : Prop := {
  rs_len : len slots = N;
  rs_next : 0 <= next < Z.max 1 N;
  rs_window : len win <= N;
  rs_partial : len win < N -> next = len win;
  rs_rotation : drop (Z.to_nat next) slots ++ take (Z.to_nat next) slots =
    replicate (Z.to_nat (N - len win)) None ++ (Some <$> reverse win);
}.

Lemma ring_shape_empty N : 0 <= N -> ring_shape N (replicate (Z.to_nat N) None) 0 [].
Proof.
  intros HN. assert (len (@nil K) = 0) as Hnil by done. split.
  - rewrite len_replicate. lia.
  - lia.
  - lia.
  - done.
  - rewrite Hnil, Z.sub_0_r. by rewrite !app_nil_r.
Qed.

Lemma ring_contains_spec N slots next win key :
  ring_shape N slots next win -> ring_contains slots key = bool_decide (key ∈ win).
Proof.
  intros [_ _ _ _ Hrot]. apply eq_iff_eq_true. unfold ring_contains. rewrite existsb_exists, bool_decide_eq_true.
  assert (forall o, o ∈ slots <-> o ∈ drop (Z.to_nat next) slots ++ take (Z.to_nat next) slots) as Hin.
  { intros o. rewrite <- (take_drop (Z.to_nat next) slots) at 1. rewrite !elem_of_app. naive_solver. }
  rewrite Hrot in Hin. split.
  - intros ([k|] & Hk & Hb); [|done]. apply bool_decide_eq_true in Hb as ->.
    apply list_elem_of_In, Hin, elem_of_app in Hk as [Hk|Hk].
    + apply elem_of_replicate in Hk as [? _]. done.
    + apply list_elem_of_fmap in Hk as (k' & Heq & Hk'). simplify_eq. by apply elem_of_reverse.
  - intros Hk. exists (Some key). split; [|by apply bool_decide_eq_true].
    apply list_elem_of_In, Hin, elem_of_app. right. apply list_elem_of_fmap_2. by apply elem_of_reverse.
Qed.

Lemma ring_push_shape {E} N slots next win key :
  0 < N -> ring_shape N slots next win ->
  exists slots' next', ring_push (E:=E) N slots next key = Ok (slots', next') /\
    ring_shape N slots' next' (take (Z.to_nat N) (key :: win)).
Proof.
  intros HN [Hlen Hnext Hwin Hpart Hrot]. unfold ring_push.
  rewrite set_at_ok by lia. cbn [mbind outcome_bind]. do 2 eexists. split; [done|].
  set (n := Z.to_nat next) in *. assert (n < length slots)%nat as Hn by (unfold len in Hlen; lia).
  destruct (lookup_lt_is_Some_2 slots n Hn) as [o Ho].
  pose proof (len_nonneg win).
  rewrite (drop_S _ _ _ Ho) in Hrot. set (t := drop (S n) slots ++ take n slots).
  assert (replicate (Z.to_nat (N - len win)) None ++ (Some <$> reverse win) = o :: t) as Hrot'
    by (rewrite <- Hrot; done).
  (* the rotation after the push: the oldest slot is gone, the key is last *)
  assert (t ++ [Some key] =
    replicate (Z.to_nat (N - len (take (Z.to_nat N) (key :: win)))) None
    ++ (Some <$> reverse (take (Z.to_nat N) (key :: win)))) as Hnew.
  { replace (Z.to_nat N) with (S (Z.to_nat (N - 1))) by lia. cbn [take].
    rewrite reverse_cons, fmap_app, app_assoc, len_cons. cbn. f_equal.
    destruct (decide (len win < N)) as [Hlt|Hge].
    - rewrite take_ge by (unfold len in *; lia).
      replace (Z.to_nat (N - len win)) with (S (Z.to_nat (N - (1 + len win)))) in Hrot' by lia.
      by injection Hrot' as _ <-.
    - replace (Z.to_nat (N - len win)) with O in Hrot' by lia. simpl in Hrot'.
      destruct win as [|k0 win0 _] using rev_ind; [rewrite len_nil in *; lia|].
      rewrite reverse_app in Hrot'. simpl in Hrot'. injection Hrot' as _ <-.
      rewrite len_app in *. change (len [k0]) with 1 in *.
      rewrite take_app_le by (unfold len in *; lia). rewrite take_ge by (unfold len in *; lia).
      replace (Z.to_nat (N - (1 + len win0))) with O by lia. done. }
  assert (len (take (Z.to_nat N) (key :: win)) = Z.min N (1 + len win)) as Hlw.
  { rewrite len_take, len_cons. lia. }
  split.
  - by rewrite len_insert.
  - rewrite Z.max_r by lia. apply Z.mod_pos_bound. lia.
  - lia.
  - intros Hlt. rewrite Hlw in *. rewrite Hpart by lia. rewrite Z.mod_small by lia. lia.
  - rewrite <- Hnew. destruct (decide (next + 1 < N)) as [Hlt|Hge].
    + rewrite Z.mod_small by lia. replace (Z.to_nat (next + 1)) with (S n) by lia.
      rewrite drop_insert_lt by lia.
      rewrite (take_S_r _ _ (Some key)) by (apply list_lookup_insert_eq; lia).
      rewrite take_insert_ge by lia. unfold t. by rewrite app_assoc.
    + assert (next + 1 = N) as Heq by lia. rewrite Heq, Z.mod_same by lia. simpl.
      rewrite drop_0, app_nil_r. rewrite insert_take_drop by done.
      assert (drop (S n) slots = []) as Hd by (apply drop_ge; unfold len in *; lia).
      unfold t. by rewrite Hd.
Qed.

(** While there is a free slot, the first one is at the cursor. *)
Lemma ring_first_free N slots next win :
  ring_shape N slots next win -> len win < N -> position_none slots = Some next.
Proof.
  intros [Hlen Hnext Hwin Hpart Hrot] Hlt. pose proof (len_nonneg win). specialize (Hpart Hlt).
  assert (drop (Z.to_nat next) slots = replicate (Z.to_nat (N - len win)) None /\
    take (Z.to_nat next) slots = Some <$> reverse win) as [Hd Ht].
  { apply app_inv_len; [done|]. rewrite len_drop, len_replicate. lia. }
  rewrite <- (take_drop (Z.to_nat next) slots), Hd, Ht, Hpart.
  replace (Z.to_nat (N - len win)) with (S (Z.to_nat (N - len win - 1))) by lia.
  assert (len (reverse win) = len win) as <- by (unfold len; by rewrite length_reverse).
  generalize (reverse win) as l. intros l. unfold position_none. simpl replicate.
  generalize (replicate (Z.to_nat (N - len l - 1)) (@None K)) as t. intros t.
  replace (len l) with (0 + len l) by lia. generalize 0 as k.
  induction l as [|x l IH]; intros k; simpl; [by rewrite len_nil, Z.add_0_r|].
  rewrite IH, len_cons. f_equal. lia.
Qed.

Lemma ring_full N slots next win :
  ring_shape N slots next win -> len win = N -> position_none slots = None.
Proof.
  intros [Hlen Hnext Hwin Hpart Hrot] Heq. replace (Z.to_nat (N - len win)) with O in Hrot by lia.
  pose proof (position_none_spec slots) as Hs. destruct (position_none slots) as [i|]; [|done].
  destruct Hs as (_ & Hi & _). assert (None ∈ slots) as Hin by (by eapply list_elem_of_lookup_2).
  rewrite <- (take_drop (Z.to_nat next) slots), elem_of_app in Hin.
  assert (None ∈ drop (Z.to_nat next) slots ++ take (Z.to_nat next) slots) as Hin'
    by (rewrite elem_of_app; tauto).
  rewrite Hrot in Hin'. simpl in Hin'. apply list_elem_of_fmap in Hin' as (x & ? & _). done.
Qed.
End ring.
