(* ===== verification/BridgeRuntime.v ===== *)
(** [hyf_bridge_runtime]: the bridge between HYF and the foreign networks
    (src/crates/hyf_bridge_runtime/src/dedupe.rs, policy.rs, types.rs,
    command.rs, error.rs, orchestrator.rs).

    A message that comes in from BitChat, LXMF or Nostr is turned into a bridge
    message, checked against the window of the keys seen last ([Ring]), wrapped
    in an HYF envelope and converted for every network that the route policy
    selects; what leaves are commands to the caller.  The converters are
    [BridgeBitchat], [BridgeLxmf] and [BridgeNostr]. *)
From S2P Require Import Prelude Utf8 Cursor Core Wire Carrier NostrHex NostrJson Nostr Bitchat Msgpack Lxmf BridgeCore BridgeBitchat BridgeLxmf BridgeNostr Ring.
From stdpp Require Import strings sets.

Open Scope Z_scope.

Inductive BridgeRuntimeError :=
| RuntimeBitchat (error : BitchatBridgeError)
| RuntimeBridge (error : BridgeError)
| DedupeCapacityZero
| RuntimeLxmf (error : LxmfBridgeError)
| RuntimeNostr (error : NostrBridgeError)
| RuntimeOutputTooSmall (actual required : Z).

(** ** Keys seen *)
Record BridgeDedupeSet := mk_dedupe { dd_keys : list (option BridgeMessageKey); dd_next_index : Z; dd_len : Z }.

Definition BridgeDedupeSet_new (N : Z) : BridgeDedupeSet := mk_dedupe (replicate (Z.to_nat N) None) 0 0.
Definition BridgeDedupeSet_contains (s : BridgeDedupeSet) (key : BridgeMessageKey) : bool := ring_contains (dd_keys s) key.
Definition BridgeDedupeSet_is_empty (s : BridgeDedupeSet) : bool := dd_len s =? 0.

Definition BridgeDedupeSet_insert (N : Z) (key : BridgeMessageKey) : io BridgeDedupeSet BridgeRuntimeError bool :=
  s ← get;
  if BridgeDedupeSet_contains s key then mret false
  else if N =? 0 then lift (Err DedupeCapacityZero)
  else
    pushed ← lift (ring_push N (dd_keys s) (dd_next_index s) key);
    _ ← put (mk_dedupe (fst pushed) (snd pushed) (if dd_len s <? N then dd_len s + 1 else dd_len s));
    mret true.

(** ** Routes *)
Record BridgeOrigin := mk_origin { bo_protocol : BridgeProtocol; bo_endpoint_hash : list Z }.

Record BridgeRoutePolicy := mk_policy { allow_echo : bool; egress_protocols : list (option BridgeProtocol) }.
Definition BridgeRoutePolicy_no_echo (egress_protocols : list (option BridgeProtocol)) : BridgeRoutePolicy :=
  mk_policy false egress_protocols.
Definition BridgeRoutePolicy_default (MAX_EGRESS : Z) : BridgeRoutePolicy :=
  mk_policy false (replicate (Z.to_nat MAX_EGRESS) None).

Definition protocol_is_blocked (p : BridgeRoutePolicy) (origin : BridgeOrigin) (protocol : BridgeProtocol) : bool :=
  negb (allow_echo p) && bool_decide (bo_protocol origin = protocol).

Definition protocol_index (protocol : BridgeProtocol) : Z :=
  match protocol with Hyf => 0 | PBitChat => 1 | PLxmf => 2 | PNostr => 3 end.

Definition mark_seen (protocol : BridgeProtocol) : io (list bool) BridgeRuntimeError bool :=
  let index := protocol_index protocol in
  seen ← get;
  was_seen ← lift (Prelude.index seen index);
  _ ← poke index true;
  mret was_seen.

(** [self.protocol_is_blocked(origin, protocol) || mark_seen(&mut selected, protocol)] *)
Definition skips (p : BridgeRoutePolicy) (origin : BridgeOrigin) (protocol : BridgeProtocol)
  : io (list bool) BridgeRuntimeError bool :=
  if protocol_is_blocked p origin protocol then mret true else mark_seen protocol.

Fixpoint count_loop (p : BridgeRoutePolicy) (origin : BridgeOrigin) (protocols : list BridgeProtocol) (count : Z)
  : io (list bool) BridgeRuntimeError Z :=
  match protocols with
  | [] => mret count
  | protocol :: protocols =>
      skip ← skips p origin protocol;
      count_loop p origin protocols (if skip : bool then count else count + 1)
  end.

Definition selected_egress_count (p : BridgeRoutePolicy) (origin : BridgeOrigin) : outcome BridgeRuntimeError Z :=
  fst (count_loop p origin (occupied (egress_protocols p)) 0 (replicate 4 false)).

Fixpoint select_loop (p : BridgeRoutePolicy) (origin : BridgeOrigin) (protocols : list BridgeProtocol) (count : Z)
  : io (list bool * list BridgeProtocol) BridgeRuntimeError Z :=
  match protocols with
  | [] => mret count
  | protocol :: protocols =>
      skip ← focus fst (fun seen s => (seen, snd s)) (skips p origin protocol);
      if skip : bool then select_loop p origin protocols count
      else
        _ ← focus snd (fun output s => (fst s, output)) (poke count protocol);
        select_loop p origin protocols (count + 1)
  end.

Definition select_egress (p : BridgeRoutePolicy) (origin : BridgeOrigin) : io (list BridgeProtocol) BridgeRuntimeError Z :=
  required ← lift (selected_egress_count p origin);
  output ← get;
  _ ← lift (guard_err (len output <? required) (RuntimeOutputTooSmall (len output) required));
  with_local (replicate 4 false) (select_loop p origin (occupied (egress_protocols p)) 0).

(** ** Commands *)
Inductive BridgeDropReason := Duplicate | LoopPrevented | UnsupportedProfile | DropOutputTooSmall | MalformedInput.

Inductive BridgeRuntimeCommand :=
| EmitHyfEnvelope (envelope : HyfEnvelopeRef)
| EmitBitChatPacket (packet : list Z)
| EmitLxmfMessage (message : list Z)
| EmitNostrEvent (event : list Z)
| Drop (key : BridgeMessageKey) (reason : BridgeDropReason).

Definition ensure_command_capacity (commands : list BridgeRuntimeCommand) (required : Z) : outcome BridgeRuntimeError unit :=
  guard_err (len commands <? required) (RuntimeOutputTooSmall (len commands) required).

Definition unsupported_profile_drop (key : BridgeMessageKey) : BridgeRuntimeCommand := Drop key UnsupportedProfile.

Definition endpoint_hash (origin_protocol : BridgeProtocol) (message : BridgeMessageRef) : outcome BridgeRuntimeError (list Z) :=
  let expected_network :=
    match origin_protocol with PBitChat => Some BitChat | PLxmf => Some Lxmf | PNostr => Some Nostr | Hyf => None end in
  match expected_network with
  | Some network =>
      if bool_decide (author_kind (bm_author message) = BridgeForeign network) then
        let n := Z.min (len (author_id (bm_author message))) 32 in
        id ← slice (author_id (bm_author message)) 0 n;
        write_at (zeros 32) 0 id
      else Ok (zeros 32)
  | None => Ok (zeros 32)
  end.

(** ** The orchestrator *)
Record BridgeRuntimeScratch := mk_runtime_scratch {
  rs_bridge_message : list Z;
  rs_bitchat_packet : list Z;
  rs_lxmf_message : list Z;
  rs_nostr_event : NostrBridgeEventScratch;
  rs_nostr_event_json : list Z;
}.

Definition BridgeRuntimeScratch_new : BridgeRuntimeScratch :=
  mk_runtime_scratch (zeros HYF_BRIDGE_MESSAGE_MAX_LEN) (zeros BITCHAT_BRIDGE_PACKET_MAX_LEN)
    (zeros LXMF_BRIDGE_MESSAGE_MAX_LEN) NostrBridgeEventScratch_new (zeros HYF_NOSTR_BRIDGE_EVENT_JSON_MAX_LEN).

Inductive EgressPlan := PlanBitChat (n : Z) | PlanLxmf (n : Z) | PlanNostr (n : Z) | PlanUnsupported.

Record BridgeRuntimeEgressParams := mk_egress {
  ep_bitchat : option BitchatBridgeEgressParams;
  ep_lxmf : option LxmfBridgeEgressParams;
  ep_nostr : option NostrBridgeEgressParams;
}.
Record BridgeRuntimeDispatchParams := mk_dispatch_params { dp_wrap : BridgeWrapParams; dp_egress : BridgeRuntimeEgressParams }.

Record BridgeOrchestrator := mk_orchestrator { or_dedupe : BridgeDedupeSet; or_route_policy : BridgeRoutePolicy }.
Definition BridgeOrchestrator_new (N : Z) (route_policy : BridgeRoutePolicy) : BridgeOrchestrator :=
  mk_orchestrator (BridgeDedupeSet_new N) route_policy.

(** What the three mutable arguments of an ingest refer to. *)
Record dispatch := mk_dispatch {
  d_dedupe : BridgeDedupeSet;
  d_scratch : BridgeRuntimeScratch;
  d_commands : list BridgeRuntimeCommand;
}.

Definition on_dedupe {A} (m : io BridgeDedupeSet BridgeRuntimeError A) : io dispatch BridgeRuntimeError A :=
  focus d_dedupe (fun x s => mk_dispatch x (d_scratch s) (d_commands s)) m.
Definition on_commands {A} (m : io (list BridgeRuntimeCommand) BridgeRuntimeError A) : io dispatch BridgeRuntimeError A :=
  focus d_commands (fun x s => mk_dispatch (d_dedupe s) (d_scratch s) x) m.
Definition on_scratch {A} (m : io BridgeRuntimeScratch BridgeRuntimeError A) : io dispatch BridgeRuntimeError A :=
  focus d_scratch (fun x s => mk_dispatch (d_dedupe s) x (d_commands s)) m.

Definition on_bridge_message {A} : io (list Z) BridgeRuntimeError A -> io BridgeRuntimeScratch BridgeRuntimeError A :=
  focus rs_bridge_message (fun x s => mk_runtime_scratch x (rs_bitchat_packet s) (rs_lxmf_message s) (rs_nostr_event s) (rs_nostr_event_json s)).
Definition on_bitchat_packet {A} : io (list Z) BridgeRuntimeError A -> io BridgeRuntimeScratch BridgeRuntimeError A :=
  focus rs_bitchat_packet (fun x s => mk_runtime_scratch (rs_bridge_message s) x (rs_lxmf_message s) (rs_nostr_event s) (rs_nostr_event_json s)).
Definition on_lxmf_message {A} : io (list Z) BridgeRuntimeError A -> io BridgeRuntimeScratch BridgeRuntimeError A :=
  focus rs_lxmf_message (fun x s => mk_runtime_scratch (rs_bridge_message s) (rs_bitchat_packet s) x (rs_nostr_event s) (rs_nostr_event_json s)).
Definition on_nostr_event {A} : io (NostrBridgeEventScratch * list Z) BridgeRuntimeError A -> io BridgeRuntimeScratch BridgeRuntimeError A :=
  focus (fun s => (rs_nostr_event s, rs_nostr_event_json s))
    (fun x s => mk_runtime_scratch (rs_bridge_message s) (rs_bitchat_packet s) (rs_lxmf_message s) (fst x) (snd x)).

Section orchestrator.
Context {P : NostrPrims}.
Context (DEDUPE_CAPACITY MAX_EGRESS : Z).

Definition plan_egress (protocol : BridgeProtocol) (raw_bridge : list Z) (egress : BridgeRuntimeEgressParams)
  : io BridgeRuntimeScratch BridgeRuntimeError EgressPlan :=
  match protocol with
  | PBitChat =>
      match ep_bitchat egress with
      | Some egress =>
          message ← lift (map_err RuntimeBridge (decode_bridge_message raw_bridge));
          n ← on_bitchat_packet (io_map_err RuntimeBitchat (bridge_message_to_bitchat_packet_v2 message egress));
          mret (PlanBitChat n)
      | None => mret PlanUnsupported
      end
  | PLxmf =>
      match ep_lxmf egress with
      | Some egress =>
          message ← lift (map_err RuntimeBridge (decode_bridge_message raw_bridge));
          n ← on_lxmf_message (io_map_err RuntimeLxmf (bridge_message_to_lxmf_message_fixture message egress));
          mret (PlanLxmf n)
      | None => mret PlanUnsupported
      end
  | PNostr =>
      match ep_nostr egress with
      | Some egress =>
          n ← on_nostr_event (io_map_err RuntimeNostr (bridge_message_to_nostr_event_json raw_bridge egress));
          mret (PlanNostr n)
      | None => mret PlanUnsupported
      end
  | Hyf => mret PlanUnsupported
  end.

(** [for (index, protocol) in selected[..selected_count].iter().enumerate()] *)
Fixpoint plan_loop (index : Z) (protocols : list BridgeProtocol) (raw_bridge : list Z) (egress : BridgeRuntimeEgressParams)
    (plans : list EgressPlan) : io BridgeRuntimeScratch BridgeRuntimeError (list EgressPlan) :=
  match protocols with
  | [] => mret plans
  | protocol :: protocols =>
      plan ← plan_egress protocol raw_bridge egress;
      plans ← lift (set_at plans index plan);
      plan_loop (index + 1) protocols raw_bridge egress plans
  end.

Definition plan_command (key : BridgeMessageKey) (s : BridgeRuntimeScratch) (plan : EgressPlan) : outcome BridgeRuntimeError BridgeRuntimeCommand :=
  match plan with
  | PlanBitChat n => packet ← slice (rs_bitchat_packet s) 0 n; Ok (EmitBitChatPacket packet)
  | PlanLxmf n => message ← slice (rs_lxmf_message s) 0 n; Ok (EmitLxmfMessage message)
  | PlanNostr n => event ← slice (rs_nostr_event_json s) 0 n; Ok (EmitNostrEvent event)
  | PlanUnsupported => Ok (unsupported_profile_drop key)
  end.

Fixpoint command_loop (key : BridgeMessageKey) (plans : list EgressPlan) (command_count : Z) : io dispatch BridgeRuntimeError Z :=
  match plans with
  | [] => mret command_count
  | plan :: plans =>
      s ← get;
      command ← lift (plan_command key (d_scratch s) plan);
      _ ← on_commands (poke command_count command);
      command_loop key plans (command_count + 1)
  end.

(** [&slice[..n]] of any type. *)
Definition slice_to {A} (l : list A) (n : Z) : outcome BridgeRuntimeError (list A) :=
  if (0 <=? n) && (n <=? len l) then Ok (take (Z.to_nat n) l) else Panic.

Definition emit_bridge_message (route_policy : BridgeRoutePolicy) (origin_protocol : BridgeProtocol) (raw_bridge : list Z)
    (params : BridgeRuntimeDispatchParams) : io dispatch BridgeRuntimeError Z :=
  message ← lift (map_err RuntimeBridge (validate_bridge_message raw_bridge));
  let key := mk_key (bm_room_id message) (bm_message_id message) in
  s ← get;
  if BridgeDedupeSet_contains (d_dedupe s) key then
    _ ← lift (ensure_command_capacity (d_commands s) 1);
    _ ← on_commands (poke 0 (Drop key Duplicate));
    mret 1
  else
    hash ← lift (endpoint_hash origin_protocol message);
    let origin := mk_origin origin_protocol hash in
    selected_count ← lift (selected_egress_count route_policy origin);
    let required_commands := 1 + selected_count in
    _ ← lift (ensure_command_capacity (d_commands s) required_commands);
    hyf_envelope ← lift (map_err RuntimeBridge (wrap_bridge_message raw_bridge (dp_wrap params)));
    selection ← lift (match select_egress route_policy origin (replicate (Z.to_nat MAX_EGRESS) Hyf) with
                      | (Ok n, selected) => Ok (n, selected)
                      | (Err e, _) => Err e
                      | (Panic, _) => Panic
                      end);
    let selected_count := fst selection in
    selected ← lift (slice_to (snd selection) selected_count);
    plans ← on_scratch (plan_loop 0 selected raw_bridge (dp_egress params) (replicate (Z.to_nat MAX_EGRESS) PlanUnsupported));
    _ ← on_dedupe (BridgeDedupeSet_insert DEDUPE_CAPACITY key);
    _ ← on_commands (poke 0 (EmitHyfEnvelope hyf_envelope));
    plans ← lift (slice_to plans selected_count);
    command_loop key plans 1.

Definition ingest_bitchat (route_policy : BridgeRoutePolicy) (raw : list Z) (ingress_params : BitchatBridgeIngressParams)
    (params : BridgeRuntimeDispatchParams) : io dispatch BridgeRuntimeError Z :=
  ingress ← lift (map_err RuntimeBitchat (bitchat_packet_to_bridge_message raw ingress_params));
  bridge_len ← on_scratch (on_bridge_message (io_map_err RuntimeBridge (encode_bridge_message (BridgeBitchat.bridge_message ingress))));
  s ← get;
  raw_bridge ← lift (slice (rs_bridge_message (d_scratch s)) 0 bridge_len);
  emit_bridge_message route_policy PBitChat raw_bridge params.

Definition ingest_lxmf (route_policy : BridgeRoutePolicy) (raw : list Z) (ingress_params : LxmfBridgeIngressParams)
    (params : BridgeRuntimeDispatchParams) : io dispatch BridgeRuntimeError Z :=
  ingress ← lift (map_err RuntimeLxmf (lxmf_message_to_bridge_message raw ingress_params));
  bridge_len ← on_scratch (on_bridge_message (io_map_err RuntimeBridge (encode_bridge_message (BridgeLxmf.bridge_message ingress))));
  s ← get;
  raw_bridge ← lift (slice (rs_bridge_message (d_scratch s)) 0 bridge_len);
  emit_bridge_message route_policy PLxmf raw_bridge params.

Definition ingest_nostr (route_policy : BridgeRoutePolicy) (event : NostrEvent) (params : BridgeRuntimeDispatchParams)
  : io dispatch BridgeRuntimeError Z :=
  ingress ← on_scratch (on_bridge_message (io_map_err RuntimeNostr (nostr_event_to_bridge_message event)));
  let bridge_len := len (ni_raw_bridge_message ingress) in
  s ← get;
  raw_bridge ← lift (slice (rs_bridge_message (d_scratch s)) 0 bridge_len);
  emit_bridge_message route_policy PNostr raw_bridge params.
End orchestrator.

(** ** The selection *)
(** A list without the elements of [seen] and without repetitions. *)
Fixpoint firsts (seen l : list BridgeProtocol) : list BridgeProtocol :=
  match l with
  | [] => []
  | q :: l => if bool_decide (q ∈ seen) then firsts seen l else q :: firsts (q :: seen) l
  end.

Definition open_protocols (p : BridgeRoutePolicy) (from : BridgeProtocol) : list BridgeProtocol :=
  List.filter (fun q => negb (negb (allow_echo p) && bool_decide (from = q))) (occupied (egress_protocols p)).
(** The protocols a message from [from] goes to. *)
Definition selection (p : BridgeRoutePolicy) (from : BridgeProtocol) : list BridgeProtocol := firsts [] (open_protocols p from).

Definition flags (seen : list BridgeProtocol) : list bool := map (fun q => bool_decide (q ∈ seen)) [Hyf; PBitChat; PLxmf; PNostr].

Lemma flags_nil : replicate 4 false = flags [].
Proof. reflexivity. Qed.

Lemma flag_cons (q q' : BridgeProtocol) seen : bool_decide (q' ∈ q :: seen) = bool_decide (q' = q) || bool_decide (q' ∈ seen).
Proof.
  apply eq_true_iff_eq. rewrite orb_true_iff, !bool_decide_eq_true. apply list.elem_of_cons.
Qed.

Lemma mark_seen_spec q seen : mark_seen q (flags seen) = (Ok (bool_decide (q ∈ seen)), flags (q :: seen)).
Proof.
  unfold flags. cbn [map]. rewrite !flag_cons. unfold mark_seen. rewrite get_bind.
  destruct q; generalize (bool_decide (Hyf ∈ seen)), (bool_decide (PBitChat ∈ seen)), (bool_decide (PLxmf ∈ seen)),
    (bool_decide (PNostr ∈ seen)); intros a b c d; reflexivity.
Qed.

Lemma flags_seen q seen : q ∈ seen -> flags (q :: seen) = flags seen.
Proof.
  intros H. unfold flags. apply map_ext. intros q'. rewrite flag_cons. destruct (decide (q' = q)) as [->|].
  - by rewrite !bool_decide_eq_true_2.
  - by rewrite bool_decide_eq_false_2.
Qed.

Lemma skips_spec p origin q seen :
  skips p origin q (flags seen) =
    if negb (allow_echo p) && bool_decide (bo_protocol origin = q) then (Ok true, flags seen)
    else (Ok (bool_decide (q ∈ seen)), flags (q :: seen)).
Proof. unfold skips, protocol_is_blocked. destruct (_ && _); [done|apply mark_seen_spec]. Qed.

Lemma count_loop_spec p origin l seen count :
  fst (count_loop p origin l count (flags seen)) =
    Ok (count + len (firsts seen (List.filter (fun q => negb (negb (allow_echo p) && bool_decide (bo_protocol origin = q))) l))).
Proof.
  revert seen count. induction l as [|q l IH]; intros seen count; cbn [count_loop List.filter firsts].
  { change (len (@nil BridgeProtocol)) with 0. by rewrite Z.add_0_r. }
  unfold mbind, io_bind. rewrite skips_spec. destruct (negb (allow_echo p) && _); cbn [negb]; [apply IH|]. cbn [firsts].
  case_bool_decide as Hq; [by rewrite flags_seen, IH|]. rewrite IH, len_cons. f_equal. lia.
Qed.

Lemma selected_count_spec p origin : selected_egress_count p origin = Ok (len (selection p (bo_protocol origin))).
Proof. unfold selected_egress_count. rewrite flags_nil. apply count_loop_spec. Qed.

Lemma select_loop_spec p origin l seen pre rest :
  let chosen := firsts seen (List.filter (fun q => negb (negb (allow_echo p) && bool_decide (bo_protocol origin = q))) l) in
  len chosen <= len rest ->
  exists seen', select_loop p origin l (len pre) (flags seen, pre ++ rest) =
    (Ok (len pre + len chosen), (seen', pre ++ chosen ++ drop (length chosen) rest)).
Proof.
  cbv zeta. revert seen pre rest. induction l as [|q l IH]; intros seen pre rest; cbn [select_loop List.filter firsts].
  { intros _. eexists. change (len (@nil BridgeProtocol)) with 0. by rewrite Z.add_0_r. }
  intros Hl. pose proof (skips_spec p origin q seen) as Hs.
  destruct (negb (allow_echo p) && _); cbn [negb firsts] in *;
    (erewrite io_bind_ok by (apply focus_eq; exact Hs)); cbn [snd]; [by apply IH|].
  case_bool_decide as Hq; [rewrite flags_seen by done; by apply IH|]. rewrite len_cons in *.
  destruct rest as [|x rest]; [change (len (@nil BridgeProtocol)) with 0 in Hl; pose proof (len_nonneg (firsts (q :: seen) (List.filter (fun q => negb (negb (allow_echo p) && bool_decide (bo_protocol origin = q))) l))); lia|].
  rewrite len_cons in Hl. erewrite io_bind_ok by (apply focus_eq; by apply poke_app). cbn [fst].
  destruct (IH (q :: seen) (pre ++ [q]) rest) as [seen' E]; [lia|]. exists seen'.
  rewrite len_app in E. change (len [q]) with 1 in E. etransitivity; [exact E|].
  rewrite <- app_assoc. f_equal. f_equal. lia.
Qed.

(** The selection on every branch. *)
Lemma select_egress_spec p origin output :
  select_egress p origin output =
    let chosen := selection p (bo_protocol origin) in
    if len output <? len chosen then (Err (RuntimeOutputTooSmall (len output) (len chosen)), output)
    else (Ok (len chosen), chosen ++ drop (length chosen) output).
Proof.
  cbv zeta. unfold select_egress. rewrite selected_count_spec, lift_bind_ok, get_bind.
  destruct (Z.ltb_spec (len output) (len (selection p (bo_protocol origin)))); [done|]. rewrite guard_false by done.
  unfold with_local. rewrite flags_nil.
  destruct (select_loop_spec p origin (occupied (egress_protocols p)) [] [] output) as [seen' E]; [done|].
  cbn [app] in E. change (len (@nil BridgeProtocol)) with 0 in E. by rewrite E.
Qed.

Lemma firsts_spec seen l : NoDup (firsts seen l) /\ forall q, q ∈ firsts seen l <-> q ∈ l /\ q ∉ seen.
Proof.
  revert seen. induction l as [|q l IH]; intros seen; cbn [firsts]; [split; [apply NoDup_nil_2|set_solver]|].
  case_bool_decide as Hq.
  - destruct (IH seen) as [H1 H2]. split; [done|]. intros q'. rewrite H2. set_solver.
  - destruct (IH (q :: seen)) as [H1 H2]. split; [apply NoDup_cons; split; [rewrite H2; set_solver|done]|].
    intros q'. rewrite list.elem_of_cons, H2. destruct (decide (q' = q)) as [->|]; set_solver.
Qed.

Lemma selection_nodup p from : NoDup (selection p from).
Proof. apply firsts_spec. Qed.

Lemma selection_in p from q :
  q ∈ selection p from <-> Some q ∈ egress_protocols p /\ (allow_echo p = true \/ q <> from).
Proof.
  unfold selection, open_protocols. rewrite (proj2 (firsts_spec _ _)), list_elem_of_In, filter_In, <- list_elem_of_In, elem_of_occupied.
  rewrite negb_true_iff, andb_false_iff, negb_false_iff, bool_decide_eq_false. split.
  - intros [[? H] _]. split; [done|]. destruct H; [by left|by right].
  - intros [? [?|?]]; split; try set_solver; split; auto.
Qed.

Lemma firsts_len seen l : len (firsts seen l) <= len l.
Proof.
  revert seen. induction l as [|q l IH]; intros seen; cbn [firsts]; [done|]. rewrite len_cons.
  case_bool_decide; [specialize (IH seen); lia|]. rewrite len_cons. specialize (IH (q :: seen)). lia.
Qed.

Lemma selection_len p from : len (selection p from) <= len (egress_protocols p).
Proof.
  unfold selection, open_protocols. etransitivity; [apply firsts_len|].
  pose proof (length_occupied (egress_protocols p)). pose proof (List.filter_length_le (fun q => negb (negb (allow_echo p) && bool_decide (from = q))) (occupied (egress_protocols p))).
  unfold len. lia.
Qed.

(** ** Plans and commands *)
(** The declared sizes of the buffers. *)
Record runtime_scratch_ok (s : BridgeRuntimeScratch) : Prop := {
  so_bridge : len (rs_bridge_message s) = HYF_BRIDGE_MESSAGE_MAX_LEN;
  so_bitchat : len (rs_bitchat_packet s) = BITCHAT_BRIDGE_PACKET_MAX_LEN;
  so_lxmf : len (rs_lxmf_message s) = LXMF_BRIDGE_MESSAGE_MAX_LEN;
  so_nostr : event_scratch_ok (rs_nostr_event s);
  so_json : len (rs_nostr_event_json s) = HYF_NOSTR_BRIDGE_EVENT_JSON_MAX_LEN;
}.

Record egress_ok (e : BridgeRuntimeEgressParams) : Prop := {
  eg_bitchat : forall p, ep_bitchat e = Some p -> BridgeBitchat.egress_params_ok p;
  eg_lxmf : forall p, ep_lxmf e = Some p -> BridgeLxmf.egress_params_ok p;
  eg_nostr : forall p, ep_nostr e = Some p -> u64_ok (nep_created_at p);
}.

Section plans.
Context {P : NostrPrims} `{!NostrPrimsLaws P}.

(** What the runtime should emit for a message and a protocol: the message in
    that network's form, or a drop where the profile is not configured. *)
Definition command_for (egress : BridgeRuntimeEgressParams) (key : BridgeMessageKey) (m : BridgeMessageRef)
    (q : BridgeProtocol) (c : BridgeRuntimeCommand) : Prop :=
  match q with
  | PBitChat => match ep_bitchat egress with
                | Some p => c = EmitBitChatPacket (packet_bytes (egress_packet m p)) /\ BridgeBitchat.validate_egress_message m = Ok tt
                | None => c = unsupported_profile_drop key
                end
  | PLxmf => match ep_lxmf egress with
             | Some p => c = EmitLxmfMessage (egress_bytes m p) /\ BridgeLxmf.validate_egress_message m = Ok tt
             | None => c = unsupported_profile_drop key
             end
  | PNostr => match ep_nostr egress with
              | Some p => exists ev, event_carries ev m /\ ne_created_at ev = nep_created_at p /\ c = EmitNostrEvent (event_json ev)
              | None => c = unsupported_profile_drop key
              end
  | Hyf => c = unsupported_profile_drop key
  end.

(** The plans that planning for a protocol can give. *)
Definition plan_of (q : BridgeProtocol) (plan : EgressPlan) : Prop :=
  match plan with
  | PlanBitChat _ => q = PBitChat
  | PlanLxmf _ => q = PLxmf
  | PlanNostr _ => q = PNostr
  | PlanUnsupported => True
  end.

(** Planning: it never panics and keeps the sizes, a plan denotes the command it
    should, and no other protocol's plan changes its meaning. *)
Definition plans_well (key : BridgeMessageKey) (egress : BridgeRuntimeEgressParams) (m : BridgeMessageRef) (q : BridgeProtocol)
    (s : BridgeRuntimeScratch) (r : outcome BridgeRuntimeError EgressPlan * BridgeRuntimeScratch) : Prop :=
  runtime_scratch_ok (snd r) /\
  match fst r with
  | Ok plan => plan_of q plan /\ exists c, plan_command key (snd r) plan = Ok c /\ command_for egress key m q c
  | Err _ => True
  | Panic => False
  end /\
  forall q' plan, q' <> q -> plan_of q' plan -> plan_command key (snd r) plan = plan_command key s plan.

Lemma plan_unsupported key egress m q s :
  runtime_scratch_ok s -> command_for egress key m q (unsupported_profile_drop key) -> plans_well key egress m q s (Ok PlanUnsupported, s).
Proof. intros Hs Hc. split; [done|]. split; [|done]. split; [done|]. by eexists. Qed.

Lemma plan_bitchat key egress m p s :
  message_ok m -> message_valid m -> egress_ok egress -> runtime_scratch_ok s -> ep_bitchat egress = Some p ->
  plans_well key egress m PBitChat s (plan_egress PBitChat (message_bytes m) egress s).
Proof.
  intros Hok Hval He Hs Hp. destruct s as [b bc lx ns js]. destruct Hs as [H1 H2 H3 H4 H5]. cbn [rs_bridge_message rs_bitchat_packet rs_lxmf_message rs_nostr_event rs_nostr_event_json] in *.
  unfold plan_egress. rewrite Hp, decode_message_bytes by done. cbn [map_err]. rewrite lift_bind_ok.
  pose proof (eg_bitchat _ He p Hp) as Hpo. pose proof (mv_payload_len m Hval) as Hl. pose proof (len_nonneg (bm_payload m)).
  pose proof (egress_spec m p bc Hok Hpo) as Hspec. unfold BITCHAT_BRIDGE_PACKET_MAX_LEN, BITCHAT_CORE_PACKET_MAX_LEN in *.
  specialize (Hspec ltac:(rewrite H2; vm_compute; discriminate)).
  pose proof (validate_egress_safe m) as Hsafe. unfold on_bitchat_packet.
  destruct (BridgeBitchat.validate_egress_message m) as [[]|e|] eqn:Hv; [| |done].
  - destruct (Z.ltb_spec (len bc) (24 + len (bm_payload m))); [lia|].
    erewrite io_bind_ok by (apply focus_eq; rewrite io_map_err_eq; cbn [rs_bitchat_packet]; rewrite Hspec; reflexivity).
    destruct (egress_packet_encodable m p Hok Hpo Hval) as (_ & _ & Hpl). unfold mret, io_ret. cbn [snd].
    rewrite <- Hpl, to_nat_len in *. set (v := packet_bytes _) in *.
    split; [split; cbn [snd rs_bridge_message rs_bitchat_packet rs_lxmf_message rs_nostr_event rs_nostr_event_json]; try done;
      rewrite len_app, len_drop; unfold BITCHAT_BRIDGE_PACKET_MAX_LEN, BITCHAT_CORE_PACKET_MAX_LEN, len in *; lia|].
    split; cbn [fst snd]; [|intros [] []; done]. split; [done|]. exists (EmitBitChatPacket v). split.
    + unfold plan_command. cbn [rs_bitchat_packet]. by rewrite slice_app_first.
    + unfold command_for. by rewrite Hp.
  - erewrite io_bind_err by (apply focus_eq; rewrite io_map_err_eq; cbn [rs_bitchat_packet]; rewrite Hspec; reflexivity).
    split; [done|]. split; [done|]. done.
Qed.

Lemma plan_lxmf key egress m p s :
  message_ok m -> message_valid m -> egress_ok egress -> runtime_scratch_ok s -> ep_lxmf egress = Some p ->
  plans_well key egress m PLxmf s (plan_egress PLxmf (message_bytes m) egress s).
Proof.
  intros Hok Hval He Hs Hp. destruct s as [b bc lx ns js]. destruct Hs as [H1 H2 H3 H4 H5]. cbn [rs_bridge_message rs_bitchat_packet rs_lxmf_message rs_nostr_event rs_nostr_event_json] in *.
  unfold plan_egress. rewrite Hp, decode_message_bytes by done. cbn [map_err]. rewrite lift_bind_ok.
  pose proof (eg_lxmf _ He p Hp) as Hpo. pose proof (mv_payload_len m Hval) as Hl. pose proof (len_nonneg (bm_payload m)).
  pose proof (lxmf_egress_spec m p lx Hok Hpo) as Hspec. unfold LXMF_BRIDGE_MESSAGE_MAX_LEN, LXMF_MESSAGE_MAX_LEN in *.
  pose proof (lxmf_validate_egress_safe m) as Hsafe. unfold on_lxmf_message. cbv zeta in Hspec.
  destruct (egress_payload_encodable m Hok Hval) as [_ Hen]. pose proof (egress_bytes_len m p Hval Hpo (en_valid _ Hen)) as Hel.
  unfold bin_encoded_len in Hel. set (v := egress_bytes m p) in *.
  assert (len v <= 2000) by (destruct (Z.leb_spec (len (bm_payload m)) 255); lia).
  destruct (BridgeLxmf.validate_egress_message m) as [[]|e|] eqn:Hv; [| |done].
  - destruct (Z.ltb_spec (len lx) (len v)); [lia|].
    erewrite io_bind_ok by (apply focus_eq; rewrite io_map_err_eq; cbn [rs_lxmf_message]; rewrite Hspec; reflexivity).
    unfold mret, io_ret. cbn [snd].
    split; [split; cbn [snd rs_bridge_message rs_bitchat_packet rs_lxmf_message rs_nostr_event rs_nostr_event_json]; try done;
      rewrite len_app, len_drop; unfold LXMF_BRIDGE_MESSAGE_MAX_LEN, LXMF_MESSAGE_MAX_LEN, len in *; lia|].
    split; cbn [fst snd]; [|intros [] []; done]. split; [done|]. exists (EmitLxmfMessage v). split.
    + unfold plan_command. cbn [rs_lxmf_message]. by rewrite slice_app_first.
    + unfold command_for. by rewrite Hp.
  - erewrite io_bind_err by (apply focus_eq; rewrite io_map_err_eq; cbn [rs_lxmf_message]; rewrite Hspec; reflexivity).
    split; [done|]. split; [done|]. done.
Qed.

Lemma plan_nostr key egress m p s :
  message_ok m -> message_valid m -> egress_ok egress -> runtime_scratch_ok s -> ep_nostr egress = Some p ->
  plans_well key egress m PNostr s (plan_egress PNostr (message_bytes m) egress s).
Proof.
  intros Hok Hval He Hs Hp. destruct s as [b bc lx ns js]. destruct Hs as [H1 H2 H3 H4 H5]. cbn [rs_bridge_message rs_bitchat_packet rs_lxmf_message rs_nostr_event rs_nostr_event_json] in *.
  unfold plan_egress. rewrite Hp. pose proof (eg_nostr _ He p Hp) as Hpo. pose proof (valid_len m Hok Hval).
  unfold HYF_NOSTR_BRIDGE_EVENT_JSON_MAX_LEN in *. unfold on_nostr_event.
  destruct (bridge_json_spec m p ns js Hok Hval Hpo H4) as (ns' & Hns & [(ev & _ & Hcar & Hcr & Hl & E)|E]);
    [unfold HYF_NOSTR_BRIDGE_EVENT_JSON_MAX_LEN; lia|unfold usize_MAX; lia| |].
  - erewrite io_bind_ok by (apply focus_eq; rewrite io_map_err_eq; cbn [rs_nostr_event rs_nostr_event_json]; rewrite E; reflexivity).
    unfold mret, io_ret. cbn [snd fst]. set (v := event_json ev) in *.
    split; [split; cbn [snd rs_bridge_message rs_bitchat_packet rs_lxmf_message rs_nostr_event rs_nostr_event_json]; try done;
      rewrite len_app, len_drop; unfold HYF_NOSTR_BRIDGE_EVENT_JSON_MAX_LEN, len in *; lia|].
    split; cbn [fst snd]; [|intros [] []; done]. split; [done|]. exists (EmitNostrEvent v). split.
    + unfold plan_command. cbn [rs_nostr_event_json]. by rewrite slice_app_first.
    + unfold command_for. rewrite Hp. by exists ev.
  - erewrite io_bind_err by (apply focus_eq; rewrite io_map_err_eq; cbn [rs_nostr_event rs_nostr_event_json]; rewrite E; reflexivity).
    cbn [snd fst]. split; [done|]. split; [done|]. by intros [] [].
Qed.

Lemma plan_egress_well key egress m q s :
  message_ok m -> message_valid m -> egress_ok egress -> runtime_scratch_ok s ->
  plans_well key egress m q s (plan_egress q (message_bytes m) egress s).
Proof.
  intros Hok Hval He Hs. destruct q.
  - by apply plan_unsupported.
  - destruct (ep_bitchat egress) eqn:E; [by eapply plan_bitchat|]. unfold plan_egress. rewrite E. apply plan_unsupported; [done|]. unfold command_for. by rewrite E.
  - destruct (ep_lxmf egress) eqn:E; [by eapply plan_lxmf|]. unfold plan_egress. rewrite E. apply plan_unsupported; [done|]. unfold command_for. by rewrite E.
  - destruct (ep_nostr egress) eqn:E; [by eapply plan_nostr|]. unfold plan_egress. rewrite E. apply plan_unsupported; [done|]. unfold command_for. by rewrite E.
Qed.

(** The plans made so far denote their commands. *)
Definition denotes (key : BridgeMessageKey) (egress : BridgeRuntimeEgressParams) (m : BridgeMessageRef) (s : BridgeRuntimeScratch)
    (q : BridgeProtocol) (plan : EgressPlan) : Prop :=
  plan_of q plan /\ exists c, plan_command key s plan = Ok c /\ command_for egress key m q c.

Lemma denotes_frame key egress m s s' qs plans :
  (forall q plan, q ∈ qs -> plan_of q plan -> plan_command key s' plan = plan_command key s plan) ->
  Forall2 (denotes key egress m s) qs plans -> Forall2 (denotes key egress m s') qs plans.
Proof.
  intros Hf H. induction H as [|q plan qs plans [Hp (c & Hc & Hcf)] H IH]; [constructor|]. constructor.
  - split; [done|]. exists c. split; [|done]. rewrite (Hf q); [done|by left|done].
  - apply IH. intros q' plan' Hq'. apply Hf. by right.
Qed.

Lemma plan_loop_spec key egress m todo done pre rest s :
  message_ok m -> message_valid m -> egress_ok egress -> runtime_scratch_ok s ->
  NoDup (done ++ todo) -> Forall2 (denotes key egress m s) done pre -> len todo <= len rest ->
  match plan_loop (len pre) todo (message_bytes m) egress (pre ++ rest) s with
  | (Ok plans, s') => runtime_scratch_ok s' /\ exists new, plans = pre ++ new ++ drop (length todo) rest /\ len new = len todo /\
      Forall2 (denotes key egress m s') (done ++ todo) (pre ++ new)
  | (Err _, s') => runtime_scratch_ok s'
  | (Panic, _) => False
  end.
Proof.
  intros Hok Hval He. revert done pre rest s. induction todo as [|q todo IH]; intros done pre rest s Hs Hnd Hd Hl; cbn [plan_loop].
  { split; [exact Hs|]. exists []. rewrite !app_nil_r. by split_and!. }
  rewrite len_cons in Hl. pose proof (len_nonneg todo).
  destruct rest as [|x rest]; [change (len (@nil EgressPlan)) with 0 in Hl; lia|]. rewrite len_cons in Hl.
  destruct (plan_egress_well key egress m q s Hok Hval He Hs) as (Hs' & Hr & Hf).
  unfold mbind at 1, io_bind at 1. destruct (plan_egress q (message_bytes m) egress s) as [[plan|e|] s']; cbn [fst snd] in *; [|exact Hs'|exact Hr].
  rewrite set_at_app, lift_bind_ok by reflexivity. destruct Hr as [Hp (c & Hc & Hcf)].
  specialize (IH (done ++ [q]) (pre ++ [plan]) rest s' Hs'). rewrite <- !app_assoc in IH. cbn [app] in IH.
  rewrite len_app in IH. change (len [plan]) with 1 in IH.
  assert (Forall2 (denotes key egress m s') (done ++ [q]) (pre ++ [plan])) as Hd'.
  { apply Forall2_app; [|constructor; [|constructor]; split; [exact Hp|by exists c]].
    eapply denotes_frame; [|exact Hd]. intros q' plan' Hq' Hp'. apply (Hf q'); [|exact Hp'].
    intros ->. apply NoDup_app in Hnd as (_ & Hnd & _). apply (Hnd q Hq'). by left. }
  specialize (IH Hnd Hd' ltac:(lia)). destruct (plan_loop _ todo _ _ _ s') as [[plans|e|] s'']; [|exact IH|exact IH].
  destruct IH as (Hs'' & new & -> & Hn & Hd''). split; [exact Hs''|]. exists (plan :: new).
  rewrite <- app_assoc in Hd''. cbn [app length drop] in *. rewrite !len_cons, Hn. split_and!; [by rewrite <- app_assoc|lia|exact Hd''].
Qed.

Lemma command_loop_spec key egress m qs plans d pre old rest :
  Forall2 (denotes key egress m (d_scratch d)) qs plans -> d_commands d = pre ++ old ++ rest -> len old = len plans ->
  exists cs, Forall2 (command_for egress key m) qs cs /\
    command_loop key plans (len pre) d = (Ok (len pre + len plans), mk_dispatch (d_dedupe d) (d_scratch d) (pre ++ cs ++ rest)).
Proof.
  intros H. remember (d_scratch d) as s eqn:Hs. revert d Hs pre old. induction H as [|q plan qs plans [Hp (c & Hc & Hcf)] H IH]; intros d -> pre old Hd Hl.
  - apply len_0_nil in Hl as ->. exists []. split; [constructor|]. cbn [command_loop]. change (len (@nil EgressPlan)) with 0.
    rewrite Z.add_0_r. destruct d as [dd ds dc]. cbn [app d_commands d_dedupe d_scratch] in *. by subst.
  - destruct old as [|x old]; [rewrite len_cons in Hl; change (len (@nil BridgeRuntimeCommand)) with 0 in Hl; pose proof (len_nonneg plans); lia|].
    rewrite !len_cons in Hl. cbn [command_loop]. rewrite get_bind, Hc, lift_bind_ok.
    erewrite io_bind_ok by (apply focus_eq; rewrite Hd; cbn [app]; by apply poke_app).
    destruct (IH (mk_dispatch (d_dedupe d) (d_scratch d) ((pre ++ [c]) ++ old ++ rest)) eq_refl (pre ++ [c]) old) as (cs & Hcs & E).
    + done.
    + lia.
    + exists (c :: cs). split; [by constructor|]. rewrite len_app in E. change (len [c]) with 1 in E. cbn [d_dedupe d_scratch] in E.
      etransitivity; [exact E|]. rewrite len_cons, <- app_assoc. cbn [app]. f_equal. f_equal. lia.
Qed.

(** ** Emission *)
Context (N M : Z).

(** The state between calls: the keys seen are a window [win], newest first. *)
Record dispatch_ok (win : list BridgeMessageKey) (d : dispatch) : Prop := {
  do_window : ring_shape N (dd_keys (d_dedupe d)) (dd_next_index (d_dedupe d)) win;
  do_len : dd_len (d_dedupe d) = len win;
  do_scratch : runtime_scratch_ok (d_scratch d);
}.

Lemma dedupe_insert_spec win s key :
  0 <= N -> ring_shape N (dd_keys s) (dd_next_index s) win -> dd_len s = len win -> key ∉ win ->
  if N =? 0 then BridgeDedupeSet_insert N key s = (Err DedupeCapacityZero, s)
  else exists s', BridgeDedupeSet_insert N key s = (Ok true, s') /\
    ring_shape N (dd_keys s') (dd_next_index s') (take (Z.to_nat N) (key :: win)) /\ dd_len s' = len (take (Z.to_nat N) (key :: win)).
Proof.
  intros HN Hr Hl Hk. unfold BridgeDedupeSet_insert. rewrite get_bind. unfold BridgeDedupeSet_contains.
  rewrite (ring_contains_spec _ _ _ _ _ Hr), bool_decide_eq_false_2 by done. destruct (Z.eqb_spec N 0); [done|].
  destruct (ring_push_shape (E:=BridgeRuntimeError) N _ _ win key ltac:(lia) Hr) as (slots & next & -> & Hr').
  rewrite lift_bind_ok, put_bind. eexists. split; [done|]. cbn [fst snd dd_keys dd_next_index dd_len]. split; [done|].
  pose proof (rs_window _ _ _ _ Hr). rewrite len_take, len_cons, Hl. destruct (Z.ltb_spec (len win) N); lia.
Qed.

Definition message_key (m : BridgeMessageRef) : BridgeMessageKey := mk_key (bm_room_id m) (bm_message_id m).

Lemma endpoint_hash_ok from m : message_valid m -> exists h, endpoint_hash from m = Ok h.
Proof.
  intros Hv. pose proof (author_len_bound _ _ (mv_author m Hv)) as Hl. unfold endpoint_hash.
  assert (forall n, exists h, (if bool_decide (author_kind (bm_author m) = BridgeForeign n) then
      (id ← slice (author_id (bm_author m)) 0 (Z.min (len (author_id (bm_author m))) 32); write_at (zeros 32) 0 id)
    else Ok (zeros 32)) = Ok h :> outcome BridgeRuntimeError _) as H.
  { intros n. case_bool_decide; [|by eexists]. rewrite Z.min_l by lia. rewrite slice_prefix by lia. cbn [mbind outcome_bind].
    rewrite to_nat_len, take_ge by done. destruct (cut (zeros 32) (len (author_id (bm_author m)))) as (u & v & E & Hu & _);
      [rewrite len_zeros; lia|]. rewrite E. eexists. by apply (write_at_app [] _ u v). }
  destruct from; [by eexists|apply H..].
Qed.

(** What a dispatch of the message [m] does, on every branch. *)
Definition emits_message (policy : BridgeRoutePolicy) (from : BridgeProtocol) (params : BridgeRuntimeDispatchParams)
    (m : BridgeMessageRef) (win : list BridgeMessageKey) (d : dispatch) (r : outcome BridgeRuntimeError Z * dispatch) : Prop :=
  match r with
  | (Ok n, d') =>
      (message_key m ∈ win /\ n = 1 /\ dispatch_ok win d' /\ d_dedupe d' = d_dedupe d /\
       d_commands d' = Drop (message_key m) Duplicate :: drop 1 (d_commands d)) \/
      ((message_key m ∉ win) /\ 0 < N /\ dispatch_ok (take (Z.to_nat N) (message_key m :: win)) d' /\
       exists e cs, wrap_bridge_message (message_bytes m) (dp_wrap params) = Ok e /\
         Forall2 (command_for (dp_egress params) (message_key m) m) (selection policy from) cs /\
         n = 1 + len cs /\ n <= len (d_commands d) /\
         d_commands d' = EmitHyfEnvelope e :: cs ++ drop (Z.to_nat n) (d_commands d))
  | (Err _, d') => (dispatch_ok win d' /\ d_dedupe d' = d_dedupe d /\ d_commands d' = d_commands d) /\
      (message_key m ∈ win -> d_commands d = [])
  | (Panic, _) => False
  end.

Lemma wrap_message_safe m params : message_ok m -> message_valid m -> wrap_bridge_message (message_bytes m) params <> Panic.
Proof.
  intros Hok Hval. unfold wrap_bridge_message, validate_bridge_message. rewrite decode_message_bytes by done. cbn [mbind outcome_bind].
  apply outcome_bind_safe; [|done]. apply map_err_safe, validate_envelope_safe.
Qed.

Lemma slice_to_app {A} (l k : list A) : slice_to (l ++ k) (len l) = Ok l.
Proof.
  unfold slice_to. rewrite len_app. pose proof (len_nonneg l). pose proof (len_nonneg k).
  destruct (Z.leb_spec 0 (len l)); [|lia]. destruct (Z.leb_spec (len l) (len l + len k)); [|lia]. cbn [andb].
  by rewrite take_len_app.
Qed.

Lemma emit_spec policy from params m win d :
  0 <= N -> message_ok m -> message_valid m -> egress_ok (dp_egress params) -> len (egress_protocols policy) = M -> dispatch_ok win d ->
  emits_message policy from params m win d (emit_bridge_message N M policy from (message_bytes m) params d).
Proof.
  intros HN Hok Hval He HM Hd. assert (Hd' := Hd). destruct Hd' as [Hw Hl Hs]. unfold emit_bridge_message, validate_bridge_message.
  rewrite decode_message_bytes by done. cbn [map_err]. rewrite lift_bind_ok, get_bind. cbv zeta. fold (message_key m).
  unfold BridgeDedupeSet_contains at 1. rewrite (ring_contains_spec _ _ _ _ _ Hw). case_bool_decide as Hk.
  { unfold ensure_command_capacity. destruct (Z.ltb_spec (len (d_commands d)) 1) as [Hc|Hc].
    { split; [done|]. intros _. destruct (d_commands d) as [|x l]; [done|]. rewrite len_cons in Hc. pose proof (len_nonneg l). lia. }
    rewrite guard_false by done. destruct (d_commands d) as [|x rest] eqn:Hdc; [change (len (@nil BridgeRuntimeCommand)) with 0 in Hc; lia|].
    erewrite io_bind_ok by (apply focus_eq; rewrite Hdc; by apply (poke_app [] x rest)).
    left. cbn [d_commands d_dedupe d_scratch app]. rewrite Hdc. split_and!; by try split. }
  destruct (endpoint_hash_ok from m Hval) as [h ->]. rewrite lift_bind_ok, selected_count_spec, lift_bind_ok. cbn [bo_protocol].
  set (chosen := selection policy from). unfold ensure_command_capacity.
  destruct (Z.ltb_spec (len (d_commands d)) (1 + len chosen)) as [Hc|Hc]; [by split|]. rewrite guard_false by done.
  pose proof (wrap_message_safe m (dp_wrap params) Hok Hval) as Hwrap.
  destruct (wrap_bridge_message (message_bytes m) (dp_wrap params)) as [e|err|] eqn:Hwr; cbn [map_err]; [|by split|done].
  rewrite lift_bind_ok. pose proof (len_nonneg (egress_protocols policy)). pose proof (selection_len policy from) as Hsl. fold chosen in Hsl.
  rewrite select_egress_spec. cbv zeta. cbn [bo_protocol]. fold chosen. rewrite len_replicate, Z2Nat.id by lia.
  destruct (Z.ltb_spec M (len chosen)); [lia|]. rewrite lift_bind_ok. cbn [fst snd]. rewrite slice_to_app, lift_bind_ok.
  pose proof (plan_loop_spec (message_key m) (dp_egress params) m chosen [] [] (replicate (Z.to_nat M) PlanUnsupported) (d_scratch d)
    Hok Hval He Hs (selection_nodup policy from) (List.Forall2_nil _)) as Hp. rewrite len_replicate, Z2Nat.id in Hp by lia. specialize (Hp ltac:(lia)).
  change (len (@nil EgressPlan)) with 0 in Hp. cbn [app] in Hp. unfold on_scratch.
  destruct (plan_loop 0 chosen _ _ _ (d_scratch d)) as [[plans|err|] s'] eqn:Hpl; [| |done].
  2: { erewrite io_bind_err by (apply focus_eq; exact Hpl). split; [|done]. split_and!; by try split. }
  destruct Hp as (Hs' & new & -> & Hn & Hden). erewrite io_bind_ok by (apply focus_eq; exact Hpl).
  pose proof (dedupe_insert_spec win (d_dedupe d) (message_key m) HN Hw Hl Hk) as Hi. unfold on_dedupe.
  destruct (Z.eqb_spec N 0) as [HN0|HN0].
  { erewrite io_bind_err by (apply focus_eq; exact Hi). split; [|done]. split_and!; by try split. }
  destruct Hi as (dd & Hi & Hw' & Hl'). erewrite io_bind_ok by (apply focus_eq; exact Hi). cbn [d_commands d_dedupe d_scratch].
  destruct (cut (d_commands d) (1 + len chosen)) as (old & rest & Hdc & Hold & _); [pose proof (len_nonneg chosen); lia|].
  destruct old as [|x old]; [change (len (@nil BridgeRuntimeCommand)) with 0 in Hold; pose proof (len_nonneg chosen); lia|].
  rewrite len_cons in Hold. rewrite Hdc.
  erewrite io_bind_ok by (apply focus_eq; by apply (poke_app [] x (old ++ rest))). cbn [d_commands d_dedupe d_scratch app].
  rewrite <- Hn, slice_to_app, lift_bind_ok.
  destruct (command_loop_spec (message_key m) (dp_egress params) m chosen new
    (mk_dispatch dd s' (EmitHyfEnvelope e :: old ++ rest)) [EmitHyfEnvelope e] old rest Hden eq_refl ltac:(lia)) as (cs & Hcs & E).
  change (len [EmitHyfEnvelope e]) with 1 in E. rewrite E. cbn [d_dedupe d_scratch app].
  pose proof (Forall2_length _ _ _ Hcs) as Hlen. right. split; [done|]. split; [lia|]. split; [done|]. exists e, cs. split_and!; [done|done| | |].
  - rewrite Hn. unfold len. lia.
  - rewrite Hn, Hdc, len_app, len_cons. pose proof (len_nonneg rest). lia.
  - cbn [d_commands]. rewrite Hdc. do 2 f_equal. rewrite drop_app_length'; [done|]. unfold len in *. simpl. lia.
Qed.
End plans.

(** ** Ingests *)
(** Computations that keep the length of their buffer. *)
Definition keeps_len {E A} (m : io (list Z) E A) : Prop := forall out, len (snd (m out)) = len out.

Lemma keeps_bind {E A B} (m : io (list Z) E A) (f : A -> io (list Z) E B) :
  keeps_len m -> (forall a, keeps_len (f a)) -> keeps_len (m ≫= f).
Proof. intros Hm Hf out. unfold mbind, io_bind. specialize (Hm out). destruct (m out) as [[a|e|] o]; [|done..]. cbn [snd] in Hm. by rewrite Hf. Qed.
Lemma keeps_lift {E A} (o : outcome E A) : keeps_len (lift o).
Proof. by intros out. Qed.
Lemma keeps_copy {E} i v : keeps_len (copy_at (E:=E) i v).
Proof.
  intros out. unfold copy_at. destruct (write_at (E:=E) out i v) as [o|e|] eqn:H; [|done..]. cbn [snd]. unfold write_at in H.
  destruct (_ && _) eqn:Hb; [|done]. injection H as <-. apply andb_true_iff in Hb as [H1%Z.leb_le H2%Z.leb_le].
  pose proof (len_nonneg v). rewrite !len_app, len_take, len_drop. lia.
Qed.

Lemma keeps_decode_hex content : keeps_len (decode_lower_hex content).
Proof.
  apply keeps_bind; [apply keeps_lift|intros _]. apply keeps_bind; [by intros out|intros o].
  apply keeps_bind; [apply keeps_lift|intros _]. apply keeps_bind; [|intros _; by intros out].
  generalize (Z.to_nat (len content / 2)) as n, 0 as k. induction n as [|n IH]; intros k; [by intros out|]. cbn [decode_hex_loop].
  do 4 (apply keeps_bind; [apply keeps_lift|intros ?]). apply keeps_bind; [apply keeps_copy|intros _; apply IH].
Qed.

Lemma keeps_ingress {P : NostrPrims} ev : keeps_len (nostr_event_to_bridge_message ev).
Proof.
  unfold nostr_event_to_bridge_message, decode_bridge_nostr_content.
  repeat first [apply keeps_lift | apply keeps_bind; [|intros ?]]; try by intros out.
  intros out. rewrite io_map_err_eq. cbn [snd]. apply keeps_decode_hex.
Qed.

(** The three entry points as one. *)
Inductive ingest_input :=
| InBitchat (raw : list Z) (params : BitchatBridgeIngressParams)
| InLxmf (raw : list Z) (params : LxmfBridgeIngressParams)
| InNostr (event : NostrEvent).

Definition input_protocol (i : ingest_input) : BridgeProtocol :=
  match i with InBitchat _ _ => PBitChat | InLxmf _ _ => PLxmf | InNostr _ => PNostr end.

Definition input_ok (i : ingest_input) : Prop :=
  match i with
  | InBitchat raw p => bytes_ok raw /\ community_id_ok (bip_room_id p) /\ message_id_ok (bip_message_id p)
  | InLxmf raw p => bytes_ok raw /\ community_id_ok (lip_room_id p) /\ message_id_ok (lip_message_id p)
  | InNostr ev => unsigned_ok (unsigned ev)
  end.

Section ingests.
Context {P : NostrPrims} `{!NostrPrimsLaws P}.
Context (N M : Z).

Definition ingest (policy : BridgeRoutePolicy) (i : ingest_input) (params : BridgeRuntimeDispatchParams) : io dispatch BridgeRuntimeError Z :=
  match i with
  | InBitchat raw p => ingest_bitchat N M policy raw p params
  | InLxmf raw p => ingest_lxmf N M policy raw p params
  | InNostr ev => ingest_nostr N M policy ev params
  end.

(** The bridge message that an input stands for. *)
Definition input_message (i : ingest_input) (m : BridgeMessageRef) : Prop :=
  match i with
  | InBitchat raw p => exists g, bitchat_packet_to_bridge_message raw p = Ok g /\ m = BridgeBitchat.bridge_message g /\ message_valid m
  | InLxmf raw p => exists g, lxmf_message_to_bridge_message raw p = Ok g /\ m = BridgeLxmf.bridge_message g /\ message_valid m
  | InNostr ev => carries_message ev m
  end.

(** The caller's sizes and parameters. *)
Record call_ok (policy : BridgeRoutePolicy) (params : BridgeRuntimeDispatchParams) : Prop := {
  co_capacity : 0 <= N;
  co_policy : len (egress_protocols policy) = M;
  co_egress : egress_ok (dp_egress params);
}.

Definition unchanged (win : list BridgeMessageKey) (d d' : dispatch) : Prop :=
  dispatch_ok N win d' /\ d_dedupe d' = d_dedupe d /\ d_commands d' = d_commands d.

(** Encoding the message of a packet into the scratch and emitting it. *)
Lemma encode_and_emit policy from params m win d :
  call_ok policy params -> message_ok m -> dispatch_ok N win d ->
  let r := (bridge_len ← on_scratch (on_bridge_message (io_map_err RuntimeBridge (encode_bridge_message m)));
            s ← get;
            raw_bridge ← lift (slice (rs_bridge_message (d_scratch s)) 0 bridge_len);
            emit_bridge_message N M policy from raw_bridge params) d in
  (message_valid m /\ emits_message N policy from params m win d r) \/
  (~ message_valid m /\ exists e d', r = (Err e, d') /\ unchanged win d d').
Proof.
  intros [HN HM He] Hok Hd. assert (Hd' := Hd). destruct Hd' as [Hw Hl Hs]. cbv zeta.
  destruct d as [dd [b bc lx ns js] cs]. destruct Hs as [H1 H2 H3 H4 H5].
  cbn [d_dedupe d_scratch d_commands rs_bridge_message rs_bitchat_packet rs_lxmf_message rs_nostr_event rs_nostr_event_json] in *.
  pose proof (validate_message_exact m Hok) as Hx. pose proof (validate_message_safe m) as Hsafe.
  destruct (validate_bridge_message_ref m) as [[]|e|] eqn:Hv; [| |done].
  - assert (message_valid m) as Hval by (by apply Hx). left. split; [done|].
    pose proof (encode_message_valid m b Hok Hval) as Henc. pose proof (valid_len m Hok Hval).
    unfold HYF_BRIDGE_MESSAGE_MAX_LEN in H1. destruct (Z.ltb_spec (len b) (len (message_bytes m))); [lia|].
    erewrite io_bind_ok by (apply focus_eq, focus_eq; rewrite io_map_err_eq; cbn [d_scratch rs_bridge_message]; rewrite Henc; reflexivity).
    rewrite get_bind. cbn [snd d_scratch rs_bridge_message d_dedupe d_commands rs_bitchat_packet rs_lxmf_message rs_nostr_event rs_nostr_event_json].
    rewrite slice_app_first, lift_bind_ok by done.
    refine (emit_spec N M policy from params m win (mk_dispatch dd _ cs) HN Hok Hval He HM _).
    split; cbn [d_dedupe d_scratch]; [done..|]. split; cbn [rs_bridge_message rs_bitchat_packet rs_lxmf_message rs_nostr_event rs_nostr_event_json]; try done.
    rewrite len_app, len_drop. unfold HYF_BRIDGE_MESSAGE_MAX_LEN, len in *. lia.
  - right. split; [by intros Hval%Hx|].
    assert (encode_bridge_message m b = (Err e, b)) as Henc by (unfold encode_bridge_message; rewrite bridge_encoded_len_spec by done; by rewrite Hv).
    eexists _, _. split.
    + erewrite io_bind_err by (apply focus_eq, focus_eq; rewrite io_map_err_eq; cbn [d_scratch rs_bridge_message]; rewrite Henc; reflexivity).
      reflexivity.
    + done.
Qed.

Lemma lift_err_unchanged {A} win d (o : outcome BridgeRuntimeError A) e (f : A -> io dispatch BridgeRuntimeError Z) :
  dispatch_ok N win d -> o = Err e -> exists e' d', (a ← lift o; f a) d = (Err e', d') /\ unchanged win d d'.
Proof. intros Hd ->. by exists e, d. Qed.

(** An ingest emits the message its input stands for, or fails and leaves the
    window and the commands alone. *)
Definition ingest_result (policy : BridgeRoutePolicy) (i : ingest_input) (params : BridgeRuntimeDispatchParams)
    (win : list BridgeMessageKey) (d : dispatch) (r : outcome BridgeRuntimeError Z * dispatch) : Prop :=
  (exists m, input_message i m /\ emits_message N policy (input_protocol i) params m win d r) \/
  ((forall m, ~ input_message i m) /\ exists e d', r = (Err e, d') /\ unchanged win d d').

Lemma ingest_spec policy i params win d :
  call_ok policy params -> input_ok i -> dispatch_ok N win d -> ingest_result policy i params win d (ingest policy i params d).
Proof.
  intros Hcall Hi Hd. destruct i as [raw p|raw p|ev]; cbn [ingest input_protocol]; unfold ingest_result.
  - destruct Hi as (Hb & Hr & Hm). unfold ingest_bitchat. pose proof (bitchat_ingress_safe raw p Hb) as Hs.
    destruct (bitchat_packet_to_bridge_message raw p) as [g|e|] eqn:Hg; [| |done]; cbn [map_err].
    2: { right. split; [intros m (g & H & _); congruence|]. by exists (RuntimeBitchat e), d. }
    rewrite lift_bind_ok. destruct (ingress_message_valid raw p g Hb Hg Hr Hm) as [Hok _].
    destruct (encode_and_emit policy PBitChat params (BridgeBitchat.bridge_message g) win d Hcall Hok Hd) as [[Hv H]|[Hv H]];
      [left; eexists; split; [by exists g|exact H]|right; split; [|exact H]].
    intros m (g' & H' & -> & Hv'). rewrite Hg in H'. injection H' as <-. done.
  - destruct Hi as (Hb & Hr & Hm). unfold ingest_lxmf. pose proof (lxmf_ingress_safe raw p Hb) as Hs.
    destruct (lxmf_message_to_bridge_message raw p) as [g|e|] eqn:Hg; [| |done]; cbn [map_err].
    2: { right. split; [intros m (g & H & _); congruence|]. by exists (RuntimeLxmf e), d. }
    rewrite lift_bind_ok. destruct (lxmf_ingress_valid raw p g Hb Hg Hr Hm) as [Hok _].
    destruct (encode_and_emit policy PLxmf params (BridgeLxmf.bridge_message g) win d Hcall Hok Hd) as [[Hv H]|[Hv H]];
      [left; eexists; split; [by exists g|exact H]|right; split; [|exact H]].
    intros m (g' & H' & -> & Hv'). rewrite Hg in H'. injection H' as <-. done.
  - cbn [input_ok] in Hi. assert (Hd' := Hd). destruct Hcall as [HN HM He], Hd' as [Hw Hl Hs]. unfold ingest_nostr.
    destruct d as [dd [b bc lx ns js] cs]. destruct Hs as [H1 H2 H3 H4 H5].
    cbn [d_dedupe d_scratch d_commands rs_bridge_message rs_bitchat_packet rs_lxmf_message rs_nostr_event rs_nostr_event_json] in *.
    pose proof (ingress_safe ev b Hi) as Hsafe. pose proof (keeps_ingress ev b) as Hk.
    destruct (nostr_event_to_bridge_message ev b) as [[g|e|] b'] eqn:Hg; cbn [fst snd] in Hsafe, Hk; [| |done].
    + left. destruct (ingress_inv ev b g b' Hg) as (m & Hcar & Hml & -> & ->). exists m. split; [done|].
      erewrite io_bind_ok by (apply focus_eq, focus_eq; rewrite io_map_err_eq; cbn [d_scratch rs_bridge_message]; rewrite Hg; reflexivity).
      cbv zeta. rewrite get_bind. cbn [snd d_scratch rs_bridge_message d_dedupe d_commands rs_bitchat_packet rs_lxmf_message rs_nostr_event rs_nostr_event_json ni_raw_bridge_message].
      rewrite slice_app_first, lift_bind_ok by done. destruct Hcar as [[Hok Hval _ _ _ _ _ _] _].
      refine (emit_spec N M policy PNostr params m win (mk_dispatch dd _ cs) HN Hok Hval He HM _).
      split; cbn [d_dedupe d_scratch]; [done..|]. split; cbn [rs_bridge_message rs_bitchat_packet rs_lxmf_message rs_nostr_event rs_nostr_event_json]; try done.
      by rewrite Hk.
    + right. split.
      * intros m Hcar. destruct Hcar as [Hev Hau%author_rule_ok]. assert (len (message_bytes m) <= len b) as Hml.
        { pose proof (valid_len m (cm_ok _ _ Hev) (cm_valid _ _ Hev)). unfold HYF_BRIDGE_MESSAGE_MAX_LEN in H1. lia. }
        pose proof (ingress_run ev m b Hev Hml) as E. rewrite Hau, Hg in E. discriminate E.
      * eexists _, _. split.
        -- erewrite io_bind_err by (apply focus_eq, focus_eq; rewrite io_map_err_eq; cbn [d_scratch rs_bridge_message]; rewrite Hg; reflexivity).
           reflexivity.
        -- split; [|done]. split; cbn [d_dedupe d_scratch snd rs_bridge_message rs_bitchat_packet rs_lxmf_message rs_nostr_event rs_nostr_event_json]; try done.
           split; cbn [d_dedupe d_scratch snd rs_bridge_message rs_bitchat_packet rs_lxmf_message rs_nostr_event rs_nostr_event_json]; try done.
           by rewrite Hk.
Qed.

Lemma input_message_valid i m : input_ok i -> input_message i m -> message_ok m /\ message_valid m.
Proof.
  destruct i as [raw p|raw p|ev]; cbn [input_ok input_message].
  - intros (Hb & Hr & Hm) (g & Hg & -> & Hv). split; [|done]. by destruct (ingress_message_valid raw p g Hb Hg Hr Hm).
  - intros (Hb & Hr & Hm) (g & Hg & -> & Hv). split; [|done]. by destruct (lxmf_ingress_valid raw p g Hb Hg Hr Hm).
  - intros _ [[] _]. done.
Qed.

(** *** Sequences of ingests *)
(** One call: the caller brings its own command slice. *)
Record bridge_call := mk_call {
  bc_policy : BridgeRoutePolicy;
  bc_input : ingest_input;
  bc_params : BridgeRuntimeDispatchParams;
  bc_commands : list BridgeRuntimeCommand;
}.
Definition bridge_call_ok (c : bridge_call) : Prop := call_ok (bc_policy c) (bc_params c) /\ input_ok (bc_input c).

Definition call_ingest (c : bridge_call) (d : dispatch) : outcome BridgeRuntimeError Z * dispatch :=
  ingest (bc_policy c) (bc_input c) (bc_params c) (mk_dispatch (d_dedupe d) (d_scratch d) (bc_commands c)).
Definition run_calls (calls : list bridge_call) (d : dispatch) : dispatch := fold_left (fun d c => snd (call_ingest c d)) calls d.

Lemma dispatch_ok_commands win d cs : dispatch_ok N win d -> dispatch_ok N win (mk_dispatch (d_dedupe d) (d_scratch d) cs).
Proof. intros [H1 H2 H3]. by split. Qed.

Lemma emits_unchanged policy from params m win d e d' :
  emits_message N policy from params m win d (Err e, d') -> unchanged win d d'.
Proof. by intros [H _]. Qed.

(** A call pushes at most one key on the window. *)
Lemma call_window c win d :
  bridge_call_ok c -> dispatch_ok N win d ->
  exists pre, len pre <= 1 /\ dispatch_ok N (take (Z.to_nat N) (pre ++ win)) (snd (call_ingest c d)).
Proof.
  intros [Hc Hi] Hd. pose proof (dispatch_ok_commands win d (bc_commands c) Hd) as Hd1. unfold call_ingest.
  assert (take (Z.to_nat N) win = win) as Ht.
  { apply take_ge. pose proof (rs_window _ _ _ _ (do_window _ _ _ Hd)). unfold len in *. lia. }
  destruct (ingest_spec (bc_policy c) (bc_input c) (bc_params c) win _ Hc Hi Hd1) as [(m & _ & H)|(_ & e & d' & -> & H)].
  - destruct (ingest _ _ _ _) as [[n|e|] d'] eqn:E; [| |done]; cbn [snd].
    + destruct H as [(_ & _ & H & _)|(_ & _ & H & _)]; [exists []; cbn [app]; rewrite Ht; done|by exists [message_key m]].
    + exists []. cbn [app]. rewrite Ht. split; [done|]. apply H.
  - exists []. cbn [app snd]. rewrite Ht. split; [done|]. apply H.
Qed.

Lemma run_window calls win d :
  Forall bridge_call_ok calls -> dispatch_ok N win d ->
  exists pre, len pre <= len calls /\ dispatch_ok N (take (Z.to_nat N) (pre ++ win)) (run_calls calls d).
Proof.
  intros Hcs. revert win d. induction Hcs as [|c calls Hc Hcs IH]; intros win d Hd.
  - exists []. split; [done|]. cbn [app]. rewrite take_ge; [done|]. pose proof (rs_window _ _ _ _ (do_window _ _ _ Hd)). unfold len in *. lia.
  - destruct (call_window c win d Hc Hd) as (pre & Hp & H). destruct (IH _ _ H) as (pre' & Hp' & H').
    exists (pre' ++ pre). split; [rewrite len_app, len_cons; lia|]. unfold run_calls in *. cbn [fold_left].
    assert (take (Z.to_nat N) (pre' ++ take (Z.to_nat N) (pre ++ win)) = take (Z.to_nat N) ((pre' ++ pre) ++ win)) as E.
    { rewrite <- app_assoc, (take_app pre' (take _ _)), (take_app pre' (pre ++ win)), take_take. do 2 f_equal. lia. }
    by rewrite E in H'.
Qed.

(** ** Theorems *)
(** What a command must be to carry [m] to its network. *)
Definition command_carries (m : BridgeMessageRef) (c : BridgeRuntimeCommand) : Prop :=
  match c with
  | EmitHyfEnvelope e => envelope_ok e /\ unwrap_bridge_message e = Ok (message_bytes m)
  | EmitBitChatPacket p => exists pk, decode_bitchat_packet p = Ok pk /\ public_packet pk (bm_payload m) /\ timestamp pk = bm_created_at_ms m
  | EmitLxmfMessage l => exists lm, decode_lxmf_message l = Ok lm /\ content_only (lm_payload lm) /\ lp_content (lm_payload lm) = bm_payload m
  | EmitNostrEvent j => exists ev, event_carries ev m /\ j = event_json ev
  | Drop key reason => key = message_key m /\ (reason = Duplicate \/ reason = UnsupportedProfile)
  end.

Definition command_protocol (c : BridgeRuntimeCommand) : option BridgeProtocol :=
  match c with
  | EmitHyfEnvelope _ => Some Hyf
  | EmitBitChatPacket _ => Some PBitChat
  | EmitLxmfMessage _ => Some PLxmf
  | EmitNostrEvent _ => Some PNostr
  | Drop _ _ => None
  end.

Lemma command_for_carries egress m q c :
  message_ok m -> message_valid m -> egress_ok egress -> command_for egress (message_key m) m q c -> command_carries m c.
Proof.
  intros Hok Hval He. assert (command_carries m (unsupported_profile_drop (message_key m))) as Hdrop by (split; [done|by right]).
  destruct q; cbn [command_for]; [by intros ->| | |].
  - destruct (ep_bitchat egress) as [p|] eqn:Hp; [|by intros ->]. intros [-> Hv]. pose proof (eg_bitchat _ He p Hp) as Hpo.
    apply egress_valid_exact in Hv as (_ & Hk & Hne & Hc); [|done]. destruct (egress_packet_encodable m p Hok Hpo Hval) as (Hen & Hcan & _).
    exists (egress_packet m p). split; [|split; [|done]].
    + apply bitchat_decode_bytes; [by apply egress_packet_ok|]. rewrite <- Hcan. by apply canonical_valid.
    + apply egress_packet_public; try done. apply Hok.
  - destruct (ep_lxmf egress) as [p|] eqn:Hp; [|by intros ->]. intros [-> Hv]. destruct (eg_lxmf _ He p Hp) as (Hd & Hs & Hg).
    apply lxmf_egress_valid in Hv as (_ & Hk & Hne); [|done]. destruct (egress_payload_encodable m Hok Hval) as [Hpo Hen].
    eexists. split; [by apply lxmf_decode_bytes|]. cbn [lm_payload]. split; [|done]. split; [done..|]. split; [done|].
    apply utf8_ok_spec; [apply Hok|]. by apply Hval.
  - destruct (ep_nostr egress) as [p|]; [|by intros ->]. intros (ev & Hev & _ & ->). by exists ev.
Qed.

Lemma command_for_protocol egress key m q c : command_for egress key m q c -> command_protocol c = None \/ command_protocol c = Some q /\ q <> Hyf.
Proof.
  destruct q; cbn [command_for]; [by intros ->; left| | |].
  - destruct (ep_bitchat egress); [intros [-> _]; by right|by intros ->; left].
  - destruct (ep_lxmf egress); [intros [-> _]; by right|by intros ->; left].
  - destruct (ep_nostr egress); [intros (ev & _ & _ & ->); by right|by intros ->; left].
Qed.

(** The protocols of the commands for a selection are part of it, in order. *)
Lemma commands_sublist egress key m qs cs :
  Forall2 (command_for egress key m) qs cs -> sublist (omap command_protocol cs) qs /\ (NoDup qs -> Hyf ∉ omap command_protocol cs).
Proof.
  intros H. assert (sublist (omap command_protocol cs) qs) as Hsub.
  { induction H as [|q c qs cs Hc H IH]; [constructor|]. cbn [omap list_omap].
    destruct (command_for_protocol _ _ _ _ _ Hc) as [->|[-> _]]; [by apply sublist_cons|by apply sublist_skip]. }
  split; [exact Hsub|]. intros _ Hin. clear Hsub. induction H as [|q c qs cs Hc H IH]; [by apply not_elem_of_nil in Hin|].
  cbn [omap list_omap] in Hin. destruct (command_for_protocol _ _ _ _ _ Hc) as [E|[E Hq]]; rewrite E in Hin; [by apply IH|].
  apply list.elem_of_cons in Hin as [Hx|Hin]; [congruence|by apply IH].
Qed.

Lemma wrap_carries params m e :
  message_ok m -> message_valid m -> wrap_params_ok params -> wrap_bridge_message (message_bytes m) params = Ok e ->
  envelope_ok e /\ unwrap_bridge_message e = Ok (message_bytes m).
Proof.
  intros Hok Hval Hp Hw. pose proof (message_bytes_ok m Hok Hval) as Hb. rewrite bridge_wrap_is_carrier in Hw. rewrite bridge_unwrap_is_carrier.
  assert (c_validate bridge_carrier (message_bytes m) = Ok m) as Ha by (by apply decode_message_bytes).
  destruct (carrier_wrap_valid _ wrap_params_ok lifetime bridge_carrier_laws _ params m Hp Hb Ha) as (e' & Hc & Hw' & _).
  rewrite Hw' in Hw. destruct (validate_envelope e') as [[]|err|] eqn:Hv; [|done..]. injection Hw as ->.
  split; [apply Hc|]. by eapply carrier_unwrap_carried.
Qed.

Lemma take_commands {A} (x : A) cs rest : take (Z.to_nat (1 + len cs)) (x :: cs ++ rest) = x :: cs.
Proof. replace (Z.to_nat (1 + len cs)) with (S (length cs)) by (unfold len; lia). cbn [take]. by rewrite take_app_length. Qed.

(** C8. A dispatch, on every branch: nothing panics, and for each of the three
    ways in, an input that stands for a valid bridge message is emitted (a
    duplicate of one of the last [N] messages as a single drop; otherwise an
    envelope and one command for each selected protocol, the key joining the
    window) or fails; an input that stands for none fails; and every failure
    leaves the window and the caller's commands as they were. *)
Theorem bridge_dispatch_exact policy i params win d :
  call_ok policy params -> input_ok i -> dispatch_ok N win d -> ingest_result policy i params win d (ingest policy i params d).
Proof. intros Hc Hi Hd. exact (ingest_spec policy i params win d Hc Hi Hd). Qed.

(** C14. Every command that a successful dispatch writes is well-formed for its
    network and carries the input's message: the envelope is well-formed and
    unwraps to it, the BitChat packet decodes to a public message with its text
    and time, the LXMF message to its text, the JSON is that of a verifying event
    that carries it, and a drop names its key. *)
Theorem bridge_commands_typed policy i params win d n d' :
  call_ok policy params -> wrap_params_ok (dp_wrap params) -> input_ok i -> dispatch_ok N win d ->
  ingest policy i params d = (Ok n, d') ->
  exists m, input_message i m /\ 1 <= n <= len (d_commands d') /\ Forall (command_carries m) (take (Z.to_nat n) (d_commands d')).
Proof.
  intros Hc Hp Hi Hd E. destruct (ingest_spec policy i params win d Hc Hi Hd) as [(m & Hm & H)|(_ & e & d2 & E2 & _)]; [|congruence].
  rewrite E in H. exists m. split; [done|]. destruct (input_message_valid i m Hi Hm) as [Hok Hval].
  destruct H as [(_ & -> & _ & _ & ->)|(_ & _ & _ & e & cs & Hw & Hcs & -> & _ & ->)].
  - rewrite len_cons. pose proof (len_nonneg (drop 1 (d_commands d))). split; [lia|]. change (Z.to_nat 1) with 1%nat. cbn [take].
    apply list.Forall_cons. split; [split; [done|by left]|]. by apply list.Forall_nil.
  - rewrite len_cons, len_app. pose proof (len_nonneg cs). pose proof (len_nonneg (drop (Z.to_nat (1 + len cs)) (d_commands d))). split; [lia|].
    rewrite take_commands.
    apply list.Forall_cons. split; [by eapply wrap_carries|].
    apply list.Forall_forall. intros c Hin. apply list_elem_of_lookup in Hin as [j Hj].
    destruct (Forall2_lookup_r _ _ _ _ _ Hcs Hj) as (q & _ & Hq). eapply command_for_carries; [done..|apply Hc|exact Hq].
Qed.

(** C13. No echo and no repetition: a message is sent to each protocol at most
    once, only to protocols of the policy, and never back to the one it came from
    unless the policy says so. *)
Theorem bridge_no_echo policy i params win d n d' :
  call_ok policy params -> input_ok i -> dispatch_ok N win d -> ingest policy i params d = (Ok n, d') ->
  NoDup (omap command_protocol (take (Z.to_nat n) (d_commands d'))) /\
  forall q, q ∈ omap command_protocol (take (Z.to_nat n) (d_commands d')) ->
    q = Hyf \/ Some q ∈ egress_protocols policy /\ (allow_echo policy = true \/ q <> input_protocol i).
Proof.
  intros Hc Hi Hd E. destruct (ingest_spec policy i params win d Hc Hi Hd) as [(m & Hm & H)|(_ & e & d2 & E2 & _)]; [|congruence].
  rewrite E in H. destruct H as [(_ & -> & _ & _ & ->)|(_ & _ & _ & e & cs & Hw & Hcs & -> & _ & ->)].
  - change (Z.to_nat 1) with 1%nat. cbn. split; [apply NoDup_nil_2|]. intros q Hq. by apply not_elem_of_nil in Hq.
  - rewrite take_commands. cbn [omap list_omap command_protocol].
    destruct (commands_sublist _ _ _ _ _ Hcs) as [Hsub Hh]. pose proof (selection_nodup policy (input_protocol i)) as Hnd. split.
    + apply NoDup_cons. split; [by apply Hh|]. by eapply sublist_NoDup.
    + intros q [->|Hq]%list.elem_of_cons; [by left|right]. apply selection_in. eapply elem_of_sublist; [exact Hq|exact Hsub].
Qed.

Lemma message_bytes_inj m m' : message_ok m -> message_valid m -> message_ok m' -> message_valid m' -> message_bytes m = message_bytes m' -> m = m'.
Proof.
  intros Ho Hv Ho' Hv' E. pose proof (decode_message_bytes m Ho Hv) as D. rewrite E, decode_message_bytes in D by done. by injection D.
Qed.

Lemma input_message_unique i m m' : input_ok i -> input_message i m -> input_message i m' -> m = m'.
Proof.
  intros Hi H H'. destruct (input_message_valid i m Hi H), (input_message_valid i m' Hi H').
  destruct i as [raw p|raw p|ev]; cbn [input_message] in *.
  - destruct H as (g & Hg & -> & _), H' as (g' & Hg' & -> & _). congruence.
  - destruct H as (g & Hg & -> & _), H' as (g' & Hg' & -> & _). congruence.
  - destruct H as [H _], H' as [H' _]. apply message_bytes_inj; [done..|].
    assert (hex_bytes (message_bytes m) = hex_bytes (message_bytes m')) as E by (by rewrite <- (cm_content _ _ H), <- (cm_content _ _ H')).
    assert (len (message_bytes m) = len (message_bytes m')) as El.
    { pose proof (hex_bytes_len (message_bytes m)). pose proof (hex_bytes_len (message_bytes m')). rewrite E in *. lia. }
    pose proof (decode_fixed_hex_ok (len (message_bytes m)) (message_bytes m) (conj eq_refl (message_bytes_ok m ltac:(done) ltac:(done)))) as D1.
    pose proof (decode_fixed_hex_ok (len (message_bytes m')) (message_bytes m') (conj eq_refl (message_bytes_ok m' ltac:(done) ltac:(done)))) as D2.
    rewrite E, El, D2 in D1. congruence.
Qed.

(** Duplicates stay out: once a message has gone out, and while fewer calls
    than the window's capacity follow it, whatever they are, every input that
    stands for a message with the same room and identifier, from whichever
    network, gives the single drop and sends nothing. *)
Theorem bridge_duplicate_window c c2 calls win d n d1 e m m2 :
  bridge_call_ok c -> bridge_call_ok c2 -> Forall bridge_call_ok calls -> dispatch_ok N win d ->
  call_ingest c d = (Ok n, d1) -> d_commands d1 !! 0%nat = Some (EmitHyfEnvelope e) -> len calls < N ->
  input_message (bc_input c) m -> input_message (bc_input c2) m2 -> message_key m = message_key m2 -> 0 < len (bc_commands c2) ->
  exists d2, call_ingest c2 (run_calls calls d1) = (Ok 1, d2) /\ d_commands d2 = Drop (message_key m) Duplicate :: drop 1 (bc_commands c2).
Proof.
  intros [Hc Hi] [Hc2 Hi2] Hcs Hd E He Hl Hm Hm2 Hk Hlen. unfold call_ingest in E.
  pose proof (dispatch_ok_commands win d (bc_commands c) Hd) as Hd1.
  destruct (ingest_spec _ _ _ win _ Hc Hi Hd1) as [(m' & Hm' & H)|(_ & e' & d' & E' & _)]; [|congruence]. rewrite E in H.
  pose proof (input_message_unique _ _ _ Hi Hm Hm') as <-.
  destruct H as [(_ & _ & _ & _ & Hx)|(_ & _ & Hw & _)]; [by rewrite Hx in He|].
  destruct (run_window calls _ d1 Hcs Hw) as (pre & Hp & Hrun). set (d' := run_calls calls d1) in *.
  pose proof (dispatch_ok_commands _ d' (bc_commands c2) Hrun) as Hd2.
  assert (message_key m2 ∈ take (Z.to_nat N) (pre ++ take (Z.to_nat N) (message_key m :: win))) as Hin.
  { rewrite <- Hk. pose proof (len_nonneg calls). rewrite take_app. apply elem_of_app. right. rewrite take_take.
    replace ((Z.to_nat N - length pre) `min` Z.to_nat N)%nat with (S (Z.to_nat N - length pre - 1)) by (unfold len in *; lia). by left. }
  unfold call_ingest. destruct (ingest_spec _ _ _ _ _ Hc2 Hi2 Hd2) as [(m3 & Hm3 & H)|(Hno & _)]; [|by destruct (Hno m2)].
  pose proof (input_message_unique _ _ _ Hi2 Hm2 Hm3) as <-.
  clear E. destruct (ingest _ _ _ _) as [[n2|e2|] d2]; [| |done].
  - destruct H as [(_ & -> & _ & _ & Hx)|(Hn & _)]; [|by destruct Hn]. exists d2. split; [done|]. by rewrite Hx, Hk.
  - destruct H as [_ H]. specialize (H Hin). cbn [d_commands] in H. by rewrite H in Hlen.
Qed.
End ingests.

Lemma dispatch_ok_new N commands :
  0 <= N -> dispatch_ok N [] (mk_dispatch (BridgeDedupeSet_new N) BridgeRuntimeScratch_new commands).
Proof.
  intros HN. split; [by apply ring_shape_empty|done|].
  split; [apply len_zeros; unfold HYF_BRIDGE_MESSAGE_MAX_LEN; lia
    |apply len_zeros; unfold BITCHAT_BRIDGE_PACKET_MAX_LEN, BITCHAT_CORE_PACKET_MAX_LEN; lia
    |apply len_zeros; unfold LXMF_BRIDGE_MESSAGE_MAX_LEN, LXMF_MESSAGE_MAX_LEN; lia
    |split; apply len_zeros; unfold HYF_BRIDGE_MESSAGE_MAX_LEN; lia
    |apply len_zeros; unfold HYF_NOSTR_BRIDGE_EVENT_JSON_MAX_LEN; lia].
Qed.

(** ** Witnesses *)
(** A gateway with a window of two keys that bridges the three networks, and a
    BitChat packet for it. *)
Definition sample_policy : BridgeRoutePolicy := BridgeRoutePolicy_no_echo [Some PBitChat; Some PLxmf; Some PNostr; Some PLxmf].
Definition sample_dispatch_params : BridgeRuntimeDispatchParams :=
  mk_dispatch_params sample_params (mk_egress (Some sample_egress_params) (Some lxmf_egress_params) (Some (mk_nostr_egress sample_secret 5))).
Definition sample_commands : list BridgeRuntimeCommand := replicate 5 (Drop (mk_key [] []) MalformedInput).
Definition sample_state : dispatch := mk_dispatch (BridgeDedupeSet_new 2) BridgeRuntimeScratch_new sample_commands.
Definition sample_input : ingest_input := InBitchat sample_public sample_ingress_params.
Definition sample_call : bridge_call := mk_call sample_policy sample_input sample_dispatch_params sample_commands.

Lemma sample_call_ok : call_ok 2 4 sample_policy sample_dispatch_params.
Proof.
  split; [lia|reflexivity|]. split; cbn [sample_dispatch_params dp_egress ep_bitchat ep_lxmf ep_nostr].
  - intros p [= <-]. exact bitchat_sample_egress_ok.
  - intros p [= <-]. exact lxmf_egress_params_ok.
  - intros p [= <-]. unfold u64_ok. cbn [nep_created_at]. lia.
Qed.
Lemma sample_dispatch_sample_wrap_params_ok : wrap_params_ok (dp_wrap sample_dispatch_params).
Proof. split_and!; try (vm_compute; done). split; [reflexivity|]. apply (bool_decide_unpack _). vm_compute. exact I. Qed.
Lemma sample_input_ok : input_ok sample_input.
Proof. split_and!; [|split; [reflexivity|]..]; apply (bool_decide_unpack _); vm_compute; exact I. Qed.
Lemma sample_state_ok : dispatch_ok 2 [] sample_state.
Proof. apply dispatch_ok_new. lia. Qed.

(** The state after the packet, and that it went out as four commands. *)
Definition sample_after : dispatch := snd (ingest 2 4 sample_policy sample_input sample_dispatch_params sample_state).
Lemma sample_ingest : ingest 2 4 sample_policy sample_input sample_dispatch_params sample_state = (Ok 3, sample_after).
Proof. vm_compute. reflexivity. Qed.

Lemma bridge_dispatch_exact_witness :
  ingest_result 2 sample_policy sample_input sample_dispatch_params [] sample_state
    (ingest 2 4 sample_policy sample_input sample_dispatch_params sample_state) /\
  fst (ingest 2 4 sample_policy sample_input sample_dispatch_params sample_state) = Ok 3.
Proof.
  split; [exact (bridge_dispatch_exact 2 4 sample_policy sample_input sample_dispatch_params [] sample_state
    sample_call_ok sample_input_ok sample_state_ok)|vm_compute; reflexivity].
Defined.

Lemma bridge_commands_typed_witness :
  exists m, input_message sample_input m /\ Forall (command_carries m) (take 3 (d_commands sample_after)).
Proof.
  destruct (bridge_commands_typed 2 4 sample_policy sample_input sample_dispatch_params [] sample_state 3 sample_after
    sample_call_ok sample_dispatch_sample_wrap_params_ok sample_input_ok sample_state_ok sample_ingest) as (m & Hm & _ & H).
  exists m. split; [exact Hm|exact H].
Defined.

Lemma bridge_no_echo_witness : omap command_protocol (take 3 (d_commands sample_after)) = [Hyf; PLxmf; PNostr] /\
  NoDup (omap command_protocol (take 3 (d_commands sample_after))).
Proof.
  split; [vm_compute; reflexivity|].
  exact (proj1 (bridge_no_echo 2 4 sample_policy sample_input sample_dispatch_params [] sample_state 3 sample_after
    sample_call_ok sample_input_ok sample_state_ok sample_ingest)).
Defined.

Lemma bridge_duplicate_window_witness :
  exists d2, call_ingest 2 4 sample_call (run_calls 2 4 [] sample_after) = (Ok 1, d2).
Proof.
  destruct (bitchat_packet_to_bridge_message sample_public sample_ingress_params) as [g|e|] eqn:Hg; [|vm_compute in Hg; discriminate Hg..].
  assert (input_message sample_input (BridgeBitchat.bridge_message g)) as Hm.
  { exists g. split; [exact Hg|]. split; [reflexivity|]. destruct sample_input_ok as (Hb & Hr & Hi).
    apply (ingress_message_valid sample_public sample_ingress_params g Hb Hg Hr Hi). vm_compute in Hg. injection Hg as <-.
    split_and!; vm_compute; discriminate. }
  assert (exists e, d_commands sample_after !! 0%nat = Some (EmitHyfEnvelope e)) as [e He] by (eexists; vm_compute; reflexivity).
  assert (len (@nil bridge_call) < 2) as Hl by (vm_compute; reflexivity).
  assert (0 < len (bc_commands sample_call)) as Hc by (vm_compute; reflexivity).
  destruct (bridge_duplicate_window 2 4 sample_call sample_call [] [] sample_state 3 sample_after e _ _
    (conj sample_call_ok sample_input_ok) (conj sample_call_ok sample_input_ok) (List.Forall_nil _) sample_state_ok
    sample_ingest He Hl Hm Hm eq_refl Hc) as (d2 & H & _).
  exists d2. exact H.
Defined.
