(* ===== verification/Store.v ===== *)
(** [hyf_store]: the bounded store of pending frames
    (src/crates/hyf_store/src/store.rs, policy.rs, error.rs).

    A store is an array of [N] optional records of at most [FRAME_MAX] bytes.
    Its abstraction is the finite map [store_map] from message ids to stored
    frames; the operations are proved to be the map operations they promise,
    and [pending]/[first_pending] to enumerate the map in delivery order. *)
From stdpp Require Import gmap sorting.
From S2P Require Import Prelude Cursor Core Wire.

(** ** Data *)
Inductive StoreError :=
| Full
| Duplicate
| Expired
| FrameTooLarge (actual maximum : Z)
| InvalidEnvelope (e : HyfWireError)
| NotFound
| OutputTooSmall (actual required : Z).

Record StorePolicy := mk_policy { reject_expired_on_put : bool }.
Definition StorePolicy_new : StorePolicy := mk_policy true.

Record StoredFrameRef := mk_stored {
  sf_message_id : list Z;
  sf_created_at_ms : Z;
  sf_expires_at_ms : Z;
  sf_bytes : list Z;
}.
#[export] Instance StoredFrameRef_eq_dec : EqDecision StoredFrameRef.
Proof. solve_decision. Defined.

Record StoreMetadata := mk_metadata {
  sm_message_id : list Z;
  sm_created_at_ms : Z;
  sm_expires_at_ms : Z;
}.

Record StoreRecord := mk_record {
  sr_bytes : list Z;  (* [u8; FRAME_MAX] *)
  sr_len : Z;
  sr_message_id : list Z;
  sr_created_at_ms : Z;
  sr_expires_at_ms : Z;
}.

Record Store := mk_store {
  policy : StorePolicy;
  records : list (option StoreRecord);  (* [Option<StoreRecord>; N] *)
}.

Definition metadata_for (e : HyfEnvelopeRef) : StoreMetadata :=
  mk_metadata (message_id e) (created_at_ms e) (expires_at_ms e).

Definition is_expired_at_creation (e : HyfEnvelopeRef) : bool :=
  expires_at_ms e <=? created_at_ms e.

(** [StoreRecord::as_ref] *)
Definition as_ref {E} (r : StoreRecord) : outcome E StoredFrameRef :=
  bytes ← slice (sr_bytes r) 0 (sr_len r);
  Ok (mk_stored (sr_message_id r) (sr_created_at_ms r) (sr_expires_at_ms r) bytes).

(** The delivery order: expiry, then creation, then message id. *)
Definition precedes (exp cre : Z) (id : list Z) (exp' cre' : Z) (id' : list Z) : bool :=
  (exp <? exp')
  || ((exp =? exp') && (cre <? cre'))
  || ((exp =? exp') && (cre =? cre') && lex_lt id id').

Definition record_precedes (r existing : StoreRecord) : bool :=
  precedes (sr_expires_at_ms r) (sr_created_at_ms r) (sr_message_id r)
    (sr_expires_at_ms existing) (sr_created_at_ms existing) (sr_message_id existing).

Definition frame_precedes (r existing : StoredFrameRef) : bool :=
  precedes (sf_expires_at_ms r) (sf_created_at_ms r) (sf_message_id r)
    (sf_expires_at_ms existing) (sf_created_at_ms existing) (sf_message_id existing).

(** ** Operations *)
Definition Store_len (s : Store) : Z := len (occupied (records s)).
Definition Store_is_empty (s : Store) : bool := Store_len s =? 0.

Definition find_index (s : Store) (id : list Z) : option Z :=
  position_some (fun existing => bool_decide (sr_message_id existing = id)) (records s).

Definition first_free_index (s : Store) : option Z := position_none (records s).

Definition contains (s : Store) (id : list Z) : bool :=
  match find_index s id with Some _ => true | None => false end.

Definition decode_error (s : Store) (e : HyfWireError) : StoreError :=
  if reject_expired_on_put (policy s) && match e with InvalidExpiry => true | _ => false end
  then Expired else InvalidEnvelope e.

Definition remove (id : list Z) : io Store StoreError unit :=
  s ← get;
  match find_index s id with
  | None => lift (Err NotFound)
  | Some index =>
      records' ← lift (set_at (records s) index None);
      put (mk_store (policy s) records')
  end.

(** The loop over [&mut self.records]: the new array and the counter. *)
Fixpoint expire_loop (now : Z) (l : list (option StoreRecord)) (removed : Z)
  : list (option StoreRecord) * Z :=
  match l with
  | [] => ([], removed)
  | record :: l' =>
      let drop_it := match record with Some existing => sr_expires_at_ms existing <=? now | None => false end in
      let '(rest, n) := expire_loop now l' (if drop_it then removed + 1 else removed) in
      ((if drop_it then None else record) :: rest, n)
  end.
Definition expire_before (now : Z) (s : Store) : Z * Store :=
  let '(records', removed) := expire_loop now (records s) 0 in
  (removed, mk_store (policy s) records').

(** [while index > 0 && frame_precedes(record, out[index - 1])] *)
Fixpoint insert_pending_loop {E} (index : nat) (record : StoredFrameRef) (out : list StoredFrameRef)
  : outcome E (list StoredFrameRef) :=
  match index with
  | O => set_at out 0 record
  | S i =>
      prev ← Prelude.index out (Z.of_nat i);
      if frame_precedes record prev then
        out' ← set_at out (Z.of_nat (S i)) prev;
        insert_pending_loop i record out'
      else set_at out (Z.of_nat (S i)) record
  end.
Definition insert_pending {E} (out : list StoredFrameRef) (written : Z) (record : StoredFrameRef)
  : outcome E (list StoredFrameRef) :=
  insert_pending_loop (Z.to_nat written) record out.

Fixpoint pending_loop {E} (l : list StoreRecord) (written : Z) : io (list StoredFrameRef) E Z :=
  match l with
  | [] => mret written
  | record :: l' =>
      r ← lift (as_ref record);
      out ← get;
      out' ← lift (insert_pending out written r);
      _ ← put out';
      pending_loop l' (written + 1)
  end.

Definition pending (s : Store) : io (list StoredFrameRef) StoreError Z :=
  let count := Store_len s in
  out ← get;
  _ ← lift (guard_err (len out <? count) (OutputTooSmall (len out) count));
  pending_loop (occupied (records s)) 0.

(** The loop of [first_pending]; [Err tt] is the early return of [?]. *)
Fixpoint first_pending_loop (all : list (option StoreRecord)) (i : Z) (l : list (option StoreRecord))
    (selected : option Z) : outcome unit (option Z) :=
  match l with
  | [] => Ok selected
  | None :: l' => first_pending_loop all (i + 1) l' selected
  | Some record :: l' =>
      selected' ←
        match selected with
        | Some existing =>
            slot ← index all existing;
            existing_record ← ok_or slot tt;
            Ok (if negb (record_precedes record existing_record) then Some existing else Some i)
        | None => Ok (Some i)
        end;
      first_pending_loop all (i + 1) l' selected'
  end.

Definition first_pending (s : Store) : outcome unit (option StoredFrameRef) :=
  selected ← first_pending_loop (records s) 0 (records s) None;
  match selected with
  | None => Ok None
  | Some i =>
      slot ← index (records s) i;
      match slot with
      | None => Ok None
      | Some r => f ← as_ref r; Ok (Some f)
      end
  end.

Section store.
(** The const generics [N] and [FRAME_MAX]. *)
Context (N FRAME_MAX : Z).

Definition Store_new (p : StorePolicy) : Store := mk_store p (replicate (Z.to_nat N) None).

Definition StoreRecord_new {E} (frame : list Z) (m : StoreMetadata) : outcome E StoreRecord :=
  bytes ← write_at (zeros FRAME_MAX) 0 frame;
  Ok (mk_record bytes (len frame) (sm_message_id m) (sm_created_at_ms m) (sm_expires_at_ms m)).

Definition put_valid_frame (frame : list Z) (m : StoreMetadata) : io Store StoreError unit :=
  s ← get;
  _ ← lift (guard_err (contains s (sm_message_id m)) Duplicate);
  match first_free_index s with
  | None => lift (Err Full)
  | Some index =>
      record ← lift (StoreRecord_new frame m);
      records' ← lift (set_at (records s) index (Some record));
      put (mk_store (policy s) records')
  end.

Definition put_envelope (e : HyfEnvelopeRef) : io Store StoreError unit :=
  s ← get;
  _ ← lift (guard_err (reject_expired_on_put (policy s) && is_expired_at_creation e) Expired);
  required ← lift (map_err InvalidEnvelope (envelope_encoded_len e));
  _ ← lift (guard_err (required >? FRAME_MAX) (FrameTooLarge required FRAME_MAX));
  let '(encoded, frame) := encode_envelope e (zeros FRAME_MAX) in
  n ← lift (map_err InvalidEnvelope encoded);
  bytes ← lift (slice frame 0 n);
  put_valid_frame bytes (metadata_for e).

Definition put_frame (frame : list Z) : io Store StoreError unit :=
  s ← get;
  _ ← lift (guard_err (len frame >? FRAME_MAX) (FrameTooLarge (len frame) FRAME_MAX));
  envelope ← lift (map_err (decode_error s) (decode_envelope frame));
  put_valid_frame frame (metadata_for envelope).
End store.

(** ** Lemmas: the delivery order *)
Lemma precedes_asym e c i e' c' i' : precedes e c i e' c' i' = true -> precedes e' c' i' e c i = false.
Proof.
  unfold precedes. rewrite !orb_true_iff, !orb_false_iff, !andb_true_iff, !andb_false_iff,
    !Z.ltb_lt, !Z.ltb_ge, !Z.eqb_eq, !Z.eqb_neq.
  pose proof (lex_lt_asym i i'). destruct (lex_lt i i') eqn:E1, (lex_lt i' i) eqn:E2; intuition (try lia; try congruence).
Qed.

Lemma precedes_total e c i e' c' i' :
  precedes e c i e' c' i' = false -> precedes e' c' i' e c i = false -> i = i'.
Proof.
  unfold precedes. rewrite !orb_false_iff, !andb_false_iff, !Z.ltb_ge, !Z.eqb_neq.
  intros. apply lex_lt_total; intuition lia.
Qed.

Lemma precedes_false_trans e1 c1 i1 e2 c2 i2 e3 c3 i3 :
  precedes e2 c2 i2 e1 c1 i1 = false -> precedes e3 c3 i3 e2 c2 i2 = false ->
  precedes e3 c3 i3 e1 c1 i1 = false.
Proof.
  unfold precedes. rewrite !orb_false_iff, !andb_false_iff, !Z.ltb_ge, !Z.eqb_neq.
  pose proof (lex_lt_false_trans i1 i2 i3).
  destruct (lex_lt i2 i1) eqn:E1, (lex_lt i3 i2) eqn:E2, (lex_lt i3 i1) eqn:E3; intuition (try lia).
Qed.

Definition frame_le (a b : StoredFrameRef) : Prop := frame_precedes b a = false.

Lemma frame_le_trans a b c : frame_le a b -> frame_le b c -> frame_le a c.
Proof. apply precedes_false_trans. Qed.
Lemma frame_le_of_precedes a b : frame_precedes a b = true -> frame_le a b.
Proof. apply precedes_asym. Qed.
Lemma frame_le_refl a : frame_le a a.
Proof.
  unfold frame_le. destruct (frame_precedes a a) eqn:E; [|done].
  pose proof (frame_le_of_precedes a a E) as E'. unfold frame_le in E'. congruence.
Qed.
Lemma frame_le_antisym a b : frame_le a b -> frame_le b a -> sf_message_id a = sf_message_id b.
Proof. intros H1 H2. symmetry. by eapply precedes_total. Qed.

(** ** Representation invariant and abstraction *)
(** The frame a record stands for. *)
Definition frame_of (r : StoreRecord) : StoredFrameRef :=
  mk_stored (sr_message_id r) (sr_created_at_ms r) (sr_expires_at_ms r)
    (take (Z.to_nat (sr_len r)) (sr_bytes r)).

(** A stored frame is the encoding of a valid envelope with its metadata. *)
Definition frame_ok (f : StoredFrameRef) : Prop :=
  exists e, envelope_ok e /\ validate_envelope e = Ok tt /\ sf_bytes f = envelope_bytes e /\
    sf_message_id f = message_id e /\ sf_created_at_ms f = created_at_ms e /\
    sf_expires_at_ms f = expires_at_ms e.

Definition stored_frame (e : HyfEnvelopeRef) (frame : list Z) : StoredFrameRef :=
  mk_stored (message_id e) (created_at_ms e) (expires_at_ms e) frame.

Section invariant.
Context (N FRAME_MAX : Z).

Record record_ok (r : StoreRecord) : Prop := {
  ro_bytes : len (sr_bytes r) = FRAME_MAX;
  ro_len : 0 <= sr_len r <= FRAME_MAX;
  ro_frame : frame_ok (frame_of r);
}.

Record store_ok (s : Store) : Prop := {
  so_slots : len (records s) = N;
  so_records : Forall record_ok (occupied (records s));
  so_ids : NoDup (sr_message_id <$> occupied (records s));
}.
End invariant.

(** The store as a finite map. *)
Definition entry (r : StoreRecord) : list Z * StoredFrameRef := (sr_message_id r, frame_of r).
Definition store_map (s : Store) : gmap (list Z) StoredFrameRef :=
  list_to_map (entry <$> occupied (records s)).

Lemma entry_keys l : (entry <$> l).*1 = sr_message_id <$> l.
Proof. rewrite <- list_fmap_compose. by apply list_fmap_ext. Qed.

Section invariant_lemmas.
Context {N FRAME_MAX : Z}.
Implicit Types s : Store.

Lemma as_ref_ok {E} r : record_ok FRAME_MAX r -> as_ref (E:=E) r = Ok (frame_of r).
Proof. intros [Hb Hl _]. unfold as_ref. by rewrite slice_prefix by lia. Qed.

Lemma store_map_lookup s id f :
  store_ok N FRAME_MAX s ->
  store_map s !! id = Some f <->
  exists r, r ∈ occupied (records s) /\ sr_message_id r = id /\ frame_of r = f.
Proof.
  intros [_ _ Hnd]. unfold store_map. rewrite <- elem_of_list_to_map by (by rewrite entry_keys).
  rewrite list_elem_of_fmap. unfold entry. split.
  - intros (r & ? & ?). simplify_eq. eauto.
  - intros (r & ? & <- & <-). eauto.
Qed.

Lemma store_map_size s : store_ok N FRAME_MAX s -> Z.of_nat (size (store_map s)) = Store_len s.
Proof.
  intros [_ _ Hnd]. unfold store_map, Store_len, len.
  rewrite map_size_list_to_map by (by rewrite entry_keys). by rewrite length_fmap.
Qed.

Lemma store_map_perm s s' :
  store_ok N FRAME_MAX s -> occupied (records s) ≡ₚ occupied (records s') -> store_map s = store_map s'.
Proof.
  intros [_ _ Hnd] Hp. apply list_to_map_proper; [by rewrite entry_keys|].
  by rewrite Hp.
Qed.

Lemma find_index_map s id :
  store_ok N FRAME_MAX s ->
  match find_index s id with
  | Some i => 0 <= i < len (records s) /\
      exists r, records s !! Z.to_nat i = Some (Some r) /\ sr_message_id r = id
  | None => store_map s !! id = None
  end.
Proof.
  intros Hs. unfold find_index.
  pose proof (position_some_spec (fun r => bool_decide (sr_message_id r = id)) (records s)) as H.
  destruct (position_some _ (records s)) as [i|].
  - destruct H as (Hi & r & Hr & Hid & _). apply bool_decide_eq_true in Hid. eauto.
  - apply not_elem_of_list_to_map_1. rewrite entry_keys.
    intros (r & -> & Hr)%list_elem_of_fmap. specialize (H r Hr).
    by apply bool_decide_eq_false in H.
Qed.

Lemma contains_map s id :
  store_ok N FRAME_MAX s -> contains s id = bool_decide (is_Some (store_map s !! id)).
Proof.
  intros Hs. pose proof (find_index_map s id Hs) as H. unfold contains.
  destruct (find_index s id) as [i|].
  - destruct H as (_ & r & Hr & Hid). symmetry. apply bool_decide_eq_true.
    exists (frame_of r). apply store_map_lookup; [done|].
    exists r. split_and!; [|done|done]. apply elem_of_occupied. by eapply list_elem_of_lookup_2.
  - symmetry. apply bool_decide_eq_false. rewrite H. by intros [].
Qed.

Lemma first_free_full s :
  store_ok N FRAME_MAX s -> first_free_index s = None -> Z.of_nat (size (store_map s)) = N.
Proof.
  intros Hs H. rewrite store_map_size by done. destruct Hs as [Hn _ _].
  pose proof (position_none_spec (records s)) as Hf. unfold first_free_index in H.
  rewrite H in Hf. unfold Store_len, len in *. lia.
Qed.

Lemma first_free_some s i :
  store_ok N FRAME_MAX s -> first_free_index s = Some i ->
  0 <= i < len (records s) /\ records s !! Z.to_nat i = Some None /\
  Z.of_nat (size (store_map s)) < N.
Proof.
  intros Hs H. rewrite store_map_size by done. destruct Hs as [Hn _ _].
  pose proof (position_none_room _ _ H). pose proof (position_none_spec (records s)) as Hf.
  unfold first_free_index in H. rewrite H in Hf. destruct Hf as (? & ? & _).
  split_and!; [lia.. | done | unfold Store_len; lia].
Qed.
End invariant_lemmas.

(** ** The abstract store *)
Inductive StoreOp :=
| OpPutEnvelope (e : HyfEnvelopeRef)
| OpPutFrame (frame : list Z)
| OpRemove (id : list Z)
| OpExpireBefore (now : Z).

(** What the Rust types guarantee of the arguments. *)
Definition op_ok (op : StoreOp) : Prop :=
  match op with
  | OpPutEnvelope e => envelope_ok e
  | OpPutFrame frame => bytes_ok frame
  | _ => True
  end.

Section spec.
Context (N FRAME_MAX : Z) (p : StorePolicy).

Definition spec_insert (e : HyfEnvelopeRef) (frame : list Z) (m : gmap (list Z) StoredFrameRef)
  : outcome StoreError Z * gmap (list Z) StoredFrameRef :=
  if bool_decide (is_Some (m !! message_id e)) then (Err Duplicate, m)
  else if Z.of_nat (size m) <? N then (Ok 0, <[message_id e := stored_frame e frame]> m)
  else (Err Full, m).

Definition spec_op (op : StoreOp) (m : gmap (list Z) StoredFrameRef)
  : outcome StoreError Z * gmap (list Z) StoredFrameRef :=
  match op with
  | OpPutEnvelope e =>
      if reject_expired_on_put p && (expires_at_ms e <=? created_at_ms e) then (Err Expired, m)
      else match validate_envelope e with
      | Err err => (Err (InvalidEnvelope err), m)
      | _ =>
          let n := len (envelope_bytes e) in
          if FRAME_MAX <? n then (Err (FrameTooLarge n FRAME_MAX), m)
          else spec_insert e (envelope_bytes e) m
      end
  | OpPutFrame frame =>
      if FRAME_MAX <? len frame then (Err (FrameTooLarge (len frame) FRAME_MAX), m)
      else match decode_envelope frame with
      | Ok e => spec_insert e frame m
      | Err InvalidExpiry =>
          (Err (if reject_expired_on_put p then Expired else InvalidEnvelope InvalidExpiry), m)
      | Err err => (Err (InvalidEnvelope err), m)
      | Panic => (Panic, m)
      end
  | OpRemove id =>
      match m !! id with
      | None => (Err NotFound, m)
      | Some _ => (Ok 0, delete id m)
      end
  | OpExpireBefore now =>
      let m' := filter (fun kv => now < sf_expires_at_ms kv.2) m in
      (Ok (Z.of_nat (size m) - Z.of_nat (size m')), m')
  end.
End spec.

(** The concrete operations, with a common result type. *)
Definition run_op (N FRAME_MAX : Z) (op : StoreOp) : io Store StoreError Z :=
  match op with
  | OpPutEnvelope e => _ ← put_envelope FRAME_MAX e; mret 0
  | OpPutFrame frame => _ ← put_frame FRAME_MAX frame; mret 0
  | OpRemove id => _ ← remove id; mret 0
  | OpExpireBefore now => fun s => let '(n, s') := expire_before now s in (Ok n, s')
  end.

(** [refines s r m]: the result [r] of an operation on [s] matches the
    abstract result [m], and the new store satisfies the invariant. *)
Definition refines (N FRAME_MAX : Z) (s : Store) (r : outcome StoreError Z * Store)
    (m : outcome StoreError Z * gmap (list Z) StoredFrameRef) : Prop :=
  store_ok N FRAME_MAX r.2 /\ policy r.2 = policy s /\ (r.1, store_map r.2) = m.

Section refinement.
Context {N FRAME_MAX : Z}.
Hypothesis HF : 0 <= FRAME_MAX.
Implicit Types s : Store.

Lemma refines_same s o m :
  store_ok N FRAME_MAX s -> m = (o, store_map s) -> refines N FRAME_MAX s (o, s) m.
Proof. by intros ? ->. Qed.

Lemma StoreRecord_new_ok {E} e frame :
  frame = envelope_bytes e -> envelope_ok e -> validate_envelope e = Ok tt -> len frame <= FRAME_MAX ->
  exists r, StoreRecord_new (E:=E) FRAME_MAX frame (metadata_for e) = Ok r /\
    record_ok FRAME_MAX r /\ entry r = (message_id e, stored_frame e frame).
Proof.
  intros Hframe He Hv Hl.
  pose proof (len_nonneg frame). unfold StoreRecord_new.
  rewrite write_zeros by done. eexists. split; [done|].
  assert (take (Z.to_nat (len frame)) (frame ++ zeros (FRAME_MAX - len frame)) = frame) as Ht
    by apply take_len_app.
  split; [|unfold entry, frame_of; simpl; by rewrite Ht].
  split; simpl; [rewrite len_app, len_zeros; lia | lia |].
  exists e. unfold frame_of. simpl. by rewrite Ht.
Qed.

Lemma put_valid_frame_refines s e frame :
  frame = envelope_bytes e -> store_ok N FRAME_MAX s -> envelope_ok e -> validate_envelope e = Ok tt -> len frame <= FRAME_MAX ->
  refines N FRAME_MAX s
    ((_ ← put_valid_frame FRAME_MAX frame (metadata_for e); mret 0) s)
    (spec_insert N e frame (store_map s)).
Proof.
  intros Hframe Hs He Hv Hl. unfold put_valid_frame, spec_insert, get, mbind, io_bind. cbn -[store_map].
  rewrite contains_map by done.
  destruct (bool_decide_reflect (is_Some (store_map s !! message_id e))) as [Hin|Hin];
    [by apply refines_same|].
  destruct (first_free_index s) as [i|] eqn:Hfree.
  2: { eapply first_free_full in Hfree; [|done]. apply refines_same; [done|].
       destruct (Z.ltb_spec (Z.of_nat (size (store_map s))) N); [lia | done]. }
  eapply first_free_some in Hfree as (Hi & Hnone & Hsize); [|done].
  destruct (Z.ltb_spec (Z.of_nat (size (store_map s))) N); [|lia].
  destruct (StoreRecord_new_ok (E:=StoreError) e frame Hframe He Hv Hl) as (r & -> & Hr & Hent).
  cbn -[store_map]. rewrite set_at_ok by done. cbn -[store_map].
  pose proof (occupied_fill _ _ r Hnone) as Hperm. destruct Hs as [Hn Hrec Hids].
  assert (sr_message_id r ∉ sr_message_id <$> occupied (records s)) as Hnew.
  { unfold entry in Hent. injection Hent as -> _. rewrite <- entry_keys.
    intros Hk. apply Hin, not_eq_None_Some. by intros ?%not_elem_of_list_to_map_2. }
  split; [|split; [done|]].
  - split; simpl; [by rewrite len_insert | |].
    + rewrite Hperm. by constructor.
    + rewrite Hperm. simpl. by constructor.
  - simpl. unfold store_map at 1. simpl. f_equal.
    rewrite (list_to_map_proper _ (entry <$> r :: occupied (records s))).
    + by rewrite fmap_cons, Hent.
    + rewrite entry_keys, Hperm. by constructor.
    + by rewrite Hperm.
Qed.

Lemma put_envelope_refines s e :
  store_ok N FRAME_MAX s -> envelope_ok e ->
  refines N FRAME_MAX s (run_op N FRAME_MAX (OpPutEnvelope e) s)
    (spec_op N FRAME_MAX (policy s) (OpPutEnvelope e) (store_map s)).
Proof.
  intros Hs He. cbn [run_op spec_op]. unfold put_envelope, get, mbind, io_bind, is_expired_at_creation.
  cbn -[store_map envelope_bytes].
  destruct (reject_expired_on_put (policy s) && (expires_at_ms e <=? created_at_ms e));
    [by apply refines_same|].
  rewrite envelope_encoded_len_spec by done.
  destruct (validate_envelope e) as [[]|err|] eqn:Hv;
    [|by apply refines_same | by destruct (validate_envelope_safe e)].
  cbn -[store_map envelope_bytes]. rewrite Z.gtb_ltb.
  destruct (Z.ltb_spec FRAME_MAX (len (envelope_bytes e))); [by apply refines_same|].
  rewrite encode_envelope_valid by done. rewrite len_zeros by done.
  destruct (Z.ltb_spec FRAME_MAX (len (envelope_bytes e))); [lia|].
  cbn -[store_map envelope_bytes put_valid_frame].
  pose proof (len_nonneg (envelope_bytes e)).
  rewrite slice_prefix by (rewrite len_app; pose proof (len_nonneg (drop (length (envelope_bytes e)) (zeros FRAME_MAX))); lia).
  rewrite take_len_app. by apply put_valid_frame_refines.
Qed.

Lemma put_frame_refines s frame :
  store_ok N FRAME_MAX s -> bytes_ok frame ->
  refines N FRAME_MAX s (run_op N FRAME_MAX (OpPutFrame frame) s)
    (spec_op N FRAME_MAX (policy s) (OpPutFrame frame) (store_map s)).
Proof.
  intros Hs Hb. cbn [run_op spec_op]. unfold put_frame, get, mbind, io_bind.
  cbn -[store_map]. rewrite Z.gtb_ltb.
  destruct (Z.ltb_spec FRAME_MAX (len frame)); [by apply refines_same|].
  destruct (decode_envelope frame) as [e|err|] eqn:Hd; cbn -[store_map put_valid_frame].
  - apply decode_envelope_inv in Hd as Hinv; [|done]. destruct Hinv as (He & Hv & ->).
    apply put_valid_frame_refines; done.
  - unfold decode_error. destruct err, (reject_expired_on_put (policy s)); by apply refines_same.
  - by apply refines_same.
Qed.

Lemma remove_refines s id :
  store_ok N FRAME_MAX s ->
  refines N FRAME_MAX s (run_op N FRAME_MAX (OpRemove id) s)
    (spec_op N FRAME_MAX (policy s) (OpRemove id) (store_map s)).
Proof.
  intros Hs. cbn [run_op spec_op]. unfold remove, get, mbind, io_bind. cbn -[store_map].
  pose proof (find_index_map s id Hs) as Hfind. destruct (find_index s id) as [i|].
  2: { rewrite Hfind. by apply refines_same. }
  destruct Hfind as (Hi & r & Hr & Hid).
  assert (store_map s !! id = Some (frame_of r)) as ->.
  { apply (store_map_lookup (N:=N) (FRAME_MAX:=FRAME_MAX)); [done|]. exists r. split_and!; [|done|done].
    apply elem_of_occupied. by eapply list_elem_of_lookup_2. }
  cbn -[store_map]. rewrite set_at_ok by done. cbn -[store_map].
  pose proof (occupied_clear _ _ r Hr) as Hperm. destruct Hs as [Hn Hrec Hids].
  rewrite Hperm in Hrec, Hids. inversion Hrec; subst. simpl in Hids.
  apply list.NoDup_cons in Hids as [Hnew Hids].
  split; [|split; [done|]].
  - split; simpl; [by rewrite len_insert | done | done].
  - simpl. f_equal. unfold store_map at 2.
    rewrite (list_to_map_proper _ (entry <$> r :: occupied (<[Z.to_nat i := None]> (records s)))).
    + rewrite fmap_cons. cbn [list_to_map foldr entry fst snd curry]. unfold store_map. simpl.
      rewrite delete_insert_id; [done|]. apply not_elem_of_list_to_map_1. by rewrite entry_keys.
    + rewrite entry_keys, Hperm. simpl. by constructor.
    + by rewrite Hperm.
Qed.

(** The expiry loop filters the occupied slots and counts what it clears. *)
Lemma expire_loop_spec now l k :
  let '(l', n) := expire_loop now l k in
  length l' = length l /\
  occupied l' = filter (fun r => now < sr_expires_at_ms r) (occupied l) /\
  n = k + Z.of_nat (length (occupied l)) - Z.of_nat (length (occupied l')).
Proof.
  revert k. induction l as [|[r|] l IH]; intros k; cbn [expire_loop].
  - split_and!; [done..|cbn; lia].
  - rewrite occupied_some, filter_cons.
    destruct (Z.leb_spec (sr_expires_at_ms r) now), (decide (now < sr_expires_at_ms r)); try lia.
    + specialize (IH (k + 1)). destruct (expire_loop now l (k + 1)) as [l' m].
      rewrite occupied_none. simpl. destruct IH as (-> & -> & ->). split_and!; [done..|simpl; lia].
    + specialize (IH k). destruct (expire_loop now l k) as [l' m].
      rewrite occupied_some. simpl. destruct IH as (-> & -> & ->). split_and!; [done..|simpl; lia].
  - specialize (IH k). destruct (expire_loop now l k) as [l' m].
    rewrite !occupied_none. simpl. destruct IH as (-> & -> & ->). by split_and!.
Qed.

Lemma expire_before_refines s now :
  store_ok N FRAME_MAX s ->
  refines N FRAME_MAX s (run_op N FRAME_MAX (OpExpireBefore now) s)
    (spec_op N FRAME_MAX (policy s) (OpExpireBefore now) (store_map s)).
Proof.
  intros Hs. cbn [run_op spec_op]. unfold expire_before.
  pose proof (expire_loop_spec now (records s) 0) as Hl.
  destruct (expire_loop now (records s) 0) as [l n]. destruct Hl as (Hlen & Hocc & Hn).
  set (s' := mk_store (policy s) l).
  assert (store_ok N FRAME_MAX s') as Hs'.
  { destruct Hs as [Hn' Hrec Hids]. split; simpl; unfold len in *.
    - by rewrite Hlen.
    - rewrite Hocc. apply list.Forall_forall. intros r [_ Hr]%list_elem_of_filter.
      by eapply list.Forall_forall in Hrec.
    - rewrite Hocc. by apply NoDup_fmap_filter. }
  assert (store_map s' = filter (fun kv => now < sf_expires_at_ms kv.2) (store_map s)) as Hm.
  { apply map_eq. intros id. apply option_eq. intros f.
    rewrite map_lookup_filter_Some, !(store_map_lookup (N:=N) (FRAME_MAX:=FRAME_MAX)) by done.
    simpl. rewrite Hocc. setoid_rewrite list_elem_of_filter. split.
    - intros (r & [Hr1 Hr2] & <- & <-). split; [by exists r | done].
    - intros [(r & Hr & <- & <-) ?]. by exists r. }
  split; [done|]. split; [done|]. cbn -[store_map]. rewrite <- Hm. f_equal. f_equal.
  rewrite !(store_map_size (N:=N) (FRAME_MAX:=FRAME_MAX)) by done. unfold Store_len, len. simpl. lia.
Qed.

Lemma run_op_refines s op :
  store_ok N FRAME_MAX s -> op_ok op ->
  refines N FRAME_MAX s (run_op N FRAME_MAX op s) (spec_op N FRAME_MAX (policy s) op (store_map s)).
Proof.
  destruct op; simpl op_ok; intros.
  - by apply put_envelope_refines.
  - by apply put_frame_refines.
  - by apply remove_refines.
  - by apply expire_before_refines.
Qed.

Lemma spec_op_safe p op m : op_ok op -> (spec_op N FRAME_MAX p op m).1 <> Panic.
Proof.
  destruct op; cbn -[envelope_bytes]; unfold spec_insert; intros Hop; repeat case_match; try done.
  by apply decode_envelope_safe in Hop.
Qed.

Lemma Store_new_ok p : 0 <= N -> store_ok N FRAME_MAX (Store_new N p).
Proof.
  intros HN. unfold Store_new. split; simpl; rewrite ?occupied_nones.
  - unfold len. rewrite length_replicate. lia.
  - constructor.
  - constructor.
Qed.

Lemma Store_new_map p : store_map (Store_new N p) = ∅.
Proof. unfold store_map, Store_new. simpl. by rewrite occupied_nones. Qed.
End refinement.

(** A sequence of operations, concretely and abstractly. *)
Fixpoint run_ops (N FRAME_MAX : Z) (ops : list StoreOp) (s : Store)
  : list (outcome StoreError Z) * Store :=
  match ops with
  | [] => ([], s)
  | op :: ops' =>
      let '(r, s1) := run_op N FRAME_MAX op s in
      let '(rs, s2) := run_ops N FRAME_MAX ops' s1 in (r :: rs, s2)
  end.

Fixpoint spec_ops (N FRAME_MAX : Z) (p : StorePolicy) (ops : list StoreOp)
    (m : gmap (list Z) StoredFrameRef) : list (outcome StoreError Z) * gmap (list Z) StoredFrameRef :=
  match ops with
  | [] => ([], m)
  | op :: ops' =>
      let '(r, m1) := spec_op N FRAME_MAX p op m in
      let '(rs, m2) := spec_ops N FRAME_MAX p ops' m1 in (r :: rs, m2)
  end.

Lemma run_ops_refine N FRAME_MAX ops s :
  0 <= FRAME_MAX -> store_ok N FRAME_MAX s -> Forall op_ok ops ->
  let '(rs, s') := run_ops N FRAME_MAX ops s in
  store_ok N FRAME_MAX s' /\
  spec_ops N FRAME_MAX (policy s) ops (store_map s) = (rs, store_map s') /\
  Forall (fun r => r <> Panic) rs.
Proof.
  intros HF. revert s. induction ops as [|op ops IH]; intros s Hs Hops; cbn -[store_map]; [done|].
  inversion Hops as [|? ? Hop Hops']; subst.
  destruct (run_op_refines HF s op Hs Hop) as (Hs1 & Hp & Hm).
  pose proof (spec_op_safe (N:=N) (FRAME_MAX:=FRAME_MAX) (policy s) op (store_map s) Hop) as Hsafe.
  destruct (run_op N FRAME_MAX op s) as [r s1]. simpl in Hs1, Hp, Hm. rewrite <- Hm in *.
  specialize (IH s1 Hs1 Hops'). destruct (run_ops N FRAME_MAX ops s1) as [rs s2].
  destruct IH as (Hs2 & Hspec & Hrs). rewrite Hp in Hspec. rewrite Hspec.
  split_and!; [done | done |]. by constructor.
Qed.

(** C2. Refinement: from the empty store, any sequence of puts (of envelopes
    and of frames), removals and expiries returns exactly the results of the
    same operations on a finite map from message ids to frames with at most
    [N] entries, and ends in a store that stands for that map; nothing
    panics. *)
Theorem store_refines_map N FRAME_MAX p ops :
  0 <= N -> 0 <= FRAME_MAX -> Forall op_ok ops ->
  let '(rs, s) := run_ops N FRAME_MAX ops (Store_new N p) in
  store_ok N FRAME_MAX s /\
  spec_ops N FRAME_MAX p ops ∅ = (rs, store_map s) /\
  Forall (fun r => r <> Panic) rs.
Proof.
  intros HN HF Hops. rewrite <- (Store_new_map (N:=N) p).
  apply (run_ops_refine N FRAME_MAX ops (Store_new N p)); [done | by apply Store_new_ok | done].
Qed.

(** ** Enumeration in delivery order *)
Definition sorted (l : list StoredFrameRef) : Prop := StronglySorted frame_le l.

Lemma sorted_snoc l r : sorted (l ++ [r]) <-> sorted l /\ forall x, x ∈ l -> frame_le x r.
Proof.
  unfold sorted. rewrite StronglySorted_app. split.
  - intros (H1 & H2 & _). split; [done|]. intros x Hx. apply H1; [done | by apply list_elem_of_singleton].
  - intros [H1 H2]. split_and!; [|done|by repeat constructor].
    intros x y Hx ->%list_elem_of_singleton. auto.
Qed.

(** The inner loop inserts into the sorted prefix [l], moving one slot. *)
Lemma insert_pending_loop_spec {E} l r x rest :
  sorted l ->
  exists l', insert_pending_loop (E:=E) (length l) r (l ++ x :: rest) = Ok (l' ++ rest) /\
    l' ≡ₚ r :: l /\ sorted l'.
Proof.
  revert x rest. induction l as [|p l IH] using rev_ind; intros x rest Hs.
  - simpl. rewrite set_at_ok by (rewrite len_cons; pose proof (len_nonneg rest); lia).
    exists [r]. split_and!; [done..|by repeat constructor].
  - apply sorted_snoc in Hs as Hs'. destruct Hs' as [Hl Hp]. rewrite length_app. simpl length.
    rewrite Nat.add_1_r, <- app_assoc. cbn [insert_pending_loop app].
    erewrite index_app by done. cbn [mbind outcome_bind app].
    pose proof (len_nonneg l). pose proof (len_nonneg rest).
    assert (forall y, set_at (E:=E) (l ++ p :: x :: rest) (Z.of_nat (S (length l))) y =
              Ok (l ++ p :: y :: rest)) as Hset.
    { intros y. rewrite set_at_ok by (len_simpl; unfold len in *; lia). rewrite Nat2Z.id. f_equal.
      rewrite insert_app_r_alt by lia. by replace (S (length l) - length l)%nat with 1%nat by lia. }
    destruct (frame_precedes r p) eqn:Hrp; rewrite Hset; cbn [mbind outcome_bind].
    + destruct (IH p (p :: rest) Hl) as (l' & -> & Hperm & Hs'). exists (l' ++ [p]).
      rewrite <- app_assoc. split_and!; [done | by rewrite Hperm |]. apply sorted_snoc.
      split; [done|]. intros y Hy. rewrite Hperm in Hy.
      apply elem_of_cons in Hy as [->|Hy]; [by apply frame_le_of_precedes | auto].
    + exists (l ++ [p; r]). rewrite <- app_assoc. split_and!; [done | |].
      * replace (l ++ [p; r]) with ((l ++ [p]) ++ [r]) by (by rewrite <- app_assoc).
        symmetry. apply Permutation_cons_append.
      * replace (l ++ [p; r]) with ((l ++ [p]) ++ [r]) by (by rewrite <- app_assoc).
        apply sorted_snoc. split; [done|]. intros y [Hy| ->%list_elem_of_singleton]%elem_of_app; [|done].
        eapply frame_le_trans; [by apply Hp | done].
Qed.

Section enumeration.
Context {N FRAME_MAX : Z}.

Lemma pending_loop_spec {E} l done_ rest :
  Forall (record_ok FRAME_MAX) l -> sorted done_ -> (length l <= length rest)%nat ->
  exists l', pending_loop (E:=E) l (len done_) (done_ ++ rest) =
      (Ok (len done_ + len l), l' ++ drop (length l) rest) /\
    l' ≡ₚ done_ ++ (frame_of <$> l) /\ sorted l'.
Proof.
  revert done_ rest. induction l as [|r l IH]; intros d rest Hl Hs Hlen; cbn [pending_loop].
  - exists d. rewrite drop_0, app_nil_r, len_nil, Z.add_0_r. done.
  - inversion Hl as [|? ? Hr Hl']; subst. destruct rest as [|x rest]; [simpl in Hlen; lia|].
    rewrite (as_ref_ok (FRAME_MAX:=FRAME_MAX)), lift_bind_ok by done.
    unfold get at 1, mbind at 1, io_bind at 1. unfold insert_pending. rewrite to_nat_len.
    destruct (insert_pending_loop_spec (E:=E) d (frame_of r) x rest Hs) as (d' & -> & Hperm & Hs').
    rewrite lift_bind_ok. unfold put at 1, mbind at 1, io_bind at 1.
    assert (len d + 1 = len d') as Hd'.
    { unfold len. rewrite Hperm. simpl. lia. }
    rewrite Hd'. destruct (IH d' rest Hl' Hs') as (l' & Hrun & Hp & Hsl); [simpl in Hlen; lia|].
    rewrite Hrun. exists l'. split_and!; [|rewrite Hp, Hperm, fmap_cons; apply Permutation_middle | done].
    rewrite len_cons. f_equal. f_equal. lia.
Qed.

Lemma store_map_frames s :
  store_ok N FRAME_MAX s -> (map_to_list (store_map s)).*2 ≡ₚ frame_of <$> occupied (records s).
Proof.
  intros [_ _ Hids]. unfold store_map. rewrite map_to_list_to_map by (by rewrite entry_keys).
  rewrite <- list_fmap_compose. done.
Qed.

Lemma pending_spec s out :
  store_ok N FRAME_MAX s -> Store_len s <= len out ->
  exists l, pending s out = (Ok (Store_len s), l ++ drop (length l) out) /\
    l ≡ₚ (map_to_list (store_map s)).*2 /\ sorted l.
Proof.
  intros Hs Hlen. unfold pending, get, mbind, io_bind.
  destruct (Z.ltb_spec (len out) (Store_len s)); [lia|]. cbn [lift guard_err].
  destruct (pending_loop_spec (E:=StoreError) (occupied (records s)) [] out) as (l & Hrun & Hp & Hsl).
  { by apply Hs. }
  { constructor. }
  { unfold Store_len, len in Hlen. lia. }
  simpl in Hrun, Hp. exists l. split_and!; [|by rewrite store_map_frames | done].
  change (len (@nil StoredFrameRef)) with 0 in Hrun. rewrite Hrun.
  assert (length l = length (occupied (records s))) as -> by (by rewrite Hp, length_fmap).
  done.
Qed.

(** The scan of [first_pending] keeps the earliest record seen. *)
Lemma first_pending_loop_spec all pre l sel :
  all = pre ++ l ->
  match sel with
  | None => occupied pre = []
  | Some i => 0 <= i /\ exists r, all !! Z.to_nat i = Some (Some r) /\ r ∈ occupied pre /\
      forall x, x ∈ occupied pre -> frame_le (frame_of r) (frame_of x)
  end ->
  exists sel', first_pending_loop all (len pre) l sel = Ok sel' /\
    match sel' with
    | None => occupied all = []
    | Some i => 0 <= i /\ exists r, all !! Z.to_nat i = Some (Some r) /\
        forall x, x ∈ occupied all -> frame_le (frame_of r) (frame_of x)
    end.
Proof.
  revert pre sel. induction l as [|[r|] l IH]; intros pre sel Hall Hsel; cbn [first_pending_loop].
  - exists sel. rewrite app_nil_r in Hall. subst. split; [done|]. destruct sel as [i|]; [|done].
    destruct Hsel as (Hi & r & Hr & _ & Hmin). eauto.
  - assert (all = (pre ++ [Some r]) ++ l) as Hall' by (by rewrite <- app_assoc).
    replace (len pre + 1) with (len (pre ++ [Some r])) by (by rewrite len_app).
    assert (all !! Z.to_nat (len pre) = Some (Some r)) as Hhere.
    { rewrite to_nat_len, Hall. by apply list_lookup_middle. }
    assert (forall x, x ∈ occupied (pre ++ [Some r]) <-> x ∈ occupied pre \/ x = r) as Hocc.
    { intros x. rewrite occupied_app, occupied_some, elem_of_app, list_elem_of_singleton. done. }
    pose proof (len_nonneg pre). destruct sel as [i|].
    + destruct Hsel as (Hi & r' & Hr' & Hin & Hmin).
      erewrite index_ok by done. cbn [mbind outcome_bind ok_or].
      destruct (record_precedes r r') eqn:Hprec; cbn [negb mbind outcome_bind].
      * apply IH; [done|]. split; [done|]. exists r. split_and!; [done | apply Hocc; by right |].
        intros x [Hx| ->]%Hocc; [|apply frame_le_refl].
        eapply frame_le_trans; [apply (frame_le_of_precedes (frame_of r) (frame_of r')), Hprec | by apply Hmin].
      * apply IH; [done|]. split; [done|]. exists r'. split_and!; [done | apply Hocc; by left |].
        intros x [Hx| ->]%Hocc; [by apply Hmin | exact Hprec].
    + cbn [mbind outcome_bind]. apply IH; [done|]. split; [done|]. exists r.
      split_and!; [done | apply Hocc; by right |].
      intros x [Hx| ->]%Hocc; [by rewrite Hsel in Hx; apply not_elem_of_nil in Hx | apply frame_le_refl].
  - replace (len pre + 1) with (len (pre ++ [@None StoreRecord])) by (by rewrite len_app).
    apply IH; [by rewrite <- app_assoc|]. by rewrite occupied_app, occupied_none, app_nil_r.
Qed.
End enumeration.

Lemma first_pending_head N FRAME_MAX s l :
  store_ok N FRAME_MAX s -> l ≡ₚ (map_to_list (store_map s)).*2 -> sorted l ->
  first_pending s = Ok (head l).
Proof.
  intros Hs Hp Hsort. rewrite store_map_frames in Hp by done. unfold first_pending.
  destruct (first_pending_loop_spec (records s) [] (records s) None) as (sel & Hrun & Hsel); [done..|].
  rewrite len_nil in Hrun. rewrite Hrun. cbn [mbind outcome_bind]. destruct sel as [i|].
  2: { rewrite Hsel in Hp. simpl in Hp. symmetry in Hp. by apply Permutation_nil in Hp as ->. }
  destruct Hsel as (Hi & r & Hr & Hmin). erewrite index_ok by done. cbn [mbind outcome_bind].
  assert (r ∈ occupied (records s)) as Hin by (apply elem_of_occupied; by eapply list_elem_of_lookup_2).
  destruct Hs as [Hn Hrec Hids].
  rewrite (as_ref_ok (FRAME_MAX:=FRAME_MAX)) by (by eapply list.Forall_forall in Hrec).
  cbn [mbind outcome_bind]. assert (frame_of r ∈ l) as Hrl by (rewrite Hp; by apply list_elem_of_fmap_2).
  destruct l as [|f l]; [by apply not_elem_of_nil in Hrl|]. cbn [head]. do 2 f_equal.
  assert (f ∈ frame_of <$> occupied (records s)) as (r' & -> & Hr')%list_elem_of_fmap.
  { rewrite <- Hp. by left. }
  apply elem_of_cons in Hrl as [Hrl|Hrl]; [done|].
  apply StronglySorted_inv in Hsort as [_ Hall]. eapply list.Forall_forall in Hall; [|done].
  pose proof (frame_le_antisym _ _ Hall (Hmin r' Hr')) as Hid. simpl in Hid.
  f_equal. by eapply (NoDup_fmap_inj_on sr_message_id).
Qed.

(** The first pending frame is an entry of the map, and a full encoding. *)
Lemma first_pending_map N FRAME_MAX s :
  store_ok N FRAME_MAX s ->
  (first_pending s = Ok None /\ store_map s = ∅) \/
  exists f, first_pending s = Ok (Some f) /\ store_map s !! sf_message_id f = Some f.
Proof.
  intros Hs.
  destruct (pending_spec s (frame_of <$> occupied (records s)) Hs) as (l & _ & Hp & Hsl).
  { rewrite len_map. done. }
  rewrite (first_pending_head N FRAME_MAX s l Hs Hp Hsl). destruct l as [|f l].
  - left. split; [done|]. apply map_to_list_empty_iff.
    apply Permutation_nil_l, (f_equal length) in Hp. rewrite length_fmap in Hp.
    by apply length_zero_iff_nil.
  - right. exists f. split; [done|]. assert (f ∈ (map_to_list (store_map s)).*2) as Hf by (rewrite <- Hp; by left).
    apply list_elem_of_fmap in Hf as ([id g] & -> & Hg). apply elem_of_map_to_list in Hg. simpl.
    pose proof Hg as Hg'. apply (store_map_lookup (N:=N) (FRAME_MAX:=FRAME_MAX)) in Hg' as (r & _ & <- & <-); done.
Qed.

Lemma store_map_frame_ok N FRAME_MAX s id f :
  store_ok N FRAME_MAX s -> store_map s !! id = Some f -> frame_ok f /\ len (sf_bytes f) <= FRAME_MAX /\ sf_message_id f = id.
Proof.
  intros Hs Hf. apply (store_map_lookup (N:=N) (FRAME_MAX:=FRAME_MAX)) in Hf as (r & Hr & <- & <-); [|done].
  destruct Hs as [_ Hrec _]. eapply list.Forall_forall in Hrec as [Hb Hl Hfr]; [|done].
  split_and!; [done | | done]. simpl. rewrite len_take. lia.
Qed.

(** Delivery order: on a store satisfying its invariant, [pending] rejects
    an output slice that is too short without touching it, and otherwise
    writes every frame of the map exactly once, in order of expiry, then
    creation, then message id, in front of the untouched rest of the slice;
    [first_pending] returns the head of that list. *)
Theorem pending_delivery_order N FRAME_MAX s out :
  store_ok N FRAME_MAX s ->
  if len out <? Store_len s
  then pending s out = (Err (OutputTooSmall (len out) (Store_len s)), out)
  else exists l,
    pending s out = (Ok (Store_len s), l ++ drop (length l) out) /\
    l ≡ₚ (map_to_list (store_map s)).*2 /\ sorted l /\
    first_pending s = Ok (head l).
Proof.
  intros Hs. destruct (Z.ltb_spec (len out) (Store_len s)) as [H|H].
  - unfold pending, get, mbind, io_bind. by destruct (Z.ltb_spec (len out) (Store_len s)); [|lia].
  - destruct (pending_spec s out Hs H) as (l & Hrun & Hp & Hsort).
    exists l. split_and!; [done..|]. by eapply first_pending_head.
Qed.

(** ** Witnesses: two stored envelopes of different expiry *)
Definition envelope_a : HyfEnvelopeRef :=
  mk_envelope 0 (replicate 32 1) (replicate 32 9) (Node (replicate 32 4)) 10 200 5 HyfNativeV0 [1; 2].
Definition envelope_b : HyfEnvelopeRef :=
  mk_envelope 0 (replicate 32 2) (replicate 32 9) (Community (replicate 16 4)) 10 100 5 HyfNativeV0 [3].
Definition sample_ops : list StoreOp :=
  [OpPutEnvelope envelope_a; OpPutFrame (envelope_bytes envelope_b); OpPutEnvelope envelope_a;
   OpRemove (replicate 32 7); OpExpireBefore 50].

Lemma sample_ops_ok : Forall op_ok sample_ops.
Proof.
  repeat constructor; vm_compute; repeat (split || constructor); try done;
    apply (bool_decide_unpack _); vm_compute; done.
Defined.

Lemma store_refines_map_witness :
  (run_ops 2 160 sample_ops (Store_new 2 StorePolicy_new)).1 =
    [Ok 0; Ok 0; Err Duplicate; Err NotFound; Ok 0] /\
  store_ok 2 160 (run_ops 2 160 sample_ops (Store_new 2 StorePolicy_new)).2.
Proof.
  split; [vm_compute; reflexivity|].
  assert (0 <= 2) as H2 by lia. assert (0 <= 160) as H160 by lia.
  pose proof (store_refines_map 2 160 StorePolicy_new sample_ops H2 H160 sample_ops_ok) as H.
  destruct (run_ops 2 160 sample_ops (Store_new 2 StorePolicy_new)) as [rs s].
  exact (proj1 H).
Defined.

Definition sample_store : Store := (run_ops 2 160 (take 2 sample_ops) (Store_new 2 StorePolicy_new)).2.

Lemma sample_store_ok : store_ok 2 160 sample_store.
Proof.
  pose proof (run_ops_refine 2 160 (take 2 sample_ops) (Store_new 2 StorePolicy_new)) as H.
  unfold sample_store. destruct (run_ops 2 160 _ _) as [rs s]. apply H; [lia | by apply Store_new_ok |].
  apply Forall_take, sample_ops_ok.
Defined.

Definition blank : StoredFrameRef := mk_stored [] 0 0 [].

Lemma pending_delivery_order_witness :
  sf_message_id <$> (pending sample_store [blank; blank; blank]).2 =
    [replicate 32 2; replicate 32 1; []] /\
  exists l, pending sample_store [blank; blank; blank] = (Ok 2, l ++ [blank]) /\
    sorted l /\ first_pending sample_store = Ok (head l).
Proof.
  split; [vm_compute; reflexivity|].
  assert (Store_len sample_store = 2) as Hlen by (vm_compute; reflexivity).
  pose proof (pending_delivery_order 2 160 sample_store [blank; blank; blank] sample_store_ok) as H.
  rewrite Hlen in H. change (len [blank; blank; blank] <? 2) with false in H. cbv iota in H.
  destruct H as (l & H1 & H2 & H3 & H4).
  exists l. split; [|split; [exact H3 | exact H4]].
  rewrite H1. f_equal. f_equal. apply Permutation_length in H2. rewrite H2.
  rewrite length_fmap. pose proof (store_map_size _ sample_store_ok) as Hsz. rewrite Hlen in Hsz.
  replace (length (map_to_list (store_map sample_store))) with 2%nat; [reflexivity|].
  change (length (map_to_list (store_map sample_store))) with (size (store_map sample_store)). lia.
Defined.
