(* ===== verification/Router.v ===== *)
(** [hyf_router]: the store-and-forward router
    (src/crates/hyf_router/src/router.rs, command.rs, event.rs, policy.rs, error.rs).

    The router keeps a table of links, a clock and a ring of recently seen
    message keys; an event yields commands written at the front of the caller's
    output slice.  [route] and [route_stored] specify the routing decision as pure
    functions; the handlers are proved to write exactly its commands.  The theorems
    state, of what the handlers write, loop freedom, split horizon, the duplicate
    window and the link table. *)
From stdpp Require Import gmap.
From S2P Require Import Prelude Cursor Core Wire Link Ring.

(** ** Data *)
Definition ROUTER_COMMAND_CAPACITY : Z := 16.
Definition ROUTER_LOCAL_COMMUNITY_CAPACITY : Z := 8.

Inductive DropReason :=
| Duplicate | Expired | HopLimitExhausted | InvalidEnvelopeReason | MalformedFrame | NoRoute.
#[export] Instance DropReason_eq_dec : EqDecision DropReason.
Proof. solve_decision. Defined.

Inductive RouterStoreCommand :=
| Put (envelope : HyfEnvelopeRef)
| Remove (message_id : list Z)
| ExpireBefore (now_ms : Z).

Inductive RouterCommand :=
| Send (link_id : list Z) (envelope : HyfEnvelopeRef)
| Store (command : RouterStoreCommand)
| Drop (message_id : list Z) (reason : DropReason)
| DropFrame (link_id : list Z) (reason : DropReason)
| DeliverLocal (envelope : HyfEnvelopeRef).

Inductive RouterEvent :=
| LinkEv (event : LinkEvent)
| LocalSubmit (envelope : HyfEnvelopeRef)
| Tick (now_ms : Z).

Inductive RouterError :=
| OutputTooSmall (actual required : Z)
| TooManyLinks (maximum : Z)
| InvalidEnvelope (error : HyfWireError).

Record RouterPolicy := mk_router_policy {
  local_node_id : list Z;
  local_communities : list (option (list Z));
}.

Definition is_local_community (p : RouterPolicy) (community_id : list Z) : bool :=
  existsb (fun configured => match configured with
    | Some local => bool_decide (local = community_id) | None => false end) (local_communities p).

Record LinkState := mk_link_state { ls_link_id : list Z; ls_up : bool }.

Inductive SeenDestination := MessageOnly | SeenCommunity (community : list Z).
#[export] Instance SeenDestination_eq_dec : EqDecision SeenDestination.
Proof. solve_decision. Defined.

Record RouterSeenKey := mk_seen_key { sk_destination : SeenDestination; sk_message_id : list Z }.
#[export] Instance RouterSeenKey_eq_dec : EqDecision RouterSeenKey.
Proof. solve_decision. Defined.

Record Router := mk_router {
  rt_policy : RouterPolicy;
  rt_now_ms : Z;
  rt_links : list (option LinkState);      (* MAX_LINKS slots *)
  rt_seen : list (option RouterSeenKey);   (* MAX_SEEN slots *)
  rt_next_seen : Z;
}.

Definition Router_new (MAX_LINKS MAX_SEEN : Z) (p : RouterPolicy) : Router :=
  mk_router p 0 (replicate (Z.to_nat MAX_LINKS) None) (replicate (Z.to_nat MAX_SEEN) None) 0.

(** ** Helpers *)
Definition seen_key_for (e : HyfEnvelopeRef) : RouterSeenKey :=
  mk_seen_key
    (match destination e with
     | Community community_id => SeenCommunity community_id
     | Node _ | Foreign _ => MessageOnly
     end) (message_id e).

Definition with_hop_limit (e : HyfEnvelopeRef) (h : Z) : HyfEnvelopeRef :=
  mk_envelope (version e) (message_id e) (source e) (destination e) (created_at_ms e)
    (expires_at_ms e) h (payload_kind e) (payload e).

(** [u8] subtraction is only reached with [hop_limit >= 2]. *)
Definition envelope_for_next_hop (e : HyfEnvelopeRef) (ingress : option (list Z))
  : outcome DropReason HyfEnvelopeRef :=
  match ingress with
  | None => if hop_limit e =? 0 then Err HopLimitExhausted else Ok e
  | Some _ =>
      if hop_limit e <=? 1 then Err HopLimitExhausted else Ok (with_hop_limit e (hop_limit e - 1))
  end.

Definition invalid_envelope_drop_reason (error : HyfWireError) : option DropReason :=
  match error with InvalidExpiry => Some Expired | _ => None end.

Definition emit (command : RouterCommand) : io (list RouterCommand) RouterError Z :=
  out ← get;
  _ ← lift (guard_err (len out =? 0) (OutputTooSmall 0 1));
  out' ← lift (set_at out 0 command);
  _ ← put out';
  mret 1.

Definition is_local_destination (r : Router) (d : HyfDestination) : bool :=
  match d with Node node_id => bool_decide (node_id = local_node_id (rt_policy r)) | _ => false end.

Definition link_usable (ingress : option (list Z)) (l : LinkState) : bool :=
  ls_up l && bool_decide (Some (ls_link_id l) <> ingress).

Fixpoint first_up_link_loop (ingress : option (list Z)) (l : list LinkState) : option (list Z) :=
  match l with
  | [] => None
  | link :: l' => if link_usable ingress link then Some (ls_link_id link) else first_up_link_loop ingress l'
  end.
Definition first_up_link_except (r : Router) (ingress : option (list Z)) : option (list Z) :=
  first_up_link_loop ingress (occupied (rt_links r)).

Definition up_link_count_except (r : Router) (ingress : option (list Z)) : Z :=
  len (List.filter (link_usable ingress) (occupied (rt_links r))).

(** ** The duplicate ring *)
Definition has_seen (r : Router) (key : RouterSeenKey) : bool := ring_contains (rt_seen r) key.

Definition mark_seen {E} (MAX_SEEN : Z) (r : Router) (key : RouterSeenKey) : outcome E Router :=
  if MAX_SEEN =? 0 then Ok r
  else match position_none (rt_seen r) with
  | Some i =>
      seen ← set_at (rt_seen r) i (Some key);
      Ok (mk_router (rt_policy r) (rt_now_ms r) (rt_links r) seen ((i + 1) mod MAX_SEEN))
  | None =>
      '(seen, next) ← ring_push MAX_SEEN (rt_seen r) (rt_next_seen r) key;
      Ok (mk_router (rt_policy r) (rt_now_ms r) (rt_links r) seen next)
  end.

Definition commit_seen {E} (MAX_SEEN : Z) (e : HyfEnvelopeRef) : io Router E unit :=
  r ← get;
  let key := seen_key_for e in
  if negb (has_seen r key) then r' ← lift (mark_seen MAX_SEEN r key); put r' else mret tt.

(** ** The link table *)
Definition find_link_index (r : Router) (link_id : list Z) : option Z :=
  position_some (fun existing => bool_decide (ls_link_id existing = link_id)) (rt_links r).

Definition with_links (r : Router) (links : list (option LinkState)) : Router :=
  mk_router (rt_policy r) (rt_now_ms r) links (rt_seen r) (rt_next_seen r).

Definition set_link_state (MAX_LINKS : Z) (link_id : list Z) (up : bool) : io Router RouterError unit :=
  r ← get;
  match find_link_index r link_id with
  | Some i =>
      links ← lift (set_at (rt_links r) i (Some (mk_link_state link_id up)));
      put (with_links r links)
  | None =>
      if negb up then mret tt
      else match position_none (rt_links r) with
      | None => lift (Err (TooManyLinks MAX_LINKS))
      | Some i =>
          links ← lift (set_at (rt_links r) i (Some (mk_link_state link_id up)));
          put (with_links r links)
      end
  end.

(** ** Handlers

    The [&self] handlers run on the output slice; [handle_event] also owns the
    router. *)
Definition reject_invalid_or_expired (r : Router) (e : HyfEnvelopeRef)
  : io (list RouterCommand) RouterError (option Z) :=
  match validate_envelope e with
  | Err error =>
      match invalid_envelope_drop_reason error with
      | Some reason => n ← emit (Drop (message_id e) reason); mret (Some n)
      | None => lift (Err (InvalidEnvelope error))
      end
  | Panic => lift Panic
  | Ok _ =>
      if expires_at_ms e <=? rt_now_ms r then n ← emit (Drop (message_id e) Expired); mret (Some n)
      else mret None
  end.

Definition reject_terminal_envelope (r : Router) (e : HyfEnvelopeRef)
  : io (list RouterCommand) RouterError (option Z) :=
  match validate_envelope e with
  | Err error =>
      match invalid_envelope_drop_reason error with
      | Some reason => n ← emit (Drop (message_id e) reason); mret (Some n)
      | None => lift (Err (InvalidEnvelope error))
      end
  | Panic => lift Panic
  | Ok _ =>
      if expires_at_ms e <=? rt_now_ms r then n ← emit (Drop (message_id e) Expired); mret (Some n)
      else if hop_limit e =? 0 then n ← emit (Drop (message_id e) HopLimitExhausted); mret (Some n)
      else mret None
  end.

(** [out[count] = command; count += 1] *)
Definition push_command (command : RouterCommand) (count : Z) : io (list RouterCommand) RouterError Z :=
  out ← get;
  out' ← lift (set_at out count command);
  _ ← put out';
  mret (count + 1).

(** The fan-out loop over the links. *)
Fixpoint send_loop (ingress : option (list Z)) (outbound : HyfEnvelopeRef) (l : list LinkState) (count : Z)
  : io (list RouterCommand) RouterError Z :=
  match l with
  | [] => mret count
  | link :: l' =>
      if link_usable ingress link then
        count' ← push_command (Send (ls_link_id link) outbound) count;
        send_loop ingress outbound l' count'
      else send_loop ingress outbound l' count
  end.

Definition emit_community_fallback (e : HyfEnvelopeRef) (ingress : option (list Z))
  : io (list RouterCommand) RouterError Z :=
  match ingress with
  | None => emit (Store (Put e))
  | Some _ => emit (Drop (message_id e) NoRoute)
  end.

Definition handle_community_envelope (r : Router) (e : HyfEnvelopeRef) (community_id : list Z)
    (ingress : option (list Z)) : io (list RouterCommand) RouterError Z :=
  if bool_decide (is_Some ingress) && (hop_limit e <=? 1)
  then emit (Drop (message_id e) HopLimitExhausted)
  else
    let local_delivery :=
      is_local_community (rt_policy r) community_id && negb (has_seen r (seen_key_for e)) in
    let send_count := up_link_count_except r ingress in
    let required := Z.b2z local_delivery + send_count in
    if required =? 0 then emit_community_fallback e ingress
    else
      out ← get;
      _ ← lift (guard_err (len out <? required) (OutputTooSmall (len out) required));
      count ← (if local_delivery then push_command (DeliverLocal e) 0 else mret 0);
      let outbound :=
        match ingress with Some _ => with_hop_limit e (hop_limit e - 1) | None => e end in
      send_loop ingress outbound (occupied (rt_links r)) count.

Definition forward_stored_community (r : Router) (e : HyfEnvelopeRef) (community_id : list Z)
  : io (list RouterCommand) RouterError Z :=
  let local_delivery :=
    is_local_community (rt_policy r) community_id && negb (has_seen r (seen_key_for e)) in
  let send_count := up_link_count_except r None in
  let required := Z.b2z local_delivery + send_count in
  if required =? 0 then mret 0
  else
    out ← get;
    _ ← lift (guard_err (len out <? required) (OutputTooSmall (len out) required));
    count ← (if local_delivery then push_command (DeliverLocal e) 0 else mret 0);
    send_loop None e (occupied (rt_links r)) count.

Definition handle_envelope (r : Router) (e : HyfEnvelopeRef) (ingress : option (list Z))
  : io (list RouterCommand) RouterError Z :=
  rejected ← reject_invalid_or_expired r e;
  match rejected with
  | Some count => mret count
  | None =>
      if has_seen r (seen_key_for e) then emit (Drop (message_id e) Duplicate)
      else match destination e with
      | Community community_id => handle_community_envelope r e community_id ingress
      | d =>
          if is_local_destination r d then emit (DeliverLocal e)
          else match envelope_for_next_hop e ingress with
          | Err reason => emit (Drop (message_id e) reason)
          | Panic => lift Panic
          | Ok outbound =>
              match first_up_link_except r ingress with
              | Some link_id => emit (Send link_id outbound)
              | None => emit (Store (Put outbound))
              end
          end
      end
  end.

Definition handle_frame (r : Router) (frame : LinkFrameRef) : io (list RouterCommand) RouterError Z :=
  match decode_envelope (lf_bytes frame) with
  | Ok e => handle_envelope r e (Some (lf_link_id frame))
  | Err _ => emit (DropFrame (lf_link_id frame) MalformedFrame)
  | Panic => lift Panic
  end.

Definition forward_stored (r : Router) (e : HyfEnvelopeRef) : io (list RouterCommand) RouterError Z :=
  rejected ← reject_terminal_envelope r e;
  match rejected with
  | Some count => mret count
  | None =>
      match destination e with
      | Community community_id => forward_stored_community r e community_id
      | d =>
          if is_local_destination r d then
            if has_seen r (seen_key_for e) then emit (Drop (message_id e) Duplicate)
            else emit (DeliverLocal e)
          else match first_up_link_except r None with
          | Some link_id => emit (Send link_id e)
          | None => mret 0
          end
      end
  end.

(** The two halves of [handle_event]'s state. *)
Definition on_router {A} (m : io Router RouterError A) : io (Router * list RouterCommand) RouterError A :=
  fun '(r, out) => let '(o, r') := m r in (o, (r', out)).
Definition on_out {A} (m : Router -> io (list RouterCommand) RouterError A)
  : io (Router * list RouterCommand) RouterError A :=
  fun '(r, out) => let '(o, out') := m r out in (o, (r, out')).

Definition handle_event (MAX_LINKS : Z) (event : RouterEvent)
  : io (Router * list RouterCommand) RouterError Z :=
  match event with
  | LinkEv (Up link_id) => _ ← on_router (set_link_state MAX_LINKS link_id true); mret 0
  | LinkEv (Down link_id) => _ ← on_router (set_link_state MAX_LINKS link_id false); mret 0
  | LinkEv (Frame frame) => on_out (fun r => handle_frame r frame)
  | LocalSubmit e => on_out (fun r => handle_envelope r e None)
  | Tick now_ms =>
      _ ← on_router (r ← get; put (mk_router (rt_policy r) now_ms (rt_links r) (rt_seen r) (rt_next_seen r)));
      on_out (fun _ => emit (Store (ExpireBefore now_ms)))
  end.

(** ** The routing decision as a pure function *)
(** The handlers' common way out: commands at the front of the output slice,
    or an error that reports the exact room needed. *)
Definition write_commands (cmds : list RouterCommand) : io (list RouterCommand) RouterError Z := fun out =>
  if len out <? len cmds then (Err (OutputTooSmall (len out) (len cmds)), out)
  else (Ok (len cmds), cmds ++ drop (length cmds) out).

Definition write_decision (d : outcome RouterError (list RouterCommand)) : io (list RouterCommand) RouterError Z :=
  match d with Ok cmds => write_commands cmds | Err err => lift (Err err) | Panic => lift Panic end.

Definition up_links (r : Router) (ingress : option (list Z)) : list (list Z) :=
  ls_link_id <$> List.filter (link_usable ingress) (occupied (rt_links r)).

(** One hop: the envelope as it is sent on. *)
Definition next_hop (e : HyfEnvelopeRef) (ingress : option (list Z)) : HyfEnvelopeRef :=
  match ingress with Some _ => with_hop_limit e (hop_limit e - 1) | None => e end.

Definition fan_out (r : Router) (e : HyfEnvelopeRef) (community_id : list Z)
    (ingress : option (list Z)) : list RouterCommand :=
  (if is_local_community (rt_policy r) community_id then [DeliverLocal e] else [])
  ++ ((fun link_id => Send link_id (next_hop e ingress)) <$> up_links r ingress).

Definition is_forwarded (ingress : option (list Z)) : bool :=
  match ingress with Some _ => true | None => false end.

Definition route (r : Router) (e : HyfEnvelopeRef) (ingress : option (list Z))
  : outcome RouterError (list RouterCommand) :=
  match validate_envelope e with
  | Err InvalidExpiry => Ok [Drop (message_id e) Expired]
  | Err error => Err (InvalidEnvelope error)
  | Panic => Panic
  | Ok _ =>
      if expires_at_ms e <=? rt_now_ms r then Ok [Drop (message_id e) Expired]
      else if has_seen r (seen_key_for e) then Ok [Drop (message_id e) Duplicate]
      else match destination e with
      | Community community_id =>
          if is_forwarded ingress && (hop_limit e <=? 1) then Ok [Drop (message_id e) HopLimitExhausted]
          else match fan_out r e community_id ingress with
          | [] => Ok [if is_forwarded ingress then Drop (message_id e) NoRoute else Store (Put e)]
          | cmds => Ok cmds
          end
      | d =>
          if is_local_destination r d then Ok [DeliverLocal e]
          else if hop_limit e <=? (if is_forwarded ingress then 1 else 0)
          then Ok [Drop (message_id e) HopLimitExhausted]
          else match up_links r ingress with
          | link_id :: _ => Ok [Send link_id (next_hop e ingress)]
          | [] => Ok [Store (Put (next_hop e ingress))]
          end
      end
  end.

Definition route_stored (r : Router) (e : HyfEnvelopeRef) : outcome RouterError (list RouterCommand) :=
  match validate_envelope e with
  | Err InvalidExpiry => Ok [Drop (message_id e) Expired]
  | Err error => Err (InvalidEnvelope error)
  | Panic => Panic
  | Ok _ =>
      if expires_at_ms e <=? rt_now_ms r then Ok [Drop (message_id e) Expired]
      else if hop_limit e =? 0 then Ok [Drop (message_id e) HopLimitExhausted]
      else match destination e with
      | Community community_id =>
          Ok ((if is_local_community (rt_policy r) community_id && negb (has_seen r (seen_key_for e))
               then [DeliverLocal e] else [])
              ++ ((fun link_id => Send link_id e) <$> up_links r None))
      | d =>
          if is_local_destination r d then
            Ok [if has_seen r (seen_key_for e) then Drop (message_id e) Duplicate else DeliverLocal e]
          else Ok ((fun link_id => Send link_id e) <$> take 1 (up_links r None))
      end
  end.

(** ** Lemmas: writing commands *)
Lemma emit_write c out : emit c out = write_commands [c] out.
Proof.
  unfold emit, get, mbind, io_bind, write_commands. change (len [c]) with 1.
  pose proof (len_nonneg out). destruct out as [|x out]; [done|]. rewrite len_cons in *.
  pose proof (len_nonneg out).
  destruct (Z.eqb_spec (1 + len out) 0), (Z.ltb_spec (1 + len out) 1); try lia. cbn [lift guard_err].
  by rewrite set_at_ok by (rewrite len_cons; lia).
Qed.

Lemma push_command_app c pre x rest :
  push_command c (len pre) (pre ++ x :: rest) = (Ok (len (pre ++ [c])), (pre ++ [c]) ++ rest).
Proof.
  unfold push_command, get, put, mbind, io_bind. pose proof (len_nonneg pre). pose proof (len_nonneg rest).
  rewrite set_at_ok by (len_simpl; lia). cbn [lift]. rewrite to_nat_len, len_app, <- app_assoc.
  rewrite insert_app_r_alt, Nat.sub_diag by lia. done.
Qed.

Lemma send_loop_spec ingress outbound l pre rest :
  let sends := (fun link => Send (ls_link_id link) outbound) <$> List.filter (link_usable ingress) l in
  len sends <= len rest ->
  send_loop ingress outbound l (len pre) (pre ++ rest) =
    (Ok (len (pre ++ sends)), (pre ++ sends) ++ drop (length sends) rest).
Proof.
  revert pre rest. induction l as [|link l IH]; intros pre rest; cbn [send_loop List.filter].
  - intros _. simpl. by rewrite app_nil_r, drop_0.
  - destruct (link_usable ingress link); [|apply IH].
    rewrite fmap_cons. cbv zeta. intros Hlen. rewrite len_cons in Hlen. destruct rest as [|x rest].
    { rewrite len_nil in Hlen. pose proof (len_nonneg
        ((fun link => Send (ls_link_id link) outbound) <$> List.filter (link_usable ingress) l)). lia. }
    rewrite (io_bind_ok _ _ _ _ _ (push_command_app _ _ _ _)).
    rewrite IH by (rewrite len_cons in Hlen; lia). by rewrite <- !app_assoc.
Qed.

(** The body shared by the two community handlers. *)
Lemma fan_out_write (local : bool) e ingress outbound l out :
  let cmds := (if local then [DeliverLocal e] else [])
    ++ ((fun link => Send (ls_link_id link) outbound) <$> List.filter (link_usable ingress) l) in
  (_ ← lift (guard_err (len out <? len cmds) (OutputTooSmall (len out) (len cmds)));
   count ← (if local then push_command (DeliverLocal e) 0 else mret 0);
   send_loop ingress outbound l count) out = write_commands cmds out.
Proof.
  cbv zeta. set (sends := (fun link => Send (ls_link_id link) outbound) <$> List.filter (link_usable ingress) l).
  unfold write_commands.
  destruct (Z.ltb_spec (len out) (len ((if local then [DeliverLocal e] else []) ++ sends))) as [|Hlen]; [done|].
  rewrite guard_false by done. pose proof (len_nonneg sends). rewrite len_app in Hlen. destruct local.
  - change (len [DeliverLocal e]) with 1 in Hlen. destruct out as [|x out]; [rewrite len_nil in Hlen; lia|].
    rewrite (io_bind_ok _ _ _ _ _ (push_command_app (DeliverLocal e) [] x out)).
    apply (send_loop_spec ingress outbound l [DeliverLocal e] out).
    rewrite len_cons in Hlen. fold sends. lia.
  - apply (send_loop_spec ingress outbound l [] out). fold sends. rewrite len_nil in Hlen. lia.
Qed.

Lemma up_link_count_len r ingress : up_link_count_except r ingress = len (up_links r ingress).
Proof. unfold up_link_count_except, up_links. by rewrite len_map. Qed.

Lemma first_up_link_head r ingress : first_up_link_except r ingress = head (up_links r ingress).
Proof.
  unfold first_up_link_except, up_links. generalize (occupied (rt_links r)) as l.
  induction l as [|link l IH]; [done|]. simpl. by destruct (link_usable ingress link).
Qed.

Lemma fan_out_len (local : bool) e f links :
  len ((if local then [DeliverLocal e] else []) ++ (f <$> links)) = Z.b2z local + len (A:=list Z) links.
Proof. rewrite len_app, len_map. by destruct local. Qed.

(** ** Lemmas: the handlers write the routing decision *)
Lemma reject_bind e reason (k : option Z -> io (list RouterCommand) RouterError Z) out :
  (forall n, k (Some n) = mret n) ->
  ((n ← emit (Drop (message_id e) reason); mret (Some n)) ≫= k) out =
    write_commands [Drop (message_id e) reason] out.
Proof.
  intros Hk. rewrite <- emit_write. unfold mbind, io_bind.
  destruct (emit (Drop (message_id e) reason) out) as [[n|err|] out'] eqn:He; try done.
  simpl. by rewrite Hk.
Qed.

Lemma handle_community_spec r e community_id ingress out :
  has_seen r (seen_key_for e) = false ->
  handle_community_envelope r e community_id ingress out =
    write_decision
      (if is_forwarded ingress && (hop_limit e <=? 1) then Ok [Drop (message_id e) HopLimitExhausted]
       else match fan_out r e community_id ingress with
       | [] => Ok [if is_forwarded ingress then Drop (message_id e) NoRoute else Store (Put e)]
       | cmds => Ok cmds
       end) out.
Proof.
  intros Hseen. unfold handle_community_envelope. rewrite Hseen, andb_true_r.
  replace (bool_decide (is_Some ingress)) with (is_forwarded ingress) by (by destruct ingress).
  destruct (is_forwarded ingress && (hop_limit e <=? 1)); [apply emit_write|].
  rewrite up_link_count_len, <- (fan_out_len _ e (fun link_id => Send link_id (next_hop e ingress))).
  fold (fan_out r e community_id ingress).
  pose proof (fan_out_write (is_local_community (rt_policy r) community_id) e ingress (next_hop e ingress)
    (occupied (rt_links r)) out) as Hw.
  assert (fan_out r e community_id ingress = (if is_local_community (rt_policy r) community_id then [DeliverLocal e] else [])
    ++ ((fun link => Send (ls_link_id link) (next_hop e ingress)) <$> List.filter (link_usable ingress) (occupied (rt_links r)))) as Hf.
  { unfold fan_out, up_links. by rewrite <- list_fmap_compose. }
  rewrite <- Hf in Hw. destruct (fan_out r e community_id ingress) as [|c cmds].
  - rewrite len_nil. simpl. unfold emit_community_fallback. destruct ingress; apply emit_write.
  - pose proof (len_nonneg cmds). destruct (Z.eqb_spec (len (c :: cmds)) 0); [rewrite len_cons in *; lia|].
    exact Hw.
Qed.

Lemma route_unicast r e ingress out :
  0 <= hop_limit e ->
  match envelope_for_next_hop e ingress with
  | Err reason => emit (Drop (message_id e) reason)
  | Panic => lift Panic
  | Ok outbound =>
      match first_up_link_except r ingress with
      | Some link_id => emit (Send link_id outbound)
      | None => emit (Store (Put outbound))
      end
  end out =
  write_decision
    (if hop_limit e <=? (if is_forwarded ingress then 1 else 0)
     then Ok [Drop (message_id e) HopLimitExhausted]
     else match up_links r ingress with
     | link_id :: _ => Ok [Send link_id (next_hop e ingress)]
     | [] => Ok [Store (Put (next_hop e ingress))]
     end) out.
Proof.
  intros Hh. rewrite first_up_link_head. unfold envelope_for_next_hop.
  destruct ingress as [i|]; simpl.
  - destruct (Z.leb_spec (hop_limit e) 1); [apply emit_write|].
    destruct (up_links r (Some i)); apply emit_write.
  - destruct (Z.eqb_spec (hop_limit e) 0), (Z.leb_spec (hop_limit e) 0); try lia; [apply emit_write|].
    destruct (up_links r None); apply emit_write.
Qed.

Lemma handle_envelope_route r e ingress out :
  0 <= hop_limit e -> handle_envelope r e ingress out = write_decision (route r e ingress) out.
Proof.
  intros Hh. unfold handle_envelope, reject_invalid_or_expired, route.
  destruct (validate_envelope e) as [[]|err|] eqn:Hv; [|by destruct err; try done; apply reject_bind|done].
  destruct (expires_at_ms e <=? rt_now_ms r); [by apply reject_bind|].
  rewrite ret_bind.
  destruct (has_seen r (seen_key_for e)) eqn:Hseen; [apply emit_write|].
  destruct (destination e) as [n|c|f]; [| by apply handle_community_spec |].
  - destruct (is_local_destination r (Node n)); [apply emit_write | by apply route_unicast].
  - by apply route_unicast.
Qed.

Lemma forward_stored_route r e out :
  forward_stored r e out = write_decision (route_stored r e) out.
Proof.
  unfold forward_stored, reject_terminal_envelope, route_stored.
  destruct (validate_envelope e) as [[]|err|] eqn:Hv; [|by destruct err; try done; apply reject_bind|done].
  destruct (expires_at_ms e <=? rt_now_ms r); [by apply reject_bind|].
  destruct (hop_limit e =? 0); [by apply reject_bind|].
  rewrite ret_bind.
  assert (forall out, write_commands [] out = (Ok 0, out)) as Hnil.
  { intros o. unfold write_commands. rewrite len_nil, drop_0.
    destruct (Z.ltb_spec (len o) 0); [pose proof (len_nonneg o); lia | done]. }
  assert (match first_up_link_except r None with Some link_id => emit (Send link_id e) | None => mret 0 end out =
    write_decision (Ok ((fun link_id => Send link_id e) <$> take 1 (up_links r None))) out) as Hu.
  { rewrite first_up_link_head. destruct (up_links r None); simpl; [by rewrite Hnil | apply emit_write]. }
  destruct (destination e) as [n|c|f]; [| |exact Hu].
  - destruct (is_local_destination r (Node n)); [|exact Hu].
    destruct (has_seen r (seen_key_for e)); apply emit_write.
  - unfold forward_stored_community. rewrite up_link_count_len.
    rewrite <- (fan_out_len _ e (fun link_id => Send link_id e)).
    pose proof (fan_out_write (is_local_community (rt_policy r) c && negb (has_seen r (seen_key_for e))) e None e
      (occupied (rt_links r)) out) as Hw.
    rewrite (list_fmap_compose ls_link_id (fun link_id => Send link_id e)) in Hw. fold (up_links r None) in Hw.
    cbn [write_decision].
    destruct ((if _ && _ then [DeliverLocal e] else []) ++ ((fun link_id => Send link_id e) <$> up_links r None)) as [|x cmds].
    + by rewrite Hnil.
    + pose proof (len_nonneg cmds). destruct (Z.eqb_spec (len (x :: cmds)) 0); [rewrite len_cons in *; lia|].
      exact Hw.
Qed.

(** ** Invariant and link table *)
Definition link_entry (l : LinkState) : list Z * bool := (ls_link_id l, ls_up l).
(** The link table as a map from link ids to "up". *)
Definition link_map (r : Router) : gmap (list Z) bool := list_to_map (link_entry <$> occupied (rt_links r)).

Record router_ok (MAX_LINKS MAX_SEEN : Z) (r : Router) : Prop := {
  rto_links : len (rt_links r) = MAX_LINKS;
  rto_ids : NoDup (ls_link_id <$> occupied (rt_links r));
  rto_seen : exists win, ring_shape MAX_SEEN (rt_seen r) (rt_next_seen r) win;
}.

Definition spec_link (MAX_LINKS : Z) (link_id : list Z) (up : bool) (m : gmap (list Z) bool)
  : outcome RouterError unit * gmap (list Z) bool :=
  if bool_decide (is_Some (m !! link_id)) then (Ok tt, <[link_id := up]> m)
  else if negb up then (Ok tt, m)
  else if Z.of_nat (size m) <? MAX_LINKS then (Ok tt, <[link_id := up]> m)
  else (Err (TooManyLinks MAX_LINKS), m).

Lemma link_entry_keys l : (link_entry <$> l).*1 = ls_link_id <$> l.
Proof. rewrite <- list_fmap_compose. by apply list_fmap_ext. Qed.

Section link_table.
Context {MAX_LINKS MAX_SEEN : Z}.
Implicit Types r : Router.

Lemma link_map_size r : router_ok MAX_LINKS MAX_SEEN r -> Z.of_nat (size (link_map r)) = len (occupied (rt_links r)).
Proof.
  intros [_ Hid _]. unfold link_map. rewrite map_size_list_to_map by (by rewrite link_entry_keys).
  by rewrite length_fmap.
Qed.

(** Replacing the state of a slot that is free or already holds [link_id]. *)
Lemma set_slot_ok r i link_id up old :
  router_ok MAX_LINKS MAX_SEEN r -> rt_links r !! i = Some old ->
  (old = None /\ link_map r !! link_id = None \/ exists b, old = Some (mk_link_state link_id b)) ->
  let r' := with_links r (<[i := Some (mk_link_state link_id up)]> (rt_links r)) in
  router_ok MAX_LINKS MAX_SEEN r' /\ link_map r' = <[link_id := up]> (link_map r).
Proof.
  intros [Hlen Hids Hseen] Hi Hold r'.
  assert (exists rest, occupied (rt_links r') ≡ₚ mk_link_state link_id up :: rest /\
    NoDup (ls_link_id <$> mk_link_state link_id up :: rest) /\
    <[link_id := up]> (link_map r) = list_to_map (link_entry <$> mk_link_state link_id up :: rest))
    as (rest & Hperm & Hnd & Hmap).
  { destruct Hold as [[-> Hnone]|[b ->]].
    - exists (occupied (rt_links r)). split; [by apply occupied_fill|]. split; [|done].
      rewrite fmap_cons. apply list.NoDup_cons. split; [|done]. rewrite <- link_entry_keys.
      by apply not_elem_of_list_to_map_2.
    - exists (occupied (<[i := None]> (rt_links r))). pose proof (occupied_clear _ _ _ Hi) as Hc.
      split; [|split].
      + simpl. rewrite <- (list_insert_insert_eq (rt_links r) i _ None). apply occupied_fill.
        apply list_lookup_insert_eq. by eapply lookup_lt_Some.
      + by rewrite Hc in Hids.
      + unfold link_map. rewrite (list_to_map_proper _ (link_entry <$> mk_link_state link_id b :: occupied (<[i := None]> (rt_links r)))).
        * rewrite !fmap_cons. apply insert_insert_eq.
        * by rewrite link_entry_keys.
        * by rewrite Hc. }
  split.
  - split; [simpl; by rewrite len_insert | by rewrite Hperm | done].
  - rewrite Hmap. apply list_to_map_proper; [|by rewrite Hperm]. by rewrite link_entry_keys, Hperm.
Qed.

Lemma set_link_state_spec r link_id up :
  router_ok MAX_LINKS MAX_SEEN r ->
  exists r' o, set_link_state MAX_LINKS link_id up r = (o, r') /\
    router_ok MAX_LINKS MAX_SEEN r' /\ r' = with_links r (rt_links r') /\
    spec_link MAX_LINKS link_id up (link_map r) = (o, link_map r').
Proof.
  intros Hr. assert (r = with_links r (rt_links r)) as Hself by (by destruct r).
  unfold set_link_state, get, mbind, io_bind, spec_link, find_link_index.
  pose proof (position_some_spec (fun l => bool_decide (ls_link_id l = link_id)) (rt_links r)) as Hp.
  destruct (position_some _ (rt_links r)) as [i|].
  - destruct Hp as (Hi & [l b] & Hl & Hid & Hin). apply bool_decide_eq_true in Hid. simpl in Hid. subst l.
    rewrite bool_decide_true.
    2: { exists b. apply elem_of_list_to_map; [rewrite link_entry_keys; apply Hr|].
         by apply (list_elem_of_fmap_2 link_entry) in Hin. }
    rewrite set_at_ok by done. cbn [lift put].
    destruct (set_slot_ok r (Z.to_nat i) link_id up _ Hr Hl) as [Hok Hmap]; [by right; exists b|].
    do 2 eexists. split; [done|]. split; [done|]. split; [done|]. by rewrite Hmap.
  - assert (link_map r !! link_id = None) as Hnone.
    { apply not_elem_of_list_to_map_1. rewrite link_entry_keys. intros (l & -> & Hl)%list_elem_of_fmap.
      specialize (Hp l Hl). by apply bool_decide_eq_false in Hp. }
    rewrite bool_decide_false by (rewrite Hnone; by intros []).
    destruct up; [|by exists r, (Ok tt)]. simpl negb. cbv iota. rewrite (link_map_size r Hr).
    pose proof (position_none_spec (rt_links r)) as Hf. pose proof Hr as [Hlen _ _].
    destruct (position_none (rt_links r)) as [i|] eqn:Hpn.
    + apply position_none_room in Hpn. destruct (Z.ltb_spec (len (occupied (rt_links r))) MAX_LINKS); [|lia].
      destruct Hf as (Hi & Hl & _). rewrite set_at_ok by done. cbn [lift put].
      destruct (set_slot_ok r (Z.to_nat i) link_id true _ Hr Hl) as [Hok Hmap]; [by left|].
      do 2 eexists. split; [done|]. split; [done|]. split; [done|]. by rewrite Hmap.
    + destruct (Z.ltb_spec (len (occupied (rt_links r))) MAX_LINKS); [unfold len in *; lia|].
      by exists r, (Err (TooManyLinks MAX_LINKS)).
Qed.
End link_table.

(** ** Events *)
Definition event_decision (r : Router) (ev : RouterEvent) : outcome RouterError (list RouterCommand) :=
  match ev with
  | LinkEv (Frame f) =>
      match decode_envelope (lf_bytes f) with
      | Ok e => route r e (Some (lf_link_id f))
      | Err _ => Ok [DropFrame (lf_link_id f) MalformedFrame]
      | Panic => Panic
      end
  | LocalSubmit e => route r e None
  | Tick now_ms => Ok [Store (ExpireBefore now_ms)]
  | LinkEv (Up _) | LinkEv (Down _) => Ok []
  end.

Definition spec_event_links (MAX_LINKS : Z) (ev : RouterEvent) (m : gmap (list Z) bool)
  : outcome RouterError unit * gmap (list Z) bool :=
  match ev with
  | LinkEv (Up link_id) => spec_link MAX_LINKS link_id true m
  | LinkEv (Down link_id) => spec_link MAX_LINKS link_id false m
  | _ => (Ok tt, m)
  end.

(** What the Rust types guarantee of an event. *)
Definition event_ok (ev : RouterEvent) : Prop :=
  match ev with
  | LinkEv (Frame f) => bytes_ok (lf_bytes f)
  | LocalSubmit e => envelope_ok e
  | _ => True
  end.

Lemma route_safe r e ingress : route r e ingress <> Panic.
Proof.
  unfold route. pose proof (validate_envelope_safe e). repeat case_match; done.
Qed.

Lemma event_decision_safe r ev : event_ok ev -> event_decision r ev <> Panic.
Proof.
  destruct ev as [[f|l|l]|e|t]; simpl; try done; intros Hok.
  - pose proof (decode_envelope_safe _ Hok). destruct (decode_envelope (lf_bytes f)); [|done..].
    apply route_safe.
  - apply route_safe.
Qed.

Lemma write_decision_nil out : write_decision (Ok []) out = (Ok 0, out).
Proof.
  unfold write_decision, write_commands. change (len (@nil RouterCommand)) with 0.
  pose proof (len_nonneg out). destruct (Z.ltb_spec (len out) 0); [lia|done].
Qed.

Lemma handle_event_spec MAX_LINKS MAX_SEEN r ev out :
  router_ok MAX_LINKS MAX_SEEN r -> event_ok ev ->
  exists r', router_ok MAX_LINKS MAX_SEEN r' /\
    rt_policy r' = rt_policy r /\ rt_seen r' = rt_seen r /\ rt_next_seen r' = rt_next_seen r /\
    rt_now_ms r' = match ev with Tick now_ms => now_ms | _ => rt_now_ms r end /\
    let '(o, links) := spec_event_links MAX_LINKS ev (link_map r) in
    link_map r' = links /\ event_decision r ev <> Panic /\
    handle_event MAX_LINKS ev (r, out) =
      match o with
      | Ok _ => let '(n, out') := write_decision (event_decision r ev) out in (n, (r', out'))
      | Err err => (Err err, (r', out))
      | Panic => (Panic, (r', out))
      end.
Proof.
  intros Hr Hev. pose proof (event_decision_safe r ev Hev) as Hsafe.
  destruct ev as [[f|l|l]|e|t]; cbn -[write_decision] in *.
  - exists r. split_and!; try done. unfold on_out, handle_frame.
    destruct (decode_envelope (lf_bytes f)) as [e|err|] eqn:Hd; [| |done].
    + apply decode_envelope_inv in Hd as (He & _ & _); [|done].
      rewrite handle_envelope_route by (destruct He as [_ _ _ _ _ _ [? ?] _]; done).
      by destruct (write_decision _ out).
    + rewrite emit_write. unfold write_decision. by destruct (write_commands _ out).
  - destruct (set_link_state_spec r l true Hr) as (r' & o & Hrun & Hok & Hself & Hspec).
    exists r'. split_and!; [done | by rewrite Hself.. |]. rewrite Hspec.
    unfold on_router, mbind, io_bind. rewrite Hrun, write_decision_nil. by destruct o.
  - destruct (set_link_state_spec r l false Hr) as (r' & o & Hrun & Hok & Hself & Hspec).
    exists r'. split_and!; [done | by rewrite Hself.. |]. rewrite Hspec.
    unfold on_router, mbind, io_bind. rewrite Hrun, write_decision_nil. by destruct o.
  - exists r. split_and!; try done. unfold on_out.
    rewrite handle_envelope_route by (destruct Hev as [_ _ _ _ _ _ [? ?] _]; done).
    by destruct (write_decision _ out).
  - exists (mk_router (rt_policy r) t (rt_links r) (rt_seen r) (rt_next_seen r)).
    split_and!; try done; [by destruct Hr; constructor|].
    unfold on_router, on_out, mbind, io_bind, write_decision. simpl. rewrite emit_write.
    by destruct (write_commands _ out).
Qed.

(** C1. Refinement of the event handler: on a well-formed router, every event
    keeps the invariant, leaves policy, seen keys and (but for a tick) the
    clock alone, acts on the link table as on a map of at most [MAX_LINKS]
    links ([TooManyLinks] and no change when it is full), and answers with
    exactly the commands of the routing decision at the front of the output
    slice: none written and the exact room reported when they do not fit.  It
    never panics. *)
Theorem handle_event_refines MAX_LINKS MAX_SEEN r ev out :
  router_ok MAX_LINKS MAX_SEEN r -> event_ok ev ->
  exists r', router_ok MAX_LINKS MAX_SEEN r' /\
    rt_policy r' = rt_policy r /\ rt_seen r' = rt_seen r /\ rt_next_seen r' = rt_next_seen r /\
    rt_now_ms r' = match ev with Tick now_ms => now_ms | _ => rt_now_ms r end /\
    let '(o, links) := spec_event_links MAX_LINKS ev (link_map r) in
    link_map r' = links /\ event_decision r ev <> Panic /\
    handle_event MAX_LINKS ev (r, out) =
      match o with
      | Ok _ => let '(n, out') := write_decision (event_decision r ev) out in (n, (r', out'))
      | Err err => (Err err, (r', out))
      | Panic => (Panic, (r', out))
      end.
Proof. apply handle_event_spec. Qed.

(** ** Safety of what is sent *)
(** The envelopes a command puts on a link, and what the router may do to an
    envelope it relays: lower its hop limit by one, nothing else. *)
Definition relays (ingress : option (list Z)) (e e' : HyfEnvelopeRef) : Prop :=
  match ingress with
  | Some _ => 1 <= hop_limit e' /\ e' = with_hop_limit e (hop_limit e - 1)
  | None => e' = e
  end.

(** The commands a call that returned [n] left at the front of the output slice. *)
Definition written (n : Z) (out : list RouterCommand) : list RouterCommand := take (Z.to_nat n) out.

Lemma write_decision_cases d out res out' : write_decision d out = (res, out') ->
  match res with
  | Ok n => d = Ok (written n out') /\ 0 <= n <= len out /\ drop (Z.to_nat n) out' = drop (Z.to_nat n) out
  | Err _ => out' = out
  | Panic => d = Panic
  end.
Proof.
  destruct d as [cmds|err|]; cbn; [|by intros [= <- <-]..]. unfold write_commands. pose proof (len_nonneg cmds).
  destruct (Z.ltb_spec (len out) (len cmds)); intros [= <- <-]; [done|]. unfold written, len. rewrite Nat2Z.id.
  split; [by rewrite take_app_length|]. split; [unfold len in *; lia|]. by rewrite drop_app_length.
Qed.

Definition sent_links (cmds : list RouterCommand) : list (list Z) :=
  omap (fun c => match c with Send link_id _ => Some link_id | _ => None end) cmds.

Lemma elem_of_filter_list {A} (f : A -> bool) (l : list A) x : x ∈ List.filter f l <-> x ∈ l /\ f x = true.
Proof. rewrite !list_elem_of_In. apply List.filter_In. Qed.

Lemma up_links_usable r ingress link_id :
  NoDup (ls_link_id <$> occupied (rt_links r)) ->
  link_id ∈ up_links r ingress -> link_map r !! link_id = Some true /\ ingress <> Some link_id.
Proof.
  intros Hnd. unfold up_links. intros (l & -> & Hl)%list_elem_of_fmap.
  apply elem_of_filter_list in Hl as [Hl Hu]. unfold link_usable in Hu.
  apply andb_true_iff in Hu as [Hup Hne]. apply bool_decide_eq_true in Hne. split; [|congruence].
  apply elem_of_list_to_map; [by rewrite link_entry_keys|].
  rewrite <- Hup. by apply (list_elem_of_fmap_2 link_entry) in Hl.
Qed.

Lemma up_links_NoDup r ingress :
  NoDup (ls_link_id <$> occupied (rt_links r)) -> NoDup (up_links r ingress).
Proof.
  unfold up_links. generalize (occupied (rt_links r)) as l. induction l as [|x l IH]; [done|].
  rewrite fmap_cons, list.NoDup_cons. intros [Hx Hl]. simpl. destruct (link_usable ingress x); [|auto].
  rewrite fmap_cons, list.NoDup_cons. split; [|auto].
  intros (y & Heq & [Hy _]%elem_of_filter_list)%list_elem_of_fmap. apply Hx. rewrite Heq.
  by apply list_elem_of_fmap_2.
Qed.

Lemma sent_links_app a b : sent_links (a ++ b) = sent_links a ++ sent_links b.
Proof. apply omap_app. Qed.
Lemma sent_links_sends e links : sent_links ((fun link_id => Send link_id e) <$> links) = links.
Proof.
  induction links as [|x l IH]; [done|]. rewrite fmap_cons.
  change (x :: sent_links ((fun link_id => Send link_id e) <$> l) = x :: l). by rewrite IH.
Qed.

Lemma route_sends r e ingress cmds :
  0 <= hop_limit e -> route r e ingress = Ok cmds ->
  sent_links cmds = [] \/
  (validate_envelope e = Ok tt /\ rt_now_ms r < expires_at_ms e /\ has_seen r (seen_key_for e) = false /\
   exists e', relays ingress e e' /\
     (forall link_id x, Send link_id x ∈ cmds -> x = e') /\
     exists k, sent_links cmds = take k (up_links r ingress)).
Proof.
  unfold route. intros Hh H. destruct (validate_envelope e) as [[]|err|] eqn:Hv; [|destruct err; simplify_eq; by left|done].
  destruct (Z.leb_spec (expires_at_ms e) (rt_now_ms r)); [simplify_eq; by left|].
  destruct (has_seen r (seen_key_for e)); [simplify_eq; by left|].
  assert (forall h, (hop_limit e <=? (if is_forwarded ingress then 1 else h)) = false ->
    relays ingress e (next_hop e ingress)) as Hrel.
  { intros h. unfold relays, next_hop. destruct ingress; [|done]. simpl. rewrite Z.leb_gt. by split; [simpl; lia|]. }
  assert (forall d, (if is_local_destination r d then Ok [DeliverLocal e]
    else if hop_limit e <=? (if is_forwarded ingress then 1 else 0)
    then Ok [Drop (message_id e) HopLimitExhausted]
    else match up_links r ingress with
      | link_id :: _ => Ok [Send link_id (next_hop e ingress)]
      | [] => Ok [Store (Put (next_hop e ingress))]
      end) = Ok cmds (E:=RouterError) ->
    sent_links cmds = [] \/ (Ok tt = Ok (E:=HyfWireError) tt /\ rt_now_ms r < expires_at_ms e /\ false = false /\
      exists e', relays ingress e e' /\ (forall link_id x, Send link_id x ∈ cmds -> x = e') /\
        exists k, sent_links cmds = take k (up_links r ingress))) as Huni.
  { intros d Hd. destruct (is_local_destination r d); [simplify_eq; by left|].
    destruct (hop_limit e <=? _) eqn:Hhop; [simplify_eq; by left|]. apply Hrel in Hhop.
    destruct (up_links r ingress) as [|l ls]; simplify_eq; [by left|]. right. split_and!; [done..|].
    exists (next_hop e ingress). split_and!; [done | | by exists 1%nat].
    intros link_id x Hx%list_elem_of_singleton. congruence. }
  destruct (destination e) as [n|c|f]; [by eapply Huni | | by eapply Huni].
  destruct (is_forwarded ingress && (hop_limit e <=? 1)) eqn:Hhop; [simplify_eq; by left|].
  assert (relays ingress e (next_hop e ingress)) as Hr.
  { destruct ingress; [|done]. apply (Hrel 0). exact Hhop. }
  destruct (fan_out r e c ingress) as [|x xs] eqn:Hf; simplify_eq.
  { left. by destruct (is_forwarded ingress). }
  right. split_and!; [done..|]. exists (next_hop e ingress). rewrite <- Hf. unfold fan_out.
  split_and!; [done | |].
  - intros link_id y [Hy|Hy]%elem_of_app.
    + destruct (is_local_community (rt_policy r) c); [|by apply not_elem_of_nil in Hy].
      by apply list_elem_of_singleton in Hy.
    + apply list_elem_of_fmap in Hy as (l & ? & _). congruence.
  - exists (length (up_links r ingress)). rewrite sent_links_app, sent_links_sends, take_ge by lia.
    by destruct (is_local_community (rt_policy r) c).
Qed.

(** C11. Safety of relaying: handling an envelope, received or submitted, does not panic.
    On an error the output slice is untouched; otherwise the commands are at its front
    and the rest is untouched.  Whenever one of them puts anything on a link, the
    envelope validates, has not expired and has not been seen; each link used is up, is
    not the one the envelope came from (split horizon) and is used once; and what is
    sent is the envelope itself, with its hop limit lowered by exactly one, and still
    positive, when it came from a link. *)
Theorem envelope_sends_safe MAX_LINKS MAX_SEEN r e ingress out res out' :
  router_ok MAX_LINKS MAX_SEEN r -> envelope_ok e -> handle_envelope r e ingress out = (res, out') ->
  match res with
  | Ok n =>
      0 <= n <= len out /\ drop (Z.to_nat n) out' = drop (Z.to_nat n) out /\
      NoDup (sent_links (written n out')) /\
      forall link_id e', Send link_id e' ∈ written n out' ->
        validate_envelope e = Ok tt /\ rt_now_ms r < expires_at_ms e /\
        has_seen r (seen_key_for e) = false /\
        link_map r !! link_id = Some true /\ ingress <> Some link_id /\ relays ingress e e'
  | Err _ => out' = out
  | Panic => False
  end.
Proof.
  intros [_ Hnd _] He H. pose proof (eo_hop_limit e He) as [Hh _].
  rewrite handle_envelope_route in H by done. apply write_decision_cases in H.
  destruct res as [n|err|]; [|exact H|by apply route_safe in H]. destruct H as (H & Hn & Hd).
  split; [exact Hn|]. split; [exact Hd|]. set (cmds := written n out') in *. clearbody cmds.
  apply route_sends in H as [Hnil|(Hv & Hx & Hs & e' & Hrel & Hall & k & Hk)]; [| |done].
  - rewrite Hnil. split; [constructor|]. intros l e' Hin.
    assert (l ∈ sent_links cmds) as Hl by (apply list_elem_of_omap; by exists (Send l e')).
    rewrite Hnil in Hl. by apply not_elem_of_nil in Hl.
  - split.
    { rewrite Hk. eapply sublist_NoDup; [by apply (up_links_NoDup r ingress)|]. apply sublist_take. }
    intros l e'' Hin. rewrite (Hall l e'' Hin).
    assert (l ∈ sent_links cmds) as Hl by (apply list_elem_of_omap; by exists (Send l e'')).
    rewrite Hk in Hl. apply elem_of_take in Hl as (i & Hl & _). apply list_elem_of_lookup_2 in Hl.
    apply up_links_usable in Hl as [? ?]; [|done]. split_and!; done.
Qed.

(** ** Loop freedom *)
Lemma route_put r e ingress cmds e' :
  0 <= hop_limit e -> route r e ingress = Ok cmds -> Store (Put e') ∈ cmds -> relays ingress e e'.
Proof.
  unfold route, relays. intros Hh H Hin.
  assert (forall d, (if is_local_destination r d then Ok [DeliverLocal e]
    else if hop_limit e <=? (if is_forwarded ingress then 1 else 0)
    then Ok [Drop (message_id e) HopLimitExhausted]
    else match up_links r ingress with
      | link_id :: _ => Ok [Send link_id (next_hop e ingress)]
      | [] => Ok [Store (Put (next_hop e ingress))]
      end) = Ok cmds (E:=RouterError) ->
    match ingress with
    | Some _ => 1 <= hop_limit e' /\ e' = with_hop_limit e (hop_limit e - 1)
    | None => e' = e end) as Huni.
  { intros d Hd. destruct (is_local_destination r d); [simplify_eq; by apply list_elem_of_singleton in Hin|].
    destruct (Z.leb_spec (hop_limit e) (if is_forwarded ingress then 1 else 0));
      [simplify_eq; by apply list_elem_of_singleton in Hin|].
    destruct (up_links r ingress); simplify_eq; apply list_elem_of_singleton in Hin; [|done].
    injection Hin as ->. destruct ingress; simpl in *; [by split; [simpl; lia|] | done]. }
  destruct (validate_envelope e) as [[]|err|];
    [|destruct err; simplify_eq; by apply list_elem_of_singleton in Hin|done].
  destruct (expires_at_ms e <=? rt_now_ms r); [simplify_eq; by apply list_elem_of_singleton in Hin|].
  destruct (has_seen r (seen_key_for e)); [simplify_eq; by apply list_elem_of_singleton in Hin|].
  destruct (destination e) as [n|c|f]; [by eapply Huni | | by eapply Huni].
  destruct (is_forwarded ingress && (hop_limit e <=? 1)); [simplify_eq; by apply list_elem_of_singleton in Hin|].
  destruct (fan_out r e c ingress) as [|x xs] eqn:Hf; simplify_eq.
  - apply list_elem_of_singleton in Hin. destruct ingress; simplify_eq/=; done.
  - rewrite <- Hf in Hin. unfold fan_out in Hin. apply elem_of_app in Hin as [Hin|Hin].
    + case_match; [by apply list_elem_of_singleton in Hin | by apply not_elem_of_nil in Hin].
    + apply list_elem_of_fmap in Hin as (? & ? & _). done.
Qed.

Lemma route_stored_sends r e cmds link_id e' :
  route_stored r e = Ok cmds -> Send link_id e' ∈ cmds ->
  e' = e /\ hop_limit e <> 0 /\ rt_now_ms r < expires_at_ms e /\ link_id ∈ up_links r None.
Proof.
  unfold route_stored. intros H Hin.
  destruct (validate_envelope e) as [[]|err|];
    [|destruct err; simplify_eq; by apply list_elem_of_singleton in Hin|done].
  destruct (Z.leb_spec (expires_at_ms e) (rt_now_ms r)); [simplify_eq; by apply list_elem_of_singleton in Hin|].
  destruct (Z.eqb_spec (hop_limit e) 0); [simplify_eq; by apply list_elem_of_singleton in Hin|].
  assert (forall links, links ⊆ up_links r None -> Send link_id e' ∈ (fun l => Send l e) <$> links ->
    e' = e /\ hop_limit e <> 0 /\ rt_now_ms r < expires_at_ms e /\ link_id ∈ up_links r None) as Hs.
  { intros links Hsub (l & Heq & Hl)%list_elem_of_fmap. simplify_eq. split_and!; auto. }
  destruct (destination e) as [n'|c|f].
  - destruct (is_local_destination r (Node n')).
    + simplify_eq. apply list_elem_of_singleton in Hin. by destruct (has_seen _ _).
    + simplify_eq. eapply Hs, Hin. intros x Hx. by apply elem_of_take in Hx as (? & ?%list_elem_of_lookup_2 & _).
  - simplify_eq. apply elem_of_app in Hin as [Hin|Hin]; [|by eapply Hs, Hin].
    case_match; [by apply list_elem_of_singleton in Hin | by apply not_elem_of_nil in Hin].
  - simplify_eq/=. eapply Hs, Hin. intros x Hx. by apply elem_of_take in Hx as (? & ?%list_elem_of_lookup_2 & _).
Qed.

(** One relay of an envelope: a router, in any state, is handed a frame that decodes to
    it, and either puts it on a link at once or leaves it to the store, from which a
    router in any state puts it on a link later. *)
Inductive relay_step : HyfEnvelopeRef -> HyfEnvelopeRef -> Prop :=
| relay_send MAX_LINKS r frame out n r' out' link_id e e' :
    decode_envelope (lf_bytes frame) = Ok e ->
    handle_event MAX_LINKS (LinkEv (Frame frame)) (r, out) = (Ok n, (r', out')) ->
    Send link_id e' ∈ written n out' -> relay_step e e'
| relay_stored MAX_LINKS r frame out n r' out' e e1 later out1 n1 out1' link_id e' :
    decode_envelope (lf_bytes frame) = Ok e ->
    handle_event MAX_LINKS (LinkEv (Frame frame)) (r, out) = (Ok n, (r', out')) ->
    Store (Put e1) ∈ written n out' ->
    forward_stored later e1 out1 = (Ok n1, out1') ->
    Send link_id e' ∈ written n1 out1' -> relay_step e e'.

Lemma handle_frame_decided MAX_LINKS r frame e out n r' out' :
  0 <= hop_limit e -> decode_envelope (lf_bytes frame) = Ok e ->
  handle_event MAX_LINKS (LinkEv (Frame frame)) (r, out) = (Ok n, (r', out')) ->
  route r e (Some (lf_link_id frame)) = Ok (written n out').
Proof.
  intros Hh Hd. cbn [handle_event]. unfold on_out, handle_frame. rewrite Hd, handle_envelope_route by done.
  destruct (write_decision _ out) as [res out''] eqn:Hw. intros [= -> _ ->]. by apply write_decision_cases in Hw as [? _].
Qed.

Lemma relay_step_hop e e' :
  0 <= hop_limit e -> relay_step e e' -> 1 <= hop_limit e' /\ e' = with_hop_limit e (hop_limit e - 1).
Proof.
  intros Hh Hstep. revert Hh.
  destruct Hstep as [ML r frame out n r' out' link_id e e' Hd Hr Hin | ML r frame out n r' out' e e1 later out1 n1 out1' link_id e' Hd Hr Hin Hf Hin'];
    intros Hh; apply (handle_frame_decided _ _ _ e) in Hr; try done.
  - apply route_sends in Hr as [Hnil|(_ & _ & _ & x & Hrel & Hall & _)]; [|rewrite (Hall _ _ Hin); exact Hrel|done].
    eassert (link_id ∈ sent_links (written n out')) as Hl by (apply list_elem_of_omap; eexists; split; [exact Hin | done]).
    rewrite Hnil in Hl. by apply not_elem_of_nil in Hl.
  - eapply route_put in Hr; [|done|exact Hin].
    rewrite forward_stored_route in Hf. apply write_decision_cases in Hf as [Hf _].
    destruct (route_stored_sends _ _ _ _ _ Hf Hin') as [-> _]. exact Hr.
Qed.

(** C9. Loop freedom: along any chain of relays, by the event handlers and the store
    forwarding of any routers in any states (so around any loop of links), the hop limit
    falls by one at each relay and stays positive, and nothing else in the envelope
    changes; a chain from an envelope with hop limit [h] has fewer than [h] relays. *)
Theorem relay_chain_bounded n e e' :
  0 <= hop_limit e -> nsteps relay_step n e e' ->
  e' = with_hop_limit e (hop_limit e - Z.of_nat n) /\ (n = O \/ Z.of_nat n < hop_limit e).
Proof.
  intros Hh Hsteps. induction Hsteps as [e|n e e1 e2 Hstep Hsteps IH].
  - split; [|by left]. destruct e. unfold with_hop_limit. simpl. f_equal. lia.
  - apply relay_step_hop in Hstep as [H1 ->]; [|done].
    destruct IH as [-> Hn]; [simpl in *; lia|]. unfold with_hop_limit in *. simpl in *.
    split; [f_equal; lia | right; lia].
Qed.

(** ** The duplicate window *)
Definition seen_window (MAX_SEEN : Z) (r : Router) (win : list RouterSeenKey) : Prop :=
  ring_shape MAX_SEEN (rt_seen r) (rt_next_seen r) win.

(** What a commit does to the window of keys, newest first. *)
Definition spec_commit (MAX_SEEN : Z) (win : list RouterSeenKey) (key : RouterSeenKey) : list RouterSeenKey :=
  if decide (key ∈ win) then win else take (Z.to_nat MAX_SEEN) (key :: win).

Lemma commit_seen_window {E} MAX_SEEN r win e :
  0 <= MAX_SEEN -> seen_window MAX_SEEN r win ->
  exists r', commit_seen (E:=E) MAX_SEEN e r = (Ok tt, r') /\
    seen_window MAX_SEEN r' (spec_commit MAX_SEEN win (seen_key_for e)) /\
    rt_now_ms r' = rt_now_ms r /\ rt_links r' = rt_links r /\ rt_policy r' = rt_policy r.
Proof.
  intros HM Hw. pose proof Hw as Hw'. unfold seen_window in Hw'. unfold commit_seen, get, mbind, io_bind, spec_commit, has_seen.
  rewrite (ring_contains_spec _ _ _ _ _ Hw').
  destruct (decide (seen_key_for e ∈ win)) as [Hin|Hin].
  { rewrite bool_decide_true by done. by exists r. }
  rewrite bool_decide_false by done. simpl negb. cbv iota. unfold mark_seen.
  destruct (Z.eqb_spec MAX_SEEN 0) as [->|Hne].
  { exists r. split; [done|]. split; [|done]. simpl.
    assert (win = []) as -> by (apply len_0_nil; pose proof (rs_window _ _ _ _ Hw'); pose proof (len_nonneg win); lia).
    done. }
  destruct (ring_push_shape (E:=E) MAX_SEEN _ _ _ (seen_key_for e) ltac:(lia) Hw') as (slots & next & Hp & Hshape).
  destruct (decide (len win < MAX_SEEN)) as [Hlt|Hge].
  - rewrite (ring_first_free _ _ _ _ Hw' Hlt). unfold ring_push in Hp.
    destruct (set_at (rt_seen r) (rt_next_seen r) (Some (seen_key_for e))) as [slots'| |]; simplify_eq/=.
    by eexists.
  - rewrite (ring_full _ _ _ _ Hw') by (pose proof (rs_window _ _ _ _ Hw'); lia).
    rewrite Hp. simpl. by eexists.
Qed.

Fixpoint commit_all {E} (MAX_SEEN : Z) (es : list HyfEnvelopeRef) : io Router E unit :=
  match es with
  | [] => mret tt
  | e :: es' => _ ← commit_seen MAX_SEEN e; commit_all MAX_SEEN es'
  end.

Lemma commit_all_window {E} MAX_SEEN es r win :
  0 <= MAX_SEEN -> seen_window MAX_SEEN r win ->
  exists r', commit_all (E:=E) MAX_SEEN es r = (Ok tt, r') /\
    seen_window MAX_SEEN r' (fold_left (spec_commit MAX_SEEN) (seen_key_for <$> es) win) /\
    rt_now_ms r' = rt_now_ms r /\ rt_links r' = rt_links r /\ rt_policy r' = rt_policy r.
Proof.
  intros HM. revert r win. induction es as [|e es IH]; intros r win Hw; [by exists r|].
  destruct (commit_seen_window (E:=E) MAX_SEEN r win e HM Hw) as (r1 & Hrun & Hw1 & H1 & H2 & H3).
  destruct (IH r1 _ Hw1) as (r2 & Hrun2 & Hw2 & H4 & H5 & H6).
  exists r2. cbn [commit_all]. rewrite (io_bind_ok _ _ _ _ _ Hrun). split_and!; try done; congruence.
Qed.

Lemma spec_commit_keeps MAX_SEEN win key i :
  key ∈ take (S i) win -> Z.of_nat i + 1 < MAX_SEEN ->
  forall key', key ∈ take (S (S i)) (spec_commit MAX_SEEN win key').
Proof.
  intros Hin Hi key'. unfold spec_commit. case_decide.
  - apply elem_of_take in Hin as (j & Hj & ?). apply elem_of_take. exists j. split; [done|lia].
  - rewrite take_take. replace (S (S i) `min` Z.to_nat MAX_SEEN)%nat with (S (S i)) by lia.
    cbn [take]. by right.
Qed.

Lemma commits_keep MAX_SEEN keys win key i :
  key ∈ take (S i) win -> Z.of_nat i + len keys < MAX_SEEN ->
  key ∈ fold_left (spec_commit MAX_SEEN) keys win.
Proof.
  revert win i. induction keys as [|k keys IH]; intros win i Hin Hi; simpl.
  - apply elem_of_take in Hin as (j & Hj & _). by eapply list_elem_of_lookup_2.
  - rewrite len_cons in Hi. pose proof (len_nonneg keys).
    apply (IH _ (S i)); [apply spec_commit_keeps; [done | lia] | lia].
Qed.

(** C16. Duplicate suppression: once an envelope not in the window has been
    committed, it stays recognised while fewer than [MAX_SEEN] further commits
    are made (of any envelopes, on any reachable ring): if it validates and
    has not expired, a copy received from any link or submitted locally is
    answered with the single command [Drop Duplicate], whatever the links. *)
Theorem duplicate_suppressed MAX_LINKS MAX_SEEN r e es ingress out :
  router_ok MAX_LINKS MAX_SEEN r -> has_seen r (seen_key_for e) = false ->
  len es < MAX_SEEN -> envelope_ok e -> validate_envelope e = Ok tt -> rt_now_ms r < expires_at_ms e ->
  exists r', commit_all (E:=RouterError) MAX_SEEN (e :: es) r = (Ok tt, r') /\
    handle_envelope r' e ingress out = emit (Drop (message_id e) Duplicate) out.
Proof.
  intros [_ _ [win Hw]] Hns Hes He Hv Hexp. pose proof (len_nonneg es).
  destruct (commit_all_window (E:=RouterError) MAX_SEEN (e :: es) r win) as (r' & Hrun & Hw' & Hnow & _ & _);
    [lia | done |].
  exists r'. split; [done|].
  rewrite handle_envelope_route by (destruct He as [_ _ _ _ _ _ [? ?] _]; done). unfold route.
  rewrite Hv, Hnow. destruct (Z.leb_spec (expires_at_ms e) (rt_now_ms r)); [lia|].
  unfold has_seen in *. rewrite (ring_contains_spec _ _ _ _ _ Hw'), (ring_contains_spec _ _ _ _ _ Hw) in *.
  apply bool_decide_eq_false in Hns. rewrite bool_decide_true; [by rewrite emit_write|].
  rewrite fmap_cons. simpl. apply (commits_keep _ _ _ _ 0).
  - unfold spec_commit. rewrite decide_False by done. rewrite take_take.
    replace (1 `min` Z.to_nat MAX_SEEN)%nat with 1%nat by lia. by left.
  - unfold len in *. rewrite length_fmap. lia.
Qed.

Lemma route_stored_links r e cmds :
  route_stored r e = Ok cmds -> exists k, sent_links cmds = take k (up_links r None).
Proof.
  unfold route_stored. intros H.
  destruct (validate_envelope e) as [[]|err|]; [|destruct err; simplify_eq; by exists O|done].
  destruct (expires_at_ms e <=? rt_now_ms r); [simplify_eq; by exists O|].
  destruct (hop_limit e =? 0); [simplify_eq; by exists O|].
  destruct (destination e) as [n|c|f].
  - destruct (is_local_destination r (Node n)); simplify_eq.
    + exists O. by destruct (has_seen r (seen_key_for e)).
    + exists 1%nat. apply sent_links_sends.
  - simplify_eq. exists (length (up_links r None)). rewrite sent_links_app, sent_links_sends, take_ge by lia.
    by destruct (is_local_community (rt_policy r) c && _).
  - simplify_eq/=. exists 1%nat. apply sent_links_sends.
Qed.

(** Forwarding a stored envelope does not panic and on an error leaves the output slice
    untouched; what it puts on links is the stored envelope unchanged, only while it has
    not expired and its hop limit is positive, on links that are up, at most once per
    link. *)
Theorem forward_stored_safe MAX_LINKS MAX_SEEN r e out res out' :
  router_ok MAX_LINKS MAX_SEEN r -> forward_stored r e out = (res, out') ->
  match res with
  | Ok n =>
      0 <= n <= len out /\ drop (Z.to_nat n) out' = drop (Z.to_nat n) out /\
      NoDup (sent_links (written n out')) /\
      forall link_id e', Send link_id e' ∈ written n out' ->
        e' = e /\ hop_limit e <> 0 /\ rt_now_ms r < expires_at_ms e /\ link_map r !! link_id = Some true
  | Err _ => out' = out
  | Panic => False
  end.
Proof.
  intros [_ Hnd _] H. rewrite forward_stored_route in H. apply write_decision_cases in H. destruct res as [n|err|]; [|exact H|].
  2: { unfold route_stored in H. pose proof (validate_envelope_safe e). repeat case_match; done. }
  destruct H as (H & Hn & Hd). split; [exact Hn|]. split; [exact Hd|]. split.
  - destruct (route_stored_links _ _ _ H) as [k ->].
    eapply sublist_NoDup; [by apply (up_links_NoDup r None) | apply sublist_take].
  - intros l e' Hin. destruct (route_stored_sends _ _ _ _ _ H Hin) as (-> & Hh & Hx & Hl).
    apply up_links_usable in Hl as [Hl _]; done.
Qed.

(** ** Witnesses: a router with two links up, a community envelope *)
Definition link_a : list Z := replicate 16 1.
Definition link_b : list Z := replicate 16 2.
Definition sample_policy : RouterPolicy :=
  mk_router_policy (replicate 32 9) (Some (replicate 16 4) :: replicate 7 None).
Definition sample_router : Router :=
  mk_router sample_policy 1500
    [Some (mk_link_state link_a true); None; Some (mk_link_state link_b true)] [None; None] 0.
Definition community_envelope : HyfEnvelopeRef :=
  mk_envelope 0 (replicate 32 1) (replicate 32 2) (Community (replicate 16 4)) 1000 5000 3 HyfNativeV0 [7].

Lemma sample_router_ok : router_ok 3 2 sample_router.
Proof.
  split; [reflexivity | | exists []; exact (ring_shape_empty (K:=RouterSeenKey) 2 ltac:(lia))].
  apply (bool_decide_unpack _). vm_compute. exact I.
Defined.

Lemma community_envelope_ok : envelope_ok community_envelope.
Proof.
  constructor; vm_compute; repeat (split || constructor); try done;
    apply (bool_decide_unpack _); vm_compute; done.
Defined.

Definition blank : RouterCommand := Store (ExpireBefore 0).

Lemma handle_event_refines_witness :
  handle_event 3 (LocalSubmit community_envelope) (sample_router, replicate 4 blank) =
    (Ok 3, (sample_router, [DeliverLocal community_envelope; Send link_a community_envelope;
                            Send link_b community_envelope; blank])) /\
  exists r', router_ok 3 2 r' /\ rt_seen r' = rt_seen sample_router.
Proof.
  split; [vm_compute; reflexivity|].
  destruct (handle_event_refines 3 2 sample_router (LocalSubmit community_envelope) (replicate 4 blank)
    sample_router_ok community_envelope_ok) as (r' & H1 & _ & H2 & _).
  exists r'. split; [exact H1 | exact H2].
Defined.

Lemma envelope_sends_safe_witness :
  let out' := [DeliverLocal community_envelope; Send link_b (with_hop_limit community_envelope 2); blank] in
  handle_envelope sample_router community_envelope (Some link_a) (replicate 3 blank) = (Ok 2, out') /\
  relays (Some link_a) community_envelope (with_hop_limit community_envelope 2).
Proof.
  intros out'. assert (handle_envelope sample_router community_envelope (Some link_a) (replicate 3 blank) = (Ok 2, out')) as H
    by (vm_compute; reflexivity).
  split; [exact H|].
  destruct (envelope_sends_safe 3 2 sample_router community_envelope (Some link_a) (replicate 3 blank) (Ok 2) out'
    sample_router_ok community_envelope_ok H) as (_ & _ & _ & Hs).
  destruct (Hs link_b (with_hop_limit community_envelope 2)) as (_ & _ & _ & _ & _ & Hr).
  { apply list_elem_of_In. simpl. right. left. reflexivity. }
  exact Hr.
Defined.

(** A frame from the first link that holds the envelope. *)
Definition community_frame : LinkFrameRef :=
  match encode_envelope community_envelope (zeros 256) with
  | (Ok n, bytes) => mk_frame link_a 1500 (take (Z.to_nat n) bytes)
  | _ => mk_frame link_a 1500 []
  end.
Lemma relay_chain_bounded_witness :
  relay_step community_envelope (with_hop_limit community_envelope 2) /\ (1%nat = O \/ 1 < 3).
Proof.
  assert (relay_step community_envelope (with_hop_limit community_envelope 2)) as Hstep.
  { apply (relay_send 3 sample_router community_frame (replicate 2 blank) 2 sample_router
      [DeliverLocal community_envelope; Send link_b (with_hop_limit community_envelope 2)] link_b).
    - vm_compute. reflexivity.
    - vm_compute. reflexivity.
    - apply list_elem_of_In. simpl. right. left. reflexivity. }
  split; [exact Hstep|].
  apply (relay_chain_bounded 1 community_envelope (with_hop_limit community_envelope 2)).
  - simpl. lia.
  - apply nsteps_once. exact Hstep.
Defined.

Lemma duplicate_suppressed_witness :
  exists r', commit_all (E:=RouterError) 2 [community_envelope; sample_envelope] sample_router = (Ok tt, r') /\
    handle_envelope r' community_envelope (Some link_b) [blank] =
      (Ok 1, [Drop (replicate 32 1) Duplicate]).
Proof.
  destruct (duplicate_suppressed 3 2 sample_router community_envelope [sample_envelope] (Some link_b) [blank])
    as (r' & H1 & H2).
  - exact sample_router_ok.
  - vm_compute. reflexivity.
  - vm_compute. reflexivity.
  - exact community_envelope_ok.
  - vm_compute. reflexivity.
  - vm_compute. reflexivity.
  - exists r'. split; [exact H1|]. rewrite H2. vm_compute. reflexivity.
Defined.

Lemma forward_stored_safe_witness :
  let out' := [DeliverLocal community_envelope; Send link_a community_envelope; Send link_b community_envelope] in
  forward_stored sample_router community_envelope (replicate 3 blank) = (Ok 3, out') /\ NoDup (sent_links (written 3 out')).
Proof.
  intros out'. assert (forward_stored sample_router community_envelope (replicate 3 blank) = (Ok 3, out')) as H by (vm_compute; reflexivity).
  split; [exact H|]. exact (proj1 (proj2 (proj2 (forward_stored_safe 3 2 sample_router community_envelope (replicate 3 blank) (Ok 3) out' sample_router_ok H)))).
Defined.
