(* ===== verification/Kiss.v ===== *)
(** [hyf_link_kiss]: KISS framing with byte stuffing
    (src/crates/hyf_link_kiss/src/constants.rs, encode.rs, decode.rs, error.rs).

    The decoder is a byte-at-a-time state machine that hands each frame to a
    callback; the callback is an effect on a state of its own, so that the
    sequence of frames it is given is part of the theorems. *)
From S2P Require Import Prelude Cursor.

Definition KISS_FEND : Z := 0xc0.
Definition KISS_FESC : Z := 0xdb.
Definition KISS_TFEND : Z := 0xdc.
Definition KISS_TFESC : Z := 0xdd.
Definition KISS_CMD_DATA : Z := 0.
Definition KISS_CMD_READY : Z := 0x0f.

Inductive KissError :=
| EncodedLengthOverflow
| OutputBufferTooShort (actual required : Z)
| FrameTooLarge (actual maximum : Z)
| MalformedEscape (byte : Z).

Record KissFrameRef := mk_kiss_frame { kf_command : Z; kf_payload : list Z }.

(** ** Encoding *)
Definition max_encoded_command_len (payload_len : Z) : outcome KissError Z :=
  ok_or (n ← checked_mul payload_len 2; checked_add n 3) EncodedLengthOverflow.
Definition max_encoded_data_len (payload_len : Z) : outcome KissError Z :=
  max_encoded_command_len payload_len.

Definition is_special (byte : Z) : bool := (byte =? KISS_FEND) || (byte =? KISS_FESC).

Fixpoint encoded_len_loop (payload : list Z) (n : Z) : outcome KissError Z :=
  match payload with
  | [] => Ok n
  | byte :: payload' =>
      let increment := if is_special byte then 2 else 1 in
      n' ← ok_or (checked_add n increment) EncodedLengthOverflow;
      encoded_len_loop payload' n'
  end.
Definition encoded_len (payload : list Z) : outcome KissError Z := encoded_len_loop payload 3.

Fixpoint encode_loop (payload : list Z) (offset : Z) : io (list Z) KissError Z :=
  match payload with
  | [] => mret offset
  | byte :: payload' =>
      if byte =? KISS_FEND then
        _ ← poke offset KISS_FESC;
        _ ← poke (offset + 1) KISS_TFEND;
        encode_loop payload' (offset + 2)
      else if byte =? KISS_FESC then
        _ ← poke offset KISS_FESC;
        _ ← poke (offset + 1) KISS_TFESC;
        encode_loop payload' (offset + 2)
      else
        _ ← poke offset byte;
        encode_loop payload' (offset + 1)
  end.

Definition encode_command_frame (command : Z) (payload : list Z) : io (list Z) KissError Z :=
  required ← lift (encoded_len payload);
  out ← get;
  _ ← lift (guard_err (len out <? required) (OutputBufferTooShort (len out) required));
  _ ← poke 0 KISS_FEND;
  _ ← poke 1 command;
  offset ← encode_loop payload 2;
  _ ← poke offset KISS_FEND;
  mret (offset + 1).

Definition encode_data_frame (payload : list Z) : io (list Z) KissError Z :=
  encode_command_frame KISS_CMD_DATA payload.

(** ** Decoding *)
Record KissDecoder := mk_decoder {
  kd_buffer : list Z;  (* [u8; N] *)
  kd_len : Z;
  kd_in_frame : bool;
  kd_escape_pending : bool;
}.

Section decoder.
(** The const generic [N], and the callback on its own state. *)
Context (N : Z) {S : Type} (on_frame : KissFrameRef -> io S KissError unit).

Definition KissDecoder_new : KissDecoder := mk_decoder (zeros N) 0 false false.

Definition reset (d : KissDecoder) : KissDecoder := mk_decoder (kd_buffer d) 0 false false.

(** Assignments to the fields of [self], and the call of the callback. *)
Definition set_decoder (d : KissDecoder) : io (KissDecoder * S) KissError unit :=
  fun '(_, s) => (Ok tt, (d, s)).
Definition get_decoder : io (KissDecoder * S) KissError KissDecoder := fun '(d, s) => (Ok d, (d, s)).
Definition call_on_frame (f : KissFrameRef) : io (KissDecoder * S) KissError (outcome KissError unit) :=
  fun '(d, s) => let '(r, s') := on_frame f s in (Ok r, (d, s')).

Definition push_decoded_byte (byte : Z) : io (KissDecoder * S) KissError unit :=
  d ← get_decoder;
  if kd_len d =? N then
    _ ← set_decoder (reset d);
    lift (Err (FrameTooLarge (kd_len d + 1) N))
  else
    buffer ← lift (set_at (kd_buffer d) (kd_len d) byte);
    set_decoder (mk_decoder buffer (kd_len d + 1) (kd_in_frame d) (kd_escape_pending d)).

Definition finish_frame : io (KissDecoder * S) KissError unit :=
  d ← get_decoder;
  if kd_len d =? 0 then mret tt
  else
    command ← lift (index (kd_buffer d) 0);
    payload ← lift (slice (kd_buffer d) 1 (kd_len d));
    result ← call_on_frame (mk_kiss_frame command payload);
    _ ← set_decoder (mk_decoder (kd_buffer d) 0 (kd_in_frame d) false);
    lift result.

Definition push_byte (byte : Z) : io (KissDecoder * S) KissError unit :=
  d ← get_decoder;
  if byte =? KISS_FEND then
    _ ← (if kd_in_frame d then finish_frame else mret tt);
    d' ← get_decoder;
    set_decoder (mk_decoder (kd_buffer d') (kd_len d') true false)
  else if negb (kd_in_frame d) then mret tt
  else if kd_escape_pending d then
    _ ← set_decoder (mk_decoder (kd_buffer d) (kd_len d) (kd_in_frame d) false);
    if byte =? KISS_TFEND then push_decoded_byte KISS_FEND
    else if byte =? KISS_TFESC then push_decoded_byte KISS_FESC
    else
      _ ← set_decoder (reset d);
      lift (Err (MalformedEscape byte))
  else if byte =? KISS_FESC then
    set_decoder (mk_decoder (kd_buffer d) (kd_len d) (kd_in_frame d) true)
  else push_decoded_byte byte.

Fixpoint push_bytes (input : list Z) : io (KissDecoder * S) KissError unit :=
  match input with
  | [] => mret tt
  | byte :: input' => _ ← push_byte byte; push_bytes input'
  end.
End decoder.

(** ** The frame format *)
Definition escape_byte (byte : Z) : list Z :=
  if byte =? KISS_FEND then [KISS_FESC; KISS_TFEND]
  else if byte =? KISS_FESC then [KISS_FESC; KISS_TFESC]
  else [byte].
Definition escape (payload : list Z) : list Z := payload ≫= escape_byte.
Definition kiss_encoding (command : Z) (payload : list Z) : list Z :=
  [KISS_FEND; command] ++ escape payload ++ [KISS_FEND].

(** ** Lemmas: encoding *)
Lemma escape_cons b p : escape (b :: p) = escape_byte b ++ escape p.
Proof. done. Qed.

Lemma escape_byte_len b : len (escape_byte b) = if is_special b then 2 else 1.
Proof. unfold escape_byte, is_special. by destruct (b =? KISS_FEND), (b =? KISS_FESC). Qed.

Lemma escape_len_bounds p : len p <= len (escape p) <= 2 * len p.
Proof.
  induction p as [|b p IH]; [done|]. rewrite escape_cons, len_app, len_cons, escape_byte_len.
  destruct (is_special b); lia.
Qed.

Lemma kiss_encoding_len c p : len (kiss_encoding c p) = 3 + len (escape p).
Proof. unfold kiss_encoding. rewrite !len_app. unfold len. simpl. lia. Qed.

Lemma encoded_len_loop_spec p n :
  0 <= n <= usize_MAX ->
  encoded_len_loop p n =
    if n + len (escape p) <=? usize_MAX then Ok (n + len (escape p)) else Err EncodedLengthOverflow.
Proof.
  revert n. induction p as [|b p IH]; intros n Hn; cbn [encoded_len_loop].
  - change (len (escape [])) with 0. rewrite Z.add_0_r. by destruct (Z.leb_spec n usize_MAX); [|lia].
  - rewrite escape_cons, len_app, escape_byte_len. pose proof (escape_len_bounds p). pose proof (len_nonneg p).
    unfold checked_add. destruct (Z.leb_spec (n + (if is_special b then 2 else 1)) usize_MAX).
    + cbn [ok_or mbind outcome_bind]. rewrite IH by (destruct (is_special b); lia). by rewrite Z.add_assoc.
    + cbn [ok_or mbind outcome_bind]. destruct (Z.leb_spec (n + ((if is_special b then 2 else 1) + len (escape p))) usize_MAX);
        [destruct (is_special b); lia | done].
Qed.

Lemma kiss_encoded_len_spec c p :
  encoded_len p =
    if len (kiss_encoding c p) <=? usize_MAX then Ok (len (kiss_encoding c p)) else Err EncodedLengthOverflow.
Proof.
  unfold encoded_len. rewrite encoded_len_loop_spec by (unfold usize_MAX; lia). by rewrite kiss_encoding_len.
Qed.

Lemma encode_loop_spec p pre rest :
  len (escape p) <= len rest ->
  encode_loop p (len pre) (pre ++ rest) =
    (Ok (len (pre ++ escape p)), (pre ++ escape p) ++ drop (length (escape p)) rest).
Proof.
  revert pre rest. induction p as [|b p IH]; intros pre rest Hlen; cbn [encode_loop].
  - change (escape []) with (@nil Z). by rewrite app_nil_r, drop_0.
  - rewrite escape_cons in *. pose proof (len_nonneg (escape p)). rewrite len_app in Hlen.
    unfold escape_byte in *. destruct (b =? KISS_FEND); [|destruct (b =? KISS_FESC)].
    1-2: destruct rest as [|x [|y rest]]; [unfold len in *; simpl in *; lia.. |];
      erewrite io_bind_ok by (by apply poke_app);
      erewrite io_bind_ok by (apply poke_app; by rewrite len_app);
      match goal with |- encode_loop _ _ (?q ++ _) = _ =>
        replace (len pre + 2) with (len q) by (rewrite !len_app; unfold len; simpl; lia) end;
      rewrite IH by (unfold len in *; simpl in *; lia); by rewrite <- !app_assoc.
    destruct rest as [|x rest]; [unfold len in *; simpl in *; lia|].
    erewrite io_bind_ok by (by apply poke_app). cbn [app].
    replace (len pre + 1) with (len (pre ++ [b])) by (by rewrite len_app).
    rewrite IH by (unfold len in *; simpl in *; lia). by rewrite <- !app_assoc.
Qed.

Lemma encode_command_frame_run c p out :
  len (kiss_encoding c p) <= usize_MAX -> len (kiss_encoding c p) <= len out ->
  encode_command_frame c p out =
    (Ok (len (kiss_encoding c p)), kiss_encoding c p ++ drop (length (kiss_encoding c p)) out).
Proof.
  intros Hmax Hout. unfold encode_command_frame. rewrite (kiss_encoded_len_spec c).
  destruct (Z.leb_spec (len (kiss_encoding c p)) usize_MAX); [|lia]. rewrite lift_bind_ok.
  unfold get at 1, mbind at 1, io_bind at 1. rewrite guard_err_ltb by lia. rewrite kiss_encoding_len in Hout.
  pose proof (len_nonneg (escape p)).
  destruct out as [|x [|y out]]; [unfold len in *; simpl in *; lia..|]. rewrite !len_cons in Hout.
  erewrite io_bind_ok by (by apply (poke_app [])). erewrite io_bind_ok by (by apply (poke_app [KISS_FEND])).
  assert (encode_loop p 2 ([KISS_FEND; c] ++ out) =
    (Ok (len ([KISS_FEND; c] ++ escape p)), ([KISS_FEND; c] ++ escape p) ++ drop (length (escape p)) out)) as Hloop
    by (apply (encode_loop_spec p [KISS_FEND; c] out); lia).
  erewrite io_bind_ok by exact Hloop. destruct (drop (length (escape p)) out) as [|z rest] eqn:Hd.
  { apply (f_equal (@len Z)) in Hd. rewrite len_drop in Hd. unfold len in *. simpl in Hd. lia. }
  erewrite io_bind_ok by (by apply poke_app). unfold mret, io_ret. f_equal.
  - f_equal. rewrite kiss_encoding_len, len_app. unfold len. simpl. lia.
  - assert (drop (length (kiss_encoding c p)) (x :: y :: out) = rest) as ->.
    { pose proof (kiss_encoding_len c p) as Hl. unfold len in Hl.
      replace (length (kiss_encoding c p)) with (S (S (length (escape p) + 1))) by lia.
      cbn [drop]. by rewrite <- drop_drop, Hd. }
    unfold kiss_encoding. by rewrite <- !app_assoc.
Qed.

Lemma encode_command_frame_short c p out :
  len (kiss_encoding c p) <= usize_MAX -> len out < len (kiss_encoding c p) ->
  encode_command_frame c p out = (Err (OutputBufferTooShort (len out) (len (kiss_encoding c p))), out).
Proof.
  intros Hmax Hout. unfold encode_command_frame. rewrite (kiss_encoded_len_spec c).
  destruct (Z.leb_spec (len (kiss_encoding c p)) usize_MAX); [|lia]. rewrite lift_bind_ok.
  unfold get at 1, mbind at 1, io_bind at 1.
  by destruct (Z.ltb_spec (len out) (len (kiss_encoding c p))); [|lia].
Qed.

(** ** The decoder as a function on the decoded bytes *)
Record frame_state := mk_fs { fs_data : list Z; fs_in : bool; fs_esc : bool }.

Definition abs_push (N : Z) (a : frame_state) (b : Z) : outcome KissError unit * frame_state :=
  if len (fs_data a) =? N then (Err (FrameTooLarge (N + 1) N), mk_fs [] false false)
  else (Ok tt, mk_fs (fs_data a ++ [b]) (fs_in a) false).

(** The frame that ends at a FEND. *)
Definition pending_frame (a : frame_state) : option KissFrameRef :=
  if fs_in a then match fs_data a with [] => None | c :: p => Some (mk_kiss_frame c p) end else None.

Definition abs_step (N : Z) (a : frame_state) (b : Z)
  : option KissFrameRef * (outcome KissError unit * frame_state) :=
  if b =? KISS_FEND then (pending_frame a, (Ok tt, mk_fs [] true false))
  else (None,
    if negb (fs_in a) then (Ok tt, a)
    else if fs_esc a then
      if b =? KISS_TFEND then abs_push N a KISS_FEND
      else if b =? KISS_TFESC then abs_push N a KISS_FESC
      else (Err (MalformedEscape b), mk_fs [] false false)
    else if b =? KISS_FESC then (Ok tt, mk_fs (fs_data a) true true)
    else abs_push N a b).

Definition decoder_data (d : KissDecoder) : list Z := take (Z.to_nat (kd_len d)) (kd_buffer d).
Definition abs (d : KissDecoder) : frame_state := mk_fs (decoder_data d) (kd_in_frame d) (kd_escape_pending d).

(** Representation invariant: outside a frame there is no data and no escape. *)
Record decoder_ok (N : Z) (d : KissDecoder) : Prop := {
  do_buffer : array_ok N (kd_buffer d);
  do_len : 0 <= kd_len d <= N;
  do_idle : kd_in_frame d = false -> kd_len d = 0 /\ kd_escape_pending d = false;
}.

Lemma decoder_new_ok N : 0 <= N -> decoder_ok N (KissDecoder_new N).
Proof.
  intros HN. split; simpl; [|lia|done]. split; [by apply len_zeros | apply bytes_ok_zeros].
Qed.

Section decoder_lemmas.
Context {N : Z} {S : Type} (on_frame : KissFrameRef -> io S KissError unit).
Implicit Types (d : KissDecoder) (s : S).

Lemma decoder_data_len d : decoder_ok N d -> len (decoder_data d) = kd_len d.
Proof. intros [[Hb _] Hl _]. unfold decoder_data. rewrite len_take. lia. Qed.

Lemma reset_ok d : decoder_ok N d -> decoder_ok N (reset d) /\ abs (reset d) = mk_fs [] false false.
Proof. intros [Hb Hl Hi]. split; [split; simpl; [done | lia | done] | done]. Qed.

(** The effect of one step on decoder and callback state. *)
Definition step_result s (r : option KissFrameRef * (outcome KissError unit * frame_state))
    (res : outcome KissError unit * (KissDecoder * S)) : Prop :=
  let '(o, (d', s')) := res in
  decoder_ok N d' /\ abs d' = r.2.2 /\
  match r.1 with
  | None => (o, s') = (r.2.1, s)
  | Some f => (o, s') = on_frame f s
  end.

Lemma push_decoded_byte_spec buffer n esc b s :
  decoder_ok N (mk_decoder buffer n true esc) -> u8_ok b ->
  step_result s (None, abs_push N (abs (mk_decoder buffer n true esc)) b)
    (push_decoded_byte N b (mk_decoder buffer n true false, s)).
Proof.
  intros Hd Hb. pose proof (decoder_data_len _ Hd) as Hlen. simpl in Hlen.
  unfold push_decoded_byte, get_decoder, set_decoder, mbind, io_bind, abs_push, step_result. simpl.
  rewrite Hlen. destruct Hd as [[Hbl Hbb] Hl Hi]. simpl in *. destruct (Z.eqb_spec n N) as [->|Hne].
  - simpl. split; [split; simpl; [done | lia | done] | done].
  - rewrite set_at_ok by lia. simpl. split; [|split; [|done]].
    + split; simpl; [split; [by rewrite len_insert | by apply Forall_insert] | lia | done].
    + unfold abs, decoder_data. simpl. f_equal.
      replace (Z.to_nat (n + 1)) with (Datatypes.S (Z.to_nat n)) by lia.
      erewrite take_S_r by (apply list_lookup_insert_eq; unfold len in Hbl; lia).
      by rewrite take_insert_ge by lia.
Qed.

(** Ending a frame: nothing for an empty one, otherwise one call. *)
Lemma finish_frame_empty d s : kd_len d = 0 -> finish_frame on_frame (d, s) = (Ok tt, (d, s)).
Proof. intros H. unfold finish_frame, get_decoder, mbind, io_bind. by rewrite H. Qed.

Lemma finish_frame_call d s c p :
  decoder_ok N d -> decoder_data d = c :: p ->
  finish_frame on_frame (d, s) =
    let '(r, s') := on_frame (mk_kiss_frame c p) s in
    (r, (mk_decoder (kd_buffer d) 0 (kd_in_frame d) false, s')).
Proof.
  intros Hd Hdata. pose proof (decoder_data_len d Hd) as Hlen. rewrite Hdata, len_cons in Hlen.
  pose proof (len_nonneg p). destruct Hd as [[Hbl _] Hl _].
  unfold finish_frame, get_decoder, mbind, io_bind. destruct (Z.eqb_spec (kd_len d) 0); [lia|].
  unfold decoder_data in Hdata. destruct (kd_buffer d) as [|x buffer] eqn:Hbuf; [rewrite len_nil in *; lia|].
  rewrite index_0. cbn [lift]. rewrite slice_ok by lia.
  replace (Z.to_nat (kd_len d)) with (Datatypes.S (Z.to_nat (kd_len d - 1))) in Hdata by lia.
  cbn [take] in Hdata. injection Hdata as -> Hp. change (Z.to_nat 1) with 1%nat. cbn [drop lift]. rewrite drop_0, Hp.
  unfold call_on_frame, set_decoder. rewrite <- Hbuf. destruct (on_frame _ s) as [r s']. by destruct r.
Qed.

Lemma push_byte_spec d b s :
  decoder_ok N d -> u8_ok b ->
  step_result s (abs_step N (abs d) b) (push_byte N on_frame b (d, s)).
Proof.
  intros Hd Hb. unfold push_byte, abs_step, get_decoder. unfold mbind at 1, io_bind at 1.
  pose proof (decoder_data_len d Hd) as Hlen. assert (forall d', kd_buffer d' = kd_buffer d ->
    kd_len d' = 0 -> kd_in_frame d' = true -> kd_escape_pending d' = false ->
    decoder_ok N d' /\ abs d' = mk_fs [] true false) as Hstart.
  { intros d' H1 H2 H3 H4. split; [split; rewrite ?H1, ?H2, ?H3; [apply Hd | pose proof (do_len _ _ Hd); lia | done]|].
    unfold abs, decoder_data. by rewrite H2, H3, H4. }
  destruct (b =? KISS_FEND).
  - unfold pending_frame. cbn [abs fs_in fs_data]. destruct (kd_in_frame d) eqn:Hin.
    + destruct (decoder_data d) as [|c p] eqn:Hdata.
      * rewrite len_nil in Hlen. unfold mbind, io_bind. rewrite finish_frame_empty by done.
        destruct (Hstart (mk_decoder (kd_buffer d) (kd_len d) true false)) as [H1 H2]; [done..|].
        by split_and!.
      * unfold mbind, io_bind. rewrite (finish_frame_call d s c p Hd Hdata), Hin.
        destruct (on_frame (mk_kiss_frame c p) s) as [r s'] eqn:Hr.
        destruct (Hstart (mk_decoder (kd_buffer d) 0 true false)) as [H1 H2]; [done..|].
        destruct r as [[]|e|]; by split_and!.
    + destruct (do_idle _ _ Hd Hin) as [H0 _].
      destruct (Hstart (mk_decoder (kd_buffer d) (kd_len d) true false)) as [H1 H2]; [done..|].
      by split_and!.
  - cbn [abs fs_in fs_esc fs_data]. destruct d as [buffer n inf esc]. cbn [kd_in_frame kd_escape_pending kd_buffer kd_len] in *.
    destruct inf; cbn [negb]; [|by split_and!].
    assert (decoder_ok N (mk_decoder buffer n true false)) as Hd' by (destruct Hd; by split).
    destruct esc.
    + unfold set_decoder at 1, mbind at 1, io_bind at 1.
      destruct (b =? KISS_TFEND); [by apply (push_decoded_byte_spec buffer n true KISS_FEND s)|].
      destruct (b =? KISS_TFESC); [by apply (push_decoded_byte_spec buffer n true KISS_FESC s)|].
      destruct (reset_ok _ Hd') as [H1 H2]. by split_and!.
    + destruct (b =? KISS_FESC).
      * split; [|by split]. destruct Hd. by split.
      * by apply (push_decoded_byte_spec buffer n false b s).
Qed.
End decoder_lemmas.

(** ** Streams *)
(** Feeding a chunk and then another is feeding their concatenation. *)
Lemma push_bytes_app {S} N (on_frame : KissFrameRef -> io S KissError unit) u v st :
  push_bytes N on_frame (u ++ v) st = (_ ← push_bytes N on_frame u; push_bytes N on_frame v) st.
Proof.
  revert st. induction u as [|b u IH]; intros st; [done|]. cbn [app push_bytes].
  unfold mbind, io_bind in *. destruct (push_byte N on_frame b st) as [[[]|e|] st']; [apply IH | done | done].
Qed.

(** A run of the abstract machine: the frames delivered and the end state. *)
Fixpoint abs_run (N : Z) (a : frame_state) (bs : list Z)
  : list KissFrameRef * (outcome KissError unit * frame_state) :=
  match bs with
  | [] => ([], (Ok tt, a))
  | b :: bs' =>
      let '(f, (o, a1)) := abs_step N a b in
      let here := match f with Some f => [f] | None => [] end in
      match o with
      | Ok _ => let '(fs, r) := abs_run N a1 bs' in (here ++ fs, r)
      | _ => (here, (o, a1))
      end
  end.

(** A callback that records the frames it is given. *)
Definition collect (f : KissFrameRef) : io (list KissFrameRef) KissError unit := fun s => (Ok tt, s ++ [f]).

(** A callback that does not fail is folded over the frames. *)
Lemma push_bytes_fold {S} N (on_frame : KissFrameRef -> io S KissError unit) (update : S -> KissFrameRef -> S) bs d s :
  (forall f s, on_frame f s = (Ok tt, update s f)) -> decoder_ok N d -> bytes_ok bs ->
  exists d', decoder_ok N d' /\
    push_bytes N on_frame bs (d, s) =
      ((abs_run N (abs d) bs).2.1, (d', fold_left update (abs_run N (abs d) bs).1 s)) /\
    abs d' = (abs_run N (abs d) bs).2.2.
Proof.
  intros Hcall. revert d s. induction bs as [|b bs IH]; intros d s Hd Hbs; cbn [push_bytes abs_run]; [by exists d|].
  apply bytes_ok_cons in Hbs as [Hb Hbs].
  pose proof (push_byte_spec on_frame d b s Hd Hb) as Hstep. unfold step_result, mbind, io_bind in *.
  destruct (push_byte N on_frame b (d, s)) as [o [d1 s1]]. destruct Hstep as (Hd1 & Habs & Hres).
  assert (s1 = fold_left update (match (abs_step N (abs d) b).1 with Some f => [f] | None => [] end) s /\
    o = (abs_step N (abs d) b).2.1) as [-> ->].
  { unfold abs_step in *. destruct (b =? KISS_FEND).
    - simpl in *. destruct (pending_frame (abs d)); [rewrite Hcall in Hres|]; simplify_eq; done.
    - simpl in *. simplify_eq. done. }
  destruct (abs_step N (abs d) b) as [f [o a1]]. simpl in *. subst a1. destruct o as [[]|e|]; [|by exists d1..].
  destruct (IH d1 (fold_left update (match f with Some f => [f] | None => [] end) s) Hd1 Hbs) as (d' & Hd' & -> & Ha').
  exists d'. destruct (abs_run N (abs d1) bs) as [fs r]. simpl in *. by rewrite fold_left_app.
Qed.

Lemma push_bytes_collect N bs d s :
  decoder_ok N d -> bytes_ok bs ->
  exists d', decoder_ok N d' /\
    push_bytes N collect bs (d, s) =
      ((abs_run N (abs d) bs).2.1, (d', s ++ (abs_run N (abs d) bs).1)) /\
    abs d' = (abs_run N (abs d) bs).2.2.
Proof.
  intros Hd Hbs. destruct (push_bytes_fold N collect (fun s f => s ++ [f]) bs d s) as (d' & Hd' & Hp & Ha); [done..|]. exists d'. split; [done|]. split; [|done].
  rewrite Hp. do 2 f_equal. clear. revert s. induction (abs_run N (abs d) bs).1 as [|f fs IH]; intros s; cbn [fold_left]; [by rewrite app_nil_r|].
  rewrite IH. by rewrite <- app_assoc.
Qed.

(** [feeds a bs fs a']: the bytes are accepted, deliver [fs] and lead to [a']. *)
Definition feeds (N : Z) (a : frame_state) (bs : list Z) (fs : list KissFrameRef) (a' : frame_state) : Prop :=
  abs_run N a bs = (fs, (Ok tt, a')).

Lemma feeds_app N a bs fs a1 bs' fs' a2 :
  feeds N a bs fs a1 -> feeds N a1 bs' fs' a2 -> feeds N a (bs ++ bs') (fs ++ fs') a2.
Proof.
  unfold feeds. revert a fs. induction bs as [|b bs IH]; intros a fs H1 H2; simpl in *.
  - by simplify_eq.
  - destruct (abs_step N a b) as [f [o a']]. destruct o as [[]|e|]; [|done|done].
    destruct (abs_run N a' bs) as [fs1 r] eqn:Hr. simplify_eq.
    rewrite (IH _ _ Hr H2). by rewrite app_assoc.
Qed.

Lemma feeds_fend N a : feeds N a [KISS_FEND] (match pending_frame a with Some f => [f] | None => [] end) (mk_fs [] true false).
Proof. unfold feeds. simpl. by rewrite app_nil_r. Qed.

Lemma feeds_plain N data b :
  b <> KISS_FEND -> b <> KISS_FESC -> len data < N ->
  feeds N (mk_fs data true false) [b] [] (mk_fs (data ++ [b]) true false).
Proof.
  intros H1 H2 Hlen. unfold feeds, abs_run, abs_step. apply Z.eqb_neq in H1, H2. rewrite H1. simpl.
  rewrite H2. unfold abs_push. simpl. by destruct (Z.eqb_spec (len data) N); [lia|].
Qed.

Lemma feeds_escape_byte N data b :
  len data < N ->
  feeds N (mk_fs data true false) (escape_byte b) [] (mk_fs (data ++ [b]) true false).
Proof.
  intros Hlen. unfold escape_byte.
  destruct (Z.eqb_spec b KISS_FEND) as [->|H1]; [|destruct (Z.eqb_spec b KISS_FESC) as [->|H2]].
  1-2: unfold feeds, abs_run, abs_step; simpl; unfold abs_push; simpl;
    by destruct (Z.eqb_spec (len data) N); [lia|].
  by apply feeds_plain.
Qed.

Lemma feeds_escape N data p :
  len data + len p <= N ->
  feeds N (mk_fs data true false) (escape p) [] (mk_fs (data ++ p) true false).
Proof.
  revert data. induction p as [|b p IH]; intros data Hlen.
  - change (escape []) with (@nil Z). by rewrite app_nil_r.
  - rewrite len_cons in Hlen. pose proof (len_nonneg p). rewrite escape_cons.
    eapply (feeds_app _ _ _ []); [apply feeds_escape_byte; lia|].
    replace (data ++ b :: p) with ((data ++ [b]) ++ p) by (by rewrite <- app_assoc).
    apply IH. rewrite len_app. unfold len in *. simpl. lia.
Qed.

(** Frames the encoder is meant for: a command byte that needs no escape. *)
Definition frame_fits (N : Z) (f : KissFrameRef) : Prop :=
  u8_ok (kf_command f) /\ kf_command f <> KISS_FEND /\ kf_command f <> KISS_FESC /\
  bytes_ok (kf_payload f) /\ 1 + len (kf_payload f) <= N.

Definition idle : frame_state := mk_fs [] true false.

Lemma feeds_frame N a f :
  frame_fits N f ->
  feeds N a (kiss_encoding (kf_command f) (kf_payload f))
    ((match pending_frame a with Some g => [g] | None => [] end) ++ [f]) idle.
Proof.
  intros (_ & H1 & H2 & _ & Hlen). pose proof (len_nonneg (kf_payload f)). unfold kiss_encoding.
  change ([KISS_FEND; kf_command f] ++ ?r) with ([KISS_FEND] ++ [kf_command f] ++ r).
  eapply feeds_app; [apply feeds_fend|].
  change [f] with ([] ++ [] ++ [f]).
  eapply feeds_app; [apply feeds_plain; [done | done | rewrite len_nil; lia]|].
  eapply feeds_app; [apply feeds_escape; unfold len in *; simpl; lia|].
  destruct f as [c p]. apply (feeds_fend N (mk_fs (c :: p) true false)).
Qed.

Definition stream (fs : list KissFrameRef) : list Z :=
  fs ≫= (fun f => kiss_encoding (kf_command f) (kf_payload f)).

Lemma feeds_stream N fs : Forall (frame_fits N) fs -> feeds N idle (stream fs) fs idle.
Proof.
  induction 1 as [|f fs Hf Hfs IH]; [done|]. change (f :: fs) with ([f] ++ fs).
  eapply feeds_app; [by apply (feeds_frame N idle)|]. exact IH.
Qed.

Lemma escape_byte_ok b : u8_ok b -> bytes_ok (escape_byte b).
Proof.
  intros H. unfold escape_byte.
  destruct (b =? KISS_FEND); [|destruct (b =? KISS_FESC)].
  1-2: apply (bool_decide_unpack _); vm_compute; exact I.
  apply bytes_ok_cons. by split; [|constructor].
Qed.

Lemma kiss_encoding_ok c p : u8_ok c -> bytes_ok p -> bytes_ok (kiss_encoding c p).
Proof.
  intros Hc Hp. unfold kiss_encoding. rewrite !bytes_ok_app. split_and!.
  - apply bytes_ok_cons. split; [done|]. apply bytes_ok_cons. by split; [|constructor].
  - unfold escape. apply Forall_bind. eapply list.Forall_impl; [exact Hp|]. apply escape_byte_ok.
  - apply bytes_ok_cons. by split; [|constructor].
Qed.

Lemma stream_ok N fs : Forall (frame_fits N) fs -> bytes_ok (stream fs).
Proof.
  intros H. apply Forall_bind. eapply list.Forall_impl; [exact H|].
  intros f (Hc & _ & _ & Hp & _). by apply kiss_encoding_ok.
Qed.

(** A non-empty stream is delivered, from any state. *)
Lemma stream_delivered N d s f fs :
  decoder_ok N d -> frame_fits N f -> Forall (frame_fits N) fs ->
  exists d', decoder_ok N d' /\ abs d' = idle /\
    push_bytes N collect (stream (f :: fs)) (d, s) =
      (Ok tt, (d', s ++ match pending_frame (abs d) with Some g => [g] | None => [] end ++ f :: fs)).
Proof.
  intros Hd Hf Hfs.
  assert (feeds N (abs d) (stream (f :: fs))
    (((match pending_frame (abs d) with Some g => [g] | None => [] end) ++ [f]) ++ fs) idle) as Hrun.
  { eapply feeds_app; [by apply feeds_frame | by apply feeds_stream]. }
  destruct (push_bytes_collect N (stream (f :: fs)) d s Hd) as (d' & Hd' & Hpush & Habs).
  { apply (stream_ok N). by constructor. }
  unfold feeds in Hrun. rewrite Hrun in Hpush, Habs. cbn [fst snd] in Hpush, Habs.
  exists d'. split_and!; [done..|]. rewrite Hpush. by rewrite <- app_assoc.
Qed.

Lemma kiss_frame_delivered N d s f :
  decoder_ok N d -> frame_fits N f ->
  exists d', decoder_ok N d' /\ abs d' = idle /\
    push_bytes N collect (kiss_encoding (kf_command f) (kf_payload f)) (d, s) =
      (Ok tt, (d', s ++ match pending_frame (abs d) with Some g => [g] | None => [] end ++ [f])).
Proof.
  intros Hd Hf. destruct (stream_delivered N d s f [] Hd Hf) as (d' & H1 & H2 & H3); [constructor|].
  exists d'. split_and!; [done..|]. rewrite <- H3. unfold stream. cbn [mbind list_bind]. by rewrite app_nil_r.
Qed.

(** Encoder: on every payload and buffer, [encode_command_frame] reports an
    unrepresentable length or a buffer that is too short (with the exact
    length, leaving the buffer alone), and otherwise writes FEND, the command,
    the stuffed payload and FEND in front of the untouched rest of the buffer
    and returns their length, which never exceeds [max_encoded_command_len]. *)
Theorem encode_command_frame_spec c p out :
  let v := kiss_encoding c p in
  encode_command_frame c p out =
    (if usize_MAX <? len v then (Err EncodedLengthOverflow, out)
     else if len out <? len v then (Err (OutputBufferTooShort (len out) (len v)), out)
     else (Ok (len v), v ++ drop (length v) out)) /\
  forall m, max_encoded_command_len (len p) = Ok m -> len v <= m.
Proof.
  cbv zeta. split.
  - destruct (Z.ltb_spec usize_MAX (len (kiss_encoding c p))) as [H|H].
    + unfold encode_command_frame. rewrite (kiss_encoded_len_spec c).
      by destruct (Z.leb_spec (len (kiss_encoding c p)) usize_MAX); [lia|].
    + destruct (Z.ltb_spec (len out) (len (kiss_encoding c p))) as [H'|H'].
      * by apply encode_command_frame_short.
      * by apply encode_command_frame_run.
  - intros m Hm. rewrite kiss_encoding_len. pose proof (escape_len_bounds p).
    unfold max_encoded_command_len, checked_mul, checked_add in Hm.
    destruct (len p * 2 <=? usize_MAX); simplify_eq/=.
    destruct (len p * 2 + 3 <=? usize_MAX); simplify_eq/=. lia.
Qed.

(** C18. Stream round trip and resynchronisation: from any decoder state
    whatsoever (fresh, in the middle of a frame, after an error), feeding the
    encodings of frames that fit the buffer never fails and hands the callback
    exactly those frames in order, after at most one leftover: the frame that
    was being received when the stream began.  The decoder ends between
    frames. *)
Theorem kiss_stream_delivers N d s fs :
  decoder_ok N d -> Forall (frame_fits N) fs -> fs <> [] ->
  exists d', decoder_ok N d' /\ abs d' = idle /\
    push_bytes N collect (stream fs) (d, s) =
      (Ok tt, (d', s ++ match pending_frame (abs d) with Some g => [g] | None => [] end ++ fs)).
Proof.
  intros Hd Hfs Hne. destruct fs as [|f fs]; [done|]. inversion Hfs; subst. by apply stream_delivered.
Qed.

(** Safety: whatever bytes arrive, in whatever chunks, and whatever the
    callback does short of panicking, the decoder does not panic and its
    representation invariant (length within the buffer, no data outside a
    frame) is kept, on success and on error. *)
Theorem push_bytes_safe N {S} (on_frame : KissFrameRef -> io S KissError unit) chunks d s :
  (forall f s, (on_frame f s).1 <> Panic) -> decoder_ok N d -> Forall bytes_ok chunks ->
  let '(r, (d', _)) := push_bytes N on_frame (concat chunks) (d, s) in
  r <> Panic /\ decoder_ok N d'.
Proof.
  intros Hcb Hd Hchunks. assert (bytes_ok (concat chunks)) as Hbs.
  { induction Hchunks; [constructor|]. simpl. by apply bytes_ok_app. }
  clear Hchunks. revert d s Hd. induction (concat chunks) as [|b bs IH]; intros d s Hd; [done|].
  apply bytes_ok_cons in Hbs as [Hb Hbs]. cbn [push_bytes]. unfold mbind, io_bind.
  pose proof (push_byte_spec on_frame d b s Hd Hb) as Hstep. unfold step_result in Hstep.
  destruct (push_byte N on_frame b (d, s)) as [o [d1 s1]]. destruct Hstep as (Hd1 & _ & Hres).
  assert (o <> Panic) as Ho.
  { destruct ((abs_step N (abs d) b).1) as [f|] eqn:Hf; [|].
    - intros ->. by destruct (Hcb f s); rewrite <- Hres.
    - injection Hres as -> _. clear Hf. unfold abs_step, abs_push.
      repeat (simpl; case_match); done. }
  destruct o as [[]|e|]; [by apply IH | done | done].
Qed.

(** ** Witnesses *)
Definition sample_frames : list KissFrameRef :=
  [mk_kiss_frame 0 [1; 192; 219; 2]; mk_kiss_frame 15 []; mk_kiss_frame 0 [220]].
(** A decoder in the middle of a frame, with an escape pending. *)
Definition mid_frame : KissDecoder := mk_decoder ([5; 6] ++ zeros 6) 2 true true.

Lemma mid_frame_ok : decoder_ok 8 mid_frame.
Proof.
  split; [split; [reflexivity | apply (bool_decide_unpack _); vm_compute; exact I] | vm_compute; split; discriminate | discriminate].
Defined.

Lemma sample_frames_fit : Forall (frame_fits 8) sample_frames.
Proof.
  repeat (apply list.Forall_cons_2; [unfold frame_fits; split_and!; [apply (bool_decide_unpack _); vm_compute; exact I
    | discriminate | discriminate | apply (bool_decide_unpack _); vm_compute; exact I | vm_compute; discriminate]|]).
  constructor.
Defined.

Lemma kiss_stream_delivers_witness :
  exists d', abs d' = idle /\
    push_bytes 8 collect (stream sample_frames) (mid_frame, []) =
      (Ok tt, (d', mk_kiss_frame 5 [6] :: sample_frames)).
Proof.
  destruct (kiss_stream_delivers 8 mid_frame [] sample_frames mid_frame_ok sample_frames_fit) as (d' & _ & H1 & H2);
    [discriminate|].
  exists d'. split; [exact H1 | exact H2].
Defined.

Lemma push_bytes_safe_witness :
  (push_bytes 8 collect (concat [[192; 1; 219]; [7]]) (mid_frame, [])).1 = Err (MalformedEscape 7) /\
  let '(r, (d', _)) := push_bytes 8 collect (concat [[192; 1; 219]; [7]]) (mid_frame, []) in
  r <> Panic /\ decoder_ok 8 d'.
Proof.
  split; [vm_compute; reflexivity|].
  apply (push_bytes_safe 8 collect [[192; 1; 219]; [7]] mid_frame []).
  - intros f s. discriminate.
  - exact mid_frame_ok.
  - apply (bool_decide_unpack _). vm_compute. exact I.
Defined.
