(* ===== verification/RNode.v ===== *)
(** [hyf_link_rnode]: the RNode command set over KISS, its configuration
    checks and its flow-control state
    (src/crates/hyf_link_rnode/src/constants.rs, config.rs, command.rs, state.rs, error.rs).

    The theorems connect the command encoder, through the KISS framing of
    [Kiss], with the parser; and give the flow-control state machine its
    meaning on traces. *)
From S2P Require Import Prelude Cursor Kiss.

(** ** Constants *)
Definition RNODE_CMD_DATA : Z := 0x00.
Definition RNODE_CMD_FREQUENCY : Z := 0x01.
Definition RNODE_CMD_BANDWIDTH : Z := 0x02.
Definition RNODE_CMD_TXPOWER : Z := 0x03.
Definition RNODE_CMD_SF : Z := 0x04.
Definition RNODE_CMD_CR : Z := 0x05.
Definition RNODE_CMD_RADIO_STATE : Z := 0x06.
Definition RNODE_CMD_DETECT : Z := 0x08.
Definition RNODE_CMD_LEAVE : Z := 0x0a.
Definition RNODE_CMD_READY : Z := 0x0f.
Definition RNODE_CMD_STAT_RX : Z := 0x21.
Definition RNODE_CMD_STAT_TX : Z := 0x22.
Definition RNODE_CMD_STAT_RSSI : Z := 0x23.
Definition RNODE_CMD_STAT_SNR : Z := 0x24.
Definition RNODE_CMD_PLATFORM : Z := 0x48.
Definition RNODE_CMD_MCU : Z := 0x49.
Definition RNODE_CMD_FW_VERSION : Z := 0x50.
Definition RNODE_CMD_ERROR : Z := 0x90.
Definition RNODE_DETECT_REQUEST : Z := 0x73.
Definition RNODE_LEAVE_REQUEST : Z := 0xff.
Definition RNODE_RADIO_STATE_OFF : Z := 0x00.
Definition RNODE_RADIO_STATE_ON : Z := 0x01.
Definition RNODE_RADIO_STATE_ASK : Z := 0xff.
Definition RNODE_ERROR_INITRADIO : Z := 0x01.
Definition RNODE_ERROR_TXFAILED : Z := 0x02.
Definition RNODE_ERROR_EEPROM_LOCKED : Z := 0x03.
Definition RNODE_ERROR_QUEUE_FULL : Z := 0x04.
Definition RNODE_ERROR_MEMORY_LOW : Z := 0x05.
Definition RNODE_ERROR_MODEM_TIMEOUT : Z := 0x06.
Definition RNODE_FREQUENCY_MIN_HZ : Z := 137000000.
Definition RNODE_FREQUENCY_MAX_HZ : Z := 3000000000.
Definition RNODE_BANDWIDTH_MIN_HZ : Z := 7800.
Definition RNODE_BANDWIDTH_MAX_HZ : Z := 1625000.
Definition RNODE_TX_POWER_MAX_DBM : Z := 37.
Definition RNODE_SPREADING_FACTOR_MIN : Z := 5.
Definition RNODE_SPREADING_FACTOR_MAX : Z := 12.
Definition RNODE_CODING_RATE_MIN : Z := 5.
Definition RNODE_CODING_RATE_MAX : Z := 8.
Definition RNODE_RSSI_OFFSET : Z := 157.
Definition RNODE_REQUIRED_FW_MAJOR : Z := 1.
Definition RNODE_REQUIRED_FW_MINOR : Z := 52.

(** ** Data *)
Inductive RNodeRadioState := Off | On | Ask.
#[export] Instance RNodeRadioState_eq_dec : EqDecision RNodeRadioState.
Proof. solve_decision. Defined.

Definition as_byte (s : RNodeRadioState) : Z :=
  match s with
  | Off => RNODE_RADIO_STATE_OFF
  | On => RNODE_RADIO_STATE_ON
  | Ask => RNODE_RADIO_STATE_ASK
  end.

Inductive RNodeError :=
| KissErr (e : KissError)
| InvalidFrequencyHz (actual minimum maximum : Z)
| InvalidBandwidthHz (actual minimum maximum : Z)
| InvalidTxPowerDbm (actual maximum : Z)
| InvalidSpreadingFactor (actual minimum maximum : Z)
| InvalidCodingRate (actual minimum maximum : Z)
| InvalidPayloadLength (command actual expected : Z).

Inductive RNodeCommand :=
| FrequencyHz (v : Z)
| BandwidthHz (v : Z)
| TxPowerDbm (v : Z)
| SpreadingFactor (v : Z)
| CodingRate (v : Z)
| RadioState (s : RNodeRadioState)
| Detect
| Leave
| Ready (enabled : bool).

Inductive RNodeHardwareError :=
| InitRadio | TxFailed | EepromLocked | QueueFull | MemoryLow | ModemTimeout | UnknownError (b : Z).

Record RNodeFirmwareVersion := mk_fw { fw_major : Z; fw_minor : Z; fw_supported : bool }.

Inductive RNodeConfigReport :=
| RepFrequencyHz (v : Z)
| RepBandwidthHz (v : Z)
| RepTxPowerDbm (v : Z)
| RepSpreadingFactor (v : Z)
| RepCodingRate (v : Z)
| RepRadioState (s : RNodeRadioState)
| RepPlatform (v : Z)
| RepMcu (v : Z).

Inductive RNodeStat :=
| RxBytes (v : Z)
| TxBytes (v : Z)
| RssiDbm (v : Z)       (* i16 *)
| SnrQuarterDb (v : Z). (* i8 *)

Inductive RNodeEvent :=
| Data (payload : list Z)
| ReadyEvent
| ErrorEvent (e : RNodeHardwareError)
| FirmwareVersion (v : RNodeFirmwareVersion)
| ConfigReport (r : RNodeConfigReport)
| Stat (s : RNodeStat)
| Unknown (command : Z) (payload : list Z).

(** ** Configuration *)
Record RNodeConfig := mk_rnode_config {
  rc_frequency_hz : Z;
  rc_bandwidth_hz : Z;
  rc_tx_power_dbm : Z;
  rc_spreading_factor : Z;
  rc_coding_rate : Z;
  rc_flow_control : bool;
}.

(** [(lo..=hi).contains(&value)] *)
Definition in_range (lo hi v : Z) : bool := (lo <=? v) && (v <=? hi).

Definition validate_frequency_hz (v : Z) : outcome RNodeError unit :=
  if in_range RNODE_FREQUENCY_MIN_HZ RNODE_FREQUENCY_MAX_HZ v then Ok tt
  else Err (InvalidFrequencyHz v RNODE_FREQUENCY_MIN_HZ RNODE_FREQUENCY_MAX_HZ).
Definition validate_bandwidth_hz (v : Z) : outcome RNodeError unit :=
  if in_range RNODE_BANDWIDTH_MIN_HZ RNODE_BANDWIDTH_MAX_HZ v then Ok tt
  else Err (InvalidBandwidthHz v RNODE_BANDWIDTH_MIN_HZ RNODE_BANDWIDTH_MAX_HZ).
Definition validate_tx_power_dbm (v : Z) : outcome RNodeError unit :=
  if v <=? RNODE_TX_POWER_MAX_DBM then Ok tt else Err (InvalidTxPowerDbm v RNODE_TX_POWER_MAX_DBM).
Definition validate_spreading_factor (v : Z) : outcome RNodeError unit :=
  if in_range RNODE_SPREADING_FACTOR_MIN RNODE_SPREADING_FACTOR_MAX v then Ok tt
  else Err (InvalidSpreadingFactor v RNODE_SPREADING_FACTOR_MIN RNODE_SPREADING_FACTOR_MAX).
Definition validate_coding_rate (v : Z) : outcome RNodeError unit :=
  if in_range RNODE_CODING_RATE_MIN RNODE_CODING_RATE_MAX v then Ok tt
  else Err (InvalidCodingRate v RNODE_CODING_RATE_MIN RNODE_CODING_RATE_MAX).

Definition validate_config (c : RNodeConfig) : outcome RNodeError unit :=
  _ ← validate_frequency_hz (rc_frequency_hz c);
  _ ← validate_bandwidth_hz (rc_bandwidth_hz c);
  _ ← validate_tx_power_dbm (rc_tx_power_dbm c);
  _ ← validate_spreading_factor (rc_spreading_factor c);
  _ ← validate_coding_rate (rc_coding_rate c);
  Ok tt.

(** ** Commands *)
(** The command byte and the slice of the four-byte payload array. *)
Definition command_payload (c : RNodeCommand) : outcome RNodeError (Z * list Z) :=
  let payload := zeros 4 in
  match c with
  | FrequencyHz v =>
      _ ← validate_frequency_hz v;
      p ← slice (to_be_bytes 4 v) 0 4; Ok (RNODE_CMD_FREQUENCY, p)
  | BandwidthHz v =>
      _ ← validate_bandwidth_hz v;
      p ← slice (to_be_bytes 4 v) 0 4; Ok (RNODE_CMD_BANDWIDTH, p)
  | TxPowerDbm v =>
      _ ← validate_tx_power_dbm v;
      a ← set_at payload 0 v; p ← slice a 0 1; Ok (RNODE_CMD_TXPOWER, p)
  | SpreadingFactor v =>
      _ ← validate_spreading_factor v;
      a ← set_at payload 0 v; p ← slice a 0 1; Ok (RNODE_CMD_SF, p)
  | CodingRate v =>
      _ ← validate_coding_rate v;
      a ← set_at payload 0 v; p ← slice a 0 1; Ok (RNODE_CMD_CR, p)
  | RadioState s => a ← set_at payload 0 (as_byte s); p ← slice a 0 1; Ok (RNODE_CMD_RADIO_STATE, p)
  | Detect => a ← set_at payload 0 RNODE_DETECT_REQUEST; p ← slice a 0 1; Ok (RNODE_CMD_DETECT, p)
  | Leave => a ← set_at payload 0 RNODE_LEAVE_REQUEST; p ← slice a 0 1; Ok (RNODE_CMD_LEAVE, p)
  | Ready enabled => a ← set_at payload 0 (Z.b2z enabled); p ← slice a 0 1; Ok (RNODE_CMD_READY, p)
  end.

Definition encode_command (c : RNodeCommand) : io (list Z) RNodeError Z :=
  '(command_byte, payload) ← lift (command_payload c);
  io_map_err KissErr (encode_command_frame command_byte payload).

(** ** Parsing *)
Definition invalid_len (command actual expected : Z) : RNodeError :=
  InvalidPayloadLength command actual expected.
Definition expect_len (command : Z) (payload : list Z) (expected : Z) : outcome RNodeError unit :=
  if len payload =? expected then Ok tt else Err (invalid_len command (len payload) expected).

Definition parse_u32 (command : Z) (payload : list Z) : outcome RNodeError Z :=
  _ ← expect_len command payload 4;
  a ← index payload 0; b ← index payload 1; c ← index payload 2; d ← index payload 3;
  Ok (from_be_bytes [a; b; c; d]).

Definition firmware_supported (major minor : Z) : bool :=
  (major >? RNODE_REQUIRED_FW_MAJOR)
  || (major =? RNODE_REQUIRED_FW_MAJOR) && (minor >=? RNODE_REQUIRED_FW_MINOR).

Definition parse_ready (payload : list Z) : outcome RNodeError RNodeEvent :=
  if len payload <=? 1 then Ok ReadyEvent else Err (invalid_len RNODE_CMD_READY (len payload) 1).

Definition hardware_error (b : Z) : RNodeHardwareError :=
  if b =? RNODE_ERROR_INITRADIO then InitRadio
  else if b =? RNODE_ERROR_TXFAILED then TxFailed
  else if b =? RNODE_ERROR_EEPROM_LOCKED then EepromLocked
  else if b =? RNODE_ERROR_QUEUE_FULL then QueueFull
  else if b =? RNODE_ERROR_MEMORY_LOW then MemoryLow
  else if b =? RNODE_ERROR_MODEM_TIMEOUT then ModemTimeout
  else UnknownError b.

Definition parse_error (command : Z) (payload : list Z) : outcome RNodeError RNodeEvent :=
  _ ← expect_len command payload 1;
  b ← index payload 0;
  Ok (ErrorEvent (hardware_error b)).

Definition parse_firmware_version (command : Z) (payload : list Z) : outcome RNodeError RNodeEvent :=
  _ ← expect_len command payload 2;
  major ← index payload 0;
  minor ← index payload 1;
  Ok (FirmwareVersion (mk_fw major minor (firmware_supported major minor))).

Definition parse_u32_stat (command : Z) (payload : list Z) (build : Z -> RNodeStat)
  : outcome RNodeError RNodeEvent :=
  v ← parse_u32 command payload; Ok (Stat (build v)).

(** [i16::from(b) - 157]; [i8::from_be_bytes([b])]. *)
Definition parse_rssi (command : Z) (payload : list Z) : outcome RNodeError RNodeEvent :=
  _ ← expect_len command payload 1;
  b ← index payload 0;
  Ok (Stat (RssiDbm (b - RNODE_RSSI_OFFSET))).
Definition i8_of_byte (b : Z) : Z := if b <? 128 then b else b - 256.
Definition parse_snr (command : Z) (payload : list Z) : outcome RNodeError RNodeEvent :=
  _ ← expect_len command payload 1;
  b ← index payload 0;
  Ok (Stat (SnrQuarterDb (i8_of_byte b))).

Definition parse_u32_config (command : Z) (payload : list Z) (build : Z -> RNodeConfigReport)
  : outcome RNodeError RNodeEvent :=
  v ← parse_u32 command payload; Ok (ConfigReport (build v)).
Definition parse_u8_config (command : Z) (payload : list Z) (build : Z -> RNodeConfigReport)
  : outcome RNodeError RNodeEvent :=
  _ ← expect_len command payload 1;
  b ← index payload 0;
  Ok (ConfigReport (build b)).

Definition parse_radio_state (command : Z) (payload : list Z) : outcome RNodeError RNodeEvent :=
  _ ← expect_len command payload 1;
  b ← index payload 0;
  if b =? RNODE_RADIO_STATE_OFF then Ok (ConfigReport (RepRadioState Off))
  else if b =? RNODE_RADIO_STATE_ON then Ok (ConfigReport (RepRadioState On))
  else if b =? RNODE_RADIO_STATE_ASK then Ok (ConfigReport (RepRadioState Ask))
  else Ok (Unknown command payload).

Definition parse_command_frame (f : KissFrameRef) : outcome RNodeError RNodeEvent :=
  let command := kf_command f in
  let payload := kf_payload f in
  if command =? RNODE_CMD_DATA then Ok (Data payload)
  else if command =? RNODE_CMD_READY then parse_ready payload
  else if command =? RNODE_CMD_ERROR then parse_error command payload
  else if command =? RNODE_CMD_FW_VERSION then parse_firmware_version command payload
  else if command =? RNODE_CMD_STAT_RX then parse_u32_stat command payload RxBytes
  else if command =? RNODE_CMD_STAT_TX then parse_u32_stat command payload TxBytes
  else if command =? RNODE_CMD_STAT_RSSI then parse_rssi command payload
  else if command =? RNODE_CMD_STAT_SNR then parse_snr command payload
  else if command =? RNODE_CMD_FREQUENCY then parse_u32_config command payload RepFrequencyHz
  else if command =? RNODE_CMD_BANDWIDTH then parse_u32_config command payload RepBandwidthHz
  else if command =? RNODE_CMD_TXPOWER then parse_u8_config command payload RepTxPowerDbm
  else if command =? RNODE_CMD_SF then parse_u8_config command payload RepSpreadingFactor
  else if command =? RNODE_CMD_CR then parse_u8_config command payload RepCodingRate
  else if command =? RNODE_CMD_RADIO_STATE then parse_radio_state command payload
  else if command =? RNODE_CMD_PLATFORM then parse_u8_config command payload RepPlatform
  else if command =? RNODE_CMD_MCU then parse_u8_config command payload RepMcu
  else Ok (Unknown command payload).

(** ** Flow control *)
Record RNodeState := mk_rnode_state {
  rs_flow_control : bool;
  rs_interface_ready : bool;
  rs_last_error : option RNodeHardwareError;
}.
Definition RNodeState_new (flow_control : bool) : RNodeState :=
  mk_rnode_state flow_control (negb flow_control) None.
Definition can_transmit (s : RNodeState) : bool := negb (rs_flow_control s) || rs_interface_ready s.
Definition mark_tx_started (s : RNodeState) : RNodeState :=
  if rs_flow_control s then mk_rnode_state (rs_flow_control s) false (rs_last_error s) else s.
Definition apply_event (s : RNodeState) (ev : RNodeEvent) : RNodeState :=
  match ev with
  | ReadyEvent => mk_rnode_state (rs_flow_control s) true (rs_last_error s)
  | ErrorEvent e => mk_rnode_state (rs_flow_control s) false (Some e)
  | _ => s
  end.

(** ** Commands through KISS and back *)
Definition validate_command (c : RNodeCommand) : outcome RNodeError unit :=
  match c with
  | FrequencyHz v => validate_frequency_hz v
  | BandwidthHz v => validate_bandwidth_hz v
  | TxPowerDbm v => validate_tx_power_dbm v
  | SpreadingFactor v => validate_spreading_factor v
  | CodingRate v => validate_coding_rate v
  | _ => Ok tt
  end.

(** The frame a command stands for, and the event it is when parsed back. *)
Definition command_frame (c : RNodeCommand) : KissFrameRef :=
  match c with
  | FrequencyHz v => mk_kiss_frame RNODE_CMD_FREQUENCY (to_be_bytes 4 v)
  | BandwidthHz v => mk_kiss_frame RNODE_CMD_BANDWIDTH (to_be_bytes 4 v)
  | TxPowerDbm v => mk_kiss_frame RNODE_CMD_TXPOWER [v]
  | SpreadingFactor v => mk_kiss_frame RNODE_CMD_SF [v]
  | CodingRate v => mk_kiss_frame RNODE_CMD_CR [v]
  | RadioState s => mk_kiss_frame RNODE_CMD_RADIO_STATE [as_byte s]
  | Detect => mk_kiss_frame RNODE_CMD_DETECT [RNODE_DETECT_REQUEST]
  | Leave => mk_kiss_frame RNODE_CMD_LEAVE [RNODE_LEAVE_REQUEST]
  | Ready enabled => mk_kiss_frame RNODE_CMD_READY [Z.b2z enabled]
  end.

Definition echo_event (c : RNodeCommand) : RNodeEvent :=
  match c with
  | FrequencyHz v => ConfigReport (RepFrequencyHz v)
  | BandwidthHz v => ConfigReport (RepBandwidthHz v)
  | TxPowerDbm v => ConfigReport (RepTxPowerDbm v)
  | SpreadingFactor v => ConfigReport (RepSpreadingFactor v)
  | CodingRate v => ConfigReport (RepCodingRate v)
  | RadioState s => ConfigReport (RepRadioState s)
  | Detect => Unknown RNODE_CMD_DETECT [RNODE_DETECT_REQUEST]
  | Leave => Unknown RNODE_CMD_LEAVE [RNODE_LEAVE_REQUEST]
  | Ready _ => ReadyEvent
  end.

(** What the Rust types guarantee of a command. *)
Definition command_ok (c : RNodeCommand) : Prop :=
  match c with
  | FrequencyHz v | BandwidthHz v => u32_ok v
  | TxPowerDbm v | SpreadingFactor v | CodingRate v => u8_ok v
  | _ => True
  end.

Lemma command_payload_spec c :
  command_payload c =
    match validate_command c with
    | Ok _ => Ok (kf_command (command_frame c), kf_payload (command_frame c))
    | Err e => Err e
    | Panic => Panic
    end.
Proof. by destruct c. Qed.

Lemma validate_command_safe c : validate_command c <> Panic.
Proof.
  destruct c; cbn [validate_command]; unfold validate_frequency_hz, validate_bandwidth_hz,
    validate_tx_power_dbm, validate_spreading_factor, validate_coding_rate; by try case_match.
Qed.

Lemma command_frame_fits N c : command_ok c -> 5 <= N -> frame_fits N (command_frame c).
Proof.
  intros Hc HN. unfold frame_fits. split_and!.
  - destruct c; (apply (bool_decide_unpack _); vm_compute; exact I).
  - by destruct c.
  - by destruct c.
  - destruct c; cbn [command_frame kf_payload]; auto with bytes; simpl in Hc;
      try (apply bytes_ok_cons; split; [done | constructor]);
      try (destruct s; apply (bool_decide_unpack _); vm_compute; exact I);
      try (destruct enabled; apply (bool_decide_unpack _); vm_compute; exact I);
      apply (bool_decide_unpack _); vm_compute; exact I.
  - destruct c; cbn [command_frame kf_payload]; rewrite ?len_to_be_bytes; unfold len; simpl; lia.
Qed.

Lemma parse_u32_four command p : len p = 4 -> parse_u32 command p = Ok (from_be_bytes p).
Proof.
  intros Hl. destruct p as [|a [|b [|c [|d [|e p]]]]]; try done.
  rewrite !len_cons in Hl. pose proof (len_nonneg p). lia.
Qed.

Lemma parse_be4 command v : u32_ok v -> parse_u32 command (to_be_bytes 4 v) = Ok v.
Proof.
  intros Hv. rewrite parse_u32_four by (by rewrite len_to_be_bytes). by rewrite (from_to_be_bytes 4).
Qed.

Lemma parse_command_frame_echo c :
  command_ok c -> parse_command_frame (command_frame c) = Ok (echo_event c).
Proof.
  destruct c; intros Hc; try done.
  - unfold parse_command_frame, command_frame. cbn [kf_command kf_payload].
    change (parse_u32_config RNODE_CMD_FREQUENCY (to_be_bytes 4 v) RepFrequencyHz = Ok (echo_event (FrequencyHz v))).
    unfold parse_u32_config. by rewrite parse_be4.
  - unfold parse_command_frame, command_frame. cbn [kf_command kf_payload].
    change (parse_u32_config RNODE_CMD_BANDWIDTH (to_be_bytes 4 v) RepBandwidthHz = Ok (echo_event (BandwidthHz v))).
    unfold parse_u32_config. by rewrite parse_be4.
  - by destruct s.
Qed.

(** Commands round trip over the serial line: [encode_command] refuses
    exactly the values outside the configured ranges, and otherwise reports a
    short buffer or writes the KISS frame of the command; what it wrote, fed
    to a decoder with room for five bytes in any state, is delivered as one
    frame, which parses to the event that reports the same setting. *)
Theorem encode_command_roundtrip N c out d s :
  command_ok c -> 5 <= N -> decoder_ok N d ->
  match validate_command c with
  | Err e => encode_command c out = (Err e, out)
  | Panic => False
  | Ok _ =>
      let v := kiss_encoding (kf_command (command_frame c)) (kf_payload (command_frame c)) in
      if len out <? len v
      then encode_command c out = (Err (KissErr (OutputBufferTooShort (len out) (len v))), out)
      else exists out' d' f,
        encode_command c out = (Ok (len v), out') /\
        push_bytes N collect (take (Z.to_nat (len v)) out') (d, s) =
          (Ok tt, (d', s ++ match pending_frame (abs d) with Some g => [g] | None => [] end ++ [f])) /\
        parse_command_frame f = Ok (echo_event c)
  end.
Proof.
  intros Hc HN Hd. unfold encode_command. rewrite command_payload_spec.
  destruct (validate_command c) as [[]|e|] eqn:Hv; [|done|by destruct (validate_command_safe c)].
  cbv zeta. rewrite lift_bind_ok. unfold io_map_err.
  set (f := command_frame c). pose proof (command_frame_fits N c Hc HN) as Hfit. fold f in Hfit.
  assert (len (kiss_encoding (kf_command f) (kf_payload f)) <= usize_MAX) as Hmax.
  { rewrite kiss_encoding_len. pose proof (escape_len_bounds (kf_payload f)).
    assert (len (kf_payload f) <= 4) by (destruct c; cbn [f command_frame kf_payload]; rewrite ?len_to_be_bytes; done).
    unfold usize_MAX. lia. }
  destruct (Z.ltb_spec (len out) (len (kiss_encoding (kf_command f) (kf_payload f)))) as [Hs|Hs].
  - by rewrite encode_command_frame_short.
  - rewrite encode_command_frame_run by done. cbn [map_err].
    destruct (kiss_frame_delivered N d s f Hd Hfit) as (d' & _ & _ & Hpush).
    do 2 eexists. exists f. split; [done|]. split; [|by apply parse_command_frame_echo].
    rewrite take_len_app. exact Hpush.
Qed.

(** ** The parser on arbitrary frames *)
Definition event_in_range (ev : RNodeEvent) : Prop :=
  match ev with
  | Stat (RxBytes v) | Stat (TxBytes v) => u32_ok v
  | Stat (RssiDbm v) => - 157 <= v <= 98
  | Stat (SnrQuarterDb v) => - 128 <= v <= 127
  | ConfigReport (RepFrequencyHz v) | ConfigReport (RepBandwidthHz v) => u32_ok v
  | _ => True
  end.

Lemma expect_len_inv command p n : expect_len command p n = Ok tt -> len p = n.
Proof. unfold expect_len. by destruct (Z.eqb_spec (len p) n). Qed.

(** A parser step: no panic, results in range, errors are length errors of
    this frame. *)
Definition parses_well (command : Z) (p : list Z) (o : outcome RNodeError RNodeEvent) : Prop :=
  match o with
  | Ok ev => event_in_range ev
  | Err e => exists n, e = InvalidPayloadLength command (len p) n /\ len p <> n
  | Panic => False
  end.

Lemma expect_len_cases {A} command p n (k : outcome RNodeError A) :
  (len p = n /\ (_ ← expect_len command p n; k) = k) \/
  (len p <> n /\ (_ ← expect_len command p n; k) = Err (InvalidPayloadLength command (len p) n)).
Proof. unfold expect_len. destruct (Z.eqb_spec (len p) n); [by left | by right]. Qed.

Lemma parse_one_well command p (build : Z -> outcome RNodeError RNodeEvent) :
  bytes_ok p -> (forall b, u8_ok b -> parses_well command p (build b)) ->
  parses_well command p (_ ← expect_len command p 1; b ← index p 0; build b).
Proof.
  intros Hp Hb. destruct (expect_len_cases command p 1 (b ← index p 0; build b)) as [[Hl ->]|[Hl ->]]; [|by exists 1].
  destruct p as [|b p]; [done|]. rewrite index_0. apply bytes_ok_cons in Hp as [Hx _]. by apply Hb.
Qed.

Lemma parse_four_well command p (build : Z -> RNodeEvent) :
  bytes_ok p -> (forall v, u32_ok v -> event_in_range (build v)) ->
  parses_well command p (v ← parse_u32 command p; Ok (build v)).
Proof.
  intros Hp Hb. destruct (Z.eqb_spec (len p) 4) as [Hl|Hl].
  - rewrite parse_u32_four by done. apply Hb. unfold u32_ok.
    pose proof (from_be_bytes_bound p Hp) as H. by rewrite Hl in H.
  - unfold parse_u32, expect_len. rewrite (proj2 (Z.eqb_neq _ _) Hl). by exists 4.
Qed.

Lemma parse_command_frame_well f :
  bytes_ok (kf_payload f) -> parses_well (kf_command f) (kf_payload f) (parse_command_frame f).
Proof.
  intros Hp. destruct f as [command p]. unfold parse_command_frame. cbn [kf_command kf_payload] in *.
  repeat match goal with
  | |- parses_well _ _ (if command =? RNODE_CMD_READY then _ else _) =>
      destruct (Z.eqb_spec command RNODE_CMD_READY) as [->|];
        [unfold parse_ready; destruct (Z.leb_spec (len p) 1); [done|]; exists 1; split; [done | lia] |]
  | |- parses_well _ _ (if ?b then _ else _) => destruct b
  end; try done.
  - by apply parse_one_well.
  - unfold parse_firmware_version.
    match goal with |- parses_well _ _ (_ ← expect_len _ _ _; ?k) =>
      destruct (expect_len_cases command p 2 k) as [[Hl ->]|[Hl ->]]; [|by exists 2] end.
    destruct p as [|a [|b p]]; done.
  - by apply parse_four_well.
  - by apply parse_four_well.
  - apply parse_one_well; [done|]. unfold u8_ok, RNODE_RSSI_OFFSET. simpl. unfold RNODE_RSSI_OFFSET. lia.
  - apply parse_one_well; [done|]. intros b Hb. unfold u8_ok in Hb. simpl. unfold i8_of_byte.
    destruct (Z.ltb_spec b 128); lia.
  - by apply parse_four_well.
  - by apply parse_four_well.
  - by apply parse_one_well.
  - by apply parse_one_well.
  - by apply parse_one_well.
  - apply parse_one_well; [done|]. intros b _. by repeat case_match.
  - by apply parse_one_well.
  - by apply parse_one_well.
Qed.

(** The parser is total on what the KISS layer can deliver: on every frame
    of bytes it returns an event whose numeric fields are in the range of
    their types (32-bit counters and settings, RSSI from -157 to 98, a signed
    byte of SNR), or the length error of that frame; it never panics. *)
Theorem parse_command_frame_total f :
  bytes_ok (kf_payload f) -> parses_well (kf_command f) (kf_payload f) (parse_command_frame f).
Proof. apply parse_command_frame_well. Qed.

(** ** Flow control on traces *)
Inductive RNodeLabel :=
| LTx             (* a transmission, allowed by [can_transmit] *)
| LEv (ev : RNodeEvent).

Inductive rnode_step : RNodeState -> RNodeLabel -> RNodeState -> Prop :=
| step_tx s : can_transmit s = true -> rnode_step s LTx (mark_tx_started s)
| step_ev s ev : rnode_step s (LEv ev) (apply_event s ev).

(** Reachability with the trace, newest label last. *)
Inductive rnode_reach (s0 : RNodeState) : list RNodeLabel -> RNodeState -> Prop :=
| reach_nil : rnode_reach s0 [] s0
| reach_snoc tr s l s' : rnode_reach s0 tr s -> rnode_step s l s' -> rnode_reach s0 (tr ++ [l]) s'.

Definition is_ready (l : RNodeLabel) : bool := match l with LEv ReadyEvent => true | _ => false end.
Definition is_tx (l : RNodeLabel) : bool := match l with LTx => true | _ => false end.
Definition is_error (l : RNodeLabel) : bool := match l with LEv (ErrorEvent _) => true | _ => false end.
(** Labels that leave the permission to transmit alone. *)
Definition neutral (l : RNodeLabel) : bool := negb (is_ready l) && negb (is_tx l) && negb (is_error l).

Definition last_ready (tr : list RNodeLabel) : Prop :=
  exists a l b, tr = a ++ l :: b /\ is_ready l = true /\ Forall (fun l => neutral l = true) b.

Lemma last_ready_snoc tr l :
  last_ready (tr ++ [l]) <-> is_ready l = true \/ neutral l = true /\ last_ready tr.
Proof.
  split.
  - intros (a & r & b & Heq & Hr & Hb). destruct b as [|x b _] using rev_ind.
    + apply app_inj_tail in Heq as [_ ->]. by left.
    + rewrite app_comm_cons, app_assoc in Heq. apply app_inj_tail in Heq as [-> ->].
      apply Forall_app in Hb as [Hb Hx]. right. inversion Hx; subst. split; [done|]. by exists a, r, b.
  - intros [Hr|[Hn (a & r & b & -> & Hr & Hb)]].
    + exists tr, l, []. by split_and!.
    + exists a, r, (b ++ [l]). rewrite <- app_assoc. split_and!; [done..|]. apply Forall_app. by repeat constructor.
Qed.

Lemma reach_flow_control s0 tr s : rnode_reach s0 tr s -> rs_flow_control s = rs_flow_control s0.
Proof.
  induction 1 as [|tr s l s' Hr IH Hs]; [done|]. rewrite <- IH. destruct Hs as [s|s ev].
  - unfold mark_tx_started. by destruct (rs_flow_control s) eqn:E.
  - by destruct ev.
Qed.

Lemma reach_ready tr s :
  rnode_reach (RNodeState_new true) tr s -> rs_interface_ready s = true <-> last_ready tr.
Proof.
  induction 1 as [|tr s l s' Hr IH Hs].
  - split; [done|]. intros (a & l & b & Heq & _). by destruct a.
  - apply reach_flow_control in Hr. rewrite last_ready_snoc.
    destruct Hs as [s Hc|s ev].
    + unfold mark_tx_started. rewrite Hr. simpl. naive_solver.
    + destruct ev; simpl; naive_solver.
Qed.

Definition count (f : RNodeLabel -> bool) (tr : list RNodeLabel) : Z := len (List.filter f tr).

Lemma count_snoc f tr l : count f (tr ++ [l]) = count f tr + Z.b2z (f l).
Proof. unfold count. rewrite List.filter_app, len_app. simpl. by destruct (f l). Qed.

Lemma reach_counts tr s :
  rnode_reach (RNodeState_new true) tr s ->
  count is_tx tr + Z.b2z (rs_interface_ready s) <= count is_ready tr.
Proof.
  induction 1 as [|tr s l s' Hr IH Hs]; [done|]. apply reach_flow_control in Hr.
  rewrite !count_snoc. destruct Hs as [s Hc|s ev].
  - unfold can_transmit in Hc. unfold mark_tx_started. rewrite Hr in *. simpl in *. rewrite Hc in IH. simpl in *. lia.
  - destruct ev; simpl in *; destruct (rs_interface_ready s); simpl in *; lia.
Qed.

(** C36. Flow control: on every reachable trace of an interface with flow
    control, transmission is allowed exactly when the last of the relevant
    events (ready, error, transmission) was a ready event, so every
    transmission is preceded by its own ready event and transmissions never
    outnumber ready events; without flow control transmission is always
    allowed. *)
Theorem flow_control_credit fc tr s :
  rnode_reach (RNodeState_new fc) tr s ->
  if fc
  then (can_transmit s = true <-> last_ready tr) /\
       count is_tx tr + Z.b2z (can_transmit s) <= count is_ready tr /\
       forall tr1 tr2, tr = tr1 ++ LTx :: tr2 -> last_ready tr1
  else can_transmit s = true.
Proof.
  intros Hr. pose proof (reach_flow_control _ _ _ Hr) as Hfc. unfold can_transmit. destruct fc.
  - simpl in Hfc. rewrite Hfc. simpl. split; [by apply reach_ready|]. split; [by apply reach_counts|].
    clear Hfc. induction Hr as [|tr s l s' Hr IH Hs]; intros tr1 tr2 Heq; [by destruct tr1|].
    destruct tr2 as [|x tr2 _] using rev_ind.
    + apply app_inj_tail in Heq as [-> ->]. inversion Hs as [? Hc|]; subst.
      pose proof (reach_flow_control _ _ _ Hr) as Hf. unfold can_transmit in Hc. rewrite Hf in Hc.
      by apply (reach_ready _ _ Hr).
    + rewrite app_comm_cons, app_assoc in Heq. apply app_inj_tail in Heq as [Heq _]. by eapply IH.
  - simpl in Hfc. by rewrite Hfc.
Qed.

(** ** Witnesses *)
Lemma encode_command_roundtrip_witness :
  validate_command (FrequencyHz 868000000) = Ok tt /\
  exists out' d' f,
    encode_command (FrequencyHz 868000000) (zeros 16) = (Ok 7, out') /\
    push_bytes 8 collect (take 7 out') (mid_frame, []) = (Ok tt, (d', [mk_kiss_frame 5 [6]; f])) /\
    parse_command_frame f = Ok (ConfigReport (RepFrequencyHz 868000000)).
Proof.
  split; [reflexivity|].
  assert (command_ok (FrequencyHz 868000000)) as Hc by (simpl; unfold u32_ok; lia).
  destruct (encode_command_roundtrip 8 (FrequencyHz 868000000) (zeros 16) mid_frame [] Hc ltac:(lia) mid_frame_ok)
    as (out' & d' & f & H1 & H2 & H3).
  exists out', d', f. split; [exact H1|]. split; [exact H2 | exact H3].
Defined.

Lemma parse_command_frame_total_witness :
  parse_command_frame (mk_kiss_frame RNODE_CMD_STAT_RSSI [60]) = Ok (Stat (RssiDbm (- 97))) /\
  parses_well RNODE_CMD_STAT_RSSI [60] (parse_command_frame (mk_kiss_frame RNODE_CMD_STAT_RSSI [60])).
Proof.
  split; [reflexivity|]. apply (parse_command_frame_total (mk_kiss_frame RNODE_CMD_STAT_RSSI [60])).
  apply (bool_decide_unpack _). vm_compute. exact I.
Defined.

Lemma flow_control_credit_witness :
  exists s, rnode_reach (RNodeState_new true) [LEv ReadyEvent; LTx; LEv ReadyEvent] s /\ can_transmit s = true /\
    last_ready [LEv ReadyEvent; LTx; LEv ReadyEvent].
Proof.
  exists (mk_rnode_state true true None).
  assert (rnode_reach (RNodeState_new true) [LEv ReadyEvent; LTx; LEv ReadyEvent] (mk_rnode_state true true None)) as Hr.
  { apply (reach_snoc _ [LEv ReadyEvent; LTx] (mk_rnode_state true false None)).
    - apply (reach_snoc _ [LEv ReadyEvent] (mk_rnode_state true true None)).
      + apply (reach_snoc _ [] (mk_rnode_state true false None)); [constructor|].
        exact (step_ev (mk_rnode_state true false None) ReadyEvent).
      + apply (step_tx (mk_rnode_state true true None)). reflexivity.
    - exact (step_ev (mk_rnode_state true false None) ReadyEvent). }
  split; [exact Hr|]. split; [reflexivity|].
  destruct (flow_control_credit true _ _ Hr) as (H & _). apply H. reflexivity.
Defined.
