(* ===== verification/HilProbe.v ===== *)
(** [hyf_link_rnode::hil]: the readiness probe of a radio modem on a serial
    transport (src/crates/hyf_link_rnode/src/hil.rs).

    The transport is a class with the operations of [std::io::Read] and [Write];
    [ScriptedIo] is the transport whose answers are given in advance, and as the
    probe only ever sees the answers, what is proved for every script holds for
    every transport.  The claim: the answer is the first verdict there is
    of the bytes read so far, and nothing but two requests is ever written. *)
From S2P Require Import Prelude Cursor Kiss RNode.

Open Scope Z_scope.

Definition RNODE_HIL_READINESS_MAX_READS : Z := 32.
Definition RNODE_HIL_READINESS_READ_BUF_LEN : Z := 128.

(** [io::ErrorKind], as far as the probe tells kinds apart. *)
Inductive IoErrorKind := TimedOut | WouldBlock | OtherIo (code : Z).

Record RNodeHilReadiness := mk_readiness {
  hr_ready : bool;
  hr_firmware_version : option RNodeFirmwareVersion;
  hr_radio_state : option RNodeRadioState;
  hr_bytes_read : Z;
}.
Definition RNodeHilReadiness_new : RNodeHilReadiness := mk_readiness false None None 0.

(** The first and third are raised outside: by the hardware test when asked to
    transmit, and on opening the serial port. *)
Inductive RNodeHilReadinessError :=
| RfTransmissionRequested
| ReadinessIo (kind : IoErrorKind)
| SerialError (code : Z)
| ReadinessKiss (error : KissError)
| ReadinessRNode (error : RNodeError)
| DeviceError (error : RNodeHardwareError)
| UnsupportedFirmware (major minor : Z)
| NoReady.

(** [std::io::Read] and [std::io::Write]; a read gives the bytes it put at the
    front of the buffer of the given length. *)
Class StdIo (T : Type) := {
  std_read : Z -> io T IoErrorKind (list Z);
  std_write_all : list Z -> io T IoErrorKind unit;
  std_flush : io T IoErrorKind unit;
}.

Definition add_bytes_read (n : Z) (r : RNodeHilReadiness) : RNodeHilReadiness :=
  mk_readiness (hr_ready r) (hr_firmware_version r) (hr_radio_state r) (hr_bytes_read r + n).

(** The new readiness, also when there is an error. *)
Definition apply_readiness_event (event : RNodeEvent) (r : RNodeHilReadiness) : outcome RNodeHilReadinessError unit * RNodeHilReadiness :=
  match event with
  | ReadyEvent => (Ok tt, mk_readiness true (hr_firmware_version r) (hr_radio_state r) (hr_bytes_read r))
  | FirmwareVersion version =>
      if negb (fw_supported version) then (Err (UnsupportedFirmware (fw_major version) (fw_minor version)), r)
      else (Ok tt, mk_readiness (hr_ready r) (Some version) (hr_radio_state r) (hr_bytes_read r))
  | ConfigReport (RepRadioState state) => (Ok tt, mk_readiness (hr_ready r) (hr_firmware_version r) (Some state) (hr_bytes_read r))
  | ErrorEvent error => (Err (DeviceError error), r)
  | _ => (Ok tt, r)
  end.

(** The closure: its state is [readiness] and [event_error]. *)
Definition readiness_callback (frame : KissFrameRef) : io (RNodeHilReadiness * option RNodeHilReadinessError) KissError unit := fun '(readiness, event_error) =>
  match parse_command_frame frame with
  | Ok event =>
      match apply_readiness_event event readiness with
      | (Ok _, readiness) => (Ok tt, (readiness, event_error))
      | (Err error, readiness) => (Ok tt, (readiness, Some error))
      | (Panic, readiness) => (Panic, (readiness, event_error))
      end
  | Err error => (Ok tt, (readiness, Some (ReadinessRNode error)))
  | Panic => (Panic, (readiness, event_error))
  end.

Section probe.
Context {T : Type} `{StdIo T}.

(** [for _ in 0..RNODE_HIL_READINESS_MAX_READS], with [left_] turns to go. *)
Fixpoint read_loop (left_ : nat) (decoder : KissDecoder) (readiness : RNodeHilReadiness) (read_buf : list Z) : io T RNodeHilReadinessError RNodeHilReadiness :=
  match left_ with
  | O => lift (Err NoReady)
  | S left_ => fun t =>
      match std_read (len read_buf) t with
      | (Ok [], t) => read_loop left_ decoder readiness read_buf t
      | (Ok bytes, t) =>
          (read_buf ← lift (write_at read_buf 0 bytes);
           let read_len := len bytes in
           let readiness := add_bytes_read read_len readiness in
           input ← lift (slice read_buf 0 read_len);
           let '(pushed, (decoder, (readiness, event_error))) := push_bytes 256 readiness_callback input (decoder, (readiness, None)) in
           _ ← lift (map_err ReadinessKiss pushed);
           match event_error with
           | Some error => lift (Err error)
           | None => if hr_ready readiness then mret readiness else read_loop left_ decoder readiness read_buf
           end) t
      | (Err TimedOut, t) | (Err WouldBlock, t) => read_loop left_ decoder readiness read_buf t
      | (Err error, t) => (Err (ReadinessIo error), t)
      | (Panic, t) => (Panic, t)
      end
  end.

Definition read_rnode_readiness : io T RNodeHilReadinessError RNodeHilReadiness :=
  read_loop (Z.to_nat RNODE_HIL_READINESS_MAX_READS) (KissDecoder_new 256) RNodeHilReadiness_new (zeros RNODE_HIL_READINESS_READ_BUF_LEN).

(** [encode_command(c, &mut command)] and [transport.write_all(&command[..len])] *)
Definition write_probe_command (c : RNodeCommand) (command : list Z) : io T RNodeHilReadinessError (list Z) :=
  let '(encoded, command) := encode_command c command in
  n ← lift (map_err ReadinessRNode encoded);
  bytes ← lift (slice command 0 n);
  _ ← io_map_err ReadinessIo (std_write_all bytes);
  mret command.

Definition probe_rnode_readiness_io : io T RNodeHilReadinessError RNodeHilReadiness :=
  let command := zeros 8 in
  command ← write_probe_command Detect command;
  _ ← write_probe_command (RadioState Ask) command;
  _ ← io_map_err ReadinessIo std_flush;
  read_rnode_readiness.
End probe.

(** ** A transport with its answers *)
Record ScriptedIo := mk_script {
  sc_reads : list (list Z + IoErrorKind);   (* then the end of the input *)
  sc_writes : list (option IoErrorKind);    (* of writes and flushes; then success *)
  sc_written : list Z;
}.

Definition script_write (bytes : list Z) : io ScriptedIo IoErrorKind unit := fun s =>
  match sc_writes s with
  | Some e :: writes => (Err e, mk_script (sc_reads s) writes (sc_written s))
  | None :: writes => (Ok tt, mk_script (sc_reads s) writes (sc_written s ++ bytes))
  | [] => (Ok tt, mk_script (sc_reads s) [] (sc_written s ++ bytes))
  end.

#[export] Instance scripted_io : StdIo ScriptedIo := {|
  std_read n s :=
    match sc_reads s with
    | inl bytes :: reads => (Ok (take (Z.to_nat n) bytes), mk_script reads (sc_writes s) (sc_written s))
    | inr e :: reads => (Err e, mk_script reads (sc_writes s) (sc_written s))
    | [] => (Ok [], s)
    end;
  std_write_all := script_write;
  std_flush := script_write [];
|}.

(** ** The verdict of a prefix of the input *)
Definition readiness_update (s : RNodeHilReadiness * option RNodeHilReadinessError) (frame : KissFrameRef) : RNodeHilReadiness * option RNodeHilReadinessError :=
  match parse_command_frame frame with
  | Ok event =>
      match apply_readiness_event event s.1 with
      | (Err error, readiness) => (readiness, Some error)
      | (_, readiness) => (readiness, s.2)
      end
  | Err error => (s.1, Some (ReadinessRNode error))
  | Panic => s
  end.

(** What the frames of [bytes] say; [None] if nothing yet. *)
Definition verdict (bytes : list Z) : option (outcome RNodeHilReadinessError RNodeHilReadiness) :=
  let '(frames, (pushed, _)) := abs_run 256 (abs (KissDecoder_new 256)) bytes in
  let '(readiness, event_error) := fold_left readiness_update frames (add_bytes_read (len bytes) RNodeHilReadiness_new, None) in
  match pushed, event_error with
  | Err e, _ => Some (Err (ReadinessKiss e))
  | _, Some error => Some (Err error)
  | _, None => if hr_ready readiness then Some (Ok readiness) else None
  end.

(** The first verdict, over the reads that are made, with [seen] read before. *)
Fixpoint first_verdict (left_ : nat) (seen : list Z) (reads : list (list Z + IoErrorKind)) : outcome RNodeHilReadinessError RNodeHilReadiness :=
  match left_, reads with
  | S left_, inl [] :: reads | S left_, inr TimedOut :: reads | S left_, inr WouldBlock :: reads => first_verdict left_ seen reads
  | S _, inr error :: _ => Err (ReadinessIo error)
  | S left_, inl bytes :: reads =>
      match verdict (seen ++ bytes) with
      | Some o => o
      | None => first_verdict left_ (seen ++ bytes) reads
      end
  | _, _ => Err NoReady
  end.

(** ** Lemmas *)
Lemma expect_len_then {A} command p n (k : outcome RNodeError A) : (len p = n -> k <> Panic) -> (_ ← expect_len command p n; k) <> Panic.
Proof. unfold expect_len. destruct (Z.eqb_spec (len p) n); intros H; [by apply H|done]. Qed.

(** The report parser does not panic, whatever the frame holds. *)
Lemma parse_command_frame_safe f : parse_command_frame f <> Panic.
Proof.
  destruct f as [command p]. unfold parse_command_frame. cbn [kf_command kf_payload].
  assert (forall A command (k : Z -> outcome RNodeError A), (forall b, k b <> Panic) -> (_ ← expect_len command p 1; b ← index p 0; k b) <> Panic) as H1.
  { intros A cmd k Hk. apply expect_len_then. intros Hl. destruct p as [|b p]; [done|]. rewrite index_0. apply Hk. }
  assert (forall command, parse_u32 command p <> Panic) as H4.
  { intros cmd. unfold parse_u32. apply expect_len_then. intros Hl. by destruct p as [|a [|b [|c [|d p]]]]. }
  repeat (case_match; [try done|]); try done.
  all: unfold parse_ready, parse_error, parse_firmware_version, parse_u32_stat, parse_rssi, parse_snr, parse_u32_config, parse_u8_config, parse_radio_state.
  all: try (apply outcome_bind_safe; [apply H4|done]).
  all: try (apply H1; intros; repeat case_match; done).
  - by case_match.
  - apply expect_len_then. intros Hl. by destruct p as [|a [|b p]].
Qed.

Lemma apply_event_safe event r : fst (apply_readiness_event event r) <> Panic.
Proof. destruct event as [ | |e|v|[]| |]; try done. unfold apply_readiness_event. by destruct (negb _). Qed.

Lemma callback_update f s : readiness_callback f s = (Ok tt, readiness_update s f).
Proof.
  destruct s as [r e]. unfold readiness_callback, readiness_update. cbn [fst snd]. pose proof (parse_command_frame_safe f) as Hp.
  destruct (parse_command_frame f) as [event|error|]; [|done..]. pose proof (apply_event_safe event r) as Ha.
  destruct (apply_readiness_event event r) as [[[]|error|] r']; [done|done|done].
Qed.

(** The counter of bytes does not matter to the events. *)
Lemma update_add n r e f : readiness_update (add_bytes_read n r, e) f = (add_bytes_read n (readiness_update (r, e) f).1, (readiness_update (r, e) f).2).
Proof.
  unfold readiness_update. cbn [fst snd]. destruct (parse_command_frame f) as [event|error|]; [|done..].
  destruct event as [ | |error|v|[]| |]; try done. unfold apply_readiness_event. by destruct (negb (fw_supported v)).
Qed.
Lemma fold_add n fs r e :
  fold_left readiness_update fs (add_bytes_read n r, e) =
    (add_bytes_read n (fold_left readiness_update fs (r, e)).1, (fold_left readiness_update fs (r, e)).2).
Proof.
  revert r e. induction fs as [|f fs IH]; intros r e; [done|]. cbn [fold_left]. rewrite update_add.
  destruct (readiness_update (r, e) f) as [r' e']. apply IH.
Qed.

Lemma abs_run_app N a bs fs a1 bs' : feeds N a bs fs a1 ->
  abs_run N a (bs ++ bs') = (fs ++ (abs_run N a1 bs').1, (abs_run N a1 bs').2).
Proof.
  unfold feeds. revert a fs. induction bs as [|b bs IH]; intros a fs H; cbn [app abs_run] in *.
  - injection H as <- <-. by destruct (abs_run N a bs').
  - destruct (abs_step N a b) as [f [o a']]. destruct o as [[]|e|]; [|done|done].
    destruct (abs_run N a' bs) as [fs1 r] eqn:Hr. injection H as <- ->. rewrite (IH _ _ Hr). by rewrite app_assoc.
Qed.

(** A prefix of what is accepted is accepted, and delivers a prefix of the frames. *)
Lemma feeds_prefix N a bs bs' fs a' : feeds N a (bs ++ bs') fs a' ->
  exists fs1 a1 fs2, feeds N a bs fs1 a1 /\ feeds N a1 bs' fs2 a' /\ fs = fs1 ++ fs2.
Proof.
  unfold feeds. revert a fs. induction bs as [|b bs IH]; intros a fs H; cbn [app abs_run] in *.
  - exists [], a, fs. by split_and!.
  - destruct (abs_step N a b) as [f [o a1]]. destruct o as [[]|e|]; [|done|done].
    destruct (abs_run N a1 (bs ++ bs')) as [fs1 r] eqn:Hr. injection H as <- ->. destruct (IH _ _ Hr) as (g1 & b1 & g2 & H1 & H2 & ->).
    rewrite H1. exists ((match f with Some f => [f] | None => [] end) ++ g1), b1, g2. split_and!; [done|done|by rewrite app_assoc].
Qed.

(** ** Reading *)
Notation fresh := (abs (KissDecoder_new 256)).

(** After the bytes [seen], which have no verdict. *)
Record read_so_far (seen : list Z) (d : KissDecoder) (r : RNodeHilReadiness) : Prop := {
  rs_decoder : decoder_ok 256 d;
  rs_run : exists fs, feeds 256 fresh seen fs (abs d) /\ fold_left readiness_update fs (add_bytes_read (len seen) RNodeHilReadiness_new, None) = (r, None);
}.

Lemma verdict_step seen d r bytes :
  read_so_far seen d r -> bytes_ok bytes ->
  exists d' r' e o, push_bytes 256 readiness_callback bytes (d, (add_bytes_read (len bytes) r, None)) = (o, (d', (r', e))) /\ o <> Panic /\
    verdict (seen ++ bytes) = match o, e with
                              | Err e, _ => Some (Err (ReadinessKiss e))
                              | _, Some error => Some (Err error)
                              | _, None => if hr_ready r' then Some (Ok r') else None
                              end /\
    (o = Ok tt -> e = None -> read_so_far (seen ++ bytes) d' r').
Proof.
  intros [Hd (fs & Hrun & Hfold)] Hb.
  destruct (push_bytes_fold 256 readiness_callback readiness_update bytes d (add_bytes_read (len bytes) r, None) callback_update Hd Hb) as (d' & Hd' & Hp & Ha).
  pose proof (abs_run_app _ _ _ _ _ bytes Hrun) as Happ. destruct (abs_run 256 (abs d) bytes) as [fs' [o a']] eqn:Hchunk. cbn [fst snd] in *.
  destruct (fold_left readiness_update fs' (add_bytes_read (len bytes) r, None)) as [r' e] eqn:Hf. exists d', r', e, o.
  assert (fold_left readiness_update (fs ++ fs') (add_bytes_read (len (seen ++ bytes)) RNodeHilReadiness_new, None) = (r', e)) as Hall.
  { rewrite fold_left_app. rewrite fold_add in Hfold |- *. destruct (fold_left readiness_update fs (RNodeHilReadiness_new, None)) as [r0 e0]. cbn [fst snd] in *.
    injection Hfold as Hr ->. rewrite len_app. rewrite <- Hf, <- Hr. do 2 f_equal. unfold add_bytes_read. cbn. f_equal. lia. }
  split; [done|]. split; [|split].
  - assert (forall N bs a, (abs_run N a bs).2.1 <> Panic) as Hsafe.
    { clear. intros N bs. induction bs as [|b bs IH]; intros a; [done|]. cbn [abs_run]. assert ((abs_step N a b).2.1 <> Panic) as Hs.
      { unfold abs_step, abs_push. repeat (case_match; simpl); done. }
      destruct (abs_step N a b) as [f [[[]|e|] a1]]; [|done|done]. specialize (IH a1). by destruct (abs_run N a1 bs). }
    specialize (Hsafe 256 bytes (abs d)). by rewrite Hchunk in Hsafe.
  - unfold verdict. rewrite Happ. cbn [fst snd]. rewrite Hall. done.
  - intros -> ->. split; [done|]. exists (fs ++ fs'). split; [|done]. unfold feeds. by rewrite Happ, Ha.
Qed.

Definition read_ok (r : list Z + IoErrorKind) : Prop :=
  match r with inl bytes => bytes_ok bytes /\ len bytes <= RNODE_HIL_READINESS_READ_BUF_LEN | inr _ => True end.

(** What is left of the input after at most [n] reads. *)
Definition reads_left (n : nat) (reads reads' : list (list Z + IoErrorKind)) : Prop := suffix reads' reads /\ (length reads <= n + length reads')%nat.
Lemma reads_left_refl n reads : reads_left n reads reads.
Proof. split; [done|lia]. Qed.
Lemma reads_left_cons n read reads reads' : reads_left n reads reads' -> reads_left (S n) (read :: reads) reads'.
Proof. intros [H1 H2]. split; [by apply suffix_cons_r|cbn; lia]. Qed.

Lemma read_loop_spec left_ reads ws written : forall seen d r buf,
  Forall read_ok reads -> array_ok RNODE_HIL_READINESS_READ_BUF_LEN buf -> read_so_far seen d r ->
  exists reads', read_loop left_ d r buf (mk_script reads ws written) = (first_verdict left_ seen reads, mk_script reads' ws written) /\
    first_verdict left_ seen reads <> Panic /\ reads_left left_ reads reads'.
Proof.
  revert reads. induction left_ as [|left_ IH]; intros reads seen d r buf Hreads Hbuf Hr; [by exists reads|].
  pose proof Hbuf as [Hl Hbb]. cbn [read_loop first_verdict std_read scripted_io sc_reads sc_writes sc_written].
  destruct reads as [|read reads].
  { exists []. cbn [first_verdict]. destruct (IH [] seen d r buf Hreads Hbuf Hr) as (reads' & -> & _ & Hs & _). apply suffix_nil_inv in Hs as ->. split; [by destruct left_|]. split; [done|apply reads_left_refl]. }
  apply list.Forall_cons in Hreads as [Hread Hreads].
  assert (forall (o : outcome RNodeHilReadinessError RNodeHilReadiness * ScriptedIo) v, (exists reads', o = (v, mk_script reads' ws written) /\ v <> Panic /\ reads_left left_ reads reads') ->
    exists reads', o = (v, mk_script reads' ws written) /\ v <> Panic /\ reads_left (S left_) (read :: reads) reads') as Hmore.
  { intros o v (reads' & H1 & H2 & H3). exists reads'. split_and!; [done|done|by apply reads_left_cons]. }
  destruct read as [bytes|e].
  2: { destruct e; [by apply Hmore, IH..|]. exists reads. split_and!; [done|done|by apply reads_left_cons, reads_left_refl]. }
  destruct Hread as [Hb Hlen]. rewrite Hl, take_ge by (unfold RNODE_HIL_READINESS_READ_BUF_LEN, len in *; lia).
  destruct bytes as [|b0 bytes0]; [by apply Hmore, IH|]. set (bytes := b0 :: bytes0) in *.
  destruct (cut buf (len bytes)) as (u & v & Huv & Hu & _); [pose proof (len_nonneg bytes); lia|].
  assert (write_at (E:=RNodeHilReadinessError) buf 0 bytes = Ok (bytes ++ v)) as -> by (rewrite Huv; apply (write_at_app [] bytes u v); [done|by rewrite Hu]).
  rewrite lift_bind_ok. cbv zeta. rewrite slice_app_first by done. rewrite lift_bind_ok.
  destruct (verdict_step seen d r bytes Hr Hb) as (d' & r' & e & o & -> & Ho & Hv & Hnext). rewrite Hv.
  assert (reads_left (S left_) (inl bytes :: reads) reads) as Hsuf by (by apply reads_left_cons, reads_left_refl).
  destruct o as [[]|ke|]; [|by exists reads|done]. cbn [map_err]. rewrite lift_bind_ok.
  destruct e as [error|]; [by exists reads|]. destruct (hr_ready r'); [by exists reads|]. apply Hmore, IH; [done| |by apply Hnext].
  rewrite Huv in Hl, Hbb. apply bytes_ok_app in Hbb as [_ Hbb]. split; [rewrite len_app in *; lia|]. by apply bytes_ok_app.
Qed.

Lemma read_nothing : read_so_far [] (KissDecoder_new 256) RNodeHilReadiness_new.
Proof. split; [by apply decoder_new_ok|]. exists []. by split. Qed.

Lemma write_probe_run c command bytes s :
  encode_command c command = (Ok (len bytes), bytes ++ drop (length bytes) command) ->
  write_probe_command c command s =
    match script_write bytes s with
    | (Ok _, s') => (Ok (bytes ++ drop (length bytes) command), s')
    | (Err e, s') => (Err (ReadinessIo e), s')
    | (Panic, s') => (Panic, s')
    end.
Proof.
  intros H. unfold write_probe_command. rewrite H. cbn [map_err]. rewrite lift_bind_ok, slice_app_first by done. rewrite lift_bind_ok.
  unfold mbind, io_bind, io_map_err. cbn [std_write_all scripted_io]. by destruct (script_write bytes s) as [[[]|e|] s'].
Qed.

Lemma script_write_cases bytes reads ws written :
  (exists ws', script_write bytes (mk_script reads ws written) = (Ok tt, mk_script reads ws' (written ++ bytes)) /\ (Forall (fun w => w = None) ws -> Forall (fun w => w = None) ws')) \/
  (exists e ws', script_write bytes (mk_script reads ws written) = (Err e, mk_script reads ws' written) /\ ~ Forall (fun w => w = None) ws).
Proof.
  unfold script_write. cbn [sc_writes sc_reads sc_written]. destruct ws as [|[e|] ws]; [left; by exists []|right|left].
  - exists e, ws. split; [done|]. rewrite list.Forall_cons. by intros [? _].
  - exists ws. split; [done|]. rewrite list.Forall_cons. by intros [_ ?].
Qed.

Definition detect_bytes : list Z := kiss_encoding RNODE_CMD_DETECT [RNODE_DETECT_REQUEST].
Definition ask_bytes : list Z := kiss_encoding RNODE_CMD_RADIO_STATE [RNODE_RADIO_STATE_ASK].

Lemma probe_run s :
  Forall read_ok (sc_reads s) ->
  let '(o, s') := probe_rnode_readiness_io s in
  o <> Panic /\ suffix (sc_reads s') (sc_reads s) /\ (length (sc_reads s) <= 32 + length (sc_reads s'))%nat /\
  (exists requests, requests ∈ [[]; detect_bytes; detect_bytes ++ ask_bytes] /\ sc_written s' = sc_written s ++ requests) /\
  (Forall (fun w => w = None) (sc_writes s) ->
    o = first_verdict 32 [] (sc_reads s) /\ sc_written s' = sc_written s ++ detect_bytes ++ ask_bytes).
Proof.
  intros Hreads. unfold probe_rnode_readiness_io. cbv zeta. destruct s as [reads ws written]. cbn [sc_reads sc_written sc_writes] in *.
  unfold mbind, io_bind. rewrite (write_probe_run Detect (zeros 8) detect_bytes _ eq_refl).
  destruct (script_write_cases detect_bytes reads ws written) as [(ws1 & -> & H1)|(e & ws1 & -> & H1)].
  2: { split_and!; [done|done|cbn; lia| |by intros ?%H1]. exists []. rewrite app_nil_r. split; [apply list_elem_of_here|done]. }
  rewrite (write_probe_run (RadioState Ask) (detect_bytes ++ drop (length detect_bytes) (zeros 8)) ask_bytes _ eq_refl).
  destruct (script_write_cases ask_bytes reads ws1 (written ++ detect_bytes)) as [(ws2 & -> & H2)|(e & ws2 & -> & H2)].
  2: { split_and!; [done|done|cbn; lia| |by intros ?%H1%H2]. exists detect_bytes. split; [apply list_elem_of_further, list_elem_of_here|done]. }
  assert (detect_bytes ++ ask_bytes ∈ [[]; detect_bytes; detect_bytes ++ ask_bytes]) as Hin by (apply list_elem_of_further, list_elem_of_further, list_elem_of_here).
  unfold io_map_err. cbn [std_flush scripted_io].
  destruct (script_write_cases [] reads ws2 ((written ++ detect_bytes) ++ ask_bytes)) as [(ws3 & -> & H3)|(e & ws3 & -> & H3)].
  2: { split_and!; [done|done|cbn; lia| |by intros ?%H1%H2%H3]. exists (detect_bytes ++ ask_bytes). split; [done|]. by rewrite <- app_assoc. }
  cbn [map_err]. unfold read_rnode_readiness. rewrite app_nil_r.
  destruct (read_loop_spec 32 reads ws3 ((written ++ detect_bytes) ++ ask_bytes) [] (KissDecoder_new 256) RNodeHilReadiness_new (zeros RNODE_HIL_READINESS_READ_BUF_LEN))
    as (reads' & Hrun & Hsafe & Hsuf & Hlen); [done|split; [done|apply bytes_ok_zeros]|apply read_nothing|].
  change (Z.to_nat RNODE_HIL_READINESS_MAX_READS) with 32%nat. rewrite Hrun. split_and!; [done|done|done| |].
  - exists (detect_bytes ++ ask_bytes). split; [done|]. by rewrite <- app_assoc.
  - intros _. split; [done|]. by rewrite <- app_assoc.
Qed.

(** *** A modem that answers *)
(** A report that neither ends the probe nor fails it. *)
Definition quiet (f : KissFrameRef) : Prop :=
  match parse_command_frame f with
  | Ok ReadyEvent | Ok (ErrorEvent _) => False
  | Ok (FirmwareVersion v) => fw_supported v = true
  | Ok _ => True
  | _ => False
  end.
Definition reported_version (f : KissFrameRef) : option RNodeFirmwareVersion :=
  match parse_command_frame f with Ok (FirmwareVersion v) => Some v | _ => None end.
Definition reported_state (f : KissFrameRef) : option RNodeRadioState :=
  match parse_command_frame f with Ok (ConfigReport (RepRadioState s)) => Some s | _ => None end.

(** The last of several reports. *)
Definition latest {A} (old : option A) (reports : list (option A)) : option A := fold_left (fun old new => match new with Some x => Some x | None => old end) reports old.

Lemma update_quiet f r : quiet f ->
  readiness_update (r, None) f =
    (mk_readiness (hr_ready r) (latest (hr_firmware_version r) [reported_version f]) (latest (hr_radio_state r) [reported_state f]) (hr_bytes_read r), None).
Proof.
  unfold quiet, readiness_update, reported_version, reported_state, latest. cbn [fst snd fold_left]. intros Hf.
  destruct (parse_command_frame f) as [[p| |e|v|[]|st|c p]|e|]; try done; try by destruct r.
  unfold apply_readiness_event. by rewrite Hf.
Qed.
Lemma fold_quiet fs r : Forall quiet fs ->
  fold_left readiness_update fs (r, None) =
    (mk_readiness (hr_ready r) (latest (hr_firmware_version r) (map reported_version fs)) (latest (hr_radio_state r) (map reported_state fs)) (hr_bytes_read r), None).
Proof.
  intros Hfs. revert r. induction Hfs as [|f fs Hf _ IH]; intros r; [by destruct r|]. cbn [fold_left map].
  rewrite update_quiet, IH by done. done.
Qed.

(** No verdict before the end of a stream of quiet reports. *)
Lemma quiet_prefix fs a u w : Forall quiet fs -> feeds 256 fresh (u ++ w) fs a -> verdict u = None.
Proof.
  intros Hq H. destruct (feeds_prefix _ _ _ _ _ _ H) as (fs1 & a1 & fs2 & H1 & _ & ->). apply Forall_app in Hq as [Hq _]. unfold feeds in H1.
  unfold verdict. rewrite H1. rewrite fold_quiet by done. done.
Qed.

(** The reads cut [bytes], and time out in between. *)
Definition cuts (reads : list (list Z + IoErrorKind)) (bytes : list Z) : Prop :=
  concat (omap (fun r => match r with inl b => Some b | inr _ => None end) reads) = bytes /\
  Forall (fun r => match r with inl b => len b <= RNODE_HIL_READINESS_READ_BUF_LEN | inr e => e = TimedOut \/ e = WouldBlock end) reads.

Lemma first_verdict_cuts left_ reads : forall seen w b o,
  cuts reads w -> (length reads <= left_)%nat -> (forall u v, u ++ v = w -> v <> [] -> verdict (seen ++ u) = None) -> verdict (seen ++ w) = Some o -> w = b ++ [KISS_FEND] ->
  first_verdict left_ seen reads = o.
Proof.
  revert reads. induction left_ as [|left_ IH]; intros reads seen w b o [Hw Hr] Hl Hno Hv Hb.
  - destruct reads as [|? ?]; [|cbn in Hl; lia]. cbn in Hw. rewrite <- Hw in Hb. by destruct b.
  - destruct reads as [|read reads]; [cbn in Hw; rewrite <- Hw in Hb; by destruct b|]. cbn in Hl. apply list.Forall_cons in Hr as [Hread Hr].
    assert (length reads <= left_)%nat as Hl' by lia. cbn [omap list_omap] in Hw. destruct read as [[|b0 bytes0]|e].
    + cbn [concat app] in Hw. by apply (IH _ _ w b).
    + set (bytes := b0 :: bytes0) in *. cbn [concat] in Hw. cbn [first_verdict].
      set (w' := concat _) in Hw. destruct w' as [|c w''] eqn:Hrest.
      * rewrite app_nil_r in Hw. change (match verdict (seen ++ bytes) with Some o => o | None => first_verdict left_ (seen ++ bytes) reads end = o). by rewrite Hw, Hv.
      * change (match verdict (seen ++ bytes) with Some o => o | None => first_verdict left_ (seen ++ bytes) reads end = o).
        rewrite (Hno bytes (c :: w'') Hw) by done. destruct (exists_last (l:=c :: w'')) as (b' & z & Hz); [done|].
        apply (IH reads (seen ++ bytes) (c :: w'') b' o); [by split|done| | |].
        -- intros u v Huv Hne. rewrite <- app_assoc. apply (Hno (bytes ++ u) v); [|done]. by rewrite <- app_assoc, Huv.
        -- by rewrite <- app_assoc, Hw.
        -- rewrite Hz. rewrite Hz, Hb, app_assoc in Hw. apply app_inj_tail in Hw as [_ ->]. done.
    + destruct Hread as [->| ->]; by apply (IH _ _ w b).
Qed.

Lemma feeds_stream_from N a fs : pending_frame a = None -> Forall (frame_fits N) fs ->
  exists a', pending_frame a' = None /\ feeds N a (stream fs) fs a'.
Proof.
  intros Ha Hfs. destruct Hfs as [|f fs Hf Hfs]; [by exists a|]. exists idle. split; [done|].
  change (f :: fs) with ([f] ++ fs). eapply feeds_app; [|by apply feeds_stream].
  pose proof (feeds_frame N a f Hf) as H. by rewrite Ha in H.
Qed.
(** All of a frame but its end. *)
Lemma feeds_body N a f : pending_frame a = None -> frame_fits N f -> 
  feeds N a ([KISS_FEND; kf_command f] ++ escape (kf_payload f)) [] (mk_fs (kf_command f :: kf_payload f) true false).
Proof.
  intros Ha (_ & H1 & H2 & _ & Hlen). pose proof (len_nonneg (kf_payload f)). change (@nil KissFrameRef) with ([] ++ [] ++ @nil KissFrameRef).
  change ([KISS_FEND; kf_command f] ++ ?r) with ([KISS_FEND] ++ [kf_command f] ++ r).
  eapply feeds_app; [pose proof (feeds_fend N a) as H0; rewrite Ha in H0; exact H0|].
  eapply feeds_app; [apply feeds_plain; [done|done|rewrite len_nil; lia]|]. apply feeds_escape. unfold len in *. simpl. lia.
Qed.

(** Quiet reports and then a [CMD_READY]: the verdict is at the last byte. *)
Lemma ready_verdict fs f reads :
  Forall (frame_fits 256) (fs ++ [f]) -> Forall quiet fs -> parse_command_frame f = Ok ReadyEvent ->
  cuts reads (stream (fs ++ [f])) -> (length reads <= 32)%nat ->
  first_verdict 32 [] reads = Ok (mk_readiness true (latest None (map reported_version fs)) (latest None (map reported_state fs)) (len (stream (fs ++ [f])))).
Proof.
  intros Hfit Hq Hf Hcut Hl. destruct (feeds_stream_from 256 fresh (fs ++ [f]) eq_refl Hfit) as (a & _ & Hrun).
  pose proof Hfit as [Hfs Hff]%Forall_app. apply list.Forall_cons in Hff as [Hff _].
  destruct (feeds_stream_from 256 fresh fs eq_refl Hfs) as (a1 & Ha1 & Hrun1). pose proof (feeds_body 256 a1 f Ha1 Hff) as Hbody.
  pose proof (feeds_app _ _ _ _ _ _ _ _ Hrun1 Hbody) as Hall. rewrite app_nil_r in Hall.
  assert (stream (fs ++ [f]) = (stream fs ++ [KISS_FEND; kf_command f] ++ escape (kf_payload f)) ++ [KISS_FEND]) as Hst.
  { unfold stream. rewrite bind_app. cbn [mbind list_bind]. rewrite app_nil_r. unfold kiss_encoding. by rewrite <- !app_assoc. }
  eapply first_verdict_cuts; [exact Hcut|done| | |exact Hst].
  - intros u v Huv Hv. destruct (exists_last Hv) as (v' & z & ->). rewrite Hst, app_assoc in Huv. apply app_inj_tail in Huv as [Huv _].
    rewrite <- Huv in Hall. exact (quiet_prefix _ _ u v' Hq Hall).
  - cbn [app]. unfold verdict. unfold feeds in Hrun. rewrite Hrun, fold_left_app, fold_quiet by done. cbn [fold_left]. unfold readiness_update. rewrite Hf. done.
Qed.

(** ** Claims *)
(** C35. The probe on every transport.  It ends after at most 32 reads and does not
    panic; all it ever writes are the requests to detect the modem and to report
    its radio state, in this order, never a frame to transmit.  If they could be
    written, its answer is the first verdict there is of the bytes read so far,
    whatever time-outs come between the reads; and a modem that sends reports the
    probe has nothing against and then says it is ready is found ready, with the
    last firmware version and radio state reported and the bytes counted, wherever
    its answer is cut into at most 32 reads. *)
Theorem hil_probe_exact s :
  Forall read_ok (sc_reads s) ->
  let '(o, s') := probe_rnode_readiness_io s in
  o <> Panic /\ suffix (sc_reads s') (sc_reads s) /\ (length (sc_reads s) <= 32 + length (sc_reads s'))%nat /\
  (exists requests, requests ∈ [[]; detect_bytes; detect_bytes ++ ask_bytes] /\ sc_written s' = sc_written s ++ requests) /\
  (Forall (fun w => w = None) (sc_writes s) ->
    o = first_verdict 32 [] (sc_reads s) /\ sc_written s' = sc_written s ++ detect_bytes ++ ask_bytes /\
    forall fs f, Forall (frame_fits 256) (fs ++ [f]) -> Forall quiet fs -> parse_command_frame f = Ok ReadyEvent ->
      cuts (sc_reads s) (stream (fs ++ [f])) -> (length (sc_reads s) <= 32)%nat ->
      o = Ok (mk_readiness true (latest None (map reported_version fs)) (latest None (map reported_state fs)) (len (stream (fs ++ [f]))))).
Proof.
  intros Hreads. pose proof (probe_run s Hreads) as H. destruct (probe_rnode_readiness_io s) as [o s'].
  destruct H as (H1 & H2 & H2' & H3 & H4). split_and!; [done..|]. intros Hw. destruct (H4 Hw) as [-> Hwr]. split_and!; [done|done|].
  intros. by apply ready_verdict.
Qed.

(** Firmware 1.192 and a radio that is on, in one read and a half, after a time-out. *)
Definition probe_reports : list KissFrameRef := [mk_kiss_frame RNODE_CMD_FW_VERSION [1; 192]; mk_kiss_frame RNODE_CMD_RADIO_STATE [1]].
Definition probe_ready : KissFrameRef := mk_kiss_frame RNODE_CMD_READY [1].
Definition probe_script : ScriptedIo :=
  mk_script [inr TimedOut; inl [192; 80; 1; 219]; inr WouldBlock; inl [220; 192; 192; 6; 1; 192; 192; 15]; inl [1]; inl [192]] [None; None] [].

Lemma hil_probe_exact_witness :
  fst (probe_rnode_readiness_io probe_script) = Ok (mk_readiness true (Some (mk_fw 1 192 true)) (Some On) 14) /\
  sc_written (snd (probe_rnode_readiness_io probe_script)) = [192; 8; 115; 192; 192; 6; 255; 192].
Proof.
  pose proof (hil_probe_exact probe_script ltac:(repeat constructor; done)) as H.
  destruct (probe_rnode_readiness_io probe_script) as [o s']. destruct H as (_ & _ & _ & _ & H). cbn [fst snd].
  destruct H as (_ & Hw & H); [by repeat constructor|]. split; [|exact Hw].
  assert (Forall (frame_fits 256) (probe_reports ++ [probe_ready])) as Hfit.
  { repeat constructor; try done; apply (bool_decide_unpack _); vm_compute; exact I. }
  apply (H probe_reports probe_ready Hfit); [by repeat constructor|done| |cbn; lia].
  split; [reflexivity|]. repeat (constructor; [first [by left|by right|vm_compute; done]|]). constructor.
Defined.
