(* ===== verification/HilManifest.v ===== *)
(** [hyf_link_rnode::hil]: the report of the hardware test
    (src/crates/hyf_link_rnode/src/hil.rs): its validation, the path it is kept
    under, and its JSON.

    [std::io::Write] is the class [CanonicalSink] of [NostrJson], a sink for which
    writing two texts is writing one after the other.  The claims are that the
    time stamps accepted are exactly the ones of the calendar, that reports of
    different times are kept under different paths, and that what is written is
    a JSON document which the parser of [NostrParser] reads back as the report. *)
From S2P Require Import Prelude Utf8 Text Cursor NostrHex NostrJson NostrParser HilProbe.
From stdpp Require Import strings.

Open Scope Z_scope.

Definition RNODE_HIL_MANIFEST_SCHEMA : list Z := str "hyf.rnode.hil.v1".
Definition RNODE_HIL_READY_CHECK_ID : list Z := str "hil.rnode.ready".
Definition RNODE_HIL_DEFAULT_BAUD : Z := 115200.
Definition RNODE_HIL_ARTIFACT_ROOT : list Z := str "target/hyf_hil/rnode".
Definition RNODE_HIL_MANIFEST_FILE_NAME : list Z := str "manifest.json".

Inductive RNodeHilCheckStatus := Passed | Failed | Skipped.
Definition check_status_str (s : RNodeHilCheckStatus) : list Z :=
  match s with Passed => str "passed" | Failed => str "failed" | Skipped => str "skipped" end.

Record RNodeHilCheck := mk_check { ck_id : list Z; ck_status : RNodeHilCheckStatus; ck_detail : option (list Z) }.
Definition RNodeHilCheck_new (id : list Z) (status : RNodeHilCheckStatus) : RNodeHilCheck := mk_check id status None.
Definition check_ready (status : RNodeHilCheckStatus) : RNodeHilCheck := RNodeHilCheck_new RNODE_HIL_READY_CHECK_ID status.
Definition check_with_detail (c : RNodeHilCheck) (detail : list Z) : RNodeHilCheck := mk_check (ck_id c) (ck_status c) (Some detail).

Record RNodeHilManifest := mk_manifest {
  mf_run_id : list Z;
  mf_generated_at : list Z;
  mf_port : list Z;
  mf_baud : Z;
  mf_hardware_model : option (list Z);
  mf_firmware_version : option (list Z);
  mf_allow_rf_tx : bool;
  mf_transmission_performed : bool;
  mf_checks : list RNodeHilCheck;
}.
Definition RNodeHilManifest_new (run_id generated_at port : list Z) : RNodeHilManifest :=
  mk_manifest run_id generated_at port RNODE_HIL_DEFAULT_BAUD None None false false [].

Inductive RNodeHilManifestError :=
| EmptyRunId
| EmptyGeneratedAt
| InvalidGeneratedAt
| EmptyPort
| InvalidBaud
| EmptyChecks
| EmptyCheckId
| RfTransmissionAllowed
| RfTransmissionRecorded
| ManifestIo (kind : IoErrorKind).

(** ** Time stamps *)
(** The [u32] does not overflow on the two or four digits it is used for. *)
Fixpoint parse_digits_loop (value : Z) (bytes : list Z) : option Z :=
  match bytes with
  | [] => Some value
  | byte :: bytes => if is_digitb byte then parse_digits_loop (value * 10 + (byte - 48)) bytes else None
  end.
Definition parse_digits (bytes : list Z) : option Z := parse_digits_loop 0 bytes.

Definition is_leap_year (year : Z) : bool := (year mod 4 =? 0) && (negb (year mod 100 =? 0) || (year mod 400 =? 0)).

Definition max_day (year month : Z) : option Z :=
  if existsb (Z.eqb month) [1; 3; 5; 7; 8; 10; 12] then Some 31
  else if existsb (Z.eqb month) [4; 6; 9; 11] then Some 30
  else if month =? 2 then Some (if is_leap_year year then 29 else 28)
  else None.

(** [&bytes[from..to]] and [bytes[i]], after the length was compared. *)
Definition part (from to : nat) (bytes : list Z) : list Z := take (to - from) (drop from bytes).
Definition byte_at (i : nat) (bytes : list Z) : Z := nth i bytes 0.

Definition valid_rfc3339_date (date : list Z) : bool :=
  if negb (len date =? 10) || negb (byte_at 4 date =? 45) || negb (byte_at 7 date =? 45) then false
  else
    match parse_digits (part 0 4 date) with
    | None => false
    | Some year =>
        match parse_digits (part 5 7 date) with
        | None => false
        | Some month =>
            match parse_digits (part 8 10 date) with
            | None => false
            | Some day =>
                if (year =? 0) || negb (in_range 1 12 month) then false
                else match max_day year month with None => false | Some max_day => in_range 1 max_day day end
            end
        end
    end.

Definition valid_rfc3339_time (time : list Z) : bool :=
  let '(whole_time, fractional) := match split_once 46 time with Some (w, f) => (w, Some f) | None => (time, None) end in
  if negb (len whole_time =? 8) || negb (byte_at 2 whole_time =? 58) || negb (byte_at 5 whole_time =? 58) then false
  else
    match parse_digits (part 0 2 whole_time) with
    | None => false
    | Some hour =>
        match parse_digits (part 3 5 whole_time) with
        | None => false
        | Some minute =>
            match parse_digits (part 6 8 whole_time) with
            | None => false
            | Some second =>
                (hour <=? 23) && (minute <=? 59) && (second <=? 59)
                && match fractional with None => true | Some value => negb (len value =? 0) && forallb is_digitb value end
            end
        end
    end.

Definition is_utc_rfc3339_timestamp (value : list Z) : bool :=
  match split_once 84 value with
  | None => false
  | Some (date, time_with_zone) =>
      match Text.strip_suffix 90 time_with_zone with
      | None => false
      | Some time => valid_rfc3339_date date && valid_rfc3339_time time
      end
  end.

Definition validate_hil_manifest (m : RNodeHilManifest) : outcome RNodeHilManifestError unit :=
  _ ← guard_err (len (mf_run_id m) =? 0) EmptyRunId;
  _ ← guard_err (len (mf_generated_at m) =? 0) EmptyGeneratedAt;
  _ ← guard_err (negb (is_utc_rfc3339_timestamp (mf_generated_at m))) InvalidGeneratedAt;
  _ ← guard_err (len (mf_port m) =? 0) EmptyPort;
  _ ← guard_err (mf_baud m =? 0) InvalidBaud;
  _ ← guard_err (mf_allow_rf_tx m) RfTransmissionAllowed;
  _ ← guard_err (mf_transmission_performed m) RfTransmissionRecorded;
  _ ← guard_err (len (mf_checks m) =? 0) EmptyChecks;
  guard_err (existsb (fun check => len (ck_id check) =? 0) (mf_checks m)) EmptyCheckId.

(** ** Paths *)
Definition segment_char (character : Z) : list Z :=
  if character =? 58 then [] else if character =? 46 then [45] else encode_utf8 character.
Definition artifact_timestamp_segment (generated_at : list Z) : list Z := concat (map segment_char (chars generated_at)).

(** [Path::join] on Unix. *)
Definition path_join (path p : list Z) : list Z :=
  match p with
  | 47 :: _ => p
  | _ => match last path with None | Some 47 => path ++ p | _ => path ++ [47] ++ p end
  end.

Definition hil_manifest_artifact_path (root generated_at : list Z) : outcome RNodeHilManifestError (list Z) :=
  _ ← guard_err (len generated_at =? 0) EmptyGeneratedAt;
  _ ← guard_err (negb (is_utc_rfc3339_timestamp generated_at)) InvalidGeneratedAt;
  Ok (path_join (path_join root (artifact_timestamp_segment generated_at)) RNODE_HIL_MANIFEST_FILE_NAME).
Definition default_hil_manifest_artifact_path (generated_at : list Z) : outcome RNodeHilManifestError (list Z) :=
  hil_manifest_artifact_path RNODE_HIL_ARTIFACT_ROOT generated_at.

(** ** JSON *)
(** A line break and an indentation, and a name between quotes. *)
Definition nl (indent : nat) : list Z := 10 :: replicate indent 32.
Definition quoted (name : string) : list Z := [34] ++ str name ++ [34].
Definition named (name : string) : list Z := quoted name ++ str ": ".

(** [char::is_control] *)
Definition is_control (c : Z) : bool := in_range 0 31 c || in_range 127 159 c.
(** [{:04x}], below 65536 *)
Definition lower_hex4 (n : Z) : list Z :=
  [hex_digit (n / 4096 mod 16); hex_digit (n / 256 mod 16); hex_digit (n / 16 mod 16); hex_digit (n mod 16)].

Section writer.
Context {S : Type} `{CanonicalSink S IoErrorKind}.

Definition write_hil_char (character : Z) : io S IoErrorKind unit :=
  match character with
  | 34 => sink_write [92; 34]
  | 92 => sink_write [92; 92]
  | 10 => sink_write [92; 110]
  | 13 => sink_write [92; 114]
  | 9 => sink_write [92; 116]
  | _ => if is_control character then _ ← sink_write [92; 117]; sink_write (lower_hex4 character) else sink_write (encode_utf8 character)
  end.
Fixpoint write_hil_chars (characters : list Z) : io S IoErrorKind unit :=
  match characters with
  | [] => mret tt
  | character :: characters => _ ← write_hil_char character; write_hil_chars characters
  end.
Definition write_hil_string (value : list Z) : io S IoErrorKind unit :=
  _ ← sink_write [34];
  _ ← write_hil_chars (chars value);
  sink_write [34].

Definition write_optional_json_string (value : option (list Z)) : io S IoErrorKind unit :=
  match value with Some value => write_hil_string value | None => sink_write (str "null") end.

Definition write_hil_check_json (check : RNodeHilCheck) : io S IoErrorKind unit :=
  _ ← sink_write (nl 4 ++ [123] ++ nl 6 ++ named "id");
  _ ← write_hil_string (ck_id check);
  _ ← sink_write ([44] ++ nl 6 ++ named "status");
  _ ← write_hil_string (check_status_str (ck_status check));
  _ ← (match ck_detail check with
       | Some detail => _ ← sink_write ([44] ++ nl 6 ++ named "detail"); write_hil_string detail
       | None => mret tt
       end);
  sink_write (nl 4 ++ [125]).

Fixpoint write_hil_checks (index : Z) (checks : list RNodeHilCheck) : io S IoErrorKind unit :=
  match checks with
  | [] => mret tt
  | check :: checks =>
      _ ← (if index >? 0 then sink_write [44] else mret tt);
      _ ← write_hil_check_json check;
      write_hil_checks (index + 1) checks
  end.

Definition bool_text (b : bool) : list Z := if b then str "true" else str "false".

Definition write_hil_body (m : RNodeHilManifest) : io S IoErrorKind unit :=
  _ ← sink_write ([123] ++ nl 2 ++ named "schema");
  _ ← write_hil_string RNODE_HIL_MANIFEST_SCHEMA;
  _ ← sink_write ([44] ++ nl 2 ++ named "run_id");
  _ ← write_hil_string (mf_run_id m);
  _ ← sink_write ([44] ++ nl 2 ++ named "generated_at");
  _ ← write_hil_string (mf_generated_at m);
  _ ← sink_write ([44] ++ nl 2 ++ named "rnode" ++ [123] ++ nl 4 ++ named "port");
  _ ← write_hil_string (mf_port m);
  _ ← sink_write ([44] ++ nl 4 ++ named "baud");
  _ ← sink_write (decimal (mf_baud m));
  _ ← sink_write ([44] ++ nl 4 ++ named "hardware_model");
  _ ← write_optional_json_string (mf_hardware_model m);
  _ ← sink_write ([44] ++ nl 4 ++ named "firmware_version");
  _ ← write_optional_json_string (mf_firmware_version m);
  _ ← sink_write (nl 2 ++ [125; 44] ++ nl 2 ++ named "rf" ++ [123] ++ nl 4 ++ named "allow_rf_tx");
  _ ← sink_write (bool_text (mf_allow_rf_tx m));
  _ ← sink_write ([44] ++ nl 4 ++ named "transmission_performed");
  _ ← sink_write (bool_text (mf_transmission_performed m));
  _ ← sink_write (nl 2 ++ [125; 44] ++ nl 2 ++ named "checks" ++ [91]);
  _ ← write_hil_checks 0 (mf_checks m);
  sink_write (nl 2 ++ [93; 10; 125; 10]).

Definition write_hil_manifest_json (m : RNodeHilManifest) : io S RNodeHilManifestError unit :=
  _ ← lift (validate_hil_manifest m);
  io_map_err ManifestIo (write_hil_body m).
End writer.

(** ** Lemmas: time stamps *)
(** A time of the calendar, by its digits. *)
Record stamp := mk_stamp { st_year : list Z; st_month : list Z; st_day : list Z; st_hour : list Z; st_minute : list Z; st_second : list Z; st_fraction : option (list Z) }.

Definition days_in_month (year month : Z) : Z :=
  match month with
  | 4 | 6 | 9 | 11 => 30
  | 2 => if decide ((year mod 4 = 0 /\ year mod 100 <> 0) \/ year mod 400 = 0) then 29 else 28
  | _ => 31
  end.

(** [n] digits of a number between [a] and [b]. *)
Definition number_text (n a b : Z) (l : list Z) : Prop := len l = n /\ Forall is_digit l /\ a <= digits_value l <= b.

Record stamp_ok (s : stamp) : Prop := {
  so_year : number_text 4 1 9999 (st_year s);
  so_month : number_text 2 1 12 (st_month s);
  so_day : number_text 2 1 (days_in_month (digits_value (st_year s)) (digits_value (st_month s))) (st_day s);
  so_hour : number_text 2 0 23 (st_hour s);
  so_minute : number_text 2 0 59 (st_minute s);
  so_second : number_text 2 0 59 (st_second s);
  so_fraction : forall f, st_fraction s = Some f -> f <> [] /\ Forall is_digit f;
}.

Definition date_text (s : stamp) : list Z := st_year s ++ [45] ++ st_month s ++ [45] ++ st_day s.
Definition fraction_text (sep : Z) (f : option (list Z)) : list Z := match f with Some f => sep :: f | None => [] end.
Definition time_text (s : stamp) : list Z := (st_hour s ++ [58] ++ st_minute s ++ [58] ++ st_second s) ++ fraction_text 46 (st_fraction s).
Definition stamp_text (s : stamp) : list Z := date_text s ++ [84] ++ time_text s ++ [90].

Lemma parse_digits_loop_some bytes v n : parse_digits_loop v bytes = Some n <-> Forall is_digit bytes /\ fold_left (fun acc b => acc * 10 + (b - 48)) bytes v = n.
Proof.
  revert v. induction bytes as [|b bytes IH]; intros v; cbn [parse_digits_loop fold_left].
  - split; [intros [= ->]; split; [apply List.Forall_nil|done]|by intros [_ ->]].
  - rewrite list.Forall_cons, <- is_digitb_spec. destruct (is_digitb b); [rewrite IH; tauto|]. split; [done|]. by intros [[? _] _].
Qed.
Lemma parse_digits_some bytes n : parse_digits bytes = Some n <-> Forall is_digit bytes /\ digits_value bytes = n.
Proof. apply parse_digits_loop_some. Qed.
Lemma digits_bound l : Forall is_digit l -> 0 <= digits_value l < 10 ^ len l.
Proof.
  induction l as [|b l IH] using rev_ind; [done|]. rewrite Forall_app. intros [Hl Hb]. apply list.Forall_cons in Hb as [Hb _].
  unfold digits_value in *. rewrite fold_left_app. cbn [fold_left]. specialize (IH Hl). rewrite len_app. unfold is_digit in Hb.
  change (len [b]) with 1. rewrite Z.pow_add_r by (pose proof (len_nonneg l); lia). lia.
Qed.

Lemma leap_year_spec year : is_leap_year year = bool_decide ((year mod 4 = 0 /\ year mod 100 <> 0) \/ year mod 400 = 0).
Proof.
  unfold is_leap_year. assert (year mod 400 = 0 -> year mod 4 = 0) as H by (intros ?; Z.to_euclidean_division_equations; lia).
  destruct (Z.eqb_spec (year mod 4) 0), (Z.eqb_spec (year mod 100) 0), (Z.eqb_spec (year mod 400) 0); cbn; case_bool_decide; done || tauto.
Qed.

Lemma max_day_spec year month : 1 <= month <= 12 -> max_day year month = Some (days_in_month year month).
Proof.
  intros H. assert (month = 2 \/ month ∈ [1; 3; 5; 7; 8; 10; 12] \/ month ∈ [4; 6; 9; 11]) as [->|[Hm|Hm]] by (rewrite !elem_of_cons; lia).
  - unfold max_day, days_in_month. rewrite leap_year_spec. cbn. case_bool_decide; by case_decide.
  - repeat (apply elem_of_cons in Hm as [->|Hm]; [reflexivity|]). by apply not_elem_of_nil in Hm.
  - repeat (apply elem_of_cons in Hm as [->|Hm]; [reflexivity|]). by apply not_elem_of_nil in Hm.
Qed.

(** The digits at their places. *)
Lemma date_parts date : len date = 10 -> byte_at 4 date = 45 -> byte_at 7 date = 45 ->
  date = part 0 4 date ++ [45] ++ part 5 7 date ++ [45] ++ part 8 10 date /\ len (part 0 4 date) = 4 /\ len (part 5 7 date) = 2 /\ len (part 8 10 date) = 2.
Proof.
  intros Hl. assert (length date = 10%nat) as Hn by (unfold len in Hl; lia). clear Hl. do 10 (destruct date as [|? date]; [done|]). destruct date; [|done].
  cbn. intros -> ->. done.
Qed.
Lemma time_parts time : len time = 8 -> byte_at 2 time = 58 -> byte_at 5 time = 58 ->
  time = part 0 2 time ++ [58] ++ part 3 5 time ++ [58] ++ part 6 8 time /\ len (part 0 2 time) = 2 /\ len (part 3 5 time) = 2 /\ len (part 6 8 time) = 2.
Proof.
  intros Hl. assert (length time = 8%nat) as Hn by (unfold len in Hl; lia). clear Hl. do 8 (destruct time as [|? time]; [done|]). destruct time; [|done].
  cbn. intros -> ->. done.
Qed.
Lemma two_list (l : list Z) : len l = 2 -> exists a b, l = [a; b].
Proof. intros H. assert (length l = 2%nat) as Hn by (unfold len in H; lia). destruct l as [|a [|b [|]]]; [done..|eauto|done]. Qed.
Lemma four_list (l : list Z) : len l = 4 -> exists a b c d, l = [a; b; c; d].
Proof. intros H. assert (length l = 4%nat) as Hn by (unfold len in H; lia). destruct l as [|a [|b [|c [|d [|]]]]]; [done..|eauto 6|done]. Qed.

Lemma date_exact date : valid_rfc3339_date date = true <->
  exists y m d, date = y ++ [45] ++ m ++ [45] ++ d /\ number_text 4 1 9999 y /\ number_text 2 1 12 m /\
    number_text 2 1 (days_in_month (digits_value y) (digits_value m)) d.
Proof.
  unfold valid_rfc3339_date. split.
  - destruct (Z.eqb_spec (len date) 10) as [Hl|]; [|done]. destruct (Z.eqb_spec (byte_at 4 date) 45) as [H4|]; [|done].
    destruct (Z.eqb_spec (byte_at 7 date) 45) as [H7|]; [|done]. cbn [negb orb]. destruct (date_parts date Hl H4 H7) as (Hd & L1 & L2 & L3).
    destruct (parse_digits (part 0 4 date)) as [year|] eqn:Hy; [|done]. destruct (parse_digits (part 5 7 date)) as [month|] eqn:Hm; [|done].
    destruct (parse_digits (part 8 10 date)) as [day|] eqn:Hday; [|done]. apply parse_digits_some in Hy as [Dy <-], Hm as [Dm <-], Hday as [Dd <-].
    pose proof (digits_bound _ Dy) as By. rewrite L1 in By. change (10 ^ 4) with 10000 in By.
    destruct (Z.eqb_spec (digits_value (part 0 4 date)) 0); [done|]. rewrite !in_range_reflect. case_bool_decide as Hmr; [|done]. cbn [negb orb].
    rewrite max_day_spec by done. rewrite in_range_reflect. case_bool_decide as Hdr; [|done]. intros _.
    eexists _, _, _. split; [exact Hd|]. unfold number_text. split_and!; done || lia.
  - intros (y & m & d & -> & (Ly & Dy & By) & (Lm & Dm & Bm) & (Ld & Dd & Bd)).
    destruct (four_list y Ly) as (? & ? & ? & ? & ->), (two_list m Lm) as (? & ? & ->), (two_list d Ld) as (? & ? & ->).
    cbn [part byte_at nth app take drop Nat.sub]. change (len _ =? 10) with true. cbn [negb orb Z.eqb Pos.eqb].
    rewrite (proj2 (parse_digits_some _ _) (conj Dy eq_refl)), (proj2 (parse_digits_some _ _) (conj Dm eq_refl)), (proj2 (parse_digits_some _ _) (conj Dd eq_refl)).
    rewrite (proj2 (Z.eqb_neq _ _)) by lia. rewrite !in_range_reflect. rewrite bool_decide_eq_true_2 by done. cbn [negb orb].
    rewrite max_day_spec by done. rewrite in_range_reflect. by apply bool_decide_eq_true_2.
Qed.

Lemma not_digit c l : ~ is_digit c -> Forall is_digit l -> c ∉ l.
Proof. intros Hc Hl Hin. rewrite Forall_forall in Hl. by apply Hc, Hl. Qed.
Lemma number_without n a b l c : ~ is_digit c -> number_text n a b l -> c ∉ l.
Proof. intros Hc (_ & Hl & _). by eapply not_digit. Qed.

Definition clock_ok (s : stamp) : Prop :=
  number_text 2 0 23 (st_hour s) /\ number_text 2 0 59 (st_minute s) /\ number_text 2 0 59 (st_second s) /\
  (forall f, st_fraction s = Some f -> f <> [] /\ Forall is_digit f).

Lemma clock_without s c : ~ is_digit c -> c <> 58 -> clock_ok s -> c ∉ st_hour s ++ [58] ++ st_minute s ++ [58] ++ st_second s.
Proof.
  intros Hc H58 (H1 & H2 & H3 & _). rewrite !elem_of_app, !elem_of_cons. intros Hin.
  pose proof (number_without _ _ _ _ c Hc H1). pose proof (number_without _ _ _ _ c Hc H2). pose proof (number_without _ _ _ _ c Hc H3).
  pose proof (not_elem_of_nil c). naive_solver.
Qed.

(** The time without its fraction. *)
Definition whole_ok (time : list Z) (fractional : option (list Z)) : bool :=
  if negb (len time =? 8) || negb (byte_at 2 time =? 58) || negb (byte_at 5 time =? 58) then false
  else
    match parse_digits (part 0 2 time), parse_digits (part 3 5 time), parse_digits (part 6 8 time) with
    | Some hour, Some minute, Some second =>
        (hour <=? 23) && (minute <=? 59) && (second <=? 59)
        && match fractional with None => true | Some value => negb (len value =? 0) && forallb is_digitb value end
    | _, _, _ => false
    end.

Lemma whole_exact time f : whole_ok time f = true <->
  exists h mi s, time = h ++ [58] ++ mi ++ [58] ++ s /\ number_text 2 0 23 h /\ number_text 2 0 59 mi /\ number_text 2 0 59 s /\
    (forall v, f = Some v -> v <> [] /\ Forall is_digit v).
Proof.
  unfold whole_ok. split.
  - destruct (Z.eqb_spec (len time) 8) as [Hl|]; [|done]. destruct (Z.eqb_spec (byte_at 2 time) 58) as [H2|]; [|done].
    destruct (Z.eqb_spec (byte_at 5 time) 58) as [H5|]; [|done]. cbn [negb orb]. destruct (time_parts time Hl H2 H5) as (Ht & L1 & L2 & L3).
    destruct (parse_digits (part 0 2 time)) as [hour|] eqn:Hh; [|done]. destruct (parse_digits (part 3 5 time)) as [minute|] eqn:Hm; [|done].
    destruct (parse_digits (part 6 8 time)) as [second|] eqn:Hs; [|done]. apply parse_digits_some in Hh as [Dh <-], Hm as [Dm <-], Hs as [Ds <-].
    rewrite !andb_true_iff, !Z.leb_le. intros (((Bh & Bm) & Bs) & Hf). pose proof (digits_bound _ Dh). pose proof (digits_bound _ Dm). pose proof (digits_bound _ Ds).
    eexists _, _, _. split; [exact Ht|]. unfold number_text. split_and!; try done; try lia. intros v ->. apply andb_true_iff in Hf as [Hne Hv].
    split; [by destruct v|by apply digits_forallb].
  - intros (h & mi & s & -> & (Lh & Dh & Bh) & (Lm & Dm & Bm) & (Ls & Ds & Bs) & Hf).
    destruct (two_list h Lh) as (? & ? & ->), (two_list mi Lm) as (? & ? & ->), (two_list s Ls) as (? & ? & ->).
    cbn [part byte_at nth app take drop Nat.sub]. change (len _ =? 8) with true. cbn [negb orb Z.eqb Pos.eqb].
    rewrite (proj2 (parse_digits_some _ _) (conj Dh eq_refl)), (proj2 (parse_digits_some _ _) (conj Dm eq_refl)), (proj2 (parse_digits_some _ _) (conj Ds eq_refl)).
    rewrite !andb_true_iff, !Z.leb_le. split_and!; try lia. destruct f as [v|]; [|done]. destruct (Hf v eq_refl) as [Hne Hv]. apply andb_true_iff.
    split; [|by apply digits_forallb]. destruct v as [|y v]; [done|]. rewrite len_cons. pose proof (len_nonneg v). by rewrite (proj2 (Z.eqb_neq _ _)) by lia.
Qed.

Lemma time_whole time : valid_rfc3339_time time = match split_once 46 time with Some (w, f) => whole_ok w (Some f) | None => whole_ok time None end.
Proof.
  unfold valid_rfc3339_time, whole_ok. destruct (split_once 46 time) as [[w f]|].
  - destruct (_ || _); [done|]. destruct (parse_digits (part 0 2 w)); [|done]. destruct (parse_digits (part 3 5 w)); [|done]. by destruct (parse_digits (part 6 8 w)).
  - destruct (_ || _); [done|]. destruct (parse_digits (part 0 2 time)); [|done]. destruct (parse_digits (part 3 5 time)); [|done]. by destruct (parse_digits (part 6 8 time)).
Qed.

Lemma time_exact time : valid_rfc3339_time time = true <-> exists s, time = time_text s /\ clock_ok s.
Proof.
  rewrite time_whole. split.
  - destruct (split_once 46 time) as [[w f]|] eqn:E; intros H.
    + apply split_once_some in E as [-> _]. apply whole_exact in H as (h & mi & s & -> & H1 & H2 & H3 & H4).
      exists (mk_stamp [] [] [] h mi s (Some f)). by split.
    + apply whole_exact in H as (h & mi & s & -> & H1 & H2 & H3 & H4). exists (mk_stamp [] [] [] h mi s None). split; [|done].
      unfold time_text. cbn. by rewrite app_nil_r.
  - intros (s & -> & Hs). pose proof (clock_without s 46 ltac:(unfold is_digit; lia) ltac:(done) Hs) as H46. destruct Hs as (H1 & H2 & H3 & H4).
    unfold time_text. destruct s as [y m d h mi sec [f|]]; cbn [st_hour st_minute st_second st_fraction fraction_text] in *.
    + rewrite (proj2 (split_once_some 46 _ _ f)) by (split; [reflexivity|done]). apply whole_exact. exists h, mi, sec. split; [done|]. by split_and!.
    + rewrite app_nil_r, split_once_none by done. apply whole_exact. exists h, mi, sec. by split_and!.
Qed.

Lemma stamp_exact value : is_utc_rfc3339_timestamp value = true <-> exists s, value = stamp_text s /\ stamp_ok s.
Proof.
  unfold is_utc_rfc3339_timestamp. split.
  - destruct (split_once 84 value) as [[date zone]|] eqn:E; [|done]. apply split_once_some in E as [-> _].
    destruct (Text.strip_suffix 90 zone) as [time|] eqn:E; [|done]. apply strip_suffix_some in E as ->. rewrite andb_true_iff, date_exact, time_exact.
    intros [(y & m & d & -> & H1 & H2 & H3) (s & -> & H4 & H5 & H6 & H7)]. exists (mk_stamp y m d (st_hour s) (st_minute s) (st_second s) (st_fraction s)). split; [|by split].
    unfold stamp_text, date_text, time_text. cbn. by rewrite <- !app_assoc.
  - intros (s & -> & []). rewrite (proj2 (split_once_some 84 _ (date_text s) (time_text s ++ [90]))); [|split; [done|]].
    + rewrite (proj2 (strip_suffix_some 90 _ (time_text s)) eq_refl). rewrite andb_true_iff, date_exact, time_exact. split.
      * exists (st_year s), (st_month s), (st_day s). by split_and!.
      * exists s. by split_and!.
    + unfold date_text. rewrite !elem_of_app, !elem_of_cons. assert (~ is_digit 84) as H84 by (unfold is_digit; lia).
      pose proof (number_without _ _ _ _ 84 H84 so_year0). pose proof (number_without _ _ _ _ 84 H84 so_month0). pose proof (number_without _ _ _ _ 84 H84 so_day0).
      pose proof (not_elem_of_nil 84). naive_solver.
Qed.

(** ** Lemmas: paths *)
(** The name of the directory of a report. *)
Definition segment_text (s : stamp) : list Z :=
  date_text s ++ [84] ++ (st_hour s ++ st_minute s ++ st_second s) ++ fraction_text 45 (st_fraction s) ++ [90].
Definition path_dir (root : list Z) : list Z := match last root with None | Some 47 => root | _ => root ++ [47] end.

Lemma digits_are_ascii l : Forall is_digit l -> Forall (fun b => 0 <= b < 128) l.
Proof. intros H. eapply Forall_impl; [exact H|]. unfold is_digit. cbn. lia. Qed.

Definition ascii_text (l : list Z) : Prop := Forall (fun b => 0 <= b < 128) l.
Lemma stamp_parts_ascii s : stamp_ok s ->
  (ascii_text (st_year s) /\ ascii_text (st_month s) /\ ascii_text (st_day s)) /\
  (ascii_text (st_hour s) /\ ascii_text (st_minute s) /\ ascii_text (st_second s)) /\ ascii_text (fraction_text 46 (st_fraction s)).
Proof.
  intros [(_ & H1 & _) (_ & H2 & _) (_ & H3 & _) (_ & H4 & _) (_ & H5 & _) (_ & H6 & _) H7]. split_and!; try by apply digits_are_ascii.
  unfold fraction_text. destruct (st_fraction s) as [f|]; [|apply List.Forall_nil]. constructor; [done|]. by apply digits_are_ascii, H7.
Qed.

Lemma segment_app u v : Forall (fun b => 0 <= b < 128) u -> Forall (fun b => 0 <= b < 128) v ->
  artifact_timestamp_segment (u ++ v) = artifact_timestamp_segment u ++ artifact_timestamp_segment v.
Proof.
  intros Hu Hv. unfold artifact_timestamp_segment, chars. rewrite !utf8_decode_ascii by (try apply Forall_app; done). cbn [default from_option id].
  by rewrite map_app, concat_app.
Qed.
Lemma segment_digits l : Forall is_digit l -> artifact_timestamp_segment l = l.
Proof.
  intros Hl. unfold artifact_timestamp_segment, chars. rewrite utf8_decode_ascii by (by apply digits_are_ascii). cbn [default from_option id].
  induction Hl as [|b l Hb _ IH]; [done|]. cbn [map concat]. rewrite IH. unfold segment_char, encode_utf8. unfold is_digit in Hb.
  rewrite (proj2 (Z.eqb_neq b 58)), (proj2 (Z.eqb_neq b 46)), (proj2 (Z.ltb_lt b 128)) by lia. done.
Qed.

Lemma segment_stamp s : stamp_ok s -> artifact_timestamp_segment (stamp_text s) = segment_text s.
Proof.
  intros Hs. destruct (stamp_parts_ascii s Hs) as ((A1 & A2 & A3) & (A4 & A5 & A6) & A7).
  destruct Hs as [(_ & H1 & _) (_ & H2 & _) (_ & H3 & _) (_ & H4 & _) (_ & H5 & _) (_ & H6 & _) H7].
  assert (forall c, 0 <= c < 128 -> ascii_text [c]) as Hc by (intros c Hr; constructor; [done|apply List.Forall_nil]).
  unfold stamp_text, segment_text, date_text, time_text.
  rewrite !segment_app by (repeat (apply Forall_app; split); first [done|by apply Hc]).
  rewrite (segment_digits _ H1), (segment_digits _ H2), (segment_digits _ H3), (segment_digits _ H4), (segment_digits _ H5), (segment_digits _ H6).
  change (artifact_timestamp_segment [58]) with (@nil Z). change (artifact_timestamp_segment [90]) with [90]. change (artifact_timestamp_segment [45]) with [45]. change (artifact_timestamp_segment [84]) with [84].
  assert (artifact_timestamp_segment (fraction_text 46 (st_fraction s)) = fraction_text 45 (st_fraction s)) as ->; [|by rewrite <- !app_assoc].
  unfold fraction_text. destruct (st_fraction s) as [f|]; [|done]. destruct (H7 f eq_refl) as [_ Hf].
  change (46 :: f) with ([46] ++ f). rewrite segment_app by (first [by apply digits_are_ascii|by apply Hc]). by rewrite (segment_digits f).
Qed.

Lemma segment_inj s s' : stamp_ok s -> stamp_ok s' -> segment_text s = segment_text s' -> s = s'.
Proof.
  intros [(L1 & _) (L2 & _) (L3 & _) (L4 & _) (L5 & _) (L6 & _) _] [(K1 & _) (K2 & _) (K3 & _) (K4 & _) (K5 & _) (K6 & _) _].
  destruct s as [y m d h mi sec f], s' as [y' m' d' h' mi' sec' f']. unfold segment_text, date_text. cbn [st_year st_month st_day st_hour st_minute st_second st_fraction] in *.
  rewrite <- !app_assoc. intros E.
  assert (forall u u' : list Z, forall n, len u = n -> len u' = n -> length u = length u') as Hlen by (unfold len; lia).
  apply app_inj_1 in E as [-> E]; [|by eapply Hlen]. injection E as E. apply app_inj_1 in E as [-> E]; [|by eapply Hlen]. injection E as E.
  apply app_inj_1 in E as [-> E]; [|by eapply Hlen]. injection E as E. apply app_inj_1 in E as [-> E]; [|by eapply Hlen].
  apply app_inj_1 in E as [-> E]; [|by eapply Hlen]. apply app_inj_1 in E as [-> E]; [|by eapply Hlen].
  f_equal. destruct f as [f|], f' as [f'|]; cbn [fraction_text app] in E; [|done..|done]. injection E as E. apply app_inj_tail in E as [-> _]. done.
Qed.

(** Nothing in it but digits, dashes, [T] and [Z]. *)
Lemma segment_chars s : stamp_ok s -> Forall (fun b => is_digit b \/ b = 45 \/ b = 84 \/ b = 90) (segment_text s).
Proof.
  intros [(_ & H1 & _) (_ & H2 & _) (_ & H3 & _) (_ & H4 & _) (_ & H5 & _) (_ & H6 & _) H7]. unfold segment_text, date_text.
  assert (forall l, Forall is_digit l -> Forall (fun b => is_digit b \/ b = 45 \/ b = 84 \/ b = 90) l) as Hd by (intros l Hl; eapply Forall_impl; [exact Hl|]; by left).
  rewrite !Forall_app. split_and!; try by apply Hd. all: try (by repeat constructor; auto).
  unfold fraction_text. destruct (st_fraction s) as [f|]; [|apply List.Forall_nil]. constructor; [auto|]. by apply Hd, H7.
Qed.

Lemma join_relative root p : (forall p', p <> 47 :: p') -> path_join root p = path_dir root ++ p.
Proof.
  intros Hp. unfold path_join, path_dir. assert (forall k : list Z, match p with 47 :: _ => p | _ => k end = k) as ->.
  { intros k. destruct p as [|b p]; [done|]. destruct (decide (b = 47)) as [->|Hb]; [by destruct (Hp p)|]. by repeat (match goal with |- (match ?x with _ => _ end) = _ => destruct x end; try done). }
  destruct (last root) as [b|]; [|done]. destruct (decide (b = 47)) as [->|Hb]; [done|].
  assert (forall k k' : list Z, match b with 47 => k | _ => k' end = k') as Hm by (intros k k'; by repeat (match goal with |- (match ?x with _ => _ end) = _ => destruct x end; try done)).
  by rewrite !Hm, <- app_assoc.
Qed.

Lemma stamp_path root s : stamp_ok s ->
  path_join (path_join root (segment_text s)) RNODE_HIL_MANIFEST_FILE_NAME = path_dir root ++ segment_text s ++ [47] ++ RNODE_HIL_MANIFEST_FILE_NAME.
Proof.
  intros Hs. assert (forall p', segment_text s <> 47 :: p') as Hrel.
  { intros p' E. pose proof (segment_chars s Hs) as H. rewrite E in H. apply list.Forall_cons in H as [H _]. unfold is_digit in H. lia. }
  rewrite (join_relative root) by done. rewrite join_relative by done. unfold path_dir at 1.
  assert (last (path_dir root ++ segment_text s) = Some 90) as ->; [|by rewrite <- !app_assoc].
  unfold segment_text. rewrite !app_assoc. apply last_snoc.
Qed.

(** ** Lemmas: JSON *)
Definition hil_char (c : Z) : list Z :=
  if c =? 34 then [92; 34] else if c =? 92 then [92; 92] else if c =? 10 then [92; 110] else if c =? 13 then [92; 114] else if c =? 9 then [92; 116]
  else if is_control c then [92; 117] ++ lower_hex4 c else encode_utf8 c.
Definition hil_string (s : list Z) : list Z := [34] ++ concat (map hil_char (chars s)) ++ [34].

Lemma hil_char_text c : scalar_ok c -> char_text c (hil_char c).
Proof.
  intros Hc. unfold hil_char. destruct (Z.eqb_spec c 34) as [->|]; [by apply ct_short|]. destruct (Z.eqb_spec c 92) as [->|]; [by apply ct_short|].
  destruct (Z.eqb_spec c 10) as [->|]; [by apply ct_short|]. destruct (Z.eqb_spec c 13) as [->|]; [by apply ct_short|]. destruct (Z.eqb_spec c 9) as [->|]; [by apply ct_short|].
  unfold is_control. rewrite !in_range_reflect. destruct (bool_decide _ || bool_decide _) eqn:Hctl.
  - apply ct_unicode; [|done]. assert (0 <= c < 256) as Hr by (apply orb_true_iff in Hctl as [H|H]; apply bool_decide_eq_true in H; lia).
    assert (forall m, hex_value (hex_digit (m mod 16)) = Ok (m mod 16)) as Hd.
    { intros m. pose proof (Z.mod_pos_bound m 16 ltac:(lia)). unfold hex_digit, hex_value. rewrite !in_range_reflect. destruct (Z.ltb_spec (m mod 16) 10).
      - rewrite bool_decide_eq_true_2 by lia. f_equal. lia.
      - rewrite bool_decide_eq_false_2, bool_decide_eq_true_2 by lia. f_equal. lia. }
    pose proof (hex4_intro _ _ _ _ _ _ _ _ (Hd (c / 4096)) (Hd (c / 256)) (Hd (c / 16)) (Hd c)) as X.
    assert ((((c / 4096) mod 16 * 16 + (c / 256) mod 16) * 16 + (c / 16) mod 16) * 16 + c mod 16 = c) as E by (Z.to_euclidean_division_equations; lia). by rewrite E in X.
  - apply orb_false_iff in Hctl as [H1 _]. apply bool_decide_eq_false in H1. apply ct_plain; [done|unfold scalar_ok in Hc; lia|done|done].
Qed.

Lemma hil_string_text s : str_ok s -> string_text s (hil_string s).
Proof.
  intros Hs. destruct (chars_spec s Hs) as [Hcs Es]. exists (concat (map hil_char (chars s))). split; [|done]. rewrite Es at 1.
  clear Es. induction Hcs as [|c cs Hc Hcs IH]; [constructor|]. cbn [map concat]. constructor; [by apply hil_char_text|done].
Qed.

Section emits.
Context {S : Type} `{SinkLaws S IoErrorKind}.

Lemma emits_hil_char c : emits (write_hil_char c) (hil_char c).
Proof.
  unfold hil_char.
  repeat match goal with |- emits _ (if ?c =? ?k then _ else _) => destruct (Z.eqb_spec c k) as [->|]; [apply emits_write|] end.
  assert (write_hil_char c = if is_control c then _ ← sink_write [92; 117]; sink_write (lower_hex4 c) else sink_write (encode_utf8 c)) as ->.
  { unfold write_hil_char. repeat (match goal with |- (match ?x with _ => _ end) = _ => destruct x end; try done). }
  destruct (is_control c); [|apply emits_write]. apply emits_bind; apply emits_write.
Qed.
Lemma emits_hil_string s : emits (write_hil_string s) (hil_string s).
Proof.
  unfold write_hil_string, hil_string. apply emits_bind; [apply emits_write|]. apply emits_bind; [|apply emits_write].
  generalize (chars s). intros cs. induction cs as [|c cs IH]; [apply emits_ret|]. cbn [write_hil_chars map concat]. apply emits_bind; [apply emits_hil_char|exact IH].
Qed.

Definition optional_text (o : option (list Z)) : list Z := match o with Some s => hil_string s | None => str "null" end.
Lemma emits_optional o : emits (write_optional_json_string o) (optional_text o).
Proof. destruct o; [apply emits_hil_string|apply emits_write]. Qed.

Definition check_text (c : RNodeHilCheck) : list Z :=
  (nl 4 ++ [123] ++ nl 6 ++ named "id") ++ hil_string (ck_id c) ++ ([44] ++ nl 6 ++ named "status") ++ hil_string (check_status_str (ck_status c)) ++
  match ck_detail c with Some detail => ([44] ++ nl 6 ++ named "detail") ++ hil_string detail | None => [] end ++ (nl 4 ++ [125]).
Lemma emits_check c : emits (write_hil_check_json c) (check_text c).
Proof.
  unfold write_hil_check_json, check_text. repeat (apply emits_bind; [first [apply emits_write|apply emits_hil_string|destruct (ck_detail c); [apply emits_bind; [apply emits_write|apply emits_hil_string]|apply emits_ret]]|]).
  apply emits_write.
Qed.

Lemma emits_checks_from i l : 0 < i -> emits (write_hil_checks i l) (concat (map (cons 44) (map check_text l))).
Proof.
  revert i. induction l as [|c l IH]; intros i Hi; [apply emits_ret|]. cbn [write_hil_checks map concat]. rewrite Z.gtb_ltb, (proj2 (Z.ltb_lt 0 i)) by done.
  change (44 :: check_text c) with ([44] ++ check_text c). rewrite <- app_assoc. apply emits_bind; [apply emits_write|]. apply emits_bind; [apply emits_check|]. apply IH. lia.
Qed.
Lemma emits_checks l : emits (write_hil_checks 0 l) (commas (map check_text l)).
Proof.
  destruct l as [|c l]; [apply emits_ret|]. cbn [write_hil_checks Z.gtb Z.compare map commas]. change (check_text c ++ _) with ([] ++ check_text c ++ concat (map (cons 44) (map check_text l))).
  apply emits_bind; [apply emits_ret|]. apply emits_bind; [apply emits_check|]. by apply emits_checks_from.
Qed.

Definition manifest_text (m : RNodeHilManifest) : list Z :=
  ([123] ++ nl 2 ++ named "schema") ++ hil_string RNODE_HIL_MANIFEST_SCHEMA ++ ([44] ++ nl 2 ++ named "run_id") ++ hil_string (mf_run_id m) ++
  ([44] ++ nl 2 ++ named "generated_at") ++ hil_string (mf_generated_at m) ++
  ([44] ++ nl 2 ++ named "rnode" ++ [123] ++ nl 4 ++ named "port") ++ hil_string (mf_port m) ++ ([44] ++ nl 4 ++ named "baud") ++ decimal (mf_baud m) ++
  ([44] ++ nl 4 ++ named "hardware_model") ++ optional_text (mf_hardware_model m) ++ ([44] ++ nl 4 ++ named "firmware_version") ++ optional_text (mf_firmware_version m) ++
  (nl 2 ++ [125; 44] ++ nl 2 ++ named "rf" ++ [123] ++ nl 4 ++ named "allow_rf_tx") ++ bool_text (mf_allow_rf_tx m) ++
  ([44] ++ nl 4 ++ named "transmission_performed") ++ bool_text (mf_transmission_performed m) ++ (nl 2 ++ [125; 44] ++ nl 2 ++ named "checks" ++ [91]) ++
  commas (map check_text (mf_checks m)) ++ (nl 2 ++ [93; 10; 125; 10]).
Lemma emits_manifest m : emits (write_hil_body m) (manifest_text m).
Proof.
  unfold write_hil_body, manifest_text. repeat (apply emits_bind; [first [apply emits_write|apply emits_hil_string|apply emits_optional|apply emits_checks]|]). apply emits_write.
Qed.
End emits.

(** What is reported, as a JSON value. *)
Definition optional_value (o : option (list Z)) : JsonValue := match o with Some s => JString s | None => JNull end.
Definition check_value (c : RNodeHilCheck) : JsonValue :=
  JObject ([(str "id", JString (ck_id c)); (str "status", JString (check_status_str (ck_status c)))] ++
           match ck_detail c with Some detail => [(str "detail", JString detail)] | None => [] end).
Definition manifest_value (m : RNodeHilManifest) : JsonValue :=
  JObject [(str "schema", JString RNODE_HIL_MANIFEST_SCHEMA); (str "run_id", JString (mf_run_id m)); (str "generated_at", JString (mf_generated_at m));
           (str "rnode", JObject [(str "port", JString (mf_port m)); (str "baud", JNumber (mf_baud m));
                                  (str "hardware_model", optional_value (mf_hardware_model m)); (str "firmware_version", optional_value (mf_firmware_version m))]);
           (str "rf", JObject [(str "allow_rf_tx", JBool (mf_allow_rf_tx m)); (str "transmission_performed", JBool (mf_transmission_performed m))]);
           (str "checks", JArray (check_value <$> mf_checks m))].

(** What the types guarantee. *)
Definition optional_ok (o : option (list Z)) : Prop := match o with Some s => str_ok s | None => True end.
Definition check_ok (c : RNodeHilCheck) : Prop := str_ok (ck_id c) /\ optional_ok (ck_detail c).
Record manifest_ok (m : RNodeHilManifest) : Prop := {
  mo_run_id : str_ok (mf_run_id m);
  mo_generated_at : str_ok (mf_generated_at m);
  mo_port : str_ok (mf_port m);
  mo_baud : u32_ok (mf_baud m);
  mo_hardware_model : optional_ok (mf_hardware_model m);
  mo_firmware_version : optional_ok (mf_firmware_version m);
  mo_checks : Forall check_ok (mf_checks m);
}.

(** *** The text is a document of the report *)
Definition plainb (b : Z) : bool := in_range 32 127 b && negb (b =? 34) && negb (b =? 92).
Lemma plain_string s : forallb plainb s = true -> string_text s ([34] ++ s ++ [34]).
Proof.
  intros Hs. exists s. split; [|done]. induction s as [|b s IH]; [constructor|]. cbn [forallb] in Hs. apply andb_true_iff in Hs as [Hb Hs].
  unfold plainb in Hb. rewrite in_range_reflect in Hb. rewrite !andb_true_iff, bool_decide_eq_true, !negb_true_iff, !Z.eqb_neq in Hb.
  assert (encode_utf8 b = [b]) as E by (unfold encode_utf8; by rewrite (proj2 (Z.ltb_lt b 128)) by lia).
  pose proof (ct_plain b ltac:(unfold scalar_ok; lia) ltac:(lia) ltac:(lia) ltac:(lia)) as Hc.
  pose proof (cts_cons b _ s s Hc (IH Hs)) as X. by rewrite E in X.
Qed.

Lemma blank_nl n : blank (nl n).
Proof. constructor; [done|]. apply Forall_replicate. done. Qed.

Lemma after_name name v t : forallb plainb (str name) = true -> json_text v t -> exists t', json_text v t' /\ named name ++ t = quoted name ++ [] ++ [58] ++ t'.
Proof. intros Hn Ht. exists ([32] ++ t). split; [by apply json_text_blank; [|repeat constructor]|]. unfold named. by rewrite <- app_assoc. Qed.

Lemma member_one n m name v t : forallb plainb (str name) = true -> json_text v t -> fields_text [(str name, v)] (nl n ++ named name ++ t ++ nl m).
Proof.
  intros Hn Ht. destruct (after_name name v t Hn Ht) as (t' & Ht' & E). rewrite !app_assoc, <- (app_assoc (nl n)), E, <- !app_assoc.
  apply ft_one; [apply blank_nl|by apply plain_string|apply blank_nil|done|apply blank_nl].
Qed.
Lemma member_cons n name v t fs u : forallb plainb (str name) = true -> json_text v t -> fields_text fs u ->
  fields_text ((str name, v) :: fs) (nl n ++ named name ++ t ++ [44] ++ u).
Proof.
  intros Hn Ht Hu. destruct (after_name name v t Hn Ht) as (t' & Ht' & E). rewrite !app_assoc, <- (app_assoc (nl n)), E, <- !app_assoc.
  change ([44] ++ u) with ([] ++ [44] ++ u). apply ft_cons; [apply blank_nl|by apply plain_string|apply blank_nil|done|apply blank_nil|done].
Qed.

Lemma string_value s : str_ok s -> json_text (JString s) (hil_string s).
Proof. intros Hs. apply (jt_string []); [apply blank_nil|]. by apply hil_string_text. Qed.
Lemma optional_value_text o : optional_ok o -> json_text (optional_value o) (optional_text o).
Proof. destruct o; [apply string_value|]. intros _. apply (jt_null []), blank_nil. Qed.
Lemma bool_value_text b : json_text (JBool b) (bool_text b).
Proof. destruct b; [apply (jt_true [])|apply (jt_false [])]; apply blank_nil. Qed.
Lemma number_value_text n : u32_ok n -> json_text (JNumber n) (decimal n).
Proof. intros Hn. apply (json_print_text (JNumber n)). unfold u32_ok in Hn. cbn. unfold u64_ok. lia. Qed.
Lemma object_text fs t ws : blank ws -> fields_text fs t -> json_text (JObject fs) (ws ++ [123] ++ t ++ [125]).
Proof. apply jt_object. Qed.

Lemma json_text_eq v t t' : json_text v t -> t = t' -> json_text v t'.
Proof. by intros ? <-. Qed.
Ltac flat_app := cbn [app]; repeat (rewrite <- app_assoc; cbn [app]).

Lemma status_ok s : str_ok (check_status_str s).
Proof. by destruct s; apply str_ok_ascii; apply (bool_decide_unpack _); vm_compute. Qed.

Lemma check_value_text c : check_ok c -> json_text (check_value c) (check_text c).
Proof.
  intros [Hid Hd]. unfold check_value, check_text. destruct (ck_detail c) as [d|].
  - pose proof (object_text _ _ (nl 4) (blank_nl 4) (member_cons 6 "id" _ _ _ _ eq_refl (string_value _ Hid)
      (member_cons 6 "status" _ _ _ _ eq_refl (string_value _ (status_ok (ck_status c))) (member_one 6 4 "detail" _ _ eq_refl (string_value _ Hd))))) as X.
    eapply json_text_eq; [exact X|]. by flat_app.
  - pose proof (object_text _ _ (nl 4) (blank_nl 4) (member_cons 6 "id" _ _ _ _ eq_refl (string_value _ Hid)
      (member_one 6 4 "status" _ _ eq_refl (string_value _ (status_ok (ck_status c)))))) as X.
    eapply json_text_eq; [exact X|]. by flat_app.
Qed.

Lemma checks_value_text l ws : l <> [] -> Forall check_ok l -> blank ws -> elements_text (check_value <$> l) (commas (map check_text l) ++ ws).
Proof.
  intros Hl Hok Hws. induction Hok as [|c l Hc Hok IH]; [done|]. cbn [map]. rewrite commas_cons. destruct l as [|c' l].
  - cbn [map]. rewrite app_nil_r. apply et_one; [by apply check_value_text|done].
  - rewrite <- !app_assoc. exact (et_cons _ _ [] _ _ (check_value_text c Hc) blank_nil (IH ltac:(done))).
Qed.

Lemma manifest_document m : manifest_ok m -> mf_checks m <> [] -> json_document (manifest_value m) (manifest_text m).
Proof.
  intros [Hid Hat Hport Hbaud Hhw Hfw Hck] Hne.
  assert (str_ok RNODE_HIL_MANIFEST_SCHEMA) as Hsch by (apply str_ok_ascii; apply (bool_decide_unpack _); vm_compute; exact I).
  pose proof (object_text _ _ [] blank_nil (member_cons 4 "port" _ _ _ _ eq_refl (string_value _ Hport) (member_cons 4 "baud" _ _ _ _ eq_refl (number_value_text _ Hbaud)
    (member_cons 4 "hardware_model" _ _ _ _ eq_refl (optional_value_text _ Hhw) (member_one 4 2 "firmware_version" _ _ eq_refl (optional_value_text _ Hfw)))))) as Hrnode.
  pose proof (object_text _ _ [] blank_nil (member_cons 4 "allow_rf_tx" _ _ _ _ eq_refl (bool_value_text (mf_allow_rf_tx m))
    (member_one 4 2 "transmission_performed" _ _ eq_refl (bool_value_text (mf_transmission_performed m))))) as Hrf.
  pose proof (jt_array [] _ _ blank_nil (checks_value_text (mf_checks m) (nl 2) Hne Hck (blank_nl 2))) as Hchecks.
  pose proof (object_text _ _ [] blank_nil (member_cons 2 "schema" _ _ _ _ eq_refl (string_value _ Hsch) (member_cons 2 "run_id" _ _ _ _ eq_refl (string_value _ Hid)
    (member_cons 2 "generated_at" _ _ _ _ eq_refl (string_value _ Hat) (member_cons 2 "rnode" _ _ _ _ eq_refl Hrnode (member_cons 2 "rf" _ _ _ _ eq_refl Hrf
    (member_one 2 0 "checks" _ _ eq_refl Hchecks))))))) as X.
  eexists _, [10]. split; [exact X|]. split; [by repeat constructor|]. unfold manifest_text. by flat_app.
Qed.

(** ** The reports that are accepted *)
Record manifest_valid (m : RNodeHilManifest) : Prop := {
  mv_run_id : mf_run_id m <> [];
  mv_generated_at : exists s, mf_generated_at m = stamp_text s /\ stamp_ok s;
  mv_port : mf_port m <> [];
  mv_baud : mf_baud m <> 0;
  mv_silent : mf_allow_rf_tx m = false /\ mf_transmission_performed m = false;
  mv_checks : mf_checks m <> [];
  mv_check_ids : Forall (fun c => ck_id c <> []) (mf_checks m);
}.

Lemma len_zero {A} (l : list A) : (len l =? 0) = true <-> l = [].
Proof. rewrite Z.eqb_eq. unfold len. split; [|by intros ->]. intros. apply nil_length_inv. lia. Qed.
Lemma len_nonzero {A} (l : list A) : (len l =? 0) = false <-> l <> [].
Proof. pose proof (len_zero l). destruct (len l =? 0); intuition congruence. Qed.

Lemma stamp_nonempty s : stamp_text s <> [].
Proof. unfold stamp_text. intros E. apply app_eq_nil in E as [_ E]. done. Qed.

Lemma empty_ids l : existsb (fun check => len (ck_id check) =? 0) l = false <-> Forall (fun c => ck_id c <> []) l.
Proof. induction l as [|c l IH]; cbn [existsb]; [split; [by intros; apply List.Forall_nil|done]|]. by rewrite orb_false_iff, list.Forall_cons, IH, len_nonzero. Qed.

Lemma guard_ok {E} b (e : E) (k : outcome E unit) : (_ ← guard_err b e; k) = Ok tt <-> b = false /\ k = Ok tt.
Proof. destruct b; cbn; intuition congruence. Qed.
Lemma guard_last {E} b (e : E) : guard_err b e = Ok tt <-> b = false.
Proof. destruct b; cbn; intuition congruence. Qed.

Lemma validate_exact m : validate_hil_manifest m = Ok tt <-> manifest_valid m.
Proof.
  unfold validate_hil_manifest. rewrite !guard_ok, guard_last, !len_nonzero, negb_false_iff, stamp_exact, Z.eqb_neq, empty_ids. split.
  - intros (? & ? & ? & ? & ? & ? & ? & ? & ?). by split.
  - intros [? (s & E & Hs) ? ? [] ? ?]. split_and!; try done; [|by exists s]. rewrite E. apply stamp_nonempty.
Qed.
Lemma guard_safe {E} b (e : E) (k : outcome E unit) : k <> Panic -> (_ ← guard_err b e; k) <> Panic.
Proof. by destruct b. Qed.
Lemma manifest_safe m : validate_hil_manifest m <> Panic.
Proof. unfold validate_hil_manifest. repeat (apply guard_safe). by destruct (existsb _ _). Qed.

Lemma write_manifest_value {S} `{SinkLaws S IoErrorKind} m s : sink_ok s -> validate_hil_manifest m = Ok tt ->
  match sink_write (manifest_text m) s with
  | (Ok _, s') => write_hil_manifest_json m s = (Ok tt, s')
  | (Err _, _) => exists kind s', write_hil_manifest_json m s = (Err (ManifestIo kind), s')
  | (Panic, _) => False
  end.
Proof.
  intros Hs Hv. pose proof (emits_manifest m s Hs) as He. unfold write_hil_manifest_json, lift. rewrite Hv. unfold mbind, io_bind, io_map_err.
  destruct (sink_write (manifest_text m) s) as [[[]|e|] s']; [by rewrite He| |done]. destruct He as (e' & s'' & ->). by exists e', s''.
Qed.

(** ** Claims *)

(** A report is kept under a path exactly when its time is a UTC date and time of
    the calendar (leap years included, fractions of a second allowed); the path
    is the root, one directory of digits, dashes, [T] and [Z], and
    [manifest.json]; and reports of different times have different paths. *)
Theorem hil_artifact_path_exact root :
  (forall generated_at path, hil_manifest_artifact_path root generated_at = Ok path <->
     exists s, stamp_ok s /\ generated_at = stamp_text s /\ path = path_dir root ++ segment_text s ++ str "/manifest.json") /\
  (forall generated_at e, hil_manifest_artifact_path root generated_at = Err e <->
     (forall s, stamp_ok s -> generated_at <> stamp_text s) /\ e = if decide (generated_at = []) then EmptyGeneratedAt else InvalidGeneratedAt) /\
  (forall u v path, hil_manifest_artifact_path root u = Ok path -> hil_manifest_artifact_path root v = Ok path -> u = v).
Proof.
  assert (forall generated_at, hil_manifest_artifact_path root generated_at =
    if decide (generated_at = []) then Err EmptyGeneratedAt
    else if is_utc_rfc3339_timestamp generated_at then Ok (path_join (path_join root (artifact_timestamp_segment generated_at)) RNODE_HIL_MANIFEST_FILE_NAME) else Err InvalidGeneratedAt) as Hp.
  { intros g. unfold hil_manifest_artifact_path, guard_err. destruct (decide (g = [])) as [->|Hg]; [done|]. rewrite (proj2 (len_nonzero g) Hg). cbn. by destruct (is_utc_rfc3339_timestamp g). }
  assert (forall generated_at path, hil_manifest_artifact_path root generated_at = Ok path <->
     exists s, stamp_ok s /\ generated_at = stamp_text s /\ path = path_dir root ++ segment_text s ++ str "/manifest.json") as Hok.
  { intros g path. rewrite Hp. split.
    - destruct (decide (g = [])); [done|]. destruct (is_utc_rfc3339_timestamp g) eqn:E; [|done]. apply stamp_exact in E as (s & -> & Hs).
      rewrite segment_stamp, stamp_path by done. intros E. exists s. split_and!; [done|done|]. change (str "/manifest.json") with ([47] ++ RNODE_HIL_MANIFEST_FILE_NAME). congruence.
    - intros (s & Hs & -> & ->). rewrite decide_False by apply stamp_nonempty. rewrite (proj2 (stamp_exact (stamp_text s))) by by exists s.
      by rewrite segment_stamp, stamp_path. }
  split_and!; [exact Hok| |].
  - intros g e. rewrite Hp. split.
    + intros He. split; [intros s Hs ->; rewrite decide_False in He by apply stamp_nonempty; by rewrite (proj2 (stamp_exact (stamp_text s))) in He by by exists s|].
      destruct (decide (g = [])); [congruence|]. destruct (is_utc_rfc3339_timestamp g); congruence.
    + intros [Hn ->]. destruct (decide (g = [])); [done|]. destruct (is_utc_rfc3339_timestamp g) eqn:E; [|done]. apply stamp_exact in E as (s & -> & Hs). by destruct (Hn s Hs).
  - intros u v path Hu Hv. apply Hok in Hu as (s & Hs & -> & ->). apply Hok in Hv as (s' & Hs' & -> & E).
    apply app_inv_head in E. apply app_inv_tail in E. by rewrite (segment_inj s s').
Qed.

(** C20. A report that records a transmission, has an empty field, no check or a
    time that is not one is refused and nothing of it is written; what is written
    of any other report, to any sink that does not fail, is one JSON document that
    reads back as every field of it, whatever characters its strings have; and a
    sink that fails is an error of the writer. *)
Theorem hil_manifest_readable {S} `{SinkLaws S IoErrorKind} m s : manifest_ok m -> sink_ok s ->
  (validate_hil_manifest m = Ok tt <-> manifest_valid m) /\ validate_hil_manifest m <> Panic /\
  (forall e, validate_hil_manifest m = Err e -> write_hil_manifest_json m s = (Err e, s)) /\
  (manifest_valid m -> exists text, parse text = Ok (manifest_value m) /\
     match sink_write text s with
     | (Ok _, s') => write_hil_manifest_json m s = (Ok tt, s')
     | (Err _, _) => exists kind s', write_hil_manifest_json m s = (Err (ManifestIo kind), s')
     | (Panic, _) => False
     end).
Proof.
  intros Hm Hs. split_and!.
  - apply validate_exact.
  - apply manifest_safe.
  - intros e He. unfold write_hil_manifest_json, lift. by rewrite He.
  - intros Hv. exists (manifest_text m). split; [by apply parse_complete, manifest_document, Hv|]. apply write_manifest_value; [done|by apply validate_exact].
Qed.

(** ** Witnesses *)
(** A file in memory. *)
#[local] Instance memory_sink : CanonicalSink (list Z) IoErrorKind := fun v s => (Ok tt, s ++ v).
#[local] Program Instance memory_laws : SinkLaws (list Z) IoErrorKind := {| sink_ok := fun _ => True |}.
Next Obligation. done. Qed.
Next Obligation. done. Qed.
Next Obligation. intros s _. unfold sink_write, memory_sink. by rewrite app_nil_r. Qed.
Next Obligation. intros u v s _. unfold sink_write, memory_sink. cbn. by rewrite app_assoc. Qed.

Definition sample_stamp : stamp :=
  mk_stamp (str "2024") (str "02") (str "29") (str "23") (str "59") (str "05") (Some (str "125")).
(** A report with a quote, a control character and a letter of two bytes in its
    strings. *)
Definition sample_manifest : RNodeHilManifest :=
  mk_manifest (str "run-1") (stamp_text sample_stamp) (str "/dev/ttyUSB0") 115200 (Some [110; 34; 7]) None false false
    [check_ready Passed; check_with_detail (RNodeHilCheck_new (str "x") Skipped) [195; 169; 194; 133]].

Lemma hil_manifest_readable_witness :
  manifest_valid sample_manifest /\ exists text, parse text = Ok (manifest_value sample_manifest) /\ write_hil_manifest_json sample_manifest [] = (Ok tt, text).
Proof.
  assert (manifest_ok sample_manifest) as Hm.
  { assert (forall l, bool_decide (Forall (fun b => 0 <= b < 256) l) = true -> utf8_ok l = true -> str_ok l) as Hs by (intros l Hl Hu; split; [by apply bool_decide_eq_true in Hl|done]).
    split; try solve [apply Hs; reflexivity | exact I]; [by split|]. cbn. repeat apply List.Forall_cons; [| |apply List.Forall_nil].
    - split; [apply Hs; reflexivity|exact I].
    - split; apply Hs; reflexivity. }
  assert (validate_hil_manifest sample_manifest = Ok tt) as Hv by (vm_compute; reflexivity).
  assert (@sink_ok (list Z) IoErrorKind memory_sink memory_laws []) as Hs by exact I.
  destruct (hil_manifest_readable sample_manifest [] Hm Hs) as (Hiff & _ & _ & Hw). apply Hiff in Hv. split; [exact Hv|].
  destruct (Hw Hv) as (text & Hp & E). exists text. split; [exact Hp|]. exact E.
Defined.
