(* ===== verification/RnsWire.v ===== *)
(** [hyf_rns_core] and the packet layer of [hyf_rns_wire]: hashes, header
    flags, the two packet headers and the packet hash
    (src/crates/hyf_rns_core/src/constants.rs, hash.rs, destination.rs;
    src/crates/hyf_rns_wire/src/context.rs, flags.rs, packet.rs, packet_hash.rs, error.rs).

    SHA-256 is a parameter; all that is used of it is the length of its
    digest. *)
From S2P Require Import Prelude Cursor.

Definition RNS_MTU : Z := 500.
Definition RNS_TRUNCATED_HASH_LEN : Z := 16.
Definition RNS_NAME_HASH_LEN : Z := 10.
Definition RNS_HEADER_1_LEN : Z := 19.
Definition RNS_HEADER_2_LEN : Z := 35.
Definition RNS_MDU : Z := 464.
Definition RNS_CONTEXT_NONE : Z := 0.

Inductive RnsWireError :=
| UnsupportedPacketAccessCode
| InvalidFlags
| InvalidHeaderType
| InvalidTransportType
| InvalidDestinationType
| InvalidPacketType
| PacketTooShort (actual minimum : Z)
| PacketTooLarge (actual maximum : Z)
| MissingTransportId
| UnexpectedTransportId
| OutputBufferTooShort (actual required : Z)
| MalformedAnnounce
| InvalidPublicIdentity
| InvalidSignature
| CryptoFailed
| InvalidIfacSize (actual maximum : Z)
| InvalidIfacKey
| MissingPacketAccessCode
| InvalidPacketAccessCode
| DestinationMismatch
| TimestampOverflow
| RandomSourceFailed
| InvalidDestinationName.
#[export] Instance RnsWireError_eq_dec : EqDecision RnsWireError. Proof. solve_decision. Defined.

(** ** Flags *)
Definition IFAC_FLAG : Z := 0x80.
Definition HEADER_TYPE_MASK : Z := 0x40.
Definition CONTEXT_FLAG_MASK : Z := 0x20.
Definition TRANSPORT_TYPE_MASK : Z := 0x10.
Definition DESTINATION_TYPE_MASK : Z := 0x0c.
Definition PACKET_TYPE_MASK : Z := 0x03.

Inductive RnsHeaderType := Header1 | Header2.
Inductive RnsTransportType := Broadcast | Transport.
Inductive RnsDestinationType := Single | Group | Plain | Link.
Inductive RnsPacketType := Data | Announce | LinkRequest | Proof_.
#[export] Instance RnsHeaderType_eq_dec : EqDecision RnsHeaderType. Proof. solve_decision. Defined.
#[export] Instance RnsTransportType_eq_dec : EqDecision RnsTransportType. Proof. solve_decision. Defined.
#[export] Instance RnsDestinationType_eq_dec : EqDecision RnsDestinationType. Proof. solve_decision. Defined.
#[export] Instance RnsPacketType_eq_dec : EqDecision RnsPacketType. Proof. solve_decision. Defined.

Definition header_to_bits (t : RnsHeaderType) : Z := match t with Header1 => 0 | Header2 => 1 end.
Definition transport_to_bits (t : RnsTransportType) : Z := match t with Broadcast => 0 | Transport => 1 end.
Definition destination_to_bits (t : RnsDestinationType) : Z :=
  match t with Single => 0 | Group => 1 | Plain => 2 | Link => 3 end.
Definition packet_to_bits (t : RnsPacketType) : Z :=
  match t with Data => 0 | Announce => 1 | LinkRequest => 2 | Proof_ => 3 end.

Definition header_from_bits (b : Z) : outcome RnsWireError RnsHeaderType :=
  match b with 0 => Ok Header1 | 1 => Ok Header2 | _ => Err InvalidHeaderType end.
Definition transport_from_bits (b : Z) : outcome RnsWireError RnsTransportType :=
  match b with 0 => Ok Broadcast | 1 => Ok Transport | _ => Err InvalidTransportType end.
Definition destination_from_bits (b : Z) : outcome RnsWireError RnsDestinationType :=
  match b with 0 => Ok Single | 1 => Ok Group | 2 => Ok Plain | 3 => Ok Link | _ => Err InvalidDestinationType end.
Definition packet_from_bits (b : Z) : outcome RnsWireError RnsPacketType :=
  match b with 0 => Ok Data | 1 => Ok Announce | 2 => Ok LinkRequest | 3 => Ok Proof_ | _ => Err InvalidPacketType end.

Record RnsPacketFlags := mk_flags {
  header_type : RnsHeaderType;
  context_flag : bool;
  transport_type : RnsTransportType;
  destination_type : RnsDestinationType;
  packet_type : RnsPacketType;
}.
#[export] Instance RnsPacketFlags_eq_dec : EqDecision RnsPacketFlags. Proof. solve_decision. Defined.

(** Shifts and ors of [u8]; no bit is shifted out. *)
Definition encode_flags (f : RnsPacketFlags) : Z :=
  Z.lor (Z.shiftl (header_to_bits (header_type f)) 6)
    (Z.lor (Z.shiftl (Z.b2z (context_flag f)) 5)
      (Z.lor (Z.shiftl (transport_to_bits (transport_type f)) 4)
        (Z.lor (Z.shiftl (destination_to_bits (destination_type f)) 2)
           (packet_to_bits (packet_type f))))).

Definition decode_flags (byte : Z) : outcome RnsWireError RnsPacketFlags :=
  if negb (Z.land byte IFAC_FLAG =? 0) then Err UnsupportedPacketAccessCode
  else
    h ← header_from_bits (Z.shiftr (Z.land byte HEADER_TYPE_MASK) 6);
    let c := negb (Z.land byte CONTEXT_FLAG_MASK =? 0) in
    t ← transport_from_bits (Z.shiftr (Z.land byte TRANSPORT_TYPE_MASK) 4);
    d ← destination_from_bits (Z.shiftr (Z.land byte DESTINATION_TYPE_MASK) 2);
    p ← packet_from_bits (Z.land byte PACKET_TYPE_MASK);
    Ok (mk_flags h c t d p).

(** ** Packets *)
Record RnsPacketRef := mk_rns_packet {
  rp_flags : RnsPacketFlags;
  rp_hops : Z;
  rp_transport_id : option (list Z);
  rp_destination_hash : list Z;
  rp_context : Z;
  rp_data : list Z;
}.

Definition header_len (t : RnsHeaderType) : Z :=
  match t with Header1 => RNS_HEADER_1_LEN | Header2 => RNS_HEADER_2_LEN end.

Definition read_truncated_hash (input : list Z) : outcome RnsWireError (list Z) :=
  to_array RNS_TRUNCATED_HASH_LEN input.

Definition decode_header_1_packet (input : list Z) (flags : RnsPacketFlags) : outcome RnsWireError RnsPacketRef :=
  hops ← index input 1;
  d ← slice input 2 18;
  destination_hash ← read_truncated_hash d;
  context ← index input 18;
  data ← slice input 19 (len input);
  Ok (mk_rns_packet flags hops None destination_hash context data).

Definition decode_header_2_packet (input : list Z) (flags : RnsPacketFlags) : outcome RnsWireError RnsPacketRef :=
  hops ← index input 1;
  t ← slice input 2 18;
  transport_id ← read_truncated_hash t;
  d ← slice input 18 34;
  destination_hash ← read_truncated_hash d;
  context ← index input 34;
  data ← slice input 35 (len input);
  Ok (mk_rns_packet flags hops (Some transport_id) destination_hash context data).

Definition decode_packet (input : list Z) : outcome RnsWireError RnsPacketRef :=
  if len input >? RNS_MTU then Err (PacketTooLarge (len input) RNS_MTU)
  else if len input =? 0 then Err (PacketTooShort (len input) 1)
  else
    b ← index input 0;
    flags ← decode_flags b;
    let minimum := header_len (header_type flags) in
    if len input <? minimum then Err (PacketTooShort (len input) minimum)
    else match header_type flags with
    | Header1 => decode_header_1_packet input flags
    | Header2 => decode_header_2_packet input flags
    end.

Definition encoded_len (p : RnsPacketRef) : outcome RnsWireError Z :=
  match checked_add (header_len (header_type (rp_flags p))) (len (rp_data p)) with
  | None => Err (PacketTooLarge (len (rp_data p)) RNS_MTU)
  | Some required => if required >? RNS_MTU then Err (PacketTooLarge required RNS_MTU) else Ok required
  end.

Definition validate_transport_id (p : RnsPacketRef) : outcome RnsWireError (option (list Z)) :=
  match header_type (rp_flags p), rp_transport_id p with
  | Header1, None => Ok None
  | Header2, Some transport_id => Ok (Some transport_id)
  | Header1, Some _ => Err UnexpectedTransportId
  | Header2, None => Err MissingTransportId
  end.

Definition encode_header_1_packet (p : RnsPacketRef) : io (list Z) RnsWireError unit :=
  _ ← put_slice 2 (rp_destination_hash p);
  _ ← poke 18 (rp_context p);
  put_slice 19 (rp_data p).

Definition encode_header_2_packet (p : RnsPacketRef) (transport_id : list Z) : io (list Z) RnsWireError unit :=
  _ ← put_slice 2 transport_id;
  _ ← put_slice 18 (rp_destination_hash p);
  _ ← poke 34 (rp_context p);
  put_slice 35 (rp_data p).

Definition encode_packet (p : RnsPacketRef) : io (list Z) RnsWireError Z :=
  required ← lift (encoded_len p);
  output ← get;
  _ ← lift (guard_err (len output <? required) (OutputBufferTooShort (len output) required));
  transport_id ← lift (validate_transport_id p);
  _ ← poke 0 (encode_flags (rp_flags p));
  _ ← poke 1 (rp_hops p);
  _ ← match header_type (rp_flags p) with
      | Header1 => encode_header_1_packet p
      | Header2 =>
          match transport_id with
          | None => lift (Err MissingTransportId)
          | Some transport_id => encode_header_2_packet p transport_id
          end
      end;
  mret required.

(** ** Packet hashes *)
Definition HASHABLE_FLAGS_MASK : Z := 0x0f.
Definition packet_hashable_len (input_len : Z) (t : RnsHeaderType) : Z :=
  match t with Header1 => input_len - 1 | Header2 => input_len - RNS_TRUNCATED_HASH_LEN - 1 end.

Definition write_packet_hashable_part (input : list Z) : io (list Z) RnsWireError Z :=
  packet ← lift (decode_packet input);
  let t := header_type (rp_flags packet) in
  let hashable_len := packet_hashable_len (len input) t in
  output ← get;
  _ ← lift (guard_err (len output <? hashable_len) (OutputBufferTooShort (len output) hashable_len));
  b ← lift (index input 0);
  _ ← poke 0 (Z.land b HASHABLE_FLAGS_MASK);
  rest ← lift (slice input (match t with Header1 => 2 | Header2 => 18 end) (len input));
  (* [output[1..hashable_len].copy_from_slice(rest)] *)
  rest' ← lift (to_array (hashable_len - 1) rest);
  _ ← put_slice 1 rest';
  mret hashable_len.

Inductive RnsCoreError := DestinationAppNameContainsDot | DestinationAspectContainsDot.

Definition contains_dot (name : list Z) : bool := existsb (fun b => b =? 46) name.

Fixpoint validate_aspects (aspects : list (list Z)) : outcome RnsCoreError unit :=
  match aspects with
  | [] => Ok tt
  | aspect :: aspects' =>
      if contains_dot aspect then Err DestinationAspectContainsDot else validate_aspects aspects'
  end.
Definition validate_destination_name (app_name : list Z) (aspects : list (list Z)) : outcome RnsCoreError unit :=
  if contains_dot app_name then Err DestinationAppNameContainsDot else validate_aspects aspects.

Section hashes.
(** [Sha256::digest]. *)
Context (sha256 : list Z -> list Z).

Definition full_hash (data : list Z) : list Z := sha256 data.
Definition truncated_hash {E} (data : list Z) : outcome E (list Z) :=
  t ← slice (full_hash data) 0 16; to_array 16 t.

Definition packet_hash (input : list Z) : outcome RnsWireError (list Z) :=
  let '(r, hashable) := write_packet_hashable_part input (zeros (RNS_MTU - 1)) in
  hashable_len ← r;
  h ← slice hashable 0 hashable_len;
  Ok (full_hash h).

Definition packet_truncated_hash (input : list Z) : outcome RnsWireError (list Z) :=
  h ← packet_hash input;
  t ← slice h 0 RNS_TRUNCATED_HASH_LEN;
  to_array RNS_TRUNCATED_HASH_LEN t.

(** Names are UTF-8 strings, given by their bytes; ['.'] is byte 46. *)
Definition destination_name_hash (app_name : list Z) (aspects : list (list Z)) : outcome RnsCoreError (list Z) :=
  _ ← validate_destination_name app_name aspects;
  h ← slice (sha256 (app_name ++ (aspects ≫= (fun aspect => 46 :: aspect)))) 0 RNS_NAME_HASH_LEN;
  to_array RNS_NAME_HASH_LEN h.

(** A destination: the name hash, and the identity hash unless it is plain. *)
Definition destination_hash {E} (name_hash : list Z) (identity_hash : option (list Z)) : outcome E (list Z) :=
  h ← slice (sha256 (name_hash ++ default [] identity_hash)) 0 16; to_array 16 h.
End hashes.

(** ** The wire format *)
Definition packet_bytes (p : RnsPacketRef) : list Z :=
  [encode_flags (rp_flags p); rp_hops p] ++ default [] (rp_transport_id p)
  ++ rp_destination_hash p ++ [rp_context p] ++ rp_data p.

(** What the Rust types guarantee of a packet, and agreement of header type
    and transport id. *)
Record packet_ok (p : RnsPacketRef) : Prop := {
  po_hops : u8_ok (rp_hops p);
  po_transport : from_option (array_ok 16) True (rp_transport_id p);
  po_destination : array_ok 16 (rp_destination_hash p);
  po_context : u8_ok (rp_context p);
  po_data : bytes_ok (rp_data p);
}.
Definition header_consistent (p : RnsPacketRef) : Prop :=
  header_type (rp_flags p) = match rp_transport_id p with None => Header1 | Some _ => Header2 end.

(** ** Lemmas: flags *)
Lemma encode_flags_byte f : u8_ok (encode_flags f) /\ Z.land (encode_flags f) IFAC_FLAG = 0.
Proof. destruct f as [[] [] [] [] []]; split; vm_compute; try split; done. Qed.

Lemma decode_encode_flags f : decode_flags (encode_flags f) = Ok f.
Proof. by destruct f as [[] [] [] [] []]. Qed.

Definition flags_canonical (b : Z) : bool :=
  match decode_flags b with
  | Ok f => (encode_flags f =? b)
  | Err UnsupportedPacketAccessCode => negb (Z.land b IFAC_FLAG =? 0)
  | _ => false
  end.

(** Every byte either decodes to the flags that encode to it or carries the
    access-code flag; the other errors cannot happen. *)
Lemma decode_flags_cases b :
  u8_ok b ->
  (exists f, decode_flags b = Ok f /\ encode_flags f = b) \/
  (decode_flags b = Err UnsupportedPacketAccessCode /\ Z.land b IFAC_FLAG <> 0).
Proof.
  intros Hb. assert (flags_canonical b = true) as H.
  { revert b Hb. apply u8_forall. vm_compute. reflexivity. }
  unfold flags_canonical in H. destruct (decode_flags b) as [f|[]|]; try done.
  - left. exists f. by apply Z.eqb_eq in H.
  - right. apply negb_true_iff, Z.eqb_neq in H. done.
Qed.

(** ** Lemmas: packets *)
Lemma packet_bytes_len p :
  packet_ok p -> header_consistent p -> len (packet_bytes p) = header_len (header_type (rp_flags p)) + len (rp_data p).
Proof.
  intros [_ Ht [Hd _] _ _] Hc. unfold packet_bytes. rewrite Hc.
  destruct (rp_transport_id p) as [t|]; simpl in *; [destruct Ht as [Ht _]|];
    rewrite !len_cons, !len_app, len_cons; simpl; unfold header_len, RNS_HEADER_1_LEN, RNS_HEADER_2_LEN; lia.
Qed.

Lemma decode_header_1_parts flags h d c data :
  len d = 16 ->
  forall f, decode_header_1_packet (f :: h :: d ++ c :: data) flags = Ok (mk_rns_packet flags h None d c data).
Proof.
  intros Hd f. unfold decode_header_1_packet, read_truncated_hash.
  change (index (f :: h :: d ++ c :: data) 1) with (Ok (E:=RnsWireError) h). cbn [mbind outcome_bind].
  change (f :: h :: d ++ c :: data) with ([f; h] ++ d ++ c :: data).
  rewrite (slice_app_at [f; h] d (c :: data) 2 18) by (rewrite ?Hd; done). cbn [mbind outcome_bind].
  rewrite to_array_ok by done. cbn [mbind outcome_bind].
  rewrite (app_assoc [f; h]), index_app by (by rewrite len_app, Hd). cbn [mbind outcome_bind].
  rewrite (cons_middle c), (app_assoc _ [c]).
  rewrite slice_tail by (rewrite ?len_app, ?Hd; done). done.
Qed.

Lemma decode_header_2_parts flags h t d c data :
  len t = 16 -> len d = 16 ->
  forall f, decode_header_2_packet (f :: h :: t ++ d ++ c :: data) flags = Ok (mk_rns_packet flags h (Some t) d c data).
Proof.
  intros Ht Hd f. unfold decode_header_2_packet, read_truncated_hash.
  change (index (f :: h :: t ++ d ++ c :: data) 1) with (Ok (E:=RnsWireError) h). cbn [mbind outcome_bind].
  change (f :: h :: t ++ d ++ c :: data) with ([f; h] ++ t ++ d ++ c :: data).
  rewrite (slice_app_at [f; h] t (d ++ c :: data) 2 18) by (rewrite ?Ht; done). cbn [mbind outcome_bind].
  rewrite to_array_ok by done. cbn [mbind outcome_bind].
  rewrite (app_assoc [f; h] t), (slice_app_at ([f; h] ++ t) d (c :: data) 18 34) by (rewrite ?len_app, ?Ht, ?Hd; done). cbn [mbind outcome_bind].
  rewrite to_array_ok by done. cbn [mbind outcome_bind].
  rewrite (app_assoc _ d), index_app by (by rewrite !len_app, Ht, Hd). cbn [mbind outcome_bind].
  rewrite (cons_middle c), (app_assoc _ [c]).
  rewrite slice_tail by (rewrite ?len_app, ?Ht, ?Hd; done). done.
Qed.

Lemma decode_packet_bytes p :
  packet_ok p -> header_consistent p -> len (packet_bytes p) <= RNS_MTU ->
  decode_packet (packet_bytes p) = Ok p.
Proof.
  intros Hp Hc Hmax. pose proof (packet_bytes_len p Hp Hc) as Hlen. pose proof (len_nonneg (rp_data p)).
  unfold decode_packet. rewrite Z.gtb_ltb.
  destruct (Z.ltb_spec RNS_MTU (len (packet_bytes p))); [lia|].
  assert (0 < header_len (header_type (rp_flags p))) by (by destruct (header_type (rp_flags p))).
  destruct (Z.eqb_spec (len (packet_bytes p)) 0); [lia|].
  change (index (packet_bytes p) 0) with (Ok (E:=RnsWireError) (encode_flags (rp_flags p))). cbn [mbind outcome_bind].
  rewrite decode_encode_flags. cbn [mbind outcome_bind].
  destruct (Z.ltb_spec (len (packet_bytes p)) (header_len (header_type (rp_flags p)))); [lia|].
  destruct Hp as [_ Ht [Hd _] _ _]. unfold header_consistent in Hc. rewrite Hc. unfold packet_bytes.
  destruct p as [f h [t|] d c data]; simpl in *.
  - destruct Ht as [Ht _]. by rewrite decode_header_2_parts.
  - by rewrite decode_header_1_parts.
Qed.

(** What the decoder accepts, and that it always returns. *)
Lemma decode_packet_cases input :
  bytes_ok input ->
  (exists p, decode_packet input = Ok p /\ packet_ok p /\ header_consistent p /\
     len input <= RNS_MTU /\ input = packet_bytes p) \/
  (exists e, decode_packet input = Err e).
Proof.
  intros Hb. unfold decode_packet. rewrite Z.gtb_ltb.
  destruct (Z.ltb_spec RNS_MTU (len input)); [eauto|].
  destruct input as [|f input]; [right; by eexists|]. rewrite len_cons in *. pose proof (len_nonneg input).
  destruct (Z.eqb_spec (1 + len input) 0); [lia|]. rewrite index_0. cbn [mbind outcome_bind].
  apply bytes_ok_cons in Hb as [Hf Hb].
  destruct (decode_flags_cases f Hf) as [(flags & Hdec & Henc)|[Hdec _]]; rewrite Hdec; [|right; by eexists].
  cbn [mbind outcome_bind].
  destruct (Z.ltb_spec (1 + len input) (header_len (header_type flags))); [right; by eexists|].
  left. destruct (header_type flags) eqn:Hht; unfold header_len, RNS_HEADER_1_LEN, RNS_HEADER_2_LEN in *.
  - destruct input as [|h input]; [done|]. rewrite len_cons in *.
    destruct (split_at 16 input) as (d & r & -> & Hd); [lia|]. rewrite len_app in *.
    destruct r as [|c data]; [rewrite len_nil in *; lia|].
    rewrite decode_header_1_parts by done. eexists. split; [done|].
    rewrite bytes_ok_cons, bytes_ok_app, bytes_ok_cons in Hb. destruct Hb as (? & ? & ? & ?).
    split_and!; [by constructor | done | lia | by unfold packet_bytes; simpl; rewrite Henc].
  - destruct input as [|h input]; [done|]. rewrite len_cons in *.
    destruct (split_at 16 input) as (t & r & -> & Ht); [lia|]. rewrite len_app in *.
    destruct (split_at 16 r) as (d & r' & -> & Hd); [lia|]. rewrite len_app in *.
    destruct r' as [|c data]; [rewrite len_nil in *; lia|].
    rewrite decode_header_2_parts by done. eexists. split; [done|].
    rewrite bytes_ok_cons, !bytes_ok_app, bytes_ok_cons in Hb. destruct Hb as (? & ? & ? & ? & ?).
    split_and!; [by constructor | done | lia | by unfold packet_bytes; simpl; rewrite Henc].
Qed.

Lemma decode_packet_inv input p :
  bytes_ok input -> decode_packet input = Ok p ->
  packet_ok p /\ header_consistent p /\ len input <= RNS_MTU /\ input = packet_bytes p.
Proof.
  intros Hb H. destruct (decode_packet_cases input Hb) as [(p' & Hp & Hrest)|[e He]]; [|congruence].
  rewrite Hp in H. by simplify_eq.
Qed.

Lemma decode_packet_safe input : bytes_ok input -> decode_packet input <> Panic.
Proof. intros Hb. destruct (decode_packet_cases input Hb) as [(p & -> & _)|[e ->]]; done. Qed.

Lemma encoded_len_spec p :
  packet_ok p -> header_consistent p ->
  encoded_len p =
    if RNS_MTU <? len (packet_bytes p) then
      Err (PacketTooLarge (if len (packet_bytes p) <=? usize_MAX then len (packet_bytes p) else len (rp_data p)) RNS_MTU)
    else Ok (len (packet_bytes p)).
Proof.
  intros Hp Hc. unfold encoded_len, checked_add. rewrite <- packet_bytes_len by done.
  destruct (Z.leb_spec (len (packet_bytes p)) usize_MAX) as [H|H].
  - by rewrite Z.gtb_ltb.
  - by destruct (Z.ltb_spec RNS_MTU (len (packet_bytes p))); [|unfold usize_MAX, RNS_MTU in *; lia].
Qed.

(** The encoder writes the wire format piece by piece. *)
Lemma encode_packet_valid p out :
  packet_ok p -> header_consistent p -> len (packet_bytes p) <= RNS_MTU -> len (packet_bytes p) <= len out ->
  encode_packet p out = (Ok (len (packet_bytes p)), packet_bytes p ++ drop (length (packet_bytes p)) out).
Proof.
  intros Hp Hc Hmax Hout. unfold encode_packet. rewrite encoded_len_spec by done.
  destruct (Z.ltb_spec RNS_MTU (len (packet_bytes p))); [lia|].
  rewrite lift_bind_ok. unfold get at 1, mbind at 1, io_bind at 1. rewrite guard_err_ltb by done.
  destruct Hp as [_ Ht [Hd _] _ _]. unfold header_consistent in Hc. unfold validate_transport_id.
  assert (validate_transport_id p = Ok (rp_transport_id p)) as Hv.
  { unfold validate_transport_id. by destruct (rp_transport_id p); rewrite Hc. }
  unfold validate_transport_id in Hv. rewrite Hv, lift_bind_ok. apply fills_run; [|done].
  set (n := len (packet_bytes p)). clearbody n. rewrite Hc. unfold packet_bytes.
  change ([?a; ?b] ++ ?r) with ([a] ++ [b] ++ r).
  rewrite <- (app_nil_r (default [] _ ++ _)).
  do 2 fills_step. eapply fills_bind; [|apply fills_ret].
  destruct (rp_transport_id p) as [t|]; simpl default in *; simpl from_option in *.
  - destruct Ht as [Ht _]. unfold encode_header_2_packet.
    do 3 fills_step. eapply fills_at; [apply fills_put_slice | len_simpl; lia].
  - rewrite app_nil_l. unfold encode_header_1_packet.
    do 2 fills_step. eapply fills_at; [apply fills_put_slice | len_simpl; lia].
Qed.

(** Encoder: for every packet value, in this order, [encode_packet] rejects
    one over the MTU, a buffer that is too short and a transport id that does
    not fit the header type, leaving the buffer alone each time; otherwise it
    writes the wire format in front of the untouched rest of the buffer, within
    the MTU, and decoding what it wrote gives the packet back. *)
Theorem encode_packet_spec p out :
  packet_ok p -> len (rp_data p) <= usize_MAX - RNS_MTU ->
  let required := header_len (header_type (rp_flags p)) + len (rp_data p) in
  if RNS_MTU <? required then encode_packet p out = (Err (PacketTooLarge required RNS_MTU), out)
  else if len out <? required then encode_packet p out = (Err (OutputBufferTooShort (len out) required), out)
  else match header_type (rp_flags p), rp_transport_id p with
  | Header1, Some _ => encode_packet p out = (Err UnexpectedTransportId, out)
  | Header2, None => encode_packet p out = (Err MissingTransportId, out)
  | _, _ =>
      let v := packet_bytes p in
      encode_packet p out = (Ok (len v), v ++ drop (length v) out) /\ len v = required /\
      decode_packet v = Ok p
  end.
Proof.
  intros Hp Hdata. cbv zeta. set (required := header_len (header_type (rp_flags p)) + len (rp_data p)).
  assert (encoded_len p = if RNS_MTU <? required then Err (PacketTooLarge required RNS_MTU) else Ok required) as Hel.
  { unfold encoded_len, checked_add. fold required.
    destruct (Z.leb_spec required usize_MAX); [by rewrite Z.gtb_ltb|]. unfold required, header_len, RNS_MTU, RNS_HEADER_1_LEN,
      RNS_HEADER_2_LEN in *. destruct (header_type (rp_flags p)); lia. }
  destruct (Z.ltb_spec RNS_MTU required) as [H1|H1]; [unfold encode_packet; by rewrite Hel|].
  destruct (Z.ltb_spec (len out) required) as [H2|H2].
  { unfold encode_packet. rewrite Hel, lift_bind_ok. unfold get at 1, mbind at 1, io_bind at 1.
    by destruct (Z.ltb_spec (len out) required); [|lia]. }
  assert (header_consistent p -> encode_packet p out = (Ok (len (packet_bytes p)), packet_bytes p ++ drop (length (packet_bytes p)) out)
    /\ len (packet_bytes p) = required /\ decode_packet (packet_bytes p) = Ok p) as Hok.
  { intros Hc. pose proof (packet_bytes_len p Hp Hc) as Hl. fold required in Hl.
    split; [apply encode_packet_valid; by rewrite ?Hl|]. split; [done|]. apply decode_packet_bytes; by rewrite ?Hl. }
  assert (forall e, validate_transport_id p = Err e -> encode_packet p out = (Err e, out)) as Hbad.
  { intros e He. unfold encode_packet. rewrite Hel, lift_bind_ok. unfold get at 1, mbind at 1, io_bind at 1.
    rewrite guard_err_ltb by done. by rewrite He. }
  unfold header_consistent, validate_transport_id in *.
  destruct (header_type (rp_flags p)), (rp_transport_id p); auto.
Qed.

(** Decoder: on any byte string [decode_packet] returns without panicking,
    and it accepts exactly the wire formats, within the MTU, of packets whose
    header type and transport id agree: header types, flag bits and lengths
    that are inconsistent are all rejected and no packet has two encodings. *)
Theorem decode_packet_canonical input p :
  bytes_ok input ->
  decode_packet input <> Panic /\
  (decode_packet input = Ok p <->
   packet_ok p /\ header_consistent p /\ len input <= RNS_MTU /\ input = packet_bytes p).
Proof.
  intros Hb. split; [by apply decode_packet_safe|]. split; [by apply decode_packet_inv|].
  intros (Hp & Hc & Hl & ->). by apply decode_packet_bytes.
Qed.

(** ** The hashable part *)
Definition hashable_part (p : RnsPacketRef) : list Z :=
  [Z.land (encode_flags (rp_flags p)) HASHABLE_FLAGS_MASK] ++ rp_destination_hash p ++ [rp_context p] ++ rp_data p.

Lemma hashable_flags f :
  Z.land (encode_flags f) HASHABLE_FLAGS_MASK =
    4 * destination_to_bits (destination_type f) + packet_to_bits (packet_type f).
Proof. by destruct f as [[] [] [] [] []]. Qed.

Lemma write_packet_hashable_spec p out :
  packet_ok p -> header_consistent p -> len (packet_bytes p) <= RNS_MTU -> len (hashable_part p) <= len out ->
  write_packet_hashable_part (packet_bytes p) out =
    (Ok (len (hashable_part p)), hashable_part p ++ drop (length (hashable_part p)) out).
Proof.
  intros Hp Hc Hmax Hout. pose proof (packet_bytes_len p Hp Hc) as Hlen. pose proof (len_nonneg (rp_data p)).
  assert (len (hashable_part p) = 18 + len (rp_data p)) as Hhl.
  { unfold hashable_part. destruct Hp as [_ _ [Hd _] _ _]. len_simpl. lia. }
  unfold write_packet_hashable_part. rewrite decode_packet_bytes, lift_bind_ok by done.
  assert (packet_hashable_len (len (packet_bytes p)) (header_type (rp_flags p)) = len (hashable_part p)) as Hpl.
  { unfold packet_hashable_len. rewrite Hlen, Hhl. unfold header_len, RNS_HEADER_1_LEN, RNS_HEADER_2_LEN,
      RNS_TRUNCATED_HASH_LEN. destruct (header_type (rp_flags p)); lia. }
  rewrite Hpl. unfold get at 1, mbind at 1, io_bind at 1. rewrite guard_err_ltb by done.
  change (index (packet_bytes p) 0) with (Ok (E:=RnsWireError) (encode_flags (rp_flags p))). rewrite lift_bind_ok.
  assert (slice (E:=RnsWireError) (packet_bytes p) (match header_type (rp_flags p) with Header1 => 2 | Header2 => 18 end) (len (packet_bytes p))
    = Ok (rp_destination_hash p ++ [rp_context p] ++ rp_data p)) as Hsl.
  { destruct Hp as [_ Ht [Hd _] _ _]. unfold header_consistent in Hc. rewrite Hc. unfold packet_bytes.
    destruct (rp_transport_id p) as [t|]; simpl in Ht; cbn [default option_rect from_option id].
    - destruct Ht as [Ht _]. rewrite (app_assoc [_; _] t).
      apply slice_tail; [by rewrite len_app, Ht | done].
    - rewrite app_nil_l. by apply slice_tail. }
  apply fills_run; [|done]. set (n := len (hashable_part p)) in *. clearbody n.
  destruct Hp as [_ _ [Hd _] _ _]. unfold hashable_part.
  eapply fills_bind; [apply fills_poke|]. rewrite Hsl, <- (app_nil_r (rp_destination_hash p ++ _)).
  assert (forall (A : Type) (f : list Z -> io (list Z) RnsWireError A) o a v k,
    fills k (f o) a v -> fills k (lift (Ok o) ≫= f) a v) as Hlift by done.
  apply Hlift. rewrite app_nil_r at 1. rewrite to_array_ok by (len_simpl; lia).
  apply Hlift. eapply fills_bind; [eapply fills_at; [apply fills_put_slice | done]|].
  apply fills_ret.
Qed.

Section hash_properties.
Context (sha256 : list Z -> list Z).
Hypothesis sha256_len : forall data, array_ok 32 (sha256 data).

Lemma packet_hash_spec p :
  packet_ok p -> header_consistent p -> len (packet_bytes p) <= RNS_MTU ->
  packet_hash sha256 (packet_bytes p) = Ok (sha256 (hashable_part p)).
Proof.
  intros Hp Hc Hmax. pose proof (packet_bytes_len p Hp Hc) as Hlen. pose proof (len_nonneg (rp_data p)).
  assert (len (hashable_part p) = 18 + len (rp_data p)) as Hhl.
  { unfold hashable_part. destruct Hp as [_ _ [Hd _] _ _]. len_simpl. lia. }
  assert (len (hashable_part p) <= RNS_MTU - 1) as Hfit.
  { unfold header_len, RNS_HEADER_1_LEN, RNS_HEADER_2_LEN, RNS_MTU in *. destruct (header_type (rp_flags p)); lia. }
  unfold packet_hash. rewrite write_packet_hashable_spec; [|done..|by rewrite len_zeros].
  cbn [mbind outcome_bind]. rewrite slice_prefix by (rewrite len_app; pose proof (len_nonneg
    (drop (length (hashable_part p)) (zeros (RNS_MTU - 1)))); lia).
  by rewrite take_len_app.
Qed.

Lemma packet_truncated_hash_spec p :
  packet_ok p -> header_consistent p -> len (packet_bytes p) <= RNS_MTU ->
  packet_truncated_hash sha256 (packet_bytes p) = Ok (take 16 (sha256 (hashable_part p))).
Proof.
  intros Hp Hc Hmax. unfold packet_truncated_hash. rewrite packet_hash_spec by done. cbn [mbind outcome_bind].
  destruct (sha256_len (hashable_part p)) as [Hl _]. rewrite slice_prefix by (rewrite Hl; done). cbn [mbind outcome_bind].
  rewrite to_array_ok; [done|]. rewrite len_take, Hl. done.
Qed.

(** Packet hash: the hash of a packet, full and truncated, exists and is a
    function of its destination type, packet type, destination, context and
    data alone, so relaying (which rewrites hops, header type, transport type
    and transport id) does not change it; and the bytes that are hashed
    determine those five fields. *)
Theorem packet_hash_stable p q :
  packet_ok p -> header_consistent p -> len (packet_bytes p) <= RNS_MTU ->
  packet_ok q -> header_consistent q -> len (packet_bytes q) <= RNS_MTU ->
  let same :=
    destination_type (rp_flags p) = destination_type (rp_flags q) /\
    packet_type (rp_flags p) = packet_type (rp_flags q) /\
    rp_destination_hash p = rp_destination_hash q /\ rp_context p = rp_context q /\ rp_data p = rp_data q in
  packet_hash sha256 (packet_bytes p) = Ok (sha256 (hashable_part p)) /\
  packet_truncated_hash sha256 (packet_bytes p) = Ok (take 16 (sha256 (hashable_part p))) /\
  (hashable_part p = hashable_part q <-> same) /\
  (same -> packet_hash sha256 (packet_bytes p) = packet_hash sha256 (packet_bytes q)).
Proof.
  intros Hp Hcp Hmp Hq Hcq Hmq same.
  assert (hashable_part p = hashable_part q <-> same) as Hsame.
  { unfold same, hashable_part. rewrite !hashable_flags. destruct Hp as [_ _ [Hdp _] _ _], Hq as [_ _ [Hdq _] _ _]. split.
    - intros H. injection H as Hf H. apply app_inv_len in H as [Hd H]; [|lia]. injection H as Hc Hdata.
      destruct (rp_flags p) as [? ? ? [] []], (rp_flags q) as [? ? ? [] []]; simpl in Hf; try lia; by split_and!.
    - intros (-> & -> & -> & -> & ->). done. }
  split; [by apply packet_hash_spec|]. split; [by apply packet_truncated_hash_spec|]. split; [done|].
  intros H. rewrite !packet_hash_spec by done. apply Hsame in H. by rewrite H.
Qed.
End hash_properties.

(** ** Witnesses *)
(** A stand-in digest: any function to 32 bytes will do. *)
Definition toy_digest (data : list Z) : list Z := to_be_bytes 32 (from_be_bytes data).
Lemma toy_digest_len data : array_ok 32 (toy_digest data).
Proof. split; [apply len_to_be_bytes | apply to_be_bytes_ok]. Defined.

Definition sample_packet : RnsPacketRef :=
  mk_rns_packet (mk_flags Header1 false Broadcast Single Data) 0 None (replicate 16 7) 0 [1; 2; 3].
(** The same packet after a transport node relayed it. *)
Definition relayed_packet : RnsPacketRef :=
  mk_rns_packet (mk_flags Header2 false Transport Single Data) 4 (Some (replicate 16 9)) (replicate 16 7) 0 [1; 2; 3].

Lemma sample_packets_ok : packet_ok sample_packet /\ packet_ok relayed_packet.
Proof.
  split; split; simpl; try exact I; try split; try reflexivity;
    try (apply (bool_decide_unpack _); vm_compute; exact I).
Defined.

Lemma encode_packet_spec_witness :
  encode_packet sample_packet (zeros 30) = (Ok 22, packet_bytes sample_packet ++ zeros 8) /\
  decode_packet (packet_bytes sample_packet) = Ok sample_packet.
Proof.
  assert (len (rp_data sample_packet) <= usize_MAX - RNS_MTU) as Hd by (vm_compute; discriminate).
  destruct (encode_packet_spec sample_packet (zeros 30) (proj1 sample_packets_ok) Hd) as (H1 & _ & H3).
  split; [exact H1 | exact H3].
Defined.

Lemma decode_packet_canonical_witness :
  decode_packet (packet_bytes relayed_packet) = Ok relayed_packet.
Proof.
  apply (decode_packet_canonical (packet_bytes relayed_packet) relayed_packet).
  - apply (bool_decide_unpack _). vm_compute. exact I.
  - split; [exact (proj2 sample_packets_ok)|]. split; [reflexivity|]. split; [vm_compute; discriminate | reflexivity].
Defined.

Lemma packet_hash_stable_witness :
  packet_hash toy_digest (packet_bytes sample_packet) = packet_hash toy_digest (packet_bytes relayed_packet).
Proof.
  apply (packet_hash_stable toy_digest toy_digest_len sample_packet relayed_packet).
  - exact (proj1 sample_packets_ok).
  - reflexivity.
  - vm_compute. discriminate.
  - exact (proj2 sample_packets_ok).
  - reflexivity.
  - vm_compute. discriminate.
  - repeat split.
Defined.
