(* ===== verification/RnsCrypto.v ===== *)
(** [hyf_rns_crypto]: padding, key derivation, authenticated tokens, identities,
    signatures and single-packet encryption
    (src/crates/hyf_rns_crypto/src/error.rs, pkcs7.rs, hkdf.rs, token.rs,
    identity.rs, signing.rs, single_packet.rs).

    The primitives are other crates' code (sha2, hmac, hkdf, aes, cbc,
    x25519_dalek, ed25519_dalek): they are the operations of the class
    [RnsPrims], and what their documentation promises is the class
    [RnsPrimsLaws].  The operations here are defined for any [RnsPrims] and the
    theorems are proved for any lawful one. *)
From S2P Require Import Prelude Cursor RnsWire.

Inductive RnsCryptoError :=
| InvalidPublicIdentity
| InvalidSecretIdentity
| InvalidSignature
| EmptyHkdfOutput
| EmptyHkdfInputKeyMaterial
| InvalidHkdfLength
| LengthOverflow
| OutputBufferTooShort (actual required : Z)
| InvalidPadding
| InvalidToken
| InvalidTokenKeyLength (actual : Z)
| AuthenticationFailed
| RandomSourceFailed
| CipherFailed.
#[export] Instance RnsCryptoError_eq_dec : EqDecision RnsCryptoError. Proof. solve_decision. Defined.

(** ** Buffers in place *)
(** [f(&mut out[a..b])]. *)
Definition within {E A} (a b : Z) (m : io (list Z) E A) : io (list Z) E A := fun out =>
  match slice (E:=E) out a b with
  | Ok s => let '(r, s') := m s in (r, take (Z.to_nat a) out ++ s' ++ drop (Z.to_nat b) out)
  | Err e => (Err e, out)
  | Panic => (Panic, out)
  end.

(** [out[a..b].zeroize()]. *)
Definition zeroize (a b : Z) {E} : io (list Z) E unit := within a b (fun s => (Ok tt, zeros (len s))).

(** [match m { Ok(x) => x, Err(error) => { h; return Err(error); } }] *)
Definition on_err {S E A} (m : io S E A) (h : io S E unit) : io S E A := fun s =>
  match m s with
  | (Err e, s') => match h s' with (Ok _, s'') => (Err e, s'') | (Err e', s'') => (Err e', s'') | (Panic, s'') => (Panic, s'') end
  | r => r
  end.

(** [debug_assert_eq!]. *)
Definition debug_assert {E} (b : bool) : outcome E unit := if b then Ok tt else Panic.

(** ** Padding *)
Definition PKCS7_BLOCK_LEN : Z := 16.

Definition pkcs7_padded_len (input_len : Z) : outcome RnsCryptoError Z :=
  let padding_len := PKCS7_BLOCK_LEN - input_len mod PKCS7_BLOCK_LEN in
  ok_or (checked_add input_len padding_len) LengthOverflow.

Definition pkcs7_pad (input : list Z) : io (list Z) RnsCryptoError Z :=
  padded_len ← lift (pkcs7_padded_len (len input));
  out ← get;
  _ ← lift (guard_err (len out <? padded_len) (OutputBufferTooShort (len out) padded_len));
  _ ← put_slice 0 input;
  let padding_len := padded_len - len input in
  _ ← put_slice (len input) (replicate (Z.to_nat padding_len) (as_u8 padding_len));
  mret padded_len.

Definition pkcs7_unpad (input : list Z) : outcome RnsCryptoError (list Z) :=
  if (len input =? 0) || negb (len input mod PKCS7_BLOCK_LEN =? 0) then Err InvalidPadding
  else
    padding_len ← index input (len input - 1);
    if (padding_len =? 0) || (padding_len >? PKCS7_BLOCK_LEN) || (padding_len >? len input) then Err InvalidPadding
    else
      let padding_start := len input - padding_len in
      tail ← slice input padding_start (len input);
      if existsb (fun byte => negb (byte =? padding_len)) tail then Err InvalidPadding
      else slice input 0 padding_start.

(** ** The primitives *)
Inductive TokenKeyKind := Aes128 | Aes256.
#[export] Instance TokenKeyKind_eq_dec : EqDecision TokenKeyKind. Proof. solve_decision. Defined.
Definition aes_key_len (k : TokenKeyKind) : Z := match k with Aes128 => 16 | Aes256 => 32 end.

Class RnsPrims := {
  sha256 : list Z -> list Z;
  (** [Hmac::<Sha256>::new_from_slice(key)?] fed with the message: the tag,
      and the comparison with a given tag; [None]: the key is refused. *)
  hmac_tag : list Z -> list Z -> option (list Z);
  hmac_verify : list Z -> list Z -> list Z -> option bool;
  (** [Hkdf::<Sha256>::new(Some(salt), ikm)] expanded with [info] to [n] bytes. *)
  hkdf_expand : list Z -> list Z -> list Z -> Z -> option (list Z);
  (** CBC without padding, key and iv checked by [new_from_slices]. *)
  cbc_encrypt : TokenKeyKind -> list Z -> list Z -> list Z -> option (list Z);
  cbc_decrypt : TokenKeyKind -> list Z -> list Z -> list Z -> option (list Z);
  x25519_public : list Z -> list Z;
  diffie_hellman : list Z -> list Z -> list Z;
  was_contributory : list Z -> bool;
  ed25519_public : list Z -> list Z;
  (** [VerifyingKey::from_bytes] accepts the bytes. *)
  ed25519_valid : list Z -> bool;
  ed25519_sign : list Z -> list Z -> list Z;
  ed25519_verify : list Z -> list Z -> list Z -> bool;
}.

Class RnsPrimsLaws (P : RnsPrims) : Prop := {
  sha256_len : forall data, array_ok 32 (sha256 data);
  hmac_tag_total : forall key msg, exists tag, hmac_tag key msg = Some tag /\ array_ok 32 tag;
  hmac_verify_tag : forall key msg tag t,
    hmac_tag key msg = Some tag -> hmac_verify key msg t = Some (bool_decide (t = tag));
  hkdf_expand_len : forall salt ikm info n, 0 < n <= 255 * 32 ->
    exists okm, hkdf_expand salt ikm info n = Some okm /\ array_ok n okm;
  cbc_encrypt_total : forall kind key iv p,
    len key = aes_key_len kind -> len iv = 16 -> len p mod 16 = 0 -> bytes_ok p ->
    exists c, cbc_encrypt kind key iv p = Some c /\ array_ok (len p) c;
  cbc_decrypt_total : forall kind key iv c,
    len key = aes_key_len kind -> len iv = 16 -> len c mod 16 = 0 -> bytes_ok c ->
    exists p, cbc_decrypt kind key iv c = Some p /\ array_ok (len c) p;
  cbc_inverse : forall kind key iv p c,
    len key = aes_key_len kind -> len iv = 16 -> len p mod 16 = 0 -> len c = len p -> bytes_ok p -> bytes_ok c ->
    cbc_encrypt kind key iv p = Some c <-> cbc_decrypt kind key iv c = Some p;
  x25519_public_len : forall secret, len secret = 32 -> array_ok 32 (x25519_public secret);
  diffie_hellman_len : forall secret public, array_ok 32 (diffie_hellman secret public);
  diffie_hellman_comm : forall a b, len a = 32 -> len b = 32 ->
    diffie_hellman a (x25519_public b) = diffie_hellman b (x25519_public a);
  ed25519_public_len : forall secret, len secret = 32 -> array_ok 32 (ed25519_public secret);
  ed25519_public_valid : forall secret, len secret = 32 -> ed25519_valid (ed25519_public secret) = true;
  ed25519_sign_len : forall secret msg, len secret = 32 -> array_ok 64 (ed25519_sign secret msg);
  ed25519_verify_sign : forall secret msg, len secret = 32 ->
    ed25519_verify (ed25519_public secret) msg (ed25519_sign secret msg) = true;
}.

(** ** Key derivation *)
Definition RNS_HKDF_DEFAULT_SALT : list Z := zeros 32.

Definition rns_hkdf_sha256 `{RnsPrims} (input_key_material : list Z) (salt context : option (list Z))
    : io (list Z) RnsCryptoError unit :=
  output ← get;
  _ ← lift (guard_err (len output =? 0) EmptyHkdfOutput);
  _ ← lift (guard_err (len input_key_material =? 0) EmptyHkdfInputKeyMaterial);
  let salt := match salt with Some [] | None => RNS_HKDF_DEFAULT_SALT | Some salt => salt end in
  let context := default [] context in
  match hkdf_expand salt input_key_material context (len output) with
  | Some okm => put okm
  | None => lift (Err InvalidHkdfLength)
  end.

(** ** Tokens *)
Definition RNS_TOKEN_IV_LEN : Z := 16.
Definition RNS_TOKEN_HMAC_LEN : Z := 32.
Definition RNS_TOKEN_OVERHEAD : Z := RNS_TOKEN_IV_LEN + RNS_TOKEN_HMAC_LEN.
Definition TOKEN_KEY_32_LEN : Z := 32.
Definition TOKEN_KEY_64_LEN : Z := 64.

Record TokenKeys := mk_token_keys {
  tk_kind : TokenKeyKind;
  tk_key_len : Z;
  tk_signing_key : list Z;
  tk_encryption_key : list Z;
}.

Definition TokenKeys_split (key : list Z) : outcome RnsCryptoError TokenKeys :=
  if len key =? TOKEN_KEY_32_LEN then
    s ← slice key 0 16;
    signing_key ← write_at (zeros 32) 0 s;
    e ← slice key 16 (len key);
    encryption_key ← write_at (zeros 32) 0 e;
    Ok (mk_token_keys Aes128 16 signing_key encryption_key)
  else if len key =? TOKEN_KEY_64_LEN then
    s ← slice key 0 32;
    signing_key ← to_array 32 s;
    e ← slice key 32 (len key);
    encryption_key ← to_array 32 e;
    Ok (mk_token_keys Aes256 32 signing_key encryption_key)
  else Err (InvalidTokenKeyLength (len key)).
Definition signing_key {E} (k : TokenKeys) : outcome E (list Z) := slice (tk_signing_key k) 0 (tk_key_len k).
Definition encryption_key {E} (k : TokenKeys) : outcome E (list Z) := slice (tk_encryption_key k) 0 (tk_key_len k).

Definition token_len_for_ciphertext (ciphertext_len : Z) : outcome RnsCryptoError Z :=
  ok_or (checked_add RNS_TOKEN_OVERHEAD ciphertext_len) LengthOverflow.

Section token.
Context `{RnsPrims}.

(** [encrypt_padded::<NoPadding>(buffer, message_len)] takes the first
    [message_len] bytes of the buffer, here always all of it. *)
Definition encrypt_cbc (keys : TokenKeys) (iv : list Z) (message_len : Z) : io (list Z) RnsCryptoError unit :=
  buffer ← get;
  key ← lift (encryption_key keys);
  message ← lift (slice buffer 0 message_len);
  match cbc_encrypt (tk_kind keys) key iv message with
  | Some c => put_slice 0 c
  | None => lift (Err CipherFailed)
  end.

Definition decrypt_cbc (keys : TokenKeys) (iv : list Z) : io (list Z) RnsCryptoError unit :=
  buffer ← get;
  key ← lift (encryption_key keys);
  match cbc_decrypt (tk_kind keys) key iv buffer with
  | Some p => put p
  | None => lift (Err CipherFailed)
  end.

Definition hmac_sha256 (key message : list Z) : outcome RnsCryptoError (list Z) :=
  tag ← ok_or (hmac_tag key message) CipherFailed;
  to_array RNS_TOKEN_HMAC_LEN tag.

Definition verify_hmac_sha256 (key message tag : list Z) : outcome RnsCryptoError unit :=
  ok ← ok_or (hmac_verify key message tag) CipherFailed;
  guard_err (negb ok) AuthenticationFailed.

Definition token_encrypt_with_iv (key plaintext iv : list Z) : io (list Z) RnsCryptoError Z :=
  keys ← lift (TokenKeys_split key);
  ciphertext_len ← lift (pkcs7_padded_len (len plaintext));
  required ← lift (token_len_for_ciphertext ciphertext_len);
  out ← get;
  _ ← lift (guard_err (len out <? required) (OutputBufferTooShort (len out) required));
  _ ← put_slice 0 iv;
  let ciphertext_start := RNS_TOKEN_IV_LEN in
  let ciphertext_end := ciphertext_start + ciphertext_len in
  padded_len ← within ciphertext_start ciphertext_end (pkcs7_pad plaintext);
  _ ← lift (debug_assert (padded_len =? ciphertext_len));
  _ ← within ciphertext_start ciphertext_end (encrypt_cbc keys iv ciphertext_len);
  out ← get;
  signing_key ← lift (signing_key keys);
  message ← lift (slice out 0 ciphertext_end);
  tag ← lift (hmac_sha256 signing_key message);
  _ ← put_slice ciphertext_end tag;
  mret required.

Definition token_decrypt (key token : list Z) : io (list Z) RnsCryptoError Z :=
  keys ← lift (TokenKeys_split key);
  _ ← lift (guard_err (len token <=? RNS_TOKEN_OVERHEAD) InvalidToken);
  let ciphertext_len := len token - RNS_TOKEN_OVERHEAD in
  _ ← lift (guard_err (negb (ciphertext_len mod RNS_TOKEN_IV_LEN =? 0)) InvalidToken);
  let tag_start := len token - RNS_TOKEN_HMAC_LEN in
  signing_key ← lift (signing_key keys);
  message ← lift (slice token 0 tag_start);
  tag ← lift (slice token tag_start (len token));
  _ ← lift (verify_hmac_sha256 signing_key message tag);
  out ← get;
  _ ← lift (guard_err (len out <? ciphertext_len) (OutputBufferTooShort (len out) ciphertext_len));
  iv ← lift (slice token 0 RNS_TOKEN_IV_LEN);
  ciphertext ← lift (slice token RNS_TOKEN_IV_LEN tag_start);
  _ ← put_slice 0 ciphertext;
  _ ← on_err (within 0 ciphertext_len (decrypt_cbc keys iv)) (zeroize 0 ciphertext_len);
  plaintext_len ←
    on_err (out ← get; padded ← lift (slice out 0 ciphertext_len); plaintext ← lift (pkcs7_unpad padded); mret (len plaintext))
      (zeroize 0 ciphertext_len);
  _ ← zeroize plaintext_len ciphertext_len;
  mret plaintext_len.
End token.

(** ** Randomness
    [rng.try_fill_bytes] on a buffer of [n] bytes: the bytes and the next state
    of the generator, or its error; the generator is the caller's. *)
Class Rng (R : Type) := try_fill_bytes : R -> Z -> option (list Z) * R.
Class RngLaws (R : Type) `{Rng R} : Prop :=
  try_fill_bytes_len r n bs : fst (try_fill_bytes r n) = Some bs -> array_ok n bs.

Section with_rng.
Context `{RnsPrims, Rng R}.
(** The state is the generator and the output buffer. *)
Definition fill_array (n : Z) : io (R * list Z) RnsCryptoError (list Z) := fun '(rng, out) =>
  let '(bs, rng') := try_fill_bytes rng n in (ok_or bs RandomSourceFailed, (rng', out)).
Definition on_out {E A} (m : io (list Z) E A) : io (R * list Z) E A := fun '(rng, out) =>
  let '(r, out') := m out in (r, (rng, out')).
(** [f(rng, &mut out[a..b])]. *)
Definition within_out {E A} (a b : Z) (m : io (R * list Z) E A) : io (R * list Z) E A := fun '(rng, out) =>
  match slice (E:=E) out a b with
  | Ok s => let '(r, (rng', s')) := m (rng, s) in
      (r, (rng', take (Z.to_nat a) out ++ s' ++ drop (Z.to_nat b) out))
  | Err e => (Err e, (rng, out))
  | Panic => (Panic, (rng, out))
  end.

Definition token_encrypt (key plaintext : list Z) : io (R * list Z) RnsCryptoError Z :=
  iv ← fill_array RNS_TOKEN_IV_LEN;
  on_out (token_encrypt_with_iv key plaintext iv).
End with_rng.

(** ** Identities and signatures *)
Definition RNS_PUBLIC_IDENTITY_LEN : Z := 64.
Definition RNS_SECRET_IDENTITY_LEN : Z := 64.
Definition RNS_IDENTITY_KEY_LEN : Z := 32.

Record RnsPublicIdentity := mk_public { pi_x25519_public : list Z; pi_ed25519_public : list Z }.
Record RnsSecretIdentity := mk_secret { si_x25519_secret : list Z; si_ed25519_secret : list Z }.

Section identity.
Context `{RnsPrims}.

Definition public_identity (identity : RnsSecretIdentity) : outcome RnsCryptoError RnsPublicIdentity :=
  Ok (mk_public (x25519_public (si_x25519_secret identity)) (ed25519_public (si_ed25519_secret identity))).

Definition public_identity_from_bytes (bytes : list Z) : outcome RnsCryptoError RnsPublicIdentity :=
  x ← slice bytes 0 RNS_IDENTITY_KEY_LEN;
  x25519_public ← to_array RNS_IDENTITY_KEY_LEN x;
  e ← slice bytes RNS_IDENTITY_KEY_LEN (len bytes);
  ed25519_public ← to_array RNS_IDENTITY_KEY_LEN e;
  _ ← guard_err (negb (ed25519_valid ed25519_public)) InvalidPublicIdentity;
  Ok (mk_public x25519_public ed25519_public).

Definition secret_identity_from_bytes (bytes : list Z) : outcome RnsCryptoError RnsSecretIdentity :=
  x ← slice bytes 0 RNS_IDENTITY_KEY_LEN;
  x25519_secret ← to_array RNS_IDENTITY_KEY_LEN x;
  e ← slice bytes RNS_IDENTITY_KEY_LEN (len bytes);
  ed25519_secret ← to_array RNS_IDENTITY_KEY_LEN e;
  Ok (mk_secret x25519_secret ed25519_secret).

Definition public_identity_to_bytes {E} (identity : RnsPublicIdentity) : outcome E (list Z) :=
  bytes ← write_at (zeros RNS_PUBLIC_IDENTITY_LEN) 0 (pi_x25519_public identity);
  write_at bytes RNS_IDENTITY_KEY_LEN (pi_ed25519_public identity).

Definition identity_hash {E} (identity : RnsPublicIdentity) : outcome E (list Z) :=
  public_identity ← public_identity_to_bytes identity;
  truncated_hash sha256 public_identity.

(** A verifying key is the bytes it was decoded from. *)
Definition ed25519_verifying_key (identity : RnsPublicIdentity) : outcome RnsCryptoError (list Z) :=
  if ed25519_valid (pi_ed25519_public identity) then Ok (pi_ed25519_public identity) else Err InvalidPublicIdentity.

Definition sign (identity : RnsSecretIdentity) (message : list Z) : outcome RnsCryptoError (list Z) :=
  Ok (ed25519_sign (si_ed25519_secret identity) message).

Definition verify (identity : RnsPublicIdentity) (message signature : list Z) : outcome RnsCryptoError unit :=
  verifying_key ← ed25519_verifying_key identity;
  guard_err (negb (ed25519_verify verifying_key message signature)) InvalidSignature.
End identity.

(** ** Single packets *)
Definition RNS_SINGLE_PACKET_EPHEMERAL_PUBLIC_LEN : Z := RNS_IDENTITY_KEY_LEN.
Definition RNS_SINGLE_PACKET_DERIVED_KEY_LEN : Z := 64.

(** The plaintext is a slice of the output buffer, given by its bytes. *)
Record RnsDecryptOutcome := mk_decrypted { do_plaintext : list Z; do_ratchet_index : option Z }.

Definition single_packet_len_for_plaintext (plaintext_len : Z) : outcome RnsCryptoError Z :=
  token_ciphertext_len ← pkcs7_padded_len plaintext_len;
  token_len ← ok_or (checked_add RNS_TOKEN_OVERHEAD token_ciphertext_len) LengthOverflow;
  ok_or (checked_add RNS_SINGLE_PACKET_EPHEMERAL_PUBLIC_LEN token_len) LengthOverflow.

Section single_packet.
Context `{RnsPrims}.

Definition derive_token_key (shared : list Z) (recipient : RnsPublicIdentity) : outcome RnsCryptoError (list Z) :=
  if negb (was_contributory shared) then Err InvalidPublicIdentity
  else
    salt ← identity_hash recipient;
    let '(r, key) := rns_hkdf_sha256 shared (Some salt) None (zeros RNS_SINGLE_PACKET_DERIVED_KEY_LEN) in
    _ ← r; Ok key.

Definition derive_identity_token_key_for_test_vectors (recipient : RnsPublicIdentity) (ephemeral_secret : list Z) : outcome RnsCryptoError (list Z) :=
  let shared := diffie_hellman ephemeral_secret (pi_x25519_public recipient) in
  derive_token_key shared recipient.

Definition parse_ephemeral_public (ciphertext_token : list Z) : outcome RnsCryptoError (list Z) :=
  p ← slice ciphertext_token 0 RNS_SINGLE_PACKET_EPHEMERAL_PUBLIC_LEN;
  to_array RNS_SINGLE_PACKET_EPHEMERAL_PUBLIC_LEN p.

Definition decrypt_with_secret_len (secret : list Z) (recipient : RnsPublicIdentity) (ephemeral_public token : list Z)
    : io (list Z) RnsCryptoError Z :=
  let shared := diffie_hellman secret ephemeral_public in
  key ← lift (derive_token_key shared recipient);
  token_decrypt key token.

(** [RnsDecryptOutcome { plaintext: &out[..plaintext_len], ratchet_index }]. *)
Definition decrypted (plaintext_len : Z) (ratchet_index : option Z) : io (list Z) RnsCryptoError RnsDecryptOutcome :=
  out ← get;
  plaintext ← lift (slice out 0 plaintext_len);
  mret (mk_decrypted plaintext ratchet_index).

(** The loop over the ratchets; [None]: none of them authenticates. *)
Fixpoint try_ratchets (recipient_public : RnsPublicIdentity) (ephemeral_public token : list Z) (index : Z)
    (ratchets : list (list Z)) : io (list Z) RnsCryptoError (option RnsDecryptOutcome) :=
  match ratchets with
  | [] => mret None
  | ratchet :: ratchets' => fun out =>
      match decrypt_with_secret_len ratchet recipient_public ephemeral_public token out with
      | (Ok plaintext_len, out') => (d ← decrypted plaintext_len (Some index); mret (Some d)) out'
      | (Err AuthenticationFailed, out') =>
          try_ratchets recipient_public ephemeral_public token (index + 1) ratchets' out'
      | (Err error, out') => (Err error, out')
      | (Panic, out') => (Panic, out')
      end
  end.

Definition decrypt_for_identity (recipient : RnsSecretIdentity) (ciphertext_token : list Z)
    (ratchets : list (list Z)) (enforce_ratchets : bool) : io (list Z) RnsCryptoError RnsDecryptOutcome :=
  _ ← lift (guard_err (len ciphertext_token <=? RNS_SINGLE_PACKET_EPHEMERAL_PUBLIC_LEN) InvalidToken);
  recipient_public ← lift (public_identity recipient);
  ephemeral_public ← lift (parse_ephemeral_public ciphertext_token);
  token ← lift (slice ciphertext_token RNS_SINGLE_PACKET_EPHEMERAL_PUBLIC_LEN (len ciphertext_token));
  found ← try_ratchets recipient_public ephemeral_public token 0 ratchets;
  match found with
  | Some d => mret d
  | None =>
      _ ← lift (guard_err enforce_ratchets AuthenticationFailed);
      plaintext_len ← decrypt_with_secret_len (si_x25519_secret recipient) recipient_public ephemeral_public token;
      decrypted plaintext_len None
  end.

Context `{Rng R}.

Definition encrypt_with_secret (recipient : RnsPublicIdentity) (plaintext ephemeral_secret : list Z)
    (token_encryptor : list Z -> list Z -> io (R * list Z) RnsCryptoError Z) : io (R * list Z) RnsCryptoError Z :=
  required ← lift (single_packet_len_for_plaintext (len plaintext));
  st ← get;
  let out := snd st in
  _ ← lift (guard_err (len out <? required) (OutputBufferTooShort (len out) required));
  let ephemeral_public := x25519_public ephemeral_secret in
  let shared := diffie_hellman ephemeral_secret (pi_x25519_public recipient) in
  key ← lift (derive_token_key shared recipient);
  _ ← on_out (put_slice 0 ephemeral_public);
  token_len ← within_out RNS_SINGLE_PACKET_EPHEMERAL_PUBLIC_LEN required (token_encryptor key plaintext);
  mret (RNS_SINGLE_PACKET_EPHEMERAL_PUBLIC_LEN + token_len).

Definition encrypt_for_identity (recipient : RnsPublicIdentity) (plaintext : list Z) : io (R * list Z) RnsCryptoError Z :=
  ephemeral_secret ← fill_array RNS_IDENTITY_KEY_LEN;
  encrypt_with_secret recipient plaintext ephemeral_secret token_encrypt.

(** For test vectors: the secret and the initialisation vector are given, and the
    state of the generator is left alone. *)
Definition encrypt_for_identity_with_ephemeral_and_iv (recipient : RnsPublicIdentity) (plaintext ephemeral_secret iv : list Z)
    : io (R * list Z) RnsCryptoError Z :=
  encrypt_with_secret recipient plaintext ephemeral_secret (fun key plaintext => on_out (token_encrypt_with_iv key plaintext iv)).
End single_packet.

(** ** Lemmas: buffers in place *)
Lemma within_app {E A} (m : io (list Z) E A) pre mid rest a b r mid' :
  m mid = (r, mid') -> a = len pre -> b = len pre + len mid ->
  within a b m (pre ++ mid ++ rest) = (r, pre ++ mid' ++ rest).
Proof.
  intros Hm -> ->. unfold within. rewrite slice_app, Hm by done. rewrite take_len_app.
  by rewrite (app_assoc pre mid), <- len_app, drop_len_app.
Qed.

Lemma put_slice_mid {E} pre old rest v i :
  i = len pre -> len old = len v -> put_slice (E:=E) i v (pre ++ old ++ rest) = (Ok tt, pre ++ v ++ rest).
Proof. intros Hi Hl. unfold put_slice. by rewrite write_at_app. Qed.

Lemma put_slice_head {E} old rest v :
  len old = len v -> put_slice (E:=E) 0 v (old ++ rest) = (Ok tt, v ++ rest).
Proof. by apply (put_slice_mid []). Qed.

Lemma put_slice_all {E} old v : len old = len v -> put_slice (E:=E) 0 v old = (Ok tt, v).
Proof.
  intros Hl. pose proof (put_slice_mid (E:=E) [] old [] v 0 eq_refl Hl) as H.
  by rewrite !app_nil_l, !app_nil_r in H.
Qed.

Lemma zeroize_app {E} pre mid rest a b :
  a = len pre -> b = len pre + len mid ->
  zeroize a b (E:=E) (pre ++ mid ++ rest) = (Ok tt, pre ++ zeros (len mid) ++ rest).
Proof. intros Ha Hb. unfold zeroize. by apply within_app. Qed.

(** ** Lemmas: padding *)
Definition padding (n : Z) : Z := PKCS7_BLOCK_LEN - n mod PKCS7_BLOCK_LEN.
Definition padded (p : list Z) : list Z := p ++ replicate (Z.to_nat (padding (len p))) (padding (len p)).

Lemma padding_range n : 1 <= padding n <= 16.
Proof. unfold padding, PKCS7_BLOCK_LEN. pose proof (Z.mod_pos_bound n 16). lia. Qed.

Lemma padded_len p : len (padded p) = len p + padding (len p).
Proof. unfold padded. rewrite len_app, len_replicate. pose proof (padding_range (len p)). lia. Qed.

Lemma padded_block p : len (padded p) mod 16 = 0.
Proof.
  rewrite padded_len. unfold padding, PKCS7_BLOCK_LEN.
  replace (len p + (16 - len p mod 16)) with ((1 + len p / 16) * 16) by (pose proof (Z.div_mod (len p) 16); lia).
  by apply Z.mod_mul.
Qed.

Lemma padded_bytes p : bytes_ok p -> bytes_ok (padded p).
Proof.
  intros Hp. apply bytes_ok_app. split; [done|]. apply Forall_replicate.
  pose proof (padding_range (len p)). unfold u8_ok. lia.
Qed.

Lemma pkcs7_padded_len_spec p : len (padded p) <= usize_MAX -> pkcs7_padded_len (len p) = Ok (len (padded p)).
Proof.
  rewrite padded_len. intros H. unfold pkcs7_padded_len, checked_add. fold (padding (len p)).
  by destruct (Z.leb_spec (len p + padding (len p)) usize_MAX); [|lia].
Qed.

Lemma pkcs7_pad_run p out :
  len (padded p) <= usize_MAX -> len (padded p) <= len out ->
  pkcs7_pad p out = (Ok (len (padded p)), padded p ++ drop (length (padded p)) out).
Proof.
  intros Hmax Hout. unfold pkcs7_pad. rewrite pkcs7_padded_len_spec, lift_bind_ok, get_bind by done.
  rewrite guard_err_ltb by done. rewrite padded_len. replace (len p + padding (len p) - len p) with (padding (len p)) by lia.
  pose proof (padding_range (len p)). unfold as_u8. rewrite Z.mod_small by lia.
  apply fills_run; [|done]. replace (padded p) with (p ++ replicate (Z.to_nat (padding (len p))) (padding (len p)) ++ [])
    by by rewrite app_nil_r.
  eapply fills_bind; [apply fills_put_slice|]. eapply fills_bind; [|apply fills_ret].
  eapply fills_at; [apply fills_put_slice | lia].
Qed.

Lemma existsb_replicate n (x : Z) : existsb (fun b => negb (b =? x)) (replicate n x) = false.
Proof. induction n as [|n IH]; [done|]. simpl. by rewrite Z.eqb_refl. Qed.

Lemma existsb_neq_replicate (l : list Z) x :
  existsb (fun b => negb (b =? x)) l = false -> l = replicate (length l) x.
Proof.
  induction l as [|y l IH]; [done|]. cbn [existsb length replicate].
  rewrite orb_false_iff, negb_false_iff, Z.eqb_eq. intros [-> Hl]. by f_equal; auto.
Qed.

Lemma index_last {E} (l : list Z) x : index (E:=E) (l ++ [x]) (len (l ++ [x]) - 1) = Ok x.
Proof. apply index_app. rewrite len_app, len_cons, (@len_nil Z). lia. Qed.

Lemma pkcs7_unpad_padded p : pkcs7_unpad (padded p) = Ok p.
Proof.
  unfold pkcs7_unpad. rewrite padded_block. pose proof (padding_range (len p)) as Hr. pose proof (len_nonneg p).
  destruct (Z.eqb_spec (len (padded p)) 0) as [H0|_]; [rewrite padded_len in H0; lia|].
  cbn [negb orb Z.eqb].
  assert (index (E:=RnsCryptoError) (padded p) (len (padded p) - 1) = Ok (padding (len p))) as ->.
  { unfold padded. replace (Z.to_nat (padding (len p))) with (S (Z.to_nat (padding (len p)) - 1)) by lia.
    rewrite replicate_S_end, app_assoc. apply index_last. }
  cbn [mbind outcome_bind]. rewrite padded_len. unfold PKCS7_BLOCK_LEN. rewrite !Z.gtb_ltb.
  destruct (Z.eqb_spec (padding (len p)) 0); [lia|]. destruct (Z.ltb_spec 16 (padding (len p))); [lia|].
  destruct (Z.ltb_spec (len p + padding (len p)) (padding (len p))); [lia|]. cbn [orb].
  replace (len p + padding (len p) - padding (len p)) with (len p) by lia. unfold padded.
  rewrite (slice_tail p _ (len p)) by (rewrite ?len_app, ?len_replicate; lia). cbn [mbind outcome_bind].
  rewrite existsb_replicate. by rewrite slice_prefix, take_len_app by (rewrite len_app, len_replicate; lia).
Qed.

(** Every byte string is refused or is the padding of the plaintext. *)
Lemma pkcs7_unpad_cases input :
  bytes_ok input ->
  (exists p, pkcs7_unpad input = Ok p /\ input = padded p) \/ pkcs7_unpad input = Err InvalidPadding.
Proof.
  intros Hb. unfold pkcs7_unpad, PKCS7_BLOCK_LEN. destruct (Z.eqb_spec (len input) 0) as [|H0]; [by right|].
  destruct (Z.eqb_spec (len input mod 16) 0) as [Hm|]; [|by right]. cbn [negb orb]. pose proof (len_nonneg input).
  destruct (index_in_range (E:=RnsCryptoError) input (len input - 1)) as (x & -> & Hx); [lia|]. cbn [mbind outcome_bind].
  assert (u8_ok x) as Hu by (apply list_elem_of_lookup_2 in Hx; by eapply list.Forall_forall in Hx; [|exact Hb]).
  unfold u8_ok in Hu. rewrite !Z.gtb_ltb. destruct (Z.eqb_spec x 0); [by right|]. destruct (Z.ltb_spec 16 x); [by right|].
  destruct (Z.ltb_spec (len input) x); [by right|]. cbn [orb].
  destruct (cut input (len input - x)) as (p & t & -> & Hp & Ht); [lia|].
  rewrite (slice_tail p t (len (p ++ t) - x)) by (rewrite ?len_app in *; lia). cbn [mbind outcome_bind].
  destruct (existsb _ t) eqn:He; [by right|]. left. exists p.
  apply existsb_neq_replicate in He. rewrite len_app in *.
  assert (len t = x) as Htx by lia. assert (x = padding (len p)) as Hxp.
  { unfold padding, PKCS7_BLOCK_LEN. pose proof (Z.mod_pos_bound (len p) 16).
    pose proof (Z.div_mod (len p) 16). pose proof (Z.div_mod (len p + len t) 16).
    assert (len p mod 16 = 16 * ((len p + len t) / 16 - len p / 16) - x) by lia. nia. }
  split.
  - rewrite slice_prefix by (rewrite len_app; lia). f_equal. replace (len p + len t - x) with (len p) by lia.
    by rewrite take_len_app.
  - rewrite He. unfold padded. rewrite <- Hxp. f_equal. f_equal. unfold len in Htx. lia.
Qed.

(** Padding: for every plaintext whose padded length fits [usize],
    [pkcs7_pad] writes the plaintext and one to sixteen bytes that each hold
    the number of bytes added, up to a multiple of the block, or refuses a
    buffer that is too short without touching it; and [pkcs7_unpad] accepts
    exactly such paddings, never panics, and gives the plaintext back. *)
Theorem pkcs7_exact p out input :
  len (padded p) <= usize_MAX -> bytes_ok input ->
  pkcs7_pad p out =
    (if len out <? len (padded p) then (Err (OutputBufferTooShort (len out) (len (padded p))), out)
     else (Ok (len (padded p)), padded p ++ drop (length (padded p)) out)) /\
  len (padded p) mod PKCS7_BLOCK_LEN = 0 /\
  (pkcs7_unpad input = Ok p <-> input = padded p) /\
  (pkcs7_unpad input = Err InvalidPadding <-> forall q, input <> padded q).
Proof.
  intros Hmax Hb. split; [|split; [apply padded_block|]].
  - destruct (Z.ltb_spec (len out) (len (padded p))) as [H|H]; [|by apply pkcs7_pad_run].
    unfold pkcs7_pad. rewrite pkcs7_padded_len_spec, lift_bind_ok, get_bind by done.
    by destruct (Z.ltb_spec (len out) (len (padded p))); [|lia].
  - destruct (pkcs7_unpad_cases input Hb) as [(q & Hq & Hi)|He].
    + split; split; intros H; [congruence|by rewrite H, pkcs7_unpad_padded|congruence|by destruct (H q)].
    + split; split; intros H; [congruence|by rewrite H, pkcs7_unpad_padded in He| |done].
      intros q ->. by rewrite pkcs7_unpad_padded in He.
Qed.

(** ** Token keys *)
Definition token_key_ok (key : list Z) : Prop := len key = 32 \/ len key = 64.
Definition key_kind (key : list Z) : TokenKeyKind := if len key =? 32 then Aes128 else Aes256.
Definition key_half (key : list Z) : nat := Z.to_nat (aes_key_len (key_kind key)).
Definition signing_half (key : list Z) : list Z := take (key_half key) key.
Definition encryption_half (key : list Z) : list Z := drop (key_half key) key.

(** [split] refuses every other length, and the two accessors give the two
    halves of the key back. *)
Lemma TokenKeys_split_ok key :
  token_key_ok key ->
  exists keys, TokenKeys_split key = Ok keys /\ tk_kind keys = key_kind key /\
    (forall E, signing_key (E:=E) keys = Ok (signing_half key)) /\
    (forall E, encryption_key (E:=E) keys = Ok (encryption_half key)).
Proof.
  unfold TokenKeys_split, TOKEN_KEY_32_LEN, TOKEN_KEY_64_LEN, signing_half, encryption_half, key_half, key_kind.
  intros [Hk|Hk]; rewrite Hk; cbn [Z.eqb Pos.eqb aes_key_len].
  - destruct (cut key 16) as (s & e & -> & Hs & He); [lia|]. rewrite len_app in *.
    rewrite (slice_prefix (s ++ e) 16) by (rewrite len_app; lia).
    change (Z.to_nat 16) with (Z.to_nat (16%Z)). rewrite <- Hs, take_len_app, drop_len_app. cbn [mbind outcome_bind].
    rewrite write_at_0 by (rewrite len_zeros; lia). cbn [mbind outcome_bind].
    rewrite (slice_tail s e) by (rewrite ?len_app; lia). cbn [mbind outcome_bind].
    rewrite write_at_0 by (rewrite len_zeros; lia). cbn [mbind outcome_bind]. eexists. split; [done|]. split; [done|].
    unfold signing_key, encryption_key. cbn [tk_signing_key tk_encryption_key tk_key_len].
    split; intros E; rewrite slice_prefix by (rewrite len_app, len_drop, len_zeros by lia; unfold len in *; lia).
    + by rewrite take_len_app.
    + replace (len s) with (len e) by lia. by rewrite take_len_app.
  - destruct (cut key 32) as (s & e & -> & Hs & He); [lia|]. rewrite len_app in *.
    rewrite (slice_prefix (s ++ e) 32) by (rewrite len_app; lia).
    rewrite <- Hs, take_len_app, drop_len_app. cbn [mbind outcome_bind].
    rewrite to_array_ok by lia. cbn [mbind outcome_bind].
    rewrite (slice_tail s e) by (rewrite ?len_app; lia). cbn [mbind outcome_bind].
    rewrite to_array_ok by lia. cbn [mbind outcome_bind]. eexists. split; [done|]. split; [done|].
    unfold signing_key, encryption_key. cbn [tk_signing_key tk_encryption_key tk_key_len].
    split; intros E; rewrite slice_prefix by lia; f_equal; apply take_ge; unfold len in *; lia.
Qed.

Lemma TokenKeys_split_bad key :
  ~ token_key_ok key -> TokenKeys_split key = Err (InvalidTokenKeyLength (len key)).
Proof.
  unfold token_key_ok, TokenKeys_split, TOKEN_KEY_32_LEN, TOKEN_KEY_64_LEN. intros H.
  destruct (Z.eqb_spec (len key) 32); [tauto|]. destruct (Z.eqb_spec (len key) 64); [tauto|]. done.
Qed.

Lemma encryption_half_len key : token_key_ok key -> len (encryption_half key) = aes_key_len (key_kind key).
Proof.
  unfold encryption_half, key_half, key_kind. intros [Hk|Hk]; rewrite len_drop, Hk; done.
Qed.

(** ** Tokens *)
(** [token] is [plaintext] sealed under [key] and [iv]: the iv, the encrypted
    padding of the plaintext, and the tag over both. *)
Definition sealed `{RnsPrims} (key iv plaintext token : list Z) : Prop :=
  exists c tag,
    cbc_encrypt (key_kind key) (encryption_half key) iv (padded plaintext) = Some c /\
    hmac_tag (signing_half key) (iv ++ c) = Some tag /\ token = iv ++ c ++ tag.

Section token_lemmas.
Context `{P : RnsPrims, L : !RnsPrimsLaws P}.

Lemma sealed_exists key iv p :
  token_key_ok key -> len iv = 16 -> bytes_ok p ->
  exists c tag, cbc_encrypt (key_kind key) (encryption_half key) iv (padded p) = Some c /\
    array_ok (len (padded p)) c /\ hmac_tag (signing_half key) (iv ++ c) = Some tag /\ array_ok 32 tag.
Proof.
  intros Hk Hiv Hp.
  destruct (cbc_encrypt_total (key_kind key) (encryption_half key) iv (padded p)) as (c & Hc & Hlc);
    [by apply encryption_half_len | done | apply padded_block | by apply padded_bytes |].
  destruct (hmac_tag_total (signing_half key) (iv ++ c)) as (tag & Ht & Hlt). by exists c, tag.
Qed.

Lemma sealed_len key iv p token :
  token_key_ok key -> len iv = 16 -> bytes_ok p -> sealed key iv p token -> len token = 48 + len (padded p).
Proof.
  intros Hk Hiv Hp (c & tag & Hc & Ht & ->).
  destruct (sealed_exists key iv p Hk Hiv Hp) as (c' & tag' & Hc' & [Hl _] & Ht' & [Hlt _]).
  simplify_eq. rewrite !len_app. lia.
Qed.

Lemma hmac_sha256_ok key msg tag : hmac_tag key msg = Some tag -> hmac_sha256 key msg = Ok tag.
Proof.
  intros H. unfold hmac_sha256. rewrite H. simpl. apply to_array_ok.
  destruct (hmac_tag_total key msg) as (tag' & Ht & [Hl _]). simplify_eq. done.
Qed.

(** Sealing, given the encryption and the tag that the primitives compute. *)
Lemma token_encrypt_run key p iv o1 o2 o3 rest c tag :
  token_key_ok key -> len iv = 16 -> bytes_ok p -> 48 + len (padded p) <= usize_MAX ->
  len o1 = 16 -> len o2 = len (padded p) -> len o3 = 32 ->
  cbc_encrypt (key_kind key) (encryption_half key) iv (padded p) = Some c -> len c = len (padded p) ->
  hmac_tag (signing_half key) (iv ++ c) = Some tag -> len tag = 32 ->
  token_encrypt_with_iv key p iv (o1 ++ o2 ++ o3 ++ rest) =
    (Ok (48 + len (padded p)), iv ++ c ++ tag ++ rest).
Proof.
  intros Hk Hiv Hp Hmax H1 H2 H3 Hc Hlc Ht Hlt.
  destruct (TokenKeys_split_ok key Hk) as (keys & Hks & Hkind & Hsk & Hek).
  unfold token_encrypt_with_iv. rewrite Hks, lift_bind_ok. rewrite pkcs7_padded_len_spec, lift_bind_ok by lia.
  unfold token_len_for_ciphertext, checked_add, RNS_TOKEN_OVERHEAD, RNS_TOKEN_IV_LEN, RNS_TOKEN_HMAC_LEN.
  destruct (Z.leb_spec (16 + 32 + len (padded p)) usize_MAX); [|lia]. simpl ok_or. rewrite lift_bind_ok, get_bind.
  pose proof (len_nonneg rest). rewrite guard_err_ltb by (rewrite !len_app; lia).
  erewrite io_bind_ok by (apply (put_slice_mid [] o1); [done | lia]). rewrite app_nil_l.
  erewrite io_bind_ok.
  2: { apply within_app; [rewrite pkcs7_pad_run by lia; done | lia | lia]. }
  replace (drop (length (padded p)) o2) with (@nil Z) by (symmetry; apply drop_ge; unfold len in *; lia).
  rewrite app_nil_r, Z.eqb_refl. simpl debug_assert. rewrite lift_bind_ok.
  erewrite io_bind_ok.
  2: { apply (within_app (encrypt_cbc keys iv (len (padded p))) iv (padded p) _ _ _ (Ok tt) c); [|lia|lia].
       unfold encrypt_cbc. rewrite get_bind, Hek, lift_bind_ok.
       rewrite slice_prefix by (pose proof (len_nonneg (padded p)); lia). rewrite lift_bind_ok.
       rewrite to_nat_len, firstn_all, Hkind, Hc. apply put_slice_all. lia. }
  rewrite get_bind, Hsk, lift_bind_ok. rewrite (app_assoc iv c).
  rewrite slice_prefix by (rewrite !len_app; pose proof (len_nonneg o3); pose proof (len_nonneg c); lia).
  replace (16 + len (padded p)) with (len (iv ++ c)) by (rewrite len_app; lia). rewrite take_len_app, lift_bind_ok.
  erewrite hmac_sha256_ok, lift_bind_ok by done.
  erewrite io_bind_ok by (apply put_slice_mid; [done | lia]). by rewrite <- app_assoc.
Qed.

Lemma token_encrypt_sealed key p iv out :
  token_key_ok key -> len iv = 16 -> bytes_ok p -> 48 + len (padded p) <= len out -> len out <= usize_MAX ->
  exists token, sealed key iv p token /\ len token = 48 + len (padded p) /\
    token_encrypt_with_iv key p iv out = (Ok (len token), token ++ drop (length token) out).
Proof.
  intros Hk Hiv Hp Hout Hmax. pose proof (len_nonneg (padded p)).
  destruct (sealed_exists key iv p Hk Hiv Hp) as (c & tag & Hc & [Hlc _] & Ht & [Hlt _]).
  assert (len (iv ++ c ++ tag) = 48 + len (padded p)) as Hlen by (rewrite !len_app; lia).
  exists (iv ++ c ++ tag). split; [by exists c, tag|]. split; [done|].
  destruct (cut out 16) as (o1 & r1 & -> & H1 & Hr1); [lia|]. rewrite len_app in *.
  destruct (cut r1 (len (padded p))) as (o2 & r2 & -> & H2 & Hr2); [lia|]. rewrite len_app in *.
  destruct (cut r2 32) as (o3 & rest & -> & H3 & Hr3); [lia|].
  rewrite (token_encrypt_run key p iv o1 o2 o3 rest c tag) by (done || lia). rewrite Hlen. f_equal.
  rewrite (app_assoc o2), (app_assoc o1), drop_app_length'; [by rewrite <- !app_assoc|].
  rewrite !length_app. unfold len in *. lia.
Qed.

Lemma on_err_ok {S E A} (m : io S E A) h s a s' : m s = (Ok a, s') -> on_err m h s = (Ok a, s').
Proof. intros H. unfold on_err. by rewrite H. Qed.

(** Opening a token that has the right shape. *)
Lemma token_decrypt_parts key iv c t tag pd out :
  token_key_ok key -> len iv = 16 -> 0 < len c -> len c mod 16 = 0 -> len t = 32 -> bytes_ok pd ->
  hmac_tag (signing_half key) (iv ++ c) = Some tag ->
  cbc_decrypt (key_kind key) (encryption_half key) iv c = Some pd -> len pd = len c ->
  token_decrypt key (iv ++ c ++ t) out =
    if bool_decide (t = tag) then
      if len out <? len c then (Err (OutputBufferTooShort (len out) (len c)), out)
      else match pkcs7_unpad pd with
      | Ok p => (Ok (len p), p ++ zeros (len c - len p) ++ drop (length c) out)
      | Err e => (Err e, zeros (len c) ++ drop (length c) out)
      | Panic => (Panic, out)
      end
    else (Err AuthenticationFailed, out).
Proof.
  intros Hk Hiv Hc Hm Ht Hpd Htag Hdec Hlpd.
  destruct (TokenKeys_split_ok key Hk) as (keys & Hks & Hkind & Hsk & Hek).
  unfold token_decrypt, RNS_TOKEN_OVERHEAD, RNS_TOKEN_IV_LEN, RNS_TOKEN_HMAC_LEN. rewrite Hks, lift_bind_ok.
  assert (len (iv ++ c ++ t) = 48 + len c) as -> by (rewrite !len_app; lia).
  rewrite guard_false by (apply Z.leb_gt; lia). replace (48 + len c - (16 + 32)) with (len c) by lia.
  rewrite Hm, guard_false, Hsk, lift_bind_ok by done. replace (48 + len c - 32) with (16 + len c) by lia.
  rewrite (app_assoc iv c t), (slice_prefix _ (16 + len c)) by (rewrite !len_app; lia).
  replace (16 + len c) with (len (iv ++ c)) by (rewrite len_app; lia). rewrite take_len_app, lift_bind_ok.
  rewrite (slice_tail (iv ++ c) t (len (iv ++ c)) (48 + len c)) by (rewrite ?len_app; lia). rewrite lift_bind_ok.
  unfold verify_hmac_sha256. rewrite (hmac_verify_tag _ _ _ _ Htag). cbn [ok_or mbind outcome_bind].
  case_bool_decide; [|done]. cbn [negb]. rewrite guard_false, get_bind by done.
  destruct (Z.ltb_spec (len out) (len c)) as [|Hout]; [done|]. rewrite guard_false by done.
  rewrite <- (app_assoc iv), (slice_prefix _ 16) by (rewrite !len_app; lia). rewrite <- Hiv, take_len_app, lift_bind_ok.
  rewrite (slice_app_at iv c t) by (rewrite ?len_app; lia). rewrite lift_bind_ok.
  destruct (cut out (len c)) as (o & rest & -> & Ho & _); [lia|].
  replace (drop (length c) (o ++ rest)) with rest by (rewrite drop_app_length'; [done | unfold len in Ho; lia]).
  erewrite io_bind_ok by (apply (put_slice_mid [] o); [done | lia]). rewrite app_nil_l.
  erewrite io_bind_ok.
  2: { apply on_err_ok, (within_app _ [] c rest _ _ (Ok tt) pd); [|done..].
       unfold decrypt_cbc. by rewrite get_bind, Hek, lift_bind_ok, Hkind, Hdec. }
  rewrite app_nil_l.
  assert (forall A (f : list Z -> io (list Z) RnsCryptoError A),
    (x ← get; padded ← lift (slice x 0 (len c)); f padded) (pd ++ rest) = f pd (pd ++ rest)) as Hget.
  { intros A f. rewrite get_bind, slice_prefix by (rewrite len_app; pose proof (len_nonneg rest); lia).
    rewrite <- Hlpd, take_len_app. done. }
  destruct (pkcs7_unpad_cases pd Hpd) as [(p & Hp & Heq)|He].
  - rewrite Hp. erewrite io_bind_ok.
    2: { apply on_err_ok. rewrite Hget, Hp. done. }
    rewrite Heq, <- Hlpd, Heq, padded_len. unfold padded. rewrite <- app_assoc.
    pose proof (padding_range (len p)).
    erewrite io_bind_ok by (apply zeroize_app; [done | rewrite len_replicate; lia]).
    rewrite len_replicate. replace (len p + padding (len p) - len p) with (padding (len p)) by lia.
    by rewrite Z2Nat.id by lia.
  - rewrite He. apply io_bind_err. unfold on_err at 1. rewrite Hget, He. unfold mbind, io_bind, lift.
    change (pd ++ rest) with ([] ++ pd ++ rest). rewrite (zeroize_app [] pd rest) by done. by rewrite Hlpd.
Qed.

(** Every token that is not refused by its length has that shape. *)
Lemma token_decrypt_short key token out :
  token_key_ok key -> len token <= 48 \/ (len token - 48) mod 16 <> 0 ->
  token_decrypt key token out = (Err InvalidToken, out).
Proof.
  intros Hk H. destruct (TokenKeys_split_ok key Hk) as (keys & Hks & _).
  unfold token_decrypt, RNS_TOKEN_OVERHEAD, RNS_TOKEN_IV_LEN, RNS_TOKEN_HMAC_LEN. rewrite Hks, lift_bind_ok.
  destruct (Z.leb_spec (len token) (16 + 32)); [done|]. rewrite guard_false by done.
  destruct (Z.eqb_spec ((len token - (16 + 32)) mod 16) 0) as [Hm|]; [|done].
  change (16 + 32) with 48 in *. destruct H; [lia | done].
Qed.

Lemma token_decrypt_cases key token out :
  token_key_ok key -> bytes_ok token ->
  let '(r, out') := token_decrypt key token out in
  (exists iv p, r = Ok (len p) /\ array_ok 16 iv /\ bytes_ok p /\ sealed key iv p token /\
     out' = p ++ zeros (padding (len p)) ++ drop (length (padded p)) out /\ len (padded p) <= len out) \/
  (exists e, r = Err e /\ (out' = out \/
     (e = InvalidPadding /\ let n := len token - RNS_TOKEN_OVERHEAD in out' = zeros n ++ drop (Z.to_nat n) out))).
Proof.
  intros Hk Hb.
  destruct (decide (len token <= 48 \/ (len token - 48) mod 16 <> 0)) as [Hs|Hs].
  { rewrite token_decrypt_short by done. right. eauto. }
  destruct (cut token 16) as (iv & r & -> & Hiv & Hr); [lia|].
  destruct (cut r (len r - 32)) as (c & t & -> & Hc & Ht); [lia|]. rewrite !len_app in *.
  apply bytes_ok_app in Hb as [Hbiv [Hbc Hbt]%bytes_ok_app].
  assert (len c mod 16 = 0) as Hm by (replace (len iv + (len c + len t) - 48) with (len c) in Hs by lia; lia).
  destruct (hmac_tag_total (signing_half key) (iv ++ c)) as (tag & Htag & _).
  destruct (cbc_decrypt_total (key_kind key) (encryption_half key) iv c) as (pd & Hpd & [Hlpd Hbpd]);
    [by apply encryption_half_len | done..|].
  rewrite (token_decrypt_parts key iv c t tag pd) by (done || lia).
  case_bool_decide as Htt; [|eauto]. destruct (Z.ltb_spec (len out) (len c)); [eauto|]. subst t.
  destruct (pkcs7_unpad_cases pd Hbpd) as [(p & Hp & ->)|He].
  - rewrite Hp. left. pose proof Hbpd as Hbp. apply bytes_ok_app in Hbp as [Hbp _].
    exists iv, p. split_and!; [done..| | | lia].
    + exists c, tag. split; [|done]. apply cbc_inverse; auto; [by apply encryption_half_len | apply padded_block].
    + f_equal. rewrite padded_len in Hlpd. f_equal; [f_equal; lia|]. f_equal. 
      pose proof (padded_len p). unfold len in *. lia.
  - rewrite He. right. eexists. split; [done|]. right. split; [done|]. cbv zeta.
    replace (len iv + (len c + len tag) - RNS_TOKEN_OVERHEAD) with (len c) by (unfold RNS_TOKEN_OVERHEAD, RNS_TOKEN_IV_LEN, RNS_TOKEN_HMAC_LEN; lia).
    by rewrite to_nat_len.
Qed.

Lemma token_decrypt_sealed key iv p token out :
  token_key_ok key -> len iv = 16 -> bytes_ok p -> sealed key iv p token -> len (padded p) <= len out ->
  token_decrypt key token out = (Ok (len p), p ++ zeros (padding (len p)) ++ drop (length (padded p)) out).
Proof.
  intros Hk Hiv Hp (c & tag & Hc & Ht & ->) Hout.
  destruct (sealed_exists key iv p Hk Hiv Hp) as (c' & tag' & Hc' & [Hlc Hbc] & Ht' & [Hlt _]). simplify_eq.
  pose proof (padding_range (len p)). pose proof (len_nonneg p). pose proof (padded_len p) as Hpl.
  rewrite (token_decrypt_parts key iv c tag tag (padded p)); [|done|done| | |done| |done| |done].
  - rewrite bool_decide_eq_true_2 by done. destruct (Z.ltb_spec (len out) (len c)); [lia|].
    rewrite pkcs7_unpad_padded. replace (len c - len p) with (padding (len p)) by lia.
    by replace (length c) with (length (padded p)) by (unfold len in Hlc; lia).
  - lia.
  - rewrite Hlc. apply padded_block.
  - by apply padded_bytes.
  - apply cbc_inverse; auto; [by apply encryption_half_len | apply padded_block | by apply padded_bytes].
Qed.
End token_lemmas.

(** Token encryption: for every key, plaintext, generator and output
    buffer, [token_encrypt] fails with the generator's error, with the length
    of a key that is neither 32 nor 64 bytes, or with a buffer that is too
    short, each time leaving the buffer alone; otherwise it writes the token
    that seals the plaintext under the fresh iv in front of the untouched rest
    of the buffer and returns its length. *)
Theorem token_encrypt_spec `{P : RnsPrims, L : !RnsPrimsLaws P, G : Rng R, GL : !RngLaws R} key p (rng : R) out :
  bytes_ok p -> len p <= usize_MAX - 64 -> len out <= usize_MAX ->
  let '(bs, rng') := try_fill_bytes rng RNS_TOKEN_IV_LEN in
  let required := RNS_TOKEN_OVERHEAD + len (padded p) in
  match bs with
  | None => token_encrypt key p (rng, out) = (Err RandomSourceFailed, (rng', out))
  | Some iv =>
      if decide (token_key_ok key) then
        if len out <? required then
          token_encrypt key p (rng, out) = (Err (OutputBufferTooShort (len out) required), (rng', out))
        else exists token, sealed key iv p token /\ len token = required /\
          token_encrypt key p (rng, out) = (Ok required, (rng', token ++ drop (length token) out))
      else token_encrypt key p (rng, out) = (Err (InvalidTokenKeyLength (len key)), (rng', out))
  end.
Proof.
  intros Hp Hmax Hout. pose proof (try_fill_bytes_len rng RNS_TOKEN_IV_LEN) as Hrng.
  destruct (try_fill_bytes rng RNS_TOKEN_IV_LEN) as [bs rng'] eqn:Hf. simpl in Hrng.
  pose proof (padded_len p). pose proof (padding_range (len p)). change RNS_TOKEN_OVERHEAD with 48.
  assert (token_encrypt key p (rng, out) =
    match bs with None => (Err RandomSourceFailed, (rng', out)) | Some iv =>
      let '(r, out') := token_encrypt_with_iv key p iv out in (r, (rng', out')) end) as ->.
  { unfold token_encrypt, fill_array. unfold mbind, io_bind. rewrite Hf. by destruct bs. }
  destruct bs as [iv|]; [|done]. destruct (Hrng iv eq_refl) as [Hiv _]. cbv zeta.
  destruct (decide (token_key_ok key)) as [Hk|Hk].
  - destruct (Z.ltb_spec (len out) (48 + len (padded p))) as [Hs|Hs].
    + destruct (TokenKeys_split_ok key Hk) as (keys & Hks & _).
      unfold token_encrypt_with_iv. rewrite Hks, lift_bind_ok, pkcs7_padded_len_spec, lift_bind_ok by lia.
      unfold token_len_for_ciphertext, checked_add. change RNS_TOKEN_OVERHEAD with 48.
      destruct (Z.leb_spec (48 + len (padded p)) usize_MAX); [|lia]. cbn [ok_or]. rewrite lift_bind_ok, get_bind.
      by destruct (Z.ltb_spec (len out) (48 + len (padded p))); [|lia].
    + destruct (token_encrypt_sealed key p iv out) as (token & Hsl & Hl & Hrun); [done..|].
      exists token. split; [done|]. split; [done|]. by rewrite Hrun, Hl.
  - unfold token_encrypt_with_iv. by rewrite TokenKeys_split_bad.
Qed.

(** C12. Token decryption: under a 32- or 64-byte key, [token_decrypt] never
    panics and accepts exactly the tokens that seal some plaintext under that
    key and some iv; it then leaves the plaintext at the start of the buffer
    with the padding wiped and the rest untouched.  When it refuses a token
    the buffer is as before or its ciphertext-sized prefix is all zeros, so no
    unauthenticated plaintext is left behind. *)
Theorem token_decrypt_exact `{P : RnsPrims, L : !RnsPrimsLaws P} key token out :
  token_key_ok key -> bytes_ok token ->
  let '(r, out') := token_decrypt key token out in
  let opens iv p := array_ok 16 iv /\ bytes_ok p /\ sealed key iv p token /\ len (padded p) <= len out in
  r <> Panic /\
  (forall n, r = Ok n <-> exists iv p, opens iv p /\ n = len p) /\
  (forall iv p, opens iv p -> out' = p ++ zeros (padding (len p)) ++ drop (length (padded p)) out) /\
  (forall e, r = Err e ->
     out' = out \/ let n := len token - RNS_TOKEN_OVERHEAD in out' = zeros n ++ drop (Z.to_nat n) out).
Proof.
  intros Hk Hb. pose proof (token_decrypt_cases key token out Hk Hb) as Hcases.
  destruct (token_decrypt key token out) as [r out'] eqn:Hrun. cbv zeta.
  assert (forall iv p, array_ok 16 iv /\ bytes_ok p /\ sealed key iv p token /\ len (padded p) <= len out ->
    r = Ok (len p) /\ out' = p ++ zeros (padding (len p)) ++ drop (length (padded p)) out) as Hopen.
  { intros iv p ([Hiv _] & Hp & Hs & Hl). rewrite (token_decrypt_sealed key iv p token out) in Hrun by done.
    by simplify_eq. }
  split; [by destruct Hcases as [(? & ? & -> & _)|(? & -> & _)]|]. split; [|split].
  - intros n. split; [|by intros (iv & p & H & ->); destruct (Hopen iv p H)].
    intros ->. destruct Hcases as [(iv & p & Hn & Hr)|(? & ? & _)]; [|done].
    exists iv, p. simplify_eq. tauto.
  - intros iv p H. by destruct (Hopen iv p H).
  - intros e ->. destruct Hcases as [(? & ? & ? & _)|(e' & _ & [->|[_ ->]])]; [done|by left|by right].
Qed.

(** ** Identities *)
Definition secret_ok (identity : RnsSecretIdentity) : Prop :=
  array_ok 32 (si_x25519_secret identity) /\ array_ok 32 (si_ed25519_secret identity).
Definition public_ok (identity : RnsPublicIdentity) : Prop :=
  array_ok 32 (pi_x25519_public identity) /\ array_ok 32 (pi_ed25519_public identity).
Definition public_of `{RnsPrims} (identity : RnsSecretIdentity) : RnsPublicIdentity :=
  mk_public (x25519_public (si_x25519_secret identity)) (ed25519_public (si_ed25519_secret identity)).
Definition public_bytes (identity : RnsPublicIdentity) : list Z :=
  pi_x25519_public identity ++ pi_ed25519_public identity.

Lemma public_identity_to_bytes_ok {E} identity :
  public_ok identity -> public_identity_to_bytes (E:=E) identity = Ok (public_bytes identity).
Proof.
  intros [[Hx _] [He _]]. unfold public_identity_to_bytes, public_bytes.
  change (zeros RNS_PUBLIC_IDENTITY_LEN) with (zeros 32 ++ zeros 32).
  rewrite write_at_0 by (rewrite len_app, !len_zeros; lia). cbn [mbind outcome_bind].
  rewrite drop_app_length' by (change (length (zeros 32)) with 32%nat; unfold len in Hx; lia).
  pose proof (write_at_app (E:=E) (pi_x25519_public identity) (pi_ed25519_public identity) (zeros 32) []
    RNS_IDENTITY_KEY_LEN) as H. rewrite !app_nil_r in H. apply H; rewrite ?len_zeros; done.
Qed.

Lemma public_bytes_ok identity : public_ok identity -> array_ok 64 (public_bytes identity).
Proof. intros [[Hx ?] [He ?]]. split; [unfold public_bytes; rewrite len_app; lia | by apply bytes_ok_app]. Qed.

Section identity_lemmas.
Context `{P : RnsPrims, L : !RnsPrimsLaws P}.

Lemma public_of_ok identity : secret_ok identity -> public_ok (public_of identity).
Proof. intros [[Hx _] [He _]]. split; [by apply x25519_public_len | by apply ed25519_public_len]. Qed.

Lemma truncated_hash_ok {E} data : truncated_hash (E:=E) sha256 data = Ok (take 16 (sha256 data)).
Proof.
  unfold truncated_hash, full_hash. destruct (sha256_len data) as [Hl _].
  rewrite slice_prefix by lia. cbn [mbind outcome_bind]. apply to_array_ok. rewrite len_take. lia.
Qed.

Lemma identity_hash_ok {E} identity :
  public_ok identity -> identity_hash (E:=E) identity = Ok (take 16 (sha256 (public_bytes identity))).
Proof.
  intros Hi. unfold identity_hash. rewrite public_identity_to_bytes_ok by done. cbn [mbind outcome_bind].
  apply truncated_hash_ok.
Qed.

Lemma public_identity_from_to x e :
  array_ok 32 x -> array_ok 32 e ->
  public_identity_from_bytes (x ++ e) = if ed25519_valid e then Ok (mk_public x e) else Err InvalidPublicIdentity.
Proof.
  intros [Hx _] [He _]. unfold public_identity_from_bytes, RNS_IDENTITY_KEY_LEN.
  rewrite slice_prefix by (rewrite len_app; lia). rewrite <- Hx, take_len_app. cbn [mbind outcome_bind].
  rewrite to_array_ok by done. cbn [mbind outcome_bind].
  rewrite (slice_tail x e) by done. cbn [mbind outcome_bind]. rewrite to_array_ok by lia. cbn [mbind outcome_bind].
  by destruct (ed25519_valid e).
Qed.

Lemma rns_hkdf_ok ikm salt context out :
  0 < len ikm -> 0 < len out <= 255 * 32 -> 
  exists okm, array_ok (len out) okm /\
    hkdf_expand (match salt with Some [] | None => RNS_HKDF_DEFAULT_SALT | Some s => s end) ikm (default [] context) (len out) = Some okm /\
    rns_hkdf_sha256 ikm salt context out = (Ok tt, okm).
Proof.
  intros Hi Ho. destruct (hkdf_expand_len (match salt with Some [] | None => RNS_HKDF_DEFAULT_SALT | Some s => s end)
    ikm (default [] context) (len out) Ho) as (okm & Hokm & Hl).
  exists okm. split; [done|]. split; [done|]. unfold rns_hkdf_sha256. rewrite get_bind.
  rewrite guard_false by (apply Z.eqb_neq; lia). rewrite guard_false by (apply Z.eqb_neq; lia). by rewrite Hokm.
Qed.

Lemma derive_token_key_cases shared recipient :
  public_ok recipient -> array_ok 32 shared ->
  derive_token_key shared recipient = Err InvalidPublicIdentity \/
  exists key, derive_token_key shared recipient = Ok key /\ array_ok 64 key.
Proof.
  intros Hr [Hs _]. unfold derive_token_key. destruct (was_contributory shared); [|by left]. right. cbn [negb].
  rewrite identity_hash_ok by done. cbn [mbind outcome_bind].
  destruct (rns_hkdf_ok shared (Some (take 16 (sha256 (public_bytes recipient)))) None (zeros RNS_SINGLE_PACKET_DERIVED_KEY_LEN))
    as (okm & Hl & _ & Hrun); [lia|done|]. rewrite Hrun. by exists okm.
Qed.
End identity_lemmas.

(** Identities: encoding a public identity and decoding it is the identity
    on every pair of 32-byte keys whose second is a valid verifying key, every
    other pair is refused, decoding never panics on 64 bytes, and a message
    signed with a secret identity verifies under the public identity that its
    encoded bytes decode to. *)
Theorem identity_roundtrip `{P : RnsPrims, L : !RnsPrimsLaws P} (public : RnsPublicIdentity) (secret : RnsSecretIdentity) message :
  public_ok public -> secret_ok secret ->
  (bytes ← public_identity_to_bytes public; public_identity_from_bytes bytes) =
    (if ed25519_valid (pi_ed25519_public public) then Ok public else Err InvalidPublicIdentity) /\
  (pub ← public_identity secret; bytes ← public_identity_to_bytes pub;
   pub' ← public_identity_from_bytes bytes;
   signature ← sign secret message; verify pub' message signature) = Ok tt.
Proof.
  intros Hp Hs. rewrite public_identity_to_bytes_ok by done. cbn [mbind outcome_bind].
  split; [destruct Hp, public as [x e]; by apply public_identity_from_to|].
  unfold public_identity. fold (public_of secret). cbn [mbind outcome_bind].
  pose proof (public_of_ok secret Hs) as [Hx He]. destruct Hs as [_ [Hse _]].
  rewrite public_identity_to_bytes_ok by done. cbn [mbind outcome_bind].
  unfold public_bytes. rewrite public_identity_from_to by done. unfold public_of. cbn [pi_ed25519_public].
  rewrite ed25519_public_valid by done. cbn [mbind outcome_bind sign].
  unfold verify, ed25519_verifying_key. cbn [pi_ed25519_public]. rewrite ed25519_public_valid by done.
  cbn [mbind outcome_bind]. by rewrite ed25519_verify_sign.
Qed.

(** ** Single packets *)
Lemma within_out_app {R E A} (m : io (R * list Z) E A) rng pre mid rest a b r rng' mid' :
  m (rng, mid) = (r, (rng', mid')) -> a = len pre -> b = len pre + len mid ->
  within_out a b m (rng, pre ++ mid ++ rest) = (r, (rng', pre ++ mid' ++ rest)).
Proof.
  intros Hm -> ->. unfold within_out. rewrite slice_app, Hm by done. rewrite take_len_app.
  by rewrite (app_assoc pre mid), <- len_app, drop_len_app.
Qed.

Lemma single_packet_len_spec p :
  80 + len (padded p) <= usize_MAX ->
  single_packet_len_for_plaintext (len p) = Ok (80 + len (padded p)).
Proof.
  intros Hmax. unfold single_packet_len_for_plaintext, checked_add. rewrite pkcs7_padded_len_spec by lia.
  cbn [mbind outcome_bind]. change RNS_TOKEN_OVERHEAD with 48. change RNS_SINGLE_PACKET_EPHEMERAL_PUBLIC_LEN with 32.
  destruct (Z.leb_spec (48 + len (padded p)) usize_MAX); [|lia]. cbn [ok_or mbind outcome_bind].
  destruct (Z.leb_spec (32 + (48 + len (padded p))) usize_MAX); [|lia]. cbn [ok_or]. f_equal. lia.
Qed.

Section single_packet_lemmas.
Context `{P : RnsPrims, L : !RnsPrimsLaws P}.

(** A ratchet does not open the token: its key is another one, and the tag is
    not the one that key gives. *)
Definition ratchet_fails (recipient_public : RnsPublicIdentity) (ephemeral_public token ratchet : list Z) : Prop :=
  exists key tag, derive_token_key (diffie_hellman ratchet ephemeral_public) recipient_public = Ok key /\
    hmac_tag (signing_half key) (take (length token - 32) token) = Some tag /\
    drop (length token - 32) token <> tag.

Lemma token_decrypt_unauthentic key iv c t tag out :
  token_key_ok key -> len iv = 16 -> 0 < len c -> len c mod 16 = 0 -> len t = 32 -> bytes_ok c ->
  hmac_tag (signing_half key) (iv ++ c) = Some tag -> t <> tag ->
  token_decrypt key (iv ++ c ++ t) out = (Err AuthenticationFailed, out).
Proof.
  intros Hk Hiv Hc Hm Ht Hb Htag Hne.
  destruct (cbc_decrypt_total (key_kind key) (encryption_half key) iv c) as (pd & Hpd & [Hl Hbp]);
    [by apply encryption_half_len | done..|].
  rewrite (token_decrypt_parts key iv c t tag pd) by done. by rewrite bool_decide_eq_false_2.
Qed.

Lemma decrypt_ratchet_fails recipient ephemeral_public iv c t ratchet out :
  public_ok recipient -> len iv = 16 -> 0 < len c -> len c mod 16 = 0 -> len t = 32 -> bytes_ok c ->
  ratchet_fails recipient ephemeral_public (iv ++ c ++ t) ratchet ->
  decrypt_with_secret_len ratchet recipient ephemeral_public (iv ++ c ++ t) out = (Err AuthenticationFailed, out).
Proof.
  intros Hr Hiv Hc Hm Ht Hb (key & tag & Hkey & Htag & Hne). unfold decrypt_with_secret_len. rewrite Hkey, lift_bind_ok.
  assert (length (iv ++ c ++ t) - 32 = length (iv ++ c))%nat as Hn by (rewrite !length_app; unfold len in *; lia).
  rewrite Hn, (app_assoc iv) in Htag, Hne. rewrite take_app_length in Htag. rewrite drop_app_length in Hne.
  apply (token_decrypt_unauthentic key iv c t tag); try done.
  destruct (derive_token_key_cases (diffie_hellman ratchet ephemeral_public) recipient) as [He|(k & He & [Hl _])];
    [done | apply diffie_hellman_len | congruence |]. right. congruence.
Qed.

Lemma try_ratchets_all_fail recipient ephemeral_public token ratchets i out :
  Forall (fun r => forall o, decrypt_with_secret_len r recipient ephemeral_public token o = (Err AuthenticationFailed, o)) ratchets ->
  try_ratchets recipient ephemeral_public token i ratchets out = (Ok None, out).
Proof.
  intros H. revert i. induction H as [|r ratchets Hr _ IH]; intros i; [done|]. cbn [try_ratchets]. rewrite Hr. apply IH.
Qed.

Lemma decrypt_for_identity_parts secret ephemeral_public token ratchets enforce out :
  secret_ok secret -> len ephemeral_public = 32 -> 0 < len token ->
  Forall (fun r => forall o, decrypt_with_secret_len r (public_of secret) ephemeral_public token o = (Err AuthenticationFailed, o)) ratchets ->
  decrypt_for_identity secret (ephemeral_public ++ token) ratchets enforce out =
    (if enforce then (Err AuthenticationFailed, out)
     else (n ← decrypt_with_secret_len (si_x25519_secret secret) (public_of secret) ephemeral_public token;
           decrypted n None) out).
Proof.
  intros Hs He Ht Hr. unfold decrypt_for_identity, RNS_SINGLE_PACKET_EPHEMERAL_PUBLIC_LEN, RNS_IDENTITY_KEY_LEN.
  rewrite guard_false by (apply Z.leb_gt; rewrite len_app; lia). unfold public_identity. fold (public_of secret).
  rewrite lift_bind_ok. unfold parse_ephemeral_public, RNS_SINGLE_PACKET_EPHEMERAL_PUBLIC_LEN, RNS_IDENTITY_KEY_LEN.
  rewrite slice_prefix by (rewrite len_app; lia).
  rewrite <- He, take_len_app. cbn [mbind outcome_bind]. rewrite to_array_ok, lift_bind_ok by done.
  rewrite (slice_tail ephemeral_public token), lift_bind_ok by done.
  erewrite io_bind_ok by (by apply try_ratchets_all_fail). by destruct enforce.
Qed.

(** Encryption, given the ephemeral secret, and an encryptor of tokens that uses [iv]. *)
Lemma encrypt_with_secret_run {R} recipient p (rng rng2 : R) eph iv key enc out :
  bytes_ok p -> len eph = 32 -> len iv = 16 -> 80 + len (padded p) <= len out -> len out <= usize_MAX ->
  derive_token_key (diffie_hellman eph (pi_x25519_public recipient)) recipient = Ok key -> len key = 64 ->
  (forall mid, enc key p (rng, mid) = let '(r, mid') := token_encrypt_with_iv key p iv mid in (r, (rng2, mid'))) ->
  exists token, sealed key iv p token /\ len token = 48 + len (padded p) /\
    encrypt_with_secret recipient p eph enc (rng, out) =
      (Ok (32 + len token), (rng2, (x25519_public eph ++ token) ++ drop (Z.to_nat (32 + len token)) out)).
Proof.
  intros Hp Hle Hiv Hout Hmax Hkey Hlk Henc. pose proof (len_nonneg (padded p)) as Hpp.
  destruct (cut out 32) as (o & r & -> & Ho & Hlr); [lia|]. rewrite len_app in *.
  destruct (cut r (48 + len (padded p))) as (mid & rest & -> & Hmid & _); [lia|]. rewrite len_app in *.
  pose proof (len_nonneg rest).
  destruct (token_encrypt_sealed key p iv mid) as (token & Hsealed & Hlt & Hrun); [by right|done|done|lia|lia|].
  exists token. split; [done|]. split; [done|]. unfold encrypt_with_secret.
  rewrite single_packet_len_spec, lift_bind_ok, get_bind by lia. cbn [snd].
  rewrite guard_err_ltb by (rewrite !len_app; lia). rewrite Hkey, lift_bind_ok.
  assert (len (x25519_public eph) = 32) as Hlx by (apply x25519_public_len; done).
  erewrite io_bind_ok.
  2: { unfold on_out. rewrite (put_slice_head o) by (done || lia). done. }
  erewrite io_bind_ok.
  2: { apply within_out_app; [|by rewrite Hlx|unfold RNS_SINGLE_PACKET_EPHEMERAL_PUBLIC_LEN, RNS_IDENTITY_KEY_LEN; rewrite Hlx; lia].
       rewrite Henc, Hrun. done. }
  rewrite drop_ge, app_nil_r by (unfold len in *; lia). unfold mret, io_ret. do 2 f_equal.
  rewrite <- app_assoc. do 2 f_equal. rewrite app_assoc, drop_app_length'; [done|].
  rewrite length_app. unfold len in *. lia.
Qed.

(** Encryption, given the two random draws. *)
Lemma encrypt_for_identity_run `{G : Rng R, GL : !RngLaws R} recipient p (rng rng1 rng2 : R) eph iv key out :
  bytes_ok p -> 80 + len (padded p) <= len out -> len out <= usize_MAX ->
  try_fill_bytes rng 32 = (Some eph, rng1) -> try_fill_bytes rng1 16 = (Some iv, rng2) ->
  derive_token_key (diffie_hellman eph (pi_x25519_public recipient)) recipient = Ok key -> len key = 64 ->
  exists token, sealed key iv p token /\ len token = 48 + len (padded p) /\
    encrypt_for_identity recipient p (rng, out) =
      (Ok (32 + len token), (rng2, (x25519_public eph ++ token) ++ drop (Z.to_nat (32 + len token)) out)).
Proof.
  intros Hp Hout Hmax Hf1 Hf2 Hkey Hlk.
  destruct (encrypt_with_secret_run recipient p rng1 rng2 eph iv key token_encrypt out) as (token & Hs & Hl & Hrun); try done.
  - apply (try_fill_bytes_len rng 32). by rewrite Hf1.
  - apply (try_fill_bytes_len rng1 16). by rewrite Hf2.
  - intros mid. unfold token_encrypt, fill_array, RNS_TOKEN_IV_LEN. erewrite io_bind_ok by (rewrite Hf2; done). done.
  - exists token. split_and!; [done..|]. unfold encrypt_for_identity, fill_array, RNS_IDENTITY_KEY_LEN.
    erewrite io_bind_ok by (rewrite Hf1; done). exact Hrun.
Qed.

(** A contributory secret gives a key of 64 bytes. *)
Lemma derive_token_key_ok shared recipient : public_ok recipient -> array_ok 32 shared -> was_contributory shared = true ->
  exists key, derive_token_key shared recipient = Ok key /\ array_ok 64 key.
Proof.
  intros Hr Hs Hc. destruct (derive_token_key_cases shared recipient Hr Hs) as [He|H]; [|done]. unfold derive_token_key in He. rewrite Hc in He. cbn [negb] in He.
  rewrite identity_hash_ok in He by done. cbn [mbind outcome_bind] in He.
  destruct (rns_hkdf_ok shared (Some (take 16 (sha256 (public_bytes recipient)))) None (zeros RNS_SINGLE_PACKET_DERIVED_KEY_LEN)) as (okm & _ & _ & Hrun); [destruct Hs; lia|done|].
  by rewrite Hrun in He.
Qed.

(** The recipient opens what was sealed with the key both sides derive. *)
Lemma open_sealed_packet secret eph iv key p token out : secret_ok secret -> len eph = 32 -> len iv = 16 -> bytes_ok p ->
  derive_token_key (diffie_hellman eph (pi_x25519_public (public_of secret))) (public_of secret) = Ok key -> len key = 64 ->
  sealed key iv p token -> len (padded p) <= len out ->
  fst ((n ← decrypt_with_secret_len (si_x25519_secret secret) (public_of secret) (x25519_public eph) token; decrypted n None) out) = Ok (mk_decrypted p None).
Proof.
  intros [[Hsx _] _] Hle Hiv Hp Hkey Hlk Hsl Hout. unfold decrypt_with_secret_len. unfold public_of in Hkey at 1. cbn [pi_x25519_public] in Hkey.
  rewrite diffie_hellman_comm in Hkey by done. rewrite Hkey.
  change ((lift (Ok key) ≫= (fun key0 => token_decrypt key0 token)) ≫= fun n => decrypted n None)
    with (token_decrypt key token ≫= fun n => decrypted n None).
  erewrite io_bind_ok by (apply (token_decrypt_sealed key iv p); [by right|done..]).
  unfold decrypted. rewrite get_bind, slice_prefix by (rewrite len_app; pose proof (len_nonneg p);
    pose proof (len_nonneg (zeros (padding (len p)) ++ drop (length (padded p)) out)); lia).
  by rewrite take_len_app.
Qed.
End single_packet_lemmas.

(** C17. Single packets: when the generator delivers and the shared secret is
    contributory, encrypting for the public identity of a secret one succeeds
    in every buffer that is long enough, and decrypting the result with that
    secret identity gives the plaintext back, whatever ratchets are tried
    first as long as none of them authenticates the token; if ratchets are
    enforced it is refused instead and the output buffer is untouched. *)
Theorem single_packet_roundtrip `{P : RnsPrims, L : !RnsPrimsLaws P, G : Rng R, GL : !RngLaws R}
    secret p (rng rng1 rng2 : R) eph iv out out2 ratchets :
  secret_ok secret -> bytes_ok p -> 80 + len (padded p) <= len out -> len out <= usize_MAX -> len (padded p) <= len out2 ->
  try_fill_bytes rng 32 = (Some eph, rng1) -> try_fill_bytes rng1 16 = (Some iv, rng2) ->
  was_contributory (diffie_hellman eph (pi_x25519_public (public_of secret))) = true ->
  exists packet, len packet = 80 + len (padded p) /\
    encrypt_for_identity (public_of secret) p (rng, out) =
      (Ok (len packet), (rng2, packet ++ drop (Z.to_nat (len packet)) out)) /\
    (Forall (ratchet_fails (public_of secret) (x25519_public eph) (drop 32 packet)) ratchets ->
     fst (decrypt_for_identity secret packet ratchets false out2) = Ok (mk_decrypted p None) /\
     decrypt_for_identity secret packet ratchets true out2 = (Err AuthenticationFailed, out2)).
Proof.
  intros Hs Hp Hout Hmax Hout2 Hf1 Hf2 Hc. pose proof (public_of_ok secret Hs) as Hpub.
  destruct (derive_token_key_ok _ _ Hpub (diffie_hellman_len _ _) Hc) as (key & Hkey & [Hlk Hbk]).
  destruct (encrypt_for_identity_run (public_of secret) p rng rng1 rng2 eph iv key out) as (token & Hsl & Hlt & Hrun); [done..|].
  assert (len eph = 32) as Hle by (apply (try_fill_bytes_len rng 32); by rewrite Hf1).
  assert (len iv = 16) as Hiv by (apply (try_fill_bytes_len rng1 16); by rewrite Hf2).
  assert (len (x25519_public eph) = 32) as Hlx by (apply x25519_public_len; done).
  assert (0 < len token) by (pose proof (len_nonneg (padded p)); lia).
  exists (x25519_public eph ++ token). rewrite len_app, Hlx. split; [lia|]. split; [done|].
  rewrite drop_app_length' by (unfold len in Hlx; lia). intros Hrf.
  assert (Forall (fun r => forall o, decrypt_with_secret_len r (public_of secret) (x25519_public eph) token o =
    (Err AuthenticationFailed, o)) ratchets) as Hfail.
  { eapply list.Forall_impl; [exact Hrf|]. intros r Hr o. destruct Hsl as (c & tag & Hcb & Htag & ->).
    destruct (sealed_exists key iv p) as (c' & tag' & Hc' & [Hlc Hbc] & Ht' & [Hltag _]); [by right|done|done|]. simplify_eq.
    apply decrypt_ratchet_fails; [done|done| | |done|done|done].
    - pose proof (padded_len p). pose proof (padding_range (len p)). pose proof (len_nonneg p). lia.
    - rewrite Hlc. apply padded_block. }
  rewrite !decrypt_for_identity_parts by done. split; [|done].
  by apply (open_sealed_packet secret eph iv key p token out2).
Qed.

(** ** Witnesses *)
(** Stand-in primitives that satisfy the laws. *)
Definition toy_prims : RnsPrims := {|
  sha256 := toy_digest;
  hmac_tag key msg := Some (toy_digest (key ++ msg));
  hmac_verify key msg t := Some (bool_decide (t = toy_digest (key ++ msg)));
  hkdf_expand salt ikm info n :=
    if n <=? 255 * 32 then Some (to_be_bytes (Z.to_nat n) (from_be_bytes (salt ++ ikm ++ info))) else None;
  cbc_encrypt _ _ _ p := Some (rev p);
  cbc_decrypt _ _ _ c := Some (rev c);
  x25519_public := toy_digest;
  diffie_hellman a b := to_be_bytes 32 (from_be_bytes (toy_digest a) * from_be_bytes (toy_digest b));
  was_contributory shared := negb (from_be_bytes shared =? 0);
  ed25519_public := toy_digest;
  ed25519_valid _ := true;
  ed25519_sign secret msg := toy_digest msg ++ toy_digest secret;
  ed25519_verify public msg signature := bool_decide (signature = toy_digest msg ++ public);
|}.

Lemma toy_digest_idem data : toy_digest (toy_digest data) = toy_digest data.
Proof.
  destruct (toy_digest_len data) as [Hl Hb]. unfold toy_digest at 1. by apply to_from_be_bytes_n.
Defined.

Lemma array_ok_rev l n : len l = n -> bytes_ok l -> array_ok n (rev l).
Proof.
  intros Hl Hb. split; [unfold len in *; by rewrite length_rev|].
  unfold bytes_ok. by apply List.Forall_rev.
Defined.

Lemma toy_prims_laws : RnsPrimsLaws toy_prims.
Proof.
  split; simpl.
  - apply toy_digest_len.
  - intros key msg. eexists. split; [done | apply toy_digest_len].
  - intros key msg tag t [= <-]. done.
  - intros salt ikm info n Hn. destruct (Z.leb_spec n (255 * 32)); [|lia]. eexists. split; [done|].
    split; [rewrite len_to_be_bytes; lia | apply to_be_bytes_ok].
  - intros kind key iv p _ _ _ Hp. eexists. split; [done | by apply array_ok_rev].
  - intros kind key iv c _ _ _ Hc. eexists. split; [done | by apply array_ok_rev].
  - intros kind key iv p c _ _ _ _ _ _. split; intros [= <-]; by rewrite List.rev_involutive.
  - intros secret _. apply toy_digest_len.
  - intros secret public. split; [apply len_to_be_bytes | apply to_be_bytes_ok].
  - intros a b _ _. by rewrite !toy_digest_idem, Z.mul_comm.
  - intros secret _. apply toy_digest_len.
  - done.
  - intros secret msg _. change (array_ok 64 (toy_digest msg ++ toy_digest secret)).
    destruct (toy_digest_len msg) as [H1 ?], (toy_digest_len secret) as [H2 ?].
    split; [rewrite len_app; lia | by apply bytes_ok_app].
  - intros secret msg _. by apply bool_decide_eq_true_2.
Defined.

(** A generator that counts. *)
Definition toy_rng : Rng Z := fun r n =>
  (if n <? 0 then None else Some (replicate (Z.to_nat n) (r mod 256)), r + 1).
Lemma toy_rng_laws : @RngLaws Z toy_rng.
Proof.
  intros r n bs. unfold try_fill_bytes, toy_rng. simpl. destruct (Z.ltb_spec n 0); [done|]. intros [= <-].
  split; [rewrite len_replicate; lia|]. apply Forall_replicate. unfold u8_ok. apply Z.mod_pos_bound. lia.
Defined.

Definition sample_key : list Z := replicate 64 5.
Definition sample_iv : list Z := replicate 16 9.
Definition sample_token : list Z :=
  let c := rev (padded [1; 2; 3]) in
  sample_iv ++ c ++ toy_digest (replicate 32 5 ++ sample_iv ++ c).
Definition sample_secret : RnsSecretIdentity := mk_secret (replicate 32 3) (replicate 32 4).

Lemma sample_secret_ok : secret_ok sample_secret.
Proof. split; split; try reflexivity; apply (bool_decide_unpack _); vm_compute; exact I. Defined.

Lemma pkcs7_exact_witness :
  pkcs7_unpad (padded [1; 2; 3]) = Ok [1; 2; 3] /\
  (pkcs7_unpad [1; 2; 3] = Err InvalidPadding <-> forall q, [1; 2; 3] <> padded q).
Proof.
  assert (forall l, bytes_ok l -> len (padded [1; 2; 3]) <= usize_MAX /\ bytes_ok l) as H.
  { intros l Hl. split; [vm_compute; discriminate | exact Hl]. }
  split.
  - apply (pkcs7_exact [1; 2; 3] [] (padded [1; 2; 3])); [apply (H []); constructor| |reflexivity].
    apply (bool_decide_unpack _). vm_compute. exact I.
  - apply (pkcs7_exact [1; 2; 3] [] [1; 2; 3]); [apply (H []); constructor|].
    apply (bool_decide_unpack _). vm_compute. exact I.
Defined.

Lemma token_encrypt_spec_witness :
  exists token, @sealed toy_prims sample_key sample_iv [1; 2; 3] token /\ len token = 64 /\
    @token_encrypt toy_prims Z toy_rng sample_key [1; 2; 3] (9, zeros 70) = (Ok 64, (10, token ++ zeros 6)).
Proof.
  assert (bytes_ok [1; 2; 3]) as H1 by (apply (bool_decide_unpack _); vm_compute; exact I).
  assert (len [1; 2; 3] <= usize_MAX - 64) as H2 by (vm_compute; discriminate).
  assert (len (zeros 70) <= usize_MAX) as H3 by (vm_compute; discriminate).
  pose proof (@token_encrypt_spec toy_prims toy_prims_laws Z toy_rng toy_rng_laws sample_key [1; 2; 3] 9 (zeros 70) H1 H2 H3) as H.
  change (try_fill_bytes 9 RNS_TOKEN_IV_LEN) with (Some sample_iv, 10) in H. cbv beta iota zeta in H.
  destruct (decide (token_key_ok sample_key)) as [_|Hn] in H; [|destruct Hn; right; reflexivity].
  change (len (zeros 70) <? RNS_TOKEN_OVERHEAD + len (padded [1; 2; 3])) with false in H. cbv iota in H.
  destruct H as (token & Hs & Hl & Hr). change (RNS_TOKEN_OVERHEAD + len (padded [1; 2; 3])) with 64 in Hl, Hr.
  exists token. split; [exact Hs|]. split; [exact Hl|]. rewrite Hr.
  replace (length token) with 64%nat by (unfold len in Hl; lia). reflexivity.
Defined.

Lemma token_decrypt_exact_witness :
  fst (@token_decrypt toy_prims sample_key sample_token (zeros 20)) = Ok 3.
Proof.
  assert (bytes_ok sample_token) as Hb by (apply (bool_decide_unpack _); vm_compute; exact I).
  pose proof (@token_decrypt_exact toy_prims toy_prims_laws sample_key sample_token (zeros 20) (or_intror eq_refl) Hb) as H.
  destruct (@token_decrypt toy_prims sample_key sample_token (zeros 20)) as [r out']. simpl fst.
  destruct H as (_ & H & _). apply H. exists sample_iv, [1; 2; 3]. split; [|reflexivity].
  split; [|split; [|split]].
  - split; [reflexivity | apply (bool_decide_unpack _); vm_compute; exact I].
  - apply (bool_decide_unpack _). vm_compute. exact I.
  - eexists _, _. split; [reflexivity|]. split; [reflexivity|]. vm_compute. reflexivity.
  - vm_compute. discriminate.
Defined.

Lemma identity_roundtrip_witness :
  @public_identity_from_bytes toy_prims (replicate 64 7) = Ok (mk_public (replicate 32 7) (replicate 32 7)).
Proof.
  assert (public_ok (mk_public (replicate 32 7) (replicate 32 7))) as Hp.
  { split; split; try reflexivity; apply (bool_decide_unpack _); vm_compute; exact I. }
  exact (proj1 (@identity_roundtrip toy_prims toy_prims_laws _ sample_secret [] Hp sample_secret_ok)).
Defined.

Lemma single_packet_roundtrip_witness :
  exists packet, fst (@decrypt_for_identity toy_prims sample_secret packet [] false (zeros 16)) = Ok (mk_decrypted [1; 2; 3] None).
Proof.
  assert (bytes_ok [1; 2; 3]) as H1 by (apply (bool_decide_unpack _); vm_compute; exact I).
  assert (80 + len (padded [1; 2; 3]) <= len (zeros 100)) as H2 by (vm_compute; discriminate).
  assert (len (zeros 100) <= usize_MAX) as H3 by (vm_compute; discriminate).
  assert (len (padded [1; 2; 3]) <= len (zeros 16)) as H4 by (vm_compute; discriminate).
  assert (@was_contributory toy_prims (@diffie_hellman toy_prims (replicate 32 1) (pi_x25519_public (@public_of toy_prims sample_secret))) = true) as H5
    by (vm_compute; reflexivity).
  destruct (@single_packet_roundtrip toy_prims toy_prims_laws Z toy_rng toy_rng_laws sample_secret [1; 2; 3] 1 2 3
    (replicate 32 1) (replicate 16 2) (zeros 100) (zeros 16) [] sample_secret_ok H1 H2 H3 H4 eq_refl eq_refl H5)
    as (packet & _ & _ & Hd).
  exists packet. exact (proj1 (Hd (Forall_nil_2 _))).
Defined.
