(* ===== verification/RnsAnnounce.v ===== *)
(** Announces (src/crates/hyf_rns_wire/src/announce.rs): an identity publishes
    its keys, the hash of a destination name and application data, signed; a
    receiver checks that the destination hash belongs to that identity and
    that the signature covers everything.

    The generator, the clock and the primitives are the parameters of
    [RnsCrypto]. *)
From S2P Require Import Prelude Cursor RnsWire RnsCrypto.

Definition RNS_ANNOUNCE_RANDOM_HASH_LEN : Z := 10.
Definition RNS_ANNOUNCE_RATCHET_LEN : Z := 32.
Definition RNS_ANNOUNCE_SIGNATURE_LEN : Z := 64.
Definition ANNOUNCE_PUBLIC_IDENTITY_START : Z := 0.
Definition ANNOUNCE_PUBLIC_IDENTITY_END : Z := ANNOUNCE_PUBLIC_IDENTITY_START + RNS_PUBLIC_IDENTITY_LEN.
Definition ANNOUNCE_NAME_HASH_START : Z := ANNOUNCE_PUBLIC_IDENTITY_END.
Definition ANNOUNCE_NAME_HASH_END : Z := ANNOUNCE_NAME_HASH_START + RNS_NAME_HASH_LEN.
Definition ANNOUNCE_RANDOM_HASH_START : Z := ANNOUNCE_NAME_HASH_END.
Definition ANNOUNCE_RANDOM_HASH_END : Z := ANNOUNCE_RANDOM_HASH_START + RNS_ANNOUNCE_RANDOM_HASH_LEN.
Definition ANNOUNCE_RATCHET_START : Z := ANNOUNCE_RANDOM_HASH_END.
Definition ANNOUNCE_RATCHET_END : Z := ANNOUNCE_RATCHET_START + RNS_ANNOUNCE_RATCHET_LEN.
Definition ANNOUNCE_NO_RATCHET_SIGNATURE_START : Z := ANNOUNCE_RANDOM_HASH_END.
Definition ANNOUNCE_NO_RATCHET_SIGNATURE_END : Z := ANNOUNCE_NO_RATCHET_SIGNATURE_START + RNS_ANNOUNCE_SIGNATURE_LEN.
Definition ANNOUNCE_RATCHET_SIGNATURE_START : Z := ANNOUNCE_RATCHET_END.
Definition ANNOUNCE_RATCHET_SIGNATURE_END : Z := ANNOUNCE_RATCHET_SIGNATURE_START + RNS_ANNOUNCE_SIGNATURE_LEN.
Definition ANNOUNCE_NO_RATCHET_MIN_LEN : Z := ANNOUNCE_NO_RATCHET_SIGNATURE_END.
Definition ANNOUNCE_RATCHET_MIN_LEN : Z := ANNOUNCE_RATCHET_SIGNATURE_END.
Definition ANNOUNCE_NO_RATCHET_DATA_LEN : Z := ANNOUNCE_NO_RATCHET_MIN_LEN.
Definition MAX_RETICULUM_RANDOM_HASH_TIMESTAMP : Z := 0xffffffffff.
Definition RETICULUM_RANDOM_HASH_RNG_LEN : Z := 5.
Definition RETICULUM_RANDOM_HASH_TIME_LEN : Z := 5.
Definition RETICULUM_RANDOM_HASH_TIME_OFFSET : Z := 8 - RETICULUM_RANDOM_HASH_TIME_LEN.

Record RnsAnnounceRef := mk_announce {
  an_destination_hash : list Z;
  an_public_identity : list Z;
  an_name_hash : list Z;
  an_random_hash : list Z;
  an_ratchet : option (list Z);
  an_signature : list Z;
  an_app_data : list Z;
}.

Record RnsAnnounceEncodeParams := mk_announce_params {
  ap_secret_identity : RnsSecretIdentity;
  ap_public_identity : RnsPublicIdentity;
  ap_app_name : list Z;
  ap_aspects : list (list Z);
  ap_app_data : list Z;
}.

Definition map_crypto_error (error : RnsCryptoError) : RnsWireError :=
  match error with
  | InvalidPublicIdentity => RnsWire.InvalidPublicIdentity
  | InvalidSecretIdentity | InvalidSignature => RnsWire.InvalidSignature
  | EmptyHkdfOutput | EmptyHkdfInputKeyMaterial | InvalidHkdfLength | LengthOverflow
  | OutputBufferTooShort _ _ | InvalidPadding | InvalidToken | InvalidTokenKeyLength _
  | AuthenticationFailed | RandomSourceFailed | CipherFailed => CryptoFailed
  end.

Definition read_array (n : Z) (input : list Z) : outcome RnsWireError (list Z) := to_array n input.

Definition decode_no_ratchet_announce (packet : RnsPacketRef) : outcome RnsWireError RnsAnnounceRef :=
  let data := rp_data packet in
  if len data <? ANNOUNCE_NO_RATCHET_MIN_LEN then Err MalformedAnnounce
  else
    s ← slice data ANNOUNCE_PUBLIC_IDENTITY_START ANNOUNCE_PUBLIC_IDENTITY_END;
    public_identity ← read_array RNS_PUBLIC_IDENTITY_LEN s;
    s ← slice data ANNOUNCE_NAME_HASH_START ANNOUNCE_NAME_HASH_END;
    name_hash ← read_array RNS_NAME_HASH_LEN s;
    s ← slice data ANNOUNCE_RANDOM_HASH_START ANNOUNCE_RANDOM_HASH_END;
    random_hash ← read_array RNS_ANNOUNCE_RANDOM_HASH_LEN s;
    s ← slice data ANNOUNCE_NO_RATCHET_SIGNATURE_START ANNOUNCE_NO_RATCHET_SIGNATURE_END;
    signature ← read_array RNS_ANNOUNCE_SIGNATURE_LEN s;
    app_data ← slice data ANNOUNCE_NO_RATCHET_SIGNATURE_END (len data);
    Ok (mk_announce (rp_destination_hash packet) public_identity name_hash random_hash None signature app_data).

Definition decode_ratchet_announce (packet : RnsPacketRef) : outcome RnsWireError RnsAnnounceRef :=
  let data := rp_data packet in
  if len data <? ANNOUNCE_RATCHET_MIN_LEN then Err MalformedAnnounce
  else
    s ← slice data ANNOUNCE_PUBLIC_IDENTITY_START ANNOUNCE_PUBLIC_IDENTITY_END;
    public_identity ← read_array RNS_PUBLIC_IDENTITY_LEN s;
    s ← slice data ANNOUNCE_NAME_HASH_START ANNOUNCE_NAME_HASH_END;
    name_hash ← read_array RNS_NAME_HASH_LEN s;
    s ← slice data ANNOUNCE_RANDOM_HASH_START ANNOUNCE_RANDOM_HASH_END;
    random_hash ← read_array RNS_ANNOUNCE_RANDOM_HASH_LEN s;
    s ← slice data ANNOUNCE_RATCHET_START ANNOUNCE_RATCHET_END;
    ratchet ← read_array RNS_ANNOUNCE_RATCHET_LEN s;
    s ← slice data ANNOUNCE_RATCHET_SIGNATURE_START ANNOUNCE_RATCHET_SIGNATURE_END;
    signature ← read_array RNS_ANNOUNCE_SIGNATURE_LEN s;
    app_data ← slice data ANNOUNCE_RATCHET_SIGNATURE_END (len data);
    Ok (mk_announce (rp_destination_hash packet) public_identity name_hash random_hash (Some ratchet) signature app_data).

Definition decode_announce_packet (packet : RnsPacketRef) : outcome RnsWireError RnsAnnounceRef :=
  if negb (bool_decide (packet_type (rp_flags packet) = Announce)) then Err InvalidPacketType
  else if negb (bool_decide (destination_type (rp_flags packet) = Single)) then Err InvalidDestinationType
  else if context_flag (rp_flags packet) then decode_ratchet_announce packet
  else decode_no_ratchet_announce packet.

Definition checked_signed_data_len_add (l addend : Z) : outcome RnsWireError Z :=
  ok_or (checked_add l addend) (PacketTooLarge l RNS_MTU).

Definition announce_signed_data_len (announce : RnsAnnounceRef) : outcome RnsWireError Z :=
  let l := RNS_TRUNCATED_HASH_LEN in
  l ← checked_signed_data_len_add l RNS_PUBLIC_IDENTITY_LEN;
  l ← checked_signed_data_len_add l RNS_NAME_HASH_LEN;
  l ← checked_signed_data_len_add l RNS_ANNOUNCE_RANDOM_HASH_LEN;
  l ← (if an_ratchet announce is Some _ then checked_signed_data_len_add l RNS_ANNOUNCE_RATCHET_LEN else Ok l);
  checked_signed_data_len_add l (len (an_app_data announce)).

(** Returns the new offset. *)
Definition write_part {E} (offset : Z) (input : list Z) : io (list Z) E Z :=
  let e := offset + len input in
  _ ← put_slice offset input;
  mret e.

Definition build_announce_signed_data (announce : RnsAnnounceRef) : io (list Z) RnsWireError Z :=
  required ← lift (announce_signed_data_len announce);
  output ← get;
  _ ← lift (guard_err (len output <? required) (RnsWire.OutputBufferTooShort (len output) required));
  offset ← write_part 0 (an_destination_hash announce);
  offset ← write_part offset (an_public_identity announce);
  offset ← write_part offset (an_name_hash announce);
  offset ← write_part offset (an_random_hash announce);
  offset ← match an_ratchet announce with
           | Some ratchet => write_part offset ratchet
           | None => mret offset
           end;
  write_part offset (an_app_data announce).

Definition announce_encode_data_len (app_data_len : Z) : outcome RnsWireError Z :=
  ok_or (checked_add ANNOUNCE_NO_RATCHET_DATA_LEN app_data_len) (PacketTooLarge app_data_len RNS_MTU).

Definition packet_len_for_announce_data (announce_data_len : Z) : outcome RnsWireError Z :=
  packet_len ← ok_or (checked_add RNS_HEADER_1_LEN announce_data_len) (PacketTooLarge announce_data_len RNS_MTU);
  if packet_len >? RNS_MTU then Err (PacketTooLarge packet_len RNS_MTU) else Ok packet_len.

Section announce.
Context `{RnsPrims}.

Definition validate_announce_packet (packet : RnsPacketRef) : outcome RnsWireError RnsAnnounceRef :=
  announce ← decode_announce_packet packet;
  public_identity ← map_err map_crypto_error (public_identity_from_bytes (an_public_identity announce));
  ih ← identity_hash public_identity;
  expected_destination_hash ← destination_hash sha256 (an_name_hash announce) (Some ih);
  _ ← guard_err (negb (bool_decide (expected_destination_hash = an_destination_hash announce))) DestinationMismatch;
  let '(r, signed_data) := build_announce_signed_data announce (zeros RNS_MTU) in
  signed_data_len ← r;
  message ← slice signed_data 0 signed_data_len;
  _ ← map_err map_crypto_error (verify public_identity message (an_signature announce));
  Ok announce.

Context `{Rng R}.
(** [clock.now_unix_secs()]. *)
Variable now_unix_secs : Z.

Definition reticulum_random_hash : io (R * list Z) RnsWireError (list Z) :=
  let timestamp := now_unix_secs in
  _ ← lift (guard_err (timestamp >? MAX_RETICULUM_RANDOM_HASH_TIMESTAMP) TimestampOverflow);
  bs ← io_map_err (fun _ => RnsWire.RandomSourceFailed) (fill_array RETICULUM_RANDOM_HASH_RNG_LEN);
  random_hash ← lift (write_at (zeros RNS_ANNOUNCE_RANDOM_HASH_LEN) 0 bs);
  t ← lift (slice (to_be_bytes 8 timestamp) RETICULUM_RANDOM_HASH_TIME_OFFSET 8);
  lift (write_at random_hash RETICULUM_RANDOM_HASH_RNG_LEN t).

Definition encode_announce_packet (params : RnsAnnounceEncodeParams) : io (R * list Z) RnsWireError Z :=
  announce_data_len ← lift (announce_encode_data_len (len (ap_app_data params)));
  packet_len ← lift (packet_len_for_announce_data announce_data_len);
  st ← get;
  let output := snd st in
  _ ← lift (guard_err (len output <? packet_len) (RnsWire.OutputBufferTooShort (len output) packet_len));
  public_identity_bytes ← lift (public_identity_to_bytes (ap_public_identity params));
  name_hash ← lift (map_err (fun _ => InvalidDestinationName)
    (destination_name_hash sha256 (ap_app_name params) (ap_aspects params)));
  ih ← lift (identity_hash (ap_public_identity params));
  destination_hash ← lift (destination_hash sha256 name_hash (Some ih));
  random_hash ← reticulum_random_hash;
  let unsigned_announce :=
    mk_announce destination_hash public_identity_bytes name_hash random_hash None
      (zeros RNS_ANNOUNCE_SIGNATURE_LEN) (ap_app_data params) in
  let '(r, signed_data) := build_announce_signed_data unsigned_announce (zeros RNS_MTU) in
  signed_data_len ← lift r;
  message ← lift (slice signed_data 0 signed_data_len);
  signature ← lift (map_err map_crypto_error (sign (ap_secret_identity params) message));
  let '(r, announce_data) :=
    (offset ← write_part (E:=RnsWireError) 0 public_identity_bytes;
     offset ← write_part offset name_hash;
     offset ← write_part offset random_hash;
     offset ← write_part offset signature;
     write_part offset (ap_app_data params)) (zeros (RNS_MTU - RNS_HEADER_1_LEN)) in
  offset ← lift r;
  data ← lift (slice announce_data 0 offset);
  on_out (encode_packet
    (mk_rns_packet (mk_flags Header1 false Broadcast Single Announce) 0 None destination_hash RNS_CONTEXT_NONE data)).
End announce.

(** ** The announce format *)
Record announce_ok (a : RnsAnnounceRef) : Prop := {
  ao_destination : array_ok 16 (an_destination_hash a);
  ao_identity : array_ok 64 (an_public_identity a);
  ao_name : array_ok 10 (an_name_hash a);
  ao_random : array_ok 10 (an_random_hash a);
  ao_ratchet : from_option (array_ok 32) True (an_ratchet a);
  ao_signature : array_ok 64 (an_signature a);
  ao_app_data : bytes_ok (an_app_data a);
}.

(** The data of an announce packet, and the bytes the signature covers. *)
Definition announce_data (a : RnsAnnounceRef) : list Z :=
  an_public_identity a ++ an_name_hash a ++ an_random_hash a ++ default [] (an_ratchet a)
  ++ an_signature a ++ an_app_data a.
Definition signed_data (a : RnsAnnounceRef) : list Z :=
  an_destination_hash a ++ an_public_identity a ++ an_name_hash a ++ an_random_hash a
  ++ default [] (an_ratchet a) ++ an_app_data a.

(** [a] is what packet [p] says. *)
Definition announces (p : RnsPacketRef) (a : RnsAnnounceRef) : Prop :=
  packet_type (rp_flags p) = Announce /\ destination_type (rp_flags p) = Single /\
  context_flag (rp_flags p) = bool_decide (is_Some (an_ratchet a)) /\
  rp_destination_hash p = an_destination_hash a /\ rp_data p = announce_data a.

(** ** Lemmas *)
Lemma fills_write_part {E} k v : fills (E:=E) k (write_part k v) (k + len v) v.
Proof.
  assert (fills (E:=E) k (write_part k v) (k + len v) (v ++ [])) as H; [|by rewrite app_nil_r in H].
  eapply fills_bind; [apply fills_put_slice | apply fills_ret].
Qed.

Lemma signed_data_len a :
  announce_ok a ->
  len (signed_data a) = 100 + (if an_ratchet a is Some _ then 32 else 0) + len (an_app_data a).
Proof.
  intros [[H1 _] [H2 _] [H3 _] [H4 _] H5 _ _]. unfold signed_data. rewrite !len_app.
  destruct (an_ratchet a) as [r|]; cbn in *; [destruct H5 as [H5 _]|]; rewrite ?(@len_nil Z); lia.
Qed.

Lemma announce_data_len a :
  announce_ok a ->
  len (announce_data a) = 148 + (if an_ratchet a is Some _ then 32 else 0) + len (an_app_data a).
Proof.
  intros [_ [H2 _] [H3 _] [H4 _] H5 [H6 _] _]. unfold announce_data. rewrite !len_app.
  destruct (an_ratchet a) as [r|]; cbn in *; [destruct H5 as [H5 _]|]; rewrite ?(@len_nil Z); lia.
Qed.

Lemma announce_signed_data_len_spec a :
  announce_ok a -> len (signed_data a) <= usize_MAX -> announce_signed_data_len a = Ok (len (signed_data a)).
Proof.
  intros Ha. rewrite signed_data_len by done. intros Hmax.
  unfold announce_signed_data_len, checked_signed_data_len_add, checked_add.
  unfold RNS_TRUNCATED_HASH_LEN, RNS_PUBLIC_IDENTITY_LEN, RNS_NAME_HASH_LEN, RNS_ANNOUNCE_RANDOM_HASH_LEN, RNS_ANNOUNCE_RATCHET_LEN.
  change (16 + 64 <=? usize_MAX) with true. cbn [ok_or mbind outcome_bind].
  change (16 + 64 + 10 <=? usize_MAX) with true. cbn [ok_or mbind outcome_bind].
  change (16 + 64 + 10 + 10 <=? usize_MAX) with true. cbn [ok_or mbind outcome_bind].
  destruct (an_ratchet a); cbn [mbind outcome_bind].
  - change (16 + 64 + 10 + 10 + 32 <=? usize_MAX) with true. cbn [ok_or mbind outcome_bind].
    change (16 + 64 + 10 + 10 + 32) with (100 + 32).
    by destruct (Z.leb_spec (100 + 32 + len (an_app_data a)) usize_MAX); [|lia].
  - change (16 + 64 + 10 + 10) with (100 + 0). by destruct (Z.leb_spec (100 + 0 + len (an_app_data a)) usize_MAX); [|lia].
Qed.

Lemma build_signed_data_ok a out :
  announce_ok a -> len (signed_data a) <= usize_MAX ->
  build_announce_signed_data a out =
    if len out <? len (signed_data a) then (Err (RnsWire.OutputBufferTooShort (len out) (len (signed_data a))), out)
    else (Ok (len (signed_data a)), signed_data a ++ drop (length (signed_data a)) out).
Proof.
  intros Ha Hmax. unfold build_announce_signed_data. rewrite announce_signed_data_len_spec, lift_bind_ok, get_bind by done.
  destruct (Z.ltb_spec (len out) (len (signed_data a))); [done|]. rewrite guard_false by done.
  apply fills_run; [|done]. unfold signed_data.
  do 4 (eapply fills_bind; [apply fills_write_part|]).
  eapply (fills_bind _ _ _ (0 + len (an_destination_hash a) + len (an_public_identity a) + len (an_name_hash a)
    + len (an_random_hash a) + len (default [] (an_ratchet a)))).
  { destruct (an_ratchet a) as [r|]; cbn [default from_option id option_rect].
    - apply fills_write_part.
    - eapply fills_at; [|done]. rewrite (@len_nil Z), Z.add_0_r. apply fills_ret. }
  rewrite !len_app. replace (len (an_destination_hash a) + (len (an_public_identity a) + (len (an_name_hash a) +
    (len (an_random_hash a) + (len (default [] (an_ratchet a)) + len (an_app_data a))))))
    with (0 + len (an_destination_hash a) + len (an_public_identity a) + len (an_name_hash a) + len (an_random_hash a)
      + len (default [] (an_ratchet a)) + len (an_app_data a)) by lia.
  apply fills_write_part.
Qed.

(** Cutting announce data into its fields. *)
Lemma decode_no_ratchet_parts p i n r s app :
  rp_data p = i ++ n ++ r ++ s ++ app -> len i = 64 -> len n = 10 -> len r = 10 -> len s = 64 ->
  decode_no_ratchet_announce p = Ok (mk_announce (rp_destination_hash p) i n r None s app).
Proof.
  intros Hd Hi Hn Hr Hs. unfold decode_no_ratchet_announce, read_array. cbv zeta. rewrite Hd.
  change ANNOUNCE_NO_RATCHET_MIN_LEN with 148. pose proof (len_nonneg app).
  destruct (Z.ltb_spec (len (i ++ n ++ r ++ s ++ app)) 148) as [Hl|_]; [rewrite !len_app in Hl; lia|].
  rewrite (slice_app_first i _ ANNOUNCE_PUBLIC_IDENTITY_START) by (rewrite ?Hi; done). cbn [mbind outcome_bind].
  rewrite to_array_ok by done. cbn [mbind outcome_bind].
  rewrite (slice_app_at i n _ ANNOUNCE_NAME_HASH_START) by (rewrite ?Hi, ?Hn; done). cbn [mbind outcome_bind].
  rewrite to_array_ok by done. cbn [mbind outcome_bind].
  rewrite (app_assoc i n), (slice_app_at (i ++ n) r _ ANNOUNCE_RANDOM_HASH_START) by (rewrite ?len_app, ?Hi, ?Hn, ?Hr; done).
  cbn [mbind outcome_bind]. rewrite to_array_ok by done. cbn [mbind outcome_bind].
  rewrite (app_assoc _ r), (slice_app_at ((i ++ n) ++ r) s _ ANNOUNCE_NO_RATCHET_SIGNATURE_START)
    by (rewrite ?len_app, ?Hi, ?Hn, ?Hr, ?Hs; done).
  cbn [mbind outcome_bind]. rewrite to_array_ok by done. cbn [mbind outcome_bind].
  rewrite (app_assoc _ s), (slice_tail (((i ++ n) ++ r) ++ s) app) by (rewrite ?len_app, ?Hi, ?Hn, ?Hr, ?Hs; done). done.
Qed.

Lemma decode_ratchet_parts p i n r t s app :
  rp_data p = i ++ n ++ r ++ t ++ s ++ app -> len i = 64 -> len n = 10 -> len r = 10 -> len t = 32 -> len s = 64 ->
  decode_ratchet_announce p = Ok (mk_announce (rp_destination_hash p) i n r (Some t) s app).
Proof.
  intros Hd Hi Hn Hr Ht Hs. unfold decode_ratchet_announce, read_array. cbv zeta. rewrite Hd.
  change ANNOUNCE_RATCHET_MIN_LEN with 180. pose proof (len_nonneg app).
  destruct (Z.ltb_spec (len (i ++ n ++ r ++ t ++ s ++ app)) 180) as [Hl|_]; [rewrite !len_app in Hl; lia|].
  rewrite (slice_app_first i _ ANNOUNCE_PUBLIC_IDENTITY_START) by (rewrite ?Hi; done). cbn [mbind outcome_bind].
  rewrite to_array_ok by done. cbn [mbind outcome_bind].
  rewrite (slice_app_at i n _ ANNOUNCE_NAME_HASH_START) by (rewrite ?Hi, ?Hn; done). cbn [mbind outcome_bind].
  rewrite to_array_ok by done. cbn [mbind outcome_bind].
  rewrite (app_assoc i n), (slice_app_at (i ++ n) r _ ANNOUNCE_RANDOM_HASH_START) by (rewrite ?len_app, ?Hi, ?Hn, ?Hr; done).
  cbn [mbind outcome_bind]. rewrite to_array_ok by done. cbn [mbind outcome_bind].
  rewrite (app_assoc _ r), (slice_app_at ((i ++ n) ++ r) t _ ANNOUNCE_RATCHET_START)
    by (rewrite ?len_app, ?Hi, ?Hn, ?Hr, ?Ht; done).
  cbn [mbind outcome_bind]. rewrite to_array_ok by done. cbn [mbind outcome_bind].
  rewrite (app_assoc _ t), (slice_app_at (((i ++ n) ++ r) ++ t) s _ ANNOUNCE_RATCHET_SIGNATURE_START)
    by (rewrite ?len_app, ?Hi, ?Hn, ?Hr, ?Ht, ?Hs; done).
  cbn [mbind outcome_bind]. rewrite to_array_ok by done. cbn [mbind outcome_bind].
  rewrite (app_assoc _ s), (slice_tail ((((i ++ n) ++ r) ++ t) ++ s) app)
    by (rewrite ?len_app, ?Hi, ?Hn, ?Hr, ?Ht, ?Hs; done). done.
Qed.

Lemma decode_announces p a : announce_ok a -> announces p a -> decode_announce_packet p = Ok a.
Proof.
  intros [_ [H2 _] [H3 _] [H4 _] H5 [H6 _] _] (Ht & Hd & Hc & Hh & Hdata). unfold decode_announce_packet.
  rewrite Ht, Hd, !bool_decide_eq_true_2 by done. cbn [negb]. rewrite Hc. unfold announce_data in Hdata.
  assert (bool_decide (is_Some (an_ratchet a)) = match an_ratchet a with Some _ => true | None => false end) as ->.
  { destruct (an_ratchet a); [by apply bool_decide_eq_true_2 | apply bool_decide_eq_false_2; by intros [? ?]]. }
  destruct a as [d i n r [t|] s app]; cbn in *.
  - destruct H5. by rewrite (decode_ratchet_parts p i n r t s app), Hh.
  - by rewrite (decode_no_ratchet_parts p i n r s app), Hh.
Qed.

Lemma decode_announce_cases p :
  packet_ok p ->
  (exists a, decode_announce_packet p = Ok a /\ announce_ok a /\ announces p a) \/
  (exists e, decode_announce_packet p = Err e).
Proof.
  intros Hp. unfold decode_announce_packet. case_bool_decide as Ht; [|right; by eexists].
  case_bool_decide as Hd; [|right; by eexists]. cbn [negb]. destruct Hp as [_ _ Hdest _ Hb].
  destruct (context_flag (rp_flags p)) eqn:Hc.
  - destruct (Z.ltb_spec (len (rp_data p)) 180).
    { right. exists MalformedAnnounce. unfold decode_ratchet_announce. change ANNOUNCE_RATCHET_MIN_LEN with 180.
      by destruct (Z.ltb_spec (len (rp_data p)) 180); [|lia]. }
    left. destruct (cut (rp_data p) 64) as (i & r1 & E1 & ? & ?); [lia|]. destruct (cut r1 10) as (n & r2 & -> & ? & ?); [lia|].
    destruct (cut r2 10) as (r & r3 & -> & ? & ?); [lia|]. destruct (cut r3 32) as (t & r4 & -> & ? & ?); [lia|].
    destruct (cut r4 64) as (s & app & -> & ? & ?); [lia|].
    rewrite E1, !bytes_ok_app in Hb. destruct Hb as (? & ? & ? & ? & ? & ?).
    eexists. split; [by apply decode_ratchet_parts|]. split; [by split|]. split_and!; try done.
  - destruct (Z.ltb_spec (len (rp_data p)) 148).
    { right. exists MalformedAnnounce. unfold decode_no_ratchet_announce. change ANNOUNCE_NO_RATCHET_MIN_LEN with 148.
      by destruct (Z.ltb_spec (len (rp_data p)) 148); [|lia]. }
    left. destruct (cut (rp_data p) 64) as (i & r1 & E1 & ? & ?); [lia|]. destruct (cut r1 10) as (n & r2 & -> & ? & ?); [lia|].
    destruct (cut r2 10) as (r & r3 & -> & ? & ?); [lia|].
    destruct (cut r3 64) as (s & app & -> & ? & ?); [lia|].
    rewrite E1, !bytes_ok_app in Hb. destruct Hb as (? & ? & ? & ? & ?).
    eexists. split; [by apply decode_no_ratchet_parts|]. split; [by split|]. split_and!; try done.
Qed.

(** ** Validation *)
Section validation.
Context `{P : RnsPrims, L : !RnsPrimsLaws P}.

Definition announced_destination (a : RnsAnnounceRef) : list Z :=
  take 16 (sha256 (an_name_hash a ++ take 16 (sha256 (an_public_identity a)))).

(** The checks of validation, stated on the decoded announce. *)
Definition authentic (a : RnsAnnounceRef) : Prop :=
  let verifying_key := drop 32 (an_public_identity a) in
  ed25519_valid verifying_key = true /\
  an_destination_hash a = announced_destination a /\
  ed25519_verify verifying_key (signed_data a) (an_signature a) = true.

Lemma destination_hash_ok {E} name ih :
  destination_hash (E:=E) sha256 name (Some ih) = Ok (take 16 (sha256 (name ++ ih))).
Proof.
  unfold destination_hash. cbn [default from_option id]. destruct (sha256_len (name ++ ih)) as [Hl _].
  rewrite slice_prefix by lia. cbn [mbind outcome_bind]. apply to_array_ok. rewrite len_take. lia.
Qed.

(** Validation, branch by branch. *)
Lemma validate_announce_branches p a :
  announce_ok a -> announces p a -> len (rp_data p) <= RNS_MTU ->
  validate_announce_packet p =
    if negb (ed25519_valid (drop 32 (an_public_identity a))) then Err RnsWire.InvalidPublicIdentity
    else if negb (bool_decide (announced_destination a = an_destination_hash a)) then Err DestinationMismatch
    else if negb (ed25519_verify (drop 32 (an_public_identity a)) (signed_data a) (an_signature a))
      then Err RnsWire.InvalidSignature
    else Ok a.
Proof.
  intros Ha Hann Hmtu. unfold validate_announce_packet. rewrite (decode_announces p a) by done. cbn [mbind outcome_bind].
  pose proof Ha as [_ [Hi Hbi] _ _ _ _ _]. pose proof (signed_data_len a Ha) as Hsl. pose proof (announce_data_len a Ha) as Hal.
  destruct Hann as (_ & _ & _ & _ & Hdata). rewrite Hdata in Hmtu.
  destruct (cut (an_public_identity a) 32) as (x & e & Hxe & Hx & He); [lia|].
  rewrite Hxe in Hbi. apply bytes_ok_app in Hbi as [Hbx Hbe].
  assert (drop 32 (an_public_identity a) = e) as -> by (rewrite Hxe; apply drop_app_length'; unfold len in Hx; lia).
  rewrite Hxe at 1. rewrite public_identity_from_to by (split; [lia|done]).
  destruct (ed25519_valid e) eqn:Hv; [|done]. cbn [negb map_err mbind outcome_bind].
  rewrite identity_hash_ok by (split; split; simpl; [lia|done|lia|done]). cbn [mbind outcome_bind].
  rewrite destination_hash_ok. cbn [mbind outcome_bind]. unfold public_bytes. cbn [pi_x25519_public pi_ed25519_public].
  rewrite <- Hxe. fold (announced_destination a). case_bool_decide as Hd; [|done]. cbn [negb guard_err mbind outcome_bind].
  rewrite build_signed_data_ok; [|done|unfold RNS_MTU, usize_MAX in *; destruct (an_ratchet a); lia].
  rewrite len_zeros by done. destruct (Z.ltb_spec RNS_MTU (len (signed_data a))) as [|_]; [destruct (an_ratchet a); lia|].
  cbn [mbind outcome_bind]. rewrite slice_prefix
    by (rewrite len_app; pose proof (len_nonneg (signed_data a)); pose proof (len_nonneg (drop (length (signed_data a)) (zeros RNS_MTU))); lia).
  cbn [mbind outcome_bind]. rewrite take_len_app. unfold verify, ed25519_verifying_key. cbn [pi_ed25519_public]. rewrite Hv.
  cbn [mbind outcome_bind]. by destruct (ed25519_verify e (signed_data a) (an_signature a)).
Qed.

Lemma validate_announce_cases p a :
  packet_ok p -> len (rp_data p) <= RNS_MTU ->
  validate_announce_packet p <> Panic /\
  (validate_announce_packet p = Ok a <-> announce_ok a /\ announces p a /\ authentic a).
Proof.
  intros Hp Hmtu. destruct (decode_announce_cases p Hp) as [(b & Hb & Hok & Hann)|[e He]].
  - pose proof (validate_announce_branches p b Hok Hann Hmtu) as Hv. split.
    { rewrite Hv. repeat (case_match; try done). }
    split.
    + intros H. rewrite H in Hv.
      destruct (ed25519_valid (drop 32 (an_public_identity b))) eqn:H1; [|done]. cbn [negb] in Hv.
      case_bool_decide as H2; [|done]. cbn [negb] in Hv.
      destruct (ed25519_verify (drop 32 (an_public_identity b)) (signed_data b) (an_signature b)) eqn:H3; [|done].
      cbn [negb] in Hv. simplify_eq. by split_and!.
    + intros (Ha & Hann' & H1 & H2 & H3). pose proof (decode_announces p a Ha Hann') as Hd.
      assert (a = b) as -> by congruence. rewrite Hv, H1, bool_decide_eq_true_2, H3 by done. done.
  - unfold validate_announce_packet. rewrite He. split; [done|]. split; [done|].
    intros (Ha & Hann & _). pose proof (decode_announces p a Ha Hann). congruence.
Qed.
End validation.

(** C32. Announce validation is sound and complete: for every packet within the
    MTU, [validate_announce_packet] never panics, and it accepts exactly the
    well-formed announces (with or without a ratchet) whose verifying key is
    valid, whose destination is the hash of their name hash and identity, and
    whose signature covers destination, identity, name, random hash, ratchet
    and application data. *)
Theorem validate_announce_exact `{P : RnsPrims, L : !RnsPrimsLaws P} p a :
  packet_ok p -> len (rp_data p) <= RNS_MTU ->
  validate_announce_packet p <> Panic /\
  (validate_announce_packet p = Ok a <-> announce_ok a /\ announces p a /\ authentic a).
Proof. apply validate_announce_cases. Qed.

(** ** Encoding *)
Section encoding.
Context `{P : RnsPrims, L : !RnsPrimsLaws P, G : Rng R}.

Lemma reticulum_random_hash_ok (now : Z) (rng rng' : R) out bs :
  len bs = 5 -> now <= MAX_RETICULUM_RANDOM_HASH_TIMESTAMP -> try_fill_bytes rng 5 = (Some bs, rng') ->
  reticulum_random_hash now (rng, out) = (Ok (bs ++ to_be_bytes 5 now), (rng', out)).
Proof.
  intros Hl Hnow Hf.
  unfold reticulum_random_hash. rewrite Z.gtb_ltb.
  rewrite guard_false by (apply Z.ltb_ge; lia).
  erewrite io_bind_ok.
  2: { unfold io_map_err, fill_array, RETICULUM_RANDOM_HASH_RNG_LEN. rewrite Hf. done. }
  change (zeros RNS_ANNOUNCE_RANDOM_HASH_LEN) with (zeros 5 ++ zeros 5).
  rewrite write_at_0 by (rewrite len_app, !len_zeros; lia). rewrite lift_bind_ok.
  rewrite drop_app_length' by (change (length (zeros 5)) with 5%nat; unfold len in Hl; lia).
  change (to_be_bytes 8 now) with (([now / 2 ^ 56 mod 256] ++ [now / 2 ^ 48 mod 256] ++ [now / 2 ^ 40 mod 256]) ++ to_be_bytes 5 now).
  rewrite slice_tail; [|done|by rewrite len_app, len_to_be_bytes]. rewrite lift_bind_ok.
  pose proof (write_at_app (E:=RnsWireError) bs (to_be_bytes 5 now) (zeros 5) [] RETICULUM_RANDOM_HASH_RNG_LEN) as H.
  rewrite !app_nil_r in H. unfold lift. rewrite H; [done|by rewrite Hl|by rewrite len_to_be_bytes].
Qed.

Lemma name_hash_ok app_name aspects :
  validate_destination_name app_name aspects = Ok tt ->
  exists n, destination_name_hash sha256 app_name aspects = Ok n /\ array_ok 10 n.
Proof.
  intros Hv. unfold destination_name_hash. rewrite Hv. cbn [mbind outcome_bind].
  set (data := app_name ++ _). destruct (sha256_len data) as [Hl Hb]. change RNS_NAME_HASH_LEN with 10.
  rewrite slice_prefix by lia. cbn [mbind outcome_bind]. exists (take (Z.to_nat 10) (sha256 data)).
  split; [|split; [rewrite len_take; lia | by apply bytes_ok_take]]. apply to_array_ok. rewrite len_take. lia.
Qed.
End encoding.

(** Writing the five fields of an announce without a ratchet. *)
Lemma write_announce_data {E} i n r s app out :
  len (i ++ n ++ r ++ s ++ app) <= len out ->
  (offset ← write_part (E:=E) 0 i; offset ← write_part offset n; offset ← write_part offset r;
   offset ← write_part offset s; write_part offset app) out =
  (Ok (len (i ++ n ++ r ++ s ++ app)), (i ++ n ++ r ++ s ++ app) ++ drop (length (i ++ n ++ r ++ s ++ app)) out).
Proof.
  intros Hl. apply fills_run; [|done].
  do 4 (eapply fills_bind; [apply fills_write_part|]).
  rewrite !len_app. replace (len i + (len n + (len r + (len s + len app)))) with (0 + len i + len n + len r + len s + len app) by lia.
  apply fills_write_part.
Qed.

(** The announce an identity makes for a name, and its packet. *)
Section own_announce.
Context `{P : RnsPrims, L : !RnsPrimsLaws P}.

Definition own_announce (secret : RnsSecretIdentity) (name rnd app_data : list Z) : RnsAnnounceRef :=
  let pid := public_bytes (public_of secret) in
  let dest := take 16 (sha256 (name ++ take 16 (sha256 pid))) in
  let unsigned := mk_announce dest pid name rnd None (zeros 64) app_data in
  mk_announce dest pid name rnd None (ed25519_sign (si_ed25519_secret secret) (signed_data unsigned)) app_data.
Definition announce_packet (a : RnsAnnounceRef) : RnsPacketRef :=
  mk_rns_packet (mk_flags Header1 false Broadcast Single Announce) 0 None (an_destination_hash a) RNS_CONTEXT_NONE (announce_data a).

Lemma own_announce_ok secret name rnd app_data :
  secret_ok secret -> array_ok 10 name -> array_ok 10 rnd -> bytes_ok app_data ->
  let a := own_announce secret name rnd app_data in
  announce_ok a /\ packet_ok (announce_packet a) /\
  len (announce_data a) = 148 + len app_data /\ len (signed_data a) = 100 + len app_data /\
  len (packet_bytes (announce_packet a)) = 167 + len app_data.
Proof.
  intros Hs Hln Hrnd Hb a. pose proof (public_bytes_ok _ (public_of_ok secret Hs)) as Hpid.
  assert (array_ok 16 (an_destination_hash a)) as Hdest.
  { cbn [a own_announce an_destination_hash]. set (h := sha256 _). assert (array_ok 32 h) as [? ?] by apply sha256_len.
    split; [rewrite len_take; lia | by apply bytes_ok_take]. }
  pose proof Hs as [_ [Hse _]].
  assert (array_ok 64 (an_signature a)) as Hsg by (by apply ed25519_sign_len).
  assert (announce_ok a) as Ha by done.
  assert (len (announce_data a) = 148 + len app_data) as Hal by (by rewrite announce_data_len).
  assert (packet_ok (announce_packet a)) as Hp.
  { split; [done|done|done|done|].
    change (bytes_ok (an_public_identity a ++ name ++ rnd ++ an_signature a ++ app_data)).
    destruct Hpid, Hln, Hrnd, Hsg. rewrite !bytes_ok_app. by split_and!. }
  split_and!; [done | done | done | by rewrite signed_data_len |].
  rewrite packet_bytes_len by done. change (19 + len (announce_data a) = 167 + len app_data). lia.
Qed.

Lemma own_announce_validates secret name rnd app_data :
  secret_ok secret -> array_ok 10 name -> array_ok 10 rnd -> bytes_ok app_data -> 167 + len app_data <= RNS_MTU ->
  let a := own_announce secret name rnd app_data in validate_announce_packet (announce_packet a) = Ok a.
Proof.
  intros Hs Hln Hrnd Hb Hmtu a. destruct (own_announce_ok secret name rnd app_data Hs Hln Hrnd Hb) as (Ha & Hp & Hal & _ & _).
  fold a in Ha, Hp, Hal. pose proof Hs as [_ [Hse _]]. pose proof (public_of_ok secret Hs) as Hpub.
  rewrite (validate_announce_branches (announce_packet a) a) by (done || (change (len (announce_data a) <= RNS_MTU); lia)).
  assert (drop 32 (an_public_identity a) = ed25519_public (si_ed25519_secret secret)) as ->.
  { apply drop_app_length'. destruct Hpub as [[Hx _] _]. unfold len in Hx. lia. }
  rewrite ed25519_public_valid by done. cbn [negb]. rewrite bool_decide_eq_true_2 by done. cbn [negb].
  cbn [a own_announce an_signature]. change (signed_data (mk_announce ?d ?p ?n ?r None _ ?x)) with (signed_data (mk_announce d p n r None (zeros 64) x)).
  by rewrite ed25519_verify_sign.
Qed.
End own_announce.

(** The encoder as far as the packet it hands to [encode_packet]. *)
Lemma encode_announce_run `{P : RnsPrims, L : !RnsPrimsLaws P, G : Rng R}
    secret app_name aspects app_data now (rng rng' : R) bs name out :
  secret_ok secret -> destination_name_hash sha256 app_name aspects = Ok name -> array_ok 10 name -> bytes_ok app_data ->
  167 + len app_data <= RNS_MTU -> 167 + len app_data <= len out ->
  0 <= now <= MAX_RETICULUM_RANDOM_HASH_TIMESTAMP ->
  try_fill_bytes rng RETICULUM_RANDOM_HASH_RNG_LEN = (Some bs, rng') ->
  array_ok 10 (bs ++ to_be_bytes 5 now) ->
  encode_announce_packet now (mk_announce_params secret (public_of secret) app_name aspects app_data) (rng, out) =
    let '(r, out') := encode_packet (announce_packet (own_announce secret name (bs ++ to_be_bytes 5 now) app_data)) out in
    (r, (rng', out')).
Proof.
  intros Hs Hname Hln Hb Hmtu Hout Hnow Hf Hrnd. pose proof (public_of_ok secret Hs) as Hpub. pose proof (len_nonneg app_data).
  set (rnd := bs ++ to_be_bytes 5 now) in *. set (a := own_announce secret name rnd app_data).
  destruct (own_announce_ok secret name rnd app_data Hs Hln Hrnd Hb) as (Ha & _ & Hal & Hsl & _). fold a in Ha, Hal, Hsl.
  set (unsigned := mk_announce (an_destination_hash a) (an_public_identity a) name rnd None (zeros 64) app_data).
  assert (announce_ok unsigned) as Hu by (destruct Ha; split; try done; by (split; [|apply bytes_ok_zeros])).
  change (signed_data a) with (signed_data unsigned) in Hsl.
  unfold encode_announce_packet. cbn [ap_app_data ap_public_identity ap_secret_identity ap_app_name ap_aspects].
  unfold announce_encode_data_len, packet_len_for_announce_data, checked_add. change ANNOUNCE_NO_RATCHET_DATA_LEN with 148.
  change RNS_HEADER_1_LEN with 19. destruct (Z.leb_spec (148 + len app_data) usize_MAX); [|unfold usize_MAX, RNS_MTU in *; lia].
  cbn [ok_or]. rewrite lift_bind_ok. destruct (Z.leb_spec (19 + (148 + len app_data)) usize_MAX); [|unfold usize_MAX, RNS_MTU in *; lia].
  cbn [ok_or mbind outcome_bind]. rewrite Z.gtb_ltb. destruct (Z.ltb_spec RNS_MTU (19 + (148 + len app_data))); [lia|].
  rewrite lift_bind_ok, get_bind. cbn [snd]. rewrite guard_err_ltb by lia.
  rewrite public_identity_to_bytes_ok, lift_bind_ok, Hname by done. cbn [map_err].
  rewrite lift_bind_ok, identity_hash_ok, lift_bind_ok by done.
  rewrite destination_hash_ok, lift_bind_ok.
  assert (len bs = 5) as Hbs by (destruct Hrnd as [Hrl _]; unfold rnd in Hrl; rewrite len_app, len_to_be_bytes in Hrl; lia).
  erewrite io_bind_ok by (apply reticulum_random_hash_ok; [exact Hbs | lia | exact Hf]). fold rnd.
  change (zeros RNS_ANNOUNCE_SIGNATURE_LEN) with (zeros 64).
  change (mk_announce _ _ name rnd None (zeros 64) app_data) with unsigned.
  rewrite build_signed_data_ok by (done || (unfold usize_MAX, RNS_MTU in *; lia)). rewrite len_zeros by done.
  destruct (Z.ltb_spec RNS_MTU (len (signed_data unsigned))); [lia|]. rewrite lift_bind_ok.
  rewrite slice_prefix by (rewrite len_app; pose proof (len_nonneg (drop (length (signed_data unsigned)) (zeros RNS_MTU))); lia).
  rewrite take_len_app, lift_bind_ok. unfold sign. cbn [map_err]. rewrite lift_bind_ok.
  change (ed25519_sign (si_ed25519_secret secret) (signed_data unsigned)) with (an_signature a).
  change (public_bytes (public_of secret)) with (an_public_identity a).
  assert (announce_data a = an_public_identity a ++ name ++ rnd ++ an_signature a ++ app_data) as Had by done.
  rewrite write_announce_data by (rewrite <- Had, len_zeros by done; lia). rewrite <- Had, lift_bind_ok.
  rewrite slice_prefix by (rewrite len_app; pose proof (len_nonneg (drop (length (announce_data a)) (zeros (RNS_MTU - 19)))); lia).
  rewrite take_len_app, lift_bind_ok. reflexivity.
Qed.

(** Announce round trip: for a secret identity and its public identity, a
    destination name without dots, application data that fits the MTU, a
    timestamp of at most five bytes and a generator that delivers,
    [encode_announce_packet] writes a packet that decodes, validates, and
    carries the identity, the name hash, the random bytes followed by the
    timestamp, no ratchet and the application data. *)
Theorem encode_announce_validates `{P : RnsPrims, L : !RnsPrimsLaws P, G : Rng R, GL : !RngLaws R}
    secret app_name aspects app_data now (rng rng' : R) bs out :
  secret_ok secret -> validate_destination_name app_name aspects = Ok tt -> bytes_ok app_data ->
  167 + len app_data <= RNS_MTU -> 167 + len app_data <= len out ->
  0 <= now <= MAX_RETICULUM_RANDOM_HASH_TIMESTAMP ->
  try_fill_bytes rng RETICULUM_RANDOM_HASH_RNG_LEN = (Some bs, rng') ->
  exists p a,
    encode_announce_packet now (mk_announce_params secret (public_of secret) app_name aspects app_data) (rng, out) =
      (Ok (len (packet_bytes p)), (rng', packet_bytes p ++ drop (length (packet_bytes p)) out)) /\
    decode_packet (packet_bytes p) = Ok p /\ validate_announce_packet p = Ok a /\
    an_public_identity a = public_bytes (public_of secret) /\
    destination_name_hash sha256 app_name aspects = Ok (an_name_hash a) /\
    an_random_hash a = bs ++ to_be_bytes 5 now /\ an_ratchet a = None /\ an_app_data a = app_data.
Proof.
  intros Hs Hn Hb Hmtu Hout Hnow Hf. pose proof (public_of_ok secret Hs) as Hpub. pose proof (len_nonneg app_data).
  destruct (name_hash_ok app_name aspects Hn) as (name & Hname & Hln).
  destruct (try_fill_bytes_len rng RETICULUM_RANDOM_HASH_RNG_LEN bs) as [Hlb Hbb]; [by rewrite Hf|].
  set (rnd := bs ++ to_be_bytes 5 now).
  assert (array_ok 10 rnd) as Hrnd.
  { split; [unfold rnd; rewrite len_app, len_to_be_bytes, Hlb; done | apply bytes_ok_app; split; [done | apply to_be_bytes_ok]]. }
  set (a := own_announce secret name rnd app_data). set (p := announce_packet a).
  destruct (own_announce_ok secret name rnd app_data Hs Hln Hrnd Hb) as (Ha & Hp & Hal & Hsl & Hpl). fold a in Ha, Hp, Hal, Hsl, Hpl. fold p in Hp, Hpl.
  exists p, a. split; [|split; [apply decode_packet_bytes; [done|done|lia]|split; [by apply own_announce_validates|done]]].
  rewrite (encode_announce_run secret app_name aspects app_data now rng rng' bs name out) by done. fold rnd a p.
  by rewrite encode_packet_valid by (done || lia).
Qed.

(** ** Witnesses *)
Definition sample_announce_params : RnsAnnounceEncodeParams :=
  mk_announce_params sample_secret (@public_of toy_prims sample_secret) [104; 121; 102] [[109]] [1; 2; 3].

Lemma encode_announce_validates_witness :
  exists p a, @validate_announce_packet toy_prims p = Ok a /\ an_app_data a = [1; 2; 3] /\
    fst (@encode_announce_packet toy_prims Z toy_rng 1700000000 sample_announce_params (7, zeros 200)) = Ok 170.
Proof.
  assert (bytes_ok [1; 2; 3]) as H1 by (apply (bool_decide_unpack _); vm_compute; exact I).
  assert (167 + len [1; 2; 3] <= RNS_MTU) as H2 by (vm_compute; discriminate).
  assert (167 + len [1; 2; 3] <= len (zeros 200)) as H3 by (vm_compute; discriminate).
  assert (0 <= 1700000000 <= MAX_RETICULUM_RANDOM_HASH_TIMESTAMP) as H4 by (split; vm_compute; discriminate).
  destruct (@encode_announce_validates toy_prims toy_prims_laws Z toy_rng toy_rng_laws sample_secret [104; 121; 102] [[109]] [1; 2; 3]
    1700000000 7 8 (replicate 5 7) (zeros 200) sample_secret_ok eq_refl H1 H2 H3 H4 eq_refl)
    as (p & a & He & _ & Hv & _ & _ & _ & _ & Ha).
  exists p, a. split; [exact Hv|]. split; [exact Ha|]. vm_compute. reflexivity.
Defined.

Definition sample_announce : RnsAnnounceRef :=
  let pid := @public_bytes (@public_of toy_prims sample_secret) in
  let name := replicate 10 1 in
  let dest := take 16 (toy_digest (name ++ take 16 (toy_digest pid))) in
  let unsigned := mk_announce dest pid name (replicate 10 2) (Some (replicate 32 3)) [] [9] in
  mk_announce dest pid name (replicate 10 2) (Some (replicate 32 3))
    (@ed25519_sign toy_prims (si_ed25519_secret sample_secret) (signed_data unsigned)) [9].
Definition sample_announce_packet : RnsPacketRef :=
  mk_rns_packet (mk_flags Header1 true Broadcast Single Announce) 0 None
    (an_destination_hash sample_announce) 0 (announce_data sample_announce).

Lemma validate_announce_exact_witness :
  @validate_announce_packet toy_prims sample_announce_packet = Ok sample_announce.
Proof.
  assert (forall n l, len l = n -> bool_decide (bytes_ok l) = true -> array_ok n l) as Harr.
  { intros n l Hl Hb. split; [exact Hl | apply (bool_decide_eq_true_1 _); exact Hb]. }
  apply (@validate_announce_exact toy_prims toy_prims_laws sample_announce_packet sample_announce).
  - split; [vm_compute; split; [discriminate|reflexivity] | exact I | apply Harr; vm_compute; reflexivity | vm_compute; split; [discriminate|reflexivity] |].
    apply (bool_decide_eq_true_1 _). vm_compute. reflexivity.
  - vm_compute. discriminate.
  - split; [|split].
    + split; try (apply Harr; vm_compute; reflexivity). apply (bool_decide_eq_true_1 _). vm_compute. reflexivity.
    + split_and!; reflexivity.
    + split_and!; vm_compute; reflexivity.
Defined.
