(* ===== verification/Ifac.v ===== *)
(** Interface access codes (src/crates/hyf_rns_wire/src/ifac.rs): a packet for a
    closed interface carries the tail of a signature and is masked with a
    stream derived from that tail; a receiver unmasks it, signs what it got
    and compares. *)
From S2P Require Import Prelude Cursor RnsWire RnsCrypto RnsAnnounce.

Definition RNS_IFAC_MIN_SIZE : Z := 1.
Definition RNS_IFAC_MAX_SIZE : Z := 64.
Definition HEADER_LEN : Z := 2.

Definition validate_ifac_size (ifac_size : Z) : outcome RnsWireError unit :=
  if (RNS_IFAC_MIN_SIZE <=? ifac_size) && (ifac_size <=? RNS_IFAC_MAX_SIZE) then Ok tt
  else Err (InvalidIfacSize ifac_size RNS_IFAC_MAX_SIZE).
Definition validate_ifac_key (ifac_key : list Z) : outcome RnsWireError unit :=
  if len ifac_key =? 0 then Err InvalidIfacKey else Ok tt.
Definition validate_wire_len (l : Z) : outcome RnsWireError unit :=
  if l >? RNS_MTU then Err (PacketTooLarge l RNS_MTU) else Ok tt.
Definition validate_raw_packet_len (l : Z) : outcome RnsWireError unit :=
  if l <=? HEADER_LEN then Err (PacketTooShort l (HEADER_LEN + 1)) else validate_wire_len l.

(** [left.iter().zip(right.iter())] folded with [diff |= l ^ r]. *)
Fixpoint diff_bytes (diff : Z) (left right : list Z) : Z :=
  match left, right with
  | l :: left', r :: right' => diff_bytes (Z.lor diff (Z.lxor l r)) left' right'
  | _, _ => diff
  end.
Definition constant_time_eq (left right : list Z) : bool :=
  if negb (len left =? len right) then false else diff_bytes 0 left right =? 0.

(** [!IFAC_FLAG] on [u8]. *)
Definition not_ifac_flag : Z := 0x7f.

Section ifac.
Context `{RnsPrims}.

(** The loop [for index in index..required], [n] iterations of it. *)
Fixpoint mask_loop (raw_packet : list Z) (ifac_size index : Z) (n : nat) : io (list Z) RnsWireError unit :=
  match n with
  | O => mret tt
  | S n' =>
      out ← get;
      mask ← lift (@Prelude.index RnsWireError _ out index);
      b ← lift (@Prelude.index RnsWireError _ raw_packet (index - ifac_size));
      _ ← poke index (Z.lxor b mask);
      mask_loop raw_packet ifac_size (index + 1) n'
  end.

Definition ifac_apply_outbound (raw_packet : list Z) (ifac_identity : RnsSecretIdentity) (ifac_key : list Z)
    (ifac_size : Z) : io (list Z) RnsWireError Z :=
  _ ← lift (validate_ifac_size ifac_size);
  _ ← lift (validate_ifac_key ifac_key);
  _ ← lift (validate_raw_packet_len (len raw_packet));
  b0 ← lift (index raw_packet 0);
  _ ← lift (guard_err (negb (Z.land b0 IFAC_FLAG =? 0)) UnsupportedPacketAccessCode);
  required ← lift (ok_or (checked_add (len raw_packet) ifac_size) (PacketTooLarge (len raw_packet) RNS_MTU));
  _ ← lift (validate_wire_len required);
  out ← get;
  _ ← lift (guard_err (len out <? required) (RnsWire.OutputBufferTooShort (len out) required));
  signature ← lift (map_err map_crypto_error (sign ifac_identity raw_packet));
  ifac ← lift (slice signature (len signature - ifac_size) (len signature));
  _ ← io_map_err map_crypto_error (within 0 required (rns_hkdf_sha256 ifac (Some ifac_key) None));
  out ← get;
  o0 ← lift (index out 0);
  _ ← poke 0 (Z.lor (Z.lxor (Z.lor b0 IFAC_FLAG) o0) IFAC_FLAG);
  o1 ← lift (index out 1);
  b1 ← lift (index raw_packet 1);
  _ ← poke 1 (Z.lxor o1 b1);
  _ ← put_slice HEADER_LEN ifac;
  _ ← mask_loop raw_packet ifac_size (HEADER_LEN + ifac_size) (Z.to_nat (required - (HEADER_LEN + ifac_size)));
  mret required.

(** The loop over the output bytes [output_index..required] of [unmasked]. *)
Fixpoint unmask_loop (masked_packet mask : list Z) (ifac_size output_index : Z) (n : nat) : io (list Z) RnsWireError unit :=
  match n with
  | O => mret tt
  | S n' =>
      let masked_index := output_index + ifac_size in
      b ← lift (index masked_packet masked_index);
      k ← lift (index mask masked_index);
      _ ← poke output_index (Z.lxor b k);
      unmask_loop masked_packet mask ifac_size (output_index + 1) n'
  end.

Definition ifac_unmask (masked_packet mask : list Z) (ifac_size required : Z) : io (list Z) RnsWireError unit :=
  b0 ← lift (index masked_packet 0);
  k0 ← lift (index mask 0);
  _ ← poke 0 (Z.land (Z.lxor b0 k0) not_ifac_flag);
  b1 ← lift (index masked_packet 1);
  k1 ← lift (index mask 1);
  _ ← poke 1 (Z.lxor b1 k1);
  unmask_loop masked_packet mask ifac_size HEADER_LEN (Z.to_nat (required - HEADER_LEN)).

Definition ifac_verify_inbound (masked_packet : list Z) (ifac_identity : RnsSecretIdentity) (ifac_key : list Z)
    (ifac_size : Z) : io (list Z) RnsWireError Z :=
  _ ← lift (validate_ifac_size ifac_size);
  _ ← lift (validate_ifac_key ifac_key);
  _ ← lift (validate_wire_len (len masked_packet));
  _ ← lift (guard_err (len masked_packet <=? HEADER_LEN + ifac_size)
        (PacketTooShort (len masked_packet) (HEADER_LEN + ifac_size + 1)));
  b0 ← lift (index masked_packet 0);
  _ ← lift (guard_err (Z.land b0 IFAC_FLAG =? 0) MissingPacketAccessCode);
  let required := len masked_packet - ifac_size in
  out ← get;
  _ ← lift (guard_err (len out <? required) (RnsWire.OutputBufferTooShort (len out) required));
  ifac ← lift (slice masked_packet HEADER_LEN (HEADER_LEN + ifac_size));
  let '(r, mask) := within 0 (len masked_packet) (rns_hkdf_sha256 ifac (Some ifac_key) None) (zeros RNS_MTU) in
  _ ← lift (map_err map_crypto_error r);
  let '(r, unmasked) := ifac_unmask masked_packet mask ifac_size required (zeros RNS_MTU) in
  _ ← lift r;
  message ← lift (slice unmasked 0 required);
  signature ← lift (map_err map_crypto_error (sign ifac_identity message));
  expected_ifac ← lift (slice signature (len signature - ifac_size) (len signature));
  if constant_time_eq ifac expected_ifac then
    m ← lift (slice unmasked 0 required);
    _ ← put_slice 0 m;
    mret required
  else lift (Err InvalidPacketAccessCode).
End ifac.

(** ** Lemmas: bytes *)
Definition xor_bytes (l k : list Z) : list Z := zip_with Z.lxor l k.

Lemma len_xor_bytes l k : length l = length k -> length (xor_bytes l k) = length l.
Proof. intros H. unfold xor_bytes. rewrite length_zip_with. lia. Qed.

Lemma lxor_cancel a b : Z.lxor (Z.lxor a b) b = a.
Proof. by rewrite Z.lxor_assoc, Z.lxor_nilpotent, Z.lxor_0_r. Qed.

Lemma xor_bytes_cancel l k : length l = length k -> xor_bytes (xor_bytes l k) k = l.
Proof.
  revert k. induction l as [|x l IH]; intros [|y k] H; try done. injection H as H.
  unfold xor_bytes in *. cbn [zip_with]. by rewrite lxor_cancel, IH.
Qed.

Lemma lxor_u8 a b : u8_ok a -> u8_ok b -> u8_ok (Z.lxor a b).
Proof.
  unfold u8_ok. intros Ha Hb. assert (0 <= Z.lxor a b) by (apply Z.lxor_nonneg; lia). split; [done|].
  destruct (Z.eq_dec (Z.lxor a b) 0) as [->|Hn]; [lia|].
  assert (0 < Z.lxor a b) by lia.
  apply (Z.log2_lt_pow2 _ 8); [done|]. pose proof (Z.log2_lxor a b).
  assert (forall x, 0 <= x < 256 -> Z.log2 x < 8) as Hlog.
  { intros x Hx. destruct (Z.eq_dec x 0) as [->|]; [done|]. apply Z.log2_lt_pow2; lia. }
  pose proof (Hlog a Ha). pose proof (Hlog b Hb). lia.
Qed.

Lemma xor_bytes_ok l k : bytes_ok l -> bytes_ok k -> bytes_ok (xor_bytes l k).
Proof.
  intros Hl. revert k. induction Hl as [|x l Hx Hl IH]; intros k Hk; [constructor|].
  destruct Hk as [|y k Hy Hk]; [constructor|]. constructor; [by apply lxor_u8 | by apply IH].
Qed.

(** The masked flag byte, and what unmasking makes of it. *)
Definition mask_flags (b k : Z) : Z := Z.lor (Z.lxor (Z.lor b IFAC_FLAG) k) IFAC_FLAG.
Definition unmask_flags (m k : Z) : Z := Z.land (Z.lxor m k) not_ifac_flag.

Definition flags_table (b k : Z) : bool :=
  let clear b := (Z.land b IFAC_FLAG =? 0) in
  (0 <=? mask_flags b k) && (mask_flags b k <? 256) && negb (clear (mask_flags b k)) &&
  (0 <=? unmask_flags b k) && (unmask_flags b k <? 256) && clear (unmask_flags b k) &&
  (if clear b then unmask_flags (mask_flags b k) k =? b else mask_flags (unmask_flags b k) k =? b).

Lemma flags_all : forallb (fun b => forallb (fun k => flags_table b k) (seqZ 0 256)) (seqZ 0 256) = true.
Proof. vm_compute. reflexivity. Qed.

Lemma flags_facts b k :
  u8_ok b -> u8_ok k ->
  u8_ok (mask_flags b k) /\ Z.land (mask_flags b k) IFAC_FLAG <> 0 /\
  u8_ok (unmask_flags b k) /\ Z.land (unmask_flags b k) IFAC_FLAG = 0 /\
  (Z.land b IFAC_FLAG = 0 -> unmask_flags (mask_flags b k) k = b) /\
  (Z.land b IFAC_FLAG <> 0 -> mask_flags (unmask_flags b k) k = b).
Proof.
  intros Hb Hk. assert (flags_table b k = true) as H.
  { exact (u8_forall _ (u8_forall _ flags_all b Hb) k Hk). }
  unfold flags_table in H. cbv zeta beta in H. rewrite !andb_true_iff, !Z.leb_le, !Z.ltb_lt, negb_true_iff, Z.eqb_neq, (Z.eqb_eq _ 0) in H.
  destruct H as ((((((? & ?) & ?) & ?) & ?) & ?) & H). unfold u8_ok.
  destruct (Z.eqb_spec (Z.land b IFAC_FLAG) 0); apply Z.eqb_eq in H; split_and!; done.
Qed.

Lemma diff_bytes_zero d l k :
  length l = length k -> diff_bytes d l k = 0 <-> d = 0 /\ l = k.
Proof.
  revert d k. induction l as [|x l IH]; intros d [|y k] H; try done; cbn [diff_bytes].
  - tauto.
  - injection H as H. rewrite IH, Z.lor_eq_0_iff, Z.lxor_eq_0_iff by done. split.
    + by intros [[? ->] ->].
    + intros [Hd Heq]. injection Heq as -> ->. done.
Qed.

Lemma constant_time_eq_spec l k : constant_time_eq l k = bool_decide (l = k).
Proof.
  unfold constant_time_eq. destruct (Z.eqb_spec (len l) (len k)) as [H|H]; cbn [negb].
  - pose proof (diff_bytes_zero 0 l k) as Hd. destruct (Z.eqb_spec (diff_bytes 0 l k) 0) as [E|E]; symmetry.
    + apply bool_decide_eq_true. apply Hd in E; [tauto | unfold len in H; lia].
    + apply bool_decide_eq_false. intros ->. apply E, Hd; done.
  - symmetry. apply bool_decide_eq_false. congruence.
Qed.

(** ** Lemmas: the loops *)
Lemma mask_loop_run rpre rrest pre old tail size i :
  len rpre = i - size -> len pre = i -> 0 <= size <= i -> length rrest = length old ->
  mask_loop (rpre ++ rrest) size i (length old) (pre ++ old ++ tail) = (Ok tt, pre ++ xor_bytes rrest old ++ tail).
Proof.
  revert rpre pre i rrest. induction old as [|o old IH]; intros rpre pre i rrest Hr Hp Hs Hl.
  { by destruct rrest. }
  destruct rrest as [|r rrest]; [done|]. injection Hl as Hl. cbn [length mask_loop].
  rewrite get_bind. change ((o :: old) ++ tail) with (o :: old ++ tail).
  rewrite (index_app pre), lift_bind_ok by done. rewrite (index_app rpre), lift_bind_ok by done.
  erewrite io_bind_ok by (by apply poke_app).
  change (r :: rrest) with ([r] ++ rrest). rewrite (app_assoc rpre). rewrite IH.
  - by rewrite <- app_assoc.
  - rewrite len_app. change (len [r]) with 1. lia.
  - rewrite len_app. change (len [Z.lxor r o]) with 1. lia.
  - lia.
  - done.
Qed.

Lemma unmask_loop_run mpre mrest kpre krest ktail pre old tail size i :
  len mpre = i + size -> len kpre = i + size -> len pre = i ->
  length mrest = length old -> length krest = length old ->
  unmask_loop (mpre ++ mrest) (kpre ++ krest ++ ktail) size i (length old) (pre ++ old ++ tail) =
    (Ok tt, pre ++ xor_bytes mrest krest ++ tail).
Proof.
  revert mpre kpre pre i mrest krest. induction old as [|o old IH]; intros mpre kpre pre i mrest krest Hm Hk Hp Hlm Hlk.
  { by destruct mrest, krest. }
  destruct mrest as [|m mrest]; [done|]. destruct krest as [|k krest]; [done|]. injection Hlm as Hlm. injection Hlk as Hlk.
  cbn [length unmask_loop]. change ((o :: old) ++ tail) with (o :: old ++ tail). change ((k :: krest) ++ ktail) with (k :: krest ++ ktail).
  rewrite (index_app mpre), lift_bind_ok by done. rewrite (index_app kpre), lift_bind_ok by done.
  erewrite io_bind_ok by (by apply poke_app).
  change (m :: mrest) with ([m] ++ mrest). change (k :: krest ++ ktail) with ([k] ++ krest ++ ktail).
  rewrite (app_assoc mpre), (app_assoc kpre). rewrite IH.
  - by rewrite <- app_assoc.
  - rewrite len_app. change (len [m]) with 1. lia.
  - rewrite len_app. change (len [k]) with 1. lia.
  - rewrite len_app. change (len [Z.lxor m k]) with 1. lia.
  - done.
  - done.
Qed.

(** ** Masked packets *)
Section masked.
Context `{P : RnsPrims, L : !RnsPrimsLaws P}.

(** The access code of a packet: the last bytes of its signature. *)
Definition ifac_of (identity : RnsSecretIdentity) (size : Z) (raw : list Z) : list Z :=
  drop (Z.to_nat (64 - size)) (ed25519_sign (si_ed25519_secret identity) raw).

(** [masked] is [raw] masked with the stream that its access code gives: the
    two header bytes, the access code in clear, and the rest. *)
Definition masks (identity : RnsSecretIdentity) (key : list Z) (size : Z) (raw masked : list Z) : Prop :=
  exists b0 b1 body k0 k1 kmid kbody,
    raw = b0 :: b1 :: body /\ Z.land b0 IFAC_FLAG = 0 /\ 0 < len body /\ len kmid = size /\ len kbody = len body /\
    hkdf_expand key (ifac_of identity size raw) [] (len raw + size) = Some (k0 :: k1 :: kmid ++ kbody) /\
    masked = mask_flags b0 k0 :: Z.lxor k1 b1 :: ifac_of identity size raw ++ xor_bytes body kbody.

Definition ifac_params_ok (identity : RnsSecretIdentity) (key : list Z) (size : Z) : Prop :=
  secret_ok identity /\ key <> [] /\ 1 <= size <= 64.

Lemma ifac_of_ok identity size raw :
  secret_ok identity -> 0 <= size <= 64 -> array_ok size (ifac_of identity size raw).
Proof.
  intros [_ [Hs _]] Hz. destruct (ed25519_sign_len (si_ed25519_secret identity) raw Hs) as [Hl Hb].
  unfold ifac_of. split; [rewrite len_drop; lia | by apply bytes_ok_drop].
Qed.

Lemma ifac_slice {E} identity size raw :
  secret_ok identity -> 0 <= size <= 64 ->
  slice (E:=E) (ed25519_sign (si_ed25519_secret identity) raw)
    (len (ed25519_sign (si_ed25519_secret identity) raw) - size) (len (ed25519_sign (si_ed25519_secret identity) raw))
  = Ok (ifac_of identity size raw).
Proof.
  intros [_ [Hs _]] Hz. destruct (ed25519_sign_len (si_ed25519_secret identity) raw Hs) as [Hl _].
  rewrite slice_ok by lia. unfold ifac_of. rewrite Hl. f_equal. apply take_ge.
  rewrite length_drop. unfold len in Hl. lia.
Qed.

Lemma hkdf_stream key ikm buffer :
  key <> [] -> 0 < len ikm -> 0 < len buffer <= RNS_MTU ->
  exists okm, array_ok (len buffer) okm /\ hkdf_expand key ikm [] (len buffer) = Some okm /\
    rns_hkdf_sha256 ikm (Some key) None buffer = (Ok tt, okm).
Proof.
  intros Hk Hi Hb. destruct key as [|x key]; [done|].
  destruct (rns_hkdf_ok ikm (Some (x :: key)) None buffer) as (okm & H); [done | unfold RNS_MTU in Hb; lia|]. by exists okm.
Qed.

(** A stream for a packet, cut the way the packet is. *)
Lemma cut_stream okm size (body : list Z) :
  0 <= size -> array_ok (2 + len body + size) okm ->
  exists k0 k1 kmid kbody, okm = k0 :: k1 :: kmid ++ kbody /\ len kmid = size /\ len kbody = len body /\
    u8_ok k0 /\ u8_ok k1 /\ bytes_ok kmid /\ bytes_ok kbody.
Proof.
  intros Hs [Hl Hb]. pose proof (len_nonneg body). destruct okm as [|k0 [|k1 okm]]; rewrite ?len_cons, ?(@len_nil Z) in Hl; try lia.
  destruct (cut okm size) as (kmid & kbody & -> & ? & ?); [lia|]. rewrite !bytes_ok_cons, bytes_ok_app in Hb.
  exists k0, k1, kmid, kbody. split_and!; try tauto; lia.
Qed.

Lemma masks_exists identity key size b0 b1 body :
  ifac_params_ok identity key size -> bytes_ok (b0 :: b1 :: body) -> 0 < len body ->
  len (b0 :: b1 :: body) + size <= RNS_MTU -> Z.land b0 IFAC_FLAG = 0 ->
  exists masked, masks identity key size (b0 :: b1 :: body) masked /\ bytes_ok masked.
Proof.
  intros (Hs & Hk & Hz) Hb Hpos Hmtu Hf. rewrite !len_cons in Hmtu.
  destruct (ifac_of_ok identity size (b0 :: b1 :: body)) as [Hil Hib]; [done|lia|].
  destruct (hkdf_stream key (ifac_of identity size (b0 :: b1 :: body)) (zeros (2 + len body + size)))
    as (okm & Hokm & He & _); [done|lia|rewrite len_zeros by lia; lia|]. rewrite len_zeros in * by lia.
  destruct (cut_stream okm size body) as (k0 & k1 & kmid & kbody & -> & ? & ? & ? & ? & ? & ?); [lia|done|].
  rewrite !bytes_ok_cons in Hb. destruct Hb as (Hb0 & Hb1 & Hbb).
  eexists. split.
  - exists b0, b1, body, k0, k1, kmid, kbody. split_and!; [done..| |done].
    rewrite !len_cons. by replace (1 + (1 + len body) + size) with (2 + len body + size) by lia.
  - constructor; [by apply flags_facts|]. constructor; [by apply lxor_u8|]. apply bytes_ok_app. split; [done|]. by apply xor_bytes_ok.
Qed.

Lemma ifac_apply_masks identity key size raw masked out :
  ifac_params_ok identity key size -> masks identity key size raw masked ->
  len raw + size <= RNS_MTU -> len raw + size <= len out ->
  len masked = len raw + size /\
  ifac_apply_outbound raw identity key size out = (Ok (len masked), masked ++ drop (length masked) out).
Proof.
  intros (Hs & Hk & Hz) (b0 & b1 & body & k0 & k1 & kmid & kbody & -> & Hf & Hpos & Hkm & Hkb & He & ->) Hmtu Hout.
  destruct (ifac_of_ok identity size (b0 :: b1 :: body)) as [Hil _]; [done|lia|].
  set (ifac := ifac_of identity size (b0 :: b1 :: body)) in *.
  set (masked := mask_flags b0 k0 :: Z.lxor k1 b1 :: ifac ++ xor_bytes body kbody).
  assert (len (b0 :: b1 :: body) + size = 2 + len body + size) as Hr by (rewrite !len_cons; lia). rewrite Hr in *.
  assert (length (xor_bytes body kbody) = length body) as Hlx by (apply len_xor_bytes; unfold len in Hkb; lia).
  assert (len masked = 2 + len body + size) as Hlm.
  { unfold masked. rewrite !len_cons, len_app. unfold len in *. lia. }
  split; [done|]. rewrite Hlm.
  destruct (cut out (2 + len body + size)) as (o & rest & -> & Ho & _); [lia|].
  rewrite drop_app_length' by (unfold len in *; lia).
  unfold ifac_apply_outbound. unfold validate_ifac_size, RNS_IFAC_MIN_SIZE, RNS_IFAC_MAX_SIZE.
  destruct (Z.leb_spec 1 size); [|lia]. destruct (Z.leb_spec size 64); [|lia]. cbn [andb]. rewrite lift_bind_ok.
  assert (validate_ifac_key key = Ok tt) as ->.
  { unfold validate_ifac_key. destruct (Z.eqb_spec (len key) 0) as [Hz0|]; [|done]. by apply len_0_nil in Hz0. }
  rewrite lift_bind_ok. rewrite !len_cons. unfold validate_raw_packet_len, HEADER_LEN, validate_wire_len.
  destruct (Z.leb_spec (1 + (1 + len body)) 2); [lia|]. rewrite !Z.gtb_ltb.
  destruct (Z.ltb_spec RNS_MTU (1 + (1 + len body))); [lia|]. rewrite lift_bind_ok, index_0, lift_bind_ok, Hf.
  rewrite guard_false by done. unfold checked_add.
  destruct (Z.leb_spec (1 + (1 + len body) + size) usize_MAX); [|unfold RNS_MTU, usize_MAX in *; lia]. cbn [ok_or].
  replace (1 + (1 + len body) + size) with (2 + len body + size) by lia. rewrite lift_bind_ok. rewrite Z.gtb_ltb.
  destruct (Z.ltb_spec RNS_MTU (2 + len body + size)); [lia|]. rewrite lift_bind_ok, get_bind, guard_err_ltb by lia.
  unfold sign. cbn [map_err]. rewrite lift_bind_ok, ifac_slice by (done || lia). fold ifac. rewrite lift_bind_ok.
  destruct (hkdf_stream key ifac o) as (okm & _ & Hokm & Hrun); [done|lia|lia|].
  rewrite Ho, He in Hokm. injection Hokm as <-.
  erewrite io_bind_ok.
  2: { unfold io_map_err. rewrite (within_app _ [] o rest _ _ _ _ Hrun) by done. done. }
  rewrite get_bind. cbn [app]. rewrite index_0, lift_bind_ok.
  erewrite io_bind_ok by (by apply (poke_app [])). rewrite app_nil_l. fold (mask_flags b0 k0).
  cbn [app]. rewrite !index_1, !lift_bind_ok.
  erewrite io_bind_ok by (by apply (poke_app [mask_flags b0 k0])). rewrite <- (app_assoc kmid).
  erewrite io_bind_ok by (apply put_slice_mid; [done|lia]).
  replace (Z.to_nat (2 + len body + size - (2 + size))) with (length kbody) by (unfold len in Hkb; unfold len; lia).
  rewrite (app_assoc _ ifac). erewrite io_bind_ok.
  2: { apply (mask_loop_run [b0; b1] body); [by replace (2 + size - size) with 2 by lia| |lia|unfold len in *; lia].
       rewrite !len_app. change (len [mask_flags b0 k0]) with 1. change (len [Z.lxor k1 b1]) with 1. lia. }
  unfold mret, io_ret, masked. cbn [app]. by rewrite <- app_assoc.
Qed.

(** Unmasking, given the stream of the access code in the packet. *)
Lemma ifac_unmask_run m0 m1 ifac body k0 k1 kmid kbody ktail size :
  len ifac = size -> len kmid = size -> len kbody = len body -> 0 <= size -> len body + 2 <= RNS_MTU ->
  ifac_unmask (m0 :: m1 :: ifac ++ body) ((k0 :: k1 :: kmid ++ kbody) ++ ktail) size (2 + len body) (zeros RNS_MTU) =
    (Ok tt, (unmask_flags m0 k0 :: Z.lxor m1 k1 :: xor_bytes body kbody) ++ zeros (RNS_MTU - (2 + len body))).
Proof.
  intros Hi Hkm Hkb Hs Hmtu. pose proof (len_nonneg body). unfold ifac_unmask, HEADER_LEN.
  assert (zeros RNS_MTU = 0 :: 0 :: zeros (len body) ++ zeros (RNS_MTU - (2 + len body))) as ->.
  { unfold zeros. change (Z.to_nat RNS_MTU) with 500%nat. rewrite <- replicate_add.
    replace (Z.to_nat (len body) + Z.to_nat (RNS_MTU - (2 + len body)))%nat with 498%nat by (unfold RNS_MTU in *; lia). done. }
  cbn [app]. rewrite !index_0, !lift_bind_ok.
  erewrite io_bind_ok by (by apply (poke_app [])). cbn [app]. rewrite !index_1, !lift_bind_ok.
  fold (unmask_flags m0 k0). erewrite io_bind_ok by (by apply (poke_app [unmask_flags m0 k0])).
  replace (Z.to_nat (2 + len body - 2)) with (length (zeros (len body))) by (unfold zeros; rewrite length_replicate; lia).
  change (m0 :: m1 :: ifac ++ body) with ((m0 :: m1 :: ifac) ++ body).
  change (k0 :: k1 :: (kmid ++ kbody) ++ ktail) with ((k0 :: k1 :: nil) ++ (kmid ++ kbody) ++ ktail).
  rewrite <- (app_assoc kmid), (app_assoc _ kmid). rewrite unmask_loop_run; [done| | |done| |].
  - rewrite !len_cons. lia.
  - rewrite len_app. change (len [k0; k1]) with 2. lia.
  - unfold zeros. rewrite length_replicate. unfold len. lia.
  - unfold zeros. rewrite length_replicate. unfold len in *. lia.
Qed.

Lemma ifac_verify_parts identity key m0 m1 ifac body k0 k1 kmid kbody size out :
  ifac_params_ok identity key size -> len ifac = size -> 0 < len body -> Z.land m0 IFAC_FLAG <> 0 ->
  2 + len body + size <= RNS_MTU -> len kmid = size -> len kbody = len body ->
  hkdf_expand key ifac [] (2 + len body + size) = Some (k0 :: k1 :: kmid ++ kbody) ->
  let raw := unmask_flags m0 k0 :: Z.lxor m1 k1 :: xor_bytes body kbody in
  ifac_verify_inbound (m0 :: m1 :: ifac ++ body) identity key size out =
    if len out <? 2 + len body then (Err (RnsWire.OutputBufferTooShort (len out) (2 + len body)), out)
    else if bool_decide (ifac = ifac_of identity size raw) then (Ok (2 + len body), raw ++ drop (length raw) out)
    else (Err InvalidPacketAccessCode, out).
Proof.
  intros (Hs & Hk & Hz) Hi Hpos Hf Hmtu Hkm Hkb He raw.
  assert (len raw = 2 + len body) as Hlr.
  { unfold raw. rewrite !len_cons. unfold len. rewrite len_xor_bytes by (unfold len in *; lia). lia. }
  assert (len (m0 :: m1 :: ifac ++ body) = 2 + len body + size) as Hlm by (rewrite !len_cons, len_app; lia).
  unfold ifac_verify_inbound. unfold validate_ifac_size, RNS_IFAC_MIN_SIZE, RNS_IFAC_MAX_SIZE.
  destruct (Z.leb_spec 1 size); [|lia]. destruct (Z.leb_spec size 64); [|lia]. cbn [andb]. rewrite lift_bind_ok.
  assert (validate_ifac_key key = Ok tt) as ->.
  { unfold validate_ifac_key. destruct (Z.eqb_spec (len key) 0) as [Hz0|]; [|done]. by apply len_0_nil in Hz0. }
  rewrite lift_bind_ok, Hlm. unfold validate_wire_len, HEADER_LEN. rewrite Z.gtb_ltb.
  destruct (Z.ltb_spec RNS_MTU (2 + len body + size)); [lia|]. rewrite lift_bind_ok.
  rewrite guard_false by (apply Z.leb_gt; lia). rewrite index_0, lift_bind_ok.
  rewrite guard_false by (by apply Z.eqb_neq). replace (2 + len body + size - size) with (2 + len body) by lia.
  rewrite get_bind. destruct (Z.ltb_spec (len out) (2 + len body)); [done|]. rewrite guard_false by done.
  rewrite (slice_app_at [m0; m1] ifac body) by (change (len [m0; m1]) with 2; lia). rewrite lift_bind_ok.
  destruct (cut (zeros RNS_MTU) (2 + len body + size)) as (z1 & z2 & Hzz & Hz1 & _); [rewrite len_zeros by done; lia|].
  destruct (hkdf_stream key ifac z1) as (okm & _ & Hokm & Hrun); [done|lia|lia|].
  rewrite Hz1, He in Hokm. injection Hokm as <-.
  assert (within 0 (2 + len body + size) (rns_hkdf_sha256 ifac (Some key) None) (zeros RNS_MTU) =
    (Ok tt, (k0 :: k1 :: kmid ++ kbody) ++ z2)) as ->.
  { rewrite Hzz. apply (within_app _ [] z1 z2 _ _ _ _ Hrun); done. }
  cbn [map_err]. rewrite lift_bind_ok.
  rewrite ifac_unmask_run by (done || lia). fold raw. rewrite lift_bind_ok.
  rewrite slice_prefix by (rewrite len_app, len_zeros by lia; lia). rewrite <- Hlr, take_len_app, lift_bind_ok.
  unfold sign. cbn [map_err]. rewrite lift_bind_ok, ifac_slice, lift_bind_ok, constant_time_eq_spec by (done || lia).
  case_bool_decide; [|done]. rewrite lift_bind_ok. rewrite Hlr in *.
  destruct (cut out (2 + len body)) as (o & rest & -> & Ho & _); [lia|].
  erewrite io_bind_ok by (apply put_slice_head; lia). rewrite drop_app_length'; [done|unfold len in *; lia].
Qed.

Lemma ifac_verify_masks identity key size raw masked out :
  ifac_params_ok identity key size -> bytes_ok raw -> masks identity key size raw masked ->
  len raw + size <= RNS_MTU -> len raw <= len out ->
  ifac_verify_inbound masked identity key size out = (Ok (len raw), raw ++ drop (length raw) out).
Proof.
  intros Hok Hb (b0 & b1 & body & k0 & k1 & kmid & kbody & -> & Hf & Hpos & Hkm & Hkb & He & ->) Hmtu Hout.
  pose proof Hok as (Hs & Hk & Hz). set (raw := b0 :: b1 :: body) in *.
  destruct (ifac_of_ok identity size raw) as [Hil Hib]; [done|lia|].
  assert (len raw = 2 + len body) as Hlr by (unfold raw; rewrite !len_cons; lia). rewrite Hlr in *.
  assert (len (xor_bytes body kbody) = len body) as Hlx.
  { unfold len in *. rewrite len_xor_bytes; lia. }
  assert (u8_ok b0) as Hb0 by by inversion Hb.
  assert (u8_ok k0) as Hk0.
  { destruct (hkdf_stream key (ifac_of identity size raw) (zeros (2 + len body + size))) as (okm & [_ Hokb] & Hokm & _);
      [done|lia|rewrite len_zeros by lia; lia|]. rewrite len_zeros in Hokm by lia. rewrite He in Hokm. injection Hokm as <-.
    by inversion Hokb. }
  destruct (flags_facts b0 k0 Hb0 Hk0) as (_ & Hset & _ & _ & Hback & _).
  rewrite (ifac_verify_parts identity key _ _ _ _ k0 k1 kmid kbody size out); try rewrite Hlx; try (done || lia).
  destruct (Z.ltb_spec (len out) (2 + len body)); [lia|].
  rewrite Hback, xor_bytes_cancel by (done || (unfold len in *; lia)).
  replace (Z.lxor (Z.lxor k1 b1) k1) with b1 by (by rewrite (Z.lxor_comm k1), lxor_cancel).
  fold raw. by rewrite bool_decide_eq_true_2.
Qed.

(** The refusals that come before unmasking. *)
Lemma ifac_verify_refuses identity key size masked out :
  ifac_params_ok identity key size ->
  RNS_MTU < len masked \/ len masked <= 2 + size \/ (exists m0 rest, masked = m0 :: rest /\ Z.land m0 IFAC_FLAG = 0) ->
  exists e, ifac_verify_inbound masked identity key size out = (Err e, out).
Proof.
  intros (Hs & Hk & Hz) H.
  unfold ifac_verify_inbound. unfold validate_ifac_size, RNS_IFAC_MIN_SIZE, RNS_IFAC_MAX_SIZE.
  destruct (Z.leb_spec 1 size); [|lia]. destruct (Z.leb_spec size 64); [|lia]. cbn [andb]. rewrite lift_bind_ok.
  assert (validate_ifac_key key = Ok tt) as ->.
  { unfold validate_ifac_key. destruct (Z.eqb_spec (len key) 0) as [Hz0|]; [|done]. by apply len_0_nil in Hz0. }
  rewrite lift_bind_ok. unfold validate_wire_len, HEADER_LEN. rewrite Z.gtb_ltb.
  destruct (Z.ltb_spec RNS_MTU (len masked)); [by eexists|]. rewrite lift_bind_ok.
  destruct (Z.leb_spec (len masked) (2 + size)); [by eexists|]. rewrite guard_false by done.
  destruct H as [?|[?|(m0 & rest & -> & Hf)]]; [lia|lia|]. rewrite index_0, lift_bind_ok, Hf. by eexists.
Qed.

Lemma ifac_verify_cases identity key size masked out :
  ifac_params_ok identity key size -> bytes_ok masked ->
  (exists e, ifac_verify_inbound masked identity key size out = (Err e, out)) \/
  (exists raw, bytes_ok raw /\ masks identity key size raw masked /\ len raw + size <= RNS_MTU /\ len raw <= len out).
Proof.
  intros Hok Hb. pose proof Hok as (Hs & Hk & Hz).
  destruct (decide (RNS_MTU < len masked)) as [|Hmtu]; [left; apply ifac_verify_refuses; auto|].
  destruct (decide (len masked <= 2 + size)) as [|Hlen]; [left; apply ifac_verify_refuses; auto|].
  destruct masked as [|m0 [|m1 rest]]; rewrite ?len_cons, ?(@len_nil Z) in *; try lia.
  destruct (decide (Z.land m0 IFAC_FLAG = 0)) as [|Hf]; [left; apply ifac_verify_refuses; eauto 6|].
  destruct (cut rest size) as (ifac & body & -> & Hi & Hbl); [lia|]. rewrite len_app in *.
  destruct (hkdf_stream key ifac (zeros (2 + len body + size))) as (okm & Hokb & He & _);
    [done|lia|rewrite len_zeros by lia; lia|]. rewrite len_zeros in * by lia.
  destruct (cut_stream okm size body) as (k0 & k1 & kmid & kbody & -> & ? & Hkb & ? & ? & ? & ?); [lia|done|].
  rewrite !bytes_ok_cons, bytes_ok_app in Hb. destruct Hb as (? & ? & ? & ?).
  rewrite (ifac_verify_parts identity key m0 m1 ifac body k0 k1 kmid kbody size out) by (done || lia).
  destruct (Z.ltb_spec (len out) (2 + len body)); [left; by eexists|].
  case_bool_decide as Heq; [|left; by eexists]. right.
  destruct (flags_facts m0 k0) as (_ & _ & ? & Hclear & _ & Hback); [done..|].
  assert (length (xor_bytes body kbody) = length body) as Hlx by (apply len_xor_bytes; unfold len in Hkb; lia).
  set (raw := unmask_flags m0 k0 :: Z.lxor m1 k1 :: xor_bytes body kbody) in *.
  assert (len raw = 2 + len body) as Hlr by (unfold raw; rewrite !len_cons; unfold len; lia).
  exists raw. split_and!; [| |lia|lia].
  - constructor; [done|]. constructor; [by apply lxor_u8 | by apply xor_bytes_ok].
  - exists (unmask_flags m0 k0), (Z.lxor m1 k1), (xor_bytes body kbody), k0, k1, kmid, kbody.
    split_and!; [done|done| |done| | |].
    + unfold len in *. lia.
    + unfold len in *. lia.
    + by rewrite <- Heq, Hlr.
    + rewrite <- Heq, Hback, xor_bytes_cancel by (done || (unfold len in *; lia)).
      by rewrite (Z.lxor_comm k1), lxor_cancel.
Qed.
End masked.

(** What masking accepts. *)
Lemma ifac_apply_inv `{P : RnsPrims} identity key size raw out n out' :
  ifac_apply_outbound raw identity key size out = (Ok n, out') ->
  exists b0 b1 body, raw = b0 :: b1 :: body /\ 0 < len body /\ Z.land b0 IFAC_FLAG = 0 /\
    n = len raw + size /\ len raw + size <= RNS_MTU /\ len raw + size <= len out.
Proof.
  unfold ifac_apply_outbound. intros H.
  apply lift_inv in H as (_ & _ & H). apply lift_inv in H as (_ & _ & H). apply lift_inv in H as (u & Hraw & H).
  unfold validate_raw_packet_len, HEADER_LEN in Hraw. destruct (Z.leb_spec (len raw) 2); [done|].
  destruct raw as [|b0 [|b1 body]]; rewrite ?len_cons, ?(@len_nil Z) in *; try lia.
  rewrite index_0, lift_bind_ok in H. apply guard_inv in H as [Hf H]. apply negb_false_iff, Z.eqb_eq in Hf.
  apply lift_inv in H as (required & Hr & H). unfold checked_add in Hr.
  destruct (Z.leb_spec (1 + (1 + len body) + size) usize_MAX); [|done]. injection Hr as <-.
  apply lift_inv in H as (u' & Hw & H). unfold validate_wire_len in Hw. rewrite Z.gtb_ltb in Hw.
  destruct (Z.ltb_spec RNS_MTU (1 + (1 + len body) + size)); [done|].
  rewrite get_bind in H. apply guard_inv in H as [Hout H]. apply Z.ltb_ge in Hout.
  do 2 apply lift_inv in H as (? & _ & H). apply io_bind_inv in H as (? & ? & _ & H). rewrite get_bind in H.
  apply lift_inv in H as (? & _ & H). apply io_bind_inv in H as (? & ? & _ & H).
  do 2 apply lift_inv in H as (? & _ & H). do 3 apply io_bind_inv in H as (? & ? & _ & H).
  injection H as <- _. exists b0, b1, body. split_and!; try done; lia.
Qed.

(** Access codes, round trip: with an access code of 1 to 64 bytes and a
    key, every packet of more than two bytes whose access-code flag is clear
    and that fits the MTU with its access code is masked into a packet that
    carries the flag and the code, and verifying that packet on the same
    interface gives the packet back, bit for bit. *)
Theorem ifac_roundtrip `{P : RnsPrims, L : !RnsPrimsLaws P} identity key size b0 b1 body out out2 :
  let raw := b0 :: b1 :: body in
  ifac_params_ok identity key size -> bytes_ok raw -> body <> [] -> Z.land b0 IFAC_FLAG = 0 ->
  len raw + size <= RNS_MTU -> len raw + size <= len out -> len raw <= len out2 ->
  exists m0 masked, len (m0 :: masked) = len raw + size /\ Z.land m0 IFAC_FLAG <> 0 /\ bytes_ok (m0 :: masked) /\
    ifac_apply_outbound raw identity key size out =
      (Ok (len (m0 :: masked)), (m0 :: masked) ++ drop (length (m0 :: masked)) out) /\
    ifac_verify_inbound (m0 :: masked) identity key size out2 = (Ok (len raw), raw ++ drop (length raw) out2).
Proof.
  intros raw Hok Hb Hne Hf Hmtu Hout Hout2.
  assert (0 < len body) by (destruct body; [done|]; rewrite len_cons; pose proof (len_nonneg body); lia).
  destruct (masks_exists identity key size b0 b1 body) as (masked & Hm & Hbm); [done..|].
  destruct (ifac_apply_masks identity key size raw masked out) as [Hl Ha]; [done..|].
  pose proof (ifac_verify_masks identity key size raw masked out2 Hok Hb Hm Hmtu Hout2) as Hv.
  destruct masked as [|m0 masked]; [pose proof Hok as (_ & _ & ?); rewrite (@len_nil Z) in Hl; pose proof (len_nonneg raw); lia|].
  exists m0, masked. split_and!; try done. intros Hz.
  destruct (ifac_verify_refuses identity key size (m0 :: masked) out2) as [e He]; [done|right; right; eauto|]. congruence.
Qed.

(** C31. Access codes, exactness: [ifac_verify_inbound] never panics; it accepts
    a packet exactly when [ifac_apply_outbound] produces it from some packet on
    this interface, and then writes that packet; when it refuses, the output
    buffer is untouched. *)
Theorem ifac_verify_exact `{P : RnsPrims, L : !RnsPrimsLaws P} identity key size masked out :
  ifac_params_ok identity key size -> bytes_ok masked ->
  let produces raw := bytes_ok raw /\
    ifac_apply_outbound raw identity key size (zeros (len masked)) = (Ok (len masked), masked) in
  let '(r, out') := ifac_verify_inbound masked identity key size out in
  r <> Panic /\
  (forall n, r = Ok n <-> exists raw, produces raw /\ n = len raw /\ len raw <= len out) /\
  (forall raw, produces raw -> len raw <= len out -> out' = raw ++ drop (length raw) out) /\
  (forall e, r = Err e -> out' = out).
Proof.
  intros Hok Hb. cbv zeta.
  assert (forall raw, bytes_ok raw /\ ifac_apply_outbound raw identity key size (zeros (len masked)) = (Ok (len masked), masked) ->
    len raw <= len out ->
    ifac_verify_inbound masked identity key size out = (Ok (len raw), raw ++ drop (length raw) out)) as Hacc.
  { intros raw [Hbr Ha] Hlen. pose proof (ifac_apply_inv _ _ _ _ _ _ _ Ha) as (b0 & b1 & body & -> & Hpos & Hf & Hn & Hmtu & Hz).
    destruct (masks_exists identity key size b0 b1 body) as (m & Hm & _); [done..|].
    destruct (ifac_apply_masks identity key size _ m (zeros (len masked)) Hok Hm Hmtu Hz) as [Hlm Ha'].
    rewrite Ha in Ha'. injection Ha' as _ Heq.
    rewrite drop_ge in Heq by (unfold zeros; rewrite length_replicate; unfold len in *; lia). rewrite app_nil_r in Heq. subst m.
    by apply ifac_verify_masks. }
  destruct (ifac_verify_cases identity key size masked out Hok Hb) as [[e He]|(raw & Hbr & Hm & Hmtu & Hlen)].
  - rewrite He. split; [done|]. split; [|split; [|done]].
    + intros n. split; [done|]. intros (raw & Hp & -> & Hl). rewrite (Hacc raw Hp Hl) in He. done.
    + intros raw Hp Hl. rewrite (Hacc raw Hp Hl) in He. done.
  - rewrite (ifac_verify_masks identity key size raw masked out) by done. split; [done|]. split; [|split; [|done]].
    + intros n. split; [|intros (raw' & Hp & -> & Hl)].
      * intros [= <-]. exists raw. split; [|done]. split; [done|]. pose proof (len_nonneg masked).
        assert (len masked = len raw + size) as Hlm by (by apply (ifac_apply_masks identity key size raw masked (zeros (len raw + size)));
          [..|rewrite len_zeros; [|pose proof Hok as (_ & _ & ?); pose proof (len_nonneg raw); lia]]).
        destruct (ifac_apply_masks identity key size raw masked (zeros (len masked)) Hok Hm Hmtu) as [_ ->];
          [rewrite len_zeros by done; lia|].
        rewrite drop_ge by (unfold zeros; rewrite length_replicate; unfold len; lia). by rewrite app_nil_r.
      * pose proof (Hacc raw' Hp Hl) as H'. rewrite (ifac_verify_masks identity key size raw masked out) in H' by done. congruence.
    + intros raw' Hp Hl. pose proof (Hacc raw' Hp Hl) as H'. rewrite (ifac_verify_masks identity key size raw masked out) in H' by done. congruence.
Qed.

(** ** Witnesses *)
Definition sample_ifac_packet : list Z := [0x20; 0; 1; 2; 3].

Lemma sample_ifac_ok : ifac_params_ok sample_secret [1; 2] 8.
Proof. split; [exact sample_secret_ok|]. split; [discriminate | split; discriminate]. Defined.

Lemma ifac_roundtrip_witness :
  exists masked, fst (@ifac_apply_outbound toy_prims sample_ifac_packet sample_secret [1; 2] 8 (zeros 20)) = Ok 13 /\
    fst (@ifac_verify_inbound toy_prims masked sample_secret [1; 2] 8 (zeros 5)) = Ok 5.
Proof.
  assert (bytes_ok sample_ifac_packet) as H1 by (apply (bool_decide_unpack _); vm_compute; exact I).
  assert (len sample_ifac_packet + 8 <= RNS_MTU) as H2 by (vm_compute; discriminate).
  assert (len sample_ifac_packet + 8 <= len (zeros 20)) as H3 by (vm_compute; discriminate).
  assert (len sample_ifac_packet <= len (zeros 5)) as H4 by (vm_compute; discriminate).
  assert ([1; 2; 3] <> []) as H5 by discriminate.
  destruct (@ifac_roundtrip toy_prims toy_prims_laws sample_secret [1; 2] 8 0x20 0 [1; 2; 3] (zeros 20) (zeros 5)
    sample_ifac_ok H1 H5 eq_refl H2 H3 H4) as (m0 & masked & Hl & _ & _ & Ha & Hv).
  exists (m0 :: masked). unfold sample_ifac_packet. rewrite Ha, Hv, Hl. split; reflexivity.
Defined.

Lemma ifac_verify_exact_witness :
  fst (@ifac_verify_inbound toy_prims (0x20 :: replicate 12 0) sample_secret [1; 2] 8 (zeros 5)) <> Panic.
Proof.
  assert (bytes_ok (0x20 :: replicate 12 0)) as H by (apply (bool_decide_unpack _); vm_compute; exact I).
  pose proof (@ifac_verify_exact toy_prims toy_prims_laws sample_secret [1; 2] 8 (0x20 :: replicate 12 0) (zeros 5) sample_ifac_ok H) as Hv.
  cbv zeta in Hv. destruct (@ifac_verify_inbound toy_prims (0x20 :: replicate 12 0) sample_secret [1; 2] 8 (zeros 5)) as [r out'].
  exact (proj1 Hv).
Defined.
