(* ===== verification/Loopback.v ===== *)
(** [hyf_link_loopback]: the in-memory link pair
    (src/crates/hyf_link_loopback/src/loopback.rs, error.rs).

    An endpoint keeps received frames in an array of [N] optional slots, a send
    fills the peer's first free slot and a receive takes slot 0 and shifts the
    rest.  The array is proved to refine a bounded first-in first-out queue,
    and the driver is an instance of the [LinkDriver] interface. *)
From S2P Require Import Prelude Cursor Link.

Definition LOOPBACK_MAX_FRAME_LEN : Z := 2048.
Definition LOOPBACK_LEFT_ID : list Z := [0; 0; 0; 0; 0; 0; 0; 0; 0; 0; 0; 0; 0; 0; 0; 1].
Definition LOOPBACK_RIGHT_ID : list Z := [0; 0; 0; 0; 0; 0; 0; 0; 0; 0; 0; 0; 0; 0; 0; 2].

Inductive LoopbackError :=
| LinkIsDown (link_id : list Z)
| FrameTooLarge (actual mtu : Z)
| InternalFrameTooLarge (actual maximum : Z)
| QueueFull (link_id : list Z) (capacity : Z)
| OutputTooSmall (actual required : Z)
| LinkMismatch (expected actual : list Z).
#[export] Instance LoopbackError_eq_dec : EqDecision LoopbackError. Proof. solve_decision. Defined.

Definition loopback_error_kind (e : LoopbackError) : LinkDriverErrorKind :=
  match e with
  | LinkIsDown _ => LinkDown
  | QueueFull _ _ => Backpressure
  | OutputTooSmall _ _ => Link.OutputTooSmall
  | FrameTooLarge _ _ | InternalFrameTooLarge _ _ => DriverFrameTooLarge
  | LinkMismatch _ _ => Unsupported
  end.

Inductive LoopbackSide := Left | Right.

Definition side_link_id (s : LoopbackSide) : list Z :=
  match s with Left => LOOPBACK_LEFT_ID | Right => LOOPBACK_RIGHT_ID end.
Definition peer_link_id (s : LoopbackSide) : list Z :=
  match s with Left => LOOPBACK_RIGHT_ID | Right => LOOPBACK_LEFT_ID end.

Record QueuedFrame := mk_queued {
  qf_bytes : list Z;        (* [u8; LOOPBACK_MAX_FRAME_LEN] *)
  qf_len : Z;
  qf_received_at_ms : Z;
}.

Record LoopbackEndpoint := mk_endpoint {
  ep_link_id : list Z;
  ep_mtu : Z;
  ep_up : bool;
  ep_queue : list (option QueuedFrame);   (* N slots *)
}.

Record LoopbackPair := mk_pair { pair_left : LoopbackEndpoint; pair_right : LoopbackEndpoint }.

Record LoopbackDriver := mk_driver { drv_pair : LoopbackPair; drv_side : LoopbackSide }.

(** ** Endpoints *)
Definition endpoint_new (N : Z) (link_id : list Z) (mtu : Z) : LoopbackEndpoint :=
  mk_endpoint link_id mtu true (replicate (Z.to_nat N) None).

Definition queued_len (ep : LoopbackEndpoint) : Z :=
  len (List.filter (fun frame => match frame with Some _ => true | None => false end) (ep_queue ep)).

Definition with_queue (ep : LoopbackEndpoint) (q : list (option QueuedFrame)) : LoopbackEndpoint :=
  mk_endpoint (ep_link_id ep) (ep_mtu ep) (ep_up ep) q.

Definition set_up (up : bool) (ep : LoopbackEndpoint) : LinkEvent * LoopbackEndpoint :=
  (if up then Up (ep_link_id ep) else Down (ep_link_id ep), mk_endpoint (ep_link_id ep) (ep_mtu ep) up (ep_queue ep)).

Definition validate_frame_len (ep : LoopbackEndpoint) (bytes : list Z) : outcome LoopbackError unit :=
  if len bytes >? ep_mtu ep then Err (FrameTooLarge (len bytes) (ep_mtu ep))
  else if len bytes >? LOOPBACK_MAX_FRAME_LEN then Err (InternalFrameTooLarge (len bytes) LOOPBACK_MAX_FRAME_LEN)
  else Ok tt.

Definition validate_send (ep : LoopbackEndpoint) (bytes : list Z) : outcome LoopbackError unit :=
  if negb (ep_up ep) then Err (LinkIsDown (ep_link_id ep)) else validate_frame_len ep bytes.
Definition validate_receive (ep : LoopbackEndpoint) (bytes : list Z) : outcome LoopbackError unit :=
  if negb (ep_up ep) then Err (LinkIsDown (ep_link_id ep)) else validate_frame_len ep bytes.

Definition enqueue (bytes : list Z) (received_at_ms : Z) : io LoopbackEndpoint LoopbackError unit :=
  ep ← get;
  match position_none (ep_queue ep) with
  | None => lift (Err (QueueFull (ep_link_id ep) (len (ep_queue ep))))
  | Some index =>
      stored ← lift (write_at (zeros LOOPBACK_MAX_FRAME_LEN) 0 bytes);
      queue ← lift (set_at (ep_queue ep) index (Some (mk_queued stored (len bytes) received_at_ms)));
      put (with_queue ep queue)
  end.

(** [self] sends to [peer], which is the state. *)
Definition send_bytes_to (self : LoopbackEndpoint) (bytes : list Z) (now_ms : Z) : io LoopbackEndpoint LoopbackError unit :=
  peer ← get;
  _ ← lift (validate_send self bytes);
  _ ← lift (validate_receive peer bytes);
  enqueue bytes now_ms.

Definition send_command_to (self : LoopbackEndpoint) (command : LinkCommand) (now_ms : Z) : io LoopbackEndpoint LoopbackError unit :=
  if negb (bool_decide (command_link_id command = ep_link_id self)) then
    lift (Err (LinkMismatch (ep_link_id self) (command_link_id command)))
  else send_bytes_to self (command_bytes command) now_ms.

(** [for index in index..N { queue[index - 1] = queue[index] }], [n] steps. *)
Fixpoint shift_loop {E} (n : nat) (index : Z) (queue : list (option QueuedFrame)) : outcome E (list (option QueuedFrame)) :=
  match n with
  | O => Ok queue
  | S n' =>
      x ← Prelude.index queue index;
      queue' ← set_at queue (index - 1) x;
      shift_loop n' (index + 1) queue'
  end.

Definition shift_queue {E} (queue : list (option QueuedFrame)) : outcome E (list (option QueuedFrame)) :=
  let N := len queue in
  if N =? 0 then Ok queue
  else
    queue' ← shift_loop (Z.to_nat (N - 1)) 1 queue;
    set_at queue' (N - 1) None.

(** The state is the endpoint and the output buffer. *)
Definition receive_into : io (LoopbackEndpoint * list Z) LoopbackError (option LinkFrameRef) :=
  '(ep, output) ← get;
  slot ← lift (index (ep_queue ep) 0);
  match slot with
  | None => mret None
  | Some frame =>
      _ ← lift (guard_err (len output <? qf_len frame) (OutputTooSmall (len output) (qf_len frame)));
      bytes ← lift (slice (qf_bytes frame) 0 (qf_len frame));
      output' ← lift (write_at output 0 bytes);
      _ ← put (ep, output');
      queue' ← lift (shift_queue (ep_queue ep));
      _ ← put (with_queue ep queue', output');
      view ← lift (slice output' 0 (qf_len frame));
      mret (Some (mk_frame (ep_link_id ep) (qf_received_at_ms frame) view))
  end.

(** ** The driver *)
Definition pair_new (N mtu : Z) : LoopbackPair :=
  mk_pair (endpoint_new N LOOPBACK_LEFT_ID mtu) (endpoint_new N LOOPBACK_RIGHT_ID mtu).
Definition driver_new (N : Z) (side : LoopbackSide) (mtu : Z) : LoopbackDriver := mk_driver (pair_new N mtu) side.

Definition tx_endpoint (d : LoopbackDriver) : LoopbackEndpoint :=
  match drv_side d with Left => pair_left (drv_pair d) | Right => pair_right (drv_pair d) end.
Definition rx_endpoint (d : LoopbackDriver) : LoopbackEndpoint :=
  match drv_side d with Left => pair_right (drv_pair d) | Right => pair_left (drv_pair d) end.

(** The endpoint at the given side of the pair, and its replacement. *)
Definition endpoint_at (side : LoopbackSide) (d : LoopbackDriver) : LoopbackEndpoint :=
  match side with Left => pair_left (drv_pair d) | Right => pair_right (drv_pair d) end.
Definition set_endpoint_at (side : LoopbackSide) (ep : LoopbackEndpoint) (d : LoopbackDriver) : LoopbackDriver :=
  match side with
  | Left => mk_driver (mk_pair ep (pair_right (drv_pair d))) (drv_side d)
  | Right => mk_driver (mk_pair (pair_left (drv_pair d)) ep) (drv_side d)
  end.
Definition other_side (side : LoopbackSide) : LoopbackSide := match side with Left => Right | Right => Left end.

(** [endpoint_for_link_ref] and [endpoint_for_link_mut]: the endpoint as its side. *)
Definition endpoint_for_link (link_id : list Z) : outcome LoopbackError LoopbackSide :=
  if bool_decide (link_id = LOOPBACK_LEFT_ID) then Ok Left
  else if bool_decide (link_id = LOOPBACK_RIGHT_ID) then Ok Right
  else Err (LinkMismatch LOOPBACK_LEFT_ID link_id).

(** A method of one endpoint, run on the driver that owns it. *)
Definition at_endpoint {A} (side : LoopbackSide) (m : io LoopbackEndpoint LoopbackError A) : io LoopbackDriver LoopbackError A :=
  fun d => let '(r, ep) := m (endpoint_at side d) in (r, set_endpoint_at side ep d).
Definition at_endpoint_out {A} (side : LoopbackSide) (m : io (LoopbackEndpoint * list Z) LoopbackError A)
    : io (LoopbackDriver * list Z) LoopbackError A := fun '(d, output) =>
  let '(r, (ep, output')) := m (endpoint_at side d, output) in (r, (set_endpoint_at side ep d, output')).

Definition set_link_up (link_id : list Z) (up : bool) : io LoopbackDriver LoopbackError LinkEvent :=
  side ← lift (endpoint_for_link link_id);
  at_endpoint side (fun ep => let '(event, ep') := set_up up ep in (Ok event, ep')).

Definition driver_queued_len (d : LoopbackDriver) (link_id : list Z) : outcome LoopbackError Z :=
  side ← endpoint_for_link link_id;
  Ok (queued_len (endpoint_at side d)).

Definition receive_link_frame (link_id : list Z) : io (LoopbackDriver * list Z) LoopbackError (option LinkFrameRef) :=
  side ← lift (endpoint_for_link link_id);
  at_endpoint_out side receive_into.

(** Sends from the endpoint at [side] to the other one. *)
Definition send_from (side : LoopbackSide) (bytes : list Z) (now_ms : Z) : io LoopbackDriver LoopbackError unit :=
  d ← get;
  at_endpoint (other_side side) (send_bytes_to (endpoint_at side d) bytes now_ms).

Definition send_link_bytes (link_id bytes : list Z) (now_ms : Z) : io LoopbackDriver LoopbackError unit :=
  d ← get;
  if bool_decide (link_id = LOOPBACK_LEFT_ID) then send_from Left bytes now_ms
  else if bool_decide (link_id = LOOPBACK_RIGHT_ID) then send_from Right bytes now_ms
  else lift (Err (LinkMismatch (side_link_id (drv_side d)) link_id)).

#[export] Instance loopback_link_driver : LinkDriver LoopbackDriver LoopbackError := {|
  driver_link_id d := side_link_id (drv_side d);
  driver_link_class _ := Loopback;
  driver_mtu d := ep_mtu (tx_endpoint d);
  driver_is_up d := ep_up (tx_endpoint d) && ep_up (rx_endpoint d);
  send_bytes bytes now_ms := d ← get; send_from (drv_side d) bytes now_ms;
  poll_frame _ := fun '(d, output) => at_endpoint_out (other_side (drv_side d)) receive_into (d, output);
  driver_error_kind := loopback_error_kind;
|}.

(** ** The queue *)
(** A queued frame as its bytes and arrival time, and the slot that holds it. *)
Definition queued (f : list Z * Z) : QueuedFrame :=
  mk_queued (f.1 ++ drop (length f.1) (zeros LOOPBACK_MAX_FRAME_LEN)) (len f.1) f.2.

(** The array of endpoint [ep] holds the queue [q], oldest frame first. *)
Record queue_is (N : Z) (ep : LoopbackEndpoint) (q : list (list Z * Z)) : Prop := {
  qi_slots : ep_queue ep = (Some <$> (queued <$> q)) ++ replicate (Z.to_nat (N - len q)) None;
  qi_bound : len q <= N;
  qi_frames : Forall (fun f => len f.1 <= LOOPBACK_MAX_FRAME_LEN) q;
}.

Lemma queue_is_len N ep q : queue_is N ep q -> len (ep_queue ep) = N.
Proof. intros [-> Hb _]. rewrite len_app, len_map, len_map, len_replicate. lia. Qed.

Lemma queue_is_new N link_id mtu : 0 <= N -> queue_is N (endpoint_new N link_id mtu) [].
Proof.
  intros HN. split; [|rewrite (@len_nil (list Z * Z)); lia|constructor].
  rewrite (@len_nil (list Z * Z)), Z.sub_0_r. done.
Qed.

Lemma queued_len_spec N ep q : queue_is N ep q -> queued_len ep = len q.
Proof.
  intros [Hs _ _]. unfold queued_len. rewrite Hs, List.filter_app.
  assert (forall n, List.filter (fun frame : option QueuedFrame => match frame with Some _ => true | None => false end)
    (replicate n None) = []) as -> by (intros n; by induction n).
  rewrite app_nil_r. assert (forall l : list QueuedFrame,
    List.filter (fun frame => match frame with Some _ => true | None => false end) (Some <$> l) = Some <$> l) as ->.
  { induction l as [|x l IH]; [done|]. cbn. by rewrite IH. }
  by rewrite !len_map.
Qed.

Lemma shift_loop_spec {E} pre x l i :
  i = len pre + 1 -> exists z, shift_loop (E:=E) (length l) i (pre ++ x :: l) = Ok (pre ++ l ++ [z]).
Proof.
  revert pre x i. induction l as [|y l IH]; intros pre x i Hi; [by exists x|]. cbn [length shift_loop].
  change (pre ++ x :: y :: l) with (pre ++ [x] ++ y :: l). rewrite app_assoc.
  rewrite index_app by (rewrite len_app; change (len [x]) with 1; done). cbn [mbind outcome_bind].
  rewrite <- app_assoc. cbn [app]. replace (i - 1) with (len pre) by lia. rewrite set_at_app. cbn [mbind outcome_bind].
  change (pre ++ y :: y :: l) with (pre ++ [y] ++ y :: l). rewrite app_assoc.
  destruct (IH (pre ++ [y]) y (i + 1)) as [z ->]; [rewrite len_app; change (len [y]) with 1; lia|].
  exists z. by rewrite <- app_assoc.
Qed.

Lemma shift_queue_spec {E} x l : shift_queue (E:=E) (x :: l) = Ok (l ++ [None]).
Proof.
  unfold shift_queue. rewrite len_cons. pose proof (len_nonneg l). destruct (Z.eqb_spec (1 + len l) 0); [lia|].
  replace (Z.to_nat (1 + len l - 1)) with (length l) by (unfold len; lia).
  destruct (shift_loop_spec (E:=E) [] x l 1 eq_refl) as [z Hz]. cbn [app] in Hz. rewrite Hz. cbn [mbind outcome_bind].
  replace (1 + len l - 1) with (len l) by lia. apply set_at_app.
Qed.

(** Receiving takes the oldest frame. *)
Lemma receive_into_spec N ep q output :
  0 < N -> queue_is N ep q ->
  match q with
  | [] => receive_into (ep, output) = (Ok None, (ep, output))
  | (bytes, t) :: q' =>
      if len output <? len bytes then receive_into (ep, output) = (Err (OutputTooSmall (len output) (len bytes)), (ep, output))
      else exists ep', receive_into (ep, output) =
        (Ok (Some (mk_frame (ep_link_id ep) t bytes)), (ep', bytes ++ drop (length bytes) output)) /\
        queue_is N ep' q' /\ ep_link_id ep' = ep_link_id ep /\ ep_mtu ep' = ep_mtu ep /\ ep_up ep' = ep_up ep
  end.
Proof.
  intros HN [Hs Hb Hf]. unfold receive_into. rewrite get_bind. destruct q as [|[bytes t] q].
  - rewrite Hs. rewrite (@len_nil (list Z * Z)), Z.sub_0_r. replace (Z.to_nat N) with (S (Z.to_nat (N - 1))) by lia. done.
  - apply list.Forall_cons in Hf as [Hfb Hf]. cbn [fst] in Hfb. rewrite len_cons in *.
    rewrite Hs. cbn [fmap list_fmap app]. rewrite index_0, lift_bind_ok. cbn [qf_len queued fst snd].
    destruct (Z.ltb_spec (len output) (len bytes)); [done|]. rewrite guard_false by done.
    pose proof (len_nonneg bytes). unfold queued. cbn [qf_bytes fst snd qf_received_at_ms].
    rewrite slice_prefix by (rewrite len_app; pose proof (len_nonneg (drop (length bytes) (zeros LOOPBACK_MAX_FRAME_LEN))); lia).
    rewrite take_len_app, lift_bind_ok, write_at_0, lift_bind_ok, put_bind by done.
    rewrite shift_queue_spec, lift_bind_ok, put_bind.
    rewrite slice_prefix by (rewrite len_app; pose proof (len_nonneg (drop (length bytes) output)); lia).
    rewrite take_len_app, lift_bind_ok. eexists. split; [done|]. split; [|done]. split; [|lia|done].
    cbn [ep_queue with_queue]. rewrite <- app_assoc. f_equal.
    replace (Z.to_nat (N - len q)) with (S (Z.to_nat (N - (1 + len q)))) by lia. by rewrite replicate_S_end.
Qed.

(** Sending appends, or says why not. *)
Definition send_refusal (self peer : LoopbackEndpoint) (queued capacity : Z) (bytes : list Z) : option LoopbackError :=
  if negb (ep_up self) then Some (LinkIsDown (ep_link_id self))
  else if ep_mtu self <? len bytes then Some (FrameTooLarge (len bytes) (ep_mtu self))
  else if LOOPBACK_MAX_FRAME_LEN <? len bytes then Some (InternalFrameTooLarge (len bytes) LOOPBACK_MAX_FRAME_LEN)
  else if negb (ep_up peer) then Some (LinkIsDown (ep_link_id peer))
  else if ep_mtu peer <? len bytes then Some (FrameTooLarge (len bytes) (ep_mtu peer))
  else if capacity <=? queued then Some (QueueFull (ep_link_id peer) capacity)
  else None.

Lemma enqueue_spec N ep q bytes t :
  queue_is N ep q -> len bytes <= LOOPBACK_MAX_FRAME_LEN ->
  if N <=? len q then enqueue bytes t ep = (Err (QueueFull (ep_link_id ep) N), ep)
  else exists ep', enqueue bytes t ep = (Ok tt, ep') /\ queue_is N ep' (q ++ [(bytes, t)]) /\
    ep_link_id ep' = ep_link_id ep /\ ep_mtu ep' = ep_mtu ep /\ ep_up ep' = ep_up ep.
Proof.
  intros Hq Hl. pose proof (queue_is_len N ep q Hq) as Hlen. destruct Hq as [Hs Hb Hf].
  unfold enqueue. rewrite get_bind.
  pose proof (position_none_spec (ep_queue ep)) as Hp. destruct (Z.leb_spec N (len q)) as [HN|HN].
  - destruct (position_none (ep_queue ep)) as [i|]; [|by rewrite Hlen].
    destruct Hp as (_ & Hp & _). rewrite Hs in Hp. replace (Z.to_nat (N - len q)) with O in Hp by lia.
    rewrite app_nil_r, list_lookup_fmap in Hp. by destruct ((queued <$> q) !! Z.to_nat i).
  - assert (position_none (ep_queue ep) = Some (len q)) as ->.
    { rewrite Hs. replace (Z.to_nat (N - len q)) with (S (Z.to_nat (N - len q - 1))) by lia.
      cbn [replicate]. generalize (replicate (Z.to_nat (N - len q - 1)) (@None QueuedFrame)) as r. intros r.
      rewrite <- (len_map queued q). unfold position_none. generalize (queued <$> q) as l. intros l.
      replace (len l) with (0 + len l) by lia. generalize 0 as k.
      induction l as [|x l IH]; intros k; cbn; [by rewrite (@len_nil QueuedFrame), Z.add_0_r|].
      cbn in IH. rewrite IH, len_cons. f_equal. lia. }
    rewrite write_at_0, lift_bind_ok by (by rewrite len_zeros). rewrite Hs.
    replace (Z.to_nat (N - len q)) with (S (Z.to_nat (N - len (q ++ [(bytes, t)]))))
      by (rewrite len_app; change (len [(bytes, t)]) with 1; lia). cbn [replicate].
    replace (len q) with (len (Some <$> (queued <$> q))) by (by rewrite !len_map).
    rewrite set_at_app, lift_bind_ok. eexists. split; [done|]. split; [|done]. split.
    + cbn [ep_queue with_queue]. rewrite !fmap_app. cbn. by rewrite <- app_assoc.
    + rewrite len_app. change (len [(bytes, t)]) with 1. lia.
    + apply Forall_app. split; [done|]. by constructor.
Qed.

Lemma send_bytes_to_spec N self peer q bytes t :
  queue_is N peer q ->
  match send_refusal self peer (len q) N bytes with
  | Some e => send_bytes_to self bytes t peer = (Err e, peer)
  | None => exists peer', send_bytes_to self bytes t peer = (Ok tt, peer') /\ queue_is N peer' (q ++ [(bytes, t)]) /\
      ep_link_id peer' = ep_link_id peer /\ ep_mtu peer' = ep_mtu peer /\ ep_up peer' = ep_up peer
  end.
Proof.
  intros Hq. unfold send_refusal, send_bytes_to, validate_send, validate_receive, validate_frame_len.
  rewrite get_bind, !Z.gtb_ltb. destruct (ep_up self); [|done]. cbn [negb].
  destruct (Z.ltb_spec (ep_mtu self) (len bytes)); [done|].
  destruct (Z.ltb_spec LOOPBACK_MAX_FRAME_LEN (len bytes)); [done|]. rewrite lift_bind_ok.
  destruct (ep_up peer) eqn:Hup; [|done]. cbn [negb].
  destruct (Z.ltb_spec (ep_mtu peer) (len bytes)); [done|]. rewrite lift_bind_ok.
  pose proof (enqueue_spec N peer q bytes t Hq) as He. destruct (Z.leb_spec N (len q)); [auto|].
  rewrite <- Hup. auto.
Qed.

(** A pair of capacity zero is accepted by the constructor, and every receive
    on it panics: slot 0 does not exist. *)
Lemma receive_zero_capacity_panics link_id mtu output :
  receive_into (endpoint_new 0 link_id mtu, output) = (Panic, (endpoint_new 0 link_id mtu, output)).
Proof. reflexivity. Qed.

(** ** Histories of a driver *)
Inductive loopback_op :=
| OpSend (from : LoopbackSide) (bytes : list Z) (now_ms : Z)
| OpReceive (at_ : LoopbackSide) (output : list Z)
| OpSetUp (at_ : LoopbackSide) (up : bool).

Inductive loopback_event :=
| Accepted (at_ : LoopbackSide) (f : list Z * Z)
| Delivered (at_ : LoopbackSide) (f : list Z * Z).

#[export] Instance LoopbackSide_eq_dec : EqDecision LoopbackSide. Proof. solve_decision. Defined.

(** One call of the driver's interface; [None] is a panic. *)
Definition run_op (op : loopback_op) (d : LoopbackDriver) : option (list loopback_event * LoopbackDriver) :=
  match op with
  | OpSend from bytes now_ms =>
      match send_link_bytes (side_link_id from) bytes now_ms d with
      | (Ok _, d') => Some ([Accepted (other_side from) (bytes, now_ms)], d')
      | (Err _, d') => Some ([], d')
      | (Panic, _) => None
      end
  | OpReceive at_ output =>
      match receive_link_frame (side_link_id at_) (d, output) with
      | (Ok (Some f), (d', _)) => Some ([Delivered at_ (lf_bytes f, lf_received_at_ms f)], d')
      | (Ok None, (d', _)) | (Err _, (d', _)) => Some ([], d')
      | (Panic, _) => None
      end
  | OpSetUp at_ up =>
      match set_link_up (side_link_id at_) up d with
      | (Ok _, d') | (Err _, d') => Some ([], d')
      | (Panic, _) => None
      end
  end.

Fixpoint run_all (ops : list loopback_op) (d : LoopbackDriver) : option (list loopback_event * LoopbackDriver) :=
  match ops with
  | [] => Some ([], d)
  | op :: ops' =>
      match run_op op d with
      | Some (evs, d') =>
          match run_all ops' d' with
          | Some (evs', d'') => Some (evs ++ evs', d'')
          | None => None
          end
      | None => None
      end
  end.

Definition accepted (side : LoopbackSide) (evs : list loopback_event) : list (list Z * Z) :=
  evs ≫= fun ev => match ev with Accepted s f => if decide (s = side) then [f] else [] | Delivered _ _ => [] end.
Definition delivered (side : LoopbackSide) (evs : list loopback_event) : list (list Z * Z) :=
  evs ≫= fun ev => match ev with Delivered s f => if decide (s = side) then [f] else [] | Accepted _ _ => [] end.

Lemma endpoint_for_side side : endpoint_for_link (side_link_id side) = Ok side.
Proof. by destruct side. Qed.

Lemma endpoint_at_set side side' ep d :
  endpoint_at side' (set_endpoint_at side ep d) = if decide (side' = side) then ep else endpoint_at side' d.
Proof. by destruct side, side', d as [[? ?] ?]. Qed.

Lemma set_endpoint_same side d : set_endpoint_at side (endpoint_at side d) d = d.
Proof. by destruct side, d as [[? ?] ?]. Qed.

Lemma send_link_bytes_from side bytes now d : send_link_bytes (side_link_id side) bytes now d = send_from side bytes now d.
Proof. by destruct side. Qed.

(** Sending on a driver, as a step of the queue at the other side. *)
Lemma send_from_spec N side bytes now d q :
  queue_is N (endpoint_at (other_side side) d) q ->
  match send_refusal (endpoint_at side d) (endpoint_at (other_side side) d) (len q) N bytes with
  | Some e => send_from side bytes now d = (Err e, d)
  | None => exists ep', send_from side bytes now d = (Ok tt, set_endpoint_at (other_side side) ep' d) /\
      queue_is N ep' (q ++ [(bytes, now)])
  end.
Proof.
  intros Hq. pose proof (send_bytes_to_spec N (endpoint_at side d) _ q bytes now Hq) as Hs.
  unfold send_from. rewrite get_bind. unfold at_endpoint. destruct (send_refusal _ _ _ _ _).
  - rewrite Hs. by rewrite set_endpoint_same.
  - destruct Hs as (ep' & -> & Hq' & _). by exists ep'.
Qed.

(** What one call does to the two queues. *)
Lemma run_op_spec N op d (qs : LoopbackSide -> list (list Z * Z)) :
  0 < N -> (forall side, queue_is N (endpoint_at side d) (qs side)) ->
  exists evs d' qs', run_op op d = Some (evs, d') /\
    (forall side, queue_is N (endpoint_at side d') (qs' side) /\
       qs side ++ accepted side evs = delivered side evs ++ qs' side).
Proof.
  intros HN Hqs. destruct op as [from bytes now|at_ output|at_ up]; cbn [run_op].
  - rewrite send_link_bytes_from. pose proof (send_from_spec N from bytes now d _ (Hqs (other_side from))) as Hs.
    destruct (send_refusal _ _ _ _ _).
    + rewrite Hs. exists [], d, qs. split; [done|]. intros side. by rewrite app_nil_r.
    + destruct Hs as (ep' & -> & Hq'). do 2 eexists.
      exists (fun side => if decide (side = other_side from) then qs (other_side from) ++ [(bytes, now)] else qs side).
      split; [done|]. intros side. rewrite endpoint_at_set. unfold accepted, delivered. cbn.
      destruct (decide (side = other_side from)) as [->|Hne].
      * rewrite decide_True by done. by rewrite app_nil_r.
      * rewrite decide_False by congruence. by rewrite app_nil_r.
  - unfold receive_link_frame. rewrite endpoint_for_side, lift_bind_ok. unfold at_endpoint_out.
    pose proof (receive_into_spec N (endpoint_at at_ d) (qs at_) output HN (Hqs at_)) as Hr.
    destruct (qs at_) as [|[bytes t] q'] eqn:Hq.
    + rewrite Hr, set_endpoint_same. exists [], d, qs. split; [done|]. intros side. by rewrite app_nil_r.
    + destruct (Z.ltb_spec (len output) (len bytes)).
      * rewrite Hr, set_endpoint_same. exists [], d, qs. split; [done|]. intros side. by rewrite app_nil_r.
      * destruct Hr as (ep' & -> & Hq' & _). do 2 eexists.
        exists (fun side => if decide (side = at_) then q' else qs side).
        split; [done|]. intros side. rewrite endpoint_at_set. unfold accepted, delivered. cbn.
        destruct (decide (side = at_)) as [->|Hne].
        -- rewrite decide_True by done. by rewrite app_nil_r, Hq.
        -- rewrite decide_False by congruence. by rewrite app_nil_r.
  - unfold set_link_up. rewrite endpoint_for_side, lift_bind_ok. unfold at_endpoint, set_up. do 2 eexists.
    exists qs. split; [done|]. intros side. rewrite app_nil_r. split; [|done].
    rewrite endpoint_at_set. destruct (decide (side = at_)) as [->|]; [|done]. destruct (Hqs at_). by split.
Qed.

(** The loopback pair is two bounded first-in first-out channels: over
    every history of sends, receives and link changes, in any interleaving, of
    a pair with at least one slot, nothing panics, and at each side the frames
    accepted for it are exactly the frames delivered there, in order, with
    their arrival times, followed by the at most [N] frames still queued. *)
Theorem loopback_fifo N side0 mtu ops :
  0 < N ->
  exists evs d', run_all ops (driver_new N side0 mtu) = Some (evs, d') /\
    forall side, exists q, accepted side evs = delivered side evs ++ q /\ queued_len (endpoint_at side d') = len q /\ len q <= N.
Proof.
  intros HN. assert (forall d qs, (forall side, queue_is N (endpoint_at side d) (qs side)) ->
    exists evs d' qs', run_all ops d = Some (evs, d') /\ forall side, queue_is N (endpoint_at side d') (qs' side) /\
      qs side ++ accepted side evs = delivered side evs ++ qs' side) as Hrun.
  { induction ops as [|op ops IH]; intros d qs Hqs; cbn [run_all].
    - exists [], d, qs. split; [done|]. intros side. by rewrite app_nil_r.
    - destruct (run_op_spec N op d qs HN Hqs) as (evs & d' & qs' & -> & H1).
      destruct (IH d' qs') as (evs' & d'' & qs'' & -> & H2); [intros side; apply H1|].
      exists (evs ++ evs'), d'', qs''. split; [done|]. intros side. split; [apply H2|].
      destruct (H1 side) as [_ E1], (H2 side) as [_ E2]. unfold accepted, delivered in *.
      rewrite !bind_app, app_assoc, E1, <- app_assoc, E2. by rewrite app_assoc. }
  destruct (Hrun (driver_new N side0 mtu) (fun _ => [])) as (evs & d' & qs' & Hr & H).
  { intros side. destruct side; apply queue_is_new; lia. }
  exists evs, d'. split; [done|]. intros side. destruct (H side) as [Hq E]. exists (qs' side).
  split; [done|]. split; [by apply queued_len_spec in Hq | by destruct Hq].
Qed.

(** One send and one receive, on every branch: a send is refused, with the
    pair unchanged, exactly when the sender or the receiver is down, the frame
    exceeds one of the two MTUs or the internal maximum, or the receiving queue
    is full, checked in that order; the driver reports the refusal of a down
    link or a full queue as a failure to retry.  Otherwise, if the queue was
    empty, the next receive at the other side with a large enough buffer
    returns the frame with the time it was sent. *)
Theorem loopback_send_receive N side bytes now d q output :
  0 < N -> queue_is N (endpoint_at (other_side side) d) q ->
  match send_refusal (endpoint_at side d) (endpoint_at (other_side side) d) (len q) N bytes with
  | Some e => send_link_bytes (side_link_id side) bytes now d = (Err e, d) /\
      (is_recoverable_send_failure (driver_error_kind (D:=LoopbackDriver) e) = true <->
       exists id, e = LinkIsDown id \/ e = QueueFull id N)
  | None => exists d', send_link_bytes (side_link_id side) bytes now d = (Ok tt, d') /\
      queued_len (endpoint_at (other_side side) d') = len q + 1 /\
      (q = [] -> len bytes <= len output ->
       fst (receive_link_frame (side_link_id (other_side side)) (d', output)) =
         Ok (Some (mk_frame (ep_link_id (endpoint_at (other_side side) d')) now bytes)))
  end.
Proof.
  intros HN Hq. rewrite send_link_bytes_from. pose proof (send_from_spec N side bytes now d q Hq) as Hs.
  destruct (send_refusal _ _ _ _ _) as [e|] eqn:He.
  - split; [done|]. unfold send_refusal in He.
    repeat (case_match; [simplify_eq; cbn; split; try done; try (intros (? & [?|?]); done); eauto|]). done.
  - destruct Hs as (ep' & -> & Hq'). eexists. split; [done|].
    rewrite endpoint_at_set, decide_True by done. split.
    + rewrite (queued_len_spec N ep' _ Hq'), len_app. done.
    + intros -> Hl. cbn [app] in Hq'. unfold receive_link_frame. rewrite endpoint_for_side, lift_bind_ok.
      unfold at_endpoint_out. rewrite endpoint_at_set, decide_True by done.
      pose proof (receive_into_spec N ep' [(bytes, now)] output HN Hq') as Hr. cbv iota beta in Hr.
      destruct (Z.ltb_spec (len output) (len bytes)); [lia|]. destruct Hr as (ep'' & -> & _). done.
Qed.

(** ** Witnesses *)
Lemma loopback_fifo_witness :
  exists evs d', run_all
    [OpSend Left [1] 10; OpSend Left [2] 11; OpReceive Right (zeros 4); OpSend Right [3] 12; OpSend Left [4] 13]
    (driver_new 2 Left 100) = Some (evs, d') /\
    exists q, accepted Right evs = delivered Right evs ++ q /\ queued_len (endpoint_at Right d') = len q /\ len q <= 2.
Proof.
  destruct (loopback_fifo 2 Left 100
    [OpSend Left [1] 10; OpSend Left [2] 11; OpReceive Right (zeros 4); OpSend Right [3] 12; OpSend Left [4] 13])
    as (evs & d' & Hr & H); [reflexivity|].
  exists evs, d'. split; [exact Hr | exact (H Right)].
Defined.

Lemma loopback_send_receive_witness :
  exists d', send_link_bytes (side_link_id Left) [1; 2] 5 (driver_new 2 Left 100) = (Ok tt, d') /\
    fst (receive_link_frame (side_link_id Right) (d', zeros 8)) = Ok (Some (mk_frame LOOPBACK_RIGHT_ID 5 [1; 2])).
Proof.
  assert (queue_is 2 (endpoint_at (other_side Left) (driver_new 2 Left 100)) []) as Hq.
  { split; [reflexivity | discriminate | constructor]. }
  pose proof (loopback_send_receive 2 Left [1; 2] 5 (driver_new 2 Left 100) [] (zeros 8) eq_refl Hq) as H.
  change (send_refusal _ _ _ _ _) with (@None LoopbackError) in H. cbv iota in H.
  destruct H as (d' & Hs & _ & Hr). exists d'. split; [exact Hs|]. vm_compute in Hs. injection Hs as <-.
  apply Hr; [reflexivity | vm_compute; discriminate].
Defined.
