(* ===== verification/LinkRns.v ===== *)
(** [hyf_link_rns]: Reticulum packets carried in HYF envelopes
    (src/crates/hyf_link_rns/src/packet.rs, wrap.rs, error.rs), an instance of
    [Carrier]. *)
From S2P Require Import Prelude Cursor Core Wire Carrier RnsWire.

Inductive HyfLinkRnsError :=
| RnsWire (error : RnsWireError)
| HyfWire (error : HyfWireError)
| NotForeignRnsPacket.

(** The packet reference of this crate: the raw bytes and the destination. *)
Record RnsPacketRef := mk_link_packet { lp_raw : list Z; lp_destination_hash : list Z }.

Definition validate_rns_packet (raw : list Z) : outcome HyfLinkRnsError RnsPacketRef :=
  packet ← map_err RnsWire (decode_packet raw);
  Ok (mk_link_packet raw (rp_destination_hash packet)).

Record RnsWrapParams := mk_wrap_params {
  wp_source_node : list Z;
  wp_destination : HyfDestination;
  wp_created_at_ms : Z;
  wp_expires_at_ms : Z;
  wp_hop_limit : Z;
  wp_message_id : list Z;
}.

Definition wrapped_envelope (packet : RnsPacketRef) (params : RnsWrapParams) : HyfEnvelopeRef :=
  mk_envelope HYF_WIRE_VERSION_0 (wp_message_id params) (wp_source_node params) (wp_destination params)
    (wp_created_at_ms params) (wp_expires_at_ms params) (wp_hop_limit params) ForeignRnsPacket (lp_raw packet).

Definition wrap_rns_packet (packet : RnsPacketRef) (params : RnsWrapParams) : outcome HyfLinkRnsError HyfEnvelopeRef :=
  _ ← validate_rns_packet (lp_raw packet);
  let envelope := wrapped_envelope packet params in
  _ ← map_err HyfWire (validate_envelope envelope);
  Ok envelope.

Definition unwrap_rns_packet (envelope : HyfEnvelopeRef) : outcome HyfLinkRnsError (list Z) :=
  _ ← map_err HyfWire (validate_envelope envelope);
  if negb (bool_decide (payload_kind envelope = ForeignRnsPacket)) then Err NotForeignRnsPacket
  else
    packet ← validate_rns_packet (payload envelope);
    Ok (lp_raw packet).

(** What the Rust types guarantee of the parameters. *)
Definition wrap_params_ok (p : RnsWrapParams) : Prop :=
  message_id_ok (wp_message_id p) /\ node_id_ok (wp_source_node p) /\ destination_ok (wp_destination p) /\
  timestamp_ok (wp_created_at_ms p) /\ timestamp_ok (wp_expires_at_ms p) /\ u8_ok (wp_hop_limit p).

Lemma wrapped_envelope_ok packet params :
  wrap_params_ok params -> bytes_ok (lp_raw packet) -> envelope_ok (wrapped_envelope packet params).
Proof. intros (? & ? & ? & ? & ? & ?) ?. by split. Qed.

Lemma validate_rns_packet_safe raw : bytes_ok raw -> validate_rns_packet raw <> Panic.
Proof.
  intros Hb. unfold validate_rns_packet. pose proof (decode_packet_safe raw Hb). by destruct (decode_packet raw).
Qed.

Lemma validate_rns_packet_inv raw p :
  validate_rns_packet raw = Ok p -> exists q, decode_packet raw = Ok q /\ p = mk_link_packet raw (rp_destination_hash q).
Proof. unfold validate_rns_packet. destruct (decode_packet raw) as [q|e|]; intros; simplify_eq/=. eauto. Qed.

(** A packet that decodes is at most an MTU, far below the payload limit. *)
Lemma decoded_packet_len raw q : bytes_ok raw -> decode_packet raw = Ok q -> len raw <= 65535.
Proof. intros Hb H. apply decode_packet_inv in H as (_ & _ & H & _); [|done]. unfold RNS_MTU in H. lia. Qed.

(** ** The instance *)
Definition rns_carrier : carrier HyfLinkRnsError RnsPacketRef RnsWrapParams :=
  mk_carrier validate_rns_packet ForeignRnsPacket HyfWire (fun _ => NotForeignRnsPacket)
    (fun params _ packet => Ok (wrapped_envelope packet params)) (fun _ _ => Ok tt).
Definition lifetime (p : RnsWrapParams) : Z * Z := (wp_created_at_ms p, wp_expires_at_ms p).

Lemma rns_wrap_is_carrier packet params :
  wrap_rns_packet packet params = carrier_wrap rns_carrier (lp_raw packet) params.
Proof.
  unfold wrap_rns_packet, carrier_wrap. cbn [rns_carrier c_validate c_envelope c_wire_error].
  destruct (validate_rns_packet (lp_raw packet)) as [q|err|] eqn:Hq; [|done..]. cbn [mbind outcome_bind].
  by apply validate_rns_packet_inv in Hq as (p & _ & ->).
Qed.

Lemma rns_unwrap_is_carrier e : unwrap_rns_packet e = carrier_unwrap rns_carrier e.
Proof.
  unfold unwrap_rns_packet, carrier_unwrap. cbn [rns_carrier c_validate c_kind c_wire_error c_wrong_kind c_check].
  destruct (validate_envelope e); [|done..]. cbn [map_err mbind outcome_bind]. case_match; [done|].
  destruct (validate_rns_packet (payload e)) as [q|err|] eqn:Hq; [|done..]. cbn [mbind outcome_bind].
  by apply validate_rns_packet_inv in Hq as (p & _ & ->).
Qed.

Lemma rns_carrier_laws : carrier_laws rns_carrier wrap_params_ok lifetime.
Proof.
  split.
  - exact validate_rns_packet_safe.
  - intros raw p Hb H. apply validate_rns_packet_inv in H as (q & Hq & _). by eapply decoded_packet_len.
  - done.
  - intros params raw p Hp Hb H. apply validate_rns_packet_inv in H as (q & _ & ->).
    eexists. split; [done|]. split; [by apply wrapped_envelope_ok|done].
Qed.

Lemma validate_rns_is_ok raw : is_ok (validate_rns_packet raw) = is_ok (decode_packet raw).
Proof. unfold validate_rns_packet. by destruct (decode_packet raw). Qed.

(** Wrapping Reticulum packets: a packet is wrapped exactly when it
    decodes and the lifetime is positive, whatever the other parameters; the
    envelope it is wrapped in travels through the envelope codec and unwraps to
    the packet, byte for byte; and unwrapping accepts no envelope of another
    kind and none whose payload is not a packet.  Neither direction panics. *)
Theorem rns_wrap_exact raw destination_hash params e out :
  let packet := mk_link_packet raw destination_hash in
  bytes_ok raw -> wrap_params_ok params -> envelope_ok e ->
  wrap_rns_packet packet params <> Panic /\ unwrap_rns_packet e <> Panic /\
  (is_ok (wrap_rns_packet packet params) = true <->
     is_ok (decode_packet raw) = true /\ wp_created_at_ms params < wp_expires_at_ms params) /\
  (wrap_rns_packet packet params = Ok e -> len (envelope_bytes e) <= len out ->
     unwrap_rns_packet e = Ok raw /\
     let '(r, out') := encode_envelope e out in
     (n ← map_err HyfWire r; e' ← map_err HyfWire (decode_envelope (take (Z.to_nat n) out')); unwrap_rns_packet e') = Ok raw) /\
  (forall p, unwrap_rns_packet e = Ok p ->
     p = payload e /\ payload_kind e = ForeignRnsPacket /\ is_ok (decode_packet p) = true).
Proof.
  intros packet Hb Hp He. rewrite rns_wrap_is_carrier, rns_unwrap_is_carrier. cbn [lp_raw packet].
  destruct (lawful_carries _ _ _ rns_carrier_laws) as [Hs1 Hs2 Hw Hr Hu]. split_and!; [by apply Hs1|by apply Hs2| | |].
  - rewrite Hw by done. cbn [rns_carrier c_validate lifetime fst snd]. by rewrite validate_rns_is_ok.
  - intros H Hl. destruct (Hr raw params e out Hb Hp H Hl) as (_ & H1 & n & out' & Hen & Hde). split; [done|].
    rewrite Hen. cbn [map_err mbind outcome_bind]. rewrite Hde. cbn [map_err mbind outcome_bind]. by rewrite rns_unwrap_is_carrier.
  - intros p H. destruct (Hu e p H) as (-> & Hk & _ & a & Ha & _). split_and!; [done..|].
    cbn [rns_carrier c_validate] in Ha. by rewrite <- validate_rns_is_ok, Ha.
Qed.

(** ** Witness *)
Definition sample_raw : list Z := packet_bytes sample_packet.
Definition sample_wrap_params : RnsWrapParams :=
  mk_wrap_params (replicate 32 2) (Node (replicate 32 3)) 1000 2000 4 (replicate 32 1).
Definition sample_wrapped : HyfEnvelopeRef := wrapped_envelope (mk_link_packet sample_raw (replicate 16 7)) sample_wrap_params.

Lemma sample_raw_ok : bytes_ok sample_raw.
Proof. apply (bool_decide_unpack _). vm_compute. exact I. Defined.
Lemma sample_wrap_params_ok : wrap_params_ok sample_wrap_params.
Proof.
  repeat split; try reflexivity; try (vm_compute; discriminate); apply (bool_decide_unpack _); vm_compute; exact I.
Defined.

Lemma rns_wrap_exact_witness : unwrap_rns_packet sample_wrapped = Ok sample_raw.
Proof.
  assert (wrap_rns_packet (mk_link_packet sample_raw (replicate 16 7)) sample_wrap_params = Ok sample_wrapped) as Hw
    by (vm_compute; reflexivity).
  assert (envelope_ok sample_wrapped) as He by (exact (wrapped_envelope_ok (mk_link_packet sample_raw (replicate 16 7)) sample_wrap_params sample_wrap_params_ok sample_raw_ok)).
  assert (len (envelope_bytes sample_wrapped) <= len (zeros 300)) as Hl by (vm_compute; discriminate).
  pose proof (rns_wrap_exact sample_raw (replicate 16 7) sample_wrap_params sample_wrapped (zeros 300)
    sample_raw_ok sample_wrap_params_ok He) as H. cbv zeta in H.
  destruct H as (_ & _ & _ & H & _). specialize (H Hw Hl). destruct H as [H _]. exact H.
Defined.
