(* ===== verification/SerialLink.v ===== *)
(** [hyf_link_rnode_serial]: the RNode modem behind a serial port
    (src/crates/hyf_link_rnode_serial/src/link.rs, io.rs, config.rs, event.rs,
    error.rs).

    The link reads the port one byte at a time through the KISS decoder, keeps
    at most one decoded frame pending, applies modem reports to the flow-control
    state and delivers data frames; sending stuffs the payload straight into the
    port.  [SerialIo] is the port's interface; [FakeSerial] implements it. *)
From S2P Require Import Prelude Cursor Core Wire Link Kiss RNode RnsWire LinkRns.

Inductive RNodeSerialError :=
| InvalidMtu (mtu : Z)
| InvalidFrameCapacity (mtu capacity : Z)
| FrameTooLarge (actual mtu : Z)
| ReadBufferTooSmall (actual required : Z)
| WriteBufferFull (required capacity : Z)
| InjectedReadFailure
| InjectedWriteFailure
| SerialOpenFailure
| SerialReadFailure
| SerialWriteFailure
| FlowControlBlocked
| RawRnsModeRequired
| RnsWrapParamsRequired
| RnsWrapParamsUnexpected
| RnsWrapParamsUnavailable
| KissFailure (error : KissError)
| RNodeFailure (error : RNodeError)
| RnsFailure (error : HyfLinkRnsError)
| HyfWireFailure (error : HyfWireError).

Definition serial_error_kind (e : RNodeSerialError) : LinkDriverErrorKind :=
  match e with
  | InvalidMtu _ | InvalidFrameCapacity _ _ => Fatal
  | FrameTooLarge _ _ => DriverFrameTooLarge
  | ReadBufferTooSmall _ _ => OutputTooSmall
  | WriteBufferFull _ _ | FlowControlBlocked => Backpressure
  | InjectedReadFailure => TransientReceive
  | InjectedWriteFailure => TransientSend
  | SerialOpenFailure => Fatal
  | SerialReadFailure => TransientReceive
  | SerialWriteFailure => TransientSend
  | RawRnsModeRequired | RnsWrapParamsRequired | RnsWrapParamsUnexpected | RnsWrapParamsUnavailable => Unsupported
  | KissFailure (Kiss.FrameTooLarge _ _) => DriverFrameTooLarge
  | KissFailure (Kiss.OutputBufferTooShort _ _) => OutputTooSmall
  | KissFailure (EncodedLengthOverflow | MalformedEscape _) => Protocol
  | RNodeFailure _ | RnsFailure _ | HyfWireFailure _ => Protocol
  end.

Inductive RNodeDataMode := HyfEnvelope | RawRnsPacket.
#[export] Instance RNodeDataMode_eq_dec : EqDecision RNodeDataMode. Proof. solve_decision. Defined.

Record RNodeSerialConfig := mk_serial_config {
  sc_link_id : list Z;
  sc_mtu : Z;
  sc_flow_control : bool;
  sc_data_mode : RNodeDataMode;
}.

Definition RNodeSerialConfig_new (link_id : list Z) (mtu : Z) (data_mode : RNodeDataMode) : RNodeSerialConfig :=
  mk_serial_config link_id mtu true data_mode.
Definition without_flow_control (c : RNodeSerialConfig) : RNodeSerialConfig :=
  mk_serial_config (sc_link_id c) (sc_mtu c) false (sc_data_mode c).
Definition validate_serial_config (c : RNodeSerialConfig) : outcome RNodeSerialError unit :=
  if sc_mtu c =? 0 then Err (InvalidMtu (sc_mtu c)) else Ok tt.

Inductive RNodeSerialEvent :=
| SFrame (f : LinkFrameRef)
| SReady
| SError (e : RNodeHardwareError)
| SFirmwareVersion (v : RNodeFirmwareVersion)
| SConfigReport (r : RNodeConfigReport)
| SStat (s : RNodeStat)
| SUnknown (command payload_len : Z).

Definition from_rnode (event : RNodeEvent) : RNodeSerialEvent :=
  match event with
  | RNode.Data _ => SUnknown 0 0
  | ReadyEvent => SReady
  | ErrorEvent error => SError error
  | FirmwareVersion version => SFirmwareVersion version
  | ConfigReport report => SConfigReport report
  | Stat stat => SStat stat
  | Unknown command payload => SUnknown command (len payload)
  end.

(** ** Ports *)
(** [read] is given the length of the buffer and returns the number it reports
    with the contents of the buffer afterwards. *)
Class SerialIo (Io : Type) := {
  serial_read : Z -> io Io RNodeSerialError (Z * list Z);
  serial_write_all : list Z -> io Io RNodeSerialError unit;
}.

Record FakeSerial := mk_fake {
  fs_read_buf : list Z;     (* [u8; RX_MAX] *)
  fs_read_len : Z;
  fs_written : list Z;      (* [u8; TX_MAX] *)
  fs_written_len : Z;
  fs_next_read_error : option RNodeSerialError;
  fs_next_write_error : option RNodeSerialError;
}.

Definition fake_new (RX_MAX TX_MAX : Z) : FakeSerial := mk_fake (zeros RX_MAX) 0 (zeros TX_MAX) 0 None None.

Definition push_read_bytes (input : list Z) : io FakeSerial RNodeSerialError unit :=
  s ← get;
  let RX_MAX := len (fs_read_buf s) in
  required ← lift (ok_or (checked_add (fs_read_len s) (len input)) (WriteBufferFull usize_MAX RX_MAX));
  _ ← lift (guard_err (required >? RX_MAX) (WriteBufferFull required RX_MAX));
  read_buf ← lift (write_at (fs_read_buf s) (fs_read_len s) input);
  put (mk_fake read_buf required (fs_written s) (fs_written_len s) (fs_next_read_error s) (fs_next_write_error s)).

Definition with_read_bytes (RX_MAX TX_MAX : Z) (input : list Z) : outcome RNodeSerialError FakeSerial :=
  let '(r, serial) := push_read_bytes input (fake_new RX_MAX TX_MAX) in _ ← r; Ok serial.
Definition clear_written (s : FakeSerial) : FakeSerial :=
  mk_fake (fs_read_buf s) (fs_read_len s) (fs_written s) 0 (fs_next_read_error s) (fs_next_write_error s).
Definition fail_next_read (s : FakeSerial) : FakeSerial :=
  mk_fake (fs_read_buf s) (fs_read_len s) (fs_written s) (fs_written_len s) (Some InjectedReadFailure) (fs_next_write_error s).
Definition fail_next_write (s : FakeSerial) : FakeSerial :=
  mk_fake (fs_read_buf s) (fs_read_len s) (fs_written s) (fs_written_len s) (fs_next_read_error s) (Some InjectedWriteFailure).

(** [for index in index..remaining { read_buf[index] = read_buf[count + index] }]. *)
Fixpoint move_loop {E} (n : nat) (count index : Z) (buf : list Z) : outcome E (list Z) :=
  match n with
  | O => Ok buf
  | S n' => x ← Prelude.index buf (count + index); buf' ← set_at buf index x; move_loop n' count (index + 1) buf'
  end.

Definition fake_read (n : Z) : io FakeSerial RNodeSerialError (Z * list Z) :=
  s ← get;
  match fs_next_read_error s with
  | Some error =>
      _ ← put (mk_fake (fs_read_buf s) (fs_read_len s) (fs_written s) (fs_written_len s) None (fs_next_write_error s));
      lift (Err error)
  | None =>
      if fs_read_len s =? 0 then mret (0, zeros n)
      else
        _ ← lift (guard_err (n =? 0) (ReadBufferTooSmall 0 1));
        let count := Z.min n (fs_read_len s) in
        bytes ← lift (slice (fs_read_buf s) 0 count);
        output ← lift (write_at (zeros n) 0 bytes);
        let remaining := fs_read_len s - count in
        read_buf ← lift (move_loop (Z.to_nat remaining) count 0 (fs_read_buf s));
        _ ← put (mk_fake read_buf remaining (fs_written s) (fs_written_len s) (fs_next_read_error s) (fs_next_write_error s));
        mret (count, output)
  end.

Definition fake_write_all (input : list Z) : io FakeSerial RNodeSerialError unit :=
  s ← get;
  match fs_next_write_error s with
  | Some error =>
      _ ← put (mk_fake (fs_read_buf s) (fs_read_len s) (fs_written s) (fs_written_len s) (fs_next_read_error s) None);
      lift (Err error)
  | None =>
      let TX_MAX := len (fs_written s) in
      required ← lift (ok_or (checked_add (fs_written_len s) (len input)) (WriteBufferFull usize_MAX TX_MAX));
      _ ← lift (guard_err (required >? TX_MAX) (WriteBufferFull required TX_MAX));
      written ← lift (write_at (fs_written s) (fs_written_len s) input);
      put (mk_fake (fs_read_buf s) (fs_read_len s) written required (fs_next_read_error s) (fs_next_write_error s))
  end.

#[export] Instance fake_serial_io : SerialIo FakeSerial := {|
  serial_read := fake_read;
  serial_write_all := fake_write_all;
|}.

(** ** The link *)
Record PendingFrame := mk_pending {
  pf_command : Z;
  pf_payload : list Z;      (* [u8; N] *)
  pf_payload_len : Z;
  pf_received_at_ms : Z;
}.

Definition try_from_kiss_frame (N : Z) (frame : KissFrameRef) (received_at_ms : Z) : outcome KissError PendingFrame :=
  let payload_len := len (kf_payload frame) in
  if payload_len >? N then Err (Kiss.FrameTooLarge payload_len N)
  else
    payload ← write_at (zeros N) 0 (kf_payload frame);
    Ok (mk_pending (kf_command frame) payload payload_len received_at_ms).

Record RNodeSerialLink (Io : Type) := mk_link {
  sl_config : RNodeSerialConfig;
  sl_io : Io;
  sl_state : RNodeState;
  sl_decoder : KissDecoder;
  sl_pending : option PendingFrame;
}.
Arguments mk_link {Io}. Arguments sl_config {Io}. Arguments sl_io {Io}. Arguments sl_state {Io}.
Arguments sl_decoder {Io}. Arguments sl_pending {Io}.

Section link.
(** The const generic [FRAME_MAX] and the port. *)
Context (N : Z) `{SerialIo Io}.
Abbreviation link := (RNodeSerialLink Io).

Definition RNodeSerialLink_new (config : RNodeSerialConfig) (port : Io) : outcome RNodeSerialError link :=
  _ ← validate_serial_config config;
  required_capacity ← ok_or (checked_add (sc_mtu config) 1) (InvalidFrameCapacity (sc_mtu config) N);
  _ ← guard_err (required_capacity >? N) (InvalidFrameCapacity (sc_mtu config) N);
  Ok (mk_link config port (RNodeState_new (sc_flow_control config)) (KissDecoder_new N) None).

Definition set_pending (p : option PendingFrame) : io link RNodeSerialError unit := fun l =>
  (Ok tt, mk_link (sl_config l) (sl_io l) (sl_state l) (sl_decoder l) p).
Definition set_state (s : RNodeState) : io link RNodeSerialError unit := fun l =>
  (Ok tt, mk_link (sl_config l) (sl_io l) s (sl_decoder l) (sl_pending l)).
Definition on_port {A} (m : io Io RNodeSerialError A) : io link RNodeSerialError A := fun l =>
  let '(r, p) := m (sl_io l) in (r, mk_link (sl_config l) p (sl_state l) (sl_decoder l) (sl_pending l)).

(** *** Sending *)
Fixpoint write_payload_loop (payload : list Z) : io Io RNodeSerialError unit :=
  match payload with
  | [] => mret tt
  | byte :: payload' =>
      _ ← (if byte =? KISS_FEND then serial_write_all [KISS_FESC; KISS_TFEND]
           else if byte =? KISS_FESC then serial_write_all [KISS_FESC; KISS_TFESC]
           else serial_write_all [byte]);
      write_payload_loop payload'
  end.
Definition write_kiss_frame (command : Z) (payload : list Z) : io Io RNodeSerialError unit :=
  _ ← serial_write_all [KISS_FEND; command];
  _ ← write_payload_loop payload;
  serial_write_all [KISS_FEND].

Definition payload_for_send (c : RNodeSerialConfig) (bytes : list Z) : outcome RNodeSerialError (list Z) :=
  match sc_data_mode c with
  | HyfEnvelope => _ ← map_err HyfWireFailure (decode_envelope bytes); Ok bytes
  | RawRnsPacket =>
      envelope ← map_err HyfWireFailure (decode_envelope bytes);
      map_err RnsFailure (unwrap_rns_packet envelope)
  end.

Definition send_gateway_bytes (bytes : list Z) (now_ms : Z) : io link RNodeSerialError unit :=
  l ← get;
  payload ← lift (payload_for_send (sl_config l) bytes);
  _ ← lift (guard_err (len payload >? sc_mtu (sl_config l)) (FrameTooLarge (len payload) (sc_mtu (sl_config l))));
  _ ← lift (guard_err (negb (can_transmit (sl_state l))) FlowControlBlocked);
  _ ← on_port (write_kiss_frame KISS_CMD_DATA payload);
  set_state (mark_tx_started (sl_state l)).

(** *** Receiving *)
(** The closure given to the decoder: it stores the frame in [pending]. *)
Definition capture (now_ms : Z) (frame : KissFrameRef) : io (option PendingFrame) KissError unit :=
  p ← lift (try_from_kiss_frame N frame now_ms);
  put (Some p).

Definition push_to_decoder (now_ms : Z) (bytes : list Z) : io link RNodeSerialError (option PendingFrame) := fun l =>
  let '(r, (d, pending)) := push_bytes N (capture now_ms) bytes (sl_decoder l, None) in
  (_ ← map_err KissFailure r; Ok pending, mk_link (sl_config l) (sl_io l) (sl_state l) d (sl_pending l)).

(** One turn of the loop; [None]: go on. *)
Definition read_turn (now_ms : Z) : io link RNodeSerialError (option bool) :=
  '(read, byte) ← on_port (serial_read 1);
  if read =? 0 then mret (Some false)
  else
    _ ← lift (guard_err (read >? 1) (ReadBufferTooSmall 1 read));
    bytes ← lift (slice byte 0 read);
    pending ← push_to_decoder now_ms bytes;
    match pending with
    | Some frame => _ ← set_pending (Some frame); mret (Some true)
    | None => mret None
    end.

(** [None]: out of fuel. *)
Fixpoint read_until_pending (fuel : nat) (now_ms : Z) : io link RNodeSerialError (option bool) :=
  match fuel with
  | O => mret None
  | S fuel' =>
      r ← read_turn now_ms;
      match r with Some b => mret (Some b) | None => read_until_pending fuel' now_ms end
  end.

Definition drain_pending_command : io link RNodeSerialError (option RNodeSerialEvent) :=
  l ← get;
  match sl_pending l with
  | None => mret None
  | Some pending =>
      if pf_command pending =? KISS_CMD_DATA then mret None
      else
        payload ← lift (slice (pf_payload pending) 0 (pf_payload_len pending));
        rnode_event ← lift (map_err RNodeFailure (parse_command_frame (mk_kiss_frame (pf_command pending) payload)));
        _ ← set_state (apply_event (sl_state l) rnode_event);
        _ ← set_pending None;
        mret (Some (from_rnode rnode_event))
  end.

(** Operations that also own the output buffer. *)
Definition on_link {A} (m : io link RNodeSerialError A) : io (link * list Z) RNodeSerialError A := fun '(l, out) =>
  let '(r, l') := m l in (r, (l', out)).
Definition on_output {A} (m : io (list Z) RNodeSerialError A) : io (link * list Z) RNodeSerialError A := fun '(l, out) =>
  let '(r, out') := m out in (r, (l, out')).

(** [&output[..n]] as the bytes of a frame. *)
Definition frame_of_output (l : link) (received_at_ms n : Z) : io (link * list Z) RNodeSerialError (option LinkFrameRef) :=
  '(_, out) ← get;
  view ← lift (slice out 0 n);
  mret (Some (mk_frame (sc_link_id (sl_config l)) received_at_ms view)).

Definition drain_pending_frame : io (link * list Z) RNodeSerialError (option LinkFrameRef) :=
  '(l, out) ← get;
  match sl_pending l with
  | None => mret None
  | Some pending =>
      if negb (pf_command pending =? KISS_CMD_DATA) then mret None
      else
        _ ← lift (guard_err (len out <? pf_payload_len pending) (ReadBufferTooSmall (len out) (pf_payload_len pending)));
        payload ← lift (slice (pf_payload pending) 0 (pf_payload_len pending));
        _ ← on_output (put_slice 0 payload);
        _ ← on_link (set_pending None);
        frame_of_output l (pf_received_at_ms pending) (pf_payload_len pending)
  end.

Definition drain_pending_hyf_frame : io (link * list Z) RNodeSerialError (option LinkFrameRef) :=
  '(l, out) ← get;
  match sl_pending l with
  | None => mret None
  | Some pending =>
      if negb (pf_command pending =? KISS_CMD_DATA) then mret None
      else
        _ ← lift (guard_err (len out <? pf_payload_len pending) (ReadBufferTooSmall (len out) (pf_payload_len pending)));
        payload ← lift (slice (pf_payload pending) 0 (pf_payload_len pending));
        match decode_envelope payload with
        | Err error => _ ← on_link (set_pending None); lift (Err (HyfWireFailure error))
        | Panic => lift Panic
        | Ok _ =>
            _ ← on_output (put_slice 0 payload);
            _ ← on_link (set_pending None);
            frame_of_output l (pf_received_at_ms pending) (pf_payload_len pending)
        end
  end.

(** Both raw-packet drains: [params] is what the caller or the provider gives
    for the packet, [None] when the provider has nothing.  A poll asks the
    provider at most once, so its answer as a function of the packet and the
    time is all of it the poll can see. *)
Definition drain_pending_raw_rns_frame (params : LinkRns.RnsPacketRef -> Z -> option RnsWrapParams)
    : io (link * list Z) RNodeSerialError (option LinkFrameRef) :=
  '(l, out) ← get;
  match sl_pending l with
  | None => mret None
  | Some pending =>
      if negb (pf_command pending =? KISS_CMD_DATA) then mret None
      else
        raw ← lift (slice (pf_payload pending) 0 (pf_payload_len pending));
        match validate_rns_packet raw with
        | Err error => _ ← on_link (set_pending None); lift (Err (RnsFailure error))
        | Panic => lift Panic
        | Ok packet =>
            params ← lift (ok_or (params packet (pf_received_at_ms pending)) RnsWrapParamsUnavailable);
            envelope ← lift (map_err RnsFailure (wrap_rns_packet packet params));
            n ← on_output (io_map_err HyfWireFailure (encode_envelope envelope));
            _ ← on_link (set_pending None);
            frame_of_output l (pf_received_at_ms pending) n
        end
  end.

Definition drain_pending : io (link * list Z) RNodeSerialError (option RNodeSerialEvent) :=
  '(l, _) ← get;
  match sl_pending l with
  | None => mret None
  | Some pending =>
      if pf_command pending =? KISS_CMD_DATA then
        f ← drain_pending_frame; mret (SFrame <$> f)
      else on_link drain_pending_command
  end.

(** The polls return [None] when they run out of fuel. *)
Definition ensure_pending (fuel : nat) (now_ms : Z) : io link RNodeSerialError (option bool) :=
  l ← get;
  match sl_pending l with Some _ => mret (Some true) | None => read_until_pending fuel now_ms end.

Definition poll_event_at (fuel : nat) (now_ms : Z) : io (link * list Z) RNodeSerialError (option (option RNodeSerialEvent)) :=
  ready ← on_link (ensure_pending fuel now_ms);
  match ready with
  | None => mret None
  | Some false => mret (Some None)
  | Some true => e ← drain_pending; mret (Some e)
  end.

(** The loop that all polls for gateway frames share, up to what they do with
    a data frame; [fuel] bounds each wait for a frame and [turns] the frames. *)
Fixpoint poll_loop (fuel turns : nat) (now_ms : Z)
    (drain_data : io (link * list Z) RNodeSerialError (option LinkFrameRef))
    : io (link * list Z) RNodeSerialError (option (option LinkFrameRef)) :=
  match turns with
  | O => mret None
  | S turns' =>
      ready ← on_link (ensure_pending fuel now_ms);
      match ready with
      | None => mret None
      | Some false => mret (Some None)
      | Some true =>
          '(l, _) ← get;
          match sl_pending l with
          | None => mret (Some None)
          | Some pending =>
              if pf_command pending =? KISS_CMD_DATA then f ← drain_data; mret (Some f)
              else
                _ ← on_link drain_pending_command;
                poll_loop fuel turns' now_ms drain_data
          end
      end
  end.

Definition poll_gateway_frame_at (fuel turns : nat) (now_ms : Z)
    : io (link * list Z) RNodeSerialError (option (option LinkFrameRef)) :=
  '(l, _) ← get;
  if bool_decide (sc_data_mode (sl_config l) = RawRnsPacket) then lift (Err RnsWrapParamsRequired)
  else poll_loop fuel turns now_ms drain_pending_hyf_frame.

Definition poll_gateway_frame_with_rns_params_at (fuel turns : nat) (now_ms : Z) (params : RnsWrapParams)
    : io (link * list Z) RNodeSerialError (option (option LinkFrameRef)) :=
  '(l, _) ← get;
  if bool_decide (sc_data_mode (sl_config l) = HyfEnvelope) then lift (Err RnsWrapParamsUnexpected)
  else poll_loop fuel turns now_ms (drain_pending_raw_rns_frame (fun _ _ => Some params)).

Definition poll_raw_rns_gateway_frame_with_provider (fuel turns : nat) (now_ms : Z)
    (provider : LinkRns.RnsPacketRef -> Z -> option RnsWrapParams)
    : io (link * list Z) RNodeSerialError (option (option LinkFrameRef)) :=
  poll_loop fuel turns now_ms (drain_pending_raw_rns_frame provider).

(** [LinkDriver::poll_frame]: at a data frame it polls again through
    [poll_gateway_frame_at], which finds the frame pending. *)
Definition serial_poll_frame (fuel turns : nat) (now_ms : Z)
    : io (link * list Z) RNodeSerialError (option (option LinkFrameRef)) :=
  poll_loop fuel turns now_ms
    (f ← poll_gateway_frame_at fuel 1 now_ms; mret (default None f)).
End link.

(** ** Ports as byte streams *)
(** What the link relies on of a port that does not fail: reading one byte
    takes the next byte of the input, an empty input reads as zero bytes, and
    a write within the free room appends to the output. *)
Class SerialPort (Io : Type) `{SerialIo Io} := {
  port_ok : Io -> Prop;
  port_in : Io -> list Z;
  port_out : Io -> list Z;
  port_room : Io -> Z;
  port_read_byte : forall p b rest, port_ok p -> port_in p = b :: rest ->
    exists p', serial_read 1 p = (Ok (1, [b]), p') /\ port_ok p' /\ port_in p' = rest /\
      port_out p' = port_out p /\ port_room p' = port_room p;
  port_read_empty : forall p, port_ok p -> port_in p = [] ->
    exists bs p', serial_read 1 p = (Ok (0, bs), p') /\ port_ok p' /\ port_in p' = [] /\
      port_out p' = port_out p /\ port_room p' = port_room p;
  port_write : forall p v, port_ok p -> len v <= port_room p ->
    exists p', serial_write_all v p = (Ok tt, p') /\ port_ok p' /\ port_in p' = port_in p /\
      port_out p' = port_out p ++ v /\ port_room p' = port_room p - len v;
}.

(** *** [FakeSerial] is such a port while no failure is injected *)
Record fake_ok (s : FakeSerial) : Prop := {
  fo_read : 0 <= fs_read_len s <= len (fs_read_buf s);
  fo_written : 0 <= fs_written_len s <= len (fs_written s);
  fo_size : len (fs_read_buf s) <= usize_MAX /\ len (fs_written s) <= usize_MAX;
  fo_errors : fs_next_read_error s = None /\ fs_next_write_error s = None;
}.
Definition fake_in (s : FakeSerial) : list Z := take (Z.to_nat (fs_read_len s)) (fs_read_buf s).
Definition fake_out (s : FakeSerial) : list Z := take (Z.to_nat (fs_written_len s)) (fs_written s).

Lemma move_loop_spec {E} mid pre gap tail count i :
  len gap = count -> 0 < count -> i = len pre ->
  exists rest, move_loop (E:=E) (length mid) count i (pre ++ gap ++ mid ++ tail) = Ok (pre ++ mid ++ rest) /\
    len rest = count + len tail.
Proof.
  revert pre gap i. induction mid as [|x mid IH]; intros pre gap i Hg Hc Hi.
  - exists (gap ++ tail). split; [done | rewrite len_app; lia].
  - destruct gap as [|g gap]; [rewrite (@len_nil Z) in Hg; lia|]. rewrite len_cons in Hg. cbn [length move_loop].
    change ((x :: mid) ++ tail) with (x :: mid ++ tail).
    rewrite (app_assoc pre), index_app by (rewrite len_app, len_cons; lia). cbn [mbind outcome_bind].
    rewrite <- app_assoc. cbn [app]. rewrite Hi, set_at_app. cbn [mbind outcome_bind].
    destruct (IH (pre ++ [x]) (gap ++ [x]) (i + 1)) as (rest & Hr & Hl).
    + rewrite len_app. change (len [x]) with 1. lia.
    + done.
    + rewrite len_app. change (len [x]) with 1. lia.
    + exists rest. split; [|done]. rewrite <- !app_assoc in Hr. cbn [app] in Hr. rewrite <- Hi. exact Hr.
Qed.

Lemma fake_read_byte s b rest :
  fake_ok s -> fake_in s = b :: rest ->
  exists s', fake_read 1 s = (Ok (1, [b]), s') /\ fake_ok s' /\ fake_in s' = rest /\
    fs_written s' = fs_written s /\ fs_written_len s' = fs_written_len s.
Proof.
  intros [Hr Hw Hsz [He Hwe]] Hin. unfold fake_in in Hin.
  assert (1 <= fs_read_len s) as Hpos.
  { destruct (Z.to_nat (fs_read_len s)) eqn:Hn; [done|lia]. }
  destruct (cut (fs_read_buf s) (fs_read_len s)) as (v & tail & Hbuf & Hv & Ht); [lia|].
  rewrite Hbuf, <- Hv, take_len_app in Hin. subst v. rewrite len_cons in Hv.
  unfold fake_read. rewrite get_bind, He. destruct (Z.eqb_spec (fs_read_len s) 0); [lia|].
  rewrite guard_false by done. rewrite Z.min_l by lia. rewrite Hbuf. cbn [app].
  rewrite slice_prefix by (rewrite len_cons; pose proof (len_nonneg (rest ++ tail)); lia).
  rewrite lift_bind_ok. change (take (Z.to_nat 1) (b :: rest ++ tail)) with [b].
  rewrite write_at_0, lift_bind_ok by done. change ([b] ++ drop (length [b]) (zeros 1)) with [b].
  destruct (move_loop_spec (E:=RNodeSerialError) rest [] [b] tail 1 0 eq_refl) as (r & Hm & Hlr); [done|done|].
  cbn [app] in Hm. replace (Z.to_nat (fs_read_len s - 1)) with (length rest) by (unfold len in Hv; lia).
  rewrite Hm, lift_bind_ok, put_bind. eexists. split; [done|]. unfold fake_in. simpl.
  split; [split; simpl; try done|].
  - rewrite len_app. pose proof (len_nonneg tail). pose proof (len_nonneg rest). lia.
  - rewrite Hbuf in Hsz. rewrite !len_app, len_cons in *. lia.
  - replace (Z.to_nat (fs_read_len s - 1)) with (length rest) by (unfold len in Hv; lia). by rewrite take_app_length.
Qed.

Lemma fake_write_run s v :
  fake_ok s -> len v <= len (fs_written s) - fs_written_len s ->
  exists s', fake_write_all v s = (Ok tt, s') /\ fake_ok s' /\ fake_in s' = fake_in s /\
    fake_out s' = fake_out s ++ v /\ len (fs_written s') - fs_written_len s' = len (fs_written s) - fs_written_len s - len v.
Proof.
  intros [Hr Hw Hsz [He Hwe]] Hv. pose proof (len_nonneg v).
  destruct (cut (fs_written s) (fs_written_len s)) as (w & r & Hbuf & Hlw & Hlr); [lia|].
  destruct (cut r (len v)) as (old & tail & -> & Ho & Ht); [lia|].
  unfold fake_write_all. rewrite get_bind, Hwe. unfold checked_add.
  destruct (Z.leb_spec (fs_written_len s + len v) usize_MAX); [|lia]. cbn [ok_or]. rewrite lift_bind_ok, Z.gtb_ltb.
  rewrite guard_false by (apply Z.ltb_ge; lia). rewrite Hbuf, write_at_app, lift_bind_ok by lia.
  eexists. split; [done|]. unfold fake_in, fake_out. simpl. rewrite Hbuf in *. rewrite !len_app in *.
  split_and!; try done.
  - split; simpl; try done; rewrite ?len_app; lia.
  - rewrite <- Hlw, take_len_app. rewrite app_assoc, <- len_app, take_len_app. done.
  - lia.
Qed.

#[export] Program Instance fake_serial_port : SerialPort FakeSerial := {|
  port_ok := fake_ok;
  port_in := fake_in;
  port_out := fake_out;
  port_room s := len (fs_written s) - fs_written_len s;
|}.
Next Obligation.
  intros p b rest Hok Hin. destruct (fake_read_byte p b rest Hok Hin) as (p' & H1 & H2 & H3 & H4 & H5).
  exists p'. unfold fake_out. rewrite H4, H5. by split_and!.
Qed.
Next Obligation.
  intros p Hok Hin. pose proof Hok as [Hr _ _ [He _]]. exists (zeros 1), p.
  assert (fs_read_len p = 0) as H0.
  { apply (f_equal len) in Hin. unfold fake_in in Hin. rewrite len_take, (@len_nil Z) in Hin. lia. }
  split_and!; [|done..]. cbn [serial_read fake_serial_io]. unfold fake_read. by rewrite get_bind, He, H0.
Qed.
Next Obligation. intros p v Hok Hv. by apply fake_write_run. Qed.

(** ** Lemmas: receiving *)
Definition pending_of (N now_ms : Z) (f : KissFrameRef) : PendingFrame :=
  mk_pending (kf_command f) (kf_payload f ++ drop (length (kf_payload f)) (zeros N)) (len (kf_payload f)) now_ms.

Record pending_ok (N : Z) (p : PendingFrame) : Prop := {
  pok_payload : array_ok N (pf_payload p);
  pok_len : 0 <= pf_payload_len p <= N;
  pok_command : u8_ok (pf_command p);
}.
Definition pending_bytes (p : PendingFrame) : list Z := take (Z.to_nat (pf_payload_len p)) (pf_payload p).

Section receiving.
Context (N : Z) `{SerialPort Io}.
Implicit Types (l : RNodeSerialLink Io) (p : Io).

Record link_ok l : Prop := {
  lok_N : 0 <= N;
  lok_port : port_ok (sl_io l);
  lok_in : bytes_ok (port_in (sl_io l));
  lok_decoder : decoder_ok N (sl_decoder l);
  lok_pending : forall q, sl_pending l = Some q -> pending_ok N q;
}.

(** The link with its port, decoder and pending frame replaced. *)
Definition moved l p d q : RNodeSerialLink Io := mk_link (sl_config l) p (sl_state l) d q.

(** [p] is the port with input [rest] left. *)
Record port_at (p0 p : Io) (rest : list Z) : Prop := {
  pa_ok : port_ok p;
  pa_in : port_in p = rest;
  pa_out : port_out p = port_out p0;
  pa_room : port_room p = port_room p0;
}.

Lemma port_at_trans p0 p1 p2 r1 r2 : port_at p0 p1 r1 -> port_at p1 p2 r2 -> port_at p0 p2 r2.
Proof. intros [] []. split; congruence. Qed.

Lemma port_at_refl p : port_ok p -> port_at p p (port_in p).
Proof. by split. Qed.

Lemma decoder_bytes_ok d : decoder_ok N d -> bytes_ok (decoder_data d).
Proof. intros [[_ Hb] _ _]. by apply bytes_ok_take. Qed.

Lemma pending_frame_fits d f :
  decoder_ok N d -> pending_frame (abs d) = Some f ->
  u8_ok (kf_command f) /\ bytes_ok (kf_payload f) /\ len (kf_payload f) <= N.
Proof.
  intros Hd Hf. pose proof (decoder_bytes_ok d Hd) as Hb. pose proof (decoder_data_len d Hd) as Hl.
  pose proof (do_len _ _ Hd). unfold pending_frame in Hf. cbn [abs fs_in fs_data] in Hf.
  destruct (kd_in_frame d); [|done]. destruct (decoder_data d) as [|c q]; [done|]. simplify_eq. simpl.
  apply bytes_ok_cons in Hb as [Hc Hq]. rewrite len_cons in Hl. by split_and!; [| |lia].
Qed.

Lemma pending_of_ok now f : u8_ok (kf_command f) -> bytes_ok (kf_payload f) -> len (kf_payload f) <= N ->
  pending_ok N (pending_of N now f) /\ pending_bytes (pending_of N now f) = kf_payload f.
Proof.
  intros Hc Hb Hl. pose proof (len_nonneg (kf_payload f)).
  unfold pending_bytes, pending_of. split; [split; simpl|simpl; apply take_len_app].
  - split; [rewrite len_app, len_drop, len_zeros by lia; unfold len in *; lia|].
    apply bytes_ok_app. split; [done|]. apply bytes_ok_drop, bytes_ok_zeros.
  - lia.
  - done.
Qed.

Lemma capture_ok now f s : len (kf_payload f) <= N -> capture N now f s = (Ok tt, Some (pending_of N now f)).
Proof.
  intros Hl. pose proof (len_nonneg (kf_payload f)). unfold capture, try_from_kiss_frame.
  destruct (Z.gtb_spec (len (kf_payload f)) N); [lia|].
  rewrite write_at_0 by (rewrite len_zeros; lia). cbn [mbind outcome_bind]. by rewrite lift_bind_ok.
Qed.

(** One turn of the reading loop follows the frame machine. *)
Lemma read_turn_byte now l b rest :
  link_ok l -> port_in (sl_io l) = b :: rest ->
  exists d p, decoder_ok N d /\ abs d = (abs_step N (abs (sl_decoder l)) b).2.2 /\ port_at (sl_io l) p rest /\
    read_turn N now l =
      match abs_step N (abs (sl_decoder l)) b with
      | (Some f, _) => (Ok (Some true), moved l p d (Some (pending_of N now f)))
      | (None, (o, _)) => (_ ← map_err KissFailure o; Ok None, moved l p d (sl_pending l))
      end.
Proof.
  intros [HN Hp Hin Hd _] Hb. rewrite Hb in Hin. apply bytes_ok_cons in Hin as [Hb8 _].
  destruct (port_read_byte (sl_io l) b rest Hp Hb) as (p & Hr & Hpa).
  pose proof (push_byte_spec (capture N now) (sl_decoder l) b None Hd Hb8) as Hs.
  pose proof (pending_frame_fits (sl_decoder l)) as Hfit.
  unfold read_turn. rewrite (io_bind_ok _ _ l (1, [b]) (mk_link (sl_config l) p (sl_state l) (sl_decoder l) (sl_pending l)))
    by (unfold on_port; by rewrite Hr).
  cbn [Z.eqb]. rewrite guard_false by done. change (slice [b] 0 1) with (@Ok RNodeSerialError _ [b]). rewrite lift_bind_ok.
  unfold mbind at 1, io_bind at 1, push_to_decoder. cbn [push_bytes sl_decoder]. unfold mbind at 1, io_bind at 1.
  destruct (push_byte N (capture N now) b (sl_decoder l, None)) as [o [d q]]. destruct Hs as (Hd' & Habs & Hres).
  exists d, p. split_and!; [done | done | by destruct_and!; split|].
  destruct (abs_step N (abs (sl_decoder l)) b) as [[f|] [o' a']] eqn:Hstep; simpl in Hres.
  - unfold abs_step in Hstep. destruct (b =? KISS_FEND); [|done]. injection Hstep as Hf _ _.
    destruct (Hfit f Hd Hf) as (_ & _ & Hl).
    rewrite capture_ok in Hres by done. simplify_eq. reflexivity.
  - simplify_eq. destruct o' as [[]|e|]; reflexivity.
Qed.

Lemma read_turn_empty now l :
  link_ok l -> port_in (sl_io l) = [] ->
  exists p, port_at (sl_io l) p [] /\ read_turn N now l = (Ok (Some false), moved l p (sl_decoder l) (sl_pending l)).
Proof.
  intros [HN Hp _ _ _] Hin. destruct (port_read_empty (sl_io l) Hp Hin) as (bs & p & Hr & Hpa).
  exists p. split; [destruct_and!; by split|].
  unfold read_turn. by rewrite (io_bind_ok _ _ l (0, bs) (moved l p (sl_decoder l) (sl_pending l)))
    by (unfold on_port; by rewrite Hr).
Qed.

Lemma moved_ok l p d q rest :
  link_ok l -> port_at (sl_io l) p rest -> decoder_ok N d -> bytes_ok rest ->
  (forall x, q = Some x -> pending_ok N x) -> link_ok (moved l p d q).
Proof. intros [] [] ? ? ?. split; simpl; try done. congruence. Qed.

(** Bytes that complete no frame are consumed. *)
Lemma read_quiet now l bs rest fuel a :
  link_ok l -> port_in (sl_io l) = bs ++ rest -> feeds N (abs (sl_decoder l)) bs [] a ->
  exists d p, decoder_ok N d /\ abs d = a /\ port_at (sl_io l) p rest /\
    read_until_pending N (length bs + fuel) now l = read_until_pending N fuel now (moved l p d (sl_pending l)).
Proof.
  revert l. induction bs as [|b bs IH]; intros l Hok Hin Hf.
  - exists (sl_decoder l), (sl_io l). unfold feeds in Hf. simpl in Hf. simplify_eq.
    split_and!; [apply Hok | done | simpl in Hin; rewrite <- Hin; apply port_at_refl; apply Hok | by destruct l].
  - destruct (read_turn_byte now l b (bs ++ rest) Hok Hin) as (d & p & Hd & Habs & Hpa & Hr).
    unfold feeds in Hf. simpl in Hf. destruct (abs_step N (abs (sl_decoder l)) b) as [[f|] [[[]|e|] a1]];
      try (by destruct (abs_run N a1 bs); simplify_eq); try by simplify_eq.
    simpl in Habs. assert (bytes_ok (bs ++ rest)) as Hb.
    { pose proof (lok_in _ Hok) as Hb. rewrite Hin in Hb. by apply bytes_ok_cons in Hb as [_ Hb]. }
    destruct (IH (moved l p d (sl_pending l))) as (d' & p' & Hd' & Ha' & Hpa' & Hr').
    + by apply (moved_ok l p d _ (bs ++ rest)); [..|apply Hok].
    + simpl. by apply pa_in in Hpa.
    + unfold feeds. simpl. rewrite Habs. by destruct (abs_run N a1 bs); simplify_eq/=.
    + exists d', p'. split_and!; [done | done | by eapply port_at_trans|].
      cbn [Nat.add length read_until_pending]. rewrite (io_bind_ok _ _ l None (moved l p d (sl_pending l))) by done.
      rewrite Hr'. reflexivity.
Qed.

(** A frame that is whole in the input becomes pending, and nothing after it is
    read. *)
Lemma read_frame now l f rest fuel :
  link_ok l -> pending_frame (abs (sl_decoder l)) = None -> frame_fits N f ->
  port_in (sl_io l) = kiss_encoding (kf_command f) (kf_payload f) ++ rest ->
  (length (port_in (sl_io l)) <= fuel)%nat ->
  exists d p, decoder_ok N d /\ abs d = idle /\ port_at (sl_io l) p rest /\
    read_until_pending N fuel now l = (Ok (Some true), moved l p d (Some (pending_of N now f))).
Proof.
  intros Hok Hidle Hf Hin Hfuel. destruct Hf as (Hc & H1 & H2 & Hb & Hl). pose proof (len_nonneg (kf_payload f)).
  set (bs := [KISS_FEND] ++ [kf_command f] ++ escape (kf_payload f)).
  assert (port_in (sl_io l) = bs ++ KISS_FEND :: rest) as Hin'.
  { rewrite Hin. unfold kiss_encoding, bs. by rewrite <- !app_assoc. }
  assert (feeds N (abs (sl_decoder l)) bs [] (mk_fs (kf_command f :: kf_payload f) true false)) as Hfeed.
  { unfold bs. change (@nil KissFrameRef) with (@nil KissFrameRef ++ [] ++ []).
    eapply feeds_app; [pose proof (feeds_fend N (abs (sl_decoder l))) as Hq; rewrite Hidle in Hq; exact Hq|].
    eapply feeds_app; [apply feeds_plain; [done | done | rewrite len_nil; lia]|].
    apply (feeds_escape N [kf_command f]). change (len [kf_command f]) with 1. lia. }
  assert (exists k, fuel = length bs + S k)%nat as [k ->].
  { rewrite Hin', length_app in Hfuel. simpl in Hfuel. exists (fuel - length bs - 1)%nat. simpl. lia. }
  destruct (read_quiet now l bs (KISS_FEND :: rest) (S k) _ Hok Hin' Hfeed) as (d & p & Hd & Ha & Hpa & ->).
  assert (bytes_ok (KISS_FEND :: rest)) as Hbr.
  { pose proof (lok_in _ Hok) as Hbi. rewrite Hin' in Hbi. by apply bytes_ok_app in Hbi as [_ Hbi]. }
  destruct (read_turn_byte now (moved l p d (sl_pending l)) KISS_FEND rest) as (d' & p' & Hd' & Ha' & Hpa' & Hr).
  - apply (moved_ok l p d _ (KISS_FEND :: rest)); [done..|apply Hok].
  - simpl. by apply pa_in in Hpa.
  - exists d', p'. split_and!; [done | done | by eapply port_at_trans|].
    cbn [read_until_pending]. simpl sl_decoder in Hr. rewrite Ha in Hr. unfold abs_step in Hr. cbn in Hr.
    rewrite (io_bind_ok _ _ _ _ _ Hr). by destruct f.
Qed.
End receiving.

(** ** Lemmas: draining and polling *)
Section polling.
Context (N : Z) `{SerialPort Io}.
Implicit Types (l : RNodeSerialLink Io) (p : Io).

Lemma pending_slice {E} q : pending_ok N q ->
  slice (E:=E) (pf_payload q) 0 (pf_payload_len q) = Ok (pending_bytes q).
Proof. intros [[Hl _] Hn _]. apply slice_prefix. lia. Qed.

Lemma pending_bytes_ok q : pending_ok N q -> bytes_ok (pending_bytes q) /\ len (pending_bytes q) = pf_payload_len q.
Proof.
  intros [[Hl Hb] Hn _]. unfold pending_bytes. split; [by apply bytes_ok_take|]. rewrite len_take. lia.
Qed.

Definition pending_report q : outcome RNodeError RNodeEvent :=
  parse_command_frame (mk_kiss_frame (pf_command q) (pending_bytes q)).

Lemma pending_report_safe q : pending_ok N q -> pending_report q <> Panic.
Proof.
  intros Hq. destruct (pending_bytes_ok q Hq) as [Hb _].
  pose proof (parse_command_frame_well (mk_kiss_frame (pf_command q) (pending_bytes q)) Hb) as Hw.
  unfold pending_report. by destruct (parse_command_frame _).
Qed.

(** A report in the slot: applied and cleared, or reported and kept. *)
Lemma drain_pending_command_run l q :
  sl_pending l = Some q -> pending_ok N q -> pf_command q <> KISS_CMD_DATA ->
  drain_pending_command l =
    match pending_report q with
    | Ok ev => (Ok (Some (from_rnode ev)), mk_link (sl_config l) (sl_io l) (apply_event (sl_state l) ev) (sl_decoder l) None)
    | Err e => (Err (RNodeFailure e), l)
    | Panic => (Panic, l)
    end.
Proof.
  intros Hq Hok Hc. unfold drain_pending_command. rewrite get_bind, Hq, (proj2 (Z.eqb_neq _ _) Hc).
  rewrite (pending_slice q Hok), lift_bind_ok. unfold pending_report.
  by destruct (parse_command_frame _) as [ev|e|].
Qed.

Lemma on_link_ok {A B} (m : io (RNodeSerialLink Io) RNodeSerialError A) (f : A -> io (RNodeSerialLink Io * list Z) RNodeSerialError B) l out a l' :
  m l = (Ok a, l') -> (on_link m ≫= f) (l, out) = f a (l', out).
Proof. intros Hm. apply io_bind_ok. unfold on_link. by rewrite Hm. Qed.
Lemma on_link_err {A B} (m : io (RNodeSerialLink Io) RNodeSerialError A) (f : A -> io (RNodeSerialLink Io * list Z) RNodeSerialError B) l out e l' :
  m l = (Err e, l') -> (on_link m ≫= f) (l, out) = (Err e, (l', out)).
Proof. intros Hm. apply io_bind_err. unfold on_link. by rewrite Hm. Qed.

Lemma ensure_pending_some fuel now l q : sl_pending l = Some q -> ensure_pending N fuel now l = (Ok (Some true), l).
Proof. intros Hq. unfold ensure_pending. by rewrite get_bind, Hq. Qed.
Lemma ensure_pending_none fuel now l : sl_pending l = None -> ensure_pending N fuel now l = read_until_pending N fuel now l.
Proof. intros Hq. unfold ensure_pending. by rewrite get_bind, Hq. Qed.

(** One round of the loop of all gateway polls, once a frame is pending. *)
Lemma poll_loop_pending fuel turns now drain l out l1 q :
  ensure_pending N fuel now l = (Ok (Some true), l1) -> sl_pending l1 = Some q ->
  poll_loop N fuel (S turns) now drain (l, out) =
    if pf_command q =? KISS_CMD_DATA then (f ← drain; mret (Some f)) (l1, out)
    else (_ ← on_link drain_pending_command; poll_loop N fuel turns now drain) (l1, out).
Proof.
  intros He Hq. cbn [poll_loop]. erewrite on_link_ok by exact He. cbv beta iota. rewrite get_bind. rewrite Hq.
  by destruct (pf_command q =? KISS_CMD_DATA).
Qed.

(** The frames before the data frame: reports the modem is allowed to send. *)
Definition is_report (f : KissFrameRef) (ev : RNodeEvent) : Prop :=
  frame_fits N f /\ kf_command f <> KISS_CMD_DATA /\ parse_command_frame f = Ok ev.

(** Between frames: nothing pending, nothing half received. *)
Record link_idle l : Prop := {
  li_ok : link_ok N l;
  li_pending : sl_pending l = None;
  li_decoder : pending_frame (abs (sl_decoder l)) = None;
}.

(** What a poll does to the link besides its result. *)
Record advanced l l' (evs : list RNodeEvent) (rest : list Z) : Prop := {
  adv_idle : link_idle l';
  adv_config : sl_config l' = sl_config l;
  adv_state : sl_state l' = fold_left apply_event evs (sl_state l);
  adv_port : port_at (sl_io l) (sl_io l') rest;
}.

(** Waiting on an idle link for a frame that is whole in the input. *)
Lemma ensure_frame fuel now l f rest :
  link_idle l -> frame_fits N f ->
  port_in (sl_io l) = kiss_encoding (kf_command f) (kf_payload f) ++ rest ->
  (length (port_in (sl_io l)) <= fuel)%nat ->
  exists d p, abs d = idle /\ port_at (sl_io l) p rest /\
    ensure_pending N fuel now l = (Ok (Some true), moved l p d (Some (pending_of N now f))) /\
    link_ok N (moved l p d (Some (pending_of N now f))) /\ link_idle (moved l p d None) /\
    pending_ok N (pending_of N now f) /\ pending_bytes (pending_of N now f) = kf_payload f.
Proof.
  intros [Hok Hp Hd] Hf Hin Hfuel. rewrite ensure_pending_none by done.
  destruct (read_frame N now l f rest fuel Hok Hd Hf Hin Hfuel) as (d & p & Hd' & Ha & Hpa & Hr).
  exists d, p. pose proof Hf as (Hc & _ & _ & Hb & Hl). pose proof (len_nonneg (kf_payload f)).
  destruct (pending_of_ok N now f Hc Hb) as [Hpo Hpb]; [lia|].
  assert (bytes_ok rest) as Hbr.
  { pose proof (lok_in _ _ Hok) as Hi. rewrite Hin in Hi. by apply bytes_ok_app in Hi as [_ Hi]. }
  split_and!; try done.
  - eapply moved_ok; try done. intros x [= <-]. done.
  - split; [by eapply moved_ok | done |]. simpl. by rewrite Ha.
Qed.

Lemma poll_reports fuel turns now drain cmds evs rest l out :
  Forall2 is_report cmds evs -> link_idle l -> port_in (sl_io l) = stream cmds ++ rest ->
  (length (port_in (sl_io l)) <= fuel)%nat ->
  exists l', advanced l l' evs rest /\
    poll_loop N fuel (length cmds + turns) now drain (l, out) = poll_loop N fuel turns now drain (l', out).
Proof.
  intros Hc. revert l. induction Hc as [|f ev cmds evs (Hf & Hne & Hparse) Hc IH]; intros l Hidle Hin Hfuel.
  - exists l. split; [|done]. simpl in Hin. split; try done. rewrite <- Hin. apply port_at_refl. apply Hidle.
  - change (stream (f :: cmds)) with (kiss_encoding (kf_command f) (kf_payload f) ++ stream cmds) in Hin.
    rewrite <- app_assoc in Hin.
    destruct (ensure_frame fuel now l f _ Hidle Hf Hin Hfuel) as (d & p & Ha & Hpa & He & Hok & Hidle' & Hpo & Hpb).
    set (l1 := mk_link (sl_config l) p (apply_event (sl_state l) ev) d None).
    assert (link_idle l1) as Hl1 by (destruct Hidle' as [[] ? ?]; by split).
    destruct (IH l1 Hl1) as (l' & [Hi Hcf Hst Hpt] & Hr).
    { apply (pa_in _ _ _ Hpa). }
    { simpl. rewrite (pa_in _ _ _ Hpa). rewrite Hin, length_app in Hfuel. lia. }
    exists l'. split; [split; [done | by rewrite Hcf | by rewrite Hst | by eapply port_at_trans]|].
    cbn [length Nat.add]. erewrite poll_loop_pending by done. cbn [pending_of pf_command].
    rewrite (proj2 (Z.eqb_neq _ _) Hne). erewrite on_link_ok; [exact Hr|].
    erewrite drain_pending_command_run by done. unfold pending_report. rewrite Hpb. cbn [pending_of pf_command].
    destruct f as [c pl]. cbn [kf_command kf_payload]. by rewrite Hparse.
Qed.

(** A data frame in the slot of a link in envelope mode, through
    [LinkDriver::poll_frame]. *)
Lemma drain_hyf_run fuel now l q e out :
  sl_pending l = Some q -> pending_ok N q -> pf_command q = KISS_CMD_DATA ->
  sc_data_mode (sl_config l) = HyfEnvelope -> decode_envelope (pending_bytes q) = Ok e ->
  pf_payload_len q <= len out ->
  (f ← poll_gateway_frame_at N fuel 1 now; mret (default None f)) (l, out) =
    (Ok (Some (mk_frame (sc_link_id (sl_config l)) (pf_received_at_ms q) (pending_bytes q))),
     (moved l (sl_io l) (sl_decoder l) None, pending_bytes q ++ drop (length (pending_bytes q)) out)).
Proof.
  intros Hq Hok Hc Hm He Hout. destruct (pending_bytes_ok q Hok) as [_ Hl]. pose proof (len_nonneg (pending_bytes q)).
  unfold poll_gateway_frame_at. unfold mbind at 1, io_bind at 1. rewrite get_bind. cbv beta iota. rewrite Hm. cbn [bool_decide].
  change (bool_decide (HyfEnvelope = RawRnsPacket)) with false. cbv iota.
  erewrite poll_loop_pending by (done || by apply ensure_pending_some with q).
  rewrite Hc. cbn [Z.eqb KISS_CMD_DATA]. unfold drain_pending_hyf_frame. unfold mbind at 1, io_bind at 1.
  rewrite get_bind. cbv beta iota. rewrite Hq, Hc. cbn [Z.eqb KISS_CMD_DATA negb].
  rewrite guard_false by (apply Z.ltb_ge; lia). rewrite (pending_slice q Hok), lift_bind_ok, He.
  assert (put_slice (E:=RNodeSerialError) 0 (pending_bytes q) out = (Ok tt, pending_bytes q ++ drop (length (pending_bytes q)) out)) as Hput.
  { unfold put_slice. rewrite write_at_0 by lia. done. }
  rewrite (io_bind_ok _ _ (l, out) tt (l, pending_bytes q ++ drop (length (pending_bytes q)) out))
    by (unfold on_output; by rewrite Hput).
  erewrite on_link_ok by done. unfold frame_of_output. rewrite get_bind. cbv beta iota.
  rewrite slice_prefix by (rewrite len_app, len_drop; unfold len in *; lia).
  rewrite lift_bind_ok, <- Hl, take_len_app. reflexivity.
Qed.
End polling.

(** ** Lemmas: polling on arbitrary input *)
Section any_input.
Context (N : Z) `{SerialPort Io}.
Implicit Types (l : RNodeSerialLink Io) (p : Io).

(** [l'] is [l] later: only the input shrinks, only the output is fixed. *)
Record later l l' : Prop := {
  lat_ok : link_ok N l';
  lat_config : sl_config l' = sl_config l;
  lat_out : port_out (sl_io l') = port_out (sl_io l);
  lat_in : exists consumed, port_in (sl_io l) = consumed ++ port_in (sl_io l');
}.

Lemma later_refl l : link_ok N l -> later l l.
Proof. intros Hok. split; try done. by exists []. Qed.
Lemma later_trans l1 l2 l3 : later l1 l2 -> later l2 l3 -> later l1 l3.
Proof.
  intros [_ Hc1 Ho1 [u1 Hi1]] [Hok Hc2 Ho2 [u2 Hi2]]. split; [done | congruence..|].
  exists (u1 ++ u2). by rewrite Hi1, Hi2, app_assoc.
Qed.
Lemma later_input l l' : later l l' -> (length (port_in (sl_io l')) <= length (port_in (sl_io l)))%nat.
Proof. intros [_ _ _ [u Hu]]. rewrite Hu, length_app. lia. Qed.

Lemma moved_later l p d q rest consumed :
  link_ok N l -> port_at (sl_io l) p rest -> decoder_ok N d -> port_in (sl_io l) = consumed ++ rest ->
  (forall x, q = Some x -> pending_ok N x) -> later l (moved l p d q).
Proof.
  intros Hok Hpa Hd Hin Hq. assert (bytes_ok rest).
  { pose proof (lok_in _ _ Hok) as Hi. rewrite Hin in Hi. by apply bytes_ok_app in Hi as [_ Hi]. }
  split; [by eapply moved_ok | done | apply Hpa |]. exists consumed. simpl. by rewrite (pa_in _ _ _ Hpa).
Qed.

(** Waiting ends: with more fuel than input bytes the wait finds a frame, runs
    out of input, or reports a framing error. *)
Lemma read_until_total fuel now l :
  link_ok N l -> (length (port_in (sl_io l)) < fuel)%nat ->
  exists r l', read_until_pending N fuel now l = (r, l') /\ later l l' /\
    match r with
    | Ok (Some true) => sl_pending l' <> None /\ (length (port_in (sl_io l')) < length (port_in (sl_io l)))%nat
    | Ok (Some false) | Err _ => True
    | Ok None | Panic => False
    end.
Proof.
  revert l. induction fuel as [|fuel IH]; intros l Hok Hfuel; [lia|]. cbn [read_until_pending].
  destruct (port_in (sl_io l)) as [|b rest] eqn:Hin.
  - destruct (read_turn_empty N now l Hok Hin) as (p & Hpa & Hr). eexists _, _.
    split; [by rewrite (io_bind_ok _ _ _ _ _ Hr)|]. split; [|done].
    apply (moved_later _ _ _ _ [] []); [done..| apply Hok | done | apply Hok].
  - destruct (read_turn_byte N now l b rest Hok Hin) as (d & p & Hd & _ & Hpa & Hr).
    destruct (abs_step N (abs (sl_decoder l)) b) as [[f|] [o a]] eqn:Hstep.
    + eexists _, _. split; [by rewrite (io_bind_ok _ _ _ _ _ Hr)|]. split.
      * apply (moved_later _ _ _ _ rest [b]); try done. intros x [= <-].
        assert (pending_frame (abs (sl_decoder l)) = Some f) as Hpf.
        { unfold abs_step in Hstep. destruct (b =? KISS_FEND); by simplify_eq. }
        destruct (pending_frame_fits N _ f (lok_decoder _ _ Hok) Hpf) as (? & ? & ?). by apply pending_of_ok.
      * simpl. rewrite (pa_in _ _ _ Hpa). by split; [|lia].
    + assert (later l (moved l p d (sl_pending l))) as Hl
        by (apply (moved_later _ _ _ _ rest [b]); [done..|apply Hok]).
      destruct o as [[]|e|].
      * destruct (IH (moved l p d (sl_pending l))) as (r & l' & Hr' & Hl' & Hm).
        { apply Hl. } { simpl. rewrite (pa_in _ _ _ Hpa). simpl in Hfuel. lia. }
        exists r, l'. split; [by rewrite (io_bind_ok _ _ _ _ _ Hr)|]. split; [by eapply later_trans|].
        destruct r as [[[]|]| |]; try done. simpl in Hm. rewrite (pa_in _ _ _ Hpa) in Hm.
        split; [apply Hm | simpl; lia].
      * eexists _, _. split; [by rewrite (io_bind_err _ _ _ _ _ Hr)|]. by split.
      * exfalso. unfold abs_step, abs_push in Hstep. repeat (simpl in Hstep; case_match); simplify_eq.
Qed.

Lemma ensure_pending_total fuel now l :
  link_ok N l -> (length (port_in (sl_io l)) < fuel)%nat ->
  exists r l', ensure_pending N fuel now l = (r, l') /\ later l l' /\
    match r with
    | Ok (Some true) => (exists q, sl_pending l' = Some q) /\
        (sl_pending l = None -> (length (port_in (sl_io l')) < length (port_in (sl_io l)))%nat)
    | Ok (Some false) | Err _ => True
    | Ok None | Panic => False
    end.
Proof.
  intros Hok Hfuel. destruct (sl_pending l) as [q|] eqn:Hq.
  - exists (Ok (Some true)), l. rewrite (ensure_pending_some N fuel now l q Hq).
    split_and!; [done | by apply later_refl | by exists q | done].
  - rewrite ensure_pending_none by done.
    destruct (read_until_total fuel now l Hok Hfuel) as (r & l' & Hr & Hl & Hm). exists r, l'.
    split_and!; [done..|]. destruct r as [[[]|]| |]; try done. destruct Hm as [Hp Hlt].
    split; [|done]. destruct (sl_pending l'); [by eexists | done].
Qed.

(** What is asked of the treatment of data frames. *)
Definition drains_safely (drain : io (RNodeSerialLink Io * list Z) RNodeSerialError (option LinkFrameRef)) : Prop :=
  forall l q out, link_ok N l -> sl_pending l = Some q -> pf_command q = KISS_CMD_DATA ->
  exists r l' out', drain (l, out) = (r, (l', out')) /\ r <> Panic /\ later l l' /\ len out' = len out.

(** Polling ends: more fuel than input bytes for a wait, and two turns more
    than input bytes, are enough. *)
Lemma poll_loop_total fuel turns now drain l out :
  drains_safely drain -> link_ok N l -> (length (port_in (sl_io l)) < fuel)%nat ->
  (length (port_in (sl_io l)) + (match sl_pending l with Some _ => 1 | None => 0 end) < turns)%nat ->
  exists r l' out', poll_loop N fuel turns now drain (l, out) = (r, (l', out')) /\
    r <> Panic /\ r <> Ok None /\ later l l' /\ len out' = len out.
Proof.
  intros Hdrain. revert l. induction turns as [|turns IH]; intros l Hok Hfuel Hturns; [lia|].
  destruct (ensure_pending_total fuel now l Hok Hfuel) as (r & l1 & He & Hl & Hm).
  destruct r as [[[]|]|e|]; [| |done| |done].
  - destruct Hm as [[q Hq] Hlt]. erewrite poll_loop_pending by done.
    destruct (Z.eqb_spec (pf_command q) KISS_CMD_DATA) as [Hc|Hc].
    + destruct (Hdrain l1 q out (lat_ok _ _ Hl) Hq Hc) as (r & l' & out' & Hd & Hr & Hl' & Hlen).
      unfold mbind, io_bind. rewrite Hd. destruct r as [f|e|]; [| |done].
      all: eexists _, _, _; split_and!; [reflexivity | done | done | by eapply later_trans | done].
    + pose proof (lok_pending _ _ (lat_ok _ _ Hl) q Hq) as Hpq.
      pose proof (drain_pending_command_run N l1 q Hq Hpq Hc) as Hrun. pose proof (pending_report_safe N q Hpq).
      destruct (pending_report q) as [ev|e|]; [| |done].
      * erewrite on_link_ok by exact Hrun.
        set (l2 := mk_link (sl_config l1) (sl_io l1) (apply_event (sl_state l1) ev) (sl_decoder l1) None).
        assert (later l1 l2) as Hl2.
        { destruct (lat_ok _ _ Hl). split; [by split | done | done | by exists []]. }
        pose proof (later_input _ _ Hl). pose proof (later_trans _ _ _ Hl Hl2) as Hll.
        destruct (IH l2) as (r & l' & out' & ? & ? & ? & ? & ?); [apply Hl2 | simpl; lia | |].
        { simpl. destruct (sl_pending l); [lia|]. pose proof (Hlt eq_refl). lia. }
        exists r, l', out'. split_and!; [done..| by eapply later_trans | done].
      * erewrite on_link_err by exact Hrun. by eexists _, _, _.
  - exists (Ok (Some None)), l1, out. cbn [poll_loop]. erewrite on_link_ok by exact He. by split_and!.
  - exists (Err e), l1, out. cbn [poll_loop]. erewrite on_link_err by exact He. by split_and!.
Qed.

Lemma hyf_drain_safe fuel now :
  drains_safely (f ← poll_gateway_frame_at N fuel 1 now; mret (default None f)).
Proof.
  intros l q out Hok Hq Hc. pose proof (lok_pending _ _ Hok q Hq) as Hpq.
  pose proof (pending_bytes_ok N q Hpq) as [Hb Hl].
  destruct (sc_data_mode (sl_config l)) eqn:Hm.
  - assert (forall r l' out', drain_pending_hyf_frame (l, out) = (r, (l', out')) ->
      (f ← poll_gateway_frame_at N fuel 1 now; mret (default None f)) (l, out) = (r, (l', out'))) as Hstep.
    { intros r l' out' Hd. unfold poll_gateway_frame_at. unfold mbind at 1, io_bind at 1. rewrite get_bind. cbv beta iota.
      rewrite Hm. change (bool_decide (HyfEnvelope = RawRnsPacket)) with false. cbv iota.
      erewrite poll_loop_pending by (done || by apply ensure_pending_some with q). rewrite Hc. cbn [Z.eqb KISS_CMD_DATA].
      unfold mbind, io_bind. rewrite Hd. by destruct r. }
    destruct (Z.ltb_spec (len out) (pf_payload_len q)) as [Hlt|Hge].
    + eexists _, l, out. split; [apply Hstep|].
      * unfold drain_pending_hyf_frame. rewrite get_bind. cbv beta iota. rewrite Hq, Hc. cbn [Z.eqb KISS_CMD_DATA negb].
        destruct (Z.ltb_spec (len out) (pf_payload_len q)); [reflexivity|lia].
      * split_and!; [done | by apply later_refl | done].
    + pose proof (decode_envelope_safe (pending_bytes q) Hb). destruct (decode_envelope (pending_bytes q)) as [e|e|] eqn:He; [| |done].
      * eexists _, _, _. split; [eapply drain_hyf_run; done|]. split_and!; [done| |].
        -- apply (moved_later _ _ _ _ (port_in (sl_io l)) []); [done | apply port_at_refl; apply Hok | apply Hok | done | done].
        -- rewrite len_app, len_drop. unfold len in *. lia.
      * eexists _, (moved l (sl_io l) (sl_decoder l) None), out. split; [apply Hstep|].
        -- unfold drain_pending_hyf_frame. rewrite get_bind. cbv beta iota. rewrite Hq, Hc. cbn [Z.eqb KISS_CMD_DATA negb].
           rewrite guard_false by (apply Z.ltb_ge; lia). rewrite (pending_slice N q Hpq), lift_bind_ok, He. reflexivity.
        -- split_and!; [done | | done].
           apply (moved_later _ _ _ _ (port_in (sl_io l)) []); [done | apply port_at_refl; apply Hok | apply Hok | done | done].
  - exists (Err RnsWrapParamsRequired), l, out. split_and!; [|done | by apply later_refl | done].
    unfold poll_gateway_frame_at. unfold mbind at 1, io_bind at 1. rewrite get_bind. cbv beta iota. by rewrite Hm.
Qed.
End any_input.

(** ** Lemmas: sending *)
Section sending.
Context `{SerialPort Io}.
Implicit Types (l : RNodeSerialLink Io) (p : Io).

(** [p'] is [p] after [v] was written. *)
Record port_wrote p p' (v : list Z) : Prop := {
  pw_ok : port_ok p';
  pw_in : port_in p' = port_in p;
  pw_out : port_out p' = port_out p ++ v;
  pw_room : port_room p' = port_room p - len v;
}.

Lemma write_then {A} p v (k : unit -> io Io RNodeSerialError A) :
  port_ok p -> len v <= port_room p ->
  exists p', port_wrote p p' v /\ (serial_write_all v ≫= k) p = k tt p'.
Proof.
  intros Hp Hv. destruct (port_write p v Hp Hv) as (p' & Hw & Hr). exists p'.
  split; [destruct_and!; by split|]. by apply io_bind_ok.
Qed.

Lemma port_wrote_trans p0 p1 p2 u v : port_wrote p0 p1 u -> port_wrote p1 p2 v -> port_wrote p0 p2 (u ++ v).
Proof.
  intros [_ Hi Ho Hr] [Hok Hi' Ho' Hr']. split; [done | congruence | by rewrite Ho', Ho, app_assoc |].
  rewrite len_app. lia.
Qed.

Lemma write_payload_run payload p :
  port_ok p -> len (escape payload) <= port_room p ->
  exists p', write_payload_loop payload p = (Ok tt, p') /\ port_wrote p p' (escape payload).
Proof.
  revert p. induction payload as [|b payload IH]; intros p Hp Hroom.
  - exists p. split; [done|]. split; try done; [by rewrite app_nil_r | change (len (escape [])) with 0; lia].
  - rewrite escape_cons, len_app in Hroom. pose proof (len_nonneg (escape payload)).
    assert (write_payload_loop (b :: payload) = (_ ← serial_write_all (escape_byte b); write_payload_loop payload)) as ->
      by (cbn [write_payload_loop]; unfold escape_byte; by repeat case_match).
    destruct (write_then p (escape_byte b) (fun _ => write_payload_loop payload) Hp) as (p1 & Hw & ->); [lia|].
    destruct (IH p1) as (p2 & Hr & Hw'); [apply Hw | rewrite (pw_room _ _ _ Hw); lia|].
    exists p2. split; [done|]. rewrite escape_cons. by eapply port_wrote_trans.
Qed.

Lemma write_kiss_frame_run command payload p :
  port_ok p -> len (kiss_encoding command payload) <= port_room p ->
  exists p', write_kiss_frame command payload p = (Ok tt, p') /\ port_wrote p p' (kiss_encoding command payload).
Proof.
  intros Hp Hroom. rewrite kiss_encoding_len in Hroom. pose proof (len_nonneg (escape payload)).
  unfold write_kiss_frame.
  destruct (write_then p [KISS_FEND; command] (fun _ => _ ← write_payload_loop payload; serial_write_all [KISS_FEND]) Hp)
    as (p1 & Hw1 & ->); [change (len [KISS_FEND; command]) with 2; lia|].
  pose proof (pw_room _ _ _ Hw1) as Hr1. change (len [KISS_FEND; command]) with 2 in Hr1.
  destruct (write_payload_run payload p1 (pw_ok _ _ _ Hw1)) as (p2 & Hr & Hw2); [lia|].
  rewrite (io_bind_ok _ _ _ _ _ Hr). pose proof (pw_room _ _ _ Hw2) as Hr2.
  destruct (port_write p2 [KISS_FEND] (pw_ok _ _ _ Hw2)) as (p3 & Hw & Hw3); [change (len [KISS_FEND]) with 1; lia|].
  exists p3. split; [done|]. unfold kiss_encoding.
  eapply port_wrote_trans; [done|]. eapply port_wrote_trans; [done|]. destruct_and!. by split.
Qed.

(** Sending: refused before anything is written, or written whole. *)
Lemma send_refused bytes now l payload :
  payload_for_send (sl_config l) bytes = Ok payload ->
  (sc_mtu (sl_config l) < len payload ->
   send_gateway_bytes bytes now l = (Err (FrameTooLarge (len payload) (sc_mtu (sl_config l))), l)) /\
  (len payload <= sc_mtu (sl_config l) -> can_transmit (sl_state l) = false ->
   send_gateway_bytes bytes now l = (Err FlowControlBlocked, l)).
Proof.
  intros Hp. split.
  - intros Hm. unfold send_gateway_bytes. rewrite get_bind, Hp, lift_bind_ok. rewrite Z.gtb_ltb, (proj2 (Z.ltb_lt _ _) Hm). done.
  - intros Hm Hc. unfold send_gateway_bytes. rewrite get_bind, Hp, lift_bind_ok, guard_false by (rewrite Z.gtb_ltb; by apply Z.ltb_ge).
    by rewrite Hc.
Qed.

Lemma send_written bytes now l payload :
  payload_for_send (sl_config l) bytes = Ok payload -> port_ok (sl_io l) ->
  len payload <= sc_mtu (sl_config l) -> can_transmit (sl_state l) = true ->
  len (kiss_encoding KISS_CMD_DATA payload) <= port_room (sl_io l) ->
  exists p, port_wrote (sl_io l) p (kiss_encoding KISS_CMD_DATA payload) /\
    send_gateway_bytes bytes now l =
      (Ok tt, mk_link (sl_config l) p (mark_tx_started (sl_state l)) (sl_decoder l) (sl_pending l)).
Proof.
  intros Hp Hpo Hm Hc Hroom. destruct (write_kiss_frame_run KISS_CMD_DATA payload (sl_io l) Hpo Hroom) as (p & Hw & Hpw).
  exists p. split; [done|]. unfold send_gateway_bytes.
  rewrite get_bind, Hp, lift_bind_ok, guard_false by (rewrite Z.gtb_ltb; by apply Z.ltb_ge).
  rewrite Hc. cbn [negb]. rewrite guard_false by done.
  by rewrite (io_bind_ok _ _ l tt (mk_link (sl_config l) p (sl_state l) (sl_decoder l) (sl_pending l)))
    by (unfold on_port; by rewrite Hw).
Qed.
End sending.

(** ** Lemmas: delivery *)
Section delivery.
Context (N : Z) `{SerialPort Io}.
Implicit Types (l : RNodeSerialLink Io) (p : Io).

Lemma poll_delivers fuel turns now l out cmds evs bytes e rest :
  link_idle N l -> sc_data_mode (sl_config l) = HyfEnvelope -> Forall2 (is_report N) cmds evs ->
  bytes_ok bytes -> decode_envelope bytes = Ok e -> 1 + len bytes <= N -> len bytes <= len out ->
  port_in (sl_io l) = stream cmds ++ kiss_encoding KISS_CMD_DATA bytes ++ rest ->
  (length (port_in (sl_io l)) <= fuel)%nat -> (length cmds < turns)%nat ->
  exists l', advanced N l l' evs rest /\
    serial_poll_frame N fuel turns now (l, out) =
      (Ok (Some (Some (mk_frame (sc_link_id (sl_config l)) now bytes))), (l', bytes ++ drop (length bytes) out)).
Proof.
  intros Hidle Hm Hc Hb He HN Hout Hin Hfuel Hturns.
  replace turns with (length cmds + S (turns - length cmds - 1))%nat by lia. unfold serial_poll_frame.
  destruct (poll_reports N fuel (S (turns - length cmds - 1)) now
    (f ← poll_gateway_frame_at N fuel 1 now; mret (default None f)) cmds evs _ l out Hc Hidle Hin Hfuel)
    as (l1 & [Hi1 Hcf Hst Hpt] & ->).
  pose proof (pa_in _ _ _ Hpt) as Hin1. set (f := mk_kiss_frame KISS_CMD_DATA bytes).
  assert (frame_fits N f) as Hf by (by repeat split).
  destruct (ensure_frame N fuel now l1 f rest Hi1 Hf Hin1) as (d & p & Ha & Hpa & Hen & Hok & Hidle' & Hpo & Hpb).
  { rewrite Hin1. rewrite Hin, length_app in Hfuel. lia. }
  exists (moved l1 p d None). split; [split; [done | exact Hcf | exact Hst | by eapply port_at_trans]|].
  erewrite poll_loop_pending by done. cbn [pending_of pf_command kf_command f Z.eqb KISS_CMD_DATA].
  assert (forall {A} (m : io (RNodeSerialLink Io * list Z) RNodeSerialError A) s x s',
    m s = (Ok x, s') -> (y ← m; mret (Some y)) s = (Ok (Some x), s')) as Hbind
    by (intros A m s x s' Hms; unfold mbind, io_bind; by rewrite Hms).
  apply Hbind. rewrite <- Hcf in Hm |- *. change bytes with (kf_payload f). rewrite <- Hpb.
  apply (drain_hyf_run N fuel now (moved l1 p d (Some (pending_of N now f))) (pending_of N now f) e); try done.
  by rewrite Hpb.
Qed.

(** Input that is only reports. *)
Lemma poll_only_reports fuel turns now l out cmds evs :
  link_idle N l -> Forall2 (is_report N) cmds evs -> port_in (sl_io l) = stream cmds ->
  (length (port_in (sl_io l)) < fuel)%nat -> (length cmds < turns)%nat ->
  exists l', advanced N l l' evs [] /\ serial_poll_frame N fuel turns now (l, out) = (Ok (Some None), (l', out)).
Proof.
  intros Hidle Hc Hin Hfuel Hturns.
  replace turns with (length cmds + S (turns - length cmds - 1))%nat by lia. unfold serial_poll_frame.
  destruct (poll_reports N fuel (S (turns - length cmds - 1)) now
    (f ← poll_gateway_frame_at N fuel 1 now; mret (default None f)) cmds evs [] l out Hc Hidle)
    as (l1 & [Hi1 Hcf Hst Hpt] & ->); [by rewrite app_nil_r | lia |].
  destruct Hi1 as [Hok1 Hp1 Hd1]. pose proof (pa_in _ _ _ Hpt) as Hin1.
  destruct (read_turn_empty N now l1 Hok1 Hin1) as (p & Hpa & Hr).
  exists (moved l1 p (sl_decoder l1) (sl_pending l1)). split.
  - split; [| exact Hcf | exact Hst | by eapply port_at_trans]. split; [|done..].
    apply (moved_ok N _ _ _ _ []); [done.. | apply Hok1 | apply bytes_ok_nil | apply Hok1].
  - assert (ensure_pending N fuel now l1 = (Ok (Some false), moved l1 p (sl_decoder l1) (sl_pending l1))) as Hen.
    { rewrite ensure_pending_none by done. destruct fuel as [|fuel]; [lia|]. cbn [read_until_pending].
      by rewrite (io_bind_ok _ _ _ _ _ Hr). }
    cbn [poll_loop]. erewrite on_link_ok by exact Hen. reflexivity.
Qed.

(** A report that does not parse stays pending: from then on every poll fails
    in the same way without touching the port. *)
Lemma poll_stuck fuel turns now l out q err drain :
  sl_pending l = Some q -> pending_ok N q -> pf_command q <> KISS_CMD_DATA -> pending_report q = Err err ->
  turns <> 0%nat ->
  poll_loop N fuel turns now drain (l, out) = (Err (RNodeFailure err), (l, out)) /\
  poll_event_at N fuel now (l, out) = (Err (RNodeFailure err), (l, out)).
Proof.
  intros Hq Hpo Hc He Ht. pose proof (drain_pending_command_run N l q Hq Hpo Hc) as Hrun. rewrite He in Hrun.
  pose proof (ensure_pending_some N fuel now l q Hq) as Hen. split.
  - destruct turns as [|turns]; [done|]. erewrite poll_loop_pending by done. rewrite (proj2 (Z.eqb_neq _ _) Hc).
    by erewrite on_link_err.
  - unfold poll_event_at. erewrite on_link_ok by done. cbv beta iota. unfold drain_pending.
    unfold mbind at 1, io_bind at 1. rewrite get_bind. cbv beta iota. rewrite Hq, (proj2 (Z.eqb_neq _ _) Hc).
    unfold on_link. by rewrite Hrun.
Qed.
End delivery.

(** C10. Receiving over the modem: a link between frames, in envelope mode, whose
    port holds any number of well-formed modem reports, then the encoding of an
    envelope that fits, then anything at all, returns from [poll_frame] exactly
    that envelope, stamped with the link and the time, in front of the rest of
    the caller's buffer.  The reports have been applied to the flow-control
    state in order, the bytes after the envelope are still in the port, and the
    link is between frames again.  Fuel for the bytes in the port and one turn
    per report and one more suffice. *)
Theorem serial_poll_delivers N `{SerialPort Io} fuel turns now (l : RNodeSerialLink Io) out cmds evs bytes e rest :
  link_idle N l -> sc_data_mode (sl_config l) = HyfEnvelope -> Forall2 (is_report N) cmds evs ->
  bytes_ok bytes -> decode_envelope bytes = Ok e -> 1 + len bytes <= N -> len bytes <= len out ->
  port_in (sl_io l) = stream cmds ++ kiss_encoding KISS_CMD_DATA bytes ++ rest ->
  (length (port_in (sl_io l)) <= fuel)%nat -> (length cmds < turns)%nat ->
  exists l', serial_poll_frame N fuel turns now (l, out) =
      (Ok (Some (Some (mk_frame (sc_link_id (sl_config l)) now bytes))), (l', bytes ++ drop (length bytes) out)) /\
    link_idle N l' /\ sl_config l' = sl_config l /\ sl_state l' = fold_left apply_event evs (sl_state l) /\
    port_in (sl_io l') = rest /\ port_out (sl_io l') = port_out (sl_io l).
Proof.
  intros. edestruct poll_delivers as (l' & [Hi Hc Hs Hp] & Hr); [eassumption..|].
  exists l'. destruct Hp. by split_and!.
Qed.

(** C30. Polling always ends: on every input whatsoever, with every frame that
    may be pending and every output buffer, [poll_frame] returns a frame,
    nothing or an error - it never panics and never loops beyond one turn per
    byte in the port and two more - consumes a prefix of the input, writes
    nothing to the port, and keeps the link's invariant and configuration and
    the buffer's length. *)
Theorem serial_poll_terminates N `{SerialPort Io} fuel turns now (l : RNodeSerialLink Io) out :
  link_ok N l -> (length (port_in (sl_io l)) < fuel)%nat -> (length (port_in (sl_io l)) + 1 < turns)%nat ->
  exists r l' out', serial_poll_frame N fuel turns now (l, out) = (r, (l', out')) /\
    r <> Panic /\ r <> Ok None /\ len out' = len out /\
    link_ok N l' /\ sl_config l' = sl_config l /\ port_out (sl_io l') = port_out (sl_io l) /\
    exists consumed, port_in (sl_io l) = consumed ++ port_in (sl_io l').
Proof.
  intros Hok Hfuel Hturns.
  destruct (poll_loop_total N fuel turns now _ l out (hyf_drain_safe N fuel now) Hok Hfuel) as (r & l' & out' & H1 & H2 & H3 & [] & H5).
  { destruct (sl_pending l); lia. }
  exists r, l', out'. by split_and!.
Qed.

(** A malformed report blocks the link: when the next frame in the port is
    a modem report whose payload the RNode parser refuses, the poll fails with
    that error and leaves the frame pending; from then on every poll, by
    [poll_frame], by [poll_event_at] or by the raw-packet poll, at any time and
    with any buffer, fails with the same error, changes nothing and reads
    nothing, so that the frames still in the port are never delivered. *)
Theorem serial_malformed_report_blocks N `{SerialPort Io} fuel turns now (l : RNodeSerialLink Io) out f err rest :
  link_idle N l -> frame_fits N f -> kf_command f <> KISS_CMD_DATA -> parse_command_frame f = Err err ->
  port_in (sl_io l) = kiss_encoding (kf_command f) (kf_payload f) ++ rest ->
  (length (port_in (sl_io l)) <= fuel)%nat -> turns <> 0%nat ->
  exists l', serial_poll_frame N fuel turns now (l, out) = (Err (RNodeFailure err), (l', out)) /\
    port_in (sl_io l') = rest /\
    forall fuel' turns' now' out', turns' <> 0%nat ->
      serial_poll_frame N fuel' turns' now' (l', out') = (Err (RNodeFailure err), (l', out')) /\
      poll_event_at N fuel' now' (l', out') = (Err (RNodeFailure err), (l', out')) /\
      forall provider, poll_raw_rns_gateway_frame_with_provider N fuel' turns' now' provider (l', out') =
        (Err (RNodeFailure err), (l', out')).
Proof.
  intros Hidle Hf Hc He Hin Hfuel Ht.
  destruct (ensure_frame N fuel now l f rest Hidle Hf Hin Hfuel) as (d & p & Ha & Hpa & Hen & Hok & Hidle' & Hpo & Hpb).
  set (l' := moved l p d (Some (pending_of N now f))) in *.
  assert (pending_report (pending_of N now f) = Err err) as Hrep.
  { unfold pending_report. rewrite Hpb. by destruct f. }
  assert (forall fuel turns now drain out, turns <> 0%nat ->
    poll_loop N fuel turns now drain (l', out) = (Err (RNodeFailure err), (l', out)) /\
    poll_event_at N fuel now (l', out) = (Err (RNodeFailure err), (l', out))) as Hstuck.
  { intros fuel1 turns1 now1 drain1 out1 Ht1.
    exact (poll_stuck N fuel1 turns1 now1 l' out1 _ err drain1 eq_refl Hpo Hc Hrep Ht1). }
  exists l'. split_and!.
  - destruct turns as [|turns]; [done|]. unfold serial_poll_frame. erewrite poll_loop_pending by done.
    cbn [pending_of pf_command]. rewrite (proj2 (Z.eqb_neq _ _) Hc). erewrite on_link_err; [done|].
    erewrite drain_pending_command_run by done. by rewrite Hrep.
  - apply (pa_in _ _ _ Hpa).
  - intros fuel' turns' now' out' Ht'. split_and!; [by apply Hstuck | exact (proj2 (Hstuck fuel' turns' now' (mret None) out' Ht')) | intros; by apply Hstuck].
Qed.

(** Two modems back to back: an envelope accepted for sending is refused,
    with nothing written, exactly when it exceeds the MTU or flow control
    forbids it; otherwise it is written whole behind what the port already
    held, marking the transmission, and a receiver between frames that finds
    those bytes in its port, even behind reports of its own modem, returns the
    very same bytes. *)
Theorem serial_link_roundtrip N `{SerialPort Io} `{SerialPort Jo} (a : RNodeSerialLink Io) bytes e now :
  bytes_ok bytes -> decode_envelope bytes = Ok e -> sc_data_mode (sl_config a) = HyfEnvelope ->
  port_ok (sl_io a) -> len (kiss_encoding KISS_CMD_DATA bytes) <= port_room (sl_io a) ->
  sc_mtu (sl_config a) + 1 <= N ->
  match send_gateway_bytes bytes now a with
  | (Err (FrameTooLarge n m), a') => a' = a /\ n = len bytes /\ m = sc_mtu (sl_config a) /\ m < n
  | (Err FlowControlBlocked, a') => a' = a /\ can_transmit (sl_state a) = false
  | (Ok _, a') =>
      sl_state a' = mark_tx_started (sl_state a) /\
      exists sent, port_out (sl_io a') = port_out (sl_io a) ++ sent /\
      forall (b : RNodeSerialLink Jo) cmds evs rest out fuel turns later,
        link_idle N b -> sc_data_mode (sl_config b) = HyfEnvelope -> Forall2 (is_report N) cmds evs ->
        port_in (sl_io b) = stream cmds ++ sent ++ rest -> len bytes <= len out ->
        (length (port_in (sl_io b)) <= fuel)%nat -> (length cmds < turns)%nat ->
        exists b', serial_poll_frame N fuel turns later (b, out) =
          (Ok (Some (Some (mk_frame (sc_link_id (sl_config b)) later bytes))), (b', bytes ++ drop (length bytes) out)) /\
          link_idle N b' /\ port_in (sl_io b') = rest
  | _ => False
  end.
Proof.
  intros Hb He Hm Hp Hroom HN.
  assert (payload_for_send (sl_config a) bytes = Ok bytes) as Hpl by (unfold payload_for_send; by rewrite Hm, He).
  destruct (send_refused bytes now a bytes Hpl) as [Hbig Hblocked].
  destruct (Z.ltb_spec (sc_mtu (sl_config a)) (len bytes)) as [Hlt|Hge]; [by rewrite Hbig|].
  destruct (can_transmit (sl_state a)) eqn:Hcan; [|by rewrite Hblocked].
  destruct (send_written bytes now a bytes Hpl Hp Hge Hcan Hroom) as (p & Hw & ->). simpl. split; [done|].
  exists (kiss_encoding KISS_CMD_DATA bytes). split; [apply Hw|]. intros b cmds evs rest out fuel turns later_ms Hi Hmb Hc Hin Hout Hf Ht.
  destruct (poll_delivers N fuel turns later_ms b out cmds evs bytes e rest) as (b' & [Hi' _ _ Hpt] & Hr); try done; [lia|].
  exists b'. destruct Hpt. by split_and!.
Qed.

(** ** Witnesses *)
Definition sample_link (flow_control : bool) (input : list Z) : RNodeSerialLink FakeSerial :=
  mk_link (mk_serial_config (replicate 16 9) 110 flow_control HyfEnvelope)
    (mk_fake (input ++ zeros (256 - len input)) (len input) (zeros 256) 0 None None)
    (RNodeState_new flow_control) (KissDecoder_new 128) None.

Lemma sample_link_in fc input : port_in (sl_io (sample_link fc input)) = input.
Proof. simpl. unfold fake_in. simpl. apply take_len_app. Qed.

Lemma sample_link_idle fc input : bytes_ok input -> len input <= 256 -> link_idle 128 (sample_link fc input).
Proof.
  intros Hb Hl. pose proof (len_nonneg input). split; [split | done | done]; try done; simpl.
  - assert (len (input ++ zeros (256 - len input)) = 256) as Hlen by (rewrite len_app, len_zeros; lia).
    split; cbn [fs_read_len fs_read_buf fs_written fs_written_len fs_next_read_error fs_next_write_error];
      rewrite ?Hlen, ?(len_zeros 256) by lia; unfold usize_MAX; try done; lia.
  - fold (sample_link fc input). change (bytes_ok (port_in (sl_io (sample_link fc input)))). by rewrite sample_link_in.
  - apply decoder_new_ok. lia.
Qed.

(** The port is in the state the source's [push_read_bytes] leaves. *)
Example sample_port : (push_read_bytes [1; 2; 3] (fake_new 256 256)).2 = sl_io (sample_link false [1; 2; 3]).
Proof. reflexivity. Qed.

Definition ready_report : KissFrameRef := mk_kiss_frame KISS_CMD_READY [1].
Definition bad_report : KissFrameRef := mk_kiss_frame RNODE_CMD_STAT_RSSI [1; 2].
Definition sample_bytes : list Z := envelope_bytes sample_envelope.
Definition sample_sent : list Z := kiss_encoding KISS_CMD_DATA sample_bytes.
Definition sample_input : list Z := stream [ready_report] ++ sample_sent ++ [192; 5].
Definition blocked_input : list Z := kiss_encoding RNODE_CMD_STAT_RSSI [1; 2] ++ sample_sent.

Lemma ready_is_report : is_report 128 ready_report ReadyEvent.
Proof. split_and!; [split_and!; simpl|..]; try done; apply (bool_decide_unpack _); vm_compute; exact I. Qed.

Lemma serial_poll_delivers_witness :
  exists l', serial_poll_frame 128 300 2 7 (sample_link true sample_input, zeros 100) =
      (Ok (Some (Some (mk_frame (replicate 16 9) 7 sample_bytes))), (l', sample_bytes ++ zeros 6)) /\
    can_transmit (sl_state (sample_link true sample_input)) = false /\ can_transmit (sl_state l') = true /\
    port_in (sl_io l') = [192; 5].
Proof.
  destruct (serial_poll_delivers 128 300 2 7 (sample_link true sample_input) (zeros 100) [ready_report] [ReadyEvent]
    sample_bytes sample_envelope [192; 5]) as (l' & Hr & _ & _ & Hs & Hin & _).
  - apply sample_link_idle; [apply (bool_decide_unpack _); vm_compute; exact I | vm_compute; discriminate].
  - reflexivity.
  - constructor; [exact ready_is_report | constructor].
  - apply (bool_decide_unpack _); vm_compute; exact I.
  - vm_compute; reflexivity.
  - vm_compute; discriminate.
  - vm_compute; discriminate.
  - rewrite sample_link_in. reflexivity.
  - rewrite sample_link_in. apply (bool_decide_unpack _); vm_compute; exact I.
  - simpl. lia.
  - exists l'. split; [exact Hr|]. split; [reflexivity|]. split; [rewrite Hs; reflexivity | exact Hin].
Defined.

Lemma serial_poll_terminates_witness :
  exists r l' out', serial_poll_frame 128 10 10 7 (sample_link true [192; 1; 219; 7], zeros 3) = (r, (l', out')) /\
    r = Err (KissFailure (MalformedEscape 7)) /\ r <> Panic /\ r <> Ok None /\ len out' = 3.
Proof.
  destruct (serial_poll_terminates 128 10 10 7 (sample_link true [192; 1; 219; 7]) (zeros 3)) as (r & l' & out' & Hr & H1 & H2 & H3 & _).
  - apply sample_link_idle; [apply (bool_decide_unpack _); vm_compute; exact I | vm_compute; discriminate].
  - rewrite sample_link_in. simpl. lia.
  - rewrite sample_link_in. simpl. lia.
  - exists r, l', out'. split; [exact Hr|]. split; [|split; [exact H1 | split; [exact H2 | exact H3]]].
    vm_compute in Hr. injection Hr as <- _ _. reflexivity.
Defined.

(** The envelope behind the bad report is never delivered. *)
Lemma serial_malformed_report_blocks_witness :
  exists l', serial_poll_frame 128 300 5 7 (sample_link true blocked_input, zeros 100) =
      (Err (RNodeFailure (InvalidPayloadLength RNODE_CMD_STAT_RSSI 2 1)), (l', zeros 100)) /\
    port_in (sl_io l') = sample_sent /\
    forall now', serial_poll_frame 128 300 5 now' (l', zeros 100) =
      (Err (RNodeFailure (InvalidPayloadLength RNODE_CMD_STAT_RSSI 2 1)), (l', zeros 100)).
Proof.
  destruct (serial_malformed_report_blocks 128 300 5 7 (sample_link true blocked_input) (zeros 100) bad_report
    (InvalidPayloadLength RNODE_CMD_STAT_RSSI 2 1) sample_sent) as (l' & Hr & Hin & Hstuck).
  - apply sample_link_idle; [apply (bool_decide_unpack _); vm_compute; exact I | vm_compute; discriminate].
  - split_and!; try done; apply (bool_decide_unpack _); vm_compute; exact I.
  - discriminate.
  - reflexivity.
  - rewrite sample_link_in. reflexivity.
  - rewrite sample_link_in. apply (bool_decide_unpack _); vm_compute; exact I.
  - discriminate.
  - exists l'. split; [exact Hr|]. split; [exact Hin|]. intros now'. apply (Hstuck 300%nat 5%nat now' (zeros 100)). discriminate.
Defined.

Lemma serial_link_roundtrip_witness :
  exists a', send_gateway_bytes sample_bytes 3 (sample_link false []) = (Ok tt, a') /\ port_out (sl_io a') = sample_sent /\
  exists b', serial_poll_frame 128 300 1 9 (sample_link true sample_sent, zeros 94) =
    (Ok (Some (Some (mk_frame (replicate 16 9) 9 sample_bytes))), (b', sample_bytes ++ [])).
Proof.
  pose proof (serial_link_roundtrip 128 (Jo:=FakeSerial) (sample_link false []) sample_bytes sample_envelope 3) as H.
  assert (send_gateway_bytes sample_bytes 3 (sample_link false []) =
    (Ok tt, (send_gateway_bytes sample_bytes 3 (sample_link false [])).2)) as Hs by (vm_compute; reflexivity).
  exists (send_gateway_bytes sample_bytes 3 (sample_link false [])).2. split; [exact Hs|]. rewrite Hs in H.
  destruct H as [_ (sent & Hout & Hb)].
  - apply (bool_decide_unpack _); vm_compute; exact I.
  - vm_compute; reflexivity.
  - reflexivity.
  - apply (sample_link_idle false []); [apply bytes_ok_nil | discriminate].
  - vm_compute; discriminate.
  - vm_compute; discriminate.
  - assert (port_out (sl_io (send_gateway_bytes sample_bytes 3 (sample_link false [])).2) = sample_sent) as Hsent by (vm_compute; reflexivity).
    split; [exact Hsent|].
    assert (sent = sample_sent) as -> by (rewrite <- Hsent, Hout; reflexivity).
    destruct (Hb (sample_link true sample_sent) [] [] [] (zeros 94) 300%nat 1%nat 9) as (b' & Hr & _).
    + apply sample_link_idle; [apply (bool_decide_unpack _); vm_compute; exact I | vm_compute; discriminate].
    + reflexivity.
    + constructor.
    + rewrite sample_link_in. symmetry. apply app_nil_r.
    + vm_compute; discriminate.
    + rewrite sample_link_in. apply (bool_decide_unpack _); vm_compute; exact I.
    + simpl. lia.
    + exists b'. exact Hr.
Defined.
