(* ===== verification/SerialDriver.v ===== *)
(** [hyf_link_rnode_serial]: the modem link and the raw-packet driver as link
    drivers (src/crates/hyf_link_rnode_serial/src/link.rs).

    A raw-packet driver is a link in raw mode with a provider, which says how a
    Reticulum packet from the modem is to be wrapped in an envelope.  Sending
    takes the packet out of its envelope again.  The polls of [SerialLink] take
    the provider's answers as a function; here the provider is the object the
    source passes around, with its own state, and a lemma relates the two. *)
From S2P Require Import Prelude Cursor Core Wire Link Carrier Kiss RNode RnsWire LinkRns SerialLink.

(** [RnsWrapParamsProvider::wrap_params]: the answer and the provider afterwards. *)
Class RnsWrapParamsProvider (P : Type) := wrap_params : RnsPacketRef -> Z -> P -> option RnsWrapParams * P.

Record RNodeRawRnsSerialDriver (Io P : Type) := mk_raw_driver { rd_link : RNodeSerialLink Io; rd_provider : P }.
Arguments mk_raw_driver {Io P} _ _.
Arguments rd_link {Io P} _.
Arguments rd_provider {Io P} _.

Section driver.
(** The const generic [FRAME_MAX], the port and the provider; [fuel] bounds each
    wait for a frame, [turns] the frames a poll looks at. *)
Context (N : Z) {Io P : Type} `{SerialIo Io} `{RnsWrapParamsProvider P} (fuel turns : nat).
Abbreviation driver := (RNodeRawRnsSerialDriver Io P).

Definition RNodeRawRnsSerialDriver_new (link : RNodeSerialLink Io) (provider : P) : outcome RNodeSerialError driver :=
  _ ← guard_err (negb (bool_decide (sc_data_mode (sl_config link) = RawRnsPacket))) RawRnsModeRequired;
  Ok (mk_raw_driver link provider).

(** An operation of the link, and one that also owns the output buffer. *)
Definition at_link {A} (m : io (RNodeSerialLink Io) RNodeSerialError A) : io driver RNodeSerialError A := fun d =>
  let '(r, l) := m (rd_link d) in (r, mk_raw_driver l (rd_provider d)).
Definition at_link_out {A} (m : io (RNodeSerialLink Io * list Z) RNodeSerialError A) : io (driver * list Z) RNodeSerialError A := fun '(d, out) =>
  let '(r, (l, out)) := m (rd_link d, out) in (r, (mk_raw_driver l (rd_provider d), out)).
Definition ask_provider (packet : RnsPacketRef) (received_at_ms : Z) : io (driver * list Z) RNodeSerialError (option RnsWrapParams) := fun '(d, out) =>
  let '(answer, provider) := wrap_params packet received_at_ms (rd_provider d) in (Ok answer, (mk_raw_driver (rd_link d) provider, out)).

Definition drain_pending_raw_rns_frame_with_provider : io (driver * list Z) RNodeSerialError (option LinkFrameRef) :=
  '(d, _) ← get;
  match sl_pending (rd_link d) with
  | None => mret None
  | Some pending =>
      if negb (pf_command pending =? KISS_CMD_DATA) then mret None
      else
        raw ← lift (slice (pf_payload pending) 0 (pf_payload_len pending));
        match validate_rns_packet raw with
        | Err error => _ ← at_link_out (on_link (set_pending None)); lift (Err (RnsFailure error))
        | Panic => lift Panic
        | Ok packet =>
            answer ← ask_provider packet (pf_received_at_ms pending);
            params ← lift (ok_or answer RnsWrapParamsUnavailable);
            envelope ← lift (map_err RnsFailure (wrap_rns_packet packet params));
            n ← at_link_out (on_output (io_map_err HyfWireFailure (encode_envelope envelope)));
            _ ← at_link_out (on_link (set_pending None));
            at_link_out (frame_of_output (rd_link d) (pf_received_at_ms pending) n)
        end
  end.

(** The loop of [poll_raw_rns_gateway_frame_with_provider]; [None] is the end of
    the fuel. *)
Fixpoint raw_poll_loop (turns : nat) (now_ms : Z) : io (driver * list Z) RNodeSerialError (option (option LinkFrameRef)) :=
  match turns with
  | O => mret None
  | S turns =>
      ready ← at_link_out (on_link (ensure_pending N fuel now_ms));
      match ready with
      | None => mret None
      | Some false => mret (Some None)
      | Some true =>
          '(d, _) ← get;
          match sl_pending (rd_link d) with
          | None => mret (Some None)
          | Some pending =>
              if pf_command pending =? KISS_CMD_DATA then f ← drain_pending_raw_rns_frame_with_provider; mret (Some f)
              else
                _ ← at_link_out (on_link drain_pending_command);
                raw_poll_loop turns now_ms
          end
      end
  end.

(** A poll whose fuel runs out has not returned. *)
Definition must_return {S A} (m : io S RNodeSerialError (option A)) : io S RNodeSerialError A :=
  r ← m; lift (match r with Some a => Ok a | None => Panic end).

#[export] Instance serial_link_driver : LinkDriver (RNodeSerialLink Io) RNodeSerialError := {|
  driver_link_id l := sc_link_id (sl_config l);
  driver_link_class _ := RNodeKiss;
  driver_mtu l := sc_mtu (sl_config l);
  driver_is_up l := can_transmit (sl_state l);
  send_bytes := send_gateway_bytes;
  poll_frame now_ms := must_return (serial_poll_frame N fuel turns now_ms);
  driver_error_kind := serial_error_kind;
|}.

#[export] Instance raw_serial_driver : LinkDriver driver RNodeSerialError := {|
  driver_link_id d := driver_link_id (rd_link d);
  driver_link_class d := driver_link_class (rd_link d);
  driver_mtu d := driver_mtu (rd_link d);
  driver_is_up d := driver_is_up (rd_link d);
  send_bytes bytes now_ms := at_link (send_bytes bytes now_ms);
  poll_frame now_ms := must_return (raw_poll_loop turns now_ms);
  driver_error_kind := serial_error_kind;
|}.
End driver.

(** ** Lemmas *)
Section lemmas.
Context (N : Z) {Io P : Type} `{SerialPort Io} `{RnsWrapParamsProvider P}.
Implicit Types (l : RNodeSerialLink Io) (d : RNodeRawRnsSerialDriver Io P).

(** Every poll waits for a data frame, which it leaves to its drain. *)
Definition next_data (fuel turns : nat) (now_ms : Z) : io (RNodeSerialLink Io * list Z) RNodeSerialError (option (option LinkFrameRef)) :=
  poll_loop N fuel turns now_ms (mret (Some (mk_frame [] 0 []))).

Lemma raw_poll_waits fuel turns now d out :
  raw_poll_loop N fuel turns now (d, out) =
    (r ← at_link_out (next_data fuel turns now);
     match r with Some (Some _) => f ← drain_pending_raw_rns_frame_with_provider; mret (Some f) | r => mret r end) (d, out).
Proof.
  revert d out. induction turns as [|turns IH]; intros [l prov] out; [done|]. unfold next_data. cbn [raw_poll_loop poll_loop].
  unfold mbind, io_bind, at_link_out, on_link. cbn [rd_link rd_provider].
  destruct (ensure_pending N fuel now l) as [o l1]. destruct o as [[[]|]|e|]; [|done..]. cbn [get rd_link].
  destruct (sl_pending l1) as [q|]; [|done]. destruct (pf_command q =? KISS_CMD_DATA); [done|].
  cbv beta iota. cbn [rd_link rd_provider]. destruct (drain_pending_command l1) as [[ev|e|] l2]; [|done..].
  specialize (IH (mk_raw_driver l2 prov) out). unfold mbind, io_bind, at_link_out in IH. cbn [rd_link rd_provider] in IH. exact IH.
Qed.

Lemma raw_poll_next fuel turns now l prov out f l' :
  next_data fuel turns now (l, out) = (Ok (Some (Some f)), (l', out)) ->
  raw_poll_loop N fuel turns now (mk_raw_driver l prov, out) = (f ← drain_pending_raw_rns_frame_with_provider; mret (Some f)) (mk_raw_driver l' prov, out).
Proof. intros Hn. rewrite raw_poll_waits. unfold mbind at 1, io_bind at 1. unfold at_link_out at 1. cbn [rd_link]. by rewrite Hn. Qed.

Lemma next_data_pending fuel turns now l out q :
  sl_pending l = Some q -> pf_command q = KISS_CMD_DATA -> turns <> 0%nat ->
  next_data fuel turns now (l, out) = (Ok (Some (Some (mk_frame [] 0 []))), (l, out)).
Proof.
  intros Hq Hc Ht. destruct turns as [|turns]; [done|]. unfold next_data.
  rewrite (poll_loop_pending N fuel turns now _ l out l q) by (done || by apply ensure_pending_some with q). by rewrite Hc.
Qed.

(** The packet [raw], received at [t], waits to be fetched. *)
Record holds_packet l (raw : list Z) (t : Z) : Prop := {
  hp_idle : link_idle N (moved l (sl_io l) (sl_decoder l) None);
  hp_pending : exists q, sl_pending l = Some q /\ pending_ok N q /\ pf_command q = KISS_CMD_DATA /\
    pending_bytes q = raw /\ pf_received_at_ms q = t;
}.

Lemma next_data_arrives fuel turns now l out cmds evs raw rest :
  link_idle N l -> Forall2 (is_report N) cmds evs -> bytes_ok raw -> 1 + len raw <= N ->
  port_in (sl_io l) = stream cmds ++ kiss_encoding KISS_CMD_DATA raw ++ rest ->
  (length (port_in (sl_io l)) <= fuel)%nat -> (length cmds < turns)%nat ->
  exists l', next_data fuel turns now (l, out) = (Ok (Some (Some (mk_frame [] 0 []))), (l', out)) /\ holds_packet l' raw now /\
    sl_config l' = sl_config l /\ sl_state l' = fold_left apply_event evs (sl_state l) /\ port_at (sl_io l) (sl_io l') rest.
Proof.
  intros Hidle Hc Hb HN Hin Hfuel Hturns. replace turns with (length cmds + S (turns - length cmds - 1))%nat by lia. unfold next_data.
  destruct (poll_reports N fuel (S (turns - length cmds - 1)) now (mret (Some (mk_frame [] 0 []))) cmds evs _ l out Hc Hidle Hin Hfuel) as (l1 & [Hi1 Hcf Hst Hpt] & ->).
  pose proof (pa_in _ _ _ Hpt) as Hin1. set (f := mk_kiss_frame KISS_CMD_DATA raw). assert (frame_fits N f) as Hf by (by repeat split).
  destruct (ensure_frame N fuel now l1 f rest Hi1 Hf Hin1) as (dec & p & Ha & Hpa & Hen & Hok & Hidle' & Hpo & Hpb).
  { rewrite Hin1. rewrite Hin, length_app in Hfuel. lia. }
  exists (moved l1 p dec (Some (pending_of N now f))). split; [by erewrite poll_loop_pending by done|].
  split; [|split; [exact Hcf|split; [exact Hst|by eapply port_at_trans]]].
  split; [done|]. exists (pending_of N now f). by split_and!.
Qed.

(** What a poll makes of a packet and of the provider's answer, with [room] bytes
    for the envelope. *)
Definition raw_reply (answer : option RnsWrapParams) (packet : RnsPacketRef) (room : Z) : outcome RNodeSerialError (list Z) :=
  params ← ok_or answer RnsWrapParamsUnavailable;
  envelope ← map_err RnsFailure (wrap_rns_packet packet params);
  _ ← guard_err (room <? len (envelope_bytes envelope)) (HyfWireFailure (Wire.OutputBufferTooShort room (len (envelope_bytes envelope))));
  Ok (envelope_bytes envelope).

(** The provider answers with values of the types it promises. *)
Definition answers_well (answer : option RnsWrapParams) : Prop := forall params, answer = Some params -> wrap_params_ok params.

Definition raw_polled l packet t (reply : option RnsWrapParams * P) (out : list Z)
  : outcome RNodeSerialError (option LinkFrameRef) * (RNodeRawRnsSerialDriver Io P * list Z) :=
  match raw_reply (fst reply) packet (len out) with
  | Ok bytes => (Ok (Some (mk_frame (sc_link_id (sl_config l)) t bytes)),
                 (mk_raw_driver (moved l (sl_io l) (sl_decoder l) None) (snd reply), bytes ++ drop (length bytes) out))
  | Err e => (Err e, (mk_raw_driver l (snd reply), out))
  | Panic => (Panic, (mk_raw_driver l (snd reply), out))
  end.

Lemma wrap_rns_packet_inv packet params e :
  wrap_params_ok params -> bytes_ok (lp_raw packet) -> wrap_rns_packet packet params = Ok e -> envelope_ok e /\ validate_envelope e = Ok tt.
Proof.
  intros Hp Hb. unfold wrap_rns_packet. destruct (validate_rns_packet (lp_raw packet)); [|done..]. cbn [mbind outcome_bind].
  pose proof (wrapped_envelope_ok packet params Hp Hb) as He. destruct (validate_envelope (wrapped_envelope packet params)) as [[]|e'|] eqn:Hv; [|done..].
  by intros [= <-].
Qed.

Lemma raw_drain_run l prov out raw t packet :
  holds_packet l raw t -> validate_rns_packet raw = Ok packet -> answers_well (fst (wrap_params packet t prov)) ->
  drain_pending_raw_rns_frame_with_provider (mk_raw_driver l prov, out) = raw_polled l packet t (wrap_params packet t prov) out.
Proof.
  intros [_ (q & Hq & Hok & Hc & <- & <-)] Hv Hans. unfold drain_pending_raw_rns_frame_with_provider. rewrite get_bind. cbv beta iota. cbn [rd_link].
  rewrite Hq, Hc. cbn [Z.eqb KISS_CMD_DATA negb]. rewrite (pending_slice N q Hok), lift_bind_ok, Hv. unfold raw_polled, raw_reply.
  unfold ask_provider at 1. unfold mbind at 1, io_bind at 1. cbn [rd_provider rd_link].
  destruct (wrap_params packet (pf_received_at_ms q) prov) as [answer prov'] eqn:Hw. cbn [fst snd] in *.
  destruct answer as [params|]; [|done]. cbn [ok_or mbind outcome_bind]. rewrite lift_bind_ok.
  assert (lp_raw packet = pending_bytes q) as Hraw by (by apply validate_rns_packet_inv in Hv as (p & _ & ->)).
  assert (bytes_ok (lp_raw packet)) as Hb by (rewrite Hraw; by apply (pending_bytes_ok N)).
  pose proof (wrap_rns_packet_inv packet params) as Hinv. pose proof (Hans params eq_refl) as Hp.
  destruct (wrap_rns_packet packet params) as [e|err|]; [|done..]. cbn [map_err mbind outcome_bind]. rewrite lift_bind_ok.
  destruct (Hinv e Hp Hb eq_refl) as [He Hve]. pose proof (encode_envelope_valid e out He Hve) as Hen.
  unfold mbind at 1, io_bind at 1, at_link_out at 1, on_output, io_map_err. cbn [rd_link rd_provider]. rewrite Hen.
  destruct (len out <? len (envelope_bytes e)) eqn:Hl; [done|]. cbn [map_err guard_err mbind outcome_bind].
  unfold io_bind at 1, at_link_out at 1, on_link, set_pending. cbn [rd_link rd_provider]. unfold at_link_out, frame_of_output. cbn [rd_link rd_provider].
  unfold mbind, io_bind, get, lift. cbv beta iota. cbn [rd_link rd_provider]. by rewrite slice_app_first.
Qed.

(** A poll when a packet is waiting. *)
Lemma raw_poll_holding fuel turns now l prov out raw t packet :
  holds_packet l raw t -> validate_rns_packet raw = Ok packet -> answers_well (fst (wrap_params packet t prov)) -> turns <> 0%nat ->
  must_return (raw_poll_loop N fuel turns now) (mk_raw_driver l prov, out) = raw_polled l packet t (wrap_params packet t prov) out.
Proof.
  intros Hh Hv Ha Ht. pose proof Hh as [_ (q & Hq & _ & Hc & _)].
  pose proof (raw_poll_next fuel turns now l prov out _ _ (next_data_pending fuel turns now l out q Hq Hc Ht)) as Hpoll.
  unfold must_return. unfold mbind at 1, io_bind at 1. rewrite Hpoll. unfold mbind, io_bind. rewrite (raw_drain_run l prov out raw t packet Hh Hv Ha).
  unfold raw_polled. by destruct (raw_reply _ _ _).
Qed.

Lemma raw_poll_arrives fuel turns now l prov out cmds evs raw rest packet :
  link_idle N l -> Forall2 (is_report N) cmds evs -> bytes_ok raw -> 1 + len raw <= N ->
  port_in (sl_io l) = stream cmds ++ kiss_encoding KISS_CMD_DATA raw ++ rest ->
  (length (port_in (sl_io l)) <= fuel)%nat -> (length cmds < turns)%nat ->
  validate_rns_packet raw = Ok packet -> answers_well (fst (wrap_params packet now prov)) ->
  exists l', holds_packet l' raw now /\ sl_config l' = sl_config l /\ sl_state l' = fold_left apply_event evs (sl_state l) /\ port_at (sl_io l) (sl_io l') rest /\
    must_return (raw_poll_loop N fuel turns now) (mk_raw_driver l prov, out) = raw_polled l' packet now (wrap_params packet now prov) out.
Proof.
  intros Hidle Hc Hb HN Hin Hfuel Ht Hv Ha. destruct (next_data_arrives fuel turns now l out cmds evs raw rest) as (l' & Hn & Hh & Hcf & Hst & Hpt); [done..|].
  exists l'. split_and!; [done..|].
  pose proof Hh as [_ (q & Hq & _ & Hc' & _)]. pose proof (next_data_pending fuel turns now l' out q Hq Hc' ltac:(lia)) as Hn'.
  rewrite <- (raw_poll_holding fuel turns now l' prov out raw now packet Hh Hv Ha) by lia.
  unfold must_return, mbind, io_bind. by rewrite (raw_poll_next fuel turns now l prov out _ l' Hn), (raw_poll_next fuel turns now l' prov out _ l' Hn').
Qed.
End lemmas.

(** ** Claims *)
Section claims.
Context {Io Jo P Q : Type} `{SerialPort Io} `{SerialPort Jo} `{RnsWrapParamsProvider P} `{RnsWrapParamsProvider Q}.

(** What an envelope in the reply to a poll holds. *)
Lemma raw_reply_unwraps raw packet answer room bytes :
  bytes_ok raw -> validate_rns_packet raw = Ok packet -> answers_well answer -> raw_reply answer packet room = Ok bytes ->
  exists params e, answer = Some params /\ decode_envelope bytes = Ok e /\ e = wrapped_envelope packet params /\ unwrap_rns_packet e = Ok raw.
Proof.
  intros Hb Hv Ha. unfold raw_reply. destruct answer as [params|]; [|done]. cbn [ok_or mbind outcome_bind].
  assert (lp_raw packet = raw) as Hraw by (by apply validate_rns_packet_inv in Hv as (q & _ & ->)).
  pose proof (Ha params eq_refl) as Hp. destruct (wrap_rns_packet packet params) as [e|err|] eqn:Hw; [|done..]. cbn [map_err mbind outcome_bind].
  destruct (wrap_rns_packet_inv packet params e Hp) as [He Hve]; [by rewrite Hraw|done|].
  destruct (guard_err _ _) as [[]|err|]; [|done..]. cbn [mbind outcome_bind]. intros [= <-]. exists params, e.
  split; [done|]. split; [by apply decode_envelope_bytes|].
  unfold wrap_rns_packet in Hw. rewrite Hraw, Hv in Hw. cbn [mbind outcome_bind] in Hw.
  assert (e = wrapped_envelope packet params) as -> by (by destruct (map_err _ _) as [[]|err|]; simplify_eq/=).
  split; [done|]. unfold unwrap_rns_packet. rewrite Hve. cbn [map_err mbind outcome_bind]. change (payload _) with (lp_raw packet). rewrite Hraw, Hv.
  cbn [mbind outcome_bind]. by rewrite Hraw.
Qed.

(** C29. Reticulum packets between two modems.  An envelope that carries a packet,
    given to a raw driver that may transmit it, goes out as the packet alone, and
    the provider is not asked.  A raw driver at the other end that finds it in its
    port, behind any reports of its modem, asks its provider once.  If the answer
    wraps the packet in an envelope that fits, the poll returns this envelope, of
    which the packet is the payload.  If not - there is no answer, or one that is not
    valid, or no room - the poll fails for this reason, and nothing is lost: whenever
    it is polled again, whatever the provider is by then, the packet that came at
    the first time is what it is asked for, and what is returned if it answers. *)
Theorem raw_driver_roundtrip N M fuel turns (a : RNodeRawRnsSerialDriver Io P) bytes e raw now :
  let send := send_bytes (LinkDriver:=raw_serial_driver N fuel turns) in
  bytes_ok bytes -> decode_envelope bytes = Ok e -> unwrap_rns_packet e = Ok raw -> sc_data_mode (sl_config (rd_link a)) = RawRnsPacket ->
  port_ok (sl_io (rd_link a)) -> len (kiss_encoding KISS_CMD_DATA raw) <= port_room (sl_io (rd_link a)) ->
  len raw <= driver_mtu (LinkDriver:=raw_serial_driver N fuel turns) a -> driver_is_up (LinkDriver:=raw_serial_driver N fuel turns) a = true ->
  exists a' packet, send bytes now a = (Ok tt, a') /\ validate_rns_packet raw = Ok packet /\ rd_provider a' = rd_provider a /\
    port_out (sl_io (rd_link a')) = port_out (sl_io (rd_link a)) ++ kiss_encoding KISS_CMD_DATA raw /\
    forall wait looks (b : RNodeRawRnsSerialDriver Jo Q) out cmds evs rest later,
      let poll wait looks := poll_frame (LinkDriver:=raw_serial_driver M (P:=Q) wait looks) in
      let l := rd_link b in
      link_idle M l -> Forall2 (is_report M) cmds evs -> 1 + len raw <= M -> port_in (sl_io l) = stream cmds ++ kiss_encoding KISS_CMD_DATA raw ++ rest ->
      (length (port_in (sl_io l)) <= wait)%nat -> (length cmds < looks)%nat -> (forall q : Q, answers_well (fst (wrap_params packet later q))) ->
      exists b', rd_provider b' = snd (wrap_params packet later (rd_provider b)) /\ port_in (sl_io (rd_link b')) = rest /\
        sl_state (rd_link b') = fold_left apply_event evs (sl_state l) /\
        match raw_reply (fst (wrap_params packet later (rd_provider b))) packet (len out) with
        | Ok envelope =>
            poll wait looks later (b, out) = (Ok (Some (mk_frame (sc_link_id (sl_config l)) later envelope)), (b', envelope ++ drop (length envelope) out)) /\
            link_idle M (rd_link b') /\ (exists e', decode_envelope envelope = Ok e' /\ unwrap_rns_packet e' = Ok raw)
        | Err error =>
            poll wait looks later (b, out) = (Err error, (b', out)) /\
            forall wait' looks' q out' later', looks' <> 0%nat ->
              match raw_reply (fst (wrap_params packet later q)) packet (len out') with
              | Ok envelope => exists b'', poll wait' looks' later' (mk_raw_driver (rd_link b') q, out') =
                  (Ok (Some (mk_frame (sc_link_id (sl_config l)) later envelope)), (b'', envelope ++ drop (length envelope) out')) /\ link_idle M (rd_link b'')
              | reply => fst (poll wait' looks' later' (mk_raw_driver (rd_link b') q, out')) = (_ ← reply; Ok None)
              end
        | Panic => False
        end.
Proof.
  intros send Hb He Hu Hm Hpo Hroom Hmtu Hup. destruct a as [l prov]. cbn [rd_link rd_provider driver_mtu driver_is_up raw_serial_driver serial_link_driver] in *.
  assert (payload_for_send (sl_config l) bytes = Ok raw) as Hpay by (unfold payload_for_send; rewrite Hm, He; cbn [map_err mbind outcome_bind]; by rewrite Hu).
  assert (bytes_ok raw /\ exists packet, validate_rns_packet raw = Ok packet) as [Hbr [packet Hv]].
  { rewrite rns_unwrap_is_carrier in Hu. apply carrier_unwrap_inv in Hu as (-> & _ & _ & packet & Hv & _). destruct (decode_envelope_inv bytes e Hb He) as ([] & _). split; [done|by exists packet]. }
  destruct (send_written bytes now l raw Hpay Hpo Hmtu Hup Hroom) as (p & [_ _ Hpout _] & Hsend).
  exists (mk_raw_driver (mk_link (sl_config l) p (mark_tx_started (sl_state l)) (sl_decoder l) (sl_pending l)) prov), packet.
  split; [unfold send; cbn [send_bytes raw_serial_driver serial_link_driver]; unfold at_link; cbn [rd_link]; by rewrite Hsend|]. split; [done|]. split; [done|]. split; [done|].
  intros wait looks [lb q0] out cmds evs rest later Hidle Hc HM Hin Hw Hl Ha. cbn [rd_link rd_provider] in *.
  destruct (raw_poll_arrives M wait looks later lb q0 out cmds evs raw rest packet Hidle Hc Hbr HM Hin Hw Hl Hv (Ha q0)) as (l1 & Hh & Hcf & Hst & Hpt & Hpoll).
  pose proof (pa_in _ _ _ Hpt) as Hrest.
  unfold raw_polled in Hpoll. rewrite Hcf in Hpoll. pose proof (hp_idle _ _ _ _ Hh) as Hidle1.
  destruct (raw_reply (fst (wrap_params packet later q0)) packet (len out)) as [envelope|error|] eqn:Hreply.
  - eexists. split; [|split; [|split; [|split; [exact Hpoll|]]]]; [done|exact Hrest|exact Hst|]. split; [done|].
    destruct (raw_reply_unwraps raw packet _ _ _ Hbr Hv (Ha q0) Hreply) as (params & e' & _ & He' & _ & Hun). by exists e'.
  - eexists. split; [|split; [|split; [|split; [exact Hpoll|]]]]; [done|exact Hrest|exact Hst|].
    intros wait' looks' q out' later' Hl'. pose proof (raw_poll_holding M wait' looks' later' l1 q out' raw later packet Hh Hv (Ha q) Hl') as Hagain.
    unfold raw_polled in Hagain. rewrite Hcf in Hagain. cbn [rd_link].
    destruct (raw_reply (fst (wrap_params packet later q)) packet (len out')) as [envelope|error'|]; [|exact (f_equal fst Hagain)..]. eexists. split; [exact Hagain|done].
  - unfold raw_reply in Hreply. destruct (fst (wrap_params packet later q0)) as [params|] eqn:Hans; [|done]. cbn [ok_or mbind outcome_bind] in Hreply.
    destruct (lawful_carries _ _ _ rns_carrier_laws) as [Hsafe _ _ _ _]. specialize (Hsafe (lp_raw packet) params). rewrite <- (rns_wrap_is_carrier packet params) in Hsafe.
    assert (lp_raw packet = raw) as Hraw by (by apply validate_rns_packet_inv in Hv as (q & _ & ->)). rewrite Hraw in Hsafe.
    specialize (Hsafe Hbr (Ha q0 params Hans)). destruct (wrap_rns_packet packet params) as [e'|err|]; cbn [map_err mbind outcome_bind] in Hreply.
    + unfold guard_err in Hreply. by destruct (_ <? _).
    + discriminate.
    + by destruct Hsafe.
Qed.
End claims.

(** ** Witness *)
(** A provider that has nothing for the first packet it is asked about, and then
    the same parameters for all: its state says whether it was asked before. *)
#[export] Instance second_time_provider : RnsWrapParamsProvider bool := fun _ _ asked => ((if asked then Some sample_wrap_params else None), true).

Definition sample_ref : RnsPacketRef := mk_link_packet sample_raw (rp_destination_hash sample_packet).
Definition raw_link (input : list Z) : RNodeSerialLink FakeSerial :=
  mk_link (RNodeSerialConfig_new (replicate 16 9) 100 RawRnsPacket) (sl_io (sample_link false input)) (RNodeState_new false) (KissDecoder_new 128) None.
Definition raw_driver (input : list Z) : RNodeRawRnsSerialDriver FakeSerial bool := mk_raw_driver (raw_link input) false.
Definition raw_sent : list Z := kiss_encoding KISS_CMD_DATA sample_raw.
Definition raw_received : RNodeRawRnsSerialDriver FakeSerial bool := raw_driver (raw_sent ++ [192; 5]).

Lemma raw_link_idle input : bytes_ok input -> len input <= 256 -> link_idle 128 (raw_link input).
Proof. intros Hb Hl. destruct (sample_link_idle false input Hb Hl) as [[] _ _]. by split. Qed.

(** The first poll fails; the second has the packet that came at time 9. *)
Lemma raw_driver_roundtrip_witness :
  let poll := poll_frame (LinkDriver:=raw_serial_driver 128 300 5) in
  exists b b', poll 9 (raw_received, zeros 300) = (Err RnsWrapParamsUnavailable, (b, zeros 300)) /\
    fst (poll 12 (b, zeros 300)) = Ok (Some (mk_frame (replicate 16 9) 9 b')) /\ decode_envelope b' = Ok sample_wrapped.
Proof.
  destruct (raw_driver_roundtrip (Jo:=FakeSerial) (Q:=bool) 128 128 300 5 (raw_driver []) (envelope_bytes sample_wrapped) sample_wrapped sample_raw 3)
    as (a' & packet & _ & Hv & _ & _ & Hrecv).
  - apply (bool_decide_unpack _); vm_compute; exact I.
  - vm_compute; reflexivity.
  - vm_compute; reflexivity.
  - reflexivity.
  - apply (raw_link_idle []); [apply bytes_ok_nil | discriminate].
  - vm_compute; discriminate.
  - vm_compute; discriminate.
  - reflexivity.
  - assert (packet = sample_ref) as -> by (assert (validate_rns_packet sample_raw = Ok sample_ref) as Hp by (vm_compute; reflexivity); congruence).
    destruct (Hrecv 300%nat 5%nat raw_received (zeros 300) [] [] [192; 5] 9) as (b & Hp & _ & _ & Hpoll & Hagain).
    + apply raw_link_idle; [apply (bool_decide_unpack _); vm_compute; exact I | vm_compute; discriminate].
    + constructor.
    + vm_compute; discriminate.
    + vm_compute; reflexivity.
    + apply (bool_decide_unpack _); vm_compute; exact I.
    + simpl. lia.
    + intros [] params; [intros [= <-]; exact sample_wrap_params_ok|discriminate].
    + specialize (Hagain 300%nat 5%nat true (zeros 300) 12 ltac:(discriminate)). exists b, (envelope_bytes sample_wrapped).
      split; [exact Hpoll|]. split; [|vm_compute; reflexivity].
      assert (raw_reply (fst (wrap_params sample_ref 9 true)) sample_ref (len (zeros 300)) = Ok (envelope_bytes sample_wrapped)) as Hr by (vm_compute; reflexivity).
      assert (mk_raw_driver (rd_link b) true = b) as Hb by (destruct b; cbn in *; by rewrite Hp).
      rewrite Hb, Hr in Hagain. destruct Hagain as (b'' & Hagain & _). exact (f_equal fst Hagain).
Defined.
