(* ===== verification/Config.v ===== *)
(** [hyf_config]: the gateway's configuration and its validation
    (src/crates/hyf_config/src/config.rs, error.rs).

    The validation is proved to accept exactly the configurations the gateway's
    theorems rely on: non-zero capacities, distinct enabled links that fit the
    router's table, and few enough of them for a fan-out to fit the router's
    command slice. *)
From S2P Require Import Prelude Core Link Store Router.

Inductive ConfigError :=
| InvalidNodeId
| InvalidRouterLinkCapacity
| InvalidRouterDedupeCapacity
| InvalidStoreCapacity
| InvalidLocalCommunity
| DuplicateLocalCommunity (community_id : list Z)
| InvalidLinkMtu (link_id : list Z)
| DuplicateLinkId (link_id : list Z)
| LinkCountExceedsRouter (links maximum : Z)
| LinkCountExceedsRouterCommandCapacity (links maximum : Z).

Record RouterConfig := mk_router_config { rc_max_links : Z; rc_max_seen_messages : Z }.
Record StoreConfig := mk_store_config { stc_capacity : Z; stc_policy : StorePolicy }.
Record LinkConfig := mk_link_config { lc_link_id : list Z; lc_mtu : Z; lc_enabled : bool }.
Record GatewayPolicyConfig := mk_policy_config {
  pc_allow_store_and_forward : bool;
  pc_local_communities : list (option (list Z));   (* ROUTER_LOCAL_COMMUNITY_CAPACITY slots *)
}.
Record GatewayConfig := mk_gateway_config {
  cfg_node_id : list Z;
  cfg_router : RouterConfig;
  cfg_store : StoreConfig;
  cfg_links : list (option LinkConfig);            (* [LinkConfigSet<MAX_LINKS>] *)
  cfg_policy : GatewayPolicyConfig;
}.

Definition LinkConfig_new (link_id : list Z) (mtu : Z) : LinkConfig := mk_link_config link_id mtu true.
Definition LinkConfig_disabled (link_id : list Z) (mtu : Z) : LinkConfig := mk_link_config link_id mtu false.
Definition GatewayPolicyConfig_with_local_communities (communities : list (option (list Z))) : GatewayPolicyConfig :=
  mk_policy_config true communities.
Definition GatewayPolicyConfig_new : GatewayPolicyConfig :=
  mk_policy_config true (replicate (Z.to_nat ROUTER_LOCAL_COMMUNITY_CAPACITY) None).

(** ** Validation *)
Definition validate_node_id (node_id : list Z) : outcome ConfigError unit :=
  if bool_decide (node_id = zeros 32) then Err InvalidNodeId else Ok tt.

Definition validate_router_config (c : RouterConfig) : outcome ConfigError unit :=
  if rc_max_links c =? 0 then Err InvalidRouterLinkCapacity
  else if rc_max_seen_messages c =? 0 then Err InvalidRouterDedupeCapacity
  else Ok tt.

Definition validate_store_config (c : StoreConfig) : outcome ConfigError unit :=
  if stc_capacity c =? 0 then Err InvalidStoreCapacity else Ok tt.

Definition validate_link_config (c : LinkConfig) : outcome ConfigError unit :=
  if lc_enabled c && (lc_mtu c =? 0) then Err (InvalidLinkMtu (lc_link_id c)) else Ok tt.

Definition link_enabled (link : option LinkConfig) : bool :=
  match link with Some c => lc_enabled c | None => false end.
Definition enabled_count (links : list (option LinkConfig)) : Z := len (List.filter link_enabled links).

(** [others] are the links after the one that is checked. *)
Definition has_duplicate_enabled_link (others : list (option LinkConfig)) (link_id : list Z) : bool :=
  existsb (fun other => match other with
    | Some c => lc_enabled c && bool_decide (lc_link_id c = link_id) | None => false end) others.

Fixpoint validate_links (links : list (option LinkConfig)) : outcome ConfigError unit :=
  match links with
  | [] => Ok tt
  | None :: links' => validate_links links'
  | Some c :: links' =>
      _ ← validate_link_config c;
      if lc_enabled c && has_duplicate_enabled_link links' (lc_link_id c) then Err (DuplicateLinkId (lc_link_id c))
      else validate_links links'
  end.

Fixpoint validate_communities (communities : list (option (list Z))) : outcome ConfigError unit :=
  match communities with
  | [] => Ok tt
  | None :: communities' => validate_communities communities'
  | Some id :: communities' =>
      if bool_decide (id = zeros 16) then Err InvalidLocalCommunity
      else if existsb (fun other => match other with
        | Some other_id => bool_decide (other_id = id) | None => false end) communities'
      then Err (DuplicateLocalCommunity id)
      else validate_communities communities'
  end.
Definition validate_policy (c : GatewayPolicyConfig) : outcome ConfigError unit :=
  validate_communities (pc_local_communities c).

Definition validate_gateway_config (c : GatewayConfig) : outcome ConfigError unit :=
  _ ← validate_node_id (cfg_node_id c);
  _ ← validate_router_config (cfg_router c);
  _ ← validate_store_config (cfg_store c);
  _ ← validate_policy (cfg_policy c);
  _ ← validate_links (cfg_links c);
  let enabled_links := enabled_count (cfg_links c) in
  if enabled_links >? rc_max_links (cfg_router c)
  then Err (LinkCountExceedsRouter enabled_links (rc_max_links (cfg_router c)))
  else
    let fanout_link_max := ROUTER_COMMAND_CAPACITY - 2 in
    if enabled_links >? fanout_link_max
    then Err (LinkCountExceedsRouterCommandCapacity enabled_links fanout_link_max)
    else Ok tt.

Definition router_policy (c : GatewayConfig) : RouterPolicy :=
  mk_router_policy (cfg_node_id c) (pc_local_communities (cfg_policy c)).
Definition store_policy (c : GatewayConfig) : StorePolicy := stc_policy (cfg_store c).

(** ** What validation accepts *)
Definition enabled_links (links : list (option LinkConfig)) : list LinkConfig :=
  List.filter lc_enabled (occupied links).

Record config_ok (c : GatewayConfig) : Prop := {
  co_node : cfg_node_id c <> zeros 32;
  co_max_links : rc_max_links (cfg_router c) <> 0;
  co_max_seen : rc_max_seen_messages (cfg_router c) <> 0;
  co_capacity : stc_capacity (cfg_store c) <> 0;
  co_communities : NoDup (occupied (pc_local_communities (cfg_policy c)));
  co_no_zero_community : zeros 16 ∉ occupied (pc_local_communities (cfg_policy c));
  co_links : NoDup (lc_link_id <$> enabled_links (cfg_links c));
  co_mtu : Forall (fun l => lc_mtu l <> 0) (enabled_links (cfg_links c));
  co_count : len (enabled_links (cfg_links c)) <= rc_max_links (cfg_router c);
  co_fan_out : len (enabled_links (cfg_links c)) <= ROUTER_COMMAND_CAPACITY - 2;
}.

Lemma enabled_count_len links : enabled_count links = len (enabled_links links).
Proof.
  unfold enabled_count, enabled_links, len. f_equal.
  induction links as [|[c|] links IH]; [done| |exact IH]. rewrite occupied_some. simpl.
  destruct (lc_enabled c); simpl; by rewrite IH.
Qed.

Lemma existsb_occupied {A} (f : A -> bool) (l : list (option A)) :
  existsb (fun o => match o with Some x => f x | None => false end) l = existsb f (occupied l).
Proof. induction l as [|[x|] l IH]; [done| |exact IH]. rewrite occupied_some. simpl. by rewrite IH. Qed.

Lemma existsb_false {A} (f : A -> bool) (l : list A) : existsb f l = false <-> Forall (fun x => f x = false) l.
Proof.
  induction l as [|x l IH]; [done|]. simpl. rewrite orb_false_iff, IH, list.Forall_cons. done.
Qed.

Lemma validate_communities_ok l :
  validate_communities l = Ok tt <-> NoDup (occupied l) /\ zeros 16 ∉ occupied l.
Proof.
  induction l as [|[id|] l IH]; [|rewrite occupied_some; cbn [validate_communities]|exact IH].
  - split; [|done]. split; [constructor | apply not_elem_of_nil].
  - rewrite list.NoDup_cons, not_elem_of_cons, existsb_occupied.
    destruct (bool_decide_reflect (id = zeros 16)) as [->|Hz]; [by split; [|intros [_ [? _]]]|].
    destruct (existsb _ (occupied l)) eqn:He.
    + split; [done|]. intros [[Hn _] _]. apply existsb_exists in He as (x & Hx & Heq).
      apply bool_decide_eq_true in Heq as ->. exfalso. apply Hn. by apply list_elem_of_In.
    + rewrite IH. apply existsb_false in He. assert (id ∉ occupied l).
      { intros Hin. eapply list.Forall_forall in He; [|exact Hin]. by apply bool_decide_eq_false in He. }
      naive_solver.
Qed.

Lemma has_duplicate_spec links id :
  has_duplicate_enabled_link links id = false <-> id ∉ lc_link_id <$> enabled_links links.
Proof.
  unfold has_duplicate_enabled_link, enabled_links.
  rewrite (existsb_occupied (fun c => lc_enabled c && bool_decide (lc_link_id c = id))), existsb_false, list.Forall_forall.
  rewrite list_elem_of_fmap. split.
  - intros H (c & -> & Hc). apply list_elem_of_In, filter_In in Hc as [Hc He].
    apply list_elem_of_In in Hc. specialize (H c Hc). rewrite He, bool_decide_true in H by done. done.
  - intros H c Hc. destruct (lc_enabled c) eqn:He; [|done]. simpl. apply bool_decide_eq_false. intros <-.
    apply H. exists c. split; [done|]. apply list_elem_of_In, filter_In. split; [by apply list_elem_of_In | done].
Qed.

Lemma validate_links_ok links :
  validate_links links = Ok tt <->
  NoDup (lc_link_id <$> enabled_links links) /\ Forall (fun l => lc_mtu l <> 0) (enabled_links links).
Proof.
  induction links as [|[c|] links IH]; [by split; [split; constructor|]| |exact IH].
  unfold enabled_links in *. rewrite occupied_some. cbn [validate_links List.filter].
  unfold validate_link_config. destruct (lc_enabled c) eqn:He; cbn [andb]; [|exact IH].
  rewrite fmap_cons, list.NoDup_cons, list.Forall_cons.
  destruct (Z.eqb_spec (lc_mtu c) 0) as [Hm|Hm]; [by split; [|intros [_ [? _]]]|]. cbn [mbind outcome_bind].
  pose proof (has_duplicate_spec links (lc_link_id c)) as Hd. unfold enabled_links in Hd.
  destruct (has_duplicate_enabled_link links (lc_link_id c)).
  - split; [done|]. intros [[Hn _] _]. by apply Hd in Hn.
  - rewrite IH. apply proj1 in Hd. naive_solver.
Qed.

(** Validation never panics. *)
Lemma validate_communities_safe l : validate_communities l <> Panic.
Proof. induction l as [|[id|] l IH]; [done| |exact IH]. simpl. by repeat case_match. Qed.
Lemma validate_links_safe l : validate_links l <> Panic.
Proof.
  induction l as [|[c|] l IH]; [done| |exact IH]. simpl. unfold validate_link_config.
  destruct (lc_enabled c && (lc_mtu c =? 0)); [done|]. simpl. by case_match.
Qed.

Lemma validate_then {E A} (m : outcome E unit) (k : outcome E A) x :
  (_ ← m; k) = Ok x <-> m = Ok tt /\ k = Ok x.
Proof. destruct m as [[]|e|]; simpl; naive_solver. Qed.

Lemma validate_safe {E A} (m : outcome E unit) (k : outcome E A) : m <> Panic -> k <> Panic -> (_ ← m; k) <> Panic.
Proof. by destruct m. Qed.

Lemma validate_gateway_config_ok c : validate_gateway_config c = Ok tt <-> config_ok c.
Proof.
  unfold validate_gateway_config, validate_node_id, validate_router_config, validate_store_config, validate_policy.
  rewrite !validate_then, validate_communities_ok, validate_links_ok, enabled_count_len, !Z.gtb_ltb. split.
  - intros (H1 & H2 & H3 & [H4 H5] & [H6 H7] & H8).
    repeat match goal with H : (if ?b then _ else _) = Ok tt |- _ => destruct b eqn:?; [done|] end.
    split; try done; rewrite ?bool_decide_eq_false, ?Z.eqb_neq, ?Z.ltb_ge in *; done.
  - intros []. rewrite bool_decide_false by done.
    rewrite (proj2 (Z.eqb_neq (rc_max_links _) 0)), (proj2 (Z.eqb_neq (rc_max_seen_messages _) 0)),
      (proj2 (Z.eqb_neq (stc_capacity _) 0)) by done.
    rewrite !(proj2 (Z.ltb_ge _ _)) by done. by split_and!.
Qed.

(** Configuration: validation never panics and accepts exactly the
    configurations with a non-zero node id, non-zero capacities, distinct
    non-zero local communities, and enabled links with distinct ids and non-zero
    MTUs whose number fits both the router's link table and a fan-out in the
    router's command slice. *)
Theorem config_validate_exact c :
  validate_gateway_config c <> Panic /\ (validate_gateway_config c = Ok tt <-> config_ok c).
Proof.
  split; [|apply validate_gateway_config_ok].
  unfold validate_gateway_config, validate_node_id, validate_router_config, validate_store_config, validate_policy.
  repeat apply validate_safe; try (by repeat case_match).
  - apply validate_communities_safe.
  - apply validate_links_safe.
Qed.
