(* ===== verification/Gateway.v ===== *)
(** [hyf_gateway]: a router, a store and counters over any link executor, and
    the runtime over a loopback driver
    (src/crates/hyf_gateway/src/core.rs, runtime.rs, metrics.rs, error.rs).

    The state of an operation is the gateway and the executor.  Router commands
    are executed one by one and their errors collected; the store is flushed
    frame by frame until nothing can be sent.  The executor is the class
    [GatewayLinkExecutor]: the theorems hold for every executor that does not
    panic, and observe it by recording what it accepts. *)
From stdpp Require Import gmap strings.
From S2P Require Import Prelude Cursor Core Wire Link Ring Store Router Loopback Config.

Definition GATEWAY_FRAME_BUFFER_LEN : Z := 2048.

Inductive GatewayError :=
| ConfigFailure (error : ConfigError)
| RouterFailure (error : RouterError)
| StoreFailure (error : StoreError)
| WireFailure (error : HyfWireError)
| LoopbackFailure (error : LoopbackError)
| UnsupportedLink (link_id : list Z)
| Driver (link_id : list Z) (kind : LinkDriverErrorKind)
| RuntimeCapacity (name : string) (configured maximum : Z).

(** [GatewayError::is_recoverable_send_failure] *)
Definition recoverable_send (e : GatewayError) : bool :=
  match e with
  | Driver _ kind => is_recoverable_send_failure kind
  | LoopbackFailure error => is_recoverable_send_failure (loopback_error_kind error)
  | _ => false
  end.

Record GatewayMetrics := mk_metrics {
  submitted : Z; received : Z; sent : Z; stored : Z; delivered : Z;
  dropped : Z; expired : Z; link_errors : Z; bytes_sent : Z;
}.
Definition metrics_default : GatewayMetrics := mk_metrics 0 0 0 0 0 0 0 0 0.

(** [self.metrics.x = self.metrics.x.saturating_add(n)] *)
Definition add_submitted (n : Z) (m : GatewayMetrics) : GatewayMetrics :=
  mk_metrics (saturating_add (submitted m) n) (received m) (sent m) (stored m) (delivered m) (dropped m) (expired m) (link_errors m) (bytes_sent m).
Definition add_received (n : Z) (m : GatewayMetrics) : GatewayMetrics :=
  mk_metrics (submitted m) (saturating_add (received m) n) (sent m) (stored m) (delivered m) (dropped m) (expired m) (link_errors m) (bytes_sent m).
Definition add_sent (n bytes : Z) (m : GatewayMetrics) : GatewayMetrics :=
  mk_metrics (submitted m) (received m) (saturating_add (sent m) n) (stored m) (delivered m) (dropped m) (expired m) (link_errors m) (saturating_add (bytes_sent m) bytes).
Definition add_stored (n : Z) (m : GatewayMetrics) : GatewayMetrics :=
  mk_metrics (submitted m) (received m) (sent m) (saturating_add (stored m) n) (delivered m) (dropped m) (expired m) (link_errors m) (bytes_sent m).
Definition add_delivered (n : Z) (m : GatewayMetrics) : GatewayMetrics :=
  mk_metrics (submitted m) (received m) (sent m) (stored m) (saturating_add (delivered m) n) (dropped m) (expired m) (link_errors m) (bytes_sent m).
Definition add_dropped (n : Z) (m : GatewayMetrics) : GatewayMetrics :=
  mk_metrics (submitted m) (received m) (sent m) (stored m) (delivered m) (saturating_add (dropped m) n) (expired m) (link_errors m) (bytes_sent m).
Definition add_expired (n : Z) (m : GatewayMetrics) : GatewayMetrics :=
  mk_metrics (submitted m) (received m) (sent m) (stored m) (delivered m) (dropped m) (saturating_add (expired m) n) (link_errors m) (bytes_sent m).
Definition add_link_errors (n : Z) (m : GatewayMetrics) : GatewayMetrics :=
  mk_metrics (submitted m) (received m) (sent m) (stored m) (delivered m) (dropped m) (expired m) (saturating_add (link_errors m) n) (bytes_sent m).

(** [trait GatewayLinkExecutor]: the link, the bytes and the time. *)
Class GatewayLinkExecutor (X : Type) :=
  executor_send : list Z -> list Z -> Z -> io X GatewayError unit.

Record GatewayCore := mk_gateway {
  gc_config : GatewayConfig;
  gc_router : Router;
  gc_store : Store.Store;
  gc_metrics : GatewayMetrics;
  gc_last_now_ms : Z;
  gc_last_delivered_message_id : option (list Z);
  gc_last_delivered_payload_len : Z;
}.

Record CommandExecution := mk_execution {
  ce_successes : Z;
  ce_planned_sends : Z;
  ce_successful_sends : Z;
  ce_first_error : option GatewayError;
  ce_first_nonrecoverable_error : option GatewayError;
}.
Definition execution_default : CommandExecution := mk_execution 0 0 0 None None.

Definition validate_runtime_capacity (name : string) (configured maximum : Z) : outcome GatewayError unit :=
  if configured >? maximum then Err (RuntimeCapacity name configured maximum) else Ok tt.

Definition dummy_command : RouterCommand := Drop (zeros 32) Router.Duplicate.
Definition dummy_commands : list RouterCommand := replicate (Z.to_nat ROUTER_COMMAND_CAPACITY) dummy_command.

(** [&commands[..count]] *)
Definition commands_prefix {E} (commands : list RouterCommand) (count : Z) : outcome E (list RouterCommand) :=
  if (0 <=? count) && (count <=? len commands) then Ok (take (Z.to_nat count) commands) else Panic.

Definition is_send (command : RouterCommand) : bool := match command with Router.Send _ _ => true | _ => false end.

Section gateway.
(** The const generics and the executor. *)
Context (MAX_LINKS MAX_SEEN STORE_CAPACITY : Z) {X : Type} `{EX : GatewayLinkExecutor X}.
Abbreviation op A := (io (GatewayCore * X) GatewayError A).

Definition GatewayCore_new (config : GatewayConfig) : outcome GatewayError GatewayCore :=
  _ ← map_err ConfigFailure (validate_gateway_config config);
  _ ← validate_runtime_capacity "router links" (rc_max_links (cfg_router config)) MAX_LINKS;
  _ ← validate_runtime_capacity "router dedupe" (rc_max_seen_messages (cfg_router config)) MAX_SEEN;
  _ ← validate_runtime_capacity "store" (stc_capacity (cfg_store config)) STORE_CAPACITY;
  Ok (mk_gateway config (Router_new MAX_LINKS MAX_SEEN (router_policy config))
    (Store_new STORE_CAPACITY (store_policy config)) metrics_default 0 None 0).

(** Field assignments, and methods of the parts. *)
Definition modify (f : GatewayCore -> GatewayCore) : op unit := fun '(c, x) => (Ok tt, (f c, x)).
Definition set_metrics (f : GatewayMetrics -> GatewayMetrics) (c : GatewayCore) : GatewayCore :=
  mk_gateway (gc_config c) (gc_router c) (gc_store c) (f (gc_metrics c)) (gc_last_now_ms c)
    (gc_last_delivered_message_id c) (gc_last_delivered_payload_len c).
Definition set_router (r : Router) (c : GatewayCore) : GatewayCore :=
  mk_gateway (gc_config c) r (gc_store c) (gc_metrics c) (gc_last_now_ms c)
    (gc_last_delivered_message_id c) (gc_last_delivered_payload_len c).
Definition set_store (s : Store.Store) (c : GatewayCore) : GatewayCore :=
  mk_gateway (gc_config c) (gc_router c) s (gc_metrics c) (gc_last_now_ms c)
    (gc_last_delivered_message_id c) (gc_last_delivered_payload_len c).
Definition set_now (now_ms : Z) (c : GatewayCore) : GatewayCore :=
  mk_gateway (gc_config c) (gc_router c) (gc_store c) (gc_metrics c) now_ms
    (gc_last_delivered_message_id c) (gc_last_delivered_payload_len c).
Definition set_last_delivered (e : HyfEnvelopeRef) (c : GatewayCore) : GatewayCore :=
  mk_gateway (gc_config c) (gc_router c) (gc_store c) (gc_metrics c) (gc_last_now_ms c)
    (Some (message_id e)) (len (payload e)).

Definition on_store {A} (m : io Store.Store StoreError A) : op A := fun '(c, x) =>
  let '(r, s) := m (gc_store c) in (map_err StoreFailure r, (set_store s c, x)).
Definition on_executor {A} (m : io X GatewayError A) : op A := fun '(c, x) =>
  let '(r, x') := m x in (r, (c, x')).
(** [self.router.commit_seen(envelope)], which returns nothing. *)
Definition router_commit_seen (e : HyfEnvelopeRef) : op unit := fun '(c, x) =>
  let '(r, router) := commit_seen (E:=GatewayError) MAX_SEEN e (gc_router c) in (r, (set_router router c, x)).
(** [self.store.expire_before(now)] and its counter. *)
Definition expire_store (now_ms : Z) : op unit := fun '(c, x) =>
  let '(n, s) := expire_before now_ms (gc_store c) in (Ok tt, (set_metrics (add_expired n) (set_store s c), x)).

(** ** Executing commands *)
Definition send_counted (link_id bytes : list Z) (now_ms : Z) : op unit := fun s =>
  match on_executor (executor_send link_id bytes now_ms) s with
  | (Err error, s') => (_ ← modify (set_metrics (add_link_errors 1)); lift (Err error)) s'
  | (Ok _, s') => modify (set_metrics (add_sent 1 (len bytes))) s'
  | (Panic, s') => (Panic, s')
  end.
Definition send_envelope (link_id : list Z) (e : HyfEnvelopeRef) : op unit :=
  let '(encoded, frame) := encode_envelope e (zeros GATEWAY_FRAME_BUFFER_LEN) in
  n ← lift (map_err WireFailure encoded);
  bytes ← lift (slice frame 0 n);
  send_counted link_id bytes (created_at_ms e).

Definition execute_command (command : RouterCommand) : op unit :=
  match command with
  | Router.Send link_id e => _ ← send_envelope link_id e; router_commit_seen e
  | Router.Store (Put e) =>
      '(c, _) ← get;
      if pc_allow_store_and_forward (cfg_policy (gc_config c)) then
        _ ← on_store (put_envelope GATEWAY_FRAME_BUFFER_LEN e);
        _ ← modify (set_metrics (add_stored 1));
        router_commit_seen e
      else modify (set_metrics (add_dropped 1))
  | Router.Store (Remove id) => on_store (remove id)
  | Router.Store (ExpireBefore now_ms) => expire_store now_ms
  | Drop _ _ | DropFrame _ _ => modify (set_metrics (add_dropped 1))
  | DeliverLocal e =>
      _ ← modify (set_last_delivered e);
      _ ← modify (set_metrics (add_delivered 1));
      router_commit_seen e
  end.

Definition record_success (send : bool) (r : CommandExecution) : CommandExecution :=
  mk_execution (ce_successes r + 1) (ce_planned_sends r)
    (if send then ce_successful_sends r + 1 else ce_successful_sends r) (ce_first_error r) (ce_first_nonrecoverable_error r).
Definition record_error (error : GatewayError) (r : CommandExecution) : CommandExecution :=
  mk_execution (ce_successes r) (ce_planned_sends r) (ce_successful_sends r)
    (match ce_first_error r with None => Some error | e => e end)
    (match ce_first_nonrecoverable_error r with
     | None => if negb (recoverable_send error) then Some error else None | e => e end).
Definition record_planned (send : bool) (r : CommandExecution) : CommandExecution :=
  if send then mk_execution (ce_successes r) (ce_planned_sends r + 1) (ce_successful_sends r) (ce_first_error r)
    (ce_first_nonrecoverable_error r) else r.

Fixpoint execute_commands_record (commands : list RouterCommand) (result : CommandExecution) : op CommandExecution :=
  match commands with
  | [] => mret result
  | command :: commands' => fun s =>
      let result := record_planned (is_send command) result in
      match execute_command command s with
      | (Ok _, s') => execute_commands_record commands' (record_success (is_send command) result) s'
      | (Err error, s') => execute_commands_record commands' (record_error error result) s'
      | (Panic, s') => (Panic, s')
      end
  end.

Definition execute_commands (commands : list RouterCommand) : op unit :=
  result ← execute_commands_record commands execution_default;
  if (ce_successes result >? 0) || (len commands =? 0) then mret tt
  else match ce_first_error result with
  | Some error => lift (Err error)
  | None => mret tt
  end.

Definition execute_commands_for_flush (commands : list RouterCommand) : op bool :=
  result ← execute_commands_record commands execution_default;
  match ce_first_nonrecoverable_error result with
  | Some error => lift (Err error)
  | None =>
      if ce_planned_sends result >? 0 then mret (ce_successful_sends result =? ce_planned_sends result)
      else if (ce_successes result >? 0) || (len commands =? 0) then mret true
      else match ce_first_error result with
      | Some error => if recoverable_send error then mret false else lift (Err error)
      | None => mret true
      end
  end.

(** The router's answer to an event. *)
Definition router_commands (event : RouterEvent) : op (list RouterCommand) := fun '(c, x) =>
  let '(r, (router, commands)) := handle_event MAX_LINKS event (gc_router c, dummy_commands) in
  (count ← map_err RouterFailure r; commands_prefix commands count, (set_router router c, x)).
Definition route_event (event : RouterEvent) : op unit :=
  commands ← router_commands event;
  execute_commands commands.

(** ** Flushing the store *)
(** One turn: [false] when the loop ends. *)
Definition flush_turn : op bool :=
  '(c, _) ← get;
  match first_pending (gc_store c) with
  | Panic => lift Panic
  | Err _ | Ok None => mret false
  | Ok (Some stored) =>
      let n := len (sf_bytes stored) in
      frame ← lift (write_at (zeros GATEWAY_FRAME_BUFFER_LEN) 0 (sf_bytes stored));
      bytes ← lift (slice frame 0 n);
      envelope ← lift (map_err WireFailure (decode_envelope bytes));
      let '(r, commands) := forward_stored (gc_router c) envelope dummy_commands in
      count ← lift (map_err RouterFailure r);
      if count =? 0 then mret false
      else
        commands ← lift (commands_prefix commands count);
        ok ← execute_commands_for_flush commands;
        if negb ok then mret false
        else
          _ ← on_store (remove (sf_message_id stored));
          mret true
  end.

(** Out of fuel the loop would not have ended: that is a [Panic], which the
    theorems exclude. *)
Fixpoint flush_loop (fuel : nat) : op unit :=
  match fuel with
  | O => lift Panic
  | S fuel' => continue ← flush_turn; if (continue : bool) then flush_loop fuel' else mret tt
  end.

(** Each turn but the last removes a frame, so one turn more than slots is
    enough. *)
Definition flush_store : op unit :=
  '(c, _) ← get;
  _ ← expire_store (gc_last_now_ms c);
  flush_loop (S (length (records (gc_store c)))).

(** ** Operations *)
Definition observe_time (now_ms : Z) : op unit :=
  '(c, _) ← get;
  if now_ms <=? gc_last_now_ms c then mret tt
  else
    _ ← modify (set_now now_ms);
    route_event (Tick now_ms).

Definition submit (e : HyfEnvelopeRef) : op unit :=
  _ ← modify (set_metrics (add_submitted 1));
  _ ← route_event (LocalSubmit e);
  flush_store.

Definition ingest_link_frame (frame : LinkFrameRef) : op unit :=
  _ ← modify (set_metrics (add_received 1));
  _ ← observe_time (lf_received_at_ms frame);
  _ ← route_event (LinkEv (Frame frame));
  flush_store.

Definition tick (now_ms : Z) : op unit :=
  _ ← observe_time now_ms;
  flush_store.

Definition handle_link_event (event : LinkEvent) : op unit :=
  let flush_after_recovery := match event with Up _ => true | _ => false end in
  _ ← route_event (LinkEv event);
  if flush_after_recovery then flush_store else mret tt.
End gateway.

(** ** The loopback runtime
    ([src/crates/hyf_gateway/src/runtime.rs]): a gateway whose executor is a
    loopback driver; the runtime is the pair of the two. *)
Definition map_loopback_error (error : LoopbackError) : GatewayError :=
  match error with
  | LinkMismatch _ actual => UnsupportedLink actual
  | error => LoopbackFailure error
  end.

#[export] Instance loopback_executor : GatewayLinkExecutor LoopbackDriver := fun link_id bytes now_ms =>
  io_map_err map_loopback_error (Loopback.send_link_bytes link_id bytes now_ms).

Fixpoint validate_supported_links (links : list LinkConfig) : outcome GatewayError unit :=
  match links with
  | [] => Ok tt
  | link :: links' =>
      if lc_enabled link && negb (bool_decide (lc_link_id link = LOOPBACK_LEFT_ID))
         && negb (bool_decide (lc_link_id link = LOOPBACK_RIGHT_ID))
      then Err (UnsupportedLink (lc_link_id link))
      else validate_supported_links links'
  end.

Fixpoint first_link_mtu (links : list LinkConfig) : Z :=
  match links with
  | [] => LOOPBACK_MAX_FRAME_LEN
  | link :: links' => if lc_enabled link then lc_mtu link else first_link_mtu links'
  end.

Section runtime.
(** The const generics. *)
Context (MAX_LINKS MAX_SEEN STORE_CAPACITY LOOPBACK_QUEUE : Z).
Abbreviation runtime := (GatewayCore * LoopbackDriver)%type.

Definition runtime_set_link_up (link_id : list Z) (up : bool) : io runtime GatewayError unit :=
  event ← on_executor (io_map_err map_loopback_error (Loopback.set_link_up link_id up));
  handle_link_event MAX_LINKS MAX_SEEN event.

Fixpoint activate_links (links : list LinkConfig) : io runtime GatewayError unit :=
  match links with
  | [] => mret tt
  | link :: links' =>
      _ ← (if lc_enabled link then runtime_set_link_up (lc_link_id link) true else mret tt);
      activate_links links'
  end.

Definition GatewayRuntime_new (config : GatewayConfig) : outcome GatewayError runtime :=
  let links := occupied (cfg_links config) in
  _ ← validate_supported_links links;
  let mtu := first_link_mtu links in
  core ← GatewayCore_new MAX_LINKS MAX_SEEN STORE_CAPACITY config;
  let '(r, runtime) := activate_links links (core, driver_new LOOPBACK_QUEUE Left mtu) in
  _ ← r; Ok runtime.

(** With the output buffer. *)
Definition receive_loopback_frame (link_id : list Z) : io (runtime * list Z) GatewayError (option LinkFrameRef) :=
  fun '((core, driver), output) =>
    let '(r, (driver', output')) := Loopback.receive_link_frame link_id (driver, output) in
    (map_err map_loopback_error r, ((core, driver'), output')).
Definition on_runtime {A} (m : io runtime GatewayError A) : io (runtime * list Z) GatewayError A := fun '(rt, output) =>
  let '(r, rt') := m rt in (r, (rt', output)).
Definition poll_loopback (link_id : list Z) : io (runtime * list Z) GatewayError bool :=
  frame ← receive_loopback_frame link_id;
  match frame with
  | None => mret false
  | Some frame => _ ← on_runtime (ingest_link_frame MAX_LINKS MAX_SEEN frame); mret true
  end.
End runtime.

(** ** Invariant *)
Record gateway_ok (MAX_LINKS MAX_SEEN STORE_CAPACITY : Z) (c : GatewayCore) : Prop := {
  gk_links : 0 <= MAX_LINKS;
  gk_seen : 0 <= MAX_SEEN;
  gk_config : config_ok (gc_config c);
  gk_router : router_ok MAX_LINKS MAX_SEEN (gc_router c);
  gk_store : store_ok STORE_CAPACITY GATEWAY_FRAME_BUFFER_LEN (gc_store c);
  gk_policy : rt_policy (gc_router c) = router_policy (gc_config c);
  gk_now : rt_now_ms (gc_router c) = gc_last_now_ms c;
}.

(** What is relied on of an executor: it does not panic, and what it has
    accepted ([accepted x p]: the bytes [p.2] on the link [p.1]) stays so. *)
Class ExecutorLaws (X : Type) `{GatewayLinkExecutor X} (accepted : X -> list Z * list Z -> Prop) : Prop := {
  executor_safe : forall link_id bytes now x, (executor_send link_id bytes now x).1 <> Panic;
  executor_keeps : forall link_id bytes now x p,
    accepted x p -> accepted (executor_send link_id bytes now x).2 p;
  executor_accepts : forall link_id bytes now x,
    (executor_send link_id bytes now x).1 = Ok tt -> accepted (executor_send link_id bytes now x).2 (link_id, bytes);
}.

(** What the router commands at time [now_ms]: envelopes in the ranges of their
    types, no removals, no expiry of what has not expired. *)
Definition command_ok (now_ms : Z) (cmd : RouterCommand) : Prop :=
  match cmd with
  | Router.Send _ e | Router.Store (Put e) => envelope_ok e
  | Router.Store (Remove _) => False
  | Router.Store (ExpireBefore t) => t <= now_ms
  | _ => True
  end.

Lemma command_ok_later now now' cmd : now <= now' -> command_ok now cmd -> command_ok now' cmd.
Proof. intros Hn. destruct cmd as [|[]| | |]; try done. simpl. lia. Qed.

(** Commands that leave the store alone. *)
Definition is_store (cmd : RouterCommand) : bool := match cmd with Router.Store _ => true | _ => false end.

(** The gateway's own destinations. *)
Definition local_to (config : GatewayConfig) (d : HyfDestination) : Prop :=
  match d with
  | Node n => n = cfg_node_id config
  | Community id => is_local_community (router_policy config) id = true
  | Foreign _ => False
  end.

(** ** Lemmas: what the router commands *)
Lemma next_hop_ok e ingress : envelope_ok e -> 1 <= hop_limit e \/ ingress = None -> envelope_ok (next_hop e ingress).
Proof.
  intros [] Hh. destruct ingress; [|by split]. unfold next_hop, with_hop_limit. split; simpl; try done.
  unfold u8_ok in *. destruct Hh as [Hh|Hh]; [lia | done].
Qed.

Lemma route_commands_ok now r e ingress cmds :
  envelope_ok e -> route r e ingress = Ok cmds -> Forall (command_ok now) cmds.
Proof.
  intros He Hr. unfold route in Hr. pose proof (eo_hop_limit e He) as Hh. unfold u8_ok in Hh.
  assert (forall links f, Forall (command_ok now) ((fun l => Router.Send l f) <$> links) <-> envelope_ok f \/ links = []) as Hsends.
  { intros links f. rewrite Forall_fmap. split.
    - destruct links as [|l links]; [by right|]. intros Hf. inversion Hf. by left.
    - intros [Hf| ->]; [|constructor]. apply Forall_true. intros l. exact Hf. }
  destruct (validate_envelope e) as [[]|err|]; [|destruct err; simplify_eq; repeat constructor|done].
  destruct (expires_at_ms e <=? rt_now_ms r); [simplify_eq; repeat constructor|].
  destruct (has_seen r (seen_key_for e)); [simplify_eq; repeat constructor|].
  assert (Ok (if is_local_destination r (destination e) then [DeliverLocal e]
    else if hop_limit e <=? (if is_forwarded ingress then 1 else 0) then [Drop (message_id e) HopLimitExhausted]
    else match up_links r ingress with
      | link_id :: _ => [Router.Send link_id (next_hop e ingress)]
      | [] => [Router.Store (Put (next_hop e ingress))] end) = @Ok RouterError _ cmds -> Forall (command_ok now) cmds) as Huni.
  { intros Hq. injection Hq as <-. destruct (is_local_destination r _); [repeat constructor|].
    destruct (Z.leb_spec (hop_limit e) (if is_forwarded ingress then 1 else 0)); [repeat constructor|].
    assert (envelope_ok (next_hop e ingress)) by (apply next_hop_ok; [done|]; destruct ingress; simpl in *; [left; lia | by right]).
    destruct (up_links r ingress); by apply list.Forall_singleton. }
  destruct (destination e) as [n|c|f]; [ | clear Huni | ].
  - apply Huni. rewrite <- Hr. destruct (is_local_destination r (Node n)); [done|]. destruct (_ <=? _); [done|].
    by destruct (up_links r ingress).
  - destruct (is_forwarded ingress && (hop_limit e <=? 1)) eqn:Hx; [simplify_eq; repeat constructor|].
    assert (Forall (command_ok now) (fan_out r e c ingress)) as Hf.
    { unfold fan_out. apply Forall_app. split; [destruct (is_local_community _ _); repeat constructor|].
      apply Hsends. left. apply next_hop_ok; [done|]. destruct ingress; [left|by right]. simpl in Hx.
      apply Z.leb_gt in Hx. lia. }
    destruct (fan_out r e c ingress); simplify_eq; [|done]. apply list.Forall_singleton. by destruct (is_forwarded ingress).
  - apply Huni. rewrite <- Hr. destruct (is_local_destination r (Foreign f)); [done|]. destruct (_ <=? _); [done|].
    by destruct (up_links r ingress).
Qed.

Lemma event_commands_ok now r ev cmds :
  event_ok ev -> (forall t, ev = Tick t -> t <= now) -> event_decision r ev = Ok cmds -> Forall (command_ok now) cmds.
Proof.
  destruct ev as [[f|l|l]|e|t]; simpl; intros Hok Ht Hd; simplify_eq; try (by repeat constructor).
  - destruct (decode_envelope (lf_bytes f)) as [e|err|] eqn:He; simplify_eq; [|by repeat constructor].
    apply decode_envelope_inv in He as (He & _ & _); [|done]. by eapply route_commands_ok.
  - by eapply route_commands_ok.
  - apply list.Forall_singleton. simpl. by apply Ht.
Qed.

(** Forwarding a stored envelope: only sends of that envelope and local
    effects; without a send the envelope is done with. *)
Lemma route_stored_commands r e cmds :
  validate_envelope e = Ok tt -> route_stored r e = Ok cmds ->
  Forall (fun cmd => is_store cmd = false) cmds /\
  (forall l f, Router.Send l f ∈ cmds -> f = e) /\
  (cmds <> [] -> (exists l, Router.Send l e ∈ cmds) \/ expires_at_ms e <= rt_now_ms r \/ hop_limit e = 0 \/
     match destination e with
     | Node n => n = local_node_id (rt_policy r)
     | Community c => is_local_community (rt_policy r) c = true
     | Foreign _ => False end).
Proof.
  intros Hv Hr. unfold route_stored in Hr. rewrite Hv in Hr.
  assert (forall links, Forall (fun cmd => is_store cmd = false) ((fun l => Router.Send l e) <$> links) /\
    (forall l f, Router.Send l f ∈ (fun l => Router.Send l e) <$> links -> f = e)) as Hsends.
  { intros links. split; [by apply Forall_fmap, Forall_true|]. intros l f (x & [= -> ->] & _)%list_elem_of_fmap. done. }
  destruct (Z.leb_spec (expires_at_ms e) (rt_now_ms r)).
  { injection Hr as <-. split_and!; [by repeat constructor | by intros l f Hin; apply list_elem_of_singleton in Hin | auto]. }
  destruct (Z.eqb_spec (hop_limit e) 0).
  { injection Hr as <-. split_and!; [by repeat constructor | by intros l f Hin; apply list_elem_of_singleton in Hin | auto]. }
  assert (cmds = ((fun l => Router.Send l e) <$> take 1 (up_links r None)) ->
    Forall (fun cmd => is_store cmd = false) cmds /\ (forall l f, Router.Send l f ∈ cmds -> f = e) /\
    (cmds <> [] -> exists l, Router.Send l e ∈ cmds)) as Hone.
  { intros ->. destruct (Hsends (take 1 (up_links r None))) as [H1 H2]. split_and!; [done..|].
    destruct (up_links r None) as [|l ls]; [done|]. intros _. exists l. by left. }
  destruct (destination e) as [node|c|f]; [| |].
  - simpl in Hr. destruct (bool_decide_reflect (node = local_node_id (rt_policy r))) as [Heq|Hne].
    + injection Hr as <-. split_and!; [by destruct (has_seen _ _); repeat constructor | | auto].
      intros l f Hin. apply list_elem_of_singleton in Hin. by destruct (has_seen _ _).
    + injection Hr as Hr. destruct (Hone (eq_sym Hr)) as (? & ? & ?). split_and!; auto.
  - injection Hr as <-. destruct (Hsends (up_links r None)) as [H1 H2]. split_and!.
    + apply Forall_app. split; [destruct (_ && _); by repeat constructor | done].
    + intros l f [Hin|Hin]%elem_of_app; [|by eapply H2]. destruct (_ && _); [|by apply not_elem_of_nil in Hin].
      by apply list_elem_of_singleton in Hin.
    + intros Hne. destruct (up_links r None) as [|l ls].
      * rewrite app_nil_r in Hne. destruct (is_local_community (rt_policy r) c) eqn:Hl; [auto|done].
      * left. exists l. apply elem_of_app. right. by left.
  - simpl in Hr. injection Hr as Hr. destruct (Hone (eq_sym Hr)) as (? & ? & ?). split_and!; auto.
Qed.

(** With a link up, a stored envelope always has something to do. *)
Lemma route_stored_nonempty r e cmds :
  validate_envelope e = Ok tt -> up_links r None <> [] -> route_stored r e = Ok cmds -> cmds <> [].
Proof.
  intros Hv Hup Hr. unfold route_stored in Hr. rewrite Hv in Hr. destruct (up_links r None) as [|l ls]; [done|].
  destruct (_ <=? _); [by simplify_eq|]. destruct (_ =? 0); [by simplify_eq|].
  destruct (destination e); simpl in Hr; [destruct (bool_decide _)| |]; simplify_eq; try done.
  by destruct (_ && _).
Qed.

(** ** Lemmas: executing commands *)
Section executing.
Context {MAX_LINKS MAX_SEEN STORE_CAPACITY : Z} {X : Type} `{EX : GatewayLinkExecutor X} {accepts : X -> list Z * list Z -> Prop} `{EL : !ExecutorLaws X accepts}.
Abbreviation good := (gateway_ok MAX_LINKS MAX_SEEN STORE_CAPACITY).
Abbreviation st := (GatewayCore * X)%type.
Implicit Types (c : GatewayCore) (x : X) (s : st).

(** Why a stored frame may leave the store. *)
Definition gone (config : GatewayConfig) (now_ms : Z) (x : X) (f : StoredFrameRef) : Prop :=
  sf_expires_at_ms f <= now_ms \/ (exists link_id, accepts x (link_id, sf_bytes f)) \/
  exists e, envelope_ok e /\ sf_bytes f = envelope_bytes e /\ (hop_limit e = 0 \/ local_to config (destination e)).

(** [s'] is later than [s]: no stored frame is lost without a reason. *)
Record evolves (s s' : st) : Prop := {
  ev_ok : good s'.1;
  ev_config : gc_config s'.1 = gc_config s.1;
  ev_now : gc_last_now_ms s.1 <= gc_last_now_ms s'.1;
  ev_accepted : forall p, accepts s.2 p -> accepts s'.2 p;
  ev_store : forall id f, store_map (gc_store s.1) !! id = Some f ->
    store_map (gc_store s'.1) !! id = Some f \/ gone (gc_config s.1) (gc_last_now_ms s'.1) s'.2 f;
}.

(** Steps that leave the store, the links and the clock alone. *)
Record steady (s s' : st) : Prop := {
  sd_ok : good s'.1;
  sd_config : gc_config s'.1 = gc_config s.1;
  sd_store : gc_store s'.1 = gc_store s.1;
  sd_links : rt_links (gc_router s'.1) = rt_links (gc_router s.1);
  sd_now : gc_last_now_ms s'.1 = gc_last_now_ms s.1;
  sd_accepted : forall p, accepts s.2 p -> accepts s'.2 p;
}.

Lemma steady_refl s : good s.1 -> steady s s.
Proof. by split. Qed.
Lemma steady_trans s1 s2 s3 : steady s1 s2 -> steady s2 s3 -> steady s1 s3.
Proof. intros [] []. split; try done; [congruence.. | auto]. Qed.
Lemma steady_evolves s s' : steady s s' -> evolves s s'.
Proof. intros []. split; try done; [lia|]. intros id f Hf. left. congruence. Qed.

Lemma gone_later config now now' x x' f :
  now <= now' -> (forall p, accepts x p -> accepts x' p) -> gone config now x f -> gone config now' x' f.
Proof. intros Hn Hx [H|[[l H]|H]]; [left; lia | right; left; exists l; auto | by right; right]. Qed.

Lemma evolves_refl s : good s.1 -> evolves s s.
Proof. intros. by apply steady_evolves, steady_refl. Qed.
Lemma evolves_trans s1 s2 s3 : evolves s1 s2 -> evolves s2 s3 -> evolves s1 s3.
Proof.
  intros [_ Hc Hn Ha Hs] [Hok' Hc' Hn' Ha' Hs']. split; [done | congruence | lia | auto |].
  intros id f Hf. destruct (Hs id f Hf) as [Hf'|Hg].
  - destruct (Hs' id f Hf') as [?|Hg]; [by left|right]. by rewrite <- Hc.
  - right. by eapply gone_later.
Qed.

(** [m] ends, without panicking, in a later state. *)
Definition runs {A} (m : io st GatewayError A) : Prop :=
  forall s, good s.1 -> (m s).1 <> Panic /\ evolves s (m s).2.

Lemma runs_ret {A} (a : A) : runs (mret a).
Proof. intros s Hs. split; [done | by apply evolves_refl]. Qed.
Lemma runs_lift {A} (r : outcome GatewayError A) : r <> Panic -> runs (lift r).
Proof. intros Hr s Hs. split; [done | by apply evolves_refl]. Qed.
Lemma runs_bind {A B} (m : io st GatewayError A) (f : A -> io st GatewayError B) :
  runs m -> (forall a, runs (f a)) -> runs (m ≫= f).
Proof.
  intros Hm Hf s Hs. destruct (Hm s Hs) as [Hp Hev]. unfold mbind, io_bind.
  destruct (m s) as [[a|e|] s1]; simpl in *; [|done|done].
  destruct (Hf a s1 (ev_ok _ _ Hev)) as [? ?]. split; [done | by eapply evolves_trans].
Qed.

(** Changes of the counters and of what was last delivered. *)
Definition counters_only c c' : Prop :=
  gc_config c' = gc_config c /\ gc_router c' = gc_router c /\ gc_store c' = gc_store c /\ gc_last_now_ms c' = gc_last_now_ms c.

Lemma modify_steady f s :
  good s.1 -> counters_only s.1 (f s.1) -> (modify (X:=X) f s).1 = Ok tt /\ steady s (modify f s).2.
Proof.
  destruct s as [c x]. intros Hs (H1 & H2 & H3 & H4). simpl in *. split; [done|]. destruct Hs. split; simpl; try congruence; try done.
  split; congruence.
Qed.

(** Committing a message touches the seen window only. *)
Lemma router_commit_steady e s :
  good s.1 -> (router_commit_seen MAX_SEEN e s).1 = Ok tt /\ steady s (router_commit_seen MAX_SEEN e s).2.
Proof.
  destruct s as [c x]. simpl fst. intros Hs. unfold router_commit_seen. destruct Hs as [H1 H2 H3 [Hl Hid [win Hw]] H5 H6 H7].
  destruct (commit_seen_window (E:=GatewayError) MAX_SEEN (gc_router c) win e H2 Hw) as (r & Hc & Hw' & Hn & Hln & Hp).
  rewrite Hc. simpl. split; [done|]. split; simpl; try done. split; simpl; try done; try congruence.
  split; rewrite ?Hln; [done | done |]. by exists (spec_commit MAX_SEEN win (seen_key_for e)).
Qed.

Lemma bind_steady {A B} (m : io st GatewayError A) (f : A -> io st GatewayError B) s a :
  (m s).1 = Ok a -> steady s (m s).2 -> (forall s', steady s s' -> (f a s').1 <> Panic /\ steady s' (f a s').2) ->
  ((m ≫= f) s).1 <> Panic /\ steady s ((m ≫= f) s).2.
Proof.
  intros Hm Hst Hf. unfold mbind, io_bind. destruct (m s) as [r s1]. simpl in *. subst r.
  destruct (Hf s1 Hst). split; [done | by eapply steady_trans].
Qed.

Lemma send_counted_steady link_id bytes now s :
  good s.1 ->
  let '(r, s') := send_counted link_id bytes now s in
  r <> Panic /\ steady s s' /\ (r = Ok tt <-> (executor_send link_id bytes now s.2).1 = Ok tt) /\
  (r = Ok tt -> accepts s'.2 (link_id, bytes)).
Proof.
  destruct s as [c x]. intros Hs. unfold send_counted, on_executor.
  pose proof (executor_safe link_id bytes now x) as Hsafe. pose proof (executor_keeps link_id bytes now x) as Hkeep.
  pose proof (executor_accepts link_id bytes now x) as Hacc. simpl in *.
  destruct (executor_send link_id bytes now x) as [[[]|e|] x']; simpl in *; [| |done].
  all: split; [done|]; split; [|by split; auto]; split; simpl; try done; destruct Hs; by split.
Qed.

Lemma send_envelope_steady link_id e s :
  good s.1 -> envelope_ok e ->
  let '(r, s') := send_envelope link_id e s in
  r <> Panic /\ steady s s' /\ (r = Ok tt -> accepts s'.2 (link_id, envelope_bytes e)) /\
  (validate_envelope e = Ok tt -> len (envelope_bytes e) <= GATEWAY_FRAME_BUFFER_LEN ->
   (executor_send link_id (envelope_bytes e) (created_at_ms e) s.2).1 = Ok tt -> r = Ok tt).
Proof.
  intros Hs He. unfold send_envelope. destruct (validate_envelope e) as [[]|err|] eqn:Hv; [| |by destruct (validate_envelope_safe e)].
  - rewrite encode_envelope_valid by done. rewrite len_zeros by (unfold GATEWAY_FRAME_BUFFER_LEN; lia).
    destruct (Z.ltb_spec GATEWAY_FRAME_BUFFER_LEN (len (envelope_bytes e))) as [Hl|Hl].
    { split; [done|]. split; [by apply steady_refl|]. split; [done|]. intros. lia. }
    cbn [map_err]. rewrite lift_bind_ok. pose proof (len_nonneg (envelope_bytes e)).
    rewrite slice_prefix by (rewrite len_app; pose proof (len_nonneg (drop (length (envelope_bytes e)) (zeros GATEWAY_FRAME_BUFFER_LEN))); lia).
    rewrite take_len_app, lift_bind_ok.
    pose proof (send_counted_steady link_id (envelope_bytes e) (created_at_ms e) s Hs) as Hc.
    destruct (send_counted link_id (envelope_bytes e) (created_at_ms e) s) as [r s'].
    destruct Hc as (Hp & Hst & [_ Hr] & Ha). by split_and!.
  - rewrite (encode_envelope_invalid e _ err) by done. split; [done|]. split; [by apply steady_refl|]. done.
Qed.

(** Every command that is not for the store is steady, and a send that
    succeeds has been accepted. *)
Lemma execute_command_steady now cmd s :
  good s.1 -> command_ok now cmd -> is_store cmd = false ->
  let '(r, s') := execute_command MAX_SEEN cmd s in
  r <> Panic /\ steady s s' /\
  (r = Ok tt -> forall l e, cmd = Router.Send l e -> accepts s'.2 (l, envelope_bytes e)) /\
  match cmd with
  | Router.Send l e => validate_envelope e = Ok tt -> len (envelope_bytes e) <= GATEWAY_FRAME_BUFFER_LEN ->
      (executor_send l (envelope_bytes e) (created_at_ms e) s.2).1 = Ok tt -> r = Ok tt
  | _ => r = Ok tt
  end.
Proof.
  intros Hs Hok Hst. destruct cmd as [l e|sc|id reason|l reason|e]; [| done | | |]; cbn [execute_command].
  - pose proof (send_envelope_steady l e s Hs Hok) as Hsend. unfold mbind, io_bind.
    destruct (send_envelope l e s) as [[[]|err|] s1]; [| |by destruct Hsend].
    + destruct Hsend as (_ & Hs1 & Hacc & _). destruct (router_commit_steady e s1 (sd_ok _ _ Hs1)) as [Hr Hc].
      destruct (router_commit_seen MAX_SEEN e s1) as [r s2]. simpl in Hr, Hc. subst r.
      split; [done|]. split; [by eapply steady_trans|]. split; [|done].
      intros _ l' e' [= <- <-]. apply Hc. by apply Hacc.
    + destruct Hsend as (_ & Hs1 & _ & Hr). split; [done|]. split; [done|]. split; [done|]. intros Hv Hlen Hx. by specialize (Hr Hv Hlen Hx).
  - destruct (modify_steady (set_metrics (add_dropped 1)) s Hs) as [H1 H2]; [done|].
    destruct (modify _ s) as [r s']. simpl in *. subst. by split_and!.
  - destruct (modify_steady (set_metrics (add_dropped 1)) s Hs) as [H1 H2]; [done|].
    destruct (modify _ s) as [r s']. simpl in *. subst. by split_and!.
  - destruct s as [c x]. unfold mbind, io_bind. cbn [modify].
    set (c1 := set_metrics (add_delivered 1) (set_last_delivered e c)).
    assert (steady (c, x) (c1, x)) as H1 by (destruct Hs; split; [by split|done..]).
    destruct (router_commit_steady e (c1, x) (sd_ok _ _ H1)) as [Hr Hc].
    destruct (router_commit_seen MAX_SEEN e (c1, x)) as [r s2]. simpl in Hr, Hc. subst r.
    split; [done|]. split; [by eapply steady_trans|]. by split.
Qed.
End executing.

(** ** Lemmas: the store *)
Lemma run_op_bind {A} (m : io Store.Store StoreError A) s :
  ((_ ← m; mret 0) s).2 = (m s).2 /\ (((_ ← m; mret 0) s).1 = Panic <-> (m s).1 = Panic).
Proof. unfold mbind, io_bind. by destruct (m s) as [[a|e|] s']. Qed.

Section running.
Context {MAX_LINKS MAX_SEEN STORE_CAPACITY : Z} {X : Type} `{EX : GatewayLinkExecutor X} {accepts : X -> list Z * list Z -> Prop} `{EL : !ExecutorLaws X accepts}.
Abbreviation good := (gateway_ok MAX_LINKS MAX_SEEN STORE_CAPACITY).
Abbreviation evolves := (evolves (MAX_LINKS:=MAX_LINKS) (MAX_SEEN:=MAX_SEEN) (STORE_CAPACITY:=STORE_CAPACITY) (accepts:=accepts)).
Abbreviation steady := (steady (MAX_LINKS:=MAX_LINKS) (MAX_SEEN:=MAX_SEEN) (STORE_CAPACITY:=STORE_CAPACITY) (accepts:=accepts)).
Abbreviation runs := (runs (MAX_LINKS:=MAX_LINKS) (MAX_SEEN:=MAX_SEEN) (STORE_CAPACITY:=STORE_CAPACITY) (accepts:=accepts)).
Abbreviation st := (GatewayCore * X)%type.
Implicit Types (c : GatewayCore) (x : X) (s : st).

(** A new store in a good gateway. *)
Lemma set_store_evolves c x store :
  good c -> store_ok STORE_CAPACITY GATEWAY_FRAME_BUFFER_LEN store ->
  (forall id f, store_map (gc_store c) !! id = Some f ->
    store_map store !! id = Some f \/ gone (accepts:=accepts) (gc_config c) (gc_last_now_ms c) x f) ->
  evolves (c, x) (set_store store c, x).
Proof. intros [] Hst Hk. by split. Qed.

Lemma buffer_len : 0 <= GATEWAY_FRAME_BUFFER_LEN.
Proof. unfold GATEWAY_FRAME_BUFFER_LEN. lia. Qed.

Lemma put_envelope_runs e : envelope_ok e -> runs (on_store (put_envelope GATEWAY_FRAME_BUFFER_LEN e)).
Proof.
  intros He [c x] Hs. simpl in Hs. pose proof (put_envelope_refines (N:=STORE_CAPACITY) buffer_len _ e (gk_store _ _ _ _ Hs) He) as (Hok & _ & Hm).
  pose proof (spec_op_safe (N:=STORE_CAPACITY) (FRAME_MAX:=GATEWAY_FRAME_BUFFER_LEN) (policy (gc_store c)) (OpPutEnvelope e) (store_map (gc_store c)) He) as Hsafe.
  cbn [Store.run_op] in Hok, Hm. destruct (run_op_bind (put_envelope GATEWAY_FRAME_BUFFER_LEN e) (gc_store c)) as [H2 Hp].
  simpl in Hs. cbn [gc_store fst] in *. rewrite H2 in Hok, Hm. rewrite <- Hm in Hsafe.
  unfold on_store. destruct (put_envelope GATEWAY_FRAME_BUFFER_LEN e (gc_store c)) as [r store]. simpl in *.
  split. { apply map_err_safe. intros ->. by apply Hsafe, Hp. }
  apply set_store_evolves; [done..|]. intros id f Hf. left. apply (f_equal snd) in Hm. cbn [snd] in Hm. rewrite Hm.
  clear -Hf. cbn [spec_op]. unfold spec_insert.
  destruct (_ && _); [done|]. destruct (validate_envelope e); try done.
  all: destruct (_ <? _); [done|]; destruct (bool_decide_reflect (is_Some (store_map (gc_store c) !! message_id e))) as [|Hn]; [done|];
    destruct (_ <? _); [|done]; simpl; rewrite lookup_insert_ne; [done|]; intros <-; by apply Hn.
Qed.

Lemma expire_store_runs now s : good s.1 -> now <= gc_last_now_ms s.1 ->
  (expire_store now s).1 = Ok tt /\ evolves s (expire_store now s).2 /\
  rt_links (gc_router (expire_store now s).2.1) = rt_links (gc_router s.1) /\
  length (records (gc_store (expire_store now s).2.1)) = length (records (gc_store s.1)).
Proof.
  destruct s as [c x]. intros Hs Hnow. simpl in *. unfold expire_store.
  destruct (expire_before_refines (N:=STORE_CAPACITY) (gc_store c) now (gk_store _ _ _ _ Hs)) as (Hok & _ & Hm).
  cbn [Store.run_op] in Hok, Hm. destruct (expire_before now (gc_store c)) as [n store] eqn:He. cbn [fst snd] in *.
  split; [done|].
  assert (evolves (c, x) (set_store store c, x)) as Hev.
  { apply set_store_evolves; [done..|]. intros id f Hf. apply (f_equal snd) in Hm. cbn [snd spec_op] in Hm. rewrite Hm.
    rewrite map_lookup_filter_Some. simpl. destruct (Z.lt_ge_cases now (sf_expires_at_ms f)); [left; done|].
    right. left. lia. }
  split; [|split; [done|]].
  - destruct Hev as [Hg Hc Hn Ha Hst]. split; try done. destruct Hg. by split.
  - simpl. unfold expire_before in He. pose proof (expire_loop_spec now (records (gc_store c)) 0) as Hl.
    destruct (expire_loop now (records (gc_store c)) 0) as [l k]. simplify_eq/=. apply Hl.
Qed.

(** Any command of the router. *)
Lemma execute_command_runs cmd s :
  good s.1 -> command_ok (gc_last_now_ms s.1) cmd ->
  (execute_command MAX_SEEN cmd s).1 <> Panic /\ evolves s (execute_command MAX_SEEN cmd s).2.
Proof.
  intros Hs Hok. destruct (is_store cmd) eqn:Hst.
  2: { pose proof (execute_command_steady (accepts:=accepts) _ cmd s Hs Hok Hst) as He.
       destruct (execute_command MAX_SEEN cmd s). destruct He as (Hp & Hsd & _). split; [done | by apply steady_evolves]. }
  destruct cmd as [|[e|id|t]| | |]; try done; cbn [execute_command].
  - destruct s as [c x]. rewrite get_bind. cbv beta iota.
    destruct (pc_allow_store_and_forward (cfg_policy (gc_config c))).
    + apply runs_bind; [by apply put_envelope_runs | | done]. intros _. apply runs_bind.
      * intros s Hg. destruct (modify_steady (accepts:=accepts) (set_metrics (add_stored 1)) s Hg) as [-> Hsd]; [done|].
        split; [done | by apply steady_evolves].
      * intros _ s Hg. destruct (router_commit_steady (accepts:=accepts) e s Hg) as [-> Hsd]. split; [done | by apply steady_evolves].
    + destruct (modify_steady (accepts:=accepts) (set_metrics (add_dropped 1)) (c, x) Hs) as [-> Hsd]; [done|].
      split; [done | by apply steady_evolves].
  - destruct (expire_store_runs t s Hs Hok) as (-> & Hev & _). by split.
Qed.

Lemma record_runs cmds res s :
  good s.1 -> Forall (command_ok (gc_last_now_ms s.1)) cmds ->
  exists res', (execute_commands_record MAX_SEEN cmds res s).1 = Ok res' /\
    evolves s (execute_commands_record MAX_SEEN cmds res s).2.
Proof.
  revert res s. induction cmds as [|cmd cmds IH]; intros res s Hs Hok; cbn [execute_commands_record].
  - exists res. split; [done | by apply evolves_refl].
  - apply list.Forall_cons in Hok as [Hc Hok]. destruct (execute_command_runs cmd s Hs Hc) as [Hp Hev].
    assert (Forall (command_ok (gc_last_now_ms (execute_command MAX_SEEN cmd s).2.1)) cmds) as Hok'.
    { eapply list.Forall_impl; [exact Hok|]. intros cmd'. apply command_ok_later, Hev. }
    destruct (execute_command MAX_SEEN cmd s) as [[[]|e|] s1]; simpl in *; [| |done].
    all: match goal with |- exists _, (execute_commands_record _ _ ?r _).1 = _ /\ _ =>
      destruct (IH r s1 (ev_ok _ _ Hev) Hok') as (res' & Hr & Hev'); exists res' end;
      split; [done | by eapply evolves_trans].
Qed.

Lemma execute_commands_runs cmds s :
  good s.1 -> Forall (command_ok (gc_last_now_ms s.1)) cmds ->
  (execute_commands MAX_SEEN cmds s).1 <> Panic /\ evolves s (execute_commands MAX_SEEN cmds s).2.
Proof.
  intros Hs Hok. unfold execute_commands. destruct (record_runs cmds execution_default s Hs Hok) as (res & Hr & Hev).
  unfold mbind, io_bind. destruct (execute_commands_record MAX_SEEN cmds execution_default s) as [r s1]. simpl in *. subst r.
  destruct (_ || _); [done|]. by destruct (ce_first_error res).
Qed.

(** ** Lemmas: events *)
Lemma dummy_len : len dummy_commands = 16.
Proof. reflexivity. Qed.

Lemma written_commands cmds n out' :
  write_decision (Ok cmds) dummy_commands = (Ok n, out') -> commands_prefix (E:=GatewayError) out' n = Ok cmds.
Proof.
  cbn [write_decision]. unfold write_commands. destruct (Z.ltb_spec (len dummy_commands) (len cmds)) as [|Hl]; [done|].
  intros [= <- <-]. unfold commands_prefix. rewrite len_app. pose proof (len_nonneg cmds).
  pose proof (len_nonneg (drop (length cmds) dummy_commands)).
  destruct (Z.leb_spec 0 (len cmds)), (Z.leb_spec (len cmds) (len cmds + len (drop (length cmds) dummy_commands))); try lia.
  simpl andb. cbv iota. by rewrite take_len_app.
Qed.

Lemma spec_event_links_safe ev m : (spec_event_links MAX_LINKS ev m).1 <> Panic.
Proof. destruct ev as [[]| |]; simpl; try done; unfold spec_link; by repeat case_match. Qed.

(** The router's answer: an event other than a tick in a good state, or a tick
    after the gateway's own clock was set. *)
Definition timely (ev : RouterEvent) c0 c : Prop :=
  match ev with
  | Tick t => c = set_now t c0 /\ gc_last_now_ms c0 <= t
  | _ => c = c0
  end.

Lemma router_commands_spec ev c0 c x :
  event_ok ev -> good c0 -> timely ev c0 c ->
  let '(r, s') := router_commands MAX_LINKS ev (c, x) in
  r <> Panic /\ evolves (c0, x) s' /\ s'.2 = x /\ gc_store s'.1 = gc_store c0 /\
  (forall cmds, r = Ok cmds -> Forall (command_ok (gc_last_now_ms s'.1)) cmds /\ event_decision (gc_router c0) ev = Ok cmds) /\
  link_map (gc_router s'.1) = (spec_event_links MAX_LINKS ev (link_map (gc_router c0))).2 /\
  ((spec_event_links MAX_LINKS ev (link_map (gc_router c0))).1 = Ok tt -> event_decision (gc_router c0) ev = Ok [] -> r = Ok []).
Proof.
  intros Hev Hc Ht. pose proof Hc as [H1 H2 H3 H4 H5 H6 H7].
  assert (gc_router c = gc_router c0 /\ gc_store c = gc_store c0 /\ gc_config c = gc_config c0 /\
    gc_last_now_ms c0 <= gc_last_now_ms c /\ (forall t, ev = Tick t -> t = gc_last_now_ms c) /\
    gc_last_now_ms c = match ev with Tick t => t | _ => rt_now_ms (gc_router c0) end) as (Hr & Hst & Hcf & Hn & Htk & Hnow).
  { destruct ev; simpl in Ht; [subst; split_and!; try done; lia.. |]. destruct Ht as [-> ?]. split_and!; try done. by intros t [= ->]. }
  destruct (handle_event_spec MAX_LINKS MAX_SEEN (gc_router c0) ev dummy_commands H4 Hev) as (r' & Hr'ok & Hpol & Hseen & Hnext & Hrnow & Hrun).
  unfold router_commands. rewrite Hr. destruct (spec_event_links MAX_LINKS ev (link_map (gc_router c0))) as [o links] eqn:Hsp.
  destruct Hrun as (Hlm & Hsafe & Hrun).
  assert (evolves (c0, x) (set_router r' c, x)) as Hevo.
  { split; simpl; try done; [|intros id f Hf; left; congruence]. split; simpl; try done; congruence. }
  rewrite Hrun.
  assert (forall cmds, event_decision (gc_router c0) ev = Ok cmds -> Forall (command_ok (gc_last_now_ms c)) cmds) as Hcok.
  { intros cmds Hd. eapply event_commands_ok; [done | | done]. intros t Htt. rewrite (Htk t Htt). lia. }
  destruct o as [[]|err|].
  - destruct (event_decision (gc_router c0) ev) as [cmds|err|] eqn:Hd; [| |done].
    + destruct (write_decision (Ok cmds) dummy_commands) as [n out'] eqn:Hw.
      destruct n as [n|err|]; [| |].
      * cbn [map_err mbind outcome_bind]. rewrite (written_commands _ _ _ Hw).
        split_and!; try done; intros; simplify_eq; split; try done. by apply Hcok.
      * cbn [map_err mbind outcome_bind]. split_and!; try done. intros _ Hnil. injection Hnil as ->.
        by rewrite write_decision_nil in Hw.
      * exfalso. simpl in Hw. unfold write_commands in Hw. by destruct (_ <? _).
    + cbn. by split_and!.
  - cbn. by split_and!.
  - exfalso. apply (spec_event_links_safe ev (link_map (gc_router c0))). by rewrite Hsp.
Qed.
End running.

(** ** Lemmas: flushing *)
Section flushing.
Context {MAX_LINKS MAX_SEEN STORE_CAPACITY : Z} {X : Type} `{EX : GatewayLinkExecutor X} {accepts : X -> list Z * list Z -> Prop} `{EL : !ExecutorLaws X accepts}.
Abbreviation good := (gateway_ok MAX_LINKS MAX_SEEN STORE_CAPACITY).
Abbreviation evolves := (evolves (MAX_LINKS:=MAX_LINKS) (MAX_SEEN:=MAX_SEEN) (STORE_CAPACITY:=STORE_CAPACITY) (accepts:=accepts)).
Abbreviation steady := (steady (MAX_LINKS:=MAX_LINKS) (MAX_SEEN:=MAX_SEEN) (STORE_CAPACITY:=STORE_CAPACITY) (accepts:=accepts)).
Abbreviation st := (GatewayCore * X)%type.
Implicit Types (c : GatewayCore) (x : X) (s : st).

Definition sends (cmds : list RouterCommand) : Z := len (List.filter is_send cmds).

Lemma sends_cons cmd cmds : sends (cmd :: cmds) = (if is_send cmd then 1 else 0) + sends cmds.
Proof. unfold sends. simpl. destruct (is_send cmd); [by rewrite len_cons | lia]. Qed.

Lemma sends_elem cmds l e : Router.Send l e ∈ cmds -> 0 < sends cmds.
Proof.
  intros Hin. apply list_elem_of_In in Hin. unfold sends.
  assert (In (Router.Send l e) (List.filter is_send cmds)) as Hf by (by apply filter_In).
  destruct (List.filter is_send cmds); [done|]. rewrite len_cons. pose proof (len_nonneg l0). lia.
Qed.

(** An executor that accepts everything. *)
Definition accepting : Prop := forall l bytes now x, (executor_send (X:=X) l bytes now x).1 = Ok tt.
Definition fits (cmd : RouterCommand) : Prop :=
  match cmd with
  | Router.Send _ e => validate_envelope e = Ok tt /\ len (envelope_bytes e) <= GATEWAY_FRAME_BUFFER_LEN
  | _ => True
  end.

(** Executing commands that are not for the store: how many sends were planned
    and succeeded. *)
Lemma record_steady now cmds res s :
  good s.1 -> Forall (command_ok now) cmds -> Forall (fun cmd => is_store cmd = false) cmds ->
  exists res' s', execute_commands_record MAX_SEEN cmds res s = (Ok res', s') /\ steady s s' /\
    ce_planned_sends res' = ce_planned_sends res + sends cmds /\
    ce_successful_sends res' <= ce_successful_sends res + sends cmds /\
    (ce_successful_sends res' = ce_successful_sends res + sends cmds ->
     forall l e, Router.Send l e ∈ cmds -> accepts s'.2 (l, envelope_bytes e)) /\
    (accepting -> Forall fits cmds ->
     ce_successful_sends res' = ce_successful_sends res + sends cmds /\
     ce_successes res' = ce_successes res + len cmds /\
     ce_first_nonrecoverable_error res' = ce_first_nonrecoverable_error res).
Proof.
  revert res s. induction cmds as [|cmd cmds IH]; intros res s Hs Hok Hst; cbn [execute_commands_record].
  { exists res, s. rewrite (@len_nil RouterCommand). unfold sends. simpl. rewrite (@len_nil RouterCommand).
    split_and!; [done | by apply steady_refl | lia | lia | by intros _ l e ?%not_elem_of_nil | intros; split_and!; [lia | lia | done]]. }
  apply list.Forall_cons in Hok as [Hc Hok]. apply list.Forall_cons in Hst as [Hcs Hst].
  pose proof (execute_command_steady (accepts:=accepts) now cmd s Hs Hc Hcs) as Hx.
  destruct (execute_command MAX_SEEN cmd s) as [o s1]. destruct Hx as (Hp & Hsd & Hacc & Hlive).
  assert (accepting -> fits cmd -> o = Ok tt) as Hall.
  { intros Ha Hf. destruct cmd as [l e|sc|?|?|?]; try done. destruct Hf. by apply Hlive. }
  clear Hlive. rewrite sends_cons, len_cons. pose proof (len_nonneg (List.filter is_send cmds)) as Hsn. fold (sends cmds) in Hsn.
  destruct o as [[]|err|]; [| |done].
  - destruct (IH (record_success (is_send cmd) (record_planned (is_send cmd) res)) s1 (sd_ok _ _ Hsd) Hok Hst)
      as (res' & s' & Hr & Hsd' & Hpl & Hle & Heq & Ha).
    exists res', s'. split; [done|]. split; [by eapply steady_trans|].
    assert (ce_planned_sends res' = ce_planned_sends res + ((if is_send cmd then 1 else 0) + sends cmds) /\
      ce_successful_sends (record_success (is_send cmd) (record_planned (is_send cmd) res)) =
        ce_successful_sends res + (if is_send cmd then 1 else 0) /\
      ce_successes (record_success (is_send cmd) (record_planned (is_send cmd) res)) = ce_successes res + 1 /\
      ce_first_nonrecoverable_error (record_success (is_send cmd) (record_planned (is_send cmd) res)) =
        ce_first_nonrecoverable_error res) as (H1 & H2 & H3 & H4).
    { destruct (is_send cmd); simpl in *; split_and!; try done; lia. }
    rewrite H2 in *. rewrite H3, H4 in Ha. split_and!; [done | lia | |].
    + intros Hq l e [<-|Hin]%elem_of_cons; [|apply Heq; [lia | done]].
      apply Hsd'. by apply (Hacc eq_refl l e).
    + intros Hacc' [_ Hf]%list.Forall_cons. destruct (Ha Hacc' Hf) as (? & ? & ?). split_and!; [lia | lia | done].
  - destruct (IH (record_error err (record_planned (is_send cmd) res)) s1 (sd_ok _ _ Hsd) Hok Hst)
      as (res' & s' & Hr & Hsd' & Hpl & Hle & Heq & Ha).
    exists res', s'. split; [done|]. split; [by eapply steady_trans|].
    assert (ce_planned_sends res' = ce_planned_sends res + ((if is_send cmd then 1 else 0) + sends cmds) /\
      ce_successful_sends res' <= ce_successful_sends res + sends cmds) as (H1 & H2).
    { destruct (is_send cmd); simpl in *; split; lia. }
    split_and!; [done | destruct (is_send cmd); lia | |].
    + intros Hq l e [<-|Hin]%elem_of_cons; [simpl in *; lia|]. apply Heq; [|done].
      destruct (is_send cmd); simpl in *; lia.
    + intros Hacc' [Hf _]%list.Forall_cons. by specialize (Hall Hacc' Hf).
Qed.

Lemma execute_for_flush_steady now cmds s :
  good s.1 -> Forall (command_ok now) cmds -> Forall (fun cmd => is_store cmd = false) cmds ->
  exists r s', execute_commands_for_flush MAX_SEEN cmds s = (r, s') /\ r <> Panic /\ steady s s' /\
    (r = Ok true -> forall l e, Router.Send l e ∈ cmds -> accepts s'.2 (l, envelope_bytes e)) /\
    (accepting -> Forall fits cmds -> r = Ok true).
Proof.
  intros Hs Hok Hst.
  destruct (record_steady now cmds execution_default s Hs Hok Hst) as (res & s' & Hr & Hsd & Hpl & Hle & Heq & Ha).
  unfold execute_commands_for_flush. unfold mbind, io_bind. rewrite Hr. simpl in Hpl, Hle, Heq, Ha.
  destruct (ce_first_nonrecoverable_error res) as [err|].
  { eexists _, s'. split_and!; try done. intros Hacc Hf. by destruct (Ha Hacc Hf) as (_ & _ & ?). }
  destruct (Z.gtb_spec (ce_planned_sends res) 0) as [Hpos|Hzero].
  { eexists _, s'. split_and!; try done.
    - intros [= Hq]. apply Z.eqb_eq in Hq. intros l e. apply Heq. lia.
    - intros Hacc Hf. destruct (Ha Hacc Hf) as (? & _ & _). do 2 f_equal. apply Z.eqb_eq. lia. }
  assert (forall l e, Router.Send l e ∈ cmds -> False) as Hno by (intros l e Hin; apply sends_elem in Hin; lia).
  destruct ((ce_successes res >? 0) || (len cmds =? 0)) eqn:Hsucc.
  { eexists _, s'. split_and!; try done. intros _ l e Hin. by destruct (Hno l e Hin). }
  assert (accepting -> Forall fits cmds -> False) as Hcontra.
  { intros Hacc Hf. destruct (Ha Hacc Hf) as (_ & Hs' & _). apply orb_false_iff in Hsucc as [Hs1 Hs2].
    rewrite Z.gtb_ltb in Hs1. apply Z.ltb_ge in Hs1. apply Z.eqb_neq in Hs2. pose proof (len_nonneg cmds). lia. }
  destruct (ce_first_error res) as [err|]; [destruct (recoverable_send err)|].
  all: eexists _, s'; split_and!; try done; intros; try (by exfalso; eauto).
Qed.

(** Removing a frame for which there is a reason. *)
Lemma remove_evolves f s :
  good s.1 -> store_map (gc_store s.1) !! sf_message_id f = Some f ->
  gone (accepts:=accepts) (gc_config s.1) (gc_last_now_ms s.1) s.2 f ->
  exists s', on_store (remove (sf_message_id f)) s = (Ok tt, s') /\ evolves s s' /\
    rt_links (gc_router s'.1) = rt_links (gc_router s.1) /\
    Store_len (gc_store s'.1) < Store_len (gc_store s.1).
Proof.
  destruct s as [c x]. simpl. intros Hs Hf Hgone.
  destruct (remove_refines (N:=STORE_CAPACITY) (FRAME_MAX:=GATEWAY_FRAME_BUFFER_LEN) (gc_store c) (sf_message_id f) (gk_store _ _ _ _ Hs)) as (Hok & _ & Hm).
  cbn [Store.run_op spec_op] in Hok, Hm. rewrite Hf in Hm.
  destruct (run_op_bind (remove (sf_message_id f)) (gc_store c)) as [H2 _]. rewrite H2 in Hok, Hm. clear H2.
  unfold on_store. unfold mbind, io_bind in Hm.
  destruct (remove (sf_message_id f) (gc_store c)) as [[[]|e|] store]; simpl in *; try done.
  apply (f_equal snd) in Hm. cbn [snd] in Hm.
  eexists. split; [done|]. split; [|split; [done|]].
  - apply set_store_evolves; [done..|]. intros id g Hg. rewrite Hm.
    destruct (decide (id = sf_message_id f)) as [->|Hne]; [right; congruence | left]. by rewrite lookup_delete_ne.
  - simpl. rewrite <- (store_map_size (N:=STORE_CAPACITY) (FRAME_MAX:=GATEWAY_FRAME_BUFFER_LEN) store Hok),
      <- (store_map_size (N:=STORE_CAPACITY) (FRAME_MAX:=GATEWAY_FRAME_BUFFER_LEN) (gc_store c)) by apply Hs.
    rewrite Hm. rewrite map_size_delete_Some by (by rewrite Hf).
    assert (size (store_map (gc_store c)) <> 0%nat); [|lia].
    intros Hz. apply map_size_empty_inv in Hz. by rewrite Hz in Hf.
Qed.

Lemma route_stored_total r e : validate_envelope e = Ok tt -> exists cmds, route_stored r e = Ok cmds.
Proof. intros Hv. unfold route_stored. rewrite Hv. repeat case_match; by eexists. Qed.

(** At most one command more than links that are up. *)
Lemma route_stored_len r e cmds : route_stored r e = Ok cmds -> len cmds <= 1 + len (up_links r None).
Proof.
  unfold route_stored. pose proof (len_nonneg (up_links r None)). destruct (validate_envelope e) as [|[]|]; intros Hr; simplify_eq;
    try (change (len [?x]) with 1; lia).
  destruct (_ <=? _); [simplify_eq; change (len [Drop (message_id e) Expired]) with 1; lia|].
  destruct (_ =? 0); [simplify_eq; change (len [Drop (message_id e) HopLimitExhausted]) with 1; lia|].
  assert (len ((fun l => Router.Send l e) <$> take 1 (up_links r None)) <= 1) by (rewrite len_map, len_take; lia).
  destruct (destination e); simpl in Hr; [destruct (bool_decide _)| |]; simplify_eq; try lia.
  - by destruct (has_seen r _); change (len [?x]) with 1; lia.
  - rewrite len_app, len_map. destruct (_ && _); [change (len [DeliverLocal e]) with 1 | rewrite (@len_nil RouterCommand)]; lia.
Qed.


(** One turn of the flush. *)
Lemma flush_turn_spec s :
  good s.1 ->
  exists r s', flush_turn MAX_SEEN s = (r, s') /\ r <> Panic /\ evolves s s' /\
    rt_links (gc_router s'.1) = rt_links (gc_router s.1) /\
    (r = Ok true -> Store_len (gc_store s'.1) < Store_len (gc_store s.1)) /\
    (accepting -> up_links (gc_router s.1) None <> [] -> len (up_links (gc_router s.1) None) <= 15 ->
     (r = Ok true \/ r = Ok false /\ store_map (gc_store s'.1) = ∅)).
Proof.
  destruct s as [c x]. simpl. intros Hs. pose proof (gk_store _ _ _ _ Hs) as Hst. unfold flush_turn. rewrite get_bind. cbv beta iota.
  destruct (first_pending_map STORE_CAPACITY GATEWAY_FRAME_BUFFER_LEN (gc_store c) Hst) as [[-> Hempty]|(f & -> & Hf)].
  { eexists _, (c, x). split; [done|]. split_and!; try done; [by apply evolves_refl | by intros; right]. }
  destruct (store_map_frame_ok _ _ _ _ _ Hst Hf) as ((e & He & Hv & Hb & Hid & Hcr & Hex) & Hlen & _).
  pose proof (len_nonneg (sf_bytes f)).
  rewrite write_zeros, lift_bind_ok by done.
  rewrite slice_prefix by (rewrite len_app; pose proof (len_nonneg (zeros (GATEWAY_FRAME_BUFFER_LEN - len (sf_bytes f)))); lia).
  rewrite take_len_app, lift_bind_ok, Hb, (decode_envelope_bytes e He Hv). cbn [map_err]. rewrite lift_bind_ok, forward_stored_route.
  destruct (route_stored_total (gc_router c) e Hv) as [cmds Hcmds]. rewrite Hcmds.
  destruct (route_stored_commands _ _ _ Hv Hcmds) as (Hns & Hse & Hwhy). pose proof (route_stored_len _ _ _ Hcmds) as Hcl.
  destruct (write_decision (Ok cmds) dummy_commands) as [n out'] eqn:Hw.
  destruct n as [n|err|]; [| |exfalso; simpl in Hw; unfold write_commands in Hw; by destruct (_ <? _)].
  2: { eexists _, (c, x). split; [done|]. split_and!; try done; [by apply evolves_refl|]. intros _ _ Hup. exfalso.
       simpl in Hw. unfold write_commands in Hw. rewrite dummy_len in Hw. destruct (Z.ltb_spec 16 (len cmds)); [lia|done]. }
  cbn [map_err]. rewrite lift_bind_ok. pose proof (written_commands _ _ _ Hw) as Hpre.
  assert (n = len cmds) as -> by (simpl in Hw; unfold write_commands in Hw; destruct (_ <? _); by simplify_eq).
  destruct (Z.eqb_spec (len cmds) 0) as [Hz|Hnz].
  { eexists _, (c, x). split; [done|]. split_and!; try done; [by apply evolves_refl|]. intros _ Hup _. exfalso.
    apply len_0_nil in Hz. by eapply route_stored_nonempty. }
  rewrite Hpre, lift_bind_ok.
  assert (Forall (command_ok (gc_last_now_ms c)) cmds) as Hcok.
  { apply list.Forall_forall. intros cmd Hin. eapply list.Forall_forall in Hns; [|exact Hin].
    destruct cmd as [l e'|sc|?|?|?]; try done. simpl. by rewrite (Hse l e' Hin). }
  destruct (execute_for_flush_steady _ cmds (c, x) Hs Hcok Hns) as (r & [c1 x1] & Hr & Hp & Hsd & Hacc & Hlive).
  assert (accepting -> r = Ok true) as Hgo.
  { intros Ha. apply Hlive; [done|]. apply list.Forall_forall. intros cmd Hin. destruct cmd as [l e'|sc|?|?|?]; try done.
    simpl. rewrite (Hse l e' Hin). by rewrite <- Hb. }
  pose proof (sd_store _ _ Hsd) as Hst1. pose proof (sd_links _ _ Hsd) as Hln1. simpl in Hst1, Hln1.
  destruct r as [[|]|err|]; [| | |done].
  2-3: eexists _, (c1, x1); split; [unfold mbind, io_bind; by rewrite Hr|]; split_and!; try done;
    [by apply steady_evolves | intros Ha _ _; by specialize (Hgo Ha)].
  destruct (remove_evolves f (c1, x1)) as (s2 & Hrm & Hev & Hln & Hlt).
  - apply Hsd.
  - simpl. by rewrite Hst1.
  - simpl. destruct Hwhy as [[l Hl]|[Hexp|Hloc]]; [intros ->; by rewrite (@len_nil RouterCommand) in Hnz | | |].
    + right. left. exists l. rewrite Hb. by apply Hacc.
    + left. rewrite Hex. pose proof (sd_now _ _ Hsd) as Hn. simpl in Hn. rewrite Hn, <- (gk_now _ _ _ _ Hs). done.
    + right. right. exists e. split_and!; [done..|]. pose proof (sd_config _ _ Hsd) as Hcf. simpl in Hcf.
      destruct Hloc as [?|Hloc]; [by left|right]. rewrite Hcf, (gk_policy _ _ _ _ Hs) in *.
      unfold local_to. by destruct (destination e).
  - eexists _, s2. split; [|split_and!].
    + unfold mbind, io_bind. rewrite Hr. cbn [negb]. rewrite Hrm. reflexivity.
    + done.
    + eapply evolves_trans; [by apply steady_evolves | done].
    + rewrite Hln. done.
    + intros _. simpl in Hlt. by rewrite Hst1 in Hlt.
    + by left.
Qed.

Lemma flush_loop_spec fuel s :
  good s.1 -> Store_len (gc_store s.1) < Z.of_nat fuel ->
  exists r s', flush_loop MAX_SEEN fuel s = (r, s') /\ r <> Panic /\ evolves s s' /\
    (accepting -> up_links (gc_router s.1) None <> [] -> len (up_links (gc_router s.1) None) <= 15 ->
     r = Ok tt /\ store_map (gc_store s'.1) = ∅).
Proof.
  revert s. induction fuel as [|fuel IH]; intros s Hs Hfuel.
  { unfold Store_len in Hfuel. pose proof (len_nonneg (occupied (records (gc_store s.1)))). lia. }
  cbn [flush_loop]. destruct (flush_turn_spec s Hs) as (r & s1 & Hr & Hp & Hev & Hln & Hlt & Hlive).
  unfold mbind, io_bind. rewrite Hr. destruct r as [[|]|err|]; [| | |done].
  - destruct (IH s1 (ev_ok _ _ Hev)) as (r & s2 & Hr2 & Hp2 & Hev2 & Hl2); [specialize (Hlt eq_refl); lia|].
    exists r, s2. split_and!; [done | done | by eapply evolves_trans|].
    assert (up_links (gc_router s1.1) None = up_links (gc_router s.1) None) as <- by (unfold up_links; by rewrite Hln).
    done.
  - exists (Ok tt), s1. split_and!; [done..|]. intros Ha H1 H2. by destruct (Hlive Ha H1 H2) as [|[_ ?]].
  - exists (Err err), s1. split_and!; [done..|]. intros Ha H1 H2. by destruct (Hlive Ha H1 H2) as [|[? _]].
Qed.

Lemma flush_store_spec s :
  good s.1 ->
  exists r s', flush_store MAX_SEEN s = (r, s') /\ r <> Panic /\ evolves s s' /\
    (accepting -> up_links (gc_router s.1) None <> [] -> len (up_links (gc_router s.1) None) <= 15 ->
     r = Ok tt /\ store_map (gc_store s'.1) = ∅).
Proof.
  intros Hs. unfold flush_store. destruct s as [c x]. rewrite get_bind. cbv beta iota.
  destruct (expire_store_runs (accepts:=accepts) (gc_last_now_ms c) (c, x) Hs) as (H1 & Hev & Hln & Hlr); [simpl; lia|].
  destruct (expire_store (gc_last_now_ms c) (c, x)) as [o s1] eqn:Hx. simpl in H1, Hev, Hln, Hlr. subst o.
  rewrite (io_bind_ok _ _ _ _ _ Hx).
  destruct (flush_loop_spec (S (length (records (gc_store c)))) s1 (ev_ok _ _ Hev)) as (r & s2 & Hr & Hp & Hev2 & Hl).
  { unfold Store_len, len. pose proof (length_occupied (records (gc_store s1.1))). lia. }
  exists r, s2. split_and!; [done | done | by eapply evolves_trans|].
  simpl. assert (up_links (gc_router s1.1) None = up_links (gc_router c) None) as <- by (unfold up_links; by rewrite Hln).
  done.
Qed.
End flushing.

(** ** Lemmas: the gateway's operations *)
Section operations.
Context {MAX_LINKS MAX_SEEN STORE_CAPACITY : Z} {X : Type} `{EX : GatewayLinkExecutor X} {accepts : X -> list Z * list Z -> Prop} `{EL : !ExecutorLaws X accepts}.
Abbreviation good := (gateway_ok MAX_LINKS MAX_SEEN STORE_CAPACITY).
Abbreviation evolves := (evolves (MAX_LINKS:=MAX_LINKS) (MAX_SEEN:=MAX_SEEN) (STORE_CAPACITY:=STORE_CAPACITY) (accepts:=accepts)).
Abbreviation runs := (runs (MAX_LINKS:=MAX_LINKS) (MAX_SEEN:=MAX_SEEN) (STORE_CAPACITY:=STORE_CAPACITY) (accepts:=accepts)).
Abbreviation st := (GatewayCore * X)%type.
Implicit Types (c : GatewayCore) (x : X) (s : st).

Lemma route_event_evolves ev c0 c x :
  event_ok ev -> good c0 -> timely ev c0 c ->
  (route_event MAX_LINKS MAX_SEEN ev (c, x)).1 <> Panic /\ evolves (c0, x) (route_event MAX_LINKS MAX_SEEN ev (c, x)).2.
Proof.
  intros Hev Hs Ht.
  pose proof (router_commands_spec (MAX_SEEN:=MAX_SEEN) (STORE_CAPACITY:=STORE_CAPACITY) (accepts:=accepts) ev c0 c x Hev Hs Ht) as Hrc.
  unfold route_event, mbind, io_bind. destruct (router_commands MAX_LINKS ev (c, x)) as [[cmds|err|] s1].
  - destruct Hrc as (_ & Hevo & _ & _ & Hok & _). destruct (Hok cmds eq_refl) as [Hcok _].
    destruct (execute_commands_runs (accepts:=accepts) cmds s1 (ev_ok _ _ Hevo) Hcok). split; [done | by eapply evolves_trans].
  - by destruct Hrc as (_ & Hevo & _).
  - by destruct Hrc.
Qed.

Lemma route_event_runs ev : event_ok ev -> (forall t, ev <> Tick t) -> runs (route_event MAX_LINKS MAX_SEEN ev).
Proof. intros Hev Ht [c x] Hs. apply route_event_evolves; [done..|]. destruct ev; try done. by destruct (Ht now_ms). Qed.

Lemma modify_runs f : (forall c, counters_only c (f c)) -> runs (modify f).
Proof.
  intros Hf s Hs. destruct (modify_steady (accepts:=accepts) f s Hs (Hf s.1)) as [-> Hsd]. split; [done | by apply steady_evolves].
Qed.

Lemma flush_store_runs : runs (flush_store MAX_SEEN).
Proof. intros s Hs. destruct (flush_store_spec (accepts:=accepts) s Hs) as (r & s' & -> & Hp & Hev & _). by split. Qed.

Lemma observe_time_runs now : runs (observe_time MAX_LINKS MAX_SEEN now).
Proof.
  intros [c x] Hs. unfold observe_time. rewrite get_bind. cbv beta iota.
  destruct (Z.leb_spec now (gc_last_now_ms c)) as [Hle|Hlt]; [split; [done | by apply evolves_refl]|].
  rewrite (io_bind_ok _ _ (c, x) tt (set_now now c, x)) by done.
  apply route_event_evolves; [done..|]. split; [done | lia].
Qed.

Lemma handle_link_event_runs ev : event_ok (LinkEv ev) -> runs (handle_link_event MAX_LINKS MAX_SEEN ev).
Proof.
  intros Hev. unfold handle_link_event. apply runs_bind; [by apply route_event_runs|]. intros _.
  destruct ev; [apply runs_ret | apply flush_store_runs | apply runs_ret].
Qed.
End operations.

(** ** Operations in sequence *)
Inductive GatewayOp :=
| OpSubmit (e : HyfEnvelopeRef)
| OpIngest (frame : LinkFrameRef)
| OpTick (now_ms : Z)
| OpLink (event : LinkEvent).

(** What the Rust types guarantee of the arguments. *)
Definition gateway_op_ok (op : GatewayOp) : Prop :=
  match op with
  | OpSubmit e => envelope_ok e
  | OpIngest frame | OpLink (Frame frame) => bytes_ok (lf_bytes frame)
  | _ => True
  end.

Section sequences.
Context (MAX_LINKS MAX_SEEN : Z) {X : Type} `{EX : GatewayLinkExecutor X}.

Definition run_gateway_op (op : GatewayOp) : io (GatewayCore * X) GatewayError unit :=
  match op with
  | OpSubmit e => submit MAX_LINKS MAX_SEEN e
  | OpIngest frame => ingest_link_frame MAX_LINKS MAX_SEEN frame
  | OpTick now_ms => tick MAX_LINKS MAX_SEEN now_ms
  | OpLink event => handle_link_event MAX_LINKS MAX_SEEN event
  end.

(** The results of a sequence of operations; a caller may go on after an
    error. *)
Fixpoint run_gateway_ops (ops : list GatewayOp) (s : GatewayCore * X)
    : list (outcome GatewayError unit) * (GatewayCore * X) :=
  match ops with
  | [] => ([], s)
  | op :: ops' =>
      let '(r, s1) := run_gateway_op op s in
      let '(rs, s2) := run_gateway_ops ops' s1 in (r :: rs, s2)
  end.
End sequences.

(** An executor seen through what it has accepted. *)
#[export] Instance recording_executor X `{EX : GatewayLinkExecutor X} : GatewayLinkExecutor (X * list (list Z * list Z)) :=
  fun link_id bytes now_ms '(x, log) =>
    let '(r, x') := executor_send link_id bytes now_ms x in
    (r, (x', match r with Ok _ => log ++ [(link_id, bytes)] | _ => log end)).

Definition executor_panic_free (X : Type) `{GatewayLinkExecutor X} : Prop :=
  forall link_id bytes now_ms (x : X), (executor_send link_id bytes now_ms x).1 <> Panic.

Definition logged {X} (x : X * list (list Z * list Z)) (p : list Z * list Z) : Prop := p ∈ x.2.

Lemma recording_laws X `{EX : GatewayLinkExecutor X} :
  executor_panic_free X -> ExecutorLaws (X * list (list Z * list Z)) logged.
Proof.
  intros Hsafe. split.
  all: intros link_id bytes now [x log]; unfold logged, executor_send, recording_executor;
    specialize (Hsafe link_id bytes now x);
    destruct (executor_send link_id bytes now x) as [[[]|e|] x']; simpl in *; try done.
  - intros p Hp. apply elem_of_app. by left.
  - intros _. apply elem_of_app. right. by left.
Qed.

Lemma panic_free_laws X `{EX : GatewayLinkExecutor X} : executor_panic_free X -> ExecutorLaws X (fun _ _ => True).
Proof. intros Hsafe. by split. Qed.

Lemma gateway_op_runs {MAX_LINKS MAX_SEEN STORE_CAPACITY X} `{EX : GatewayLinkExecutor X} {accepts} `{EL : !ExecutorLaws X accepts} op :
  gateway_op_ok op ->
  runs (MAX_LINKS:=MAX_LINKS) (MAX_SEEN:=MAX_SEEN) (STORE_CAPACITY:=STORE_CAPACITY) (accepts:=accepts)
    (run_gateway_op MAX_LINKS MAX_SEEN op).
Proof.
  intros Hop. destruct op as [e|frame|now|ev]; cbn [run_gateway_op].
  - apply runs_bind; [by apply modify_runs|]. intros _. apply runs_bind; [by apply route_event_runs|].
    intros _. apply flush_store_runs.
  - apply runs_bind; [by apply modify_runs|]. intros _. apply runs_bind; [apply observe_time_runs|]. intros _.
    apply runs_bind; [by apply route_event_runs|]. intros _. apply flush_store_runs.
  - apply runs_bind; [apply observe_time_runs|]. intros _. apply flush_store_runs.
  - apply handle_link_event_runs. by destruct ev.
Qed.

Lemma gateway_ops_run {MAX_LINKS MAX_SEEN STORE_CAPACITY X} `{EX : GatewayLinkExecutor X} {accepts} `{EL : !ExecutorLaws X accepts} ops s :
  gateway_ok MAX_LINKS MAX_SEEN STORE_CAPACITY s.1 -> Forall gateway_op_ok ops ->
  let '(rs, s') := run_gateway_ops MAX_LINKS MAX_SEEN ops s in
  Forall (fun r => r <> Panic) rs /\
  evolves (MAX_LINKS:=MAX_LINKS) (MAX_SEEN:=MAX_SEEN) (STORE_CAPACITY:=STORE_CAPACITY) (accepts:=accepts) s s'.
Proof.
  revert s. induction ops as [|op ops IH]; intros s Hs Hops; cbn [run_gateway_ops].
  - split; [constructor | by apply evolves_refl].
  - apply list.Forall_cons in Hops as [Hop Hops]. destruct (gateway_op_runs (accepts:=accepts) op Hop s Hs) as [Hp Hev].
    destruct (run_gateway_op MAX_LINKS MAX_SEEN op s) as [r s1]. simpl in *. specialize (IH s1 (ev_ok _ _ Hev) Hops).
    destruct (run_gateway_ops MAX_LINKS MAX_SEEN ops s1) as [rs s2]. destruct IH. split; [by constructor | by eapply evolves_trans].
Qed.

(** ** Construction *)
Lemma Router_new_ok MAX_LINKS MAX_SEEN p : 0 <= MAX_LINKS -> 0 <= MAX_SEEN -> router_ok MAX_LINKS MAX_SEEN (Router_new MAX_LINKS MAX_SEEN p).
Proof.
  intros H1 H2. unfold Router_new. split; simpl; rewrite ?occupied_nones.
  - unfold len. rewrite length_replicate. lia.
  - constructor.
  - exists []. by apply ring_shape_empty.
Qed.

Lemma GatewayCore_new_ok MAX_LINKS MAX_SEEN STORE_CAPACITY config c :
  0 <= MAX_LINKS -> 0 <= MAX_SEEN -> 0 <= STORE_CAPACITY ->
  GatewayCore_new MAX_LINKS MAX_SEEN STORE_CAPACITY config = Ok c ->
  gateway_ok MAX_LINKS MAX_SEEN STORE_CAPACITY c /\ gc_config c = config /\ store_map (gc_store c) = ∅.
Proof.
  intros HL HS HC H. unfold GatewayCore_new in H. apply validate_then in H as [Hv H].
  repeat (apply validate_then in H as [_ H]). injection H as <-. apply map_err_inv in Hv.
  split_and!; [|done|apply Store_new_map]. split; simpl; try done.
  - by apply validate_gateway_config_ok.
  - by apply Router_new_ok.
  - by apply Store_new_ok.
Qed.

(** C3. Safety of the gateway: a gateway built from a configuration it accepts
    never panics and never fails to finish, whatever it is asked to do - submit,
    ingest arbitrary bytes, tick, link events, in any order, going on after
    errors - and whatever its executor answers short of panicking.  Router,
    store and clock keep their invariants and agree with the configuration. *)
Theorem gateway_safe MAX_LINKS MAX_SEEN STORE_CAPACITY X `{EX : GatewayLinkExecutor X} config c ops (x : X) :
  0 <= MAX_LINKS -> 0 <= MAX_SEEN -> 0 <= STORE_CAPACITY ->
  GatewayCore_new MAX_LINKS MAX_SEEN STORE_CAPACITY config = Ok c ->
  executor_panic_free X -> Forall gateway_op_ok ops ->
  let '(rs, (c', _)) := run_gateway_ops MAX_LINKS MAX_SEEN ops (c, x) in
  Forall (fun r => r <> Panic) rs /\
  gateway_ok MAX_LINKS MAX_SEEN STORE_CAPACITY c' /\ gc_config c' = config /\ gc_last_now_ms c <= gc_last_now_ms c'.
Proof.
  intros HL HS HC Hnew Hsafe Hops. apply panic_free_laws in Hsafe.
  destruct (GatewayCore_new_ok _ _ _ _ _ HL HS HC Hnew) as (Hok & <- & _).
  pose proof (gateway_ops_run (accepts:=fun _ _ => True) ops (c, x) Hok Hops) as Hrun.
  destruct (run_gateway_ops MAX_LINKS MAX_SEEN ops (c, x)) as [rs [c' x']].
  destruct Hrun as [Hrs []]. by split_and!.
Qed.

(** C4. Nothing stored is lost: over any sequence of operations, with any
    executor, every frame in the store is still there unchanged, or has
    expired by the gateway's clock, or was accepted by the executor on some
    link byte for byte, or carries an envelope that is the gateway's own to
    settle (for its node or a local community, or with no hops left). *)
Theorem gateway_no_loss MAX_LINKS MAX_SEEN STORE_CAPACITY X `{EX : GatewayLinkExecutor X} c ops (x : X) :
  gateway_ok MAX_LINKS MAX_SEEN STORE_CAPACITY c -> executor_panic_free X -> Forall gateway_op_ok ops ->
  let '(_, (c', (_, log))) := run_gateway_ops MAX_LINKS MAX_SEEN ops (c, (x, [])) in
  forall id f, store_map (gc_store c) !! id = Some f ->
    store_map (gc_store c') !! id = Some f \/
    sf_expires_at_ms f <= gc_last_now_ms c' \/
    (exists link_id, (link_id, sf_bytes f) ∈ log) \/
    (exists e, envelope_ok e /\ sf_bytes f = envelope_bytes e /\ (hop_limit e = 0 \/ local_to (gc_config c) (destination e))).
Proof.
  intros Hok Hsafe Hops. apply recording_laws in Hsafe.
  pose proof (gateway_ops_run (accepts:=logged) ops (c, (x, [])) Hok Hops) as Hrun.
  destruct (run_gateway_ops MAX_LINKS MAX_SEEN ops (c, (x, []))) as [rs [c' [x' log]]].
  destruct Hrun as [_ Hev]. intros id f Hf. by destruct (ev_store _ _ Hev id f Hf) as [?|[?|[?|?]]]; auto.
Qed.

(** With a link up there is a link to use. *)
Lemma link_map_up r ingress link_id :
  link_map r !! link_id = Some true -> ingress <> Some link_id -> link_id ∈ up_links r ingress.
Proof.
  intros Hl Hne. apply elem_of_list_to_map_2 in Hl. apply list_elem_of_fmap in Hl as ([l u] & Heq & Hl).
  unfold link_entry in Heq. simplify_eq/=. unfold up_links. apply list_elem_of_fmap.
  exists (mk_link_state l true). split; [done|]. apply elem_of_filter_list. split; [done|].
  unfold link_usable. simpl. by apply bool_decide_eq_true.
Qed.

Lemma up_links_len r ingress : len (up_links r ingress) <= len (rt_links r).
Proof.
  unfold up_links. rewrite len_map. unfold len. pose proof (length_occupied (rt_links r)).
  pose proof (filter_length_le (link_usable ingress) (occupied (rt_links r))). lia.
Qed.

(** C5. Store and forward delivers: when a link comes up (a known one, or one
    for which the table has room) and the executor accepts what it is given,
    the event succeeds and empties the store: every stored frame has been
    accepted on some link byte for byte, except those that had expired, those
    without hops and the gateway's own. *)
Theorem link_up_delivers_stored MAX_LINKS MAX_SEEN STORE_CAPACITY X `{EX : GatewayLinkExecutor X} c link_id (x : X) :
  gateway_ok MAX_LINKS MAX_SEEN STORE_CAPACITY c -> MAX_LINKS <= 15 ->
  (is_Some (link_map (gc_router c) !! link_id) \/ Z.of_nat (size (link_map (gc_router c))) < MAX_LINKS) ->
  (forall l bytes now (x : X), (executor_send l bytes now x).1 = Ok tt) ->
  exists c' x' log, handle_link_event MAX_LINKS MAX_SEEN (Up link_id) (c, (x, [])) = (Ok tt, (c', (x', log))) /\
    store_map (gc_store c') = ∅ /\
    forall id f, store_map (gc_store c) !! id = Some f ->
      sf_expires_at_ms f <= gc_last_now_ms c' \/
      (exists l, (l, sf_bytes f) ∈ log) \/
      (exists e, envelope_ok e /\ sf_bytes f = envelope_bytes e /\ (hop_limit e = 0 \/ local_to (gc_config c) (destination e))).
Proof.
  intros Hok Hmax Hroom Hacc.
  assert (executor_panic_free X) as Hsafe by (intros l b t y; by rewrite Hacc).
  apply recording_laws in Hsafe.
  assert (accepting (X:=X * list (list Z * list Z))) as Haccept.
  { intros l b t [y log]. unfold executor_send, recording_executor. specialize (Hacc l b t y).
    destruct (executor_send l b t y) as [r y']. simpl in *. by subst. }
  pose proof (router_commands_spec (MAX_SEEN:=MAX_SEEN) (STORE_CAPACITY:=STORE_CAPACITY) (accepts:=logged)
    (LinkEv (Up link_id)) c c (x, []) I Hok eq_refl) as Hrc.
  assert (spec_link MAX_LINKS link_id true (link_map (gc_router c)) = (Ok tt, <[link_id := true]> (link_map (gc_router c)))) as Hspec.
  { unfold spec_link. destruct (bool_decide_reflect (is_Some (link_map (gc_router c) !! link_id))); [done|].
    destruct Hroom as [|Hroom]; [done|]. simpl negb. cbv iota. by rewrite (proj2 (Z.ltb_lt _ _) Hroom). }
  cbn [spec_event_links] in Hrc. rewrite Hspec in Hrc.
  destruct (router_commands MAX_LINKS (LinkEv (Up link_id)) (c, (x, []))) as [r s1] eqn:Hr.
  destruct Hrc as (_ & Hev1 & Hx1 & Hst1 & _ & Hlm & Hnil). specialize (Hnil eq_refl eq_refl). subst r.
  destruct (flush_store_spec (accepts:=logged) s1 (ev_ok _ _ Hev1)) as (r & [c' [x' log]] & Hfl & _ & Hev2 & Hlive).
  destruct (Hlive Haccept) as [-> Hempty].
  - intros Hnone. assert (link_id ∈ up_links (gc_router s1.1) None) as Hin; [|rewrite Hnone in Hin; by apply not_elem_of_nil in Hin].
    apply link_map_up; [|done]. rewrite Hlm. simpl. by rewrite lookup_insert_eq.
  - pose proof (up_links_len (gc_router s1.1) None). pose proof (rto_links _ _ _ (gk_router _ _ _ _ (ev_ok _ _ Hev1))). lia.
  - exists c', x', log. split; [|split; [exact Hempty|]].
    + unfold handle_link_event, route_event. unfold mbind at 1, io_bind at 1. unfold mbind at 1, io_bind at 1. rewrite Hr. exact Hfl.
    + pose proof (evolves_trans _ _ _ Hev1 Hev2) as Hev. intros id f Hf.
      destruct (ev_store _ _ Hev id f Hf) as [Hk|[?|[?|?]]]; auto. simpl in Hk, Hempty. by rewrite Hempty in Hk.
Qed.

(** ** The loopback driver as an executor *)
Lemma enqueue_safe bytes now ep : len bytes <= LOOPBACK_MAX_FRAME_LEN -> (enqueue bytes now ep).1 <> Panic.
Proof.
  intros Hl. unfold enqueue. rewrite get_bind. pose proof (position_none_spec (ep_queue ep)) as Hp.
  destruct (position_none (ep_queue ep)) as [i|]; [|done]. destruct Hp as (Hi & _).
  rewrite write_at_0, lift_bind_ok by (rewrite len_zeros by (unfold LOOPBACK_MAX_FRAME_LEN; lia); done).
  rewrite set_at_ok, lift_bind_ok by done. done.
Qed.

Lemma send_bytes_to_safe self bytes now peer : (send_bytes_to self bytes now peer).1 <> Panic.
Proof.
  unfold send_bytes_to. rewrite get_bind. unfold validate_send, validate_receive, validate_frame_len. rewrite !Z.gtb_ltb.
  destruct (negb (ep_up self)); [done|]. destruct (ep_mtu self <? len bytes); [done|].
  destruct (Z.ltb_spec LOOPBACK_MAX_FRAME_LEN (len bytes)); [done|]. rewrite lift_bind_ok.
  destruct (negb (ep_up peer)); [done|]. destruct (ep_mtu peer <? len bytes); [done|]. rewrite lift_bind_ok. by apply enqueue_safe.
Qed.

Lemma loopback_panic_free : executor_panic_free LoopbackDriver.
Proof.
  intros link_id bytes now d. unfold executor_send, loopback_executor, io_map_err, Loopback.send_link_bytes.
  rewrite get_bind. unfold send_from, at_endpoint, mbind, io_bind, get.
  repeat (case_bool_decide; [
    match goal with |- context [send_bytes_to ?a bytes now ?b] => pose proof (send_bytes_to_safe a bytes now b);
      destruct (send_bytes_to a bytes now b) as [[]] end; done|]). done.
Qed.

(** ** Witnesses *)
Definition sample_config : GatewayConfig :=
  mk_gateway_config (replicate 32 9) (mk_router_config 2 4) (mk_store_config 3 StorePolicy_new)
    [Some (LinkConfig_new LOOPBACK_LEFT_ID 256); None] GatewayPolicyConfig_new.
Definition sample_core : GatewayCore :=
  mk_gateway sample_config (Router_new 2 4 (router_policy sample_config)) (Store_new 3 StorePolicy_new) metrics_default 0 None 0.

Lemma sample_core_new : GatewayCore_new 2 4 3 sample_config = Ok sample_core.
Proof. vm_compute. reflexivity. Qed.

(** Submitting with no link, bringing a link up, ingesting garbage and a tick. *)
Definition sample_gateway_ops : list GatewayOp :=
  [OpSubmit sample_envelope; OpIngest (mk_frame LOOPBACK_LEFT_ID 7 [1; 2; 3]); OpLink (Up LOOPBACK_LEFT_ID); OpTick 9000].

Lemma sample_gateway_ops_ok : Forall gateway_op_ok sample_gateway_ops.
Proof.
  apply list.Forall_cons_2; [exact sample_envelope_ok|].
  apply list.Forall_cons_2; [apply (bool_decide_unpack _); vm_compute; exact I|].
  apply list.Forall_cons_2; [exact I|]. apply list.Forall_singleton. exact I.
Qed.

Lemma gateway_safe_witness :
  let '(rs, (c', d')) := run_gateway_ops 2 4 sample_gateway_ops (sample_core, driver_new 2 Left 256) in
  rs = [Ok tt; Ok tt; Ok tt; Ok tt] /\ queued_len (endpoint_at Right d') = 1 /\
  Forall (fun r => r <> Panic) rs /\ gateway_ok 2 4 3 c'.
Proof.
  pose proof (gateway_safe 2 4 3 LoopbackDriver sample_config sample_core sample_gateway_ops (driver_new 2 Left 256)) as H.
  assert (let '(rs, (_, d')) := run_gateway_ops 2 4 sample_gateway_ops (sample_core, driver_new 2 Left 256) in
    rs = [Ok tt; Ok tt; Ok tt; Ok tt] /\ queued_len (endpoint_at Right d') = 1) as Hrun by (vm_compute; split; reflexivity).
  destruct (run_gateway_ops 2 4 sample_gateway_ops (sample_core, driver_new 2 Left 256)) as [rs [c' d']].
  destruct Hrun as [-> Hq].
  destruct H as (Hrs & Hok & _); [lia | lia | lia | exact sample_core_new | exact loopback_panic_free | exact sample_gateway_ops_ok |].
  split; [reflexivity|]. split; [exact Hq|]. split; [exact Hrs | exact Hok].
Defined.

(** An executor that accepts everything. *)
Definition sink_executor : GatewayLinkExecutor unit := fun _ _ _ => mret tt.

(** The gateway after a submission with no link up: the envelope is stored. *)
Definition storing_core : GatewayCore :=
  (run_gateway_ops (EX:=sink_executor) 2 4 [OpSubmit sample_envelope] (sample_core, tt)).2.1.
Definition sample_stored : StoredFrameRef := stored_frame sample_envelope (envelope_bytes sample_envelope).

Lemma storing_core_ok : gateway_ok 2 4 3 storing_core.
Proof.
  destruct (GatewayCore_new_ok 2 4 3 sample_config sample_core ltac:(lia) ltac:(lia) ltac:(lia) sample_core_new) as (Hok & _ & _).
  pose proof (panic_free_laws (EX:=sink_executor) unit ltac:(intros l b t x; discriminate)) as HL.
  pose proof (gateway_ops_run (EX:=sink_executor) (accepts:=fun _ _ => True) [OpSubmit sample_envelope] (sample_core, tt) Hok) as H.
  unfold storing_core. destruct (run_gateway_ops 2 4 [OpSubmit sample_envelope] (sample_core, tt)) as [rs s'].
  destruct H as [_ Hev]; [apply list.Forall_singleton; exact sample_envelope_ok|]. exact (ev_ok _ _ Hev).
Qed.

Lemma storing_core_map : store_map (gc_store storing_core) !! replicate 32 1 = Some sample_stored.
Proof. vm_compute. reflexivity. Qed.

Lemma gateway_no_loss_witness :
  let '(_, (c', (_, log))) := run_gateway_ops (EX:=recording_executor unit (EX:=sink_executor)) 2 4
    [OpLink (Up LOOPBACK_RIGHT_ID)] (storing_core, (tt, [])) in
  log = [(LOOPBACK_RIGHT_ID, envelope_bytes sample_envelope)] /\
  (store_map (gc_store c') !! replicate 32 1 = Some sample_stored \/ sf_expires_at_ms sample_stored <= gc_last_now_ms c' \/
   (exists link_id, (link_id, sf_bytes sample_stored) ∈ log) \/
   (exists e, envelope_ok e /\ sf_bytes sample_stored = envelope_bytes e /\
     (hop_limit e = 0 \/ local_to (gc_config storing_core) (destination e)))).
Proof.
  pose proof (gateway_no_loss (EX:=sink_executor) 2 4 3 unit storing_core [OpLink (Up LOOPBACK_RIGHT_ID)] tt storing_core_ok) as H.
  assert (let '(_, (_, (_, log))) := run_gateway_ops (EX:=recording_executor unit (EX:=sink_executor)) 2 4
    [OpLink (Up LOOPBACK_RIGHT_ID)] (storing_core, (tt, [])) in
    log = [(LOOPBACK_RIGHT_ID, envelope_bytes sample_envelope)]) as Hlog by (vm_compute; reflexivity).
  destruct (run_gateway_ops (EX:=recording_executor unit (EX:=sink_executor)) 2 4 [OpLink (Up LOOPBACK_RIGHT_ID)] (storing_core, (tt, [])))
    as [rs [c' [x' log]]].
  split; [exact Hlog|]. apply H; [intros l b t x; discriminate | apply list.Forall_singleton; exact I | exact storing_core_map].
Defined.

Lemma link_up_delivers_stored_witness :
  store_map (gc_store storing_core) !! replicate 32 1 = Some sample_stored /\
  exists c' x' log, handle_link_event (EX:=recording_executor unit (EX:=sink_executor)) 2 4 (Up LOOPBACK_LEFT_ID)
      (storing_core, (tt, [])) = (Ok tt, (c', (x', log))) /\ store_map (gc_store c') = ∅.
Proof.
  split; [exact storing_core_map|].
  destruct (link_up_delivers_stored (EX:=sink_executor) 2 4 3 unit storing_core LOOPBACK_LEFT_ID tt storing_core_ok)
    as (c' & x' & log & Hr & Hm & _).
  - lia.
  - right. apply (bool_decide_unpack _). vm_compute. exact I.
  - intros l bytes now x. reflexivity.
  - exists c', x', log. split; [exact Hr | exact Hm].
Defined.
