(* ===== verification/Display.v ===== *)
(** Texts of errors.

    A [fmt::Display] implementation of the workspace is a list of pieces: literal
    text, unsigned numbers, bytes in hexadecimal and static strings.  The text is
    their concatenation.  [clash] and [aligned] compare two lists of pieces without
    looking at their numbers; the first decides that no numbers give one text, the
    second that one text determines the numbers. *)
From S2P Require Import Prelude Utf8 Cursor NostrHex NostrJson NostrParser.
From stdpp Require Import strings.

Open Scope Z_scope.

(** ** Pieces of a format string *)
Inductive piece :=
| T (s : string)    (* literal text *)
| D (n : Z)         (* {n} *)
| X2 (b : Z)        (* {b:02x} *)
| F (s : string).   (* {s}, a static string *)

Definition piece_text (p : piece) : list Z :=
  match p with T s | F s => str s | D n => decimal n | X2 b => hex_byte b end.
(** [to_string] *)
Definition text (ps : list piece) : list Z := concat (map piece_text ps).

(** [{:?}] of a [[u8; N]] in a tuple struct. *)
Fixpoint debug_numbers (l : list Z) : list piece :=
  match l with [] => [] | [n] => [D n] | n :: l => D n :: T ", " :: debug_numbers l end.
Definition debug_tuple (name : string) (l : list Z) : list piece := T name :: T "([" :: debug_numbers l ++ [T "])"].

(** ** Comparing *)
(** One byte of a literal, or a hole. *)
Inductive tok := Ch (b : Z) | Num (n : Z) | Hex (b : Z) | Str (s : string).
Definition toks (ps : list piece) : list tok :=
  concat (map (fun p => match p with T s => map Ch (str s) | D n => [Num n] | X2 b => [Hex b] | F s => [Str s] end) ps).
Definition tok_text (t : tok) : list Z := match t with Ch b => [b] | Num n => decimal n | Hex b => hex_byte b | Str s => str s end.
Definition toks_text (l : list tok) : list Z := concat (map tok_text l).

(** The ranges of the holes; no static string has a colon. *)
Definition tok_ok (t : tok) : Prop :=
  match t with Ch _ => True | Num n => u64_ok n | Hex b => u8_ok b | Str s => 58 ∉ str s end.
Definition pieces_ok (ps : list piece) : Prop := Forall tok_ok (toks ps).

(** What follows a number does not go on with a digit. *)
Definition ends_number (l : list tok) : bool :=
  match l with [] => true | Ch b :: _ => negb (is_digitb b) | _ => false end.
Definition ends_string (l : list tok) : bool :=
  match l with [] => true | Ch b :: _ => b =? 58 | _ => false end.

Fixpoint clash (p q : list tok) : bool :=
  match p, q with
  | Ch a :: p, Ch b :: q => negb (a =? b) || clash p q
  | Num _ :: p, Num _ :: q => ends_number p && ends_number q && clash p q
  | Hex _ :: p, Hex _ :: q => clash p q
  | Num _ :: _, Ch b :: _ | Ch b :: _, Num _ :: _ => negb (is_digitb b)
  | [], (Ch _ | Num _ | Hex _) :: _ | (Ch _ | Num _ | Hex _) :: _, [] => true
  | _, _ => false
  end.

Fixpoint aligned (p q : list tok) : bool :=
  match p, q with
  | [], [] => true
  | Ch a :: p, Ch b :: q => (a =? b) && aligned p q
  | Num _ :: p, Num _ :: q => ends_number p && ends_number q && aligned p q
  | Hex _ :: p, Hex _ :: q => aligned p q
  | Str _ :: p, Str _ :: q => ends_string p && ends_string q && aligned p q
  | _, _ => false
  end.

Definition holes (l : list tok) : list (Z + string) :=
  concat (map (fun t => match t with Ch _ => [] | Num n | Hex n => [inl n] | Str s => [inr s] end) l).

(** ** Soundness *)
Lemma toks_text_pieces ps : toks_text (toks ps) = text ps.
Proof.
  unfold toks_text, toks, text. induction ps as [|p ps IH]; [done|]. cbn [map concat]. rewrite map_app, concat_app, IH. f_equal.
  destruct p as [s|n|b|s]; cbn; rewrite ?app_nil_r; [|done..]. induction (str s) as [|c l IHl]; [done|]. cbn. by rewrite IHl.
Qed.

Lemma number_head n rest : u64_ok n -> exists b r, decimal n ++ rest = b :: r /\ is_digit b.
Proof. intros Hn. destruct (decimal_cons n Hn) as (b & r & E & Hb & _). exists b, (r ++ rest). by rewrite E. Qed.

Lemma ends_number_spec l : ends_number l = true -> forall b r, toks_text l = b :: r -> ~ is_digit b.
Proof.
  destruct l as [|[c|n|c|s] l]; cbn; [by intros _ ? ?| |done..]. rewrite negb_true_iff. intros Hc b r [= <- _] Hb.
  apply is_digitb_spec in Hb. congruence.
Qed.

Lemma same_number m n p q : u64_ok m -> u64_ok n -> ends_number p = true -> ends_number q = true ->
  decimal m ++ toks_text p = decimal n ++ toks_text q -> m = n /\ toks_text p = toks_text q.
Proof.
  intros Hm Hn Hp Hq E. apply digits_span in E as [E1 E2].
  - split; [|done]. by rewrite <- (decimal_value m), <- (decimal_value n), E1.
  - apply decimal_ok. unfold u64_ok in Hm. lia.
  - apply decimal_ok. unfold u64_ok in Hn. lia.
  - intros b r Eb. by apply (ends_number_spec p Hp b r).
  - intros b r Eb. by apply (ends_number_spec q Hq b r).
Qed.

Lemma same_string u v p q : 58 ∉ u -> 58 ∉ v -> ends_string p = true -> ends_string q = true ->
  u ++ toks_text p = v ++ toks_text q -> u = v /\ toks_text p = toks_text q.
Proof.
  intros Hu Hv Hp Hq. assert (forall l, ends_string l = true -> toks_text l = [] \/ exists r, toks_text l = 58 :: r) as Hends.
  { intros [|[c|n|c|s] l]; cbn; [by left| |done..]. intros ->%Z.eqb_eq. right. by eexists. }
  pose proof (Hends p Hp) as Ep. pose proof (Hends q Hq) as Eq. revert v Hv. induction u as [|a u IH]; intros v Hv E; cbn in E.
  - destruct v as [|b v]; [done|]. exfalso. destruct Ep as [Ep|[r Ep]]; rewrite Ep in E; [done|]. injection E as <- _. rewrite not_elem_of_cons in Hv. by destruct Hv.
  - rewrite not_elem_of_cons in Hu. destruct Hu as [Ha Hu]. destruct v as [|b v]; cbn in E.
    + exfalso. destruct Eq as [Eq|[r Eq]]; rewrite Eq in E; [done|]. by injection E as -> _.
    + injection E as -> E. rewrite not_elem_of_cons in Hv. destruct Hv as [_ Hv]. destruct (IH Hu v Hv E) as [-> ?]. done.
Qed.

Lemma str_inj s s' : str s = str s' -> s = s'.
Proof.
  unfold str. intros E.
  assert (forall l l', map (fun a => Z.of_N (Ascii.N_of_ascii a)) l = map (fun a => Z.of_N (Ascii.N_of_ascii a)) l' -> l = l') as Hinj.
  { induction l as [|a l IH]; intros [|b l'] El; try done. injection El as Eab El. f_equal; [|by apply IH].
    apply N2Z.inj in Eab. by rewrite <- (Ascii.ascii_N_embedding a), Eab, Ascii.ascii_N_embedding. }
  apply Hinj in E. by rewrite <- (String.string_of_list_ascii_of_string s), E, String.string_of_list_ascii_of_string.
Qed.

Lemma clash_sound p q : Forall tok_ok p -> Forall tok_ok q -> clash p q = true -> toks_text p <> toks_text q.
Proof.
  intros Hp. revert q. induction Hp as [|x p Hx Hp IH]; intros q Hq Hc E.
  - destruct q as [|[b|n|b|s] q]; try done. apply list.Forall_cons in Hq as [Hn _]. destruct (number_head n (toks_text q) Hn) as (? & ? & E' & _). unfold toks_text in *. cbn in E. congruence.
  - destruct Hq as [|y q Hy Hq].
    { destruct x as [b|n|b|s]; try done. destruct (number_head n (toks_text p) Hx) as (? & ? & E' & _). unfold toks_text in *. cbn in E. congruence. }
    destruct x as [a|m|a|s], y as [b|n|b|s']; try done; cbn [clash] in Hc; cbn in E.
    + injection E as -> E. rewrite Z.eqb_refl in Hc. by apply (IH q).
    + apply negb_true_iff in Hc. destruct (number_head n (toks_text q) Hy) as (? & ? & E' & Hd%is_digitb_spec). unfold toks_text in E'. rewrite E' in E. congruence.
    + apply negb_true_iff in Hc. destruct (number_head m (toks_text p) Hx) as (? & ? & E' & Hd%is_digitb_spec). unfold toks_text in E'. rewrite E' in E. congruence.
    + rewrite !andb_true_iff in Hc. destruct Hc as [[H1 H2] Hc]. apply (same_number m n p q Hx Hy H1 H2) in E as [_ E]. by apply (IH q).
    + injection E as _ _ E. by apply (IH q).
Qed.

Lemma aligned_sound p q : Forall tok_ok p -> Forall tok_ok q -> aligned p q = true -> toks_text p = toks_text q -> holes p = holes q.
Proof.
  intros Hp. revert q. induction Hp as [|x p Hx Hp IH]; intros q Hq Ha E; [by destruct q|].
  destruct Hq as [|y q Hy Hq]; [by destruct x|]. unfold holes. cbn [map concat].
  destruct x as [a|m|a|s], y as [b|n|b|s']; try done; cbn [aligned] in Ha; rewrite ?andb_true_iff in Ha.
  - destruct Ha as [_ Ha]. cbn in E. injection E as _ E. by apply (IH q).
  - destruct Ha as [[H1 H2] Ha]. apply (same_number m n p q Hx Hy H1 H2) in E as [-> E]. f_equal. by apply (IH q).
  - assert (hex_byte a = hex_byte b /\ toks_text p = toks_text q) as [E1 E2] by (cbn in E; injection E as E1 E2 E3; split; [unfold hex_byte; congruence|done]).
    rewrite (hex_byte_inj a b Hx Hy E1). f_equal. by apply (IH q).
  - destruct Ha as [[H1 H2] Ha]. apply (same_string _ _ p q Hx Hy H1 H2) in E as [->%str_inj E]. f_equal. by apply (IH q).
Qed.

(** The text of an error determines it. *)
Definition tells {E} (fmt : E -> list piece) : Prop :=
  forall e e', pieces_ok (fmt e) -> pieces_ok (fmt e') -> text (fmt e) = text (fmt e') -> e = e'.

Lemma texts_clash p q : pieces_ok p -> pieces_ok q -> clash (toks p) (toks q) = true -> text p = text q -> False.
Proof. intros Hp Hq Hc E. apply (clash_sound _ _ Hp Hq Hc). by rewrite !toks_text_pieces. Qed.
Lemma texts_align p q : pieces_ok p -> pieces_ok q -> aligned (toks p) (toks q) = true -> text p = text q -> holes (toks p) = holes (toks q).
Proof. intros Hp Hq Hc E. apply (aligned_sound _ _ Hp Hq Hc). by rewrite !toks_text_pieces. Qed.

(** Two values taken apart: their texts clash, or they are the same case and the
    numbers agree. *)
Ltac tell He He' E :=
  first
    [ reflexivity
    | exfalso; refine (texts_clash _ _ He He' _ E); vm_compute; reflexivity
    | let H := fresh in
      pose proof (texts_align _ _ He He' ltac:(vm_compute; reflexivity) E) as H; vm_compute in H; first [discriminate H | injection H; intros; subst; reflexivity] ].
