(* ===== verification/ErrorText.v ===== *)
(** The texts of the errors of the workspace: every [impl fmt::Display] of an error
    type of the library crates, in the pieces of [Display].  The errors whose text
    depends on the operating system (those of the serial port probe) are left out.

    The claim is that the text of an error says which error it is, with every
    number in it; for errors that wrap others without a word of their own this
    holds as long as the wrapped texts differ, and fails for the gateway, where two
    wrappers show the same envelope error. *)
From S2P Require Import Prelude Utf8 Cursor Core Wire Bitchat LinkBitchat BridgeCore Msgpack LinkLxmf BridgeBitchat BridgeLxmf NostrHex NostrJson NostrParser BridgeNostr Fips Link BridgeRuntime Store Router Kiss RNode RnsWire RnsCrypto Loopback LinkRns SerialLink Config Gateway Display.
From stdpp Require Import strings.

Open Scope Z_scope.
Open Scope string_scope.
Open Scope list_scope.

Definition debug_PayloadKind (k : Wire.PayloadKind) : string :=
  match k with | Wire.HyfNativeV0 => "HyfNativeV0" | Wire.HyfBridgeMessageV0 => "HyfBridgeMessageV0" | Wire.ForeignRnsPacket => "ForeignRnsPacket" | Wire.ForeignLxmfMessage => "ForeignLxmfMessage" | Wire.ForeignBitChatPacket => "ForeignBitChatPacket" end.

Definition debug_ForeignNetworkKind (k : Core.ForeignNetworkKind) : string :=
  match k with | Core.Fips => "Fips" | Core.Rns => "Rns" | Core.Nostr => "Nostr" | Core.Lxmf => "Lxmf" | Core.BitChat => "BitChat" end.

Definition debug_BridgePayloadKind (k : BridgeCore.BridgePayloadKind) : string :=
  match k with | BridgeCore.TextUtf8 => "TextUtf8" | BridgeCore.OpaqueBytes => "OpaqueBytes" end.

Definition debug_LinkDriverErrorKind (k : Link.LinkDriverErrorKind) : string :=
  match k with | Link.LinkDown => "LinkDown" | Link.Backpressure => "Backpressure" | Link.TransientSend => "TransientSend" | Link.TransientReceive => "TransientReceive" | Link.OutputTooSmall => "OutputTooSmall" | Link.DriverFrameTooLarge => "FrameTooLarge" | Link.Protocol => "Protocol" | Link.Unsupported => "Unsupported" | Link.Fatal => "Fatal" end.

Definition fmt_ForeignEndpointError (e : Core.ForeignEndpointError) : list piece :=
  match e with
  | Core.Empty => [T "foreign endpoint is empty"]
  | Core.TooLong actual maximum => [T "foreign endpoint too long: actual "; D actual; T ", maximum "; D maximum]
  | Core.InvalidNetworkTag tag => [T "invalid foreign network tag: "; D tag]
  end.

Definition fmt_HyfWireError (e : Wire.HyfWireError) : list piece :=
  match e with
  | Wire.InvalidVersion actual => [T "invalid hyf wire version: "; D actual]
  | Wire.InvalidDestinationTag tag => [T "invalid hyf destination tag: "; D tag]
  | Wire.InvalidPayloadKind tag => [T "invalid hyf payload kind: "; D tag]
  | Wire.InputTooShort actual minimum => [T "hyf envelope too short: actual "; D actual; T ", minimum "; D minimum]
  | Wire.TrailingBytes actual expected => [T "hyf envelope has trailing bytes: actual "; D actual; T ", expected "; D expected]
  | Wire.EnvelopeTooLarge actual maximum => [T "hyf envelope too large: actual "; D actual; T ", maximum "; D maximum]
  | Wire.OutputBufferTooShort actual required => [T "hyf output buffer too short: actual "; D actual; T ", required "; D required]
  | Wire.InvalidExpiry => [T "invalid hyf envelope expiry"]
  | Wire.InvalidForeignEndpoint error => fmt_ForeignEndpointError error
  end.

Definition fmt_LinkError (e : Link.LinkError) : list piece :=
  match e with
  | Link.FrameTooLarge actual mtu => [T "link frame too large: actual "; D actual; T ", mtu "; D mtu]
  end.

Definition fmt_StoreError (e : Store.StoreError) : list piece :=
  match e with
  | Store.Full => [T "store is full"]
  | Store.Duplicate => [T "duplicate stored message"]
  | Store.Expired => [T "stored envelope is expired"]
  | Store.FrameTooLarge actual maximum => [T "stored frame too large: actual "; D actual; T ", maximum "; D maximum]
  | Store.InvalidEnvelope error => [T "invalid stored envelope: "] ++ fmt_HyfWireError error
  | Store.NotFound => [T "stored message not found"]
  | Store.OutputTooSmall actual required => [T "store output too small: actual "; D actual; T ", required "; D required]
  end.

Definition fmt_RouterError (e : Router.RouterError) : list piece :=
  match e with
  | Router.OutputTooSmall actual required => [T "router output too small: actual "; D actual; T ", required "; D required]
  | Router.TooManyLinks maximum => [T "too many router links: maximum "; D maximum]
  | Router.InvalidEnvelope error => fmt_HyfWireError error
  end.

Definition fmt_LoopbackError (e : Loopback.LoopbackError) : list piece :=
  match e with
  | Loopback.LinkIsDown link_id => [T "loopback link is down: "] ++ debug_tuple "LinkId" link_id
  | Loopback.FrameTooLarge actual mtu => [T "loopback frame too large: actual "; D actual; T ", mtu "; D mtu]
  | Loopback.InternalFrameTooLarge actual maximum => [T "loopback frame exceeds internal maximum: actual "; D actual; T ", maximum "; D maximum]
  | Loopback.QueueFull link_id capacity => [T "loopback queue full: link "] ++ debug_tuple "LinkId" link_id ++ [T ", capacity "; D capacity]
  | Loopback.OutputTooSmall actual required => [T "loopback output too small: actual "; D actual; T ", required "; D required]
  | Loopback.LinkMismatch expected actual => [T "loopback link mismatch: expected "] ++ debug_tuple "LinkId" expected ++ [T ", actual "] ++ debug_tuple "LinkId" actual
  end.

Definition fmt_KissError (e : Kiss.KissError) : list piece :=
  match e with
  | Kiss.EncodedLengthOverflow => [T "encoded kiss length overflow"]
  | Kiss.OutputBufferTooShort actual required => [T "kiss output buffer too short: actual "; D actual; T ", required "; D required]
  | Kiss.FrameTooLarge actual maximum => [T "kiss frame too large: actual "; D actual; T ", maximum "; D maximum]
  | Kiss.MalformedEscape byte => [T "malformed kiss escape byte: 0x"; X2 byte]
  end.

Definition fmt_RNodeError (e : RNode.RNodeError) : list piece :=
  match e with
  | RNode.KissErr error => [T "kiss error: "] ++ fmt_KissError error
  | RNode.InvalidFrequencyHz actual minimum maximum => [T "invalid frequency hz: actual "; D actual; T ", minimum "; D minimum; T ", maximum "; D maximum]
  | RNode.InvalidBandwidthHz actual minimum maximum => [T "invalid bandwidth hz: actual "; D actual; T ", minimum "; D minimum; T ", maximum "; D maximum]
  | RNode.InvalidTxPowerDbm actual maximum => [T "invalid tx power dbm: actual "; D actual; T ", maximum "; D maximum]
  | RNode.InvalidSpreadingFactor actual minimum maximum => [T "invalid spreading factor: actual "; D actual; T ", minimum "; D minimum; T ", maximum "; D maximum]
  | RNode.InvalidCodingRate actual minimum maximum => [T "invalid coding rate: actual "; D actual; T ", minimum "; D minimum; T ", maximum "; D maximum]
  | RNode.InvalidPayloadLength command actual expected => [T "invalid rnode payload length for command 0x"; X2 command; T ": actual "; D actual; T ", expected "; D expected]
  end.

Definition fmt_RnsCoreError (e : RnsWire.RnsCoreError) : list piece :=
  match e with
  | RnsWire.DestinationAppNameContainsDot => [T "destination app name contains dot"]
  | RnsWire.DestinationAspectContainsDot => [T "destination aspect contains dot"]
  end.

Definition fmt_RnsCryptoError (e : RnsCrypto.RnsCryptoError) : list piece :=
  match e with
  | RnsCrypto.InvalidPublicIdentity => [T "invalid public identity"]
  | RnsCrypto.InvalidSecretIdentity => [T "invalid secret identity"]
  | RnsCrypto.InvalidSignature => [T "invalid signature"]
  | RnsCrypto.EmptyHkdfOutput => [T "empty hkdf output"]
  | RnsCrypto.EmptyHkdfInputKeyMaterial => [T "empty hkdf input key material"]
  | RnsCrypto.InvalidHkdfLength => [T "invalid hkdf length"]
  | RnsCrypto.LengthOverflow => [T "length overflow"]
  | RnsCrypto.OutputBufferTooShort actual required => [T "output buffer too short: actual "; D actual; T ", required "; D required]
  | RnsCrypto.InvalidPadding => [T "invalid padding"]
  | RnsCrypto.InvalidToken => [T "invalid token"]
  | RnsCrypto.InvalidTokenKeyLength actual => [T "invalid token key length: actual "; D actual]
  | RnsCrypto.AuthenticationFailed => [T "authentication failed"]
  | RnsCrypto.RandomSourceFailed => [T "random source failed"]
  | RnsCrypto.CipherFailed => [T "cipher failed"]
  end.

Definition fmt_RnsWireError (e : RnsWire.RnsWireError) : list piece :=
  match e with
  | RnsWire.UnsupportedPacketAccessCode => [T "unsupported packet access code"]
  | RnsWire.InvalidFlags => [T "invalid flags"]
  | RnsWire.InvalidHeaderType => [T "invalid header type"]
  | RnsWire.InvalidTransportType => [T "invalid transport type"]
  | RnsWire.InvalidDestinationType => [T "invalid destination type"]
  | RnsWire.InvalidPacketType => [T "invalid packet type"]
  | RnsWire.PacketTooShort actual minimum => [T "packet too short: actual "; D actual; T ", minimum "; D minimum]
  | RnsWire.PacketTooLarge actual maximum => [T "packet too large: actual "; D actual; T ", maximum "; D maximum]
  | RnsWire.MissingTransportId => [T "missing transport id"]
  | RnsWire.UnexpectedTransportId => [T "unexpected transport id"]
  | RnsWire.OutputBufferTooShort actual required => [T "output buffer too short: actual "; D actual; T ", required "; D required]
  | RnsWire.MalformedAnnounce => [T "malformed announce"]
  | RnsWire.InvalidPublicIdentity => [T "invalid public identity"]
  | RnsWire.InvalidSignature => [T "invalid signature"]
  | RnsWire.CryptoFailed => [T "crypto failed"]
  | RnsWire.InvalidIfacSize actual maximum => [T "invalid ifac size: actual "; D actual; T ", maximum "; D maximum]
  | RnsWire.InvalidIfacKey => [T "invalid ifac key"]
  | RnsWire.MissingPacketAccessCode => [T "missing packet access code"]
  | RnsWire.InvalidPacketAccessCode => [T "invalid packet access code"]
  | RnsWire.DestinationMismatch => [T "destination mismatch"]
  | RnsWire.TimestampOverflow => [T "timestamp overflow"]
  | RnsWire.RandomSourceFailed => [T "random source failed"]
  | RnsWire.InvalidDestinationName => [T "invalid destination name"]
  end.

Definition fmt_HyfLinkRnsError (e : LinkRns.HyfLinkRnsError) : list piece :=
  match e with
  | LinkRns.RnsWire error => fmt_RnsWireError error
  | LinkRns.HyfWire error => fmt_HyfWireError error
  | LinkRns.NotForeignRnsPacket => [T "hyf envelope payload is not a foreign rns packet"]
  end.

Definition fmt_RNodeSerialError (e : SerialLink.RNodeSerialError) : list piece :=
  match e with
  | SerialLink.InvalidMtu mtu => [T "invalid rnode serial mtu: "; D mtu]
  | SerialLink.InvalidFrameCapacity mtu capacity => [T "rnode serial frame capacity too small: mtu "; D mtu; T ", capacity "; D capacity]
  | SerialLink.FrameTooLarge actual mtu => [T "rnode serial frame too large: actual "; D actual; T ", mtu "; D mtu]
  | SerialLink.ReadBufferTooSmall actual required => [T "rnode serial read buffer too small: actual "; D actual; T ", required "; D required]
  | SerialLink.WriteBufferFull required capacity => [T "rnode serial write buffer full: required "; D required; T ", capacity "; D capacity]
  | SerialLink.InjectedReadFailure => [T "injected rnode serial read failure"]
  | SerialLink.InjectedWriteFailure => [T "injected rnode serial write failure"]
  | SerialLink.SerialOpenFailure => [T "rnode serial port open failure"]
  | SerialLink.SerialReadFailure => [T "rnode serial port read failure"]
  | SerialLink.SerialWriteFailure => [T "rnode serial port write failure"]
  | SerialLink.FlowControlBlocked => [T "rnode serial flow control blocked"]
  | SerialLink.RawRnsModeRequired => [T "rnode serial raw rns driver requires raw rns mode"]
  | SerialLink.RnsWrapParamsRequired => [T "rnode serial raw rns mode requires wrap params"]
  | SerialLink.RnsWrapParamsUnexpected => [T "rnode serial hyf envelope mode does not accept rns wrap params"]
  | SerialLink.RnsWrapParamsUnavailable => [T "rnode serial raw rns provider did not return wrap params"]
  | SerialLink.KissFailure error => [T "kiss error: "] ++ fmt_KissError error
  | SerialLink.RNodeFailure error => [T "rnode error: "] ++ fmt_RNodeError error
  | SerialLink.RnsFailure error => [T "rns packet error: "] ++ fmt_HyfLinkRnsError error
  | SerialLink.HyfWireFailure error => [T "hyf wire error: "] ++ fmt_HyfWireError error
  end.

Definition fmt_BitchatError (e : Bitchat.BitchatError) : list piece :=
  match e with
  | Bitchat.PacketTooShort actual minimum => [T "BitChat packet too short: actual "; D actual; T ", minimum "; D minimum]
  | Bitchat.PacketTooLarge actual maximum => [T "BitChat packet too large: actual "; D actual; T ", maximum "; D maximum]
  | Bitchat.UnknownVersion version => [T "unknown BitChat packet version: "; D version]
  | Bitchat.ReservedFlags flags => [T "BitChat flags contain reserved bits: 0x"; X2 flags]
  | Bitchat.V1RouteFlag => [T "BitChat v1 packets cannot contain routes"]
  | Bitchat.PayloadTooLarge actual maximum => [T "BitChat payload too large: actual "; D actual; T ", maximum "; D maximum]
  | Bitchat.RouteTooManyHops actual maximum => [T "BitChat route has too many hops: actual "; D actual; T ", maximum "; D maximum]
  | Bitchat.MissingField field needed remaining => [T "BitChat packet is missing "; F field; T ": needed "; D needed; T ", remaining "; D remaining]
  | Bitchat.TrailingBytes remaining => [T "BitChat packet has trailing bytes: remaining "; D remaining]
  | Bitchat.CompressedOriginalLenMissing actual minimum => [T "BitChat compressed payload missing original length: actual "; D actual; T ", minimum "; D minimum]
  | Bitchat.CompressedOriginalLenZero => [T "BitChat compressed original length is zero"]
  | Bitchat.CompressedOriginalLenTooLarge actual maximum => [T "BitChat compressed original length too large: actual "; D actual; T ", maximum "; D maximum]
  | Bitchat.CompressedBodyEmpty => [T "BitChat compressed payload body is empty"]
  | Bitchat.UnsupportedEncodeVersion version => [T "unsupported BitChat encode version: "; D version]
  | Bitchat.UnsupportedCompressedEncode => [T "BitChat encoder only supports plain payloads"]
  | Bitchat.InvalidRouteByteLength hop_count actual expected => [T "BitChat route byte length mismatch: hop_count "; D hop_count; T ", actual "; D actual; T ", expected "; D expected]
  | Bitchat.LengthOverflow => [T "BitChat packet length overflow"]
  | Bitchat.OutputTooSmall needed available => [T "BitChat output buffer too small: needed "; D needed; T ", available "; D available]
  end.

Definition fmt_HyfLinkBitchatError (e : LinkBitchat.HyfLinkBitchatError) : list piece :=
  match e with
  | LinkBitchat.Bitchat error => fmt_BitchatError error
  | LinkBitchat.HyfWire error => fmt_HyfWireError error
  | LinkBitchat.PacketTooLargeForCarrier actual maximum => [T "BitChat packet too large for HYF carrier: actual "; D actual; T ", maximum "; D maximum]
  | LinkBitchat.WrongPayloadKind actual => [T "hyf envelope payload kind is not foreign bitchat: actual "; T (debug_PayloadKind actual)]
  end.

Definition fmt_LxmfError (e : Msgpack.LxmfError) : list piece :=
  match e with
  | Msgpack.MessageTooShort actual minimum => [T "LXMF message too short: actual "; D actual; T ", minimum "; D minimum]
  | Msgpack.MessageTooLarge actual maximum => [T "LXMF message too large: actual "; D actual; T ", maximum "; D maximum]
  | Msgpack.PayloadTooLarge actual maximum => [T "LXMF payload too large: actual "; D actual; T ", maximum "; D maximum]
  | Msgpack.InvalidPayloadArrayLen actual => [T "invalid LXMF payload array length: "; D actual]
  | Msgpack.UnsupportedMsgpackType marker => [T "unsupported LXMF MessagePack marker: 0x"; X2 marker]
  | Msgpack.MsgpackTruncated => [T "LXMF MessagePack input is truncated"]
  | Msgpack.MsgpackTrailingBytes => [T "LXMF MessagePack input has trailing bytes"]
  | Msgpack.MsgpackDepthExceeded maximum => [T "LXMF MessagePack depth exceeds maximum "; D maximum]
  | Msgpack.InvalidTimestamp => [T "invalid LXMF timestamp"]
  | Msgpack.TitleTooLarge actual maximum => [T "LXMF title too large: actual "; D actual; T ", maximum "; D maximum]
  | Msgpack.ContentTooLarge actual maximum => [T "LXMF content too large: actual "; D actual; T ", maximum "; D maximum]
  | Msgpack.FieldsTooLarge actual maximum => [T "LXMF fields too large: actual "; D actual; T ", maximum "; D maximum]
  | Msgpack.StampTooLarge actual maximum => [T "LXMF stamp too large: actual "; D actual; T ", maximum "; D maximum]
  | Msgpack.OutputTooSmall needed available => [T "LXMF output buffer too small: needed "; D needed; T ", available "; D available]
  end.

Definition fmt_HyfLinkLxmfError (e : LinkLxmf.HyfLinkLxmfError) : list piece :=
  match e with
  | LinkLxmf.LxmfFailed error => fmt_LxmfError error
  | LinkLxmf.HyfWire error => fmt_HyfWireError error
  | LinkLxmf.WrongPayloadKind actual => [T "hyf envelope payload kind is not foreign lxmf: actual "; T (debug_PayloadKind actual)]
  end.

Definition fmt_NostrError (e : NostrHex.NostrError) : list piece :=
  match e with
  | NostrHex.ContentTooLarge actual maximum => [T "nostr content too large: length "; D actual; T ", maximum "; D maximum]
  | NostrHex.Crypto => [T "nostr cryptographic operation failed"]
  | NostrHex.EnvelopeTooLarge actual maximum => [T "hyf envelope too large for nostr content: length "; D actual; T ", maximum "; D maximum]
  | NostrHex.EventIdMismatch => [T "nostr event id mismatch"]
  | NostrHex.HexLength expected actual => [T "hex length mismatch: expected "; D expected; T ", actual "; D actual]
  | NostrHex.InvalidSignature => [T "invalid nostr signature"]
  | NostrHex.InvalidHexChar index byte => [T "invalid hex byte 0x"; X2 byte; T " at index "; D index]
  | NostrHex.InvalidSubscriptionId => [T "invalid nostr subscription id"]
  | NostrHex.MalformedMessage => [T "malformed nostr message"]
  | NostrHex.MalformedEnvelope => [T "malformed hyf envelope"]
  | NostrHex.MissingRequiredTag tag => [T "missing required nostr tag "; F tag]
  | NostrHex.NonCanonicalHex index byte => [T "non-canonical hex byte 0x"; X2 byte; T " at index "; D index]
  | NostrHex.OddHexLength n => [T "odd hex length "; D n]
  | NostrHex.OutputTooSmall needed available => [T "output too small: needed "; D needed; T ", available "; D available]
  | NostrHex.PublicKeyMismatch => [T "nostr public key does not match secret"]
  | NostrHex.RelayEventStoreFull capacity => [T "fake nostr relay event store full: capacity "; D capacity]
  | NostrHex.RelayOutputFull capacity => [T "fake nostr relay output queue full: capacity "; D capacity]
  | NostrHex.RelaySubscriptionFull capacity => [T "fake nostr relay subscription store full: capacity "; D capacity]
  | NostrHex.StoredStringTooLarge actual maximum => [T "stored nostr string too large: length "; D actual; T ", maximum "; D maximum]
  | NostrHex.SubscriptionIdTooLong n maximum => [T "nostr subscription id too long: length "; D n; T ", maximum "; D maximum]
  | NostrHex.TagCountTooLarge actual maximum => [T "nostr tag count too large: count "; D actual; T ", maximum "; D maximum]
  | NostrHex.TagEmpty => [T "nostr tag is empty"]
  | NostrHex.TagValueCountTooLarge actual maximum => [T "nostr tag value count too large: count "; D actual; T ", maximum "; D maximum]
  | NostrHex.TagValueTooLarge actual maximum => [T "nostr tag value too large: length "; D actual; T ", maximum "; D maximum]
  | NostrHex.UnexpectedKind expected actual => [T "unexpected nostr kind: expected "; D expected; T ", actual "; D actual]
  | NostrHex.UnsupportedMessage => [T "unsupported nostr message"]
  | NostrHex.Unsupported => [T "unsupported nostr operation"]
  | NostrHex.Utf8 => [T "invalid utf-8 output"]
  end.

Definition fmt_FipsError (e : Fips.FipsError) : list piece :=
  match e with
  | Fips.FipsLinkDown => [T "FIPS link is down"]
  | Fips.UnknownPeer => [T "FIPS peer is not registered"]
  | Fips.DuplicatePeer => [T "FIPS peer is already registered"]
  | Fips.PeerTableFull capacity => [T "FIPS peer table is full at capacity "; D capacity]
  | Fips.InvalidEndpoint => [T "FIPS endpoint is invalid"]
  | Fips.FipsFrameTooLarge n mtu => [T "FIPS frame length "; D n; T " exceeds MTU "; D mtu]
  | Fips.OutboundFull capacity => [T "FIPS outbound queue is full at capacity "; D capacity]
  | Fips.InboundFull capacity => [T "FIPS inbound queue is full at capacity "; D capacity]
  | Fips.FipsOutputTooSmall needed available => [T "FIPS output buffer length "; D available; T " is smaller than required length "; D needed]
  | Fips.ControlResponseTooLarge n maximum => [T "FIPS control response length "; D n; T " exceeds maximum "; D maximum]
  | Fips.MalformedControlStatus => [T "FIPS control status is malformed"]
  | Fips.FipsUtf8 => [T "FIPS control response is not valid UTF-8"]
  end.

Definition fmt_BridgeError (e : BridgeCore.BridgeError) : list piece :=
  match e with
  | BridgeCore.InvalidVersion actual => [T "invalid bridge message version: "; D actual]
  | BridgeCore.ZeroRoomId => [T "bridge room id is zero"]
  | BridgeCore.ZeroMessageId => [T "bridge message id is zero"]
  | BridgeCore.UnknownAuthorKind tag => [T "unknown bridge author kind: "; D tag]
  | BridgeCore.UnexpectedHyfAuthorNetworkTag tag => [T "HYF bridge author has nonzero network tag: "; D tag]
  | BridgeCore.InvalidForeignNetworkTag tag => [T "invalid bridge foreign network tag: "; D tag]
  | BridgeCore.UnsupportedAuthorNetwork network => [T "unsupported bridge author network: "; T (debug_ForeignNetworkKind network)]
  | BridgeCore.InvalidAuthorIdLen n => [T "invalid bridge author id length: "; D n]
  | BridgeCore.UnknownPayloadKind tag => [T "unknown bridge payload kind: "; D tag]
  | BridgeCore.InvalidTextUtf8 => [T "bridge text payload is not valid UTF-8"]
  | BridgeCore.PayloadTooLarge actual maximum => [T "bridge payload too large: actual "; D actual; T ", maximum "; D maximum]
  | BridgeCore.MessageTooLarge actual maximum => [T "bridge message too large: actual "; D actual; T ", maximum "; D maximum]
  | BridgeCore.InputTooShort actual minimum => [T "bridge message too short: actual "; D actual; T ", minimum "; D minimum]
  | BridgeCore.TrailingBytes actual expected => [T "bridge message has trailing bytes: actual "; D actual; T ", expected "; D expected]
  | BridgeCore.OutputTooSmall actual required => [T "bridge output buffer too small: actual "; D actual; T ", required "; D required]
  | BridgeCore.WrongPayloadKind actual => [T "hyf envelope payload kind is not bridge message v0: actual "; T (debug_PayloadKind actual)]
  | BridgeCore.EnvelopeMessageIdMismatch => [T "bridge envelope message id mismatch"]
  | BridgeCore.EnvelopeRoomMismatch => [T "bridge envelope room mismatch"]
  | BridgeCore.HyfWire error => fmt_HyfWireError error
  end.

Definition fmt_NostrBridgeError (e : BridgeNostr.NostrBridgeError) : list piece :=
  match e with
  | BridgeNostr.NostrFailed error => fmt_NostrError error
  | BridgeNostr.BridgeFailed error => fmt_BridgeError error
  | BridgeNostr.WrongKind actual => [T "wrong HYF bridge Nostr event kind: "; D actual]
  | BridgeNostr.NostrTagMissing tag => [T "missing HYF bridge Nostr tag: "; F tag]
  | BridgeNostr.CommunityTagMismatch => [T "HYF bridge Nostr community tag mismatch"]
  | BridgeNostr.NostrAuthorPubkeyMismatch => [T "HYF bridge Nostr author pubkey mismatch"]
  end.

Definition fmt_LxmfBridgeError (e : BridgeLxmf.LxmfBridgeError) : list piece :=
  match e with
  | BridgeLxmf.LxmfFailed error => fmt_LxmfError error
  | BridgeLxmf.BridgeFailed error => fmt_BridgeError error
  | BridgeLxmf.NonEmptyTitle => [T "LXMF bridge title is not empty"]
  | BridgeLxmf.NonEmptyFields => [T "LXMF bridge fields map is not empty"]
  | BridgeLxmf.StampPresent => [T "LXMF bridge stamp is present"]
  | BridgeLxmf.EmptyContent => [T "LXMF bridge content is empty"]
  | BridgeLxmf.InvalidContentUtf8 => [T "LXMF bridge content is not valid UTF-8"]
  | BridgeLxmf.NegativeTimestamp => [T "LXMF bridge timestamp is negative"]
  | BridgeLxmf.TimestampOverflow => [T "LXMF bridge timestamp overflows u64 ms"]
  | BridgeLxmf.UnsupportedBridgePayloadKind kind => [T "unsupported bridge payload kind for LXMF egress: "; T (debug_BridgePayloadKind kind)]
  end.

Definition fmt_BitchatBridgeError (e : BridgeBitchat.BitchatBridgeError) : list piece :=
  match e with
  | BridgeBitchat.BitchatFailed error => fmt_BitchatError error
  | BridgeBitchat.BridgeFailed error => fmt_BridgeError error
  | BridgeBitchat.UnsupportedVersion version => [T "unsupported BitChat bridge packet version: "; D (Bitchat.wire_value version)]
  | BridgeBitchat.UnsupportedPacketType packet_type => [T "unsupported BitChat bridge packet type: "; T "0x"; X2 packet_type]
  | BridgeBitchat.SignedPacket => [T "signed BitChat bridge packets are rejected"]
  | BridgeBitchat.CompressedPacket => [T "compressed BitChat bridge packets are rejected"]
  | BridgeBitchat.DirectedPacket => [T "directed BitChat bridge packets are rejected"]
  | BridgeBitchat.RoutedPacket => [T "routed BitChat bridge packets are rejected"]
  | BridgeBitchat.RsrPacket => [T "RSR BitChat bridge packets are rejected"]
  | BridgeBitchat.EmptyPayload => [T "BitChat bridge payload is empty"]
  | BridgeBitchat.InvalidPayloadUtf8 => [T "BitChat bridge payload is not valid UTF-8"]
  | BridgeBitchat.TimestampZero => [T "BitChat bridge timestamp is zero"]
  | BridgeBitchat.UnsupportedBridgePayloadKind kind => [T "unsupported bridge payload kind for BitChat egress: "; T (debug_BridgePayloadKind kind)]
  end.

Definition fmt_BridgeRuntimeError (e : BridgeRuntime.BridgeRuntimeError) : list piece :=
  match e with
  | BridgeRuntime.RuntimeBitchat error => fmt_BitchatBridgeError error
  | BridgeRuntime.RuntimeBridge error => fmt_BridgeError error
  | BridgeRuntime.DedupeCapacityZero => [T "bridge dedupe capacity is zero"]
  | BridgeRuntime.RuntimeLxmf error => fmt_LxmfBridgeError error
  | BridgeRuntime.RuntimeNostr error => fmt_NostrBridgeError error
  | BridgeRuntime.RuntimeOutputTooSmall actual required => [T "bridge runtime output buffer too small: actual "; D actual; T ", required "; D required]
  end.

Definition fmt_ConfigError (e : Config.ConfigError) : list piece :=
  match e with
  | Config.InvalidNodeId => [T "invalid gateway node id"]
  | Config.InvalidRouterLinkCapacity => [T "invalid router link capacity"]
  | Config.InvalidRouterDedupeCapacity => [T "invalid router dedupe capacity"]
  | Config.InvalidStoreCapacity => [T "invalid store capacity"]
  | Config.InvalidLocalCommunity => [T "invalid local community id"]
  | Config.DuplicateLocalCommunity community_id => [T "duplicate local community id "] ++ debug_tuple "CommunityId" community_id
  | Config.InvalidLinkMtu link_id => [T "invalid link mtu for "] ++ debug_tuple "LinkId" link_id
  | Config.DuplicateLinkId link_id => [T "duplicate link id "] ++ debug_tuple "LinkId" link_id
  | Config.LinkCountExceedsRouter links maximum => [T "link count exceeds router capacity: links "; D links; T ", maximum "; D maximum]
  | Config.LinkCountExceedsRouterCommandCapacity links maximum => [T "link count exceeds router command capacity: links "; D links; T ", maximum "; D maximum]
  end.

Definition fmt_GatewayError (e : Gateway.GatewayError) : list piece :=
  match e with
  | Gateway.ConfigFailure error => fmt_ConfigError error
  | Gateway.RouterFailure error => fmt_RouterError error
  | Gateway.StoreFailure error => fmt_StoreError error
  | Gateway.WireFailure error => fmt_HyfWireError error
  | Gateway.LoopbackFailure error => fmt_LoopbackError error
  | Gateway.UnsupportedLink link_id => [T "unsupported gateway link "] ++ debug_tuple "LinkId" link_id
  | Gateway.Driver link_id kind => [T "gateway driver error on link "] ++ debug_tuple "LinkId" link_id ++ [T ": "; T (debug_LinkDriverErrorKind kind)]
  | Gateway.RuntimeCapacity name configured maximum => [T "gateway "; F name; T " capacity mismatch: configured "; D configured; T ", maximum "; D maximum]
  end.

(** ** Each type *)
(** Every error, and every enumeration inside one, by cases. *)
Ltac take_apart :=
  repeat match goal with
  | x : Core.ForeignEndpointError |- _ => destruct x
  | x : Wire.HyfWireError |- _ => destruct x
  | x : Link.LinkError |- _ => destruct x
  | x : Store.StoreError |- _ => destruct x
  | x : Router.RouterError |- _ => destruct x
  | x : Kiss.KissError |- _ => destruct x
  | x : RNode.RNodeError |- _ => destruct x
  | x : SerialLink.RNodeSerialError |- _ => destruct x
  | x : Fips.FipsError |- _ => destruct x
  | x : RnsWire.RnsCoreError |- _ => destruct x
  | x : RnsCrypto.RnsCryptoError |- _ => destruct x
  | x : RnsWire.RnsWireError |- _ => destruct x
  | x : LinkRns.HyfLinkRnsError |- _ => destruct x
  | x : Bitchat.BitchatError |- _ => destruct x
  | x : LinkBitchat.HyfLinkBitchatError |- _ => destruct x
  | x : Msgpack.LxmfError |- _ => destruct x
  | x : LinkLxmf.HyfLinkLxmfError |- _ => destruct x
  | x : NostrHex.NostrError |- _ => destruct x
  | x : BridgeCore.BridgeError |- _ => destruct x
  | x : BridgeNostr.NostrBridgeError |- _ => destruct x
  | x : BridgeLxmf.LxmfBridgeError |- _ => destruct x
  | x : BridgeBitchat.BitchatBridgeError |- _ => destruct x
  | x : Wire.PayloadKind |- _ => destruct x
  | x : Core.ForeignNetworkKind |- _ => destruct x
  | x : BridgeCore.BridgePayloadKind |- _ => destruct x
  | x : Bitchat.BitchatVersion |- _ => destruct x
  end.

Lemma foreign_endpoint_tells : tells fmt_ForeignEndpointError.
Proof. intros ? ? He He' E; take_apart; tell He He' E. Qed.
Lemma wire_tells : tells fmt_HyfWireError.
Proof. intros ? ? He He' E; take_apart; tell He He' E. Qed.
Lemma link_tells : tells fmt_LinkError.
Proof. intros ? ? He He' E; take_apart; tell He He' E. Qed.
Lemma store_tells : tells fmt_StoreError.
Proof. intros ? ? He He' E; take_apart; tell He He' E. Qed.
Lemma router_tells : tells fmt_RouterError.
Proof. intros ? ? He He' E; take_apart; tell He He' E. Qed.
Lemma kiss_tells : tells fmt_KissError.
Proof. intros ? ? He He' E; take_apart; tell He He' E. Qed.
Lemma rnode_tells : tells fmt_RNodeError.
Proof. intros ? ? He He' E; take_apart; tell He He' E. Qed.
Lemma serial_tells : tells fmt_RNodeSerialError.
Proof. intros ? ? He He' E; take_apart; tell He He' E. Qed.
Lemma fips_tells : tells fmt_FipsError.
Proof. intros ? ? He He' E; take_apart; tell He He' E. Qed.
Lemma core_tells : tells fmt_RnsCoreError.
Proof. intros ? ? He He' E; take_apart; tell He He' E. Qed.
Lemma crypto_tells : tells fmt_RnsCryptoError.
Proof. intros ? ? He He' E; take_apart; tell He He' E. Qed.
Lemma rns_wire_tells : tells fmt_RnsWireError.
Proof. intros ? ? He He' E; take_apart; tell He He' E. Qed.
Lemma link_rns_tells : tells fmt_HyfLinkRnsError.
Proof. intros ? ? He He' E; take_apart; tell He He' E. Qed.
Lemma bitchat_tells : tells fmt_BitchatError.
Proof. intros ? ? He He' E; take_apart; tell He He' E. Qed.
Lemma link_bitchat_tells : tells fmt_HyfLinkBitchatError.
Proof. intros ? ? He He' E; take_apart; tell He He' E. Qed.
Lemma lxmf_tells : tells fmt_LxmfError.
Proof. intros ? ? He He' E; take_apart; tell He He' E. Qed.
Lemma link_lxmf_tells : tells fmt_HyfLinkLxmfError.
Proof. intros ? ? He He' E; take_apart; tell He He' E. Qed.
Lemma nostr_tells : tells fmt_NostrError.
Proof. intros ? ? He He' E; take_apart; tell He He' E. Qed.
Lemma bridge_tells : tells fmt_BridgeError.
Proof. intros ? ? He He' E; take_apart; tell He He' E. Qed.
Lemma nostr_bridge_tells : tells fmt_NostrBridgeError.
Proof. intros ? ? He He' E; take_apart; tell He He' E. Qed.
Lemma lxmf_bridge_tells : tells fmt_LxmfBridgeError.
Proof. intros ? ? He He' E; take_apart; tell He He' E. Qed.
Lemma bitchat_bridge_tells : tells fmt_BitchatBridgeError.
Proof. intros ? ? He He' E; take_apart; tell He He' E. Qed.

(** ** Claims *)
(** The text of an error says which error it is and every number, byte and name
    in it: this holds of each error type of the wire formats, the links, the store,
    the router, the protocols and their bridges, wrapped errors included; it fails
    for the gateway, which shows an envelope error of its router and one of its own
    in the same words. *)
Theorem error_texts_identify :
  (tells fmt_ForeignEndpointError /\ tells fmt_HyfWireError /\ tells fmt_LinkError /\ tells fmt_StoreError /\ tells fmt_RouterError) /\
  (tells fmt_KissError /\ tells fmt_RNodeError /\ tells fmt_RNodeSerialError /\ tells fmt_FipsError) /\
  (tells fmt_RnsCoreError /\ tells fmt_RnsCryptoError /\ tells fmt_RnsWireError /\ tells fmt_HyfLinkRnsError) /\
  (tells fmt_BitchatError /\ tells fmt_HyfLinkBitchatError /\ tells fmt_LxmfError /\ tells fmt_HyfLinkLxmfError /\ tells fmt_NostrError) /\
  (tells fmt_BridgeError /\ tells fmt_NostrBridgeError /\ tells fmt_LxmfBridgeError /\ tells fmt_BitchatBridgeError) /\
  (forall error, text (fmt_GatewayError (Gateway.RouterFailure (Router.InvalidEnvelope error))) = text (fmt_GatewayError (Gateway.WireFailure error))).
Proof.
  split_and!; [exact foreign_endpoint_tells|exact wire_tells|exact link_tells|exact store_tells|exact router_tells
    |exact kiss_tells|exact rnode_tells|exact serial_tells|exact fips_tells
    |exact core_tells|exact crypto_tells|exact rns_wire_tells|exact link_rns_tells
    |exact bitchat_tells|exact link_bitchat_tells|exact lxmf_tells|exact link_lxmf_tells|exact nostr_tells
    |exact bridge_tells|exact nostr_bridge_tells|exact lxmf_bridge_tells|exact bitchat_bridge_tells|done].
Qed.
