(* ===== verification/Fixtures.v ===== *)
(** [hyf_rns_conformance::fixtures]: the files of recorded test vectors
    (src/crates/hyf_rns_conformance/src/fixtures.rs): what a file must say of where
    it comes from, the hexadecimal its vectors are written in, and the manifest that
    lists the files with their checksums.

    [serde_json::from_str] into a type of the crate is the parameter [from_str], an
    error being its text.  The claims are that the decoder inverts lower-case
    hexadecimal and refuses all else, and that a manifest passes exactly when it is
    the list of the expected files, in any order, each with the SHA-256 of its
    contents. *)
From S2P Require Import Kiss RNode RnsWire RnsCrypto Prelude Utf8 Cursor NostrHex NostrJson NostrParser Display ErrorText.
From stdpp Require Import strings.

Open Scope Z_scope.

Definition EXPECTED_FIXTURE_SCHEMA : list Z := str "hyf.rns.fixture_case.v1".
Definition EXPECTED_FIXTURE_CASES_SCHEMA : list Z := str "hyf.rns.fixture_cases.v1".
Definition EXPECTED_MANIFEST_SCHEMA : list Z := str "hyf.rns.fixture_manifest.v1".
Definition PROFILE_0_PACKET_ANNOUNCE : list Z := str "profile_0_packet_announce".
Definition PROFILE_1_KISS_RNODE : list Z := str "profile_1_kiss_rnode".
Definition PROFILE_2_CRYPTO_IFAC : list Z := str "profile_2_crypto_ifac".
Definition EXPECTED_PROFILE : list Z := PROFILE_0_PACKET_ANNOUNCE.
Definition EXPECTED_RETICULUM_COMMIT : list Z := str "422dc05549bf28f45e9b9c5172336a1ba4df0ec0".
Definition EXPECTED_RETICULUM_REPO : list Z := str "https://github.com/markqvist/Reticulum".
Definition RETICULUM_COMMIT_LEN : Z := 40.
Definition ZERO_RETICULUM_COMMIT : list Z := str "0000000000000000000000000000000000000000".

Record ReticulumProvenance := mk_provenance { rp_repo : list Z; rp_commit : list Z }.
Record FixtureFile (T : Type) := mk_fixture_file { ff_schema : list Z; ff_profile : list Z; ff_reticulum : ReticulumProvenance; ff_case : T }.
Record FixtureCasesFile (T : Type) := mk_cases_file { fc_schema : list Z; fc_profile : list Z; fc_reticulum : ReticulumProvenance; fc_cases : list T }.
Record ManifestEntry := mk_entry { me_file : list Z; me_category : list Z; me_case_count : Z; me_sha256 : list Z }.
Record ManifestFile := mk_manifest_file {
  mn_schema : list Z;
  mn_profile : list Z;
  mn_reticulum : ReticulumProvenance;
  mn_generated_by : list Z;
  mn_generated_at : list Z;
  mn_fixtures : list ManifestEntry;
}.
Record ExpectedManifestEntry := mk_expected { ee_file : list Z; ee_category : list Z; ee_case_count : Z; ee_contents : list Z }.
Arguments mk_fixture_file {T}. Arguments ff_schema {T}. Arguments ff_profile {T}. Arguments ff_reticulum {T}. Arguments ff_case {T}.
Arguments mk_cases_file {T}. Arguments fc_schema {T}. Arguments fc_profile {T}. Arguments fc_reticulum {T}. Arguments fc_cases {T}.

Inductive FixtureError :=
| FixtureJson (error : list Z)
| FixtureKiss (error : KissError)
| FixtureRNode (error : RNodeError)
| FixtureCore (error : RnsCoreError)
| FixtureCrypto (error : RnsCryptoError)
| FixtureWire (error : RnsWireError)
| SchemaMismatch (actual expected : list Z)
| ProfileMismatch (actual expected : list Z)
| ReticulumRepoMismatch (actual expected : list Z)
| InvalidReticulumCommit (commit : list Z)
| ReticulumCommitMismatch (actual expected : list Z)
| MissingManifestMetadata (field : list Z)
| FixtureHexLength (actual expected : Z)
| FixtureInvalidHex
| FixtureOddHexLength
| MissingManifestEntry (file : list Z)
| DuplicateManifestEntry (file : list Z)
| UnexpectedManifestEntry (file : list Z)
| ManifestEntryMismatch (file : list Z)
| ManifestChecksumMismatch (file : list Z)
| UnexpectedFixtureValue (field value : list Z).

(** [to_string] *)
Definition fixture_error_text (e : FixtureError) : list Z :=
  match e with
  | FixtureJson error => str "json error: " ++ error
  | FixtureKiss error => str "kiss error: " ++ text (fmt_KissError error)
  | FixtureRNode error => str "rnode error: " ++ text (fmt_RNodeError error)
  | FixtureCore error => str "core error: " ++ text (fmt_RnsCoreError error)
  | FixtureCrypto error => str "crypto error: " ++ text (fmt_RnsCryptoError error)
  | FixtureWire error => str "wire error: " ++ text (fmt_RnsWireError error)
  | SchemaMismatch actual expected => str "schema mismatch: expected " ++ expected ++ str ", got " ++ actual
  | ProfileMismatch actual expected => str "profile mismatch: expected " ++ expected ++ str ", got " ++ actual
  | ReticulumRepoMismatch actual expected => str "Reticulum repo mismatch: expected " ++ expected ++ str ", got " ++ actual
  | InvalidReticulumCommit commit => str "invalid Reticulum commit: " ++ commit
  | ReticulumCommitMismatch actual expected => str "Reticulum commit mismatch: expected " ++ expected ++ str ", got " ++ actual
  | MissingManifestMetadata field => str "missing manifest metadata: " ++ field
  | FixtureHexLength actual expected => str "hex length mismatch: expected " ++ decimal expected ++ str " bytes, got " ++ decimal actual
  | FixtureInvalidHex => str "invalid hex"
  | FixtureOddHexLength => str "odd hex length"
  | MissingManifestEntry file => str "missing manifest entry: " ++ file
  | DuplicateManifestEntry file => str "duplicate manifest entry: " ++ file
  | UnexpectedManifestEntry file => str "unexpected manifest entry: " ++ file
  | ManifestEntryMismatch file => str "manifest entry mismatch: " ++ file
  | ManifestChecksumMismatch file => str "manifest checksum mismatch: " ++ file
  | UnexpectedFixtureValue field value => str "unexpected fixture value for " ++ field ++ str ": " ++ value
  end.

(** ** Provenance *)
Definition validate_schema (actual expected : list Z) : outcome FixtureError unit :=
  if bool_decide (actual = expected) then Ok tt else Err (SchemaMismatch actual expected).
Definition validate_profile (actual expected_profile : list Z) : outcome FixtureError unit :=
  if bool_decide (actual = expected_profile) then Ok tt else Err (ProfileMismatch actual expected_profile).

Definition is_ascii_uppercase : Z -> bool := in_range 65 90.
Definition is_ascii_hexdigit (b : Z) : bool := in_range 48 57 b || in_range 65 70 b || in_range 97 102 b.
Definition reticulum_commit_is_valid (commit : list Z) : bool :=
  (len commit =? RETICULUM_COMMIT_LEN) && forallb is_ascii_hexdigit commit && forallb (fun byte => negb (is_ascii_uppercase byte)) commit
  && negb (bool_decide (commit = ZERO_RETICULUM_COMMIT)).

Definition validate_reticulum_provenance (reticulum : ReticulumProvenance) : outcome FixtureError unit :=
  _ ← guard_err (negb (bool_decide (rp_repo reticulum = EXPECTED_RETICULUM_REPO))) (ReticulumRepoMismatch (rp_repo reticulum) EXPECTED_RETICULUM_REPO);
  _ ← guard_err (negb (reticulum_commit_is_valid (rp_commit reticulum))) (InvalidReticulumCommit (rp_commit reticulum));
  guard_err (negb (bool_decide (rp_commit reticulum = EXPECTED_RETICULUM_COMMIT))) (ReticulumCommitMismatch (rp_commit reticulum) EXPECTED_RETICULUM_COMMIT).

Definition validate_manifest_metadata (field value : list Z) : outcome FixtureError unit :=
  if negb (len value =? 0) then Ok tt else Err (MissingManifestMetadata field).

(** ** Files *)
(** [serde_json::from_str] into [A]; an error is its text. *)
Class FromJson (A : Type) := from_str : list Z -> outcome (list Z) A.

Section files.
Context {T : Type} `{FromJson (FixtureFile T), FromJson (FixtureCasesFile T), FromJson ManifestFile}.

Definition parse_fixture_case_for_profile (contents expected_profile : list Z) : outcome FixtureError (FixtureFile T) :=
  fixture ← map_err FixtureJson (from_str contents);
  _ ← validate_schema (ff_schema fixture) EXPECTED_FIXTURE_SCHEMA;
  _ ← validate_profile (ff_profile fixture) expected_profile;
  _ ← validate_reticulum_provenance (ff_reticulum fixture);
  Ok fixture.
Definition parse_fixture_case (contents : list Z) : outcome FixtureError (FixtureFile T) :=
  parse_fixture_case_for_profile contents EXPECTED_PROFILE.

Definition parse_fixture_cases_for_profile (contents expected_profile : list Z) : outcome FixtureError (FixtureCasesFile T) :=
  fixture ← map_err FixtureJson (from_str contents);
  _ ← validate_schema (fc_schema fixture) EXPECTED_FIXTURE_CASES_SCHEMA;
  _ ← validate_profile (fc_profile fixture) expected_profile;
  _ ← validate_reticulum_provenance (fc_reticulum fixture);
  Ok fixture.
Definition parse_fixture_cases (contents : list Z) : outcome FixtureError (FixtureCasesFile T) :=
  parse_fixture_cases_for_profile contents EXPECTED_PROFILE.
End files.

Section manifest_file.
Context `{FromJson ManifestFile}.

Definition parse_manifest_for_profile (contents expected_profile : list Z) : outcome FixtureError ManifestFile :=
  manifest ← map_err FixtureJson (from_str contents);
  _ ← validate_schema (mn_schema manifest) EXPECTED_MANIFEST_SCHEMA;
  _ ← validate_profile (mn_profile manifest) expected_profile;
  _ ← validate_reticulum_provenance (mn_reticulum manifest);
  _ ← validate_manifest_metadata (str "generated_by") (mn_generated_by manifest);
  _ ← validate_manifest_metadata (str "generated_at") (mn_generated_at manifest);
  Ok manifest.
Definition parse_manifest (contents : list Z) : outcome FixtureError ManifestFile :=
  parse_manifest_for_profile contents EXPECTED_PROFILE.
End manifest_file.

(** ** Hexadecimal *)
Definition fixture_hex_nibble (byte : Z) : outcome FixtureError Z :=
  if in_range 48 57 byte then Ok (byte - 48)
  else if in_range 97 102 byte then Ok (byte - 97 + 10)
  else Err FixtureInvalidHex.

(** [chunks_exact(2)]; a byte left over is not visited. *)
Fixpoint decode_pairs (hex : list Z) : outcome FixtureError (list Z) :=
  match hex with
  | a :: b :: rest =>
      high ← fixture_hex_nibble a;
      low ← fixture_hex_nibble b;
      output ← decode_pairs rest;
      Ok (Z.lor (Z.shiftl high 4) low :: output)
  | _ => Ok []
  end.

Definition decode_hex (hex : list Z) : outcome FixtureError (list Z) :=
  _ ← guard_err (negb (len hex mod 2 =? 0)) FixtureOddHexLength;
  decode_pairs hex.

Definition decode_hex_exact (n : Z) (hex : list Z) : outcome FixtureError (list Z) :=
  bytes ← decode_hex hex;
  _ ← guard_err (negb (len bytes =? n)) (FixtureHexLength (len bytes) n);
  Ok bytes.

Definition decode_optional_hex_exact (n : Z) (hex : option (list Z)) : outcome FixtureError (option (list Z)) :=
  match hex with
  | None => Ok None
  | Some hex => bytes ← decode_hex_exact n hex; Ok (Some bytes)
  end.

(** ** The manifest *)
Section manifest.
Context `{RnsPrims}.

Definition assert_manifest_entry (manifest : ManifestFile) (file category : list Z) (case_count : Z) (contents : list Z) : outcome FixtureError unit :=
  match List.find (fun entry => bool_decide (me_file entry = file)) (mn_fixtures manifest) with
  | None => Err (MissingManifestEntry file)
  | Some entry =>
      _ ← guard_err (negb (bool_decide (me_category entry = category)) || negb (me_case_count entry =? case_count)) (ManifestEntryMismatch file);
      expected_sha256 ← decode_hex_exact 32 (me_sha256 entry);
      guard_err (negb (bool_decide (full_hash sha256 contents = expected_sha256))) (ManifestChecksumMismatch file)
  end.

Definition count_manifest_entries (manifest : ManifestFile) (file : list Z) : Z :=
  len (filter (fun entry => me_file entry = file) (mn_fixtures manifest)).

Fixpoint assert_expected_entries (manifest : ManifestFile) (expected_entries : list ExpectedManifestEntry) : outcome FixtureError unit :=
  match expected_entries with
  | [] => Ok tt
  | expected :: expected_entries =>
      _ ← (match count_manifest_entries manifest (ee_file expected) with
           | 0 => Err (MissingManifestEntry (ee_file expected))
           | 1 => assert_manifest_entry manifest (ee_file expected) (ee_category expected) (ee_case_count expected) (ee_contents expected)
           | _ => Err (DuplicateManifestEntry (ee_file expected))
           end);
      assert_expected_entries manifest expected_entries
  end.

Fixpoint assert_no_other_entries (expected_entries : list ExpectedManifestEntry) (entries : list ManifestEntry) : outcome FixtureError unit :=
  match entries with
  | [] => Ok tt
  | entry :: entries =>
      if negb (existsb (fun expected => bool_decide (ee_file expected = me_file entry)) expected_entries)
      then Err (UnexpectedManifestEntry (me_file entry))
      else assert_no_other_entries expected_entries entries
  end.

Definition assert_exact_manifest_entries (manifest : ManifestFile) (expected_entries : list ExpectedManifestEntry) : outcome FixtureError unit :=
  _ ← assert_expected_entries manifest expected_entries;
  assert_no_other_entries expected_entries (mn_fixtures manifest).
End manifest.

(** ** Lemmas: hexadecimal *)
Lemma fixture_nibble_digit n : 0 <= n < 16 -> fixture_hex_nibble (hex_digit n) = Ok n.
Proof.
  intros Hn. unfold fixture_hex_nibble, hex_digit. rewrite !in_range_reflect. destruct (Z.ltb_spec n 10).
  - rewrite bool_decide_eq_true_2 by lia. f_equal. lia.
  - rewrite bool_decide_eq_false_2, bool_decide_eq_true_2 by lia. f_equal. lia.
Qed.
Lemma fixture_nibble_lower b : is_lower_hex b = true -> exists n, 0 <= n < 16 /\ b = hex_digit n /\ fixture_hex_nibble b = Ok n.
Proof. intros Hb. destruct (lower_hex_digit b Hb) as (n & Hn & ->). exists n. split; [done|]. split; [done|]. by apply fixture_nibble_digit. Qed.
Lemma fixture_nibble_bad b : is_lower_hex b = false -> fixture_hex_nibble b = Err FixtureInvalidHex.
Proof. unfold is_lower_hex, fixture_hex_nibble. intros [-> ->]%orb_false_iff. done. Qed.

Lemma decode_pairs_bytes l : bytes_ok l -> decode_pairs (hex_bytes l) = Ok l.
Proof.
  induction l as [|b l IH]; [done|]. intros [Hb Hl]%bytes_ok_cons. unfold hex_bytes. cbn [map concat]. fold (hex_bytes l).
  unfold hex_byte. cbn [app decode_pairs]. pose proof (nibbles b Hb) as [H1 H2].
  rewrite !fixture_nibble_digit by done. cbn [mbind outcome_bind]. rewrite IH by done. cbn [mbind outcome_bind]. by rewrite nibbles_join.
Qed.
Lemma decode_pairs_bad : forall hex, len hex mod 2 = 0 -> ~ Forall (fun b => is_lower_hex b = true) hex -> decode_pairs hex = Err FixtureInvalidHex.
Proof.
  fix IH 1. intros [|a [|b rest]]; [intros _ Hn; destruct Hn; apply List.Forall_nil|by intros Hm; change (len [a]) with 1 in Hm|].
  rewrite !len_cons. intros Hm Hbad. cbn [decode_pairs]. destruct (is_lower_hex a) eqn:Ha; [|by rewrite (fixture_nibble_bad a Ha)].
  destruct (fixture_nibble_lower a Ha) as (x & _ & _ & ->). cbn [mbind outcome_bind].
  destruct (is_lower_hex b) eqn:Hb; [|by rewrite (fixture_nibble_bad b Hb)]. destruct (fixture_nibble_lower b Hb) as (y & _ & _ & ->). cbn [mbind outcome_bind].
  rewrite (IH rest); [done| |].
  - Z.to_euclidean_division_equations. lia.
  - intros Hr. apply Hbad. by repeat constructor.
Qed.

Lemma decode_hex_ok hex l : decode_hex hex = Ok l <-> bytes_ok l /\ hex = hex_bytes l.
Proof.
  unfold decode_hex. split.
  - destruct (Z.eqb_spec (len hex mod 2) 0) as [Hm|]; [|done]. cbn [negb guard_err mbind outcome_bind].
    destruct (decide (Forall (fun b => is_lower_hex b = true) hex)) as [Hl|Hl]; [|by rewrite decode_pairs_bad].
    destruct (lower_hex_inv hex Hl Hm) as (k & Hk & ->). rewrite decode_pairs_bytes by done. by intros [= <-].
  - intros [Hl ->]. rewrite hex_bytes_len, Z.mod_mul by done. cbn. by apply decode_pairs_bytes.
Qed.
Lemma decode_hex_err hex e : decode_hex hex = Err e <->
  (len hex mod 2 <> 0 /\ e = FixtureOddHexLength) \/ (len hex mod 2 = 0 /\ ~ Forall (fun b => is_lower_hex b = true) hex /\ e = FixtureInvalidHex).
Proof.
  unfold decode_hex. destruct (Z.eqb_spec (len hex mod 2) 0) as [Hm|Hm]; cbn [negb guard_err mbind outcome_bind]; [|naive_solver congruence].
  destruct (decide (Forall (fun b => is_lower_hex b = true) hex)) as [Hl|Hl].
  - destruct (lower_hex_inv hex Hl Hm) as (k & Hk & ->). rewrite decode_pairs_bytes by done. naive_solver.
  - rewrite decode_pairs_bad by done. naive_solver congruence.
Qed.
Lemma decode_hex_safe hex : decode_hex hex <> Panic.
Proof.
  unfold decode_hex. destruct (Z.eqb_spec (len hex mod 2) 0) as [Hm|]; [|done]. cbn [negb guard_err mbind outcome_bind].
  destruct (decide (Forall (fun b => is_lower_hex b = true) hex)) as [Hl|Hl]; [|by rewrite decode_pairs_bad].
  destruct (lower_hex_inv hex Hl Hm) as (k & Hk & ->). by rewrite decode_pairs_bytes.
Qed.
Lemma decode_hex_exact_ok n hex l : decode_hex_exact n hex = Ok l <-> array_ok n l /\ hex = hex_bytes l.
Proof.
  unfold decode_hex_exact, array_ok. destruct (decode_hex hex) as [k|e|] eqn:E; cbn [mbind outcome_bind].
  - apply decode_hex_ok in E as [Hk ->]. destruct (Z.eqb_spec (len k) n) as [Hn|Hn]; cbn.
    + split; [by intros [= <-]|]. intros [[Hl Hb] E]. f_equal. by apply hex_bytes_inj.
    + split; [done|]. intros [[Hl Hb] E]. apply hex_bytes_inj in E; [|done..]. by subst.
  - split; [done|]. intros [[_ Hb] ->]. by rewrite (proj2 (decode_hex_ok (hex_bytes l) l)) in E.
  - by destruct (decode_hex_safe hex).
Qed.
Lemma decode_hex_exact_safe n hex : decode_hex_exact n hex <> Panic.
Proof.
  unfold decode_hex_exact. pose proof (decode_hex_safe hex). destruct (decode_hex hex) as [k|e|]; [|done..]. cbn. by destruct (negb _).
Qed.

(** ** Lemmas: the manifest *)
(** The line a manifest has for an expected file. *)
Definition entry_of `{RnsPrims} (e : ExpectedManifestEntry) : ManifestEntry :=
  mk_entry (ee_file e) (ee_category e) (ee_case_count e) (hex_bytes (sha256 (ee_contents e))).

Section keys.
Context {A K : Type} `{EqDecision K} (key : A -> K).
Implicit Types (l : list A).

Lemma find_head (f : K) l : List.find (fun x => bool_decide (key x = f)) l = head (filter (fun x => key x = f) l).
Proof.
  induction l as [|a l IH]; [done|]. cbn [List.find]. rewrite filter_cons. destruct (decide (key a = f)) as [Hk|Hk].
  - by rewrite bool_decide_eq_true_2.
  - by rewrite bool_decide_eq_false_2.
Qed.

Lemma filter_key_none f l : filter (fun x => key x = f) l = [] <-> f ∉ key <$> l.
Proof.
  induction l as [|a l IH]; [split; [intros _; apply not_elem_of_nil|done]|]. rewrite filter_cons, fmap_cons, not_elem_of_cons.
  destruct (decide (key a = f)) as [Hk|Hk]; [split; [done|]; by intros [[] _]|]. rewrite IH. split; [|tauto]. intros; split; [congruence|done].
Qed.
Lemma filter_key_nodup l x : NoDup (key <$> l) -> x ∈ l -> filter (fun y => key y = key x) l = [x].
Proof.
  induction l as [|a l IH]; [by intros _ ?%elem_of_nil|]. rewrite fmap_cons, NoDup_cons, elem_of_cons, filter_cons. intros [Ha Hl] [->|Hx].
  - rewrite decide_True by done. f_equal. by apply filter_key_none.
  - rewrite decide_False; [by apply IH|]. intros E. apply Ha. rewrite E. by apply list_elem_of_fmap_2.
Qed.
Lemma keys_unique l : (forall x, x ∈ l -> filter (fun y => key y = key x) l = [x]) -> NoDup (key <$> l).
Proof.
  induction l as [|a l IH]; intros Hl; [constructor|]. rewrite fmap_cons, NoDup_cons. assert (key a ∉ key <$> l) as Ha.
  { apply filter_key_none. specialize (Hl a (list_elem_of_here _ _)). rewrite filter_cons, decide_True in Hl by done. by injection Hl. }
  split; [done|]. apply IH. intros x Hx. specialize (Hl x (list_elem_of_further _ _ _ Hx)). rewrite filter_cons, decide_False in Hl; [done|].
  intros E. apply Ha. rewrite E. by apply list_elem_of_fmap_2.
Qed.
End keys.

Section manifest_lemmas.
Context `{P : RnsPrims, L : !RnsPrimsLaws P}.
Implicit Types (m : ManifestFile) (e : ExpectedManifestEntry).

Lemma assert_entry_one m e x : filter (fun entry => me_file entry = ee_file e) (mn_fixtures m) = [x] ->
  assert_manifest_entry m (ee_file e) (ee_category e) (ee_case_count e) (ee_contents e) = Ok tt <-> x = entry_of e.
Proof.
  intros Hx. assert (x ∈ filter (fun entry => me_file entry = ee_file e) (mn_fixtures m)) as Hin by (rewrite Hx; apply list_elem_of_here).
  apply list_elem_of_filter in Hin as [Hf _]. unfold assert_manifest_entry. rewrite find_head, Hx. cbn [head]. unfold full_hash.
  destruct x as [file category count sum]; cbn [me_file me_category me_case_count me_sha256] in *. subst file. unfold entry_of.
  destruct (decide (category = ee_category e)) as [->|Hc]; [|rewrite bool_decide_eq_false_2 by done; split; [done|congruence]]. rewrite bool_decide_eq_true_2 by done.
  destruct (Z.eqb_spec count (ee_case_count e)) as [->|Hc]; [|split; [done|congruence]]. cbn [negb orb guard_err mbind outcome_bind].
  pose proof (sha256_len (ee_contents e)) as Hs. destruct (decode_hex_exact 32 sum) as [l|err|] eqn:E; cbn [mbind outcome_bind].
  - apply decode_hex_exact_ok in E as [Hl ->]. case_bool_decide as Hd; cbn; [subst l; done|]. split; [done|]. intros [= E]. apply hex_bytes_inj in E; [|apply Hl|apply Hs]. by destruct Hd.
  - split; [done|]. intros [= ->]. by rewrite (proj2 (decode_hex_exact_ok 32 _ _) (conj Hs eq_refl)) in E.
  - by destruct (decode_hex_exact_safe 32 sum).
Qed.

Lemma expected_step m e : match count_manifest_entries m (ee_file e) with
    | 0 => Err (MissingManifestEntry (ee_file e))
    | 1 => assert_manifest_entry m (ee_file e) (ee_category e) (ee_case_count e) (ee_contents e)
    | _ => Err (DuplicateManifestEntry (ee_file e))
    end = Ok tt <-> filter (fun entry => me_file entry = ee_file e) (mn_fixtures m) = [entry_of e].
Proof.
  unfold count_manifest_entries. destruct (filter _ _) as [|x [|y l]] eqn:E; [split; done| |].
  - change (len [x]) with 1. rewrite (assert_entry_one m e x E). split; [by intros ->|by intros [= ->]].
  - rewrite !len_cons. pose proof (len_nonneg l). destruct (1 + (1 + len l)) as [|[p|p|]|p] eqn:En; try lia; split; done.
Qed.

Lemma expected_entries_ok m es : assert_expected_entries m es = Ok tt <->
  Forall (fun e => filter (fun entry => me_file entry = ee_file e) (mn_fixtures m) = [entry_of e]) es.
Proof.
  induction es as [|e es IH]; [split; [intros; apply List.Forall_nil|done]|]. cbn [assert_expected_entries]. rewrite list.Forall_cons, <- expected_step.
  destruct (match count_manifest_entries m (ee_file e) with 0 => _ | _ => _ end) as [[]|err|]; cbn [mbind outcome_bind]; [rewrite IH; tauto|by split; [|intros []]..].
Qed.

Lemma other_entries_ok es l : assert_no_other_entries es l = Ok tt <-> Forall (fun x => me_file x ∈ ee_file <$> es) l.
Proof.
  induction l as [|x l IH]; [split; [intros; apply List.Forall_nil|done]|]. cbn [assert_no_other_entries]. rewrite list.Forall_cons.
  assert (existsb (fun e => bool_decide (ee_file e = me_file x)) es = true <-> me_file x ∈ ee_file <$> es) as Hx.
  { rewrite existsb_exists, list_elem_of_fmap. setoid_rewrite bool_decide_eq_true. setoid_rewrite list_elem_of_In. naive_solver. }
  destruct (existsb _ es); cbn [negb]; [rewrite IH; naive_solver|]. split; [done|]. intros [H _]. by apply Hx in H.
Qed.

Lemma manifest_exact m es : NoDup (ee_file <$> es) ->
  assert_exact_manifest_entries m es = Ok tt <-> mn_fixtures m ≡ₚ entry_of <$> es.
Proof.
  intros Hnd. assert (me_file <$> (entry_of <$> es) = ee_file <$> es) as Hkeys by (rewrite <- list_fmap_compose; done).
  unfold assert_exact_manifest_entries. assert ((_ ← assert_expected_entries m es; assert_no_other_entries es (mn_fixtures m)) = Ok tt <->
    assert_expected_entries m es = Ok tt /\ assert_no_other_entries es (mn_fixtures m) = Ok tt) as ->.
  { destruct (assert_expected_entries m es) as [[]|err|]; cbn; naive_solver. }
  rewrite expected_entries_ok, other_entries_ok, !Forall_forall. split.
  - intros [Hall Hother]. assert (forall x, x ∈ mn_fixtures m <-> x ∈ entry_of <$> es) as Hin.
    { intros x. split.
      - intros Hx. pose proof (Hother x Hx) as Hf. apply list_elem_of_fmap in Hf as (e & Hf & He). specialize (Hall e He).
        assert (x ∈ filter (fun entry => me_file entry = ee_file e) (mn_fixtures m)) as Hxf by (by apply list_elem_of_filter). rewrite Hall, list_elem_of_singleton in Hxf.
        subst x. by apply list_elem_of_fmap_2.
      - intros (e & -> & He)%list_elem_of_fmap. specialize (Hall e He). assert (entry_of e ∈ filter (fun entry => me_file entry = ee_file e) (mn_fixtures m)) as Hx by (rewrite Hall; apply list_elem_of_here).
        by apply list_elem_of_filter in Hx as [_ ?]. }
    apply NoDup_Permutation; [| |done].
    + apply (NoDup_fmap_1 me_file), keys_unique. intros x Hx. pose proof (proj1 (Hin x) Hx) as (e & -> & He)%list_elem_of_fmap. by apply (Hall e).
    + apply (NoDup_fmap_1 me_file). by rewrite Hkeys.
  - intros Hp. split.
    + intros e He. assert (filter (fun y => me_file y = me_file (entry_of e)) (entry_of <$> es) = [entry_of e]) as E.
      { apply (filter_key_nodup me_file (entry_of <$> es) (entry_of e)); [by rewrite Hkeys|by apply list_elem_of_fmap_2]. }
      assert (filter (fun y => me_file y = me_file (entry_of e)) (mn_fixtures m) ≡ₚ [entry_of e]) as Hf by (by rewrite Hp, E). by apply Permutation_singleton_r in Hf.
    + intros x Hx. rewrite Hp in Hx. apply list_elem_of_fmap in Hx as (e & -> & He). exact (list_elem_of_fmap_2 ee_file es e He).
Qed.
End manifest_lemmas.

(** ** Claims *)

(** The decoder of the fixtures inverts lower-case hexadecimal: it returns a list
    of bytes exactly for the text that writes them, and otherwise says whether the
    length is odd or a digit is wrong, in that order. *)
Theorem fixture_hex_exact hex :
  (forall l, decode_hex hex = Ok l <-> bytes_ok l /\ hex = hex_bytes l) /\
  (forall n l, decode_hex_exact n hex = Ok l <-> array_ok n l /\ hex = hex_bytes l) /\
  (forall e, decode_hex hex = Err e <->
     (len hex mod 2 <> 0 /\ e = FixtureOddHexLength) \/
     (len hex mod 2 = 0 /\ ~ Forall (fun b => is_lower_hex b = true) hex /\ e = FixtureInvalidHex)) /\
  decode_hex hex <> Panic.
Proof. split_and!; [apply decode_hex_ok|intros n; apply decode_hex_exact_ok|apply decode_hex_err|apply decode_hex_safe]. Qed.

(** A manifest is accepted exactly when its lines are, in some order, one line
    for each expected file, with its category, its number of cases and the SHA-256
    of its contents in lower-case hexadecimal. *)
Theorem manifest_entries_exact `{P : RnsPrims, L : !RnsPrimsLaws P} (manifest : ManifestFile) (expected_entries : list ExpectedManifestEntry) :
  NoDup (ee_file <$> expected_entries) ->
  assert_exact_manifest_entries manifest expected_entries = Ok tt <-> mn_fixtures manifest ≡ₚ entry_of <$> expected_entries.
Proof. apply manifest_exact. Qed.

(** ** Witnesses *)
Definition sample_expected : list ExpectedManifestEntry :=
  [mk_expected (str "a.json") (str "kiss") 5 (str "{}"); mk_expected (str "b.json") (str "rnode_stat") 1 (str "[]")].
Definition sample_manifest_file : ManifestFile :=
  mk_manifest_file EXPECTED_MANIFEST_SCHEMA PROFILE_1_KISS_RNODE (mk_provenance EXPECTED_RETICULUM_REPO EXPECTED_RETICULUM_COMMIT) (str "x") (str "y")
    (reverse (map (@entry_of toy_prims) sample_expected)).

Lemma manifest_entries_exact_witness :
  @assert_exact_manifest_entries toy_prims sample_manifest_file sample_expected = Ok tt.
Proof.
  apply (manifest_entries_exact (P := toy_prims) (L := toy_prims_laws)).
  - apply (bool_decide_unpack _). vm_compute. exact I.
  - exact (reverse_Permutation (@entry_of toy_prims <$> sample_expected)).
Defined.
