(* ===== verification/ConfReport.v ===== *)
(** [hyf_rns_conformance::{report, runner, final_report}]: the rows of a conformance
    run, their summary, and the rules a final report is held to
    (src/crates/hyf_rns_conformance/src/report.rs, runner.rs and final_report.rs).

    A capture is a [serde_json::Value], used through [get], [as_str], [as_bool],
    [as_array] and [as_object]: the class [JsonDoc].  Reading a capture file is the
    parameter [read_to_string].  The claims are that a final report passes exactly
    when its rows are, in some order, the expected ones, all passed, with the five
    fields of the oracle in each detail, and that a detail written by [oracle_detail]
    has them. *)
From stdpp Require Import gmap strings.
From S2P Require Import Kiss RNode RnsWire RnsCrypto Prelude Utf8 Cursor NostrHex NostrJson NostrParser Text Display ErrorText Fixtures.

Open Scope Z_scope.

Definition CONFORMANCE_RUN_SCHEMA : list Z := str "hyf.rns.conformance_run.v1".

(** ** Rows *)
Inductive ConformanceStatus := ConfPassed | ConfFailed | ConfInvalidEnvironment.
#[export] Instance ConformanceStatus_eq_dec : EqDecision ConformanceStatus.
Proof. solve_decision. Defined.

Record ConformanceResult := mk_result { cr_id : list Z; cr_category : list Z; cr_status : ConformanceStatus; cr_detail : option (list Z) }.
Definition result_passed (id category : list Z) : ConformanceResult := mk_result id category ConfPassed None.
Definition result_failed (id category detail : list Z) : ConformanceResult := mk_result id category ConfFailed (Some detail).
Definition result_invalid_environment (id category detail : list Z) : ConformanceResult := mk_result id category ConfInvalidEnvironment (Some detail).

Record OracleEnvironment := mk_oracle {
  oe_reticulum_module_path : list Z;
  oe_reticulum_commit : list Z;
  oe_rns_version : option (list Z);
  oe_cryptography_version : list Z;
  oe_pyserial_version : list Z;
}.
Definition OracleEnvironment_new (reticulum_module_path reticulum_commit cryptography_version pyserial_version : list Z) : OracleEnvironment :=
  mk_oracle reticulum_module_path reticulum_commit None cryptography_version pyserial_version.
Definition with_rns_version (o : OracleEnvironment) (rns_version : list Z) : OracleEnvironment :=
  mk_oracle (oe_reticulum_module_path o) (oe_reticulum_commit o) (Some rns_version) (oe_cryptography_version o) (oe_pyserial_version o).

Record ConformanceEnvironment := mk_environment { ce_os : list Z; ce_arch : list Z; ce_rust_toolchain : list Z; ce_oracle : option OracleEnvironment }.
Definition ConformanceEnvironment_new (os arch rust_toolchain : list Z) : ConformanceEnvironment := mk_environment os arch rust_toolchain None.
Definition with_oracle (e : ConformanceEnvironment) (oracle : OracleEnvironment) : ConformanceEnvironment :=
  mk_environment (ce_os e) (ce_arch e) (ce_rust_toolchain e) (Some oracle).

Record ConformanceRun := mk_run {
  run_schema : list Z;
  run_id : list Z;
  run_profile : list Z;
  run_hyf_commit : list Z;
  run_reticulum_commit : list Z;
  run_started_at : list Z;
  run_environment : ConformanceEnvironment;
  run_results : list ConformanceResult;
}.
Definition new_profile (profile run_id hyf_commit reticulum_commit started_at : list Z) (environment : ConformanceEnvironment)
    (results : list ConformanceResult) : ConformanceRun :=
  mk_run CONFORMANCE_RUN_SCHEMA run_id profile hyf_commit reticulum_commit started_at environment results.
Definition run_profile_0 (run_id hyf_commit started_at : list Z) (environment : ConformanceEnvironment) (results : list ConformanceResult) : ConformanceRun :=
  new_profile EXPECTED_PROFILE run_id hyf_commit EXPECTED_RETICULUM_COMMIT started_at environment results.

(** ** The runner *)
Record RunnerSummary := mk_summary { rs_total : Z; rs_passed : Z; rs_failed : Z; rs_invalid_environment : Z }.
Definition count_result (summary : RunnerSummary) (result : ConformanceResult) : RunnerSummary :=
  match cr_status result with
  | ConfPassed => mk_summary (rs_total summary) (rs_passed summary + 1) (rs_failed summary) (rs_invalid_environment summary)
  | ConfFailed => mk_summary (rs_total summary) (rs_passed summary) (rs_failed summary + 1) (rs_invalid_environment summary)
  | ConfInvalidEnvironment => mk_summary (rs_total summary) (rs_passed summary) (rs_failed summary) (rs_invalid_environment summary + 1)
  end.
Definition summarize_results (results : list ConformanceResult) : RunnerSummary :=
  fold_left count_result results (mk_summary (len results) 0 0 0).
Definition is_clean (s : RunnerSummary) : bool := (rs_failed s =? 0) && (rs_invalid_environment s =? 0).

(** A [Result]; a check that panics ends the run. *)
Definition fixture_result {E} (id category : list Z) (result : outcome FixtureError unit) : outcome E ConformanceResult :=
  match result with
  | Ok _ => Ok (result_passed id category)
  | Err error => Ok (result_failed id category (fixture_error_text error))
  | Panic => Panic
  end.

(** ** Final reports *)
Definition DETAIL_KEY_ORACLE_MODE : list Z := str "oracle_mode".
Definition DETAIL_KEY_EVIDENCE_ROLE : list Z := str "evidence_role".
Definition DETAIL_KEY_COMPATIBILITY_PROOF : list Z := str "compatibility_proof".
Definition DETAIL_KEY_COMMANDS : list Z := str "commands".
Definition DETAIL_KEY_RETICULUM_COMMIT : list Z := str "reticulum_commit".
Definition EXPECTED_FINAL_ORACLE_RNS_VERSION : list Z := str "1.3.5".
Definition EXPECTED_FINAL_ORACLE_CRYPTOGRAPHY_VERSION : list Z := str "49.0.0".
Definition EXPECTED_FINAL_ORACLE_PYSERIAL_VERSION : list Z := str "3.5".

Record ExpectedOracleDetail := mk_oracle_detail { od_oracle_mode : list Z; od_evidence_role : list Z; od_compatibility_proof : bool; od_commands : list Z }.
Record ExpectedFinalResult := mk_final { fr_id : list Z; fr_category : list Z; fr_detail : option ExpectedOracleDetail }.

(** The text of an I/O or JSON error is the libraries'. *)
Inductive FinalReportError := FinalIo (error : list Z) | FinalJson (error : list Z) | InvalidEvidence (message : list Z).
Definition final_report_error_text (e : FinalReportError) : list Z :=
  match e with
  | FinalIo error => str "I/O error: " ++ error
  | FinalJson error => str "JSON error: " ++ error
  | InvalidEvidence message => message
  end.
Definition invalid_evidence {A} (message : list Z) : outcome FinalReportError A := Err (InvalidEvidence message).

Definition bool_word (b : bool) : list Z := if b then str "true" else str "false".

Definition oracle_detail (oracle_mode evidence_role : list Z) (compatibility_proof : bool) (commands : list (list Z)) (reticulum_commit : list Z) : list Z :=
  DETAIL_KEY_ORACLE_MODE ++ [61] ++ oracle_mode ++ str "; " ++
  DETAIL_KEY_EVIDENCE_ROLE ++ [61] ++ evidence_role ++ str "; " ++
  DETAIL_KEY_COMPATIBILITY_PROOF ++ [61] ++ bool_word compatibility_proof ++ str "; " ++
  DETAIL_KEY_COMMANDS ++ [61] ++ join 44 commands ++ str "; " ++
  DETAIL_KEY_RETICULUM_COMMIT ++ [61] ++ reticulum_commit.

Definition require_equal (actual expected message : list Z) : outcome FinalReportError unit :=
  if bool_decide (actual = expected) then Ok tt else invalid_evidence (message ++ str ": expected " ++ expected ++ str ", got " ++ actual).

(** *** Captures *)
Class JsonDoc := {
  jdoc : Type;
  doc_get : jdoc -> list Z -> option jdoc;
  doc_str : jdoc -> option (list Z);
  doc_bool : jdoc -> option bool;
  doc_array : jdoc -> option (list jdoc);
  doc_is_object : jdoc -> bool;
  doc_from_str : list Z -> outcome (list Z) jdoc;
  (** [fs::read_to_string] *)
  read_to_string : list Z -> outcome (list Z) (list Z);
}.

(** [Path::join] on Unix, with a relative file name. *)
Definition join_file (dir filename : list Z) : list Z := if bool_decide (list.last dir = None \/ list.last dir = Some 47) then dir ++ filename else dir ++ [47] ++ filename.

Section captures.
Context `{JsonDoc}.

Definition load_capture (capture_dir filename : list Z) : outcome FinalReportError jdoc :=
  contents ← map_err FinalIo (read_to_string (join_file capture_dir filename));
  document ← map_err FinalJson (doc_from_str contents);
  if negb (doc_is_object document) then invalid_evidence (filename ++ str " is not a JSON object") else Ok document.

Definition required_string_field (document : jdoc) (filename field : list Z) : outcome FinalReportError (list Z) :=
  match doc_get document field ≫= doc_str with
  | None => invalid_evidence (filename ++ str " is missing string field " ++ field)
  | Some actual => if len actual =? 0 then invalid_evidence (filename ++ str " has empty string field " ++ field) else Ok actual
  end.

Definition expect_string_field (document : jdoc) (filename field expected : list Z) : outcome FinalReportError unit :=
  actual ← required_string_field document filename field;
  if bool_decide (actual = expected) then Ok tt
  else invalid_evidence (filename ++ str " has wrong " ++ field ++ str ": expected " ++ expected ++ str ", got " ++ actual).

Definition expect_bool_field (document : jdoc) (filename field : list Z) (expected : bool) : outcome FinalReportError unit :=
  match doc_get document field ≫= doc_bool with
  | None => invalid_evidence (filename ++ str " is missing boolean field " ++ field)
  | Some actual =>
      if bool_decide (actual = expected) then Ok tt
      else invalid_evidence (filename ++ str " has wrong " ++ field ++ str ": expected " ++ bool_word expected ++ str ", got " ++ bool_word actual)
  end.

Definition optional_string_field (document : jdoc) (field : list Z) : outcome FinalReportError (option (list Z)) :=
  match doc_get document field with
  | None => Ok None
  | Some value =>
      match doc_str value with
      | None => invalid_evidence (field ++ str " is not a string")
      | Some value => if len value =? 0 then invalid_evidence (field ++ str " is empty") else Ok (Some value)
      end
  end.

(** [left_]: the part of [path] still to follow. *)
Fixpoint string_path_loop (value : jdoc) (filename : list Z) (path left_ : list (list Z)) : outcome FinalReportError jdoc :=
  match left_ with
  | [] => Ok value
  | key :: left_ =>
      match doc_get value key with
      | None => invalid_evidence (filename ++ str " is missing " ++ join 46 path)
      | Some next => string_path_loop next filename path left_
      end
  end.
Definition string_path (document : jdoc) (filename : list Z) (path : list (list Z)) : outcome FinalReportError (list Z) :=
  value ← string_path_loop document filename path path;
  match doc_str value with
  | None => invalid_evidence (join 46 path ++ str " in " ++ filename ++ str " is not a string")
  | Some value => if len value =? 0 then invalid_evidence (join 46 path ++ str " in " ++ filename ++ str " is empty") else Ok value
  end.

Definition expect_string_path (document : jdoc) (filename : list Z) (path : list (list Z)) (expected : list Z) : outcome FinalReportError unit :=
  actual ← string_path document filename path;
  if bool_decide (actual = expected) then Ok tt
  else invalid_evidence (filename ++ str " has wrong " ++ join 46 path ++ str ": expected " ++ expected ++ str ", got " ++ actual).

Definition expect_capture (document : jdoc) (filename command mode reticulum_commit : list Z) : outcome FinalReportError unit :=
  _ ← expect_string_field document filename (str "command") command;
  _ ← expect_string_path document filename [str "oracle"; str "mode"] mode;
  expect_string_path document filename [str "oracle"; str "reticulum"; str "commit"] reticulum_commit.
End captures.

(** *** Oracle metadata *)
(** [Path::components] on Unix, of a path that is not absolute: [.] counts in front
    only, empty parts never. *)
Inductive component := CurDir | ParentDir | Normal (name : list Z).
Fixpoint later_components (parts : list (list Z)) : list component :=
  match parts with
  | [] => []
  | part :: parts =>
      if bool_decide (part = [] \/ part = [46]) then later_components parts
      else (if bool_decide (part = [46; 46]) then ParentDir else Normal part) :: later_components parts
  end.
Definition components (path : list Z) : list component :=
  match split 47 path with
  | part :: parts => if bool_decide (part = [46]) then CurDir :: later_components parts else later_components (part :: parts)
  | [] => []
  end.

Fixpoint contains_double_slash (value : list Z) : bool :=
  match value with [] => false | b :: value => bool_decide (b = 47 /\ list.head value = Some 47) || contains_double_slash value end.

Definition is_portable_repo_relative_path (value : list Z) : bool :=
  if (len value =? 0) || bool_decide (list.head value = Some 47) || bool_decide (list.last value = Some 47)
     || existsb (Z.eqb 92) value || existsb (Z.eqb 58) value || contains_double_slash value
  then false
  else negb (bool_decide (list.head value = Some 47)) && forallb (fun c => match c with Normal _ => true | _ => false end) (components value).

Definition validate_final_oracle_metadata (oracle : OracleEnvironment) (expected_oracle_module_path : option (list Z)) : outcome FinalReportError unit :=
  let error message := InvalidEvidence (str message) in
  _ ← guard_err (match expected_oracle_module_path with Some p => negb (bool_decide (oe_reticulum_module_path oracle = p)) | None => false end)
        (error "oracle Reticulum module path mismatch");
  _ ← guard_err (negb (is_portable_repo_relative_path (oe_reticulum_module_path oracle))) (error "oracle Reticulum module path is not portable repo-relative");
  _ ← guard_err (negb (bool_decide (oe_reticulum_commit oracle = EXPECTED_RETICULUM_COMMIT))) (error "oracle reticulum commit mismatch");
  _ ← guard_err (negb (bool_decide (oe_rns_version oracle = Some EXPECTED_FINAL_ORACLE_RNS_VERSION))) (error "oracle RNS version mismatch");
  _ ← guard_err (negb (bool_decide (oe_cryptography_version oracle = EXPECTED_FINAL_ORACLE_CRYPTOGRAPHY_VERSION))) (error "oracle cryptography version mismatch");
  guard_err (negb (bool_decide (oe_pyserial_version oracle = EXPECTED_FINAL_ORACLE_PYSERIAL_VERSION))) (error "oracle pyserial version mismatch").

(** *** Details *)
Definition detail_fields : Type := list (list Z * list Z).

(** [for raw_part in detail.split(';')], with the [fields] so far. *)
Fixpoint parse_detail_parts (result_id : list Z) (fields : detail_fields) (raw_parts : list (list Z)) : outcome FinalReportError detail_fields :=
  match raw_parts with
  | [] => Ok fields
  | raw_part :: raw_parts =>
      let part := trim raw_part in
      if len part =? 0 then parse_detail_parts result_id fields raw_parts
      else
        match split_once 61 part with
        | None => invalid_evidence (result_id ++ str " has malformed detail part: " ++ part)
        | Some (key, value) =>
            let key := trim key in
            let value := trim value in
            if (len key =? 0) || (len value =? 0) then invalid_evidence (result_id ++ str " has empty detail key or value")
            else if existsb (fun field => bool_decide (fst field = key)) fields then invalid_evidence (result_id ++ str " duplicates detail field " ++ key)
            else parse_detail_parts result_id (fields ++ [(key, value)]) raw_parts
        end
  end.
Definition parse_detail_fields (detail result_id : list Z) : outcome FinalReportError detail_fields :=
  parse_detail_parts result_id [] (split 59 detail).

Definition expect_detail_field (fields : detail_fields) (result_id key expected : list Z) : outcome FinalReportError unit :=
  match List.find (fun field => bool_decide (fst field = key)) fields with
  | None => invalid_evidence (result_id ++ str " is missing " ++ key)
  | Some (_, actual) =>
      if bool_decide (actual = expected) then Ok tt
      else invalid_evidence (result_id ++ str " has wrong " ++ key ++ str ": expected " ++ expected ++ str ", got " ++ actual)
  end.

Definition validate_detail (result : ConformanceResult) (expected : option ExpectedOracleDetail) (reticulum_commit : list Z) : outcome FinalReportError unit :=
  match expected with
  | None =>
      match cr_detail result with
      | Some _ => invalid_evidence (cr_id result ++ str " has unexpected detail")
      | None => Ok tt
      end
  | Some expected =>
      match cr_detail result with
      | None => invalid_evidence (cr_id result ++ str " is missing detail")
      | Some detail =>
          fields ← parse_detail_fields detail (cr_id result);
          _ ← expect_detail_field fields (cr_id result) DETAIL_KEY_ORACLE_MODE (od_oracle_mode expected);
          _ ← expect_detail_field fields (cr_id result) DETAIL_KEY_EVIDENCE_ROLE (od_evidence_role expected);
          let compatibility_proof := bool_word (od_compatibility_proof expected) in
          _ ← expect_detail_field fields (cr_id result) DETAIL_KEY_COMPATIBILITY_PROOF compatibility_proof;
          _ ← expect_detail_field fields (cr_id result) DETAIL_KEY_COMMANDS (od_commands expected);
          _ ← expect_detail_field fields (cr_id result) DETAIL_KEY_RETICULUM_COMMIT reticulum_commit;
          if negb (len fields =? 5) then invalid_evidence (cr_id result ++ str " has unexpected detail fields") else Ok tt
      end
  end.

(** *** Rows of a final report *)
(** The ids seen so far are the [BTreeSet]. *)
Fixpoint check_duplicates (seen_ids : gset (list Z)) (results : list ConformanceResult) : outcome FinalReportError unit :=
  match results with
  | [] => Ok tt
  | result :: results =>
      if bool_decide (cr_id result ∈ seen_ids) then invalid_evidence (str "duplicate result id: " ++ cr_id result)
      else check_duplicates ({[cr_id result]} ∪ seen_ids) results
  end.

Definition check_expected_row (results : list ConformanceResult) (reticulum_commit : list Z) (expected_row : ExpectedFinalResult) : outcome FinalReportError unit :=
  match List.find (fun result => bool_decide (cr_id result = fr_id expected_row)) results with
  | None => invalid_evidence (str "missing result id: " ++ fr_id expected_row)
  | Some result =>
      if negb (bool_decide (cr_category result = fr_category expected_row)) then
        invalid_evidence (fr_id expected_row ++ str " has wrong category: expected " ++ fr_category expected_row ++ str ", got " ++ cr_category result)
      else if negb (bool_decide (cr_status result = ConfPassed)) then
        invalid_evidence (fr_id expected_row ++ str " has wrong status: expected passed")
      else validate_detail result (fr_detail expected_row) reticulum_commit
  end.
Fixpoint check_expected_rows (results : list ConformanceResult) (reticulum_commit : list Z) (expected : list ExpectedFinalResult) : outcome FinalReportError unit :=
  match expected with
  | [] => Ok tt
  | expected_row :: expected =>
      _ ← check_expected_row results reticulum_commit expected_row;
      check_expected_rows results reticulum_commit expected
  end.

Fixpoint check_unexpected (expected : list ExpectedFinalResult) (results : list ConformanceResult) : outcome FinalReportError unit :=
  match results with
  | [] => Ok tt
  | result :: results =>
      if negb (existsb (fun expected_row => bool_decide (fr_id expected_row = cr_id result)) expected)
      then invalid_evidence (str "unexpected result id: " ++ cr_id result)
      else check_unexpected expected results
  end.

Definition validate_final_results (results : list ConformanceResult) (expected : list ExpectedFinalResult) (reticulum_commit : list Z) : outcome FinalReportError unit :=
  if negb (len results =? len expected) then
    invalid_evidence (str "result count mismatch: expected " ++ decimal (len expected) ++ str ", got " ++ decimal (len results))
  else
    _ ← check_duplicates ∅ results;
    _ ← check_expected_rows results reticulum_commit expected;
    check_unexpected expected results.

(** ** Lemmas: details *)
(** The fields a detail must have. *)
Definition expected_fields (d : ExpectedOracleDetail) (reticulum_commit : list Z) : detail_fields :=
  [(DETAIL_KEY_ORACLE_MODE, od_oracle_mode d); (DETAIL_KEY_EVIDENCE_ROLE, od_evidence_role d);
   (DETAIL_KEY_COMPATIBILITY_PROOF, bool_word (od_compatibility_proof d)); (DETAIL_KEY_COMMANDS, od_commands d);
   (DETAIL_KEY_RETICULUM_COMMIT, reticulum_commit)].
Lemma expected_keys_nodup d commit : NoDup (expected_fields d commit).*1.
Proof. apply (bool_decide_unpack _). vm_compute. exact I. Qed.

Lemma find_key_nodup {A} (key : A -> list Z) f l x : NoDup (key <$> l) ->
  List.find (fun y => bool_decide (key y = f)) l = Some x <-> x ∈ l /\ key x = f.
Proof.
  intros Hnd. rewrite find_head. split.
  - intros Hh. assert (x ∈ filter (fun y => key y = f) l) as Hx by (destruct (filter _ l); [done|]; injection Hh as ->; apply list_elem_of_here).
    apply list_elem_of_filter in Hx. tauto.
  - intros [Hx <-]. by rewrite filter_key_nodup.
Qed.

Lemma parse_detail_keys id raw : forall fields fs, NoDup fields.*1 -> parse_detail_parts id fields raw = Ok fs -> NoDup fs.*1.
Proof.
  induction raw as [|part raw IH]; intros fields fs Hnd; cbn [parse_detail_parts]; [by intros [= <-]|].
  destruct (len (trim part) =? 0); [by apply IH|]. destruct (split_once 61 (trim part)) as [[key value]|]; [|done].
  destruct (_ || _); [done|]. destruct (existsb _ fields) eqn:He; [done|]. apply IH. rewrite fmap_app. apply list.NoDup_app. split_and!; [done| |apply NoDup_singleton].
  intros k Hk Hk'. cbn in Hk'. apply list_elem_of_singleton in Hk' as ->. apply list_elem_of_fmap in Hk as (f & Ef & Hf).
  assert (existsb (fun field => bool_decide (fst field = trim key)) fields = true); [|congruence]. apply existsb_exists. exists f. split; [by apply list_elem_of_In|].
  by apply bool_decide_eq_true.
Qed.
Lemma parse_detail_safe id raw : forall fields, parse_detail_parts id fields raw <> Panic.
Proof.
  induction raw as [|part raw IH]; intros fields; cbn [parse_detail_parts]; [done|]. destruct (len (trim part) =? 0); [apply IH|].
  destruct (split_once 61 (trim part)) as [[key value]|]; [|done]. destruct (_ || _); [done|]. destruct (existsb _ fields); [done|apply IH].
Qed.

Lemma expect_detail_ok fs id key v : NoDup fs.*1 -> expect_detail_field fs id key v = Ok tt <-> (key, v) ∈ fs.
Proof.
  intros Hnd. unfold expect_detail_field. pose proof (fun x => find_key_nodup fst key fs x Hnd) as Hf.
  destruct (List.find _ fs) as [[k a]|] eqn:E.
  - destruct (proj1 (Hf (k, a)) eq_refl) as [Hin Hk]. cbn in Hk. subst k. case_bool_decide as Ha; [by subst a|]. split; [done|]. intros Hv.
    assert (Some (key, a) = Some (key, v)) as [=] by (by apply Hf). by subst.
  - split; [done|]. intros Hv. pose proof (proj2 (Hf (key, v)) (conj Hv eq_refl)). done.
Qed.
Lemma expect_detail_safe fs id key v : expect_detail_field fs id key v <> Panic.
Proof. unfold expect_detail_field. destruct (List.find _ fs) as [[? ?]|]; [|done]. by case_bool_decide. Qed.

(** What a row's detail must be. *)
Definition detail_matches (reticulum_commit id : list Z) (detail : option (list Z)) (expected : option ExpectedOracleDetail) : Prop :=
  match expected, detail with
  | None, None => True
  | Some d, Some detail => exists fields, parse_detail_fields detail id = Ok fields /\ fields ≡ₚ expected_fields d reticulum_commit
  | _, _ => False
  end.

Lemma bind_ok {E A B} (m : outcome E A) (f : A -> outcome E B) b : (m ≫= f) = Ok b <-> exists a, m = Ok a /\ f a = Ok b.
Proof. destruct m; cbn; naive_solver. Qed.
Lemma bind_ok_unit {E B} (m : outcome E unit) (k : outcome E B) b : (_ ← m; k) = Ok b <-> m = Ok tt /\ k = Ok b.
Proof. rewrite bind_ok. split; [by intros ([] & ? & ?)|]. intros [? ?]. by exists tt. Qed.

Lemma same_members {A} (l k : list A) : NoDup l -> length l = length k -> (forall x, x ∈ l -> x ∈ k) -> l ≡ₚ k.
Proof.
  intros Hnd Hl Hin. apply submseteq_length_Permutation; [by apply NoDup_submseteq|lia].
Qed.

Lemma validate_detail_ok r e commit : validate_detail r e commit = Ok tt <-> detail_matches commit (cr_id r) (cr_detail r) e.
Proof.
  unfold validate_detail, detail_matches. destruct e as [d|], (cr_detail r) as [detail|]; try done.
  rewrite bind_ok. split.
  - intros (fs & Hfs & H). exists fs. split; [done|]. pose proof (parse_detail_keys _ _ _ _ (NoDup_nil_2 : NoDup ([] : detail_fields).*1) Hfs) as Hnd.
    rewrite !bind_ok_unit, !expect_detail_ok in H by done. destruct H as (H1 & H2 & H3 & H4 & H5 & Hlen).
    destruct (Z.eqb_spec (len fs) 5) as [Hl|]; [|done]. symmetry. apply same_members.
    + apply (NoDup_fmap_1 fst), expected_keys_nodup.
    + unfold len in Hl. cbn. lia.
    + unfold expected_fields. intros x. rewrite !elem_of_cons. intros [->|[->|[->|[->|[->|[]%elem_of_nil]]]]]; done.
  - intros (fs & Hfs & Hp). exists fs. split; [done|]. pose proof (parse_detail_keys _ _ _ _ (NoDup_nil_2 : NoDup ([] : detail_fields).*1) Hfs) as Hnd.
    assert (len fs = 5) as -> by (unfold len; rewrite Hp; done). rewrite !bind_ok_unit, !expect_detail_ok by done.
    setoid_rewrite Hp. unfold expected_fields. rewrite !elem_of_cons. split_and!; auto 10.
Qed.
Lemma validate_detail_safe r e commit : validate_detail r e commit <> Panic.
Proof.
  unfold validate_detail. destruct e as [d|], (cr_detail r) as [detail|]; try done.
  pose proof (parse_detail_safe (cr_id r) (split 59 detail) []) as Hp. unfold parse_detail_fields. destruct (parse_detail_parts _ _ _) as [fs|e|]; [|done..]. cbn [mbind outcome_bind].
  repeat (match goal with |- (_ ← expect_detail_field ?f ?i ?k ?v; _) <> _ =>
    pose proof (expect_detail_safe f i k v); destruct (expect_detail_field f i k v); [|done..]; cbn [mbind outcome_bind] end). by destruct (negb _).
Qed.

(** ** Lemmas: rows *)
Definition row_matches (reticulum_commit : list Z) (r : ConformanceResult) (e : ExpectedFinalResult) : Prop :=
  cr_id r = fr_id e /\ cr_category r = fr_category e /\ cr_status r = ConfPassed /\ detail_matches reticulum_commit (cr_id r) (cr_detail r) (fr_detail e).

Lemma duplicates_ok seen results : check_duplicates seen results = Ok tt <-> NoDup (cr_id <$> results) /\ Forall (fun r => cr_id r ∉ seen) results.
Proof.
  revert seen. induction results as [|r results IH]; intros seen; cbn [check_duplicates]; [split; [split; [constructor|apply List.Forall_nil]|done]|].
  rewrite fmap_cons, list.NoDup_cons, list.Forall_cons. case_bool_decide as Hin; [split; [done|]; tauto|]. rewrite IH, list_elem_of_fmap, !list.Forall_forall. split.
  - intros [Hnd Hs]. split_and!; [|done|done|].
    + intros (x & E & Hx). specialize (Hs x Hx). set_solver.
    + intros x Hx. specialize (Hs x Hx). set_solver.
  - intros [[Hn Hnd] [_ Hs]]. split; [done|]. intros x Hx. rewrite not_elem_of_union, not_elem_of_singleton. split; [|by apply Hs]. intros E. apply Hn. by exists x.
Qed.
Lemma duplicates_safe seen results : check_duplicates seen results <> Panic.
Proof. revert seen. induction results as [|r results IH]; intros seen; cbn [check_duplicates]; [done|]. by case_bool_decide. Qed.

Lemma expected_row_ok results commit e : NoDup (cr_id <$> results) ->
  check_expected_row results commit e = Ok tt <-> exists r, r ∈ results /\ row_matches commit r e.
Proof.
  intros Hnd. unfold check_expected_row, row_matches. pose proof (fun x => find_key_nodup cr_id (fr_id e) results x Hnd) as Hf.
  destruct (List.find _ results) as [r|] eqn:E.
  - destruct (proj1 (Hf r) eq_refl) as [Hin Hid]. assert (forall r', r' ∈ results -> cr_id r' = fr_id e -> r' = r) as Huniq.
    { intros r' H1 H2. assert (Some r = Some r') as [= ->] by (by apply Hf). done. }
    split.
    + case_bool_decide as Hc; [|done]. cbn [negb]. case_bool_decide as Hs; [|done]. cbn [negb]. rewrite validate_detail_ok. intros Hd. exists r. by split_and!.
    + intros (r' & Hin' & Hid' & Hc & Hs & Hd). apply Huniq in Hin'; [|done]. subst r'. rewrite !bool_decide_eq_true_2 by done. cbn [negb]. by apply validate_detail_ok.
  - split; [done|]. intros (r & Hin & Hid & _). pose proof (proj2 (Hf r) (conj Hin Hid)). done.
Qed.
Lemma expected_rows_ok results commit es : NoDup (cr_id <$> results) ->
  check_expected_rows results commit es = Ok tt <-> Forall (fun e => exists r, r ∈ results /\ row_matches commit r e) es.
Proof.
  intros Hnd. induction es as [|e es IH]; [split; [intros; apply List.Forall_nil|done]|]. cbn [check_expected_rows]. by rewrite bind_ok_unit, list.Forall_cons, IH, expected_row_ok.
Qed.
Lemma expected_rows_safe results commit es : check_expected_rows results commit es <> Panic.
Proof.
  induction es as [|e es IH]; [done|]. cbn [check_expected_rows]. assert (check_expected_row results commit e <> Panic) as Hr.
  { unfold check_expected_row. destruct (List.find _ results) as [r|]; [|done]. do 2 (case_bool_decide; [|done]; cbn [negb]). apply validate_detail_safe. }
  destruct (check_expected_row results commit e) as [[]|err|]; cbn; [exact IH|done|done].
Qed.
Lemma unexpected_ok es results : check_unexpected es results = Ok tt <-> Forall (fun r => cr_id r ∈ fr_id <$> es) results.
Proof.
  induction results as [|r results IH]; [split; [intros; apply List.Forall_nil|done]|]. cbn [check_unexpected]. rewrite list.Forall_cons.
  assert (existsb (fun e => bool_decide (fr_id e = cr_id r)) es = true <-> cr_id r ∈ fr_id <$> es) as Hx.
  { rewrite existsb_exists, list_elem_of_fmap. setoid_rewrite bool_decide_eq_true. setoid_rewrite list_elem_of_In. naive_solver. }
  destruct (existsb _ es); cbn [negb]; [rewrite IH; naive_solver|]. split; [done|]. intros [H _]. by apply Hx in H.
Qed.
Lemma unexpected_safe es results : check_unexpected es results <> Panic.
Proof. induction results as [|r results IH]; cbn [check_unexpected]; [done|]. by destruct (negb _). Qed.

Lemma choose_rows (results : list ConformanceResult) commit es : Forall (fun e => exists r, r ∈ results /\ row_matches commit r e) es ->
  exists rs : list ConformanceResult, Forall2 (row_matches commit) rs es /\ forall r, r ∈ rs -> r ∈ results.
Proof.
  induction 1 as [|e es (r & Hr & Hm) _ (rs & Hrs & Hin)]; [exists []; split; [constructor|by intros ? ?%elem_of_nil]|].
  exists (r :: rs). split; [by constructor|]. intros r'. rewrite elem_of_cons. intros [->|?]; auto.
Qed.
Lemma matching_ids commit rs es : Forall2 (row_matches commit) rs es -> cr_id <$> rs = fr_id <$> es.
Proof. induction 1 as [|r e rs es [Hid _] _ IH]; [done|]. by rewrite !fmap_cons, IH, Hid. Qed.

Lemma final_results_ok results es commit : NoDup (fr_id <$> es) ->
  validate_final_results results es commit = Ok tt <-> exists rs, rs ≡ₚ results /\ Forall2 (row_matches commit) rs es.
Proof.
  intros Hes. unfold validate_final_results. split.
  - destruct (Z.eqb_spec (len results) (len es)) as [Hl|]; [|done]. cbn [negb]. rewrite !bind_ok_unit, duplicates_ok. intros ([Hnd _] & Hrows & _).
    apply expected_rows_ok in Hrows as (rs & Hrs & Hin)%choose_rows; [|done]. exists rs. split; [|done]. apply same_members; [|apply list.Forall2_length in Hrs; unfold len in Hl; lia|done].
    apply (NoDup_fmap_1 cr_id). by rewrite (matching_ids _ _ _ Hrs).
  - intros (rs & Hp & Hrs). assert (NoDup (cr_id <$> results)) as Hnd by (rewrite <- Hp; by rewrite (matching_ids _ _ _ Hrs)).
    assert (len results = len es) as -> by (unfold len; rewrite <- Hp; by rewrite (list.Forall2_length _ _ _ Hrs)). rewrite Z.eqb_refl. cbn [negb].
    rewrite !bind_ok_unit, duplicates_ok, expected_rows_ok, unexpected_ok, !list.Forall_forall by done. split_and!; [done|set_solver| |].
    + intros e (i & He)%list_elem_of_lookup. destruct (list.Forall2_lookup_r _ _ _ _ _ Hrs He) as (r & Hr & Hm). exists r. split; [|done]. rewrite <- Hp. by apply list_elem_of_lookup_2 in Hr.
    + intros r Hr. rewrite <- Hp in Hr. apply (list_elem_of_fmap_2 cr_id) in Hr. by rewrite (matching_ids _ _ _ Hrs) in Hr.
Qed.
Lemma final_results_safe results es commit : validate_final_results results es commit <> Panic.
Proof.
  unfold validate_final_results. destruct (negb _); [done|]. pose proof (duplicates_safe ∅ results). destruct (check_duplicates ∅ results); [|done..]. cbn [mbind outcome_bind].
  pose proof (expected_rows_safe results commit es). destruct (check_expected_rows results commit es); [|done..]. apply unexpected_safe.
Qed.

(** ** Lemmas: what [oracle_detail] writes *)
(** A text that can be the value of a field. *)
Record field_text (s : list Z) : Prop := { ft_str : str_ok s; ft_nonempty : s <> []; ft_no_separator : 59 ∉ s; ft_trimmed : trimmed s }.
Definition key_ok (k : list Z) : Prop := k <> [] /\ Forall (fun b => 33 <= b < 127 /\ b <> 59 /\ b <> 61) k.

Lemma text_nonempty (l : list Z) : (len l =? 0) = false <-> l <> [].
Proof. rewrite Z.eqb_neq. split; [by intros H ->|]. intros Hl H. apply Hl, nil_length_inv. unfold len in H. lia. Qed.

Lemma parse_part pad key value id fields rest :
  Forall (fun b => b = 32) pad -> key_ok key -> field_text value -> key ∉ fields.*1 ->
  parse_detail_parts id fields ((pad ++ (key ++ [61]) ++ value) :: rest) = parse_detail_parts id (fields ++ [(key, value)]) rest.
Proof.
  intros Hpad [Hne Hk] [Hs Hv _ Ht] Hnew. cbn [parse_detail_parts].
  assert (Forall (fun b => 33 <= b < 127) (key ++ [61])) as Hk'.
  { apply list.Forall_app. split; [eapply list.Forall_impl; [exact Hk|]; cbn; lia|]. constructor; [lia|apply List.Forall_nil]. }
  destruct (trim_padded pad (key ++ [61]) value Hpad Hk' ltac:(by destruct key) Hs Ht) as [-> _].
  assert ((key ++ [61]) ++ value = key ++ 61 :: value) as -> by (by rewrite <- app_assoc).
  assert (61 ∉ key) as Hno by (intros Hin; rewrite list.Forall_forall in Hk; specialize (Hk 61 Hin); lia).
  rewrite (proj2 (text_nonempty (key ++ 61 :: value)) ltac:(by destruct key)). rewrite (proj2 (split_once_some 61 _ key value) (conj eq_refl Hno)).
  assert (trim key = key) as ->.
  { pose proof (trim_padded [] key [] (list.Forall_nil_2 _) ltac:(eapply list.Forall_impl; [exact Hk|]; cbn; lia) Hne str_ok_nil eq_refl) as [E _]. cbn [app] in E. by rewrite app_nil_r in E. }
  rewrite Ht. rewrite (proj2 (text_nonempty key) Hne), (proj2 (text_nonempty value) Hv). cbn [orb].
  assert (existsb (fun field => bool_decide (fst field = key)) fields = false) as ->; [|done].
  apply not_true_is_false. rewrite existsb_exists. intros (f & Hf & E). apply bool_decide_eq_true in E. apply Hnew. subst key. by apply list_elem_of_fmap_2, list_elem_of_In.
Qed.

Lemma not_in_app (c : Z) u v : c ∉ u -> c ∉ v -> c ∉ u ++ v.
Proof. rewrite elem_of_app. tauto. Qed.
Lemma keys_are_keys : Forall key_ok [DETAIL_KEY_ORACLE_MODE; DETAIL_KEY_EVIDENCE_ROLE; DETAIL_KEY_COMPATIBILITY_PROOF; DETAIL_KEY_COMMANDS; DETAIL_KEY_RETICULUM_COMMIT].
Proof. apply (bool_decide_unpack _). vm_compute. exact I. Qed.
Lemma bool_word_field b : field_text (bool_word b).
Proof.
  destruct b; split; try done; try (apply (bool_decide_unpack _); vm_compute; exact I).
  all: split; [apply (bool_decide_unpack _); vm_compute; exact I|reflexivity].
Qed.

Lemma oracle_detail_parses mode role proof commands commit id :
  field_text mode -> field_text role -> field_text (join 44 commands) -> field_text commit ->
  parse_detail_fields (oracle_detail mode role proof commands commit) id = Ok (expected_fields (mk_oracle_detail mode role proof (join 44 commands)) commit).
Proof.
  intros Hm Hr Hc Hcm. pose proof (bool_word_field proof) as Hb. pose proof keys_are_keys as Hk. rewrite !list.Forall_cons in Hk. destruct Hk as (K1 & K2 & K3 & K4 & K5 & _).
  set (part pad key value := pad ++ (key ++ [61]) ++ value).
  assert (forall pad key value, Forall (fun b => b = 32) pad -> key_ok key -> field_text value -> 59 ∉ part pad key value) as Hno.
  { intros pad key value Hp [_ Hkk] Hv. unfold part. rewrite list.Forall_forall in Hp, Hkk. repeat apply not_in_app; [| | |apply Hv].
    - intros Hin. specialize (Hp _ Hin). lia. - intros Hin. specialize (Hkk _ Hin). lia. - intros Hin%list_elem_of_singleton. lia. }
  assert (oracle_detail mode role proof commands commit = join 59 [part [] DETAIL_KEY_ORACLE_MODE mode; part [32] DETAIL_KEY_EVIDENCE_ROLE role;
    part [32] DETAIL_KEY_COMPATIBILITY_PROOF (bool_word proof); part [32] DETAIL_KEY_COMMANDS (join 44 commands); part [32] DETAIL_KEY_RETICULUM_COMMIT commit]) as ->.
  { unfold oracle_detail, part. cbn [join app]. change (str "; ") with [59; 32]. by rewrite <- !app_assoc. }
  assert (Forall (fun b => b = 32) ([] : list Z)) as H0 by apply List.Forall_nil. assert (Forall (fun b => b = 32) [32]) as H1 by (constructor; [done|apply List.Forall_nil]).
  unfold parse_detail_fields. rewrite split_join by (try done; repeat (apply list.Forall_cons; split; [by apply Hno|]); apply List.Forall_nil).
  unfold part. rewrite !parse_part; try done.
  all: apply (bool_decide_unpack _); vm_compute; exact I.
Qed.

(** ** Lemmas: paths *)
Definition portable (value : list Z) : Prop :=
  92 ∉ value /\ 58 ∉ value /\ Forall (fun part => part <> [] /\ part <> [46; 46]) (split 47 value) /\ list.head (split 47 value) <> Some [46].

Lemma split_cons c v : exists u l, split c v = u :: l /\ (u = [] <-> v = [] \/ list.head v = Some c).
Proof.
  destruct v as [|b v]; cbn [split list.head]; [exists [], []; split; [done|]; split; [by left|done]|]. destruct (Z.eqb_spec b c) as [->|Hb].
  - exists [], (split c v). split; [done|]. tauto.
  - destruct (split c v) as [|u l]; eexists _, _; (split; [done|]); split; [done|intros [|[=]]; done|done|intros [|[=]]; done].
Qed.
Lemma later_parts v : Forall (fun part => part <> []) (tail (split 47 v)) <-> list.last v <> Some 47 /\ contains_double_slash v = false.
Proof.
  induction v as [|b v IH]; [split; [by intros _; split|intros; apply List.Forall_nil]|]. cbn [split]. destruct (split_cons 47 v) as (u & l & Es & Hu). rewrite Es in IH |- *. cbn [tail] in IH.
  cbn [contains_double_slash].
  assert (list.last (b :: v) = match v with [] => Some b | _ => list.last v end) as -> by (by destruct v).
  destruct (Z.eqb_spec b 47) as [->|Hb]; cbn [tail].
  - rewrite list.Forall_cons, IH. destruct v as [|b' v]; [naive_solver|]. rewrite orb_false_iff, bool_decide_eq_false. naive_solver.
  - rewrite IH. rewrite bool_decide_eq_false_2 by (by intros [? _]). cbn [orb]. destruct v as [|b' v]; [|done]. cbn. naive_solver congruence.
Qed.

Lemma later_components_normal parts : Forall (fun part => part <> []) parts ->
  forallb (fun c => match c with Normal _ => true | _ => false end) (later_components parts) = true <-> Forall (fun part => part <> [46; 46]) parts.
Proof.
  induction 1 as [|p parts Hp _ IH]; [split; [intros; apply List.Forall_nil|done]|]. cbn [later_components]. rewrite list.Forall_cons.
  case_bool_decide as Hd; [destruct Hd as [->| ->]; [done|]; rewrite IH; naive_solver|]. cbn [forallb]. case_bool_decide as Hpp; [split; [done|]; by intros [? _]|].
  cbn [andb]. rewrite IH. tauto.
Qed.

Lemma not_existsb c l : existsb (Z.eqb c) l = false <-> c ∉ l.
Proof.
  rewrite <- not_true_iff_false, existsb_exists. split; intros H Hin; apply H; [exists c; split; [by apply list_elem_of_In|apply Z.eqb_refl]|].
  destruct Hin as (x & Hx & ->%Z.eqb_eq). by apply list_elem_of_In.
Qed.

Lemma portable_exact value : is_portable_repo_relative_path value = true <-> portable value.
Proof.
  unfold is_portable_repo_relative_path, portable, components. destruct (split_cons 47 value) as (u & l & Es & Hu). pose proof (later_parts value) as Hl. rewrite Es in Hl |- *. cbn [tail] in Hl.
  destruct (Z.eqb_spec (len value) 0) as [H0|H0].
  { assert (value = []) as -> by (apply nil_length_inv; unfold len in H0; lia). cbn [orb]. split; [done|]. intros (_ & _ & Hf & _). apply list.Forall_cons in Hf as [[Hf _] _]. naive_solver. }
  assert (value <> []) as Hne by (by intros ->). cbn [orb list.head].
  case_bool_decide as Hh; cbn [orb]; [split; [done|]; intros (_ & _ & Hf & _); apply list.Forall_cons in Hf as [[Hf _] _]; naive_solver|].
  assert (u <> []) as Hu' by naive_solver.
  case_bool_decide as Hla; cbn [orb]; [split; [done|]; intros (_ & _ & Hf & _); apply list.Forall_cons in Hf as [_ Hf]; assert (Forall (fun part => part <> []) l) as Hf' by (eapply list.Forall_impl; [exact Hf|]; cbn; tauto); by apply Hl in Hf' as [? _]|].
  destruct (existsb (Z.eqb 92) value) eqn:H92; cbn [orb]; [split; [done|]; intros (Hn & _); apply not_existsb in Hn; congruence|]. apply not_existsb in H92.
  destruct (existsb (Z.eqb 58) value) eqn:H58; cbn [orb]; [split; [done|]; intros (_ & Hn & _); apply not_existsb in Hn; congruence|]. apply not_existsb in H58.
  destruct (contains_double_slash value) eqn:Hd.
  { split; [done|]. intros (_ & _ & Hf & _). apply list.Forall_cons in Hf as [_ Hf]. assert (Forall (fun part => part <> []) l) as Hf' by (eapply list.Forall_impl; [exact Hf|]; cbn; tauto). by apply Hl in Hf' as [_ ?]. }
  cbn [negb andb]. pose proof (proj2 Hl (conj Hla eq_refl)) as Hln. assert (Forall (fun part => part <> [] /\ part <> [46; 46]) l <-> Forall (fun part => part <> [46; 46]) l) as Hand.
  { rewrite list.Forall_and. tauto. }
  rewrite list.Forall_cons, Hand. case_bool_decide as Hdot.
  - subst u. cbn [forallb]. split; [done|]. by intros (_ & _ & _ & ?).
  - rewrite (later_components_normal (u :: l)) by (by constructor). rewrite list.Forall_cons. naive_solver congruence.
Qed.

Lemma oracle_metadata_exact oracle expected :
  validate_final_oracle_metadata oracle expected = Ok tt <->
  (forall p, expected = Some p -> oe_reticulum_module_path oracle = p) /\ portable (oe_reticulum_module_path oracle) /\
  oracle = mk_oracle (oe_reticulum_module_path oracle) EXPECTED_RETICULUM_COMMIT (Some EXPECTED_FINAL_ORACLE_RNS_VERSION)
             EXPECTED_FINAL_ORACLE_CRYPTOGRAPHY_VERSION EXPECTED_FINAL_ORACLE_PYSERIAL_VERSION.
Proof.
  assert (forall b (e : FinalReportError), guard_err b e = Ok tt <-> b = false) as Hg by (intros [] e; cbn; naive_solver).
  unfold validate_final_oracle_metadata. rewrite !bind_ok_unit, !Hg, !negb_false_iff, portable_exact, !bool_decide_eq_true.
  assert ((match expected with Some p => negb (bool_decide (oe_reticulum_module_path oracle = p)) | None => false end) = false <->
    (forall p, expected = Some p -> oe_reticulum_module_path oracle = p)) as ->.
  { destruct expected as [p|]; [|naive_solver]. rewrite negb_false_iff, bool_decide_eq_true. naive_solver. }
  destruct oracle as [path commit rns crypt serial]. cbn. split; [intros (? & ? & -> & -> & -> & ->); done|]. intros (? & ? & E). injection E as -> -> -> ->. done.
Qed.

(** ** Lemmas: the summary *)
Definition status_count (s : ConformanceStatus) (results : list ConformanceResult) : Z := len (filter (fun r => cr_status r = s) results).
Lemma status_count_cons s r results : status_count s (r :: results) = (if decide (cr_status r = s) then 1 else 0) + status_count s results.
Proof. unfold status_count. rewrite filter_cons. destruct (decide (cr_status r = s)); [by rewrite len_cons|lia]. Qed.

Lemma fold_counts results t p f i : fold_left count_result results (mk_summary t p f i) =
  mk_summary t (p + status_count ConfPassed results) (f + status_count ConfFailed results) (i + status_count ConfInvalidEnvironment results).
Proof.
  revert p f i. induction results as [|r results IH]; intros p f i; [assert (forall s, status_count s [] = 0) as E by done; by rewrite !E, !Z.add_0_r|]. cbn [fold_left]. unfold count_result at 2.
  rewrite !status_count_cons. destruct (cr_status r); rewrite IH; cbn [rs_total rs_passed rs_failed rs_invalid_environment]; repeat (destruct (decide _); try done); f_equal; lia.
Qed.
Lemma status_counts results : status_count ConfPassed results + status_count ConfFailed results + status_count ConfInvalidEnvironment results = len results.
Proof.
  induction results as [|r results IH]; [done|]. rewrite !status_count_cons, len_cons. destruct (cr_status r); repeat (destruct (decide _); try done); lia.
Qed.
Lemma status_count_zero s results : status_count s results = 0 <-> Forall (fun r => cr_status r <> s) results.
Proof.
  induction results as [|r results IH]; [split; [intros; apply List.Forall_nil|done]|]. rewrite status_count_cons, list.Forall_cons, <- IH.
  assert (0 <= status_count s results) by apply len_nonneg. destruct (decide (cr_status r = s)); [split; [lia|]; by intros [? _]|]. split; [intros; split; [done|lia]|lia].
Qed.

(** ** Claims *)

(** A summary counts every result once, by its status, and is clean exactly when
    every result passed. *)
Theorem summary_exact results :
  let s := summarize_results results in
  s = mk_summary (len results) (status_count ConfPassed results) (status_count ConfFailed results) (status_count ConfInvalidEnvironment results) /\
  rs_passed s + rs_failed s + rs_invalid_environment s = rs_total s /\
  (is_clean s = true <-> Forall (fun r => cr_status r = ConfPassed) results).
Proof.
  unfold summarize_results. rewrite fold_counts, !Z.add_0_l. cbv zeta. unfold is_clean. cbn [rs_total rs_passed rs_failed rs_invalid_environment].
  split; [done|]. split; [apply status_counts|]. rewrite andb_true_iff, !Z.eqb_eq, !status_count_zero, <- list.Forall_and.
  split; intros H; (eapply list.Forall_impl; [exact H|]); intros r; cbn; [destruct (cr_status r); tauto|by intros ->].
Qed.

(** A final report passes exactly when its rows are, in some order, one for each
    expected row: with its id and category, passed, without a detail where none is
    expected, and otherwise with a detail whose fields are the five of the oracle,
    in any order, with the expected values.  The check never panics. *)
Theorem final_results_exact results expected reticulum_commit : NoDup (fr_id <$> expected) ->
  (validate_final_results results expected reticulum_commit = Ok tt <->
   exists rows, rows ≡ₚ results /\ Forall2 (row_matches reticulum_commit) rows expected) /\
  validate_final_results results expected reticulum_commit <> Panic.
Proof. intros Hnd. split; [by apply final_results_ok|apply final_results_safe]. Qed.

(** The detail that [oracle_detail] writes is read back as its five fields, for
    any mode, role, commands and commit that are not empty, have no semicolon and no
    white space at their ends: such a row has the detail its expectation asks for. *)
Theorem oracle_detail_roundtrip mode role proof commands commit id :
  field_text mode -> field_text role -> field_text (join 44 commands) -> field_text commit ->
  parse_detail_fields (oracle_detail mode role proof commands commit) id = Ok (expected_fields (mk_oracle_detail mode role proof (join 44 commands)) commit) /\
  detail_matches commit id (Some (oracle_detail mode role proof commands commit)) (Some (mk_oracle_detail mode role proof (join 44 commands))).
Proof. intros Hm Hr Hc Hcm. pose proof (oracle_detail_parses mode role proof commands commit id Hm Hr Hc Hcm) as E. split; [exact E|]. by eexists. Qed.

(** The metadata of an oracle passes exactly when the versions and the commit are
    the pinned ones and the module path is relative to the repository: no backslash
    or colon, no empty part, no [..], and no [.] in front. *)
Theorem oracle_metadata_checked oracle expected_path :
  validate_final_oracle_metadata oracle expected_path = Ok tt <->
  (forall p, expected_path = Some p -> oe_reticulum_module_path oracle = p) /\ portable (oe_reticulum_module_path oracle) /\
  oracle = mk_oracle (oe_reticulum_module_path oracle) EXPECTED_RETICULUM_COMMIT (Some EXPECTED_FINAL_ORACLE_RNS_VERSION)
             EXPECTED_FINAL_ORACLE_CRYPTOGRAPHY_VERSION EXPECTED_FINAL_ORACLE_PYSERIAL_VERSION.
Proof. apply oracle_metadata_exact. Qed.

(** ** Witnesses *)
Definition sample_rows : list ConformanceResult :=
  [mk_result (str "b") (str "oracle") ConfPassed (Some (str "commands=x,y;reticulum_commit = c ; oracle_mode=m;evidence_role=r; ;compatibility_proof=true"));
   result_passed (str "a") (str "kiss")].
Definition sample_expectations : list ExpectedFinalResult :=
  [mk_final (str "a") (str "kiss") None; mk_final (str "b") (str "oracle") (Some (mk_oracle_detail (str "m") (str "r") true (str "x,y")))].

Lemma final_results_exact_witness :
  exists rows, rows ≡ₚ sample_rows /\ Forall2 (row_matches (str "c")) rows sample_expectations.
Proof.
  assert (NoDup (fr_id <$> sample_expectations)) as Hnd by (apply (bool_decide_unpack _); vm_compute; exact I).
  apply (proj1 (final_results_exact sample_rows sample_expectations (str "c") Hnd)). vm_compute. reflexivity.
Defined.

Lemma oracle_detail_roundtrip_witness :
  field_text (str "fixture_replay") /\
  parse_detail_fields (oracle_detail (str "fixture_replay") (str "fixture_replay") false [str "kiss-encode"; str "kiss-decode"] EXPECTED_RETICULUM_COMMIT) (str "a") =
    Ok (expected_fields (mk_oracle_detail (str "fixture_replay") (str "fixture_replay") false (str "kiss-encode,kiss-decode")) EXPECTED_RETICULUM_COMMIT).
Proof.
  assert (field_text (str "fixture_replay") /\ field_text (join 44 [str "kiss-encode"; str "kiss-decode"]) /\ field_text EXPECTED_RETICULUM_COMMIT) as (H1 & H2 & H3).
  { split_and!; split; try done; try (apply (bool_decide_unpack _); vm_compute; exact I).
    all: split; [apply (bool_decide_unpack _); vm_compute; exact I|reflexivity]. }
  split; [exact H1|].
  exact (proj1 (oracle_detail_roundtrip (str "fixture_replay") (str "fixture_replay") false [str "kiss-encode"; str "kiss-decode"] EXPECTED_RETICULUM_COMMIT (str "a") H1 H1 H2 H3)).
Defined.
