(* ===== verification/Captures.v ===== *)
(** What the checks of a profile's evidence accept: captures of the Python oracle
    ([hyf_rns_conformance::final_report], the functions on [serde_json::Value]), files
    of cases and manifests ([hyf_rns_conformance::fixtures]), and the rows a profile
    makes of them.  [Profile1] and [Profile2] apply these lemmas.

    The last section reads captures with the JSON parser of the Nostr link, an
    instance of [JsonDoc] that the witnesses run. *)
From stdpp Require Import gmap strings.
From S2P Require Import Kiss RNode RnsWire RnsCrypto Prelude Utf8 Cursor NostrHex NostrJson NostrParser Text Display ErrorText Fixtures ConfReport.

Open Scope Z_scope.

Lemma checked {E} (c : bool) (m : outcome E unit) : m <> Ok tt -> (if c then Ok tt else m) = Ok tt <-> c = true.
Proof. intros Hm. by destruct c. Qed.
Lemma guarded {E} (c : bool) (e : E) : guard_err c e = Ok tt <-> c = false.
Proof. destruct c; by split. Qed.
Lemma map_err_ok {E E' A} (f : E -> E') (m : outcome E A) a : map_err f m = Ok a <-> m = Ok a.
Proof. destruct m; cbn; split; congruence. Qed.
Lemma require_equal_ok actual expected message : require_equal actual expected message = Ok tt <-> actual = expected.
Proof. unfold require_equal. rewrite checked by done. apply bool_decide_eq_true. Qed.

(** ** Captures *)
Section captures.
Context `{J : JsonDoc}.
Implicit Types (d : jdoc) (f k v : list Z).

(** The document has the text [v] under the key [k]. *)
Definition field_is d k v : Prop := doc_get d k ≫= doc_str = Some v.
Definition flag_is d k (b : bool) : Prop := doc_get d k ≫= doc_bool = Some b.
Fixpoint value_at d (path : list (list Z)) : option jdoc :=
  match path with [] => Some d | k :: path => doc_get d k ≫= fun d => value_at d path end.

(** What the oracle records of a run: the command, its mode and the commit of the
    Reticulum it ran. *)
Record captured d (command mode commit : list Z) : Prop := {
  cap_command : field_is d (str "command") command;
  cap_mode : value_at d [str "oracle"; str "mode"] ≫= doc_str = Some mode;
  cap_commit : value_at d [str "oracle"; str "reticulum"; str "commit"] ≫= doc_str = Some commit;
}.

(** A file of the directory holds the object [d]. *)
Definition capture_file (dir f : list Z) d : Prop :=
  exists contents, read_to_string (join_file dir f) = Ok contents /\ doc_from_str contents = Ok d /\ doc_is_object d = true.

Lemma load_capture_ok dir f d : load_capture dir f = Ok d <-> capture_file dir f d.
Proof.
  unfold load_capture, capture_file. rewrite bind_ok. setoid_rewrite bind_ok. setoid_rewrite map_err_ok. split.
  - intros (c & Hc & d' & Hd & H). exists c. destruct (doc_is_object d') eqn:Ho; [|done]. injection H as ->. done.
  - intros (c & Hc & Hd & Ho). exists c. split; [done|]. exists d. by rewrite Ho.
Qed.

Lemma required_string_ok d f k v : required_string_field d f k = Ok v <-> field_is d k v /\ v <> [].
Proof.
  unfold required_string_field, field_is. destruct (doc_get d k ≫= doc_str) as [a|]; [|naive_solver].
  destruct (len a =? 0) eqn:E.
  - split; [done|]. intros [[= ->] Hv]. apply text_nonempty in Hv. congruence.
  - apply text_nonempty in E. split; [by intros [= <-]|]. by intros [[= ->] _].
Qed.
Lemma expect_string_ok d f k v : v <> [] -> expect_string_field d f k v = Ok tt <-> field_is d k v.
Proof.
  intros Hv. unfold expect_string_field. rewrite bind_ok. split.
  - intros (a & Ha & H). rewrite checked, bool_decide_eq_true in H by done. subst a. by apply required_string_ok in Ha as [? _].
  - intros H. exists v. split; [by apply required_string_ok|]. by rewrite checked, bool_decide_eq_true.
Qed.
Lemma expect_bool_ok d f k b : expect_bool_field d f k b = Ok tt <-> flag_is d k b.
Proof.
  unfold expect_bool_field, flag_is. destruct (doc_get d k ≫= doc_bool) as [a|]; [|naive_solver].
  rewrite checked, bool_decide_eq_true by done. naive_solver.
Qed.
Lemma optional_string_ok d k o : optional_string_field d k = Ok o <->
  match o with None => doc_get d k = None | Some v => field_is d k v /\ v <> [] end.
Proof.
  unfold optional_string_field, field_is. destruct (doc_get d k) as [x|]; cbn; [|destruct o; naive_solver].
  destruct (doc_str x) as [v|]; [|destruct o; naive_solver]. destruct (len v =? 0) eqn:E.
  - destruct o as [w|]; [|done]. split; [done|]. intros [[= ->] Hv]. apply text_nonempty in Hv. congruence.
  - apply text_nonempty in E. destruct o as [w|]; [|done]. naive_solver.
Qed.

Lemma string_path_loop_ok d f path left_ x : string_path_loop d f path left_ = Ok x <-> value_at d left_ = Some x.
Proof.
  revert d. induction left_ as [|k l IH]; intros d; cbn [string_path_loop value_at]; [naive_solver|].
  destruct (doc_get d k) as [y|]; cbn; [apply IH|done].
Qed.
Lemma expect_path_ok d f path v : v <> [] -> expect_string_path d f path v = Ok tt <-> value_at d path ≫= doc_str = Some v.
Proof.
  intros Hv. unfold expect_string_path, string_path. rewrite bind_ok. setoid_rewrite bind_ok. setoid_rewrite string_path_loop_ok. split.
  - intros (a & (x & Hx & Ha) & H). rewrite checked, bool_decide_eq_true in H by done. subst a. rewrite Hx. cbn.
    destruct (doc_str x) as [w|]; [|done]. destruct (len w =? 0); [done|]. congruence.
  - destruct (value_at d path) as [x|]; [|done]. cbn. intros Hx. exists v. split; [|by rewrite checked, bool_decide_eq_true].
    exists x. rewrite Hx. by rewrite (proj2 (text_nonempty v) Hv).
Qed.

Lemma expect_capture_ok d f command mode commit : command <> [] -> mode <> [] -> commit <> [] ->
  expect_capture d f command mode commit = Ok tt <-> captured d command mode commit.
Proof.
  intros H1 H2 H3. unfold expect_capture. rewrite !bind_ok_unit, expect_string_ok, !expect_path_ok by done.
  split; [by intros (? & ? & ?)|]. by intros [].
Qed.
End captures.

(** ** Fixture files *)
Record provenance_ok (p : ReticulumProvenance) : Prop := { pv_repo : rp_repo p = EXPECTED_RETICULUM_REPO; pv_commit : rp_commit p = EXPECTED_RETICULUM_COMMIT }.
Lemma validate_provenance_ok p : validate_reticulum_provenance p = Ok tt <-> provenance_ok p.
Proof.
  unfold validate_reticulum_provenance. rewrite !bind_ok_unit, !guarded, !negb_false_iff, !bool_decide_eq_true. split; [by intros (? & _ & ?)|].
  intros [H1 H2]. split_and!; [done| |done]. rewrite H2. vm_compute. reflexivity.
Qed.

Lemma validate_schema_ok a e : validate_schema a e = Ok tt <-> a = e.
Proof. unfold validate_schema. rewrite checked by done. apply bool_decide_eq_true. Qed.
Lemma validate_profile_ok a e : validate_profile a e = Ok tt <-> a = e.
Proof. unfold validate_profile. rewrite checked by done. apply bool_decide_eq_true. Qed.
Lemma validate_metadata_ok f v : validate_manifest_metadata f v = Ok tt <-> v <> [].
Proof. unfold validate_manifest_metadata. rewrite checked by done. rewrite negb_true_iff. apply text_nonempty. Qed.

Section fixture_files.
Context {T : Type} `{FC : FromJson (FixtureCasesFile T), FM : FromJson ManifestFile}.

(** A text is a file of [count] cases of the profile, generated from the pinned
    Reticulum. *)
Definition cases_file (profile contents : list Z) (count : Z) : Prop :=
  exists f : FixtureCasesFile T, from_str contents = Ok f /\ fc_schema f = EXPECTED_FIXTURE_CASES_SCHEMA /\ fc_profile f = profile /\
    provenance_ok (fc_reticulum f) /\ len (fc_cases f) = count.

Lemma parse_cases_ok profile contents f : parse_fixture_cases_for_profile contents profile = Ok f <->
  from_str contents = Ok f /\ fc_schema f = EXPECTED_FIXTURE_CASES_SCHEMA /\ fc_profile f = profile /\ provenance_ok (fc_reticulum f).
Proof.
  unfold parse_fixture_cases_for_profile. rewrite bind_ok. setoid_rewrite map_err_ok. split.
  - intros (a & Ha & H). rewrite !bind_ok_unit, validate_schema_ok, validate_profile_ok, validate_provenance_ok in H. destruct H as (? & ? & ? & [= <-]). done.
  - intros (Hf & H). exists f. split; [done|]. rewrite !bind_ok_unit, validate_schema_ok, validate_profile_ok, validate_provenance_ok. tauto.
Qed.

(** A text is a manifest of the profile that lists the expected files. *)
Definition manifest_file `{P : RnsPrims} (profile contents : list Z) (expected : list ExpectedManifestEntry) : Prop :=
  exists m, from_str contents = Ok m /\ mn_schema m = EXPECTED_MANIFEST_SCHEMA /\ mn_profile m = profile /\ provenance_ok (mn_reticulum m) /\
    mn_generated_by m <> [] /\ mn_generated_at m <> [] /\ mn_fixtures m ≡ₚ entry_of <$> expected.

Lemma parse_manifest_ok profile contents m : parse_manifest_for_profile contents profile = Ok m <->
  from_str contents = Ok m /\ mn_schema m = EXPECTED_MANIFEST_SCHEMA /\ mn_profile m = profile /\ provenance_ok (mn_reticulum m) /\
  mn_generated_by m <> [] /\ mn_generated_at m <> [].
Proof.
  unfold parse_manifest_for_profile. rewrite bind_ok. setoid_rewrite map_err_ok. split.
  - intros (a & Ha & H). rewrite !bind_ok_unit, validate_schema_ok, validate_profile_ok, validate_provenance_ok, !validate_metadata_ok in H. destruct H as (? & ? & ? & ? & ? & [= <-]). done.
  - intros (Hf & H). exists m. split; [done|]. rewrite !bind_ok_unit, validate_schema_ok, validate_profile_ok, validate_provenance_ok, !validate_metadata_ok. tauto.
Qed.

Lemma manifest_file_ok `{P : RnsPrims, L : !RnsPrimsLaws P} profile contents expected : NoDup (ee_file <$> expected) ->
  (manifest ← parse_manifest_for_profile contents profile; assert_exact_manifest_entries manifest expected) = Ok tt <-> manifest_file profile contents expected.
Proof.
  intros Hnd. unfold manifest_file. rewrite bind_ok. setoid_rewrite parse_manifest_ok. setoid_rewrite (fun m => manifest_exact m expected Hnd). naive_solver.
Qed.
End fixture_files.

(** ** Rows *)
Lemma fixture_result_ok {E} id category m row : fixture_result (E := E) id category m = Ok row ->
  cr_status row = ConfPassed -> m = Ok tt /\ row = result_passed id category.
Proof. destruct m as [[]|e|]; cbn; [by intros [= <-] _|by intros [= <-]|done]. Qed.
Lemma fixture_result_safe {E} id category m : m <> Panic -> fixture_result (E := E) id category m <> Panic.
Proof. by destruct m. Qed.

Lemma fixture_result_keys {E} id category m row : fixture_result (E := E) id category m = Ok row -> (cr_id row, cr_category row) = (id, category).
Proof. destruct m as [[]|e|]; cbn; [by intros [= <-]|by intros [= <-]|done]. Qed.
Lemma not_clean results : Exists (fun r => cr_status r = ConfInvalidEnvironment) results -> is_clean (summarize_results results) = false.
Proof.
  intros He. unfold summarize_results. rewrite fold_counts. unfold is_clean. cbn [rs_failed rs_invalid_environment]. rewrite !Z.add_0_l.
  apply andb_false_intro2, Z.eqb_neq. rewrite status_count_zero. intros Hf. apply list.Exists_exists in He as (r & Hr & Hs). rewrite list.Forall_forall in Hf. by apply (Hf r Hr).
Qed.

Lemma rows_passed results es commit : NoDup (fr_id <$> es) -> validate_final_results results es commit = Ok tt -> Forall (fun r => cr_status r = ConfPassed) results.
Proof.
  intros Hes (rs & Hp & Hrs)%final_results_ok; [|done]. rewrite <- Hp. clear Hp Hes. induction Hrs as [|r e rs es (_ & _ & Hs & _) _ IH]; [apply List.Forall_nil|by constructor].
Qed.
Lemma plain_row_matches commit id category : row_matches commit (result_passed id category) (mk_final id category None).
Proof. by repeat split. Qed.

(** A passed row with the detail the oracle's report has. *)
Definition oracle_row (id category mode role : list Z) (proof : bool) (commands : list (list Z)) : ConformanceResult :=
  mk_result id category ConfPassed (Some (oracle_detail mode role proof commands EXPECTED_RETICULUM_COMMIT)).
Definition field_textb (s : list Z) : bool :=
  bool_decide (bytes_ok s) && utf8_ok s && negb (bool_decide (s = [])) && negb (bool_decide (59 ∈ s)) && bool_decide (trim s = s).
Lemma field_textb_spec s : field_textb s = true -> field_text s.
Proof.
  unfold field_textb. rewrite !andb_true_iff, !negb_true_iff, !bool_decide_eq_true, !bool_decide_eq_false. intros ((((Hb & Hu) & Hn) & Hs) & Ht). by repeat split.
Qed.
Lemma oracle_row_matches id category mode role proof commands joined :
  join 44 commands = joined -> field_textb mode = true -> field_textb role = true -> field_textb joined = true ->
  row_matches EXPECTED_RETICULUM_COMMIT (oracle_row id category mode role proof commands)
    (mk_final id category (Some (mk_oracle_detail mode role proof joined))).
Proof.
  intros <- Hm Hr Hc. unfold row_matches. cbn [oracle_row cr_id cr_category cr_status cr_detail fr_id fr_category fr_detail]. split_and!; [done..|].
  eexists. split; [|reflexivity]. apply oracle_detail_parses; apply field_textb_spec; [done..|]. vm_compute. reflexivity.
Qed.

(** ** Captures in JSON *)
(** A later member of an object replaces an earlier one with its key. *)
Definition member (v : JsonValue) (k : list Z) : option JsonValue :=
  match v with JObject fields => snd <$> list.last (filter (fun field => fst field = k) fields) | _ => None end.
Definition lookup_file (files : list (list Z * list Z)) (path : list Z) : outcome (list Z) (list Z) :=
  match List.find (fun file => bool_decide (fst file = path)) files with Some (_, contents) => Ok contents | None => Err (str "no such file") end.
Definition json_docs (files : list (list Z * list Z)) : JsonDoc := {|
  jdoc := JsonValue;
  doc_get := member;
  doc_str := fun v => match v with JString s => Some s | _ => None end;
  doc_bool := fun v => match v with JBool b => Some b | _ => None end;
  doc_array := fun v => match v with JArray l => Some l | _ => None end;
  doc_is_object := fun v => match v with JObject _ => true | _ => false end;
  doc_from_str := fun contents => map_err (fun _ => str "malformed") (parse contents);
  read_to_string := lookup_file files;
|}.

(** What the oracle writes for a command. *)
Definition sample_capture (command mode : list Z) (fields : list (list Z * JsonValue)) : JsonValue :=
  JObject ([(str "command", JString command);
            (str "oracle", JObject [(str "mode", JString mode); (str "reticulum", JObject [(str "commit", JString EXPECTED_RETICULUM_COMMIT)])])] ++ fields).
