(* ===== verification/Profile1.v ===== *)
(** [hyf_rns_conformance::profile1]: the conformance profile of KISS framing and the
    RNode commands (src/crates/hyf_rns_conformance/src/profile1.rs): the rows it makes
    of its fixture files, the captures it takes as evidence, and its final report.

    The fixture files the crate includes are the parameter [Profile1Files].  The claims
    say which captures are evidence, and when a final report is written and with which
    rows; the capture of the KISS decoder that evidence must contain is compared with
    the decoder of [Kiss]. *)
From stdpp Require Import gmap strings.
From S2P Require Import Kiss RNode RnsWire RnsCrypto Prelude Utf8 Cursor NostrHex NostrJson NostrParser Text Display ErrorText Fixtures ConfReport Captures.

Open Scope Z_scope.

Definition CATEGORY_FIXTURE_MANIFEST : list Z := str "fixture_manifest".
Definition CATEGORY_KISS : list Z := str "kiss".
Definition CATEGORY_RNODE_COMMAND : list Z := str "rnode_command".
Definition CATEGORY_RNODE_CONFIG_VALIDATION : list Z := str "rnode_config_validation".
Definition CATEGORY_RNODE_STAT : list Z := str "rnode_stat".
Definition CATEGORY_RNS_ORACLE_FIXTURE_REPLAY : list Z := str "rns_oracle_fixture_replay".
Definition PROFILE_1_KISS_DECODE_CAPTURE_HEX : list Z := str "c000dbdcdbdd01c0".
Definition PROFILE_1_KISS_DECODE_KIND : list Z := str "data".
Definition PROFILE_1_KISS_DECODE_COMMAND_HEX : list Z := str "00".
Definition PROFILE_1_KISS_DECODE_PAYLOAD_HEX : list Z := str "c0db01".

Definition RESULT_ID_FIXTURE_MANIFEST : list Z := str "profile_1_kiss_rnode.fixture_manifest".
Definition RESULT_ID_KISS : list Z := str "profile_1_kiss_rnode.kiss".
Definition RESULT_ID_RNODE_COMMAND : list Z := str "profile_1_kiss_rnode.rnode_command".
Definition RESULT_ID_RNODE_CONFIG_VALIDATION : list Z := str "profile_1_kiss_rnode.rnode_config_validation".
Definition RESULT_ID_RNODE_STAT : list Z := str "profile_1_kiss_rnode.rnode_stat".
Definition RESULT_ID_RNS_ORACLE_FIXTURE_REPLAY : list Z := str "profile_1_kiss_rnode.rns_oracle.fixture_replay".

Definition REQUIRED_PROFILE_1_RESULTS : list (list Z * list Z) :=
  [(RESULT_ID_FIXTURE_MANIFEST, CATEGORY_FIXTURE_MANIFEST);
   (RESULT_ID_KISS, CATEGORY_KISS);
   (RESULT_ID_RNODE_COMMAND, CATEGORY_RNODE_COMMAND);
   (RESULT_ID_RNODE_CONFIG_VALIDATION, CATEGORY_RNODE_CONFIG_VALIDATION);
   (RESULT_ID_RNODE_STAT, CATEGORY_RNODE_STAT);
   (RESULT_ID_RNS_ORACLE_FIXTURE_REPLAY, CATEGORY_RNS_ORACLE_FIXTURE_REPLAY)].
Definition REQUIRED_PROFILE_1_RESULT_CATEGORIES : list (list Z) :=
  [CATEGORY_FIXTURE_MANIFEST; CATEGORY_KISS; CATEGORY_RNODE_COMMAND; CATEGORY_RNODE_CONFIG_VALIDATION;
   CATEGORY_RNODE_STAT; CATEGORY_RNS_ORACLE_FIXTURE_REPLAY].
Definition PROFILE_1_FINAL_RESULTS : list ExpectedFinalResult :=
  [mk_final RESULT_ID_FIXTURE_MANIFEST CATEGORY_FIXTURE_MANIFEST None;
   mk_final RESULT_ID_KISS CATEGORY_KISS None;
   mk_final RESULT_ID_RNODE_COMMAND CATEGORY_RNODE_COMMAND None;
   mk_final RESULT_ID_RNODE_CONFIG_VALIDATION CATEGORY_RNODE_CONFIG_VALIDATION None;
   mk_final RESULT_ID_RNODE_STAT CATEGORY_RNODE_STAT None;
   mk_final RESULT_ID_RNS_ORACLE_FIXTURE_REPLAY CATEGORY_RNS_ORACLE_FIXTURE_REPLAY
     (Some (mk_oracle_detail (str "fixture_replay") (str "fixture_replay") false (str "kiss-encode,kiss-decode,rnode-command")))].

(** The contents of the files under src/fixtures/rns/profile_1_kiss_rnode. *)
Class Profile1Files := {
  MANIFEST : list Z;
  KISS_FIXTURE : list Z;
  KISS_NEGATIVE_FIXTURE : list Z;
  RNODE_COMMAND_FIXTURE : list Z;
  RNODE_CONFIG_FIXTURE : list Z;
  RNODE_STAT_FIXTURE : list Z;
}.

Definition expected_manifest `{Profile1Files} : list ExpectedManifestEntry :=
  [mk_expected (str "kiss_vectors.json") CATEGORY_KISS 5 KISS_FIXTURE;
   mk_expected (str "kiss_negative_vectors.json") (str "kiss_negative") 4 KISS_NEGATIVE_FIXTURE;
   mk_expected (str "rnode_command_vectors.json") CATEGORY_RNODE_COMMAND 10 RNODE_COMMAND_FIXTURE;
   mk_expected (str "rnode_config_validation_vectors.json") CATEGORY_RNODE_CONFIG_VALIDATION 7 RNODE_CONFIG_FIXTURE;
   mk_expected (str "rnode_stat_vectors.json") CATEGORY_RNODE_STAT 11 RNODE_STAT_FIXTURE].

Record Profile1FinalEvidence := mk_evidence { fixture_replay_commands : list (list Z) }.
Definition Profile1FinalEvidence_new (commands : list (list Z)) : outcome FinalReportError Profile1FinalEvidence :=
  if negb (bool_decide (commands = [str "kiss-encode"; str "kiss-decode"; str "rnode-command"]))
  then invalid_evidence (str "Profile 1 final evidence requires kiss-encode,kiss-decode,rnode-command fixture replay")
  else Ok (mk_evidence commands).

Definition validate_profile_1_final_report (report : ConformanceRun) : outcome FinalReportError unit :=
  if negb (bool_decide (run_profile report = PROFILE_1_KISS_RNODE)) then invalid_evidence (str "Profile 1 final report has wrong profile")
  else if negb (bool_decide (run_reticulum_commit report = EXPECTED_RETICULUM_COMMIT)) then invalid_evidence (str "Profile 1 final report has wrong Reticulum commit")
  else
    match ce_oracle (run_environment report) with
    | Some _ => invalid_evidence (str "Profile 1 final report must not include oracle environment metadata")
    | None => validate_final_results (run_results report) PROFILE_1_FINAL_RESULTS EXPECTED_RETICULUM_COMMIT
    end.

Definition required_categories_are_present (results : list ConformanceResult) : bool :=
  let categories : gset (list Z) := list_to_set (cr_category <$> results) in
  forallb (fun category => bool_decide (category ∈ categories)) REQUIRED_PROFILE_1_RESULT_CATEGORIES.

Definition profile_1_oracle_unavailable_results : list ConformanceResult :=
  [result_invalid_environment RESULT_ID_RNS_ORACLE_FIXTURE_REPLAY CATEGORY_RNS_ORACLE_FIXTURE_REPLAY
     (str "fixture replay captures are generated by private evidence tooling")].

Section profile.
Context `{J : JsonDoc, FC : FromJson (FixtureCasesFile jdoc), FM : FromJson ManifestFile, P : RnsPrims, Profile1Files}.

(** ** Fixtures *)
Definition validate_fixture_cases (contents : list Z) (expected_count : Z) : outcome FixtureError unit :=
  fixture ← (parse_fixture_cases_for_profile contents PROFILE_1_KISS_RNODE : outcome FixtureError (FixtureCasesFile jdoc));
  if len (fc_cases fixture) =? expected_count then Ok tt
  else Err (UnexpectedFixtureValue (str "case_count") (decimal (len (fc_cases fixture)))).
Definition validate_kiss_fixtures : outcome FixtureError unit :=
  _ ← validate_fixture_cases KISS_FIXTURE 5;
  validate_fixture_cases KISS_NEGATIVE_FIXTURE 4.
Definition validate_fixture_manifest : outcome FixtureError unit :=
  manifest ← parse_manifest_for_profile MANIFEST PROFILE_1_KISS_RNODE;
  assert_exact_manifest_entries manifest expected_manifest.

Definition profile_1_fixture_results {E} : outcome E (list ConformanceResult) :=
  manifest ← fixture_result RESULT_ID_FIXTURE_MANIFEST CATEGORY_FIXTURE_MANIFEST validate_fixture_manifest;
  kiss ← fixture_result RESULT_ID_KISS CATEGORY_KISS validate_kiss_fixtures;
  command ← fixture_result RESULT_ID_RNODE_COMMAND CATEGORY_RNODE_COMMAND (validate_fixture_cases RNODE_COMMAND_FIXTURE 10);
  config ← fixture_result RESULT_ID_RNODE_CONFIG_VALIDATION CATEGORY_RNODE_CONFIG_VALIDATION (validate_fixture_cases RNODE_CONFIG_FIXTURE 7);
  stat ← fixture_result RESULT_ID_RNODE_STAT CATEGORY_RNODE_STAT (validate_fixture_cases RNODE_STAT_FIXTURE 11);
  Ok [manifest; kiss; command; config; stat].
Definition profile_1_results {E} : outcome E (list ConformanceResult) :=
  results ← profile_1_fixture_results;
  Ok (results ++ profile_1_oracle_unavailable_results).

(** ** Evidence *)
Definition expect_string_value (value : option jdoc) (label expected : list Z) : outcome FinalReportError unit :=
  match value ≫= doc_str with
  | None => invalid_evidence (label ++ str " is missing or not a string")
  | Some actual =>
      if negb (bool_decide (actual = expected)) then invalid_evidence (label ++ str " mismatch: expected " ++ expected ++ str ", got " ++ actual)
      else Ok tt
  end.

Definition expect_kiss_decode_capture (document : jdoc) : outcome FinalReportError unit :=
  _ ← expect_string_value (doc_get document (str "encoded_hex")) (str "kiss_decode.json encoded_hex") PROFILE_1_KISS_DECODE_CAPTURE_HEX;
  match doc_get document (str "frames") ≫= doc_array with
  | None => invalid_evidence (str "kiss_decode.json is missing frames array")
  | Some frames =>
      if negb (len frames =? 1) then invalid_evidence (str "kiss_decode.json expected 1 decoded frame, got " ++ decimal (len frames))
      else
        match frames !! 0%nat with
        | None => Panic
        | Some frame =>
            _ ← expect_string_value (doc_get frame (str "kind")) (str "kiss_decode.json frames[0].kind") PROFILE_1_KISS_DECODE_KIND;
            _ ← expect_string_value (doc_get frame (str "command_hex")) (str "kiss_decode.json frames[0].command_hex") PROFILE_1_KISS_DECODE_COMMAND_HEX;
            expect_string_value (doc_get frame (str "payload_hex")) (str "kiss_decode.json frames[0].payload_hex") PROFILE_1_KISS_DECODE_PAYLOAD_HEX
        end
  end.

Definition from_capture_dir (capture_dir : list Z) : outcome FinalReportError Profile1FinalEvidence :=
  kiss ← load_capture capture_dir (str "kiss_encode.json");
  kiss_decode ← load_capture capture_dir (str "kiss_decode.json");
  rnode ← load_capture capture_dir (str "rnode_command.json");
  _ ← expect_capture kiss (str "kiss_encode.json") (str "kiss-encode") (str "fixture_replay") EXPECTED_RETICULUM_COMMIT;
  _ ← expect_capture kiss_decode (str "kiss_decode.json") (str "kiss-decode") (str "fixture_replay") EXPECTED_RETICULUM_COMMIT;
  _ ← expect_kiss_decode_capture kiss_decode;
  _ ← expect_capture rnode (str "rnode_command.json") (str "rnode-command") (str "fixture_replay") EXPECTED_RETICULUM_COMMIT;
  kiss_command ← required_string_field kiss (str "kiss_encode.json") (str "command");
  kiss_decode_command ← required_string_field kiss_decode (str "kiss_decode.json") (str "command");
  rnode_command ← required_string_field rnode (str "rnode_command.json") (str "command");
  Profile1FinalEvidence_new [kiss_command; kiss_decode_command; rnode_command].

(** ** Reports *)
Definition profile_1_final_results {E} (evidence : Profile1FinalEvidence) : outcome E (list ConformanceResult) :=
  results ← profile_1_fixture_results;
  Ok (results ++ [mk_result RESULT_ID_RNS_ORACLE_FIXTURE_REPLAY CATEGORY_RNS_ORACLE_FIXTURE_REPLAY ConfPassed
    (Some (oracle_detail (str "fixture_replay") (str "fixture_replay") false (fixture_replay_commands evidence) EXPECTED_RETICULUM_COMMIT))]).

Definition profile_1_report {E} (run_id hyf_commit started_at : list Z) (environment : ConformanceEnvironment) : outcome E ConformanceRun :=
  results ← profile_1_results;
  Ok (new_profile PROFILE_1_KISS_RNODE run_id hyf_commit EXPECTED_RETICULUM_COMMIT started_at environment results).

Definition profile_1_final_report (run_id hyf_commit started_at : list Z) (environment : ConformanceEnvironment)
    (evidence : Profile1FinalEvidence) : outcome FinalReportError ConformanceRun :=
  results ← profile_1_final_results evidence;
  let report := new_profile PROFILE_1_KISS_RNODE run_id hyf_commit EXPECTED_RETICULUM_COMMIT started_at environment results in
  _ ← validate_profile_1_final_report report;
  Ok report.
End profile.

(** ** Lemmas *)
(** The members of the capture of the KISS decoder: the stream and its one frame. *)
Definition kiss_decoded `{J : JsonDoc} (d : jdoc) : Prop :=
  field_is d (str "encoded_hex") PROFILE_1_KISS_DECODE_CAPTURE_HEX /\
  exists frame, doc_get d (str "frames") ≫= doc_array = Some [frame] /\
    field_is frame (str "kind") PROFILE_1_KISS_DECODE_KIND /\
    field_is frame (str "command_hex") PROFILE_1_KISS_DECODE_COMMAND_HEX /\
    field_is frame (str "payload_hex") PROFILE_1_KISS_DECODE_PAYLOAD_HEX.

Lemma p1_final_ids_nodup : NoDup (fr_id <$> PROFILE_1_FINAL_RESULTS).
Proof. apply (bool_decide_unpack _). vm_compute. exact I. Qed.

Lemma p1_new_evidence_ok commands evidence : Profile1FinalEvidence_new commands = Ok evidence <->
  commands = [str "kiss-encode"; str "kiss-decode"; str "rnode-command"] /\ evidence = mk_evidence commands.
Proof. unfold Profile1FinalEvidence_new. case_bool_decide; cbn; naive_solver. Qed.

Section lemmas.
Context `{J : JsonDoc}.

Lemma expect_value_ok (o : option jdoc) label v : expect_string_value o label v = Ok tt <-> o ≫= doc_str = Some v.
Proof. unfold expect_string_value. destruct (o ≫= doc_str) as [a|]; [|done]. case_bool_decide as Ha; cbn; [by subst|]. split; [done|]. congruence. Qed.

Lemma kiss_decode_ok d : expect_kiss_decode_capture d = Ok tt <-> kiss_decoded d.
Proof.
  unfold expect_kiss_decode_capture, kiss_decoded, field_is. rewrite bind_ok_unit, expect_value_ok. destruct (doc_get d (str "frames") ≫= doc_array) as [l|]; [|naive_solver].
  destruct l as [|frame [|frame' l]]; [naive_solver| |].
  - change (len [frame]) with 1. cbn [Z.eqb Pos.eqb negb lookup list_lookup]. rewrite !bind_ok_unit, !expect_value_ok. naive_solver.
  - rewrite !len_cons. pose proof (len_nonneg l). destruct (Z.eqb_spec (1 + (1 + len l)) 1) as [|_]; [lia|]. cbn [negb]. split; [by intros [_ ?]|]. by intros (_ & f & [=] & _).
Qed.

Lemma p1_evidence_ok dir evidence : from_capture_dir dir = Ok evidence <->
  evidence = mk_evidence [str "kiss-encode"; str "kiss-decode"; str "rnode-command"] /\
  exists kiss kiss_decode rnode, capture_file dir (str "kiss_encode.json") kiss /\ capture_file dir (str "kiss_decode.json") kiss_decode /\
    capture_file dir (str "rnode_command.json") rnode /\
    captured kiss (str "kiss-encode") (str "fixture_replay") EXPECTED_RETICULUM_COMMIT /\
    captured kiss_decode (str "kiss-decode") (str "fixture_replay") EXPECTED_RETICULUM_COMMIT /\ kiss_decoded kiss_decode /\
    captured rnode (str "rnode-command") (str "fixture_replay") EXPECTED_RETICULUM_COMMIT.
Proof.
  unfold from_capture_dir. rewrite bind_ok. setoid_rewrite load_capture_ok. split.
  - intros (k & Hk & H). apply bind_ok in H as (kd & Hkd%load_capture_ok & H). apply bind_ok in H as (r & Hr%load_capture_ok & H).
    rewrite !bind_ok_unit, !expect_capture_ok, kiss_decode_ok in H by done. destruct H as (H1 & H2 & H3 & H4 & H).
    apply bind_ok in H as (c1 & [_ _]%required_string_ok & H). apply bind_ok in H as (c2 & _ & H). apply bind_ok in H as (c3 & _ & H).
    apply p1_new_evidence_ok in H as [-> ->]. split; [done|]. by exists k, kd, r.
  - intros (-> & k & kd & r & Hk & Hkd & Hr & H1 & H2 & H3 & H4). exists k. split; [done|].
    apply bind_ok. exists kd. split; [by apply load_capture_ok|]. apply bind_ok. exists r. split; [by apply load_capture_ok|].
    rewrite !bind_ok_unit, !expect_capture_ok, kiss_decode_ok by done. split_and!; [done..|].
    apply bind_ok. exists (str "kiss-encode"). split; [apply required_string_ok; split; [apply H1|done]|].
    apply bind_ok. exists (str "kiss-decode"). split; [apply required_string_ok; split; [apply H2|done]|].
    apply bind_ok. exists (str "rnode-command"). split; [apply required_string_ok; split; [apply H4|done]|]. by apply p1_new_evidence_ok.
Qed.
End lemmas.

Section report_lemmas.
Context `{J : JsonDoc, FC : FromJson (FixtureCasesFile jdoc), FM : FromJson ManifestFile, P : RnsPrims, L : !RnsPrimsLaws P, F : Profile1Files}.

(** Every file of the profile is what the profile expects. *)
Definition fixtures_pass : Prop :=
  manifest_file PROFILE_1_KISS_RNODE MANIFEST expected_manifest /\
  cases_file (T := jdoc) PROFILE_1_KISS_RNODE KISS_FIXTURE 5 /\ cases_file (T := jdoc) PROFILE_1_KISS_RNODE KISS_NEGATIVE_FIXTURE 4 /\
  cases_file (T := jdoc) PROFILE_1_KISS_RNODE RNODE_COMMAND_FIXTURE 10 /\ cases_file (T := jdoc) PROFILE_1_KISS_RNODE RNODE_CONFIG_FIXTURE 7 /\
  cases_file (T := jdoc) PROFILE_1_KISS_RNODE RNODE_STAT_FIXTURE 11.

Lemma p1_validate_cases_ok contents count : validate_fixture_cases contents count = Ok tt <-> cases_file (T := jdoc) PROFILE_1_KISS_RNODE contents count.
Proof.
  unfold validate_fixture_cases, cases_file. rewrite bind_ok. setoid_rewrite parse_cases_ok. split.
  - intros (f & H & Hc). rewrite checked, Z.eqb_eq in Hc by done. exists f. tauto.
  - intros (f & H1 & H2 & H3 & H4 & H5). exists f. split; [done|]. by rewrite checked, Z.eqb_eq.
Qed.
Lemma p1_validate_manifest_ok : validate_fixture_manifest = Ok tt <-> manifest_file PROFILE_1_KISS_RNODE MANIFEST expected_manifest.
Proof. apply manifest_file_ok. apply (bool_decide_unpack _). vm_compute. exact I. Qed.

(** The rows of a profile whose fixtures pass. *)
Definition passed_rows : list ConformanceResult :=
  [result_passed RESULT_ID_FIXTURE_MANIFEST CATEGORY_FIXTURE_MANIFEST; result_passed RESULT_ID_KISS CATEGORY_KISS;
   result_passed RESULT_ID_RNODE_COMMAND CATEGORY_RNODE_COMMAND; result_passed RESULT_ID_RNODE_CONFIG_VALIDATION CATEGORY_RNODE_CONFIG_VALIDATION;
   result_passed RESULT_ID_RNODE_STAT CATEGORY_RNODE_STAT].

Lemma p1_fixture_results_pass : fixtures_pass -> profile_1_fixture_results (E := FinalReportError) = Ok passed_rows.
Proof.
  intros (Hm & H1 & H2 & H3 & H4 & H5). unfold profile_1_fixture_results, validate_kiss_fixtures.
  rewrite (proj2 p1_validate_manifest_ok Hm), (proj2 (p1_validate_cases_ok _ _) H1). cbn [mbind outcome_bind].
  by rewrite (proj2 (p1_validate_cases_ok _ _) H2), (proj2 (p1_validate_cases_ok _ _) H3), (proj2 (p1_validate_cases_ok _ _) H4), (proj2 (p1_validate_cases_ok _ _) H5).
Qed.
Lemma p1_fixture_results_inv rows : profile_1_fixture_results (E := FinalReportError) = Ok rows -> Forall (fun r => cr_status r = ConfPassed) rows -> fixtures_pass.
Proof.
  unfold profile_1_fixture_results. intros (r1 & H1 & H)%bind_ok. apply bind_ok in H as (r2 & H2 & H). apply bind_ok in H as (r3 & H3 & H).
  apply bind_ok in H as (r4 & H4 & H). apply bind_ok in H as (r5 & H5 & [= <-]). rewrite !list.Forall_cons. intros (S1 & S2 & S3 & S4 & S5 & _).
  apply fixture_result_ok in H1 as [H1 _], H2 as [H2 _], H3 as [H3 _], H4 as [H4 _], H5 as [H5 _]; try done.
  unfold validate_kiss_fixtures in H2. rewrite bind_ok_unit, !p1_validate_cases_ok in H2. rewrite p1_validate_cases_ok in H3, H4, H5. rewrite p1_validate_manifest_ok in H1. unfold fixtures_pass. tauto.
Qed.

Definition replay_row : ConformanceResult :=
  oracle_row RESULT_ID_RNS_ORACLE_FIXTURE_REPLAY CATEGORY_RNS_ORACLE_FIXTURE_REPLAY (str "fixture_replay") (str "fixture_replay") false
    [str "kiss-encode"; str "kiss-decode"; str "rnode-command"].
Lemma p1_final_rows_match : Forall2 (row_matches EXPECTED_RETICULUM_COMMIT) (passed_rows ++ [replay_row]) PROFILE_1_FINAL_RESULTS.
Proof. do 5 (constructor; [apply plain_row_matches|]). constructor; [by apply oracle_row_matches|constructor]. Qed.

Lemma p1_validate_report_ok report : validate_profile_1_final_report report = Ok tt <->
  run_profile report = PROFILE_1_KISS_RNODE /\ run_reticulum_commit report = EXPECTED_RETICULUM_COMMIT /\ ce_oracle (run_environment report) = None /\
  exists rows, rows ≡ₚ run_results report /\ Forall2 (row_matches EXPECTED_RETICULUM_COMMIT) rows PROFILE_1_FINAL_RESULTS.
Proof.
  rewrite <- final_results_ok by apply p1_final_ids_nodup. unfold validate_profile_1_final_report.
  do 2 (case_bool_decide; cbn [negb]; [|naive_solver]). destruct (ce_oracle _); naive_solver.
Qed.

Lemma p1_final_report_ok run_id hyf_commit started_at environment evidence report :
  Profile1FinalEvidence_new (fixture_replay_commands evidence) = Ok evidence ->
  profile_1_final_report run_id hyf_commit started_at environment evidence = Ok report <->
  ce_oracle environment = None /\ fixtures_pass /\
  report = new_profile PROFILE_1_KISS_RNODE run_id hyf_commit EXPECTED_RETICULUM_COMMIT started_at environment (passed_rows ++ [replay_row]).
Proof.
  intros Hev%p1_new_evidence_ok. destruct Hev as [Hev _]. unfold profile_1_final_report, profile_1_final_results. rewrite Hev. fold replay_row. split.
  - intros (rows & H & Hr)%bind_ok. apply bind_ok in H as (fr & Hfr & [= <-]). apply bind_ok_unit in Hr as [Hv [= <-]].
    apply p1_validate_report_ok in Hv as (_ & _ & Ho & Hrows). cbn in Ho, Hrows. split; [done|].
    apply (final_results_ok _ _ _ p1_final_ids_nodup), (rows_passed _ _ _ p1_final_ids_nodup), list.Forall_app in Hrows as [Hpass _].
    pose proof (p1_fixture_results_inv fr Hfr Hpass) as Hf. split; [done|]. rewrite p1_fixture_results_pass in Hfr by done. by injection Hfr as <-.
  - intros (Ho & Hf & ->). rewrite (p1_fixture_results_pass Hf). cbn [mbind outcome_bind]. apply bind_ok_unit. split; [|done].
    apply p1_validate_report_ok. cbn. split_and!; [done..|]. exists (passed_rows ++ [replay_row]). split; [done|apply p1_final_rows_match].
Qed.
End report_lemmas.

Lemma p1_categories_present results : cr_category <$> results = REQUIRED_PROFILE_1_RESULT_CATEGORIES -> required_categories_are_present results = true.
Proof.
  intros H. unfold required_categories_are_present. rewrite H. apply forallb_forall. intros c Hc. apply bool_decide_eq_true, elem_of_list_to_set. by apply list_elem_of_In.
Qed.

(** ** Claims *)

(** A directory is evidence exactly when its three files are JSON objects that record the
    three commands, replayed from fixtures by the pinned Reticulum, and the capture of
    the KISS decoder has the expected stream and, as its one frame, the expected
    data: the frame that this repository's decoder makes of that stream. *)
Theorem profile_1_evidence_exact `{J : JsonDoc} dir :
  (forall evidence, from_capture_dir dir = Ok evidence <->
    evidence = mk_evidence [str "kiss-encode"; str "kiss-decode"; str "rnode-command"] /\
    exists kiss kiss_decode rnode, capture_file dir (str "kiss_encode.json") kiss /\ capture_file dir (str "kiss_decode.json") kiss_decode /\
      capture_file dir (str "rnode_command.json") rnode /\
      captured kiss (str "kiss-encode") (str "fixture_replay") EXPECTED_RETICULUM_COMMIT /\
      captured kiss_decode (str "kiss-decode") (str "fixture_replay") EXPECTED_RETICULUM_COMMIT /\ kiss_decoded kiss_decode /\
      captured rnode (str "rnode-command") (str "fixture_replay") EXPECTED_RETICULUM_COMMIT) /\
  (exists bytes command payload decoder, decode_hex PROFILE_1_KISS_DECODE_CAPTURE_HEX = Ok bytes /\
    decode_hex PROFILE_1_KISS_DECODE_COMMAND_HEX = Ok [command] /\ decode_hex PROFILE_1_KISS_DECODE_PAYLOAD_HEX = Ok payload /\
    push_bytes 8 collect bytes (KissDecoder_new 8, []) = (Ok tt, (decoder, [mk_kiss_frame command payload]))).
Proof.
  split; [intros evidence; apply p1_evidence_ok|]. eexists _, _, _, _. split; [vm_compute; reflexivity|]. split; [vm_compute; reflexivity|].
  split; vm_compute; reflexivity.
Qed.

(** With evidence, a final report is returned exactly when the environment names no oracle
    and every fixture file passes: the manifest lists the files with their checksums,
    and each holds the expected number of cases.  The report then has the five rows of
    the fixtures, passed, and the row of the replay.  A report passes validation
    exactly when it is of this profile and commit, names no oracle and has the six
    expected rows in some order. *)
Theorem profile_1_final_report_exact `{J : JsonDoc, FC : FromJson (FixtureCasesFile jdoc), FM : FromJson ManifestFile, P : RnsPrims, L : !RnsPrimsLaws P, F : Profile1Files}
    run_id hyf_commit started_at environment evidence :
  Profile1FinalEvidence_new (fixture_replay_commands evidence) = Ok evidence ->
  (forall report, profile_1_final_report run_id hyf_commit started_at environment evidence = Ok report <->
     ce_oracle environment = None /\ fixtures_pass /\
     report = new_profile PROFILE_1_KISS_RNODE run_id hyf_commit EXPECTED_RETICULUM_COMMIT started_at environment (passed_rows ++ [replay_row])) /\
  (forall report, validate_profile_1_final_report report = Ok tt <->
     run_profile report = PROFILE_1_KISS_RNODE /\ run_reticulum_commit report = EXPECTED_RETICULUM_COMMIT /\ ce_oracle (run_environment report) = None /\
     exists rows, rows ≡ₚ run_results report /\ Forall2 (row_matches EXPECTED_RETICULUM_COMMIT) rows PROFILE_1_FINAL_RESULTS).
Proof. intros Hev. split; [intros report; by apply p1_final_report_ok|apply p1_validate_report_ok]. Qed.

(** The report without evidence has a row for every required category, and is clean
    never: the row of the oracle says that its environment is missing. *)
Theorem profile_1_report_rows `{J : JsonDoc, FC : FromJson (FixtureCasesFile jdoc), FM : FromJson ManifestFile, P : RnsPrims, F : Profile1Files}
    run_id hyf_commit started_at environment report :
  profile_1_report (E := FinalReportError) run_id hyf_commit started_at environment = Ok report ->
  (fun r => (cr_id r, cr_category r)) <$> run_results report = REQUIRED_PROFILE_1_RESULTS /\
  required_categories_are_present (run_results report) = true /\
  is_clean (summarize_results (run_results report)) = false /\
  validate_profile_1_final_report report <> Ok tt.
Proof.
  unfold profile_1_report, profile_1_results, profile_1_fixture_results. intros (rows & H & [= <-])%bind_ok.
  apply bind_ok in H as (rows' & H & [= <-]).
  apply bind_ok in H as (r1 & H1%fixture_result_keys & H). apply bind_ok in H as (r2 & H2%fixture_result_keys & H). apply bind_ok in H as (r3 & H3%fixture_result_keys & H).
  apply bind_ok in H as (r4 & H4%fixture_result_keys & H). apply bind_ok in H as (r5 & H5%fixture_result_keys & [= <-]). cbn [run_results new_profile app].
  match goal with |- fmap ?f ?l = _ /\ _ => assert (f <$> l = REQUIRED_PROFILE_1_RESULTS) as Hkeys by (cbn [fmap list_fmap]; by rewrite H1, H2, H3, H4, H5) end.
  split_and!.
  - exact Hkeys.
  - apply p1_categories_present. by apply (f_equal (fmap snd)) in Hkeys.
  - apply not_clean. do 5 apply Exists_cons_tl. by apply Exists_cons_hd.
  - intros Hv%p1_validate_report_ok. destruct Hv as (_ & _ & _ & Hrows). cbn in Hrows. apply (final_results_ok _ _ _ p1_final_ids_nodup), (rows_passed _ _ _ p1_final_ids_nodup) in Hrows.
    unfold profile_1_oracle_unavailable_results in Hrows. rewrite !list.Forall_cons in Hrows. destruct Hrows as (_ & _ & _ & _ & _ & Hs & _). discriminate Hs.
Qed.

(** ** Witnesses *)
Definition sample_frames : JsonValue :=
  JArray [JObject [(str "kind", JString PROFILE_1_KISS_DECODE_KIND); (str "command_hex", JString PROFILE_1_KISS_DECODE_COMMAND_HEX);
                   (str "payload_hex", JString PROFILE_1_KISS_DECODE_PAYLOAD_HEX)]].
Definition sample_captures : list (list Z * list Z) :=
  [(str "captures/kiss_encode.json", json_print (sample_capture (str "kiss-encode") (str "fixture_replay") []));
   (str "captures/kiss_decode.json", json_print (sample_capture (str "kiss-decode") (str "fixture_replay")
      [(str "encoded_hex", JString PROFILE_1_KISS_DECODE_CAPTURE_HEX); (str "frames", sample_frames)]));
   (str "captures/rnode_command.json", json_print (sample_capture (str "rnode-command") (str "fixture_replay") []))].

#[local] Instance sample_docs : JsonDoc := json_docs sample_captures.
(** A file of cases is read as one case for each of its bytes. *)
#[local] Instance sample_cases : FromJson (FixtureCasesFile (@jdoc sample_docs)) := fun contents =>
  Ok (mk_cases_file EXPECTED_FIXTURE_CASES_SCHEMA PROFILE_1_KISS_RNODE (mk_provenance EXPECTED_RETICULUM_REPO EXPECTED_RETICULUM_COMMIT)
    (map (fun b => JNumber b : @jdoc sample_docs) contents)).
#[local] Instance sample_files : Profile1Files := {|
  MANIFEST := str "manifest";
  KISS_FIXTURE := str "kiss!";
  KISS_NEGATIVE_FIXTURE := str "nope";
  RNODE_COMMAND_FIXTURE := str "0123456789";
  RNODE_CONFIG_FIXTURE := str "configs";
  RNODE_STAT_FIXTURE := str "statistics!";
|}.
#[local] Instance sample_manifest : FromJson ManifestFile := fun contents =>
  Ok (mk_manifest_file EXPECTED_MANIFEST_SCHEMA PROFILE_1_KISS_RNODE (mk_provenance EXPECTED_RETICULUM_REPO EXPECTED_RETICULUM_COMMIT) (str "x") (str "y")
    (map (@entry_of toy_prims) expected_manifest)).
Definition sample_evidence : Profile1FinalEvidence := mk_evidence [str "kiss-encode"; str "kiss-decode"; str "rnode-command"].

Example p1_sample_capture_dir : from_capture_dir (str "captures") = Ok sample_evidence.
Proof. vm_compute. reflexivity. Qed.

Lemma p1_sample_fixtures_pass : fixtures_pass (P := toy_prims).
Proof.
  split_and!; try (eexists; split; [reflexivity|]; split; [reflexivity|]; split; [reflexivity|]; split; [by split|reflexivity]).
  eexists. split; [reflexivity|]. split_and!; [reflexivity|reflexivity|by split|discriminate|discriminate|reflexivity].
Qed.

Lemma profile_1_final_report_exact_witness :
  let environment := ConformanceEnvironment_new (str "linux") (str "x86_64") (str "stable") in
  profile_1_final_report (P := toy_prims) (str "run") (str "commit") (str "now") environment sample_evidence =
    Ok (new_profile PROFILE_1_KISS_RNODE (str "run") (str "commit") EXPECTED_RETICULUM_COMMIT (str "now") environment (passed_rows ++ [replay_row])).
Proof.
  apply (profile_1_final_report_exact (P := toy_prims) (L := toy_prims_laws) (str "run") (str "commit") (str "now")
    (ConformanceEnvironment_new (str "linux") (str "x86_64") (str "stable")) sample_evidence).
  - vm_compute. reflexivity.
  - split; [reflexivity|]. split; [exact p1_sample_fixtures_pass|reflexivity].
Defined.

Lemma profile_1_report_rows_witness :
  exists report, profile_1_report (P := toy_prims) (E := FinalReportError) (str "run") (str "commit") (str "now") (ConformanceEnvironment_new (str "linux") (str "x86_64") (str "stable")) = Ok report /\
    required_categories_are_present (run_results report) = true.
Proof.
  assert (exists report, profile_1_report (P := toy_prims) (E := FinalReportError) (str "run") (str "commit") (str "now") (ConformanceEnvironment_new (str "linux") (str "x86_64") (str "stable")) = Ok report) as [report H]
    by (eexists; vm_compute; reflexivity).
  exists report. split; [exact H|]. exact (proj1 (proj2 (profile_1_report_rows (P := toy_prims) _ _ _ _ report H))).
Defined.
