(* ===== verification/Profile2.v ===== *)
(** [hyf_rns_conformance::profile2]: the conformance profile of Reticulum cryptography and
    access codes (src/crates/hyf_rns_conformance/src/profile2.rs): the inputs of its proofs,
    which this repository's encryption makes, the captures it takes as evidence that
    Reticulum opened them, and its final report.

    The fixture files are the parameter [Profile2Files].  The long function that reads
    the captures is split where it turns to the next capture.  The claims are that the
    proof inputs open to their plaintext, which captures are evidence, and when a final
    report is written and with which rows. *)
From stdpp Require Import gmap strings.
From S2P Require Import Kiss RNode RnsWire RnsCrypto Prelude Utf8 Cursor NostrHex NostrJson NostrParser Text Display ErrorText Fixtures ConfReport Captures.

Open Scope Z_scope.

Definition CATEGORY_FIXTURE_MANIFEST : list Z := str "fixture_manifest".
Definition CATEGORY_HKDF : list Z := str "hkdf".
Definition CATEGORY_TOKEN : list Z := str "token".
Definition CATEGORY_IDENTITY_ENCRYPT : list Z := str "identity_encrypt".
Definition CATEGORY_IDENTITY_DECRYPT : list Z := str "identity_decrypt".
Definition CATEGORY_IFAC : list Z := str "ifac".
Definition CATEGORY_RNS_ORACLE_FIXTURE_REPLAY : list Z := str "rns_oracle_fixture_replay".
Definition CATEGORY_RNS_ORACLE_TEST_ONLY_SHIM : list Z := str "rns_oracle_test_only_shim".
Definition CATEGORY_RNS_ORACLE_PYTHON_RETICULUM : list Z := str "rns_oracle_python_reticulum".
Definition RESULT_ID_FIXTURE_MANIFEST : list Z := str "profile_2_crypto_ifac.fixture_manifest".
Definition RESULT_ID_HKDF : list Z := str "profile_2_crypto_ifac.hkdf".
Definition RESULT_ID_TOKEN : list Z := str "profile_2_crypto_ifac.token".
Definition RESULT_ID_IDENTITY_ENCRYPT : list Z := str "profile_2_crypto_ifac.identity_encrypt".
Definition RESULT_ID_IDENTITY_DECRYPT : list Z := str "profile_2_crypto_ifac.identity_decrypt".
Definition RESULT_ID_IFAC : list Z := str "profile_2_crypto_ifac.ifac".
Definition RESULT_ID_RNS_ORACLE_FIXTURE_REPLAY : list Z := str "profile_2_crypto_ifac.rns_oracle.fixture_replay".
Definition RESULT_ID_RNS_ORACLE_TEST_ONLY_SHIM_TOKEN_GENERATION : list Z := str "profile_2_crypto_ifac.rns_oracle.test_only_oracle_shim.token_generation".
Definition RESULT_ID_RNS_ORACLE_PYTHON_RETICULUM_TOKEN : list Z := str "profile_2_crypto_ifac.rns_oracle.python_reticulum.token".
Definition RESULT_ID_RNS_ORACLE_TEST_ONLY_SHIM_IDENTITY_GENERATION : list Z := str "profile_2_crypto_ifac.rns_oracle.test_only_oracle_shim.identity_generation".
Definition RESULT_ID_RNS_ORACLE_PYTHON_RETICULUM_IDENTITY : list Z := str "profile_2_crypto_ifac.rns_oracle.python_reticulum.identity".
Definition RESULT_ID_RNS_ORACLE_PYTHON_RETICULUM_IFAC : list Z := str "profile_2_crypto_ifac.rns_oracle.python_reticulum.ifac".
Definition PROFILE_2_RUST_PROOF_COMMAND : list Z := str "profile2-rust-proof-inputs".
Definition PROFILE_2_RUST_PROOF_MODE : list Z := str "rust_implementation".

Definition REQUIRED_PROFILE_2_RESULTS : list (list Z * list Z) :=
  [(RESULT_ID_FIXTURE_MANIFEST, CATEGORY_FIXTURE_MANIFEST);
   (RESULT_ID_HKDF, CATEGORY_HKDF);
   (RESULT_ID_TOKEN, CATEGORY_TOKEN);
   (RESULT_ID_IDENTITY_ENCRYPT, CATEGORY_IDENTITY_ENCRYPT);
   (RESULT_ID_IDENTITY_DECRYPT, CATEGORY_IDENTITY_DECRYPT);
   (RESULT_ID_IFAC, CATEGORY_IFAC);
   (RESULT_ID_RNS_ORACLE_FIXTURE_REPLAY, CATEGORY_RNS_ORACLE_FIXTURE_REPLAY);
   (RESULT_ID_RNS_ORACLE_TEST_ONLY_SHIM_TOKEN_GENERATION, CATEGORY_RNS_ORACLE_TEST_ONLY_SHIM);
   (RESULT_ID_RNS_ORACLE_PYTHON_RETICULUM_TOKEN, CATEGORY_RNS_ORACLE_PYTHON_RETICULUM);
   (RESULT_ID_RNS_ORACLE_TEST_ONLY_SHIM_IDENTITY_GENERATION, CATEGORY_RNS_ORACLE_TEST_ONLY_SHIM);
   (RESULT_ID_RNS_ORACLE_PYTHON_RETICULUM_IDENTITY, CATEGORY_RNS_ORACLE_PYTHON_RETICULUM);
   (RESULT_ID_RNS_ORACLE_PYTHON_RETICULUM_IFAC, CATEGORY_RNS_ORACLE_PYTHON_RETICULUM)].
Definition REQUIRED_PROFILE_2_RESULT_CATEGORIES : list (list Z) :=
  [CATEGORY_FIXTURE_MANIFEST; CATEGORY_HKDF; CATEGORY_TOKEN; CATEGORY_IDENTITY_ENCRYPT; CATEGORY_IDENTITY_DECRYPT;
   CATEGORY_IFAC; CATEGORY_RNS_ORACLE_FIXTURE_REPLAY; CATEGORY_RNS_ORACLE_TEST_ONLY_SHIM; CATEGORY_RNS_ORACLE_PYTHON_RETICULUM].
Definition PROFILE_2_FINAL_RESULTS : list ExpectedFinalResult :=
  [mk_final RESULT_ID_FIXTURE_MANIFEST CATEGORY_FIXTURE_MANIFEST None;
   mk_final RESULT_ID_HKDF CATEGORY_HKDF None;
   mk_final RESULT_ID_TOKEN CATEGORY_TOKEN None;
   mk_final RESULT_ID_IDENTITY_ENCRYPT CATEGORY_IDENTITY_ENCRYPT None;
   mk_final RESULT_ID_IDENTITY_DECRYPT CATEGORY_IDENTITY_DECRYPT None;
   mk_final RESULT_ID_IFAC CATEGORY_IFAC None;
   mk_final RESULT_ID_RNS_ORACLE_FIXTURE_REPLAY CATEGORY_RNS_ORACLE_FIXTURE_REPLAY
     (Some (mk_oracle_detail (str "fixture_replay") (str "fixture_replay") false (str "hkdf-vector,token-decrypt,identity-decrypt,ifac-verify")));
   mk_final RESULT_ID_RNS_ORACLE_TEST_ONLY_SHIM_TOKEN_GENERATION CATEGORY_RNS_ORACLE_TEST_ONLY_SHIM
     (Some (mk_oracle_detail (str "test_only_oracle_shim") (str "deterministic_generation") false (str "token-encrypt")));
   mk_final RESULT_ID_RNS_ORACLE_PYTHON_RETICULUM_TOKEN CATEGORY_RNS_ORACLE_PYTHON_RETICULUM
     (Some (mk_oracle_detail (str "python_reticulum") (str "rust_output_reticulum_validation") true (str "token-decrypt")));
   mk_final RESULT_ID_RNS_ORACLE_TEST_ONLY_SHIM_IDENTITY_GENERATION CATEGORY_RNS_ORACLE_TEST_ONLY_SHIM
     (Some (mk_oracle_detail (str "test_only_oracle_shim") (str "deterministic_generation") false (str "identity-encrypt")));
   mk_final RESULT_ID_RNS_ORACLE_PYTHON_RETICULUM_IDENTITY CATEGORY_RNS_ORACLE_PYTHON_RETICULUM
     (Some (mk_oracle_detail (str "python_reticulum") (str "rust_output_reticulum_validation") true (str "identity-decrypt")));
   mk_final RESULT_ID_RNS_ORACLE_PYTHON_RETICULUM_IFAC CATEGORY_RNS_ORACLE_PYTHON_RETICULUM
     (Some (mk_oracle_detail (str "python_reticulum") (str "reticulum_validation") true (str "ifac-apply,ifac-verify")))].

Definition PROFILE_2_RUST_PROOF_PLAINTEXT : list Z := str "hello token".
Definition PROFILE_2_RUST_PROOF_TOKEN_KEY : list Z :=
  [0x00; 0x01; 0x02; 0x03; 0x04; 0x05; 0x06; 0x07; 0x08; 0x09; 0x0a; 0x0b; 0x0c; 0x0d; 0x0e; 0x0f;
   0x10; 0x11; 0x12; 0x13; 0x14; 0x15; 0x16; 0x17; 0x18; 0x19; 0x1a; 0x1b; 0x1c; 0x1d; 0x1e; 0x1f].
Definition PROFILE_2_RUST_PROOF_IV : list Z :=
  [0xa0; 0xa1; 0xa2; 0xa3; 0xa4; 0xa5; 0xa6; 0xa7; 0xa8; 0xa9; 0xaa; 0xab; 0xac; 0xad; 0xae; 0xaf].
Definition PROFILE_2_RUST_PROOF_RECIPIENT_SECRET : list Z :=
  [0x00; 0x01; 0x02; 0x03; 0x04; 0x05; 0x06; 0x07; 0x08; 0x09; 0x0a; 0x0b; 0x0c; 0x0d; 0x0e; 0x0f;
   0x10; 0x11; 0x12; 0x13; 0x14; 0x15; 0x16; 0x17; 0x18; 0x19; 0x1a; 0x1b; 0x1c; 0x1d; 0x1e; 0x1f;
   0x20; 0x21; 0x22; 0x23; 0x24; 0x25; 0x26; 0x27; 0x28; 0x29; 0x2a; 0x2b; 0x2c; 0x2d; 0x2e; 0x2f;
   0x30; 0x31; 0x32; 0x33; 0x34; 0x35; 0x36; 0x37; 0x38; 0x39; 0x3a; 0x3b; 0x3c; 0x3d; 0x3e; 0x3f].
Definition PROFILE_2_RUST_PROOF_RECIPIENT_PUBLIC : list Z :=
  [0x8f; 0x40; 0xc5; 0xad; 0xb6; 0x8f; 0x25; 0x62; 0x4a; 0xe5; 0xb2; 0x14; 0xea; 0x76; 0x7a; 0x6e;
   0xc9; 0x4d; 0x82; 0x9d; 0x3d; 0x7b; 0x5e; 0x1a; 0xd1; 0xba; 0x6f; 0x3e; 0x21; 0x38; 0x28; 0x5f;
   0x29; 0xac; 0xba; 0xe1; 0x41; 0xbc; 0xca; 0xf0; 0xb2; 0x2e; 0x1a; 0x94; 0xd3; 0x4d; 0x0b; 0xc7;
   0x36; 0x1e; 0x52; 0x6d; 0x0b; 0xfe; 0x12; 0xc8; 0x97; 0x94; 0xbc; 0x93; 0x22; 0x96; 0x6d; 0xd7].
Definition PROFILE_2_RUST_PROOF_EPHEMERAL_SECRET : list Z :=
  [0x40; 0x41; 0x42; 0x43; 0x44; 0x45; 0x46; 0x47; 0x48; 0x49; 0x4a; 0x4b; 0x4c; 0x4d; 0x4e; 0x4f;
   0x50; 0x51; 0x52; 0x53; 0x54; 0x55; 0x56; 0x57; 0x58; 0x59; 0x5a; 0x5b; 0x5c; 0x5d; 0x5e; 0x5f].

(** The contents of the files under src/fixtures/rns/profile_2_crypto_ifac. *)
Class Profile2Files := {
  MANIFEST : list Z;
  HKDF_FIXTURE : list Z;
  TOKEN_FIXTURE : list Z;
  TOKEN_NEGATIVE_FIXTURE : list Z;
  IDENTITY_ENCRYPT_FIXTURE : list Z;
  IDENTITY_DECRYPT_FIXTURE : list Z;
  IFAC_FIXTURE : list Z;
  IFAC_NEGATIVE_FIXTURE : list Z;
}.

Definition expected_manifest `{Profile2Files} : list ExpectedManifestEntry :=
  [mk_expected (str "hkdf_vectors.json") CATEGORY_HKDF 3 HKDF_FIXTURE;
   mk_expected (str "token_vectors.json") CATEGORY_TOKEN 2 TOKEN_FIXTURE;
   mk_expected (str "token_negative_vectors.json") (str "token_negative") 5 TOKEN_NEGATIVE_FIXTURE;
   mk_expected (str "identity_encrypt_vectors.json") CATEGORY_IDENTITY_ENCRYPT 2 IDENTITY_ENCRYPT_FIXTURE;
   mk_expected (str "identity_decrypt_vectors.json") CATEGORY_IDENTITY_DECRYPT 6 IDENTITY_DECRYPT_FIXTURE;
   mk_expected (str "ifac_vectors.json") CATEGORY_IFAC 2 IFAC_FIXTURE;
   mk_expected (str "ifac_negative_vectors.json") (str "ifac_negative") 7 IFAC_NEGATIVE_FIXTURE].

Definition profile_2_oracle_unavailable_results : list ConformanceResult :=
  [result_invalid_environment RESULT_ID_RNS_ORACLE_FIXTURE_REPLAY CATEGORY_RNS_ORACLE_FIXTURE_REPLAY
     (str "fixture replay captures are generated by private evidence tooling");
   result_invalid_environment RESULT_ID_RNS_ORACLE_TEST_ONLY_SHIM_TOKEN_GENERATION CATEGORY_RNS_ORACLE_TEST_ONLY_SHIM
     (str "token generation oracle capture is generated by private evidence tooling");
   result_invalid_environment RESULT_ID_RNS_ORACLE_PYTHON_RETICULUM_TOKEN CATEGORY_RNS_ORACLE_PYTHON_RETICULUM
     (str "Reticulum token decrypt proof requires python_oracle evidence tooling");
   result_invalid_environment RESULT_ID_RNS_ORACLE_TEST_ONLY_SHIM_IDENTITY_GENERATION CATEGORY_RNS_ORACLE_TEST_ONLY_SHIM
     (str "identity generation oracle capture is generated by private evidence tooling");
   result_invalid_environment RESULT_ID_RNS_ORACLE_PYTHON_RETICULUM_IDENTITY CATEGORY_RNS_ORACLE_PYTHON_RETICULUM
     (str "Reticulum identity decrypt proof requires python_oracle evidence tooling");
   result_invalid_environment RESULT_ID_RNS_ORACLE_PYTHON_RETICULUM_IFAC CATEGORY_RNS_ORACLE_PYTHON_RETICULUM
     (str "Reticulum IFAC proof requires python_oracle evidence tooling")].

(** ** Proof inputs *)
Record Profile2RustProofInputs := mk_proof_inputs {
  pr_command : list Z;
  pr_mode : list Z;
  pr_valid : bool;
  pr_test_only_secret_material : bool;
  pr_plaintext_hex : list Z;
  pr_token_key_hex : list Z;
  pr_token_hex : list Z;
  pr_recipient_public_identity_hex : list Z;
  pr_recipient_secret_identity_hex : list Z;
  pr_ephemeral_secret_hex : list Z;
  pr_iv_hex : list Z;
  pr_identity_ciphertext_token_hex : list Z;
  pr_ephemeral_public_hex : list Z;
}.

(** A byte selects two of the sixteen digits, so that no index is out of range. *)
Definition hex_lower (bytes : list Z) : list Z :=
  let HEX := str "0123456789abcdef" in
  flat_map (fun byte => [nth (Z.to_nat (Z.shiftr byte 4)) HEX 0; nth (Z.to_nat (Z.land byte 0x0f)) HEX 0]) bytes.

Definition crypto_text (e : RnsCryptoError) : list Z := text (fmt_RnsCryptoError e).

Definition profile_2_rust_proof_inputs `{RnsPrims} : outcome FinalReportError Profile2RustProofInputs :=
  let '(token_len, token) := token_encrypt_with_iv PROFILE_2_RUST_PROOF_TOKEN_KEY PROFILE_2_RUST_PROOF_PLAINTEXT PROFILE_2_RUST_PROOF_IV (zeros 128) in
  token_len ← map_err (fun error => InvalidEvidence (str "Profile 2 Rust token proof failed: " ++ crypto_text error)) token_len;
  recipient ← map_err (fun error => InvalidEvidence (str "Profile 2 Rust public identity proof failed: " ++ crypto_text error))
    (public_identity_from_bytes PROFILE_2_RUST_PROOF_RECIPIENT_PUBLIC);
  let '(identity_ciphertext_len, (_, identity_ciphertext)) := encrypt_for_identity_with_ephemeral_and_iv recipient PROFILE_2_RUST_PROOF_PLAINTEXT
    PROFILE_2_RUST_PROOF_EPHEMERAL_SECRET PROFILE_2_RUST_PROOF_IV (tt, zeros 128) in
  identity_ciphertext_len ← map_err (fun error => InvalidEvidence (str "Profile 2 Rust identity proof failed: " ++ crypto_text error)) identity_ciphertext_len;
  identity_ciphertext ← slice identity_ciphertext 0 identity_ciphertext_len;
  token ← slice token 0 token_len;
  ephemeral_public ← slice identity_ciphertext 0 RNS_SINGLE_PACKET_EPHEMERAL_PUBLIC_LEN;
  Ok (mk_proof_inputs PROFILE_2_RUST_PROOF_COMMAND PROFILE_2_RUST_PROOF_MODE true true
    (hex_lower PROFILE_2_RUST_PROOF_PLAINTEXT) (hex_lower PROFILE_2_RUST_PROOF_TOKEN_KEY) (hex_lower token)
    (hex_lower PROFILE_2_RUST_PROOF_RECIPIENT_PUBLIC) (hex_lower PROFILE_2_RUST_PROOF_RECIPIENT_SECRET)
    (hex_lower PROFILE_2_RUST_PROOF_EPHEMERAL_SECRET) (hex_lower PROFILE_2_RUST_PROOF_IV)
    (hex_lower identity_ciphertext) (hex_lower ephemeral_public)).

(** ** Evidence *)
Record Profile2FinalEvidence := mk_evidence {
  oracle_environment : OracleEnvironment;
  fixture_replay_commands : list (list Z);
  token_generation_command : list Z;
  token_python_command : list Z;
  identity_generation_command : list Z;
  identity_python_command : list Z;
  ifac_python_commands : list (list Z);
}.

Definition validate_commands (e : Profile2FinalEvidence) : outcome FinalReportError unit :=
  if negb (bool_decide (token_generation_command e = str "token-encrypt"))
     || negb (bool_decide (token_python_command e = str "token-decrypt"))
     || negb (bool_decide (identity_generation_command e = str "identity-encrypt"))
     || negb (bool_decide (identity_python_command e = str "identity-decrypt"))
     || negb (bool_decide (ifac_python_commands e = [str "ifac-apply"; str "ifac-verify"]))
  then invalid_evidence (str "Profile 2 final evidence has wrong oracle proof commands")
  else Ok tt.

Definition Profile2FinalEvidence_new (oracle_environment : OracleEnvironment) (fixture_replay_commands : list (list Z))
    (token_generation_command token_python_command identity_generation_command identity_python_command : list Z)
    (ifac_python_commands : list (list Z)) : outcome FinalReportError Profile2FinalEvidence :=
  if negb (bool_decide (oe_reticulum_commit oracle_environment = EXPECTED_RETICULUM_COMMIT))
  then invalid_evidence (str "Profile 2 final evidence oracle Reticulum commit mismatch")
  else if negb (bool_decide (fixture_replay_commands = [str "hkdf-vector"; str "token-decrypt"; str "identity-decrypt"; str "ifac-verify"]))
  then invalid_evidence (str "Profile 2 final evidence has wrong fixture replay commands")
  else
    let evidence := mk_evidence oracle_environment fixture_replay_commands token_generation_command token_python_command
      identity_generation_command identity_python_command ifac_python_commands in
    _ ← validate_commands evidence;
    Ok evidence.

Definition with_oracle_module_path (e : Profile2FinalEvidence) (reticulum_module_path : list Z) : Profile2FinalEvidence :=
  let o := oracle_environment e in
  mk_evidence (mk_oracle reticulum_module_path (oe_reticulum_commit o) (oe_rns_version o) (oe_cryptography_version o) (oe_pyserial_version o))
    (fixture_replay_commands e) (token_generation_command e) (token_python_command e) (identity_generation_command e)
    (identity_python_command e) (ifac_python_commands e).

(** *** Captures *)
(** The fields read from the capture of the proof inputs. *)
Record rust_proof := mk_rust_proof {
  rust_plaintext_hex : list Z;
  rust_token_hex : list Z;
  rust_identity_ciphertext_token_hex : list Z;
  rust_ephemeral_public_hex : list Z;
}.

Section captures.
Context `{J : JsonDoc}.

(** The variables of [from_capture_dir], one per file. *)
Record captures := mk_captures {
  hkdf : jdoc;
  token_fixture : jdoc;
  identity_fixture : jdoc;
  ifac_fixture : jdoc;
  probe : jdoc;
  rust_proof_inputs : jdoc;
  token_generation : jdoc;
  token_python : jdoc;
  identity_generation : jdoc;
  identity_python : jdoc;
  ifac_python_apply : jdoc;
  ifac_python_verify : jdoc;
}.

Definition load_captures (capture_dir : list Z) : outcome FinalReportError captures :=
  hkdf ← load_capture capture_dir (str "hkdf_vector.json");
  token_fixture ← load_capture capture_dir (str "token_fixture_decrypt.json");
  identity_fixture ← load_capture capture_dir (str "identity_fixture_decrypt.json");
  ifac_fixture ← load_capture capture_dir (str "ifac_fixture_verify.json");
  probe ← load_capture capture_dir (str "probe.json");
  rust_proof_inputs ← load_capture capture_dir (str "rust_proof_inputs.json");
  token_generation ← load_capture capture_dir (str "token_generation.json");
  token_python ← load_capture capture_dir (str "token_python_decrypt.json");
  identity_generation ← load_capture capture_dir (str "identity_generation.json");
  identity_python ← load_capture capture_dir (str "identity_python_decrypt.json");
  ifac_python_apply ← load_capture capture_dir (str "ifac_python_apply.json");
  ifac_python_verify ← load_capture capture_dir (str "ifac_python_verify.json");
  Ok (mk_captures hkdf token_fixture identity_fixture ifac_fixture probe rust_proof_inputs token_generation token_python identity_generation identity_python ifac_python_apply ifac_python_verify).

Definition check_fixture_replays (hkdf token_fixture identity_fixture ifac_fixture probe : jdoc) : outcome FinalReportError unit :=
  _ ← expect_capture hkdf (str "hkdf_vector.json") (str "hkdf-vector") (str "fixture_replay") EXPECTED_RETICULUM_COMMIT;
  _ ← expect_capture token_fixture (str "token_fixture_decrypt.json") (str "token-decrypt") (str "fixture_replay") EXPECTED_RETICULUM_COMMIT;
  _ ← expect_capture identity_fixture (str "identity_fixture_decrypt.json") (str "identity-decrypt") (str "fixture_replay") EXPECTED_RETICULUM_COMMIT;
  _ ← expect_capture ifac_fixture (str "ifac_fixture_verify.json") (str "ifac-verify") (str "fixture_replay") EXPECTED_RETICULUM_COMMIT;
  _ ← expect_capture probe (str "probe.json") (str "probe") (str "python_reticulum") EXPECTED_RETICULUM_COMMIT;
  expect_string_field probe (str "probe.json") (str "status") (str "passed").

Definition read_rust_proof (rust_proof_inputs : jdoc) : outcome FinalReportError rust_proof :=
  _ ← expect_string_field rust_proof_inputs (str "rust_proof_inputs.json") (str "command") PROFILE_2_RUST_PROOF_COMMAND;
  _ ← expect_string_field rust_proof_inputs (str "rust_proof_inputs.json") (str "mode") PROFILE_2_RUST_PROOF_MODE;
  _ ← expect_bool_field rust_proof_inputs (str "rust_proof_inputs.json") (str "valid") true;
  _ ← expect_bool_field rust_proof_inputs (str "rust_proof_inputs.json") (str "test_only_secret_material") true;
  rust_plaintext_hex ← required_string_field rust_proof_inputs (str "rust_proof_inputs.json") (str "plaintext_hex");
  rust_token_hex ← required_string_field rust_proof_inputs (str "rust_proof_inputs.json") (str "token_hex");
  rust_identity_ciphertext_token_hex ← required_string_field rust_proof_inputs (str "rust_proof_inputs.json") (str "identity_ciphertext_token_hex");
  rust_ephemeral_public_hex ← required_string_field rust_proof_inputs (str "rust_proof_inputs.json") (str "ephemeral_public_hex");
  Ok (mk_rust_proof rust_plaintext_hex rust_token_hex rust_identity_ciphertext_token_hex rust_ephemeral_public_hex).

Definition check_token_generation (token_generation : jdoc) (proof : rust_proof) : outcome FinalReportError unit :=
  _ ← expect_capture token_generation (str "token_generation.json") (str "token-encrypt") (str "test_only_oracle_shim") EXPECTED_RETICULUM_COMMIT;
  _ ← expect_bool_field token_generation (str "token_generation.json") (str "valid") true;
  _ ← expect_bool_field token_generation (str "token_generation.json") (str "test_only_secret_material") true;
  _ ← expect_string_field token_generation (str "token_generation.json") (str "reticulum_self_validation") (str "passed");
  actual ← required_string_field token_generation (str "token_generation.json") (str "plaintext_hex");
  _ ← require_equal actual (rust_plaintext_hex proof) (str "token shim plaintext does not match Rust proof input");
  actual ← required_string_field token_generation (str "token_generation.json") (str "token_hex");
  require_equal actual (rust_token_hex proof) (str "token shim output does not match Rust proof input").

Definition check_token_python (token_python : jdoc) (proof : rust_proof) : outcome FinalReportError unit :=
  _ ← expect_capture token_python (str "token_python_decrypt.json") (str "token-decrypt") (str "python_reticulum") EXPECTED_RETICULUM_COMMIT;
  _ ← expect_bool_field token_python (str "token_python_decrypt.json") (str "valid") true;
  actual ← required_string_field token_python (str "token_python_decrypt.json") (str "token_hex");
  _ ← require_equal actual (rust_token_hex proof) (str "Reticulum token decrypt input does not match Rust proof input");
  actual ← required_string_field token_python (str "token_python_decrypt.json") (str "plaintext_hex");
  require_equal actual (rust_plaintext_hex proof) (str "Reticulum token decrypt plaintext does not match Rust proof input").

Definition check_identity_generation (identity_generation : jdoc) (proof : rust_proof) : outcome FinalReportError unit :=
  _ ← expect_capture identity_generation (str "identity_generation.json") (str "identity-encrypt") (str "test_only_oracle_shim") EXPECTED_RETICULUM_COMMIT;
  _ ← expect_bool_field identity_generation (str "identity_generation.json") (str "valid") true;
  _ ← expect_bool_field identity_generation (str "identity_generation.json") (str "test_only_secret_material") true;
  _ ← expect_string_field identity_generation (str "identity_generation.json") (str "reticulum_self_validation") (str "passed");
  actual ← required_string_field identity_generation (str "identity_generation.json") (str "plaintext_hex");
  _ ← require_equal actual (rust_plaintext_hex proof) (str "identity shim plaintext does not match Rust proof input");
  ciphertext_token_hex ← required_string_field identity_generation (str "identity_generation.json") (str "ciphertext_token_hex");
  _ ← require_equal ciphertext_token_hex (rust_identity_ciphertext_token_hex proof) (str "identity shim output does not match Rust proof input");
  ephemeral_public_hex ← required_string_field identity_generation (str "identity_generation.json") (str "ephemeral_public_hex");
  _ ← require_equal ephemeral_public_hex (rust_ephemeral_public_hex proof) (str "identity shim ephemeral public key does not match Rust proof input");
  guard_err (negb (starts_with ciphertext_token_hex ephemeral_public_hex)) (InvalidEvidence (str "identity generation ciphertext does not start with ephemeral public key")).

Definition check_identity_python (identity_python : jdoc) (proof : rust_proof) : outcome FinalReportError unit :=
  _ ← expect_capture identity_python (str "identity_python_decrypt.json") (str "identity-decrypt") (str "python_reticulum") EXPECTED_RETICULUM_COMMIT;
  _ ← expect_bool_field identity_python (str "identity_python_decrypt.json") (str "valid") true;
  actual ← required_string_field identity_python (str "identity_python_decrypt.json") (str "ciphertext_token_hex");
  _ ← require_equal actual (rust_identity_ciphertext_token_hex proof) (str "Reticulum identity decrypt input does not match Rust proof input");
  actual ← required_string_field identity_python (str "identity_python_decrypt.json") (str "plaintext_hex");
  require_equal actual (rust_plaintext_hex proof) (str "Reticulum identity decrypt plaintext does not match Rust proof input").

Definition check_ifac (ifac_fixture ifac_python_apply ifac_python_verify : jdoc) : outcome FinalReportError unit :=
  _ ← expect_capture ifac_python_apply (str "ifac_python_apply.json") (str "ifac-apply") (str "python_reticulum") EXPECTED_RETICULUM_COMMIT;
  _ ← expect_bool_field ifac_python_apply (str "ifac_python_apply.json") (str "valid") true;
  _ ← expect_capture ifac_python_verify (str "ifac_python_verify.json") (str "ifac-verify") (str "python_reticulum") EXPECTED_RETICULUM_COMMIT;
  _ ← expect_bool_field ifac_python_verify (str "ifac_python_verify.json") (str "valid") true;
  actual ← required_string_field ifac_python_apply (str "ifac_python_apply.json") (str "masked_hex");
  expected ← required_string_field ifac_fixture (str "ifac_fixture_verify.json") (str "masked_hex");
  _ ← require_equal actual expected (str "IFAC Reticulum apply masked packet mismatch");
  actual ← required_string_field ifac_python_verify (str "ifac_python_verify.json") (str "masked_hex");
  expected ← required_string_field ifac_python_apply (str "ifac_python_apply.json") (str "masked_hex");
  _ ← require_equal actual expected (str "IFAC Reticulum verify masked packet mismatch");
  actual ← required_string_field ifac_python_verify (str "ifac_python_verify.json") (str "unmasked_hex");
  expected ← required_string_field ifac_fixture (str "ifac_fixture_verify.json") (str "unmasked_hex");
  require_equal actual expected (str "IFAC Reticulum verify unmasked packet mismatch").

Definition read_oracle_environment (probe : jdoc) : outcome FinalReportError OracleEnvironment :=
  module ← required_string_field probe (str "probe.json") (str "module");
  cryptography ← required_string_field probe (str "probe.json") (str "cryptography");
  pyserial ← required_string_field probe (str "probe.json") (str "pyserial");
  let oracle_environment := OracleEnvironment_new module EXPECTED_RETICULUM_COMMIT cryptography pyserial in
  rns_version ← optional_string_field probe (str "rns_version");
  Ok (match rns_version with Some rns_version => with_rns_version oracle_environment rns_version | None => oracle_environment end).

Definition from_capture_dir (capture_dir : list Z) : outcome FinalReportError Profile2FinalEvidence :=
  c ← load_captures capture_dir;
  _ ← check_fixture_replays (hkdf c) (token_fixture c) (identity_fixture c) (ifac_fixture c) (probe c);
  proof ← read_rust_proof (rust_proof_inputs c);
  _ ← check_token_generation (token_generation c) proof;
  _ ← check_token_python (token_python c) proof;
  _ ← check_identity_generation (identity_generation c) proof;
  _ ← check_identity_python (identity_python c) proof;
  _ ← check_ifac (ifac_fixture c) (ifac_python_apply c) (ifac_python_verify c);
  oracle_environment ← read_oracle_environment (probe c);
  hkdf_command ← required_string_field (hkdf c) (str "hkdf_vector.json") (str "command");
  token_fixture_command ← required_string_field (token_fixture c) (str "token_fixture_decrypt.json") (str "command");
  identity_fixture_command ← required_string_field (identity_fixture c) (str "identity_fixture_decrypt.json") (str "command");
  ifac_fixture_command ← required_string_field (ifac_fixture c) (str "ifac_fixture_verify.json") (str "command");
  token_generation_command ← required_string_field (token_generation c) (str "token_generation.json") (str "command");
  token_python_command ← required_string_field (token_python c) (str "token_python_decrypt.json") (str "command");
  identity_generation_command ← required_string_field (identity_generation c) (str "identity_generation.json") (str "command");
  identity_python_command ← required_string_field (identity_python c) (str "identity_python_decrypt.json") (str "command");
  apply_command ← required_string_field (ifac_python_apply c) (str "ifac_python_apply.json") (str "command");
  verify_command ← required_string_field (ifac_python_verify c) (str "ifac_python_verify.json") (str "command");
  Profile2FinalEvidence_new oracle_environment [hkdf_command; token_fixture_command; identity_fixture_command; ifac_fixture_command]
    token_generation_command token_python_command identity_generation_command identity_python_command [apply_command; verify_command].
End captures.

(** ** Reports *)
Definition passed_oracle_result (id category mode role : list Z) (proof : bool) (commands : list (list Z)) : ConformanceResult :=
  mk_result id category ConfPassed (Some (oracle_detail mode role proof commands EXPECTED_RETICULUM_COMMIT)).

Definition oracle_results (evidence : Profile2FinalEvidence) : list ConformanceResult :=
  [passed_oracle_result RESULT_ID_RNS_ORACLE_FIXTURE_REPLAY CATEGORY_RNS_ORACLE_FIXTURE_REPLAY (str "fixture_replay") (str "fixture_replay") false (fixture_replay_commands evidence);
   passed_oracle_result RESULT_ID_RNS_ORACLE_TEST_ONLY_SHIM_TOKEN_GENERATION CATEGORY_RNS_ORACLE_TEST_ONLY_SHIM (str "test_only_oracle_shim") (str "deterministic_generation") false [token_generation_command evidence];
   passed_oracle_result RESULT_ID_RNS_ORACLE_PYTHON_RETICULUM_TOKEN CATEGORY_RNS_ORACLE_PYTHON_RETICULUM (str "python_reticulum") (str "rust_output_reticulum_validation") true [token_python_command evidence];
   passed_oracle_result RESULT_ID_RNS_ORACLE_TEST_ONLY_SHIM_IDENTITY_GENERATION CATEGORY_RNS_ORACLE_TEST_ONLY_SHIM (str "test_only_oracle_shim") (str "deterministic_generation") false [identity_generation_command evidence];
   passed_oracle_result RESULT_ID_RNS_ORACLE_PYTHON_RETICULUM_IDENTITY CATEGORY_RNS_ORACLE_PYTHON_RETICULUM (str "python_reticulum") (str "rust_output_reticulum_validation") true [identity_python_command evidence];
   passed_oracle_result RESULT_ID_RNS_ORACLE_PYTHON_RETICULUM_IFAC CATEGORY_RNS_ORACLE_PYTHON_RETICULUM (str "python_reticulum") (str "reticulum_validation") true (ifac_python_commands evidence)].

Definition validate_profile_2_final_report (report : ConformanceRun) : outcome FinalReportError unit :=
  if negb (bool_decide (run_profile report = PROFILE_2_CRYPTO_IFAC)) then invalid_evidence (str "Profile 2 final report has wrong profile")
  else if negb (bool_decide (run_reticulum_commit report = EXPECTED_RETICULUM_COMMIT)) then invalid_evidence (str "Profile 2 final report has wrong Reticulum commit")
  else
    match ce_oracle (run_environment report) with
    | None => invalid_evidence (str "Profile 2 final report is missing oracle environment metadata")
    | Some oracle =>
        _ ← validate_final_oracle_metadata oracle None;
        validate_final_results (run_results report) PROFILE_2_FINAL_RESULTS EXPECTED_RETICULUM_COMMIT
    end.

Definition required_categories_are_present (results : list ConformanceResult) : bool :=
  let categories : gset (list Z) := list_to_set (cr_category <$> results) in
  forallb (fun category => bool_decide (category ∈ categories)) REQUIRED_PROFILE_2_RESULT_CATEGORIES.

Section profile.
Context `{J : JsonDoc, FC : FromJson (FixtureCasesFile jdoc), FM : FromJson ManifestFile, P : RnsPrims, Profile2Files}.

Definition validate_fixture_cases (contents : list Z) (expected_count : Z) : outcome FixtureError unit :=
  fixture ← (parse_fixture_cases_for_profile contents PROFILE_2_CRYPTO_IFAC : outcome FixtureError (FixtureCasesFile jdoc));
  if len (fc_cases fixture) =? expected_count then Ok tt
  else Err (UnexpectedFixtureValue (str "case_count") (decimal (len (fc_cases fixture)))).
Definition validate_token_fixtures : outcome FixtureError unit :=
  _ ← validate_fixture_cases TOKEN_FIXTURE 2;
  validate_fixture_cases TOKEN_NEGATIVE_FIXTURE 5.
Definition validate_ifac_fixtures : outcome FixtureError unit :=
  _ ← validate_fixture_cases IFAC_FIXTURE 2;
  validate_fixture_cases IFAC_NEGATIVE_FIXTURE 7.
Definition validate_fixture_manifest : outcome FixtureError unit :=
  manifest ← parse_manifest_for_profile MANIFEST PROFILE_2_CRYPTO_IFAC;
  assert_exact_manifest_entries manifest expected_manifest.

Definition profile_2_fixture_results {E} : outcome E (list ConformanceResult) :=
  manifest ← fixture_result RESULT_ID_FIXTURE_MANIFEST CATEGORY_FIXTURE_MANIFEST validate_fixture_manifest;
  hkdf ← fixture_result RESULT_ID_HKDF CATEGORY_HKDF (validate_fixture_cases HKDF_FIXTURE 3);
  token ← fixture_result RESULT_ID_TOKEN CATEGORY_TOKEN validate_token_fixtures;
  identity_encrypt ← fixture_result RESULT_ID_IDENTITY_ENCRYPT CATEGORY_IDENTITY_ENCRYPT (validate_fixture_cases IDENTITY_ENCRYPT_FIXTURE 2);
  identity_decrypt ← fixture_result RESULT_ID_IDENTITY_DECRYPT CATEGORY_IDENTITY_DECRYPT (validate_fixture_cases IDENTITY_DECRYPT_FIXTURE 6);
  ifac ← fixture_result RESULT_ID_IFAC CATEGORY_IFAC validate_ifac_fixtures;
  Ok [manifest; hkdf; token; identity_encrypt; identity_decrypt; ifac].
Definition profile_2_results {E} : outcome E (list ConformanceResult) :=
  results ← profile_2_fixture_results;
  Ok (results ++ profile_2_oracle_unavailable_results).
Definition profile_2_final_results {E} (evidence : Profile2FinalEvidence) : outcome E (list ConformanceResult) :=
  results ← profile_2_fixture_results;
  Ok (results ++ oracle_results evidence).

Definition profile_2_report {E} (run_id hyf_commit started_at : list Z) (environment : ConformanceEnvironment) : outcome E ConformanceRun :=
  results ← profile_2_results;
  Ok (new_profile PROFILE_2_CRYPTO_IFAC run_id hyf_commit EXPECTED_RETICULUM_COMMIT started_at environment results).

(** The struct expression builds the environment before the rows. *)
Definition profile_2_final_report (run_id hyf_commit started_at : list Z) (environment : ConformanceEnvironment)
    (evidence : Profile2FinalEvidence) : outcome FinalReportError ConformanceRun :=
  let environment := with_oracle environment (oracle_environment evidence) in
  results ← profile_2_final_results evidence;
  let report := new_profile PROFILE_2_CRYPTO_IFAC run_id hyf_commit EXPECTED_RETICULUM_COMMIT started_at environment results in
  _ ← validate_profile_2_final_report report;
  Ok report.
End profile.

(** ** Lemmas: hexadecimal and proof inputs *)
Lemma hex_lower_bytes l : bytes_ok l -> hex_lower l = hex_bytes l.
Proof.
  unfold hex_lower, hex_bytes. rewrite flat_map_concat_map. intros Hl. f_equal. apply List.map_ext_Forall. eapply list.Forall_impl; [exact Hl|]. intros b Hb.
  refine (bool_decide_eq_true_1 _ _). revert b Hb. apply u8_forall. vm_compute. reflexivity.
Qed.

Definition proof_secret : RnsSecretIdentity :=
  mk_secret (take 32 PROFILE_2_RUST_PROOF_RECIPIENT_SECRET) (drop 32 PROFILE_2_RUST_PROOF_RECIPIENT_SECRET).
Definition proof_public : RnsPublicIdentity :=
  mk_public (take 32 PROFILE_2_RUST_PROOF_RECIPIENT_PUBLIC) (drop 32 PROFILE_2_RUST_PROOF_RECIPIENT_PUBLIC).
Lemma proof_bytes_ok : array_ok 32 PROFILE_2_RUST_PROOF_TOKEN_KEY /\ array_ok 16 PROFILE_2_RUST_PROOF_IV /\ array_ok 32 PROFILE_2_RUST_PROOF_EPHEMERAL_SECRET /\
  array_ok 64 PROFILE_2_RUST_PROOF_RECIPIENT_SECRET /\ array_ok 64 PROFILE_2_RUST_PROOF_RECIPIENT_PUBLIC /\ bytes_ok PROFILE_2_RUST_PROOF_PLAINTEXT.
Proof. repeat split; apply (bool_decide_unpack _); vm_compute; exact I. Qed.
Lemma proof_secret_ok : secret_ok proof_secret.
Proof. repeat split; apply (bool_decide_unpack _); vm_compute; exact I. Qed.
Lemma proof_public_ok : public_ok proof_public.
Proof. repeat split; apply (bool_decide_unpack _); vm_compute; exact I. Qed.

(** Whatever the token opens to, it opens to the plaintext of the proof. *)
Definition token_opens `{RnsPrims} (token : list Z) : Prop :=
  forall out, 16 <= len out -> exists rest, token_decrypt PROFILE_2_RUST_PROOF_TOKEN_KEY token out = (Ok (len PROFILE_2_RUST_PROOF_PLAINTEXT), PROFILE_2_RUST_PROOF_PLAINTEXT ++ rest).
Definition packet_opens `{RnsPrims} (packet : list Z) : Prop :=
  forall out, 16 <= len out -> fst (decrypt_for_identity proof_secret packet [] false out) = Ok (mk_decrypted PROFILE_2_RUST_PROOF_PLAINTEXT None).

Section proof_inputs.
Context `{P : RnsPrims, L : !RnsPrimsLaws P}.

Lemma proof_token_made : exists token, bytes_ok token /\ len token = 64 /\ token_opens token /\
  token_encrypt_with_iv PROFILE_2_RUST_PROOF_TOKEN_KEY PROFILE_2_RUST_PROOF_PLAINTEXT PROFILE_2_RUST_PROOF_IV (zeros 128) = (Ok 64, token ++ zeros 64).
Proof.
  destruct proof_bytes_ok as ([Hk Hkb] & [Hi Hib] & _ & _ & _ & Hp).
  destruct (token_encrypt_sealed PROFILE_2_RUST_PROOF_TOKEN_KEY PROFILE_2_RUST_PROOF_PLAINTEXT PROFILE_2_RUST_PROOF_IV (zeros 128)) as (token & Hs & Hl & Hrun); [by left|done|done|done|done|].
  change (48 + len (padded PROFILE_2_RUST_PROOF_PLAINTEXT)) with 64 in Hl. exists token. split_and!.
  - destruct Hs as (c & tag & Hc & Ht & ->). destruct (sealed_exists PROFILE_2_RUST_PROOF_TOKEN_KEY PROFILE_2_RUST_PROOF_IV PROFILE_2_RUST_PROOF_PLAINTEXT) as (c' & tag' & Hc' & [_ Hcb] & Ht' & [_ Htb]); [by left|done|done|].
    simplify_eq. by rewrite !bytes_ok_app.
  - done.
  - intros out Hout. rewrite (token_decrypt_sealed _ PROFILE_2_RUST_PROOF_IV PROFILE_2_RUST_PROOF_PLAINTEXT) by (done || by left). by eexists.
  - rewrite Hrun, Hl. f_equal. f_equal. unfold zeros. rewrite drop_replicate. f_equal. unfold len in Hl. lia.
Qed.

Hypothesis known_public : public_of proof_secret = proof_public.
Hypothesis contributory : was_contributory (diffie_hellman PROFILE_2_RUST_PROOF_EPHEMERAL_SECRET (pi_x25519_public proof_public)) = true.

Lemma proof_packet_made : exists token, bytes_ok token /\ len token = 64 /\ packet_opens (x25519_public PROFILE_2_RUST_PROOF_EPHEMERAL_SECRET ++ token) /\
  encrypt_for_identity_with_ephemeral_and_iv proof_public PROFILE_2_RUST_PROOF_PLAINTEXT PROFILE_2_RUST_PROOF_EPHEMERAL_SECRET PROFILE_2_RUST_PROOF_IV (tt, zeros 128) =
    (Ok 96, (tt, (x25519_public PROFILE_2_RUST_PROOF_EPHEMERAL_SECRET ++ token) ++ zeros 32)).
Proof.
  destruct proof_bytes_ok as (_ & [Hi Hib] & [He Heb] & _ & _ & Hp).
  destruct (derive_token_key_ok _ _ proof_public_ok (diffie_hellman_len _ _) contributory) as (key & Hkey & [Hkl Hkb]).
  destruct (encrypt_with_secret_run proof_public PROFILE_2_RUST_PROOF_PLAINTEXT tt tt PROFILE_2_RUST_PROOF_EPHEMERAL_SECRET PROFILE_2_RUST_PROOF_IV key
    (fun key plaintext => on_out (token_encrypt_with_iv key plaintext PROFILE_2_RUST_PROOF_IV)) (zeros 128)) as (token & Hs & Hl & Hrun); [done..|].
  change (48 + len (padded PROFILE_2_RUST_PROOF_PLAINTEXT)) with 64 in Hl. pose proof (x25519_public_len _ He) as [Hxl Hxb]. exists token. split_and!.
  - destruct Hs as (c & tag & Hc & Ht & ->). destruct (sealed_exists key PROFILE_2_RUST_PROOF_IV PROFILE_2_RUST_PROOF_PLAINTEXT) as (c' & tag' & Hc' & [_ Hcb] & Ht' & [_ Htb]); [by right|done|done|].
    simplify_eq. by rewrite !bytes_ok_app.
  - done.
  - intros out Hout. rewrite (decrypt_for_identity_parts proof_secret) by (done || apply proof_secret_ok || lia).
    apply (open_sealed_packet proof_secret PROFILE_2_RUST_PROOF_EPHEMERAL_SECRET PROFILE_2_RUST_PROOF_IV key); try done; [apply proof_secret_ok|by rewrite known_public].
  - unfold encrypt_for_identity_with_ephemeral_and_iv. rewrite Hrun, Hl. done.
Qed.

Lemma proof_inputs_made : exists inputs token packet, profile_2_rust_proof_inputs = Ok inputs /\
  decode_hex (pr_plaintext_hex inputs) = Ok PROFILE_2_RUST_PROOF_PLAINTEXT /\
  decode_hex (pr_token_hex inputs) = Ok token /\ token_opens token /\
  decode_hex (pr_identity_ciphertext_token_hex inputs) = Ok packet /\ packet_opens packet /\
  pr_ephemeral_public_hex inputs = hex_bytes (x25519_public PROFILE_2_RUST_PROOF_EPHEMERAL_SECRET) /\
  starts_with (pr_identity_ciphertext_token_hex inputs) (pr_ephemeral_public_hex inputs) = true.
Proof.
  destruct proof_bytes_ok as (_ & _ & [He _] & _ & [Hpl Hpb] & Hp). pose proof (x25519_public_len _ He) as [Hxl Hxb].
  destruct proof_token_made as (token & Htb & Htl & Hopen & Hrun). destruct proof_packet_made as (sealed_token & Hsb & Hsl & Hpopen & Hprun).
  set (packet := x25519_public PROFILE_2_RUST_PROOF_EPHEMERAL_SECRET ++ sealed_token) in *.
  assert (len packet = 96) as Hpk by (unfold packet; rewrite len_app; lia). assert (bytes_ok packet) as Hpkb by (by apply bytes_ok_app).
  assert (public_identity_from_bytes PROFILE_2_RUST_PROOF_RECIPIENT_PUBLIC = Ok proof_public) as Hpub.
  { assert (PROFILE_2_RUST_PROOF_RECIPIENT_PUBLIC = pi_x25519_public proof_public ++ pi_ed25519_public proof_public) as -> by (symmetry; apply take_drop).
    rewrite public_identity_from_to by apply proof_public_ok. assert (ed25519_valid (pi_ed25519_public proof_public) = true) as ->; [|done].
    rewrite <- known_public. by apply ed25519_public_valid. }
  unfold profile_2_rust_proof_inputs. rewrite Hrun. cbn [map_err mbind outcome_bind]. rewrite Hpub. cbn [map_err mbind outcome_bind]. rewrite Hprun. cbn [map_err mbind outcome_bind].
  assert (slice (E := FinalReportError) (packet ++ zeros 32) 0 96 = Ok packet) as ->.
  { rewrite slice_prefix by (rewrite len_app, Hpk; done). rewrite <- Hpk. by rewrite take_len_app. }
  cbn [mbind outcome_bind]. assert (slice (E := FinalReportError) (token ++ zeros 64) 0 64 = Ok token) as ->.
  { rewrite slice_prefix by (rewrite len_app, Htl; done). rewrite <- Htl. by rewrite take_len_app. }
  cbn [mbind outcome_bind]. assert (slice (E := FinalReportError) packet 0 RNS_SINGLE_PACKET_EPHEMERAL_PUBLIC_LEN = Ok (x25519_public PROFILE_2_RUST_PROOF_EPHEMERAL_SECRET)) as ->.
  { change RNS_SINGLE_PACKET_EPHEMERAL_PUBLIC_LEN with 32. rewrite slice_prefix by lia. rewrite <- Hxl. unfold packet. by rewrite take_len_app. }
  cbn [mbind outcome_bind]. eexists _, token, packet. split; [reflexivity|]. cbn [pr_plaintext_hex pr_token_hex pr_identity_ciphertext_token_hex pr_ephemeral_public_hex].
  rewrite !hex_lower_bytes by done. split_and!; try done; try (by apply decode_hex_ok).
  unfold starts_with, packet. apply bool_decide_eq_true. unfold hex_bytes. rewrite map_app, concat_app. by rewrite take_app_length.
Qed.
End proof_inputs.

(** ** Lemmas: evidence *)
Section evidence_lemmas.
Context `{J : JsonDoc}.
Implicit Types (d : jdoc) (p : rust_proof).

(** A field that must be a given text, when it is read and compared in two steps. *)
Lemma read_equal_then {B} d f k v msg (m : outcome FinalReportError B) r : v <> [] ->
  (actual ← required_string_field d f k; _ ← require_equal actual v msg; m) = Ok r <-> field_is d k v /\ m = Ok r.
Proof.
  intros Hv. rewrite bind_ok. setoid_rewrite required_string_ok. setoid_rewrite bind_ok_unit. setoid_rewrite require_equal_ok. naive_solver.
Qed.
Lemma read_equal d f k v msg : v <> [] -> (actual ← required_string_field d f k; require_equal actual v msg) = Ok tt <-> field_is d k v.
Proof. intros Hv. rewrite bind_ok. setoid_rewrite required_string_ok. setoid_rewrite require_equal_ok. naive_solver. Qed.
Lemma read_command d f k v {B} (m : list Z -> outcome FinalReportError B) : field_is d k v -> v <> [] -> (actual ← required_string_field d f k; m actual) = m v.
Proof. intros Hf Hv. by rewrite (proj2 (required_string_ok d f k v) (conj Hf Hv)). Qed.

Record proof_read d p : Prop := {
  pf_command : field_is d (str "command") PROFILE_2_RUST_PROOF_COMMAND;
  pf_mode : field_is d (str "mode") PROFILE_2_RUST_PROOF_MODE;
  pf_valid : flag_is d (str "valid") true;
  pf_secret : flag_is d (str "test_only_secret_material") true;
  pf_plaintext : field_is d (str "plaintext_hex") (rust_plaintext_hex p) /\ rust_plaintext_hex p <> [];
  pf_token : field_is d (str "token_hex") (rust_token_hex p) /\ rust_token_hex p <> [];
  pf_packet : field_is d (str "identity_ciphertext_token_hex") (rust_identity_ciphertext_token_hex p) /\ rust_identity_ciphertext_token_hex p <> [];
  pf_ephemeral : field_is d (str "ephemeral_public_hex") (rust_ephemeral_public_hex p) /\ rust_ephemeral_public_hex p <> [];
}.
(** What the test-only shim generated is what Rust made, and Reticulum accepted it. *)
Record shim_agrees d (command : list Z) p : Prop := {
  sh_captured : captured d command (str "test_only_oracle_shim") EXPECTED_RETICULUM_COMMIT;
  sh_valid : flag_is d (str "valid") true;
  sh_secret : flag_is d (str "test_only_secret_material") true;
  sh_self : field_is d (str "reticulum_self_validation") (str "passed");
  sh_plaintext : field_is d (str "plaintext_hex") (rust_plaintext_hex p);
}.
(** Reticulum decrypted the text under [key], which is what Rust made, to its plaintext. *)
Record reticulum_opened d (command key made : list Z) p : Prop := {
  ro_captured : captured d command (str "python_reticulum") EXPECTED_RETICULUM_COMMIT;
  ro_valid : flag_is d (str "valid") true;
  ro_input : field_is d key made;
  ro_plaintext : field_is d (str "plaintext_hex") (rust_plaintext_hex p);
}.
Record ifac_agrees fixture apply verify : Prop := {
  if_apply : captured apply (str "ifac-apply") (str "python_reticulum") EXPECTED_RETICULUM_COMMIT /\ flag_is apply (str "valid") true;
  if_verify : captured verify (str "ifac-verify") (str "python_reticulum") EXPECTED_RETICULUM_COMMIT /\ flag_is verify (str "valid") true;
  if_masked : exists masked, masked <> [] /\ field_is apply (str "masked_hex") masked /\ field_is fixture (str "masked_hex") masked /\ field_is verify (str "masked_hex") masked;
  if_unmasked : exists unmasked, unmasked <> [] /\ field_is verify (str "unmasked_hex") unmasked /\ field_is fixture (str "unmasked_hex") unmasked;
}.
(** The oracle's environment, as its probe describes it. *)
Definition probed d (o : OracleEnvironment) : Prop :=
  (field_is d (str "module") (oe_reticulum_module_path o) /\ oe_reticulum_module_path o <> []) /\
  (field_is d (str "cryptography") (oe_cryptography_version o) /\ oe_cryptography_version o <> []) /\
  (field_is d (str "pyserial") (oe_pyserial_version o) /\ oe_pyserial_version o <> []) /\
  oe_reticulum_commit o = EXPECTED_RETICULUM_COMMIT /\
  match oe_rns_version o with None => doc_get d (str "rns_version") = None | Some v => field_is d (str "rns_version") v /\ v <> [] end.

Record captures_agree (c : captures) p : Prop := {
  ag_hkdf : captured (hkdf c) (str "hkdf-vector") (str "fixture_replay") EXPECTED_RETICULUM_COMMIT;
  ag_token_fixture : captured (token_fixture c) (str "token-decrypt") (str "fixture_replay") EXPECTED_RETICULUM_COMMIT;
  ag_identity_fixture : captured (identity_fixture c) (str "identity-decrypt") (str "fixture_replay") EXPECTED_RETICULUM_COMMIT;
  ag_ifac_fixture : captured (ifac_fixture c) (str "ifac-verify") (str "fixture_replay") EXPECTED_RETICULUM_COMMIT;
  ag_probe : captured (probe c) (str "probe") (str "python_reticulum") EXPECTED_RETICULUM_COMMIT /\ field_is (probe c) (str "status") (str "passed");
  ag_proof : proof_read (rust_proof_inputs c) p;
  ag_token_shim : shim_agrees (token_generation c) (str "token-encrypt") p /\ field_is (token_generation c) (str "token_hex") (rust_token_hex p);
  ag_token_opened : reticulum_opened (token_python c) (str "token-decrypt") (str "token_hex") (rust_token_hex p) p;
  ag_identity_shim : shim_agrees (identity_generation c) (str "identity-encrypt") p /\
    field_is (identity_generation c) (str "ciphertext_token_hex") (rust_identity_ciphertext_token_hex p) /\
    field_is (identity_generation c) (str "ephemeral_public_hex") (rust_ephemeral_public_hex p);
  ag_ephemeral : starts_with (rust_identity_ciphertext_token_hex p) (rust_ephemeral_public_hex p) = true;
  ag_identity_opened : reticulum_opened (identity_python c) (str "identity-decrypt") (str "ciphertext_token_hex") (rust_identity_ciphertext_token_hex p) p;
  ag_ifac : ifac_agrees (ifac_fixture c) (ifac_python_apply c) (ifac_python_verify c);
}.

Record captures_loaded (dir : list Z) (c : captures) : Prop := {
  ld_hkdf : capture_file dir (str "hkdf_vector.json") (hkdf c);
  ld_token_fixture : capture_file dir (str "token_fixture_decrypt.json") (token_fixture c);
  ld_identity_fixture : capture_file dir (str "identity_fixture_decrypt.json") (identity_fixture c);
  ld_ifac_fixture : capture_file dir (str "ifac_fixture_verify.json") (ifac_fixture c);
  ld_probe : capture_file dir (str "probe.json") (probe c);
  ld_rust_proof_inputs : capture_file dir (str "rust_proof_inputs.json") (rust_proof_inputs c);
  ld_token_generation : capture_file dir (str "token_generation.json") (token_generation c);
  ld_token_python : capture_file dir (str "token_python_decrypt.json") (token_python c);
  ld_identity_generation : capture_file dir (str "identity_generation.json") (identity_generation c);
  ld_identity_python : capture_file dir (str "identity_python_decrypt.json") (identity_python c);
  ld_ifac_python_apply : capture_file dir (str "ifac_python_apply.json") (ifac_python_apply c);
  ld_ifac_python_verify : capture_file dir (str "ifac_python_verify.json") (ifac_python_verify c);
}.

Lemma load_captures_ok dir c : load_captures dir = Ok c <-> captures_loaded dir c.
Proof.
  unfold load_captures. split.
  - intros H. repeat (apply bind_ok in H as (? & ?%load_capture_ok & H)). injection H as <-. by split.
  - intros []. repeat (apply bind_ok; eexists; split; [by apply load_capture_ok|]). by destruct c.
Qed.

Lemma check_replays_ok (h t i f q : jdoc) : check_fixture_replays h t i f q = Ok tt <->
  captured h (str "hkdf-vector") (str "fixture_replay") EXPECTED_RETICULUM_COMMIT /\
  captured t (str "token-decrypt") (str "fixture_replay") EXPECTED_RETICULUM_COMMIT /\
  captured i (str "identity-decrypt") (str "fixture_replay") EXPECTED_RETICULUM_COMMIT /\
  captured f (str "ifac-verify") (str "fixture_replay") EXPECTED_RETICULUM_COMMIT /\
  captured q (str "probe") (str "python_reticulum") EXPECTED_RETICULUM_COMMIT /\ field_is q (str "status") (str "passed").
Proof. unfold check_fixture_replays. by rewrite !bind_ok_unit, !expect_capture_ok, expect_string_ok. Qed.

Lemma read_proof_ok d p : read_rust_proof d = Ok p <-> proof_read d p.
Proof.
  unfold read_rust_proof. rewrite !bind_ok_unit, !expect_string_ok, !expect_bool_ok by done. split.
  - intros (H1 & H2 & H3 & H4 & H). repeat (apply bind_ok in H as (? & ?%required_string_ok & H)). injection H as <-. by split.
  - intros []. split_and!; [done..|]. repeat (apply bind_ok; eexists; split; [by apply required_string_ok|]). by destruct p.
Qed.

Lemma token_generation_ok d p : rust_plaintext_hex p <> [] -> rust_token_hex p <> [] ->
  check_token_generation d p = Ok tt <-> shim_agrees d (str "token-encrypt") p /\ field_is d (str "token_hex") (rust_token_hex p).
Proof.
  intros H1 H2. unfold check_token_generation. rewrite !bind_ok_unit, expect_capture_ok, !expect_bool_ok, expect_string_ok, read_equal_then, read_equal by done.
  split; [intros (? & ? & ? & ? & ? & ?); done|]. by intros [[] ?].
Qed.
Lemma token_python_ok d p : rust_plaintext_hex p <> [] -> rust_token_hex p <> [] ->
  check_token_python d p = Ok tt <-> reticulum_opened d (str "token-decrypt") (str "token_hex") (rust_token_hex p) p.
Proof.
  intros H1 H2. unfold check_token_python. rewrite !bind_ok_unit, expect_capture_ok, !expect_bool_ok, read_equal_then, read_equal by done.
  split; [intros (? & ? & ? & ?); done|]. by intros [].
Qed.
Lemma identity_generation_ok d p : rust_plaintext_hex p <> [] -> rust_identity_ciphertext_token_hex p <> [] -> rust_ephemeral_public_hex p <> [] ->
  check_identity_generation d p = Ok tt <-> (shim_agrees d (str "identity-encrypt") p /\
    field_is d (str "ciphertext_token_hex") (rust_identity_ciphertext_token_hex p) /\ field_is d (str "ephemeral_public_hex") (rust_ephemeral_public_hex p)) /\
    starts_with (rust_identity_ciphertext_token_hex p) (rust_ephemeral_public_hex p) = true.
Proof.
  intros H1 H2 H3. unfold check_identity_generation. rewrite !bind_ok_unit, expect_capture_ok, !expect_bool_ok, expect_string_ok, read_equal_then by done. split.
  - intros (? & ? & ? & ? & ? & H). apply bind_ok in H as (a & [Ha _]%required_string_ok & H). rewrite bind_ok_unit, require_equal_ok in H. destruct H as [-> H].
    apply bind_ok in H as (b & [Hb _]%required_string_ok & H). rewrite bind_ok_unit, require_equal_ok, guarded, negb_false_iff in H. destruct H as [-> H]. done.
  - intros ([[] [Ha Hb]] & Hs). split_and!; [done..|]. rewrite (read_command _ _ _ _ _ Ha H2), bind_ok_unit, require_equal_ok. split; [done|].
    rewrite (read_command _ _ _ _ _ Hb H3), bind_ok_unit, require_equal_ok, Hs. done.
Qed.
Lemma identity_python_ok d p : rust_plaintext_hex p <> [] -> rust_identity_ciphertext_token_hex p <> [] ->
  check_identity_python d p = Ok tt <-> reticulum_opened d (str "identity-decrypt") (str "ciphertext_token_hex") (rust_identity_ciphertext_token_hex p) p.
Proof.
  intros H1 H2. unfold check_identity_python. rewrite !bind_ok_unit, expect_capture_ok, !expect_bool_ok, read_equal_then, read_equal by done.
  split; [intros (? & ? & ? & ?); done|]. by intros [].
Qed.

Lemma check_ifac_ok fixture apply verify : check_ifac fixture apply verify = Ok tt <-> ifac_agrees fixture apply verify.
Proof.
  unfold check_ifac. rewrite !bind_ok_unit, !expect_capture_ok, !expect_bool_ok by done. split.
  - intros (H1 & H2 & H3 & H4 & H). apply bind_ok in H as (a & [Ha Hne]%required_string_ok & H). apply bind_ok in H as (b & [Hb _]%required_string_ok & H).
    rewrite bind_ok_unit, require_equal_ok in H. destruct H as [<- H]. apply bind_ok in H as (c & [Hc _]%required_string_ok & H).
    rewrite (read_command _ _ _ _ _ Ha Hne), bind_ok_unit, require_equal_ok in H. destruct H as [-> H].
    apply bind_ok in H as (u & [Hu Hne']%required_string_ok & H). apply bind_ok in H as (w & [Hw _]%required_string_ok & H). apply require_equal_ok in H as <-.
    split; [done|done|by exists a|by exists u].
  - intros [[Ha1 Ha2] [Hv1 Hv2] (m & Hm & H1 & H2 & H3) (u & Hu & H4 & H5)]. split_and!; [done..|].
    rewrite (read_command _ _ _ _ _ H1 Hm), (read_command _ _ _ _ _ H2 Hm), bind_ok_unit, require_equal_ok. split; [done|].
    rewrite (read_command _ _ _ _ _ H3 Hm), (read_command _ _ _ _ _ H1 Hm), bind_ok_unit, require_equal_ok. split; [done|].
    rewrite (read_command _ _ _ _ _ H4 Hu), (read_command _ _ _ _ _ H5 Hu). by apply require_equal_ok.
Qed.

Lemma read_oracle_ok d o : read_oracle_environment d = Ok o <-> probed d o.
Proof.
  unfold read_oracle_environment, probed. split.
  - intros H. apply bind_ok in H as (m & Hm%required_string_ok & H). apply bind_ok in H as (c & Hc%required_string_ok & H). apply bind_ok in H as (s & Hs%required_string_ok & H).
    apply bind_ok in H as (r & Hr%optional_string_ok & H). injection H as <-. by destruct r.
  - destruct o as [m commit r c s]. cbn. intros (Hm & Hc & Hs & -> & Hr). apply bind_ok. exists m. split; [by apply required_string_ok|].
    apply bind_ok. exists c. split; [by apply required_string_ok|]. apply bind_ok. exists s. split; [by apply required_string_ok|].
    apply bind_ok. exists r. split; [by apply optional_string_ok|]. by destruct r.
Qed.
End evidence_lemmas.

(** The evidence of an oracle. *)
Definition evidence_of (o : OracleEnvironment) : Profile2FinalEvidence :=
  mk_evidence o [str "hkdf-vector"; str "token-decrypt"; str "identity-decrypt"; str "ifac-verify"] (str "token-encrypt") (str "token-decrypt")
    (str "identity-encrypt") (str "identity-decrypt") [str "ifac-apply"; str "ifac-verify"].

Lemma p2_new_evidence_ok o replays tg tp ig ip ifac evidence : Profile2FinalEvidence_new o replays tg tp ig ip ifac = Ok evidence <->
  oe_reticulum_commit o = EXPECTED_RETICULUM_COMMIT /\ evidence = evidence_of o /\ evidence = mk_evidence o replays tg tp ig ip ifac.
Proof.
  unfold Profile2FinalEvidence_new, validate_commands, evidence_of. cbn [token_generation_command token_python_command identity_generation_command identity_python_command ifac_python_commands].
  repeat (case_bool_decide; cbn [negb orb mbind outcome_bind invalid_evidence]; [|split; [done|]; intros (? & -> & E); by injection E]). subst. naive_solver.
Qed.

Section evidence_of_captures.
Context `{J : JsonDoc}.

Ltac command_read H := rewrite (read_command _ _ _ _ _ H) by done.
Lemma p2_evidence_ok dir evidence : from_capture_dir dir = Ok evidence <->
  exists c p o, captures_loaded dir c /\ captures_agree c p /\ probed (probe c) o /\ evidence = evidence_of o.
Proof.
  unfold from_capture_dir. split.
  - intros H. apply bind_ok in H as (c & Hc%load_captures_ok & H). rewrite bind_ok_unit, check_replays_ok in H. destruct H as [(H1 & H2 & H3 & H4 & H5 & H6) H].
    apply bind_ok in H as (p & Hp%read_proof_ok & H). pose proof (pf_plaintext _ _ Hp) as [_ Np]. pose proof (pf_token _ _ Hp) as [_ Nt].
    pose proof (pf_packet _ _ Hp) as [_ Nk]. pose proof (pf_ephemeral _ _ Hp) as [_ Ne].
    rewrite !bind_ok_unit, token_generation_ok, token_python_ok, identity_generation_ok, identity_python_ok, check_ifac_ok in H by done.
    destruct H as (H7 & H8 & [H9 H10] & H11 & H12 & H). apply bind_ok in H as (o & Ho%read_oracle_ok & H).
    repeat (apply bind_ok in H as (? & _ & H)). apply p2_new_evidence_ok in H as (_ & -> & _). exists c, p, o. split_and!; [done|by split|done|done].
  - intros (c & p & o & Hc & [H1 H2 H3 H4 [H5 H6] Hp H7 H8 H9 H10 H11 H12] & Ho & ->). apply bind_ok. exists c. split; [by apply load_captures_ok|].
    rewrite bind_ok_unit, check_replays_ok. split; [done|]. apply bind_ok. exists p. split; [by apply read_proof_ok|].
    pose proof (pf_plaintext _ _ Hp) as [_ Np]. pose proof (pf_token _ _ Hp) as [_ Nt]. pose proof (pf_packet _ _ Hp) as [_ Nk]. pose proof (pf_ephemeral _ _ Hp) as [_ Ne].
    rewrite !bind_ok_unit, token_generation_ok, token_python_ok, identity_generation_ok, identity_python_ok, check_ifac_ok by done.
    split; [exact H7|]. split; [exact H8|]. split; [exact (conj H9 H10)|]. split; [exact H11|]. split; [exact H12|]. apply bind_ok. exists o. split; [by apply read_oracle_ok|].
    pose proof (sh_captured _ _ _ (proj1 H7)) as [C1 _ _]. pose proof (ro_captured _ _ _ _ _ H8) as [C2 _ _]. pose proof (sh_captured _ _ _ (proj1 H9)) as [C3 _ _].
    pose proof (ro_captured _ _ _ _ _ H11) as [C4 _ _]. destruct H12 as [[[C5 _ _] _] [[C6 _ _] _] _ _].
    command_read (cap_command _ _ _ _ H1). command_read (cap_command _ _ _ _ H2). command_read (cap_command _ _ _ _ H3). command_read (cap_command _ _ _ _ H4).
    command_read C1. command_read C2. command_read C3. command_read C4. command_read C5. command_read C6.
    apply p2_new_evidence_ok. split_and!; [apply Ho|done|done].
Qed.

(** The ways to come by evidence: its fields are private. *)
Inductive evidence_made : Profile2FinalEvidence -> Prop :=
| made_new o replays tg tp ig ip ifac e : Profile2FinalEvidence_new o replays tg tp ig ip ifac = Ok e -> evidence_made e
| made_captures dir e : from_capture_dir dir = Ok e -> evidence_made e
| made_path e path : evidence_made e -> evidence_made (with_oracle_module_path e path).
Lemma evidence_made_of e : evidence_made e -> exists o, e = evidence_of o.
Proof.
  induction 1 as [o replays tg tp ig ip ifac e H|dir e H|e path _ [o ->]].
  - apply p2_new_evidence_ok in H as (_ & -> & _). by exists o.
  - apply p2_evidence_ok in H as (_ & _ & o & _ & _ & _ & ->). by exists o.
  - by eexists.
Qed.
End evidence_of_captures.

(** ** Lemmas: reports *)
Lemma p2_final_ids_nodup : NoDup (fr_id <$> PROFILE_2_FINAL_RESULTS).
Proof. apply (bool_decide_unpack _). vm_compute. exact I. Qed.

Section report_lemmas.
Context `{J : JsonDoc, FC : FromJson (FixtureCasesFile jdoc), FM : FromJson ManifestFile, P : RnsPrims, L : !RnsPrimsLaws P, F : Profile2Files}.

Let cases := cases_file (T := jdoc) PROFILE_2_CRYPTO_IFAC.
(** Every file of the profile is what the profile expects. *)
Definition fixtures_pass : Prop :=
  manifest_file PROFILE_2_CRYPTO_IFAC MANIFEST expected_manifest /\
  cases HKDF_FIXTURE 3 /\ cases TOKEN_FIXTURE 2 /\ cases TOKEN_NEGATIVE_FIXTURE 5 /\ cases IDENTITY_ENCRYPT_FIXTURE 2 /\ cases IDENTITY_DECRYPT_FIXTURE 6 /\
  cases IFAC_FIXTURE 2 /\ cases IFAC_NEGATIVE_FIXTURE 7.

Lemma p2_validate_cases_ok contents count : validate_fixture_cases contents count = Ok tt <-> cases contents count.
Proof.
  unfold validate_fixture_cases, cases, cases_file. rewrite bind_ok. setoid_rewrite parse_cases_ok. split.
  - intros (f & H & Hc). rewrite checked, Z.eqb_eq in Hc by done. exists f. tauto.
  - intros (f & H1 & H2 & H3 & H4 & H5). exists f. split; [done|]. by rewrite checked, Z.eqb_eq.
Qed.
Lemma p2_validate_manifest_ok : validate_fixture_manifest = Ok tt <-> manifest_file PROFILE_2_CRYPTO_IFAC MANIFEST expected_manifest.
Proof. apply manifest_file_ok. apply (bool_decide_unpack _). vm_compute. exact I. Qed.

Definition passed_rows : list ConformanceResult :=
  [result_passed RESULT_ID_FIXTURE_MANIFEST CATEGORY_FIXTURE_MANIFEST; result_passed RESULT_ID_HKDF CATEGORY_HKDF;
   result_passed RESULT_ID_TOKEN CATEGORY_TOKEN; result_passed RESULT_ID_IDENTITY_ENCRYPT CATEGORY_IDENTITY_ENCRYPT;
   result_passed RESULT_ID_IDENTITY_DECRYPT CATEGORY_IDENTITY_DECRYPT; result_passed RESULT_ID_IFAC CATEGORY_IFAC].

Lemma p2_fixture_results_pass : fixtures_pass -> profile_2_fixture_results (E := FinalReportError) = Ok passed_rows.
Proof.
  intros (Hm & H1 & H2 & H3 & H4 & H5 & H6 & H7). unfold profile_2_fixture_results, validate_token_fixtures, validate_ifac_fixtures.
  apply p2_validate_cases_ok in H1, H2, H3, H4, H5, H6, H7. rewrite (proj2 p2_validate_manifest_ok Hm), H1, H2. cbn [mbind outcome_bind]. rewrite H3, H4, H5, H6. cbn [mbind outcome_bind]. by rewrite H7.
Qed.
Lemma p2_fixture_results_inv rows : profile_2_fixture_results (E := FinalReportError) = Ok rows -> Forall (fun r => cr_status r = ConfPassed) rows -> fixtures_pass.
Proof.
  unfold profile_2_fixture_results. intros (r1 & H1 & H)%bind_ok. apply bind_ok in H as (r2 & H2 & H). apply bind_ok in H as (r3 & H3 & H).
  apply bind_ok in H as (r4 & H4 & H). apply bind_ok in H as (r5 & H5 & H). apply bind_ok in H as (r6 & H6 & [= <-]).
  rewrite !list.Forall_cons. intros (S1 & S2 & S3 & S4 & S5 & S6 & _).
  apply fixture_result_ok in H1 as [H1 _], H2 as [H2 _], H3 as [H3 _], H4 as [H4 _], H5 as [H5 _], H6 as [H6 _]; try done.
  unfold validate_token_fixtures in H3. unfold validate_ifac_fixtures in H6. rewrite bind_ok_unit, !p2_validate_cases_ok in H3, H6. rewrite p2_validate_cases_ok in H2, H4, H5.
  rewrite p2_validate_manifest_ok in H1. unfold fixtures_pass. tauto.
Qed.

Definition oracle_rows : list ConformanceResult := oracle_results (evidence_of (OracleEnvironment_new [] [] [] [])).
Lemma p2_final_rows_match : Forall2 (row_matches EXPECTED_RETICULUM_COMMIT) (passed_rows ++ oracle_rows) PROFILE_2_FINAL_RESULTS.
Proof.
  do 6 (constructor; [apply plain_row_matches|]).
  repeat (constructor; [refine (oracle_row_matches _ _ _ _ _ _ _ _ _ _ _); reflexivity|]). constructor.
Qed.

Lemma p2_validate_report_ok report : validate_profile_2_final_report report = Ok tt <->
  run_profile report = PROFILE_2_CRYPTO_IFAC /\ run_reticulum_commit report = EXPECTED_RETICULUM_COMMIT /\
  (exists oracle, ce_oracle (run_environment report) = Some oracle /\ validate_final_oracle_metadata oracle None = Ok tt) /\
  exists rows, rows ≡ₚ run_results report /\ Forall2 (row_matches EXPECTED_RETICULUM_COMMIT) rows PROFILE_2_FINAL_RESULTS.
Proof.
  rewrite <- final_results_ok by apply p2_final_ids_nodup. unfold validate_profile_2_final_report.
  do 2 (case_bool_decide; cbn [negb]; [|naive_solver]). destruct (ce_oracle _) as [oracle|]; [|naive_solver]. rewrite bind_ok_unit. naive_solver.
Qed.

(** The metadata a final report asks of the oracle. *)
Definition oracle_pinned (o : OracleEnvironment) : Prop :=
  portable (oe_reticulum_module_path o) /\
  o = mk_oracle (oe_reticulum_module_path o) EXPECTED_RETICULUM_COMMIT (Some EXPECTED_FINAL_ORACLE_RNS_VERSION)
        EXPECTED_FINAL_ORACLE_CRYPTOGRAPHY_VERSION EXPECTED_FINAL_ORACLE_PYSERIAL_VERSION.
Lemma oracle_pinned_ok o : validate_final_oracle_metadata o None = Ok tt <-> oracle_pinned o.
Proof. rewrite oracle_metadata_exact. unfold oracle_pinned. naive_solver. Qed.

Lemma p2_final_report_ok run_id hyf_commit started_at environment o report :
  profile_2_final_report run_id hyf_commit started_at environment (evidence_of o) = Ok report <->
  oracle_pinned o /\ fixtures_pass /\
  report = new_profile PROFILE_2_CRYPTO_IFAC run_id hyf_commit EXPECTED_RETICULUM_COMMIT started_at (with_oracle environment o) (passed_rows ++ oracle_rows).
Proof.
  unfold profile_2_final_report, profile_2_final_results. change (oracle_results (evidence_of o)) with oracle_rows. change (oracle_environment (evidence_of o)) with o. split.
  - intros (rows & H & Hr)%bind_ok. apply bind_ok in H as (fr & Hfr & [= <-]). apply bind_ok_unit in Hr as [Hv [= <-]].
    apply p2_validate_report_ok in Hv as (_ & _ & (o' & [= <-] & Ho%oracle_pinned_ok) & Hrows). cbn [run_results new_profile] in Hrows. split; [done|].
    apply (final_results_ok _ _ _ p2_final_ids_nodup), (rows_passed _ _ _ p2_final_ids_nodup), list.Forall_app in Hrows as [Hpass _].
    pose proof (p2_fixture_results_inv fr Hfr Hpass) as Hf. split; [done|]. rewrite p2_fixture_results_pass in Hfr by done. by injection Hfr as <-.
  - intros (Ho & Hf & ->). rewrite (p2_fixture_results_pass Hf). cbn [mbind outcome_bind]. apply bind_ok_unit. split; [|done].
    apply p2_validate_report_ok. split_and!; [done..| |exists (passed_rows ++ oracle_rows); split; [done|apply p2_final_rows_match]].
    exists o. split; [done|by apply oracle_pinned_ok].
Qed.
End report_lemmas.

Lemma p2_categories_present results : cr_category <$> results = (snd <$> REQUIRED_PROFILE_2_RESULTS) -> required_categories_are_present results = true.
Proof.
  intros H. unfold required_categories_are_present. rewrite H. apply forallb_forall. intros c Hc. apply bool_decide_eq_true, elem_of_list_to_set.
  assert (Forall (fun c => c ∈ REQUIRED_PROFILE_2_RESULTS.*2) REQUIRED_PROFILE_2_RESULT_CATEGORIES) as Hall by (apply (bool_decide_unpack _); vm_compute; exact I).
  rewrite list.Forall_forall in Hall. by apply Hall, list_elem_of_In.
Qed.

(** ** Claims *)

(** For every lawful choice of primitives under which the recipient's recorded public
    keys are those of its recorded secret ones and the shared secret is contributory,
    the proof inputs are made, and what they hold are inputs for a proof: the token
    decrypts under the recorded key to the recorded plaintext, the single packet
    decrypts to it under the recipient's identity, and begins with the ephemeral
    public key. *)
Theorem proof_inputs_open `{P : RnsPrims, L : !RnsPrimsLaws P} :
  public_of proof_secret = proof_public ->
  was_contributory (diffie_hellman PROFILE_2_RUST_PROOF_EPHEMERAL_SECRET (pi_x25519_public proof_public)) = true ->
  exists inputs token packet, profile_2_rust_proof_inputs = Ok inputs /\
    decode_hex (pr_plaintext_hex inputs) = Ok PROFILE_2_RUST_PROOF_PLAINTEXT /\
    decode_hex (pr_token_hex inputs) = Ok token /\ token_opens token /\
    decode_hex (pr_identity_ciphertext_token_hex inputs) = Ok packet /\ packet_opens packet /\
    pr_ephemeral_public_hex inputs = hex_bytes (x25519_public PROFILE_2_RUST_PROOF_EPHEMERAL_SECRET) /\
    starts_with (pr_identity_ciphertext_token_hex inputs) (pr_ephemeral_public_hex inputs) = true.
Proof. apply proof_inputs_made. Qed.

(** C38. A directory is evidence exactly when its twelve captures are of the expected
    commands, modes and commit and agree: the shim and Reticulum's own decryption name
    the token, the packet and the plaintext that Rust recorded, and the masked and
    unmasked packets of the access codes are those of the fixtures.  The evidence is
    then the environment the probe describes. *)
Theorem profile_2_evidence_exact `{J : JsonDoc} dir evidence :
  from_capture_dir dir = Ok evidence <->
  exists c p o, captures_loaded dir c /\ captures_agree c p /\ probed (probe c) o /\ evidence = evidence_of o.
Proof. apply p2_evidence_ok. Qed.

(** With evidence, a final report is returned exactly when the oracle is the pinned one,
    at a path relative to the repository, and every fixture file passes.  It then names
    the oracle, and has the rows of the six fixtures and of the six proofs, all passed. *)
Theorem profile_2_final_report_exact `{J : JsonDoc, FC : FromJson (FixtureCasesFile jdoc), FM : FromJson ManifestFile, P : RnsPrims, L : !RnsPrimsLaws P, F : Profile2Files}
    run_id hyf_commit started_at environment evidence :
  evidence_made evidence ->
  (forall report, profile_2_final_report run_id hyf_commit started_at environment evidence = Ok report <->
     oracle_pinned (oracle_environment evidence) /\ fixtures_pass /\
     report = new_profile PROFILE_2_CRYPTO_IFAC run_id hyf_commit EXPECTED_RETICULUM_COMMIT started_at
       (with_oracle environment (oracle_environment evidence)) (passed_rows ++ oracle_rows)) /\
  (forall report, validate_profile_2_final_report report = Ok tt <->
     run_profile report = PROFILE_2_CRYPTO_IFAC /\ run_reticulum_commit report = EXPECTED_RETICULUM_COMMIT /\
     (exists oracle, ce_oracle (run_environment report) = Some oracle /\ validate_final_oracle_metadata oracle None = Ok tt) /\
     exists rows, rows ≡ₚ run_results report /\ Forall2 (row_matches EXPECTED_RETICULUM_COMMIT) rows PROFILE_2_FINAL_RESULTS).
Proof.
  intros [o ->]%evidence_made_of. split; [|apply p2_validate_report_ok].
  intros report. apply p2_final_report_ok.
Qed.

(** Without evidence the report has the required rows and is never clean. *)
Theorem profile_2_report_rows `{J : JsonDoc, FC : FromJson (FixtureCasesFile jdoc), FM : FromJson ManifestFile, P : RnsPrims, F : Profile2Files}
    run_id hyf_commit started_at environment report :
  profile_2_report (E := FinalReportError) run_id hyf_commit started_at environment = Ok report ->
  (fun r => (cr_id r, cr_category r)) <$> run_results report = REQUIRED_PROFILE_2_RESULTS /\
  required_categories_are_present (run_results report) = true /\
  is_clean (summarize_results (run_results report)) = false.
Proof.
  unfold profile_2_report, profile_2_results, profile_2_fixture_results. intros (rows & H & [= <-])%bind_ok.
  apply bind_ok in H as (rows' & H & [= <-]).
  apply bind_ok in H as (r1 & H1%fixture_result_keys & H). apply bind_ok in H as (r2 & H2%fixture_result_keys & H). apply bind_ok in H as (r3 & H3%fixture_result_keys & H).
  apply bind_ok in H as (r4 & H4%fixture_result_keys & H). apply bind_ok in H as (r5 & H5%fixture_result_keys & H). apply bind_ok in H as (r6 & H6%fixture_result_keys & [= <-]). cbn [run_results new_profile app].
  match goal with |- fmap ?f ?l = _ /\ _ => assert (f <$> l = REQUIRED_PROFILE_2_RESULTS) as Hkeys by (cbn [fmap list_fmap]; by rewrite H1, H2, H3, H4, H5, H6) end.
  split_and!.
  - exact Hkeys.
  - apply p2_categories_present. by apply (f_equal (fmap snd)) in Hkeys.
  - apply not_clean. do 6 apply Exists_cons_tl. by apply Exists_cons_hd.
Qed.

(** ** Witnesses *)
(** The primitives of the other witnesses, except that the recorded public keys are
    those of the recorded secret ones. *)
Definition known_x25519 (secret : list Z) : list Z := if bool_decide (secret = si_x25519_secret proof_secret) then pi_x25519_public proof_public else toy_digest secret.
Definition known_ed25519 (secret : list Z) : list Z := if bool_decide (secret = si_ed25519_secret proof_secret) then pi_ed25519_public proof_public else toy_digest secret.
Definition known_prims : RnsPrims := {|
  sha256 := @sha256 toy_prims;
  hmac_tag := @hmac_tag toy_prims;
  hmac_verify := @hmac_verify toy_prims;
  hkdf_expand := @hkdf_expand toy_prims;
  cbc_encrypt := @cbc_encrypt toy_prims;
  cbc_decrypt := @cbc_decrypt toy_prims;
  x25519_public := known_x25519;
  diffie_hellman a b := to_be_bytes 32 (from_be_bytes (known_x25519 a) * from_be_bytes b);
  was_contributory := @was_contributory toy_prims;
  ed25519_public := known_ed25519;
  ed25519_valid _ := true;
  ed25519_sign secret msg := toy_digest msg ++ known_ed25519 secret;
  ed25519_verify public msg signature := bool_decide (signature = toy_digest msg ++ public);
|}.
Lemma known_x25519_ok secret : array_ok 32 (known_x25519 secret).
Proof. unfold known_x25519. case_bool_decide; [apply proof_public_ok|apply toy_digest_len]. Defined.
Lemma known_ed25519_ok secret : array_ok 32 (known_ed25519 secret).
Proof. unfold known_ed25519. case_bool_decide; [apply proof_public_ok|apply toy_digest_len]. Defined.
Lemma known_prims_laws : RnsPrimsLaws known_prims.
Proof.
  destruct toy_prims_laws as [H1 H2 H3 H4 H5 H6 H7 _ _ _ _ _ _ _]. split; try done.
  - intros secret _. apply known_x25519_ok.
  - intros secret public. split; [apply len_to_be_bytes | apply to_be_bytes_ok].
  - intros a b _ _. cbn. by rewrite Z.mul_comm.
  - intros secret _. apply known_ed25519_ok.
  - intros secret msg _. cbn. destruct (toy_digest_len msg) as [L1 ?], (known_ed25519_ok secret) as [L2 ?]. split; [rewrite len_app; lia|by apply bytes_ok_app].
  - intros secret msg _. cbn. by apply bool_decide_eq_true_2.
Defined.

Lemma proof_inputs_open_witness :
  exists inputs token packet, @profile_2_rust_proof_inputs known_prims = Ok inputs /\
    decode_hex (pr_token_hex inputs) = Ok token /\ @token_opens known_prims token /\
    decode_hex (pr_identity_ciphertext_token_hex inputs) = Ok packet /\ @packet_opens known_prims packet.
Proof.
  destruct (proof_inputs_open (P := known_prims) (L := known_prims_laws)) as (i & t & p & H1 & _ & H2 & H3 & H4 & H5 & _).
  - vm_compute. reflexivity.
  - vm_compute. reflexivity.
  - exists i, t, p. split; [exact H1|]. split; [exact H2|]. split; [exact H3|]. split; [exact H4|exact H5].
Defined.

(** The captures of a run, with what the stand-in primitives make. *)
Definition recorded (f : Profile2RustProofInputs -> list Z) : JsonValue :=
  match @profile_2_rust_proof_inputs known_prims with Ok i => JString (f i) | _ => JNull end.
Definition shim_fields : list (list Z * JsonValue) :=
  [(str "valid", JBool true); (str "test_only_secret_material", JBool true); (str "reticulum_self_validation", JString (str "passed")); (str "plaintext_hex", recorded pr_plaintext_hex)].
Definition capture_texts : list (list Z * JsonValue) :=
  [(str "hkdf_vector.json", sample_capture (str "hkdf-vector") (str "fixture_replay") []);
   (str "token_fixture_decrypt.json", sample_capture (str "token-decrypt") (str "fixture_replay") []);
   (str "identity_fixture_decrypt.json", sample_capture (str "identity-decrypt") (str "fixture_replay") []);
   (str "ifac_fixture_verify.json", sample_capture (str "ifac-verify") (str "fixture_replay") [(str "masked_hex", JString (str "80")); (str "unmasked_hex", JString (str "00"))]);
   (str "probe.json", sample_capture (str "probe") (str "python_reticulum")
      [(str "status", JString (str "passed")); (str "module", JString (str "oracle/RNS/__init__.py")); (str "cryptography", JString EXPECTED_FINAL_ORACLE_CRYPTOGRAPHY_VERSION);
       (str "pyserial", JString EXPECTED_FINAL_ORACLE_PYSERIAL_VERSION); (str "rns_version", JString EXPECTED_FINAL_ORACLE_RNS_VERSION)]);
   (str "rust_proof_inputs.json", JObject [(str "command", recorded pr_command); (str "mode", recorded pr_mode); (str "valid", JBool true); (str "test_only_secret_material", JBool true);
      (str "plaintext_hex", recorded pr_plaintext_hex); (str "token_hex", recorded pr_token_hex);
      (str "identity_ciphertext_token_hex", recorded pr_identity_ciphertext_token_hex); (str "ephemeral_public_hex", recorded pr_ephemeral_public_hex)]);
   (str "token_generation.json", sample_capture (str "token-encrypt") (str "test_only_oracle_shim") (shim_fields ++ [(str "token_hex", recorded pr_token_hex)]));
   (str "token_python_decrypt.json", sample_capture (str "token-decrypt") (str "python_reticulum")
      [(str "valid", JBool true); (str "token_hex", recorded pr_token_hex); (str "plaintext_hex", recorded pr_plaintext_hex)]);
   (str "identity_generation.json", sample_capture (str "identity-encrypt") (str "test_only_oracle_shim")
      (shim_fields ++ [(str "ciphertext_token_hex", recorded pr_identity_ciphertext_token_hex); (str "ephemeral_public_hex", recorded pr_ephemeral_public_hex)]));
   (str "identity_python_decrypt.json", sample_capture (str "identity-decrypt") (str "python_reticulum")
      [(str "valid", JBool true); (str "ciphertext_token_hex", recorded pr_identity_ciphertext_token_hex); (str "plaintext_hex", recorded pr_plaintext_hex)]);
   (str "ifac_python_apply.json", sample_capture (str "ifac-apply") (str "python_reticulum") [(str "valid", JBool true); (str "masked_hex", JString (str "80"))]);
   (str "ifac_python_verify.json", sample_capture (str "ifac-verify") (str "python_reticulum")
      [(str "valid", JBool true); (str "masked_hex", JString (str "80")); (str "unmasked_hex", JString (str "00"))])].

#[local] Instance sample_docs : JsonDoc := json_docs (map (fun '(name, v) => (str "captures/" ++ name, json_print v)) capture_texts).
#[local] Instance sample_cases : FromJson (FixtureCasesFile (@jdoc sample_docs)) := fun contents =>
  Ok (mk_cases_file EXPECTED_FIXTURE_CASES_SCHEMA PROFILE_2_CRYPTO_IFAC (mk_provenance EXPECTED_RETICULUM_REPO EXPECTED_RETICULUM_COMMIT)
    (map (fun b => JNumber b : @jdoc sample_docs) contents)).
#[local] Instance sample_files : Profile2Files := {|
  MANIFEST := str "manifest";
  HKDF_FIXTURE := str "abc";
  TOKEN_FIXTURE := str "ab";
  TOKEN_NEGATIVE_FIXTURE := str "abcde";
  IDENTITY_ENCRYPT_FIXTURE := str "xy";
  IDENTITY_DECRYPT_FIXTURE := str "abcdef";
  IFAC_FIXTURE := str "zz";
  IFAC_NEGATIVE_FIXTURE := str "abcdefg";
|}.
#[local] Instance sample_manifest : FromJson ManifestFile := fun contents =>
  Ok (mk_manifest_file EXPECTED_MANIFEST_SCHEMA PROFILE_2_CRYPTO_IFAC (mk_provenance EXPECTED_RETICULUM_REPO EXPECTED_RETICULUM_COMMIT) (str "x") (str "y")
    (map (@entry_of toy_prims) expected_manifest)).
Definition sample_oracle : OracleEnvironment :=
  mk_oracle (str "oracle/RNS/__init__.py") EXPECTED_RETICULUM_COMMIT (Some EXPECTED_FINAL_ORACLE_RNS_VERSION)
    EXPECTED_FINAL_ORACLE_CRYPTOGRAPHY_VERSION EXPECTED_FINAL_ORACLE_PYSERIAL_VERSION.

Lemma p2_sample_capture_dir : from_capture_dir (str "captures") = Ok (evidence_of sample_oracle).
Proof. vm_compute. reflexivity. Qed.

Lemma p2_sample_fixtures_pass : fixtures_pass (P := toy_prims).
Proof.
  split_and!; try (eexists; split; [reflexivity|]; split; [reflexivity|]; split; [reflexivity|]; split; [by split|reflexivity]).
  eexists. split; [reflexivity|]. split_and!; [reflexivity|reflexivity|by split|discriminate|discriminate|reflexivity].
Qed.

Lemma profile_2_final_report_exact_witness :
  let environment := ConformanceEnvironment_new (str "linux") (str "x86_64") (str "stable") in
  profile_2_final_report (P := toy_prims) (str "run") (str "commit") (str "now") environment (evidence_of sample_oracle) =
    Ok (new_profile PROFILE_2_CRYPTO_IFAC (str "run") (str "commit") EXPECTED_RETICULUM_COMMIT (str "now") (with_oracle environment sample_oracle) (passed_rows ++ oracle_rows)).
Proof.
  apply (profile_2_final_report_exact (P := toy_prims) (L := toy_prims_laws) (str "run") (str "commit") (str "now")
    (ConformanceEnvironment_new (str "linux") (str "x86_64") (str "stable")) (evidence_of sample_oracle)).
  - exact (made_captures (str "captures") _ p2_sample_capture_dir).
  - split; [|split; [exact p2_sample_fixtures_pass|reflexivity]]. apply oracle_pinned_ok. vm_compute. reflexivity.
Defined.

Lemma profile_2_report_rows_witness :
  exists report, profile_2_report (P := toy_prims) (E := FinalReportError) (str "run") (str "commit") (str "now") (ConformanceEnvironment_new (str "linux") (str "x86_64") (str "stable")) = Ok report /\
    required_categories_are_present (run_results report) = true.
Proof.
  assert (exists report, profile_2_report (P := toy_prims) (E := FinalReportError) (str "run") (str "commit") (str "now") (ConformanceEnvironment_new (str "linux") (str "x86_64") (str "stable")) = Ok report) as [report H]
    by (eexists; vm_compute; reflexivity).
  exists report. split; [exact H|]. exact (proj1 (proj2 (profile_2_report_rows (P := toy_prims) _ _ _ _ report H))).
Defined.
