(* ===== verification/Profile0.v ===== *)
(** [hyf_rns_conformance::profile0]: the conformance profile of Reticulum packets and
    announces (src/crates/hyf_rns_conformance/src/profile0.rs): the recorded vectors of
    identities, destinations, packet headers, packet hashes and announces, checked
    against this repository's implementation of each, and the rows of its report.

    The fixture files are the parameter [Profile0Files], their reading into the types
    of the profile the class [FromJson] of [Fixtures].  The claims say what a file must
    record for its check to pass: exactly what the models of [RnsWire], [RnsCrypto] and
    [RnsAnnounce] compute. *)
From stdpp Require Import gmap strings.
From S2P Require Import Kiss RNode RnsWire RnsCrypto RnsAnnounce Prelude Utf8 Cursor NostrHex NostrJson NostrParser Text Display ErrorText Fixtures ConfReport Captures.

Open Scope Z_scope.

Definition CATEGORY_FIXTURE_MANIFEST : list Z := str "fixture_manifest".
Definition CATEGORY_IDENTITY_SIGNATURE : list Z := str "identity_signature".
Definition CATEGORY_DESTINATION_HASH : list Z := str "destination_hash".
Definition CATEGORY_PACKET_HEADER : list Z := str "packet_header".
Definition CATEGORY_PACKET_HASH : list Z := str "packet_hash".
Definition CATEGORY_ANNOUNCE : list Z := str "announce".
Definition CATEGORY_ANNOUNCE_NEGATIVE : list Z := str "announce_negative".
Definition CATEGORY_PYTHON_ORACLE_PACKET : list Z := str "python_oracle_packet".
Definition CATEGORY_PYTHON_ORACLE_ANNOUNCE : list Z := str "python_oracle_announce".
Definition RESULT_ID_FIXTURE_MANIFEST : list Z := str "profile_0_packet_announce.fixture_manifest".
Definition RESULT_ID_IDENTITY_SIGNATURE : list Z := str "profile_0_packet_announce.identity_signature".
Definition RESULT_ID_DESTINATION_HASH : list Z := str "profile_0_packet_announce.destination_hash".
Definition RESULT_ID_PACKET_HEADER : list Z := str "profile_0_packet_announce.packet_header".
Definition RESULT_ID_PACKET_HASH : list Z := str "profile_0_packet_announce.packet_hash".
Definition RESULT_ID_ANNOUNCE : list Z := str "profile_0_packet_announce.announce".
Definition RESULT_ID_ANNOUNCE_NEGATIVE : list Z := str "profile_0_packet_announce.announce_negative".
Definition RESULT_ID_PYTHON_ORACLE_PACKET : list Z := str "profile_0_packet_announce.python_oracle.packet".
Definition RESULT_ID_PYTHON_ORACLE_ANNOUNCE : list Z := str "profile_0_packet_announce.python_oracle.announce".

Definition REQUIRED_PROFILE_0_RESULTS : list (list Z * list Z) :=
  [(RESULT_ID_FIXTURE_MANIFEST, CATEGORY_FIXTURE_MANIFEST);
   (RESULT_ID_IDENTITY_SIGNATURE, CATEGORY_IDENTITY_SIGNATURE);
   (RESULT_ID_DESTINATION_HASH, CATEGORY_DESTINATION_HASH);
   (RESULT_ID_PACKET_HEADER, CATEGORY_PACKET_HEADER);
   (RESULT_ID_PACKET_HASH, CATEGORY_PACKET_HASH);
   (RESULT_ID_ANNOUNCE, CATEGORY_ANNOUNCE);
   (RESULT_ID_ANNOUNCE_NEGATIVE, CATEGORY_ANNOUNCE_NEGATIVE);
   (RESULT_ID_PYTHON_ORACLE_PACKET, CATEGORY_PYTHON_ORACLE_PACKET);
   (RESULT_ID_PYTHON_ORACLE_ANNOUNCE, CATEGORY_PYTHON_ORACLE_ANNOUNCE)].
Definition REQUIRED_PROFILE_0_RESULT_CATEGORIES : list (list Z) :=
  [CATEGORY_FIXTURE_MANIFEST; CATEGORY_IDENTITY_SIGNATURE; CATEGORY_DESTINATION_HASH; CATEGORY_PACKET_HEADER; CATEGORY_PACKET_HASH;
   CATEGORY_ANNOUNCE; CATEGORY_ANNOUNCE_NEGATIVE; CATEGORY_PYTHON_ORACLE_PACKET; CATEGORY_PYTHON_ORACLE_ANNOUNCE].

(** ** Fixture files *)
Record IdentityInputs := mk_ii { ii_secret_identity : list Z; ii_message : list Z }.
Record IdentityExpected := mk_ie { ie_public_identity : list Z; ie_identity_hash : list Z; ie_signature : list Z }.
Record IdentityCase := mk_ic { ic_id : list Z; ic_category : list Z; ic_deterministic : bool; ic_private_test_material : bool; ic_inputs : IdentityInputs; ic_expected : IdentityExpected }.
Record DestinationHashInputs := mk_di { di_app_name : list Z; di_aspects : list (list Z); di_identity_hash : option (list Z) }.
Record DestinationHashExpected := mk_de { de_expanded_name : list Z; de_name_hash : list Z; de_destination_hash : list Z }.
Record DestinationHashCase := mk_dc { dc_id : list Z; dc_category : list Z; dc_deterministic : bool; dc_private_test_material : bool; dc_inputs : DestinationHashInputs; dc_expected : DestinationHashExpected }.
Record PacketHeaderInputs := mk_phi { phi_description : list Z }.
Record PacketHeaderExpected := mk_phe { phe_raw_packet : list Z; phe_flags : list Z; phe_hops : Z; phe_header_type : Z; phe_context_flag : Z; phe_transport_type : Z; phe_destination_type : Z; phe_packet_type : Z; phe_transport_id : option (list Z); phe_destination_hash : list Z; phe_context : list Z; phe_data : list Z }.
Record PacketHeaderCase := mk_phc { phc_id : list Z; phc_category : list Z; phc_deterministic : bool; phc_private_test_material : bool; phc_inputs : PacketHeaderInputs; phc_expected : PacketHeaderExpected }.
Record PacketHashInputs := mk_pki { pki_description : list Z }.
Record PacketHashExpected := mk_pke { pke_raw_packet : list Z; pke_hashable_part : list Z; pke_full_hash : list Z; pke_truncated_hash : list Z; pke_transport_id : option (list Z) }.
Record PacketHashCase := mk_pkc { pkc_id : list Z; pkc_category : list Z; pkc_deterministic : bool; pkc_private_test_material : bool; pkc_inputs : PacketHashInputs; pkc_expected : PacketHashExpected }.
Record Header2TransportProof := mk_tp { tp_transport_id : list Z; tp_hashable_part : list Z; tp_full_hash : list Z; tp_truncated_hash : list Z }.
Record AnnounceInputs := mk_ai { ai_secret_identity : list Z; ai_app_name : list Z; ai_aspects : list (list Z); ai_app_data : list Z; ai_random_hash : list Z }.
Record AnnounceExpected := mk_ae { ae_raw_packet : list Z; ae_destination_hash : list Z; ae_public_identity : list Z; ae_name_hash : list Z; ae_random_hash : list Z; ae_ratchet : option (list Z); ae_signature : list Z; ae_app_data : list Z; ae_context_flag : Z }.
Record AnnounceCase := mk_ac { ac_id : list Z; ac_category : list Z; ac_deterministic : bool; ac_private_test_material : bool; ac_inputs : AnnounceInputs; ac_expected : AnnounceExpected }.
Record AnnounceNegativeCase := mk_nc { nc_id : list Z; nc_category : list Z; nc_deterministic : bool; nc_private_test_material : bool; nc_mutation : list Z; nc_expected_error : list Z; nc_raw_packet : list Z }.

(** The contents of the files under src/fixtures/rns. *)
Class Profile0Files := {
  IDENTITY_FIXTURE : list Z;
  DESTINATION_HASH_FIXTURE : list Z;
  PACKET_HEADER_FIXTURE : list Z;
  PACKET_HASH_FIXTURE : list Z;
  ANNOUNCE_FIXTURE : list Z;
  ANNOUNCE_NEGATIVE_FIXTURE : list Z;
  MANIFEST : list Z;
}.

Definition expected_manifest `{Profile0Files} : list ExpectedManifestEntry :=
  [mk_expected (str "identity_vectors.json") CATEGORY_IDENTITY_SIGNATURE 1 IDENTITY_FIXTURE;
   mk_expected (str "destination_hash_vectors.json") CATEGORY_DESTINATION_HASH 6 DESTINATION_HASH_FIXTURE;
   mk_expected (str "packet_header_vectors.json") CATEGORY_PACKET_HEADER 2 PACKET_HEADER_FIXTURE;
   mk_expected (str "packet_hash_vectors.json") CATEGORY_PACKET_HASH 3 PACKET_HASH_FIXTURE;
   mk_expected (str "announce_vectors.json") CATEGORY_ANNOUNCE 2 ANNOUNCE_FIXTURE;
   mk_expected (str "announce_negative_vectors.json") CATEGORY_ANNOUNCE_NEGATIVE 8 ANNOUNCE_NEGATIVE_FIXTURE].

(** ** Checks shared by the cases *)
Definition unexpected (field value : list Z) : FixtureError := UnexpectedFixtureValue field value.
(** [if a != b { return unexpected(field, value); }] *)
Definition expect_same {A} `{EqDecision A} (a b : A) (field value : list Z) : outcome FixtureError unit :=
  guard_err (negb (bool_decide (a = b))) (unexpected field value).

Definition category_uses_private_test_material (category : list Z) : bool :=
  bool_decide (category ∈ [CATEGORY_IDENTITY_SIGNATURE; CATEGORY_ANNOUNCE; CATEGORY_ANNOUNCE_NEGATIVE]).
Definition validate_case_metadata (actual_category expected_category : list Z) (deterministic private_test_material : bool) : outcome FixtureError unit :=
  if negb (bool_decide (actual_category = expected_category)) then Err (UnexpectedFixtureValue (str "category") actual_category)
  else if negb deterministic then Err (unexpected (str "deterministic") (str "fixture case is not deterministic"))
  else if negb (Bool.eqb private_test_material (category_uses_private_test_material expected_category))
  then Err (unexpected (str "private_test_material") (str "private test material flag mismatch"))
  else Ok tt.
Definition expect_id_prefix (id prefix : list Z) : outcome FixtureError unit :=
  guard_err (negb (starts_with id prefix)) (UnexpectedFixtureValue (str "id") id).

Definition decode_optional_transport_id (transport_id : option (list Z)) : outcome FixtureError (option (list Z)) :=
  match transport_id with
  | None => Ok None
  | Some transport_id => bytes ← decode_hex_exact RNS_TRUNCATED_HASH_LEN transport_id; Ok (Some bytes)
  end.
(** [checked_sub] and [get]. *)
Definition signed_data_suffix_matches (signed_data : list Z) (signed_data_len : Z) (expected_suffix : list Z) : bool :=
  let suffix_start := signed_data_len - len expected_suffix in
  if suffix_start <? 0 then false else bool_decide (get_range signed_data suffix_start signed_data_len = Some expected_suffix).
Definition expected_wire_error (error : list Z) : outcome FixtureError RnsWireError :=
  if bool_decide (error = str "DestinationMismatch") then Ok DestinationMismatch
  else if bool_decide (error = str "InvalidDestinationType") then Ok InvalidDestinationType
  else if bool_decide (error = str "InvalidSignature") then Ok RnsWire.InvalidSignature
  else if bool_decide (error = str "MalformedAnnounce") then Ok MalformedAnnounce
  else Err (UnexpectedFixtureValue (str "expected_error") error).
Definition expanded_destination_name (app_name : list Z) (aspects : list (list Z)) : list Z :=
  fold_left (fun name aspect => name ++ [46] ++ aspect) aspects app_name.

(** [for case in cases { body(case)?; }] *)
Fixpoint for_each {E A} (body : A -> outcome E unit) (cases : list A) : outcome E unit :=
  match cases with [] => Ok tt | case :: cases => _ ← body case; for_each body cases end.

Section checks.
Context `{RnsPrims}.

Definition validate_identity_case (case : IdentityCase) : outcome FixtureError unit :=
  _ ← guard_err (negb (bool_decide (ic_id case = str "profile_0_packet_announce.identity_signature.synthetic.0001"))) (UnexpectedFixtureValue (str "id") (ic_id case));
  _ ← validate_case_metadata (ic_category case) CATEGORY_IDENTITY_SIGNATURE (ic_deterministic case) (ic_private_test_material case);
  secret_identity ← decode_hex_exact RNS_SECRET_IDENTITY_LEN (ii_secret_identity (ic_inputs case));
  public_identity_bytes ← decode_hex_exact RNS_PUBLIC_IDENTITY_LEN (ie_public_identity (ic_expected case));
  identity_hash_bytes ← decode_hex_exact 16 (ie_identity_hash (ic_expected case));
  signature ← decode_hex_exact 64 (ie_signature (ic_expected case));
  message ← decode_hex (ii_message (ic_inputs case));
  secret ← map_err FixtureCrypto (secret_identity_from_bytes secret_identity);
  derived_public ← map_err FixtureCrypto (public_identity secret);
  oracle_public ← map_err FixtureCrypto (public_identity_from_bytes public_identity_bytes);
  derived_bytes ← public_identity_to_bytes derived_public;
  _ ← expect_same derived_bytes public_identity_bytes (str "public_identity") (str "derived public identity mismatch");
  _ ← guard_err (negb (bool_decide (pi_x25519_public derived_public = pi_x25519_public oracle_public /\ pi_ed25519_public derived_public = pi_ed25519_public oracle_public)))
    (unexpected (str "public_identity") (str "oracle public identity mismatch"));
  hash ← identity_hash oracle_public;
  _ ← expect_same hash identity_hash_bytes (str "identity_hash") (str "identity hash mismatch");
  signed ← map_err FixtureCrypto (sign secret message);
  _ ← expect_same signed signature (str "signature") (str "signature mismatch");
  match verify oracle_public message signature with
  | Ok _ => Ok tt
  | Err _ => Err (unexpected (str "signature") (str "signature verify mismatch"))
  | Panic => Panic
  end.

(** Returns whether the case is bound to an identity. *)
Definition validate_destination_hash_case (case : DestinationHashCase) : outcome FixtureError bool :=
  let inputs := dc_inputs case in
  let expected := dc_expected case in
  _ ← validate_case_metadata (dc_category case) CATEGORY_DESTINATION_HASH (dc_deterministic case) (dc_private_test_material case);
  _ ← expect_id_prefix (dc_id case) (str "profile_0_packet_announce.destination_hash.synthetic.");
  _ ← expect_same (expanded_destination_name (di_app_name inputs) (di_aspects inputs)) (de_expanded_name expected) (str "expanded_name") (str "destination expanded name mismatch");
  expected_name_hash ← decode_hex_exact RNS_NAME_HASH_LEN (de_name_hash expected);
  expected_destination_hash ← decode_hex_exact RNS_TRUNCATED_HASH_LEN (de_destination_hash expected);
  identity_hash ← decode_optional_hex_exact RNS_TRUNCATED_HASH_LEN (di_identity_hash inputs);
  name_hash ← map_err FixtureCore (destination_name_hash sha256 (di_app_name inputs) (di_aspects inputs));
  _ ← expect_same name_hash expected_name_hash (str "name_hash") (str "destination name hash mismatch");
  hash ← destination_hash sha256 name_hash identity_hash;
  _ ← expect_same hash expected_destination_hash (str "destination_hash") (str "destination hash mismatch");
  Ok (bool_decide (is_Some identity_hash)).
(** The counts of the loop.  A case that fails leaves the function, so that it does
    not matter that the code counts it first. *)
Fixpoint destination_hash_loop (plain_cases identity_bound_cases : Z) (cases : list DestinationHashCase) : outcome FixtureError (Z * Z) :=
  match cases with
  | [] => Ok (plain_cases, identity_bound_cases)
  | case :: cases =>
      bound ← validate_destination_hash_case case;
      if (bound : bool) then destination_hash_loop plain_cases (identity_bound_cases + 1) cases
      else destination_hash_loop (plain_cases + 1) identity_bound_cases cases
  end.

Definition validate_packet_header_case (case : PacketHeaderCase) : outcome FixtureError unit :=
  let expected := phc_expected case in
  _ ← validate_case_metadata (phc_category case) CATEGORY_PACKET_HEADER (phc_deterministic case) (phc_private_test_material case);
  _ ← expect_id_prefix (phc_id case) (str "profile_0_packet_announce.packet_header.synthetic.");
  _ ← expect_same (phi_description (phc_inputs case)) (str "synthetic Reticulum Packet.pack() header vector") (str "description") (str "packet header description mismatch");
  raw_packet ← decode_hex (phe_raw_packet expected);
  packet ← map_err FixtureWire (decode_packet raw_packet);
  flags ← decode_hex_exact 1 (phe_flags expected);
  expected_flags ← index flags 0;
  context ← decode_hex_exact 1 (phe_context expected);
  expected_context ← index context 0;
  expected_destination_hash ← decode_hex_exact RNS_TRUNCATED_HASH_LEN (phe_destination_hash expected);
  expected_data ← decode_hex (phe_data expected);
  expected_transport_id ← decode_optional_transport_id (phe_transport_id expected);
  let flags := rp_flags packet in
  let same := bool_decide (list.head raw_packet = Some expected_flags)
    && (encode_flags flags =? expected_flags)
    && (rp_hops packet =? phe_hops expected)
    && (header_to_bits (header_type flags) =? phe_header_type expected)
    && (Z.b2z (context_flag flags) =? phe_context_flag expected)
    && (transport_to_bits (transport_type flags) =? phe_transport_type expected)
    && (destination_to_bits (destination_type flags) =? phe_destination_type expected)
    && (packet_to_bits (packet_type flags) =? phe_packet_type expected)
    && bool_decide (rp_transport_id packet = expected_transport_id)
    && bool_decide (rp_destination_hash packet = expected_destination_hash)
    && (rp_context packet =? expected_context)
    && bool_decide (rp_data packet = expected_data) in
  _ ← guard_err (negb same) (unexpected (str "packet_header") (str "packet header fixture mismatch"));
  let '(r, output) := encode_packet packet (zeros RNS_MTU) in
  encoded_len ← map_err FixtureWire r;
  encoded ← slice output 0 encoded_len;
  expect_same encoded raw_packet (str "raw_packet") (str "packet re-encode mismatch").

(** Returns what the case says of a transport. *)
Definition validate_packet_hash_case (case : PacketHashCase) : outcome FixtureError (option Header2TransportProof) :=
  let expected := pkc_expected case in
  let mismatch := unexpected (str "packet_hash") (str "packet hash fixture mismatch") in
  _ ← validate_case_metadata (pkc_category case) CATEGORY_PACKET_HASH (pkc_deterministic case) (pkc_private_test_material case);
  _ ← expect_id_prefix (pkc_id case) (str "profile_0_packet_announce.packet_hash.synthetic.");
  _ ← expect_same (pki_description (pkc_inputs case)) (str "synthetic Reticulum Packet hash vector") (str "description") (str "packet hash description mismatch");
  raw_packet ← decode_hex (pke_raw_packet expected);
  expected_hashable_part ← decode_hex (pke_hashable_part expected);
  expected_full_hash ← decode_hex_exact 32 (pke_full_hash expected);
  expected_truncated_hash ← decode_hex_exact RNS_TRUNCATED_HASH_LEN (pke_truncated_hash expected);
  expected_transport_id ← decode_optional_hex_exact RNS_TRUNCATED_HASH_LEN (pke_transport_id expected);
  let '(r, hashable_part) := write_packet_hashable_part raw_packet (zeros RNS_MTU) in
  hashable_len ← map_err FixtureWire r;
  hashable ← slice hashable_part 0 hashable_len;
  _ ← guard_err (negb (bool_decide (hashable = expected_hashable_part))) mismatch;
  full_hash ← map_err FixtureWire (packet_hash sha256 raw_packet);
  _ ← guard_err (negb (bool_decide (full_hash = expected_full_hash))) mismatch;
  truncated_hash ← map_err FixtureWire (packet_truncated_hash sha256 raw_packet);
  _ ← guard_err (negb (bool_decide (truncated_hash = expected_truncated_hash))) mismatch;
  Ok (match expected_transport_id with
      | Some transport_id => Some (mk_tp transport_id expected_hashable_part expected_full_hash expected_truncated_hash)
      | None => None
      end).
Definition check_transport_proof (previous proof : Header2TransportProof) : outcome FixtureError unit :=
  guard_err (bool_decide (tp_transport_id previous = tp_transport_id proof) || negb (bool_decide (tp_hashable_part previous = tp_hashable_part proof))
    || negb (bool_decide (tp_full_hash previous = tp_full_hash proof)) || negb (bool_decide (tp_truncated_hash previous = tp_truncated_hash proof)))
    (unexpected (str "packet_hash") (str "header 2 transport hash proof mismatch")).
Fixpoint packet_hash_loop (header_2_transport_proof : option Header2TransportProof) (cases : list PacketHashCase) : outcome FixtureError unit :=
  match cases with
  | [] => Ok tt
  | case :: cases =>
      proof ← validate_packet_hash_case case;
      match proof, header_2_transport_proof with
      | None, _ => packet_hash_loop header_2_transport_proof cases
      | Some proof, Some previous =>
          _ ← check_transport_proof previous proof;
          packet_hash_loop header_2_transport_proof cases
      | Some proof, None => packet_hash_loop (Some proof) cases
      end
  end.

Definition validate_announce_case (case : AnnounceCase) : outcome FixtureError unit :=
  let inputs := ac_inputs case in
  let expected := ac_expected case in
  _ ← validate_case_metadata (ac_category case) CATEGORY_ANNOUNCE (ac_deterministic case) (ac_private_test_material case);
  _ ← expect_id_prefix (ac_id case) (str "profile_0_packet_announce.announce.synthetic.");
  secret_identity ← decode_hex (ai_secret_identity inputs);
  _ ← guard_err (negb (bool_decide (secret_identity = seqZ 0 64)) || negb (bool_decide (ai_app_name inputs = str "hyf"))
      || negb (bool_decide (ai_aspects inputs = [str "announce"])) || negb (bool_decide (ai_app_data inputs = ae_app_data expected))
      || negb (bool_decide (ai_random_hash inputs = ae_random_hash expected)))
    (unexpected (str "announce_inputs") (str "announce input fixture mismatch"));
  raw_packet ← decode_hex (ae_raw_packet expected);
  packet ← map_err FixtureWire (decode_packet raw_packet);
  let context_flag := Z.b2z (context_flag (rp_flags packet)) in
  announce ← map_err FixtureWire (validate_announce_packet packet);
  expected_destination_hash ← decode_hex_exact RNS_TRUNCATED_HASH_LEN (ae_destination_hash expected);
  expected_public_identity ← decode_hex_exact RNS_PUBLIC_IDENTITY_LEN (ae_public_identity expected);
  expected_name_hash ← decode_hex_exact RNS_NAME_HASH_LEN (ae_name_hash expected);
  expected_random_hash ← decode_hex_exact RNS_ANNOUNCE_RANDOM_HASH_LEN (ae_random_hash expected);
  expected_ratchet ← decode_optional_hex_exact RNS_ANNOUNCE_RATCHET_LEN (ae_ratchet expected);
  expected_signature ← decode_hex_exact RNS_ANNOUNCE_SIGNATURE_LEN (ae_signature expected);
  expected_app_data ← decode_hex (ae_app_data expected);
  let '(r, signed_data) := build_announce_signed_data announce (zeros RNS_MTU) in
  signed_data_len ← map_err FixtureWire r;
  let same := (context_flag =? ae_context_flag expected)
    && bool_decide (an_destination_hash announce = expected_destination_hash)
    && bool_decide (an_public_identity announce = expected_public_identity)
    && bool_decide (an_name_hash announce = expected_name_hash)
    && bool_decide (an_random_hash announce = expected_random_hash)
    && bool_decide (an_ratchet announce = expected_ratchet)
    && bool_decide (an_signature announce = expected_signature)
    && bool_decide (an_app_data announce = expected_app_data) in
  _ ← guard_err (negb same) (unexpected (str "announce") (str "announce fixture mismatch"));
  prefix ← slice signed_data 0 RNS_TRUNCATED_HASH_LEN;
  guard_err (negb (bool_decide (prefix = an_destination_hash announce)) || negb (signed_data_suffix_matches signed_data signed_data_len expected_app_data))
    (unexpected (str "announce") (str "announce fixture mismatch")).

Definition mutations : list (list Z) :=
  [str "destination"; str "public_identity"; str "name_hash"; str "random_hash"; str "signature"; str "app_data"; str "destination_type"; str "context_flag"].
Definition validate_announce_negative_case (case : AnnounceNegativeCase) : outcome FixtureError unit :=
  _ ← validate_case_metadata (nc_category case) CATEGORY_ANNOUNCE_NEGATIVE (nc_deterministic case) (nc_private_test_material case);
  _ ← expect_id_prefix (nc_id case) (str "profile_0_packet_announce.announce_negative.synthetic.");
  _ ← guard_err (negb (bool_decide (nc_mutation case ∈ mutations))) (UnexpectedFixtureValue (str "mutation") (nc_mutation case));
  raw_packet ← decode_hex (nc_raw_packet case);
  packet ← map_err FixtureWire (decode_packet raw_packet);
  match validate_announce_packet packet with
  | Panic => Panic
  | result =>
      expected ← expected_wire_error (nc_expected_error case);
      guard_err (match result with Err error => negb (bool_decide (error = expected)) | _ => true end)
        (unexpected (str "expected_error") (str "negative announce did not fail as expected"))
  end.

(** ** Files *)
Context `{Profile0Files}.
Context `{FromJson (FixtureFile IdentityCase), FromJson (FixtureCasesFile DestinationHashCase), FromJson (FixtureCasesFile PacketHeaderCase),
  FromJson (FixtureCasesFile PacketHashCase), FromJson (FixtureCasesFile AnnounceCase), FromJson (FixtureCasesFile AnnounceNegativeCase), FromJson ManifestFile}.

Definition validate_fixture_manifest : outcome FixtureError unit :=
  manifest ← parse_manifest MANIFEST;
  assert_exact_manifest_entries manifest expected_manifest.
Definition validate_identity_fixture : outcome FixtureError unit :=
  fixture ← (parse_fixture_case IDENTITY_FIXTURE : outcome FixtureError (FixtureFile IdentityCase));
  validate_identity_case (ff_case fixture).
Definition validate_destination_hash_fixtures : outcome FixtureError unit :=
  fixture ← (parse_fixture_cases DESTINATION_HASH_FIXTURE : outcome FixtureError (FixtureCasesFile DestinationHashCase));
  _ ← guard_err (negb (len (fc_cases fixture) =? 6)) (unexpected (str "case_count") (str "destination hash fixture case count mismatch"));
  counts ← destination_hash_loop 0 0 (fc_cases fixture);
  let '(plain_cases, identity_bound_cases) := counts in
  guard_err (negb (plain_cases =? 3) || negb (identity_bound_cases =? 3)) (unexpected (str "case_mix") (str "destination hash fixture case mix mismatch")).
Definition validate_packet_header_fixtures : outcome FixtureError unit :=
  fixture ← (parse_fixture_cases PACKET_HEADER_FIXTURE : outcome FixtureError (FixtureCasesFile PacketHeaderCase));
  _ ← guard_err (negb (len (fc_cases fixture) =? 2)) (unexpected (str "case_count") (str "packet header fixture case count mismatch"));
  for_each validate_packet_header_case (fc_cases fixture).
Definition validate_packet_hash_fixtures : outcome FixtureError unit :=
  fixture ← (parse_fixture_cases PACKET_HASH_FIXTURE : outcome FixtureError (FixtureCasesFile PacketHashCase));
  _ ← guard_err (negb (len (fc_cases fixture) =? 3)) (unexpected (str "case_count") (str "packet hash fixture case count mismatch"));
  packet_hash_loop None (fc_cases fixture).
Definition validate_announce_fixtures : outcome FixtureError unit :=
  fixture ← (parse_fixture_cases ANNOUNCE_FIXTURE : outcome FixtureError (FixtureCasesFile AnnounceCase));
  _ ← guard_err (negb (len (fc_cases fixture) =? 2)) (unexpected (str "case_count") (str "announce fixture case count mismatch"));
  for_each validate_announce_case (fc_cases fixture).
Definition validate_announce_negative_fixtures : outcome FixtureError unit :=
  fixture ← (parse_fixture_cases ANNOUNCE_NEGATIVE_FIXTURE : outcome FixtureError (FixtureCasesFile AnnounceNegativeCase));
  _ ← guard_err (negb (len (fc_cases fixture) =? 8)) (unexpected (str "case_count") (str "negative announce fixture case count mismatch"));
  for_each validate_announce_negative_case (fc_cases fixture).

(** ** Results *)
Definition profile_0_fixture_results {E} : outcome E (list ConformanceResult) :=
  manifest ← fixture_result RESULT_ID_FIXTURE_MANIFEST CATEGORY_FIXTURE_MANIFEST validate_fixture_manifest;
  identity ← fixture_result RESULT_ID_IDENTITY_SIGNATURE CATEGORY_IDENTITY_SIGNATURE validate_identity_fixture;
  destination ← fixture_result RESULT_ID_DESTINATION_HASH CATEGORY_DESTINATION_HASH validate_destination_hash_fixtures;
  header ← fixture_result RESULT_ID_PACKET_HEADER CATEGORY_PACKET_HEADER validate_packet_header_fixtures;
  hash ← fixture_result RESULT_ID_PACKET_HASH CATEGORY_PACKET_HASH validate_packet_hash_fixtures;
  announce ← fixture_result RESULT_ID_ANNOUNCE CATEGORY_ANNOUNCE validate_announce_fixtures;
  negative ← fixture_result RESULT_ID_ANNOUNCE_NEGATIVE CATEGORY_ANNOUNCE_NEGATIVE validate_announce_negative_fixtures;
  Ok [manifest; identity; destination; header; hash; announce; negative].

Definition profile_0_oracle_unavailable_results : list ConformanceResult :=
  [result_invalid_environment RESULT_ID_PYTHON_ORACLE_PACKET CATEGORY_PYTHON_ORACLE_PACKET
     (str "python_oracle feature is not enabled for this report generator");
   result_invalid_environment RESULT_ID_PYTHON_ORACLE_ANNOUNCE CATEGORY_PYTHON_ORACLE_ANNOUNCE
     (str "python_oracle feature is not enabled for this report generator")].
Definition profile_0_results {E} : outcome E (list ConformanceResult) :=
  results ← profile_0_fixture_results;
  Ok (results ++ profile_0_oracle_unavailable_results).
Definition profile_0_report {E} (run_id hyf_commit started_at : list Z) (environment : ConformanceEnvironment) : outcome E ConformanceRun :=
  results ← profile_0_results;
  Ok (run_profile_0 run_id hyf_commit started_at environment results).
End checks.

Definition required_categories_are_present (results : list ConformanceResult) : bool :=
  let categories : gset (list Z) := list_to_set (cr_category <$> results) in
  forallb (fun category => bool_decide (category ∈ categories)) REQUIRED_PROFILE_0_RESULT_CATEGORIES.

(** ** Lemmas *)
(** A case of the category: deterministic, and marked as private test material exactly
    when the category is. *)
Definition case_of (category actual : list Z) (deterministic private_test_material : bool) : Prop :=
  actual = category /\ deterministic = true /\ private_test_material = category_uses_private_test_material category.

Lemma p0_metadata_ok actual category deterministic private_test_material :
  validate_case_metadata actual category deterministic private_test_material = Ok tt <-> case_of category actual deterministic private_test_material.
Proof.
  unfold validate_case_metadata, case_of. case_bool_decide; cbn [negb]; [|naive_solver]. destruct deterministic; cbn [negb]; [|naive_solver].
  destruct (eqb_spec private_test_material (category_uses_private_test_material category)); cbn [negb]; naive_solver.
Qed.
Lemma p0_prefix_ok id prefix : expect_id_prefix id prefix = Ok tt <-> exists number, id = prefix ++ number.
Proof.
  unfold expect_id_prefix, starts_with. rewrite guarded, negb_false_iff, bool_decide_eq_true. split.
  - intros H. exists (drop (length prefix) id). by rewrite <- H at 1; rewrite take_drop.
  - intros [number ->]. apply take_app_length.
Qed.
Lemma p0_same_ok {A} `{EqDecision A} (a b : A) f v : expect_same a b f v = Ok tt <-> a = b.
Proof. unfold expect_same. by rewrite guarded, negb_false_iff, bool_decide_eq_true. Qed.
Lemma p0_optional_hex_ok n hex o : decode_optional_hex_exact n hex = Ok o <-> from_option (array_ok n) True o /\ hex = hex_bytes <$> o.
Proof.
  unfold decode_optional_hex_exact. destruct hex as [hex|]; [|destruct o; naive_solver]. rewrite bind_ok. setoid_rewrite decode_hex_exact_ok.
  destruct o as [l|]; cbn; naive_solver.
Qed.
Lemma p0_transport_id_ok hex o : decode_optional_transport_id hex = Ok o <-> from_option (array_ok 16) True o /\ hex = hex_bytes <$> o.
Proof. apply p0_optional_hex_ok. Qed.
Lemma p0_for_each_ok {E A} (body : A -> outcome E unit) cases : for_each body cases = Ok tt <-> Forall (fun case => body case = Ok tt) cases.
Proof. induction cases as [|c cases IH]; cbn [for_each]; [by split|]. by rewrite bind_ok_unit, IH, list.Forall_cons. Qed.
Lemma p0_one_byte hex b : (exists l, decode_hex_exact 1 hex = Ok l /\ index (E := FixtureError) l 0 = Ok b) <-> u8_ok b /\ hex = hex_bytes [b].
Proof.
  setoid_rewrite decode_hex_exact_ok. split.
  - intros (l & [[Hl Hb] ->] & Hi). destruct l as [|x [|y l]]; [done| |by rewrite !len_cons in Hl; pose proof (len_nonneg l); lia].
    rewrite index_0 in Hi. injection Hi as ->. apply bytes_ok_cons in Hb as [Hb _]. done.
  - intros [Hb ->]. exists [b]. split; [|done]. split; [|done]. split; [done|]. apply bytes_ok_cons. split; [done|apply List.Forall_nil].
Qed.
Lemma p0_hex_exact n l : array_ok n l -> decode_hex_exact n (hex_bytes l) = Ok l.
Proof. intros H. by apply decode_hex_exact_ok. Qed.
Lemma p0_hex l : bytes_ok l -> decode_hex (hex_bytes l) = Ok l.
Proof. intros H. by apply decode_hex_ok. Qed.
Lemma p0_array_app (x e : list Z) : array_ok 32 x -> array_ok 32 e -> array_ok 64 (x ++ e).
Proof. intros [Hx Hbx] [He Hbe]. split; [by rewrite len_app, Hx, He|by apply bytes_ok_app]. Qed.
Lemma p0_array_split l : array_ok 64 l -> exists x e, l = x ++ e /\ array_ok 32 x /\ array_ok 32 e.
Proof.
  intros [Hl Hb]. destruct (split_at 32 l) as (x & e & -> & Hx); [lia|]. apply bytes_ok_app in Hb as [Hbx Hbe]. rewrite len_app in Hl.
  exists x, e. split_and!; [done|split; [done..]|split; [lia|done]].
Qed.

Section case_lemmas.
Context `{P : RnsPrims, L : !RnsPrimsLaws P}.

(** *** Identities *)
Definition secret_bytes (secret : RnsSecretIdentity) : list Z := si_x25519_secret secret ++ si_ed25519_secret secret.
Lemma p0_secret_from_bytes x e : array_ok 32 x -> array_ok 32 e -> secret_identity_from_bytes (x ++ e) = Ok (mk_secret x e).
Proof.
  intros [Hx _] [He _]. unfold secret_identity_from_bytes, RNS_IDENTITY_KEY_LEN. rewrite slice_prefix by (rewrite len_app; lia). rewrite <- Hx, take_len_app. cbn [mbind outcome_bind].
  rewrite to_array_ok by done. cbn [mbind outcome_bind]. rewrite (slice_tail x e) by done. cbn [mbind outcome_bind]. rewrite to_array_ok by lia. done.
Qed.

Lemma p0_public_from_bytes secret : secret_ok secret -> public_identity_from_bytes (public_bytes (public_of secret)) = Ok (public_of secret).
Proof.
  intros Hs. destruct (public_of_ok secret Hs) as [Hx He]. unfold public_bytes. rewrite public_identity_from_to by done. unfold public_of. cbn [pi_x25519_public pi_ed25519_public].
  rewrite ed25519_public_valid; [done|]. by destruct Hs as [_ [? _]].
Qed.
Lemma p0_verify_signed secret message : secret_ok secret -> verify (public_of secret) message (ed25519_sign (si_ed25519_secret secret) message) = Ok tt.
Proof.
  intros [_ [Hs _]]. unfold verify, ed25519_verifying_key, public_of. cbn [pi_ed25519_public]. rewrite ed25519_public_valid by done. cbn [mbind outcome_bind].
  by rewrite ed25519_verify_sign.
Qed.

(** What a recorded identity must say of its secret and of its message. *)
Definition identity_recorded (inputs : IdentityInputs) (expected : IdentityExpected) : Prop :=
  exists secret message, secret_ok secret /\ bytes_ok message /\
    inputs = mk_ii (hex_bytes (secret_bytes secret)) (hex_bytes message) /\
    expected = mk_ie (hex_bytes (public_bytes (public_of secret))) (hex_bytes (take 16 (sha256 (public_bytes (public_of secret)))))
      (hex_bytes (ed25519_sign (si_ed25519_secret secret) message)).

Lemma p0_identity_ok case : validate_identity_case case = Ok tt <->
  ic_id case = str "profile_0_packet_announce.identity_signature.synthetic.0001" /\
  case_of CATEGORY_IDENTITY_SIGNATURE (ic_category case) (ic_deterministic case) (ic_private_test_material case) /\
  identity_recorded (ic_inputs case) (ic_expected case).
Proof.
  destruct case as [id category det priv [si sm] [ep eh es]]. unfold validate_identity_case. cbn [ic_id ic_category ic_deterministic ic_private_test_material ic_inputs ic_expected ii_secret_identity ii_message ie_public_identity ie_identity_hash ie_signature].
  rewrite bind_ok_unit, guarded, negb_false_iff, bool_decide_eq_true, bind_ok_unit, p0_metadata_ok. apply and_iff_compat_l, and_iff_compat_l.
  split.
  - intros (sb & [Hsb ->]%decode_hex_exact_ok & H)%bind_ok. apply bind_ok in H as (pb & [Hpb ->]%decode_hex_exact_ok & H).
    apply bind_ok in H as (hb & [Hhb ->]%decode_hex_exact_ok & H). apply bind_ok in H as (gb & [Hgb ->]%decode_hex_exact_ok & H).
    apply bind_ok in H as (m & [Hm ->]%decode_hex_ok & H).
    destruct (p0_array_split sb Hsb) as (x & e & -> & Hx & He). rewrite p0_secret_from_bytes in H by done. cbn [map_err mbind outcome_bind] in H.
    set (secret := mk_secret x e) in *. assert (secret_ok secret) as Hs by done. pose proof (public_of_ok secret Hs) as Hpub.
    unfold public_identity in H at 1. fold (public_of secret) in H. cbn [map_err mbind outcome_bind] in H.
    destruct (p0_array_split pb Hpb) as (px & pe & -> & Hpx & Hpe). rewrite public_identity_from_to in H by done.
    destruct (ed25519_valid pe); [|done]. cbn [map_err mbind outcome_bind] in H. rewrite public_identity_to_bytes_ok in H by done. cbn [mbind outcome_bind] in H.
    apply bind_ok_unit in H as [Hpp%p0_same_ok H]. apply bind_ok_unit in H as [Hq H]. rewrite guarded, negb_false_iff, bool_decide_eq_true in Hq. cbn [pi_x25519_public pi_ed25519_public] in Hq.
    destruct Hq as [Hqx Hqe]. rewrite identity_hash_ok in H by done. cbn [mbind outcome_bind] in H.
    apply bind_ok_unit in H as [Hh%p0_same_ok H]. unfold sign in H. cbn [map_err mbind outcome_bind] in H. apply bind_ok_unit in H as [Hg%p0_same_ok H].
    exists secret, m. split_and!; [done..| |]; [done|]. f_equal; [by rewrite Hpp| |by rewrite <- Hg]. rewrite <- Hh. unfold public_bytes at 1 2. cbn. by rewrite <- Hqx, <- Hqe.
  - intros (secret & m & Hs & Hm & [= -> ->] & [= -> -> ->]). pose proof (public_of_ok secret Hs) as Hpub.
    assert (array_ok 64 (secret_bytes secret)) as H1 by (apply p0_array_app; apply Hs).
    assert (array_ok 64 (public_bytes (public_of secret))) as H2 by by apply public_bytes_ok.
    assert (array_ok 16 (take 16 (sha256 (public_bytes (public_of secret))))) as H3.
    { destruct (sha256_len (public_bytes (public_of secret))) as [Hl Hb]. split; [rewrite len_take; lia|by apply bytes_ok_take]. }
    assert (array_ok 64 (ed25519_sign (si_ed25519_secret secret) m)) as H4 by (apply ed25519_sign_len, Hs).
    do 4 (rewrite p0_hex_exact by done; cbn [mbind outcome_bind]). rewrite p0_hex by done. cbn [mbind outcome_bind].
    unfold secret_bytes. rewrite p0_secret_from_bytes by apply Hs. cbn [map_err mbind outcome_bind]. unfold public_identity at 1. cbn [map_err mbind outcome_bind si_x25519_secret si_ed25519_secret].
    fold (public_of secret). rewrite p0_public_from_bytes by done. cbn [map_err mbind outcome_bind]. rewrite public_identity_to_bytes_ok by done. cbn [mbind outcome_bind].
    unfold expect_same. rewrite !bool_decide_eq_true_2 by done. cbn [negb guard_err mbind outcome_bind].
    rewrite identity_hash_ok by done. cbn [mbind outcome_bind]. rewrite !bool_decide_eq_true_2 by done. cbn [negb guard_err mbind outcome_bind].
    unfold sign. cbn [map_err mbind outcome_bind si_ed25519_secret]. rewrite bool_decide_eq_true_2 by done. cbn [negb guard_err mbind outcome_bind].
    by rewrite p0_verify_signed.
Qed.

(** *** Packets *)
Definition mtu_packet (p : RnsPacketRef) : Prop := packet_ok p /\ header_consistent p /\ len (packet_bytes p) <= RNS_MTU.
Lemma mtu_packet_bytes p : mtu_packet p -> bytes_ok (packet_bytes p).
Proof.
  intros ([Hh Ht [_ Hd] Hc Hb] & _). unfold packet_bytes. destruct (encode_flags_byte (rp_flags p)) as [Hf _].
  cbn [app]. rewrite !bytes_ok_cons, !bytes_ok_app, bytes_ok_cons. split_and!; try done. destruct (rp_transport_id p); [by destruct Ht|apply List.Forall_nil].
Qed.
Lemma p0_packet_ok raw p : bytes_ok raw -> map_err FixtureWire (decode_packet raw) = Ok p <-> mtu_packet p /\ raw = packet_bytes p.
Proof.
  intros Hb. rewrite map_err_ok. split.
  - intros H. apply decode_packet_inv in H as (Hp & Hc & Hl & ->); [|done]. done.
  - intros [(Hp & Hc & Hl) ->]. by apply decode_packet_bytes.
Qed.

(** What a recorded header must say of the packet: the bytes, and its parts. *)
Definition header_of (p : RnsPacketRef) : PacketHeaderExpected :=
  let flags := rp_flags p in
  mk_phe (hex_bytes (packet_bytes p)) (hex_bytes [encode_flags flags]) (rp_hops p) (header_to_bits (header_type flags)) (Z.b2z (context_flag flags))
    (transport_to_bits (transport_type flags)) (destination_to_bits (destination_type flags)) (packet_to_bits (packet_type flags))
    (hex_bytes <$> rp_transport_id p) (hex_bytes (rp_destination_hash p)) (hex_bytes [rp_context p]) (hex_bytes (rp_data p)).

(** Encoding a decoded packet again gives its bytes: the last check of a header cannot fail. *)
Lemma p0_reencode {E} p (f : RnsWireError -> E) : mtu_packet p ->
  (let '(r, output) := encode_packet p (zeros RNS_MTU) in l ← map_err f r; slice output 0 l) = Ok (packet_bytes p).
Proof.
  intros (Hp & Hc & Hl). rewrite encode_packet_valid by (try done; by rewrite len_zeros). cbn [map_err mbind outcome_bind].
  rewrite slice_prefix by (rewrite len_app; pose proof (len_nonneg (packet_bytes p)); pose proof (len_nonneg (drop (length (packet_bytes p)) (zeros RNS_MTU))); lia).
  by rewrite take_len_app.
Qed.

Lemma p0_header_ok case : validate_packet_header_case case = Ok tt <->
  case_of CATEGORY_PACKET_HEADER (phc_category case) (phc_deterministic case) (phc_private_test_material case) /\
  (exists number, phc_id case = str "profile_0_packet_announce.packet_header.synthetic." ++ number) /\
  phi_description (phc_inputs case) = str "synthetic Reticulum Packet.pack() header vector" /\
  exists p, mtu_packet p /\ phc_expected case = header_of p.
Proof.
  destruct case as [id category det priv [description] e]. unfold validate_packet_header_case. cbn [phc_id phc_category phc_deterministic phc_private_test_material phc_inputs phc_expected phi_description].
  rewrite bind_ok_unit, p0_metadata_ok. apply and_iff_compat_l. rewrite bind_ok_unit, p0_prefix_ok. apply and_iff_compat_l.
  rewrite bind_ok_unit, p0_same_ok. apply and_iff_compat_l. split.
  - intros (raw & [Hraw Er]%decode_hex_ok & H)%bind_ok. apply bind_ok in H as (p & [Hp ->]%p0_packet_ok & H); [|done].
    apply bind_ok in H as (fl & Hfl & H). apply bind_ok in H as (fb & Hfb & H). destruct (proj1 (p0_one_byte _ _) (ex_intro _ fl (conj Hfl Hfb))) as [_ Ef].
    apply bind_ok in H as (cl & Hcl & H). apply bind_ok in H as (cb & Hcb & H). destruct (proj1 (p0_one_byte _ _) (ex_intro _ cl (conj Hcl Hcb))) as [_ Ec].
    apply bind_ok in H as (d & [_ Ed]%decode_hex_exact_ok & H). apply bind_ok in H as (data & [_ Edata]%decode_hex_ok & H).
    apply bind_ok in H as (t & [_ Et]%p0_transport_id_ok & H). apply bind_ok_unit in H as [H _].
    rewrite guarded, negb_false_iff, !andb_true_iff, !Z.eqb_eq, !bool_decide_eq_true in H.
    destruct H as (((((((((((_ & <-) & Hhops) & Hht) & Hcf) & Htt) & Hdt) & Hpt) & <-) & <-) & <-) & <-).
    exists p. split; [done|]. unfold header_of. rewrite <- Er, <- Ef, <- Ec, <- Ed, <- Edata, <- Et, Hhops, Hht, Hcf, Htt, Hdt, Hpt. by destruct e.
  - intros (p & Hm & ->). unfold header_of. cbn [phe_raw_packet phe_flags phe_hops phe_header_type phe_context_flag phe_transport_type phe_destination_type phe_packet_type phe_transport_id phe_destination_hash phe_context phe_data].
    pose proof Hm as ([Hh Ht Hd Hc Hb] & _). rewrite (p0_hex (packet_bytes p)) by by apply mtu_packet_bytes. cbn [mbind outcome_bind].
    rewrite (proj2 (p0_packet_ok (packet_bytes p) p (mtu_packet_bytes p Hm))) by done. cbn [mbind outcome_bind].
    destruct (proj2 (p0_one_byte _ (encode_flags (rp_flags p))) (conj (proj1 (encode_flags_byte (rp_flags p))) eq_refl)) as (fl & -> & Hf). cbn [mbind outcome_bind]. rewrite Hf. cbn [mbind outcome_bind].
    destruct (proj2 (p0_one_byte _ (rp_context p)) (conj Hc eq_refl)) as (cl & -> & Hcl). cbn [mbind outcome_bind]. rewrite Hcl. cbn [mbind outcome_bind].
    rewrite p0_hex_exact by done. cbn [mbind outcome_bind]. rewrite (p0_hex (rp_data p)) by done. cbn [mbind outcome_bind].
    rewrite (proj2 (p0_transport_id_ok _ (rp_transport_id p)) (conj Ht eq_refl)). cbn [mbind outcome_bind].
    rewrite !bool_decide_eq_true_2 by done. rewrite !Z.eqb_refl. cbn [andb negb guard_err mbind outcome_bind].
    pose proof (p0_reencode p FixtureWire Hm) as Hr. destruct (encode_packet p (zeros RNS_MTU)) as [r output]. destruct (map_err FixtureWire r) as [l| |]; cbn [mbind outcome_bind] in Hr |- *; [|done..].
    rewrite Hr. cbn [mbind outcome_bind]. by apply p0_same_ok.
Qed.

(** What a recorded packet hash must say of the packet; a transport id is noted, not
    compared. *)
Definition hashes_of (p : RnsPacketRef) (transport_id : option (list Z)) : PacketHashExpected :=
  mk_pke (hex_bytes (packet_bytes p)) (hex_bytes (hashable_part p)) (hex_bytes (sha256 (hashable_part p)))
    (hex_bytes (take 16 (sha256 (hashable_part p)))) (hex_bytes <$> transport_id).
Definition proof_of (p : RnsPacketRef) (transport_id : list Z) : Header2TransportProof :=
  mk_tp transport_id (hashable_part p) (sha256 (hashable_part p)) (take 16 (sha256 (hashable_part p))).

Lemma hashable_part_fits p : mtu_packet p -> bytes_ok (hashable_part p) /\ len (hashable_part p) <= RNS_MTU - 1.
Proof.
  intros (Hp & Hc & Hl). pose proof (packet_bytes_len p Hp Hc) as Hlen. destruct Hp as [_ _ [Hd Hbd] Hcx Hb]. unfold hashable_part. split.
  - rewrite !bytes_ok_app, !bytes_ok_cons, hashable_flags. split_and!; try done; try apply List.Forall_nil; unfold u8_ok; destruct (destination_type _), (packet_type _); cbn; lia.
  - rewrite !len_app. change (len [?x]) with 1. rewrite Hd, Hlen in *. destruct (header_type _); unfold header_len, RNS_HEADER_1_LEN, RNS_HEADER_2_LEN in *; lia.
Qed.

Lemma p0_hashable p : mtu_packet p ->
  (let '(r, hashable_part) := write_packet_hashable_part (packet_bytes p) (zeros RNS_MTU) in l ← map_err FixtureWire r; slice hashable_part 0 l) = Ok (hashable_part p).
Proof.
  intros Hm. destruct (hashable_part_fits p Hm) as [_ Hf]. destruct Hm as (Hp & Hc & Hl).
  rewrite write_packet_hashable_spec by (try done; rewrite len_zeros by done; lia). cbn [map_err mbind outcome_bind].
  rewrite slice_prefix by (rewrite len_app; pose proof (len_nonneg (hashable_part p)); pose proof (len_nonneg (drop (length (hashable_part p)) (zeros RNS_MTU))); lia).
  by rewrite take_len_app.
Qed.
Lemma p0_bind_pair {E A B S} (x : outcome E A * S) (k : outcome E A -> S -> outcome E B) : (let '(r, s) := x in k r s) = k (fst x) (snd x).
Proof. by destruct x. Qed.

Lemma p0_hash_ok case proof : validate_packet_hash_case case = Ok proof <->
  case_of CATEGORY_PACKET_HASH (pkc_category case) (pkc_deterministic case) (pkc_private_test_material case) /\
  (exists number, pkc_id case = str "profile_0_packet_announce.packet_hash.synthetic." ++ number) /\
  pki_description (pkc_inputs case) = str "synthetic Reticulum Packet hash vector" /\
  exists p t, mtu_packet p /\ from_option (array_ok 16) True t /\ pkc_expected case = hashes_of p t /\ proof = proof_of p <$> t.
Proof.
  destruct case as [id category det priv [description] e]. unfold validate_packet_hash_case. cbn [pkc_id pkc_category pkc_deterministic pkc_private_test_material pkc_inputs pkc_expected pki_description].
  rewrite bind_ok_unit, p0_metadata_ok. apply and_iff_compat_l. rewrite bind_ok_unit, p0_prefix_ok. apply and_iff_compat_l.
  rewrite bind_ok_unit, p0_same_ok. apply and_iff_compat_l. split.
  - intros (raw & [Hraw Er]%decode_hex_ok & H)%bind_ok. apply bind_ok in H as (hp & [_ Ehp]%decode_hex_ok & H).
    apply bind_ok in H as (fh & [_ Efh]%decode_hex_exact_ok & H). apply bind_ok in H as (th & [_ Eth]%decode_hex_exact_ok & H).
    apply bind_ok in H as (t & [Ht Et]%p0_optional_hex_ok & H).
    destruct (decode_packet_cases raw Hraw) as [(p & _ & Hp & Hc & Hl & ->)|[e' He']].
    2: { unfold write_packet_hashable_part in H. unfold lift at 1, mbind at 1, io_bind at 1 in H. rewrite He' in H. done. }
    assert (mtu_packet p) as Hm by done. pose proof (p0_hashable p Hm) as Hh. destruct (write_packet_hashable_part _ _) as [r out].
    apply bind_ok in H as (l & Hr & H). apply bind_ok in H as (h & Hs & H). rewrite Hr in Hh. cbn [mbind outcome_bind] in Hh. rewrite Hh in Hs. injection Hs as <-.
    apply bind_ok_unit in H as [H1 H]. rewrite guarded, negb_false_iff, bool_decide_eq_true in H1. subst hp.
    apply bind_ok in H as (fh' & H2 & H). rewrite packet_hash_spec in H2 by done. injection H2 as <-.
    apply bind_ok_unit in H as [H1 H]. rewrite guarded, negb_false_iff, bool_decide_eq_true in H1. subst fh.
    apply bind_ok in H as (th' & H2 & H). rewrite packet_truncated_hash_spec in H2 by (done || apply sha256_len). injection H2 as <-.
    apply bind_ok_unit in H as [H1 H]. rewrite guarded, negb_false_iff, bool_decide_eq_true in H1. subst th.
    exists p, t. split_and!; [done..| |by destruct t; injection H as <-]. unfold hashes_of. rewrite <- Er, <- Ehp, <- Efh, <- Eth, <- Et. by destruct e.
  - intros (p & t & Hm & Ht & -> & ->). unfold hashes_of. cbn [pke_raw_packet pke_hashable_part pke_full_hash pke_truncated_hash pke_transport_id].
    destruct (hashable_part_fits p Hm) as [Hbh _]. destruct (sha256_len (hashable_part p)) as [Hsl Hsb].
    rewrite (p0_hex (packet_bytes p)) by by apply mtu_packet_bytes. cbn [mbind outcome_bind]. rewrite (p0_hex (hashable_part p)) by done. cbn [mbind outcome_bind].
    rewrite (p0_hex_exact 32) by done. cbn [mbind outcome_bind]. rewrite p0_hex_exact by (split; [rewrite len_take, Hsl; done|by apply bytes_ok_take]). cbn [mbind outcome_bind].
    rewrite (proj2 (p0_optional_hex_ok RNS_TRUNCATED_HASH_LEN _ t) (conj Ht eq_refl)). cbn [mbind outcome_bind].
    pose proof (p0_hashable p Hm) as Hh. destruct (write_packet_hashable_part _ _) as [r out]. destruct (map_err FixtureWire r) as [l| |]; cbn [mbind outcome_bind] in Hh |- *; [|done..].
    rewrite Hh. cbn [mbind outcome_bind]. destruct Hm as (Hp & Hc & Hl). rewrite packet_hash_spec, packet_truncated_hash_spec by (done || apply sha256_len).
    rewrite bool_decide_eq_true_2 by done. cbn [map_err negb guard_err mbind outcome_bind]. rewrite bool_decide_eq_true_2 by done. cbn [map_err negb guard_err mbind outcome_bind].
    rewrite bool_decide_eq_true_2 by done. cbn [map_err negb guard_err mbind outcome_bind]. by destruct t.
Qed.

(** Later proofs of a file are of another transport and of the same hashes. *)
Definition proof_agrees (previous proof : Header2TransportProof) : Prop :=
  tp_transport_id previous <> tp_transport_id proof /\ tp_hashable_part previous = tp_hashable_part proof /\
  tp_full_hash previous = tp_full_hash proof /\ tp_truncated_hash previous = tp_truncated_hash proof.
Lemma p0_check_proof_ok previous proof : check_transport_proof previous proof = Ok tt <-> proof_agrees previous proof.
Proof. unfold check_transport_proof, proof_agrees. rewrite guarded, !orb_false_iff, !negb_false_iff, !bool_decide_eq_true, bool_decide_eq_false. tauto. Qed.

Definition proofs_agree (first : option Header2TransportProof) (proofs : list (option Header2TransportProof)) : Prop :=
  match option_list first ++ omap id proofs with [] => True | first :: rest => Forall (proof_agrees first) rest end.
Lemma p0_hash_loop_ok cases : forall first,
  packet_hash_loop first cases = Ok tt <-> exists proofs, Forall2 (fun case proof => validate_packet_hash_case case = Ok proof) cases proofs /\ proofs_agree first proofs.
Proof.
  induction cases as [|c cases IH]; intros first; cbn [packet_hash_loop].
  - split; [|done]. intros _. exists []. split; [constructor|]. by destruct first; cbn.
  - rewrite bind_ok. split.
    + intros (proof & Hp & H). destruct proof as [proof|]; [destruct first as [first|]|].
      * apply bind_ok_unit in H as [Ha%p0_check_proof_ok (proofs & Hps & Hag)%IH]. exists (Some proof :: proofs). split; [by constructor|]. cbn in Hag |- *. by constructor.
      * apply IH in H as (proofs & Hps & Hag). exists (Some proof :: proofs). split; [by constructor|]. exact Hag.
      * apply IH in H as (proofs & Hps & Hag). exists (None :: proofs). split; [by constructor|]. exact Hag.
    + intros (proofs & Hps & Hag). apply list.Forall2_cons_inv_l in Hps as (proof & proofs' & Hp & Hps & ->). exists proof. split; [done|].
      destruct proof as [proof|]; [destruct first as [first|]|].
      * cbn in Hag. apply list.Forall_cons in Hag as [Ha Hag]. apply bind_ok_unit. split; [by apply p0_check_proof_ok|]. apply IH. by exists proofs'.
      * apply IH. by exists proofs'.
      * apply IH. by exists proofs'.
Qed.

(** *** Destinations *)
(** The name that is hashed, and its hash. *)
Definition dotted_name (app_name : list Z) (aspects : list (list Z)) : list Z := app_name ++ (aspects ≫= fun aspect => 46 :: aspect).
Definition name_hash_of (app_name : list Z) (aspects : list (list Z)) : list Z := take 10 (sha256 (dotted_name app_name aspects)).
Lemma p0_expanded_name app_name aspects : expanded_destination_name app_name aspects = dotted_name app_name aspects.
Proof.
  unfold expanded_destination_name, dotted_name. revert app_name. induction aspects as [|a l IH]; intros name; cbn; [by rewrite app_nil_r|].
  rewrite IH. by rewrite <- !app_assoc.
Qed.
Lemma p0_name_hash app_name aspects n : destination_name_hash sha256 app_name aspects = Ok n <->
  validate_destination_name app_name aspects = Ok tt /\ n = name_hash_of app_name aspects.
Proof.
  unfold destination_name_hash. rewrite bind_ok_unit. fold (dotted_name app_name aspects). destruct (sha256_len (dotted_name app_name aspects)) as [Hl _].
  apply and_iff_compat_l. rewrite slice_prefix by (rewrite Hl; done). cbn [mbind outcome_bind]. rewrite to_array_ok by (rewrite len_take, Hl; done). split; [by intros [= <-]|by intros ->].
Qed.
Lemma p0_destination_hash {E} name ih : destination_hash (E := E) sha256 name ih = Ok (take 16 (sha256 (name ++ default [] ih))).
Proof.
  unfold destination_hash. destruct (sha256_len (name ++ default [] ih)) as [Hl _]. rewrite slice_prefix by lia. cbn [mbind outcome_bind].
  apply to_array_ok. rewrite len_take. lia.
Qed.
Lemma p0_digest_array (n : nat) data : (n <= 32)%nat -> array_ok (Z.of_nat n) (take n (sha256 data)).
Proof. intros Hn. destruct (sha256_len data) as [Hl Hb]. split; [rewrite len_take; lia|by apply bytes_ok_take]. Qed.

(** What a recorded destination must say of a name and of the identity it is bound to,
    if any. *)
Definition destination_recorded (inputs : DestinationHashInputs) (expected : DestinationHashExpected) (identity : option (list Z)) : Prop :=
  let name := name_hash_of (di_app_name inputs) (di_aspects inputs) in
  validate_destination_name (di_app_name inputs) (di_aspects inputs) = Ok tt /\
  from_option (array_ok 16) True identity /\ di_identity_hash inputs = hex_bytes <$> identity /\
  expected = mk_de (dotted_name (di_app_name inputs) (di_aspects inputs)) (hex_bytes name) (hex_bytes (take 16 (sha256 (name ++ default [] identity)))).

Lemma p0_destination_ok case bound : validate_destination_hash_case case = Ok bound <->
  case_of CATEGORY_DESTINATION_HASH (dc_category case) (dc_deterministic case) (dc_private_test_material case) /\
  (exists number, dc_id case = str "profile_0_packet_announce.destination_hash.synthetic." ++ number) /\
  exists identity, destination_recorded (dc_inputs case) (dc_expected case) identity /\ bound = bool_decide (is_Some identity).
Proof.
  destruct case as [id category det priv i [en nh dh]]. unfold validate_destination_hash_case, destination_recorded. cbn [dc_id dc_category dc_deterministic dc_private_test_material dc_inputs dc_expected de_expanded_name de_name_hash de_destination_hash].
  rewrite bind_ok_unit, p0_metadata_ok. apply and_iff_compat_l. rewrite bind_ok_unit, p0_prefix_ok. apply and_iff_compat_l.
  rewrite bind_ok_unit, p0_same_ok, p0_expanded_name. split.
  - intros (<- & (n & [_ ->]%decode_hex_exact_ok & H)%bind_ok). apply bind_ok in H as (d & [_ ->]%decode_hex_exact_ok & H).
    apply bind_ok in H as (ih & [Hih Eih]%p0_optional_hex_ok & H). apply bind_ok in H as (n' & [Hv ->]%map_err_ok%p0_name_hash & H).
    apply bind_ok_unit in H as [<-%p0_same_ok H]. rewrite p0_destination_hash in H. cbn [mbind outcome_bind] in H.
    apply bind_ok_unit in H as [<-%p0_same_ok [= <-]]. by exists ih.
  - intros (ih & (Hv & Hih & Eih & [= -> -> ->]) & ->). split; [done|]. rewrite (p0_hex_exact RNS_NAME_HASH_LEN) by (apply (p0_digest_array 10); lia). cbn [mbind outcome_bind].
    rewrite (p0_hex_exact RNS_TRUNCATED_HASH_LEN) by (apply (p0_digest_array 16); lia). cbn [mbind outcome_bind]. rewrite (proj2 (p0_optional_hex_ok RNS_TRUNCATED_HASH_LEN _ ih) (conj Hih Eih)). cbn [mbind outcome_bind].
    rewrite (proj2 (p0_name_hash _ _ _) (conj Hv eq_refl)). cbn [map_err mbind outcome_bind]. rewrite (proj2 (p0_same_ok _ _ _ _)) by done. cbn [mbind outcome_bind].
    rewrite p0_destination_hash. cbn [mbind outcome_bind]. by rewrite (proj2 (p0_same_ok _ _ _ _)) by done.
Qed.

(** The loop counts the cases of each kind. *)
Definition count_kind (bound : bool) (kinds : list bool) : Z := len (filter (fun b => b = bound) kinds).
Lemma p0_count_cons b k ks : count_kind b (k :: ks) = (if Bool.eqb k b then 1 else 0) + count_kind b ks.
Proof. unfold count_kind. rewrite filter_cons. case_decide as H; destruct k, b; try done; by rewrite len_cons. Qed.
Lemma p0_destination_loop_ok cases : forall plain bound counts, destination_hash_loop plain bound cases = Ok counts <->
  exists kinds, Forall2 (fun case kind => validate_destination_hash_case case = Ok kind) cases kinds /\
    counts = (plain + count_kind false kinds, bound + count_kind true kinds).
Proof.
  induction cases as [|c cases IH]; intros plain bound counts; cbn [destination_hash_loop].
  - split; [intros [= <-]; exists []; split; [constructor|]; by rewrite !Z.add_0_r|]. intros (ks & Hks & ->). apply list.Forall2_nil_inv_l in Hks as ->. by rewrite !Z.add_0_r.
  - rewrite bind_ok. split.
    + intros (k & Hk & H). destruct k; apply IH in H as (ks & Hks & ->); [exists (true :: ks)|exists (false :: ks)]; (split; [by constructor|]);
        rewrite !p0_count_cons; cbn [Bool.eqb]; f_equal; lia.
    + intros (ks & Hks & ->). apply list.Forall2_cons_inv_l in Hks as (k & ks' & Hk & Hks & ->). exists k. split; [done|].
      destruct k; apply IH; exists ks'; (split; [done|]); rewrite !p0_count_cons; cbn [Bool.eqb]; f_equal; lia.
Qed.

(** *** Announces *)
(** What a recorded announce must say: the packet, and the parts of the announce it is. *)
Definition announce_of (p : RnsPacketRef) (a : RnsAnnounceRef) : AnnounceExpected :=
  mk_ae (hex_bytes (packet_bytes p)) (hex_bytes (an_destination_hash a)) (hex_bytes (an_public_identity a)) (hex_bytes (an_name_hash a)) (hex_bytes (an_random_hash a))
    (hex_bytes <$> an_ratchet a) (hex_bytes (an_signature a)) (hex_bytes (an_app_data a)) (Z.b2z (context_flag (rp_flags p))).
Definition announce_inputs (expected : AnnounceExpected) : AnnounceInputs :=
  mk_ai (hex_bytes (seqZ 0 64)) (str "hyf") [str "announce"] (ae_app_data expected) (ae_random_hash expected).

Lemma p0_signed_prefix {E} a rest : announce_ok a -> slice (E := E) (signed_data a ++ rest) 0 RNS_TRUNCATED_HASH_LEN = Ok (an_destination_hash a).
Proof. intros [[Hd _] _ _ _ _ _ _]. unfold signed_data. rewrite <- app_assoc. apply (slice_app_first (an_destination_hash a)); [done|by rewrite Hd]. Qed.
Lemma p0_signed_suffix a rest : signed_data_suffix_matches (signed_data a ++ rest) (len (signed_data a)) (an_app_data a) = true.
Proof.
  assert (exists pre, signed_data a = pre ++ an_app_data a) as [pre ->] by (unfold signed_data; eexists; by rewrite !app_assoc).
  unfold signed_data_suffix_matches. rewrite len_app. pose proof (len_nonneg pre).
  destruct (Z.ltb_spec (len pre + len (an_app_data a) - len (an_app_data a)) 0); [lia|]. rewrite Z.add_simpl_r, <- app_assoc. apply bool_decide_eq_true, get_range_app.
Qed.
Lemma p0_packet_data p : mtu_packet p -> len (rp_data p) <= RNS_MTU.
Proof. intros (Hp & Hc & Hl). rewrite packet_bytes_len in Hl by done. destruct (header_type _); unfold header_len, RNS_HEADER_1_LEN, RNS_HEADER_2_LEN in *; lia. Qed.
Lemma p0_built_signed_data p a : mtu_packet p -> announce_ok a -> announces p a ->
  build_announce_signed_data a (zeros RNS_MTU) = (Ok (len (signed_data a)), signed_data a ++ drop (length (signed_data a)) (zeros RNS_MTU)).
Proof.
  intros Hm Ha (_ & _ & _ & _ & Hd). pose proof (p0_packet_data p Hm) as Hl. rewrite Hd in Hl. pose proof (signed_data_len a Ha). pose proof (announce_data_len a Ha).
  rewrite build_signed_data_ok by (try done; unfold RNS_MTU, usize_MAX in *; lia). rewrite len_zeros by done. destruct (Z.ltb_spec RNS_MTU (len (signed_data a))); [lia|done].
Qed.

Lemma p0_announce_ok case : validate_announce_case case = Ok tt <->
  case_of CATEGORY_ANNOUNCE (ac_category case) (ac_deterministic case) (ac_private_test_material case) /\
  (exists number, ac_id case = str "profile_0_packet_announce.announce.synthetic." ++ number) /\
  ac_inputs case = announce_inputs (ac_expected case) /\
  exists p a, mtu_packet p /\ announce_ok a /\ announces p a /\ authentic a /\ ac_expected case = announce_of p a.
Proof.
  destruct case as [id category det priv [si an asp ad rh] e]. unfold validate_announce_case, announce_inputs. cbn [ac_id ac_category ac_deterministic ac_private_test_material ac_inputs ac_expected ai_secret_identity ai_app_name ai_aspects ai_app_data ai_random_hash].
  rewrite bind_ok_unit, p0_metadata_ok. apply and_iff_compat_l. rewrite bind_ok_unit, p0_prefix_ok. apply and_iff_compat_l. split.
  - intros (sb & [_ ->]%decode_hex_ok & H)%bind_ok. apply bind_ok_unit in H as [Hin H]. rewrite guarded, !orb_false_iff, !negb_false_iff, !bool_decide_eq_true in Hin.
    destruct Hin as ((((-> & ->) & ->) & ->) & ->). split; [done|].
    apply bind_ok in H as (raw & [Hraw Er]%decode_hex_ok & H). apply bind_ok in H as (p & [Hm ->]%p0_packet_ok & H); [|done].
    apply bind_ok in H as (a & Ha & H). apply map_err_ok, validate_announce_cases in Ha as (Hok & Hann & Hau); [|apply Hm|by apply p0_packet_data].
    apply bind_ok in H as (d & [_ Ed]%decode_hex_exact_ok & H). apply bind_ok in H as (pid & [_ Epid]%decode_hex_exact_ok & H).
    apply bind_ok in H as (n & [_ En]%decode_hex_exact_ok & H). apply bind_ok in H as (r & [_ Ernd]%decode_hex_exact_ok & H).
    apply bind_ok in H as (t & [_ Et]%p0_optional_hex_ok & H). apply bind_ok in H as (s & [_ Es]%decode_hex_exact_ok & H).
    apply bind_ok in H as (data & [_ Edata]%decode_hex_ok & H). rewrite (p0_built_signed_data p a) in H by done. cbn [map_err mbind outcome_bind] in H.
    apply bind_ok_unit in H as [H _]. rewrite guarded, negb_false_iff, !andb_true_iff, !Z.eqb_eq, !bool_decide_eq_true in H.
    destruct H as (((((((Hcf & <-) & <-) & <-) & <-) & <-) & <-) & <-). exists p, a. split_and!; [done..|]. unfold announce_of.
    rewrite <- Er, <- Ed, <- Epid, <- En, <- Ernd, <- Et, <- Es, <- Edata, Hcf. by destruct e.
  - intros ([= -> -> -> -> ->] & p & a & Hm & Ha & Hann & Hau & ->). unfold announce_of.
    cbn [ae_raw_packet ae_destination_hash ae_public_identity ae_name_hash ae_random_hash ae_ratchet ae_signature ae_app_data ae_context_flag].
    rewrite (p0_hex (seqZ 0 64)) by (apply (bool_decide_unpack _); vm_compute; exact I). cbn [mbind outcome_bind].
    rewrite !bool_decide_eq_true_2 by done. cbn [negb orb guard_err mbind outcome_bind].
    rewrite (p0_hex (packet_bytes p)) by by apply mtu_packet_bytes. cbn [mbind outcome_bind].
    rewrite (proj2 (p0_packet_ok (packet_bytes p) p (mtu_packet_bytes p Hm))) by done. cbn [mbind outcome_bind].
    rewrite (proj2 (proj2 (validate_announce_cases p a (proj1 Hm) (p0_packet_data p Hm))) (conj Ha (conj Hann Hau))). cbn [map_err mbind outcome_bind].
    pose proof Ha as [H1 H2 H3 H4 H5 H6 H7]. do 4 (rewrite p0_hex_exact by done; cbn [mbind outcome_bind]).
    rewrite (proj2 (p0_optional_hex_ok RNS_ANNOUNCE_RATCHET_LEN _ (an_ratchet a)) (conj H5 eq_refl)). cbn [mbind outcome_bind]. rewrite p0_hex_exact by done. cbn [mbind outcome_bind].
    rewrite (p0_hex (an_app_data a)) by done. cbn [mbind outcome_bind]. rewrite (p0_built_signed_data p a) by done. cbn [map_err mbind outcome_bind].
    rewrite Z.eqb_refl, !bool_decide_eq_true_2 by done. cbn [andb negb guard_err mbind outcome_bind].
    rewrite p0_signed_prefix by done. cbn [mbind outcome_bind]. rewrite p0_signed_suffix, bool_decide_eq_true_2 by done. done.
Qed.

(** The errors a negative case may name. *)
Definition wire_error_name (e : RnsWireError) : option (list Z) :=
  match e with
  | DestinationMismatch => Some (str "DestinationMismatch")
  | InvalidDestinationType => Some (str "InvalidDestinationType")
  | RnsWire.InvalidSignature => Some (str "InvalidSignature")
  | MalformedAnnounce => Some (str "MalformedAnnounce")
  | _ => None
  end.
Lemma p0_wire_error_ok text e : expected_wire_error text = Ok e <-> wire_error_name e = Some text.
Proof.
  unfold expected_wire_error. repeat (case_bool_decide; [subst text; split; [by intros [= <-]|by destruct e]|]).
  split; [done|]. destruct e; try done; intros [= <-]; done.
Qed.

(** A negative case passes exactly when its packet decodes and validation refuses the
    announce with the error the case names. *)
Lemma p0_negative_ok case : validate_announce_negative_case case = Ok tt <->
  case_of CATEGORY_ANNOUNCE_NEGATIVE (nc_category case) (nc_deterministic case) (nc_private_test_material case) /\
  (exists number, nc_id case = str "profile_0_packet_announce.announce_negative.synthetic." ++ number) /\
  nc_mutation case ∈ mutations /\
  exists p e, mtu_packet p /\ nc_raw_packet case = hex_bytes (packet_bytes p) /\
    validate_announce_packet p = Err e /\ wire_error_name e = Some (nc_expected_error case).
Proof.
  unfold validate_announce_negative_case. rewrite bind_ok_unit, p0_metadata_ok. apply and_iff_compat_l. rewrite bind_ok_unit, p0_prefix_ok. apply and_iff_compat_l.
  rewrite bind_ok_unit, guarded, negb_false_iff, bool_decide_eq_true. apply and_iff_compat_l. split.
  - intros (raw & [Hraw Er]%decode_hex_ok & H)%bind_ok. apply bind_ok in H as (p & [Hm ->]%p0_packet_ok & H); [|done].
    destruct (validate_announce_packet p) as [a|e|] eqn:Hv; [| |done].
    + apply bind_ok in H as (e & _ & H). done.
    + apply bind_ok in H as (e' & He%p0_wire_error_ok & H). rewrite guarded, negb_false_iff, bool_decide_eq_true in H. subst e'. by exists p, e.
  - intros (p & e & Hm & -> & Hv & He). rewrite p0_hex by by apply mtu_packet_bytes. cbn [mbind outcome_bind].
    rewrite (proj2 (p0_packet_ok (packet_bytes p) p (mtu_packet_bytes p Hm))) by done. cbn [mbind outcome_bind]. rewrite Hv.
    rewrite (proj2 (p0_wire_error_ok _ _) He). cbn [mbind outcome_bind]. by rewrite bool_decide_eq_true_2.
Qed.
End case_lemmas.

(** ** Files *)
Section files.
Context `{P : RnsPrims, L : !RnsPrimsLaws P, F : Profile0Files}.
Context `{J1 : FromJson (FixtureFile IdentityCase), J2 : FromJson (FixtureCasesFile DestinationHashCase), J3 : FromJson (FixtureCasesFile PacketHeaderCase),
  J4 : FromJson (FixtureCasesFile PacketHashCase), J5 : FromJson (FixtureCasesFile AnnounceCase), J6 : FromJson (FixtureCasesFile AnnounceNegativeCase), JM : FromJson ManifestFile}.

(** What each case must record. *)
Definition identity_passes (case : IdentityCase) : Prop :=
  ic_id case = str "profile_0_packet_announce.identity_signature.synthetic.0001" /\
  case_of CATEGORY_IDENTITY_SIGNATURE (ic_category case) (ic_deterministic case) (ic_private_test_material case) /\
  identity_recorded (ic_inputs case) (ic_expected case).
Definition destination_passes (case : DestinationHashCase) (bound : bool) : Prop :=
  case_of CATEGORY_DESTINATION_HASH (dc_category case) (dc_deterministic case) (dc_private_test_material case) /\
  (exists number, dc_id case = str "profile_0_packet_announce.destination_hash.synthetic." ++ number) /\
  exists identity, destination_recorded (dc_inputs case) (dc_expected case) identity /\ bound = bool_decide (is_Some identity).
Definition header_passes (case : PacketHeaderCase) : Prop :=
  case_of CATEGORY_PACKET_HEADER (phc_category case) (phc_deterministic case) (phc_private_test_material case) /\
  (exists number, phc_id case = str "profile_0_packet_announce.packet_header.synthetic." ++ number) /\
  phi_description (phc_inputs case) = str "synthetic Reticulum Packet.pack() header vector" /\
  exists p, mtu_packet p /\ phc_expected case = header_of p.
Definition hash_passes (case : PacketHashCase) (proof : option Header2TransportProof) : Prop :=
  case_of CATEGORY_PACKET_HASH (pkc_category case) (pkc_deterministic case) (pkc_private_test_material case) /\
  (exists number, pkc_id case = str "profile_0_packet_announce.packet_hash.synthetic." ++ number) /\
  pki_description (pkc_inputs case) = str "synthetic Reticulum Packet hash vector" /\
  exists p t, mtu_packet p /\ from_option (array_ok 16) True t /\ pkc_expected case = hashes_of p t /\ proof = proof_of p <$> t.
Definition announce_passes (case : AnnounceCase) : Prop :=
  case_of CATEGORY_ANNOUNCE (ac_category case) (ac_deterministic case) (ac_private_test_material case) /\
  (exists number, ac_id case = str "profile_0_packet_announce.announce.synthetic." ++ number) /\
  ac_inputs case = announce_inputs (ac_expected case) /\
  exists p a, mtu_packet p /\ announce_ok a /\ announces p a /\ authentic a /\ ac_expected case = announce_of p a.
Definition negative_passes (case : AnnounceNegativeCase) : Prop :=
  case_of CATEGORY_ANNOUNCE_NEGATIVE (nc_category case) (nc_deterministic case) (nc_private_test_material case) /\
  (exists number, nc_id case = str "profile_0_packet_announce.announce_negative.synthetic." ++ number) /\
  nc_mutation case ∈ mutations /\
  exists p e, mtu_packet p /\ nc_raw_packet case = hex_bytes (packet_bytes p) /\
    validate_announce_packet p = Err e /\ wire_error_name e = Some (nc_expected_error case).

(** A text is a file of [count] cases of which [ok] holds. *)
Definition recorded {T} `{FromJson (FixtureCasesFile T)} (contents : list Z) (count : Z) (ok : list T -> Prop) : Prop :=
  exists f : FixtureCasesFile T, from_str contents = Ok f /\ fc_schema f = EXPECTED_FIXTURE_CASES_SCHEMA /\ fc_profile f = PROFILE_0_PACKET_ANNOUNCE /\
    provenance_ok (fc_reticulum f) /\ len (fc_cases f) = count /\ ok (fc_cases f).
Definition identity_file : Prop :=
  exists f : FixtureFile IdentityCase, from_str IDENTITY_FIXTURE = Ok f /\ ff_schema f = EXPECTED_FIXTURE_SCHEMA /\ ff_profile f = PROFILE_0_PACKET_ANNOUNCE /\
    provenance_ok (ff_reticulum f) /\ identity_passes (ff_case f).
Definition p0_fixtures_pass : Prop :=
  manifest_file PROFILE_0_PACKET_ANNOUNCE MANIFEST expected_manifest /\
  identity_file /\
  recorded DESTINATION_HASH_FIXTURE 6 (fun cases => exists kinds, Forall2 destination_passes cases kinds /\ count_kind false kinds = 3 /\ count_kind true kinds = 3) /\
  recorded PACKET_HEADER_FIXTURE 2 (Forall header_passes) /\
  recorded PACKET_HASH_FIXTURE 3 (fun cases => exists proofs, Forall2 hash_passes cases proofs /\ proofs_agree None proofs) /\
  recorded ANNOUNCE_FIXTURE 2 (Forall announce_passes) /\
  recorded ANNOUNCE_NEGATIVE_FIXTURE 8 (Forall negative_passes).

Lemma p0_recorded_ok {T} `{JC : FromJson (FixtureCasesFile T)} contents count message (body : list T -> outcome FixtureError unit) (ok : list T -> Prop) :
  (forall cases, body cases = Ok tt <-> ok cases) ->
  (fixture ← (parse_fixture_cases contents : outcome FixtureError (FixtureCasesFile T));
   _ ← guard_err (negb (len (fc_cases fixture) =? count)) message; body (fc_cases fixture)) = Ok tt <-> recorded contents count ok.
Proof.
  intros Hb. unfold recorded, parse_fixture_cases. rewrite bind_ok. split.
  - intros (f & Hf & H). apply parse_cases_ok in Hf as (H1 & H2 & H3 & H4). exists f. rewrite bind_ok_unit, guarded, negb_false_iff, Z.eqb_eq, Hb in H. by destruct H.
  - intros (f & H1 & H2 & H3 & H4 & H5 & H6). exists f. split; [by apply parse_cases_ok|]. by rewrite bind_ok_unit, guarded, negb_false_iff, Z.eqb_eq, Hb.
Qed.

Lemma p0_manifest_ok : validate_fixture_manifest = Ok tt <-> manifest_file PROFILE_0_PACKET_ANNOUNCE MANIFEST expected_manifest.
Proof. apply manifest_file_ok. apply (bool_decide_unpack _). vm_compute. exact I. Qed.
Lemma p0_identity_file_ok : validate_identity_fixture = Ok tt <-> identity_file.
Proof.
  unfold validate_identity_fixture, identity_file, parse_fixture_case, parse_fixture_case_for_profile. rewrite bind_ok. split.
  - intros (f & Hf & Hc). apply bind_ok in Hf as (g & Hg & H). rewrite map_err_ok in Hg. rewrite !bind_ok_unit, validate_schema_ok, validate_profile_ok, validate_provenance_ok in H. destruct H as (? & ? & ? & [= ->]).
    exists f. split_and!; [done..|]. by apply p0_identity_ok.
  - intros (f & H1 & H2 & H3 & H4 & H5). exists f. split; [|by apply p0_identity_ok]. apply bind_ok. exists f. split; [by apply map_err_ok|].
    by rewrite !bind_ok_unit, validate_schema_ok, validate_profile_ok, validate_provenance_ok.
Qed.
Lemma p0_destinations_ok cases :
  (counts ← destination_hash_loop 0 0 cases;
   let '(plain_cases, identity_bound_cases) := counts in
   guard_err (negb (plain_cases =? 3) || negb (identity_bound_cases =? 3)) (unexpected (str "case_mix") (str "destination hash fixture case mix mismatch"))) = Ok tt <->
  exists kinds, Forall2 destination_passes cases kinds /\ count_kind false kinds = 3 /\ count_kind true kinds = 3.
Proof.
  rewrite bind_ok. split.
  - intros (counts & (kinds & Hk & ->)%p0_destination_loop_ok & H). rewrite guarded, orb_false_iff, !negb_false_iff, !Z.eqb_eq in H. exists kinds. split; [|exact H].
    eapply list.Forall2_impl; [exact Hk|]. intros c k Hc. by apply p0_destination_ok.
  - intros (kinds & Hk & H1 & H2). exists (0 + count_kind false kinds, 0 + count_kind true kinds). split.
    + apply p0_destination_loop_ok. exists kinds. split; [|done]. eapply list.Forall2_impl; [exact Hk|]. intros c k Hc. by apply p0_destination_ok.
    + by rewrite H1, H2.
Qed.
Lemma p0_each_ok {T} (body : T -> outcome FixtureError unit) (ok : T -> Prop) : (forall case, body case = Ok tt <-> ok case) -> forall cases, for_each body cases = Ok tt <-> Forall ok cases.
Proof. intros Hb cases. rewrite p0_for_each_ok. rewrite !list.Forall_forall. by setoid_rewrite Hb. Qed.
Lemma p0_hashes_ok cases : packet_hash_loop None cases = Ok tt <-> exists proofs, Forall2 hash_passes cases proofs /\ proofs_agree None proofs.
Proof.
  rewrite p0_hash_loop_ok. split; intros (proofs & Hp & Ha); exists proofs; (split; [|done]); (eapply list.Forall2_impl; [exact Hp|]); intros c k Hc; by apply p0_hash_ok.
Qed.

Definition p0_passed_rows : list ConformanceResult :=
  [result_passed RESULT_ID_FIXTURE_MANIFEST CATEGORY_FIXTURE_MANIFEST; result_passed RESULT_ID_IDENTITY_SIGNATURE CATEGORY_IDENTITY_SIGNATURE;
   result_passed RESULT_ID_DESTINATION_HASH CATEGORY_DESTINATION_HASH; result_passed RESULT_ID_PACKET_HEADER CATEGORY_PACKET_HEADER;
   result_passed RESULT_ID_PACKET_HASH CATEGORY_PACKET_HASH; result_passed RESULT_ID_ANNOUNCE CATEGORY_ANNOUNCE;
   result_passed RESULT_ID_ANNOUNCE_NEGATIVE CATEGORY_ANNOUNCE_NEGATIVE].
Lemma p0_row_passed {E} id category m : fixture_result (E := E) id category m = Ok (result_passed id category) <-> m = Ok tt.
Proof. destruct m as [[]|e|]; by split. Qed.
End files.

(** ** Claims *)

(** C37. The rows of the fixtures are all passed exactly when the files record what this
    repository computes: the manifest lists the files with their checksums; the identity
    is the public identity, hash and signature of the recorded secret and message; the
    six destinations, three plain and three bound, are the hashes of their names and
    identities; the two headers are the parts of packets within the MTU; the three
    packet hashes are those of their packets, equal over different transports; the two
    announces are authentic; and the eight changed announces are refused with the
    errors they name. *)
Theorem profile_0_fixtures_exact `{P : RnsPrims, L : !RnsPrimsLaws P, F : Profile0Files, J1 : FromJson (FixtureFile IdentityCase), J2 : FromJson (FixtureCasesFile DestinationHashCase),
    J3 : FromJson (FixtureCasesFile PacketHeaderCase), J4 : FromJson (FixtureCasesFile PacketHashCase), J5 : FromJson (FixtureCasesFile AnnounceCase),
    J6 : FromJson (FixtureCasesFile AnnounceNegativeCase), JM : FromJson ManifestFile} {E : Type} :
  profile_0_fixture_results (E := E) = Ok p0_passed_rows <-> p0_fixtures_pass.
Proof.
  assert (profile_0_fixture_results (E := E) = Ok p0_passed_rows <->
    validate_fixture_manifest = Ok tt /\ validate_identity_fixture = Ok tt /\ validate_destination_hash_fixtures = Ok tt /\ validate_packet_header_fixtures = Ok tt /\
    validate_packet_hash_fixtures = Ok tt /\ validate_announce_fixtures = Ok tt /\ validate_announce_negative_fixtures = Ok tt) as ->.
  { unfold profile_0_fixture_results. split.
    - intros Hr. apply bind_ok in Hr as (r1 & H1 & H). apply bind_ok in H as (r2 & H2 & H). apply bind_ok in H as (r3 & H3 & H). apply bind_ok in H as (r4 & H4 & H).
      apply bind_ok in H as (r5 & H5 & H). apply bind_ok in H as (r6 & H6 & H). apply bind_ok in H as (r7 & H7 & H). injection H as -> -> -> -> -> -> ->.
      by apply p0_row_passed in H1, H2, H3, H4, H5, H6, H7.
    - intros (-> & -> & -> & -> & -> & -> & ->). reflexivity. }
  unfold p0_fixtures_pass. rewrite p0_manifest_ok, p0_identity_file_ok. apply and_iff_compat_l, and_iff_compat_l.
  unfold validate_destination_hash_fixtures, validate_packet_header_fixtures, validate_packet_hash_fixtures, validate_announce_fixtures, validate_announce_negative_fixtures.
  rewrite (p0_recorded_ok _ _ _ _ _ p0_destinations_ok), (p0_recorded_ok _ _ _ _ _ (p0_each_ok _ _ p0_header_ok)), (p0_recorded_ok _ _ _ _ _ p0_hashes_ok),
    (p0_recorded_ok _ _ _ _ _ (p0_each_ok _ _ p0_announce_ok)), (p0_recorded_ok _ _ _ _ _ (p0_each_ok _ _ p0_negative_ok)). done.
Qed.

(** The report has a row for every required result, and is clean never: the rows of the
    Python oracle say that their environment is missing. *)
Theorem profile_0_report_rows `{P : RnsPrims, F : Profile0Files, J1 : FromJson (FixtureFile IdentityCase), J2 : FromJson (FixtureCasesFile DestinationHashCase),
    J3 : FromJson (FixtureCasesFile PacketHeaderCase), J4 : FromJson (FixtureCasesFile PacketHashCase), J5 : FromJson (FixtureCasesFile AnnounceCase),
    J6 : FromJson (FixtureCasesFile AnnounceNegativeCase), JM : FromJson ManifestFile} {E : Type} run_id hyf_commit started_at environment report :
  profile_0_report (E := E) run_id hyf_commit started_at environment = Ok report ->
  (fun r => (cr_id r, cr_category r)) <$> run_results report = REQUIRED_PROFILE_0_RESULTS /\
  required_categories_are_present (run_results report) = true /\
  is_clean (summarize_results (run_results report)) = false.
Proof.
  unfold profile_0_report, profile_0_results, profile_0_fixture_results. intros (rows & H & [= <-])%bind_ok.
  apply bind_ok in H as (rows' & H & [= <-]).
  apply bind_ok in H as (r1 & H1%fixture_result_keys & H). apply bind_ok in H as (r2 & H2%fixture_result_keys & H). apply bind_ok in H as (r3 & H3%fixture_result_keys & H).
  apply bind_ok in H as (r4 & H4%fixture_result_keys & H). apply bind_ok in H as (r5 & H5%fixture_result_keys & H). apply bind_ok in H as (r6 & H6%fixture_result_keys & H).
  apply bind_ok in H as (r7 & H7%fixture_result_keys & [= <-]). cbn [run_results run_profile_0 new_profile app].
  match goal with |- fmap ?f ?l = _ /\ _ => assert (f <$> l = REQUIRED_PROFILE_0_RESULTS) as Hkeys by (cbn [fmap list_fmap]; by rewrite H1, H2, H3, H4, H5, H6, H7) end.
  split_and!.
  - exact Hkeys.
  - apply (f_equal (fmap snd)) in Hkeys. rewrite <- list_fmap_compose in Hkeys. unfold required_categories_are_present.
    apply forallb_forall. intros c Hc. apply bool_decide_eq_true, elem_of_list_to_set. rewrite <- list_elem_of_In in Hc.
    by replace (fmap cr_category _) with REQUIRED_PROFILE_0_RESULT_CATEGORIES by (symmetry; exact Hkeys).
  - apply not_clean. do 7 apply Exists_cons_tl. by apply Exists_cons_hd.
Qed.

(** ** Witnesses *)
(** Files that record what the model computes with the primitives of [toy_prims]: read
    as these cases, whatever their text. *)
Definition p0_file {T} (cases : list T) : FixtureCasesFile T :=
  mk_cases_file EXPECTED_FIXTURE_CASES_SCHEMA PROFILE_0_PACKET_ANNOUNCE (mk_provenance EXPECTED_RETICULUM_REPO EXPECTED_RETICULUM_COMMIT) cases.
Definition p0_id (category : string) : list Z := str "profile_0_packet_announce." ++ str category ++ str ".synthetic.0001".
Definition p0_packet (transport_id : option (list Z)) : RnsPacketRef :=
  mk_rns_packet (mk_flags (if transport_id is Some _ then Header2 else Header1) false Broadcast Plain Data) 3 transport_id (replicate 16 5) 0 [1; 2; 3].

Definition p0_identity : IdentityCase :=
  let secret := sample_secret in
  mk_ic (p0_id "identity_signature") CATEGORY_IDENTITY_SIGNATURE true true (mk_ii (hex_bytes (secret_bytes secret)) (hex_bytes [104; 105]))
    (mk_ie (hex_bytes (public_bytes (public_of (H := toy_prims) secret))) (hex_bytes (take 16 (sha256 (RnsPrims := toy_prims) (public_bytes (public_of (H := toy_prims) secret)))))
       (hex_bytes (ed25519_sign (RnsPrims := toy_prims) (si_ed25519_secret secret) [104; 105]))).
Definition p0_destination (identity : option (list Z)) : DestinationHashCase :=
  let name := name_hash_of (P := toy_prims) (str "hyf") [str "announce"] in
  mk_dc (p0_id "destination_hash") CATEGORY_DESTINATION_HASH true false (mk_di (str "hyf") [str "announce"] (hex_bytes <$> identity))
    (mk_de (str "hyf.announce") (hex_bytes name) (hex_bytes (take 16 (sha256 (RnsPrims := toy_prims) (name ++ default [] identity))))).
Definition p0_header (p : RnsPacketRef) : PacketHeaderCase :=
  mk_phc (p0_id "packet_header") CATEGORY_PACKET_HEADER true false (mk_phi (str "synthetic Reticulum Packet.pack() header vector")) (header_of p).
Definition p0_hash (p : RnsPacketRef) : PacketHashCase :=
  mk_pkc (p0_id "packet_hash") CATEGORY_PACKET_HASH true false (mk_pki (str "synthetic Reticulum Packet hash vector")) (hashes_of (P := toy_prims) p (rp_transport_id p)).
Definition p0_announce : AnnounceCase :=
  let expected := announce_of sample_announce_packet sample_announce in
  mk_ac (p0_id "announce") CATEGORY_ANNOUNCE true true (announce_inputs expected) expected.
Definition p0_negative : AnnounceNegativeCase :=
  let p := sample_announce_packet in
  mk_nc (p0_id "announce_negative") CATEGORY_ANNOUNCE_NEGATIVE true true (str "destination") (str "DestinationMismatch")
    (hex_bytes (packet_bytes (mk_rns_packet (rp_flags p) (rp_hops p) None (replicate 16 0) (rp_context p) (rp_data p)))).

#[local] Instance p0_files : Profile0Files := {|
  IDENTITY_FIXTURE := str "identity"; DESTINATION_HASH_FIXTURE := str "destination"; PACKET_HEADER_FIXTURE := str "header";
  PACKET_HASH_FIXTURE := str "hash"; ANNOUNCE_FIXTURE := str "announce"; ANNOUNCE_NEGATIVE_FIXTURE := str "negative"; MANIFEST := str "manifest";
|}.
#[local] Instance p0_identities : FromJson (FixtureFile IdentityCase) := fun _ =>
  Ok (mk_fixture_file EXPECTED_FIXTURE_SCHEMA PROFILE_0_PACKET_ANNOUNCE (mk_provenance EXPECTED_RETICULUM_REPO EXPECTED_RETICULUM_COMMIT) p0_identity).
#[local] Instance p0_destinations : FromJson (FixtureCasesFile DestinationHashCase) := fun _ =>
  Ok (p0_file (replicate 3 (p0_destination None) ++ replicate 3 (p0_destination (Some (replicate 16 9))))).
#[local] Instance p0_headers : FromJson (FixtureCasesFile PacketHeaderCase) := fun _ =>
  Ok (p0_file [p0_header (p0_packet None); p0_header (p0_packet (Some (replicate 16 6)))]).
#[local] Instance p0_hashes : FromJson (FixtureCasesFile PacketHashCase) := fun _ =>
  Ok (p0_file [p0_hash (p0_packet None); p0_hash (p0_packet (Some (replicate 16 6))); p0_hash (p0_packet (Some (replicate 16 7)))]).
#[local] Instance p0_announces : FromJson (FixtureCasesFile AnnounceCase) := fun _ => Ok (p0_file [p0_announce; p0_announce]).
#[local] Instance p0_negatives : FromJson (FixtureCasesFile AnnounceNegativeCase) := fun _ => Ok (p0_file (replicate 8 p0_negative)).
#[local] Instance p0_manifest : FromJson ManifestFile := fun _ =>
  Ok (mk_manifest_file EXPECTED_MANIFEST_SCHEMA PROFILE_0_PACKET_ANNOUNCE (mk_provenance EXPECTED_RETICULUM_REPO EXPECTED_RETICULUM_COMMIT) (str "x") (str "y")
    (map (@entry_of toy_prims) expected_manifest)).

Example p0_sample_rows : profile_0_fixture_results (H := toy_prims) (E := FixtureError) = Ok p0_passed_rows.
Proof. vm_compute. reflexivity. Qed.

Lemma profile_0_fixtures_exact_witness : p0_fixtures_pass (P := toy_prims).
Proof. apply (profile_0_fixtures_exact (P := toy_prims) (L := toy_prims_laws) (E := FixtureError)). exact p0_sample_rows. Defined.

Lemma profile_0_report_rows_witness :
  exists report, profile_0_report (H := toy_prims) (E := FixtureError) (str "run") (str "commit") (str "now") (ConformanceEnvironment_new (str "linux") (str "x86_64") (str "stable")) = Ok report /\
    required_categories_are_present (run_results report) = true.
Proof.
  eexists. assert (profile_0_report (H := toy_prims) (E := FixtureError) (str "run") (str "commit") (str "now") (ConformanceEnvironment_new (str "linux") (str "x86_64") (str "stable")) =
    Ok (run_profile_0 (str "run") (str "commit") (str "now") (ConformanceEnvironment_new (str "linux") (str "x86_64") (str "stable")) (p0_passed_rows ++ profile_0_oracle_unavailable_results))) as H
    by (unfold profile_0_report, profile_0_results; rewrite p0_sample_rows; reflexivity).
  split; [exact H|]. exact (proj1 (proj2 (profile_0_report_rows (P := toy_prims) _ _ _ _ _ H))).
Defined.
