(* ===== verification/Host.v ===== *)
(** The parts of the standard library that the Python oracle and the command line of
    the conformance reports use of the host: [String::from_utf8_lossy], the functions of
    [std::path::Path] on Unix, and, as the parameters of the class [Host], the file system,
    the environment and [std::process::Command].

    A path is its bytes; the host answers each question the same way throughout a run. *)
From stdpp Require Import strings.
From S2P Require Import Kiss RNode RnsWire RnsCrypto Prelude Utf8 Cursor NostrHex NostrJson NostrParser Text Display ErrorText Fixtures ConfReport.

Open Scope Z_scope.

(** ** [String::from_utf8_lossy] *)
(** U+FFFD *)
Definition REPLACEMENT_CHARACTER : list Z := [0xEF; 0xBF; 0xBD].
(** Each longest part that could begin a character and does not is replaced. *)
Fixpoint from_utf8_lossy (l : list Z) : list Z :=
  match l with
  | [] => []
  | b0 :: r0 =>
      if b0 <? 0x80 then b0 :: from_utf8_lossy r0
      else if in_range 0xC2 0xDF b0 then
        match r0 with
        | b1 :: r1 => if is_continuation b1 then b0 :: b1 :: from_utf8_lossy r1 else REPLACEMENT_CHARACTER ++ from_utf8_lossy r0
        | [] => REPLACEMENT_CHARACTER
        end
      else if in_range 0xE0 0xEF b0 then
        match r0 with
        | b1 :: r1 =>
            if second_of_three b0 b1 then
              match r1 with
              | b2 :: r2 => if is_continuation b2 then b0 :: b1 :: b2 :: from_utf8_lossy r2 else REPLACEMENT_CHARACTER ++ from_utf8_lossy r1
              | [] => REPLACEMENT_CHARACTER
              end
            else REPLACEMENT_CHARACTER ++ from_utf8_lossy r0
        | [] => REPLACEMENT_CHARACTER
        end
      else if in_range 0xF0 0xF4 b0 then
        match r0 with
        | b1 :: r1 =>
            if second_of_four b0 b1 then
              match r1 with
              | b2 :: r2 =>
                  if is_continuation b2 then
                    match r2 with
                    | b3 :: r3 => if is_continuation b3 then b0 :: b1 :: b2 :: b3 :: from_utf8_lossy r3 else REPLACEMENT_CHARACTER ++ from_utf8_lossy r2
                    | [] => REPLACEMENT_CHARACTER
                    end
                  else REPLACEMENT_CHARACTER ++ from_utf8_lossy r1
              | [] => REPLACEMENT_CHARACTER
              end
            else REPLACEMENT_CHARACTER ++ from_utf8_lossy r0
        | [] => REPLACEMENT_CHARACTER
        end
      else REPLACEMENT_CHARACTER ++ from_utf8_lossy r0
  end.

(** ** [std::path::Path] *)
Definition is_absolute (path : list Z) : bool := bool_decide (list.head path = Some 47).
(** [Path::join] *)
Definition join_path (base path : list Z) : list Z := if is_absolute path then path else join_file base path.

(** The parts between the separators after the root, and whether there is a root. *)
Definition path_body (path : list Z) : bool * list (list Z) := if is_absolute path then (true, split 47 (drop 1 path)) else (false, split 47 path).
Definition trivial_part (part : list Z) : bool := bool_decide (part = [] \/ part = [46]).
(** The parts from the end, without those that are no components: a [.] in front of a
    relative path is one. *)
Fixpoint trim_back (absolute : bool) (parts : list (list Z)) : list (list Z) :=
  match parts with
  | [] => []
  | [part] => if bool_decide (part = [] \/ absolute = true /\ part = [46]) then [] else [part]
  | part :: parts' => if trivial_part part then trim_back absolute parts' else parts
  end.
Definition from_body (absolute : bool) (parts : list (list Z)) : list Z := (if absolute then [47] else []) ++ join 47 parts.
(** [Path::parent] *)
Definition path_parent (path : list Z) : option (list Z) :=
  let '(absolute, parts) := path_body path in
  match trim_back absolute (rev parts) with
  | [] => None
  | _ :: parts => Some (from_body absolute (rev (trim_back absolute parts)))
  end.

(** The names of an absolute path: [components] after the root, of a canonical path. *)
Definition path_names (path : list Z) : list (list Z) := filter (fun part => trivial_part part = false) (snd (path_body path)).
(** [Path::starts_with], of absolute paths. *)
Definition path_starts_with (path base : list Z) : bool := bool_decide (take (length (path_names base)) (path_names path) = path_names base).
(** [Path::strip_prefix], of canonical paths: absolute, and without parts that are no
    components. *)
Definition strip_prefix (path base : list Z) : option (list Z) :=
  if path_starts_with path base then Some (join 47 (drop (length (path_names base)) (path_names path))) else None.

(** ** The host *)
Record Output := mk_output { output_success : bool; output_stdout : list Z; output_stderr : list Z }.
(** The result of a call of the host; its error is its text. *)
Definition host (A : Type) : Type := list Z + A.
Definition of_host {A} (r : host A) : outcome (list Z) A := match r with inl error => Err error | inr a => Ok a end.
Class Host := {
  (** [Command::new(program).args(args).env(..).output()] *)
  command_output : list Z -> list (list Z) -> list (list Z * list Z) -> host Output;
  (** [Path::is_dir] *)
  is_dir : list Z -> bool;
  current_dir : host (list Z);
  canonicalize : list Z -> host (list Z);
  (** [std::env::var_os] *)
  env_var : list Z -> option (list Z);
  (** [fs::read] *)
  read_file : list Z -> host (list Z);
  (** The compile-time variable [CARGO_MANIFEST_DIR], [std::env::consts::OS] and [ARCH]. *)
  CARGO_MANIFEST_DIR : list Z;
  OS : list Z;
  ARCH : list Z;
}.

(** [serde_json::to_string] and [to_vec_pretty] of a type that derives [Serialize]. *)
Class ToJson (A : Type) := { to_string : A -> outcome (list Z) (list Z); to_vec_pretty : A -> outcome (list Z) (list Z) }.

Lemma of_host_ok {A} (r : host A) a : of_host r = Ok a <-> r = inr a.
Proof. destruct r; cbn; split; congruence. Qed.

(** ** Lemmas: lossy conversion *)
Lemma lossy_encode c rest : scalar_ok c -> from_utf8_lossy (encode_utf8 c ++ rest) = encode_utf8 c ++ from_utf8_lossy rest.
Proof.
  intros H. unfold encode_utf8, scalar_ok in *. utf8_digits c.
  destruct (Z.ltb_spec c 128); [|destruct (Z.ltb_spec c 2048); [|destruct (Z.ltb_spec c 65536)]];
    cbn [app from_utf8_lossy];
    match goal with |- context [?x <? 128] => destruct (Z.ltb_spec x 128); [try lia; try done|] end; try lia;
    unfold second_of_three, second_of_four, is_continuation; in_range_decide; done.
Qed.
(** A text is unchanged. *)
Lemma lossy_valid l : bytes_ok l -> utf8_ok l = true -> from_utf8_lossy l = l.
Proof.
  intros Hb (cs & Hcs & ->)%utf8_ok_spec; [|done]. clear Hb. induction Hcs as [|c cs Hc _ IH]; [done|]. cbn [map concat]. by rewrite lossy_encode, IH.
Qed.

(** [l] decodes, and stays so after any part that decodes. *)
Definition decodes (l : list Z) : Prop := is_Some (utf8_decode l).
Lemma replaced_decodes l : decodes l -> decodes (REPLACEMENT_CHARACTER ++ l).
Proof. intros [cs H]. exists (0xFFFD :: cs). change REPLACEMENT_CHARACTER with (encode_utf8 0xFFFD). rewrite utf8_decode_encode by (unfold scalar_ok; lia). by rewrite H. Qed.
Lemma lossy_decodes l : decodes (from_utf8_lossy l).
Proof.
  assert (decodes REPLACEMENT_CHARACTER) as HR by (exists [0xFFFD]; reflexivity).
  remember (length l) as n eqn:Hn. revert l Hn. induction (lt_wf n) as [n _ IH]. intros l ->.
  assert (forall k, (length k < length l)%nat -> decodes (from_utf8_lossy k)) as Hk by (intros k Hk; by apply (IH (length k))). clear IH.
  destruct l as [|b0 r0]; [by exists []|]. cbn [from_utf8_lossy]. cbn [length] in Hk.
  destruct (Z.ltb_spec b0 128) as [H0|H0].
  { destruct (Hk r0 ltac:(lia)) as [cs E]. exists (b0 :: cs). cbn [utf8_decode]. destruct (Z.ltb_spec b0 128); [|lia]. by rewrite E. }
  destruct (in_range 194 223 b0) eqn:H2.
  { destruct r0 as [|b1 r1]; [done|]. destruct (is_continuation b1) eqn:Hc; [|apply replaced_decodes, Hk; lia]. cbn [length] in Hk.
    destruct (Hk r1 ltac:(lia)) as [cs E]. eexists. cbn [utf8_decode]. destruct (Z.ltb_spec b0 128); [lia|]. by rewrite H2, Hc, E. }
  destruct (in_range 224 239 b0) eqn:H3.
  { destruct r0 as [|b1 r1]; [done|]. destruct (second_of_three b0 b1) eqn:Hs; [|apply replaced_decodes, Hk; lia]. cbn [length] in Hk.
    destruct r1 as [|b2 r2]; [done|]. destruct (is_continuation b2) eqn:Hc; [|apply replaced_decodes, Hk; lia]. cbn [length] in Hk.
    destruct (Hk r2 ltac:(lia)) as [cs E]. eexists. cbn [utf8_decode]. destruct (Z.ltb_spec b0 128); [lia|]. by rewrite H2, H3, Hs, Hc, E. }
  destruct (in_range 240 244 b0) eqn:H4; [|apply replaced_decodes, Hk; lia].
  destruct r0 as [|b1 r1]; [done|]. destruct (second_of_four b0 b1) eqn:Hs; [|apply replaced_decodes, Hk; lia]. cbn [length] in Hk.
  destruct r1 as [|b2 r2]; [done|]. destruct (is_continuation b2) eqn:Hc; [|apply replaced_decodes, Hk; lia]. cbn [length] in Hk.
  destruct r2 as [|b3 r3]; [done|]. destruct (is_continuation b3) eqn:Hd; [|apply replaced_decodes, Hk; lia]. cbn [length] in Hk.
  destruct (Hk r3 ltac:(lia)) as [cs E]. eexists. cbn [utf8_decode]. destruct (Z.ltb_spec b0 128); [lia|]. by rewrite H2, H3, Hs, Hc, Hd, E.
Qed.

(** ** Lemmas: paths *)
(** A name of a canonical path, and the path of such names. *)
Definition name_ok (name : list Z) : Prop := trivial_part name = false /\ 47 ∉ name.
Definition canonical (names : list (list Z)) : list Z := from_body true names.

Lemma path_names_canonical names : Forall name_ok names -> path_names (canonical names) = names.
Proof.
  intros Hn. unfold path_names, path_body, canonical, from_body. cbn [app]. unfold is_absolute. rewrite bool_decide_eq_true_2 by done. cbn [snd].
  change (drop 1 (47 :: join 47 names)) with (join 47 names). destruct (decide (names = [])) as [->|Hne]; [reflexivity|].
  rewrite split_join; [|done|eapply list.Forall_impl; [exact Hn|]; by intros ? []].
  induction Hn as [|n names [Hn _] _ IH]; [done|]. rewrite filter_cons_True by done. f_equal. destruct names; [done|]. by apply IH.
Qed.
(** [strip_prefix] finds what a canonical path has after another. *)
Lemma strip_prefix_canonical base rest : Forall name_ok (base ++ rest) -> strip_prefix (canonical (base ++ rest)) (canonical base) = Some (join 47 rest).
Proof.
  intros Hn. unfold strip_prefix, path_starts_with. assert (Forall name_ok base) as Hb by (by apply list.Forall_app in Hn as [? _]).
  rewrite !path_names_canonical by done. rewrite bool_decide_eq_true_2 by apply take_app_length. by rewrite drop_app_length.
Qed.
Lemma strip_prefix_some path base rel : strip_prefix path base = Some rel <->
  exists rest, path_names path = path_names base ++ rest /\ rel = join 47 rest.
Proof.
  unfold strip_prefix, path_starts_with. case_bool_decide as H; split.
  - intros [= <-]. exists (drop (length (path_names base)) (path_names path)). split; [|done]. rewrite <- (take_drop (length (path_names base)) (path_names path)) at 1. by rewrite H.
  - intros (rest & E & ->). rewrite E. by rewrite drop_app_length.
  - done.
  - intros (rest & E & _). destruct H. rewrite E. apply take_app_length.
Qed.

Example path_parent_examples :
  path_parent (str "/opt/rns/RNS/__init__.py") = Some (str "/opt/rns/RNS") /\ path_parent (str "/opt//rns/./") = Some (str "/opt") /\
  path_parent (str "/opt") = Some (str "/") /\ path_parent (str "/") = None /\ path_parent (str "RNS") = Some [] /\ path_parent [] = None /\
  path_parent (str "./a") = Some (str ".") /\ path_parent (str ".") = Some [].
Proof. vm_compute. done. Qed.
Example lossy_examples :
  from_utf8_lossy [104; 0xFF; 105] = [104] ++ REPLACEMENT_CHARACTER ++ [105] /\ from_utf8_lossy [0xE2; 0x82] = REPLACEMENT_CHARACTER /\
  from_utf8_lossy [0xE0; 0x80; 65] = REPLACEMENT_CHARACTER ++ REPLACEMENT_CHARACTER ++ [65].
Proof. vm_compute. done. Qed.
