(* ===== verification/Oracle.v ===== *)
(** The Python oracle of the profile of packets and announces: the check of its
    environment ([hyf_rns_conformance], src/crates/hyf_rns_conformance/src/lib.rs) and the
    run of the oracle (the parts of src/crates/hyf_rns_conformance/src/profile0.rs that the
    feature [python_oracle] turns on).

    Commands and the file system are the parameters of [Host], JSON is [FromJson] and
    [ToJson].  The claims say when the environment is ready, what the oracle is asked -
    two packets that decode to known parts, the hash of the second, and an announce that
    this repository accepts - and which answers make its rows pass. *)
From stdpp Require Import gmap strings.
From S2P Require Import Kiss RNode RnsWire RnsCrypto RnsAnnounce Prelude Utf8 Cursor NostrHex NostrJson NostrParser Text Display ErrorText Fixtures ConfReport Captures Profile0 Host.

Open Scope Z_scope.

(** ** Environment *)
Definition PINNED_RETICULUM_COMMIT : list Z := str "422dc05549bf28f45e9b9c5172336a1ba4df0ec0".
Definition PINNED_CRYPTOGRAPHY_VERSION : list Z := str "49.0.0".
Definition PINNED_PYSERIAL_VERSION : list Z := str "3.5".
Definition PINNED_CRYPTOGRAPHY_PACKAGE : list Z := str "cryptography==49.0.0".
Definition PINNED_PYSERIAL_PACKAGE : list Z := str "pyserial==3.5".

Inductive OracleStatus := OraclePassed | OracleInvalid.
#[export] Instance OracleStatus_eq_dec : EqDecision OracleStatus.
Proof. solve_decision. Defined.
Inductive OracleInvalidEnvironment :=
| MissingReticulumPath
| ReticulumPathNotDirectory
| OracleCommandUnavailable
| OracleProbeFailed
| OracleModulePathMismatch
| ReticulumCommitMismatch
| ReticulumWorktreeDirty
| ReticulumWorktreeStatusUnavailable
| OraclePackageVersionMismatch.
#[export] Instance OracleInvalidEnvironment_eq_dec : EqDecision OracleInvalidEnvironment.
Proof. solve_decision. Defined.
Definition invalid_environment_text (e : OracleInvalidEnvironment) : list Z :=
  match e with
  | MissingReticulumPath => str "missing Reticulum path"
  | ReticulumPathNotDirectory => str "Reticulum path is not a directory"
  | OracleCommandUnavailable => str "oracle command unavailable"
  | OracleProbeFailed => str "oracle probe failed"
  | OracleModulePathMismatch => str "oracle module path mismatch"
  | ReticulumCommitMismatch => str "Reticulum commit mismatch"
  | ReticulumWorktreeDirty => str "Reticulum tracked or untracked worktree is dirty"
  | ReticulumWorktreeStatusUnavailable => str "Reticulum worktree status unavailable"
  | OraclePackageVersionMismatch => str "oracle package version mismatch"
  end.

Record OracleEnvironmentMetadata := mk_metadata {
  em_reticulum_module_path : list Z;
  em_reticulum_commit : list Z;
  em_rns_version : option (list Z);
  em_cryptography_version : list Z;
  em_pyserial_version : list Z;
}.
(** [OracleEnvironment::from] *)
Definition oracle_environment_from (metadata : OracleEnvironmentMetadata) : OracleEnvironment :=
  let oracle := OracleEnvironment_new (em_reticulum_module_path metadata) (em_reticulum_commit metadata) (em_cryptography_version metadata) (em_pyserial_version metadata) in
  match em_rns_version metadata with Some rns_version => with_rns_version oracle rns_version | None => oracle end.

Record OracleReadiness := mk_readiness { rd_status : OracleStatus; rd_reason : option OracleInvalidEnvironment; rd_metadata : option OracleEnvironmentMetadata }.
Definition readiness_passed (metadata : OracleEnvironmentMetadata) : OracleReadiness := mk_readiness OraclePassed None (Some metadata).
Definition readiness_invalid (reason : OracleInvalidEnvironment) : OracleReadiness := mk_readiness OracleInvalid (Some reason) None.

Record OracleProbeOutput := mk_probe { op_cryptography : list Z; op_module : list Z; op_pyserial : list Z; op_rns_version : option (list Z); op_status : list Z }.
Record OracleProbeMetadata := mk_probe_metadata { pm_reticulum_module_path : list Z; pm_rns_version : option (list Z); pm_cryptography_version : list Z; pm_pyserial_version : list Z }.
Definition with_reticulum_commit (m : OracleProbeMetadata) (reticulum_commit : list Z) : OracleEnvironmentMetadata :=
  mk_metadata (pm_reticulum_module_path m) reticulum_commit (pm_rns_version m) (pm_cryptography_version m) (pm_pyserial_version m).

(** A literal that has quotation marks, with apostrophes for them. *)
Definition quoted (s : string) : list Z := (fun b => if b =? 39 then 34 else b) <$> str s.
Definition ORACLE_READINESS_SCRIPT : list Z := quoted "
import json

import RNS
import cryptography
import serial

print(json.dumps({
    'cryptography': cryptography.__version__,
    'module': RNS.__file__,
    'pyserial': serial.VERSION,
    'rns_version': getattr(RNS, '__version__', None),
    'status': 'passed',
}, sort_keys=True))
".
(** [uv run --with .. --with .. python -c script] *)
Definition uv_args (script : list Z) : list (list Z) :=
  [str "run"; str "--with"; PINNED_CRYPTOGRAPHY_PACKAGE; str "--with"; PINNED_PYSERIAL_PACKAGE; str "python"; str "-c"; script].
Definition git_args (path : list Z) (args : list (list Z)) : list (list Z) := [str "-C"; path] ++ args.

Definition reticulum_commit_from_output (stdout : list Z) : option (list Z) :=
  let commit := trim (from_utf8_lossy stdout) in
  if reticulum_commit_is_valid commit then Some commit else None.

Section environment.
Context `{Host, FromJson OracleProbeOutput}.

Definition resolve_reticulum_path (reticulum_path : list Z) : option (list Z) :=
  if is_dir reticulum_path then Some reticulum_path
  else if is_absolute reticulum_path then None
  else
    let from_workspace_root := join_path (join_path CARGO_MANIFEST_DIR (str "../..")) reticulum_path in
    let last := if is_dir from_workspace_root then Some from_workspace_root else None in
    match current_dir with
    | inr current_dir =>
        let path := join_path current_dir reticulum_path in
        if is_dir path then Some path else last
    | inl _ => last
    end.

Definition module_path_is_under_reticulum_path (module_path reticulum_path : list Z) : bool :=
  match canonicalize module_path, canonicalize reticulum_path with
  | inr module_path, inr reticulum_path => path_starts_with module_path reticulum_path
  | _, _ => false
  end.

Definition validate_oracle_probe_output (stdout reticulum_path : list Z) : outcome OracleInvalidEnvironment OracleProbeMetadata :=
  probe ← map_err (fun _ => OracleProbeFailed) (from_str stdout);
  if negb (bool_decide (op_status probe = str "passed")) then Err OracleProbeFailed
  else if (len (op_cryptography probe) =? 0) || (len (op_pyserial probe) =? 0) || bool_decide (op_rns_version probe = Some []) then Err OracleProbeFailed
  else if negb (bool_decide (op_cryptography probe = PINNED_CRYPTOGRAPHY_VERSION)) || negb (bool_decide (op_pyserial probe = PINNED_PYSERIAL_VERSION))
  then Err OraclePackageVersionMismatch
  else if negb (module_path_is_under_reticulum_path (op_module probe) reticulum_path) then Err OracleModulePathMismatch
  else Ok (mk_probe_metadata (op_module probe) (op_rns_version probe) (op_cryptography probe) (op_pyserial probe)).

(** The output of a command that succeeded. *)
Definition git_success (reticulum_path : list Z) (args : list (list Z)) : option (list Z) :=
  match command_output (str "git") (git_args reticulum_path args) [] with
  | inr output => if output_success output then Some (output_stdout output) else None
  | inl _ => None
  end.
Definition reticulum_commit (reticulum_path : list Z) : option (list Z) :=
  git_success reticulum_path [str "rev-parse"; str "HEAD"] ≫= reticulum_commit_from_output.
Definition reticulum_worktree_is_clean (reticulum_path : list Z) : option bool :=
  (fun stdout => len stdout =? 0) <$> git_success reticulum_path [str "status"; str "--porcelain"; str "--untracked-files=all"].

Definition validate_reticulum_git_state_with_expected (reticulum_path expected_commit : list Z) : outcome OracleInvalidEnvironment (list Z) :=
  match reticulum_commit reticulum_path with
  | None => Err ReticulumCommitMismatch
  | Some reticulum_commit =>
      if negb (bool_decide (reticulum_commit = expected_commit)) then Err ReticulumCommitMismatch
      else
        match reticulum_worktree_is_clean reticulum_path with
        | None => Err ReticulumWorktreeStatusUnavailable
        | Some reticulum_worktree_is_clean => if negb reticulum_worktree_is_clean then Err ReticulumWorktreeDirty else Ok reticulum_commit
        end
  end.
Definition validate_reticulum_git_state (reticulum_path : list Z) : outcome OracleInvalidEnvironment (list Z) :=
  validate_reticulum_git_state_with_expected reticulum_path PINNED_RETICULUM_COMMIT.

(** [match m { Ok(a) => k, Err(reason) => return invalid_environment(reason) }] *)
Definition or_invalid {E A} (m : outcome OracleInvalidEnvironment A) (k : A -> outcome E OracleReadiness) : outcome E OracleReadiness :=
  match m with Ok a => k a | Err reason => Ok (readiness_invalid reason) | Panic => Panic end.

Definition check_oracle_environment_with_command {E} (reticulum_path : option (list Z)) (uv_command : list Z) : outcome E OracleReadiness :=
  match reticulum_path with
  | None => Ok (readiness_invalid MissingReticulumPath)
  | Some reticulum_path =>
      match resolve_reticulum_path reticulum_path with
      | None => Ok (readiness_invalid ReticulumPathNotDirectory)
      | Some reticulum_path =>
          match command_output uv_command (uv_args ORACLE_READINESS_SCRIPT) [(str "PYTHONPATH", reticulum_path)] with
          | inl _ => Ok (readiness_invalid OracleCommandUnavailable)
          | inr output =>
              if negb (output_success output) then Ok (readiness_invalid OracleProbeFailed)
              else
                or_invalid (validate_oracle_probe_output (output_stdout output) reticulum_path) (fun probe_metadata =>
                or_invalid (validate_reticulum_git_state reticulum_path) (fun reticulum_commit =>
                Ok (readiness_passed (with_reticulum_commit probe_metadata reticulum_commit))))
          end
      end
  end.
Definition check_oracle_environment {E} (reticulum_path : option (list Z)) : outcome E OracleReadiness :=
  check_oracle_environment_with_command reticulum_path (str "uv").
Definition check_oracle_environment_from_env {E} : outcome E OracleReadiness :=
  match env_var (str "HYF_RETICULUM_PATH") with
  | None => Ok (readiness_invalid MissingReticulumPath)
  | Some path => check_oracle_environment (Some path)
  end.
End environment.

(** ** The run of the oracle *)
Inductive Profile0OracleError :=
| OracleInvalidEnv (reason : option OracleInvalidEnvironment)
| MissingOracleMetadata
| OracleIo (error : list Z)
| OracleJson (error : list Z)
| OracleFailed (stderr : list Z)
| OracleCrypto (error : RnsCryptoError)
| OracleWire (error : RnsWireError).
Definition oracle_error_text (e : Profile0OracleError) : list Z :=
  match e with
  | OracleInvalidEnv (Some reason) => str "invalid oracle environment: " ++ invalid_environment_text reason
  | OracleInvalidEnv None => str "invalid oracle environment"
  | MissingOracleMetadata => str "missing oracle metadata"
  | OracleIo error | OracleJson error | OracleFailed error => error
  | OracleCrypto error => text (fmt_RnsCryptoError error)
  | OracleWire error => text (fmt_RnsWireError error)
  end.

Record OracleRequest := mk_request {
  rq_header_1_packet : list Z;
  rq_header_2_packet : list Z;
  rq_hash_packet : list Z;
  rq_expected_full_hash : list Z;
  rq_expected_truncated_hash : list Z;
  rq_announce_packet : list Z;
}.
Record OraclePacket := mk_oracle_packet { op_unpack_ok : bool; op_header_type : Z; op_transport_id : option (list Z); op_destination_hash : list Z; op_context : Z; op_data : list Z }.
Record OracleResponse := mk_response { rs_header_1 : OraclePacket; rs_header_2 : OraclePacket; rs_announce_valid : bool }.

(** The function writes the digits that [hex_bytes] does. *)
Definition hex (bytes : list Z) : list Z := hex_bytes bytes.

Record FixedRng := mk_fixed { fx_bytes : list Z; fx_offset : Z }.
Definition FixedRng_new (bytes : list Z) : FixedRng := mk_fixed bytes 0.
(** The index is below the length. *)
Definition next_byte (rng : FixedRng) : Z * FixedRng :=
  (nth (Z.to_nat (fx_offset rng mod len (fx_bytes rng))) (fx_bytes rng) 0, mk_fixed (fx_bytes rng) (fx_offset rng + 1)).
Fixpoint fill_fixed (n : nat) (rng : FixedRng) : list Z * FixedRng :=
  match n with
  | O => ([], rng)
  | S n => let '(byte, rng) := next_byte rng in let '(bytes, rng) := fill_fixed n rng in (byte :: bytes, rng)
  end.
#[export] Instance fixed_rng : Rng FixedRng := fun rng n => let '(bytes, rng) := fill_fixed (Z.to_nat n) rng in (Some bytes, rng).

Definition TEST_SECRET_IDENTITY : list Z :=
  [0x00; 0x01; 0x02; 0x03; 0x04; 0x05; 0x06; 0x07; 0x08; 0x09; 0x0a; 0x0b; 0x0c; 0x0d; 0x0e; 0x0f;
   0x10; 0x11; 0x12; 0x13; 0x14; 0x15; 0x16; 0x17; 0x18; 0x19; 0x1a; 0x1b; 0x1c; 0x1d; 0x1e; 0x1f;
   0x20; 0x21; 0x22; 0x23; 0x24; 0x25; 0x26; 0x27; 0x28; 0x29; 0x2a; 0x2b; 0x2c; 0x2d; 0x2e; 0x2f;
   0x30; 0x31; 0x32; 0x33; 0x34; 0x35; 0x36; 0x37; 0x38; 0x39; 0x3a; 0x3b; 0x3c; 0x3d; 0x3e; 0x3f].
Definition RNS_CONTEXT_PATH_RESPONSE : Z := 0x0b.

Definition PYTHON_ORACLE_SCRIPT : list Z := quoted "
import json
import sys

import RNS

request = json.loads(sys.argv[1])

def packet_info(raw_hex):
    packet = RNS.Packet(None, bytes.fromhex(raw_hex))
    unpack_ok = packet.unpack()
    return {
        'unpack_ok': unpack_ok,
        'header_type': packet.header_type,
        'transport_id': None if packet.transport_id is None else packet.transport_id.hex(),
        'destination_hash': packet.destination_hash.hex(),
        'context': packet.context,
        'data': packet.data.hex(),
    }

hash_packet = RNS.Packet(None, bytes.fromhex(request['hash_packet']))
if not hash_packet.unpack():
    raise RuntimeError('hash packet did not unpack')

announce_packet = RNS.Packet(None, bytes.fromhex(request['announce_packet']))
if not announce_packet.unpack():
    raise RuntimeError('announce packet did not unpack')

response = {
    'header_1': packet_info(request['header_1_packet']),
    'header_2': packet_info(request['header_2_packet']),
    'full_hash': hash_packet.get_hash().hex(),
    'truncated_hash': hash_packet.getTruncatedHash().hex(),
    'announce_valid': RNS.Identity.validate_announce(announce_packet, only_validate_signature=False),
}

if response['full_hash'] != request['expected_full_hash']:
    raise RuntimeError('full hash mismatch')
if response['truncated_hash'] != request['expected_truncated_hash']:
    raise RuntimeError('truncated hash mismatch')

print(json.dumps(response, sort_keys=True))
".

(** The packets the oracle is asked about. *)
Definition oracle_packet_1 : RnsPacketRef :=
  mk_rns_packet (mk_flags Header1 false Broadcast Single Data) 0 None (replicate 16 0x11) RNS_CONTEXT_NONE (str "header-one").
Definition oracle_packet_2 : RnsPacketRef :=
  mk_rns_packet (mk_flags Header2 true Transport Group Announce) 0 (Some (replicate 16 0x22)) (replicate 16 0x33) RNS_CONTEXT_PATH_RESPONSE (str "header-two").
Definition encode_oracle_header_1_packet : outcome RnsWireError (list Z) :=
  let '(r, output) := encode_packet oracle_packet_1 (zeros RNS_MTU) in
  l ← r;
  slice output 0 l.
Definition encode_oracle_header_2_packet : outcome RnsWireError (list Z) :=
  let '(r, output) := encode_packet oracle_packet_2 (zeros RNS_MTU) in
  l ← r;
  slice output 0 l.

Definition packet_oracle_result (response : OracleResponse) : ConformanceResult :=
  let header_1 := rs_header_1 response in
  let header_2 := rs_header_2 response in
  let packet_passed :=
    op_unpack_ok header_1 && (op_header_type header_1 =? 0) && bool_decide (op_transport_id header_1 = None)
    && bool_decide (op_destination_hash header_1 = str "11111111111111111111111111111111") && (op_context header_1 =? RNS_CONTEXT_NONE)
    && bool_decide (op_data header_1 = str "6865616465722d6f6e65")
    && op_unpack_ok header_2 && (op_header_type header_2 =? 1) && bool_decide (op_transport_id header_2 = Some (str "22222222222222222222222222222222"))
    && bool_decide (op_destination_hash header_2 = str "33333333333333333333333333333333") && (op_context header_2 =? RNS_CONTEXT_PATH_RESPONSE)
    && bool_decide (op_data header_2 = str "6865616465722d74776f") in
  if packet_passed then result_passed RESULT_ID_PYTHON_ORACLE_PACKET CATEGORY_PYTHON_ORACLE_PACKET
  else result_failed RESULT_ID_PYTHON_ORACLE_PACKET CATEGORY_PYTHON_ORACLE_PACKET (str "python oracle packet validation mismatch").
Definition announce_oracle_result (announce_valid : bool) : ConformanceResult :=
  if announce_valid then result_passed RESULT_ID_PYTHON_ORACLE_ANNOUNCE CATEGORY_PYTHON_ORACLE_ANNOUNCE
  else result_failed RESULT_ID_PYTHON_ORACLE_ANNOUNCE CATEGORY_PYTHON_ORACLE_ANNOUNCE (str "python oracle rejected Rust-generated announce").

Definition oracle_python_path (reticulum_module_path fallback : list Z) : list Z :=
  match path_parent reticulum_module_path ≫= path_parent with Some reticulum_root => reticulum_root | None => fallback end.

Section oracle.
Context `{P : RnsPrims, HO : Host, FromJson OracleProbeOutput, FromJson OracleResponse, ToJson OracleRequest}.

Definition encode_oracle_announce : outcome Profile0OracleError (list Z) :=
  secret ← map_err OracleCrypto (secret_identity_from_bytes TEST_SECRET_IDENTITY);
  public_identity ← map_err OracleCrypto (public_identity secret);
  let '(r, (_, output)) :=
    encode_announce_packet 0x0102030405 (mk_announce_params secret public_identity (str "hyf") [str "announce"] (str "oracle-app-data"))
      (FixedRng_new [1; 2; 3; 4; 5], zeros RNS_MTU) in
  l ← map_err OracleWire r;
  slice output 0 l.

(** The first half of [run_profile_0_oracle]. *)
Definition oracle_request : outcome Profile0OracleError OracleRequest :=
  header_1_packet ← map_err OracleWire encode_oracle_header_1_packet;
  header_2_packet ← map_err OracleWire encode_oracle_header_2_packet;
  full_hash ← map_err OracleWire (packet_hash sha256 header_2_packet);
  truncated_hash ← map_err OracleWire (packet_truncated_hash sha256 header_2_packet);
  announce_packet ← encode_oracle_announce;
  Ok (mk_request (hex header_1_packet) (hex header_2_packet) (hex header_2_packet) (hex full_hash) (hex truncated_hash) (hex announce_packet)).
Definition run_profile_0_oracle (reticulum_path : list Z) : outcome Profile0OracleError OracleResponse :=
  request ← oracle_request;
  request_json ← map_err OracleJson (to_string request);
  output ← map_err OracleIo (of_host (command_output (str "uv") (uv_args PYTHON_ORACLE_SCRIPT ++ [request_json]) [(str "PYTHONPATH", reticulum_path)]));
  if negb (output_success output) then Err (OracleFailed (from_utf8_lossy (output_stderr output)))
  else map_err OracleJson (from_str (output_stdout output)).

Definition profile_0_oracle_results {E} (reticulum_path : list Z) : outcome E (list ConformanceResult) :=
  match run_profile_0_oracle reticulum_path with
  | Ok response => Ok [packet_oracle_result response; announce_oracle_result (rs_announce_valid response)]
  | Err error =>
      Ok [result_failed RESULT_ID_PYTHON_ORACLE_PACKET CATEGORY_PYTHON_ORACLE_PACKET (oracle_error_text error);
          result_failed RESULT_ID_PYTHON_ORACLE_ANNOUNCE CATEGORY_PYTHON_ORACLE_ANNOUNCE (oracle_error_text error)]
  | Panic => Panic
  end.

Context `{Profile0Files}.
Context `{FromJson (FixtureFile IdentityCase), FromJson (FixtureCasesFile DestinationHashCase), FromJson (FixtureCasesFile PacketHeaderCase),
  FromJson (FixtureCasesFile PacketHashCase), FromJson (FixtureCasesFile AnnounceCase), FromJson (FixtureCasesFile AnnounceNegativeCase), FromJson ManifestFile}.

Definition profile_0_report_with_required_oracle (run_id hyf_commit started_at : list Z) (environment : ConformanceEnvironment) (reticulum_path : list Z)
    : outcome Profile0OracleError ConformanceRun :=
  readiness ← check_oracle_environment (Some reticulum_path);
  if negb (bool_decide (rd_status readiness = OraclePassed)) then Err (OracleInvalidEnv (rd_reason readiness))
  else
    match rd_metadata readiness with
    | None => Err MissingOracleMetadata
    | Some metadata =>
        let oracle_path := oracle_python_path (em_reticulum_module_path metadata) reticulum_path in
        results ← profile_0_fixture_results;
        oracle_results ← profile_0_oracle_results oracle_path;
        Ok (run_profile_0 run_id hyf_commit started_at (with_oracle environment (oracle_environment_from metadata)) (results ++ oracle_results))
    end.
End oracle.

(** ** Lemmas: the environment *)
(** What the probe must print. *)
Record probe_ok `{Host} (root : list Z) (probe : OracleProbeOutput) : Prop := {
  po_status : op_status probe = str "passed";
  po_rns : op_rns_version probe <> Some [];
  po_cryptography : op_cryptography probe = PINNED_CRYPTOGRAPHY_VERSION;
  po_pyserial : op_pyserial probe = PINNED_PYSERIAL_VERSION;
  po_module : module_path_is_under_reticulum_path (op_module probe) root = true;
}.
(** The command succeeds and prints [stdout]. *)
Definition succeeds `{Host} (program : list Z) (args : list (list Z)) (env : list (list Z * list Z)) (stdout : list Z) : Prop :=
  exists output, command_output program args env = inr output /\ output_success output = true /\ output_stdout output = stdout.
(** The working copy at [root] is at the pinned commit and has no changes. *)
Definition checkout_ok `{Host} (root : list Z) : Prop :=
  (exists stdout, succeeds (str "git") (git_args root [str "rev-parse"; str "HEAD"]) [] stdout /\ trim (from_utf8_lossy stdout) = PINNED_RETICULUM_COMMIT) /\
  succeeds (str "git") (git_args root [str "status"; str "--porcelain"; str "--untracked-files=all"]) [] [].
(** What the environment must be: a directory, in which the probe finds the pinned
    packages and a module of that directory, at the pinned commit. *)
Definition oracle_ready `{Host, FromJson OracleProbeOutput} (path uv : list Z) (metadata : OracleEnvironmentMetadata) : Prop :=
  exists root stdout probe, resolve_reticulum_path path = Some root /\
    succeeds uv (uv_args ORACLE_READINESS_SCRIPT) [(str "PYTHONPATH", root)] stdout /\ from_str stdout = Ok probe /\
    probe_ok root probe /\ checkout_ok root /\
    metadata = mk_metadata (op_module probe) PINNED_RETICULUM_COMMIT (op_rns_version probe) PINNED_CRYPTOGRAPHY_VERSION PINNED_PYSERIAL_VERSION.

Section environment_lemmas.
Context `{HO : Host, JP : FromJson OracleProbeOutput}.

Lemma validate_probe_ok stdout root m : validate_oracle_probe_output stdout root = Ok m <->
  exists probe, from_str stdout = Ok probe /\ probe_ok root probe /\
    m = mk_probe_metadata (op_module probe) (op_rns_version probe) PINNED_CRYPTOGRAPHY_VERSION PINNED_PYSERIAL_VERSION.
Proof.
  unfold validate_oracle_probe_output. rewrite bind_ok. setoid_rewrite map_err_ok. split.
  - intros (probe & Hp & H). exists probe. split; [done|]. case_bool_decide as H1; [|done]. cbn [negb] in H.
    destruct ((_ =? 0) || _ || _) eqn:H2; [done|]. rewrite !orb_false_iff, bool_decide_eq_false in H2. destruct H2 as [_ H2].
    case_bool_decide as H3; [|done]. case_bool_decide as H4; [|done]. cbn [negb orb] in H. destruct (module_path_is_under_reticulum_path _ _) eqn:H5; [|done].
    injection H as <-. split; [done|]. by rewrite H3, H4.
  - intros (probe & Hp & [H1 H2 H3 H4 H5] & ->). exists probe. split; [done|]. rewrite H1, H3, H4, H5. rewrite !bool_decide_eq_true_2 by done. rewrite bool_decide_eq_false_2 by done. done.
Qed.

Lemma git_success_some root args stdout : git_success root args = Some stdout <-> succeeds (str "git") (git_args root args) [] stdout.
Proof.
  unfold git_success, succeeds. destruct (command_output _ _ _) as [e|[b o e]]; cbn; [by split; [|intros (? & [=] & _)]|].
  destruct b; split; try done; [intros [= <-]; by eexists|by intros (? & [= <-] & _ & <-)|by intros (? & [= <-] & ? & _)].
Qed.
Lemma commit_from_output_pinned stdout : reticulum_commit_from_output stdout = Some PINNED_RETICULUM_COMMIT <-> trim (from_utf8_lossy stdout) = PINNED_RETICULUM_COMMIT.
Proof.
  unfold reticulum_commit_from_output. destruct (reticulum_commit_is_valid _) eqn:E; [split; [by intros [= ->]|by intros ->]|]. split; [done|]. intros H. rewrite H in E. by vm_compute in E.
Qed.
Lemma git_state_ok root c : validate_reticulum_git_state root = Ok c <-> c = PINNED_RETICULUM_COMMIT /\ checkout_ok root.
Proof.
  unfold validate_reticulum_git_state, validate_reticulum_git_state_with_expected, checkout_ok, reticulum_commit, reticulum_worktree_is_clean. split.
  - destruct (_ ≫= _) as [commit|] eqn:Hc; [|done]. case_bool_decide as He; [|done]. subst commit. cbn [negb].
    destruct (git_success root [str "status"; _; _]) as [status|] eqn:Hs; [|done]. cbn. destruct (len status =? 0) eqn:Hl; [|done]. intros [= <-]. split; [done|].
    apply bind_Some in Hc as (stdout & Hg & Hc). split; [exists stdout; split; [by apply git_success_some|by apply commit_from_output_pinned]|].
    apply git_success_some in Hs. apply Z.eqb_eq in Hl. by destruct status; [|rewrite len_cons in Hl; pose proof (len_nonneg status); lia].
  - intros (-> & (stdout & Hg & Hc) & Hs). apply git_success_some in Hg, Hs. rewrite Hg, Hs. cbn. rewrite (proj2 (commit_from_output_pinned stdout) Hc). by rewrite bool_decide_eq_true_2.
Qed.

Lemma check_environment_ok {E} path uv metadata : check_oracle_environment_with_command (E := E) (Some path) uv = Ok (readiness_passed metadata) <-> oracle_ready path uv metadata.
Proof.
  unfold check_oracle_environment_with_command, oracle_ready. split.
  - destruct (resolve_reticulum_path path) as [root|]; [|done]. destruct (command_output uv _ _) as [|output] eqn:Hc; [done|]. destruct (output_success output) eqn:Ho; [|done]. cbn [negb].
    destruct (validate_oracle_probe_output _ _) as [m| |] eqn:Hp; [|done..]. cbn [or_invalid]. destruct (validate_reticulum_git_state root) as [c| |] eqn:Hg; [|done..].
    cbn [or_invalid]. intros [= <-]. apply validate_probe_ok in Hp as (probe & Hf & Hok & ->). apply git_state_ok in Hg as [-> Hco].
    exists root, (output_stdout output), probe. split_and!; try done. by exists output.
  - intros (root & stdout & probe & -> & (output & -> & -> & <-) & Hf & Hok & Hco & ->). cbn [negb].
    rewrite (proj2 (validate_probe_ok _ root _) (ex_intro _ probe (conj Hf (conj Hok eq_refl)))). cbn [or_invalid].
    by rewrite (proj2 (git_state_ok root _) (conj eq_refl Hco)).
Qed.
(** A readiness is metadata or a reason. *)
Lemma readiness_shape {E} path uv r : check_oracle_environment_with_command (E := E) path uv = Ok r -> (exists m, r = readiness_passed m) \/ exists reason, r = readiness_invalid reason.
Proof.
  unfold check_oracle_environment_with_command. destruct path as [path|]; [|intros [= <-]; eauto]. destruct (resolve_reticulum_path path); [|intros [= <-]; eauto].
  destruct (command_output uv _ _); [intros [= <-]; eauto|]. destruct (output_success _); [|intros [= <-]; eauto]. cbn [negb].
  destruct (validate_oracle_probe_output _ _); cbn [or_invalid]; [|intros [= <-]; eauto|done]. destruct (validate_reticulum_git_state _); cbn [or_invalid]; [intros [= <-]; eauto|intros [= <-]; eauto|done].
Qed.
End environment_lemmas.

(** ** Lemmas: the oracle *)
(** What Reticulum says of a packet it unpacks. *)
Definition packet_info (p : RnsPacketRef) : OraclePacket :=
  mk_oracle_packet true (header_to_bits (header_type (rp_flags p))) (hex_bytes <$> rp_transport_id p) (hex_bytes (rp_destination_hash p)) (rp_context p) (hex_bytes (rp_data p)).

Lemma packet_row_ok response :
  packet_oracle_result response = result_passed RESULT_ID_PYTHON_ORACLE_PACKET CATEGORY_PYTHON_ORACLE_PACKET <->
  rs_header_1 response = packet_info oracle_packet_1 /\ rs_header_2 response = packet_info oracle_packet_2.
Proof.
  destruct response as [[u1 t1 i1 d1 c1 x1] [u2 t2 i2 d2 c2 x2] v]. unfold packet_oracle_result.
  cbn [rs_header_1 rs_header_2 op_unpack_ok op_header_type op_transport_id op_destination_hash op_context op_data].
  change (packet_info oracle_packet_1) with (mk_oracle_packet true 0 None (str "11111111111111111111111111111111") RNS_CONTEXT_NONE (str "6865616465722d6f6e65")).
  change (packet_info oracle_packet_2) with (mk_oracle_packet true 1 (Some (str "22222222222222222222222222222222")) (str "33333333333333333333333333333333") RNS_CONTEXT_PATH_RESPONSE (str "6865616465722d74776f")).
  match goal with |- (if ?b then _ else _) = _ <-> _ => destruct b eqn:E end.
  - rewrite !andb_true_iff, !Z.eqb_eq, !bool_decide_eq_true in E. destruct E as (((((((((((-> & ->) & ->) & ->) & ->) & ->) & ->) & ->) & ->) & ->) & ->) & ->). done.
  - split; [done|]. intros [[= -> -> -> -> -> ->] [= -> -> -> -> -> ->]]. rewrite !bool_decide_eq_true_2 in E by done. discriminate E.
Qed.
Lemma announce_row_ok v : announce_oracle_result v = result_passed RESULT_ID_PYTHON_ORACLE_ANNOUNCE CATEGORY_PYTHON_ORACLE_ANNOUNCE <-> v = true.
Proof. by destruct v. Qed.

Lemma oracle_packets_fit : mtu_packet oracle_packet_1 /\ mtu_packet oracle_packet_2.
Proof.
  assert (forall n l, len l = n -> bool_decide (bytes_ok l) = true -> array_ok n l) as Harr.
  { intros n l Hl Hb. split; [exact Hl | apply (bool_decide_eq_true_1 _); exact Hb]. }
  assert (forall n, 0 <= n < 256 -> u8_ok n) as H8 by done.
  split; (split; [split|split; [done|vm_compute; discriminate]]); try (apply H8; vm_compute; split; [discriminate|done]);
    try (apply Harr; vm_compute; reflexivity); try exact I; by apply (bool_decide_eq_true_1 _); vm_compute.
Qed.

Lemma encoded_packet p : mtu_packet p -> (let '(r, output) := encode_packet p (zeros RNS_MTU) in l ← r; slice (E := RnsWireError) output 0 l) = Ok (packet_bytes p).
Proof. intros Hm. rewrite <- (p0_reencode p id Hm). destruct (encode_packet p (zeros RNS_MTU)) as [[]]; reflexivity. Qed.

Section oracle_lemmas.
Context `{P : RnsPrims, L : !RnsPrimsLaws P}.

(** The announce the oracle is asked about. *)
Definition oracle_secret : RnsSecretIdentity := mk_secret (take 32 TEST_SECRET_IDENTITY) (drop 32 TEST_SECRET_IDENTITY).
Definition oracle_announce : RnsAnnounceRef :=
  own_announce oracle_secret (name_hash_of (str "hyf") [str "announce"]) [1; 2; 3; 4; 5; 1; 2; 3; 4; 5] (str "oracle-app-data").

Lemma bytes_ok_check l : bool_decide (bytes_ok l) = true -> bytes_ok l.
Proof. apply bool_decide_eq_true_1. Qed.
Lemma oracle_secret_ok : secret_ok oracle_secret.
Proof. split; (split; [reflexivity|apply bytes_ok_check; vm_compute; reflexivity]). Qed.
Lemma oracle_name : destination_name_hash sha256 (str "hyf") [str "announce"] = Ok (name_hash_of (str "hyf") [str "announce"]).
Proof. apply p0_name_hash. split; [vm_compute; reflexivity|done]. Qed.
Lemma oracle_announce_facts :
  announce_ok oracle_announce /\ mtu_packet (announce_packet oracle_announce) /\ validate_announce_packet (announce_packet oracle_announce) = Ok oracle_announce.
Proof.
  assert (array_ok 10 (name_hash_of (str "hyf") [str "announce"])) as Hn by (apply (p0_digest_array 10); lia).
  assert (array_ok 10 [1; 2; 3; 4; 5; 1; 2; 3; 4; 5]) as Hr by (split; [reflexivity|apply bytes_ok_check; vm_compute; reflexivity]).
  assert (bytes_ok (str "oracle-app-data")) as Hb by (apply bytes_ok_check; vm_compute; reflexivity).
  destruct (own_announce_ok oracle_secret _ _ _ oracle_secret_ok Hn Hr Hb) as (Ha & Hp & _ & _ & Hl).
  split; [exact Ha|]. split; [split; [exact Hp|split; [reflexivity|]]|].
  - unfold oracle_announce. rewrite Hl. vm_compute. discriminate.
  - apply own_announce_validates; [apply oracle_secret_ok|done..|vm_compute; discriminate].
Qed.

Lemma encode_oracle_announce_ok : encode_oracle_announce = Ok (packet_bytes (announce_packet oracle_announce)).
Proof.
  assert (array_ok 10 (name_hash_of (str "hyf") [str "announce"])) as Hn by (apply (p0_digest_array 10); lia).
  assert (bytes_ok (str "oracle-app-data")) as Hb by (apply bytes_ok_check; vm_compute; reflexivity).
  destruct oracle_announce_facts as (_ & Hm & _). destruct oracle_secret_ok as [Hx He].
  unfold encode_oracle_announce. change TEST_SECRET_IDENTITY with (take 32 TEST_SECRET_IDENTITY ++ drop 32 TEST_SECRET_IDENTITY).
  rewrite p0_secret_from_bytes by done. cbn [map_err mbind outcome_bind]. fold oracle_secret. unfold public_identity. cbn [map_err mbind outcome_bind].
  fold (public_of oracle_secret).
  rewrite (encode_announce_run oracle_secret (str "hyf") [str "announce"] (str "oracle-app-data") 0x0102030405 (FixedRng_new [1; 2; 3; 4; 5]) (mk_fixed [1; 2; 3; 4; 5] 5)
    [1; 2; 3; 4; 5] (name_hash_of (str "hyf") [str "announce"]) (zeros RNS_MTU));
    [|apply oracle_secret_ok|apply oracle_name|done|done|vm_compute; discriminate|vm_compute; discriminate|vm_compute; split; discriminate|reflexivity|split; [reflexivity|apply bytes_ok_check; vm_compute; reflexivity]].
  change ([1; 2; 3; 4; 5] ++ to_be_bytes 5 0x0102030405) with [1; 2; 3; 4; 5; 1; 2; 3; 4; 5]. fold oracle_announce.
  rewrite <- (p0_reencode (announce_packet oracle_announce) OracleWire Hm). by destruct (encode_packet _ _).
Qed.

(** What is asked of the oracle. *)
Definition asked : OracleRequest :=
  let hashed := hashable_part oracle_packet_2 in
  mk_request (hex_bytes (packet_bytes oracle_packet_1)) (hex_bytes (packet_bytes oracle_packet_2)) (hex_bytes (packet_bytes oracle_packet_2))
    (hex_bytes (sha256 hashed)) (hex_bytes (take 16 (sha256 hashed))) (hex_bytes (packet_bytes (announce_packet oracle_announce))).
Lemma oracle_request_ok : oracle_request = Ok asked.
Proof.
  destruct oracle_packets_fit as [H1 H2]. unfold oracle_request, encode_oracle_header_1_packet, encode_oracle_header_2_packet.
  rewrite (encoded_packet _ H1), (encoded_packet _ H2). cbn [map_err mbind outcome_bind]. destruct H2 as (Hp & Hc & Hl).
  rewrite packet_hash_spec, packet_truncated_hash_spec by (done || apply sha256_len). cbn [map_err mbind outcome_bind].
  by rewrite encode_oracle_announce_ok.
Qed.
End oracle_lemmas.

Lemma p0_fixture_results_no_error `{P : RnsPrims, F : Profile0Files,
    J1 : FromJson (FixtureFile IdentityCase), J2 : FromJson (FixtureCasesFile DestinationHashCase), J3 : FromJson (FixtureCasesFile PacketHeaderCase),
    J4 : FromJson (FixtureCasesFile PacketHashCase), J5 : FromJson (FixtureCasesFile AnnounceCase), J6 : FromJson (FixtureCasesFile AnnounceNegativeCase), JM : FromJson ManifestFile} {E : Type} (e : E) :
  profile_0_fixture_results <> Err e.
Proof.
  assert (forall id category m, fixture_result (E := E) id category m = Panic \/ exists row, fixture_result (E := E) id category m = Ok row) as H
    by (intros id category [[]|?|]; cbn; eauto).
  unfold profile_0_fixture_results. repeat (match goal with |- context [fixture_result ?i ?c ?m] => destruct (H i c m) as [->|[? ->]]; [done|]; cbn [mbind outcome_bind] end). done.
Qed.
Lemma check_environment_no_error `{HO : Host, JP : FromJson OracleProbeOutput} {E : Type} path uv (e : E) : check_oracle_environment_with_command path uv <> Err e.
Proof.
  unfold check_oracle_environment_with_command. destruct path as [path|]; [|done]. destruct (resolve_reticulum_path path); [|done].
  destruct (command_output uv _ _); [done|]. destruct (output_success _); [|done]. cbn [negb].
  destruct (validate_oracle_probe_output _ _); cbn [or_invalid]; [|done..]. by destruct (validate_reticulum_git_state _).
Qed.

Lemma oracle_report_made `{P : RnsPrims, HO : Host, JP : FromJson OracleProbeOutput, JR : FromJson OracleResponse, JQ : ToJson OracleRequest, F : Profile0Files,
    J1 : FromJson (FixtureFile IdentityCase), J2 : FromJson (FixtureCasesFile DestinationHashCase), J3 : FromJson (FixtureCasesFile PacketHeaderCase),
    J4 : FromJson (FixtureCasesFile PacketHashCase), J5 : FromJson (FixtureCasesFile AnnounceCase), J6 : FromJson (FixtureCasesFile AnnounceNegativeCase), JM : FromJson ManifestFile}
    run_id hyf_commit started_at environment path report :
  profile_0_report_with_required_oracle run_id hyf_commit started_at environment path = Ok report ->
  exists metadata, oracle_ready path (str "uv") metadata /\ exists rows,
    report = run_profile_0 run_id hyf_commit started_at (with_oracle environment
      (mk_oracle (em_reticulum_module_path metadata) PINNED_RETICULUM_COMMIT (em_rns_version metadata) PINNED_CRYPTOGRAPHY_VERSION PINNED_PYSERIAL_VERSION)) rows /\
    (fun r => (cr_id r, cr_category r)) <$> rows = REQUIRED_PROFILE_0_RESULTS.
Proof.
  unfold profile_0_report_with_required_oracle, check_oracle_environment. intros (r & Hr & H)%bind_ok. destruct (readiness_shape _ _ _ Hr) as [[m ->]|[reason ->]]; [|done].
  cbn [rd_status rd_metadata readiness_passed] in H. rewrite bool_decide_eq_true_2 in H by done. cbn [negb] in H.
  apply check_environment_ok in Hr. exists m. apply bind_ok in H as (rows & Hrows & H). apply bind_ok in H as (more & Hmore & [= <-]).
  split; [done|]. exists (rows ++ more). split.
  + destruct Hr as (root & stdout & probe & _ & _ & _ & _ & _ & ->). unfold oracle_environment_from. by destruct (op_rns_version probe).
  + assert ((fun r => (cr_id r, cr_category r)) <$> more = drop 7 REQUIRED_PROFILE_0_RESULTS) as Hk.
    { unfold profile_0_oracle_results in Hmore. destruct (run_profile_0_oracle _) as [response|e|]; [|by injection Hmore as <-|done]. injection Hmore as <-.
      unfold packet_oracle_result, announce_oracle_result. by repeat case_match. }
    rewrite fmap_app, Hk. unfold profile_0_fixture_results in Hrows.
    apply bind_ok in Hrows as (r1 & H1%fixture_result_keys & H). apply bind_ok in H as (r2 & H2%fixture_result_keys & H). apply bind_ok in H as (r3 & H3%fixture_result_keys & H).
    apply bind_ok in H as (r4 & H4%fixture_result_keys & H). apply bind_ok in H as (r5 & H5%fixture_result_keys & H). apply bind_ok in H as (r6 & H6%fixture_result_keys & H).
    apply bind_ok in H as (r7 & H7%fixture_result_keys & [= <-]). cbn [fmap list_fmap]. by rewrite H1, H2, H3, H4, H5, H6, H7.
Qed.

(** ** Claims *)

(** The environment of the oracle is ready exactly when the path is a directory, the
    probe runs in it and reports the pinned packages and a module of the directory, and
    git reports the pinned commit and no changes; every other answer of the host gives
    a reason and no metadata. *)
Theorem oracle_environment_exact `{HO : Host, JP : FromJson OracleProbeOutput} {E : Type} path uv :
  (forall metadata, check_oracle_environment_with_command (E := E) (Some path) uv = Ok (readiness_passed metadata) <-> oracle_ready path uv metadata) /\
  (forall r, check_oracle_environment_with_command (E := E) (Some path) uv = Ok r ->
     rd_status r = OraclePassed /\ rd_reason r = None /\ (exists metadata, rd_metadata r = Some metadata /\ oracle_ready path uv metadata) \/
     rd_status r = OracleInvalid /\ is_Some (rd_reason r) /\ rd_metadata r = None /\ forall metadata, ~ oracle_ready path uv metadata).
Proof.
  split; [intros metadata; apply check_environment_ok|]. intros r H. destruct (readiness_shape _ _ _ H) as [[m ->]|[reason ->]].
  - left. split_and!; [done..|]. exists m. split; [done|]. by apply check_environment_ok in H.
  - right. split_and!; [done|by eexists|done|]. intros m Hm. apply (check_environment_ok (E := E)) in Hm. rewrite Hm in H. discriminate H.
Qed.

(** The oracle is asked about two packets within the MTU, one of each header, and an
    announce, each of which this repository decodes and, for the announce, accepts; the
    expected hashes are those of the second packet.  Its two rows pass exactly when the
    command succeeds and answers that Reticulum unpacks both packets to the parts they
    have and accepts the announce. *)
Theorem profile_0_oracle_exact `{P : RnsPrims, L : !RnsPrimsLaws P, HO : Host, JR : FromJson OracleResponse, JQ : ToJson OracleRequest} {E : Type} path :
  oracle_request = Ok asked /\
  decode_packet (packet_bytes oracle_packet_1) = Ok oracle_packet_1 /\ decode_packet (packet_bytes oracle_packet_2) = Ok oracle_packet_2 /\
  packet_hash sha256 (packet_bytes oracle_packet_2) = Ok (sha256 (hashable_part oracle_packet_2)) /\
  decode_packet (packet_bytes (announce_packet oracle_announce)) = Ok (announce_packet oracle_announce) /\
  validate_announce_packet (announce_packet oracle_announce) = Ok oracle_announce /\
  (profile_0_oracle_results (E := E) path =
     Ok [result_passed RESULT_ID_PYTHON_ORACLE_PACKET CATEGORY_PYTHON_ORACLE_PACKET; result_passed RESULT_ID_PYTHON_ORACLE_ANNOUNCE CATEGORY_PYTHON_ORACLE_ANNOUNCE] <->
   exists json stdout, to_string asked = Ok json /\
     succeeds (str "uv") (uv_args PYTHON_ORACLE_SCRIPT ++ [json]) [(str "PYTHONPATH", path)] stdout /\
     from_str stdout = Ok (mk_response (packet_info oracle_packet_1) (packet_info oracle_packet_2) true)).
Proof.
  destruct oracle_packets_fit as [(Hp1 & Hc1 & Hl1) (Hp2 & Hc2 & Hl2)]. destruct oracle_announce_facts as (_ & (Hp3 & Hc3 & Hl3) & Hv).
  split; [apply oracle_request_ok|]. split; [by apply decode_packet_bytes|]. split; [by apply decode_packet_bytes|].
  split; [apply packet_hash_spec; done || apply sha256_len|]. split; [by apply decode_packet_bytes|]. split; [exact Hv|].
  unfold profile_0_oracle_results. split.
  - destruct (run_profile_0_oracle path) as [response|e|] eqn:Hr; [|done..]. intros [= H1 H2]. apply packet_row_ok in H1 as [H1 H1']. apply announce_row_ok in H2.
    unfold run_profile_0_oracle in Hr. rewrite oracle_request_ok in Hr. cbn [mbind outcome_bind] in Hr. apply bind_ok in Hr as (json & Hj%map_err_ok & Hr).
    apply bind_ok in Hr as (out & Ho & Hr). apply map_err_ok, of_host_ok in Ho. destruct (output_success out) eqn:Hs; [|done]. cbn [negb] in Hr. apply map_err_ok in Hr.
    exists json, (output_stdout out). split; [done|]. split; [by exists out|]. rewrite Hr. destruct response; cbn in H1, H1', H2. by rewrite H1, H1', H2.
  - intros (json & stdout & Hj & (out & Ho & Hs & <-) & Hr). unfold run_profile_0_oracle. rewrite oracle_request_ok. cbn [mbind outcome_bind].
    rewrite Hj. cbn [map_err mbind outcome_bind]. rewrite Ho. cbn [of_host map_err mbind outcome_bind]. rewrite Hs, Hr. cbn [negb map_err rs_announce_valid announce_oracle_result].
    by rewrite (proj2 (packet_row_ok (mk_response (packet_info oracle_packet_1) (packet_info oracle_packet_2) true)) (conj eq_refl eq_refl)).
Qed.

(** A report with the oracle is returned only in a ready environment, of which it has
    the metadata, and has a row for each required result.  The error for missing
    metadata is never returned. *)
Theorem profile_0_oracle_report `{P : RnsPrims, HO : Host, JP : FromJson OracleProbeOutput, JR : FromJson OracleResponse, JQ : ToJson OracleRequest, F : Profile0Files,
    J1 : FromJson (FixtureFile IdentityCase), J2 : FromJson (FixtureCasesFile DestinationHashCase), J3 : FromJson (FixtureCasesFile PacketHeaderCase),
    J4 : FromJson (FixtureCasesFile PacketHashCase), J5 : FromJson (FixtureCasesFile AnnounceCase), J6 : FromJson (FixtureCasesFile AnnounceNegativeCase), JM : FromJson ManifestFile}
    run_id hyf_commit started_at environment path :
  (forall report, profile_0_report_with_required_oracle run_id hyf_commit started_at environment path = Ok report ->
    exists metadata, oracle_ready path (str "uv") metadata /\
      ce_oracle (run_environment report) = Some (mk_oracle (em_reticulum_module_path metadata) PINNED_RETICULUM_COMMIT (em_rns_version metadata) PINNED_CRYPTOGRAPHY_VERSION PINNED_PYSERIAL_VERSION) /\
      (fun r => (cr_id r, cr_category r)) <$> run_results report = REQUIRED_PROFILE_0_RESULTS) /\
  profile_0_report_with_required_oracle run_id hyf_commit started_at environment path <> Err MissingOracleMetadata.
Proof.
  split.
  - intros report (m & Hm & rows & -> & Hk)%oracle_report_made. by exists m.
  - unfold profile_0_report_with_required_oracle, check_oracle_environment. intros H. destruct (check_oracle_environment_with_command (Some path) (str "uv")) as [r|e|] eqn:Hr; cbn [mbind outcome_bind] in H; [|injection H as ->|done].
    + destruct (readiness_shape _ _ _ Hr) as [[m ->]|[reason ->]]; [|done]. cbn [rd_status rd_metadata readiness_passed] in H. rewrite bool_decide_eq_true_2 in H by done. cbn [negb] in H.
      destruct (profile_0_fixture_results) as [rows|e|] eqn:Hf; cbn [mbind outcome_bind] in H; [| |done].
      * destruct (profile_0_oracle_results _) as [more|e|] eqn:Hm; cbn [mbind outcome_bind] in H; [done| |done]. unfold profile_0_oracle_results in Hm. by destruct (run_profile_0_oracle _).
      * by apply p0_fixture_results_no_error in Hf.
    + by apply check_environment_no_error in Hr.
Qed.

(** ** Witnesses *)
(** A host with a checkout of Reticulum at [/rns]. *)
Definition sample_probe : OracleProbeOutput :=
  mk_probe PINNED_CRYPTOGRAPHY_VERSION (str "/rns/RNS/__init__.py") PINNED_PYSERIAL_VERSION (Some (str "1.3.5")) (str "passed").
#[local] Instance sample_host : Host := {|
  command_output := fun program args _ =>
    if bool_decide (program = str "uv") then inr (mk_output true (str "answer") [])
    else if bool_decide (str "rev-parse" ∈ args) then inr (mk_output true (PINNED_RETICULUM_COMMIT ++ [10]) [])
    else inr (mk_output true [] []);
  is_dir := fun path => bool_decide (path = str "/rns");
  current_dir := inr (str "/");
  canonicalize := fun path => inr path;
  env_var := fun _ => None;
  read_file := fun path => if bool_decide (path = str "report.json") then inr (str "{}") else inl (str "no such file");
  CARGO_MANIFEST_DIR := str "/hyf/crates/hyf_rns_conformance";
  OS := str "linux";
  ARCH := str "x86_64";
|}.
#[local] Instance sample_probe_json : FromJson OracleProbeOutput := fun _ => Ok sample_probe.
#[local] Instance sample_response_json : FromJson OracleResponse := fun _ => Ok (mk_response (packet_info oracle_packet_1) (packet_info oracle_packet_2) true).
#[local] Instance sample_request_json : ToJson OracleRequest := {| to_string := fun _ => Ok (str "request"); to_vec_pretty := fun _ => Ok (str "request") |}.
Definition sample_metadata : OracleEnvironmentMetadata :=
  mk_metadata (str "/rns/RNS/__init__.py") PINNED_RETICULUM_COMMIT (Some (str "1.3.5")) PINNED_CRYPTOGRAPHY_VERSION PINNED_PYSERIAL_VERSION.

Example sample_environment_checked : check_oracle_environment_with_command (E := FixtureError) (Some (str "/rns")) (str "uv") = Ok (readiness_passed sample_metadata).
Proof. vm_compute. reflexivity. Qed.

Lemma oracle_environment_exact_witness : oracle_ready (str "/rns") (str "uv") sample_metadata.
Proof. apply (proj1 (oracle_environment_exact (E := FixtureError) (str "/rns") (str "uv"))). exact sample_environment_checked. Defined.

Lemma profile_0_oracle_exact_witness :
  profile_0_oracle_results (P := toy_prims) (E := FixtureError) (str "/rns") =
    Ok [result_passed RESULT_ID_PYTHON_ORACLE_PACKET CATEGORY_PYTHON_ORACLE_PACKET; result_passed RESULT_ID_PYTHON_ORACLE_ANNOUNCE CATEGORY_PYTHON_ORACLE_ANNOUNCE].
Proof.
  destruct (profile_0_oracle_exact (P := toy_prims) (L := toy_prims_laws) (E := FixtureError) (str "/rns")) as (_ & _ & _ & _ & _ & _ & H). apply H.
  exists (str "request"), (str "answer"). split; [reflexivity|]. split; [|reflexivity]. eexists. split; [reflexivity|]. split; reflexivity.
Defined.

#[local] Existing Instances p0_files p0_identities p0_destinations p0_headers p0_hashes p0_announces p0_negatives p0_manifest.
#[local] Notation sample_oracle_report :=
  (profile_0_report_with_required_oracle (P := toy_prims) (str "run") (str "commit") (str "now") (ConformanceEnvironment_new (str "linux") (str "x86_64") (str "stable")) (str "/rns")).

Example sample_oracle_ran : exists rows, profile_0_oracle_results (P := toy_prims) (E := Profile0OracleError) (oracle_python_path (str "/rns/RNS/__init__.py") (str "/rns")) = Ok rows.
Proof. unfold profile_0_oracle_results, run_profile_0_oracle. rewrite (oracle_request_ok (L := toy_prims_laws)). eexists. vm_compute. reflexivity. Qed.
Lemma sample_report_returned run commit started environment :
  exists report, profile_0_report_with_required_oracle (P := toy_prims) run commit started environment (str "/rns") = Ok report.
Proof.
  destruct sample_oracle_ran as [rows Hr]. eexists. unfold profile_0_report_with_required_oracle, check_oracle_environment.
  assert (check_oracle_environment_with_command (E := Profile0OracleError) (Some (str "/rns")) (str "uv") = Ok (readiness_passed sample_metadata)) as -> by (vm_compute; reflexivity).
  cbn [mbind outcome_bind rd_status readiness_passed rd_metadata]. rewrite bool_decide_eq_true_2 by done. cbn [negb em_reticulum_module_path sample_metadata].
  assert (profile_0_fixture_results (H := toy_prims) (E := Profile0OracleError) = Ok p0_passed_rows) as -> by (vm_compute; reflexivity).
  cbn [mbind outcome_bind]. rewrite Hr. cbn [mbind outcome_bind]. reflexivity.
Qed.

Lemma profile_0_oracle_report_witness :
  exists report, sample_oracle_report = Ok report /\ (fun r => (cr_id r, cr_category r)) <$> run_results report = REQUIRED_PROFILE_0_RESULTS.
Proof.
  destruct (sample_report_returned (str "run") (str "commit") (str "now") (ConformanceEnvironment_new (str "linux") (str "x86_64") (str "stable"))) as [report H].
  exists report. split; [exact H|].
  destruct (proj1 (profile_0_oracle_report (P := toy_prims) (str "run") (str "commit") (str "now") (ConformanceEnvironment_new (str "linux") (str "x86_64") (str "stable")) (str "/rns")) report H) as (_ & _ & _ & Hk). exact Hk.
Defined.
