(* ===== verification/Cli.v ===== *)
(** The command line that generates and validates conformance reports
    (src/crates/hyf_rns_conformance/src/bin/hyf-rns-conformance-report.rs): its arguments,
    the rules of a final report of packets and announces, the state of the source
    repositories, and the three commands.

    The host is [Host], JSON is [FromJson] and [ToJson]; files are written through
    [Writer].  The feature [python_oracle] is the parameter of that name.  The claims say
    that the arguments that a command line states are those that are parsed, which
    timestamps and reports are final, and that a generated final report is one that
    validation accepts. *)
From stdpp Require Import gmap strings.
From S2P Require Import Kiss RNode RnsWire RnsCrypto RnsAnnounce Prelude Utf8 Cursor NostrHex NostrJson NostrParser Text Display ErrorText Fixtures ConfReport Captures Profile0 Profile1 Profile2 Host Oracle.

Open Scope Z_scope.

Definition EXPECTED_ORACLE_RNS_VERSION : list Z := str "1.3.5".
Definition EXPECTED_ORACLE_CRYPTOGRAPHY_VERSION : list Z := str "49.0.0".
Definition EXPECTED_ORACLE_PYSERIAL_VERSION : list Z := str "3.5".

Definition USAGE : list Z := str "usage:
  hyf-rns-conformance-report \
  [--profile <profile_0_packet_announce|profile_1_kiss_rnode|profile_2_crypto_ifac>] \
  --run-id <id> \
  --hyf-repo-path <path> \
  --started-at <date-time> \
  --rust-toolchain <toolchain> \
  --output <path|-> \
  [--expected-hyf-commit <commit>] \
  [--capture-dir <path>] \
  [--reticulum-path <path> --require-oracle] \
  [--report-path-root <path>] \
  [--os <os>] \
  [--arch <arch>]

  hyf-rns-conformance-report profile2-proof-inputs \
  --output <path|->

  hyf-rns-conformance-report validate \
  --input <path> \
  [--require-final-profile0] \
  [--require-final-profile <profile>] \
  [--expected-oracle-module-path <path>] \
  [--require-final-provenance \
   --hyf-repo-path <path> \
   --reticulum-path <path> \
   [--expected-oracle-module-path <path>]]".

(** ** Profiles and errors *)
Inductive ReportProfile := ReportProfile0 | ReportProfile1 | ReportProfile2.
#[export] Instance ReportProfile_eq_dec : EqDecision ReportProfile.
Proof. solve_decision. Defined.
Definition ReportProfile_as_str (profile : ReportProfile) : list Z :=
  match profile with ReportProfile0 => EXPECTED_PROFILE | ReportProfile1 => PROFILE_1_KISS_RNODE | ReportProfile2 => PROFILE_2_CRYPTO_IFAC end.

Inductive CliError :=
| Usage
| UnknownArgument (arg : list Z)
| UnknownProfile (profile : list Z)
| MissingValue (flag : list Z)
| MissingRequired (flag : list Z)
| GitCommandUnavailable (error : list Z)
| GitCommandFailed
| DirtyHyfWorktree
| DirtyReticulumWorktree
| InvalidHyfCommit (commit : list Z)
| CliInvalidReticulumCommit (commit : list Z)
| ExpectedHyfCommitMismatch (expected actual : list Z)
| ExpectedReticulumCommitMismatch (expected actual : list Z)
| ExpectedOracleModulePathMismatch (expected actual : list Z)
| RepoPathRequiresFinalProvenance
| CaptureDirUnsupportedForProfile (profile : ReportProfile)
| OracleNotSupportedForProfile (profile : ReportProfile)
| FinalReportInvalid (reason : list Z)
| FinalReport (error : FinalReportError)
| OraclePathRequiresOracle
| ReportPathRootRequiresOracle
| ReportPathRootMismatch
| PathCanonicalize (path error : list Z)
| NonUtf8Path
| PythonOracleFeatureDisabled
| CliOracle (error : Profile0OracleError)
| CliIo (error : list Z)
| CliJson (error : list Z).

Definition with_usage (message : list Z) : list Z := message ++ [10; 10] ++ USAGE.
Definition cli_error_text (e : CliError) : list Z :=
  match e with
  | Usage => USAGE
  | UnknownArgument arg => with_usage (str "unknown argument: " ++ arg)
  | UnknownProfile profile => with_usage (str "unknown conformance profile: " ++ profile)
  | MissingValue flag => with_usage (str "missing value for " ++ flag)
  | MissingRequired flag => with_usage (str "missing required argument " ++ flag)
  | GitCommandUnavailable error => str "git command failed: " ++ error
  | GitCommandFailed => str "git command returned a failure status"
  | DirtyHyfWorktree => str "hyf repo has tracked or untracked worktree changes"
  | DirtyReticulumWorktree => str "Reticulum repo has tracked or untracked worktree changes"
  | InvalidHyfCommit commit => str "derived hyf commit is not a full git hash: " ++ commit
  | CliInvalidReticulumCommit commit => str "derived Reticulum commit is not a full git hash: " ++ commit
  | ExpectedHyfCommitMismatch expected actual => str "expected hyf commit " ++ expected ++ str ", but git HEAD is " ++ actual
  | ExpectedReticulumCommitMismatch expected actual => str "expected Reticulum commit " ++ expected ++ str ", but git HEAD is " ++ actual
  | ExpectedOracleModulePathMismatch expected actual => str "expected oracle module path " ++ expected ++ str ", but report records " ++ actual
  | RepoPathRequiresFinalProvenance =>
      with_usage (str "--hyf-repo-path and --reticulum-path are validate-only provenance inputs and require --require-final-provenance")
  | CaptureDirUnsupportedForProfile profile => with_usage (str "--capture-dir is not supported for " ++ ReportProfile_as_str profile)
  | OracleNotSupportedForProfile profile =>
      with_usage (str "--require-oracle and --reticulum-path are only supported for Profile 0 generation, not " ++ ReportProfile_as_str profile)
  | FinalReportInvalid reason => str "final report invalid: " ++ reason
  | FinalReport error => str "final report error: " ++ final_report_error_text error
  | OraclePathRequiresOracle => with_usage (str "--reticulum-path requires --require-oracle for final evidence")
  | ReportPathRootRequiresOracle => with_usage (str "--report-path-root requires an oracle report environment")
  | ReportPathRootMismatch => with_usage (str "verified oracle module path is outside --report-path-root")
  | PathCanonicalize path error => str "could not canonicalize " ++ from_utf8_lossy path ++ str ": " ++ error
  | NonUtf8Path => str "report path contains non-UTF-8 data"
  | PythonOracleFeatureDisabled => with_usage (str "python_oracle feature is required for oracle report generation")
  | CliOracle error => str "oracle report error: " ++ oracle_error_text error
  | CliIo error => str "I/O error: " ++ error
  | CliJson error => str "JSON error: " ++ error
  end.

Definition ReportProfile_parse (value : list Z) : outcome CliError ReportProfile :=
  if bool_decide (value = EXPECTED_PROFILE) then Ok ReportProfile0
  else if bool_decide (value = PROFILE_1_KISS_RNODE) then Ok ReportProfile1
  else if bool_decide (value = PROFILE_2_CRYPTO_IFAC) then Ok ReportProfile2
  else Err (UnknownProfile value).

(** ** Arguments *)
(** What a command does with an argument: it is a flag, it takes a value, or ends the
    parsing.  [S] is the type of the variables of [parse]. *)
Inductive arg_action (S : Type) :=
| Flag (s : S)
| Takes (k : list Z -> outcome CliError S)
| Help
| Unknown.
Arguments Flag {S}. Arguments Takes {S}. Arguments Help {S}. Arguments Unknown {S}.

(** [while let Some(arg) = args.next()], with [next_value] for a value. *)
Fixpoint parse_loop {S} (action : S -> list Z -> arg_action S) (s : S) (args : list (list Z)) : outcome CliError S :=
  match args with
  | [] => Ok s
  | arg :: args =>
      match action s arg with
      | Flag s => parse_loop action s args
      | Takes k =>
          match args with
          | [] => Err (MissingValue arg)
          | value :: args =>
              if starts_with value (str "--") then Err (MissingValue arg)
              else
                s ← k value;
                parse_loop action s args
          end
      | Help => Err Usage
      | Unknown => Err (UnknownArgument arg)
      end
  end.
Definition is_help (arg : list Z) : bool := bool_decide (arg = str "--help") || bool_decide (arg = str "-h").
(** [match arg.as_str()] *)
Definition choose {S} (arg : list Z) (arms : list (list Z * arg_action S)) : arg_action S :=
  match List.find (fun arm => bool_decide (fst arm = arg)) arms with
  | Some (_, action) => action
  | None => if is_help arg then Help else Unknown
  end.
Definition required (value : option (list Z)) (flag : list Z) : outcome CliError (list Z) := ok_or value (MissingRequired flag).
(** [PathBuf::from] is the identity on the bytes. *)
Definition required_path (value : option (list Z)) (flag : list Z) : outcome CliError (list Z) := ok_or value (MissingRequired flag).

Record ProofInputArgs := mk_proof_args { pa_output : list Z }.
Definition ProofInputArgs_action (output : option (list Z)) (arg : list Z) : arg_action (option (list Z)) :=
  choose arg [(str "--output", Takes (fun value => Ok (Some value)))].
Definition ProofInputArgs_parse (args : list (list Z)) : outcome CliError ProofInputArgs :=
  output ← parse_loop ProofInputArgs_action None args;
  output ← required output (str "--output");
  Ok (mk_proof_args output).

Record ValidateArgs := mk_validate_args {
  va_input : list Z;
  va_require_final_profile0 : bool;
  va_require_final_profile : option ReportProfile;
  va_require_final_provenance : bool;
  va_hyf_repo_path : option (list Z);
  va_reticulum_path : option (list Z);
  va_expected_oracle_module_path : option (list Z);
}.
Record ValidateVars := mk_validate_vars {
  vv_input : option (list Z);
  vv_require_final_profile0 : bool;
  vv_require_final_profile : option ReportProfile;
  vv_require_final_provenance : bool;
  vv_hyf_repo_path : option (list Z);
  vv_reticulum_path : option (list Z);
  vv_expected_oracle_module_path : option (list Z);
}.
Definition ValidateArgs_action (v : ValidateVars) (arg : list Z) : arg_action ValidateVars :=
  let 'mk_validate_vars input profile0 profile provenance hyf reticulum module := v in
  choose arg
    [(str "--input", Takes (fun value => Ok (mk_validate_vars (Some value) profile0 profile provenance hyf reticulum module)));
     (str "--require-final-profile0", Flag (mk_validate_vars input true profile provenance hyf reticulum module));
     (str "--require-final-profile", Takes (fun value => profile ← ReportProfile_parse value; Ok (mk_validate_vars input profile0 (Some profile) provenance hyf reticulum module)));
     (str "--require-final-provenance", Flag (mk_validate_vars input profile0 profile true hyf reticulum module));
     (str "--hyf-repo-path", Takes (fun value => Ok (mk_validate_vars input profile0 profile provenance (Some value) reticulum module)));
     (str "--reticulum-path", Takes (fun value => Ok (mk_validate_vars input profile0 profile provenance hyf (Some value) module)));
     (str "--expected-oracle-module-path", Takes (fun value => Ok (mk_validate_vars input profile0 profile provenance hyf reticulum (Some value))))].
Definition ValidateArgs_parse (args : list (list Z)) : outcome CliError ValidateArgs :=
  v ← parse_loop ValidateArgs_action (mk_validate_vars None false None false None None None) args;
  input ← required_path (vv_input v) (str "--input");
  Ok (mk_validate_args input (vv_require_final_profile0 v) (vv_require_final_profile v) (vv_require_final_provenance v) (vv_hyf_repo_path v)
        (vv_reticulum_path v) (vv_expected_oracle_module_path v)).

Record Args := mk_args {
  ar_profile : ReportProfile;
  ar_run_id : list Z;
  ar_hyf_repo_path : list Z;
  ar_expected_hyf_commit : option (list Z);
  ar_started_at : list Z;
  ar_rust_toolchain : list Z;
  ar_os : list Z;
  ar_arch : list Z;
  ar_output : list Z;
  ar_reticulum_path : option (list Z);
  ar_capture_dir : option (list Z);
  ar_report_path_root : option (list Z);
  ar_require_oracle : bool;
}.
Record ArgVars := mk_vars {
  vr_run_id : option (list Z);
  vr_profile : ReportProfile;
  vr_hyf_repo_path : option (list Z);
  vr_expected_hyf_commit : option (list Z);
  vr_started_at : option (list Z);
  vr_rust_toolchain : option (list Z);
  vr_os : list Z;
  vr_arch : list Z;
  vr_output : option (list Z);
  vr_reticulum_path : option (list Z);
  vr_capture_dir : option (list Z);
  vr_report_path_root : option (list Z);
  vr_require_oracle : bool;
}.
Definition Args_action (v : ArgVars) (arg : list Z) : arg_action ArgVars :=
  let 'mk_vars run profile repo commit started toolchain os arch output reticulum capture root oracle := v in
  choose arg
    [(str "--profile", Takes (fun value => profile ← ReportProfile_parse value; Ok (mk_vars run profile repo commit started toolchain os arch output reticulum capture root oracle)));
     (str "--run-id", Takes (fun value => Ok (mk_vars (Some value) profile repo commit started toolchain os arch output reticulum capture root oracle)));
     (str "--hyf-repo-path", Takes (fun value => Ok (mk_vars run profile (Some value) commit started toolchain os arch output reticulum capture root oracle)));
     (str "--expected-hyf-commit", Takes (fun value => Ok (mk_vars run profile repo (Some value) started toolchain os arch output reticulum capture root oracle)));
     (str "--started-at", Takes (fun value => Ok (mk_vars run profile repo commit (Some value) toolchain os arch output reticulum capture root oracle)));
     (str "--rust-toolchain", Takes (fun value => Ok (mk_vars run profile repo commit started (Some value) os arch output reticulum capture root oracle)));
     (str "--os", Takes (fun value => Ok (mk_vars run profile repo commit started toolchain value arch output reticulum capture root oracle)));
     (str "--arch", Takes (fun value => Ok (mk_vars run profile repo commit started toolchain os value output reticulum capture root oracle)));
     (str "--output", Takes (fun value => Ok (mk_vars run profile repo commit started toolchain os arch (Some value) reticulum capture root oracle)));
     (str "--reticulum-path", Takes (fun value => Ok (mk_vars run profile repo commit started toolchain os arch output (Some value) capture root oracle)));
     (str "--capture-dir", Takes (fun value => Ok (mk_vars run profile repo commit started toolchain os arch output reticulum (Some value) root oracle)));
     (str "--report-path-root", Takes (fun value => Ok (mk_vars run profile repo commit started toolchain os arch output reticulum capture (Some value) oracle)));
     (str "--require-oracle", Flag (mk_vars run profile repo commit started toolchain os arch output reticulum capture root true))].
Definition Args_parse `{Host} (args : list (list Z)) : outcome CliError Args :=
  v ← parse_loop Args_action (mk_vars None ReportProfile0 None None None None OS ARCH None None None None false) args;
  run_id ← required (vr_run_id v) (str "--run-id");
  hyf_repo_path ← required_path (vr_hyf_repo_path v) (str "--hyf-repo-path");
  started_at ← required (vr_started_at v) (str "--started-at");
  rust_toolchain ← required (vr_rust_toolchain v) (str "--rust-toolchain");
  output ← required (vr_output v) (str "--output");
  Ok (mk_args (vr_profile v) run_id hyf_repo_path (vr_expected_hyf_commit v) started_at rust_toolchain (vr_os v) (vr_arch v) output (vr_reticulum_path v)
        (vr_capture_dir v) (vr_report_path_root v) (vr_require_oracle v)).

Inductive CliCommand := Generate (args : Args) | Profile2ProofInputs (args : ProofInputArgs) | Validate (args : ValidateArgs).
Definition CliCommand_parse `{Host} (args : list (list Z)) : outcome CliError CliCommand :=
  if bool_decide (list.head args = Some (str "profile2-proof-inputs")) then args ← ProofInputArgs_parse (drop 1 args); Ok (Profile2ProofInputs args)
  else if bool_decide (list.head args = Some (str "validate")) then args ← ValidateArgs_parse (drop 1 args); Ok (Validate args)
  else args ← Args_parse args; Ok (Generate args).

(** ** Final reports *)
Definition is_full_lower_hex_commit (commit : list Z) : bool :=
  (len commit =? 40) && forallb (fun byte => is_ascii_hexdigit byte && negb (is_ascii_uppercase byte)) commit.

Definition is_ascii_digit : Z -> bool := in_range 48 57.
(** The sums are below the width of [u16] and [u8]. *)
Definition parse_four_digits (bytes : list Z) : option Z :=
  match bytes with
  | [a; b; c; d] =>
      if negb (forallb is_ascii_digit bytes) then None
      else Some ((a - 48) * 1000 + (b - 48) * 100 + (c - 48) * 10 + (d - 48))
  | _ => None
  end.
Definition parse_two_digits (bytes : list Z) : option Z :=
  match bytes with
  | [a; b] => if negb (is_ascii_digit a) || negb (is_ascii_digit b) then None else Some ((a - 48) * 10 + (b - 48))
  | _ => None
  end.
Definition is_leap_year (year : Z) : bool := (year mod 4 =? 0) && (negb (year mod 100 =? 0) || (year mod 400 =? 0)).
Definition days_in_month (year month : Z) : option Z :=
  if existsb (Z.eqb month) [1; 3; 5; 7; 8; 10; 12] then Some 31
  else if existsb (Z.eqb month) [4; 6; 9; 11] then Some 30
  else if month =? 2 then Some (if is_leap_year year then 29 else 28)
  else None.

(** [let Some(a) = m else { return false; }] *)
Definition some_or_false {E A} (m : option A) (k : A -> outcome E bool) : outcome E bool := match m with Some a => k a | None => Ok false end.
(** [positions.iter().any(|position| !bytes[*position].is_ascii_digit())] *)
Fixpoint any_not_digit {E} (bytes positions : list Z) : outcome E bool :=
  match positions with
  | [] => Ok false
  | position :: positions =>
      byte ← index bytes position;
      if negb (is_ascii_digit byte) then Ok true else any_not_digit bytes positions
  end.
(** [bytes[a] != b || ..] *)
Fixpoint any_differs {E} (bytes : list Z) (expected : list (Z * Z)) : outcome E bool :=
  match expected with
  | [] => Ok false
  | (position, byte) :: expected =>
      actual ← index bytes position;
      if negb (actual =? byte) then Ok true else any_differs bytes expected
  end.
Definition is_final_started_at {E} (timestamp : list Z) : outcome E bool :=
  let bytes := timestamp in
  if negb (len bytes =? 20) then Ok false
  else
    differs ← any_differs bytes [(4, 45); (7, 45); (10, 84); (13, 58); (16, 58); (19, 90)];
    if (differs : bool) then Ok false
    else
      bad ← any_not_digit bytes [0; 1; 2; 3; 5; 6; 8; 9; 11; 12; 14; 15; 17; 18];
      if (bad : bool) then Ok false
      else
        year ← slice bytes 0 4;
        some_or_false (parse_four_digits year) (fun year =>
        month ← slice bytes 5 7;
        some_or_false (parse_two_digits month) (fun month =>
        day ← slice bytes 8 10;
        some_or_false (parse_two_digits day) (fun day =>
        hour ← slice bytes 11 13;
        some_or_false (parse_two_digits hour) (fun hour =>
        minute ← slice bytes 14 16;
        some_or_false (parse_two_digits minute) (fun minute =>
        second ← slice bytes 17 19;
        some_or_false (parse_two_digits second) (fun second =>
        some_or_false (days_in_month year month) (fun max_day =>
        Ok ((1 <=? day) && (day <=? max_day) && (hour <=? 23) && (minute <=? 59) && (second <=? 59)))))))))
.

Definition required_string_is_populated (value : list Z) : bool := negb (len value =? 0).
Definition optional_string_is_populated (value : option (list Z)) : bool := match value with Some value => required_string_is_populated value | None => true end.
Definition final_environment_required_strings_are_populated (environment : ConformanceEnvironment) : bool :=
  required_string_is_populated (ce_os environment) && required_string_is_populated (ce_arch environment) && required_string_is_populated (ce_rust_toolchain environment).
Definition final_results_required_strings_are_populated (results : list ConformanceResult) : bool :=
  forallb (fun result => required_string_is_populated (cr_id result) && required_string_is_populated (cr_category result)
    && optional_string_is_populated (cr_detail result)) results.
Definition final_oracle_required_strings_are_populated (oracle : OracleEnvironment) : bool :=
  required_string_is_populated (oe_reticulum_module_path oracle) && required_string_is_populated (oe_reticulum_commit oracle)
  && optional_string_is_populated (oe_rns_version oracle) && required_string_is_populated (oe_cryptography_version oracle)
  && required_string_is_populated (oe_pyserial_version oracle).

Definition final_invalid {A} (reason : string) : outcome CliError A := Err (FinalReportInvalid (str reason)).

(** The ids and categories seen so far, the [BTreeSet]s. *)
Fixpoint insert_seen (seen_ids seen_categories : gset (list Z)) (results : list ConformanceResult) : outcome CliError (gset (list Z)) :=
  match results with
  | [] => Ok seen_ids
  | result :: results =>
      if bool_decide (cr_id result ∈ seen_ids) then final_invalid "duplicate Profile 0 result id"
      else if bool_decide (cr_category result ∈ seen_categories) then final_invalid "duplicate Profile 0 result category"
      else insert_seen ({[cr_id result]} ∪ seen_ids) ({[cr_category result]} ∪ seen_categories) results
  end.
Definition check_profile0_row (result : ConformanceResult) : outcome CliError unit :=
  match List.find (fun row => bool_decide (fst row = cr_id result)) REQUIRED_PROFILE_0_RESULTS with
  | None => final_invalid "unexpected Profile 0 result id"
  | Some (_, expected_category) => if negb (bool_decide (cr_category result = expected_category)) then final_invalid "Profile 0 result category mismatch" else Ok tt
  end.
Definition check_profile0_id (seen_ids : gset (list Z)) (row : list Z * list Z) : outcome CliError unit :=
  if negb (bool_decide (fst row ∈ seen_ids)) then final_invalid "missing required Profile 0 result id" else Ok tt.
Definition validate_final_profile0_results (results : list ConformanceResult) : outcome CliError unit :=
  if negb (len results =? len REQUIRED_PROFILE_0_RESULTS) then final_invalid "Profile 0 result count mismatch"
  else
    seen_ids ← insert_seen ∅ ∅ results;
    _ ← for_each check_profile0_row results;
    for_each (check_profile0_id seen_ids) REQUIRED_PROFILE_0_RESULTS.

Definition validate_final_oracle_metadata (oracle : OracleEnvironment) (expected_oracle_module_path : option (list Z)) : outcome CliError unit :=
  if match expected_oracle_module_path with Some p => negb (bool_decide (oe_reticulum_module_path oracle = p)) | None => false end
  then final_invalid "oracle Reticulum module path mismatch"
  else if negb (bool_decide (oe_reticulum_commit oracle = EXPECTED_RETICULUM_COMMIT)) then final_invalid "oracle reticulum commit mismatch"
  else if negb (bool_decide (oe_rns_version oracle = Some EXPECTED_ORACLE_RNS_VERSION)) then final_invalid "oracle RNS version mismatch"
  else if negb (bool_decide (oe_cryptography_version oracle = EXPECTED_ORACLE_CRYPTOGRAPHY_VERSION)) then final_invalid "oracle cryptography version mismatch"
  else if negb (bool_decide (oe_pyserial_version oracle = EXPECTED_ORACLE_PYSERIAL_VERSION)) then final_invalid "oracle pyserial version mismatch"
  else Ok tt.

Definition validate_final_profile0_report (report : ConformanceRun) (expected_oracle_module_path : option (list Z)) : outcome CliError unit :=
  if negb (bool_decide (run_schema report = CONFORMANCE_RUN_SCHEMA)) then final_invalid "schema mismatch"
  else if negb (bool_decide (run_profile report = EXPECTED_PROFILE)) then final_invalid "profile mismatch"
  else if negb (required_string_is_populated (run_id report)) then final_invalid "empty run id"
  else if negb (is_full_lower_hex_commit (run_hyf_commit report)) then final_invalid "invalid hyf commit"
  else if negb (bool_decide (run_reticulum_commit report = EXPECTED_RETICULUM_COMMIT)) then final_invalid "reticulum commit mismatch"
  else
    final_started_at ← is_final_started_at (run_started_at report);
    if negb final_started_at then final_invalid "invalid started_at"
    else if negb (final_environment_required_strings_are_populated (run_environment report)) then final_invalid "empty environment field"
    else if negb (final_results_required_strings_are_populated (run_results report)) then final_invalid "empty result field"
    else if existsb (fun result => bool_decide (cr_status result = ConfFailed)) (run_results report) then final_invalid "failed result present"
    else if existsb (fun result => bool_decide (cr_status result = ConfInvalidEnvironment)) (run_results report) then final_invalid "invalid environment result present"
    else
      _ ← validate_final_profile0_results (run_results report);
      match ce_oracle (run_environment report) with
      | None => final_invalid "missing oracle metadata"
      | Some oracle =>
          if negb (final_oracle_required_strings_are_populated oracle) then final_invalid "empty oracle field"
          else validate_final_oracle_metadata oracle expected_oracle_module_path
      end.

Definition validate_profile2_oracle_path (report : ConformanceRun) (expected_oracle_module_path : list Z) : outcome CliError unit :=
  match ce_oracle (run_environment report) with
  | None => final_invalid "missing oracle metadata"
  | Some oracle =>
      if negb (bool_decide (oe_reticulum_module_path oracle = expected_oracle_module_path)) then final_invalid "oracle Reticulum module path mismatch" else Ok tt
  end.

Inductive FinalProfileRequirement := RequireNone | RequireSome (profile : ReportProfile).
(** [From<Option<ReportProfile>>] and [From<bool>] *)
Definition requirement_from_option (value : option ReportProfile) : FinalProfileRequirement := match value with Some profile => RequireSome profile | None => RequireNone end.
Definition requirement_from_bool (value : bool) : FinalProfileRequirement := if value then RequireSome ReportProfile0 else RequireNone.

Definition validate_report_bytes `{FromJson ConformanceRun} (input : list Z) (require_final_profile : FinalProfileRequirement) (expected_oracle_module_path : option (list Z))
    : outcome CliError ConformanceRun :=
  report ← map_err CliJson (from_str input);
  _ ← match require_final_profile with
      | RequireSome ReportProfile0 => validate_final_profile0_report report expected_oracle_module_path
      | RequireSome ReportProfile1 => map_err FinalReport (validate_profile_1_final_report report)
      | RequireSome ReportProfile2 =>
          _ ← map_err FinalReport (validate_profile_2_final_report report);
          match expected_oracle_module_path with
          | Some expected_oracle_module_path => validate_profile2_oracle_path report expected_oracle_module_path
          | None => Ok tt
          end
      | RequireNone => Ok tt
      end;
  Ok report.

(** ** The source repositories *)
Inductive GitSource := Hyf | Reticulum.
Definition dirty_worktree_error (source : GitSource) : CliError := match source with Hyf => DirtyHyfWorktree | Reticulum => DirtyReticulumWorktree end.
Definition invalid_commit_error (source : GitSource) (commit : list Z) : CliError := match source with Hyf => InvalidHyfCommit commit | Reticulum => CliInvalidReticulumCommit commit end.
Definition expected_commit_mismatch_error (source : GitSource) (expected actual : list Z) : CliError :=
  match source with Hyf => ExpectedHyfCommitMismatch expected actual | Reticulum => ExpectedReticulumCommitMismatch expected actual end.

Section repositories.
Context `{Host}.

Definition git_stdout (repo_path : list Z) (args : list (list Z)) : outcome CliError (list Z) :=
  output ← map_err GitCommandUnavailable (of_host (command_output (str "git") (git_args repo_path args) []));
  if negb (output_success output) then Err GitCommandFailed else Ok (trim (from_utf8_lossy (output_stdout output))).

Definition validate_git_source_state (repo_path : list Z) (expected_commit : option (list Z)) (source : GitSource) : outcome CliError (list Z) :=
  commit ← git_stdout repo_path [str "rev-parse"; str "HEAD"];
  if negb (is_full_lower_hex_commit commit) then Err (invalid_commit_error source commit)
  else
    status ← git_stdout repo_path [str "status"; str "--porcelain"; str "--untracked-files=all"];
    if negb (len status =? 0) then Err (dirty_worktree_error source)
    else
      match expected_commit with
      | Some expected_commit => if negb (bool_decide (expected_commit = commit)) then Err (expected_commit_mismatch_error source expected_commit commit) else Ok commit
      | None => Ok commit
      end.
Definition derive_hyf_commit (hyf_repo_path : list Z) (expected_hyf_commit : option (list Z)) : outcome CliError (list Z) :=
  validate_git_source_state hyf_repo_path expected_hyf_commit Hyf.

Definition validate_final_report_provenance (report : ConformanceRun) (args : ValidateArgs) : outcome CliError unit :=
  hyf_repo_path ← required_path (va_hyf_repo_path args) (str "--hyf-repo-path");
  _ ← validate_git_source_state hyf_repo_path (Some (run_hyf_commit report)) Hyf;
  reticulum_path ← required_path (va_reticulum_path args) (str "--reticulum-path");
  _ ← validate_git_source_state reticulum_path (Some (run_reticulum_commit report)) Reticulum;
  match va_expected_oracle_module_path args with
  | Some expected_oracle_module_path =>
      match ce_oracle (run_environment report) with
      | None => final_invalid "missing oracle metadata"
      | Some oracle =>
          if negb (bool_decide (oe_reticulum_module_path oracle = expected_oracle_module_path))
          then Err (ExpectedOracleModulePathMismatch expected_oracle_module_path (oe_reticulum_module_path oracle))
          else Ok tt
      end
  | None => Ok tt
  end.

(** *** Paths of a report *)
(** [MAIN_SEPARATOR] is the slash. *)
Definition path_to_report_string (path : list Z) : outcome CliError (list Z) := if utf8_ok path then Ok path else Err NonUtf8Path.
Definition report_relative_path (module_path report_path_root : list Z) : outcome CliError (list Z) :=
  module_path ← map_err (PathCanonicalize module_path) (of_host (canonicalize module_path));
  report_path_root ← map_err (PathCanonicalize report_path_root) (of_host (canonicalize report_path_root));
  match strip_prefix module_path report_path_root with
  | None => Err ReportPathRootMismatch
  | Some relative_path => path_to_report_string relative_path
  end.

Definition set_oracle (report : ConformanceRun) (oracle : OracleEnvironment) : ConformanceRun :=
  mk_run (run_schema report) (run_id report) (run_profile report) (run_hyf_commit report) (run_reticulum_commit report) (run_started_at report)
    (with_oracle (run_environment report) oracle) (run_results report).
Definition set_module_path (o : OracleEnvironment) (path : list Z) : OracleEnvironment :=
  mk_oracle path (oe_reticulum_commit o) (oe_rns_version o) (oe_cryptography_version o) (oe_pyserial_version o).
(** The report after the overrides. *)
Definition apply_report_overrides (report : ConformanceRun) (args : Args) : outcome CliError ConformanceRun :=
  if (ar_require_oracle args || bool_decide (ar_profile args = ReportProfile2) && bool_decide (is_Some (ar_capture_dir args)))
     && bool_decide (ar_report_path_root args = None)
  then Err (MissingRequired (str "--report-path-root"))
  else
    match ar_report_path_root args with
    | None => Ok report
    | Some report_path_root =>
        match ce_oracle (run_environment report) with
        | None => Err ReportPathRootRequiresOracle
        | Some oracle =>
            if is_absolute (oe_reticulum_module_path oracle) then
              path ← report_relative_path (oe_reticulum_module_path oracle) report_path_root;
              Ok (set_oracle report (set_module_path oracle path))
            else Ok report
        end
    end.
End repositories.

(** ** Commands *)
(** Standard output, [File::create] and [write_all]. *)
Class Writer (W : Type) := {
  write_stdout : list Z -> io W (list Z) unit;
  create_file : list Z -> io W (list Z) unit;
  write_file : list Z -> list Z -> io W (list Z) unit;
}.

Section commands.
(** [cfg!(feature = "python_oracle")] *)
Context (python_oracle : bool).
Context `{J : JsonDoc, P : RnsPrims, L : !RnsPrimsLaws P, HO : Host, WW : Writer W}.
Context `{JP : FromJson OracleProbeOutput, JR : FromJson OracleResponse, JQ : ToJson OracleRequest}.
Context `{F0 : Profile0Files, F1 : Profile1Files, F2 : Profile2Files}.
Context `{J1 : FromJson (FixtureFile IdentityCase), J2 : FromJson (FixtureCasesFile DestinationHashCase), J3 : FromJson (FixtureCasesFile PacketHeaderCase),
  J4 : FromJson (FixtureCasesFile PacketHashCase), J5 : FromJson (FixtureCasesFile AnnounceCase), J6 : FromJson (FixtureCasesFile AnnounceNegativeCase),
  JC : FromJson (FixtureCasesFile jdoc), JM : FromJson ManifestFile}.
Context `{RJ : FromJson ConformanceRun, RW : ToJson ConformanceRun, PW : ToJson Profile2RustProofInputs}.

Definition build_profile0_report (args : Args) (environment : ConformanceEnvironment) (hyf_commit : list Z) : outcome CliError ConformanceRun :=
  let plain := profile_0_report (ar_run_id args) hyf_commit (ar_started_at args) environment in
  if bool_decide (is_Some (ar_capture_dir args)) then Err (CaptureDirUnsupportedForProfile (ar_profile args))
  else if python_oracle then
    if ar_require_oracle args then
      match ar_reticulum_path args with
      | None => Err (MissingRequired (str "--reticulum-path"))
      | Some reticulum_path =>
          map_err CliOracle (profile_0_report_with_required_oracle (ar_run_id args) hyf_commit (ar_started_at args) environment reticulum_path)
      end
    else if bool_decide (is_Some (ar_reticulum_path args)) then Err OraclePathRequiresOracle
    else plain
  else if ar_require_oracle args || bool_decide (is_Some (ar_reticulum_path args)) then Err PythonOracleFeatureDisabled
  else plain.

Definition build_report (args : Args) (environment : ConformanceEnvironment) (hyf_commit : list Z) : outcome CliError ConformanceRun :=
  match ar_profile args with
  | ReportProfile0 => build_profile0_report args environment hyf_commit
  | ReportProfile1 =>
      if ar_require_oracle args || bool_decide (is_Some (ar_reticulum_path args)) then Err (OracleNotSupportedForProfile (ar_profile args))
      else
        match ar_capture_dir args with
        | None => profile_1_report (ar_run_id args) hyf_commit (ar_started_at args) environment
        | Some capture_dir =>
            evidence ← map_err FinalReport (Profile1.from_capture_dir capture_dir);
            map_err FinalReport (profile_1_final_report (ar_run_id args) hyf_commit (ar_started_at args) environment evidence)
        end
  | ReportProfile2 =>
      if ar_require_oracle args || bool_decide (is_Some (ar_reticulum_path args)) then Err (OracleNotSupportedForProfile (ar_profile args))
      else
        match ar_capture_dir args with
        | None => profile_2_report (ar_run_id args) hyf_commit (ar_started_at args) environment
        | Some capture_dir =>
            match ar_report_path_root args with
            | None => Err (MissingRequired (str "--report-path-root"))
            | Some report_path_root =>
                evidence ← map_err FinalReport (Profile2.from_capture_dir capture_dir);
                oracle_module_path ← report_relative_path (oe_reticulum_module_path (oracle_environment evidence)) report_path_root;
                let evidence := with_oracle_module_path evidence oracle_module_path in
                map_err FinalReport (profile_2_final_report (ar_run_id args) hyf_commit (ar_started_at args) environment evidence)
            end
        end
  end.

Definition write_output (output json : list Z) : io W CliError unit :=
  if bool_decide (output = str "-") then
    _ ← io_map_err CliIo (write_stdout json);
    io_map_err CliIo (write_stdout [10])
  else
    _ ← io_map_err CliIo (create_file output);
    _ ← io_map_err CliIo (write_file output json);
    io_map_err CliIo (write_file output [10]).

(** The report [run_generate] writes. *)
Definition generated_report (args : Args) : outcome CliError ConformanceRun :=
  hyf_commit ← derive_hyf_commit (ar_hyf_repo_path args) (ar_expected_hyf_commit args);
  let environment := ConformanceEnvironment_new (ar_os args) (ar_arch args) (ar_rust_toolchain args) in
  report ← build_report args environment hyf_commit;
  apply_report_overrides report args.
Definition run_generate (args : Args) : io W CliError unit :=
  report ← lift (generated_report args);
  json ← lift (map_err CliJson (to_vec_pretty report));
  write_output (ar_output args) json.

Definition or_else {A} (a b : option A) : option A := match a with Some _ => a | None => b end.
Definition then_some {A} (b : bool) (a : A) : option A := if b then Some a else None.
Definition run_validate (args : ValidateArgs) : outcome CliError unit :=
  if negb (va_require_final_provenance args) && (bool_decide (is_Some (va_hyf_repo_path args)) || bool_decide (is_Some (va_reticulum_path args)))
  then Err RepoPathRequiresFinalProvenance
  else
    input ← map_err CliIo (of_host (read_file (va_input args)));
    let require_final_profile :=
      or_else (or_else (or_else (va_require_final_profile args)
        (then_some (va_require_final_profile0 args) ReportProfile0))
        (then_some (va_require_final_provenance args) ReportProfile0))
        (then_some (bool_decide (is_Some (va_expected_oracle_module_path args))) ReportProfile0) in
    report ← validate_report_bytes input (requirement_from_option require_final_profile) (va_expected_oracle_module_path args);
    if va_require_final_provenance args then validate_final_report_provenance report args else Ok tt.

Definition run_profile2_proof_inputs (args : ProofInputArgs) : io W CliError unit :=
  proof_inputs ← lift (map_err FinalReport profile_2_rust_proof_inputs);
  json ← lift (map_err CliJson (to_vec_pretty proof_inputs));
  write_output (pa_output args) json.

(** The arguments are those after the name of the program. *)
Definition run (args : list (list Z)) : io W CliError unit :=
  command ← lift (CliCommand_parse args);
  match command with
  | Generate args => run_generate args
  | Profile2ProofInputs args => run_profile2_proof_inputs args
  | Validate args => lift (run_validate args)
  end.
End commands.

(** ** Lemmas: arguments *)
(** A flag on the command line, with its value if it takes one. *)
Definition item : Type := list Z * option (list Z).
Definition tokens (i : item) : list (list Z) := fst i :: option_list (snd i).
Definition command_tokens (items : list item) : list (list Z) := concat (map tokens items).
Definition value_ok (value : list Z) : Prop := starts_with value (str "--") = false.

(** The flags, one after the other, lead from the variables [s] to [s']. *)
Inductive stated {S} (action : S -> list Z -> arg_action S) : S -> list item -> S -> Prop :=
| stated_nil s : stated action s [] s
| stated_flag s s1 s' flag items : action s flag = Flag s1 -> stated action s1 items s' -> stated action s ((flag, None) :: items) s'
| stated_value s k s1 s' flag value items : action s flag = Takes k -> value_ok value -> k value = Ok s1 -> stated action s1 items s' ->
    stated action s ((flag, Some value) :: items) s'.

Lemma parse_stated {S} (action : S -> list Z -> arg_action S) s items s' : stated action s items s' -> parse_loop action s (command_tokens items) = Ok s'.
Proof.
  induction 1 as [s|s s1 s' flag items Ha _ IH|s k s1 s' flag value items Ha Hv Hk _ IH]; [done| |]; unfold command_tokens in *; cbn [map concat tokens fst snd option_list app parse_loop]; rewrite Ha; [exact IH|].
  cbn [option_list option_rect app]. unfold value_ok in Hv. change (option_list (Some value) ++ ?l) with (value :: l). cbn iota. rewrite Hv, Hk. cbn [mbind outcome_bind]. exact IH.
Qed.
Lemma parse_loop_ok {S} (action : S -> list Z -> arg_action S) args : forall s s',
  parse_loop action s args = Ok s' <-> exists items, args = command_tokens items /\ stated action s items s'.
Proof.
  intros s s'. split; [|intros (items & -> & H); by apply parse_stated].
  remember (length args) as n eqn:Hn. revert args Hn s. induction (lt_wf n) as [n _ IH]. intros args -> s.
  destruct args as [|arg args]; cbn [parse_loop]; [intros [= ->]; exists []; split; [done|constructor]|].
  destruct (action s arg) as [s1|k| |] eqn:Ha; [| |done..].
  - intros H. destruct (IH (length args) ltac:(cbn; lia) args eq_refl s1 H) as (items & -> & Hs). exists ((arg, None) :: items). split; [done|]. by eapply stated_flag.
  - destruct args as [|value args]; [done|]. destruct (starts_with value _) eqn:Hv; [done|]. intros (s1 & Hk & H)%bind_ok.
    destruct (IH (length args) ltac:(cbn; lia) args eq_refl s1 H) as (items & -> & Hs). exists ((arg, Some value) :: items). split; [done|]. by eapply stated_value.
Qed.

Lemma profile_parse_str profile : ReportProfile_parse (ReportProfile_as_str profile) = Ok profile.
Proof. destruct profile; vm_compute; reflexivity. Qed.

(** The command lines that say what a command is. *)
Definition optional (flag : list Z) (value : option (list Z)) : list item := match value with Some value => [(flag, Some value)] | None => [] end.
Definition switch (flag : list Z) (b : bool) : list item := if b then [(flag, None)] else [].
Definition Args_items (a : Args) : list item :=
  [(str "--profile", Some (ReportProfile_as_str (ar_profile a))); (str "--run-id", Some (ar_run_id a)); (str "--hyf-repo-path", Some (ar_hyf_repo_path a));
   (str "--started-at", Some (ar_started_at a)); (str "--rust-toolchain", Some (ar_rust_toolchain a)); (str "--os", Some (ar_os a)); (str "--arch", Some (ar_arch a));
   (str "--output", Some (ar_output a))]
  ++ optional (str "--expected-hyf-commit") (ar_expected_hyf_commit a) ++ optional (str "--reticulum-path") (ar_reticulum_path a)
  ++ optional (str "--capture-dir") (ar_capture_dir a) ++ optional (str "--report-path-root") (ar_report_path_root a)
  ++ switch (str "--require-oracle") (ar_require_oracle a).
Definition ValidateArgs_items (a : ValidateArgs) : list item :=
  [(str "--input", Some (va_input a))] ++ switch (str "--require-final-profile0") (va_require_final_profile0 a)
  ++ optional (str "--require-final-profile") (ReportProfile_as_str <$> va_require_final_profile a)
  ++ switch (str "--require-final-provenance") (va_require_final_provenance a) ++ optional (str "--hyf-repo-path") (va_hyf_repo_path a)
  ++ optional (str "--reticulum-path") (va_reticulum_path a) ++ optional (str "--expected-oracle-module-path") (va_expected_oracle_module_path a).
Definition command_line (c : CliCommand) : list (list Z) :=
  match c with
  | Generate a => command_tokens (Args_items a)
  | Profile2ProofInputs a => str "profile2-proof-inputs" :: command_tokens [(str "--output", Some (pa_output a))]
  | Validate a => str "validate" :: command_tokens (ValidateArgs_items a)
  end.
(** No value of it looks like a flag. *)
Definition values_ok (items : list item) : Prop := Forall (fun i => from_option value_ok True (snd i)) items.
Definition command_ok (c : CliCommand) : Prop :=
  match c with Generate a => values_ok (Args_items a) | Profile2ProofInputs a => value_ok (pa_output a) | Validate a => values_ok (ValidateArgs_items a) end.

Lemma stated_app {S} (action : S -> list Z -> arg_action S) s items s1 items' s' : stated action s items s1 -> stated action s1 items' s' -> stated action s (items ++ items') s'.
Proof. induction 1; [done|..]; intros; [eapply stated_flag|eapply stated_value]; eauto. Qed.
Lemma stated_optional {S} (action : S -> list Z -> arg_action S) s flag value s1 :
  from_option value_ok True value ->
  match value with Some value => exists k, action s flag = Takes k /\ k value = Ok s1 | None => s1 = s end -> stated action s (optional flag value) s1.
Proof.
  destruct value as [value|]; cbn; [|intros _ ->; constructor]. intros Hv (k & Ha & Hk). eapply stated_value; [done..|constructor].
Qed.
Lemma stated_switch {S} (action : S -> list Z -> arg_action S) s flag (b : bool) s1 : (if b then action s flag = Flag s1 else s1 = s) -> stated action s (switch flag b) s1.
Proof. destruct b; cbn; [intros Ha; eapply stated_flag; [done|constructor]|intros ->; constructor]. Qed.
(** An optional part of a command line, and a flag. *)
Ltac state_optional s := eapply (stated_app _ _ _ s); [apply stated_optional; [done|case_match; [eexists; split; reflexivity|reflexivity]]|].
Ltac state_switch s := eapply (stated_app _ _ _ s); [apply stated_switch; case_match; reflexivity|].
Lemma values_ok_app items items' : values_ok (items ++ items') <-> values_ok items /\ values_ok items'.
Proof. apply list.Forall_app. Qed.
Lemma values_ok_optional flag value : values_ok (optional flag value) <-> from_option value_ok True value.
Proof. unfold values_ok. destruct value; cbn; [rewrite list.Forall_singleton; done|by split]. Qed.

Lemma Args_stated `{Host} a : values_ok (Args_items a) ->
  stated Args_action (mk_vars None ReportProfile0 None None None None OS ARCH None None None None false) (Args_items a)
    (mk_vars (Some (ar_run_id a)) (ar_profile a) (Some (ar_hyf_repo_path a)) (ar_expected_hyf_commit a) (Some (ar_started_at a)) (Some (ar_rust_toolchain a))
       (ar_os a) (ar_arch a) (Some (ar_output a)) (ar_reticulum_path a) (ar_capture_dir a) (ar_report_path_root a) (ar_require_oracle a)).
Proof.
  destruct a as [profile run repo commit started toolchain os arch output reticulum capture root oracle].
  unfold Args_items. cbn [ar_profile ar_run_id ar_hyf_repo_path ar_expected_hyf_commit ar_started_at ar_rust_toolchain ar_os ar_arch ar_output ar_reticulum_path ar_capture_dir ar_report_path_root ar_require_oracle].
  rewrite !values_ok_app, !values_ok_optional. intros (Hv & H1 & H2 & H3 & H4 & _). unfold values_ok in Hv. rewrite !list.Forall_cons in Hv. cbn [snd from_option] in Hv.
  destruct Hv as (_ & ? & ? & ? & ? & ? & ? & ? & _). assert (value_ok (ReportProfile_as_str profile)) as Hp by (destruct profile; vm_compute; reflexivity).
  set (v := mk_vars (Some run) profile (Some repo)). eapply (stated_app _ _ _ (v None (Some started) (Some toolchain) os arch (Some output) None None None false)).
  { eapply stated_value; [reflexivity|done|cbv beta; rewrite profile_parse_str; cbn [mbind outcome_bind]; reflexivity|].
    do 7 (eapply stated_value; [reflexivity|done|reflexivity|]). apply stated_nil. }
  state_optional (v commit (Some started) (Some toolchain) os arch (Some output) None None None false).
  state_optional (v commit (Some started) (Some toolchain) os arch (Some output) reticulum None None false).
  state_optional (v commit (Some started) (Some toolchain) os arch (Some output) reticulum capture None false).
  state_optional (v commit (Some started) (Some toolchain) os arch (Some output) reticulum capture root false).
  apply stated_switch. by destruct oracle.
Qed.
Lemma ValidateArgs_stated a : values_ok (ValidateArgs_items a) ->
  stated ValidateArgs_action (mk_validate_vars None false None false None None None) (ValidateArgs_items a)
    (mk_validate_vars (Some (va_input a)) (va_require_final_profile0 a) (va_require_final_profile a) (va_require_final_provenance a) (va_hyf_repo_path a)
       (va_reticulum_path a) (va_expected_oracle_module_path a)).
Proof.
  destruct a as [input p0 profile provenance hyf reticulum module]. unfold ValidateArgs_items.
  cbn [va_input va_require_final_profile0 va_require_final_profile va_require_final_provenance va_hyf_repo_path va_reticulum_path va_expected_oracle_module_path].
  rewrite !values_ok_app, !values_ok_optional. intros (Hv & _ & _ & _ & H1 & H2 & H3). unfold values_ok in Hv. rewrite list.Forall_singleton in Hv. cbn [snd from_option] in Hv.
  assert (from_option value_ok True (ReportProfile_as_str <$> profile)) as Hp by (destruct profile as [[]|]; vm_compute; done).
  set (v := mk_validate_vars (Some input)). eapply (stated_app _ _ _ (v false None false None None None)); [eapply stated_value; [reflexivity|done|reflexivity|apply stated_nil]|].
  state_switch (v p0 None false None None None).
  eapply (stated_app _ _ _ (v p0 profile false None None None)).
  { apply stated_optional; [done|]. destruct profile as [profile|]; cbn; [|done]. eexists. split; [reflexivity|]. cbv beta. by rewrite profile_parse_str. }
  state_switch (v p0 profile provenance None None None). state_optional (v p0 profile provenance hyf None None). state_optional (v p0 profile provenance hyf reticulum None).
  apply stated_optional; [done|]. destruct module; [eexists; split; reflexivity|reflexivity].
Qed.

Lemma command_parse_ok `{Host} c : command_ok c -> CliCommand_parse (command_line c) = Ok c.
Proof.
  destruct c as [a|[output]|a]; cbn [command_ok command_line].
  - intros Hv%Args_stated. apply parse_stated in Hv. assert (list.head (command_tokens (Args_items a)) = Some (str "--profile")) as Hh by done.
    unfold CliCommand_parse. rewrite Hh, !bool_decide_eq_false_2 by (intros [=]). unfold Args_parse. rewrite Hv. by destruct a.
  - intros Hv. cbn [pa_output] in *. unfold CliCommand_parse. cbn [list.head]. rewrite bool_decide_eq_true_2 by done. cbn [drop]. rewrite drop_0. unfold ProofInputArgs_parse.
    assert (stated ProofInputArgs_action None [(str "--output", Some output)] (Some output)) as Hs%parse_stated; [|by rewrite Hs]. eapply stated_value; [reflexivity|done|reflexivity|apply stated_nil].
  - intros Hv%ValidateArgs_stated. apply parse_stated in Hv. unfold CliCommand_parse. cbn [list.head]. rewrite bool_decide_eq_false_2 by (intros [=]).
    rewrite bool_decide_eq_true_2 by done. cbn [drop]. rewrite drop_0. unfold ValidateArgs_parse. rewrite Hv. by destruct a.
Qed.

(** ** Lemmas: timestamps *)
#[local] Instance divide_decision a b : Decision (a | b).
Proof.
  destruct (decide (a = 0)) as [->|Ha]; [destruct (decide (b = 0)) as [->|Hb]; [left; exists 0; lia|right; intros [k Hk]; lia]|].
  destruct (decide (b mod a = 0)); [left; by apply Z.mod_divide|right; by rewrite <- Z.mod_divide].
Defined.
(** The lengths of the months of a year of the Gregorian calendar. *)
Definition month_lengths (year : Z) : list Z :=
  [31; if bool_decide ((4 | year) /\ ~ (100 | year) \/ (400 | year)) then 29 else 28; 31; 30; 31; 30; 31; 31; 30; 31; 30; 31].
(** A date and a time of day. *)
Record moment := mk_moment { mo_year : Z; mo_month : Z; mo_day : Z; mo_hour : Z; mo_minute : Z; mo_second : Z }.
Record moment_ok (m : moment) : Prop := {
  mk_year : 0 <= mo_year m < 10000;
  mk_month : 1 <= mo_month m <= 12;
  mk_day : 1 <= mo_day m /\ exists length, month_lengths (mo_year m) !! Z.to_nat (mo_month m - 1) = Some length /\ mo_day m <= length;
  mk_hour : 0 <= mo_hour m < 24;
  mk_minute : 0 <= mo_minute m < 60;
  mk_second : 0 <= mo_second m < 60;
}.
Definition two_digits (n : Z) : list Z := [48 + n / 10; 48 + n mod 10].
Definition four_digits (n : Z) : list Z := two_digits (n / 100) ++ two_digits (n mod 100).
(** RFC 3339 in UTC, to the second. *)
Definition moment_text (m : moment) : list Z :=
  four_digits (mo_year m) ++ [45] ++ two_digits (mo_month m) ++ [45] ++ two_digits (mo_day m) ++ [84] ++ two_digits (mo_hour m) ++ [58]
  ++ two_digits (mo_minute m) ++ [58] ++ two_digits (mo_second m) ++ [90].

Lemma is_leap_year_spec year : is_leap_year year = bool_decide ((4 | year) /\ ~ (100 | year) \/ (400 | year)).
Proof.
  unfold is_leap_year. apply eq_true_iff_eq. rewrite bool_decide_eq_true, andb_true_iff, orb_true_iff, negb_true_iff, !Z.eqb_eq, Z.eqb_neq, !Z.mod_divide by lia.
  split; [tauto|]. intros [H|H]; [tauto|]. split; [|by right]. by apply (Z.divide_trans 4 400); [exists 100|].
Qed.
Lemma days_in_month_spec year month : days_in_month year month = if bool_decide (1 <= month <= 12) then month_lengths year !! Z.to_nat (month - 1) else None.
Proof.
  case_bool_decide as Hm.
  - assert (Forall (fun k => days_in_month year (Z.of_nat k) = month_lengths year !! (k - 1)%nat) (seq 1 12)) as Hall
      by (unfold month_lengths; rewrite <- is_leap_year_spec; repeat (constructor; [reflexivity|]); constructor).
    rewrite list.Forall_forall in Hall. specialize (Hall (Z.to_nat month)). rewrite Z2Nat.id in Hall by lia. rewrite Hall by (apply elem_of_seq; lia). f_equal. lia.
  - unfold days_in_month. assert (forall l, Forall (fun k => 1 <= k <= 12) l -> existsb (Z.eqb month) l = false) as H.
    { induction 1 as [|k l Hk _ IH]; [done|]. cbn. rewrite IH. destruct (Z.eqb_spec month k); [lia|done]. }
    rewrite !H by (repeat (constructor; [lia|]); constructor). by destruct (Z.eqb_spec month 2); [lia|].
Qed.

Lemma digit_spec b : is_ascii_digit b = true <-> exists n, 0 <= n < 10 /\ b = 48 + n.
Proof. unfold is_ascii_digit. rewrite in_range_reflect, bool_decide_eq_true. split; [intros H; exists (b - 48); lia|intros (n & ? & ->); lia]. Qed.
Lemma two_digits_ok n : 0 <= n < 100 -> Forall (fun b => is_ascii_digit b = true) (two_digits n) /\ parse_two_digits (two_digits n) = Some n.
Proof.
  intros Hn. assert (0 <= n / 10 < 10 /\ 0 <= n mod 10 < 10 /\ n = 10 * (n / 10) + n mod 10) as (H1 & H2 & H3) by (Z.to_euclidean_division_equations; lia).
  unfold two_digits, parse_two_digits. assert (is_ascii_digit (48 + n / 10) = true) as D1 by (apply digit_spec; eauto).
  assert (is_ascii_digit (48 + n mod 10) = true) as D2 by (apply digit_spec; eauto). rewrite D1, D2. split; [by repeat constructor|]. cbn [negb orb]. f_equal. lia.
Qed.
Lemma parse_two_ok a b n : parse_two_digits [a; b] = Some n -> 0 <= n < 100 /\ [a; b] = two_digits n.
Proof.
  unfold parse_two_digits, two_digits. destruct (is_ascii_digit a) eqn:Ha; [|done]. destruct (is_ascii_digit b) eqn:Hb; [|done]. cbn [negb orb]. intros [= <-].
  apply digit_spec in Ha as (x & Hx & ->), Hb as (y & Hy & ->). split; [lia|]. f_equal; [|f_equal]; Z.to_euclidean_division_equations; lia.
Qed.
Lemma parse_four_ok a b c d n : parse_four_digits [a; b; c; d] = Some n -> 0 <= n < 10000 /\ [a; b; c; d] = four_digits n.
Proof.
  unfold parse_four_digits, four_digits, two_digits. cbn [forallb app]. destruct (is_ascii_digit a) eqn:Ha; [|done]. destruct (is_ascii_digit b) eqn:Hb; [|done].
  destruct (is_ascii_digit c) eqn:Hc; [|done]. destruct (is_ascii_digit d) eqn:Hd; [|done]. cbn [negb andb]. intros [= <-].
  apply digit_spec in Ha as (x & Hx & ->), Hb as (y & Hy & ->), Hc as (z & Hz & ->), Hd as (w & Hw & ->). split; [lia|].
  f_equal; [|f_equal; [|f_equal; [|f_equal]]]; Z.to_euclidean_division_equations; lia.
Qed.
Lemma four_digits_ok n : 0 <= n < 10000 -> Forall (fun b => is_ascii_digit b = true) (four_digits n) /\ parse_four_digits (four_digits n) = Some n.
Proof.
  intros Hn. assert (0 <= n / 100 < 100 /\ 0 <= n mod 100 < 100) as [H1 H2] by (Z.to_euclidean_division_equations; lia).
  destruct (two_digits_ok _ H1) as [D1 _], (two_digits_ok _ H2) as [D2 _]. unfold four_digits. split; [by apply list.Forall_app|].
  unfold two_digits in *. cbn [app] in *. apply list.Forall_cons in D1 as [A D1]. apply list.Forall_cons in D1 as [B _]. apply list.Forall_cons in D2 as [C D2]. apply list.Forall_cons in D2 as [D _].
  unfold parse_four_digits. cbn [forallb]. rewrite A, B, C, D. cbn [andb negb]. f_equal. Z.to_euclidean_division_equations. lia.
Qed.

(** The timestamp, once its twenty bytes are named. *)
Definition started_at_of (year month day hour minute second : option Z) : bool :=
  match year, month, day, hour, minute, second with
  | Some year, Some month, Some day, Some hour, Some minute, Some second =>
      match days_in_month year month with
      | Some max_day => (1 <=? day) && (day <=? max_day) && (hour <=? 23) && (minute <=? 59) && (second <=? 59)
      | None => false
      end
  | _, _, _, _, _, _ => false
  end.
Lemma started_at_bytes {E} y1 y2 y3 y4 s1 m1 m2 s2 d1 d2 s3 h1 h2 s4 n1 n2 s5 c1 c2 s6 :
  is_final_started_at (E := E) [y1; y2; y3; y4; s1; m1; m2; s2; d1; d2; s3; h1; h2; s4; n1; n2; s5; c1; c2; s6] =
  Ok ((s1 =? 45) && (s2 =? 45) && (s3 =? 84) && (s4 =? 58) && (s5 =? 58) && (s6 =? 90)
      && started_at_of (parse_four_digits [y1; y2; y3; y4]) (parse_two_digits [m1; m2]) (parse_two_digits [d1; d2]) (parse_two_digits [h1; h2])
           (parse_two_digits [n1; n2]) (parse_two_digits [c1; c2])).
Proof.
  unfold is_final_started_at. change (negb (len _ =? 20)) with false. cbv iota. cbn [any_differs any_not_digit].
  repeat match goal with |- context [@index ?E ?A ?l ?n] => let x := eval vm_compute in (@index E A l n) in change (@index E A l n) with x end.
  repeat match goal with |- context [@slice ?E ?l ?a ?b] => let x := eval vm_compute in (@slice E l a b) in change (@slice E l a b) with x end.
  cbn [mbind outcome_bind].
  do 6 (match goal with |- context [?s =? ?k] => destruct (s =? k); cbn [negb andb mbind outcome_bind]; [|done] end).
  do 14 (match goal with |- context [is_ascii_digit ?x] => let H := fresh in destruct (is_ascii_digit x) eqn:H; cbn [negb mbind outcome_bind];
    [|unfold started_at_of, parse_four_digits, parse_two_digits; cbn [forallb]; rewrite H, ?andb_false_r, ?orb_true_r; cbn [andb orb negb]; by repeat case_match] end).
  unfold started_at_of. destruct (parse_four_digits _) as [year|]; cbn [some_or_false]; [|done].
  destruct (parse_two_digits [m1; m2]) as [month|]; cbn [some_or_false]; [|done]. destruct (parse_two_digits [d1; d2]) as [day|]; cbn [some_or_false]; [|done].
  destruct (parse_two_digits [h1; h2]) as [hour|]; cbn [some_or_false]; [|done]. destruct (parse_two_digits [n1; n2]) as [minute|]; cbn [some_or_false]; [|done].
  destruct (parse_two_digits [c1; c2]) as [second|]; cbn [some_or_false]; [|done]. by destruct (days_in_month year month).
Qed.

Lemma twenty {A} (l : list A) : len l = 20 -> exists y1 y2 y3 y4 s1 m1 m2 s2 d1 d2 s3 h1 h2 s4 n1 n2 s5 c1 c2 s6,
  l = [y1; y2; y3; y4; s1; m1; m2; s2; d1; d2; s3; h1; h2; s4; n1; n2; s5; c1; c2; s6].
Proof.
  intros H. unfold len in H. do 20 (destruct l as [|? l]; [cbn [length] in H; lia|]). destruct l; [by repeat eexists|]. cbn [length] in H. lia.
Qed.
Lemma started_at_total {E} t : exists b, is_final_started_at (E := E) t = Ok b.
Proof.
  destruct (decide (len t = 20)) as [Hl|Hl].
  - apply twenty in Hl as (y1 & y2 & y3 & y4 & s1 & m1 & m2 & s2 & d1 & d2 & s3 & h1 & h2 & s4 & n1 & n2 & s5 & c1 & c2 & s6 & ->). rewrite started_at_bytes. by eexists.
  - unfold is_final_started_at. rewrite (proj2 (Z.eqb_neq _ _) Hl). by eexists.
Qed.
Lemma started_at_of_true year month day hour minute second : started_at_of year month day hour minute second = true <->
  exists y mo d h mi s, year = Some y /\ month = Some mo /\ day = Some d /\ hour = Some h /\ minute = Some mi /\ second = Some s /\
    (1 <= mo <= 12 /\ 1 <= d /\ exists length, month_lengths y !! Z.to_nat (mo - 1) = Some length /\ d <= length) /\ h <= 23 /\ mi <= 59 /\ s <= 59.
Proof.
  split.
  - destruct year as [y|], month as [mo|], day as [d|], hour as [h|], minute as [mi|], second as [s|]; try done. unfold started_at_of. rewrite days_in_month_spec.
    case_bool_decide as Hm; [|done]. destruct (month_lengths y !! _) as [length|] eqn:El; [|done]. rewrite !andb_true_iff, !Z.leb_le. intros ((((? & ?) & ?) & ?) & ?).
    exists y, mo, d, h, mi, s. split_and!; try (lia || done). by exists length.
  - intros (y & mo & d & h & mi & s & -> & -> & -> & -> & -> & -> & (Hm & Hd & length & El & Hl) & ? & ? & ?). unfold started_at_of. rewrite days_in_month_spec.
    rewrite bool_decide_eq_true_2, El by done. rewrite !andb_true_iff, !Z.leb_le. lia.
Qed.
Lemma started_at_ok {E} t : is_final_started_at (E := E) t = Ok true <-> exists m, moment_ok m /\ t = moment_text m.
Proof.
  split.
  - intros H. destruct (decide (len t = 20)) as [Hl|Hl].
    2: { unfold is_final_started_at in H. by rewrite (proj2 (Z.eqb_neq _ _) Hl) in H. }
    apply twenty in Hl as (y1 & y2 & y3 & y4 & s1 & m1 & m2 & s2 & d1 & d2 & s3 & h1 & h2 & s4 & n1 & n2 & s5 & c1 & c2 & s6 & ->).
    rewrite started_at_bytes in H. injection H as H. rewrite !andb_true_iff, !Z.eqb_eq in H. destruct H as ((((((-> & ->) & ->) & ->) & ->) & ->) & H).
    apply started_at_of_true in H as (y & mo & d & h & mi & s & Hy%parse_four_ok & Hmo%parse_two_ok & Hd%parse_two_ok & Hh%parse_two_ok & Hmi%parse_two_ok & Hs%parse_two_ok & (Hm & Hd1 & length & El & Hdl) & ? & ? & ?).
    destruct Hy as [Hy Ey], Hmo as [_ Emo], Hd as [_ Ed], Hh as [Hh Eh], Hmi as [Hmi Emi], Hs as [Hs Es].
    exists (mk_moment y mo d h mi s). split; [split; cbn; try lia; split; [done|by exists length]|].
    unfold moment_text. cbn [mo_year mo_month mo_day mo_hour mo_minute mo_second]. rewrite <- Ey, <- Emo, <- Ed, <- Eh, <- Emi, <- Es. reflexivity.
  - intros ([y mo d h mi s] & [Hy Hm [Hd1 (length & El & Hd)] Hh Hmi Hs] & ->). cbn [mo_year mo_month mo_day mo_hour mo_minute mo_second] in *.
    assert (length <= 31) as Hl31.
    { assert (Forall (fun l => l <= 31) (month_lengths y)) as Hall by (unfold month_lengths; repeat (constructor; [try case_bool_decide; lia|]); constructor).
      rewrite list.Forall_forall in Hall. apply Hall. by apply list_elem_of_lookup_2 in El. }
    destruct (four_digits_ok y Hy) as [_ Py], (two_digits_ok mo ltac:(lia)) as [_ Pm], (two_digits_ok d ltac:(lia)) as [_ Pd], (two_digits_ok h ltac:(lia)) as [_ Ph],
      (two_digits_ok mi ltac:(lia)) as [_ Pi], (two_digits_ok s ltac:(lia)) as [_ Ps].
    unfold moment_text, four_digits, two_digits in *. cbn [mo_year mo_month mo_day mo_hour mo_minute mo_second app] in *. rewrite started_at_bytes.
    f_equal. rewrite Py, Pm, Pd, Ph, Pi, Ps. cbn [Z.eqb Pos.eqb andb]. apply started_at_of_true.
    exists y, mo, d, h, mi, s. split_and!; try done; try lia. by exists length.
Qed.

(** ** Lemmas: final reports *)
Lemma full_commit_ok commit : is_full_lower_hex_commit commit = true <-> exists bytes, array_ok 20 bytes /\ commit = hex_bytes bytes.
Proof.
  unfold is_full_lower_hex_commit. rewrite andb_true_iff, Z.eqb_eq. assert (forall b, is_ascii_hexdigit b && negb (is_ascii_uppercase b) = is_lower_hex b) as He.
  { intros b. unfold is_ascii_hexdigit, is_ascii_uppercase, is_lower_hex. rewrite !in_range_reflect. do 4 case_bool_decide; cbn; lia || done. }
  split.
  - intros [Hl Hb]. assert (Forall (fun b => is_lower_hex b = true) commit) as Hlo.
    { apply list.Forall_forall. intros b Hin. rewrite forallb_forall in Hb. rewrite <- He. apply Hb. by apply list_elem_of_In. }
    destruct (lower_hex_inv commit Hlo) as (bytes & Hok & ->); [by rewrite Hl|]. exists bytes. split; [|done]. split; [|done]. rewrite hex_bytes_len in Hl. lia.
  - intros (bytes & [Hl Hb] & ->). split; [rewrite hex_bytes_len; lia|]. apply forallb_forall. intros b Hin. rewrite He. pose proof (hex_bytes_lower bytes Hb) as H.
    rewrite list.Forall_forall in H. apply H. by apply list_elem_of_In.
Qed.

Definition row_key (r : ConformanceResult) : list Z * list Z := (cr_id r, cr_category r).
Lemma required_keys_nodup : NoDup REQUIRED_PROFILE_0_RESULTS.*1 /\ NoDup REQUIRED_PROFILE_0_RESULTS.*2.
Proof. split; apply (bool_decide_unpack _); vm_compute; exact I. Qed.
Lemma insert_seen_ok results : forall ids categories seen, insert_seen ids categories results = Ok seen <->
  seen = ids ∪ list_to_set (cr_id <$> results) /\ NoDup (cr_id <$> results) /\ NoDup (cr_category <$> results) /\
  (forall r, r ∈ results -> cr_id r ∉ ids /\ cr_category r ∉ categories).
Proof.
  induction results as [|r results IH]; intros ids categories seen; cbn [insert_seen fmap list_fmap list_to_set].
  - split; [intros [= <-]|by intros (-> & _); f_equal; set_solver]. split_and!; [set_solver|constructor..|]. intros r H. by apply not_elem_of_nil in H.
  - case_bool_decide as H1.
    { split; [done|]. intros (_ & _ & _ & H). by destruct (H r ltac:(apply list_elem_of_here)). }
    case_bool_decide as H2.
    { split; [done|]. intros (_ & _ & _ & H). by destruct (H r ltac:(apply list_elem_of_here)). }
    rewrite IH, !list.NoDup_cons. split.
    + intros (-> & Hi & Hc & Hr). split_and!; [set_solver| |done| |done|].
      * intros Hin. apply list_elem_of_fmap in Hin as (r' & E & Hin). destruct (Hr r' Hin) as [Hn _]. set_solver.
      * intros Hin. apply list_elem_of_fmap in Hin as (r' & E & Hin). destruct (Hr r' Hin) as [_ Hn]. set_solver.
      * intros r' [->|Hin]%list.elem_of_cons; [done|]. destruct (Hr r' Hin). set_solver.
    + intros (-> & (Hi1 & Hi) & (Hc1 & Hc) & Hr). split_and!; [set_solver|done|done|]. intros r' Hin. destruct (Hr r' ltac:(by apply list_elem_of_further)) as [Hn1 Hn2].
      assert (cr_id r' <> cr_id r) by (intros E; apply Hi1; rewrite <- E; apply list_elem_of_fmap; by exists r').
      assert (cr_category r' <> cr_category r) by (intros E; apply Hc1; rewrite <- E; apply list_elem_of_fmap; by exists r'). set_solver.
Qed.
Lemma profile0_row_ok r : check_profile0_row r = Ok tt <-> row_key r ∈ REQUIRED_PROFILE_0_RESULTS.
Proof.
  unfold check_profile0_row, row_key. pose proof (fun x => find_key_nodup fst (cr_id r) REQUIRED_PROFILE_0_RESULTS x (proj1 required_keys_nodup)) as Hf.
  destruct (List.find _ _) as [[i c]|] eqn:E.
  - destruct (proj1 (Hf (i, c)) eq_refl) as [Hin Hi]. cbn in Hi. subst i. case_bool_decide as Hc; cbn [negb]; [rewrite Hc; by split|]. split; [done|]. intros Hr.
    assert (Some (cr_id r, c) = Some (cr_id r, cr_category r)) as [= ?] by (by apply Hf). done.
  - split; [done|]. intros Hr. assert (None = Some (cr_id r, cr_category r)) by (by apply Hf). done.
Qed.
(** Nine rows with the required ids and categories, in any order. *)
Lemma profile0_results_ok results : validate_final_profile0_results results = Ok tt <-> row_key <$> results ≡ₚ REQUIRED_PROFILE_0_RESULTS.
Proof.
  destruct required_keys_nodup as [Ni Nc]. assert (cr_id <$> results = (row_key <$> results).*1) as Hfi by (by rewrite <- list_fmap_compose).
  assert (cr_category <$> results = (row_key <$> results).*2) as Hfc by (by rewrite <- list_fmap_compose).
  unfold validate_final_profile0_results. split.
  - destruct (Z.eqb_spec (len results) (len REQUIRED_PROFILE_0_RESULTS)) as [Hl|]; [|done]. cbn [negb]. intros (seen & (_ & Hi & _ & _)%insert_seen_ok & H)%bind_ok.
    apply bind_ok_unit in H as [H%p0_for_each_ok _]. apply same_members.
    + apply (NoDup_fmap_1 fst). by rewrite <- Hfi.
    + rewrite length_fmap. unfold len in Hl. lia.
    + intros k Hk. apply list_elem_of_fmap in Hk as (r & -> & Hr). rewrite list.Forall_forall in H. by apply profile0_row_ok, H.
  - intros Hp. assert (len results = len REQUIRED_PROFILE_0_RESULTS) as -> by (unfold len; rewrite <- Hp; by rewrite length_fmap). rewrite Z.eqb_refl. cbn [negb].
    apply bind_ok. exists (∅ ∪ list_to_set (cr_id <$> results)). split.
    + apply insert_seen_ok. split; [done|]. split_and!; [|..|intros; set_solver].
      * rewrite Hfi, Hp. exact Ni.
      * rewrite Hfc, Hp. exact Nc.
    + apply bind_ok_unit. split.
      * apply p0_for_each_ok, list.Forall_forall. intros r Hr. apply profile0_row_ok. rewrite <- Hp. apply list_elem_of_fmap. by exists r.
      * apply p0_for_each_ok, list.Forall_forall. intros [i c] Hr. unfold check_profile0_id. cbn [fst]. rewrite <- Hp in Hr. apply list_elem_of_fmap in Hr as (r & [= -> ->] & Hr).
        rewrite bool_decide_eq_true_2; [done|]. apply elem_of_union_r, elem_of_list_to_set, list_elem_of_fmap. by exists r.
Qed.

Lemma populated_ok v : required_string_is_populated v = true <-> v <> [].
Proof. unfold required_string_is_populated. rewrite negb_true_iff. apply text_nonempty. Qed.
Lemma optional_populated_ok o : optional_string_is_populated o = true <-> o <> Some [].
Proof. destruct o as [v|]; cbn; [rewrite populated_ok; split; congruence|by split]. Qed.

(** The metadata of a final report. *)
Definition final_oracle (oracle : OracleEnvironment) (expected : option (list Z)) : Prop :=
  oe_reticulum_module_path oracle <> [] /\ (expected = None \/ expected = Some (oe_reticulum_module_path oracle)) /\
  oracle = mk_oracle (oe_reticulum_module_path oracle) EXPECTED_RETICULUM_COMMIT (Some EXPECTED_ORACLE_RNS_VERSION) EXPECTED_ORACLE_CRYPTOGRAPHY_VERSION EXPECTED_ORACLE_PYSERIAL_VERSION.
Lemma final_oracle_ok oracle expected :
  (if negb (final_oracle_required_strings_are_populated oracle) then final_invalid "empty oracle field" else validate_final_oracle_metadata oracle expected) = Ok tt <->
  final_oracle oracle expected.
Proof.
  unfold final_oracle, final_oracle_required_strings_are_populated. split.
  - destruct (_ && _) eqn:Hs; [|done]. cbn [negb]. rewrite !andb_true_iff, !populated_ok in Hs. destruct Hs as ((((H1 & _) & _) & _) & _).
    unfold validate_final_oracle_metadata. destruct (match expected with Some _ => _ | None => _ end) eqn:He; [done|]. do 4 (case_bool_decide; [|done]; cbn [negb]). intros _.
    split; [done|]. split; [|destruct oracle; cbn in *; by subst]. destruct expected as [p|]; [right|by left]. apply negb_false_iff, bool_decide_eq_true in He. by rewrite He.
  - destruct oracle as [path c v g s]. cbn [oe_reticulum_module_path oe_reticulum_commit oe_rns_version oe_cryptography_version oe_pyserial_version]. intros (H1 & H2 & [= -> -> -> ->]).
    rewrite (proj2 (populated_ok path) H1). cbn [negb andb]. unfold validate_final_oracle_metadata. cbn [oe_reticulum_module_path oe_reticulum_commit oe_rns_version oe_cryptography_version oe_pyserial_version].
    rewrite !bool_decide_eq_true_2 by done. destruct H2 as [->| ->]; [done|]. by rewrite bool_decide_eq_true_2.
Qed.

(** What makes a report of packets and announces final. *)
Record final_profile0 (report : ConformanceRun) (expected : option (list Z)) : Prop := {
  f0_schema : run_schema report = CONFORMANCE_RUN_SCHEMA;
  f0_profile : run_profile report = EXPECTED_PROFILE;
  f0_run_id : run_id report <> [];
  f0_hyf : exists bytes, array_ok 20 bytes /\ run_hyf_commit report = hex_bytes bytes;
  f0_reticulum : run_reticulum_commit report = EXPECTED_RETICULUM_COMMIT;
  f0_started : exists m, moment_ok m /\ run_started_at report = moment_text m;
  f0_os : ce_os (run_environment report) <> [];
  f0_arch : ce_arch (run_environment report) <> [];
  f0_toolchain : ce_rust_toolchain (run_environment report) <> [];
  f0_rows : row_key <$> run_results report ≡ₚ REQUIRED_PROFILE_0_RESULTS;
  f0_passed : Forall (fun r => cr_status r = ConfPassed /\ cr_detail r <> Some []) (run_results report);
  f0_oracle : exists oracle, ce_oracle (run_environment report) = Some oracle /\ final_oracle oracle expected;
}.
Lemma no_status status results : existsb (fun result => bool_decide (cr_status result = status)) results = false <-> Forall (fun r => cr_status r <> status) results.
Proof.
  induction results as [|r results IH]; cbn; [by split|]. rewrite orb_false_iff, bool_decide_eq_false, IH, list.Forall_cons. done.
Qed.
Lemma required_rows_populated results : row_key <$> results ≡ₚ REQUIRED_PROFILE_0_RESULTS -> Forall (fun r => cr_id r <> [] /\ cr_category r <> []) results.
Proof.
  intros Hp. apply list.Forall_forall. intros r Hr. assert (row_key r ∈ REQUIRED_PROFILE_0_RESULTS) as Hk by (rewrite <- Hp; apply list_elem_of_fmap; by exists r).
  assert (Forall (fun k => fst k <> [] /\ snd k <> []) REQUIRED_PROFILE_0_RESULTS) as Hall by (apply (bool_decide_unpack _); vm_compute; exact I).
  rewrite list.Forall_forall in Hall. exact (Hall _ Hk).
Qed.
Lemma final_profile0_ok report expected : validate_final_profile0_report report expected = Ok tt <-> final_profile0 report expected.
Proof.
  unfold validate_final_profile0_report. split.
  - case_bool_decide as H1; [|done]. case_bool_decide as H2; [|done]. cbn [negb]. destruct (required_string_is_populated _) eqn:H3; [|done]. cbn [negb].
    destruct (is_full_lower_hex_commit _) eqn:H4; [|done]. cbn [negb]. case_bool_decide as H5; [|done]. cbn [negb]. intros (b & H6 & H)%bind_ok. destruct b; [|done]. cbn [negb] in H.
    destruct (final_environment_required_strings_are_populated _) eqn:H7; [|done]. cbn [negb] in H. destruct (final_results_required_strings_are_populated _) eqn:H8; [|done]. cbn [negb] in H.
    destruct (existsb _ _) eqn:H9; [done|]. destruct (existsb _ _) eqn:H10 in H; [done|]. apply bind_ok_unit in H as [H11%profile0_results_ok H].
    destruct (ce_oracle _) as [oracle|] eqn:Ho; [|done]. apply final_oracle_ok in H. apply no_status in H9, H10.
    unfold final_environment_required_strings_are_populated in H7. rewrite !andb_true_iff, !populated_ok in H7. destruct H7 as ((? & ?) & ?).
    split; try done; [by apply populated_ok|by apply full_commit_ok|by apply started_at_ok in H6| |by exists oracle].
    apply list.Forall_forall. intros r Hr. rewrite list.Forall_forall in H9, H10. specialize (H9 r Hr). specialize (H10 r Hr). split; [by destruct (cr_status r)|].
    apply optional_populated_ok. unfold final_results_required_strings_are_populated in H8. rewrite forallb_forall in H8. specialize (H8 r ltac:(by apply list_elem_of_In)).
    apply andb_true_iff in H8. by destruct H8.
  - intros [H1 H2 H3 H4 H5 H6 H7a H7b H7c H8 H9 (oracle & Ho & Hf)]. rewrite !bool_decide_eq_true_2 by done. cbn [negb]. rewrite (proj2 (populated_ok _) H3), (proj2 (full_commit_ok _) H4). cbn [negb].
    rewrite (proj2 (started_at_ok _) H6). cbn [mbind outcome_bind negb]. unfold final_environment_required_strings_are_populated. rewrite (proj2 (populated_ok _) H7a), (proj2 (populated_ok _) H7b), (proj2 (populated_ok _) H7c). cbn [andb negb].
    pose proof (required_rows_populated _ H8) as Hpop. rewrite list.Forall_forall in H9. rewrite list.Forall_forall in Hpop.
    assert (final_results_required_strings_are_populated (run_results report) = true) as ->.
    { apply forallb_forall. intros r Hr. apply list_elem_of_In in Hr. destruct (Hpop r Hr), (H9 r Hr). rewrite !andb_true_iff, !populated_ok, optional_populated_ok. done. }
    cbn [negb]. rewrite (proj2 (no_status ConfFailed _)) by (apply list.Forall_forall; intros r Hr; by destruct (H9 r Hr) as [-> _]).
    rewrite (proj2 (no_status ConfInvalidEnvironment _)) by (apply list.Forall_forall; intros r Hr; by destruct (H9 r Hr) as [-> _]).
    apply bind_ok_unit. split; [by apply profile0_results_ok|]. rewrite Ho. by apply final_oracle_ok.
Qed.

(** ** Lemmas: the repositories *)
(** Git says that [commit] is checked out at [root], without changes. *)
Record clean_head `{Host} (root commit : list Z) : Prop := {
  ch_commit : exists bytes, array_ok 20 bytes /\ commit = hex_bytes bytes;
  ch_head : exists stdout, succeeds (str "git") (git_args root [str "rev-parse"; str "HEAD"]) [] stdout /\ trim (from_utf8_lossy stdout) = commit;
  ch_status : exists stdout, succeeds (str "git") (git_args root [str "status"; str "--porcelain"; str "--untracked-files=all"]) [] stdout /\ trim (from_utf8_lossy stdout) = [];
}.
Lemma git_stdout_ok `{Host} root args text : git_stdout root args = Ok text <-> exists stdout, succeeds (str "git") (git_args root args) [] stdout /\ trim (from_utf8_lossy stdout) = text.
Proof.
  unfold git_stdout, succeeds. rewrite bind_ok. setoid_rewrite map_err_ok. setoid_rewrite of_host_ok. split.
  - intros (output & Ho & Hs). destruct (output_success output) eqn:E; [|done]. injection Hs as <-. exists (output_stdout output). split; [by exists output|done].
  - intros (stdout & (output & Ho & Hs & <-) & <-). exists output. split; [done|]. by rewrite Hs.
Qed.
Lemma source_state_ok `{Host} root expected source commit :
  validate_git_source_state root expected source = Ok commit <-> clean_head root commit /\ (expected = None \/ expected = Some commit).
Proof.
  unfold validate_git_source_state. split.
  - intros (c & Hc & H1)%bind_ok. destruct (is_full_lower_hex_commit c) eqn:Hf; [|done]. cbn [negb] in H1. apply bind_ok in H1 as (status & Hs & H1).
    destruct (Z.eqb_spec (len status) 0) as [Hl|]; [|done]. cbn [negb] in H1. assert (status = []) as -> by (apply nil_length_inv; unfold len in Hl; lia).
    assert (c = commit /\ (expected = None \/ expected = Some commit)) as [-> He].
    { destruct expected as [e|]; [|injection H1 as <-; auto]. case_bool_decide; [|done]. cbn in H1. injection H1 as <-. subst. auto. }
    split; [|done]. split; [by apply full_commit_ok|by apply git_stdout_ok in Hc|by apply git_stdout_ok in Hs].
  - intros [[Hc Hh Hs] He]. apply git_stdout_ok in Hh, Hs. rewrite Hh. cbn [mbind outcome_bind]. rewrite (proj2 (full_commit_ok _) Hc), Hs. cbn [negb mbind outcome_bind].
    destruct He as [->| ->]; [done|]. by rewrite bool_decide_eq_true_2.
Qed.

(** ** Lemmas: the reports that are generated *)
Section generated.
Context (python_oracle : bool).
Context `{J : JsonDoc, P : RnsPrims, L : !RnsPrimsLaws P, HO : Host}.
Context `{JP : FromJson OracleProbeOutput, JR : FromJson OracleResponse, JQ : ToJson OracleRequest}.
Context `{F0 : Profile0Files, F1 : Profile1Files, F2 : Profile2Files}.
Context `{J1 : FromJson (FixtureFile IdentityCase), J2 : FromJson (FixtureCasesFile DestinationHashCase), J3 : FromJson (FixtureCasesFile PacketHeaderCase),
  J4 : FromJson (FixtureCasesFile PacketHashCase), J5 : FromJson (FixtureCasesFile AnnounceCase), J6 : FromJson (FixtureCasesFile AnnounceNegativeCase),
  JC : FromJson (FixtureCasesFile jdoc), JM : FromJson ManifestFile, RJ : FromJson ConformanceRun}.

(** What validation asks of a report of a profile. *)
Definition final_of (profile : ReportProfile) (report : ConformanceRun) : Prop :=
  match profile with
  | ReportProfile0 => final_profile0 report None
  | ReportProfile1 => validate_profile_1_final_report report = Ok tt
  | ReportProfile2 => validate_profile_2_final_report report = Ok tt
  end.
Lemma validate_bytes_ok input profile report :
  validate_report_bytes input (RequireSome profile) None = Ok report <-> from_str input = Ok report /\ final_of profile report.
Proof.
  unfold validate_report_bytes. split.
  - intros (r & Hr%map_err_ok & H)%bind_ok. apply bind_ok in H as ([] & H & [= <-]). split; [done|].
    destruct profile; cbn [final_of]; [by apply final_profile0_ok|by apply map_err_ok in H|]. by apply bind_ok_unit in H as [H%map_err_ok _].
  - intros [Hr H]. rewrite Hr. cbn [map_err mbind outcome_bind]. apply bind_ok. exists tt. split; [|done].
    destruct profile; cbn [final_of] in H; [by apply final_profile0_ok|by rewrite H|by rewrite H].
Qed.

Lemma portable_not_absolute path : portable path -> is_absolute path = false.
Proof.
  intros (_ & _ & Hp & _). unfold is_absolute. apply bool_decide_eq_false. intros Hh. destruct path as [|b path]; [done|]. injection Hh as ->.
  cbn in Hp. apply list.Forall_cons in Hp as [[Hn _] _]. done.
Qed.

(** With captures, the report is final for its profile and of the checked out commit. *)
Lemma capture_report_final args dir report : ar_capture_dir args = Some dir -> generated_report python_oracle args = Ok report ->
  clean_head (ar_hyf_repo_path args) (run_hyf_commit report) /\ run_reticulum_commit report = EXPECTED_RETICULUM_COMMIT /\ final_of (ar_profile args) report.
Proof.
  unfold generated_report. intros Hdir (commit & [Hc _]%source_state_ok & H)%bind_ok. cbn zeta in H. apply bind_ok in H as (made & Hm & Ho).
  unfold build_report in Hm. unfold apply_report_overrides in Ho. destruct (ar_profile args) eqn:Ep.
  - unfold build_profile0_report in Hm. rewrite Hdir, bool_decide_eq_true_2 in Hm by done. done.
  - destruct (ar_require_oracle args || _) eqn:Er; [done|]. apply orb_false_iff in Er as [Er _]. rewrite Hdir in Hm. apply bind_ok in Hm as (evidence & He%map_err_ok & Hm%map_err_ok).
    apply p1_evidence_ok in He as [-> _]. apply p1_final_report_ok in Hm as (_ & Hf & ->); [|by apply p1_new_evidence_ok]. rewrite Er in Ho. cbn [orb andb] in Ho.
    rewrite (bool_decide_eq_false_2 (ReportProfile1 = ReportProfile2)) in Ho by done. cbn [andb] in Ho. destruct (ar_report_path_root args); [done|]. injection Ho as <-. split; [done|]. split; [done|].
    cbn [final_of]. apply p1_validate_report_ok. cbn. split_and!; [done..|]. exists (Profile1.passed_rows ++ [replay_row]). split; [done|apply p1_final_rows_match].
  - destruct (ar_require_oracle args || _) eqn:Er; [done|]. rewrite Hdir in Hm. destruct (ar_report_path_root args) as [root|]; [|done].
    apply bind_ok in Hm as (evidence & He%map_err_ok & Hm). apply bind_ok in Hm as (path & Hp & Hm%map_err_ok). apply p2_evidence_ok in He as (_ & _ & o & _ & _ & _ & ->).
    change (with_oracle_module_path (evidence_of o) path) with (evidence_of (set_module_path o path)) in Hm. apply p2_final_report_ok in Hm as (Hpin & Hf & ->).
    rewrite (bool_decide_eq_false_2 (Some root = None)), andb_false_r in Ho by done. cbn [run_environment new_profile with_oracle ce_oracle set_module_path oe_reticulum_module_path] in Ho.
    rewrite (portable_not_absolute path) in Ho by apply Hpin. injection Ho as <-. split; [done|]. split; [done|].
    cbn [final_of]. apply p2_validate_report_ok. split_and!; [done..| |exists (Profile2.passed_rows ++ oracle_rows); split; [done|apply p2_final_rows_match]].
    exists (set_module_path o path). split; [done|by apply oracle_pinned_ok].
Qed.
Lemma generated_with_oracle args path commit made :
  ar_profile args = ReportProfile0 -> ar_require_oracle args = true -> ar_capture_dir args = None -> ar_reticulum_path args = Some path ->
  derive_hyf_commit (ar_hyf_repo_path args) (ar_expected_hyf_commit args) = Ok commit ->
  profile_0_report_with_required_oracle (ar_run_id args) commit (ar_started_at args) (ConformanceEnvironment_new (ar_os args) (ar_arch args) (ar_rust_toolchain args)) path = Ok made ->
  generated_report true args = apply_report_overrides made args.
Proof.
  intros Hp Ho Hd Hr Hc Hm. unfold generated_report. rewrite Hc. cbn [mbind outcome_bind]. unfold build_report, build_profile0_report. rewrite Hp, Ho, Hd, Hr.
  rewrite bool_decide_eq_false_2 by (by intros [? [=]]). by rewrite Hm.
Qed.
End generated.

(** ** Claims *)

(** A command line is accepted exactly when it is a sequence of flags the command knows,
    each that takes a value followed by one that does not begin with two dashes; the
    variables are those the flags, in order, lead to. *)
Theorem arguments_exact {S} (action : S -> list Z -> arg_action S) args s s' :
  parse_loop action s args = Ok s' <-> exists items, args = command_tokens items /\ stated action s items s'.
Proof. apply parse_loop_ok. Qed.

(** Each command, of whatever profile, paths and switches, is what is parsed from the
    command line that states it, when none of its values looks like a flag. *)
Theorem command_line_roundtrip `{Host} c : command_ok c -> CliCommand_parse (command_line c) = Ok c.
Proof. apply command_parse_ok. Qed.

(** C40. A timestamp is final exactly when it is the text, in UTC and to the second, of a
    moment of the Gregorian calendar between the years 0 and 9999; no text makes the
    check panic. *)
Theorem started_at_exact {E} t :
  (exists b, is_final_started_at (E := E) t = Ok b) /\
  (is_final_started_at (E := E) t = Ok true <-> exists m, moment_ok m /\ t = moment_text m).
Proof. split; [apply started_at_total|apply started_at_ok]. Qed.

(** A report of packets and announces is final exactly when it is of this schema,
    profile and Reticulum commit, names a run, a commit of twenty bytes and a moment, an
    environment and the pinned oracle, and has the nine required rows in some order, all
    passed. *)
Theorem final_profile0_exact report expected : validate_final_profile0_report report expected = Ok tt <-> final_profile0 report expected.
Proof. apply final_profile0_ok. Qed.

(** A commit is derived from a repository exactly when git names it, in full, as the one
    checked out, reports no changes, and it is the expected one if there is one. *)
Theorem source_state_exact `{Host} root expected source commit :
  validate_git_source_state root expected source = Ok commit <-> clean_head root commit /\ (expected = None \/ expected = Some commit).
Proof. apply source_state_ok. Qed.

(** C39. What [run_generate] writes from captures, [run_validate] accepts: if the file
    reads back as the report, the report is final for its profile, and its commits are
    those checked out in the repositories it is validated against. *)
Theorem generated_report_validates python_oracle `{J : JsonDoc, P : RnsPrims, L : !RnsPrimsLaws P, HO : Host, JP : FromJson OracleProbeOutput, JR : FromJson OracleResponse,
    JQ : ToJson OracleRequest, F0 : Profile0Files, F1 : Profile1Files, F2 : Profile2Files,
    J1 : FromJson (FixtureFile IdentityCase), J2 : FromJson (FixtureCasesFile DestinationHashCase), J3 : FromJson (FixtureCasesFile PacketHeaderCase),
    J4 : FromJson (FixtureCasesFile PacketHashCase), J5 : FromJson (FixtureCasesFile AnnounceCase), J6 : FromJson (FixtureCasesFile AnnounceNegativeCase),
    JC : FromJson (FixtureCasesFile jdoc), JM : FromJson ManifestFile, RJ : FromJson ConformanceRun} args dir report contents vargs :
  ar_capture_dir args = Some dir ->
  generated_report python_oracle args = Ok report ->
  from_str contents = Ok report -> read_file (va_input vargs) = inr contents ->
  va_require_final_profile vargs = Some (ar_profile args) -> va_require_final_provenance vargs = true -> va_expected_oracle_module_path vargs = None ->
  va_hyf_repo_path vargs = Some (ar_hyf_repo_path args) ->
  (exists root, va_reticulum_path vargs = Some root /\ clean_head root EXPECTED_RETICULUM_COMMIT) ->
  run_validate vargs = Ok tt /\ validate_report_bytes contents (RequireSome (ar_profile args)) None = Ok report.
Proof.
  intros Hdir Hg Hj Hr Hp Hprov He Hh (root & Hrp & Hroot). destruct (capture_report_final _ _ _ _ Hdir Hg) as (Hhead & Hc & Hf).
  assert (validate_report_bytes contents (RequireSome (ar_profile args)) None = Ok report) as Hv by (by apply validate_bytes_ok). split; [|exact Hv].
  unfold run_validate. rewrite Hprov, Hr, Hp, He. cbn [negb andb of_host map_err mbind outcome_bind or_else requirement_from_option]. rewrite Hv. cbn [mbind outcome_bind].
  unfold validate_final_report_provenance. rewrite Hh, Hrp, He, Hc. cbn [required_path ok_or mbind outcome_bind].
  rewrite (proj2 (source_state_ok _ _ Hyf _) (conj Hhead (or_intror eq_refl))). cbn [mbind outcome_bind].
  by rewrite (proj2 (source_state_ok _ _ Reticulum _) (conj Hroot (or_intror eq_refl))).
Qed.

(** A generated report with the oracle is of the checked out commit and of the pinned
    Reticulum, with a row for each required result.  It is then final exactly when the run,
    its environment and the module's path are named, the timestamp is one, the oracle is
    of the expected release and every row passed. *)
Theorem oracle_report_final `{J : JsonDoc, P : RnsPrims, L : !RnsPrimsLaws P, HO : Host, JP : FromJson OracleProbeOutput, JR : FromJson OracleResponse,
    JQ : ToJson OracleRequest, F0 : Profile0Files, F1 : Profile1Files, F2 : Profile2Files,
    J1 : FromJson (FixtureFile IdentityCase), J2 : FromJson (FixtureCasesFile DestinationHashCase), J3 : FromJson (FixtureCasesFile PacketHeaderCase),
    J4 : FromJson (FixtureCasesFile PacketHashCase), J5 : FromJson (FixtureCasesFile AnnounceCase), J6 : FromJson (FixtureCasesFile AnnounceNegativeCase),
    JC : FromJson (FixtureCasesFile jdoc), JM : FromJson ManifestFile, RJ : FromJson ConformanceRun} args report :
  ar_profile args = ReportProfile0 -> ar_require_oracle args = true -> generated_report true args = Ok report ->
  clean_head (ar_hyf_repo_path args) (run_hyf_commit report) /\
  exists o, ce_oracle (run_environment report) = Some o /\
    forall contents, validate_report_bytes contents (RequireSome ReportProfile0) None = Ok report <->
      from_str contents = Ok report /\ ar_run_id args <> [] /\ (exists m, moment_ok m /\ ar_started_at args = moment_text m) /\
      ar_os args <> [] /\ ar_arch args <> [] /\ ar_rust_toolchain args <> [] /\
      Forall (fun r => cr_status r = ConfPassed /\ cr_detail r <> Some []) (run_results report) /\
      oe_rns_version o = Some EXPECTED_ORACLE_RNS_VERSION /\ oe_reticulum_module_path o <> [].
Proof.
  intros Hprofile Horacle. unfold generated_report. intros (commit & [Hc _]%source_state_ok & H)%bind_ok. cbn zeta in H. apply bind_ok in H as (made & Hm & Ho).
  unfold build_report, build_profile0_report in Hm. rewrite Hprofile, Horacle in Hm. case_bool_decide; [done|]. destruct (ar_reticulum_path args) as [path|]; [|done].
  apply map_err_ok, oracle_report_made in Hm as (m & _ & rows & -> & Hk).
  assert (exists module, report = run_profile_0 (ar_run_id args) commit (ar_started_at args) (with_oracle (ConformanceEnvironment_new (ar_os args) (ar_arch args) (ar_rust_toolchain args))
    (mk_oracle module PINNED_RETICULUM_COMMIT (em_rns_version m) PINNED_CRYPTOGRAPHY_VERSION PINNED_PYSERIAL_VERSION)) rows) as (module & ->).
  { unfold apply_report_overrides in Ho. rewrite Horacle in Ho. destruct (ar_report_path_root args) as [root|]; [|done]. rewrite (bool_decide_eq_false_2 (Some root = None)), andb_false_r in Ho by done.
    cbn [run_environment run_profile_0 new_profile with_oracle ce_oracle oe_reticulum_module_path] in Ho. destruct (is_absolute _); [|by injection Ho as <-; eexists].
    apply bind_ok in Ho as (rel & _ & [= <-]). by exists rel. }
  split; [exact Hc|]. eexists. split; [reflexivity|]. intros contents. rewrite validate_bytes_ok. cbn [final_of oe_rns_version oe_reticulum_module_path].
  split; intros [Hj Hf]; (split; [exact Hj|]).
  - destruct Hf as [_ _ ? _ _ ? ? ? ? _ ? (o & [= <-] & Hpath & _ & [= Hv])]. done.
  - destruct Hf as (? & ? & ? & ? & ? & ? & Hv & Hpath). split; try done; [by apply Hc|by rewrite <- Hk|]. eexists. split; [reflexivity|]. split; [exact Hpath|]. split; [by left|]. cbn in Hv |- *. by rewrite Hv.
Qed.

(** ** Witnesses *)
#[local] Existing Instances Profile1.sample_docs Profile1.sample_cases Profile1.sample_files Profile2.sample_files Profile1.sample_manifest
  p0_files p0_identities p0_destinations p0_headers p0_hashes p0_announces p0_negatives Oracle.sample_host Oracle.sample_probe_json Oracle.sample_response_json Oracle.sample_request_json.
Definition sample_args (profile : ReportProfile) : Args :=
  mk_args profile (str "run") (str "/hyf") None (str "2026-02-28T23:59:59Z") (str "stable") (str "linux") (str "x86_64") (str "report.json") None (Some (str "captures")) None false.
Definition oracle_args : Args :=
  mk_args ReportProfile0 (str "run") (str "/hyf") None (str "2024-02-29T00:00:00Z") (str "stable") (str "linux") (str "x86_64") (str "-") (Some (str "/rns")) None (Some (str "/")) true.
Definition sample_validate : ValidateArgs := mk_validate_args (str "report.json") false (Some ReportProfile1) true (Some (str "/hyf")) (Some (str "/rns")) None.

Lemma command_line_roundtrip_witness :
  CliCommand_parse (command_line (Generate oracle_args)) = Ok (Generate oracle_args) /\ CliCommand_parse (command_line (Validate sample_validate)) = Ok (Validate sample_validate).
Proof. split; apply command_line_roundtrip; cbn [command_ok]; unfold values_ok; repeat (apply list.Forall_cons; split; [vm_compute; first [reflexivity|exact I]|]); apply list.Forall_nil; exact I. Defined.

#[local] Notation generated manifest args := (generated_report (P := toy_prims) (JM := manifest) true args).
#[local] Notation captured_report :=
  (new_profile PROFILE_1_KISS_RNODE (str "run") PINNED_RETICULUM_COMMIT EXPECTED_RETICULUM_COMMIT (str "2026-02-28T23:59:59Z")
     (ConformanceEnvironment_new (str "linux") (str "x86_64") (str "stable")) (Profile1.passed_rows ++ [replay_row])).
#[local] Instance captured_report_json : FromJson ConformanceRun := fun _ => Ok captured_report.

Example sample_report_generated : generated Profile1.sample_manifest (sample_args ReportProfile1) = Ok captured_report.
Proof. vm_compute. reflexivity. Qed.

Lemma generated_report_validates_witness : run_validate sample_validate = Ok tt.
Proof.
  apply (generated_report_validates (P := toy_prims) (L := toy_prims_laws) true (sample_args ReportProfile1) (str "captures") captured_report (str "{}") sample_validate);
    [reflexivity|exact sample_report_generated|reflexivity|reflexivity|reflexivity|reflexivity|reflexivity|reflexivity|].
  exists (str "/rns"). split; [reflexivity|]. apply (proj1 (source_state_ok (str "/rns") None Reticulum EXPECTED_RETICULUM_COMMIT)). vm_compute. reflexivity.
Defined.

Lemma sample_module stdout probe : from_str stdout = Ok probe -> op_module probe = str "/rns/RNS/__init__.py".
Proof. by intros [= <-]. Qed.
Lemma oracle_report_generated : exists report, generated p0_manifest oracle_args = Ok report.
Proof.
  destruct (sample_report_returned (ar_run_id oracle_args) PINNED_RETICULUM_COMMIT (ar_started_at oracle_args)
    (ConformanceEnvironment_new (ar_os oracle_args) (ar_arch oracle_args) (ar_rust_toolchain oracle_args))) as [made Hm].
  rewrite (generated_with_oracle (P := toy_prims) (JM := p0_manifest) oracle_args (str "/rns") PINNED_RETICULUM_COMMIT made); [|reflexivity..|vm_compute; reflexivity|exact Hm].
  destruct (oracle_report_made _ _ _ _ _ _ Hm) as (m & Hr & rows & -> & _). clear Hm.
  destruct Hr as (root & stdout & probe & _ & _ & Hp & _ & _ & ->). apply sample_module in Hp. unfold apply_report_overrides, run_profile_0, new_profile.
  cbn [run_environment with_oracle ce_oracle oe_reticulum_module_path em_reticulum_module_path]. rewrite Hp. eexists. reflexivity.
Qed.
Lemma oracle_report_final_witness : exists report, generated p0_manifest oracle_args = Ok report /\ clean_head (str "/hyf") (run_hyf_commit report).
Proof.
  destruct oracle_report_generated as [report H]. exists report. split; [exact H|].
  exact (proj1 (oracle_report_final (P := toy_prims) (L := toy_prims_laws) (JM := p0_manifest) oracle_args report eq_refl eq_refl H)).
Defined.
