(* ===== verification/GatewayNostr.v ===== *)
(** [hyf_gateway]: the executor that sends envelopes as Nostr events, over the
    in-memory relay (src/crates/hyf_gateway/src/nostr.rs).

    Sending signs an event with the envelope and publishes it; polling takes one
    output of the relay and gives the frame of a verified event, or the control
    message.  The claims say what is sent and what is received, for every relay
    that represents an abstract one. *)
From S2P Require Import Prelude Utf8 Cursor Core Wire Link Gateway NostrHex NostrJson Nostr NostrStored NostrRelay NostrRelayRefine Simulation.
From stdpp Require Import strings gmap.

Open Scope Z_scope.

(** ** Text *)
Record BoundedGatewayText := mk_text { bt_bytes : list Z; bt_len : Z }.
#[export] Instance BoundedGatewayText_eq_dec : EqDecision BoundedGatewayText. Proof. solve_decision. Defined.

Definition BoundedGatewayText_from_str (N : Z) (value : list Z) : outcome NostrError BoundedGatewayText :=
  _ ← guard_err (len value >? N) (StoredStringTooLarge (len value) N);
  bytes ← write_at (zeros N) 0 value;
  Ok (mk_text bytes (len value)).

Definition BoundedGatewayText_as_str (t : BoundedGatewayText) : outcome NostrError (list Z) :=
  v ← slice (bt_bytes t) 0 (bt_len t);
  if utf8_ok v then Ok v else Err NostrHex.Utf8.

Definition NostrGatewayControlText_try_from_str (value : list Z) : outcome NostrError BoundedGatewayText :=
  BoundedGatewayText_from_str HYF_NOSTR_MAX_RELAY_STATUS_CHARS value.
Definition NostrGatewaySubscriptionId_try_from_str (value : list Z) : outcome NostrError BoundedGatewayText :=
  BoundedGatewayText_from_str NOSTR_SUBSCRIPTION_ID_MAX_LEN value.

Record NostrGatewayRelayStatus := mk_gateway_status { gs_prefix : NostrRelayStatusPrefix; gs_raw_prefix : BoundedGatewayText; gs_detail : BoundedGatewayText }.
#[export] Instance NostrGatewayRelayStatus_eq_dec : EqDecision NostrGatewayRelayStatus. Proof. solve_decision. Defined.

Definition NostrGatewayRelayStatus_from_status (status : NostrRelayStatus) : outcome NostrError NostrGatewayRelayStatus :=
  raw_prefix ← NostrGatewayControlText_try_from_str (rs_raw_prefix status);
  detail ← NostrGatewayControlText_try_from_str (rs_detail status);
  Ok (mk_gateway_status (rs_prefix status) raw_prefix detail).

Definition NostrGatewayRelayStatus_as_status (s : NostrGatewayRelayStatus) : outcome NostrError NostrRelayStatus :=
  raw_prefix ← BoundedGatewayText_as_str (gs_raw_prefix s);
  detail ← BoundedGatewayText_as_str (gs_detail s);
  Ok (mk_status (gs_prefix s) raw_prefix detail).

Inductive NostrGatewayRelayOutput :=
| GwFrame (frame : LinkFrameRef)
| GwOk (event_id : NostrEventId) (accepted : bool) (status : NostrGatewayRelayStatus)
| GwEose (subscription_id : BoundedGatewayText)
| GwClosed (subscription_id : BoundedGatewayText) (status : NostrGatewayRelayStatus)
| GwNotice (message : BoundedGatewayText)
| GwAuth (challenge : BoundedGatewayText).

(** ** Errors *)
Definition map_nostr_send_error (link_id : list Z) (error : NostrError) : GatewayError :=
  let kind := match error with
              | RelayEventStoreFull _ | RelayOutputFull _ => Backpressure
              | ContentTooLarge _ _ | EnvelopeTooLarge _ _ | NostrHex.OutputTooSmall _ _ => DriverFrameTooLarge
              | _ => Protocol
              end in
  Driver link_id kind.

Definition map_nostr_receive_error (link_id : list Z) (error : NostrError) : GatewayError :=
  let kind := match error with NostrHex.OutputTooSmall _ _ => Link.OutputTooSmall | _ => Protocol end in
  Driver link_id kind.

Definition map_relay_rejection (link_id : list Z) (status : NostrRelayStatus) : GatewayError :=
  let kind := match rs_prefix status with
              | PrefixRateLimited | PrefixPow => Backpressure
              | PrefixAuthRequired => LinkDown
              | _ => Protocol
              end in
  Driver link_id kind.

Definition is_output_too_small (error : GatewayError) : bool :=
  match error with Driver _ Link.OutputTooSmall => true | _ => false end.

(** ** The executor *)
Record NostrGatewayExecutor := mk_nostr_executor {
  nx_link_id : list Z;
  nx_mtu : Z;
  nx_up : bool;
  nx_author_secret : NostrSecretKey;
  nx_recipient_pubkey : NostrPublicKey;
  nx_relay : FakeNostrRelay;
}.

Definition NostrGatewayExecutor_new (link_id : list Z) (mtu : Z) (relay : FakeNostrRelay) (author_secret : NostrSecretKey)
    (recipient_pubkey : NostrPublicKey) : NostrGatewayExecutor :=
  mk_nostr_executor link_id mtu false author_secret recipient_pubkey relay.

Definition nostr_set_up (up : bool) (x : NostrGatewayExecutor) : NostrGatewayExecutor :=
  mk_nostr_executor (nx_link_id x) (nx_mtu x) up (nx_author_secret x) (nx_recipient_pubkey x) (nx_relay x).
Definition with_relay (relay : FakeNostrRelay) (x : NostrGatewayExecutor) : NostrGatewayExecutor :=
  mk_nostr_executor (nx_link_id x) (nx_mtu x) (nx_up x) (nx_author_secret x) (nx_recipient_pubkey x) relay.

Section executor.
Context {P : NostrPrims}.
Context (E S N : Z).

(** [.map_err(|error| map_nostr_receive_error(self.link_id, error))] *)
Definition received {A} (link_id : list Z) (m : outcome NostrError A) : outcome GatewayError A :=
  map_err (map_nostr_receive_error link_id) m.

(** The state is [output]. *)
Definition decode_relay_event (link_id : list Z) (event : NostrEvent) : io (list Z) GatewayError LinkFrameRef :=
  received_at_ms ← lift (ok_or (checked_mul (ne_created_at event) 1000) (Driver link_id Protocol));
  _ ← io_map_err (map_nostr_receive_error link_id) (verify_and_decode_hyf_nostr_event event);
  output ← get;
  bytes ← lift (slice output 0 (len (ne_content event) / 2));
  mret (mk_frame link_id received_at_ms bytes).

Definition gateway_control_output (x : NostrGatewayExecutor) : outcome GatewayError NostrGatewayRelayOutput :=
  let link_id := nx_link_id x in
  next ← received link_id (next_control_output (nx_relay x));
  control ← ok_or next (Driver link_id Protocol);
  match control with
  | CtlOk event_id accepted status =>
      status ← received link_id (NostrGatewayRelayStatus_from_status status);
      Ok (GwOk event_id accepted status)
  | CtlEose subscription_id =>
      subscription_id ← received link_id (NostrGatewaySubscriptionId_try_from_str subscription_id);
      Ok (GwEose subscription_id)
  | CtlClosed subscription_id status =>
      subscription_id ← received link_id (NostrGatewaySubscriptionId_try_from_str subscription_id);
      status ← received link_id (NostrGatewayRelayStatus_from_status status);
      Ok (GwClosed subscription_id status)
  | CtlNotice message =>
      message ← received link_id (NostrGatewayControlText_try_from_str message);
      Ok (GwNotice message)
  | CtlAuth challenge =>
      challenge ← received link_id (NostrGatewayControlText_try_from_str challenge);
      Ok (GwAuth challenge)
  end.

(** [self.relay.consume_output();] *)
Definition consume_relay_output : io (NostrGatewayExecutor * list Z) GatewayError unit := fun s =>
  match consume_output N (nx_relay (fst s)) with
  | (Panic, relay) => (Panic, (with_relay relay (fst s), snd s))
  | (_, relay) => (Ok tt, (with_relay relay (fst s), snd s))
  end.

(** [matches!(message, FakeNostrRelayOutput::Event { .. })] *)
Definition is_event_output (message : FakeNostrRelayOutput) : bool := match message with OutEvent _ _ => true | _ => false end.

(** The closure: it fills [output] for an event. *)
Definition poll_event (link_id : list Z) (output : list Z) (message : FakeNostrRelayOutput) : outcome GatewayError NostrGatewayRelayOutput * list Z :=
  match message with
  | OutEvent _ event =>
      let '(frame, output) := decode_relay_event link_id event output in
      (frame ← frame; Ok (GwFrame frame), output)
  | _ => (Err (Driver link_id Protocol), output)
  end.

(** The state is the executor and [output]. *)
Definition poll_relay_output : io (NostrGatewayExecutor * list Z) GatewayError (option NostrGatewayRelayOutput) :=
  s ← get;
  let x := fst s in
  let link_id := nx_link_id x in
  _ ← lift (guard_err (negb (nx_up x)) (Driver link_id LinkDown));
  is_event ← lift (received link_id (with_next_output (nx_relay x) is_event_output));
  match is_event with
  | None => mret None
  | Some false =>
      output ← lift (gateway_control_output x);
      _ ← consume_relay_output;
      mret (Some output)
  | Some true =>
      polled ← lift (received link_id (with_next_output (nx_relay x) (poll_event link_id (snd s))));
      polled ← lift (ok_or polled (Driver link_id Protocol));
      let '(result, output) := polled in
      _ ← put (x, output);
      match result with
      | Ok output => _ ← consume_relay_output; mret (Some output)
      | Err error =>
          _ ← (if negb (is_output_too_small error) then consume_relay_output else mret tt);
          lift (Err error)
      | Panic => lift Panic
      end
  end.

(** The closure of [send_link_bytes]: it changes the relay. *)
Definition publish_event (link_id : list Z) (relay : FakeNostrRelay) (event : NostrEvent) : outcome GatewayError unit * FakeNostrRelay :=
  match publish E N event (relay, zeros GATEWAY_FRAME_BUFFER_LEN) with
  | (Ok (Accepted _), (relay, _)) | (Ok (AcceptedDuplicate _), (relay, _)) => (Ok tt, relay)
  | (Ok (Rejected status), (relay, _)) => (Err (map_relay_rejection link_id status), relay)
  | (Err error, (relay, _)) => (Err (map_nostr_send_error link_id error), relay)
  | (Panic, (relay, _)) => (Panic, relay)
  end.

#[export] Instance nostr_executor : GatewayLinkExecutor NostrGatewayExecutor := fun link_id bytes now_ms =>
  x ← get;
  _ ← lift (guard_err (negb (bool_decide (link_id = nx_link_id x))) (UnsupportedLink link_id));
  _ ← lift (guard_err (negb (nx_up x)) (Driver link_id LinkDown));
  _ ← lift (guard_err (len bytes >? nx_mtu x) (Driver link_id DriverFrameTooLarge));
  match fst (with_signed_hyf_nostr_event bytes (nx_author_secret x) (nx_recipient_pubkey x) (now_ms / 1000)
               (publish_event link_id (nx_relay x)) HyfNostrEventScratch_new) with
  | Ok (result, relay) => _ ← put (with_relay relay x); lift result
  | Err error => lift (Err (map_nostr_send_error link_id error))
  | Panic => lift Panic
  end.
End executor.

(** ** Text that fits *)
Definition bounded (N : Z) (v : list Z) : BoundedGatewayText := mk_text (v ++ zeros (N - len v)) (len v).
Definition control_text (v : list Z) : BoundedGatewayText := bounded HYF_NOSTR_MAX_RELAY_STATUS_CHARS v.
Definition id_text (v : list Z) : BoundedGatewayText := bounded NOSTR_SUBSCRIPTION_ID_MAX_LEN v.
Definition gateway_status (s : NostrRelayStatus) : NostrGatewayRelayStatus :=
  mk_gateway_status (rs_prefix s) (control_text (rs_raw_prefix s)) (control_text (rs_detail s)).

(** The gateway's copy of a text is the relay's stored string of it. *)
Lemma text_from_str N v : 0 <= N ->
  BoundedGatewayText_from_str N v = if len v >? N then Err (StoredStringTooLarge (len v) N) else Ok (bounded N v).
Proof.
  intros HN. pose proof (from_str_spec N v HN) as H. unfold StoredString_from_str in H. unfold BoundedGatewayText_from_str.
  destruct (len v >? N); [done|]. cbn [guard_err mbind outcome_bind StoredString_empty ss_bytes] in *.
  destruct (write_at (zeros N) 0 v); [|done..]. cbn [outcome_bind] in *. by injection H as ->.
Qed.

Lemma text_as_str N v : str_ok v -> BoundedGatewayText_as_str (bounded N v) = Ok v.
Proof. intros [_ Hu]. unfold BoundedGatewayText_as_str, bounded. cbn [bt_bytes bt_len]. rewrite slice_app_first by done. cbn [mbind outcome_bind]. by rewrite Hu. Qed.

Lemma control_text_fits v : text_check v = Ok tt -> NostrGatewayControlText_try_from_str v = Ok (control_text v).
Proof. unfold text_check, NostrGatewayControlText_try_from_str. intros H. rewrite text_from_str by done. by destruct (len v >? _). Qed.
Lemma id_text_fits v : validate_subscription_id v = Ok tt -> NostrGatewaySubscriptionId_try_from_str v = Ok (id_text v).
Proof.
  unfold validate_subscription_id, NostrGatewaySubscriptionId_try_from_str. cbv zeta. intros H. rewrite text_from_str by done.
  destruct (len v =? 0); [done|]. by destruct (len v >? _).
Qed.
Lemma gateway_status_fits s : status_check s = Ok tt -> NostrGatewayRelayStatus_from_status s = Ok (gateway_status s).
Proof.
  unfold status_check, NostrGatewayRelayStatus_from_status. intros H.
  change ((_ ← text_check (rs_raw_prefix s); text_check (rs_detail s)) = Ok tt) in H.
  destruct (text_check (rs_raw_prefix s)) as [[]|e|] eqn:H1; [|done..]. cbn [mbind outcome_bind] in H.
  rewrite !control_text_fits by done. done.
Qed.

(** Statuses survive the copy. *)
Lemma gateway_status_roundtrip s : status_fits s ->
  (g ← NostrGatewayRelayStatus_from_status s; NostrGatewayRelayStatus_as_status g) = Ok s.
Proof.
  intros [[H1 H2] Hc]. rewrite gateway_status_fits by done. cbn [mbind outcome_bind]. unfold NostrGatewayRelayStatus_as_status, gateway_status, control_text.
  cbn [gs_raw_prefix gs_detail gs_prefix]. rewrite !text_as_str by done. cbn [mbind outcome_bind]. by destruct s.
Qed.

(** What the gateway makes of a control output. *)
Definition gateway_of (output : FakeNostrRelayOutput) : option NostrGatewayRelayOutput :=
  match output with
  | OutOk event_id accepted status => Some (GwOk event_id accepted (gateway_status status))
  | OutEvent _ _ => None
  | OutEose id => Some (GwEose (id_text id))
  | OutClosed id status => Some (GwClosed (id_text id) (gateway_status status))
  | OutNotice message => Some (GwNotice (control_text message))
  | OutAuth challenge => Some (GwAuth (control_text challenge))
  end.

Section polling.
Context {P : NostrPrims} `{!NostrPrimsLaws P}.
Context (E S N : Z).
Hypotheses (events_cap : 0 <= E <= usize_MAX) (subscriptions_cap : 0 <= S <= usize_MAX) (outputs_cap : 0 <= N <= usize_MAX).

Notation rep := (represents E S N).

Lemma rep_next_shows r a output : rep r a -> spec_next a = Some output -> exists rec, shows (fr_events r) (fr_output_events r) rec output.
Proof.
  intros HR Hn. destruct (rp_outputs _ _ _ _ _ HR) as (recs & _ & _ & Hsh & _). unfold spec_next in Hn.
  destruct Hsh as [|rec o recs outputs Hro _]; [done|]. injection Hn as ->. by exists rec.
Qed.

Lemma gateway_control x a output g :
  rep (nx_relay x) a -> spec_next a = Some output -> gateway_of output = Some g -> gateway_control_output x = Ok g.
Proof.
  intros HR Hn Hg. destruct (rep_next_shows _ _ _ HR Hn) as [rec Hs]. unfold gateway_control_output, received.
  rewrite (control_shows E S N (nx_relay x) a HR), Hn. cbn [mbind option_bind map_err outcome_bind].
  destruct output, rec; try done; cbn [shows control_of ok_or mbind outcome_bind] in *; injection Hg as <-.
  - destruct Hs as (_ & _ & _ & [_ Hc]). by rewrite gateway_status_fits.
  - destruct Hs as (_ & [_ Hc]). by rewrite id_text_fits.
  - destruct Hs as (_ & [_ Hc] & _ & [_ Hd]). rewrite id_text_fits by done. cbn [map_err mbind outcome_bind]. by rewrite gateway_status_fits.
  - destruct Hs as (_ & [_ Hc]). by rewrite control_text_fits.
  - destruct Hs as (_ & [_ Hc]). by rewrite control_text_fits.
Qed.

(** The executor after the relay's next output is taken. *)
Definition consumed (x : NostrGatewayExecutor) (a : SpecRelay) (x' : NostrGatewayExecutor) : Prop :=
  exists r', x' = with_relay r' x /\ rep r' (spec_with_outputs (tail (sp_outputs a)) a).

Lemma consume_relay_spec x a output buffer :
  rep (nx_relay x) a -> spec_next a = Some output -> exists x', consume_relay_output N (x, buffer) = (Ok tt, (x', buffer)) /\ consumed x a x'.
Proof.
  intros HR Hn. destruct (consume_refines E S N outputs_cap (nx_relay x) a HR) as [H1 H2]. unfold consume_relay_output. cbn [fst snd].
  unfold spec_next in Hn. unfold spec_consume, mbind, io_bind, get, put in H1, H2.
  destruct (consume_output N (nx_relay x)) as [o r']. destruct (sp_outputs a) as [|o' outputs] eqn:Ho; [done|]. cbn in H1, H2. subst o.
  exists (with_relay r' x). split; [done|]. exists r'. by rewrite Ho.
Qed.

(** *** Events *)
Lemma decode_relay_event_spec link_id e output :
  unsigned_ok (unsigned e) -> event_text_ok e ->
  match decode_relay_event link_id e output with
  | (Ok frame, output') => exists raw env, verify_event e = Ok tt /\ ne_kind e = HYF_NOSTR_ENVELOPE_KIND /\ ne_content e = hex_bytes raw /\
      decode_envelope raw = Ok env /\ output' = raw ++ drop (length raw) output /\ ne_created_at e * 1000 <= u64_MAX /\
      frame = mk_frame link_id (ne_created_at e * 1000) raw
  | (Err error, _) => error = Driver link_id Protocol \/ error = Driver link_id Link.OutputTooSmall
  | (Panic, _) => False
  end.
Proof.
  intros Hu Ht. unfold decode_relay_event, checked_mul. pose proof (verify_and_decode_spec e output Hu Ht) as H.
  change usize_MAX with u64_MAX. destruct (Z.leb_spec (ne_created_at e * 1000) u64_MAX) as [Hl|]; cbn [ok_or]; [|by left]. rewrite lift_bind_ok.
  unfold mbind at 1, io_bind at 1, io_map_err. destruct (verify_and_decode_hyf_nostr_event e output) as [[env|error|] output']; cbn [map_err]; [|by destruct error; auto|done].
  destruct H as (Hv & Hk & raw & Hb & Hc & He & ->). rewrite get_bind, Hc, hex_bytes_len, Z.div_mul by done. rewrite slice_app_first by done. rewrite lift_bind_ok.
  by exists raw, env.
Qed.

Lemma poll_refused x output : nx_up x = false -> poll_relay_output N (x, output) = (Err (Driver (nx_link_id x) LinkDown), (x, output)).
Proof. intros Hup. unfold poll_relay_output. rewrite get_bind. cbn [fst]. cbv zeta. by rewrite Hup. Qed.

Lemma poll_idle x a output : nx_up x = true -> rep (nx_relay x) a -> spec_next a = None -> poll_relay_output N (x, output) = (Ok None, (x, output)).
Proof.
  intros Hup HR Hn. unfold poll_relay_output. rewrite get_bind. cbn [fst]. cbv zeta. rewrite Hup. cbn [negb guard_err]. rewrite lift_bind_ok.
  rewrite (next_shows E S N (nx_relay x) a is_event_output HR), Hn. cbn [fmap option_fmap option_map received map_err]. by rewrite lift_bind_ok.
Qed.

Lemma poll_control x a output message g :
  nx_up x = true -> rep (nx_relay x) a -> spec_next a = Some message -> gateway_of message = Some g ->
  exists x', poll_relay_output N (x, output) = (Ok (Some g), (x', output)) /\ consumed x a x'.
Proof.
  intros Hup HR Hn Hg. destruct (consume_relay_spec x a message output HR Hn) as (x' & Hc & Hx). exists x'. split; [|done].
  unfold poll_relay_output. rewrite get_bind. cbn [fst]. cbv zeta. rewrite Hup. cbn [negb guard_err]. rewrite lift_bind_ok.
  rewrite (next_shows E S N (nx_relay x) a is_event_output HR), Hn. cbn [fmap option_fmap option_map received map_err]. rewrite lift_bind_ok.
  assert (is_event_output message = false) as -> by (by destruct message).
  rewrite (gateway_control x a message g HR Hn Hg), lift_bind_ok. by rewrite (io_bind_ok _ _ _ _ _ Hc).
Qed.

Lemma poll_event_spec x a output sid e :
  nx_up x = true -> rep (nx_relay x) a -> spec_next a = Some (OutEvent sid e) -> unsigned_ok (unsigned e) ->
  let link_id := nx_link_id x in
  match decode_relay_event link_id e output with
  | (Ok frame, output') => exists x', poll_relay_output N (x, output) = (Ok (Some (GwFrame frame)), (x', output')) /\ consumed x a x'
  | (Err error, output') => exists x', poll_relay_output N (x, output) = (Err error, (x', output')) /\
      (if is_output_too_small error then x' = x else consumed x a x')
  | (Panic, _) => False
  end.
Proof.
  intros Hup HR Hn Hu. cbv zeta. destruct (rep_next_shows _ _ _ HR Hn) as [rec Hs].
  assert (event_text_ok e) as Ht by (destruct rec; try done; by destruct Hs as (_ & _ & [Ht _])).
  pose proof (decode_relay_event_spec (nx_link_id x) e output Hu Ht) as Hd.
  unfold poll_relay_output. rewrite get_bind. cbn [fst snd]. cbv zeta. rewrite Hup. cbn [negb guard_err]. rewrite lift_bind_ok.
  rewrite (next_shows E S N (nx_relay x) a is_event_output HR), (next_shows E S N (nx_relay x) a (poll_event (nx_link_id x) output) HR), Hn. cbn [fmap option_fmap option_map received map_err]. rewrite lift_bind_ok.
  change (is_event_output (OutEvent sid e)) with true. cbv iota. unfold poll_event. destruct (decode_relay_event (nx_link_id x) e output) as [[frame|error|] output']; [| |done].
  - rewrite lift_bind_ok. cbn [ok_or]. rewrite lift_bind_ok, put_bind. cbn [mbind outcome_bind]. destruct (consume_relay_spec x a (OutEvent sid e) output' HR Hn) as (x' & Hc & Hx). exists x'. split; [|done].
    change (consume_relay_output N (x, output') = (Ok tt, (x', output'))) in Hc. unfold mbind, io_bind. by rewrite Hc.
  - rewrite lift_bind_ok. cbn [ok_or]. rewrite lift_bind_ok, put_bind. cbn [mbind outcome_bind]. destruct (is_output_too_small error); cbn [negb].
    + by exists x.
    + destruct (consume_relay_spec x a (OutEvent sid e) output' HR Hn) as (x' & Hc & Hx). exists x'. split; [|done]. unfold mbind, io_bind. by rewrite Hc.
Qed.
End polling.

(** ** Sending *)
Section sending.
Context {P : NostrPrims} `{!NostrPrimsLaws P}.
Context (E S N : Z).
Hypotheses (events_cap : 0 <= E <= usize_MAX) (subscriptions_cap : 0 <= S <= usize_MAX) (outputs_cap : 0 <= N <= usize_MAX).

Notation rep := (represents E S N).

(** The event for an envelope. *)
Definition envelope_event (x : NostrGatewayExecutor) (bytes : list Z) (now_ms : Z) : outcome NostrError NostrEvent :=
  match SigningKey_from_slice (nx_author_secret x) with
  | None => Err Crypto
  | Some sk => sign_event (hyf_unsigned bytes (VerifyingKey_to_bytes (verifying_key sk)) (nx_recipient_pubkey x) (now_ms / 1000)) (nx_author_secret x)
  end.

(** The answer of the relay, as the gateway reports it. *)
Definition publish_reply {T} (link_id : list Z) (p : outcome NostrError NostrPublishOutcome * T) : outcome GatewayError unit * T :=
  (match fst p with
   | Ok (Accepted _) | Ok (AcceptedDuplicate _) => Ok tt
   | Ok (Rejected status) => Err (map_relay_rejection link_id status)
   | Err error => Err (map_nostr_send_error link_id error)
   | Panic => Panic
   end, snd p).

(** What sending does, to the abstract relay. *)
Definition spec_send (x : NostrGatewayExecutor) (link_id bytes : list Z) (now_ms : Z) (a : SpecRelay) : outcome GatewayError unit * SpecRelay :=
  if negb (bool_decide (link_id = nx_link_id x)) then (Err (UnsupportedLink link_id), a)
  else if negb (nx_up x) then (Err (Driver link_id LinkDown), a)
  else if (len bytes >? nx_mtu x) || (len bytes >? HYF_NOSTR_MAX_ENVELOPE_BYTES) then (Err (Driver link_id DriverFrameTooLarge), a)
  else
    match envelope_event x bytes now_ms with
    | Ok ev =>
        publish_reply link_id
          (match decode_envelope bytes with
           | Ok _ => spec_publish_valid E N ev a
           | _ => (_ ← spec_enqueue N (OutOk (ne_id ev) false invalid_status); mret (Rejected invalid_status)) a
           end)
    | Err error => (Err (map_nostr_send_error link_id error), a)
    | Panic => (Panic, a)
    end.

Lemma publish_event_eq link_id relay ev :
  publish_event E N link_id relay ev =
    publish_reply link_id (let '(o, s) := publish E N ev (relay, zeros GATEWAY_FRAME_BUFFER_LEN) in (o, fst s)).
Proof.
  unfold publish_event, publish_reply. destruct (publish E N ev _) as [o [r b]]. cbn [fst snd]. by destruct o as [[]|e|].
Qed.

Lemma hyf_event_text ev raw pubkey recipient created_at :
  bytes_ok raw -> array_ok 32 recipient -> unsigned ev = hyf_unsigned raw pubkey recipient created_at -> event_text_ok ev.
Proof.
  intros Hb [_ Hre] Hu. unfold hyf_unsigned in Hu. injection Hu as _ _ _ Ht Hc. split; [rewrite Hc; by apply hex_str_ok|]. rewrite Ht.
  repeat (apply List.Forall_cons || apply List.Forall_nil); (split; [|done]); unfold HYF_NOSTR_TOPIC_TAG, HYF_NOSTR_ALT_TAG;
    repeat (apply List.Forall_cons || apply List.Forall_nil); first [by apply hex_str_ok | by apply literal_str; vm_compute].
Qed.

Lemma envelope_event_spec x bytes now_ms ev :
  bytes_ok bytes -> array_ok 32 (nx_recipient_pubkey x) -> u64_ok now_ms -> envelope_event x bytes now_ms = Ok ev ->
  verify_event ev = Ok tt /\ event_text_ok ev /\ unsigned_ok (unsigned ev) /\
  exists pubkey, unsigned ev = hyf_unsigned bytes pubkey (nx_recipient_pubkey x) (now_ms / 1000).
Proof.
  intros Hb Hre Hn. unfold envelope_event. destruct (SigningKey_from_slice (nx_author_secret x)) as [sk|]; [|done]. intros Hev.
  set (u := hyf_unsigned _ _ _ _) in Hev. assert (u64_ok (now_ms / 1000)) as Hc.
  { unfold u64_ok in *. split; [apply Z.div_pos; lia|]. apply Z.div_lt_upper_bound; lia. }
  assert (unsigned_ok u) as Hu by (by apply hyf_unsigned_ok; [|apply verifying_key_len|..]).
  destruct (sign_then_verify u (nx_author_secret x) ev Hu Hev) as [He Hv]. split_and!; [done| |by rewrite He|by eexists].
  by eapply hyf_event_text.
Qed.

Lemma envelope_event_safe x bytes now_ms :
  bytes_ok bytes -> array_ok 32 (nx_recipient_pubkey x) -> u64_ok now_ms -> envelope_event x bytes now_ms <> Panic.
Proof.
  intros Hb Hre Hn. unfold envelope_event. destruct (SigningKey_from_slice (nx_author_secret x)) as [sk|]; [|done].
  assert (u64_ok (now_ms / 1000)) as Hc.
  { unfold u64_ok in *. split; [apply Z.div_pos; lia|]. apply Z.div_lt_upper_bound; lia. }
  set (u := hyf_unsigned _ _ _ _). assert (unsigned_ok u) as Hu by (by apply hyf_unsigned_ok; [|apply verifying_key_len|..]).
  pose proof (sign_event_spec u (nx_author_secret x) Hu) as H. by destruct (sign_event u (nx_author_secret x)).
Qed.

Lemma publish_envelope_refines link_id r a x bytes now_ms ev :
  rep r a -> bytes_ok bytes -> array_ok 32 (nx_recipient_pubkey x) -> u64_ok now_ms -> envelope_event x bytes now_ms = Ok ev ->
  len bytes <= GATEWAY_FRAME_BUFFER_LEN ->
  let s := publish_reply link_id
    (match decode_envelope bytes with
     | Ok _ => spec_publish_valid E N ev a
     | _ => (_ ← spec_enqueue N (OutOk (ne_id ev) false invalid_status); mret (Rejected invalid_status)) a
     end) in
  fst (publish_event E N link_id r ev) = fst s /\ rep (snd (publish_event E N link_id r ev)) (snd s).
Proof.
  intros HR Hb Hre Hn Hev Hl. cbv zeta. destruct (envelope_event_spec x bytes now_ms ev Hb Hre Hn Hev) as (Hv & Ht & Hu & pubkey & He).
  destruct (publish_refines E S N events_cap outputs_cap ev HyfEnvelopeProfile Ht (r, zeros GATEWAY_FRAME_BUFFER_LEN) (a, zeros GATEWAY_FRAME_BUFFER_LEN)) as [H1 [H2 _]];
    [by split|].
  rewrite publish_event_eq. unfold publish. destruct (publish_with_profile E N ev HyfEnvelopeProfile _) as [o [r' b]]. revert H1 H2.
  unfold spec_publish. cbn [fst snd validate_publish_profile]. unfold mbind at 1 3, io_bind at 1 3.
  rewrite (verify_and_decode_hyf ev bytes pubkey (nx_recipient_pubkey x) (now_ms / 1000)) by (rewrite ?len_zeros by (unfold GATEWAY_FRAME_BUFFER_LEN; lia); done).
  pose proof (decode_envelope_safe bytes Hb) as Hs. unfold publish_reply.
  destruct (decode_envelope bytes) as [env|error|]; cbn [map_err mret io_ret]; [| |done].
  - destruct (spec_publish_valid E N ev a) as [o' a']. cbn [fst snd]. intros -> HR'. done.
  - destruct ((_ ← spec_enqueue N _; mret _) a) as [o' a']. cbn [fst snd]. intros -> HR'. done.
Qed.

Lemma send_refines x a link_id bytes now_ms :
  rep (nx_relay x) a -> bytes_ok bytes -> array_ok 32 (nx_recipient_pubkey x) -> u64_ok now_ms ->
  exists r', nostr_executor E N link_id bytes now_ms x = (fst (spec_send x link_id bytes now_ms a), with_relay r' x) /\
    rep r' (snd (spec_send x link_id bytes now_ms a)).
Proof.
  intros HR Hb Hre Hn. unfold nostr_executor, spec_send. rewrite get_bind.
  assert (with_relay (nx_relay x) x = x) as Hx by (by destruct x).
  destruct (bool_decide (link_id = nx_link_id x)); cbn [negb guard_err]; [rewrite lift_bind_ok|exists (nx_relay x); by rewrite Hx].
  destruct (nx_up x); cbn [negb guard_err]; [rewrite lift_bind_ok|exists (nx_relay x); by rewrite Hx].
  destruct (len bytes >? nx_mtu x); cbn [orb guard_err]; [exists (nx_relay x); by rewrite Hx|rewrite lift_bind_ok].
  destruct (with_signed_spec bytes (nx_author_secret x) (nx_recipient_pubkey x) (now_ms / 1000) (publish_event E N link_id (nx_relay x)) HyfNostrEventScratch_new)
    as (s' & _ & ->); [done|done|split; vm_compute; reflexivity|]. cbn [fst].
  destruct (len bytes >? HYF_NOSTR_MAX_ENVELOPE_BYTES) eqn:Hlen; [exists (nx_relay x); by rewrite Hx|].
  pose proof (envelope_event_safe x bytes now_ms Hb Hre Hn) as Hsafe. unfold envelope_event in *.
  destruct (SigningKey_from_slice (nx_author_secret x)) as [sk|] eqn:Hsk; [|exists (nx_relay x); by rewrite Hx].
  destruct (sign_event _ (nx_author_secret x)) as [ev|error|] eqn:Hev; cbn [mbind outcome_bind]; [|exists (nx_relay x); by rewrite Hx|done].
  destruct (publish_envelope_refines link_id (nx_relay x) a x bytes now_ms ev HR Hb Hre Hn) as [H1 H2].
  { unfold envelope_event. by rewrite Hsk. }
  { rewrite Z.gtb_ltb, Z.ltb_ge in Hlen. unfold GATEWAY_FRAME_BUFFER_LEN, HYF_NOSTR_MAX_ENVELOPE_BYTES in *. lia. }
  destruct (publish_event E N link_id (nx_relay x) ev) as [o r']. cbn [fst snd] in H1, H2. rewrite put_bind. exists r'. split; [by rewrite <- H1|done].
Qed.
End sending.

(** ** Claims *)
Section claims.
Context {P : NostrPrims} `{!NostrPrimsLaws P}.

Lemma spec_send_safe E N x a link_id bytes now_ms :
  bytes_ok bytes -> array_ok 32 (nx_recipient_pubkey x) -> u64_ok now_ms -> sp_overflows a < usize_MAX -> fst (spec_send E N x link_id bytes now_ms a) <> Panic.
Proof.
  intros Hb Hre Hn Ha. unfold spec_send. destruct (negb _); [done|]. destruct (negb _); [done|]. destruct (_ || _); [done|].
  pose proof (envelope_event_safe x bytes now_ms Hb Hre Hn) as Hs. destruct (envelope_event x bytes now_ms) as [ev|error|]; [|done..].
  unfold publish_reply. cbn [fst]. pose proof (decode_envelope_safe bytes Hb) as Hd. destruct (decode_envelope bytes) as [env|error|]; [| |done].
  - destruct (publish_valid_loses E N ev a Ha) as (H & _). by destruct (fst (spec_publish_valid E N ev a)) as [[]|e|].
  - destruct (enqueue_loses N (OutOk (ne_id ev) false invalid_status) a Ha) as (H & _). unfold mbind, io_bind.
    by destruct (spec_enqueue N _ a) as [[[]|e|] a'].
Qed.

(** Sending is publishing to the abstract relay: for every relay that represents
    one, the executor answers as [spec_send] does and its relay represents the
    abstract relay afterwards; neither a bad link, a frame that is too large, a
    secret that is no key, bytes that are no envelope, a full relay nor a relay
    that rejects the event makes it panic. *)
Theorem nostr_gateway_send E S N x a link_id bytes now_ms :
  0 <= E <= usize_MAX -> 0 <= N <= usize_MAX ->
  represents E S N (nx_relay x) a -> sp_overflows a < usize_MAX ->
  bytes_ok bytes -> array_ok 32 (nx_recipient_pubkey x) -> u64_ok now_ms ->
  exists r', nostr_executor E N link_id bytes now_ms x = (fst (spec_send E N x link_id bytes now_ms a), with_relay r' x) /\
    represents E S N r' (snd (spec_send E N x link_id bytes now_ms a)) /\ fst (spec_send E N x link_id bytes now_ms a) <> Panic.
Proof.
  intros HE HN HR Ha Hb Hre Hn. destruct (send_refines E S N HE HN x a link_id bytes now_ms HR Hb Hre Hn) as (r' & H1 & H2).
  exists r'. split_and!; [done..|]. by apply spec_send_safe.
Qed.

Lemma enqueue_room N output a u a' : spec_enqueue N output a = (Ok u, a') -> a' = spec_with_outputs (sp_outputs a ++ [output]) a.
Proof. unfold spec_enqueue. rewrite get_bind. destruct (_ <? N); [by intros [= _ <-]|]. by destruct (_ =? usize_MAX). Qed.

Lemma publish_stores E N ev a o a' :
  spec_publish_valid E N ev a = (Ok o, a') -> (forall status, o <> Rejected status) ->
  ne_id ev ∈ (ne_id <$> sp_events a') /\ (ne_id ev ∉ (ne_id <$> sp_events a) -> sp_events a' = sp_events a ++ [ev]).
Proof.
  unfold spec_publish_valid. rewrite get_bind. destruct (existsb _ (sp_events a)) eqn:Hx.
  - apply existsb_exists in Hx as (e & He & Hid). apply bool_decide_eq_true in Hid. apply list_elem_of_In in He.
    assert (ne_id ev ∈ (ne_id <$> sp_events a)) as Hin by (rewrite <- Hid; by apply list_elem_of_fmap_2).
    unfold mbind, io_bind. destruct (spec_enqueue N _ a) as [[u|e'|] a''] eqn:Hq; [|done..]. apply enqueue_room in Hq as ->. by intros [= <- <-] _.
  - destruct (sp_rejection a) as [status|].
    { unfold mbind, io_bind. cbn [put]. destruct (spec_enqueue N _ _) as [[u|e'|] a'']; [|done..]. intros [= <- _] Ho. by destruct (Ho status). }
    unfold mbind, io_bind, lift. destruct (storable ev) as [[]|e|]; [|done..]. destruct (guard_err _ _) as [[]|e|]; [|done..]. cbn [put].
    destruct (spec_enqueue N _ _) as [[u|e'|] a''] eqn:Hq; [|done..]. apply enqueue_room in Hq as ->. intros [= <- <-] _.
    cbn [sp_events spec_with_outputs spec_with_events]. split; [|done]. rewrite fmap_app. apply elem_of_app. right. by apply list_elem_of_singleton.
Qed.

(** C24. What is sent arrives.  When an executor accepts the bytes, they encode an
    envelope, its relay then holds the event signed for them, and every executor, over
    whatever relay, that is up and whose next output is this event polls a frame
    with exactly these bytes, of the second in which they were sent, and takes the
    output from its relay. *)
Theorem nostr_gateway_roundtrip E S N x a link_id bytes now_ms x' :
  0 <= E <= usize_MAX -> 0 <= N <= usize_MAX ->
  represents E S N (nx_relay x) a -> bytes_ok bytes -> array_ok 32 (nx_recipient_pubkey x) -> u64_ok now_ms ->
  nostr_executor E N link_id bytes now_ms x = (Ok tt, x') ->
  exists ev env a', envelope_event x bytes now_ms = Ok ev /\ decode_envelope bytes = Ok env /\ represents E S N (nx_relay x') a' /\
    ne_id ev ∈ (ne_id <$> sp_events a') /\ (ne_id ev ∉ (ne_id <$> sp_events a) -> sp_events a' = sp_events a ++ [ev]) /\
    forall E' S' N' y b sid output, 0 <= N' <= usize_MAX ->
      nx_up y = true -> represents E' S' N' (nx_relay y) b -> spec_next b = Some (OutEvent sid ev) -> len bytes <= len output ->
      exists y', poll_relay_output N' (y, output) =
          (Ok (Some (GwFrame (mk_frame (nx_link_id y) (now_ms / 1000 * 1000) bytes))), (y', bytes ++ drop (length bytes) output)) /\
        consumed E' S' N' y b y'.
Proof.
  intros HE HN HR Hb Hre Hn Hsend. destruct (send_refines E S N HE HN x a link_id bytes now_ms HR Hb Hre Hn) as (r' & H1 & H2).
  rewrite Hsend in H1. injection H1 as Hok ->. revert Hok H2. unfold spec_send.
  destruct (negb _); [done|]. destruct (negb _); [done|]. destruct ((_ >? _) || _) eqn:Hlen; [done|]. apply orb_false_elim in Hlen as [_ Hlen].
  rewrite Z.gtb_ltb, Z.ltb_ge in Hlen. destruct (envelope_event x bytes now_ms) as [ev|error|] eqn:Hev; [|done..]. unfold publish_reply. cbn [fst snd].
  destruct (envelope_event_spec x bytes now_ms ev Hb Hre Hn Hev) as (Hv & Ht & Hu & pubkey & He).
  destruct (decode_envelope bytes) as [env|error|] eqn:Hd.
  2, 3: unfold mbind, io_bind; by destruct (spec_enqueue N _ a) as [[[]|e|] a'].
  destruct (spec_publish_valid E N ev a) as [o a'] eqn:Hp. cbn [fst snd]. intros Ho HR'. exists ev, env, a'. split; [done|]. split; [done|]. split; [done|].
  destruct o as [o| |]; [|done..]. destruct (publish_stores E N ev a o a' Hp) as [Hs1 Hs2]; [by destruct o; intros ? [=]|].
  split; [done|]. split; [done|]. intros E' S' N' y b sid output HN' Hup HRb Hnext Hl.
  pose proof (poll_event_spec E' S' N' HN' y b output sid ev Hup HRb Hnext Hu) as Hpoll. cbv zeta in Hpoll.
  assert (decode_relay_event (nx_link_id y) ev output = (Ok (mk_frame (nx_link_id y) (now_ms / 1000 * 1000) bytes), bytes ++ drop (length bytes) output)) as Hdec; [|by rewrite Hdec in Hpoll].
  assert (ne_created_at ev = now_ms / 1000 /\ ne_content ev = hex_bytes bytes) as [Hc Hx] by (unfold hyf_unsigned in He; by injection He).
  unfold decode_relay_event, checked_mul. rewrite Hc. pose proof (Z.mul_div_le now_ms 1000 ltac:(lia)). unfold u64_ok in Hn.
  destruct (Z.leb_spec (now_ms / 1000 * 1000) usize_MAX); [|unfold usize_MAX in *; lia]. cbn [ok_or]. rewrite lift_bind_ok.
  unfold mbind at 1, io_bind at 1, io_map_err. rewrite (verify_and_decode_hyf ev bytes pubkey (nx_recipient_pubkey x) (now_ms / 1000)) by done.
  rewrite Hd. cbn [map_err]. rewrite get_bind, Hx, hex_bytes_len, Z.div_mul by done. rewrite slice_app_first by done. by rewrite lift_bind_ok.
Qed.
End claims.

(** A poll takes at most one output.  A link that is down or a relay with nothing to
    say changes nothing; a control message becomes the control output with the same
    text; an event that verifies becomes the frame of the envelope in it; and of the
    events that do not, all are dropped with a protocol error but those for which
    the buffer is too small, which wait for a larger one. *)
Theorem nostr_gateway_poll {P : NostrPrims} `{!NostrPrimsLaws P} E S N x a output :
  0 <= N <= usize_MAX -> represents E S N (nx_relay x) a ->
  (forall sid e, spec_next a = Some (OutEvent sid e) -> unsigned_ok (unsigned e)) ->
  let link_id := nx_link_id x in
  exists result x' output', poll_relay_output N (x, output) = (result, (x', output')) /\
  (nx_up x = false -> result = Err (Driver link_id LinkDown) /\ x' = x) /\
  (nx_up x = true ->
   match spec_next a with
   | None => result = Ok None /\ x' = x
   | Some (OutEvent _ e) =>
       (exists raw env, verify_event e = Ok tt /\ ne_content e = hex_bytes raw /\ decode_envelope raw = Ok env /\
          result = Ok (Some (GwFrame (mk_frame link_id (ne_created_at e * 1000) raw))) /\ output' = raw ++ drop (length raw) output /\ consumed E S N x a x') \/
       result = Err (Driver link_id Link.OutputTooSmall) /\ x' = x \/
       result = Err (Driver link_id Protocol) /\ consumed E S N x a x'
   | Some message => exists g, gateway_of message = Some g /\ result = Ok (Some g) /\ output' = output /\ consumed E S N x a x'
   end).
Proof.
  intros HN HR Hu. cbv zeta. destruct (nx_up x) eqn:Hup.
  2: { eexists _, _, _. split; [by apply poll_refused|]. by split. }
  destruct (spec_next a) as [message|] eqn:Hn.
  2: { eexists _, _, _. split; [by apply (poll_idle E S N x a)|]. by split. }
  destruct (gateway_of message) as [g|] eqn:Hg.
  - destruct (poll_control E S N HN x a output message g Hup HR Hn Hg) as (x' & -> & Hc). exists (Ok (Some g)), x', output. split; [done|]. split; [done|]. intros _.
    destruct message; try done; by exists g.
  - destruct message as [|sid e| | | |]; try done. pose proof (poll_event_spec E S N HN x a output sid e Hup HR Hn (Hu sid e eq_refl)) as Hp.
    destruct (rep_next_shows E S N _ _ _ HR Hn) as [rec Hs]. assert (event_text_ok e) as Ht by (destruct rec; try done; by destruct Hs as (_ & _ & [Ht _])).
    pose proof (decode_relay_event_spec (nx_link_id x) e output (Hu sid e eq_refl) Ht) as Hd. cbv zeta in Hp.
    destruct (decode_relay_event (nx_link_id x) e output) as [[frame|error|] output']; [| |done].
    + destruct Hp as (x' & -> & Hc). destruct Hd as (raw & env & Hv & _ & Hx & He & -> & _ & ->). eexists _, _, _. split; [done|]. split; [done|]. intros _. left. by exists raw, env.
    + destruct Hp as (x' & -> & Hc). eexists _, _, _. split; [done|]. split; [done|]. intros _. right. destruct Hd as [-> | ->]; cbn in Hc; [right|left]; by split.
Qed.

(** ** Witnesses *)
Definition nostr_link : list Z := replicate 16 0x51.
Definition nostr_gateway : NostrGatewayExecutor :=
  nostr_set_up true (NostrGatewayExecutor_new nostr_link 2048 (FakeNostrRelay_new 2 1 4) sample_secret (toy_bytes 32 true)).
Definition nostr_peer : NostrGatewayExecutor :=
  with_relay (snd (run_steps (relay_step 2 1 4) [OpEnqueue (OutEvent (str "a") hyf_signed)] (FakeNostrRelay_new 2 1 4))) nostr_gateway.
Definition nostr_peer_relay : SpecRelay := snd (run_steps (spec_step 2 1 4) [OpEnqueue (OutEvent (str "a") hyf_signed)] spec_new).

Lemma Ok_inj {E A} (a b : A) : Ok (E:=E) a = Ok b -> a = b.
Proof. by intros [= ->]. Qed.
Lemma small_cap n : 0 <= n <= 4 -> 0 <= n <= usize_MAX.
Proof. unfold usize_MAX. lia. Qed.

Lemma gateway_represents : represents 2 1 4 (nx_relay nostr_gateway) spec_new.
Proof. apply new_represents; apply small_cap; lia. Qed.
Lemma peer_represents : represents 2 1 4 (nx_relay nostr_peer) nostr_peer_relay.
Proof.
  assert (Forall op_ok [OpEnqueue (OutEvent (str "a") hyf_signed)]) as Hops by (apply List.Forall_cons; [exact (proj1 hyf_signed_ok)|apply List.Forall_nil]).
  apply (run_refines 2 1 4 (small_cap 2 ltac:(lia)) (small_cap 1 ltac:(lia)) (small_cap 4 ltac:(lia)) _ _ _ Hops gateway_represents).
Qed.
Lemma envelope_bytes_ok : bytes_ok (envelope_bytes sample_envelope).
Proof. apply (bool_decide_unpack _). vm_compute. exact I. Qed.

Lemma nostr_gateway_send_witness :
  exists r', nostr_executor 2 4 nostr_link (envelope_bytes sample_envelope) 7000 nostr_gateway = (Ok tt, with_relay r' nostr_gateway).
Proof.
  destruct (nostr_gateway_send 2 1 4 nostr_gateway spec_new nostr_link (envelope_bytes sample_envelope) 7000 (small_cap 2 ltac:(lia)) (small_cap 4 ltac:(lia))
    gateway_represents ltac:(reflexivity) envelope_bytes_ok (toy_bytes_ok 32 true) ltac:(unfold u64_ok; lia)) as (r' & H & _).
  exists r'. assert (fst (spec_send 2 4 nostr_gateway nostr_link (envelope_bytes sample_envelope) 7000 spec_new) = Ok tt) as E by (vm_compute; reflexivity).
  by rewrite E in H.
Defined.

Lemma nostr_gateway_roundtrip_witness :
  exists y', poll_relay_output 4 (nostr_peer, zeros 300) =
    (Ok (Some (GwFrame (mk_frame nostr_link 7000 (envelope_bytes sample_envelope)))), (y', envelope_bytes sample_envelope ++ drop (length (envelope_bytes sample_envelope)) (zeros 300))).
Proof.
  destruct (nostr_executor 2 4 nostr_link (envelope_bytes sample_envelope) 7000 nostr_gateway) as [o x'] eqn:Hsend.
  assert (o = Ok tt) as -> by (apply (f_equal fst) in Hsend; cbn [fst] in Hsend; rewrite <- Hsend; vm_compute; reflexivity).
  destruct (nostr_gateway_roundtrip 2 1 4 nostr_gateway spec_new nostr_link (envelope_bytes sample_envelope) 7000 x' (small_cap 2 ltac:(lia)) (small_cap 4 ltac:(lia))
    gateway_represents envelope_bytes_ok (toy_bytes_ok 32 true) ltac:(unfold u64_ok; lia) Hsend) as (ev & env & a' & Hev & _ & _ & _ & _ & Hpoll).
  assert (envelope_event nostr_gateway (envelope_bytes sample_envelope) 7000 = Ok hyf_signed) as E by (vm_compute; reflexivity).
  rewrite E in Hev. apply Ok_inj in Hev. subst ev.
  destruct (Hpoll 2 1 4 nostr_peer nostr_peer_relay (str "a") (zeros 300) (small_cap 4 ltac:(lia)) eq_refl peer_represents ltac:(vm_compute; reflexivity)
    ltac:(vm_compute; discriminate)) as (y' & H & _). by exists y'.
Defined.

Lemma nostr_gateway_poll_witness :
  exists x' output', poll_relay_output 4 (nostr_peer, zeros 3) = (Err (Driver nostr_link Link.OutputTooSmall), (x', output')) /\ x' = nostr_peer.
Proof.
  destruct (nostr_gateway_poll 2 1 4 nostr_peer nostr_peer_relay (zeros 3) (small_cap 4 ltac:(lia)) peer_represents) as (result & x' & output' & H1 & _ & H2).
  { intros sid e H. assert (e = hyf_signed) as -> by (vm_compute in H; injection H as _ <-; vm_compute; reflexivity). exact (proj2 hyf_signed_ok). }
  specialize (H2 eq_refl). assert (result = Err (Driver nostr_link Link.OutputTooSmall)) as -> by (apply (f_equal fst) in H1; cbn [fst] in H1; rewrite <- H1; vm_compute; reflexivity).
  exists x', output'. split; [exact H1|]. assert (exists sid, spec_next nostr_peer_relay = Some (OutEvent sid hyf_signed)) as [sid Hn] by (exists (str "a"); vm_compute; reflexivity).
  rewrite Hn in H2. destruct H2 as [(raw & env & _ & _ & _ & [=] & _)|[[_ H2]|[[=] _]]]. exact H2.
Defined.
