(* ===== verification/GatewayRefine.v ===== *)
(** The gateway is monotone in its executor.

    When every send of an executor is simulated by a send of another one, every
    operation of the gateway over the first is simulated by the same operation
    over the second: the same results, the same core, related executors.  A gateway over a
    concrete link is so reduced to one over the abstract link that its driver refines. *)
From stdpp Require Import gmap strings.
From S2P Require Import Prelude Core Wire Link Store Router Config Gateway Simulation.

Open Scope Z_scope.

(** [executor_refines R]: the executors answer alike and stay related. *)
Class ExecutorRefines {X Y : Type} (EX : GatewayLinkExecutor X) (EY : GatewayLinkExecutor Y) (R : X -> Y -> Prop) : Prop :=
  executor_simulated : forall link_id bytes now_ms,
    refines R (@executor_send X EX link_id bytes now_ms) (@executor_send Y EY link_id bytes now_ms).

Section gateway_refinement.
Context (MAX_LINKS MAX_SEEN : Z) {X Y : Type} {EX : GatewayLinkExecutor X} {EY : GatewayLinkExecutor Y} (R : X -> Y -> Prop).
Context `{!ExecutorRefines EX EY R}.

(** The same core over related executors. *)
Definition same_core (s : GatewayCore * X) (t : GatewayCore * Y) : Prop := s.1 = t.1 /\ R s.2 t.2.
Notation sim := (refines same_core).

(** ** Parts *)
(** Operations that only see the core. *)
Lemma core_refines {A} (f : GatewayCore -> outcome GatewayError A * GatewayCore) :
  sim (fun '(c, x) => ((f c).1, ((f c).2, x))) (fun '(c, y) => ((f c).1, ((f c).2, y))).
Proof. intros [c x] [c' y] [Hc HR]. simpl in Hc. subst c'. by split. Qed.

Lemma modify_refines f : sim (modify f) (modify f).
Proof. apply (core_refines (fun c => (Ok tt, f c))). Qed.

Lemma on_store_refines {A} (m : io Store.Store StoreError A) : sim (on_store m) (on_store m).
Proof.
  intros [c x] [c' y] [Hc HR]. simpl in Hc. subst c'. unfold refines_at, on_store. destruct (m (gc_store c)). by split.
Qed.

Lemma router_commit_refines e : sim (router_commit_seen MAX_SEEN e) (router_commit_seen MAX_SEEN e).
Proof.
  intros [c x] [c' y] [Hc HR]. simpl in Hc. subst c'. unfold refines_at, router_commit_seen. destruct (commit_seen MAX_SEEN e (gc_router c)). by split.
Qed.

Lemma expire_refines now_ms : sim (expire_store now_ms) (expire_store now_ms).
Proof.
  intros [c x] [c' y] [Hc HR]. simpl in Hc. subst c'. unfold refines_at, expire_store. destruct (expire_before now_ms (gc_store c)). by split.
Qed.

Lemma on_executor_refines link_id bytes now_ms :
  sim (on_executor (executor_send link_id bytes now_ms)) (on_executor (executor_send link_id bytes now_ms)).
Proof.
  intros [c x] [c' y] [Hc HR]. simpl in Hc. subst c'. unfold refines_at, on_executor. destruct (executor_simulated link_id bytes now_ms x y HR) as [H1 H2].
  destruct (executor_send link_id bytes now_ms x), (executor_send link_id bytes now_ms y). simpl in *. by subst.
Qed.

(** Reading the core. *)
Lemma get_refines {A} (f : GatewayCore -> io (GatewayCore * X) GatewayError A) g :
  (forall c, sim (f c) (g c)) -> sim ('(c, _) ← get; f c) ('(c, _) ← get; g c).
Proof. intros H [c x] [c' y] HR. pose proof HR as [Hc _]. simpl in Hc. subst c'. exact (H c _ _ HR). Qed.

(** A computation whose three results are taken apart. *)
Lemma match_refines {A B} (m : io (GatewayCore * X) GatewayError A) n
    (f : A -> io (GatewayCore * X) GatewayError B) g (fe : GatewayError -> io (GatewayCore * X) GatewayError B) ge :
  sim m n -> (forall a, sim (f a) (g a)) -> (forall e, sim (fe e) (ge e)) ->
  sim (fun s => match m s with (Ok a, s') => f a s' | (Err e, s') => fe e s' | (Panic, s') => (Panic, s') end)
      (fun t => match n t with (Ok a, t') => g a t' | (Err e, t') => ge e t' | (Panic, t') => (Panic, t') end).
Proof.
  intros Hm Hf He s t HR. unfold refines_at. destruct (Hm s t HR) as [H1 H2]. destruct (m s) as [o s'], (n t) as [o' t']. simpl in H1, H2. subst o'.
  destruct o as [a|e|]; [by apply Hf|by apply He|by split].
Qed.

Create HintDb sim.
Hint Resolve modify_refines on_store_refines router_commit_refines expire_refines on_executor_refines refines_ret refines_lift : sim.

Ltac sim_step := first
  [ solve [eauto with sim]
  | apply get_refines; intros ?
  | apply refines_bind; [|intros ?] ].
Ltac sim := repeat sim_step.

(** ** Commands *)
Lemma send_counted_refines link_id bytes now_ms : sim (send_counted link_id bytes now_ms) (send_counted link_id bytes now_ms).
Proof.
  intros s t HR. unfold refines_at, send_counted. destruct (on_executor_refines link_id bytes now_ms s t HR) as [H1 H2].
  destruct (on_executor (executor_send link_id bytes now_ms) s) as [o s'], (on_executor (executor_send link_id bytes now_ms) t) as [o' t']. simpl in H1, H2. subst o'.
  destruct o as [a|e|]; [by apply modify_refines| |by split].
  apply (refines_bind same_core (modify (set_metrics (add_link_errors 1))) (modify (set_metrics (add_link_errors 1))) (fun _ => lift (Err e)) (fun _ => lift (Err e))); [apply modify_refines|intros _; apply refines_lift|done].
Qed.
Hint Resolve send_counted_refines : sim.

Lemma send_envelope_refines link_id e : sim (send_envelope link_id e) (send_envelope link_id e).
Proof. unfold send_envelope. destruct (encode_envelope e _) as [encoded frame]. sim. Qed.
Hint Resolve send_envelope_refines : sim.

Lemma execute_command_refines command : sim (execute_command MAX_SEEN command) (execute_command MAX_SEEN command).
Proof.
  destruct command as [link_id e|[e|id|now_ms]|id reason|frame reason|e]; cbn [execute_command]; sim. destruct (pc_allow_store_and_forward _); sim.
Qed.
Hint Resolve execute_command_refines : sim.

Lemma execute_commands_record_refines commands result : sim (execute_commands_record MAX_SEEN commands result) (execute_commands_record MAX_SEEN commands result).
Proof.
  revert result. induction commands as [|command commands IH]; intros result; [apply refines_ret|]. cbn [execute_commands_record]. cbv zeta.
  apply match_refines; [apply execute_command_refines|intros _; apply IH|intros e; apply IH].
Qed.
Hint Resolve execute_commands_record_refines : sim.

Lemma execute_commands_refines commands : sim (execute_commands MAX_SEEN commands) (execute_commands MAX_SEEN commands).
Proof. unfold execute_commands. sim. destruct (_ || _); [sim|]. destruct (ce_first_error _); sim. Qed.
Lemma execute_commands_for_flush_refines commands : sim (execute_commands_for_flush MAX_SEEN commands) (execute_commands_for_flush MAX_SEEN commands).
Proof.
  unfold execute_commands_for_flush. sim. destruct (ce_first_nonrecoverable_error _); [sim|]. destruct (_ >? 0); [sim|]. destruct (_ || _); [sim|].
  destruct (ce_first_error _) as [error|]; [|sim]. destruct (recoverable_send error); sim.
Qed.
Hint Resolve execute_commands_refines execute_commands_for_flush_refines : sim.

Lemma router_commands_refines event : sim (router_commands MAX_LINKS event) (router_commands MAX_LINKS event).
Proof.
  intros [c x] [c' y] [Hc HR]. simpl in Hc. subst c'. unfold refines_at, router_commands.
  destruct (handle_event MAX_LINKS event (gc_router c, dummy_commands)) as [r [router commands]]. by split.
Qed.
Hint Resolve router_commands_refines : sim.

Lemma route_event_refines event : sim (route_event MAX_LINKS MAX_SEEN event) (route_event MAX_LINKS MAX_SEEN event).
Proof. unfold route_event. sim. Qed.
Hint Resolve route_event_refines : sim.

(** ** The store *)
Lemma flush_turn_refines : sim (flush_turn MAX_SEEN) (flush_turn MAX_SEEN).
Proof.
  unfold flush_turn. apply get_refines. intros c. destruct (first_pending (gc_store c)) as [[stored|]|e|]; [|sim..]. cbv zeta. sim.
  destruct (forward_stored _ _ _) as [r commands]. sim. destruct (_ =? 0); [sim|]. sim. destruct (negb _); sim.
Qed.

Lemma flush_loop_refines fuel : sim (flush_loop MAX_SEEN fuel) (flush_loop MAX_SEEN fuel).
Proof.
  induction fuel as [|fuel IH]; [apply refines_lift|]. cbn [flush_loop]. apply refines_bind; [apply flush_turn_refines|]. intros []; [exact IH|sim].
Qed.
Hint Resolve flush_loop_refines : sim.

Lemma flush_store_refines : sim (flush_store MAX_SEEN) (flush_store MAX_SEEN).
Proof. unfold flush_store. sim. Qed.
Hint Resolve flush_store_refines : sim.

(** ** Operations *)
Lemma observe_time_refines now_ms : sim (observe_time MAX_LINKS MAX_SEEN now_ms) (observe_time MAX_LINKS MAX_SEEN now_ms).
Proof. unfold observe_time. sim. destruct (_ <=? _); sim. Qed.
Hint Resolve observe_time_refines : sim.

Lemma gateway_op_refines op : sim (run_gateway_op MAX_LINKS MAX_SEEN op) (run_gateway_op MAX_LINKS MAX_SEEN op).
Proof.
  destruct op as [e|frame|now|ev]; cbn [run_gateway_op]; unfold submit, ingest_link_frame, tick, handle_link_event; sim. destruct ev; sim.
Qed.

Lemma run_gateway_ops_steps {Z} `{EZ : GatewayLinkExecutor Z} ops (s : GatewayCore * Z) :
  run_gateway_ops MAX_LINKS MAX_SEEN ops s = run_steps (run_gateway_op MAX_LINKS MAX_SEEN) ops s.
Proof.
  revert s. induction ops as [|op ops IH]; intros s; [done|]. cbn [run_gateway_ops run_steps]. destruct (run_gateway_op _ _ op s) as [r s']. by rewrite IH.
Qed.

Lemma gateway_ops_refine ops c x y :
  R x y ->
  let '(rs, (c', x')) := run_gateway_ops MAX_LINKS MAX_SEEN ops (c, x) in
  exists y', run_gateway_ops MAX_LINKS MAX_SEEN ops (c, y) = (rs, (c', y')) /\ R x' y'.
Proof.
  intros HR. rewrite !run_gateway_ops_steps. assert (Forall (fun _ : GatewayOp => True) ops) as Hops by (by apply list.Forall_true).
  destruct (run_steps_refines same_core (fun _ => True) _ _ ops (c, x) (c, y) (fun op _ => gateway_op_refines op) Hops) as [H1 H2]; [by split|].
  destruct (run_steps (run_gateway_op MAX_LINKS MAX_SEEN) ops (c, x)) as [rs [c' x']], (run_steps (run_gateway_op MAX_LINKS MAX_SEEN) ops (c, y)) as [rs' [c'' y']].
  simpl in H1, H2. destruct H2 as [H2 HR']. simpl in H2, HR'. subst. by exists y'.
Qed.
End gateway_refinement.
