(* ===== verification/GatewayFips.v ===== *)
(** [hyf_gateway]: the executor that sends frames as datagrams of a FIPS sidecar
    (src/crates/hyf_gateway/src/fips.rs).

    The executor works with any sidecar driver; [SidecarLaws] says that a driver
    refines the abstract sidecar of [Fips], which is a driver too, and the claims
    are proved of every such driver or of the in-memory sidecar, for which the laws are
    discharged. *)
From stdpp Require Import gmap strings.
From S2P Require Import Prelude Cursor Core Wire Link Store Router Loopback Config Gateway GatewayRefine Queue Simulation Fips.

Open Scope Z_scope.

Class FipsGatewaySidecarDriver (SC : Type) := {
  driver_local_endpoint : SC -> FipsEndpoint;
  driver_mtu : SC -> Z;
  driver_has_peer : SC -> FipsEndpoint -> bool;
  driver_set_up : bool -> SC -> SC;
  driver_send_to : FipsEndpoint -> list Z -> io SC FipsError unit;
  driver_poll_inbound : io (SC * list Z) FipsError (option FipsDatagramRef);
}.

Definition fake_driver {FH : FipsHash} (QUEUE FRAME_MAX : Z) : FipsGatewaySidecarDriver FakeFipsSidecar := {|
  driver_local_endpoint := fs_local_endpoint;
  driver_mtu := fs_mtu;
  driver_has_peer := has_peer;
  driver_set_up := sidecar_set_up;
  driver_send_to := send_to QUEUE FRAME_MAX;
  driver_poll_inbound := poll_inbound;
|}.

(** ** Errors *)
Definition fips_send_error_kind (error : FipsError) : LinkDriverErrorKind :=
  match error with
  | FipsLinkDown => LinkDown
  | OutboundFull _ | InboundFull _ => Backpressure
  | FipsFrameTooLarge _ _ => DriverFrameTooLarge
  | FipsOutputTooSmall _ _ => Link.OutputTooSmall
  | UnknownPeer | DuplicatePeer | PeerTableFull _ | InvalidEndpoint | ControlResponseTooLarge _ _ | MalformedControlStatus | FipsUtf8 => Protocol
  end.
Definition map_fips_send_error (link_id : list Z) (error : FipsError) : GatewayError := Driver link_id (fips_send_error_kind error).

Definition fips_receive_error_kind (error : FipsError) : LinkDriverErrorKind :=
  match error with
  | FipsLinkDown => LinkDown
  | OutboundFull _ | InboundFull _ => Backpressure
  | FipsOutputTooSmall _ _ => Link.OutputTooSmall
  | FipsFrameTooLarge _ _ | UnknownPeer | DuplicatePeer | PeerTableFull _ | InvalidEndpoint | ControlResponseTooLarge _ _ | MalformedControlStatus | FipsUtf8 => Protocol
  end.
Definition map_fips_receive_error (link_id : list Z) (error : FipsError) : GatewayError := Driver link_id (fips_receive_error_kind error).

Definition gateway_protocol_error (link_id : list Z) : GatewayError := Driver link_id Protocol.

(** ** The executor *)
Record FipsGatewayExecutor (SC : Type) := mk_fips_executor {
  fx_link_id : list Z;
  fx_local_endpoint : FipsEndpoint;
  fx_remote_endpoint : FipsEndpoint;
  fx_sidecar : SC;
  fx_mtu : Z;
  fx_up : bool;
}.
Arguments mk_fips_executor {SC} _ _ _ _ _ _.
Arguments fx_link_id {SC} _.
Arguments fx_local_endpoint {SC} _.
Arguments fx_remote_endpoint {SC} _.
Arguments fx_sidecar {SC} _.
Arguments fx_mtu {SC} _.
Arguments fx_up {SC} _.

Definition with_sidecar {SC SC'} (sidecar : SC') (x : FipsGatewayExecutor SC) : FipsGatewayExecutor SC' :=
  mk_fips_executor (fx_link_id x) (fx_local_endpoint x) (fx_remote_endpoint x) sidecar (fx_mtu x) (fx_up x).

Section executor.
Context {FH : FipsHash} {SC : Type} `{FipsGatewaySidecarDriver SC}.

Definition executor_validate (x : FipsGatewayExecutor SC) : outcome GatewayError unit :=
  _ ← map_err (map_fips_send_error (fx_link_id x)) (FipsEndpoint_validate (fx_local_endpoint x));
  _ ← map_err (map_fips_send_error (fx_link_id x)) (FipsEndpoint_validate (fx_remote_endpoint x));
  guard_err ((fx_mtu x =? 0) || negb (bool_decide (driver_local_endpoint (fx_sidecar x) = fx_local_endpoint x))
             || (fx_mtu x >? driver_mtu (fx_sidecar x)) || negb (driver_has_peer (fx_sidecar x) (fx_remote_endpoint x)))
    (gateway_protocol_error (fx_link_id x)).

Definition FipsGatewayExecutor_new (link_id : list Z) (local_endpoint remote_endpoint : FipsEndpoint) (sidecar : SC) (mtu : Z)
  : outcome GatewayError (FipsGatewayExecutor SC) :=
  let executor := mk_fips_executor link_id local_endpoint remote_endpoint sidecar mtu false in
  _ ← executor_validate executor;
  Ok executor.

Definition fips_set_up (up : bool) (x : FipsGatewayExecutor SC) : FipsGatewayExecutor SC :=
  mk_fips_executor (fx_link_id x) (fx_local_endpoint x) (fx_remote_endpoint x) (driver_set_up up (fx_sidecar x)) (fx_mtu x) up.

(** The state is the executor and [output]. *)
Definition poll_sidecar_frame (now_ms : Z) : io (FipsGatewayExecutor SC * list Z) GatewayError (option LinkFrameRef) :=
  s ← get;
  let x := fst s in
  _ ← lift (guard_err (negb (fx_up x)) (Driver (fx_link_id x) LinkDown));
  polled ← io_map_err (map_fips_receive_error (fx_link_id x))
             (focus (fun s => (fx_sidecar (fst s), snd s)) (fun q s => (with_sidecar (fst q) (fst s), snd q)) driver_poll_inbound);
  match polled with
  | None => mret None
  | Some datagram =>
      _ ← lift (guard_err (negb (bool_decide (dg_source datagram = fx_remote_endpoint x)) || negb (bool_decide (dg_destination datagram = fx_local_endpoint x)))
                  (Driver (fx_link_id x) Protocol));
      mret (Some (mk_frame (fx_link_id x) now_ms (dg_bytes datagram)))
  end.

#[export] Instance fips_executor : GatewayLinkExecutor (FipsGatewayExecutor SC) := fun link_id bytes _ =>
  x ← get;
  _ ← lift (guard_err (negb (bool_decide (link_id = fx_link_id x))) (UnsupportedLink link_id));
  _ ← lift (guard_err (negb (fx_up x)) (Driver link_id LinkDown));
  _ ← lift (guard_err (len bytes >? fx_mtu x) (Driver link_id DriverFrameTooLarge));
  io_map_err (map_fips_send_error link_id) (focus fx_sidecar with_sidecar (driver_send_to (fx_remote_endpoint x) bytes)).
End executor.

(** ** The interface between the executor and its sidecar *)
(** The abstract sidecar as a driver. *)
Definition spec_driver (QUEUE : Z) : FipsGatewaySidecarDriver SpecSidecar := {|
  driver_local_endpoint := sv_local;
  driver_mtu := sv_mtu;
  driver_has_peer s endpoint := bool_decide (endpoint ∈ sv_peers s);
  driver_set_up := spec_with_up;
  driver_send_to := spec_send_to QUEUE;
  driver_poll_inbound := spec_poll_inbound;
|}.

(** What the executor relies on: the driver behaves as the abstract sidecar with
    [QUEUE] places that it represents. *)
Class SidecarLaws {SC : Type} (D : FipsGatewaySidecarDriver SC) (QUEUE : Z) (R : SC -> SpecSidecar -> Prop) : Prop := {
  law_local : forall s a, R s a -> driver_local_endpoint s = sv_local a;
  law_mtu : forall s a, R s a -> driver_mtu s = sv_mtu a;
  law_has_peer : forall s a endpoint, R s a -> driver_has_peer s endpoint = bool_decide (endpoint ∈ sv_peers a);
  law_set_up : forall s a up, R s a -> R (driver_set_up up s) (spec_with_up up a);
  law_send_to : forall endpoint bytes, refines R (driver_send_to endpoint bytes) (spec_send_to QUEUE endpoint bytes);
  law_poll_inbound : refines (fun s t => R (fst s) (fst t) /\ snd s = snd t) driver_poll_inbound spec_poll_inbound;
}.

#[export] Instance spec_driver_laws QUEUE : SidecarLaws (spec_driver QUEUE) QUEUE eq.
Proof.
  split; try by (intros; subst).
  - intros endpoint bytes s a ->. by split.
  - intros [s o] [a o'] [H1 H2]. cbn in H1, H2. subst. split; [done|]. by split.
Qed.

(** ** Refinement *)
Section refinement.
Context {FH : FipsHash} {SC : Type} {D : FipsGatewaySidecarDriver SC} {QUEUE : Z} {R : SC -> SpecSidecar -> Prop} `{!SidecarLaws D QUEUE R}.

#[local] Hint Extern 0 (FipsGatewaySidecarDriver SpecSidecar) => exact (spec_driver QUEUE) : typeclass_instances.

(** Executors that differ in their sidecars only. *)
Definition executor_is (x : FipsGatewayExecutor SC) (y : FipsGatewayExecutor SpecSidecar) : Prop :=
  exists a, R (fx_sidecar x) a /\ y = with_sidecar a x.

Lemma with_sidecar_is (x : FipsGatewayExecutor SC) s a : R s a -> executor_is (with_sidecar s x) (with_sidecar a x).
Proof. intros HR. by exists a. Qed.

Lemma validate_refines x y : executor_is x y -> executor_validate x = executor_validate y.
Proof.
  intros (a & HR & ->). unfold executor_validate, with_sidecar. cbn [fx_link_id fx_local_endpoint fx_remote_endpoint fx_sidecar fx_mtu].
  by rewrite (law_local _ _ HR), (law_mtu _ _ HR), (law_has_peer _ _ _ HR).
Qed.

Lemma fips_set_up_refines up x y : executor_is x y -> executor_is (fips_set_up up x) (fips_set_up up y).
Proof. intros (a & HR & ->). exists (spec_with_up up a). split; [by apply law_set_up|done]. Qed.

#[export] Instance fips_executor_refines : ExecutorRefines fips_executor fips_executor executor_is.
Proof.
  intros link_id bytes now_ms x y (a & HR & ->). unfold refines_at, executor_send, fips_executor. rewrite !get_bind.
  cbn [with_sidecar fx_link_id fx_up fx_mtu fx_remote_endpoint fx_sidecar].
  destruct (bool_decide _); cbn [negb guard_err]; [rewrite !lift_bind_ok|split; [done|by exists a]].
  destruct (fx_up x); cbn [negb guard_err]; [rewrite !lift_bind_ok|split; [done|by exists a]].
  destruct (len bytes >? fx_mtu x); cbn [guard_err]; [split; [done|by exists a]|rewrite !lift_bind_ok].
  unfold io_map_err, focus. cbn [fx_sidecar]. destruct (law_send_to (fx_remote_endpoint x) bytes _ _ HR) as [H1 H2].
  change (driver_send_to (fx_remote_endpoint x) bytes (fx_sidecar (with_sidecar a x))) with (spec_send_to QUEUE (fx_remote_endpoint x) bytes a).
  destruct (driver_send_to (fx_remote_endpoint x) bytes (fx_sidecar x)) as [o s'], (spec_send_to QUEUE (fx_remote_endpoint x) bytes a) as [o' a']. cbn [fst snd] in *. subst o'.
  split; [done|]. by exists a'.
Qed.

Definition same_output (s : FipsGatewayExecutor SC * list Z) (t : FipsGatewayExecutor SpecSidecar * list Z) : Prop := executor_is (fst s) (fst t) /\ snd s = snd t.

Lemma poll_frame_refines now_ms : refines same_output (poll_sidecar_frame now_ms) (poll_sidecar_frame now_ms).
Proof.
  intros [x output] [y output'] [(a & HR & Hy) Ho]. cbn [fst snd] in HR, Hy, Ho. subst y output'. unfold refines_at, poll_sidecar_frame. rewrite !get_bind. cbn [fst]. cbv zeta.
  change (fx_up (with_sidecar a x)) with (fx_up x). change (fx_link_id (with_sidecar a x)) with (fx_link_id x).
  destruct (fx_up x); cbn [negb guard_err]; [rewrite !lift_bind_ok|split; [done|split; [by exists a|done]]].
  destruct (law_poll_inbound (fx_sidecar x, output) (a, output)) as [H1 [H2 H3]]; [done|]. change (driver_poll_inbound (SC:=SpecSidecar)) with spec_poll_inbound.
  unfold mbind, io_bind, io_map_err, focus. cbn [fst snd with_sidecar fx_sidecar].
  destruct (driver_poll_inbound (fx_sidecar x, output)) as [o [s' o1]], (spec_poll_inbound (a, output)) as [o' [a' o2]]. cbn [fst snd] in *. subst o' o2.
  destruct o as [[d|]|e|]; cbn [map_err]; [|split; [done|split; [by exists a'|done]]..].
  destruct (_ || _); (split; [done|split; [by exists a'|done]]).
Qed.
End refinement.

#[export] Instance fake_driver_laws {FH : FipsHash} `{!FipsHashLaws FH} PEERS QUEUE FRAME_MAX :
  0 <= QUEUE -> 0 <= FRAME_MAX -> SidecarLaws (fake_driver QUEUE FRAME_MAX) QUEUE (sidecar_is PEERS QUEUE FRAME_MAX).
Proof.
  intros HQ HF. split; cbn.
  - by intros s a [].
  - by intros s a [].
  - intros s a endpoint HR. by apply (has_peer_spec PEERS QUEUE FRAME_MAX).
  - intros s a up HR. by apply set_up_is.
  - intros endpoint bytes. by apply sidecar_send_refines.
  - by apply poll_inbound_refines.
Qed.

(** ** The executor over the abstract sidecar *)
Section abstract.
Context {FH : FipsHash} `{!FipsHashLaws FH} (QUEUE : Z).

#[local] Hint Extern 0 (FipsGatewaySidecarDriver SpecSidecar) => exact (spec_driver QUEUE) : typeclass_instances.
Notation Executor := (FipsGatewayExecutor SpecSidecar).

(** Why a frame is refused, if it is. *)
Definition fips_refusal (x : Executor) (link_id bytes : list Z) : option GatewayError :=
  if negb (bool_decide (link_id = fx_link_id x)) then Some (UnsupportedLink link_id)
  else if negb (fx_up x) then Some (Driver link_id LinkDown)
  else if len bytes >? fx_mtu x then Some (Driver link_id DriverFrameTooLarge)
  else map_fips_send_error link_id <$> refusal (fx_sidecar x) (fx_remote_endpoint x) bytes
         (if len (sv_outbound (fx_sidecar x)) >=? QUEUE then Some (OutboundFull QUEUE) else None).

Definition outgoing (x : Executor) (bytes : list Z) : FipsDatagramRef := mk_datagram_ref (sv_local (fx_sidecar x)) (fx_remote_endpoint x) bytes.
Definition queued (d : FipsDatagramRef) (x : Executor) : Executor := with_sidecar (spec_with_outbound (sv_outbound (fx_sidecar x) ++ [d]) (fx_sidecar x)) x.

Lemma fips_send_spec x link_id bytes now_ms :
  executor_send link_id bytes now_ms x = match fips_refusal x link_id bytes with Some e => (Err e, x) | None => (Ok tt, queued (outgoing x bytes) x) end.
Proof.
  unfold executor_send, fips_executor, fips_refusal. rewrite get_bind. destruct (bool_decide _); cbn [negb guard_err]; [rewrite lift_bind_ok|done].
  destruct (fx_up x); cbn [negb guard_err]; [rewrite lift_bind_ok|done]. destruct (len bytes >? fx_mtu x); cbn [guard_err]; [done|rewrite lift_bind_ok].
  unfold io_map_err, focus. change (driver_send_to (fx_remote_endpoint x) bytes (fx_sidecar x)) with (spec_send_to QUEUE (fx_remote_endpoint x) bytes (fx_sidecar x)).
  unfold spec_send_to. destruct (refusal _ _ _ _); cbn [map_err fmap option_fmap option_map]; [by destruct x|done].
Qed.

(** What it has accepted is in the sidecar's outbound queue. *)
Definition datagram_queued (x : Executor) (p : list Z * list Z) : Prop := outgoing x p.2 ∈ sv_outbound (fx_sidecar x).

#[export] Instance abstract_executor_laws : ExecutorLaws Executor datagram_queued.
Proof.
  split; intros link_id bytes now_ms x; rewrite fips_send_spec; destruct (fips_refusal x link_id bytes); try done.
  - intros p Hp. apply elem_of_app. by left.
  - intros _. apply elem_of_app. right. apply list_elem_of_here.
Qed.

(** Sending leaves the endpoints and what was queued. *)
Definition extends (x0 x : Executor) : Prop :=
  exists sent, x = with_sidecar (spec_with_outbound (sv_outbound (fx_sidecar x0) ++ sent) (fx_sidecar x0)) x0.

Lemma extends_refl x : extends x x.
Proof. exists []. rewrite app_nil_r. by destruct x as [? ? ? [] ? ?]. Qed.

#[export] Instance extends_invariant x0 : ExecutorRefines fips_executor fips_executor (fun x y => x = y /\ extends x0 x).
Proof.
  intros link_id bytes now_ms x y [<- (sent & Hx)]. unfold refines_at. rewrite fips_send_spec. destruct (fips_refusal x link_id bytes); [split; [done|split; [done|by exists sent]]|].
  split; [done|]. split; [done|]. exists (sent ++ [outgoing x bytes]). rewrite Hx at 2. unfold queued, with_sidecar, spec_with_outbound. cbn [fx_sidecar sv_outbound sv_local sv_peers sv_inbound sv_up sv_mtu fst snd fx_link_id fx_local_endpoint fx_remote_endpoint fx_mtu fx_up].
  rewrite Hx. cbn. by rewrite <- app_assoc.
Qed.

(** An executor whose construction succeeded, and whose sidecar is up when it is. *)
Definition executor_ok (x : Executor) : Prop := executor_validate x = Ok tt /\ (fx_up x = true -> sv_up (fx_sidecar x) = true).

Lemma executor_ok_parts x : executor_ok x ->
  endpoint_ok (fx_local_endpoint x) /\ endpoint_ok (fx_remote_endpoint x) /\ fx_mtu x <> 0 /\
  sv_local (fx_sidecar x) = fx_local_endpoint x /\ fx_mtu x <= sv_mtu (fx_sidecar x) /\ fx_remote_endpoint x ∈ sv_peers (fx_sidecar x).
Proof.
  intros [Hv _]. unfold executor_validate in Hv. apply validate_then in Hv as [H1 Hv]. apply validate_then in Hv as [H2 Hv].
  apply map_err_inv, validate_ok in H1. apply map_err_inv, validate_ok in H2.
  change (guard_err ((fx_mtu x =? 0) || negb (bool_decide (sv_local (fx_sidecar x) = fx_local_endpoint x)) || (fx_mtu x >? sv_mtu (fx_sidecar x))
    || negb (bool_decide (fx_remote_endpoint x ∈ sv_peers (fx_sidecar x)))) (gateway_protocol_error (fx_link_id x)) = Ok tt) in Hv.
  destruct (Z.eqb_spec (fx_mtu x) 0) as [|H3]; [done|]. rewrite Z.gtb_ltb in Hv. destruct (Z.ltb_spec (sv_mtu (fx_sidecar x)) (fx_mtu x)); [by rewrite orb_true_r in Hv|].
  do 2 (case_bool_decide; [|done]). done.
Qed.

(** Such an executor refuses a frame of its link that fits only for want of room. *)
Lemma fips_refusal_ok x link_id bytes : executor_ok x ->
  fips_refusal x link_id bytes =
    if negb (bool_decide (link_id = fx_link_id x)) then Some (UnsupportedLink link_id)
    else if negb (fx_up x) then Some (Driver link_id LinkDown)
    else if len bytes >? fx_mtu x then Some (Driver link_id DriverFrameTooLarge)
    else if len (sv_outbound (fx_sidecar x)) >=? QUEUE then Some (Driver link_id Backpressure) else None.
Proof.
  intros Hok. pose proof (executor_ok_parts x Hok) as (_ & _ & _ & _ & Hm & Hp). destruct Hok as [_ Hup]. unfold fips_refusal.
  destruct (negb (bool_decide _)); [done|]. destruct (fx_up x); [|done]. cbn [negb]. rewrite !Z.gtb_ltb. destruct (Z.ltb_spec (fx_mtu x) (len bytes)) as [|Hl]; [done|].
  unfold refusal. rewrite Hup by done. cbn [negb]. rewrite bool_decide_eq_true_2 by done. cbn [negb]. rewrite Z.gtb_ltb.
  destruct (Z.ltb_spec (sv_mtu (fx_sidecar x)) (len bytes)); [lia|]. by destruct (_ >=? _).
Qed.

(** Polling takes the head of the inbound queue. *)
Lemma poll_frame_spec x d ds now_ms output :
  fx_up x = true -> sv_inbound (fx_sidecar x) = d :: ds -> dg_source d = fx_remote_endpoint x -> dg_destination d = fx_local_endpoint x ->
  len (dg_bytes d) <= len output ->
  poll_sidecar_frame now_ms (x, output) =
    (Ok (Some (mk_frame (fx_link_id x) now_ms (dg_bytes d))),
     (with_sidecar (spec_with_inbound ds (fx_sidecar x)) x, dg_bytes d ++ drop (length (dg_bytes d)) output)).
Proof.
  intros Hup Hd Hs Hdest Hl. unfold poll_sidecar_frame. rewrite get_bind. cbn [fst]. cbv zeta. rewrite Hup. cbn [negb guard_err]. rewrite lift_bind_ok.
  erewrite io_bind_ok.
  2: { unfold io_map_err, focus. cbn [fst snd]. change (driver_poll_inbound (SC:=SpecSidecar)) with spec_poll_inbound. unfold spec_poll_inbound, spec_poll. cbn [fst snd].
       rewrite Hd. destruct (Z.ltb_spec (len output) (len (dg_bytes d))); [lia|]. cbn [map_err fst snd]. reflexivity. }
  cbv beta iota. rewrite !bool_decide_eq_true_2 by done. done.
Qed.

Lemma poll_frame_empty x now_ms output :
  fx_up x = true -> sv_inbound (fx_sidecar x) = [] -> poll_sidecar_frame now_ms (x, output) = (Ok None, (x, output)).
Proof.
  intros Hup Hd. unfold poll_sidecar_frame. rewrite get_bind. cbn [fst]. cbv zeta. rewrite Hup. cbn [negb guard_err]. rewrite lift_bind_ok.
  erewrite io_bind_ok.
  2: { unfold io_map_err, focus. cbn [fst snd]. change (driver_poll_inbound (SC:=SpecSidecar)) with spec_poll_inbound. unfold spec_poll_inbound, spec_poll. cbn [fst snd].
       rewrite Hd. cbn [map_err fst snd]. reflexivity. }
  by destruct x.
Qed.
End abstract.

Lemma with_sidecar_inj {SC} (a a' : SpecSidecar) (x x' : FipsGatewayExecutor SC) : with_sidecar a x = with_sidecar a' x' -> a = a' /\ x = with_sidecar (fx_sidecar x) x'.
Proof. destruct x, x'. unfold with_sidecar. cbn. intros [= -> -> -> -> -> ->]. done. Qed.
Lemma with_sidecar_twice {SC} (a a' : SpecSidecar) (x : FipsGatewayExecutor SC) : with_sidecar a' (with_sidecar a x) = with_sidecar a' x.
Proof. done. Qed.

(** ** Delivery *)
(** A run of two executors: frames are sent, the network carries datagrams from
    one sidecar to the other, the receiver polls. *)
Fixpoint send_frames {X} `{GatewayLinkExecutor X} (link_id : list Z) (now_ms : Z) (frames : list (list Z)) : io X GatewayError unit :=
  match frames with
  | [] => mret tt
  | bytes :: frames => _ ← executor_send link_id bytes now_ms; send_frames link_id now_ms frames
  end.

Section network.
Context {FH : FipsHash} (QUEUE FRAME_MAX : Z).

(** One datagram, through a buffer of [n] bytes. *)
Definition carry_datagram (n : Z) : io (FakeFipsSidecar * FakeFipsSidecar) FipsError unit := fun '(l, r) =>
  match poll_outbound (l, zeros n) with
  | (Ok (Some d), (l, _)) => let '(o, r) := inject_from QUEUE FRAME_MAX (dg_source d) (dg_bytes d) r in (o, (l, r))
  | (Ok None, (l, _)) => (Ok tt, (l, r))
  | (Err e, (l, _)) => (Err e, (l, r))
  | (Panic, (l, _)) => (Panic, (l, r))
  end.
Definition carry (n : Z) (datagrams : nat) : io (FakeFipsSidecar * FakeFipsSidecar) FipsError unit := iterate (carry_datagram n) datagrams.

(** [n] polls with a fresh buffer each. *)
Fixpoint poll_frames {SC} `{FipsGatewaySidecarDriver SC} (now_ms buffer : Z) (n : nat) : io (FipsGatewayExecutor SC) GatewayError (list (option LinkFrameRef)) :=
  match n with
  | O => mret []
  | S n => fun x =>
      match poll_sidecar_frame now_ms (x, zeros buffer) with
      | (Ok f, (x, _)) => (fs ← poll_frames now_ms buffer n; mret (f :: fs)) x
      | (Err e, (x, _)) => (Err e, x)
      | (Panic, (x, _)) => (Panic, x)
      end
  end.
End network.

Section delivery.
Context {FH : FipsHash} `{!FipsHashLaws FH} (PEERS QUEUE FRAME_MAX : Z).
Hypotheses (queue_cap : 0 <= QUEUE) (frame_max : 0 <= FRAME_MAX).

#[local] Hint Extern 0 (FipsGatewaySidecarDriver FakeFipsSidecar) => exact (fake_driver QUEUE FRAME_MAX) : typeclass_instances.
#[local] Hint Extern 0 (FipsGatewaySidecarDriver SpecSidecar) => exact (spec_driver QUEUE) : typeclass_instances.
#[local] Instance sidecar_laws : SidecarLaws (fake_driver QUEUE FRAME_MAX) QUEUE (sidecar_is PEERS QUEUE FRAME_MAX) := fake_driver_laws PEERS QUEUE FRAME_MAX queue_cap frame_max.
Notation rep := (sidecar_is PEERS QUEUE FRAME_MAX).
Notation exec_is := (executor_is (R:=rep)).

Lemma send_frames_refines link_id now_ms frames :
  refines exec_is (send_frames (X:=FipsGatewayExecutor FakeFipsSidecar) link_id now_ms frames) (send_frames (X:=FipsGatewayExecutor SpecSidecar) link_id now_ms frames).
Proof.
  induction frames as [|bytes frames IH]; [apply refines_ret|]. cbn [send_frames]. apply refines_bind; [|by intros _].
  apply (executor_simulated (ExecutorRefines:=fips_executor_refines)).
Qed.

Lemma send_frames_spec (x : FipsGatewayExecutor SpecSidecar) now_ms frames :
  executor_ok QUEUE x -> fx_up x = true -> Forall (fun bytes => len bytes <= fx_mtu x) frames ->
  len (sv_outbound (fx_sidecar x)) + len frames <= QUEUE ->
  send_frames (fx_link_id x) now_ms frames x =
    (Ok tt, with_sidecar (spec_with_outbound (sv_outbound (fx_sidecar x) ++ (outgoing x <$> frames)) (fx_sidecar x)) x).
Proof.
  intros Hok Hup Hf. revert x Hok Hup Hf. induction frames as [|bytes frames IH]; intros x Hok Hup Hf Hq.
  - cbn [send_frames fmap list_fmap]. rewrite app_nil_r. by destruct x as [? ? ? [] ? ?].
  - apply list.Forall_cons in Hf as [Hb Hf]. rewrite len_cons in Hq. pose proof (len_nonneg frames).
    cbn [send_frames]. erewrite io_bind_ok.
    2: { rewrite fips_send_spec, fips_refusal_ok by done. rewrite bool_decide_eq_true_2 by done. rewrite Hup. cbn [negb]. rewrite Z.gtb_ltb, Z.geb_leb.
         destruct (Z.ltb_spec (fx_mtu x) (len bytes)); [lia|]. destruct (Z.leb_spec QUEUE (len (sv_outbound (fx_sidecar x)))); [lia|]. reflexivity. }
    change (fx_link_id x) with (fx_link_id (queued (outgoing x bytes) x)). rewrite IH; [|done..|].
    + cbn. by rewrite <- app_assoc.
    + cbn. rewrite len_app, len_cons, len_nil. lia.
Qed.

(** The network moves the datagrams of one queue to the other. *)
Lemma carry_spec n ds l r a b :
  rep l a -> rep r b -> sv_outbound a = ds -> sv_up b = true ->
  Forall (fun d => dg_source d ∈ sv_peers b /\ dg_destination d = sv_local b /\ len (dg_bytes d) <= sv_mtu b /\ len (dg_bytes d) <= n) ds ->
  len (sv_inbound b) + len ds <= QUEUE ->
  exists l' r', carry QUEUE FRAME_MAX n (length ds) (l, r) = (Ok tt, (l', r')) /\
    rep l' (spec_with_outbound [] a) /\ rep r' (spec_with_inbound (sv_inbound b ++ ds) b).
Proof.
  revert l r a b. induction ds as [|d ds IH]; intros l r a b Hl Hr Hds Hup Hf Hq.
  - exists l, r. split; [done|]. rewrite app_nil_r. split; [rewrite <- Hds; by destruct a|by destruct b].
  - apply list.Forall_cons in Hf as [(Hs & Hd & Hm & Hn) Hf]. rewrite len_cons in Hq. pose proof (len_nonneg ds). pose proof (len_nonneg (dg_bytes d)).
    destruct (poll_outbound_refines PEERS QUEUE FRAME_MAX (l, zeros n) (a, zeros n)) as [P1 [P2 _]]; [done|]. unfold spec_poll_outbound, spec_poll in P1, P2. cbn [fst snd] in P1, P2.
    rewrite Hds in P1, P2. rewrite len_zeros in P1, P2 by lia. destruct (Z.ltb_spec n (len (dg_bytes d))); [lia|].
    destruct (inject_refines PEERS QUEUE FRAME_MAX frame_max (dg_source d) (dg_bytes d) r b Hr) as [P3 P4]. unfold spec_inject_from, refusal in P3, P4.
    rewrite Hup, bool_decide_eq_true_2, Z.gtb_ltb, Z.geb_leb in P3, P4 by done. cbn [negb] in P3, P4.
    destruct (Z.ltb_spec (sv_mtu b) (len (dg_bytes d))); [lia|]. destruct (Z.leb_spec QUEUE (len (sv_inbound b))); [lia|].
    cbn [length]. unfold carry. cbn [iterate]. unfold mbind, io_bind, carry_datagram at 1.
    destruct (poll_outbound (l, zeros n)) as [o [l1 o1]]. cbn [fst snd] in P1, P2. subst o.
    destruct (inject_from QUEUE FRAME_MAX (dg_source d) (dg_bytes d) r) as [o r1]. cbn [fst snd] in P3, P4. subst o.
    rewrite <- Hd in P4. destruct (IH l1 r1 _ _ P2 P4) as (l' & r' & Hrun & Hl' & Hr'); [done|done|exact Hf| |].
    { cbn. rewrite len_app, len_cons, len_nil. lia. }
    exists l', r'. split; [exact Hrun|]. split; [done|]. cbn in Hr'. rewrite <- app_assoc in Hr'. by destruct d.
Qed.

Lemma poll_frames_refines now_ms buffer n :
  refines exec_is (poll_frames (SC:=FakeFipsSidecar) now_ms buffer n) (poll_frames (SC:=SpecSidecar) now_ms buffer n).
Proof.
  induction n as [|n IH]; [apply refines_ret|]. intros x y HR. unfold refines_at. cbn [poll_frames].
  destruct (poll_frame_refines (R:=rep) now_ms (x, zeros buffer) (y, zeros buffer)) as [H1 [H2 _]]; [done|].
  destruct (poll_sidecar_frame now_ms (x, zeros buffer)) as [o [x' o1]], (poll_sidecar_frame now_ms (y, zeros buffer)) as [o' [y' o2]]. cbn [fst snd] in *. subst o'.
  destruct o as [f|e|]; [|done..]. apply (refines_bind (S:=FipsGatewayExecutor FakeFipsSidecar)); [exact IH|intros fs; apply refines_ret|done].
Qed.

Lemma poll_frames_spec (x : FipsGatewayExecutor SpecSidecar) now_ms buffer ds :
  fx_up x = true -> sv_inbound (fx_sidecar x) = ds ->
  Forall (fun d => dg_source d = fx_remote_endpoint x /\ dg_destination d = fx_local_endpoint x /\ len (dg_bytes d) <= buffer) ds ->
  poll_frames now_ms buffer (S (length ds)) x =
    (Ok (((fun d => Some (mk_frame (fx_link_id x) now_ms (dg_bytes d))) <$> ds) ++ [None]), with_sidecar (spec_with_inbound [] (fx_sidecar x)) x).
Proof.
  revert x. induction ds as [|d ds IH]; intros x Hup Hds Hf.
  - cbn [length poll_frames]. rewrite poll_frame_empty by done. cbn. rewrite <- Hds. by destruct x as [? ? ? [] ? ?].
  - apply list.Forall_cons in Hf as [(Hs & Hd & Hl) Hf]. pose proof (len_nonneg (dg_bytes d)). cbn [length].
    change (poll_frames now_ms buffer (S (S (length ds))) x) with
      (match poll_sidecar_frame now_ms (x, zeros buffer) with
       | (Ok f, (x, _)) => (fs ← poll_frames now_ms buffer (S (length ds)); mret (f :: fs)) x
       | (Err e, (x, _)) => (Err e, x)
       | (Panic, (x, _)) => (Panic, x)
       end).
    rewrite (poll_frame_spec QUEUE x d ds) by (done || rewrite len_zeros by lia; done).
    erewrite io_bind_ok; [|apply IH; done]. done.
Qed.

(** The two ends, over the sidecars themselves. *)
Lemma executor_ok_with (x : FipsGatewayExecutor FakeFipsSidecar) a :
  rep (fx_sidecar x) a -> executor_validate x = Ok tt -> sv_up a = true -> executor_ok QUEUE (with_sidecar a x).
Proof. intros HR Hv Hup. split; [|done]. rewrite <- (validate_refines (R:=rep) x); [done|by exists a]. Qed.

Lemma sent_frames (x : FipsGatewayExecutor FakeFipsSidecar) a now_ms frames :
  rep (fx_sidecar x) a -> executor_validate x = Ok tt -> fx_up x = true -> sv_up a = true ->
  Forall (fun bytes => len bytes <= fx_mtu x) frames -> len (sv_outbound a) + len frames <= QUEUE ->
  exists s', send_frames (fx_link_id x) now_ms frames x = (Ok tt, with_sidecar s' x) /\
    rep s' (spec_with_outbound (sv_outbound a ++ (mk_datagram_ref (fx_local_endpoint x) (fx_remote_endpoint x) <$> frames)) a).
Proof.
  intros HR Hv Hup Hupa Hf Hl. pose proof (executor_ok_with x a HR Hv Hupa) as Hok. pose proof (executor_ok_parts QUEUE _ Hok) as (_ & _ & _ & Hla & _).
  cbn [with_sidecar fx_sidecar fx_local_endpoint] in Hla.
  destruct (send_frames_refines (fx_link_id x) now_ms frames x (with_sidecar a x)) as [H1 (a' & Ha' & Hx')]; [by exists a|].
  pose proof (send_frames_spec (with_sidecar a x) now_ms frames Hok Hup Hf Hl) as Hs. change (fx_link_id (with_sidecar a x)) with (fx_link_id x) in Hs.
  rewrite Hs in H1, Hx'. destruct (send_frames (fx_link_id x) now_ms frames x) as [o x']. cbn [fst snd] in H1, Ha', Hx'. subst o.
  rewrite with_sidecar_twice in Hx'. symmetry in Hx'. apply with_sidecar_inj in Hx' as [-> Hx']. exists (fx_sidecar x'). split; [by rewrite <- Hx'|].
  rewrite <- Hla. exact Ha'.
Qed.

Lemma polled_frames (y : FipsGatewayExecutor FakeFipsSidecar) b now_ms buffer frames :
  rep (fx_sidecar y) b -> fx_up y = true -> sv_inbound b = (mk_datagram_ref (fx_remote_endpoint y) (fx_local_endpoint y) <$> frames) ->
  Forall (fun bytes => len bytes <= buffer) frames ->
  exists y', poll_frames now_ms buffer (S (length frames)) y =
      (Ok (((fun bytes => Some (mk_frame (fx_link_id y) now_ms bytes)) <$> frames) ++ [None]), y') /\
    rep (fx_sidecar y') (spec_with_inbound [] b).
Proof.
  intros HR Hup Hin Hf. destruct (poll_frames_refines now_ms buffer (S (length frames)) y (with_sidecar b y)) as [H1 (b' & Hb' & Hy')]; [by exists b|].
  pose proof (poll_frames_spec (with_sidecar b y) now_ms buffer _ Hup Hin) as Hp. rewrite length_fmap in Hp. rewrite Hp in H1, Hy'.
  2, 3: apply Forall_fmap; eapply list.Forall_impl; [exact Hf|]; by intros bytes Hl.
  destruct (poll_frames now_ms buffer (S (length frames)) y) as [o y']. cbn [fst snd] in H1, Hb', Hy'. subst o. exists y'.
  rewrite with_sidecar_twice in Hy'. symmetry in Hy'. apply with_sidecar_inj in Hy' as [-> _]. split; [|done]. rewrite <- list_fmap_compose. done.
Qed.
End delivery.

(** ** Claims *)
(** What sending answers, and the datagrams of the sidecar after it. *)
Definition send_reply {SC} (QUEUE : Z) (x : FipsGatewayExecutor SC) (a : SpecSidecar) (link_id bytes : list Z) : outcome GatewayError unit :=
  if negb (bool_decide (link_id = fx_link_id x)) then Err (UnsupportedLink link_id)
  else if negb (fx_up x) then Err (Driver link_id LinkDown)
  else if len bytes >? fx_mtu x then Err (Driver link_id DriverFrameTooLarge)
  else if len (sv_outbound a) >=? QUEUE then Err (Driver link_id Backpressure)
  else Ok tt.

(** Sending, with any sidecar driver that keeps its laws: an executor that
    validates, and whose sidecar is up when it is, refuses the frames of other
    links, those sent while it is down, those above its MTU, and otherwise only
    those for which the sidecar's queue has no room; it does not panic.  A frame
    it accepts is the last datagram of that queue, from the local to the remote
    endpoint, and nothing else has changed. *)
Theorem fips_gateway_send {FH : FipsHash} `{!FipsHashLaws FH} {SC} {D : FipsGatewaySidecarDriver SC} QUEUE R `{!SidecarLaws D QUEUE R} x a link_id bytes now_ms :
  R (fx_sidecar x) a -> executor_validate x = Ok tt -> (fx_up x = true -> sv_up a = true) ->
  exists s', executor_send link_id bytes now_ms x = (send_reply QUEUE x a link_id bytes, with_sidecar s' x) /\
    R s' (match send_reply QUEUE x a link_id bytes with
          | Ok _ => spec_with_outbound (sv_outbound a ++ [mk_datagram_ref (fx_local_endpoint x) (fx_remote_endpoint x) bytes]) a
          | _ => a
          end).
Proof.
  intros HR Hv Hup. set (y := with_sidecar a x). assert (executor_is (R:=R) x y) as Hxy by (by exists a).
  assert (executor_ok QUEUE y) as Hok by (split; [by rewrite <- (validate_refines (QUEUE:=QUEUE) x y Hxy)|done]).
  destruct (executor_simulated (ExecutorRefines:=fips_executor_refines) link_id bytes now_ms x y Hxy) as [H1 (a' & HR' & H2)].
  rewrite fips_send_spec, fips_refusal_ok in H1, H2 by done. pose proof (executor_ok_parts QUEUE y Hok) as (_ & _ & _ & Hloc & _ & _).
  cbn [y with_sidecar fx_link_id fx_up fx_mtu fx_sidecar fx_local_endpoint] in H1, H2, Hloc.
  destruct (executor_send link_id bytes now_ms x) as [o x']. cbn [fst snd] in H1, H2, HR'. exists (fx_sidecar x'). unfold send_reply.
  assert (forall e, o = Err e -> y = with_sidecar a' x' -> (o, x') = (Err e, with_sidecar (fx_sidecar x') x) /\ R (fx_sidecar x') a) as Hkeep.
  { intros e -> Hy. symmetry in Hy. apply with_sidecar_inj in Hy as [-> Hx]. by rewrite <- Hx. }
  destruct (negb (bool_decide _)); [by apply Hkeep|]. destruct (negb _); [by apply Hkeep|]. destruct (_ >? _); [by apply Hkeep|]. destruct (_ >=? _); [by apply Hkeep|].
  cbn [fst snd] in H1, H2. symmetry in H2. unfold queued, outgoing in H2. cbn [fx_sidecar fx_remote_endpoint] in H2.
  change (with_sidecar a' x' = with_sidecar (spec_with_outbound (sv_outbound a ++ [mk_datagram_ref (sv_local a) (fx_remote_endpoint x) bytes]) a) x) in H2.
  apply with_sidecar_inj in H2 as [-> Hx]. subst o. rewrite <- Hloc. by rewrite <- Hx.
Qed.

(** C25. Delivery between two executors whose sidecars have no datagrams waiting: the
    frames sent at one end are, after the network has carried the datagrams from
    the sender's sidecar to the receiver's, polled at the other end - all of
    them, byte for byte, in the order in which they were sent, each once. *)
Theorem fips_gateway_delivery {FH : FipsHash} `{!FipsHashLaws FH} PEERS QUEUE FRAME_MAX x a y b frames now_ms later_ms n :
  let D := fake_driver QUEUE FRAME_MAX in
  let rep := sidecar_is PEERS QUEUE FRAME_MAX in
  0 <= QUEUE -> 0 <= FRAME_MAX ->
  rep (fx_sidecar x) a -> executor_validate x = Ok tt -> fx_up x = true -> sv_up a = true -> sv_outbound a = [] ->
  rep (fx_sidecar y) b -> executor_validate y = Ok tt -> fx_up y = true -> sv_up b = true -> sv_inbound b = [] ->
  fx_remote_endpoint x = fx_local_endpoint y -> fx_remote_endpoint y = fx_local_endpoint x ->
  len frames <= QUEUE -> Forall (fun bytes => len bytes <= fx_mtu x /\ len bytes <= fx_mtu y /\ len bytes <= n) frames ->
  exists x' l' r' y', send_frames (fx_link_id x) now_ms frames x = (Ok tt, x') /\
    carry QUEUE FRAME_MAX n (length frames) (fx_sidecar x', fx_sidecar y) = (Ok tt, (l', r')) /\
    poll_frames later_ms n (S (length frames)) (with_sidecar r' y) =
      (Ok (((fun bytes => Some (mk_frame (fx_link_id y) later_ms bytes)) <$> frames) ++ [None]), y') /\
    rep l' a /\ rep (fx_sidecar y') b.
Proof.
  intros D rep HQ HF Ha Hvx Hux Hupa Hout Hb Hvy Huy Hupb Hin Hxy Hyx Hlen Hframes.
  destruct (sent_frames PEERS QUEUE FRAME_MAX HQ HF x a now_ms frames Ha Hvx Hux Hupa) as (s' & Hsend & Hs').
  { eapply list.Forall_impl; [exact Hframes|]. by intros bytes (H & _). }
  { rewrite Hout, len_nil. lia. }
  rewrite Hout in Hs'. cbn [app] in Hs'. set (ds := mk_datagram_ref _ _ <$> frames) in Hs'.
  pose proof (executor_ok_parts QUEUE _ (executor_ok_with PEERS QUEUE FRAME_MAX HQ HF y b Hb Hvy Hupb)) as (_ & _ & _ & Hlb & Hmb & Hpb).
  cbn [with_sidecar fx_sidecar fx_local_endpoint fx_remote_endpoint fx_mtu] in Hlb, Hmb, Hpb.
  destruct (carry_spec PEERS QUEUE FRAME_MAX HF n ds s' (fx_sidecar y) _ b Hs' Hb eq_refl Hupb) as (l' & r' & Hcarry & Hl' & Hr').
  { apply Forall_fmap. eapply list.Forall_impl; [exact Hframes|]. intros bytes (_ & H1 & H2). cbn. rewrite <- Hyx, Hlb, Hxy. split_and!; [done|done|lia|done]. }
  { rewrite Hin. unfold ds. rewrite len_nil, len_map. lia. }
  rewrite Hin in Hr'. cbn [app] in Hr'. unfold ds in Hcarry. rewrite length_fmap in Hcarry.
  destruct (polled_frames PEERS QUEUE FRAME_MAX HQ HF (with_sidecar r' y) _ later_ms n frames Hr' Huy) as (y' & Hpoll & Hy').
  { unfold ds. cbn. by rewrite Hyx, Hxy. }
  { eapply list.Forall_impl; [exact Hframes|]. by intros bytes (_ & _ & H). }
  exists (with_sidecar s' x), l', r', y'. split_and!; [done..| |].
  - rewrite <- Hout in Hl'. by destruct a.
  - rewrite <- Hin in Hy'. by destruct b.
Qed.

(** C7. A gateway over FIPS: whatever it is asked to do, in any order, it does not
    panic, its sidecar's outbound queue only grows, and every frame of the store is
    still there unchanged, or has expired by the gateway's clock, or is in that
    queue byte for byte as a datagram to the remote endpoint, or carries an
    envelope that is the gateway's own to settle. *)
Theorem fips_gateway_no_loss {FH : FipsHash} `{!FipsHashLaws FH} PEERS QUEUE FRAME_MAX MAX_LINKS MAX_SEEN STORE_CAPACITY c (x : FipsGatewayExecutor FakeFipsSidecar) a ops :
  let EX := fips_executor (H:=fake_driver QUEUE FRAME_MAX) in
  0 <= QUEUE -> 0 <= FRAME_MAX ->
  gateway_ok MAX_LINKS MAX_SEEN STORE_CAPACITY c -> sidecar_is PEERS QUEUE FRAME_MAX (fx_sidecar x) a -> Forall gateway_op_ok ops ->
  let '(rs, (c', x')) := run_gateway_ops (EX:=EX) MAX_LINKS MAX_SEEN ops (c, x) in
  Forall (fun r => r <> Panic) rs /\ gateway_ok MAX_LINKS MAX_SEEN STORE_CAPACITY c' /\
  exists s' sent, x' = with_sidecar s' x /\ sidecar_is PEERS QUEUE FRAME_MAX s' (spec_with_outbound (sv_outbound a ++ sent) a) /\
    forall id f, store_map (gc_store c) !! id = Some f ->
      store_map (gc_store c') !! id = Some f \/
      sf_expires_at_ms f <= gc_last_now_ms c' \/
      mk_datagram_ref (sv_local a) (fx_remote_endpoint x) (sf_bytes f) ∈ sv_outbound a ++ sent \/
      (exists e, envelope_ok e /\ sf_bytes f = envelope_bytes e /\ (hop_limit e = 0 \/ local_to (gc_config c) (destination e))).
Proof.
  intros EX HQ HF Hok Ha Hops. pose proof (fake_driver_laws PEERS QUEUE FRAME_MAX HQ HF) as HL. set (y := with_sidecar a x).
  set (EY := fips_executor (H:=spec_driver QUEUE)). assert (executor_is (R:=sidecar_is PEERS QUEUE FRAME_MAX) x y) as Hxy by (by exists a).
  pose proof (gateway_ops_refine MAX_LINKS MAX_SEEN (EX:=EX) (EY:=EY) _ (ExecutorRefines0:=fips_executor_refines) ops c x y Hxy) as Hsim.
  destruct (run_gateway_ops MAX_LINKS MAX_SEEN ops (c, x)) as [rs [c' x']]. destruct Hsim as (y' & Hrun & a' & Ha' & ->).
  pose proof (gateway_ops_refine MAX_LINKS MAX_SEEN (EX:=EY) (EY:=EY) _ (ExecutorRefines0:=extends_invariant QUEUE y) ops c y y (conj eq_refl (extends_refl y))) as Hext.
  pose proof (gateway_ops_run (EX:=EY) (EL:=abstract_executor_laws QUEUE) ops (c, y) Hok Hops) as H. rewrite Hrun in Hext, H.
  destruct Hext as (y' & _ & _ & sent & Hsent). destruct H as [Hsafe Hev]. split; [done|]. split; [exact (ev_ok _ _ Hev)|].
  unfold y in Hsent. rewrite with_sidecar_twice in Hsent. apply with_sidecar_inj in Hsent as [-> Hx'].
  exists (fx_sidecar x'), sent. split; [done|]. split; [done|]. intros id f Hf.
  destruct (ev_store _ _ Hev id f Hf) as [?|[?|[[link_id Hacc]|?]]]; auto. right. right. left. unfold datagram_queued, outgoing in Hacc. cbn in Hacc. by rewrite Hx' in Hacc.
Qed.

(** ** Witnesses *)
(** An executor at one endpoint, up, with the other as its only peer. *)
Definition sample_fips (link_id : list Z) (local remote FRAME_MAX : Z) : FipsGatewayExecutor FakeFipsSidecar :=
  mk_fips_executor link_id (sample_endpoint local) (sample_endpoint remote)
    (mk_sidecar (sample_endpoint local) [Some (sample_endpoint remote)] [None; None] [None; None] true FRAME_MAX 0 0) FRAME_MAX true.
Definition sample_fips_spec (local remote FRAME_MAX : Z) : SpecSidecar :=
  mk_spec_sidecar (sample_endpoint local) [sample_endpoint remote] [] [] true FRAME_MAX.

Lemma sample_fips_is link_id local remote FRAME_MAX :
  0 <= FRAME_MAX -> sidecar_is (FH:=toy_fips) 1 2 FRAME_MAX (fx_sidecar (sample_fips link_id local remote FRAME_MAX)) (sample_fips_spec local remote FRAME_MAX).
Proof.
  intros HF. constructor; try reflexivity; try (cbn [sample_fips_spec sv_peers sv_outbound sv_inbound sv_mtu]; rewrite ?len_cons, ?len_nil; lia).
  apply list.Forall_singleton. reflexivity.
Qed.

Lemma fips_gateway_send_witness :
  let x := sample_fips LOOPBACK_LEFT_ID 1 2 8 in
  let EX := fips_executor (H:=fake_driver (FH:=toy_fips) 2 8) in
  executor_validate (FH:=toy_fips) (H:=fake_driver (FH:=toy_fips) 2 8) x = Ok tt /\
  map (fun p => fst (executor_send (p : list Z * list Z).1 p.2 7 x))
    [(LOOPBACK_RIGHT_ID, [1]); (LOOPBACK_LEFT_ID, zeros 9); (LOOPBACK_LEFT_ID, [1; 2])] =
    [Err (UnsupportedLink LOOPBACK_RIGHT_ID); Err (Driver LOOPBACK_LEFT_ID DriverFrameTooLarge); Ok tt] /\
  exists s', executor_send LOOPBACK_LEFT_ID [1; 2] 7 x = (Ok tt, with_sidecar s' x) /\
    sidecar_is (FH:=toy_fips) 1 2 8 s'
      (spec_with_outbound [mk_datagram_ref (sample_endpoint 1) (sample_endpoint 2) [1; 2]] (sample_fips_spec 1 2 8)).
Proof.
  split; [vm_compute; reflexivity|]. split; [vm_compute; reflexivity|].
  pose proof (fake_driver_laws (FH:=toy_fips) (FipsHashLaws0:=toy_fips_laws) 1 2 8 ltac:(lia) ltac:(lia)) as HL.
  destruct (fips_gateway_send (FH:=toy_fips) (FipsHashLaws0:=toy_fips_laws) 2 _ (SidecarLaws0:=HL) (sample_fips LOOPBACK_LEFT_ID 1 2 8) (sample_fips_spec 1 2 8) LOOPBACK_LEFT_ID [1; 2] 7)
    as (s' & Hsend & Hs').
  - apply sample_fips_is. lia.
  - vm_compute. reflexivity.
  - reflexivity.
  - exists s'. split; [exact Hsend | exact Hs'].
Defined.

Lemma fips_gateway_delivery_witness :
  exists x' l' r' y',
    send_frames (H:=fips_executor (H:=fake_driver (FH:=toy_fips) 2 8)) LOOPBACK_LEFT_ID 7 [[1; 2]; [3]] (sample_fips LOOPBACK_LEFT_ID 1 2 8) = (Ok tt, x') /\
    carry (FH:=toy_fips) 2 8 8 2 (fx_sidecar x', fx_sidecar (sample_fips LOOPBACK_RIGHT_ID 2 1 8)) = (Ok tt, (l', r')) /\
    poll_frames (H:=fake_driver (FH:=toy_fips) 2 8) 9 8 3 (with_sidecar r' (sample_fips LOOPBACK_RIGHT_ID 2 1 8)) =
      (Ok [Some (mk_frame LOOPBACK_RIGHT_ID 9 [1; 2]); Some (mk_frame LOOPBACK_RIGHT_ID 9 [3]); None], y').
Proof.
  destruct (fips_gateway_delivery (FH:=toy_fips) (FipsHashLaws0:=toy_fips_laws) 1 2 8 (sample_fips LOOPBACK_LEFT_ID 1 2 8) (sample_fips_spec 1 2 8)
    (sample_fips LOOPBACK_RIGHT_ID 2 1 8) (sample_fips_spec 2 1 8) [[1; 2]; [3]] 7 9 8) as (x' & l' & r' & y' & H1 & H2 & H3 & _).
  1, 2: lia.
  1: apply sample_fips_is; lia.
  1: vm_compute; reflexivity.
  1, 2, 3: reflexivity.
  1: apply sample_fips_is; lia.
  1: vm_compute; reflexivity.
  1, 2, 3, 4, 5: reflexivity.
  1: vm_compute; discriminate.
  1: { apply list.Forall_cons_2; [|apply list.Forall_singleton]; (split; [|split]); vm_compute; discriminate. }
  exists x', l', r', y'. split; [exact H1|]. split; [exact H2 | exact H3].
Defined.

(** A stored frame that is sent when the FIPS link comes up. *)
Lemma fips_gateway_no_loss_witness :
  let x := sample_fips LOOPBACK_LEFT_ID 1 2 1024 in
  let '(rs, (c', x')) := run_gateway_ops (EX:=fips_executor (H:=fake_driver (FH:=toy_fips) 2 1024)) 2 4 [OpLink (Up LOOPBACK_LEFT_ID)] (storing_core, x) in
  rs = [Ok tt] /\ store_map (gc_store c') = ∅ /\ fs_outbound_len (fx_sidecar x') = 1 /\
  exists s' sent, x' = with_sidecar s' x /\
    sidecar_is (FH:=toy_fips) 1 2 1024 s' (spec_with_outbound sent (sample_fips_spec 1 2 1024)).
Proof.
  pose proof (fips_gateway_no_loss (FH:=toy_fips) (FipsHashLaws0:=toy_fips_laws) 1 2 1024 2 4 3 storing_core (sample_fips LOOPBACK_LEFT_ID 1 2 1024)
    (sample_fips_spec 1 2 1024) [OpLink (Up LOOPBACK_LEFT_ID)] ltac:(lia) ltac:(lia) storing_core_ok) as H.
  cbv zeta in *.
  assert (let '(rs, (c', x')) := run_gateway_ops (EX:=fips_executor (H:=fake_driver (FH:=toy_fips) 2 1024)) 2 4 [OpLink (Up LOOPBACK_LEFT_ID)]
      (storing_core, sample_fips LOOPBACK_LEFT_ID 1 2 1024) in
    rs = [Ok tt] /\ store_map (gc_store c') = ∅ /\ fs_outbound_len (fx_sidecar x') = 1) as Hrun by (vm_compute; split; [reflexivity|split; reflexivity]).
  destruct (run_gateway_ops (EX:=fips_executor (H:=fake_driver (FH:=toy_fips) 2 1024)) 2 4 [OpLink (Up LOOPBACK_LEFT_ID)]
      (storing_core, sample_fips LOOPBACK_LEFT_ID 1 2 1024)) as [rs [c' x']].
  destruct Hrun as (Hr & Hm & Hl). destruct H as (_ & _ & s' & sent & Hx & Hs' & _); [apply sample_fips_is; lia|apply list.Forall_singleton; exact I|].
  split; [exact Hr|]. split; [exact Hm|]. split; [exact Hl|]. exists s', sent. split; [exact Hx|exact Hs'].
Defined.
